(* ===== verification/_CoqProject ===== *)
-Q . S2P
Prelude.v
Buffer.v
Ring.v
Memory.v
Bitmap.v
Pmm.v
Vmm.v
KHeap.v
Heap.v
KString.v
Convert.v
LinkedList.v
Cstring.v
ArmDiv.v
Crc.v
BlockHash.v
Md5.v
Sha1.v
Utf8.v
Base64.v
Url.v
Net.v
Socket.v
Gdb.v
Regexp.v
P9p.v
Option.v
Channel.v
Crt0.v
Job.v
Slang.v
Console.v
Descriptor.v
Dns.v
Mtwist.v
Archive.v
Fixed.v
Keys.v
GbState.v
GbMemory.v
GbOps.v
GbIsa.v
GbCpu.v
GbRun.v
GbVideo.v
GbSystem.v
GbFrame.v
GbBoot.v
GbApp.v
WmStrpool.v
WmWidget.v
WmPool.v
WmParser.v
