(* ===== verification/Prelude.v ===== *)
(** * HeisenKernel (Alinix): a verification development

    ** The program

    The repository is a 32-bit x86 hobby operating system.  Its own logic is
    in two trees of C code, and both are modelled here:

    - [src/kernel], the kernel the Makefile links: the physical frame
      allocator ([drivers/mm/mm.c]), the virtual memory manager
      ([drivers/vmm/vmm.c]) that takes its frames from it, the kernel heap
      ([drivers/mm/kheap.c]) on the pages the latter maps, the chunk heap of
      [core/heap.c], the memory, string and number conversion routines
      ([memory/memory.c], [core/string.c], [core/convert.c]), the descriptor
      tables ([core/gdt.c], [idt.c], [tss.c]), the text screen
      ([core/bootconsole.c]), the remote debugger ([gdb/i386-stub.c]) and the
      lookup of a file in an archive ([drivers/tar]);
    - [src/libz], the runtime of its user programs: ring and byte buffers,
      linked lists under a spinlock, strings and formatting, the ARM division
      routines, UTF-8, Base64, URLs, random numbers, keyboard, archives
      ([fudge/]), checksums and digests ([hash/]), packet headers and domain
      names ([net/]), the socket layer ([socket/]) that builds and reads those
      headers, and the process runtime ([abi/]): options, channels, system call
      wrappers, start-up code and jobs.  Of the user programs in [src/src], the
      shell language ([utils/slang.c]), the reading side of the name
      resolver ([utils/dns.c]), the emulator of a game console
      ([gameboy/]) and the widgets of the window manager with the command
      language of its clients ([wm/]) are modelled on top of it.

    The other trees of the repository are imported copies of other systems,
    drivers and applications; PROJECT.json lists them part by part.

    ** Machine model

    The code is compiled with [-m32].  A machine integer is the [Z] it denotes
    and every operation that can leave the range of its C type is followed by
    the conversion to that type ([u8] ... [s32] below).  Code that works on one
    object at a time ([Buffer], [Ring], [KString], [Cstring], [Base64], [Url],
    [Net], [Gdb], [Console], [Dns], [Archive], the emulator) sees the object as the list of its bytes, and an access
    outside it is [None].  Code that computes addresses ([Memory], [Pmm],
    [Vmm], [KHeap], [Heap], [Descriptor], the Base64 decoder) runs on a flat memory of bytes
    or a store of records indexed by address, so that aliasing and stray writes
    are visible.  A C loop is a [Fixpoint] over the data it consumes or over a
    [nat] of fuel; a function with fuel returns [None] when it is used up, and
    the theorems about it exhibit a fuel for which a result is returned.

    ** Files

    - [Prelude]: machine integers, tactics, hint databases and the lemmas on
      lists, options, words and bits that several components share.
    - [Buffer], [Ring]: [libz/fudge/buffer.c], [ring.c].  A ring is a record of
      its bytes and 32-bit indices; [ring_implements_deque] is a refinement of
      a bounded double-ended queue.
    - [Memory]: [kernel/memory/memory.c]; [memmove] is proved for overlapping
      regions.
    - [Bitmap], [Pmm]: the frame bitmap and [drivers/mm/mm.c]; allocation
      returns the lowest free frame, freeing undoes it.
    - [Vmm]: [drivers/vmm/vmm.c] on page directories and tables that lie in
      memory; what mapping and unmapping do to the translation
      [get_phys_addr] of every address.
    - [KHeap], [Heap]: the two heaps, on header lists in memory.
    - [KString], [Convert]: [core/string.c] and [core/convert.c].
    - [LinkedList] (with the Module [Spinlock]): [libz/fudge/list.c] and
      [spinlock.c]; the latter is a step relation over any number of threads,
      with mutual exclusion as an invariant.
    - [Cstring], [ArmDiv], [Utf8], [Base64], [Url]: the [libz/fudge] files of
      these names.  [Url] has a definition for each state of the parser, and
      the round trip through parser and printer.
    - [Crc], [BlockHash], [Md5], [Sha1]: [libz/hash].  [BlockHash] proves the
      streaming code once, against a class that [Md5] and [Sha1] instantiate.
    - [Net], [Socket]: [libz/net] and [libz/socket/socket.c].  The headers are
      bytes of frames; [Socket] composes the builders of one side with the
      handlers of the other, up to a TCP connection and its transfers.
    - [Gdb]: [kernel/gdb/i386-stub.c], the remote debugger: packets on the line,
      requests, resuming.  A small state monad with the outcomes of a piece of
      the stub (return, wait for input, jump to the program, go wrong).
    - [Regexp]: [libz/fudge/regexp.c], a matcher in continuation-passing style;
      its function pointers are an inductive type.  [regexp_match_correct]
      compares it with the language of the pattern.
    - [P9p]: [libz/fudge/p9p.c], the messages of the 9P protocol; every message
      is built and read back, but for the directory entries that are not written
      ([p9p_roundtrip]).

    - [Option]: [libz/abi/option.c], the table of named settings, refined to a
      finite map of names to values.
    - [Channel]: [libz/abi/channel.c], [call.c] and [fudge/message.c] in a monad
      over the process state and the outcomes of its system calls; messages,
      listeners, and the loops that wait for one.
    - [Crt0]: [libz/abi/crt0.c], the start of every program; composes [Channel]
      and [Option]: what a redirection or an option sent by a parent does.
    - [Job]: [libz/abi/job.c], pipelines of workers started one after the other.
    - [Slang]: [src/utils/slang.c], the shell: a line becomes the message that
      [Job] parses ([shell_line_to_job]).
    - [Console]: [kernel/core/bootconsole.c]; the screen as the last 25 lines of
      a page that grows, when the copy to the serial line is off.
    - [Descriptor]: [kernel/core/gdt.c], [idt.c], [tss.c]; the bytes the code
      stores against what the processor and the interrupt controllers read.
    - [Dns]: [libz/net/dns.c] and [src/utils/dns.c]; names in a packet against
      the meaning RFC 1035 gives to the bytes, compression included.
    - [Mtwist]: [libz/fudge/mtwist.c] and [time.c]; the in-place generator
      against the recurrence of MT19937, the time stamp against the calendar.
    - [Archive]: [kernel/drivers/tar/USTAR/ustar.c], [libz/fudge/tar.c],
      [cpio.c] and [libz/image/pcx.c].
    - [Fixed]: the integer functions of [libz/math/math.c].
    - [Keys]: [libz/fudge/keys.c], scan codes to keys and modifiers.
    - [GbState], [GbMemory], [GbOps]: [src/gameboy/cpu.c] and [cpu.h], the Game
      Boy emulator.  [struct gb_s] field by field and what makes it well-formed;
      [__gb_read] and [__gb_write] with the bank switch of the cartridge; the
      arms of the two instruction switches, a definition for eight opcodes.
    - [GbIsa], [GbCpu], [GbRun]: the instruction set as a reference (opcodes
      decoded by their fields, instructions by their arithmetic), the proof that
      every arm of the switches is the instruction ([execute_isa]), and that
      every instruction keeps the state well-formed.
    - [GbVideo]: [__gb_draw_line]; its loops against the pixel that the tile maps
      and the sprite table define at each column, with the two exceptions
      that [line_pixels] states.
    - [GbSystem], [GbFrame], [GbBoot]: [__gb_step_cpu], [gb_run_frame],
      [gb_reset], [gb_init] and the clock of the cartridge: the invariant [sound]
      of a step, interrupts, how long a frame takes.
    - [GbApp]: [gameboy.c] and [video.c], the program around the console: keys
      (on [Keys]), scaling, the event loop, and its safety ([emulator_safe]).
    - [WmStrpool], [WmWidget], [WmPool], [WmParser]: [src/wm], the window
      manager.  [strpool.c], the strings of all widgets in one array; [util.c],
      [attr.c] and [widget.c], a widget with its attributes and states; [pool.c],
      the lists of widgets, on the sequences that [LinkedList] establishes;
      [parser.c], the commands of a client.  Each file uses the one before, and
      the abstract [scene] of [WmPool] is what the commands are proved to build.

    ** What the theorems show

    - Refinement and equivalence: the ring against a deque, the chunk list of
      [Heap] against disjoint intervals, CRC against polynomial division, the
      digests against their one-shot definitions, the software division against
      [Z.div], the regular expression matcher against the language of the
      pattern, the option table against a map, the screen against a page of
      lines, the random numbers against MT19937, the square root against
      [Z.sqrt], the interpreter of the emulator against the instruction set of
      the console, its picture against the tile maps, the strings of the window
      manager against a finite map, its widgets against a sequence of widgets
      with their strings, its parser against the operations a text stands for.
    - Functional behaviour: the allocators, the page tables, the heaps, the
      formatter, the list operations, the packet checksums, connection set-up,
      the operations on a channel, options and redirections between processes,
      the shell line to the job it
      starts, interrupts to their handlers, archive lookup, the answers of a
      name server, decimal arithmetic and the clock of the emulated console, the
      scaling of its picture, the raising of a window with all that is in it.
    - Safety and termination: the emulator, whatever program it runs and
      whatever events arrive, stays within its arrays; a frame ends within 17557
      steps or stops advancing; polling a channel, the debugger and the deletion
      of a widget with its children end.
    - Round trips: UTF-8, numbers and their texts, URLs, frame allocation,
      memory and registers over the debugger line, 9P messages, options sent
      to a process, domain names, lines of an image, an interrupt and the return
      from it.
    - Types and invariants: the process state under the channel operations,
      mutual exclusion, list linkage, what a TCP transfer delivers, the order of
      the workers of a job, the modifiers of the keyboard.
    - Errors: for some functions the behaviour proved is a defect of the code
      (recorded as findings): [Pmm.pmm_init_marks_first_gigabyte],
      [KHeap.kmalloc_writes_past_heap], [Base64.base64_decode_at_null],
      [Channel.channel_read_any_hangs], [Dns.dns_pointer_loop_hangs],
      [Descriptor.tss_install_faults], [Mtwist.time_unixtime_late],
      [GbFrame.frame_hangs], [GbApp.getromname_overflow],
      [WmParser.comment_never_ends], [WmParser.self_in_self_never_ends].

    ** Fuel and bounds

    Loops over an object use the length of the object, loops over a count use
    the count, the division loops 32 steps (one for each bit), the hash loops
    the number of blocks.  The loops of the C code that may not end (waiting
    for a lock, for a frame, for a character of a line) are step relations or
    consume a list of the inputs that arrive, and end with a result that says
    that the input is exhausted; or, in [Dns] and [Archive], where the bytes
    of a packet or file decide how long a loop runs, they return an [outcome]
    that tells a result from a fault and from fuel used up, and a theorem says
    that a result is reached [eventually], from some fuel on, or never.  The
    frame loop of the emulator has a count of steps and tells a frame that ended
    from one that goes on; 17557 is 154 lines of 456 cycles, with 4 cycles for the
    shortest instruction, and one.  A walk over the widgets has a step for each
    of them and one, a deletion the square of that, and a loop of the parser a
    turn for each character and two; the theorems show them to be enough.

    ** Not modelled

    Code whose behaviour is that of a device (drivers, the interrupt handlers,
    the hardware address lookup of [socket_resolvelocal]); assembly other than
    the atomic exchange and the loading of a table; diagnostics printed for a developer;
    [Malloc] and the initialisation of [core/heap.c], which call an address
    space layer that the repository has no code for; floating-point code, the
    audio of the emulator among it; the messages by which the emulator talks to
    the window manager; layout, drawing and input events of the window manager,
    which rest on fonts and files; the vendored trees.  Reading a word through a
    misaligned pointer, timing and caches have no counterpart in the model.

    ** Plan

    What could follow: the file server of [src/test/t_disk.c] on the cpio functions and the
    9P messages, the font reader [libz/fudge/pcf.c], and on it the text layout
    and the drawing of [src/wm].
*)
From stdpp Require Export prelude gmap.
From Stdlib Require Export ZArith Lia.
From coqutil Require Export Z.bitblast.

#[global] Set Warnings "-notation-overridden,-clear-no-such-hyp".

Local Open Scope Z_scope.

(** ** Machine integers

    The sources are compiled for a 32-bit little-endian x86 ([-m32]): [char] is
    8 bits and signed, [unsigned short] 16 bits, [int] and pointers 32 bits.
    A machine value is the [Z] it denotes; every operation that can leave the
    range is followed by the conversion the C type performs. *)

Definition u8 (z : Z) : Z := z mod 256.
Definition u16 (z : Z) : Z := z mod 65536.
Definition u32 (z : Z) : Z := z mod 4294967296.

Definition s8 (z : Z) : Z := (z + 128) mod 256 - 128.
Definition s16 (z : Z) : Z := (z + 32768) mod 65536 - 32768.
Definition s32 (z : Z) : Z := (z + 2147483648) mod 4294967296 - 2147483648.

(** [UINT_MAX], as the sources write it: [~(unsigned int)0]. *)
Definition max32 : Z := 4294967295.

(** Tactics of the development: [zmod] decides linear goals with division and
    remainder by constants, [zunfold] exposes the conversions above. *)
Ltac zunfold := unfold u8, u16, u32, s8, s16, s32, max32 in *.
Ltac zmod := Z.div_mod_to_equations; lia.
Ltac zwrap := zunfold; zmod.

Create HintDb words.
Create Rewrite HintDb words.

Lemma u8_range z : 0 <= u8 z < 256.
Proof. unfold u8. apply Z.mod_pos_bound. lia. Qed.

Lemma u16_range z : 0 <= u16 z < 65536.
Proof. unfold u16. apply Z.mod_pos_bound. lia. Qed.

Lemma u32_range z : 0 <= u32 z < 4294967296.
Proof. unfold u32. apply Z.mod_pos_bound. lia. Qed.

Lemma u8_small z : 0 <= z < 256 -> u8 z = z.
Proof. intros. unfold u8. by apply Z.mod_small. Qed.

Lemma u16_small z : 0 <= z < 65536 -> u16 z = z.
Proof. intros. unfold u16. by apply Z.mod_small. Qed.

Lemma u32_small z : 0 <= z < 4294967296 -> u32 z = z.
Proof. intros. unfold u32. by apply Z.mod_small. Qed.

Lemma s16_small z : -32768 <= z < 32768 -> s16 z = z.
Proof. intros. zwrap. Qed.

Lemma s32_small z : -2147483648 <= z < 2147483648 -> s32 z = z.
Proof. intros. unfold s32. rewrite Z.mod_small; lia. Qed.

Lemma u32_idem z : u32 (u32 z) = u32 z.
Proof. unfold u32. apply Z.mod_mod. lia. Qed.

Lemma u32_add_l a b : u32 (u32 a + b) = u32 (a + b).
Proof. unfold u32. apply Zplus_mod_idemp_l. Qed.

Lemma u32_add_r a b : u32 (a + u32 b) = u32 (a + b).
Proof. unfold u32. apply Zplus_mod_idemp_r. Qed.

Lemma u32_sub_l a b : u32 (u32 a - b) = u32 (a - b).
Proof. unfold u32. apply Zminus_mod_idemp_l. Qed.

Lemma u32_sub_r a b : u32 (a - u32 b) = u32 (a - b).
Proof. unfold u32. apply Zminus_mod_idemp_r. Qed.

#[export] Hint Resolve u8_range u16_range u32_range : words.
#[export] Hint Rewrite u32_idem u32_add_l u32_add_r u32_sub_l u32_sub_r : words.

(** A power of two divides the word size, so reducing a word modulo it does
    not see the wrap-around. *)
Lemma u32_mod_pow2 z k :
  0 <= k <= 32 -> u32 z mod 2 ^ k = z mod 2 ^ k.
Proof.
  intros Hk. unfold u32. apply Z.mod_mod_divide.
  exists (2 ^ (32 - k)). rewrite <- Z.pow_add_r by lia.
  by replace (32 - k + k) with 32 by lia.
Qed.

(** Masking with [2^k - 1] is the remainder. *)
Lemma land_pow2_pred z k : 0 <= k -> Z.land z (2 ^ k - 1) = z mod 2 ^ k.
Proof.
  intros. rewrite <- Z.land_ones by done. f_equal. rewrite Z.ones_equiv. lia.
Qed.

(** Two numbers without common bits add without carries. *)
Lemma lor_add a b : Z.land a b = 0 -> Z.lor a b = a + b.
Proof. apply Z.or_to_plus. Qed.

(** A shifted value with a low part below it. *)
Lemma lor_shift x y k : 0 <= k -> 0 <= y < 2 ^ k -> Z.lor (Z.shiftl x k) y = x * 2 ^ k + y.
Proof.
  intros Hk Hy. rewrite lor_add; [by rewrite Z.shiftl_mul_pow2|].
  apply Z.bits_inj'. intros n Hn. rewrite Z.land_spec, Z.bits_0.
  destruct (Z.ltb_spec n k).
  - by rewrite Z.shiftl_spec_low.
  - rewrite <- (Z.mod_small y (2 ^ k)) by done. rewrite Z.mod_pow2_bits_high by lia. apply andb_false_r.
Qed.

(** Masking the offset inside a 4096-byte page. *)
Lemma land_page x : 0 <= x < 4294967296 -> Z.land x 0xFFFFF000 = x - x mod 4096.
Proof.
  intros Hx.
  assert (Z.land x 0xFFFFF000 =
          Z.shiftl (Z.land (Z.shiftr x 12) (Z.ones 20)) 12) as ->.
  { change 0xFFFFF000 with (Z.shiftl (Z.ones 20) 12). Z.bitblast. }
  rewrite Z.land_ones, Z.shiftl_mul_pow2, Z.shiftr_div_pow2 by lia.
  change (2 ^ 12) with 4096. change (2 ^ 20) with 1048576. zmod.
Qed.

(** ** Byte objects

    A C object of [n] bytes is a list of [n] byte values; a pointer into it is
    an index.  [rd] and [wr] are the one-byte accesses: [None] is an access
    outside the object, which C leaves undefined. *)

Definition rd (b : list Z) (i : Z) : option Z :=
  if decide (0 <= i) then b !! Z.to_nat i else None.

Definition wr (b : list Z) (i v : Z) : option (list Z) :=
  if decide (0 <= i < Z.of_nat (length b)) then Some (<[Z.to_nat i := v]> b)
  else None.

(** A byte value. *)
Definition is_byte (b : Z) : Prop := 0 <= b < 256.

(** [b[0..i) ++ xs ++ b[i+|xs| ..)]: the object after the bytes [xs] were
    stored from index [i] on. *)
Definition splice (b : list Z) (i : nat) (xs : list Z) : list Z :=
  take i b ++ xs ++ drop (i + length xs) b.

(** The [n] bytes of an object from index [i] on. *)
Definition slice (b : list Z) (i n : nat) : list Z := take n (drop i b).

Lemma rd_Some b i : 0 <= i < Z.of_nat (length b) -> exists v, rd b i = Some v.
Proof.
  intros Hi. unfold rd. rewrite decide_True by lia.
  apply lookup_lt_is_Some. lia.
Qed.

Lemma rd_nat b (i : nat) : rd b (Z.of_nat i) = b !! i.
Proof. unfold rd. rewrite decide_True by lia. by rewrite Nat2Z.id. Qed.

Lemma rd_None b i : Z.of_nat (length b) <= i -> rd b i = None.
Proof.
  intros Hi. unfold rd. case_decide; [|done]. apply lookup_ge_None. lia.
Qed.

Lemma rd_lookup b i v : rd b i = Some v -> b !! Z.to_nat i = Some v.
Proof. unfold rd. by case_decide. Qed.

Lemma rd_lt b i v : rd b i = Some v -> 0 <= i < Z.of_nat (length b).
Proof.
  unfold rd. case_decide; [|done]. intros Hl%lookup_lt_Some. lia.
Qed.

Lemma wr_Some b i v :
  0 <= i < Z.of_nat (length b) -> wr b i v = Some (<[Z.to_nat i := v]> b).
Proof. intros. unfold wr. by rewrite decide_True. Qed.

Lemma wr_None b i v : ~ (0 <= i < Z.of_nat (length b)) -> wr b i v = None.
Proof. intros. unfold wr. by rewrite decide_False. Qed.

Lemma wr_length b i v b' : wr b i v = Some b' -> length b' = length b.
Proof.
  unfold wr. case_decide; [|done]. intros [= <-]. apply length_insert.
Qed.

Lemma length_splice b i xs :
  (i + length xs <= length b)%nat -> length (splice b i xs) = length b.
Proof.
  intros. unfold splice. rewrite !length_app, length_take, length_drop. lia.
Qed.

Lemma length_slice b i n :
  (i + n <= length b)%nat -> length (slice b i n) = n.
Proof. intros. unfold slice. rewrite length_take, length_drop. lia. Qed.

Lemma splice_nil b i : splice b i [] = b.
Proof. unfold splice. rewrite Nat.add_0_r. apply take_drop. Qed.

Lemma splice_whole b xs : length xs = length b -> splice b 0 xs = xs.
Proof.
  intros H. unfold splice. rewrite take_0. simpl. rewrite drop_ge by lia.
  apply app_nil_r.
Qed.

Lemma splice_0 b xs : splice b 0 xs = xs ++ drop (length xs) b.
Proof. unfold splice. by rewrite take_0. Qed.

(** Reading inside and outside the spliced part. *)
Lemma splice_lookup_in b i xs j :
  (i + length xs <= length b)%nat -> (i <= j < i + length xs)%nat ->
  splice b i xs !! j = xs !! (j - i)%nat.
Proof.
  intros Hb Hj. unfold splice.
  rewrite lookup_app_r by (rewrite length_take; lia).
  rewrite length_take_le by lia. by rewrite lookup_app_l by lia.
Qed.

Lemma splice_lookup_out b i xs j :
  (i + length xs <= length b)%nat -> ~ (i <= j < i + length xs)%nat ->
  splice b i xs !! j = b !! j.
Proof.
  intros Hb Hj. unfold splice. destruct (decide (j < i)%nat).
  - rewrite lookup_app_l by (rewrite length_take; lia).
    by apply lookup_take_lt.
  - rewrite lookup_app_r, length_take_le, lookup_app_r, lookup_drop
      by (rewrite ?length_take; lia).
    f_equal. lia.
Qed.

(** Storing one more byte to the right of a spliced block extends the block. *)
Lemma splice_cons b i x xs :
  (i + S (length xs) <= length b)%nat ->
  splice (<[i := x]> b) (S i) xs = splice b i (x :: xs).
Proof.
  intros Hb. apply list_eq. intros j. simpl in *.
  destruct (decide (S i <= j < S i + length xs)%nat).
  - rewrite splice_lookup_in, splice_lookup_in
      by (rewrite ?length_insert; simpl; lia).
    replace (j - i)%nat with (S (j - S i)) by lia. done.
  - rewrite splice_lookup_out by (rewrite ?length_insert; lia).
    destruct (decide (i = j)) as [->|].
    + rewrite list_lookup_insert_eq by lia.
      rewrite splice_lookup_in by (simpl; lia). by rewrite Nat.sub_diag.
    + rewrite list_lookup_insert_ne by done.
      by rewrite splice_lookup_out by (simpl; lia).
Qed.

(** Two adjacent splices are one. *)
Lemma splice_app b i xs ys :
  (i + length xs + length ys <= length b)%nat ->
  splice (splice b i xs) (i + length xs) ys = splice b i (xs ++ ys).
Proof.
  intros Hb. apply list_eq. intros j.
  assert (length (splice b i xs) = length b) as Hl
    by (apply length_splice; lia).
  destruct (decide (i + length xs <= j < i + length xs + length ys)%nat).
  - rewrite splice_lookup_in, splice_lookup_in by (rewrite ?length_app; lia).
    rewrite lookup_app_r by lia. f_equal. lia.
  - rewrite splice_lookup_out by lia.
    destruct (decide (i <= j < i + length xs)%nat).
    + rewrite !splice_lookup_in by (rewrite ?length_app; lia).
      by rewrite lookup_app_l by lia.
    + by rewrite !splice_lookup_out by (rewrite ?length_app; lia).
Qed.

Lemma wr_one b (o : nat) v : (o < length b)%nat -> wr b (Z.of_nat o) v = Some (splice b o [v]).
Proof.
  intros Ho. rewrite wr_Some, Nat2Z.id by lia. f_equal.
  rewrite <- (splice_cons b o v []) by (cbn [length]; lia). by rewrite splice_nil.
Qed.

Lemma slice_S b i n x :
  b !! i = Some x -> slice b i (S n) = x :: slice b (S i) n.
Proof. intros H. unfold slice. by rewrite (drop_S _ _ _ H). Qed.

Lemma slice_0 b i : slice b i 0 = [].
Proof. done. Qed.

(** Access at the end of a prefix, and moving one element into the prefix. *)
Lemma rd_mid (p : list Z) x q : rd (p ++ x :: q) (Z.of_nat (length p)) = Some x.
Proof. rewrite rd_nat. by rewrite list_lookup_middle. Qed.

Lemma wr_mid (p : list Z) x q v :
  wr (p ++ x :: q) (Z.of_nat (length p)) v = Some (p ++ v :: q).
Proof.
  rewrite wr_Some by (rewrite length_app; simpl; lia).
  rewrite Nat2Z.id. f_equal. replace (length p) with (length p + 0)%nat by lia.
  by rewrite insert_app_r.
Qed.

Lemma mid_snoc (p : list Z) x q : p ++ x :: q = (p ++ [x]) ++ q.
Proof. by rewrite <- app_assoc. Qed.

Lemma length_snoc (p : list Z) x : Z.of_nat (length (p ++ [x])) = Z.of_nat (length p) + 1.
Proof. rewrite length_app. simpl. lia. Qed.

(** A nul-terminated string in memory: the characters, the nul, and whatever
    follows in the object. *)
Definition cstr (s : list Z) (obj : list Z) : Prop :=
  Forall (fun c => c <> 0) s /\ exists rest, obj = s ++ 0 :: rest.

(** ** Arithmetic and list facts the components share *)

Lemma mod_eq_close a b n :
  0 < n -> a mod n = b mod n -> 0 <= b - a < n -> a = b.
Proof.
  intros Hn Heq Hr.
  assert ((b - a) mod n = 0) as H0 by (rewrite Zminus_mod, Heq, Z.sub_diag; done).
  rewrite Z.mod_small in H0 by done. lia.
Qed.

Lemma fmap_seq_ext {A} (f g : nat -> A) i n :
  (forall j, (i <= j < i + n)%nat -> f j = g j) -> f <$> seq i n = g <$> seq i n.
Proof. intros H. apply list_fmap_ext. intros ? x Hx%lookup_seq. apply H. lia. Qed.

Lemma take_snoc_total (l : list Z) i :
  (i < length l)%nat -> take (S i) l = take i l ++ [l !!! i].
Proof.
  intros Hi. destruct (lookup_lt_is_Some_2 l i Hi) as [x Hx].
  rewrite (take_S_r _ _ _ Hx). by rewrite (list_lookup_total_correct _ _ _ Hx).
Qed.

Lemma drop_cons_total (l : list Z) i :
  (i < length l)%nat -> drop i l = l !!! i :: drop (S i) l.
Proof.
  intros Hi. destruct (lookup_lt_is_Some_2 l i Hi) as [x Hx].
  rewrite (drop_S _ _ _ Hx). by rewrite (list_lookup_total_correct _ _ _ Hx).
Qed.

(** ** Facts checked on every number of a range *)

Lemma byte_range_ind (P : Z -> bool) (lo : Z) (n : nat) :
  forallb P ((fun i => lo + Z.of_nat i) <$> seq 0 n) = true ->
  forall c, lo <= c < lo + Z.of_nat n -> P c = true.
Proof.
  intros Hall c Hc. rewrite forallb_forall in Hall. apply Hall, list_elem_of_In, list_elem_of_fmap.
  exists (Z.to_nat (c - lo)). split; [lia|]. apply elem_of_seq. lia.
Qed.

(** [in_range H P lo n c]: [H] is [P c], which computes to true on all the [n]
    numbers from [lo] on. *)
Ltac in_range H P lo n c :=
  pose proof (byte_range_ind P lo n ltac:(vm_compute; reflexivity) c ltac:(lia)) as H; cbn beta in H.

(** ** Pieces of an object *)

Lemma drop_slice (a : list Z) i n : drop i a = slice a i n ++ drop (i + n) a.
Proof. unfold slice. rewrite <- drop_drop. by rewrite take_drop. Qed.

Lemma slice_app_l (a b : list Z) i n : (i + n <= length a)%nat -> slice (a ++ b) i n = slice a i n.
Proof. intros H. unfold slice. rewrite drop_app_le by lia. rewrite take_app_le; [done|]. rewrite length_drop. lia. Qed.

(** ** Loops that need not end *)

(** The result of a loop run with fuel: its value, an access outside an object,
    or not there yet. *)
Inductive outcome (A : Type) := Done (a : A) | Fault | More.
Arguments Done {A} a.
Arguments Fault {A}.
Arguments More {A}.

#[export] Instance outcome_ret : MRet outcome := fun A a => Done a.
#[export] Instance outcome_bind : MBind outcome := fun A B f o =>
  match o with Done a => f a | Fault => Fault | More => More end.

(** An access that may be outside its object. *)
Definition acc {A} (o : option A) : outcome A := from_option Done Fault o.

(** [P] holds from some fuel on. *)
Definition eventually (P : nat -> Prop) : Prop := exists n, forall fuel, (n <= fuel)%nat -> P fuel.

Lemma eventually_and P Q : eventually P -> eventually Q -> eventually (fun n => P n /\ Q n).
Proof. intros [n Hn] [m Hm]. exists (n + m)%nat. intros fuel Hf. split; [apply Hn|apply Hm]; lia. Qed.

Lemma eventually_mono (P Q : nat -> Prop) : (forall n, P n -> Q n) -> eventually P -> eventually Q.
Proof. intros H [n Hn]. exists n. auto. Qed.

Lemma eventually_always (P : nat -> Prop) : (forall n, P n) -> eventually P.
Proof. intros H. by exists 0%nat. Qed.

(** A turn of the loop uses one unit. *)
Lemma eventually_S (P : nat -> Prop) : eventually (fun n => P (S n)) -> eventually P.
Proof. intros [n Hn]. exists (S n). intros [|fuel] Hf; [lia|]. apply Hn. lia. Qed.
