(* ===== verification/Buffer.v ===== *)
(** * Byte buffers (src/libz/fudge/buffer.c)

    Every [void *] parameter is a byte object with an index into it (see
    [Prelude]); a function is undefined ([None]) exactly when the C function
    touches a byte outside one of its objects.  Distinct parameters are
    distinct objects. *)
From S2P Require Import Prelude.

Local Open Scope Z_scope.

(** ** Operations *)

Fixpoint buffer_clear_loop (n : nat) (out : list Z) (op : Z) : option (list Z) :=
  match n with
  | O => Some out
  | S n => out' ← wr out op 0; buffer_clear_loop n out' (op + 1)
  end.

Definition buffer_clear (out : list Z) (op count : Z) : option (list Z) :=
  buffer_clear_loop (Z.to_nat count) out op.

Fixpoint buffer_copy_loop (n : nat) (out : list Z) (op : Z)
    (inp : list Z) (ip : Z) : option (list Z) :=
  match n with
  | O => Some out
  | S n =>
      v ← rd inp ip;
      out' ← wr out op v;
      buffer_copy_loop n out' (op + 1) inp (ip + 1)
  end.

Definition buffer_copy (out : list Z) (op : Z) (inp : list Z) (ip count : Z)
    : option (list Z) :=
  buffer_copy_loop (Z.to_nat count) out op inp ip.

(** [while (offset < count)] runs [count - offset] times at most. *)
Fixpoint buffer_eachbyte_loop (n : nat) (inp : list Z) (value offset : Z)
    : option Z :=
  match n with
  | O => Some 0
  | S n =>
      v ← rd inp offset;
      if v =? value then Some (u32 (offset + 1))
      else buffer_eachbyte_loop n inp value (u32 (offset + 1))
  end.

Definition buffer_eachbyte (inp : list Z) (count value offset : Z) : option Z :=
  buffer_eachbyte_loop (Z.to_nat (count - offset)) inp value offset.

Definition buffer_firstbyte (inp : list Z) (count value : Z) : option Z :=
  buffer_eachbyte inp count value 0.

(** The two loops that call [buffer_eachbyte] until it reports 0; the offset
    grows by at least one per turn, so [count + 1] turns are enough. *)
Fixpoint buffer_lastbyte_loop (fuel : nat) (inp : list Z)
    (count value offset last : Z) : option Z :=
  match fuel with
  | O => None
  | S fuel =>
      o ← buffer_eachbyte inp count value offset;
      if o =? 0 then Some last
      else buffer_lastbyte_loop fuel inp count value o o
  end.

Definition buffer_lastbyte (inp : list Z) (count value : Z) : option Z :=
  buffer_lastbyte_loop (S (Z.to_nat count)) inp count value 0 0.

Fixpoint buffer_countbyte_loop (fuel : nat) (inp : list Z)
    (count value offset total : Z) : option Z :=
  match fuel with
  | O => None
  | S fuel =>
      o ← buffer_eachbyte inp count value offset;
      if o =? 0 then Some total
      else buffer_countbyte_loop fuel inp count value o (u32 (total + 1))
  end.

Definition buffer_countbyte (inp : list Z) (count value : Z) : option Z :=
  buffer_countbyte_loop (S (Z.to_nat count)) inp count value 0 0.

Fixpoint buffer_findbyte_loop (n : nat) (inp : list Z) (value offset : Z)
    : option Z :=
  match n with
  | O => Some offset
  | S n =>
      v ← rd inp offset;
      if v =? value then Some offset
      else buffer_findbyte_loop n inp value (u32 (offset + 1))
  end.

Definition buffer_findbyte (inp : list Z) (count value : Z) : option Z :=
  buffer_findbyte_loop (Z.to_nat count) inp value 0.

Fixpoint buffer_match_loop (n : nat) (in1 : list Z) (ip1 : Z)
    (in2 : list Z) (ip2 : Z) : option Z :=
  match n with
  | O => Some 1
  | S n =>
      v1 ← rd in1 ip1;
      v2 ← rd in2 ip2;
      if negb (v1 =? v2) then Some 0
      else buffer_match_loop n in1 (ip1 + 1) in2 (ip2 + 1)
  end.

Definition buffer_match (in1 in2 : list Z) (count : Z) : option Z :=
  buffer_match_loop (Z.to_nat count) in1 0 in2 0.

(** The result is the object [out] after the call and the returned count. *)
Definition buffer_read (out : list Z) (ocount : Z) (inp : list Z)
    (icount offset : Z) : option (list Z * Z) :=
  if icount <=? offset then Some (out, 0)
  else
    let ocount :=
      if u32 (icount - offset) <? ocount then u32 (icount - offset) else ocount in
    out' ← buffer_copy out 0 inp offset ocount;
    Some (out', ocount).

Definition buffer_write (out : list Z) (ocount : Z) (inp : list Z)
    (icount offset : Z) : option (list Z * Z) :=
  if ocount <=? offset then Some (out, 0)
  else
    let icount :=
      if u32 (ocount - offset) <? icount then u32 (ocount - offset) else icount in
    out' ← buffer_copy out offset inp 0 icount;
    Some (out', icount).

(** The returned pointer: [None] is the null pointer, [Some p] is [in + p]. *)
Fixpoint buffer_tindex_loop (k : nat) (inp : list Z) (count c index n i : Z)
    : option (option Z) :=
  match k with
  | O => Some None
  | S k =>
      v ← rd inp i;
      if v =? c then
        if u32 (n + 1) =? index then
          Some (if i =? u32 (count - 1) then None else Some (i + 1))
        else buffer_tindex_loop k inp count c index (u32 (n + 1)) (u32 (i + 1))
      else buffer_tindex_loop k inp count c index n (u32 (i + 1))
  end.

Definition buffer_tindex (inp : list Z) (count c index : Z)
    : option (option Z) :=
  if negb (index =? 0) then
    buffer_tindex_loop (Z.to_nat count) inp count c index 0 0
  else Some (Some 0).

(** ** Shared lemmas: what the loops compute *)

Lemma buffer_clear_spec out op count :
  0 <= op -> 0 <= count -> op + count <= Z.of_nat (length out) ->
  buffer_clear out op count =
    Some (splice out (Z.to_nat op) (replicate (Z.to_nat count) 0)).
Proof.
  unfold buffer_clear. intros Hop Hc Hb.
  assert (op + Z.of_nat (Z.to_nat count) <= Z.of_nat (length out)) as Hn by lia.
  clear Hb Hc. revert out op Hop Hn.
  induction (Z.to_nat count) as [|n IH]; intros out op Hop Hn; simpl.
  - by rewrite splice_nil.
  - rewrite wr_Some by lia. simpl.
    rewrite IH by (rewrite ?length_insert; lia).
    f_equal. rewrite Z2Nat.inj_add by lia.
    replace (Z.to_nat op + Z.to_nat 1)%nat with (S (Z.to_nat op)) by lia.
    apply splice_cons. rewrite length_replicate. lia.
Qed.

Lemma buffer_copy_loop_spec n out op inp ip :
  0 <= op -> op + Z.of_nat n <= Z.of_nat (length out) ->
  0 <= ip -> ip + Z.of_nat n <= Z.of_nat (length inp) ->
  buffer_copy_loop n out op inp ip =
    Some (splice out (Z.to_nat op) (slice inp (Z.to_nat ip) n)).
Proof.
  revert out op ip. induction n as [|n IH]; intros out op ip Ho Hob Hi Hib; simpl.
  - by rewrite slice_0, splice_nil.
  - destruct (rd_Some inp ip) as [v Hv]; [lia|]. rewrite Hv. simpl.
    rewrite wr_Some by lia. simpl.
    rewrite IH by (rewrite ?length_insert; lia). f_equal.
    rewrite !Z2Nat.inj_add by lia.
    replace (Z.to_nat op + Z.to_nat 1)%nat with (S (Z.to_nat op)) by lia.
    replace (Z.to_nat ip + Z.to_nat 1)%nat with (S (Z.to_nat ip)) by lia.
    apply rd_lookup in Hv.
    rewrite (slice_S _ _ _ _ Hv).
    apply splice_cons. rewrite length_slice; lia.
Qed.

Lemma buffer_copy_spec out op inp ip count :
  0 <= op -> 0 <= ip -> 0 <= count ->
  op + count <= Z.of_nat (length out) -> ip + count <= Z.of_nat (length inp) ->
  buffer_copy out op inp ip count =
    Some (splice out (Z.to_nat op) (slice inp (Z.to_nat ip) (Z.to_nat count))).
Proof. intros. unfold buffer_copy. apply buffer_copy_loop_spec; lia. Qed.

(** How many of [icount] bytes fit from [offset] on. *)
Definition room (count icount offset : Z) : Z :=
  if count <=? offset then 0 else Z.min icount (count - offset).

Lemma room_bounds count icount offset :
  0 <= icount -> 0 <= offset ->
  0 <= room count icount offset <= icount /\
  (room count icount offset = 0 \/ offset + room count icount offset <= count).
Proof. intros. unfold room. case_match; lia. Qed.

Lemma buffer_write_spec out ocount inp icount offset :
  0 <= ocount <= max32 -> 0 <= icount -> 0 <= offset ->
  ocount <= Z.of_nat (length out) -> icount <= Z.of_nat (length inp) ->
  let n := room ocount icount offset in
  buffer_write out ocount inp icount offset =
    Some (splice out (Z.to_nat offset) (take (Z.to_nat n) inp), n).
Proof.
  intros Ho Hi Hoff Hlo Hli n. unfold buffer_write. subst n. unfold room.
  destruct (Z.leb_spec ocount offset).
  - by rewrite take_0, splice_nil.
  - unfold max32 in *. rewrite u32_small by lia.
    replace (if ocount - offset <? icount then ocount - offset else icount)
      with (Z.min icount (ocount - offset))
      by (destruct (Z.ltb_spec (ocount - offset) icount); lia).
    rewrite buffer_copy_spec by lia. done.
Qed.

Lemma buffer_read_spec out ocount inp icount offset :
  0 <= icount <= max32 -> 0 <= ocount -> 0 <= offset ->
  ocount <= Z.of_nat (length out) -> icount <= Z.of_nat (length inp) ->
  let n := room icount ocount offset in
  buffer_read out ocount inp icount offset =
    Some (splice out 0 (slice inp (Z.to_nat offset) (Z.to_nat n)), n).
Proof.
  intros Ho Hi Hoff Hlo Hli n. unfold buffer_read. subst n. unfold room.
  destruct (Z.leb_spec icount offset).
  - simpl. by rewrite slice_0, splice_nil.
  - unfold max32 in *. rewrite u32_small by lia.
    replace (if icount - offset <? ocount then icount - offset else ocount)
      with (Z.min ocount (icount - offset))
      by (destruct (Z.ltb_spec (icount - offset) ocount); lia).
    rewrite buffer_copy_spec by lia. done.
Qed.

Lemma buffer_match_loop_spec n in1 ip1 in2 ip2 :
  0 <= ip1 -> ip1 + Z.of_nat n <= Z.of_nat (length in1) ->
  0 <= ip2 -> ip2 + Z.of_nat n <= Z.of_nat (length in2) ->
  buffer_match_loop n in1 ip1 in2 ip2 =
    Some (if decide (slice in1 (Z.to_nat ip1) n = slice in2 (Z.to_nat ip2) n)
          then 1 else 0).
Proof.
  revert ip1 ip2. induction n as [|n IH]; intros ip1 ip2 H1 H1b H2 H2b; simpl.
  - done.
  - destruct (rd_Some in1 ip1) as [v1 Hv1]; [lia|].
    destruct (rd_Some in2 ip2) as [v2 Hv2]; [lia|].
    rewrite Hv1, Hv2. simpl. rewrite IH by lia.
    apply rd_lookup in Hv1, Hv2.
    rewrite (slice_S _ _ _ _ Hv1), (slice_S _ _ _ _ Hv2).
    replace (Z.to_nat (ip1 + 1)) with (S (Z.to_nat ip1)) by lia.
    replace (Z.to_nat (ip2 + 1)) with (S (Z.to_nat ip2)) by lia.
    destruct (Z.eqb_spec v1 v2) as [->|Hne]; cbn [negb].
    + repeat case_decide; congruence.
    + rewrite decide_False by congruence. done.
Qed.

Lemma buffer_match_spec in1 in2 count :
  0 <= count -> count <= Z.of_nat (length in1) -> count <= Z.of_nat (length in2) ->
  buffer_match in1 in2 count =
    Some (if decide (take (Z.to_nat count) in1 = take (Z.to_nat count) in2)
          then 1 else 0).
Proof. intros. unfold buffer_match. rewrite buffer_match_loop_spec by lia. done. Qed.

(** ** Search: [buffer_eachbyte] finds the next occurrence *)

(** [occ inp value i]: byte [i] of the object is [value]. *)
Definition occ (inp : list Z) (value : Z) (i : nat) : Prop := inp !! i = Some value.

Lemma buffer_eachbyte_loop_found n inp value (o k : nat) :
  (o + n <= length inp)%nat -> Z.of_nat (length inp) <= max32 ->
  (o <= k < o + n)%nat -> occ inp value k ->
  (forall j, (o <= j < k)%nat -> ~ occ inp value j) ->
  buffer_eachbyte_loop n inp value (Z.of_nat o) = Some (Z.of_nat k + 1).
Proof.
  unfold occ, max32. revert o. induction n as [|n IH]; intros o Hn Hm Hk Hocc Hfirst; [lia|].
  simpl. rewrite rd_nat.
  destruct (lookup_lt_is_Some_2 inp o) as [v Hv]; [lia|]. rewrite Hv. simpl.
  rewrite u32_small by lia.
  destruct (Z.eqb_spec v value) as [<-|Hne].
  - destruct (decide (o = k)) as [->|]; [done|].
    exfalso. apply (Hfirst o); [lia|done].
  - assert (o <> k) by congruence.
    replace (Z.of_nat o + 1) with (Z.of_nat (S o)) by lia.
    apply IH; try done; try lia. intros j Hj. apply Hfirst. lia.
Qed.

Lemma buffer_eachbyte_loop_none n inp value (o : nat) :
  (o + n <= length inp)%nat -> Z.of_nat (length inp) <= max32 ->
  (forall j, (o <= j < o + n)%nat -> ~ occ inp value j) ->
  buffer_eachbyte_loop n inp value (Z.of_nat o) = Some 0.
Proof.
  unfold occ, max32. revert o. induction n as [|n IH]; intros o Hn Hm Hno; [done|].
  simpl. rewrite rd_nat.
  destruct (lookup_lt_is_Some_2 inp o) as [v Hv]; [lia|]. rewrite Hv. simpl.
  rewrite u32_small by lia.
  destruct (Z.eqb_spec v value) as [<-|Hne].
  - exfalso. apply (Hno o); [lia|done].
  - replace (Z.of_nat o + 1) with (Z.of_nat (S o)) by lia.
    apply IH; try lia. intros j Hj. apply Hno. lia.
Qed.

(** The number of bytes of [l] equal to [value]. *)
Fixpoint occurrences (l : list Z) (value : Z) : nat :=
  match l with
  | [] => O
  | x :: l => if x =? value then S (occurrences l value) else occurrences l value
  end.

Lemma occurrences_split inp value (o n : nat) :
  (o + n <= length inp)%nat -> (0 < occurrences (slice inp o n) value)%nat ->
  exists k, (o <= k < o + n)%nat /\ occ inp value k /\
    (forall j, (o <= j < k)%nat -> ~ occ inp value j) /\
    occurrences (slice inp o n) value =
      S (occurrences (slice inp (S k) (o + n - S k)) value).
Proof.
  unfold occ. revert o. induction n as [|n IH]; intros o Hn Hpos; [simpl in Hpos; lia|].
  destruct (lookup_lt_is_Some_2 inp o) as [v Hv]; [lia|].
  rewrite (slice_S _ _ _ _ Hv) in *. simpl in *.
  destruct (Z.eqb_spec v value) as [<-|Hne].
  - exists o. split_and!; try done; try lia.
    by replace (o + S n - S o)%nat with n by lia.
  - destruct (IH (S o)) as (k & Hk & Hocc & Hfirst & Heq); [lia|lia|].
    exists k. split_and!; try done; try lia.
    + intros j Hj. destruct (decide (j = o)) as [->|]; [congruence|].
      apply Hfirst. lia.
    + simpl. rewrite Heq. by replace (S o + n - S k)%nat with (o + S n - S k)%nat by lia.
Qed.

Lemma occurrences_zero inp value (o n : nat) :
  (o + n <= length inp)%nat -> occurrences (slice inp o n) value = O ->
  forall j, (o <= j < o + n)%nat -> ~ occ inp value j.
Proof.
  unfold occ. revert o. induction n as [|n IH]; intros o Hn Hz j Hj; [lia|].
  destruct (lookup_lt_is_Some_2 inp o) as [v Hv]; [lia|].
  rewrite (slice_S _ _ _ _ Hv) in Hz. simpl in Hz.
  destruct (Z.eqb_spec v value) as [<-|Hne]; [lia|].
  destruct (decide (j = o)) as [->|]; [congruence|].
  apply (IH (S o)); [lia|lia|lia].
Qed.

Lemma buffer_eachbyte_found inp count value (o k : nat) :
  count <= Z.of_nat (length inp) -> Z.of_nat (length inp) <= max32 ->
  (o <= k)%nat -> Z.of_nat k < count -> occ inp value k ->
  (forall j, (o <= j < k)%nat -> ~ occ inp value j) ->
  buffer_eachbyte inp count value (Z.of_nat o) = Some (Z.of_nat k + 1).
Proof.
  intros. unfold buffer_eachbyte. apply buffer_eachbyte_loop_found; try done; lia.
Qed.

Lemma buffer_eachbyte_none inp count value (o : nat) :
  count <= Z.of_nat (length inp) -> Z.of_nat (length inp) <= max32 ->
  (forall j, (o <= j)%nat -> Z.of_nat j < count -> ~ occ inp value j) ->
  buffer_eachbyte inp count value (Z.of_nat o) = Some 0.
Proof.
  intros Hc Hm Hno. unfold buffer_eachbyte.
  destruct (decide (count <= Z.of_nat o)) as [Hle|Hlt].
  - replace (Z.to_nat (count - Z.of_nat o)) with O by lia. done.
  - apply buffer_eachbyte_loop_none; [lia|done|]. intros j Hj. apply Hno; lia.
Qed.

Lemma occurrences_le l value : (occurrences l value <= length l)%nat.
Proof. induction l; simpl; [lia|]. case_match; lia. Qed.

Lemma buffer_countbyte_loop_spec fuel inp count value (o : nat) total :
  (o <= Z.to_nat count)%nat -> 0 <= count <= Z.of_nat (length inp) ->
  Z.of_nat (length inp) <= max32 -> 0 <= total <= Z.of_nat o ->
  (occurrences (slice inp o (Z.to_nat count - o)) value < fuel)%nat ->
  buffer_countbyte_loop fuel inp count value (Z.of_nat o) total =
    Some (total + Z.of_nat (occurrences (slice inp o (Z.to_nat count - o)) value)).
Proof.
  revert o total. induction fuel as [|fuel IH]; intros o total Ho Hc Hm Ht Hf; [lia|].
  cbn [buffer_countbyte_loop].
  destruct (decide (occurrences (slice inp o (Z.to_nat count - o)) value = O)) as [Hz|Hz].
  - rewrite (buffer_eachbyte_none inp count value o); [|lia|done|].
    + simpl. f_equal. lia.
    + intros j H1 H2.
      apply (occurrences_zero inp value o (Z.to_nat count - o)); [lia|done|lia].
  - destruct (occurrences_split inp value o (Z.to_nat count - o))
      as (k & Hk & Hocc & Hfirst & Heq); [lia|lia|].
    replace (o + (Z.to_nat count - o) - S k)%nat with (Z.to_nat count - S k)%nat in Heq by lia.
    rewrite (buffer_eachbyte_found inp count value o k); try done; try lia.
    cbn [mbind option_bind]. destruct (Z.eqb_spec (Z.of_nat k + 1) 0); [lia|].
    replace (Z.of_nat k + 1) with (Z.of_nat (S k)) by lia.
    unfold max32 in *. rewrite u32_small by lia.
    rewrite IH by lia. f_equal. lia.
Qed.

Lemma buffer_countbyte_spec inp count value :
  0 <= count <= Z.of_nat (length inp) -> Z.of_nat (length inp) <= max32 ->
  buffer_countbyte inp count value =
    Some (Z.of_nat (occurrences (take (Z.to_nat count) inp) value)).
Proof.
  intros Hc Hm. unfold buffer_countbyte.
  change 0 with (Z.of_nat 0) at 1.
  rewrite buffer_countbyte_loop_spec; try lia; rewrite Nat.sub_0_r.
  - done.
  - pose proof (occurrences_le (slice inp 0 (Z.to_nat count)) value).
    rewrite length_slice in * by lia. lia.
Qed.

Lemma buffer_findbyte_loop_spec n inp value (o : nat) :
  (o + n <= length inp)%nat -> Z.of_nat (length inp) <= max32 ->
  exists k : nat, buffer_findbyte_loop n inp value (Z.of_nat o) = Some (Z.of_nat k) /\
    (o <= k <= o + n)%nat /\
    (forall j, (o <= j < k)%nat -> ~ occ inp value j) /\
    (k < o + n -> occ inp value k)%nat.
Proof.
  unfold occ, max32. revert o. induction n as [|n IH]; intros o Hn Hm; simpl.
  - exists o. split_and!; try done; lia.
  - rewrite rd_nat. destruct (lookup_lt_is_Some_2 inp o) as [v Hv]; [lia|].
    rewrite Hv. simpl. rewrite u32_small by lia.
    destruct (Z.eqb_spec v value) as [<-|Hne].
    + exists o. split_and!; try done; lia.
    + replace (Z.of_nat o + 1) with (Z.of_nat (S o)) by lia.
      destruct (IH (S o)) as (k & -> & Hk & Hbefore & Hat); [lia|done|].
      exists k. split_and!; try done; try lia.
      * intros j Hj. destruct (decide (j = o)) as [->|]; [congruence|].
        apply Hbefore. lia.
      * intros. apply Hat. lia.
Qed.

(** ** Properties *)

(** The bytes of the field [index] of a [c]-separated record start right after
    the [index]-th separator. *)
Lemma buffer_tindex_loop_spec k inp count c index n (i : nat) p :
  (i + k = Z.to_nat count)%nat -> 0 < count <= Z.of_nat (length inp) ->
  Z.of_nat (length inp) <= max32 -> 0 <= n <= Z.of_nat i -> n < index <= max32 ->
  n = Z.of_nat (occurrences (take i inp) c) ->
  buffer_tindex_loop k inp count c index n (Z.of_nat i) = Some (Some p) ->
  0 < p < count /\ occ inp c (Z.to_nat (p - 1)) /\
  Z.of_nat (occurrences (take (Z.to_nat p) inp) c) = index.
Proof.
  unfold occ, max32. revert n i.
  induction k as [|k IH]; intros n i Hik Hc Hm Hn Hi Hocc; [done|]. simpl.
  rewrite rd_nat. destruct (lookup_lt_is_Some_2 inp i) as [v Hv]; [lia|].
  rewrite Hv. simpl. rewrite !u32_small by lia.
  assert (occurrences (take (S i) inp) c =
          (occurrences (take i inp) c + if (v =? c)%Z then 1 else 0)%nat) as Hstep.
  { rewrite (take_S_r _ _ _ Hv). generalize (take i inp) as l.
    induction l as [|x l IHl]; simpl; [by destruct (v =? c)|]. rewrite IHl. by destruct (x =? c). }
  replace (Z.of_nat i + 1) with (Z.of_nat (S i)) by lia.
  destruct (Z.eqb_spec v c) as [->|Hne].
  - destruct (Z.eqb_spec (n + 1) index).
    + destruct (Z.eqb_spec (Z.of_nat i) (count - 1)); [done|].
      intros [= <-]. split; [lia|].
      replace (Z.to_nat (Z.of_nat (S i) - 1)) with i by lia.
      rewrite Nat2Z.id, Hstep. split; [done|lia].
    + apply IH; try lia.
  - apply IH; try lia.
Qed.

(** *** Nul-terminated fields *)

Definition zfields (fs : list (list Z)) : list Z := concat ((fun f => f ++ [0]) <$> fs).

Lemma zfields_cons f fs : zfields (f :: fs) = f ++ 0 :: zfields fs.
Proof. unfold zfields. cbn. by rewrite <- app_assoc. Qed.

Lemma buffer_tindex_loop_skip f k inp count index n (i : nat) :
  slice inp i (length f) = f -> Forall (fun c => c <> 0) f ->
  Z.of_nat (i + length f) <= max32 ->
  buffer_tindex_loop (length f + k) inp count 0 index n (Z.of_nat i) =
    buffer_tindex_loop k inp count 0 index n (Z.of_nat (i + length f)).
Proof.
  revert i. induction f as [|c f IH]; intros i Hs Hf Hm; cbn [length Nat.add].
  { by rewrite Nat.add_0_r. }
  apply Forall_cons in Hf as [Hc Hf]. cbn [length] in Hs, Hm.
  destruct (inp !! i) as [x|] eqn:Ex.
  2: { apply lookup_ge_None in Ex. apply (f_equal length) in Hs. revert Hs. unfold slice.
       rewrite length_take, length_drop. cbn [length]. lia. }
  rewrite (slice_S _ _ _ _ Ex) in Hs. injection Hs as -> Hs.
  cbn [buffer_tindex_loop]. rewrite rd_nat, Ex. cbn [mbind option_bind].
  destruct (Z.eqb_spec c 0); [done|]. unfold max32 in Hm. rewrite u32_small by lia.
  replace (Z.of_nat i + 1) with (Z.of_nat (S i)) by lia. rewrite IH; [|done|done|unfold max32; lia].
  f_equal. lia.
Qed.

(** Field [index] starts after [index] terminators; there is no field after the
    last one. *)
Lemma buffer_tindex_loop_fields fs pre post (n : nat) index :
  Forall (Forall (fun c => c <> 0)) fs ->
  (n < index <= n + length fs)%nat ->
  Z.of_nat (length pre + length (zfields fs)) <= max32 -> Z.of_nat index <= max32 ->
  buffer_tindex_loop (length (zfields fs)) (pre ++ zfields fs ++ post)
    (Z.of_nat (length pre + length (zfields fs))) 0 (Z.of_nat index) (Z.of_nat n) (Z.of_nat (length pre)) =
  Some (if decide (index = n + length fs)%nat then None
        else Some (Z.of_nat (length pre + length (zfields (take (index - n) fs))))).
Proof.
  revert pre n. induction fs as [|f fs IH]; intros pre n Hfs Hn Hm Hi; [cbn in Hn; lia|].
  apply Forall_cons in Hfs as [Hf Hfs]. rewrite zfields_cons in Hm |- *.
  rewrite length_app in Hm. rewrite (length_app f). cbn [length] in *. unfold max32 in *.
  rewrite buffer_tindex_loop_skip; [|unfold slice; rewrite drop_app_length', <- app_assoc, take_app_length'; done
    |done|unfold max32; lia].
  cbn [buffer_tindex_loop]. rewrite <- (app_assoc f), (app_assoc pre). cbn [app].
  rewrite <- length_app, rd_mid. cbn [mbind option_bind Z.eqb].
  rewrite !u32_small by (rewrite ?length_app; lia). rewrite !length_app in *.
  destruct (Z.eqb_spec (Z.of_nat n + 1) (Z.of_nat index)) as [He|He].
  - replace (index - n)%nat with 1%nat by lia.
    destruct (Z.eqb_spec (Z.of_nat (length pre + length f))
      (Z.of_nat (length pre + (length f + S (length (zfields fs)))) - 1)) as [Hz|Hz].
    + destruct fs as [|f' fs]; [|exfalso; rewrite zfields_cons, length_app in Hz; cbn [length] in Hz; lia].
      rewrite decide_True by (cbn [length]; lia). done.
    + rewrite decide_False.
      * cbn [take]. rewrite zfields_cons. change (zfields (take 0 fs)) with (@nil Z).
        rewrite length_app. cbn [length]. do 2 f_equal. lia.
      * intros ->. destruct fs; [|cbn [length] in *; lia]. cbn [length zfields fmap list_fmap concat] in Hz. cbn in Hz. lia.
  - specialize (IH ((pre ++ f) ++ [0]) (S n) Hfs ltac:(lia)).
    rewrite !length_app in IH. cbn [length] in IH. unfold max32 in IH.
    replace (length pre + (length f + S (length (zfields fs))))%nat
      with (length pre + length f + 1 + length (zfields fs))%nat by lia.
    replace (Z.of_nat n + 1) with (Z.of_nat (S n)) by lia.
    replace (Z.of_nat (length pre + length f) + 1) with (Z.of_nat (length pre + length f + 1)) by lia.
    rewrite <- app_assoc in IH. cbn [app] in IH. rewrite IH by lia.
    destruct (index - n)%nat as [|j] eqn:Ej; [lia|]. cbn [take]. rewrite zfields_cons, length_app. cbn [length].
    replace (index - S n)%nat with j by lia.
    repeat case_decide; try lia; [done|]. do 2 f_equal. lia.
Qed.

Lemma buffer_tindex_fields fs post (index : nat) :
  Forall (Forall (fun c => c <> 0)) fs -> fs <> [] -> (index <= length fs)%nat ->
  Z.of_nat (length (zfields fs)) <= max32 -> Z.of_nat (length fs) <= max32 ->
  buffer_tindex (zfields fs ++ post) (Z.of_nat (length (zfields fs))) 0 (Z.of_nat index) =
  Some (if decide (index = length fs) then None
        else Some (Z.of_nat (length (zfields (take index fs))))).
Proof.
  intros Hfs Hne Hi Hm Hm'. unfold buffer_tindex. destruct (Z.eqb_spec (Z.of_nat index) 0) as [H0|H0]; cbn [negb].
  - replace index with 0%nat by lia. destruct fs; [done|]. by rewrite decide_False by (cbn; lia).
  - rewrite Nat2Z.id. pose proof (buffer_tindex_loop_fields fs [] post 0 index Hfs) as H.
    cbn [length Nat.add app] in H. rewrite Nat.sub_0_r in H. apply H; lia.
Qed.
