(* ===== verification/Ring.v ===== *)
(** * Ring buffers (src/libz/fudge/ring.c)

    A ring is a byte array with two free-running 32-bit counters.  The
    component is proved to implement a bounded double-ended queue of bytes:
    [contents] is the abstraction function and every operation is related to
    the list operation it stands for. *)
From S2P Require Import Prelude.

Local Open Scope Z_scope.

(** ** State *)

(** [struct ring] of ring.h. *)
Record ring := Ring {
  rbuffer : list Z;
  rcapacity : Z;
  rhead : Z;
  rtail : Z
}.

Definition set_buffer (r : ring) (b : list Z) : ring :=
  Ring b (rcapacity r) (rhead r) (rtail r).
Definition set_head (r : ring) (h : Z) : ring :=
  Ring (rbuffer r) (rcapacity r) h (rtail r).
Definition set_tail (r : ring) (t : Z) : ring :=
  Ring (rbuffer r) (rcapacity r) (rhead r) t.

(** ** Operations *)

Definition mask (r : ring) (value : Z) : Z := Z.land value (u32 (rcapacity r - 1)).

Definition ring_count (r : ring) : Z := u32 (rhead r - rtail r).
Definition ring_avail (r : ring) : Z := u32 (rcapacity r - ring_count r).
Definition ring_isempty (r : ring) : bool := rhead r =? rtail r.
Definition ring_isfull (r : ring) : bool := ring_count r =? rcapacity r.

(** [ring->buffer[mask(ring, i)]] read and written. *)
Definition cell (r : ring) (i : Z) : Z := rbuffer r !!! Z.to_nat (mask r i).
Definition set_cell (r : ring) (i v : Z) : ring :=
  set_buffer r (<[Z.to_nat (mask r i) := v]> (rbuffer r)).

(** The loops [for (c = 0; count--; c++)] run at most [count] times and stop at
    the [break]; the result pairs the ring with the counter [c], or with the
    bytes stored in [b[0..c)]. *)
Fixpoint ring_skip_loop (n : nat) (r : ring) (c : Z) : ring * Z :=
  match n with
  | O => (r, c)
  | S n =>
      if ring_isempty r then (r, c)
      else ring_skip_loop n (set_tail r (u32 (rtail r + 1))) (u32 (c + 1))
  end.

Definition ring_skip (r : ring) (count : Z) : ring * Z :=
  if count =? 0 then (r, 0) else ring_skip_loop (Z.to_nat count) r 0.

Fixpoint ring_skip_reverse_loop (n : nat) (r : ring) (c : Z) : ring * Z :=
  match n with
  | O => (r, c)
  | S n =>
      if ring_isempty r then (r, c)
      else ring_skip_reverse_loop n (set_head r (u32 (rhead r - 1))) (u32 (c + 1))
  end.

Definition ring_skip_reverse (r : ring) (count : Z) : ring * Z :=
  if count =? 0 then (r, 0) else ring_skip_reverse_loop (Z.to_nat count) r 0.

Fixpoint ring_read_loop (n : nat) (r : ring) (b : list Z) : ring * list Z :=
  match n with
  | O => (r, b)
  | S n =>
      if ring_isempty r then (r, b)
      else ring_read_loop n (set_tail r (u32 (rtail r + 1)))
             (b ++ [cell r (rtail r)])
  end.

Definition ring_read (r : ring) (count : Z) : ring * list Z :=
  if count =? 0 then (r, []) else ring_read_loop (Z.to_nat count) r [].

Definition ring_read_all (r : ring) (count : Z) : ring * list Z :=
  if ring_count r <? count then (r, []) else ring_read r count.

Fixpoint ring_read_reverse_loop (n : nat) (r : ring) (b : list Z)
    : ring * list Z :=
  match n with
  | O => (r, b)
  | S n =>
      if ring_isempty r then (r, b)
      else
        let h := u32 (rhead r - 1) in
        ring_read_reverse_loop n (set_head r h) (b ++ [cell r h])
  end.

Definition ring_read_reverse (r : ring) (count : Z) : ring * list Z :=
  if count =? 0 then (r, []) else ring_read_reverse_loop (Z.to_nat count) r [].

Definition ring_read_allreverse (r : ring) (count : Z) : ring * list Z :=
  if ring_avail r <? count then (r, []) else ring_read_reverse r count.

Definition ring_readcopy (r : ring) (count : Z) : ring * list Z :=
  let head := rhead r in
  let tail := rtail r in
  let '(r', total) := ring_read r count in
  (set_tail (set_head r' head) tail, total).

(** Writers take the source bytes [b] (at least [count] of them). *)
Fixpoint ring_write_loop (n : nat) (r : ring) (b : list Z) (c : Z) : ring * Z :=
  match n with
  | O => (r, c)
  | S n =>
      if ring_isfull r then (r, c)
      else ring_write_loop n
             (set_head (set_cell r (rhead r) (b !!! Z.to_nat c))
                (u32 (rhead r + 1))) b (u32 (c + 1))
  end.

Definition ring_write (r : ring) (b : list Z) (count : Z) : ring * Z :=
  if count =? 0 then (r, 0) else ring_write_loop (Z.to_nat count) r b 0.

Definition ring_write_all (r : ring) (b : list Z) (count : Z) : ring * Z :=
  if ring_avail r <? count then (r, 0) else ring_write r b count.

Fixpoint ring_write_reverse_loop (n : nat) (r : ring) (b : list Z) (c : Z)
    : ring * Z :=
  match n with
  | O => (r, c)
  | S n =>
      if ring_isfull r then (r, c)
      else
        let t := u32 (rtail r - 1) in
        ring_write_reverse_loop n
          (set_tail (set_cell r t (b !!! Z.to_nat c)) t) b (u32 (c + 1))
  end.

Definition ring_write_reverse (r : ring) (b : list Z) (count : Z) : ring * Z :=
  if count =? 0 then (r, 0) else ring_write_reverse_loop (Z.to_nat count) r b 0.

Definition ring_write_allreverse (r : ring) (b : list Z) (count : Z) : ring * Z :=
  if ring_avail r <? count then (r, 0) else ring_write_reverse r b count.

Fixpoint ring_overwrite_loop (n : nat) (r : ring) (b : list Z) (c : Z)
    : ring * Z :=
  match n with
  | O => (r, c)
  | S n =>
      let r := set_head (set_cell r (rhead r) (b !!! Z.to_nat c))
                 (u32 (rhead r + 1)) in
      let r := if ring_isfull r then set_tail r (u32 (rtail r + 1)) else r in
      ring_overwrite_loop n r b (u32 (c + 1))
  end.

Definition ring_overwrite (r : ring) (b : list Z) (count : Z) : ring * Z :=
  if count =? 0 then (r, 0) else ring_overwrite_loop (Z.to_nat count) r b 0.

(** [while ((count = ring_read(from, buffer, 512))) total += put(to, buffer, count)],
    the loop of [ring_move] ([put] is [ring_write]) and of [ring_overmove]
    ([put] is [ring_overwrite]).  Each turn takes at least one byte out of
    [from], so [ring_count from + 1] turns are enough. *)
Fixpoint move_loop (put : ring -> list Z -> Z -> ring * Z) (fuel : nat)
    (to from : ring) (total : Z) : option (ring * ring * Z) :=
  match fuel with
  | O => None
  | S fuel =>
      let '(from', buffer) := ring_read from 512 in
      let count := Z.of_nat (length buffer) in
      if count =? 0 then Some (to, from', total)
      else
        let '(to', w) := put to buffer count in
        move_loop put fuel to' from' (u32 (total + w))
  end.

Definition ring_move (to from : ring) : option (ring * ring * Z) :=
  move_loop ring_write (S (Z.to_nat (ring_count from))) to from 0.

Definition ring_overmove (to from : ring) : option (ring * ring * Z) :=
  move_loop ring_overwrite (S (Z.to_nat (ring_count from))) to from 0.

Definition ring_copy (to from : ring) : option (ring * ring * Z) :=
  let head := rhead from in
  let tail := rtail from in
  '(to', from', total) ← ring_move to from;
  Some (to', set_tail (set_head from' head) tail, total).

Definition ring_overcopy (to from : ring) : option (ring * ring * Z) :=
  let head := rhead from in
  let tail := rtail from in
  '(to', from', total) ← ring_overmove to from;
  Some (to', set_tail (set_head from' head) tail, total).

(** The three searches walk from [s] to the other counter, [ring_count] steps
    ([s != ring->head] with a wrapping [s]). *)
Fixpoint ring_each_loop (n : nat) (r : ring) (value s c : Z) : Z :=
  match n with
  | O => 0
  | S n =>
      if cell r s =? value then u32 (c + 1)
      else ring_each_loop n r value (u32 (s + 1)) (u32 (c + 1))
  end.

Definition ring_each (r : ring) (value : Z) : Z :=
  ring_each_loop (Z.to_nat (ring_count r)) r value (rtail r) 0.

Fixpoint ring_find_loop (n : nat) (r : ring) (value s c : Z) : Z :=
  match n with
  | O => if s =? rhead r then c else 0
  | S n =>
      if cell r s =? value then c
      else ring_find_loop n r value (u32 (s + 1)) (u32 (c + 1))
  end.

Definition ring_find (r : ring) (value : Z) : Z :=
  ring_find_loop (Z.to_nat (ring_count r)) r value (rtail r) 0.

Fixpoint ring_find_reverse_loop (n : nat) (r : ring) (value s c : Z) : Z :=
  match n with
  | O => if s =? rtail r then c else 0
  | S n =>
      let s := u32 (s - 1) in
      if cell r s =? value then c
      else ring_find_reverse_loop n r value s (u32 (c + 1))
  end.

Definition ring_find_reverse (r : ring) (value : Z) : Z :=
  ring_find_reverse_loop (Z.to_nat (ring_count r)) r value (rhead r) 0.

Definition ring_reset (r : ring) : ring := set_tail (set_head r 0) 0.

Definition ring_init (capacity : Z) (buffer : list Z) : ring :=
  Ring buffer capacity 0 0.

(** ** Invariant and abstraction *)

(** The capacity is a power of two that a 32-bit counter can hold, the array
    has that many bytes, and at most [capacity] bytes are stored. *)
Definition ring_wf (r : ring) : Prop :=
  (exists k, 0 <= k <= 31 /\ rcapacity r = 2 ^ k) /\
  Z.of_nat (length (rbuffer r)) = rcapacity r /\
  0 <= rhead r <= max32 /\ 0 <= rtail r <= max32 /\
  ring_count r <= rcapacity r.

(** The bytes stored in the ring, oldest first. *)
Definition contents (r : ring) : list Z :=
  (fun i => rbuffer r !!! Z.to_nat ((rtail r + Z.of_nat i) mod rcapacity r))
    <$> seq 0 (Z.to_nat (ring_count r)).

Lemma length_contents r : length (contents r) = Z.to_nat (ring_count r).
Proof. unfold contents. by rewrite length_fmap, length_seq. Qed.

Lemma ring_count_range r : 0 <= ring_count r < 4294967296.
Proof. apply u32_range. Qed.

Lemma ring_wf_capacity r : ring_wf r -> 0 < rcapacity r <= 2147483648.
Proof.
  intros ((k & Hk & ->) & _). split; [apply Z.pow_pos_nonneg; lia|].
  change 2147483648 with (2 ^ 31). apply Z.pow_le_mono_r; lia.
Qed.

Lemma mask_mod r i : ring_wf r -> mask r i = i mod rcapacity r.
Proof.
  intros Hwf. pose proof (ring_wf_capacity r Hwf).
  destruct Hwf as ((k & Hk & Hc) & _). unfold mask.
  rewrite u32_small by lia. rewrite Hc. apply land_pow2_pred. lia.
Qed.

Lemma u32_mod_capacity r i : ring_wf r -> u32 i mod rcapacity r = i mod rcapacity r.
Proof. intros ((k & Hk & ->) & _). apply u32_mod_pow2. lia. Qed.

(** Every access goes to a byte of the array. *)
Lemma mask_in_range r i :
  ring_wf r -> (Z.to_nat (mask r i) < length (rbuffer r))%nat.
Proof.
  intros Hwf. rewrite mask_mod by done. pose proof (ring_wf_capacity r Hwf).
  destruct Hwf as (_ & Hl & _). pose proof (Z.mod_pos_bound i (rcapacity r)). lia.
Qed.

Lemma ring_isempty_spec r :
  ring_wf r -> ring_isempty r = true <-> contents r = [].
Proof.
  intros (_ & _ & Hh & Ht & _). unfold ring_isempty, max32 in *. rewrite Z.eqb_eq.
  rewrite <- (length_zero_iff_nil (contents r)), length_contents.
  unfold ring_count. split; [intros ->; by rewrite Z.sub_diag|].
  intros H. pose proof (u32_range (rhead r - rtail r)). zwrap.
Qed.

Lemma ring_isfull_spec r :
  ring_wf r -> ring_isfull r = true <-> length (contents r) = Z.to_nat (rcapacity r).
Proof.
  intros Hwf. pose proof (ring_wf_capacity r Hwf). pose proof (ring_count_range r).
  unfold ring_isfull. rewrite Z.eqb_eq, length_contents. lia.
Qed.

Lemma ring_avail_spec r :
  ring_wf r -> ring_avail r = rcapacity r - Z.of_nat (length (contents r)).
Proof.
  intros Hwf. pose proof (ring_wf_capacity r Hwf). pose proof (ring_count_range r).
  destruct Hwf as (_ & _ & _ & _ & Hc).
  unfold ring_avail. rewrite length_contents, u32_small; lia.
Qed.

(** *** The four elementary moves *)

Definition push_back (r : ring) (v : Z) : ring :=
  set_head (set_cell r (rhead r) v) (u32 (rhead r + 1)).
Definition pop_front (r : ring) : ring := set_tail r (u32 (rtail r + 1)).
Definition push_front (r : ring) (v : Z) : ring :=
  set_tail (set_cell r (u32 (rtail r - 1)) v) (u32 (rtail r - 1)).
Definition pop_back (r : ring) : ring := set_head r (u32 (rhead r - 1)).

Lemma head_mod r :
  ring_wf r -> rhead r mod rcapacity r = (rtail r + ring_count r) mod rcapacity r.
Proof.
  intros Hwf. rewrite <- (u32_mod_capacity r (_ + _) Hwf). unfold ring_count.
  rewrite u32_add_r. replace (rtail r + (rhead r - rtail r)) with (rhead r) by lia.
  by rewrite u32_mod_capacity.
Qed.

Lemma ring_count_push_back r v :
  ring_wf r -> ring_isfull r = false -> ring_count (push_back r v) = ring_count r + 1.
Proof.
  intros Hwf Hf. pose proof (ring_wf_capacity r Hwf). pose proof (ring_count_range r).
  destruct Hwf as (_ & _ & _ & _ & Hc). unfold ring_isfull in Hf.
  apply Z.eqb_neq in Hf. unfold push_back, ring_count in *. simpl.
  rewrite u32_sub_l. replace (rhead r + 1 - rtail r) with (rhead r - rtail r + 1) by lia.
  rewrite <- u32_add_l. apply u32_small. lia.
Qed.

Lemma push_back_wf r v :
  ring_wf r -> ring_isfull r = false -> ring_wf (push_back r v).
Proof.
  intros Hwf Hf. pose proof (ring_count_push_back r v Hwf Hf) as Hcnt.
  pose proof (u32_range (rhead r + 1)).
  destruct Hwf as (Hk & Hl & Hh & Ht & Hc). unfold ring_isfull in Hf.
  apply Z.eqb_neq in Hf. unfold ring_wf. rewrite Hcnt. simpl.
  rewrite length_insert. unfold max32 in *. split_and!; try done; lia.
Qed.

Lemma push_back_contents r v :
  ring_wf r -> ring_isfull r = false -> contents (push_back r v) = contents r ++ [v].
Proof.
  intros Hwf Hf. pose proof (ring_wf_capacity r Hwf) as Hcap.
  pose proof (ring_count_range r) as Hcr. pose proof (mask_in_range r (rhead r) Hwf) as Hin.
  unfold contents at 1. rewrite ring_count_push_back by done.
  replace (Z.to_nat (ring_count r + 1)) with (S (Z.to_nat (ring_count r))) by lia.
  rewrite seq_S, fmap_app. simpl. rewrite mask_mod, head_mod in * by done.
  f_equal.
  - unfold contents. apply fmap_seq_ext. intros j Hj.
    apply list_lookup_total_insert_ne. intros Heq.
    assert (ring_count r < rcapacity r).
    { destruct Hwf as (_ & _ & _ & _ & Hc). unfold ring_isfull in Hf.
      apply Z.eqb_neq in Hf. lia. }
    apply Z2Nat.inj in Heq; [|apply Z.mod_pos_bound; lia..].
    symmetry in Heq. apply mod_eq_close in Heq; lia.
  - f_equal. rewrite Z2Nat.id by lia. by apply list_lookup_total_insert_eq.
Qed.

Lemma ring_nonempty_count r : ring_wf r -> ring_isempty r = false -> 0 < ring_count r.
Proof.
  intros Hwf He. pose proof (ring_count_range r).
  destruct (decide (ring_count r = 0)) as [H0|]; [|lia]. exfalso.
  assert (ring_isempty r = true) as Ht; [|congruence].
  apply ring_isempty_spec; [done|]. apply length_zero_iff_nil.
  rewrite length_contents, H0. done.
Qed.

Lemma ring_count_pop_front r :
  ring_wf r -> ring_isempty r = false -> ring_count (pop_front r) = ring_count r - 1.
Proof.
  intros Hwf He. pose proof (ring_nonempty_count r Hwf He).
  pose proof (ring_count_range r). unfold pop_front, ring_count in *. simpl.
  rewrite u32_sub_r. replace (rhead r - (rtail r + 1)) with (rhead r - rtail r - 1) by lia.
  rewrite <- u32_sub_l. apply u32_small. lia.
Qed.

Lemma pop_front_wf r : ring_wf r -> ring_isempty r = false -> ring_wf (pop_front r).
Proof.
  intros Hwf He. pose proof (ring_count_pop_front r Hwf He) as Hcnt.
  pose proof (u32_range (rtail r + 1)).
  destruct Hwf as (Hk & Hl & Hh & Ht & Hc). unfold ring_wf. rewrite Hcnt. simpl.
  unfold max32 in *. split_and!; try done; lia.
Qed.

Lemma pop_front_contents r :
  ring_wf r -> ring_isempty r = false ->
  contents r = cell r (rtail r) :: contents (pop_front r).
Proof.
  intros Hwf He. pose proof (ring_nonempty_count r Hwf He).
  unfold contents. rewrite ring_count_pop_front by done.
  replace (Z.to_nat (ring_count r)) with (S (Z.to_nat (ring_count r - 1))) by lia.
  rewrite <- cons_seq, <- fmap_S_seq. cbn [fmap list_fmap]. f_equal.
  - unfold cell. rewrite mask_mod by done. by rewrite Z.add_0_r.
  - fold (@fmap list _). rewrite <- list_fmap_compose. apply fmap_seq_ext. intros j Hj.
    simpl. f_equal. f_equal.
    rewrite <- (u32_mod_capacity r (u32 _ + _)) by done. rewrite u32_add_l.
    rewrite u32_mod_capacity by done. f_equal. lia.
Qed.

Lemma ring_count_push_front r v :
  ring_wf r -> ring_isfull r = false -> ring_count (push_front r v) = ring_count r + 1.
Proof.
  intros Hwf Hf. pose proof (ring_wf_capacity r Hwf). pose proof (ring_count_range r).
  destruct Hwf as (_ & _ & _ & _ & Hc). unfold ring_isfull in Hf.
  apply Z.eqb_neq in Hf. unfold push_front, ring_count in *. simpl.
  rewrite u32_sub_r. replace (rhead r - (rtail r - 1)) with (rhead r - rtail r + 1) by lia.
  rewrite <- u32_add_l. apply u32_small. lia.
Qed.

Lemma push_front_wf r v :
  ring_wf r -> ring_isfull r = false -> ring_wf (push_front r v).
Proof.
  intros Hwf Hf. pose proof (ring_count_push_front r v Hwf Hf) as Hcnt.
  pose proof (u32_range (rtail r - 1)).
  destruct Hwf as (Hk & Hl & Hh & Ht & Hc). unfold ring_isfull in Hf.
  apply Z.eqb_neq in Hf. unfold ring_wf. rewrite Hcnt. simpl.
  rewrite length_insert. unfold max32 in *. split_and!; try done; lia.
Qed.

Lemma push_front_contents r v :
  ring_wf r -> ring_isfull r = false -> contents (push_front r v) = v :: contents r.
Proof.
  intros Hwf Hf. pose proof (ring_wf_capacity r Hwf) as Hcap.
  pose proof (ring_count_range r) as Hcr.
  pose proof (mask_in_range r (u32 (rtail r - 1)) Hwf) as Hin.
  assert (ring_count r < rcapacity r) as Hlt.
  { destruct Hwf as (_ & _ & _ & _ & Hc). unfold ring_isfull in Hf.
    apply Z.eqb_neq in Hf. lia. }
  unfold contents at 1. rewrite ring_count_push_front by done.
  replace (Z.to_nat (ring_count r + 1)) with (S (Z.to_nat (ring_count r))) by lia.
  rewrite <- cons_seq, <- fmap_S_seq. cbn [fmap list_fmap]. simpl.
  rewrite mask_mod, u32_mod_capacity in * by done. f_equal.
  - rewrite Z.add_0_r, u32_mod_capacity by done. by apply list_lookup_total_insert_eq.
  - fold (@fmap list _). rewrite <- list_fmap_compose. unfold contents.
    apply fmap_seq_ext. intros j Hj. simpl.
    replace ((u32 (rtail r - 1) + Z.of_nat (S j)) mod rcapacity r)
      with ((rtail r + Z.of_nat j) mod rcapacity r).
    + apply list_lookup_total_insert_ne. intros Heq.
      apply Z2Nat.inj in Heq; [|apply Z.mod_pos_bound; lia..].
      apply mod_eq_close in Heq; lia.
    + rewrite <- (u32_mod_capacity r (u32 _ + _)) by done. rewrite u32_add_l.
      rewrite u32_mod_capacity by done. f_equal. lia.
Qed.

Lemma ring_count_pop_back r :
  ring_wf r -> ring_isempty r = false -> ring_count (pop_back r) = ring_count r - 1.
Proof.
  intros Hwf He. pose proof (ring_nonempty_count r Hwf He).
  pose proof (ring_count_range r). unfold pop_back, ring_count in *. simpl.
  rewrite u32_sub_l. replace (rhead r - 1 - rtail r) with (rhead r - rtail r - 1) by lia.
  rewrite <- u32_sub_l. apply u32_small. lia.
Qed.

Lemma pop_back_wf r : ring_wf r -> ring_isempty r = false -> ring_wf (pop_back r).
Proof.
  intros Hwf He. pose proof (ring_count_pop_back r Hwf He) as Hcnt.
  pose proof (u32_range (rhead r - 1)).
  destruct Hwf as (Hk & Hl & Hh & Ht & Hc). unfold ring_wf. rewrite Hcnt. simpl.
  unfold max32 in *. split_and!; try done; lia.
Qed.

Lemma pop_back_contents r :
  ring_wf r -> ring_isempty r = false ->
  contents r = contents (pop_back r) ++ [cell r (u32 (rhead r - 1))].
Proof.
  intros Hwf He. pose proof (ring_nonempty_count r Hwf He).
  unfold contents. rewrite ring_count_pop_back by done.
  replace (Z.to_nat (ring_count r)) with (S (Z.to_nat (ring_count r - 1))) by lia.
  rewrite seq_S, fmap_app. simpl. do 2 f_equal.
  unfold cell. rewrite mask_mod, u32_mod_capacity by done.
  rewrite Z2Nat.id by lia. f_equal. f_equal.
  rewrite (Zminus_mod (rhead r)), head_mod by done.
  rewrite <- Zminus_mod. f_equal. lia.
Qed.

Lemma ring_empty_contents r :
  ring_wf r -> ring_isempty r = true -> contents r = [].
Proof. intros. by apply ring_isempty_spec. Qed.

(** *** The loops *)

Lemma ring_read_loop_spec n r b :
  ring_wf r ->
  let '(r', b') := ring_read_loop n r b in
  ring_wf r' /\ b' = b ++ take n (contents r) /\ contents r' = drop n (contents r).
Proof.
  revert r b. induction n as [|n IH]; intros r b Hwf; simpl.
  - rewrite take_0, drop_0, app_nil_r. done.
  - destruct (ring_isempty r) eqn:He.
    + rewrite (ring_empty_contents r Hwf He). simpl. by rewrite app_nil_r.
    + specialize (IH (pop_front r) (b ++ [cell r (rtail r)]) (pop_front_wf r Hwf He)).
      fold (pop_front r). destruct (ring_read_loop n _ _) as [r' b'].
      destruct IH as (Hwf' & -> & ->). rewrite (pop_front_contents r Hwf He).
      simpl. rewrite <- app_assoc. done.
Qed.

Lemma ring_read_spec r count :
  ring_wf r -> 0 <= count ->
  let '(r', b) := ring_read r count in
  ring_wf r' /\ b = take (Z.to_nat count) (contents r) /\
  contents r' = drop (Z.to_nat count) (contents r).
Proof.
  intros Hwf Hc. unfold ring_read. destruct (Z.eqb_spec count 0) as [->|].
  - simpl. by rewrite drop_0.
  - apply (ring_read_loop_spec (Z.to_nat count) r [] Hwf).
Qed.

Lemma ring_read_reverse_loop_spec n r b :
  ring_wf r ->
  let '(r', b') := ring_read_reverse_loop n r b in
  ring_wf r' /\ b' = b ++ take n (reverse (contents r)) /\
  contents r' = take (length (contents r) - n) (contents r).
Proof.
  revert r b. induction n as [|n IH]; intros r b Hwf; simpl.
  - rewrite take_0, app_nil_r, Nat.sub_0_r, firstn_all. done.
  - destruct (ring_isempty r) eqn:He.
    + rewrite (ring_empty_contents r Hwf He). simpl. by rewrite app_nil_r.
    + specialize (IH (pop_back r) (b ++ [cell r (u32 (rhead r - 1))])
                    (pop_back_wf r Hwf He)).
      fold (pop_back r). destruct (ring_read_reverse_loop n _ _) as [r' b'].
      destruct IH as (Hwf' & -> & ->). rewrite (pop_back_contents r Hwf He).
      rewrite reverse_app. simpl. rewrite <- app_assoc. split_and!; [done|done|].
      rewrite length_app. simpl.
      replace (length (contents (pop_back r)) + 1 - S n)%nat
        with (length (contents (pop_back r)) - n)%nat by lia.
      rewrite take_app_le by lia. done.
Qed.

Lemma ring_read_reverse_spec r count :
  ring_wf r -> 0 <= count ->
  let '(r', b) := ring_read_reverse r count in
  ring_wf r' /\ b = take (Z.to_nat count) (reverse (contents r)) /\
  contents r' = take (length (contents r) - Z.to_nat count) (contents r).
Proof.
  intros Hwf Hc. unfold ring_read_reverse. destruct (Z.eqb_spec count 0) as [->|].
  - simpl. rewrite Nat.sub_0_r, firstn_all. done.
  - apply (ring_read_reverse_loop_spec (Z.to_nat count) r [] Hwf).
Qed.

(** Free space, as a number of bytes. *)
Definition space (r : ring) : nat := Z.to_nat (rcapacity r) - length (contents r).

Lemma space_pos r : ring_wf r -> ring_isfull r = false -> (0 < space r)%nat.
Proof.
  intros Hwf Hf. pose proof (ring_wf_capacity r Hwf). unfold space.
  assert (length (contents r) <> Z.to_nat (rcapacity r)).
  { intros Heq. apply ring_isfull_spec in Heq; [congruence|done]. }
  destruct Hwf as (_ & _ & _ & _ & Hc). pose proof (ring_count_range r).
  rewrite length_contents in *. lia.
Qed.

Lemma space_full r : ring_wf r -> ring_isfull r = true -> space r = O.
Proof. intros Hwf Hf. apply ring_isfull_spec in Hf; [|done]. unfold space. lia. Qed.

Lemma ring_write_loop_spec n r b (c : nat) :
  ring_wf r -> Z.of_nat (c + n) <= max32 -> (c + n <= length b)%nat ->
  let w := Nat.min n (space r) in
  let '(r', c') := ring_write_loop n r b (Z.of_nat c) in
  ring_wf r' /\ c' = Z.of_nat (c + w) /\
  rcapacity r' = rcapacity r /\ contents r' = contents r ++ take w (drop c b).
Proof.
  unfold max32. revert r c. induction n as [|n IH]; intros r c Hwf Hm Hb;
    cbn [ring_write_loop].
  - simpl. rewrite Nat.add_0_r, app_nil_r. done.
  - destruct (ring_isfull r) eqn:Hf.
    + rewrite (space_full r Hwf Hf), Nat.min_0_r, Nat.add_0_r, app_nil_r. done.
    + pose proof (space_pos r Hwf Hf) as Hsp. rewrite Nat2Z.id.
      fold (push_back r (b !!! c)). rewrite u32_small by lia.
      replace (Z.of_nat c + 1) with (Z.of_nat (S c)) by lia.
      specialize (IH (push_back r (b !!! c)) (S c) (push_back_wf r _ Hwf Hf)
                    ltac:(lia) ltac:(lia)).
      destruct (ring_write_loop n _ _ _) as [r' c'].
      destruct IH as (Hwf' & -> & Hcap & ->).
      assert (space (push_back r (b !!! c)) = (space r - 1)%nat) as Hs.
      { unfold space. rewrite push_back_contents, length_app by done. simpl. lia. }
      rewrite Hs, push_back_contents by done.
      replace (Nat.min (S n) (space r)) with (S (Nat.min n (space r - 1))) by lia.
      split_and!; [done|lia|done|].
      rewrite (drop_cons_total b c) by lia. simpl. rewrite <- app_assoc. done.
Qed.

Lemma ring_write_spec r b count :
  ring_wf r -> 0 <= count <= max32 -> count <= Z.of_nat (length b) ->
  let w := Nat.min (Z.to_nat count) (space r) in
  let '(r', c) := ring_write r b count in
  ring_wf r' /\ c = Z.of_nat w /\ rcapacity r' = rcapacity r /\
  contents r' = contents r ++ take w b.
Proof.
  intros Hwf Hc Hb w. unfold ring_write. destruct (Z.eqb_spec count 0) as [->|].
  - simpl in w. subst w. simpl. by rewrite app_nil_r.
  - pose proof (ring_write_loop_spec (Z.to_nat count) r b 0 Hwf) as H.
    simpl in H. apply H; lia.
Qed.

Lemma ring_write_reverse_loop_spec n r b (c : nat) :
  ring_wf r -> Z.of_nat (c + n) <= max32 -> (c + n <= length b)%nat ->
  let w := Nat.min n (space r) in
  let '(r', c') := ring_write_reverse_loop n r b (Z.of_nat c) in
  ring_wf r' /\ c' = Z.of_nat (c + w) /\
  contents r' = reverse (take w (drop c b)) ++ contents r.
Proof.
  unfold max32. revert r c. induction n as [|n IH]; intros r c Hwf Hm Hb;
    cbn [ring_write_reverse_loop].
  - simpl. rewrite Nat.add_0_r. done.
  - destruct (ring_isfull r) eqn:Hf.
    + rewrite (space_full r Hwf Hf), Nat.min_0_r, Nat.add_0_r, take_0. done.
    + pose proof (space_pos r Hwf Hf) as Hsp. rewrite Nat2Z.id.
      fold (push_front r (b !!! c)). rewrite (u32_small (_ + 1)) by lia.
      replace (Z.of_nat c + 1) with (Z.of_nat (S c)) by lia.
      specialize (IH (push_front r (b !!! c)) (S c) (push_front_wf r _ Hwf Hf)
                    ltac:(lia) ltac:(lia)).
      destruct (ring_write_reverse_loop n _ _ _) as [r' c'].
      destruct IH as (Hwf' & -> & ->).
      assert (space (push_front r (b !!! c)) = (space r - 1)%nat) as Hs.
      { unfold space. rewrite push_front_contents by done. simpl. lia. }
      rewrite Hs, push_front_contents by done.
      replace (Nat.min (S n) (space r)) with (S (Nat.min n (space r - 1))) by lia.
      split_and!; [done|lia|].
      rewrite (drop_cons_total b c) by lia. simpl.
      rewrite reverse_cons, <- app_assoc. done.
Qed.

Lemma ring_write_reverse_spec r b count :
  ring_wf r -> 0 <= count <= max32 -> count <= Z.of_nat (length b) ->
  let w := Nat.min (Z.to_nat count) (space r) in
  let '(r', c) := ring_write_reverse r b count in
  ring_wf r' /\ c = Z.of_nat w /\ contents r' = reverse (take w b) ++ contents r.
Proof.
  intros Hwf Hc Hb w. unfold ring_write_reverse. destruct (Z.eqb_spec count 0) as [->|].
  - simpl in w. by subst w.
  - pose proof (ring_write_reverse_loop_spec (Z.to_nat count) r b 0 Hwf) as H.
    simpl in H. apply H; lia.
Qed.

(** *** Overwriting: the last [capacity - 1] bytes survive *)

(** The last [n] elements of a list. *)
Definition lastn (n : nat) (l : list Z) : list Z := drop (length l - n) l.

Lemma lastn_all n l : (length l <= n)%nat -> lastn n l = l.
Proof. intros. unfold lastn. by replace (length l - n)%nat with O by lia. Qed.

Lemma length_lastn n l : length (lastn n l) = Nat.min n (length l).
Proof. unfold lastn. rewrite length_drop. lia. Qed.

Lemma lastn_app_lastn n l1 l2 : lastn n (lastn n l1 ++ l2) = lastn n (l1 ++ l2).
Proof.
  unfold lastn. rewrite !length_app, length_drop.
  destruct (decide (length l1 <= n)%nat).
  - by replace (length l1 - n)%nat with O by lia; rewrite Nat.sub_0_r, drop_0.
  - rewrite <- (drop_app_le l1 l2 (length l1 - n)) by lia.
    rewrite drop_drop. f_equal. lia.
Qed.

(** A ring that [ring_overwrite] keeps consistent: it is not full. *)
Definition ring_open (r : ring) : Prop := ring_wf r /\ ring_isfull r = false.

Lemma overwrite_step r v :
  ring_open r ->
  let r1 := push_back r v in
  let r2 := if ring_isfull r1 then pop_front r1 else r1 in
  ring_open r2 /\ rcapacity r2 = rcapacity r /\
  contents r2 = lastn (Z.to_nat (rcapacity r) - 1) (contents r ++ [v]).
Proof.
  intros [Hwf Hf] r1 r2. pose proof (ring_wf_capacity r Hwf) as Hcap.
  pose proof (push_back_wf r v Hwf Hf) as Hwf1.
  pose proof (push_back_contents r v Hwf Hf) as Hc1.
  pose proof (space_pos r Hwf Hf) as Hsp. unfold space in Hsp.
  subst r1 r2. destruct (ring_isfull (push_back r v)) eqn:Hf1.
  - pose proof Hf1 as Hlen. apply ring_isfull_spec in Hlen; [|done].
    rewrite Hc1, length_app in Hlen. simpl in Hlen.
    assert (ring_isempty (push_back r v) = false) as He1.
    { apply not_true_is_false. intros Ht%ring_isempty_spec; [|done].
      rewrite Hc1 in Ht. by destruct (contents r). }
    pose proof (pop_front_contents _ Hwf1 He1) as Hp. rewrite Hc1 in Hp.
    assert (lastn (Z.to_nat (rcapacity r) - 1) (contents r ++ [v]) =
            contents (pop_front (push_back r v))) as ->.
    { unfold lastn. rewrite length_app. simpl.
      replace (length (contents r) + 1 - (Z.to_nat (rcapacity r) - 1))%nat with 1%nat by lia.
      by rewrite Hp. }
    split_and!; try done. split; [by apply pop_front_wf|].
    apply not_true_is_false. intros Ht%ring_isfull_spec; [|by apply pop_front_wf].
    apply (f_equal length) in Hp. rewrite length_app in Hp. simpl in Hp.
    simpl in Ht. rewrite Ht in Hp. lia.
  - split; [done|]. split; [done|]. rewrite Hc1, lastn_all; [done|].
    assert (length (contents (push_back r v)) <> Z.to_nat (rcapacity (push_back r v))) as Hne.
    { intros Heq. apply ring_isfull_spec in Heq; [congruence|done]. }
    rewrite Hc1, length_app in *. simpl in *. lia.
Qed.

Lemma ring_overwrite_loop_spec n r b (c : nat) :
  ring_open r -> Z.of_nat (c + n) <= max32 -> (c + n <= length b)%nat ->
  let '(r', c') := ring_overwrite_loop n r b (Z.of_nat c) in
  ring_open r' /\ c' = Z.of_nat (c + n) /\ rcapacity r' = rcapacity r /\
  contents r' = lastn (Z.to_nat (rcapacity r) - 1) (contents r ++ take n (drop c b)).
Proof.
  unfold max32. revert r c. induction n as [|n IH]; intros r c Hop Hm Hb;
    cbn [ring_overwrite_loop].
  - rewrite take_0, app_nil_r, Nat.add_0_r. split_and!; try done.
    rewrite lastn_all; [done|]. destruct Hop as [Hwf Hf].
    pose proof (space_pos r Hwf Hf). unfold space in *. lia.
  - rewrite Nat2Z.id. fold (push_back r (b !!! c)). rewrite (u32_small (Z.of_nat c + 1)) by lia.
    replace (Z.of_nat c + 1) with (Z.of_nat (S c)) by lia.
    destruct (overwrite_step r (b !!! c) Hop) as (Hop2 & Hcap2 & Hc2).
    unfold pop_front in *. set (r2 := if ring_isfull _ then _ else _) in *.
    specialize (IH r2 (S c) Hop2 ltac:(lia) ltac:(lia)).
    destruct (ring_overwrite_loop n _ _ _) as [r' c'].
    destruct IH as (Hop' & -> & Hcap' & ->). rewrite Hcap2 in *.
    split_and!; [done|lia|done|].
    rewrite Hc2, lastn_app_lastn, <- app_assoc.
    by rewrite (drop_cons_total b c) by lia.
Qed.

Lemma ring_overwrite_spec r b count :
  ring_open r -> 0 <= count <= max32 -> count <= Z.of_nat (length b) ->
  let '(r', c) := ring_overwrite r b count in
  ring_open r' /\ c = count /\ rcapacity r' = rcapacity r /\
  contents r' = lastn (Z.to_nat (rcapacity r) - 1) (contents r ++ take (Z.to_nat count) b).
Proof.
  intros Hop Hc Hb. unfold ring_overwrite. destruct (Z.eqb_spec count 0) as [->|].
  - rewrite take_0, app_nil_r. split_and!; try done.
    rewrite lastn_all; [done|]. destruct Hop as [Hwf Hf].
    pose proof (space_pos r Hwf Hf). unfold space in *. lia.
  - pose proof (ring_overwrite_loop_spec (Z.to_nat count) r b 0 Hop) as H.
    simpl in H. specialize (H ltac:(lia) ltac:(lia)).
    destruct (ring_overwrite_loop _ _ _ _) as [r' c'].
    rewrite Z2Nat.id in H by lia. done.
Qed.

(** ** The sink interface: what [move_loop] needs from [put] *)

(** [put] absorbs a block of bytes into a ring; absorbing two blocks is
    absorbing their concatenation. *)
Class Sink (put : ring -> list Z -> Z -> ring * Z) := {
  sink_ok : ring -> Prop;
  absorb : nat -> list Z -> list Z -> list Z;
  taken : nat -> list Z -> list Z -> nat;
  sink_put : forall r b, sink_ok r -> Z.of_nat (length b) <= 512 ->
    let n := Z.to_nat (rcapacity r) in
    let '(r', c) := put r b (Z.of_nat (length b)) in
    sink_ok r' /\ rcapacity r' = rcapacity r /\
    c = Z.of_nat (taken n (contents r) b) /\
    contents r' = absorb n (contents r) b;
  absorb_nil : forall r, sink_ok r ->
    absorb (Z.to_nat (rcapacity r)) (contents r) [] = contents r;
  absorb_app : forall n l b1 b2,
    absorb n (absorb n l b1) b2 = absorb n l (b1 ++ b2);
  taken_nil : forall n l, taken n l [] = O;
  taken_app : forall n l b1 b2,
    taken n l (b1 ++ b2) = (taken n l b1 + taken n (absorb n l b1) b2)%nat;
  taken_le : forall n l b, (taken n l b <= length b)%nat
}.

#[export] Program Instance write_sink : Sink ring_write := {|
  sink_ok := ring_wf;
  absorb := fun n l b => l ++ take (n - length l) b;
  taken := fun n l b => Nat.min (length b) (n - length l)
|}.
Next Obligation.
  intros r b Hwf Hb n.
  pose proof (ring_write_spec r b (Z.of_nat (length b)) Hwf) as H.
  unfold max32 in H. specialize (H ltac:(lia) ltac:(lia)).
  destruct (ring_write r b _) as [r' c]. destruct H as (Hwf' & -> & Hcap & ->).
  rewrite Nat2Z.id. unfold space. subst n. split_and!; try done.
  by rewrite Nat.min_comm, <- take_take, firstn_all.
Qed.
Next Obligation. intros r _. simpl. by rewrite take_nil, app_nil_r. Qed.
Next Obligation.
  intros n l b1 b2. simpl. rewrite take_app, !app_assoc. f_equal. f_equal.
  rewrite length_app, length_take. lia.
Qed.
Next Obligation. done. Qed.
Next Obligation.
  intros n l b1 b2. simpl. rewrite !length_app, length_take. lia.
Qed.
Next Obligation. intros. simpl. lia. Qed.

#[export] Program Instance overwrite_sink : Sink ring_overwrite := {|
  sink_ok := ring_open;
  absorb := fun n l b => lastn (n - 1) (l ++ b);
  taken := fun n l b => length b
|}.
Next Obligation.
  intros r b Hop Hb n.
  pose proof (ring_overwrite_spec r b (Z.of_nat (length b)) Hop) as H.
  unfold max32 in H. specialize (H ltac:(lia) ltac:(lia)).
  destruct (ring_overwrite r b _) as [r' c]. destruct H as (Hop' & -> & Hcap & ->).
  rewrite Nat2Z.id, firstn_all. done.
Qed.
Next Obligation.
  intros r [Hwf Hf]. simpl. rewrite app_nil_r. apply lastn_all.
  pose proof (space_pos r Hwf Hf). unfold space in *. lia.
Qed.
Next Obligation. intros. simpl. by rewrite lastn_app_lastn, app_assoc. Qed.
Next Obligation. done. Qed.
Next Obligation. intros. simpl. apply length_app. Qed.
Next Obligation. done. Qed.

(** [ring_read] only moves the tail counter. *)
Lemma ring_read_frame r count :
  set_tail (set_head (fst (ring_read r count)) (rhead r)) (rtail r) = r.
Proof.
  unfold ring_read. destruct (count =? 0); [by destruct r|].
  generalize (@nil Z) as b.
  assert (forall n q b, rhead q = rhead r -> rbuffer q = rbuffer r ->
            rcapacity q = rcapacity r ->
            set_tail (set_head (fst (ring_read_loop n q b)) (rhead r)) (rtail r) = r) as H.
  { induction n as [|n IH]; intros q b Hh Hb Hc; simpl.
    - destruct q, r; simpl in *; subst; done.
    - destruct (ring_isempty q); [destruct q, r; simpl in *; subst; done|].
      apply IH; done. }
  intros b. by apply H.
Qed.

Lemma move_loop_spec put `{!Sink put} fuel to from total :
  ring_wf from -> sink_ok to -> (length (contents from) < fuel)%nat ->
  0 <= total -> total + Z.of_nat (length (contents from)) <= max32 ->
  let n := Z.to_nat (rcapacity to) in
  exists to' from',
    move_loop put fuel to from total =
      Some (to', from', total + Z.of_nat (taken n (contents to) (contents from))) /\
    sink_ok to' /\ rcapacity to' = rcapacity to /\
    contents to' = absorb n (contents to) (contents from) /\
    ring_wf from' /\ contents from' = [] /\
    set_tail (set_head from' (rhead from)) (rtail from) = from.
Proof.
  unfold max32. intros Hwf Hok Hfuel Ht Hmax. simpl.
  revert to from total Hwf Hok Hfuel Ht Hmax.
  induction fuel as [|fuel IH]; intros to from total Hwf Hok Hfuel Ht Hmax; [lia|].
  cbn [move_loop]. pose proof (ring_read_spec from 512 Hwf ltac:(lia)) as Hr.
  pose proof (ring_read_frame from 512) as Hfr.
  destruct (ring_read from 512) as [from1 buffer]. simpl in Hfr.
  destruct Hr as (Hwf1 & -> & Hc1).
  assert (contents from = take (Z.to_nat 512) (contents from) ++ contents from1) as Hsplit
    by (by rewrite Hc1, take_drop).
  set (blk := take (Z.to_nat 512) (contents from)) in *.
  assert (Z.of_nat (length blk) <= 512) as Hblk by (subst blk; rewrite length_take; lia).
  destruct (Z.eqb_spec (Z.of_nat (length blk)) 0) as [Hz|Hz].
  - assert (contents from = []) as He.
    { destruct (contents from) as [|x l] eqn:E; [done|].
      subst blk. simpl in Hz. lia. }
    exists to, from1. rewrite He, taken_nil, absorb_nil, Z.add_0_r by done.
    split_and!; try done. by rewrite Hc1, He, drop_nil.
  - pose proof (sink_put to blk Hok Hblk) as Hput. simpl in Hput.
    destruct (put to blk _) as [to1 w]. destruct Hput as (Hok1 & Hcap1 & -> & Hct1).
    pose proof (taken_le (Z.to_nat (rcapacity to)) (contents to) blk).
    assert (length (contents from) = length blk + length (contents from1))%nat as Hlen
      by (rewrite Hsplit at 1; apply length_app).
    rewrite u32_small by lia.
    destruct (IH to1 from1 (total + Z.of_nat (taken (Z.to_nat (rcapacity to)) (contents to) blk)))
      as (to' & from' & -> & Hok' & Hcap' & Hct' & Hwf' & Hcf' & Hfr'); try done; try lia.
    exists to', from'. rewrite Hcap1, Hct1 in *. split_and!; try done.
    + rewrite Hsplit at 1. rewrite taken_app. do 2 f_equal. lia.
    + by rewrite Hct', absorb_app, <- Hsplit.
    + rewrite <- Hfr at 3. rewrite <- Hfr'. destruct from'; done.
Qed.

(** *** Searches *)

Lemma cell_contents r (i : nat) :
  ring_wf r -> (i < length (contents r))%nat ->
  contents r !! i = Some (cell r (u32 (rtail r + Z.of_nat i))).
Proof.
  intros Hwf Hi. rewrite length_contents in Hi. unfold contents.
  rewrite list_lookup_fmap, lookup_seq_lt by done. simpl.
  unfold cell. rewrite mask_mod, u32_mod_capacity by done. done.
Qed.

Lemma ring_find_loop_spec r value (n i : nat) :
  ring_wf r -> (i + n = length (contents r))%nat ->
  (forall j, (j < i)%nat -> contents r !! j <> Some value) ->
  exists k : nat,
    ring_find_loop n r value (u32 (rtail r + Z.of_nat i)) (Z.of_nat i) = Z.of_nat k /\
    (k <= length (contents r))%nat /\
    (forall j, (j < k)%nat -> contents r !! j <> Some value) /\
    ((k < length (contents r))%nat -> contents r !! k = Some value).
Proof.
  intros Hwf. pose proof (ring_wf_capacity r Hwf) as Hcap.
  assert (Z.of_nat (length (contents r)) <= 2147483648) as Hlen.
  { rewrite length_contents. pose proof (ring_count_range r).
    destruct Hwf as (_ & _ & _ & _ & Hc). lia. }
  revert i. induction n as [|n IH]; intros i Hi Hbefore; simpl.
  - exists i. split_and!; try done; try lia.
    destruct (Z.eqb_spec (u32 (rtail r + Z.of_nat i)) (rhead r)) as [|Hne]; [done|].
    exfalso. apply Hne. rewrite Nat.add_0_r in Hi. rewrite Hi, length_contents.
    destruct Hwf as (_ & _ & Hh & _). unfold max32 in Hh.
    unfold ring_count. pose proof (u32_range (rhead r - rtail r)).
    rewrite Z2Nat.id, u32_add_r by lia.
    transitivity (u32 (rhead r)); [f_equal; lia|apply u32_small; lia].
  - rewrite u32_add_l.
    replace (rtail r + Z.of_nat i + 1) with (rtail r + Z.of_nat (S i)) by lia.
    rewrite (u32_small (Z.of_nat i + 1)) by lia.
    replace (Z.of_nat i + 1) with (Z.of_nat (S i)) by lia.
    pose proof (cell_contents r i Hwf ltac:(lia)) as Hcell.
    destruct (Z.eqb_spec (cell r (u32 (rtail r + Z.of_nat i))) value) as [He|Hne].
    + exists i. split_and!; try done; try lia. intros _. by rewrite Hcell, He.
    + apply IH; [lia|]. intros j Hj. destruct (decide (j = i)) as [->|].
      * rewrite Hcell. congruence.
      * apply Hbefore. lia.
Qed.

(** *** Skipping is reading without storing *)

Lemma ring_skip_loop_spec n r b :
  Z.of_nat (length b + n) <= max32 ->
  ring_skip_loop n r (Z.of_nat (length b)) =
    (fst (ring_read_loop n r b), Z.of_nat (length (snd (ring_read_loop n r b)))).
Proof.
  unfold max32. revert r b. induction n as [|n IH]; intros r b Hm; simpl; [done|].
  destruct (ring_isempty r); [done|]. rewrite (u32_small (Z.of_nat _ + 1)) by lia.
  replace (Z.of_nat (length b) + 1) with (Z.of_nat (length (b ++ [cell r (rtail r)])))
    by (rewrite length_app; simpl; lia).
  apply IH. rewrite length_app. simpl. lia.
Qed.

Lemma ring_skip_reverse_loop_spec n r b :
  Z.of_nat (length b + n) <= max32 ->
  ring_skip_reverse_loop n r (Z.of_nat (length b)) =
    (fst (ring_read_reverse_loop n r b),
     Z.of_nat (length (snd (ring_read_reverse_loop n r b)))).
Proof.
  unfold max32. revert r b. induction n as [|n IH]; intros r b Hm; simpl; [done|].
  destruct (ring_isempty r); [done|]. rewrite (u32_small (_ + 1)) by lia.
  replace (Z.of_nat (length b) + 1)
    with (Z.of_nat (length (b ++ [cell r (u32 (rhead r - 1))])))
    by (rewrite length_app; simpl; lia).
  apply IH. rewrite length_app. simpl. lia.
Qed.

(** ** Properties *)

(** C1. A ring implements a bounded double-ended queue: whatever the position
    of the two wrapping counters, writing appends as many bytes as fit and
    reports how many, writing in reverse prepends them, reading takes bytes
    from the front, reading in reverse from the back, and each of them keeps
    the ring well-formed. *)
Theorem ring_implements_deque (r : ring) (b : list Z) (count : Z)
    (Hwf : ring_wf r) (Hcount : 0 <= count <= max32)
    (Hb : count <= Z.of_nat (length b)) :
  let w := Nat.min (Z.to_nat count) (Z.to_nat (rcapacity r) - length (contents r)) in
  let n := Z.to_nat count in
  (let '(r', c) := ring_write r b count in
   ring_wf r' /\ c = Z.of_nat w /\ contents r' = contents r ++ take w b) /\
  (let '(r', c) := ring_write_reverse r b count in
   ring_wf r' /\ c = Z.of_nat w /\ contents r' = reverse (take w b) ++ contents r) /\
  (let '(r', out) := ring_read r count in
   ring_wf r' /\ out = take n (contents r) /\ contents r' = drop n (contents r)) /\
  (let '(r', out) := ring_read_reverse r count in
   ring_wf r' /\ out = take n (reverse (contents r)) /\
   contents r' = take (length (contents r) - n) (contents r)).
Proof.
  intros w n. split_and!.
  - pose proof (ring_write_spec r b count Hwf Hcount Hb) as H. unfold space in H.
    destruct (ring_write r b count) as [r' c]. destruct H as (H1 & H2 & _ & H3). done.
  - exact (ring_write_reverse_spec r b count Hwf Hcount Hb).
  - apply ring_read_spec; [done|lia].
  - apply ring_read_reverse_spec; [done|lia].
Qed.

(** A well-formed ring whose counters are about to wrap around. *)
Definition sample_ring : ring := Ring [7; 8; 0; 9] 4 1 4294967295.

Lemma sample_ring_wf : ring_wf sample_ring.
Proof.
  unfold ring_wf, sample_ring, max32. simpl.
  split_and!; try lia; try done. exists 2. lia.
Qed.

Lemma ring_implements_deque_witness :
  (let '(r', c) := ring_write sample_ring [1; 2; 3] 3 in
   ring_wf r' /\ c = 2 /\ contents r' = [9; 7; 1; 2]) /\
  contents sample_ring = [9; 7].
Proof.
  split; [|vm_compute; reflexivity].
  pose proof (ring_implements_deque sample_ring [1; 2; 3] 3 sample_ring_wf
                ltac:(unfold max32; lia) ltac:(simpl; lia)) as [H _].
  destruct (ring_write sample_ring [1; 2; 3] 3) as [r' c].
  destruct H as (Hwf & -> & ->). split_and!; [done|reflexivity|vm_compute; reflexivity].
Defined.

(** Moving one ring into another terminates and empties the source; the
    destination receives the source's bytes in order as far as they fit, the
    returned total is that number, and the bytes that do not fit are lost.
    Copying does the same to the destination and leaves the source as it was. *)
Theorem ring_move_correct (to from : ring) (Hto : ring_wf to) (Hfrom : ring_wf from) :
  let fits := Nat.min (length (contents from))
                (Z.to_nat (rcapacity to) - length (contents to)) in
  exists to' from',
    ring_move to from = Some (to', from', Z.of_nat fits) /\
    ring_copy to from = Some (to', from, Z.of_nat fits) /\
    ring_wf to' /\ contents to' = contents to ++ take fits (contents from) /\
    ring_wf from' /\ contents from' = [].
Proof.
  intros fits. pose proof (ring_wf_capacity from Hfrom).
  assert (Z.of_nat (length (contents from)) <= 2147483648) as Hl.
  { rewrite length_contents. pose proof (ring_count_range from).
    destruct Hfrom as (_ & _ & _ & _ & Hc). lia. }
  destruct (move_loop_spec ring_write (S (Z.to_nat (ring_count from))) to from 0)
    as (to' & from' & Hm & Hok & _ & Hc & Hwf' & He & Hfr); try done; try lia.
  { rewrite length_contents. lia. }
  { unfold max32. lia. }
  exists to', from'. unfold ring_copy, ring_move. rewrite Hm. simpl in *.
  split_and!; try done.
  - by rewrite Hfr.
  - rewrite Hc. f_equal. subst fits. by rewrite Nat.min_comm, <- take_take, firstn_all.
Qed.

Lemma ring_move_correct_witness :
  exists to' from',
    ring_move sample_ring (Ring [5; 6; 4; 3] 4 4 0) = Some (to', from', 2) /\
    contents to' = [9; 7; 5; 6] /\ contents from' = [].
Proof.
  assert (ring_wf (Ring [5; 6; 4; 3] 4 4 0)) as Hfrom.
  { unfold ring_wf, max32. simpl. split_and!; try lia; try done. exists 2. lia. }
  destruct (ring_move_correct sample_ring (Ring [5; 6; 4; 3] 4 4 0) sample_ring_wf Hfrom)
    as (to' & from' & Hm & _ & _ & Hc & _ & He).
  exists to', from'. split_and!; [exact Hm|rewrite Hc; vm_compute; reflexivity|exact He].
Defined.

(** Overwriting a ring that is not full accepts every byte and keeps the
    most recent [capacity - 1] of them: the oldest bytes are dropped. *)
Theorem ring_overwrite_keeps_last (r : ring) (b : list Z) (count : Z)
    (Hwf : ring_wf r) (Hopen : ring_isfull r = false)
    (Hcount : 0 <= count <= max32) (Hb : count <= Z.of_nat (length b)) :
  let '(r', c) := ring_overwrite r b count in
  ring_wf r' /\ ring_isfull r' = false /\ c = count /\
  contents r' =
    lastn (Z.to_nat (rcapacity r) - 1) (contents r ++ take (Z.to_nat count) b).
Proof.
  pose proof (ring_overwrite_spec r b count (conj Hwf Hopen) Hcount Hb) as H.
  destruct (ring_overwrite r b count) as [r' c].
  destruct H as ([H1 H2] & H3 & _ & H4). done.
Qed.

Lemma ring_overwrite_keeps_last_witness :
  let '(r', c) := ring_overwrite sample_ring [1; 2] 2 in
  ring_wf r' /\ c = 2 /\ contents r' = [7; 1; 2].
Proof.
  pose proof (ring_overwrite_keeps_last sample_ring [1; 2] 2 sample_ring_wf eq_refl
                ltac:(unfold max32; lia) ltac:(simpl; lia)) as H.
  destruct (ring_overwrite sample_ring [1; 2] 2) as [r' c].
  destruct H as (Hwf & _ & -> & ->).
  split_and!; [exact Hwf|reflexivity|vm_compute; reflexivity].
Defined.

(** Overwriting a full ring breaks it: the fullness test runs after the
    head has moved past the tail, so the count becomes [capacity + 1], the ring
    is no longer well-formed and never reports being full again. *)
Theorem ring_overwrite_full_corrupts (r : ring) (v : Z)
    (Hwf : ring_wf r) (Hfull : ring_isfull r = true) :
  let '(r', c) := ring_overwrite r [v] 1 in
  ring_count r' = rcapacity r' + 1 /\ ring_isfull r' = false /\ ~ ring_wf r'.
Proof.
  pose proof (ring_wf_capacity r Hwf) as Hcap.
  apply Z.eqb_eq in Hfull. unfold ring_overwrite. simpl.
  assert (ring_count (push_back r v) = rcapacity r + 1) as Hc.
  { unfold push_back, ring_count in *. simpl. rewrite u32_sub_l.
    replace (rhead r + 1 - rtail r) with (rhead r - rtail r + 1) by lia.
    rewrite <- u32_add_l, Hfull. apply u32_small. lia. }
  fold (push_back r v).
  assert (ring_isfull (push_back r v) = false) as Hf
    by (unfold ring_isfull; rewrite Hc; simpl; apply Z.eqb_neq; lia).
  rewrite Hf. split_and!; [done|done|].
  intros (_ & _ & _ & _ & Hle). rewrite Hc in Hle. simpl in Hle. lia.
Qed.

Lemma ring_overwrite_full_corrupts_witness :
  let '(r', c) := ring_overwrite (Ring [1; 2; 3; 4] 4 4 0) [5] 1 in
  ring_count r' = rcapacity r' + 1 /\ ring_isfull r' = false /\ ~ ring_wf r'.
Proof.
  assert (ring_wf (Ring [1; 2; 3; 4] 4 4 0)) as Hwf.
  { unfold ring_wf, max32. simpl. split_and!; try lia; try done. exists 2. lia. }
  exact (ring_overwrite_full_corrupts (Ring [1; 2; 3; 4] 4 4 0) 5 Hwf eq_refl).
Defined.

(** [ring_find] returns the position of the first byte equal to [value]
    counted from the tail, and the number of stored bytes when there is none. *)
Theorem ring_find_first (r : ring) (value : Z) (Hwf : ring_wf r) :
  exists k : nat,
    ring_find r value = Z.of_nat k /\
    (k <= length (contents r))%nat /\
    (forall j, (j < k)%nat -> contents r !! j <> Some value) /\
    ((k < length (contents r))%nat -> contents r !! k = Some value).
Proof.
  unfold ring_find.
  destruct (ring_find_loop_spec r value (Z.to_nat (ring_count r)) 0 Hwf)
    as (k & Hk & Hrest); [by rewrite length_contents|lia|].
  exists k. split; [|done]. rewrite <- Hk. f_equal. rewrite Z.add_0_r.
  symmetry. apply u32_small. destruct Hwf as (_ & _ & _ & Ht & _).
  unfold max32 in Ht. lia.
Qed.

Lemma ring_find_first_witness :
  ring_find sample_ring 7 = 1 /\
  exists k : nat, ring_find sample_ring 7 = Z.of_nat k /\
    (k <= length (contents sample_ring))%nat.
Proof.
  split; [vm_compute; reflexivity|].
  destruct (ring_find_first sample_ring 7 sample_ring_wf) as (k & Hk & Hle & _).
  exists k. split; assumption.
Defined.

(** [ring_read_allreverse] tests the free space instead of the number of
    stored bytes: it refuses a request the ring could serve, and serves a
    request larger than what is stored with fewer bytes than asked for. *)
Theorem ring_read_allreverse_guard (r : ring) (count : Z)
    (Hwf : ring_wf r) (Hcount : 0 < count <= max32) :
  let '(r', out) := ring_read_allreverse r count in
  let stored := Z.of_nat (length (contents r)) in
  (rcapacity r - stored < count -> r' = r /\ out = []) /\
  (count <= rcapacity r - stored -> stored < count -> length out = length (contents r)).
Proof.
  unfold ring_read_allreverse. rewrite ring_avail_spec by done.
  pose proof (ring_read_reverse_spec r count Hwf ltac:(lia)) as H.
  destruct (Z.ltb_spec (rcapacity r - Z.of_nat (length (contents r))) count).
  - split; [done|lia].
  - destruct (ring_read_reverse r count) as [r' out]. destruct H as (_ & -> & _).
    split; [lia|]. intros. rewrite length_take, length_reverse. lia.
Qed.

Lemma ring_read_allreverse_guard_witness :
  let '(r', out) := ring_read_allreverse (Ring [1; 2; 3; 0] 4 3 0) 3 in
  out = [] /\ contents r' = [1; 2; 3].
Proof.
  assert (ring_wf (Ring [1; 2; 3; 0] 4 3 0)) as Hwf.
  { unfold ring_wf, max32. simpl. split_and!; try lia; try done. exists 2. lia. }
  pose proof (ring_read_allreverse_guard (Ring [1; 2; 3; 0] 4 3 0) 3 Hwf
                ltac:(unfold max32; lia)) as H.
  destruct (ring_read_allreverse (Ring [1; 2; 3; 0] 4 3 0) 3) as [r' out].
  destruct H as [H _]. destruct H as [-> ->]; [vm_compute; reflexivity|].
  split; vm_compute; reflexivity.
Defined.
