(* ===== verification/Memory.v ===== *)
(** * The kernel's flat memory (src/kernel/memory/memory.c)

    The kernel addresses physical memory through integers cast to pointers, so
    its components share one store: a finite map from addresses to bytes in
    which a missing byte reads as 0.  [load32] and [store32] are the aligned
    [uint32_t] accesses of a little-endian machine.  The second half models the
    memory primitives of memory.c on this store; overlapping arguments are
    overlapping address ranges of the same map. *)
From S2P Require Import Prelude.

Local Open Scope Z_scope.

(** ** The store *)

Abbreviation mem := (gmap Z Z).

Definition load8 (m : mem) (a : Z) : Z := u8 (default 0 (m !! a)).
Definition store8 (m : mem) (a v : Z) : mem := <[a := u8 v]> m.

Definition load16 (m : mem) (a : Z) : Z := load8 m a + 256 * load8 m (a + 1).
Definition store16 (m : mem) (a v : Z) : mem :=
  store8 (store8 m a v) (a + 1) (v / 256).

Definition load32 (m : mem) (a : Z) : Z := load16 m a + 65536 * load16 m (a + 2).
Definition store32 (m : mem) (a v : Z) : mem :=
  store16 (store16 m a v) (a + 2) (v / 65536).

(** ** memory.c *)

(** [for (i = 0; i < size; i++) buf[i] = (unsigned char)value] *)
Fixpoint memset_loop (n : nat) (m : mem) (buf value : Z) : mem :=
  match n with
  | O => m
  | S n => memset_loop n (store8 m buf value) (buf + 1) value
  end.

Definition memset (m : mem) (bufptr value size : Z) : mem :=
  memset_loop (Z.to_nat size) m bufptr (u8 value).

Fixpoint memcmp_loop (n : nat) (m : mem) (a b : Z) : Z :=
  match n with
  | O => 0
  | S n =>
      if load8 m a <? load8 m b then -1
      else if load8 m b <? load8 m a then 1
      else memcmp_loop n m (a + 1) (b + 1)
  end.

Definition memcmp (m : mem) (aptr bptr size : Z) : Z :=
  memcmp_loop (Z.to_nat size) m aptr bptr.

(** [for (i = 0; i < size; i++) dst[i] = src[i]] *)
Fixpoint copy_forward (n : nat) (m : mem) (dst src : Z) : mem :=
  match n with
  | O => m
  | S n => copy_forward n (store8 m dst (load8 m src)) (dst + 1) (src + 1)
  end.

(** [for (i = size; i != 0; i--) dst[i-1] = src[i-1]] *)
Fixpoint copy_backward (n : nat) (m : mem) (dst src : Z) : mem :=
  match n with
  | O => m
  | S n =>
      let i := Z.of_nat n in
      copy_backward n (store8 m (dst + i) (load8 m (src + i))) dst src
  end.

Definition memmove (m : mem) (dstptr srcptr size : Z) : mem :=
  if dstptr <? srcptr then copy_forward (Z.to_nat size) m dstptr srcptr
  else copy_backward (Z.to_nat size) m dstptr srcptr.

Definition memcpy (m : mem) (dstptr srcptr size : Z) : mem :=
  copy_forward (Z.to_nat size) m dstptr srcptr.

(** ** The store: lemmas the components share *)

Lemma load8_range m a : 0 <= load8 m a < 256.
Proof. apply u8_range. Qed.

Lemma load16_range m a : 0 <= load16 m a < 65536.
Proof. unfold load16. pose proof (load8_range m a). pose proof (load8_range m (a + 1)). lia. Qed.

Lemma load32_range m a : 0 <= load32 m a < 4294967296.
Proof. unfold load32. pose proof (load16_range m a). pose proof (load16_range m (a + 2)). lia. Qed.

Lemma load8_store8_eq m a v : load8 (store8 m a v) a = u8 v.
Proof.
  unfold load8, store8. rewrite lookup_insert_eq. simpl. unfold u8. apply Z.mod_mod. lia.
Qed.

Lemma load8_store8_ne m a b v : a <> b -> load8 (store8 m a v) b = load8 m b.
Proof. intros. unfold load8, store8. by rewrite lookup_insert_ne. Qed.

Lemma load16_store16_eq m a v : load16 (store16 m a v) a = u16 v.
Proof.
  unfold load16, store16. rewrite load8_store8_ne, !load8_store8_eq by lia. zwrap.
Qed.

Lemma load8_store16_ne m a b v : ~ (a <= b < a + 2) -> load8 (store16 m a v) b = load8 m b.
Proof. intros. unfold store16. rewrite !load8_store8_ne by lia. done. Qed.

Lemma load8_store32_ne m a b v : ~ (a <= b < a + 4) -> load8 (store32 m a v) b = load8 m b.
Proof. intros. unfold store32. rewrite !load8_store16_ne by lia. done. Qed.

Lemma load32_store32_eq m a v : load32 (store32 m a v) a = u32 v.
Proof.
  unfold load32, store32. rewrite load16_store16_eq.
  assert (load16 (store16 (store16 m a v) (a + 2) (v / 65536)) a = u16 v) as ->.
  { rewrite <- (load16_store16_eq m a v). unfold load16.
    rewrite (load8_store16_ne _ (a + 2) a), (load8_store16_ne _ (a + 2) (a + 1)) by lia.
    done. }
  zwrap.
Qed.

Lemma load32_store32_ne m a b v :
  b + 4 <= a \/ a + 4 <= b -> load32 (store32 m a v) b = load32 m b.
Proof.
  intros. unfold load32, load16. rewrite !load8_store32_ne by lia. done.
Qed.

(** Two memories that agree on four bytes read the same word there. *)
Lemma load32_ext m1 m2 a :
  (forall i, 0 <= i < 4 -> load8 m1 (a + i) = load8 m2 (a + i)) ->
  load32 m1 a = load32 m2 a.
Proof.
  intros H. unfold load32, load16.
  rewrite <- (Z.add_0_r a) at 1 5. rewrite <- !(Z.add_assoc a).
  rewrite !H by lia. done.
Qed.

(** ** The primitives: what the loops compute *)

Lemma memset_loop_in n m buf value a :
  buf <= a < buf + Z.of_nat n -> load8 (memset_loop n m buf value) a = u8 value.
Proof.
  revert m buf. induction n as [|n IH]; intros m buf Ha; [lia|]. simpl.
  destruct (decide (a = buf)) as [->|]; [|apply IH; lia].
  clear IH Ha. assert (forall k q b, buf < b ->
    load8 (memset_loop k q b value) buf = load8 q buf) as Hframe.
  { induction k as [|k IHk]; intros q b Hb; simpl; [done|].
    rewrite IHk by lia. apply load8_store8_ne. lia. }
  rewrite Hframe by lia. apply load8_store8_eq.
Qed.

Lemma memset_loop_out n m buf value a :
  ~ (buf <= a < buf + Z.of_nat n) -> load8 (memset_loop n m buf value) a = load8 m a.
Proof.
  revert m buf. induction n as [|n IH]; intros m buf Ha; simpl; [done|].
  rewrite IH by lia. apply load8_store8_ne. lia.
Qed.

Lemma load8_memset m buf value size a :
  0 <= size ->
  load8 (memset m buf value size) a =
    if decide (buf <= a < buf + size) then u8 value else load8 m a.
Proof.
  intros. unfold memset. case_decide.
  - rewrite memset_loop_in by lia. unfold u8. apply Z.mod_mod. lia.
  - apply memset_loop_out. lia.
Qed.

Lemma copy_forward_out n m dst src a :
  ~ (dst <= a < dst + Z.of_nat n) -> load8 (copy_forward n m dst src) a = load8 m a.
Proof.
  revert m dst src. induction n as [|n IH]; intros m dst src Ha; simpl; [done|].
  rewrite IH by lia. apply load8_store8_ne. lia.
Qed.

Lemma copy_forward_in n m dst src i :
  dst <= src \/ src + Z.of_nat n <= dst -> 0 <= i < Z.of_nat n ->
  load8 (copy_forward n m dst src) (dst + i) = load8 m (src + i).
Proof.
  revert m dst src i. induction n as [|n IH]; intros m dst src i Hd Hi; simpl; [lia|].
  destruct (decide (i = 0)) as [->|].
  - rewrite copy_forward_out, !Z.add_0_r, load8_store8_eq by lia.
    apply u8_small, load8_range.
  - replace (dst + i) with (dst + 1 + (i - 1)) by lia.
    rewrite IH by lia. replace (src + 1 + (i - 1)) with (src + i) by lia.
    destruct (decide (dst = src + i)).
    + exfalso. lia.
    + by apply load8_store8_ne.
Qed.

Lemma copy_backward_out n m dst src a :
  ~ (dst <= a < dst + Z.of_nat n) -> load8 (copy_backward n m dst src) a = load8 m a.
Proof.
  revert m. induction n as [|n IH]; intros m Ha; simpl; [done|].
  rewrite IH by lia. apply load8_store8_ne. lia.
Qed.

Lemma copy_backward_in n m dst src i :
  src <= dst -> 0 <= i < Z.of_nat n ->
  load8 (copy_backward n m dst src) (dst + i) = load8 m (src + i).
Proof.
  revert m i. induction n as [|n IH]; intros m i Hd Hi; simpl; [lia|].
  destruct (decide (i = Z.of_nat n)) as [->|].
  - rewrite copy_backward_out, load8_store8_eq by lia. apply u8_small, load8_range.
  - rewrite IH by lia. apply load8_store8_ne. lia.
Qed.

Lemma load8_memcpy m dst src size a :
  0 <= size -> dst <= src \/ src + size <= dst ->
  load8 (memcpy m dst src size) a =
    if decide (dst <= a < dst + size) then load8 m (src + (a - dst)) else load8 m a.
Proof.
  intros Hs Hd. unfold memcpy. case_decide.
  - replace a with (dst + (a - dst)) at 1 by lia. apply copy_forward_in; lia.
  - apply copy_forward_out. lia.
Qed.

(** ** Properties *)

(** [memmove] copies correctly for every overlap of the two ranges: each
    destination byte gets the value the source byte had before the call, and no
    other byte changes. *)
Theorem memmove_correct (m : mem) (dst src size a : Z) (Hsize : 0 <= size) :
  load8 (memmove m dst src size) a =
    if decide (dst <= a < dst + size) then load8 m (src + (a - dst)) else load8 m a.
Proof.
  unfold memmove. destruct (Z.ltb_spec dst src) as [Hlt|Hge].
  - apply load8_memcpy; lia.
  - case_decide.
    + replace a with (dst + (a - dst)) at 1 by lia. apply copy_backward_in; lia.
    + apply copy_backward_out. lia.
Qed.

Lemma memmove_correct_witness :
  let m := store8 (store8 (store8 ∅ 100 1) 101 2) 102 3 in
  0 <= 3 /\ load8 (memmove m 101 100 3) 103 = 3 /\ load8 (memmove m 101 100 3) 102 = 2.
Proof.
  intros m. split; [lia|].
  rewrite (memmove_correct m 101 100 3 103 ltac:(lia)).
  rewrite (memmove_correct m 101 100 3 102 ltac:(lia)).
  split; vm_compute; reflexivity.
Defined.

(** The [n] bytes of memory from [a] on. *)
Definition bytes_at (m : mem) (a : Z) (n : nat) : list Z :=
  (fun i => load8 m (a + Z.of_nat i)) <$> seq 0 n.

Lemma bytes_at_S m a n : bytes_at m a (S n) = load8 m a :: bytes_at m (a + 1) n.
Proof.
  unfold bytes_at. rewrite <- cons_seq, <- fmap_S_seq. cbn [fmap list_fmap].
  rewrite Z.add_0_r. f_equal. fold (@fmap list _). rewrite <- list_fmap_compose.
  apply fmap_seq_ext. intros j _. simpl. f_equal. lia.
Qed.

Lemma memcmp_loop_spec n m a b :
  (memcmp_loop n m a b = 0 /\ bytes_at m a n = bytes_at m b n) \/
  (exists k, (k < n)%nat /\ bytes_at m a k = bytes_at m b k /\
     (memcmp_loop n m a b = -1 /\ load8 m (a + Z.of_nat k) < load8 m (b + Z.of_nat k) \/
      memcmp_loop n m a b = 1 /\ load8 m (b + Z.of_nat k) < load8 m (a + Z.of_nat k))).
Proof.
  revert a b. induction n as [|n IH]; intros a b; simpl; [by left|].
  destruct (Z.ltb_spec (load8 m a) (load8 m b)).
  { right. exists O. rewrite !Z.add_0_r. split_and!; [lia|done|by left]. }
  destruct (Z.ltb_spec (load8 m b) (load8 m a)).
  { right. exists O. rewrite !Z.add_0_r. split_and!; [lia|done|by right]. }
  rewrite !bytes_at_S. destruct (IH (a + 1) (b + 1)) as [[Hz Heq]|(k & Hk & Heq & Hc)].
  - left. split; [done|]. f_equal; [lia|done].
  - right. exists (S k). rewrite !bytes_at_S.
    replace (a + Z.of_nat (S k)) with (a + 1 + Z.of_nat k) by lia.
    replace (b + Z.of_nat (S k)) with (b + 1 + Z.of_nat k) by lia.
    split_and!; [lia|f_equal; [lia|done]|done].
Qed.

(** [memcmp] is the lexicographic order of the two byte blocks: 0 exactly
    when they are equal, otherwise the sign of the first difference. *)
Theorem memcmp_lexicographic (m : mem) (a b size : Z) :
  let n := Z.to_nat size in
  (memcmp m a b size = 0 <-> bytes_at m a n = bytes_at m b n) /\
  (memcmp m a b size = -1 <->
     exists k, (k < n)%nat /\ bytes_at m a k = bytes_at m b k /\
       load8 m (a + Z.of_nat k) < load8 m (b + Z.of_nat k)) /\
  (memcmp m a b size = 1 <->
     exists k, (k < n)%nat /\ bytes_at m a k = bytes_at m b k /\
       load8 m (b + Z.of_nat k) < load8 m (a + Z.of_nat k)).
Proof.
  intros n. unfold memcmp. fold n.
  assert (forall i j, (i < j)%nat -> bytes_at m a j = bytes_at m b j ->
            load8 m (a + Z.of_nat i) = load8 m (b + Z.of_nat i)) as Hsame.
  { intros i j Hij Heq. apply (f_equal (fun l => l !! i)) in Heq.
    unfold bytes_at in Heq. rewrite !list_lookup_fmap, lookup_seq_lt in Heq by done.
    simpl in Heq. congruence. }
  assert (forall k k', (k < n)%nat -> (k' < n)%nat ->
            bytes_at m a k = bytes_at m b k -> bytes_at m a k' = bytes_at m b k' ->
            load8 m (a + Z.of_nat k) < load8 m (b + Z.of_nat k) ->
            load8 m (b + Z.of_nat k') < load8 m (a + Z.of_nat k') -> False) as Hexcl.
  { intros k k' _ _ Hk Hk' H1 H2. destruct (Nat.lt_total k k') as [Hlt|[->|Hlt]].
    - pose proof (Hsame k k' Hlt Hk'). lia.
    - lia.
    - pose proof (Hsame k' k Hlt Hk). lia. }
  destruct (memcmp_loop_spec n m a b)
    as [[Hz Heq]|(k & Hk & Heq & [[Hr Hlt]|[Hr Hlt]])]; rewrite ?Hz, ?Hr.
  - split_and!; split; try done; try lia;
      intros (k & Hk & _ & Hlt); pose proof (Hsame k n Hk Heq); lia.
  - split_and!; split; try done; try lia.
    + intros E. pose proof (Hsame k n Hk E). lia.
    + intros _. by exists k.
    + intros (k' & Hk' & Heq' & Hlt'). exfalso. by apply (Hexcl k k').
  - split_and!; split; try done; try lia.
    + intros E. pose proof (Hsame k n Hk E). lia.
    + intros (k' & Hk' & Heq' & Hlt'). exfalso. by apply (Hexcl k' k).
    + intros _. by exists k.
Qed.
