(* ===== verification/Bitmap.v ===== *)
(** * Block bitmaps

    The physical memory manager (src/kernel/drivers/mm/mm.c) and the page table
    allocator (src/kernel/drivers/vmm/vmm.c) keep a [uint32_t] bitmap with one
    bit per block and three identical routines on it.  They are modelled once
    here, on the map from word index to word ([static] storage, so an absent
    word is 0) and the length of the array; [None] is an access outside the
    array or a shift by a negative amount, both undefined in C. *)
From S2P Require Import Prelude.

Local Open Scope Z_scope.

Abbreviation words := (gmap Z Z).

Definition BYTE_SET : Z := 0xFFFFFFFF.

Definition word (w : words) (i : Z) : Z := u32 (default 0 (w !! i)).

(** ** Operations *)

(** [map[bit / 32] |= (1 << (bit % 32))], with C's truncating [/] and [%]. *)
Definition set_bit (len : Z) (w : words) (bit : Z) : option words :=
  let i := Z.quot bit 32 in
  let j := Z.rem bit 32 in
  if decide (0 <= i < len /\ 0 <= j) then
    Some (<[i := Z.lor (word w i) (u32 (Z.shiftl 1 j))]> w)
  else None.

(** [map[bit / 32] &= ~(1 << (bit % 32))] *)
Definition unset_bit (len : Z) (w : words) (bit : Z) : option words :=
  let i := Z.quot bit 32 in
  let j := Z.rem bit 32 in
  if decide (0 <= i < len /\ 0 <= j) then
    Some (<[i := Z.land (word w i) (u32 (Z.lnot (Z.shiftl 1 j)))]> w)
  else None.

(** [for (j = 0; j < 32; j++) if (!(map[i] & (1 << j))) return (i * 32) + j] *)
Fixpoint first_clear (n : nat) (x j : Z) : option Z :=
  match n with
  | O => None
  | S n =>
      if Z.land x (u32 (Z.shiftl 1 j)) =? 0 then Some j
      else first_clear n x (j + 1)
  end.

(** The outer loop over the words; the result is an [int]. *)
Fixpoint first_free_loop (n : nat) (len : Z) (w : words) (i : Z) : option Z :=
  match n with
  | O => Some (-1)
  | S n =>
      if decide (i < len) then
        if negb (word w i =? BYTE_SET) then
          match first_clear 32 (word w i) 0 with
          | Some j => Some (s32 (u32 (i * 32 + j)))
          | None => first_free_loop n len w (i + 1)
          end
        else first_free_loop n len w (i + 1)
      else None
  end.

(** ** The abstract view: a set of used blocks *)

Definition is_set (w : words) (b : Z) : bool := Z.testbit (word w (b / 32)) (b mod 32).

Lemma word_range w i : 0 <= word w i < 4294967296.
Proof. apply u32_range. Qed.

Lemma word_insert_eq w i x : word (<[i := x]> w) i = u32 x.
Proof. unfold word. by rewrite lookup_insert_eq. Qed.

Lemma word_insert_ne w i j x : i <> j -> word (<[i := x]> w) j = word w j.
Proof. intros. unfold word. by rewrite lookup_insert_ne. Qed.

Lemma testbit_u32 x j : 0 <= j < 32 -> Z.testbit (u32 x) j = Z.testbit x j.
Proof.
  intros. unfold u32. change 4294967296 with (2 ^ 32).
  rewrite Z.testbit_mod_pow2 by lia. by destruct (Z.ltb_spec j 32); [|lia].
Qed.

Lemma bit_index b : 0 <= b -> Z.quot b 32 = b / 32 /\ Z.rem b 32 = b mod 32.
Proof. intros. split; [apply Z.quot_div_nonneg; lia|apply Z.rem_mod_nonneg; lia]. Qed.

Lemma bit_split b c : b / 32 = c / 32 -> b mod 32 = c mod 32 -> b = c.
Proof. intros. zmod. Qed.

Lemma testbit_one j k : 0 <= j < 32 -> 0 <= k < 32 ->
  Z.testbit (Z.shiftl 1 j) k = (k =? j).
Proof.
  intros. rewrite Z.shiftl_spec by lia.
  destruct (Z.eqb_spec k j) as [->|]; [by rewrite Z.sub_diag|].
  destruct (decide (k < j)); [by rewrite Z.testbit_neg_r by lia|].
  change 1 with (2 ^ 0). apply Z.pow2_bits_false. lia.
Qed.

Lemma set_bit_spec len w b :
  0 <= b -> b / 32 < len ->
  exists w', set_bit len w b = Some w' /\
    forall c, 0 <= c -> is_set w' c = (c =? b) || is_set w c.
Proof.
  intros Hb Hl. destruct (bit_index b Hb) as [Hq Hr].
  pose proof (Z.mod_pos_bound b 32 ltac:(lia)). pose proof (Z.div_pos b 32 Hb ltac:(lia)).
  unfold set_bit. rewrite Hq, Hr, decide_True by lia. eexists. split; [done|].
  intros c Hc. unfold is_set. pose proof (Z.mod_pos_bound c 32 ltac:(lia)).
  destruct (decide (b / 32 = c / 32)) as [He|Hne].
  - rewrite <- He, word_insert_eq, testbit_u32, Z.lor_spec by lia.
    rewrite testbit_u32, testbit_one, orb_comm by lia. f_equal.
    destruct (Z.eqb_spec c b) as [->|Hcb]; [apply Z.eqb_refl|].
    apply Z.eqb_neq. intros Heq. apply Hcb. by apply bit_split.
  - rewrite word_insert_ne by done. by destruct (Z.eqb_spec c b) as [->|].
Qed.

Lemma unset_bit_spec len w b :
  0 <= b -> b / 32 < len ->
  exists w', unset_bit len w b = Some w' /\
    forall c, 0 <= c -> is_set w' c = negb (c =? b) && is_set w c.
Proof.
  intros Hb Hl. destruct (bit_index b Hb) as [Hq Hr].
  pose proof (Z.mod_pos_bound b 32 ltac:(lia)). pose proof (Z.div_pos b 32 Hb ltac:(lia)).
  unfold unset_bit. rewrite Hq, Hr, decide_True by lia. eexists. split; [done|].
  intros c Hc. unfold is_set. pose proof (Z.mod_pos_bound c 32 ltac:(lia)).
  destruct (decide (b / 32 = c / 32)) as [He|Hne].
  - rewrite <- He, word_insert_eq, testbit_u32, Z.land_spec by lia.
    rewrite testbit_u32, Z.lnot_spec, testbit_one, andb_comm by lia. do 2 f_equal.
    destruct (Z.eqb_spec c b) as [->|Hcb]; [apply Z.eqb_refl|].
    apply Z.eqb_neq. intros Heq. apply Hcb. by apply bit_split.
  - rewrite word_insert_ne by done. by destruct (Z.eqb_spec c b) as [->|].
Qed.

(** A negative block number touches no bit of the array. *)
Lemma set_bit_negative len w b : b < 0 -> set_bit len w b = None.
Proof.
  intros Hb. unfold set_bit. rewrite decide_False; [done|]. intros [[Hi _] Hj].
  pose proof (Z.quot_rem' b 32). lia.
Qed.

Lemma unset_bit_negative len w b : b < 0 -> unset_bit len w b = None.
Proof.
  intros Hb. unfold unset_bit. rewrite decide_False; [done|]. intros [[Hi _] Hj].
  pose proof (Z.quot_rem' b 32). lia.
Qed.

(** ** Search *)

Lemma land_one_testbit x j :
  0 <= j < 32 -> (Z.land x (u32 (Z.shiftl 1 j)) =? 0) = negb (Z.testbit x j).
Proof.
  intros Hj. destruct (Z.testbit x j) eqn:Hb; simpl.
  - apply Z.eqb_neq. intros H0. apply (f_equal (fun z => Z.testbit z j)) in H0.
    rewrite Z.land_spec, testbit_u32, testbit_one, Z.eqb_refl, Hb, Z.testbit_0_l in H0
      by lia. done.
  - apply Z.eqb_eq. apply Z.bits_inj'. intros k Hk.
    rewrite Z.land_spec, Z.testbit_0_l.
    destruct (decide (k < 32)).
    + rewrite testbit_u32, testbit_one by lia.
      destruct (Z.eqb_spec k j) as [->|]; [by rewrite Hb|apply andb_false_r].
    + unfold u32. change 4294967296 with (2 ^ 32).
      rewrite Z.testbit_mod_pow2 by lia. destruct (Z.ltb_spec k 32); [lia|].
      apply andb_false_r.
Qed.

Lemma first_clear_spec n x j :
  0 <= j -> j + Z.of_nat n <= 32 ->
  match first_clear n x j with
  | Some k => j <= k < j + Z.of_nat n /\ Z.testbit x k = false /\
              forall i, j <= i < k -> Z.testbit x i = true
  | None => forall i, j <= i < j + Z.of_nat n -> Z.testbit x i = true
  end.
Proof.
  revert j. induction n as [|n IH]; intros j Hj Hn; simpl; [lia|].
  rewrite land_one_testbit by lia. destruct (Z.testbit x j) eqn:Hb; simpl.
  - specialize (IH (j + 1) ltac:(lia) ltac:(lia)).
    destruct (first_clear n x (j + 1)) as [k|].
    + destruct IH as (Hk & Hc & Hs). split_and!; [lia|lia|done|].
      intros i Hi. destruct (decide (i = j)) as [->|]; [done|]. apply Hs. lia.
    + intros i Hi. destruct (decide (i = j)) as [->|]; [done|]. apply IH. lia.
  - split_and!; [lia|lia|done|]. lia.
Qed.

(** A full word is one with all 32 bits set. *)
Lemma word_full_bits x :
  0 <= x < 4294967296 ->
  (x = BYTE_SET <-> forall i, 0 <= i < 32 -> Z.testbit x i = true).
Proof.
  intros Hx. split.
  - intros -> i Hi. change BYTE_SET with (Z.ones 32). apply Z.ones_spec_low. lia.
  - intros H. change BYTE_SET with (Z.ones 32). apply Z.bits_inj'. intros i Hi.
    destruct (decide (i < 32)).
    + rewrite H by lia. symmetry. apply Z.ones_spec_low. lia.
    + rewrite Z.ones_spec_high by lia.
      rewrite <- (Z.mod_small x (2 ^ 32)) by lia.
      rewrite Z.testbit_mod_pow2 by lia. by destruct (Z.ltb_spec i 32); [lia|].
Qed.

Lemma is_set_word w i j : 0 <= j < 32 -> is_set w (i * 32 + j) = Z.testbit (word w i) j.
Proof.
  intros. unfold is_set.
  replace ((i * 32 + j) / 32) with i by zmod.
  by replace ((i * 32 + j) mod 32) with j by zmod.
Qed.

Lemma first_free_loop_spec n len w i :
  0 <= i -> i + Z.of_nat n <= len -> len * 32 <= 2147483648 ->
  exists r, first_free_loop n len w i = Some r /\
    ((r = -1 /\ forall b, i * 32 <= b < (i + Z.of_nat n) * 32 -> is_set w b = true) \/
     (i * 32 <= r < (i + Z.of_nat n) * 32 /\ is_set w r = false /\
      forall b, i * 32 <= b < r -> is_set w b = true)).
Proof.
  revert i. induction n as [|n IH]; intros i Hi Hn Hl; cbn [first_free_loop].
  { eexists. split; [done|]. left. split; [done|]. lia. }
  rewrite decide_True by lia. pose proof (word_range w i) as Hw.
  assert (forall b, i * 32 <= b < i * 32 + 32 ->
            is_set w b = Z.testbit (word w i) (b - i * 32)) as Hbit.
  { intros b Hb. rewrite <- is_set_word by lia. f_equal. lia. }
  assert ((forall k, 0 <= k < 32 -> Z.testbit (word w i) k = true) ->
    exists r, first_free_loop n len w (i + 1) = Some r /\
    ((r = -1 /\ forall b, i * 32 <= b < (i + Z.of_nat (S n)) * 32 -> is_set w b = true) \/
     (i * 32 <= r < (i + Z.of_nat (S n)) * 32 /\ is_set w r = false /\
      forall b, i * 32 <= b < r -> is_set w b = true))) as Hskip.
  { intros Hfull. destruct (IH (i + 1)) as (r & Hr & Hcase); [lia..|].
    exists r. split; [done|].
    assert (forall b, i * 32 <= b < i * 32 + 32 -> is_set w b = true) as Hhere.
    { intros b Hb. rewrite Hbit by done. apply Hfull. lia. }
    destruct Hcase as [[-> Hall]|(Hrange & Hfree & Hbefore)].
    - left. split; [done|]. intros b Hb.
      destruct (decide (b < i * 32 + 32)); [apply Hhere; lia|apply Hall; lia].
    - right. split_and!; [lia|lia|done|]. intros b Hb.
      destruct (decide (b < i * 32 + 32)); [apply Hhere; lia|apply Hbefore; lia]. }
  destruct (Z.eqb_spec (word w i) BYTE_SET) as [He|Hne]; cbn [negb].
  { apply Hskip. by apply word_full_bits. }
  pose proof (first_clear_spec 32 (word w i) 0 ltac:(lia) ltac:(lia)) as Hfc.
  destruct (first_clear 32 (word w i) 0) as [j|].
  - destruct Hfc as (Hj & Hclear & Hset). exists (i * 32 + j). split.
    { rewrite u32_small, s32_small by lia. done. }
    right. split_and!; [lia|lia|by rewrite is_set_word by lia|].
    intros b Hb. rewrite Hbit by lia. apply Hset. lia.
  - apply Hskip. intros k Hk. apply Hfc. lia.
Qed.
