(* ===== verification/Pmm.v ===== *)
(** * The physical memory manager (src/kernel/drivers/mm/mm.c)

    [mem_info_t pmm] with its bitmap of 4096-byte blocks: initialisation from
    the boot memory map, allocation and release of a block. *)
From S2P Require Import Prelude Memory Bitmap.

Local Open Scope Z_scope.

(** ** Constants and state (src/include/alinix/mm.h) *)

Definition BLOCKS_LEN : Z := 4096.
Definition BITMAP_LEN : Z := 0x8000.
Definition KERNEL_SPACE_END : Z := 0x401000.

Record mem_info := MemInfo {
  pmm_size : Z;
  used_blocks : Z;
  max_blocks : Z;
  pmm_map : words
}.

Definition with_map (st : mem_info) (w : words) : mem_info :=
  MemInfo (pmm_size st) (used_blocks st) (max_blocks st) w.
Definition with_used (st : mem_info) (n : Z) : mem_info :=
  MemInfo (pmm_size st) n (max_blocks st) (pmm_map st).
Definition with_size (st : mem_info) (n : Z) : mem_info :=
  MemInfo n (used_blocks st) (max_blocks st) (pmm_map st).

(** [mem_region_t]: six packed words read from physical memory. *)
Definition region_size (m : mem) (a : Z) : Z := load32 m a.
Definition region_addr_low (m : mem) (a : Z) : Z := load32 m (a + 4).
Definition region_len_low (m : mem) (a : Z) : Z := load32 m (a + 12).
Definition region_type (m : mem) (a : Z) : Z := load32 m (a + 20).
Definition sizeof_mem_region : Z := 24.

(** ** Operations *)

Definition pmm_set_bit (st : mem_info) (bit : Z) : option mem_info :=
  w ← set_bit BITMAP_LEN (pmm_map st) (s32 bit); Some (with_map st w).

Definition pmm_unset_bit (st : mem_info) (bit : Z) : option mem_info :=
  w ← unset_bit BITMAP_LEN (pmm_map st) (s32 bit); Some (with_map st w).

Definition pmm_first_free (st : mem_info) : option Z :=
  first_free_loop (Z.to_nat (max_blocks st / 32)) BITMAP_LEN (pmm_map st) 0.

Fixpoint pmm_init_reg_loop (n : nat) (st : mem_info) (align : Z) : option mem_info :=
  match n with
  | O => Some st
  | S n =>
      st ← pmm_unset_bit st align;
      pmm_init_reg_loop n (with_used st (u32 (used_blocks st - 1))) (u32 (align + 1))
  end.

Definition pmm_init_reg (st : mem_info) (addr size : Z) : option mem_info :=
  let blocks := size / BLOCKS_LEN in
  let align := addr / BLOCKS_LEN in
  st ← pmm_init_reg_loop (Z.to_nat blocks) st align;
  pmm_set_bit st 0.

Fixpoint pmm_deinit_reg_loop (n : nat) (st : mem_info) (align : Z) : option mem_info :=
  match n with
  | O => Some st
  | S n =>
      st ← pmm_set_bit st align;
      pmm_deinit_reg_loop n (with_used st (u32 (used_blocks st + 1))) (u32 (align + 1))
  end.

Definition pmm_deinit_reg (st : mem_info) (addr size : Z) : option mem_info :=
  let blocks := size / BLOCKS_LEN in
  let align := if addr =? 0 then 0 else addr / BLOCKS_LEN in
  pmm_deinit_reg_loop (Z.to_nat blocks) st align.

(** [memset(pmm.map, BYTE_SET, BITMAP_LEN)]: [BITMAP_LEN] bytes, that is
    [BITMAP_LEN / 4] words. *)
Fixpoint fill_words (n : nat) (w : words) (i : Z) : words :=
  match n with
  | O => w
  | S n => fill_words n (<[i := BYTE_SET]> w) (i + 1)
  end.

(** The walk over the boot memory map; the bound is the pointer expression
    [(mem_region_t * ) mmap_addr + mmap_len], which scales by the record size. *)
Fixpoint pmm_init_loop (fuel : nat) (m : mem) (st : mem_info) (mm_reg bound : Z)
    : option mem_info :=
  if mm_reg <? bound then
    match fuel with
    | O => None
    | S fuel =>
        st ← (if region_type m mm_reg =? 1 then
                pmm_init_reg st (region_addr_low m mm_reg) (region_len_low m mm_reg)
              else Some st);
        pmm_init_loop fuel m st (u32 (mm_reg + region_size m mm_reg + 4)) bound
    end
  else Some st.

Definition pmm_init (fuel : nat) (m : mem) (bitmap : words)
    (mem_size mmap_addr mmap_len : Z) : option mem_info :=
  let n := mem_size / 4 in
  let st := MemInfo 0 n n (fill_words (Z.to_nat (BITMAP_LEN / 4)) bitmap 0) in
  st ← pmm_init_loop fuel m st mmap_addr
         (u32 (mmap_addr + sizeof_mem_region * mmap_len));
  st ← pmm_deinit_reg st 0 KERNEL_SPACE_END;
  Some (with_size st (u32 ((max_blocks st - used_blocks st) * 4))).

(** The returned pointer; 0 is [NULL]. *)
Definition pmm_malloc (st : mem_info) : option (mem_info * Z) :=
  p ← pmm_first_free st;
  if p =? 0 then Some (st, 0)
  else
    st ← pmm_set_bit st p;
    Some (with_used st (u32 (used_blocks st + 1)), u32 (BLOCKS_LEN * p)).

Definition pmm_free (st : mem_info) (addr : Z) : option mem_info :=
  if addr <? KERNEL_SPACE_END then Some st
  else
    st ← pmm_unset_bit st (addr / BLOCKS_LEN);
    Some (with_used st (u32 (used_blocks st - 1))).

Definition get_mem_map (st : mem_info) : words := pmm_map st.
Definition get_mem_size (st : mem_info) : Z := pmm_size st.
Definition get_used_blocks (st : mem_info) : Z := used_blocks st.
Definition get_max_blocks (st : mem_info) : Z := max_blocks st.

(** ** The invariant *)

(** The bitmap covers the machine's blocks and block 0, the one [pmm_init_reg]
    always marks, is in use. *)
Definition pmm_wf (st : mem_info) : Prop :=
  0 <= max_blocks st <= 1048576 /\ 0 <= used_blocks st <= max32 /\
  is_set (pmm_map st) 0 = true.

Definition block_used (st : mem_info) (b : Z) : bool := is_set (pmm_map st) b.

(** The blocks the allocator hands out: those of the complete bitmap words. *)
Definition managed (st : mem_info) (b : Z) : Prop := 0 <= b < 32 * (max_blocks st / 32).

Lemma managed_small st b : pmm_wf st -> managed st b -> 0 <= b < 1048576.
Proof.
  intros (Hm & _) [H0 Hb]. split; [done|]. zmod.
Qed.

Lemma pmm_first_free_spec st :
  pmm_wf st ->
  exists r, pmm_first_free st = Some r /\
    ((r = -1 /\ forall b, managed st b -> block_used st b = true) \/
     (managed st r /\ r <> 0 /\ block_used st r = false /\
      forall b, 0 <= b < r -> block_used st b = true)).
Proof.
  intros (Hm & _ & H0). unfold pmm_first_free, managed, block_used.
  pose proof (Z.div_pos (max_blocks st) 32 ltac:(lia) ltac:(lia)).
  assert (max_blocks st / 32 <= 32768) by zmod.
  destruct (first_free_loop_spec (Z.to_nat (max_blocks st / 32)) BITMAP_LEN
              (pmm_map st) 0) as (r & Hr & Hcase); [unfold BITMAP_LEN; lia..|].
  exists r. split; [done|]. rewrite Z2Nat.id in Hcase by lia.
  destruct Hcase as [[-> Hall]|(Hrange & Hfree & Hbefore)].
  - left. split; [done|]. intros b Hb. apply Hall. lia.
  - right. split_and!; [lia|lia| |done|].
    + intros ->. congruence.
    + intros b Hb. apply Hbefore. lia.
Qed.

Lemma pmm_set_bit_spec st b :
  0 <= b < 1048576 ->
  exists st', pmm_set_bit st b = Some st' /\
    used_blocks st' = used_blocks st /\ max_blocks st' = max_blocks st /\
    pmm_size st' = pmm_size st /\
    forall c, 0 <= c -> block_used st' c = (c =? b) || block_used st c.
Proof.
  intros Hb. unfold pmm_set_bit. rewrite s32_small by lia.
  destruct (set_bit_spec BITMAP_LEN (pmm_map st) b) as (w & -> & Hw);
    [lia|unfold BITMAP_LEN; zmod|].
  simpl. eexists. split; [done|]. done.
Qed.

Lemma pmm_unset_bit_spec st b :
  0 <= b < 1048576 ->
  exists st', pmm_unset_bit st b = Some st' /\
    used_blocks st' = used_blocks st /\ max_blocks st' = max_blocks st /\
    pmm_size st' = pmm_size st /\
    forall c, 0 <= c -> block_used st' c = negb (c =? b) && block_used st c.
Proof.
  intros Hb. unfold pmm_unset_bit. rewrite s32_small by lia.
  destruct (unset_bit_spec BITMAP_LEN (pmm_map st) b) as (w & -> & Hw);
    [lia|unfold BITMAP_LEN; zmod|].
  simpl. eexists. split; [done|]. done.
Qed.

(** What a successful allocation does. *)
Lemma pmm_malloc_spec st :
  pmm_wf st -> (exists b, managed st b /\ block_used st b = false) ->
  exists b st', pmm_malloc st = Some (st', BLOCKS_LEN * b) /\
    managed st b /\ 0 < b < 1048576 /\ block_used st b = false /\
    (forall c, 0 <= c < b -> block_used st c = true) /\
    used_blocks st' = u32 (used_blocks st + 1) /\ max_blocks st' = max_blocks st /\
    (forall c, 0 <= c -> block_used st' c = (c =? b) || block_used st c).
Proof.
  intros Hwf (b0 & Hb0 & Hfree0).
  destruct (pmm_first_free_spec st Hwf) as (r & Hr & [[-> Hall]|(Hm & Hne & Hfree & Hbefore)]).
  { rewrite Hall in Hfree0; [done|done]. }
  pose proof (managed_small st r Hwf Hm) as Hs.
  destruct (pmm_set_bit_spec st r Hs) as (st' & Hset & Hu & Hx & _ & Hbits).
  exists r. unfold pmm_malloc. rewrite Hr. simpl.
  destruct (Z.eqb_spec r 0); [done|]. rewrite Hset. simpl.
  rewrite (u32_small (BLOCKS_LEN * r)) by (unfold BLOCKS_LEN; lia).
  eexists. split; [done|]. simpl. rewrite Hu.
  split_and!; try done; lia.
Qed.

(** ** Counting the used blocks *)

Fixpoint count_used (st : mem_info) (n : nat) : Z :=
  match n with
  | O => 0
  | S n => (if block_used st (Z.of_nat n) then 1 else 0) + count_used st n
  end.

Lemma count_used_ext st st' n :
  (forall c, 0 <= c < Z.of_nat n -> block_used st c = block_used st' c) ->
  count_used st n = count_used st' n.
Proof.
  induction n as [|n IH]; intros H; simpl; [done|].
  rewrite H by lia. rewrite IH; [done|]. intros. apply H. lia.
Qed.

Lemma count_used_set st st' b n :
  0 <= b < Z.of_nat n -> block_used st b = false ->
  (forall c, 0 <= c -> block_used st' c = (c =? b) || block_used st c) ->
  count_used st' n = count_used st n + 1.
Proof.
  intros Hb Hfree Hbits. induction n as [|n IH]; [lia|]. simpl.
  rewrite Hbits by lia. destruct (Z.eqb_spec (Z.of_nat n) b) as [<-|Hne]; simpl.
  - rewrite Hfree, (count_used_ext st' st n); [lia|].
    intros c Hc. rewrite Hbits by lia. by destruct (Z.eqb_spec c (Z.of_nat n)); [lia|].
  - rewrite IH by lia. lia.
Qed.

(** ** Properties *)

(** C3. Allocation hands out the lowest free block that lies in a complete
    bitmap word: its page-aligned, non-null address is returned, exactly that
    block becomes used, and the usage counter moves with the bitmap. *)
Theorem pmm_malloc_lowest_free (st : mem_info) (Hwf : pmm_wf st)
    (Hfree : exists b, managed st b /\ block_used st b = false) :
  exists b st',
    pmm_malloc st = Some (st', BLOCKS_LEN * b) /\
    managed st b /\ 0 < BLOCKS_LEN * b < 4294967296 /\ block_used st b = false /\
    (forall c, 0 <= c < b -> block_used st c = true) /\
    (forall c, 0 <= c -> block_used st' c = (c =? b) || block_used st c) /\
    used_blocks st' = u32 (used_blocks st + 1) /\
    (forall n, b < Z.of_nat n -> count_used st' n = count_used st n + 1) /\
    (used_blocks st < max32 -> pmm_wf st').
Proof.
  destruct (pmm_malloc_spec st Hwf Hfree)
    as (b & st' & Hm & Hmg & Hb & Hf & Hlow & Hu & Hx & Hbits).
  exists b, st'. destruct Hwf as (Hmax & Hused & H0). unfold max32 in *.
  split_and!; try done; try (unfold BLOCKS_LEN; lia).
  - intros n Hn. apply (count_used_set st st' b n); [lia|done|done].
  - intros Hlt. unfold pmm_wf. rewrite Hx, Hu, u32_small by lia.
    split_and!; try lia; [unfold max32; lia|]. rewrite <- H0.
    change (is_set (pmm_map st') 0) with (block_used st' 0). rewrite Hbits by lia.
    unfold block_used. rewrite H0. apply orb_true_r.
Qed.

(** A machine with 64 blocks of which the first 33 are in use. *)
Definition sample_pmm : mem_info := MemInfo 0 33 64 {[0 := BYTE_SET; 1 := 1]}.

Lemma sample_pmm_wf : pmm_wf sample_pmm.
Proof. unfold pmm_wf, sample_pmm, max32. simpl. split_and!; try lia. reflexivity. Qed.

Lemma sample_pmm_free : exists b, managed sample_pmm b /\ block_used sample_pmm b = false.
Proof. exists 33. unfold managed. simpl. split; [zmod|reflexivity]. Qed.

Lemma pmm_malloc_lowest_free_witness :
  exists b st', pmm_malloc sample_pmm = Some (st', BLOCKS_LEN * b) /\
    block_used sample_pmm b = false /\ 0 < BLOCKS_LEN * b.
Proof.
  destruct (pmm_malloc_lowest_free sample_pmm sample_pmm_wf sample_pmm_free)
    as (b & st' & Hm & _ & Hb & Hf & _).
  exists b, st'. split_and!; [exact Hm|exact Hf|apply Hb].
Defined.

(** Releasing the block just obtained restores the allocator: the same
    blocks are used as before and the counter has its old value. *)
Theorem pmm_malloc_free_roundtrip (st st1 : mem_info) (addr : Z) (Hwf : pmm_wf st)
    (Hfree : exists b, managed st b /\ block_used st b = false)
    (Halloc : pmm_malloc st = Some (st1, addr)) (Hkernel : KERNEL_SPACE_END <= addr) :
  exists st2, pmm_free st1 addr = Some st2 /\
    (forall c, 0 <= c -> block_used st2 c = block_used st c) /\
    used_blocks st2 = used_blocks st.
Proof.
  destruct (pmm_malloc_spec st Hwf Hfree)
    as (b & st' & Hm & Hmg & Hb & Hf & Hlow & Hu & Hx & Hbits).
  rewrite Hm in Halloc. injection Halloc as -> <-.
  destruct Hwf as (_ & Hused & _). unfold max32 in *.
  unfold pmm_free. destruct (Z.ltb_spec (BLOCKS_LEN * b) KERNEL_SPACE_END); [lia|].
  replace (BLOCKS_LEN * b / BLOCKS_LEN) with b by (unfold BLOCKS_LEN; zmod).
  destruct (pmm_unset_bit_spec st1 b ltac:(lia)) as (st2 & -> & Hu2 & _ & _ & Hbits2).
  simpl. eexists. split; [done|]. split.
  - intros c Hc. unfold block_used in *. simpl. rewrite Hbits2, Hbits by lia.
    destruct (Z.eqb_spec c b) as [->|]; simpl; [by rewrite Hf|done].
  - simpl. rewrite Hu2, Hu, u32_sub_l, Z.add_simpl_r. apply u32_small. lia.
Qed.

(** A machine with 1088 blocks whose first 1056 are in use. *)
Definition sample_pmm_high : mem_info := MemInfo 0 1056 1088 (fill_words 33 ∅ 0).

Lemma sample_pmm_high_wf : pmm_wf sample_pmm_high.
Proof.
  unfold pmm_wf, max32. change (max_blocks sample_pmm_high) with 1088.
  change (used_blocks sample_pmm_high) with 1056.
  split_and!; try lia. vm_compute. reflexivity.
Qed.

Lemma sample_pmm_high_free :
  exists b, managed sample_pmm_high b /\ block_used sample_pmm_high b = false.
Proof.
  exists 1056. split; [|vm_compute; reflexivity].
  unfold managed. change (max_blocks sample_pmm_high / 32) with 34. lia.
Qed.

Lemma pmm_malloc_free_roundtrip_witness :
  exists st1 st2, pmm_malloc sample_pmm_high = Some (st1, 0x420000) /\
    pmm_free st1 0x420000 = Some st2 /\ used_blocks st2 = 1056.
Proof.
  destruct (pmm_malloc sample_pmm_high) as [[st1 a]|] eqn:E; [|vm_compute in E; discriminate].
  assert (a = 0x420000) as -> by (vm_compute in E; congruence).
  destruct (pmm_malloc_free_roundtrip sample_pmm_high st1 0x420000 sample_pmm_high_wf
              sample_pmm_high_free E ltac:(unfold KERNEL_SPACE_END; lia))
    as (st2 & Hf & _ & Hu).
  exists st1, st2. split_and!; [reflexivity|exact Hf|exact Hu].
Defined.

(** Exhaustion is not reported: when every block of the complete bitmap
    words is in use, [pmm_first_free] answers -1, which the test [!p] does not
    catch, so [pmm_malloc] goes on to mark block -1 (a shift by a negative
    amount) instead of returning [NULL]. *)
Theorem pmm_malloc_exhausted (st : mem_info) (Hwf : pmm_wf st)
    (Hfull : forall b, managed st b -> block_used st b = true) :
  pmm_first_free st = Some (-1) /\ pmm_malloc st = None.
Proof.
  destruct (pmm_first_free_spec st Hwf) as (r & Hr & [[-> _]|(Hm & _ & Hfree & _)]).
  - split; [done|]. assert (pmm_set_bit st (-1) = None) as Hs.
    { unfold pmm_set_bit. by rewrite set_bit_negative by (unfold s32; zmod). }
    unfold pmm_malloc. rewrite Hr. cbn -[pmm_set_bit]. by rewrite Hs.
  - rewrite Hfull in Hfree by done. done.
Qed.

Lemma pmm_malloc_exhausted_witness :
  pmm_malloc (MemInfo 0 40 40 {[0 := BYTE_SET]}) = None /\
  block_used (MemInfo 0 40 40 {[0 := BYTE_SET]}) 39 = false.
Proof.
  split; [|reflexivity].
  refine (proj2 (pmm_malloc_exhausted (MemInfo 0 40 40 {[0 := BYTE_SET]}) _ _)).
  - unfold pmm_wf, max32. simpl. split_and!; try lia. reflexivity.
  - intros b [H0 Hb]. change (max_blocks _ / 32) with 1 in Hb.
    unfold block_used, is_set. simpl. replace (b / 32) with 0 by zmod.
    rewrite Z.mod_small by lia. change (word {[0 := BYTE_SET]} 0) with (Z.ones 32).
    apply Z.ones_spec_low. lia.
Defined.

(** *** Initialisation *)

Lemma fill_words_spec n w i b :
  0 <= i -> 0 <= b ->
  is_set (fill_words n w i) b =
    if decide (i * 32 <= b < (i + Z.of_nat n) * 32) then true else is_set w b.
Proof.
  revert w i. induction n as [|n IH]; intros w i Hi Hb; cbn [fill_words].
  { rewrite decide_False by lia. done. }
  rewrite IH by lia. destruct (decide (i * 32 <= b < i * 32 + 32)).
  - rewrite (decide_True (P := i * 32 <= b < _)) by lia. case_decide; [done|].
    unfold is_set. replace (b / 32) with i by zmod. rewrite word_insert_eq.
    change (u32 BYTE_SET) with (Z.ones 32). apply Z.ones_spec_low. zmod.
  - assert (is_set (<[i := BYTE_SET]> w) b = is_set w b) as ->.
    { unfold is_set. rewrite word_insert_ne; [done|]. zmod. }
    repeat case_decide; try done; lia.
Qed.

(** The state in which exactly the blocks of the first gigabyte are used. *)
Definition first_gigabyte (st : mem_info) : Prop :=
  forall b, 0 <= b -> block_used st b = (b <? 262144).

Lemma pmm_deinit_reg_loop_keeps n st a :
  0 <= a -> a + Z.of_nat n <= 262144 -> first_gigabyte st ->
  exists st', pmm_deinit_reg_loop n st a = Some st' /\
    max_blocks st' = max_blocks st /\ first_gigabyte st'.
Proof.
  revert st a. induction n as [|n IH]; intros st a Ha Hn Hst; cbn [pmm_deinit_reg_loop].
  { by exists st. }
  destruct (pmm_set_bit_spec st a ltac:(lia)) as (st' & -> & _ & Hx & _ & Hbits).
  cbn [mbind option_bind]. rewrite (u32_small (a + 1)) by lia.
  destruct (IH (with_used st' (u32 (used_blocks st' + 1))) (a + 1)) as (st2 & -> & Hx2 & Hb2).
  - lia.
  - lia.
  - intros b Hb. unfold first_gigabyte, block_used in *. cbn [pmm_map with_used].
    rewrite Hbits, Hst by lia.
    destruct (Z.eqb_spec b a) as [->|]; [|done]. destruct (Z.ltb_spec a 262144); [done|lia].
  - exists st2. split_and!; [done|by rewrite Hx2|done].
Qed.

Lemma first_gigabyte_filled n used size :
  first_gigabyte (MemInfo size used n (fill_words (Z.to_nat (BITMAP_LEN / 4)) ∅ 0)).
Proof.
  intros b Hb. unfold block_used. cbn [pmm_map].
  rewrite fill_words_spec by lia.
  change (Z.of_nat (Z.to_nat (BITMAP_LEN / 4))) with 8192.
  destruct (Z.ltb_spec b 262144).
  - by rewrite decide_True by lia.
  - rewrite decide_False by lia. unfold is_set, word. rewrite lookup_empty.
    apply Z.testbit_0_l.
Qed.

Lemma first_gigabyte_first_free st :
  first_gigabyte st -> 262176 <= max_blocks st <= 1048576 ->
  pmm_first_free st = Some 262144.
Proof.
  intros Hst Hmax. unfold pmm_first_free.
  destruct (first_free_loop_spec (Z.to_nat (max_blocks st / 32)) BITMAP_LEN (pmm_map st) 0)
    as (r & -> & Hcase); [lia|unfold BITMAP_LEN; zmod|unfold BITMAP_LEN; lia|].
  pose proof (Z.div_le_lower_bound (max_blocks st) 32 8193 ltac:(lia) ltac:(lia)).
  rewrite Z2Nat.id in Hcase by lia. f_equal.
  assert (is_set (pmm_map st) 262144 = false) as Hfree by (apply (Hst 262144); lia).
  destruct Hcase as [[-> Hall]|(Hr & Hf & Hbefore)].
  - rewrite Hall in Hfree by lia. done.
  - assert (block_used st r = false) as Hr1 by done. rewrite Hst in Hr1 by lia.
    destruct (Z.ltb_spec r 262144); [done|].
    destruct (decide (r = 262144)); [done|]. rewrite Hbefore in Hfree by lia. done.
Qed.

Lemma pmm_deinit_reg_keeps st :
  first_gigabyte st ->
  exists st', pmm_deinit_reg st 0 KERNEL_SPACE_END = Some st' /\
    max_blocks st' = max_blocks st /\ first_gigabyte st'.
Proof.
  intros Hst. unfold pmm_deinit_reg. rewrite Z.eqb_refl.
  assert (Z.of_nat (Z.to_nat (KERNEL_SPACE_END / BLOCKS_LEN)) = 1025) as Hn by done.
  revert Hn. generalize (Z.to_nat (KERNEL_SPACE_END / BLOCKS_LEN)) as n. intros n Hn.
  apply pmm_deinit_reg_loop_keeps; [lia|lia|done].
Qed.

(** With no boot memory map, initialisation is the [memset] followed by the
    reservation of the kernel's blocks. *)
Lemma pmm_init_no_map m bitmap mem_size mmap_addr :
  0 <= mmap_addr < 4294967296 ->
  pmm_init 1 m bitmap mem_size mmap_addr 0 =
    (st ← pmm_deinit_reg
            (MemInfo 0 (mem_size / 4) (mem_size / 4)
               (fill_words (Z.to_nat (BITMAP_LEN / 4)) bitmap 0)) 0 KERNEL_SPACE_END;
     Some (with_size st (u32 ((max_blocks st - used_blocks st) * 4)))).
Proof.
  intros Ha. unfold pmm_init. rewrite Z.mul_0_r, Z.add_0_r, u32_small by done.
  generalize (fill_words (Z.to_nat (BITMAP_LEN / 4)) bitmap 0) as w. intros w.
  generalize KERNEL_SPACE_END as k. intros k.
  cbn [pmm_init_loop]. rewrite Z.ltb_irrefl. reflexivity.
Qed.

(** Initialisation marks only the first gigabyte as used: the [memset]
    of the bitmap counts bytes, so it fills a quarter of the words, and on a
    machine with more memory the blocks from 262144 on are free whatever the
    boot memory map says.  With an empty map the first allocation after
    [pmm_init] returns such a block. *)
Theorem pmm_init_marks_first_gigabyte (m : mem) (mem_size mmap_addr : Z)
    (Hsize : 0 <= mem_size <= 4194304) (Haddr : 0 <= mmap_addr < 4294967296) :
  exists st, pmm_init 1 m ∅ mem_size mmap_addr 0 = Some st /\
    max_blocks st = mem_size / 4 /\
    (forall b, 0 <= b -> block_used st b = (b <? 262144)) /\
    (262176 <= mem_size / 4 -> pmm_first_free st = Some 262144).
Proof.
  rewrite pmm_init_no_map by done.
  destruct (pmm_deinit_reg_keeps _ (first_gigabyte_filled (mem_size / 4) (mem_size / 4) 0))
    as (st1 & Hd & Hx1 & Hb1).
  rewrite Hd. eexists. split; [reflexivity|]. cbn [max_blocks with_size].
  rewrite Hx1. cbn [max_blocks]. split; [reflexivity|]. split; [exact Hb1|]. intros Hbig.
  apply first_gigabyte_first_free; [exact Hb1|]. cbn [max_blocks with_size]. rewrite Hx1.
  split; [exact Hbig|]. cbn [max_blocks]. zmod.
Qed.

Lemma pmm_init_marks_first_gigabyte_witness :
  exists st, pmm_init 1 ∅ ∅ 2097152 0x9000 0 = Some st /\
    pmm_first_free st = Some 262144.
Proof.
  destruct (pmm_init_marks_first_gigabyte ∅ 2097152 0x9000 ltac:(lia) ltac:(lia))
    as (st & Hi & _ & _ & Hf).
  exists st. split; [exact Hi|]. apply Hf. vm_compute. discriminate.
Defined.
