(* ===== verification/Vmm.v ===== *)
(** * The virtual memory manager (src/kernel/drivers/vmm/vmm.c)

    Two-level page tables written through physical addresses into the flat
    memory, and the allocator of the 2 MB area that holds the tables.  The
    state collects the globals the file touches: memory, the [static] bitmap
    and counter of the table area, [current_dir], the control registers [cr3]
    and [cr0], and the physical memory manager it allocates frames from. *)
From S2P Require Import Prelude Memory Bitmap Pmm.

Local Open Scope Z_scope.

(** ** Constants and state (paging.h, vmm.c) *)

Definition PAGE_SIZE : Z := 4096.
Definition PAGE_PRESENT : Z := 1.
Definition PAGE_RW : Z := 2.
Definition PAGE_USER : Z := 4.
Definition PAGE_FRAME_MASK : Z := 0x7FFFF000.
Definition PAGEDIR_SIZE : Z := 1024.
Definition RETURN_ADDR : Z := 0x400000.
Definition MAX_BLOCKS : Z := 512.
Definition PAGE_START : Z := 0x200000.
(** [static uint32_t bitmap[0x10]] *)
Definition PT_BITMAP_LEN : Z := 0x10.

Record vmm := Vmm {
  vm_mem : mem;
  pt_bitmap : words;
  pt_used : Z;
  current_dir : Z;
  cr3 : Z;
  cr0 : Z;
  vm_pmm : mem_info
}.

Definition with_mem (st : vmm) (m : mem) : vmm :=
  Vmm m (pt_bitmap st) (pt_used st) (current_dir st) (cr3 st) (cr0 st) (vm_pmm st).
Definition with_pt (st : vmm) (w : words) (n : Z) : vmm :=
  Vmm (vm_mem st) w n (current_dir st) (cr3 st) (cr0 st) (vm_pmm st).
Definition with_dir (st : vmm) (d : Z) : vmm :=
  Vmm (vm_mem st) (pt_bitmap st) (pt_used st) d (cr3 st) (cr0 st) (vm_pmm st).
Definition with_cr3 (st : vmm) (v : Z) : vmm :=
  Vmm (vm_mem st) (pt_bitmap st) (pt_used st) (current_dir st) v (cr0 st) (vm_pmm st).
Definition with_cr0 (st : vmm) (v : Z) : vmm :=
  Vmm (vm_mem st) (pt_bitmap st) (pt_used st) (current_dir st) (cr3 st) v (vm_pmm st).
Definition with_pmm (st : vmm) (p : mem_info) : vmm :=
  Vmm (vm_mem st) (pt_bitmap st) (pt_used st) (current_dir st) (cr3 st) (cr0 st) p.

(** ** The page table area *)

Definition paging_set_bit (st : vmm) (bit : Z) : option vmm :=
  w ← set_bit PT_BITMAP_LEN (pt_bitmap st) (s32 bit); Some (with_pt st w (pt_used st)).

Definition paging_unset_bit (st : vmm) (bit : Z) : option vmm :=
  w ← unset_bit PT_BITMAP_LEN (pt_bitmap st) (s32 bit); Some (with_pt st w (pt_used st)).

Definition paging_first_free (st : vmm) : option Z :=
  first_free_loop (Z.to_nat (MAX_BLOCKS / 32)) PT_BITMAP_LEN (pt_bitmap st) 0.

(** The returned pointer; 0 is [NULL]. *)
Definition page_table_malloc (st : vmm) : option (vmm * Z) :=
  p ← paging_first_free st;
  if p =? -1 then Some (st, 0)
  else
    st ← paging_set_bit st p;
    let st := with_pt st (pt_bitmap st) (s32 (pt_used st + 1)) in
    let addr := u32 (BLOCKS_LEN * p + PAGE_START) in
    Some (with_mem st (memset (vm_mem st) addr 0 PAGE_SIZE), addr).

Definition page_table_free (st : vmm) (addr : Z) : option vmm :=
  st ← paging_unset_bit st (u32 (addr / BLOCKS_LEN - PAGE_START));
  Some (with_pt st (pt_bitmap st) (s32 (pt_used st - 1))).

(** ** Page directory entries and page table entries *)

(** [pdir[virt >> 22]] *)
Definition pde_addr (pdir virt : Z) : Z := pdir + 4 * Z.shiftr virt 22.
Definition pde (m : mem) (pdir virt : Z) : Z := load32 m (pde_addr pdir virt).

(** [virt << 10 >> 10 >> 12], on an [uint32_t] *)
Definition pt_index (virt : Z) : Z :=
  Z.shiftr (Z.shiftr (u32 (Z.shiftl virt 10)) 10) 12.

(** [&((uint32_t * ) (pdir[virt >> 22] & ~0xFFF))[virt << 10 >> 10 >> 12]] *)
Definition pte_addr (m : mem) (pdir virt : Z) : Z :=
  Z.land (pde m pdir virt) 0xFFFFF000 + 4 * pt_index virt.

(** [x >> 12 << 12] *)
Definition frame_of (x : Z) : Z := u32 (Z.shiftl (Z.shiftr x 12) 12).

(** ** Operations of vmm.c *)

(** [flush_tlb] of mm.c; the translation cache is not part of the state. *)
Definition flush_tlb (st : vmm) (addr : Z) : vmm := st.
Definition load_pdbr (st : vmm) (addr : Z) : vmm := with_cr3 st addr.
Definition get_pdbr (st : vmm) : Z := cr3 st.
Definition enable_paging (st : vmm) : vmm := with_cr0 st (Z.lor (cr0 st) 0x80000000).

Definition change_page_directory (st : vmm) (p : Z) : vmm :=
  load_pdbr (with_dir st p) p.

Definition get_page_directory (st : vmm) : Z := current_dir st.

Definition vmm_create_page_table (st : vmm) (pdir virt flags : Z)
    : option (vmm * Z) :=
  '(st, pt) ← page_table_malloc st;
  if pt =? 0 then Some (st, 0)
  else
    Some (with_mem st (store32 (vm_mem st) (pde_addr pdir virt) (Z.lor pt flags)), 1).

Definition vmm_map_phys (st : vmm) (pdir virt phys flags : Z) : option (vmm * Z) :=
  '(st, ok) ← (if pde (vm_mem st) pdir virt =? 0 then
                 vmm_create_page_table st pdir virt flags
               else Some (st, 1));
  if ok =? 0 then Some (st, 0)
  else
    Some (with_mem st (store32 (vm_mem st) (pte_addr (vm_mem st) pdir virt)
                         (Z.lor phys flags)), 1).

Definition vmm_map (st : vmm) (pdir virt flags : Z) : option (vmm * Z) :=
  '(p, phys) ← pmm_malloc (vm_pmm st);
  let st := with_pmm st p in
  if phys =? 0 then Some (st, 0)
  else
    '(st, ok) ← (if pde (vm_mem st) pdir virt =? 0 then
                   vmm_create_page_table st pdir virt flags
                 else Some (st, 1));
    if ok =? 0 then Some (st, 0)
    else
      Some (with_mem st (store32 (vm_mem st) (pte_addr (vm_mem st) pdir virt)
                           (Z.lor phys flags)), 1).

Definition get_phys_addr (st : vmm) (pdir virt : Z) : Z :=
  if pde (vm_mem st) pdir virt =? 0 then 0
  else frame_of (load32 (vm_mem st) (pte_addr (vm_mem st) pdir virt)).

(** The loop of [map_kernel]; the boolean is whether it ran to its end, that
    is, no page table was missing. *)
Fixpoint map_kernel_loop (n : nat) (st : vmm) (pdir virt phys : Z)
    : option (vmm * bool) :=
  match n with
  | O => Some (st, true)
  | S n =>
      '(st, ok) ← (if pde (vm_mem st) pdir virt =? 0 then
                     vmm_create_page_table st pdir virt (Z.lor PAGE_PRESENT PAGE_RW)
                   else Some (st, 1));
      if ok =? 0 then Some (st, false)
      else
        let st := with_mem st
                    (store32 (vm_mem st) (pte_addr (vm_mem st) pdir virt)
                       (Z.lor (Z.lor phys PAGE_PRESENT) PAGE_RW)) in
        map_kernel_loop n st pdir (u32 (virt + PAGE_SIZE)) (u32 (phys + PAGE_SIZE))
  end.

Definition map_kernel (st : vmm) (pdir : Z) : option vmm :=
  '(st, done) ← map_kernel_loop 1024 st pdir 0 0;
  if negb done then Some st
  else
    let flags := Z.lor (Z.lor PAGE_PRESENT PAGE_RW) PAGE_USER in
    '(st, ok) ← vmm_create_page_table st pdir RETURN_ADDR flags;
    if ok =? 0 then Some st
    else
      Some (with_mem st (store32 (vm_mem st) (pte_addr (vm_mem st) pdir RETURN_ADDR)
                           (Z.lor (Z.lor (Z.lor RETURN_ADDR PAGE_PRESENT) PAGE_RW) PAGE_USER))).

(** [memset((void * ) get_page_table_bitmap(), 0, 0x10)]: 16 bytes, 4 words. *)
Definition clear_bitmap_head (w : words) : words :=
  <[3 := 0]> (<[2 := 0]> (<[1 := 0]> (<[0 := 0]> w))).

(** [kern_dir] is the address the linker gives the [static] kernel directory. *)
Definition vmm_init (kern_dir : Z) (st : vmm) : option vmm :=
  let st := with_mem st (memset (vm_mem st) kern_dir 0 PAGEDIR_SIZE) in
  let st := with_pt st (clear_bitmap_head (pt_bitmap st)) (pt_used st) in
  st ← map_kernel st kern_dir;
  Some (enable_paging (change_page_directory st kern_dir)).

Definition get_kern_directory (kern_dir : Z) : Z := kern_dir.

Fixpoint create_address_space_loop (n : nat) (st : vmm) (kern_dir pdir i addr : Z)
    : option (vmm * Z) :=
  match n with
  | O => Some (st, pdir)
  | S n =>
      let e := load32 (vm_mem st) (kern_dir + 4 * i) in
      if negb (Z.land e PAGE_PRESENT =? 0) then
        '(st, ok) ← vmm_create_page_table st pdir addr
                      (Z.shiftr (u32 (Z.shiftl e 20)) 20);
        if ok =? 0 then Some (st, 0)
        else
          let dst := frame_of (load32 (vm_mem st) (pdir + 4 * i)) in
          let src := frame_of (load32 (vm_mem st) (kern_dir + 4 * i)) in
          create_address_space_loop n
            (with_mem st (memcpy (vm_mem st) dst src PAGE_SIZE))
            kern_dir pdir (i + 1) (u32 (addr + KERNEL_SPACE_END))
      else
        create_address_space_loop n st kern_dir pdir (i + 1)
          (u32 (addr + KERNEL_SPACE_END))
  end.

Definition create_address_space (kern_dir : Z) (st : vmm) : option (vmm * Z) :=
  '(st, pdir) ← page_table_malloc st;
  if pdir =? 0 then Some (st, 0)
  else create_address_space_loop (Z.to_nat PAGEDIR_SIZE) st kern_dir pdir 0 0.

Definition vmm_unmap_page_table (st : vmm) (pdir virt : Z) : option vmm :=
  let frame := Z.land (pde (vm_mem st) pdir virt) PAGE_FRAME_MASK in
  st ← page_table_free st frame;
  Some (flush_tlb (with_mem st (store32 (vm_mem st) (pde_addr pdir virt) 0)) virt).

Fixpoint delete_address_space_loop (n : nat) (st : vmm) (pdir i : Z) : option vmm :=
  match n with
  | O => Some st
  | S n =>
      st ← (if negb (load32 (vm_mem st) (pdir + 4 * Z.shiftr (i * PAGE_SIZE) 22) =? 0)
            then vmm_unmap_page_table st pdir (i * PAGE_SIZE) else Some st);
      delete_address_space_loop n st pdir (i + 1)
  end.

Definition delete_address_space (st : vmm) (pdir : Z) : option vmm :=
  delete_address_space_loop (Z.to_nat PAGEDIR_SIZE) st pdir 0.

Definition vmm_unmap (st : vmm) (pdir virt : Z) : option vmm :=
  if negb (pde (vm_mem st) pdir virt =? 0) then
    let addr := get_phys_addr st pdir virt in
    if negb (addr =? 0) then
      p ← pmm_free (vm_pmm st) addr;
      let st := with_pmm st p in
      Some (with_mem st (store32 (vm_mem st) (pte_addr (vm_mem st) pdir virt) 0))
    else Some st
  else Some st.

Definition vmm_unmap_phys (st : vmm) (pdir virt : Z) : option vmm :=
  if negb (pde (vm_mem st) pdir virt =? 0) then
    Some (with_mem st (store32 (vm_mem st) (pte_addr (vm_mem st) pdir virt) 0))
  else Some st.

(** ** Pages and indices *)

Definition page_aligned (a : Z) : Prop := a mod 4096 = 0.

Lemma frame_of_spec x : 0 <= x < 4294967296 -> frame_of x = x - x mod 4096.
Proof.
  intros. unfold frame_of. rewrite Z.shiftl_mul_pow2, Z.shiftr_div_pow2 by lia.
  change (2 ^ 12) with 4096. rewrite u32_small; zmod.
Qed.

(** A frame address and flag bits do not overlap. *)
Lemma lor_flags a flags : page_aligned a -> 0 <= flags < 4096 -> Z.lor a flags = a + flags.
Proof.
  unfold page_aligned. intros Ha Hf. apply lor_add.
  apply Z.bits_inj'. intros n Hn. rewrite Z.land_spec, Z.bits_0.
  destruct (Z.ltb_spec n 12).
  - rewrite <- (Z.mod_pow2_bits_low a 12 n) by done.
    change (2 ^ 12) with 4096. rewrite Ha. by rewrite Z.bits_0.
  - rewrite <- (Z.mod_small flags (2 ^ 12)) by done.
    rewrite Z.mod_pow2_bits_high by lia. apply andb_false_r.
Qed.

Lemma dir_index virt : 0 <= virt < 4294967296 ->
  Z.shiftr virt 22 = virt / 4194304 /\ 0 <= virt / 4194304 < 1024.
Proof.
  intros. rewrite Z.shiftr_div_pow2 by lia. change (2 ^ 22) with 4194304.
  split; [done|]. zmod.
Qed.

Lemma pt_index_spec virt : 0 <= virt < 4294967296 ->
  pt_index virt = virt mod 4194304 / 4096.
Proof.
  intros. unfold pt_index, u32. rewrite Z.shiftl_mul_pow2, !Z.shiftr_div_pow2 by lia.
  change (2 ^ 10) with 1024. change (2 ^ 12) with 4096. zmod.
Qed.

Lemma pt_index_range virt : 0 <= virt < 4294967296 -> 0 <= pt_index virt < 1024.
Proof. intros. rewrite pt_index_spec by done. zmod. Qed.

(** Two addresses lie on one page exactly when both indices agree. *)
Lemma same_page v1 v2 :
  0 <= v1 < 4294967296 -> 0 <= v2 < 4294967296 ->
  Z.shiftr v1 22 = Z.shiftr v2 22 -> pt_index v1 = pt_index v2 ->
  v1 / 4096 = v2 / 4096.
Proof.
  intros H1 H2. rewrite (proj1 (dir_index v1 H1)), (proj1 (dir_index v2 H2)).
  rewrite !pt_index_spec by done. zmod.
Qed.

Lemma page_indices v1 v2 :
  0 <= v1 < 4294967296 -> 0 <= v2 < 4294967296 -> v1 / 4096 = v2 / 4096 ->
  Z.shiftr v1 22 = Z.shiftr v2 22 /\ pt_index v1 = pt_index v2.
Proof.
  intros H1 H2. rewrite (proj1 (dir_index v1 H1)), (proj1 (dir_index v2 H2)).
  rewrite !pt_index_spec by done. zmod.
Qed.

(** Distinct aligned pages do not overlap. *)
Lemma pages_disjoint p q :
  page_aligned p -> page_aligned q -> p <> q -> p + 4096 <= q \/ q + 4096 <= p.
Proof. unfold page_aligned. intros. zmod. Qed.

(** ** The invariant of a page directory *)

(** The page of block [k] of the table area. *)
Definition pt_page (k : Z) : Z := 0x200000 + 4096 * k.

Definition entry (m : mem) (pdir i : Z) : Z := load32 m (pdir + 4 * i).
Definition table (m : mem) (pdir i : Z) : Z := Z.land (entry m pdir i) 0xFFFFF000.

(** The directory is a page that is not a free table block; every present entry
    points to an allocated block of the table area other than the directory,
    and no two entries share a table. *)
Record dir_wf (m : mem) (w : words) (pdir : Z) : Prop := {
  dw_page : page_aligned pdir;
  dw_range : 0 <= pdir /\ pdir + 4096 <= 4294967296;
  dw_held : forall k, 0 <= k < 512 -> pdir = pt_page k -> is_set w k = true;
  dw_table : forall i, 0 <= i < 1024 -> entry m pdir i <> 0 ->
    exists k, 0 <= k < 512 /\ table m pdir i = pt_page k /\ is_set w k = true /\
      table m pdir i <> pdir;
  dw_inj : forall i j, 0 <= i < 1024 -> 0 <= j < 1024 -> i <> j ->
    entry m pdir i <> 0 -> entry m pdir j <> 0 -> table m pdir i <> table m pdir j
}.

Lemma pt_page_aligned k : page_aligned (pt_page k).
Proof. unfold page_aligned, pt_page. zmod. Qed.

Lemma pt_page_range k : 0 <= k < 512 -> 0x200000 <= pt_page k < 0x400000.
Proof. unfold pt_page. lia. Qed.

Lemma entry_range m pdir i : 0 <= entry m pdir i < 4294967296.
Proof. apply load32_range. Qed.

Lemma pde_entry m pdir virt : pde m pdir virt = entry m pdir (Z.shiftr virt 22).
Proof. done. Qed.

Lemma pte_addr_table m pdir virt :
  pte_addr m pdir virt = table m pdir (Z.shiftr virt 22) + 4 * pt_index virt.
Proof. done. Qed.

(** Storing inside a page leaves the words of other pages alone. *)
Lemma load32_other_page m p q i j v :
  page_aligned p -> page_aligned q -> p <> q -> 0 <= i < 1024 -> 0 <= j < 1024 ->
  load32 (store32 m (p + 4 * i) v) (q + 4 * j) = load32 m (q + 4 * j).
Proof.
  intros Hp Hq Hne Hi Hj. apply load32_store32_ne.
  pose proof (pages_disjoint p q Hp Hq Hne). lia.
Qed.

(** ** Writing a page table entry *)

Lemma dir_wf_ext m m' w pdir :
  (forall i, 0 <= i < 1024 -> entry m' pdir i = entry m pdir i) ->
  dir_wf m w pdir -> dir_wf m' w pdir.
Proof.
  intros He [Hp Hr Hh Ht Hi].
  assert (forall i, 0 <= i < 1024 -> table m' pdir i = table m pdir i) as Htab
    by (intros; unfold table; by rewrite He).
  split; try done.
  - intros i Hib. rewrite He, Htab by done. by apply Ht.
  - intros i j H1 H2 Hne. rewrite !He, !Htab by done. by apply Hi.
Qed.

Section set_pte.
Context (st : vmm) (pdir virt v : Z).
Context (Hwf : dir_wf (vm_mem st) (pt_bitmap st) pdir).
Context (Hvirt : 0 <= virt < 4294967296).
Context (Hpresent : pde (vm_mem st) pdir virt <> 0).

Let st' := with_mem st (store32 (vm_mem st) (pte_addr (vm_mem st) pdir virt) v).

Lemma set_pte_entry i : 0 <= i < 1024 ->
  entry (vm_mem st') pdir i = entry (vm_mem st) pdir i.
Proof.
  intros Hi. destruct (dir_index virt Hvirt) as [Hdi Hdr].
  destruct (dw_table _ _ _ Hwf (Z.shiftr virt 22)) as (k & Hk & Htab & _ & Hne);
    [lia|done|].
  unfold entry, st'. simpl. rewrite pte_addr_table, Htab.
  apply load32_other_page; try done.
  - apply pt_page_aligned.
  - apply Hwf.
  - congruence.
  - by apply pt_index_range.
Qed.

Lemma set_pte_wf : dir_wf (vm_mem st') (pt_bitmap st') pdir.
Proof. apply (dir_wf_ext (vm_mem st)); [apply set_pte_entry|done]. Qed.

Lemma set_pte_phys virt' : 0 <= virt' < 4294967296 ->
  get_phys_addr st' pdir virt' =
    if decide (virt' / 4096 = virt / 4096) then frame_of (u32 v)
    else get_phys_addr st pdir virt'.
Proof.
  intros Hv'. destruct (dir_index virt Hvirt) as [Hdi Hdr].
  destruct (dir_index virt' Hv') as [Hdi' Hdr'].
  pose proof (pt_index_range virt Hvirt). pose proof (pt_index_range virt' Hv').
  assert (Hent : forall i, 0 <= i < 1024 ->
    table (vm_mem st') pdir i = table (vm_mem st) pdir i)
    by (intros; unfold table; by rewrite set_pte_entry).
  unfold get_phys_addr. rewrite !pde_entry, set_pte_entry, !pte_addr_table, Hent by lia.
  unfold st' at 1. simpl. rewrite pte_addr_table. case_decide as Hsame.
  - destruct (page_indices virt' virt) as [-> ->]; try done.
    rewrite pde_entry in Hpresent.
    destruct (Z.eqb_spec (entry (vm_mem st) pdir (Z.shiftr virt 22)) 0); [done|].
    by rewrite load32_store32_eq.
  - destruct (Z.eqb_spec (entry (vm_mem st) pdir (Z.shiftr virt' 22)) 0) as [|Hp']; [done|].
    f_equal. destruct (dw_table _ _ _ Hwf (Z.shiftr virt 22)) as (k & Hk & Htab & _);
      [lia|done|].
    destruct (dw_table _ _ _ Hwf (Z.shiftr virt' 22)) as (k' & Hk' & Htab' & _);
      [lia|done|].
    destruct (decide (Z.shiftr virt' 22 = Z.shiftr virt 22)) as [Heq|Hne].
    + rewrite Heq. apply load32_store32_ne.
      assert (pt_index virt' <> pt_index virt).
      { intros Hpi. apply Hsame. by apply same_page. }
      lia.
    + pose proof (dw_inj _ _ _ Hwf (Z.shiftr virt' 22) (Z.shiftr virt 22)
                    ltac:(lia) ltac:(lia) Hne Hp' Hpresent) as Hdis.
      rewrite Htab, Htab' in Hdis. rewrite Htab, Htab'.
      apply load32_other_page; try done; apply pt_page_aligned.
Qed.
End set_pte.

#[local] Opaque memset memcpy.

(** ** Allocating a table *)

(** What [page_table_malloc] answers when block [k] of the area is free. *)
Definition fresh_table (st st' : vmm) (k : Z) : Prop :=
  0 <= k < 512 /\ is_set (pt_bitmap st) k = false /\
  (forall c, 0 <= c < k -> is_set (pt_bitmap st) c = true) /\
  (forall c, 0 <= c -> is_set (pt_bitmap st') c = (c =? k) || is_set (pt_bitmap st) c) /\
  vm_mem st' = memset (vm_mem st) (pt_page k) 0 PAGE_SIZE /\
  vm_pmm st' = vm_pmm st /\ pt_used st' = s32 (pt_used st + 1).

Definition area_full (st : vmm) : Prop :=
  forall k, 0 <= k < 512 -> is_set (pt_bitmap st) k = true.

Lemma page_table_malloc_spec st :
  (page_table_malloc st = Some (st, 0) /\ area_full st) \/
  (exists k st', page_table_malloc st = Some (st', pt_page k) /\ fresh_table st st' k).
Proof.
  unfold page_table_malloc, paging_first_free.
  destruct (first_free_loop_spec (Z.to_nat (MAX_BLOCKS / 32)) PT_BITMAP_LEN (pt_bitmap st) 0)
    as (r & -> & Hcase); [by unfold PT_BITMAP_LEN..|].
  change (Z.of_nat (Z.to_nat (MAX_BLOCKS / 32))) with 16 in Hcase. cbn [mbind option_bind].
  destruct Hcase as [[-> Hall]|(Hr & Hfree & Hbefore)].
  { left. split; [done|]. intros k Hk. apply Hall. lia. }
  right. exists r. destruct (Z.eqb_spec r (-1)); [lia|].
  unfold paging_set_bit. rewrite s32_small by lia.
  destruct (set_bit_spec PT_BITMAP_LEN (pt_bitmap st) r) as (w & -> & Hw);
    [lia|unfold PT_BITMAP_LEN; zmod|].
  cbn [mbind option_bind pt_bitmap pt_used vm_mem with_pt with_mem].
  assert (u32 (BLOCKS_LEN * r + PAGE_START) = pt_page r) as ->.
  { unfold BLOCKS_LEN, PAGE_START, pt_page. rewrite u32_small; lia. }
  eexists. split; [done|]. unfold fresh_table.
  cbn [pt_bitmap pt_used vm_mem vm_pmm with_pt with_mem].
  split_and!; try done; try lia.
Qed.

Lemma load32_memset_out m p v a :
  a + 4 <= p \/ p + 4096 <= a -> load32 (memset m p v PAGE_SIZE) a = load32 m a.
Proof.
  intros Ha. apply load32_ext. intros i Hi. rewrite load8_memset by done.
  rewrite decide_False; [done|]. unfold PAGE_SIZE. lia.
Qed.

Lemma load32_memset_0 m p j :
  0 <= j < 1024 -> load32 (memset m p 0 PAGE_SIZE) (p + 4 * j) = 0.
Proof.
  intros Hj. unfold load32, load16.
  rewrite !load8_memset by done. rewrite !decide_True by (unfold PAGE_SIZE; lia). done.
Qed.

(** A fresh table is disjoint from the directory and from every table in use. *)
Section fresh.
Context (st : vmm) (pdir k : Z).
Context (Hwf : dir_wf (vm_mem st) (pt_bitmap st) pdir).
Context (Hk : 0 <= k < 512) (Hfree : is_set (pt_bitmap st) k = false).

Lemma fresh_not_dir : pt_page k <> pdir.
Proof.
  intros Heq. pose proof (dw_held _ _ _ Hwf k Hk (eq_sym Heq)). congruence.
Qed.

Lemma fresh_not_table i : 0 <= i < 1024 -> entry (vm_mem st) pdir i <> 0 ->
  pt_page k <> table (vm_mem st) pdir i.
Proof.
  intros Hi He Heq. destruct (dw_table _ _ _ Hwf i Hi He) as (k' & Hk' & Ht & Hs & _).
  rewrite Ht in Heq. assert (k = k') as -> by (unfold pt_page in Heq; lia). congruence.
Qed.

Lemma memset_entry i : 0 <= i < 1024 ->
  entry (memset (vm_mem st) (pt_page k) 0 PAGE_SIZE) pdir i = entry (vm_mem st) pdir i.
Proof.
  intros Hi. apply load32_memset_out.
  pose proof (pages_disjoint (pt_page k) pdir (pt_page_aligned k) (dw_page _ _ _ Hwf)
                fresh_not_dir). lia.
Qed.
End fresh.

Lemma dir_index_range virt : 0 <= virt < 4294967296 -> 0 <= Z.shiftr virt 22 < 1024.
Proof. intros Hv. destruct (dir_index virt Hv). lia. Qed.

Lemma table_of_flags m pdir i k flags :
  0 <= k < 512 -> 0 <= flags < 4096 -> entry m pdir i = pt_page k + flags ->
  entry m pdir i <> 0 /\ table m pdir i = pt_page k.
Proof.
  intros Hk Hf He. pose proof (pt_page_range k Hk). split; [lia|].
  unfold table. rewrite land_page by apply entry_range. rewrite He.
  pose proof (pt_page_aligned k) as Ha. unfold page_aligned in Ha. zmod.
Qed.

(** Installing a page table in an empty slot keeps the invariant and every
    translation: the new table maps nothing. *)
Section create.
Context (st : vmm) (pdir virt flags : Z).
Context (Hwf : dir_wf (vm_mem st) (pt_bitmap st) pdir).
Context (Hvirt : 0 <= virt < 4294967296) (Hflags : 0 <= flags < 4096).
Context (Hempty : pde (vm_mem st) pdir virt = 0).
Context (k : Z) (st1 : vmm) (Hfresh : fresh_table st st1 k).

Let idx := Z.shiftr virt 22.
Let st' := with_mem st1 (store32 (vm_mem st1) (pde_addr pdir virt) (Z.lor (pt_page k) flags)).

Lemma create_entry i : 0 <= i < 1024 ->
  entry (vm_mem st') pdir i =
    if decide (i = idx) then pt_page k + flags else entry (vm_mem st) pdir i.
Proof.
  intros Hi. destruct Hfresh as (Hk & Hfree & _ & _ & Hmem & _).
  pose proof (dir_index_range virt Hvirt). pose proof (pt_page_range k Hk).
  unfold st', entry, pde_addr. cbn [vm_mem with_mem]. fold idx. case_decide as Hd.
  - subst i. rewrite load32_store32_eq, (lor_flags _ _ (pt_page_aligned k) Hflags).
    apply u32_small. lia.
  - rewrite load32_store32_ne by (unfold idx in *; lia). rewrite Hmem.
    exact (memset_entry st pdir k Hwf Hk Hfree i Hi).
Qed.

Lemma create_table i : 0 <= i < 1024 ->
  table (vm_mem st') pdir i =
    if decide (i = idx) then pt_page k else table (vm_mem st) pdir i.
Proof.
  intros Hi. pose proof (create_entry i Hi) as He. case_decide as Hd.
  - by apply (table_of_flags _ _ _ k flags); [apply Hfresh|..].
  - unfold table. by rewrite He.
Qed.

Lemma create_present : pde (vm_mem st') pdir virt <> 0.
Proof.
  rewrite pde_entry, create_entry by by apply dir_index_range.
  rewrite decide_True by done. pose proof (pt_page_range k (proj1 Hfresh)). lia.
Qed.

Lemma create_wf : dir_wf (vm_mem st') (pt_bitmap st') pdir.
Proof.
  pose proof Hfresh as (Hk & Hfree & _ & Hbits & _).
  pose proof (dir_index_range virt Hvirt) as Hidx.
  assert (forall c, 0 <= c -> is_set (pt_bitmap st) c = true ->
            is_set (pt_bitmap st') c = true) as Hmono.
  { intros c Hc Hs. change (is_set (pt_bitmap st1) c = true). rewrite Hbits, Hs by done.
    apply orb_true_r. }
  split; try apply Hwf.
  - intros c Hc Heq. apply Hmono; [lia|]. by apply (dw_held _ _ _ Hwf).
  - intros i Hi He. rewrite create_table by done. rewrite create_entry in He by done.
    case_decide.
    + exists k. split; [done|]. split; [done|]. split; [|by apply (fresh_not_dir st)].
      change (is_set (pt_bitmap st1) k = true). rewrite Hbits, Z.eqb_refl by lia. done.
    + destruct (dw_table _ _ _ Hwf i Hi He) as (c & Hc & Ht & Hs & Hne).
      exists c. split; [done|]. split; [done|]. split; [|done]. apply Hmono; [lia|done].
  - intros i j Hi Hj Hne He1 He2. rewrite create_entry in He1, He2 by done.
    rewrite !create_table by done.
    destruct (decide (i = idx)), (decide (j = idx)).
    + congruence.
    + by apply (fresh_not_table st).
    + apply not_eq_sym. by apply (fresh_not_table st).
    + by apply (dw_inj _ _ _ Hwf).
Qed.

Lemma create_phys virt' : 0 <= virt' < 4294967296 ->
  get_phys_addr st' pdir virt' = get_phys_addr st pdir virt'.
Proof.
  intros Hv'. pose proof (dir_index_range virt' Hv') as Hi.
  pose proof (pt_index_range virt' Hv') as Hj. pose proof Hfresh as (Hk & Hfree & _ & _ & Hmem & _).
  unfold get_phys_addr. rewrite !pde_entry, !pte_addr_table.
  rewrite create_entry, create_table by done.
  assert (forall p, page_aligned p -> p <> pdir ->
    load32 (vm_mem st') (p + 4 * pt_index virt') =
    load32 (memset (vm_mem st) (pt_page k) 0 PAGE_SIZE) (p + 4 * pt_index virt')) as Hload.
  { intros p Hp Hne. unfold st', pde_addr. cbn [vm_mem with_mem]. rewrite Hmem.
    apply load32_other_page; [apply Hwf|exact Hp|exact (not_eq_sym Hne)| |exact Hj].
    by apply dir_index_range. }
  case_decide as Hd.
  - rewrite Hd. unfold idx. rewrite <- (pde_entry _ _ virt), Hempty, Z.eqb_refl.
    pose proof (pt_page_range k Hk). destruct (Z.eqb_spec (pt_page k + flags) 0); [lia|].
    rewrite Hload by (try apply pt_page_aligned; by apply (fresh_not_dir st)).
    by rewrite load32_memset_0.
  - destruct (Z.eqb_spec (entry (vm_mem st) pdir (Z.shiftr virt' 22)) 0) as [|He]; [done|].
    f_equal. destruct (dw_table _ _ _ Hwf _ Hi He) as (c & Hc & Ht & _ & Hne).
    pose proof (fresh_not_table st pdir k Hwf Hk Hfree _ Hi He) as Hnt.
    rewrite Hload by (rewrite ?Ht; try apply pt_page_aligned; congruence).
    apply load32_memset_out. rewrite Ht in *.
    pose proof (pages_disjoint _ _ (pt_page_aligned k) (pt_page_aligned c) Hnt). lia.
Qed.
End create.

(** The outcome of installing a table in the empty slot of [virt]. *)
Record table_installed (st st' : vmm) (pdir virt : Z) : Prop := {
  ti_wf : dir_wf (vm_mem st') (pt_bitmap st') pdir;
  ti_present : pde (vm_mem st') pdir virt <> 0;
  ti_pmm : vm_pmm st' = vm_pmm st;
  ti_block : exists k, 0 <= k < 512 /\ is_set (pt_bitmap st) k = false /\
    forall c, 0 <= c -> is_set (pt_bitmap st') c = (c =? k) || is_set (pt_bitmap st) c;
  ti_entry : forall i, 0 <= i < 1024 -> i <> Z.shiftr virt 22 ->
    entry (vm_mem st') pdir i = entry (vm_mem st) pdir i;
  ti_phys : forall v, 0 <= v < 4294967296 ->
    get_phys_addr st' pdir v = get_phys_addr st pdir v
}.

Lemma vmm_create_page_table_spec st pdir virt flags :
  dir_wf (vm_mem st) (pt_bitmap st) pdir -> 0 <= virt < 4294967296 -> 0 <= flags < 4096 ->
  pde (vm_mem st) pdir virt = 0 ->
  (vmm_create_page_table st pdir virt flags = Some (st, 0) /\ area_full st) \/
  (exists st', vmm_create_page_table st pdir virt flags = Some (st', 1) /\
    table_installed st st' pdir virt).
Proof.
  intros Hwf Hv Hf He. unfold vmm_create_page_table.
  destruct (page_table_malloc_spec st) as [[-> Hfull]|(k & st1 & -> & Hfr)];
    cbn [mbind option_bind]; [by left|].
  right. pose proof (pt_page_range k (proj1 Hfr)).
  destruct (Z.eqb_spec (pt_page k) 0); [lia|]. eexists. split; [done|]. split.
  - by apply (create_wf st).
  - by apply (create_present st).
  - apply Hfr.
  - exists k. destruct Hfr as (Hk & Hfree & _ & Hbits & _). done.
  - intros i Hi Hne. rewrite (create_entry st) by done. by rewrite decide_False.
  - intros v Hvr. by apply (create_phys st).
Qed.

(** The step the mapping functions start with: make sure the slot has a table. *)
Definition ensure_table (st : vmm) (pdir virt flags : Z) : option (vmm * Z) :=
  if pde (vm_mem st) pdir virt =? 0 then vmm_create_page_table st pdir virt flags
  else Some (st, 1).

Lemma ensure_table_spec st pdir virt flags :
  dir_wf (vm_mem st) (pt_bitmap st) pdir -> 0 <= virt < 4294967296 -> 0 <= flags < 4096 ->
  (ensure_table st pdir virt flags = Some (st, 0) /\ area_full st /\
    pde (vm_mem st) pdir virt = 0) \/
  (exists st', ensure_table st pdir virt flags = Some (st', 1) /\
    dir_wf (vm_mem st') (pt_bitmap st') pdir /\ pde (vm_mem st') pdir virt <> 0 /\
    vm_pmm st' = vm_pmm st /\
    forall v, 0 <= v < 4294967296 -> get_phys_addr st' pdir v = get_phys_addr st pdir v).
Proof.
  intros Hwf Hv Hf. unfold ensure_table.
  destruct (Z.eqb_spec (pde (vm_mem st) pdir virt) 0) as [He|He].
  - destruct (vmm_create_page_table_spec st pdir virt flags Hwf Hv Hf He)
      as [[-> Hfull]|(st' & -> & [])]; [by left|right; by exists st'].
  - right. by exists st.
Qed.

(** The abstract effect of a mapping operation: the page of [virt] translates
    to [a], every other page translates as before. *)
Definition remapped (st st' : vmm) (pdir virt a : Z) : Prop :=
  dir_wf (vm_mem st') (pt_bitmap st') pdir /\
    forall v, 0 <= v < 4294967296 ->
    get_phys_addr st' pdir v =
      if decide (v / 4096 = virt / 4096) then a else get_phys_addr st pdir v.

Lemma frame_of_flags a flags :
  page_aligned a -> 0 <= a < 4294967296 -> 0 <= flags < 4096 ->
  frame_of (u32 (Z.lor a flags)) = a.
Proof.
  intros Ha Hr Hf. rewrite (lor_flags a flags Ha Hf). unfold page_aligned in Ha.
  rewrite u32_small, frame_of_spec by zmod. zmod.
Qed.

Lemma set_pte_remapped st pdir virt v :
  dir_wf (vm_mem st) (pt_bitmap st) pdir -> 0 <= virt < 4294967296 ->
  pde (vm_mem st) pdir virt <> 0 ->
  remapped st (with_mem st (store32 (vm_mem st) (pte_addr (vm_mem st) pdir virt) v))
    pdir virt (frame_of (u32 v)).
Proof.
  intros Hwf Hv Hp. split; [by apply set_pte_wf|]. intros v' Hv'. by apply set_pte_phys.
Qed.

Lemma remapped_trans st st1 st2 pdir virt a :
  (forall v, 0 <= v < 4294967296 -> get_phys_addr st1 pdir v = get_phys_addr st pdir v) ->
  remapped st1 st2 pdir virt a -> remapped st st2 pdir virt a.
Proof. intros H [Hwf Hm]. split; [done|]. intros v Hv. rewrite Hm, H by done. done. Qed.

(** The common body of [vmm_map] and [vmm_map_phys]. *)
Lemma install_spec st pdir virt phys flags :
  dir_wf (vm_mem st) (pt_bitmap st) pdir -> 0 <= virt < 4294967296 ->
  0 <= phys < 4294967296 -> page_aligned phys -> 0 <= flags < 4096 ->
  (vmm_map_phys st pdir virt phys flags = Some (st, 0) /\ area_full st /\
    pde (vm_mem st) pdir virt = 0) \/
  (exists st', vmm_map_phys st pdir virt phys flags = Some (st', 1) /\
    remapped st st' pdir virt phys /\ vm_pmm st' = vm_pmm st).
Proof.
  intros Hwf Hv Hp Ha Hf. unfold vmm_map_phys. fold (ensure_table st pdir virt flags).
  destruct (ensure_table_spec st pdir virt flags Hwf Hv Hf)
    as [(-> & ? & ?)|(st1 & -> & Hwf1 & Hp1 & Hpmm & Hph)]; [by left|].
  right. cbn [mbind option_bind]. eexists. split; [reflexivity|]. split; [|exact Hpmm].
  apply (remapped_trans st st1); [done|].
  pose proof (set_pte_remapped st1 pdir virt (Z.lor phys flags) Hwf1 Hv Hp1) as Hr.
  by rewrite frame_of_flags in Hr.
Qed.

(** ** Properties *)

(** C2. Mapping a frame changes the translation of exactly one page: on
    success the page of [virt] translates to [phys], every other virtual
    address translates as before (also those of other directory slots when a new
    page table had to be allocated), and the directory stays well formed.  The
    only failure is an exhausted table area, and then nothing changed. *)
Theorem vmm_map_phys_correct (st : vmm) (pdir virt phys flags : Z)
    (Hwf : dir_wf (vm_mem st) (pt_bitmap st) pdir) (Hvirt : 0 <= virt < 4294967296)
    (Hphys : 0 <= phys < 4294967296) (Halign : page_aligned phys)
    (Hflags : 0 <= flags < 4096) :
  (vmm_map_phys st pdir virt phys flags = Some (st, 0) /\ area_full st /\
     pde (vm_mem st) pdir virt = 0) \/
  (exists st', vmm_map_phys st pdir virt phys flags = Some (st', 1) /\
     dir_wf (vm_mem st') (pt_bitmap st') pdir /\
     forall v, 0 <= v < 4294967296 ->
       get_phys_addr st' pdir v =
         if decide (v / 4096 = virt / 4096) then phys else get_phys_addr st pdir v).
Proof.
  destruct (install_spec st pdir virt phys flags) as [?|(st' & Hm & [? ?] & _)];
    try done; [by left|right; by exists st'].
Qed.

(** An empty directory outside the table area, and nothing allocated. *)
Definition sample_vmm : vmm := Vmm ∅ ∅ 0 0x8000 0 0 sample_pmm_high.

Lemma sample_vmm_wf : dir_wf (vm_mem sample_vmm) (pt_bitmap sample_vmm) 0x8000.
Proof.
  split.
  - reflexivity.
  - lia.
  - intros k Hk Heq. unfold pt_page in Heq. lia.
  - intros i Hi He. exfalso. apply He. reflexivity.
  - intros i j Hi Hj Hne He. exfalso. apply He. reflexivity.
Qed.

Lemma sample_vmm_not_full st : is_set (pt_bitmap st) 0 = false -> area_full st -> False.
Proof. intros Hf Hfull. rewrite (Hfull 0) in Hf by lia. done. Qed.

Lemma vmm_map_phys_correct_witness :
  exists st', vmm_map_phys sample_vmm 0x8000 0x800000 0x500000 7 = Some (st', 1) /\
    get_phys_addr st' 0x8000 0x800abc = 0x500000 /\
    get_phys_addr st' 0x8000 0x801000 = 0.
Proof.
  destruct (vmm_map_phys_correct sample_vmm 0x8000 0x800000 0x500000 7 sample_vmm_wf
              ltac:(lia) ltac:(lia) eq_refl ltac:(lia)) as [(_ & Hfull & _)|(st' & Hm & _ & Hv)].
  - exfalso. exact (sample_vmm_not_full sample_vmm eq_refl Hfull).
  - exists st'. split; [exact Hm|].
    rewrite (Hv 0x800abc) by lia. rewrite (Hv 0x801000) by lia. split; reflexivity.
Defined.

(** What [vmm_map] does, given what the frame allocator returned. *)
Lemma vmm_map_spec st pdir virt flags p phys :
  pmm_malloc (vm_pmm st) = Some (p, phys) -> phys <> 0 ->
  vmm_map st pdir virt flags = vmm_map_phys (with_pmm st p) pdir virt phys flags.
Proof.
  intros Hm Hne. unfold vmm_map. rewrite Hm. cbn [mbind option_bind].
  destruct (Z.eqb_spec phys 0); [done|]. reflexivity.
Qed.

(** [vmm_map] backs a page with the lowest free frame: the frame was free
    and is now in use, the page translates to it, no other translation changes.
    When the table area is exhausted it fails, and the frame it had taken stays
    marked as used although nothing maps it. *)
Theorem vmm_map_correct (st : vmm) (pdir virt flags : Z)
    (Hwf : dir_wf (vm_mem st) (pt_bitmap st) pdir) (Hvirt : 0 <= virt < 4294967296)
    (Hflags : 0 <= flags < 4096) (Hpmm : pmm_wf (vm_pmm st))
    (Hfree : exists b, managed (vm_pmm st) b /\ block_used (vm_pmm st) b = false) :
  exists b st' ok,
    vmm_map st pdir virt flags = Some (st', ok) /\ 0 < b < 1048576 /\
    block_used (vm_pmm st) b = false /\
    (forall c, 0 <= c < b -> block_used (vm_pmm st) c = true) /\
    (forall c, 0 <= c ->
       block_used (vm_pmm st') c = (c =? b) || block_used (vm_pmm st) c) /\
    dir_wf (vm_mem st') (pt_bitmap st') pdir /\
    (ok = 0 /\ area_full st /\ vm_mem st' = vm_mem st \/
     ok = 1 /\ forall v, 0 <= v < 4294967296 ->
       get_phys_addr st' pdir v =
         if decide (v / 4096 = virt / 4096) then BLOCKS_LEN * b
         else get_phys_addr st pdir v).
Proof.
  destruct (pmm_malloc_spec (vm_pmm st) Hpmm Hfree)
    as (b & p & Hm & _ & Hb & Hf & Hlow & _ & _ & Hbits).
  exists b. rewrite (vmm_map_spec st pdir virt flags p _ Hm) by (unfold BLOCKS_LEN; lia).
  destruct (install_spec (with_pmm st p) pdir virt (BLOCKS_LEN * b) flags)
    as [(-> & Hfull & _)|(st' & -> & [Hwf' Hr] & Hp)]; try done.
  - unfold BLOCKS_LEN. lia.
  - unfold page_aligned, BLOCKS_LEN. zmod.
  - exists (with_pmm st p), 0. split_and!; try done; try lia. by left.
  - exists st', 1. rewrite Hp. split_and!; try done; try lia. right. split; [done|].
    intros v Hv. rewrite Hr by done. done.
Qed.

Lemma vmm_map_correct_witness :
  exists st', vmm_map sample_vmm 0x8000 0x800000 7 = Some (st', 1) /\
    get_phys_addr st' 0x8000 0x800123 = 0x420000.
Proof.
  destruct (vmm_map_correct sample_vmm 0x8000 0x800000 7 sample_vmm_wf ltac:(lia) ltac:(lia)
              sample_pmm_high_wf sample_pmm_high_free)
    as (b & st' & ok & Hm & Hb & Hfree & Hlow & _ & _ & [(_ & Hfull & _)|(-> & Hv)]).
  - exfalso. exact (sample_vmm_not_full sample_vmm eq_refl Hfull).
  - exists st'. split; [exact Hm|]. rewrite (Hv 0x800123) by lia.
    rewrite decide_True by reflexivity.
    assert (b = 1056) as ->; [|reflexivity].
    destruct (Z.lt_total b 1056) as [Hlt|[->|Hgt]]; [|reflexivity|].
    + exfalso. revert Hfree. unfold block_used, sample_vmm, sample_pmm_high. cbn [vm_pmm pmm_map].
      rewrite fill_words_spec by lia. rewrite decide_True by lia. discriminate.
    + exfalso. specialize (Hlow 1056 ltac:(lia)). vm_compute in Hlow. discriminate.
Defined.

(** Unmapping a mapped page gives its frame back: when the page of [virt]
    translates to a frame above the kernel's memory, [vmm_unmap] leaves it
    untranslated, marks exactly that frame free, and changes no other
    translation. *)
Theorem vmm_unmap_correct (st : vmm) (pdir virt a : Z)
    (Hwf : dir_wf (vm_mem st) (pt_bitmap st) pdir) (Hvirt : 0 <= virt < 4294967296)
    (Hmapped : get_phys_addr st pdir virt = a) (Ha : KERNEL_SPACE_END <= a) :
  exists st', vmm_unmap st pdir virt = Some st' /\
    dir_wf (vm_mem st') (pt_bitmap st') pdir /\
    (forall v, 0 <= v < 4294967296 ->
       get_phys_addr st' pdir v =
         if decide (v / 4096 = virt / 4096) then 0 else get_phys_addr st pdir v) /\
    (forall c, 0 <= c -> block_used (vm_pmm st') c =
       negb (c =? a / 4096) && block_used (vm_pmm st) c).
Proof.
  unfold vmm_unmap. rewrite Hmapped. unfold KERNEL_SPACE_END in Ha.
  destruct (Z.eqb_spec (pde (vm_mem st) pdir virt) 0) as [He|He]; cbn [negb].
  { unfold get_phys_addr in Hmapped. rewrite He, Z.eqb_refl in Hmapped. lia. }
  destruct (Z.eqb_spec a 0); [lia|]. cbn [negb]. unfold pmm_free.
  destruct (Z.ltb_spec a KERNEL_SPACE_END); [unfold KERNEL_SPACE_END in *; lia|].
  assert (0 <= a < 4294967296) as Har.
  { rewrite <- Hmapped. unfold get_phys_addr. case_match; [lia|]. apply u32_range. }
  destruct (pmm_unset_bit_spec (vm_pmm st) (a / BLOCKS_LEN)) as (p & -> & _ & _ & _ & Hbits);
    [unfold BLOCKS_LEN; zmod|].
  cbn [mbind option_bind]. eexists. split; [reflexivity|].
  destruct (set_pte_remapped st pdir virt 0 Hwf Hvirt He) as [Hwf' Hr].
  split; [exact Hwf'|]. split; [exact Hr|exact Hbits].
Qed.

Lemma vmm_unmap_correct_witness :
  exists st1 st2, vmm_map_phys sample_vmm 0x8000 0x800000 0x500000 7 = Some (st1, 1) /\
    vmm_unmap st1 0x8000 0x800000 = Some st2 /\ get_phys_addr st2 0x8000 0x800000 = 0.
Proof.
  destruct (install_spec sample_vmm 0x8000 0x800000 0x500000 7 sample_vmm_wf
              ltac:(lia) ltac:(lia) eq_refl ltac:(lia))
    as [(_ & Hfull & _)|(st1 & Hm & [Hwf1 Hv] & _)].
  - exfalso. exact (sample_vmm_not_full sample_vmm eq_refl Hfull).
  - destruct (vmm_unmap_correct st1 0x8000 0x800000 0x500000 Hwf1 ltac:(lia)
                ltac:(rewrite Hv by lia; reflexivity) ltac:(unfold KERNEL_SPACE_END; lia))
      as (st2 & Hu & _ & Hv2 & _).
    exists st1, st2. split; [exact Hm|]. split; [exact Hu|].
    rewrite Hv2 by lia. reflexivity.
Defined.

Lemma page_table_free_none st k : 0 <= k < 512 -> page_table_free st (pt_page k) = None.
Proof.
  intros Hk. unfold page_table_free, paging_unset_bit.
  rewrite unset_bit_negative; [done|]. unfold BLOCKS_LEN, PAGE_START, pt_page. zwrap.
Qed.

Lemma unmap_table_none st pdir virt k :
  0 <= k < 512 -> table (vm_mem st) pdir (Z.shiftr virt 22) = pt_page k ->
  vmm_unmap_page_table st pdir virt = None.
Proof.
  intros Hk Ht. unfold vmm_unmap_page_table. rewrite pde_entry. unfold table in Ht.
  assert (Z.land (entry (vm_mem st) pdir (Z.shiftr virt 22)) PAGE_FRAME_MASK = pt_page k) as ->.
  { replace PAGE_FRAME_MASK with (Z.land 0xFFFFF000 (Z.ones 31)) by reflexivity.
    rewrite Z.land_assoc, Ht, Z.land_ones by lia. apply Z.mod_small.
    pose proof (pt_page_range k Hk). change (2 ^ 31) with 2147483648. lia. }
  by rewrite page_table_free_none.
Qed.

(** [page_table_free] never frees: the block number it computes subtracts
    the byte address [PAGE_START] from a page number, which is negative for
    every address of the table area, so the bit it clears lies before the
    bitmap.  No page [page_table_malloc] returned can be given back, and
    [vmm_unmap_page_table] inherits the defect for every present table. *)
Theorem page_table_free_undefined (st : vmm) (k : Z) (Hk : 0 <= k < 512) :
  page_table_free st (pt_page k) = None /\
  forall pdir virt,
    table (vm_mem st) pdir (Z.shiftr virt 22) = pt_page k ->
    vmm_unmap_page_table st pdir virt = None.
Proof.
  split; [by apply page_table_free_none|]. intros pdir virt Ht. by apply (unmap_table_none _ _ _ k).
Qed.

Lemma page_table_free_undefined_witness :
  page_table_free sample_vmm 0x203000 = None.
Proof. exact (proj1 (page_table_free_undefined sample_vmm 3 ltac:(lia))). Defined.

(** *** The kernel's mapping *)

(** One identity-mapped page with its table present. *)
Lemma map_kernel_loop_present n st pdir virt :
  dir_wf (vm_mem st) (pt_bitmap st) pdir -> pde (vm_mem st) pdir 0 <> 0 ->
  page_aligned virt -> 0 <= virt -> virt + 4096 * Z.of_nat n <= 4194304 ->
  exists st', map_kernel_loop n st pdir virt virt = Some (st', true) /\
    dir_wf (vm_mem st') (pt_bitmap st') pdir /\
    pt_bitmap st' = pt_bitmap st /\ vm_pmm st' = vm_pmm st /\
    (forall i, 0 <= i < 1024 -> entry (vm_mem st') pdir i = entry (vm_mem st) pdir i) /\
    forall v, 0 <= v < 4294967296 ->
      get_phys_addr st' pdir v =
        if decide (virt <= v < virt + 4096 * Z.of_nat n) then v - v mod 4096
        else get_phys_addr st pdir v.
Proof.
  revert st virt. induction n as [|n IH]; intros st virt Hwf Hp Ha H0 Hn;
    cbn [map_kernel_loop].
  { exists st. split_and!; try done. intros v Hv. by rewrite decide_False by lia. }
  assert (Z.shiftr virt 22 = 0) as Hidx by (rewrite (proj1 (dir_index virt ltac:(lia))); zmod).
  assert (pde (vm_mem st) pdir virt <> 0) as Hpv by (rewrite pde_entry, Hidx; exact Hp).
  destruct (Z.eqb_spec (pde (vm_mem st) pdir virt) 0); [done|].
  cbn [mbind option_bind]. change (1 =? 0) with false. cbv iota beta.
  set (v := Z.lor (Z.lor virt PAGE_PRESENT) PAGE_RW).
  assert (frame_of (u32 v) = virt) as Hfr.
  { unfold v. rewrite <- Z.lor_assoc. apply frame_of_flags; [done|lia|done]. }
  destruct (set_pte_remapped st pdir virt v Hwf ltac:(lia) Hpv) as [Hwf1 Hr].
  rewrite Hfr in Hr.
  pose proof (set_pte_entry st pdir virt v Hwf ltac:(lia) Hpv) as He.
  unfold PAGE_SIZE. rewrite (u32_small (virt + 4096)) by lia.
  destruct (IH _ (virt + 4096) Hwf1) as (st' & Hl & Hwf' & Hb & Hpm & He' & Hv').
  - rewrite pde_entry, He by (vm_compute; intuition congruence). exact Hp.
  - unfold page_aligned in *. zmod.
  - lia.
  - lia.
  - exists st'. split; [exact Hl|]. split; [done|]. split; [done|]. split; [done|].
    split; [intros i Hi; rewrite He', He by done; done|].
    intros x Hx. rewrite Hv', Hr by done. unfold page_aligned in Ha.
    repeat case_decide; try done; zmod.
Qed.

(** From an empty first slot, the first iteration allocates the table. *)
Lemma map_kernel_loop_fresh n st pdir :
  dir_wf (vm_mem st) (pt_bitmap st) pdir -> pde (vm_mem st) pdir 0 = 0 ->
  ~ area_full st -> (0 < n <= 1024)%nat ->
  exists st1 st', table_installed st st1 pdir 0 /\
    map_kernel_loop n st pdir 0 0 = Some (st', true) /\
    dir_wf (vm_mem st') (pt_bitmap st') pdir /\
    pt_bitmap st' = pt_bitmap st1 /\ vm_pmm st' = vm_pmm st /\
    (forall i, 0 <= i < 1024 -> entry (vm_mem st') pdir i = entry (vm_mem st1) pdir i) /\
    forall v, 0 <= v < 4294967296 ->
      get_phys_addr st' pdir v =
        if decide (0 <= v < 4096 * Z.of_nat n) then v - v mod 4096
        else get_phys_addr st pdir v.
Proof.
  intros Hwf He Hfree Hn.
  destruct (vmm_create_page_table_spec st pdir 0 (Z.lor PAGE_PRESENT PAGE_RW) Hwf)
    as [[_ ?]|(st1 & Hc & Hti)]; try done.
  assert (map_kernel_loop n st pdir 0 0 = map_kernel_loop n st1 pdir 0 0) as ->.
  { destruct n as [|n]; [lia|]. cbn [map_kernel_loop].
    pose proof (ti_present _ _ _ _ Hti) as Hp.
    destruct (Z.eqb_spec (pde (vm_mem st) pdir 0) 0); [|done].
    destruct (Z.eqb_spec (pde (vm_mem st1) pdir 0) 0); [done|]. by rewrite Hc. }
  destruct (map_kernel_loop_present n st1 pdir 0) as (st' & Hl & Hw & Hb & Hpm & He' & Hv).
  - apply Hti.
  - apply Hti.
  - done.
  - lia.
  - lia.
  - exists st1, st'. split; [done|]. split; [exact Hl|]. split; [done|]. split; [done|].
    split; [by rewrite Hpm, (ti_pmm _ _ _ _ Hti)|]. split; [done|].
    intros v Hvr. rewrite Hv by done. case_decide; case_decide; try done; try lia.
    apply Hti. done.
Qed.

(** [map_kernel] identity-maps the first 4 MB and the page of
    [RETURN_ADDR], and nothing else: with two free table blocks and the first
    two directory slots empty it translates every address below 0x401000 to
    its own page and leaves every other translation as it was. *)
Theorem map_kernel_identity (st : vmm) (pdir k1 k2 : Z)
    (Hwf : dir_wf (vm_mem st) (pt_bitmap st) pdir)
    (Hslot0 : entry (vm_mem st) pdir 0 = 0) (Hslot1 : entry (vm_mem st) pdir 1 = 0)
    (Hk1 : 0 <= k1 < 512) (Hk2 : 0 <= k2 < 512) (Hne : k1 <> k2)
    (Hf1 : is_set (pt_bitmap st) k1 = false) (Hf2 : is_set (pt_bitmap st) k2 = false) :
  exists st', map_kernel st pdir = Some st' /\
    dir_wf (vm_mem st') (pt_bitmap st') pdir /\
    forall v, 0 <= v < 4294967296 ->
      get_phys_addr st' pdir v =
        if decide (v < 0x401000) then v - v mod 4096 else get_phys_addr st pdir v.
Proof.
  assert (~ area_full st) as Hnf by (intros H; rewrite H in Hf1; done).
  unfold map_kernel. assert (Z.of_nat 1024 = 1024) as Hn by done.
  revert Hn. generalize 1024%nat as n. intros n Hn.
  destruct (map_kernel_loop_fresh n st pdir Hwf Hslot0 Hnf ltac:(lia))
    as (st1 & st2 & Hti & -> & Hwf2 & Hb2 & _ & He2 & Hv2). rewrite Hn in Hv2.
  cbn [mbind option_bind negb].
  assert (pde (vm_mem st2) pdir RETURN_ADDR = 0) as Hs1.
  { rewrite pde_entry. change (Z.shiftr RETURN_ADDR 22) with 1.
    rewrite He2, (ti_entry _ _ _ _ Hti) by (done || lia). done. }
  assert (~ area_full st2) as Hnf2.
  { intros Hfull. destruct (ti_block _ _ _ _ Hti) as (k & Hk & _ & Hbits).
    assert (forall c, 0 <= c < 512 -> is_set (pt_bitmap st) c = false -> c = k) as Honly.
    { intros c Hc Hcf. specialize (Hfull c Hc). rewrite Hb2, Hbits, Hcf, orb_false_r in Hfull by lia.
      by apply Z.eqb_eq. }
    apply Hne. rewrite (Honly k1), (Honly k2) by done. done. }
  destruct (vmm_create_page_table_spec st2 pdir RETURN_ADDR
              (Z.lor (Z.lor PAGE_PRESENT PAGE_RW) PAGE_USER) Hwf2)
    as [[_ ?]|(st3 & -> & Hti3)]; try done.
  cbn [mbind option_bind]. eexists. split; [reflexivity|].
  set (v := Z.lor (Z.lor (Z.lor RETURN_ADDR PAGE_PRESENT) PAGE_RW) PAGE_USER).
  destruct (set_pte_remapped st3 pdir RETURN_ADDR v (ti_wf _ _ _ _ Hti3) ltac:(done)
              (ti_present _ _ _ _ Hti3)) as [Hwf4 Hr].
  split; [exact Hwf4|]. intros x Hx. rewrite Hr by done.
  change (frame_of (u32 v)) with 0x400000. change (RETURN_ADDR / 4096) with 1024.
  rewrite (ti_phys _ _ _ _ Hti3), Hv2 by done.
  repeat case_decide; try done; zmod.
Qed.

Lemma map_kernel_identity_witness :
  exists st', map_kernel sample_vmm 0x8000 = Some st' /\
    get_phys_addr st' 0x8000 0x3ff123 = 0x3ff000 /\ get_phys_addr st' 0x8000 0x401000 = 0.
Proof.
  destruct (map_kernel_identity sample_vmm 0x8000 0 1 sample_vmm_wf eq_refl eq_refl
              ltac:(lia) ltac:(lia) ltac:(lia) eq_refl eq_refl) as (st' & Hm & _ & Hv).
  exists st'. split; [exact Hm|]. rewrite !Hv by lia. split; reflexivity.
Defined.

Lemma delete_loop_slot0 n st pdir i :
  entry (vm_mem st) pdir 0 = 0 -> 0 <= i -> i + Z.of_nat n <= 1024 ->
  delete_address_space_loop n st pdir i = Some st.
Proof.
  intros He. revert i. induction n as [|n IH]; intros i Hi Hn;
    cbn [delete_address_space_loop]; [done|].
  assert (Z.shiftr (i * PAGE_SIZE) 22 = 0) as ->.
  { rewrite Z.shiftr_div_pow2 by lia. change (2 ^ 22) with 4194304. unfold PAGE_SIZE. zmod. }
  fold (entry (vm_mem st) pdir 0). rewrite He. cbn [negb Z.eqb mbind option_bind].
  apply IH; lia.
Qed.

(** [delete_address_space] looks at directory slot 0 only: the index
    [i * PAGE_SIZE >> 22] is 0 in all 1024 iterations.  A directory whose first
    slot is empty is left exactly as it was, whatever its other slots hold; one
    whose first slot holds a table of the table area runs into the undefined
    [page_table_free]. *)
Theorem delete_address_space_slot0 (st : vmm) (pdir k : Z) (Hk : 0 <= k < 512) :
  (entry (vm_mem st) pdir 0 = 0 -> delete_address_space st pdir = Some st) /\
  (table (vm_mem st) pdir 0 = pt_page k -> delete_address_space st pdir = None).
Proof.
  unfold delete_address_space. split.
  - intros He. assert (Z.of_nat (Z.to_nat PAGEDIR_SIZE) = 1024) as Hn by done.
    revert Hn. generalize (Z.to_nat PAGEDIR_SIZE) as n. intros n Hn.
    apply delete_loop_slot0; [done|lia|lia].
  - intros Ht. destruct (Z.to_nat PAGEDIR_SIZE) as [|n] eqn:En; [done|].
    cbn [delete_address_space_loop]. change (Z.shiftr (0 * PAGE_SIZE) 22) with 0.
    fold (entry (vm_mem st) pdir 0).
    destruct (Z.eqb_spec (entry (vm_mem st) pdir 0) 0) as [He|He]; cbn [negb].
    + exfalso. unfold table in Ht. rewrite He in Ht. pose proof (pt_page_range k Hk).
      rewrite Z.land_0_l in Ht. lia.
    + rewrite (unmap_table_none st pdir _ k Hk); [done|exact Ht].
Qed.

Lemma delete_address_space_slot0_witness :
  delete_address_space sample_vmm 0x8000 = Some sample_vmm.
Proof. exact (proj1 (delete_address_space_slot0 sample_vmm 0x8000 0 ltac:(lia)) eq_refl). Defined.
