(* ===== verification/KHeap.v ===== *)
(** * The kernel heap (src/kernel/drivers/mm/kheap.c)

    A singly linked list of 16-byte headers in the flat memory between the end
    of the kernel and [HEAP_END].  [kmalloc] takes the first free header that is
    large enough and writes a second header behind it; [kfree] marks a header
    free and absorbs the free headers that follow it on the list.  The loops
    walk a list in memory, which may be cyclic, so they take fuel; [None] is
    fuel exhaustion. *)
From S2P Require Import Prelude Memory.

Local Open Scope Z_scope.

(** ** Headers and state (src/include/alinix/xheap.h) *)

Definition HEAP_MAGIC : Z := 0xA0B0C0.
Definition HEAP_END : Z := 0x200000.
Definition sizeof_heap_header : Z := 16.

(** [struct heap_header] at address [h]: magic, size, is_free, next. *)
Definition h_magic (m : mem) (h : Z) : Z := load32 m h.
Definition h_size (m : mem) (h : Z) : Z := load32 m (h + 4).
Definition h_is_free (m : mem) (h : Z) : Z := load32 m (h + 8).
Definition h_next (m : mem) (h : Z) : Z := load32 m (h + 12).

Definition kh_set_magic (m : mem) (h v : Z) : mem := store32 m h v.
Definition kh_set_size (m : mem) (h v : Z) : mem := store32 m (h + 4) v.
Definition kh_set_is_free (m : mem) (h v : Z) : mem := store32 m (h + 8) v.
Definition kh_set_next (m : mem) (h v : Z) : mem := store32 m (h + 12) v.

Record heap_info := HeapInfo {
  hi_size : Z;
  hi_start : Z;
  hi_used : Z;
  first_header : Z
}.

Definition hi_with_used (hi : heap_info) (n : Z) : heap_info :=
  HeapInfo (hi_size hi) (hi_start hi) n (first_header hi).

(** ** Operations *)

(** [kernel_end] is the address of the variable of that name. *)
Definition kheap_init (kernel_end : Z) (m : mem) : mem * heap_info :=
  let size := u32 (HEAP_END - kernel_end) in
  let used := sizeof_heap_header in
  let h := kernel_end in
  let m := kh_set_magic m h HEAP_MAGIC in
  let m := kh_set_size m h (u32 (size - used)) in
  let m := kh_set_is_free m h 1 in
  let m := kh_set_next m h 0 in
  (m, HeapInfo size kernel_end used h).

(** [(head->size >= len) && (head->is_free == 1) && (head->magic == HEAP_MAGIC)] *)
Definition fits (m : mem) (h len : Z) : bool :=
  (len <=? h_size m h) && (h_is_free m h =? 1) && (h_magic m h =? HEAP_MAGIC).

(** [(heap_header_t * ) head + len + sizeof(heap_header_t)]: the pointer
    arithmetic is in units of headers. *)
Definition split_addr (h len : Z) : Z :=
  u32 (h + sizeof_heap_header * (len + sizeof_heap_header)).

(** The body of the loop on the header that fits. *)
Definition take_header (m : mem) (h len : Z) : mem :=
  let m := kh_set_is_free m h 0 in
  let h2 := split_addr h len in
  let m := kh_set_size m h2 (u32 (h_size m h - len - sizeof_heap_header)) in
  let m := kh_set_magic m h2 HEAP_MAGIC in
  let m := kh_set_is_free m h2 1 in
  let m := kh_set_next m h2 0 in
  let m := kh_set_next m h h2 in
  kh_set_size m h len.

Fixpoint kheap_first_free_loop (fuel : nat) (m : mem) (hi : heap_info) (head len : Z)
    : option (mem * heap_info * Z) :=
  match fuel with
  | O => None
  | S fuel =>
      if head =? 0 then Some (m, hi, 0)
      else if fits m head len then
        Some (take_header m head len,
              hi_with_used hi (u32 (hi_used hi + len + sizeof_heap_header)),
              u32 (head + sizeof_heap_header))
      else kheap_first_free_loop fuel m hi (h_next m head) len
  end.

Definition first_free (fuel : nat) (m : mem) (hi : heap_info) (len : Z)
    : option (mem * heap_info * Z) :=
  if hi_size hi <=? hi_used hi then Some (m, hi, 0)
  else kheap_first_free_loop fuel m hi (first_header hi) len.

Definition kmalloc (fuel : nat) (m : mem) (hi : heap_info) (len : Z) :=
  first_free fuel m hi len.

(** [while ((app != NULL) && (app->is_free == 1))] *)
Fixpoint kfree_loop (fuel : nat) (m : mem) (head app : Z) : option mem :=
  match fuel with
  | O => None
  | S fuel =>
      if negb (app =? 0) && (h_is_free m app =? 1) then
        let m := kh_set_size m head (u32 (h_size m head + h_size m app + sizeof_heap_header)) in
        let m := kh_set_next m head (h_next m app) in
        kfree_loop fuel m head (h_next m app)
      else Some m
  end.

Definition kfree (fuel : nat) (m : mem) (hi : heap_info) (ptr : Z)
    : option (mem * heap_info) :=
  let head := u32 (ptr - sizeof_heap_header) in
  if (h_is_free m head =? 0) && (h_magic m head =? HEAP_MAGIC) then
    let m := kh_set_is_free m head 1 in
    let hi := hi_with_used hi (u32 (hi_used hi - h_size m head)) in
    m ← kfree_loop fuel m head (h_next m head);
    Some (m, hi)
  else Some (m, hi).

Definition get_heap_size (hi : heap_info) : Z := s32 (hi_size hi).
Definition get_used_heap (hi : heap_info) : Z := s32 (hi_used hi).

(** ** Reading back header fields *)

Definition headers_apart (h h' : Z) : Prop := h + 16 <= h' \/ h' + 16 <= h.

Ltac header_unfold :=
  unfold h_magic, h_size, h_is_free, h_next, kh_set_magic, kh_set_size, kh_set_is_free, kh_set_next in *.

(** Normalises field reads over field writes of the same or a disjoint header. *)
Ltac header_simpl :=
  header_unfold;
  repeat first
    [ rewrite load32_store32_eq
    | rewrite load32_store32_ne by (unfold headers_apart in *; lia) ].

(** The other headers are not touched by writes to [h]. *)
Definition same_header (m m' : mem) (h : Z) : Prop :=
  h_magic m' h = h_magic m h /\ h_size m' h = h_size m h /\
  h_is_free m' h = h_is_free m h /\ h_next m' h = h_next m h.

Lemma load32_size_range m h : 0 <= h_size m h < 4294967296.
Proof. apply load32_range. Qed.

(** What [take_header] leaves behind when the second header does not overlap
    the first. *)
Lemma take_header_spec m h len :
  0 <= len < 4294967296 -> headers_apart h (split_addr h len) ->
  let m' := take_header m h len in
  let h2 := split_addr h len in
  h_magic m' h = h_magic m h /\ h_size m' h = len /\ h_is_free m' h = 0 /\
  h_next m' h = h2 /\
  h_magic m' h2 = HEAP_MAGIC /\ h_size m' h2 = u32 (h_size m h - len - 16) /\
  h_is_free m' h2 = 1 /\ h_next m' h2 = 0.
Proof.
  intros Hl Hd m' h2. subst m'. unfold take_header. fold h2 in Hd |- *.
  assert (0 <= h2 < 4294967296) by (apply u32_range).
  clearbody h2. split_and!; header_simpl; try done.
  - by apply u32_small.
  - by apply u32_small.
  - by rewrite u32_idem.
Qed.

Lemma fits_inv m x len : fits m x len = true -> len <= h_size m x /\ h_magic m x = HEAP_MAGIC.
Proof.
  unfold fits. rewrite !andb_true_iff. intros [[Hl _] Hm].
  split; [by apply Z.leb_le|by apply Z.eqb_eq].
Qed.

Lemma u32_wrap_below z : -4294967296 <= z < 0 -> u32 z = z + 4294967296.
Proof. intros. unfold u32. symmetry. apply (Z.mod_unique _ _ (-1)); lia. Qed.

Lemma take_header_other m h len a :
  headers_apart h a -> headers_apart (split_addr h len) a -> same_header m (take_header m h len) a.
Proof.
  intros H1 H2. unfold take_header. set (h2 := split_addr h len) in *. clearbody h2.
  unfold same_header. split_and!; header_simpl; done.
Qed.

(** ** The list of headers *)

(** [chain m h hs]: following [next] from [h] visits exactly the headers [hs]
    and ends in [NULL]. *)
Fixpoint chain (m : mem) (h : Z) (hs : list Z) : Prop :=
  match hs with
  | [] => h = 0
  | x :: hs => h = x /\ x <> 0 /\ chain m (h_next m x) hs
  end.

Lemma kheap_first_free_spec fuel m hi head len hs :
  chain m head hs -> (length hs < fuel)%nat ->
  (Forall (fun x => fits m x len = false) hs /\
     kheap_first_free_loop fuel m hi head len = Some (m, hi, 0)) \/
  (exists pre x post, hs = pre ++ x :: post /\
     Forall (fun y => fits m y len = false) pre /\ fits m x len = true /\
     kheap_first_free_loop fuel m hi head len =
       Some (take_header m x len, hi_with_used hi (u32 (hi_used hi + len + 16)),
             u32 (x + 16))).
Proof.
  revert head hs. induction fuel as [|fuel IH]; intros head hs Hc Hf; [lia|].
  cbn [kheap_first_free_loop]. destruct hs as [|x hs]; cbn [chain length] in *.
  { left. subst head. done. }
  destruct Hc as (-> & Hx & Hc). destruct (Z.eqb_spec x 0); [done|].
  destruct (fits m x len) eqn:Efit.
  { right. exists [], x, hs. done. }
  destruct (IH _ _ Hc ltac:(lia)) as [[Hall ->]|(pre & y & post & -> & Hpre & Hy & ->)].
  - left. split; [by constructor|done].
  - right. exists (x :: pre), y, post. split_and!; try done. by constructor.
Qed.

(** The free headers that [kfree] absorbs: the maximal run of free headers at
    the front of the list, and the header it stops at. *)
Definition free_run (m : mem) (hs : list Z) (stop : Z) : Prop :=
  Forall (fun x => h_is_free m x = 1) hs /\ (stop = 0 \/ h_is_free m stop <> 1).

Definition run_size (m : mem) (hs : list Z) : Z :=
  foldr (fun x acc => h_size m x + 16 + acc) 0 hs.

(** [links m h hs stop]: following [next] from [h] visits [hs] and arrives at [stop]. *)
Fixpoint links (m : mem) (h : Z) (hs : list Z) (stop : Z) : Prop :=
  match hs with
  | [] => h = stop
  | x :: hs => h = x /\ x <> 0 /\ links m (h_next m x) hs stop
  end.

Lemma same_header_free m m' h : same_header m m' h -> h_is_free m' h = h_is_free m h.
Proof. intros (_ & _ & ? & _). done. Qed.

Lemma links_same m m' h hs stop :
  Forall (same_header m m') hs -> links m h hs stop -> links m' h hs stop.
Proof.
  revert h. induction hs as [|x hs IH]; intros h Hs; cbn [links]; [done|].
  inversion Hs as [|? ? (_ & _ & _ & Hn) Hs']; subst. intros (-> & Hx & Hl).
  rewrite Hn. auto.
Qed.

Lemma run_size_same m m' hs :
  Forall (same_header m m') hs -> run_size m' hs = run_size m hs.
Proof.
  induction 1 as [|x hs (_ & Hsz & _ & _) _ IH]; [done|]. cbn [run_size foldr] in *.
  unfold run_size in IH. by rewrite Hsz, IH.
Qed.

(** One absorption step writes two fields of [head] and nothing else. *)
Lemma absorb_other m head a s n :
  headers_apart head a -> same_header m (kh_set_next (kh_set_size m head s) head n) a.
Proof. intros. unfold same_header. split_and!; header_simpl; done. Qed.

Lemma kfree_loop_spec fuel m head app hs stop :
  links m app hs stop -> free_run m hs stop -> (length hs < fuel)%nat ->
  Forall (headers_apart head) hs -> (stop = 0 \/ headers_apart head stop) ->
  exists m', kfree_loop fuel m head app = Some m' /\
    h_size m' head = u32 (h_size m head + run_size m hs) /\
    h_next m' head = (if decide (hs = []) then h_next m head else u32 stop) /\
    h_is_free m' head = h_is_free m head /\ h_magic m' head = h_magic m head /\
    forall a, headers_apart head a -> same_header m m' a.
Proof.
  revert m app hs. induction fuel as [|fuel IH]; intros m app hs Hl Hr Hf Hd Hds; [lia|].
  cbn [kfree_loop]. destruct Hr as [Hr Hstop]. destruct hs as [|x hs]; cbn [links length] in *.
  { subst app. assert (negb (stop =? 0) && (h_is_free m stop =? 1) = false) as ->.
    { destruct Hstop as [->|Hne]; [done|]. rewrite (proj2 (Z.eqb_neq _ _) Hne).
      apply andb_false_r. }
    exists m. cbn [run_size foldr]. rewrite Z.add_0_r, u32_small by apply load32_range.
    split_and!; try done. }
  destruct Hl as (-> & Hx & Hl). inversion Hr as [|? ? Hxf Hr']; subst.
  inversion Hd as [|? ? Hdx Hd']; subst.
  rewrite Hxf. destruct (Z.eqb_spec x 0); [done|]. cbn [negb andb Z.eqb Pos.eqb].
  set (s := u32 (h_size m head + h_size m x + sizeof_heap_header)).
  set (m1 := kh_set_size m head s).
  assert (h_next m1 x = h_next m x) as Hnx by (unfold m1; header_simpl; done).
  rewrite Hnx. set (m2 := kh_set_next m1 head (h_next m x)).
  assert (forall a, headers_apart head a -> same_header m m2 a) as Hother
    by (intros a Ha; by apply absorb_other).
  assert (h_next m2 x = h_next m x) as -> by by apply Hother.
  assert (Forall (same_header m m2) hs) as Hsame.
  { eapply Forall_impl; [exact Hd'|]. apply Hother. }
  destruct (IH m2 (h_next m x) hs) as (m' & Hk & Hsz & Hnext & Hfree & Hmag & Ho).
  - by apply (links_same m).
  - split.
    + apply Forall_forall. intros y Hy.
      rewrite (same_header_free m) by (by eapply (proj1 (Forall_forall _ _) Hsame)).
      by apply (proj1 (Forall_forall _ _) Hr').
    + destruct Hstop as [->|Hne]; [by left|]. destruct Hds as [->|Hds]; [by left|].
      right. by rewrite (same_header_free m) by by apply Hother.
  - lia.
  - done.
  - done.
  - exists m'. split; [exact Hk|].
    assert (h_size m2 head = s) as Hs2.
    { unfold m2, m1. header_simpl. unfold s. apply u32_idem. }
    assert (h_next m2 head = h_next m x) as Hn2.
    { unfold m2. header_simpl. apply u32_small, load32_range. }
    split_and!.
    + rewrite Hsz, Hs2, (run_size_same m m2 hs) by done. unfold s, sizeof_heap_header.
      rewrite u32_add_l. cbn [run_size foldr]. unfold run_size. f_equal. lia.
    + rewrite Hnext, Hn2. rewrite (decide_False (P := x :: hs = [])) by done.
      case_decide as Hnil; [|done]. subst hs. cbn [links] in Hl. rewrite <- Hl.
      symmetry. apply u32_small, load32_range.
    + rewrite Hfree. unfold m2, m1. header_simpl. done.
    + rewrite Hmag. unfold m2, m1. header_simpl. done.
    + intros a Ha. destruct (Ho a Ha) as (? & ? & ? & ?), (Hother a Ha) as (? & ? & ? & ?).
      unfold same_header. split_and!; congruence.
Qed.

(** ** Properties *)

(** C4. [kmalloc] is first fit over the header list.  It returns [NULL] and
    changes nothing exactly when [used] has reached [size] or no header of the
    list fits.  Otherwise [used] is below [size] and it takes the first header
    that fits, which becomes an allocated block of [len] bytes linked to a new
    free header that ends the list (what followed the taken header is no longer
    linked), every other header stays as it was, and [used] grows by the block
    and its header.  The new header is 16 * ([len] + 16) bytes after the taken
    one, modulo 2^32, because the code adds in units of headers.  The size written in the new header is the old size less
    [len] and 16 modulo 2^32: it is the size that is left when the header was at
    least 16 bytes longer than [len], and wraps around to a huge one when it was
    not.  The walk ends within the length of the list; the new header must not
    overlap the taken one. *)
Theorem kmalloc_first_fit (fuel : nat) (m : mem) (hi : heap_info) (len : Z) (hs : list Z)
    (Hlist : chain m (first_header hi) hs) (Hfuel : (length hs < fuel)%nat)
    (Hlen : 0 <= len < 4294967296)
    (Hsplit : Forall (fun x => headers_apart x (split_addr x len)) hs) :
  (kmalloc fuel m hi len = Some (m, hi, 0) /\
     (hi_size hi <= hi_used hi \/ Forall (fun x => fits m x len = false) hs)) \/
  (hi_used hi < hi_size hi /\
   exists pre x post m' hi',
     kmalloc fuel m hi len = Some (m', hi', u32 (x + 16)) /\
     hs = pre ++ x :: post /\ fits m x len = true /\
     Forall (fun y => fits m y len = false) pre /\
     h_is_free m' x = 0 /\ h_size m' x = len /\ h_next m' x = split_addr x len /\
     h_magic m' x = HEAP_MAGIC /\ h_magic m' (split_addr x len) = HEAP_MAGIC /\
     h_is_free m' (split_addr x len) = 1 /\ h_next m' (split_addr x len) = 0 /\
     h_size m' (split_addr x len) = u32 (h_size m x - len - 16) /\
     (len + 16 <= h_size m x ->
        h_size m' (split_addr x len) = h_size m x - len - 16) /\
     (h_size m x < len + 16 ->
        h_size m' (split_addr x len) = h_size m x - len - 16 + 4294967296) /\
     (forall a, headers_apart x a -> headers_apart (split_addr x len) a ->
        same_header m m' a) /\
     hi_used hi' = u32 (hi_used hi + len + 16)).
Proof.
  unfold kmalloc, first_free. destruct (Z.leb_spec (hi_size hi) (hi_used hi)).
  { left. split; [done|]. by left. }
  destruct (kheap_first_free_spec fuel m hi (first_header hi) len hs Hlist Hfuel)
    as [[Hall ->]|(pre & x & post & -> & Hpre & Hfit & ->)].
  - left. split; [done|]. by right.
  - right. split; [done|].
    apply Forall_app in Hsplit as [_ Hs]. apply Forall_cons in Hs as [Hs _].
    destruct (take_header_spec m x len Hlen Hs) as (H0 & H1 & H2 & H3 & Hm & H4 & H5 & H6).
    destruct (fits_inv m x len Hfit) as [Hle Hmag]. pose proof (load32_size_range m x).
    exists pre, x, post. eexists _, _. split; [done|]. split_and!; try done.
    + congruence.
    + intros. rewrite H4. apply u32_small. lia.
    + intros. rewrite H4. apply (u32_wrap_below (h_size m x - len - 16)). lia.
    + intros a. apply take_header_other.
Qed.

Lemma kmalloc_first_fit_witness :
  let '(m, hi) := kheap_init 0x150000 ∅ in
  exists m' hi', kmalloc 2 m hi 100 = Some (m', hi', 0x150010) /\ h_size m' 0x150000 = 100.
Proof.
  destruct (kheap_init 0x150000 ∅) as [m hi] eqn:E.
  assert (m = fst (kheap_init 0x150000 ∅) /\ hi = snd (kheap_init 0x150000 ∅)) as [-> ->]
    by (rewrite E; done).
  destruct (kmalloc_first_fit 2 (fst (kheap_init 0x150000 ∅)) (snd (kheap_init 0x150000 ∅))
              100 [0x150000])
    as [[_ [Hfull|Hno]]|(_ & pre & x & post & m' & hi' & Hk & Hsplit & _ & _ & _ & Hsz & _)].
  - vm_compute. intuition congruence.
  - simpl. lia.
  - lia.
  - apply Forall_cons. split; [left; vm_compute; discriminate|constructor].
  - exfalso. vm_compute in Hfull. congruence.
  - exfalso. inversion Hno as [|? ? Hf _]. vm_compute in Hf. discriminate.
  - assert (x = 0x150000) as -> by (destruct pre as [|? [|? ?]]; simplify_eq/=; done).
    exists m', hi'. split; [exact Hk|exact Hsz].
Defined.

(** [kfree] coalesces: releasing an allocated block marks it free, adds
    to it the sizes and headers of the maximal run of free headers that follow
    it on the list, and links it to the first header after that run; no other
    header changes.  A pointer whose header is not an allocated block of this
    heap is ignored. *)
Theorem kfree_coalesces (fuel : nat) (m : mem) (hi : heap_info) (head : Z)
    (hs : list Z) (stop : Z)
    (Hhead : 0 <= head < 4294967296) (Hfuel : (length hs < fuel)%nat)
    (Hrun : links m (h_next m head) hs stop) (Hfree : free_run m hs stop)
    (Hdisj : Forall (headers_apart head) hs) (Hstop : stop = 0 \/ headers_apart head stop) :
  (h_is_free m head = 0 /\ h_magic m head = HEAP_MAGIC ->
   exists m', kfree fuel m hi (head + 16) =
       Some (m', hi_with_used hi (u32 (hi_used hi - h_size m head))) /\
     h_is_free m' head = 1 /\ h_magic m' head = HEAP_MAGIC /\
     h_size m' head = u32 (h_size m head + run_size m hs) /\
     h_next m' head = (if decide (hs = []) then h_next m head else u32 stop) /\
     forall a, headers_apart head a -> same_header m m' a) /\
  (h_is_free m head <> 0 \/ h_magic m head <> HEAP_MAGIC ->
   kfree fuel m hi (head + 16) = Some (m, hi)).
Proof.
  unfold kfree. unfold sizeof_heap_header.
  replace (head + 16 - 16) with head by lia. rewrite (u32_small head) by done. split.
  - intros [Hf Hm]. rewrite Hf, Hm, !Z.eqb_refl. cbn [andb].
    set (m1 := kh_set_is_free m head 1).
    assert (forall a, headers_apart head a -> same_header m m1 a) as Hother.
    { intros a Ha. unfold m1, same_header. split_and!; header_simpl; done. }
    assert (Forall (same_header m m1) hs) as Hsame by (eapply Forall_impl; [exact Hdisj|auto]).
    assert (h_next m1 head = h_next m head) as Hn1 by (unfold m1; header_simpl; done).
    assert (h_size m1 head = h_size m head) as Hs1 by (unfold m1; header_simpl; done).
    destruct (kfree_loop_spec fuel m1 head (h_next m1 head) hs stop)
      as (m' & -> & Hsz & Hnext & Hfr & Hmag & Ho); try done.
    + rewrite Hn1. by apply (links_same m).
    + destruct Hfree as [Hall Hst]. split.
      * apply Forall_forall. intros y Hy.
        rewrite (same_header_free m) by (by eapply (proj1 (Forall_forall _ _) Hsame)).
        by apply (proj1 (Forall_forall _ _) Hall).
      * destruct Hst as [->|Hne]; [by left|]. destruct Hstop as [->|Hds]; [by left|].
        right. by rewrite (same_header_free m) by by apply Hother.
    + cbn [mbind option_bind]. exists m'. rewrite Hs1. split; [done|].
      rewrite Hfr, Hmag, Hsz, Hnext, Hs1, Hn1, (run_size_same m m1) by done.
      split_and!; try done.
      * unfold m1. header_simpl. done.
      * rewrite <- Hm. unfold m1. header_simpl. done.
      * intros a Ha. destruct (Ho a Ha) as (? & ? & ? & ?), (Hother a Ha) as (? & ? & ? & ?).
        unfold same_header. split_and!; congruence.
  - intros Hbad. assert ((h_is_free m head =? 0) && (h_magic m head =? HEAP_MAGIC) = false) as ->;
      [|done].
    destruct Hbad as [Hb|Hb]; rewrite (proj2 (Z.eqb_neq _ _) Hb); [done|apply andb_false_r].
Qed.

(** Three headers: an allocated one of 32 bytes, a free one of 48, an allocated one. *)
Definition sample_heap : mem :=
  let put m h s f n := kh_set_next (kh_set_is_free (kh_set_size (kh_set_magic m h HEAP_MAGIC) h s) h f) h n in
  put (put (put ∅ 0x1000 32 0 0x1030) 0x1030 48 1 0x1070) 0x1070 64 0 0.

Lemma kfree_coalesces_witness :
  exists m', kfree 3 sample_heap (HeapInfo 4096 0x1000 500 0x1000) 0x1010 =
    Some (m', HeapInfo 4096 0x1000 468 0x1000) /\
    h_size m' 0x1000 = 96 /\ h_next m' 0x1000 = 0x1070.
Proof.
  destruct (kfree_coalesces 3 sample_heap (HeapInfo 4096 0x1000 500 0x1000) 0x1000
              [0x1030] 0x1070) as [Hok _].
  - lia.
  - simpl. lia.
  - vm_compute. intuition congruence.
  - split; [repeat constructor; vm_compute; reflexivity|right; vm_compute; discriminate].
  - apply Forall_cons. split; [unfold headers_apart; lia|constructor].
  - right. unfold headers_apart. lia.
  - destruct Hok as (m' & Hk & _ & _ & Hsz & Hn & _); [vm_compute; split; reflexivity|].
    exists m'. split_and!; [exact Hk|rewrite Hsz; reflexivity|rewrite Hn; reflexivity].
Defined.

(** Releasing the block just obtained gives back its whole size: the
    header is free again with the size it had before the allocation, but the
    list now ends behind it and [used] has grown by one header. *)
Theorem kmalloc_kfree_roundtrip (m : mem) (hi : heap_info) (len : Z)
    (Hroom : hi_used hi < hi_size hi) (Hused : 0 <= hi_used hi)
    (Hsize : hi_size hi < 4294967296) (Hlen : 0 <= len < 4294967296)
    (Hfirst : 0 < first_header hi < 4294967280)
    (Hfit : fits m (first_header hi) len = true)
    (Hsplit : headers_apart (first_header hi) (split_addr (first_header hi) len))
    (Hnonnull : split_addr (first_header hi) len <> 0) :
  exists m1 hi1 m2 hi2,
    kmalloc 1 m hi len = Some (m1, hi1, first_header hi + 16) /\
    kfree 2 m1 hi1 (first_header hi + 16) = Some (m2, hi2) /\
    h_size m2 (first_header hi) = h_size m (first_header hi) /\
    h_is_free m2 (first_header hi) = 1 /\ h_next m2 (first_header hi) = 0 /\
    hi_used hi2 = u32 (hi_used hi + 16).
Proof.
  set (h := first_header hi) in *.
  destruct (take_header_spec m h len Hlen Hsplit) as (Hm & Hs & Hf & Hn & Hm2 & Hs2 & Hf2 & Hn2).
  set (h2 := split_addr h len) in *. set (m1 := take_header m h len) in *.
  assert (h_magic m h = HEAP_MAGIC) as Hmag.
  { unfold fits in Hfit. apply andb_true_iff in Hfit as [_ Hfit]. by apply Z.eqb_eq. }
  exists m1, (hi_with_used hi (u32 (hi_used hi + len + 16))).
  destruct (kfree_loop_spec 2 (kh_set_is_free m1 h 1) h h2 [h2] 0)
    as (m2 & Hk & Hsz & Hnext & Hfr & _ & _).
  - cbn [links]. split_and!; [done|done|]. unfold m1. revert Hn2. header_simpl. done.
  - split; [|by left]. repeat constructor. revert Hf2. header_simpl. done.
  - simpl. lia.
  - by apply Forall_singleton.
  - by left.
  - exists m2, (hi_with_used hi (u32 (hi_used hi + 16))). split_and!.
    + unfold kmalloc, first_free. destruct (Z.leb_spec (hi_size hi) (hi_used hi)); [lia|].
      cbn [kheap_first_free_loop]. fold h. destruct (Z.eqb_spec h 0); [lia|]. rewrite Hfit.
      rewrite (u32_small (h + sizeof_heap_header)) by (unfold sizeof_heap_header; lia). done.
    + unfold kfree, sizeof_heap_header. rewrite Z.add_simpl_r, (u32_small h) by lia.
      rewrite Hf, Hm, Hmag, !Z.eqb_refl. cbn [andb].
      assert (h_next (kh_set_is_free m1 h 1) h = h2) as -> by (revert Hn; header_simpl; done).
      assert (h_size (kh_set_is_free m1 h 1) h = len) as -> by (revert Hs; header_simpl; done).
      rewrite Hk. cbn [mbind option_bind hi_with_used hi_used hi_size hi_start first_header].
      do 3 f_equal. rewrite u32_sub_l. f_equal. lia.
    + rewrite Hsz. cbn [run_size foldr].
      assert (h_size (kh_set_is_free m1 h 1) h = len) as -> by (revert Hs; header_simpl; done).
      assert (h_size (kh_set_is_free m1 h 1) h2 = u32 (h_size m h - len - 16)) as ->
        by (revert Hs2; header_simpl; done).
      pose proof (load32_size_range m h). rewrite Z.add_0_r, Z.add_comm, <- Z.add_assoc, u32_add_l.
      rewrite <- (u32_small (h_size m h)) at 2 by done. f_equal. lia.
    + rewrite Hfr. header_simpl. done.
    + rewrite Hnext. done.
    + done.
Qed.

Lemma kmalloc_kfree_roundtrip_witness :
  let m := fst (kheap_init 0x150000 ∅) in
  let hi := snd (kheap_init 0x150000 ∅) in
  exists m1 hi1 m2 hi2, kmalloc 1 m hi 256 = Some (m1, hi1, 0x150010) /\
    kfree 2 m1 hi1 0x150010 = Some (m2, hi2) /\ hi_used hi2 = 32.
Proof.
  intros m hi.
  destruct (kmalloc_kfree_roundtrip m hi 256)
    as (m1 & hi1 & m2 & hi2 & Hk & Hf & _ & _ & _ & Hu).
  - vm_compute. reflexivity.
  - vm_compute. discriminate.
  - vm_compute. reflexivity.
  - lia.
  - vm_compute. split; reflexivity.
  - vm_compute. reflexivity.
  - left. vm_compute. discriminate.
  - vm_compute. discriminate.
  - exists m1, hi1, m2, hi2. split_and!; [exact Hk|exact Hf|rewrite Hu; reflexivity].
Defined.

(** The split point of an allocation is scaled by the header size: on a
    freshly initialised heap the header that should follow a block of [len]
    bytes is written [16 * (len + 16)] bytes behind it, so from one sixteenth
    of the heap size on it lands past [HEAP_END], in the area that holds the
    page tables, although the request fits the heap. *)
Theorem kmalloc_writes_past_heap (m0 : mem) (kernel_end len : Z)
    (Hkernel : 0 < kernel_end) (Hlen : 0 < len)
    (Hfits : kernel_end + 16 + len <= HEAP_END)
    (Hfar : HEAP_END <= kernel_end + 16 * (len + 16)) :
  let '(m, hi) := kheap_init kernel_end m0 in
  exists m' hi', kmalloc 1 m hi len = Some (m', hi', kernel_end + 16) /\
    let h2 := kernel_end + 16 * (len + 16) in
    h_next m' kernel_end = h2 /\ HEAP_END <= h2 /\
    h_magic m' h2 = HEAP_MAGIC /\ h_is_free m' h2 = 1 /\
    h_size m' h2 = u32 (HEAP_END - kernel_end - 16 - len - 16).
Proof.
  unfold kheap_init. unfold HEAP_END, sizeof_heap_header in *.
  rewrite (u32_small (_ - kernel_end)) by lia.
  match goal with |- context[kmalloc 1 ?mm ?hh len] => set (m := mm); set (hi := hh) end.
  assert (h_size m kernel_end = 0x200000 - kernel_end - 16) as Hs.
  { unfold m. header_simpl. rewrite !u32_small; rewrite ?u32_small; lia. }
  assert (fits m kernel_end len = true) as Hfit.
  { unfold fits. rewrite Hs. apply andb_true_iff. split; [apply andb_true_iff; split|].
    - apply Z.leb_le. lia.
    - unfold m. header_simpl. done.
    - unfold m. header_simpl. done. }
  assert (split_addr kernel_end len = kernel_end + 16 * (len + 16)) as Hsp.
  { unfold split_addr, sizeof_heap_header. apply u32_small. lia. }
  destruct (take_header_spec m kernel_end len ltac:(lia)) as (_ & _ & _ & Hn & Hmg & Hsz & Hf & _).
  { rewrite Hsp. left. lia. }
  exists (take_header m kernel_end len), (hi_with_used hi (u32 (16 + len + 16))). split.
  - unfold kmalloc, first_free. cbn [hi_size hi_used hi first_header].
    destruct (Z.leb_spec (0x200000 - kernel_end) 16); [lia|].
    cbn [kheap_first_free_loop]. destruct (Z.eqb_spec kernel_end 0); [lia|]. rewrite Hfit.
    unfold sizeof_heap_header. rewrite (u32_small (kernel_end + 16)) by lia. done.
  - rewrite <- Hsp. rewrite <- Hsp in Hfar. rewrite Hs in Hsz. done.
Qed.

Lemma kmalloc_writes_past_heap_witness :
  exists m' hi', kmalloc 1 (fst (kheap_init 0x150000 ∅)) (snd (kheap_init 0x150000 ∅)) 0xB000 =
    Some (m', hi', 0x150010) /\ h_next m' 0x150000 = 0x200100.
Proof.
  pose proof (kmalloc_writes_past_heap ∅ 0x150000 0xB000 ltac:(lia) ltac:(lia)
                ltac:(unfold HEAP_END; lia) ltac:(unfold HEAP_END; lia)) as H.
  destruct (kheap_init 0x150000 ∅) as [m hi] eqn:E. cbn [fst snd].
  destruct H as (m' & hi' & Hk & Hn & _). exists m', hi'. split; [exact Hk|exact Hn].
Defined.
