(* ===== verification/Heap.v ===== *)
(** * The driver heap (src/kernel/core/heap.c)

    Page rounding, the aligned allocator on top of [malloc], and [Free] on a
    doubly linked list of chunk headers in the flat memory.  [malloc] itself is
    declared in memory.h and implemented elsewhere, so it is a parameter. *)
From S2P Require Import Prelude Memory.

Local Open Scope Z_scope.

(** ** Page rounding *)

Definition pageRoundUp (address : Z) : Z :=
  if negb (Z.land address 0xFFFFF000 =? address) then
    u32 (Z.land address 0xFFFFF000 + 0x1000)
  else address.

Definition pageRoundDown (address : Z) : Z := Z.land address 0xFFFFF000.

(** ** Chunk headers: [struct MemoryHeader], packed: next, prev, allocated, size *)

Definition sizeof_MemoryHeader : Z := 16.
Definition c_next (m : mem) (c : Z) : Z := load32 m c.
Definition c_prev (m : mem) (c : Z) : Z := load32 m (c + 4).
Definition c_allocated (m : mem) (c : Z) : Z := load32 m (c + 8).
Definition c_size (m : mem) (c : Z) : Z := load32 m (c + 12).

Definition set_next (m : mem) (c v : Z) : mem := store32 m c v.
Definition set_prev (m : mem) (c v : Z) : mem := store32 m (c + 4) v.
Definition set_allocated (m : mem) (c v : Z) : mem := store32 m (c + 8) v.
Definition set_size (m : mem) (c v : Z) : mem := store32 m (c + 12) v.

(** ** Free *)

(** [if (chunk->prev != 0 && !chunk->prev->allocated) { ... }] *)
Definition merge_prev (m : mem) (chunk : Z) : mem * Z :=
  if negb (c_prev m chunk =? 0) && (c_allocated m (c_prev m chunk) =? 0) then
    let m := set_next m (c_prev m chunk) (c_next m chunk) in
    let m := set_size m (c_prev m chunk)
               (u32 (c_size m (c_prev m chunk) + c_size m chunk + sizeof_MemoryHeader)) in
    let m := if negb (c_next m chunk =? 0)
             then set_prev m (c_next m chunk) (c_prev m chunk) else m in
    (m, c_prev m chunk)
  else (m, chunk).

(** [if (chunk->next != 0 && !chunk->next->allocated) { ... }] *)
Definition merge_next (m : mem) (chunk : Z) : mem :=
  if negb (c_next m chunk =? 0) && (c_allocated m (c_next m chunk) =? 0) then
    let m := set_size m chunk
               (u32 (c_size m chunk + c_size m (c_next m chunk) + sizeof_MemoryHeader)) in
    let m := set_next m chunk (c_next m (c_next m chunk)) in
    if negb (c_next m chunk =? 0) then set_prev m (c_next m chunk) chunk else m
  else m.

Definition Free (m : mem) (ptr : Z) : mem :=
  let chunk := u32 (ptr - sizeof_MemoryHeader) in
  let m := set_allocated m chunk 0 in
  let '(m, chunk) := merge_prev m chunk in
  merge_next m chunk.

(** ** The aligned allocator *)

(** [align_up(num, align)]: the sum is 64-bit, the mask 32-bit, the result is
    converted to a pointer. *)
Definition align_up (num align : Z) : Z :=
  u32 (Z.land (num + (align - 1)) (u32 (Z.lnot (align - 1)))).

Section aligned.
Context (malloc : mem -> Z -> mem * Z).

Definition alignedMalloc (m : mem) (size align : Z) : mem * Z :=
  if negb (Z.land align (u32 (align - 1)) =? 0) then (m, 0)
  else if negb (align =? 0) && negb (size =? 0) then
    let hdr_size := u32 (2 + (align - 1)) in
    let '(m, p) := malloc m (u32 (size + hdr_size)) in
    if negb (p =? 0) then
      let ptr := align_up (p + 2) align in
      (store16 m (ptr - 2) (u16 (ptr - p)), ptr)
    else (m, 0)
  else (m, 0).
End aligned.

Definition allignedFree (m : mem) (ptr : Z) : mem :=
  if ptr =? 0 then m
  else
    let offset := load16 m (ptr - 2) in
    Free m (u32 (ptr - offset)).

(** ** Abstract view: the list of chunks *)

Record chunk := Chunk { ch_addr : Z; ch_alloc : bool; ch_size : Z }.

Definition head_addr (l : list chunk) (nxt : Z) : Z :=
  match l with [] => nxt | c :: _ => ch_addr c end.
Definition last_addr (prv : Z) (l : list chunk) : Z :=
  match last l with Some c => ch_addr c | None => prv end.

(** [dll m prv l nxt]: the headers in memory from [l]'s first chunk on hold the
    chunks of [l], doubly linked, entered from [prv] and leaving to [nxt]. *)
Fixpoint dll (m : mem) (prv : Z) (l : list chunk) (nxt : Z) : Prop :=
  match l with
  | [] => True
  | c :: l =>
      c_next m (ch_addr c) = head_addr l nxt /\ c_prev m (ch_addr c) = prv /\
      c_allocated m (ch_addr c) = Z.b2z (ch_alloc c) /\
      c_size m (ch_addr c) = ch_size c /\ dll m (ch_addr c) l nxt
  end.

Definition chunks_apart (a b : Z) : Prop := a + 16 <= b \/ b + 16 <= a.

(** Headers do not overlap, and no header is at address 0 or at the very end. *)
Fixpoint separated (l : list chunk) : Prop :=
  match l with
  | [] => True
  | c :: l =>
      0 < ch_addr c < 4294967280 /\ Forall (fun d => chunks_apart (ch_addr c) (ch_addr d)) l /\
      separated l
  end.

(** The chunk list of a heap. *)
Definition heap_repr (m : mem) (l : list chunk) : Prop := dll m 0 l 0 /\ separated l.

Definition join (x y : chunk) : chunk :=
  Chunk (ch_addr x) (ch_alloc x) (u32 (ch_size x + ch_size y + 16)).

(** [Free] on the list: the chunk becomes free and is joined with a free
    neighbour on either side. *)
Definition join_next (x : chunk) (l : list chunk) : list chunk :=
  match l with
  | y :: l' => if ch_alloc y then x :: l else join x y :: l'
  | [] => [x]
  end.

(** [pre] is the part of the list before the chunk, nearest neighbour first. *)
Definition free_chunk (pre : list chunk) (c : chunk) (post : list chunk) : list chunk :=
  let c := Chunk (ch_addr c) false (ch_size c) in
  match pre with
  | p :: pre' =>
      if ch_alloc p then reverse pre ++ join_next c post
      else reverse pre' ++ join_next (join p c) post
  | [] => join_next c post
  end.

(** ** Frame and append lemmas *)

Ltac chunk_unfold :=
  unfold c_next, c_prev, c_allocated, c_size, set_next, set_prev, set_allocated, set_size in *.
Ltac chunk_simpl :=
  chunk_unfold;
  repeat first
    [ rewrite load32_store32_eq
    | rewrite load32_store32_ne by (unfold chunks_apart in *; lia) ].

(** Membership in a list built from [++] and [::]. *)
Ltac elem := rewrite ?elem_of_app, ?elem_of_cons; (tauto || set_solver).

Definition same_chunk (m m' : mem) (a : Z) : Prop :=
  c_next m' a = c_next m a /\ c_prev m' a = c_prev m a /\
  c_allocated m' a = c_allocated m a /\ c_size m' a = c_size m a.

Lemma dll_same m m' prv l nxt :
  (forall c, c ∈ l -> same_chunk m m' (ch_addr c)) -> dll m prv l nxt -> dll m' prv l nxt.
Proof.
  revert prv. induction l as [|c l IH]; intros prv Hs; cbn [dll]; [done|].
  intros (Hn & Hp & Ha & Hsz & Hl). destruct (Hs c) as (E1 & E2 & E3 & E4); [elem|].
  rewrite E1, E2, E3, E4. split_and!; try done. apply IH; [|done].
  intros d Hd. apply Hs. elem.
Qed.

Lemma head_addr_app l1 l2 nxt : head_addr (l1 ++ l2) nxt = head_addr l1 (head_addr l2 nxt).
Proof. by destruct l1. Qed.

Lemma last_addr_cons prv c l : last_addr prv (c :: l) = last_addr (ch_addr c) l.
Proof. unfold last_addr. rewrite last_cons. by destruct (last l). Qed.

Lemma dll_app m prv l1 l2 nxt :
  dll m prv (l1 ++ l2) nxt <->
  dll m prv l1 (head_addr l2 nxt) /\ dll m (last_addr prv l1) l2 nxt.
Proof.
  revert prv. induction l1 as [|c l1 IH]; intros prv; [cbn; tauto|].
  rewrite last_addr_cons. cbn [app dll]. rewrite IH, head_addr_app. tauto.
Qed.

Lemma separated_app l1 l2 :
  separated (l1 ++ l2) <->
  separated l1 /\ separated l2 /\
  (forall c d, c ∈ l1 -> d ∈ l2 -> chunks_apart (ch_addr c) (ch_addr d)).
Proof.
  induction l1 as [|c l1 IH]; cbn [app separated].
  { split; [intros; split_and!; [done|done|elem]|tauto]. }
  rewrite IH, Forall_app, !Forall_forall. split.
  - intros (? & [? ?] & ? & ? & Hx12). split_and!; try tauto.
    intros x d Hx Hd. apply elem_of_cons in Hx as [->|Hx]; [auto|by apply Hx12].
  - intros ((? & ? & ?) & ? & Hx12). split_and!; try tauto; try lia.
    + intros d Hd. apply Hx12; elem.
    + intros x d Hx Hd. apply Hx12; elem.
Qed.

(** The memory after [x] absorbed its successor [y]: four fields changed. *)
Record absorbed (m m' : mem) (x y : Z) : Prop := {
  ab_next : c_next m' x = c_next m y;
  ab_prev : c_prev m' x = c_prev m x;
  ab_alloc : c_allocated m' x = c_allocated m x;
  ab_size : c_size m' x = u32 (c_size m x + c_size m y + 16);
  ab_back : c_next m y <> 0 ->
    c_next m' (c_next m y) = c_next m (c_next m y) /\ c_prev m' (c_next m y) = u32 x /\
    c_allocated m' (c_next m y) = c_allocated m (c_next m y) /\
    c_size m' (c_next m y) = c_size m (c_next m y);
  ab_other : forall a, chunks_apart x a -> (c_next m y = 0 \/ chunks_apart (c_next m y) a) ->
    same_chunk m m' a
}.

Lemma absorbed_repr m m' l1 x y l2 :
  absorbed m m' (ch_addr x) (ch_addr y) ->
  heap_repr m (l1 ++ x :: y :: l2) -> heap_repr m' (l1 ++ join x y :: l2).
Proof.
  intros Hab [Hd Hs]. apply dll_app in Hd as [Hd1 Hd2]. cbn [dll head_addr] in Hd1, Hd2.
  destruct Hd2 as (Hxn & Hxp & Hxa & Hxs & Hyn & Hyp & Hya & Hys & Hl2).
  apply separated_app in Hs as (Hs1 & Hs2 & Hs12). cbn [separated] in Hs2.
  destruct Hs2 as (Hxr & Hxd & Hyr & Hyd & Hsl2).
  apply Forall_cons in Hxd as [Hxy Hxd]. rewrite Forall_forall in Hxd, Hyd.
  assert (forall c, c ∈ l1 -> same_chunk m m' (ch_addr c)) as Hleft.
  { intros c Hc. apply (ab_other _ _ _ _ Hab).
    - apply or_comm. apply Hs12; elem.
    - rewrite Hyn. destruct l2 as [|z l2]; [by left|]. right. apply or_comm. apply Hs12; elem. }
  split.
  - apply dll_app. cbn [dll head_addr join ch_addr ch_alloc ch_size]. split.
    { by apply (dll_same m). }
    rewrite (ab_next _ _ _ _ Hab), (ab_prev _ _ _ _ Hab), (ab_alloc _ _ _ _ Hab),
      (ab_size _ _ _ _ Hab), Hxs, Hys. split_and!; try done.
    destruct l2 as [|z l2]; [done|]. cbn [dll head_addr] in *.
    destruct Hl2 as (Hzn & Hzp & Hza & Hzs & Hl2). cbn [separated] in Hsl2.
    destruct Hsl2 as (Hzr & Hzd & Hsl2). rewrite Forall_forall in Hzd.
    destruct (ab_back _ _ _ _ Hab) as (E1 & E2 & E3 & E4); [rewrite Hyn; lia|].
    rewrite Hyn in E1, E2, E3, E4.
    rewrite E1, E2, E3, E4. rewrite (u32_small (ch_addr x)) by lia. split_and!; try done.
    apply (dll_same m); [|done]. intros c Hc. apply (ab_other _ _ _ _ Hab).
    + apply Hxd. elem.
    + right. rewrite Hyn. by apply Hzd.
  - apply separated_app. cbn [separated join ch_addr]. rewrite Forall_forall.
    split_and!; try done; try lia. intros c d Hc Hdd.
    apply elem_of_cons in Hdd as [->|Hdd]; [cbn [join ch_addr]|]; apply Hs12; elem.
Qed.

(** Facts about the chunk at a given place of a represented list. *)
Lemma repr_at m l1 c l2 :
  heap_repr m (l1 ++ c :: l2) ->
  c_next m (ch_addr c) = head_addr l2 0 /\ c_prev m (ch_addr c) = last_addr 0 l1 /\
  c_allocated m (ch_addr c) = Z.b2z (ch_alloc c) /\ c_size m (ch_addr c) = ch_size c /\
  0 < ch_addr c < 4294967280.
Proof.
  intros [Hd Hs]. apply dll_app in Hd as [_ (? & ? & ? & ? & _)].
  apply separated_app in Hs as (_ & (? & _) & _). done.
Qed.

Lemma repr_apart m l1 c l2 d :
  heap_repr m (l1 ++ c :: l2) -> d ∈ l1 ++ l2 -> chunks_apart (ch_addr c) (ch_addr d).
Proof.
  intros [_ Hs] Hd. apply separated_app in Hs as (_ & (_ & Hc & _) & H12).
  rewrite Forall_forall in Hc. apply elem_of_app in Hd as [Hd|Hd]; [|auto].
  apply or_comm. apply H12; elem.
Qed.

(** Marking a chunk free. *)
Lemma mark_repr m l1 c l2 :
  heap_repr m (l1 ++ c :: l2) ->
  heap_repr (set_allocated m (ch_addr c) 0) (l1 ++ Chunk (ch_addr c) false (ch_size c) :: l2).
Proof.
  intros Hr. pose proof (fun d => repr_apart m l1 c l2 d Hr) as Hdis.
  destruct (repr_at m l1 c l2 Hr) as (Hn & Hp & Ha & Hsz & Hrg).
  assert (forall d, d ∈ l1 ++ l2 ->
    same_chunk m (set_allocated m (ch_addr c) 0) (ch_addr d)) as Hsame.
  { intros d Hd. specialize (Hdis d Hd). unfold same_chunk. split_and!; chunk_simpl; done. }
  destruct Hr as [Hd Hs]. split.
  - apply dll_app in Hd as [Hd1 Hd2]. cbn [dll head_addr] in *. destruct Hd2 as (_ & _ & _ & _ & Hd2).
    apply dll_app. cbn [dll head_addr ch_addr ch_alloc ch_size]. split_and!.
    + apply (dll_same m); [|done]. intros d ?. apply Hsame. elem.
    + rewrite <- Hn. chunk_simpl. done.
    + rewrite <- Hp. chunk_simpl. done.
    + chunk_simpl. done.
    + rewrite <- Hsz. chunk_simpl. done.
    + apply (dll_same m); [|done]. intros d ?. apply Hsame. elem.
  - apply separated_app in Hs as (Hs1 & Hs2 & Hs12). apply separated_app.
    cbn [separated ch_addr] in *. split_and!; try tauto; try lia.
    intros x d Hx Hdd. apply elem_of_cons in Hdd as [->|Hdd]; [cbn [join ch_addr]|]; apply Hs12; elem.
Qed.

(** Both merges are absorptions, in whatever order they write the fields. *)
Section merges.
Context (m : mem) (x y z : Z).
Context (Hxn : c_next m x = y) (Hyp : c_prev m y = x) (Hyn : c_next m y = z).
Context (Hx : 0 < x < 4294967280) (Hy : 0 < y < 4294967280) (Hxy : chunks_apart x y).
Context (Hz : z = 0 \/ 0 < z < 4294967280 /\ chunks_apart x z /\ chunks_apart y z).

Lemma merge_next_absorbed :
  c_allocated m y = 0 -> absorbed m (merge_next m x) x y.
Proof.
  intros Ha. unfold merge_next. rewrite Hxn, Ha. destruct (Z.eqb_spec y 0); [lia|].
  cbn [negb andb Z.eqb]. set (m1 := set_size m x _).
  assert (c_next m1 x = y) as -> by (unfold m1; chunk_simpl; done).
  assert (c_next m1 y = z) as -> by (unfold m1; chunk_simpl; done).
  set (m2 := set_next m1 x z).
  assert (c_next m2 x = z) as ->.
  { unfold m2. chunk_simpl. apply u32_small. lia. }
  destruct (Z.eqb_spec z 0) as [Hz0|Hz0]; cbn [negb].
  - unfold m2, m1. rewrite Hz0 in *. split; rewrite ?Hyn; try (intros; done).
    1-4: chunk_simpl; rewrite ?u32_idem; done.
    intros a Hda _. unfold same_chunk. split_and!; chunk_simpl; done.
  - destruct Hz as [|(Hzr & Hxz & Hyz)]; [done|].
    unfold m2, m1. split; rewrite ?Hyn.
    1-4: chunk_simpl; rewrite ?u32_idem; try done; apply u32_small; lia.
    + intros _. split_and!; chunk_simpl; done.
    + intros a Hda [|Hza]; [done|]. unfold same_chunk. split_and!; chunk_simpl; done.
Qed.

Lemma merge_prev_absorbed :
  c_allocated m x = 0 ->
  exists m', merge_prev m y = (m', x) /\ absorbed m m' x y.
Proof.
  intros Ha. unfold merge_prev. rewrite Hyp, Ha, Hyn. destruct (Z.eqb_spec x 0); [lia|].
  cbn [negb andb Z.eqb]. set (m1 := set_next m x z).
  assert (c_prev m1 y = x) as -> by (unfold m1; chunk_simpl; done).
  set (m2 := set_size m1 x _).
  assert (c_next m2 y = z) as -> by (unfold m2, m1; chunk_simpl; done).
  assert (c_prev m2 y = x) as Hp2 by (unfold m2, m1; chunk_simpl; done).
  destruct (Z.eqb_spec z 0) as [Hz0|Hz0]; cbn [negb].
  - exists m2. rewrite Hp2. split; [done|].
    unfold m2, m1. rewrite Hz0 in *. split; rewrite ?Hyn; try (intros; done).
    1-4: chunk_simpl; rewrite ?u32_idem; done.
    intros a Hda _. unfold same_chunk. split_and!; chunk_simpl; done.
  - destruct Hz as [|(Hzr & Hxz & Hyz)]; [done|]. rewrite Hp2.
    exists (set_prev m2 z x). split.
    { f_equal. rewrite <- Hp2. chunk_simpl. done. }
    unfold m2, m1. split; rewrite ?Hyn.
    1-4: chunk_simpl; rewrite ?u32_idem; try done; apply u32_small; lia.
    + intros _. split_and!; chunk_simpl; done.
    + intros a Hda [|Hza]; [done|]. unfold same_chunk. split_and!; chunk_simpl; done.
Qed.
End merges.

(** The neighbours of two adjacent chunks, in the form the merges need. *)
Lemma repr_pair m l1 x y l2 :
  heap_repr m (l1 ++ x :: y :: l2) ->
  c_next m (ch_addr x) = ch_addr y /\ c_prev m (ch_addr y) = ch_addr x /\
  c_next m (ch_addr y) = head_addr l2 0 /\
  0 < ch_addr x < 4294967280 /\ 0 < ch_addr y < 4294967280 /\
  chunks_apart (ch_addr x) (ch_addr y) /\
  (head_addr l2 0 = 0 \/ 0 < head_addr l2 0 < 4294967280 /\
     chunks_apart (ch_addr x) (head_addr l2 0) /\ chunks_apart (ch_addr y) (head_addr l2 0)).
Proof.
  intros [Hd Hs]. apply dll_app in Hd as [_ (? & ? & _ & _ & ? & ? & _)].
  apply separated_app in Hs as (_ & (? & Hx & ? & Hy & Hs) & _).
  apply Forall_cons in Hx as [? Hx]. split_and!; try done; try lia.
  destruct l2 as [|z l2]; [by left|]. right. cbn [head_addr separated] in *.
  apply Forall_cons in Hx as [? _]. apply Forall_cons in Hy as [? _]. tauto.
Qed.

Lemma merge_next_repr m l1 x l2 :
  heap_repr m (l1 ++ x :: l2) ->
  heap_repr (merge_next m (ch_addr x)) (l1 ++ join_next x l2).
Proof.
  intros Hr. destruct l2 as [|y l2]; cbn [join_next].
  { destruct (repr_at m l1 x [] Hr) as (Hn & _). unfold merge_next. by rewrite Hn. }
  destruct (repr_pair _ _ _ _ _ Hr) as (Hxn & Hyp & Hyn & Hx & Hy & Hxy & Hz).
  destruct (repr_at m (l1 ++ [x]) y l2) as (_ & _ & Ha & _); [by rewrite <- app_assoc|].
  destruct (ch_alloc y) eqn:Ey.
  - unfold merge_next. rewrite Hxn, Ha. cbn [Z.b2z Z.eqb]. by rewrite andb_false_r.
  - apply (absorbed_repr m); [|done].
    by apply (merge_next_absorbed m (ch_addr x) (ch_addr y) (head_addr l2 0)).
Qed.

(** C33. [Free] implements release with coalescing on the chunk list: the
    chunk becomes free and is joined with its free neighbours, the headers
    stay a doubly linked list of chunks_apart chunks, and every other chunk keeps
    its place, size and state. *)
Theorem Free_refines (m : mem) (pre post : list chunk) (c : chunk)
    (Hheap : heap_repr m (reverse pre ++ c :: post)) :
  heap_repr (Free m (ch_addr c + 16)) (free_chunk pre c post).
Proof.
  destruct (repr_at _ _ _ _ Hheap) as (_ & _ & _ & _ & Hrange).
  unfold Free, sizeof_MemoryHeader. rewrite Z.add_simpl_r, (u32_small (ch_addr c)) by lia.
  apply mark_repr in Hheap. unfold free_chunk.
  remember (Chunk (ch_addr c) false (ch_size c)) as c' eqn:Ec.
  assert (ch_addr c = ch_addr c') as Haddr by (by rewrite Ec).
  rewrite Haddr in *. clear Ec. set (m1 := set_allocated m (ch_addr c') 0) in *. clearbody m1.
  destruct pre as [|p pre].
  - destruct (repr_at _ _ _ _ Hheap) as (_ & Hp & _). unfold merge_prev. rewrite Hp.
    cbn [last_addr last reverse negb Z.eqb andb]. by apply (merge_next_repr m1 []).
  - destruct (repr_at _ _ _ _ Hheap) as (_ & Hprev & _).
    rewrite reverse_cons, <- app_assoc in Hheap. cbn [app] in Hheap.
    destruct (repr_pair _ _ _ _ _ Hheap) as (Hxn & Hyp & Hyn & Hx & Hy & Hxy & Hz).
    destruct (repr_at _ _ _ _ Hheap) as (_ & _ & Ha & _).
    destruct (ch_alloc p) eqn:Ep.
    + unfold merge_prev. rewrite Hyp, Ha. cbn [Z.b2z Z.eqb]. rewrite andb_false_r.
      rewrite reverse_cons. apply merge_next_repr. by rewrite <- app_assoc.
    + destruct (merge_prev_absorbed m1 (ch_addr p) (ch_addr c') (head_addr post 0))
        as (m2 & -> & Hab); try done.
      apply (merge_next_repr m2 _ (join p c')). by apply (absorbed_repr m1).
Qed.

(** Three chunks: a free one, an allocated one, a free one. *)
Definition sample_chunks : mem :=
  let put m c n p a s := set_size (set_allocated (set_prev (set_next m c n) c p) c a) c s in
  put (put (put ∅ 0x1000 0x1100 0 0 240) 0x1100 0x1200 0x1000 1 240) 0x1200 0 0x1100 0 496.

Lemma Free_refines_witness :
  heap_repr (Free sample_chunks 0x1110) [Chunk 0x1000 false 1008].
Proof.
  apply (Free_refines sample_chunks [Chunk 0x1000 false 240] [Chunk 0x1200 false 496]
           (Chunk 0x1100 true 240)).
  split.
  - vm_compute. intuition congruence.
  - cbn [reverse rev_append app separated ch_addr]. unfold chunks_apart.
    split_and!; try lia; repeat apply Forall_cons_2; try apply Forall_nil_2; cbn [ch_addr]; lia.
Defined.

(** ** Page rounding *)

(** [pageRoundUp] is the least page boundary not below the address and
    [pageRoundDown] the greatest not above it; an address in the last page
    that is not a boundary rounds up to 0. *)
Theorem page_round_correct (a : Z) (Ha : 0 <= a < 4294967296) :
  (pageRoundDown a mod 4096 = 0 /\ pageRoundDown a <= a < pageRoundDown a + 4096) /\
  (a <= 0xFFFFF000 ->
     pageRoundUp a mod 4096 = 0 /\ a <= pageRoundUp a < a + 4096) /\
  (0xFFFFF000 < a -> pageRoundUp a = 0).
Proof.
  unfold pageRoundUp, pageRoundDown. rewrite land_page by done.
  split_and!; try zmod;
    intros; destruct (Z.eqb_spec (a - a mod 4096) a); cbn [negb]; zwrap.
Qed.

Lemma page_round_correct_witness :
  pageRoundUp 0x1001 mod 4096 = 0 /\ 0x1001 <= pageRoundUp 0x1001 < 0x1001 + 4096.
Proof. apply (proj1 (proj2 (page_round_correct 0x1001 ltac:(lia)))). lia. Defined.

(** ** The aligned allocator *)

Lemma land_lnot_pow2 z k :
  0 <= k <= 32 -> 0 <= z < 4294967296 ->
  Z.land z (u32 (Z.lnot (2 ^ k - 1))) = z - z mod 2 ^ k.
Proof.
  intros Hk Hz. assert (0 < 2 ^ k) by (apply Z.pow_pos_nonneg; lia).
  transitivity (Z.ldiff z (Z.ones k)).
  - apply Z.bits_inj'. intros n Hn. rewrite Z.ldiff_spec, Z.land_spec.
    unfold u32. change 4294967296 with (2 ^ 32). rewrite Z.testbit_mod_pow2 by lia.
    rewrite Z.lnot_spec by lia. replace (2 ^ k - 1) with (Z.ones k) by (rewrite Z.ones_equiv; lia).
    destruct (Z.ltb_spec n 32); [done|].
    rewrite <- (Z.mod_small z (2 ^ 32)) by (change (2 ^ 32) with 4294967296; lia).
    rewrite Z.mod_pow2_bits_high by lia. done.
  - rewrite Z.ldiff_ones_r, Z.shiftl_mul_pow2, Z.shiftr_div_pow2 by lia.
    rewrite Z.mod_eq by lia. lia.
Qed.

Lemma align_up_spec n k :
  0 <= k <= 32 -> 0 <= n -> n + 2 ^ k <= 4294967296 ->
  n <= align_up n (2 ^ k) < n + 2 ^ k /\ align_up n (2 ^ k) mod 2 ^ k = 0.
Proof.
  intros Hk Hn Hb. assert (0 < 2 ^ k) by (apply Z.pow_pos_nonneg; lia).
  unfold align_up. rewrite land_lnot_pow2 by lia.
  pose proof (Z.mod_pos_bound (n + (2 ^ k - 1)) (2 ^ k) ltac:(lia)).
  assert ((n + (2 ^ k - 1)) mod 2 ^ k <= n + (2 ^ k - 1)) by (apply Z.mod_le; lia).
  rewrite u32_small by lia. split; [lia|].
  rewrite Zminus_mod, Z.mod_mod, Z.sub_diag by lia. done.
Qed.

Lemma pow2_power_test k : 0 <= k < 32 -> Z.land (2 ^ k) (u32 (2 ^ k - 1)) = 0.
Proof.
  intros Hk. assert (0 < 2 ^ k) by (apply Z.pow_pos_nonneg; lia).
  assert (2 ^ k < 2 ^ 32) by (apply Z.pow_lt_mono_r; lia).
  change (2 ^ 32) with 4294967296 in *.
  rewrite u32_small, land_pow2_pred by lia. apply Z.mod_same. lia.
Qed.

Section aligned_spec.
Context (malloc : mem -> Z -> mem * Z).
Context (m m1 : mem) (size k p : Z).
Context (Hk : 0 <= k < 32) (Hsize : 0 < size) (Hp : p <> 0).
Context (Hmalloc : malloc m (size + 2 ^ k + 1) = (m1, p)).
Context (Hblock : 0 <= p /\ p + (size + 2 ^ k + 1) <= 4294967296).

Lemma alignedMalloc_eq :
  let ptr := align_up (p + 2) (2 ^ k) in
  alignedMalloc malloc m size (2 ^ k) = (store16 m1 (ptr - 2) (u16 (ptr - p)), ptr).
Proof.
  intros ptr. assert (0 < 2 ^ k) by (apply Z.pow_pos_nonneg; lia).
  unfold alignedMalloc. rewrite pow2_power_test by done. cbn [negb Z.eqb].
  destruct (Z.eqb_spec (2 ^ k) 0); [lia|]. destruct (Z.eqb_spec size 0); [lia|]. cbn [negb andb].
  rewrite (u32_small (2 + (2 ^ k - 1))) by lia.
  rewrite (u32_small (size + _)) by lia.
  replace (size + (2 + (2 ^ k - 1))) with (size + 2 ^ k + 1) by lia.
  rewrite Hmalloc. destruct (Z.eqb_spec p 0); [done|]. done.
Qed.
End aligned_spec.

(** The aligned allocator: for an alignment of at most 32768, the pointer
    [alignedMalloc] returns is aligned, lies with its [size] bytes and the
    stored offset inside the block [malloc] returned, and [allignedFree] finds
    its way back to exactly that block. *)
Theorem alignedMalloc_correct (malloc : mem -> Z -> mem * Z)
    (m m1 : mem) (size k p : Z) (Hk : 0 <= k <= 15) (Hsize : 0 < size) (Hp : p <> 0)
    (Hmalloc : malloc m (size + 2 ^ k + 1) = (m1, p))
    (Hblock : 0 <= p /\ p + (size + 2 ^ k + 1) <= 4294967296) :
  exists m2 ptr, alignedMalloc malloc m size (2 ^ k) = (m2, ptr) /\
    ptr mod 2 ^ k = 0 /\ p + 2 <= ptr /\ ptr + size <= p + (size + 2 ^ k + 1) /\
    (forall a, ~ (ptr - 2 <= a < ptr) -> load8 m2 a = load8 m1 a) /\
    allignedFree m2 ptr = Free m2 p.
Proof.
  assert (0 < 2 ^ k) by (apply Z.pow_pos_nonneg; lia).
  assert (2 ^ k <= 2 ^ 15) by (apply Z.pow_le_mono_r; lia). change (2 ^ 15) with 32768 in *.
  destruct (align_up_spec (p + 2) k) as [Hr Ha]; [lia..|].
  rewrite (alignedMalloc_eq malloc m m1 size k p) by (done || lia).
  set (ptr := align_up (p + 2) (2 ^ k)) in *. eexists _, ptr. split; [done|].
  split_and!; try lia.
  - intros a Hout. apply load8_store16_ne. lia.
  - unfold allignedFree. destruct (Z.eqb_spec ptr 0); [lia|].
    rewrite load16_store16_eq. rewrite !(u16_small (ptr - p)) by lia.
    replace (ptr - (ptr - p)) with p by lia. by rewrite u32_small by lia.
Qed.

Lemma alignedMalloc_correct_witness :
  let malloc := fun (m : mem) (_ : Z) => (m, 0x1004) in
  exists m2 ptr, alignedMalloc malloc ∅ 100 64 = (m2, ptr) /\ ptr mod 64 = 0 /\
    allignedFree m2 ptr = Free m2 0x1004.
Proof.
  intros malloc.
  destruct (alignedMalloc_correct malloc ∅ ∅ 100 6 0x1004 ltac:(lia) ltac:(lia) ltac:(lia)
              eq_refl ltac:(split; [lia|vm_compute; discriminate]))
    as (m2 & ptr & Hm & Ha & _ & _ & _ & Hf).
  exists m2, ptr. split_and!; [exact Hm|exact Ha|exact Hf].
Defined.

(** The stored offset has 16 bits: with a larger alignment and a block that
    is itself aligned, the recorded offset is 0 modulo 65536, so
    [allignedFree] hands the aligned pointer itself to [Free] instead of the
    block [malloc] returned. *)
Theorem allignedFree_offset_truncated (malloc : mem -> Z -> mem * Z)
    (m m1 : mem) (size k p : Z) (Hk : 16 <= k <= 30) (Hsize : 0 < size) (Hp : 0 < p)
    (Hmalloc : malloc m (size + 2 ^ k + 1) = (m1, p)) (Haligned : p mod 2 ^ k = 0)
    (Hblock : p + (size + 2 ^ k + 1) <= 4294967296) :
  exists m2, alignedMalloc malloc m size (2 ^ k) = (m2, p + 2 ^ k) /\
    allignedFree m2 (p + 2 ^ k) = Free m2 (p + 2 ^ k).
Proof.
  assert (0 < 2 ^ k) by (apply Z.pow_pos_nonneg; lia).
  assert (2 ^ 16 <= 2 ^ k) as Hpow by (apply Z.pow_le_mono_r; lia). change (2 ^ 16) with 65536 in Hpow.
  destruct (align_up_spec (p + 2) k) as [Hr Ha]; [lia..|].
  assert (align_up (p + 2) (2 ^ k) = p + 2 ^ k) as Hptr.
  { symmetry. apply (mod_eq_close _ _ (2 ^ k)); [lia| |].
    - rewrite Ha, Zplus_mod, Z.mod_same, Haligned by lia. done.
    - apply Z.mod_divide in Ha as [q Hq]; [|lia]. apply Z.mod_divide in Haligned as [r Hr']; [|lia].
      assert (r < q) by (apply (Z.mul_lt_mono_pos_r (2 ^ k)); lia).
      assert ((r + 1) * 2 ^ k <= q * 2 ^ k) by (apply Z.mul_le_mono_nonneg_r; lia). lia. }
  rewrite (alignedMalloc_eq malloc m m1 size k p) by (done || lia). rewrite Hptr.
  eexists. split; [done|]. unfold allignedFree. destruct (Z.eqb_spec (p + 2 ^ k) 0); [lia|].
  rewrite load16_store16_eq. replace (p + 2 ^ k - p) with (2 ^ k) by lia.
  assert (u16 (2 ^ k) = 0) as ->.
  { unfold u16. change 65536 with (2 ^ 16). apply Z.mod_divide; [done|].
    exists (2 ^ (k - 16)). rewrite <- Z.pow_add_r by lia. f_equal. lia. }
  change (u16 0) with 0. rewrite Z.sub_0_r, u32_small by lia. done.
Qed.

Lemma allignedFree_offset_truncated_witness :
  let malloc := fun (m : mem) (_ : Z) => (m, 0x10000) in
  exists m2, alignedMalloc malloc ∅ 100 65536 = (m2, 0x20000) /\
    allignedFree m2 0x20000 = Free m2 0x20000.
Proof.
  intros malloc.
  exact (allignedFree_offset_truncated malloc ∅ ∅ 100 16 0x10000 ltac:(lia) ltac:(lia) ltac:(lia)
           eq_refl eq_refl ltac:(vm_compute; discriminate)).
Defined.
