(* ===== verification/KString.v ===== *)
(** * The kernel's string routines (src/kernel/core/string.c)

    Strings are nul-terminated byte objects ([cstr] of the prelude); two
    pointer arguments are two different objects.  [None] is an access outside
    an object; [strcmp], which may loop for ever, takes fuel and answers [None]
    when it runs out.  [char] is signed, which no routine here can observe: the
    comparisons with letters fail alike for negative values and for the byte
    values from 128 on. *)
From S2P Require Import Prelude.

Local Open Scope Z_scope.

(** ** Operations *)

Fixpoint strlen_loop (fuel : nat) (str : list Z) (len : Z) : option Z :=
  match fuel with
  | O => None
  | S fuel =>
      c ← rd str len;
      if c =? 0 then Some len else strlen_loop fuel str (u32 (len + 1))
  end.

(** Each iteration reads the next byte, so the object's size bounds the loop. *)
Definition strlen (str : list Z) : option Z :=
  len ← strlen_loop (S (length str)) str 0; Some (s32 len).

(** The increments of the C loop are inside the inner [if], after its [return]. *)
Fixpoint strcmp (fuel : nat) (strA strB : list Z) : option bool :=
  match fuel with
  | O => None
  | S fuel =>
      a ← rd strA 0;
      b ← rd strB 0;
      if a =? b then
        if a =? 0 then Some true else strcmp fuel strA strB
      else Some false
  end.

Fixpoint IndexOf_loop (fuel : nat) (str : list Z) (c skip hits i : Z) : option Z :=
  match fuel with
  | O => None
  | S fuel =>
      x ← rd str i;
      if x =? 0 then Some (-1)
      else if x =? c then
        if hits =? skip then Some i
        else IndexOf_loop fuel str c skip (u32 (hits + 1)) (i + 1)
      else IndexOf_loop fuel str c skip hits (i + 1)
  end.

Definition IndexOf (str : list Z) (c skip : Z) : option Z :=
  IndexOf_loop (S (length str)) str c skip 0 0.

Fixpoint Contains_loop (fuel : nat) (str : list Z) (c i : Z) : option bool :=
  match fuel with
  | O => None
  | S fuel =>
      x ← rd str i;
      if x =? 0 then Some false
      else if x =? c then Some true
      else Contains_loop fuel str c (i + 1)
  end.

Definition Contains (str : list Z) (c : Z) : option bool :=
  Contains_loop (S (length str)) str c 0.

Fixpoint Uppercase_loop (n : nat) (str : list Z) (i : Z) : option (list Z) :=
  match n with
  | O => Some str
  | S n =>
      x ← rd str i;
      str ← (if (97 <=? x) && (x <=? 122) then wr str i (x - 32) else Some str);
      Uppercase_loop n str (i + 1)
  end.

Definition Uppercase (str : list Z) : option (list Z) :=
  len ← strlen str; Uppercase_loop (Z.to_nat len) str 0.

Fixpoint Lowercase_loop (n : nat) (str : list Z) (i : Z) : option (list Z) :=
  match n with
  | O => Some str
  | S n =>
      x ← rd str i;
      str ← (if (65 <=? x) && (x <=? 90) then wr str i (x + 32) else Some str);
      Lowercase_loop n str (i + 1)
  end.

Definition Lowercase (str : list Z) : option (list Z) :=
  len ← strlen str; Lowercase_loop (Z.to_nat len) str 0.

(** The copying loop of [strncpy]: the object and [extern_iter]. *)
Fixpoint strncpy_copy (n : nat) (s1 s2 : list Z) (iterator : Z) : option (list Z * Z) :=
  match n with
  | O => Some (s1, 0)
  | S n =>
      c ← rd s2 iterator;
      s1 ← wr s1 iterator c;
      if negb (c =? 0) then strncpy_copy n s1 s2 (iterator + 1)
      else Some (s1, iterator + 1)
  end.

(** [while (extern_iter < n)] *)
Fixpoint strncpy_fill (k : nat) (s1 : list Z) (extern_iter : Z) : option (list Z) :=
  match k with
  | O => Some s1
  | S k => s1 ← wr s1 extern_iter 0; strncpy_fill k s1 (extern_iter + 1)
  end.

Definition strncpy (s1 s2 : list Z) (n : Z) : option (list Z) :=
  '(s1, extern_iter) ← strncpy_copy (Z.to_nat n) s1 s2 0;
  strncpy_fill (Z.to_nat (n - extern_iter)) s1 extern_iter.

Definition strcpy (s1 s2 : list Z) : option (list Z) :=
  len ← strlen s2;
  s1 ← strncpy s1 s2 (u32 (len + 1));
  len ← strlen s2;
  wr s1 len 0.

(** ** Loops over a string *)

Lemma strlen_loop_spec fuel p s rest :
  Forall (fun c => c <> 0) s -> (length s < fuel)%nat ->
  Z.of_nat (length p + length s) < 4294967296 ->
  strlen_loop fuel (p ++ s ++ 0 :: rest) (Z.of_nat (length p)) =
    Some (Z.of_nat (length p + length s)).
Proof.
  revert fuel p. induction s as [|x s IH]; intros fuel p Hs Hf Hb;
    (destruct fuel as [|fuel]; [simpl in Hf; lia|]); cbn [strlen_loop app length] in *.
  - rewrite rd_mid. cbn [mbind option_bind Z.eqb]. by rewrite Nat.add_0_r.
  - inversion Hs as [|? ? Hx Hs']; subst. rewrite rd_mid. cbn [mbind option_bind].
    destruct (Z.eqb_spec x 0); [done|].
    rewrite mid_snoc, u32_small, <- (length_snoc p x) by lia.
    rewrite IH; [|done|lia|]; rewrite length_app; simpl; [|lia]. do 2 f_equal. lia.
Qed.

Lemma strlen_spec s rest :
  Forall (fun c => c <> 0) s -> Z.of_nat (length s) < 2147483648 ->
  strlen (s ++ 0 :: rest) = Some (Z.of_nat (length s)).
Proof.
  intros Hs Hl. unfold strlen.
  pose proof (strlen_loop_spec (S (length (s ++ 0 :: rest))) [] s rest Hs) as H.
  change ([] ++ s ++ 0 :: rest) with (s ++ 0 :: rest) in H.
  change (Z.of_nat (length [])) with 0 in H.
  rewrite H; [|rewrite length_app; lia|simpl; lia]. cbn [mbind option_bind length Nat.add].
  by rewrite s32_small by lia.
Qed.

(** The number of occurrences of a character. *)
Definition char_count (c : Z) (s : list Z) : Z := Z.of_nat (length (filter (fun x => x = c) s)).

Lemma char_count_cons c x s : char_count c (x :: s) = (if decide (x = c) then 1 else 0) + char_count c s.
Proof. unfold char_count. rewrite filter_cons. case_decide; simpl; lia. Qed.

(** The position of the occurrence of [c] in [s] that has [k] before it. *)
Definition is_nth_occ (c : Z) (s : list Z) (k r : Z) : Prop :=
  exists p q, s = p ++ c :: q /\ char_count c p = k /\ r = Z.of_nat (length p).

Lemma IndexOf_loop_spec fuel p s rest c skip hits :
  Forall (fun x => x <> 0) s -> (length s < fuel)%nat ->
  0 <= hits <= skip -> skip < 4294967296 ->
  exists r, IndexOf_loop fuel (p ++ s ++ 0 :: rest) c skip hits (Z.of_nat (length p)) = Some r /\
    ((r = -1 /\ char_count c s <= skip - hits) \/
     exists k, is_nth_occ c s (skip - hits) k /\ r = Z.of_nat (length p) + k).
Proof.
  revert fuel p hits. induction s as [|x s IH]; intros fuel p hits Hs Hf Hh Hk;
    (destruct fuel as [|fuel]; [simpl in Hf; lia|]); cbn [IndexOf_loop app length] in *.
  { rewrite rd_mid. cbn [mbind option_bind Z.eqb]. eexists. split; [done|]. left.
    split; [done|]. unfold char_count. simpl. lia. }
  inversion Hs as [|? ? Hx Hs']; subst. rewrite rd_mid. cbn [mbind option_bind].
  destruct (Z.eqb_spec x 0); [done|]. rewrite mid_snoc, <- (length_snoc p x).
  destruct (Z.eqb_spec x c) as [->|Hxc]; [destruct (Z.eqb_spec hits skip) as [->|Hne]|].
  - eexists. split; [done|]. right. exists 0. split; [|lia].
    exists [], s. split_and!; [done|unfold char_count; simpl; lia|done].
  - rewrite u32_small by lia.
    destruct (IH fuel (p ++ [c]) (hits + 1) Hs' ltac:(lia) ltac:(lia) Hk)
      as (r & -> & [[-> Ho]|(k & (p' & q & -> & Ho & ->) & ->)]).
    + exists (-1). split; [done|]. left. split; [done|]. rewrite char_count_cons, decide_True by done. lia.
    + eexists. split; [done|]. right. exists (Z.of_nat (S (length p'))).
      split; [|rewrite length_snoc; lia].
      exists (c :: p'), q. split_and!; [done| |done]. rewrite char_count_cons, decide_True by done. lia.
  - destruct (IH fuel (p ++ [x]) hits Hs' ltac:(lia) Hh Hk)
      as (r & -> & [[-> Ho]|(k & (p' & q & -> & Ho & ->) & ->)]).
    + exists (-1). split; [done|]. left. split; [done|]. rewrite char_count_cons, decide_False by done. lia.
    + eexists. split; [done|]. right. exists (Z.of_nat (S (length p'))).
      split; [|rewrite length_snoc; lia].
      exists (x :: p'), q. split_and!; [done| |done]. rewrite char_count_cons, decide_False by done. lia.
Qed.

(** ** Properties *)

(** [IndexOf] finds the occurrence of the character that has [skip]
    occurrences before it, and returns -1 exactly when the string has at most
    [skip] of them. *)
Theorem IndexOf_correct (s rest : list Z) (c skip : Z)
    (Hs : Forall (fun x => x <> 0) s) (Hskip : 0 <= skip < 4294967296) :
  exists r, IndexOf (s ++ 0 :: rest) c skip = Some r /\
    ((r = -1 /\ char_count c s <= skip) \/ is_nth_occ c s skip r).
Proof.
  destruct (IndexOf_loop_spec (S (length (s ++ 0 :: rest))) [] s rest c skip 0)
    as (r & Hr & Hcase); [done|rewrite length_app; lia|lia|lia|].
  exists r. split; [exact Hr|]. rewrite Z.sub_0_r in Hcase.
  destruct Hcase as [?|(k & Hk & ->)]; [by left|by right].
Qed.

Lemma IndexOf_correct_witness :
  exists r, IndexOf [97; 98; 97; 99; 0; 7] 97 1 = Some r /\ r = 2.
Proof.
  destruct (IndexOf_correct [97; 98; 97; 99] [7] 97 1) as (r & Hr & _).
  - repeat constructor; discriminate.
  - lia.
  - exists r. split; [exact Hr|]. vm_compute in Hr. congruence.
Defined.

(** [strcmp] does not terminate on strings that begin with the same
    character: its increments are unreachable, so it compares the two first
    characters for ever.  It returns only when they differ (false) or when both
    strings are empty (true). *)
Theorem strcmp_first_char_only (a b : Z) (s t : list Z) (fuel : nat) :
  (a = b /\ a <> 0 -> strcmp fuel (a :: s) (b :: t) = None) /\
  (a <> b -> strcmp (S fuel) (a :: s) (b :: t) = Some false) /\
  (a = b /\ a = 0 -> strcmp (S fuel) (a :: s) (b :: t) = Some true).
Proof.
  split_and!.
  - intros [<- Ha]. induction fuel as [|fuel IH]; [done|]. cbn [strcmp].
    change (rd (a :: s) 0) with (Some a). change (rd (a :: t) 0) with (Some a).
    cbn [mbind option_bind]. rewrite Z.eqb_refl. destruct (Z.eqb_spec a 0); [done|]. exact IH.
  - intros Hne. cbn [strcmp]. change (rd (a :: s) 0) with (Some a).
    change (rd (b :: t) 0) with (Some b). cbn [mbind option_bind].
    by destruct (Z.eqb_spec a b).
  - intros [<- ->]. done.
Qed.

Lemma strcmp_first_char_only_witness :
  strcmp 1000 [97; 0] [97; 98; 0] = None /\ strcmp 1 [97; 0] [98; 0] = Some false.
Proof.
  split.
  - apply (strcmp_first_char_only 97 97 [0] [98; 0] 1000). split; [reflexivity|discriminate].
  - apply (strcmp_first_char_only 97 98 [0] [0] 0). discriminate.
Defined.

(** *** Case conversion *)

Definition upper (x : Z) : Z := if (97 <=? x) && (x <=? 122) then x - 32 else x.
Definition lower (x : Z) : Z := if (65 <=? x) && (x <=? 90) then x + 32 else x.

Lemma Uppercase_loop_spec p s q :
  Uppercase_loop (length s) (p ++ s ++ q) (Z.of_nat (length p)) = Some (p ++ (upper <$> s) ++ q).
Proof.
  revert p. induction s as [|x s IH]; intros p; cbn [Uppercase_loop length]; [done|].
  cbn [app fmap list_fmap]. rewrite rd_mid. cbn [mbind option_bind].
  rewrite wr_mid, <- (length_snoc p x). unfold upper at 1.
  destruct ((97 <=? x) && (x <=? 122)); cbn [mbind option_bind].
  - replace (length (p ++ [x])) with (length (p ++ [x - 32])) by (rewrite !length_app; done).
    rewrite mid_snoc, IH. by rewrite <- app_assoc.
  - rewrite mid_snoc, IH. by rewrite <- app_assoc.
Qed.

Lemma Lowercase_loop_spec p s q :
  Lowercase_loop (length s) (p ++ s ++ q) (Z.of_nat (length p)) = Some (p ++ (lower <$> s) ++ q).
Proof.
  revert p. induction s as [|x s IH]; intros p; cbn [Lowercase_loop length]; [done|].
  cbn [app fmap list_fmap]. rewrite rd_mid. cbn [mbind option_bind].
  rewrite wr_mid, <- (length_snoc p x). unfold lower at 1.
  destruct ((65 <=? x) && (x <=? 90)); cbn [mbind option_bind].
  - replace (length (p ++ [x])) with (length (p ++ [x + 32])) by (rewrite !length_app; done).
    rewrite mid_snoc, IH. by rewrite <- app_assoc.
  - rewrite mid_snoc, IH. by rewrite <- app_assoc.
Qed.

(** [Uppercase] and [Lowercase] convert exactly the letters of the string,
    in place: the terminator and the bytes behind it stay. *)
Theorem case_conversion_correct (s rest : list Z)
    (Hs : Forall (fun x => x <> 0) s) (Hlen : Z.of_nat (length s) < 2147483648) :
  Uppercase (s ++ 0 :: rest) = Some ((upper <$> s) ++ 0 :: rest) /\
  Lowercase (s ++ 0 :: rest) = Some ((lower <$> s) ++ 0 :: rest).
Proof.
  unfold Uppercase, Lowercase. rewrite !strlen_spec by done. cbn [mbind option_bind].
  rewrite Nat2Z.id. split;
    [exact (Uppercase_loop_spec [] s (0 :: rest))|exact (Lowercase_loop_spec [] s (0 :: rest))].
Qed.

Lemma case_conversion_correct_witness :
  Uppercase [104; 73; 64; 0; 104] = Some [72; 73; 64; 0; 104].
Proof.
  apply (case_conversion_correct [104; 73; 64] [104]); [repeat constructor; discriminate|].
  reflexivity.
Defined.

(** *** Copying *)

Lemma strncpy_copy_end p s q b rest n :
  length p = length q ->
  Forall (fun x => x <> 0) s -> (length s < n)%nat -> (length s < length b)%nat ->
  strncpy_copy n (p ++ b) (q ++ s ++ 0 :: rest) (Z.of_nat (length p)) =
    Some (p ++ s ++ 0 :: drop (S (length s)) b, Z.of_nat (length p + S (length s))).
Proof.
  revert n p q b. induction s as [|x s IH]; intros n p q b Hpq Hs Hn Hb;
    (destruct n as [|n]; [simpl in *; lia|]); cbn [strncpy_copy app length] in *.
  - rewrite Hpq, rd_mid, <- Hpq. cbn [mbind option_bind].
    destruct b as [|y b]; [simpl in Hb; lia|]. rewrite wr_mid. cbn [mbind option_bind negb Z.eqb].
    do 3 f_equal. lia.
  - inversion Hs as [|? ? Hx Hs']; subst. rewrite Hpq, rd_mid, <- Hpq. cbn [mbind option_bind].
    destruct b as [|y b]; [simpl in Hb; lia|]. rewrite wr_mid. cbn [mbind option_bind].
    destruct (Z.eqb_spec x 0); [done|]. cbn [negb].
    rewrite (mid_snoc p), (mid_snoc q), <- (length_snoc p x).
    rewrite IH; [|by rewrite !length_app, Hpq|done|lia|simpl in Hb; lia].
    rewrite <- !app_assoc. simpl. do 2 f_equal. rewrite length_app. simpl. lia.
Qed.

Lemma strncpy_copy_full p s q b rest :
  Forall (fun x => x <> 0) s -> (length s <= length b)%nat -> length p = length q ->
  strncpy_copy (length s) (p ++ b) (q ++ s ++ rest) (Z.of_nat (length p)) =
    Some (p ++ s ++ drop (length s) b, 0).
Proof.
  revert p q b. induction s as [|x s IH]; intros p q b Hs Hb Hpq;
    cbn [strncpy_copy app length] in *; [done|].
  inversion Hs as [|? ? Hx Hs']; subst. rewrite Hpq, rd_mid, <- Hpq. cbn [mbind option_bind].
  destruct b as [|y b]; [simpl in Hb; lia|]. rewrite wr_mid. cbn [mbind option_bind].
  destruct (Z.eqb_spec x 0); [done|]. cbn [negb].
  rewrite (mid_snoc p), (mid_snoc q), <- (length_snoc p x).
  rewrite IH; [|done|simpl in Hb; lia|by rewrite !length_app, Hpq].
  rewrite <- !app_assoc. done.
Qed.

Lemma strncpy_fill_spec k p b :
  (k <= length b)%nat ->
  strncpy_fill k (p ++ b) (Z.of_nat (length p)) = Some (p ++ replicate k 0 ++ drop k b).
Proof.
  revert p b. induction k as [|k IH]; intros p b Hk; cbn [strncpy_fill]; [done|].
  destruct b as [|y b]; simpl in Hk; [lia|]. rewrite wr_mid. cbn [mbind option_bind].
  rewrite mid_snoc, <- (length_snoc p 0), IH by lia. rewrite <- app_assoc. done.
Qed.

(** [strncpy] of a string shorter than the count: the string, then zeros. *)
Lemma strncpy_short s rest b n :
  Forall (fun x => x <> 0) s -> Z.of_nat (length s) < n -> n <= Z.of_nat (length b) ->
  strncpy b (s ++ 0 :: rest) n =
    Some (s ++ replicate (Z.to_nat n - length s) 0 ++ drop (Z.to_nat n) b).
Proof.
  intros Hs Hn Hb. unfold strncpy.
  pose proof (strncpy_copy_end [] s [] b rest (Z.to_nat n) eq_refl Hs ltac:(lia) ltac:(lia)) as H.
  change (Z.of_nat (length (@nil Z))) with 0 in H. cbn [app length] in H. rewrite H.
  cbn [mbind option_bind Nat.add].
  replace (s ++ 0 :: drop (S (length s)) b) with ((s ++ [0]) ++ drop (S (length s)) b)
    by (by rewrite <- app_assoc).
  replace (Z.of_nat (S (length s))) with (Z.of_nat (length (s ++ [0])))
    by (rewrite length_app; simpl; lia).
  rewrite strncpy_fill_spec by (rewrite length_app, length_drop; simpl; lia).
  rewrite length_app, drop_drop, <- app_assoc. cbn [app length]. do 2 f_equal.
  replace (Z.to_nat n - length s)%nat with (S (Z.to_nat n - S (length s)))%nat by lia.
  cbn [replicate app]. do 2 f_equal; [f_equal|f_equal]; lia.
Qed.

(** [strcpy] copies the string with its terminator and leaves the rest of
    the destination as it was. *)
Theorem strcpy_correct (s rest b : list Z) (Hs : Forall (fun x => x <> 0) s)
    (Hroom : (length s < length b)%nat) (Hlen : Z.of_nat (length s) < 2147483647) :
  strcpy b (s ++ 0 :: rest) = Some (s ++ 0 :: drop (S (length s)) b).
Proof.
  unfold strcpy. rewrite strlen_spec by (done || lia). cbn [mbind option_bind].
  rewrite u32_small, strncpy_short by (done || lia). cbn [mbind option_bind].
  replace (Z.to_nat (Z.of_nat (length s) + 1)) with (S (length s)) by lia.
  replace (S (length s) - length s)%nat with 1%nat by lia. cbn [replicate app].
  by rewrite wr_mid.
Qed.

Lemma strcpy_correct_witness :
  strcpy [1; 2; 3; 4; 5] [104; 105; 0; 9] = Some [104; 105; 0; 4; 5].
Proof.
  apply (strcpy_correct [104; 105] [9] [1; 2; 3; 4; 5]);
    [repeat constructor; discriminate|simpl; lia|reflexivity].
Defined.

(** [strncpy] erases what it copied when the source has no terminator
    among its first [n] characters: [extern_iter] is still 0, so the padding
    loop overwrites all [n] bytes with zeros.  Shorter sources are copied and
    padded as documented. *)
Theorem strncpy_behaviour (s rest b : list Z) (n : Z) (Hs : Forall (fun x => x <> 0) s)
    (Hroom : n <= Z.of_nat (length b)) :
  (Z.of_nat (length s) < n ->
     strncpy b (s ++ 0 :: rest) n =
       Some (s ++ replicate (Z.to_nat n - length s) 0 ++ drop (Z.to_nat n) b)) /\
  (n = Z.of_nat (length s) ->
     strncpy b (s ++ rest) n = Some (replicate (Z.to_nat n) 0 ++ drop (Z.to_nat n) b)).
Proof.
  split; [intros; by apply strncpy_short|]. intros ->. unfold strncpy. rewrite Nat2Z.id.
  pose proof (strncpy_copy_full [] s [] b rest Hs ltac:(lia) eq_refl) as H.
  change (Z.of_nat (length (@nil Z))) with 0 in H. cbn [app length] in H. rewrite H. cbn [mbind option_bind].
  rewrite Z.sub_0_r, Nat2Z.id.
  pose proof (strncpy_fill_spec (length s) [] (s ++ drop (length s) b)) as Hf.
  change (Z.of_nat (length (@nil Z))) with 0 in Hf. cbn [app] in Hf. rewrite Hf by (rewrite length_app; lia).
  by rewrite drop_app_length.
Qed.

Lemma strncpy_behaviour_witness :
  strncpy [1; 2; 3; 4] [104; 105; 106; 0] 2 = Some [0; 0; 3; 4] /\
  strncpy [1; 2; 3; 4] [104; 0; 106] 3 = Some [104; 0; 0; 4].
Proof.
  split.
  - apply (strncpy_behaviour [104; 105] [106; 0] [1; 2; 3; 4] 2);
      [repeat constructor; discriminate|simpl; lia|reflexivity].
  - apply (strncpy_behaviour [104] [106] [1; 2; 3; 4] 3);
      [repeat constructor; discriminate|simpl; lia|reflexivity].
Defined.
