(* ===== verification/Convert.v ===== *)
(** * Number conversion (src/kernel/core/convert.c)

    Decimal and hexadecimal conversions between integers and character
    objects.  The decimal printer writes into a [static char ret[24]]. *)
From S2P Require Import Prelude.

Local Open Scope Z_scope.

(** ** Operations *)

(** [digit = *string - '0'], the character signed, the digit unsigned. *)
Definition digit_of (c : Z) : Z := u32 (s8 c - 48).

(** [for ( ; ; string += 1)]; each iteration reads one more character. *)
Fixpoint StringToInt_loop (fuel : nat) (string : list Z) (pos result : Z) : option Z :=
  match fuel with
  | O => None
  | S fuel =>
      c ← rd string pos;
      let digit := digit_of c in
      if 9 <? digit then Some result
      else StringToInt_loop fuel string (pos + 1) (s32 (10 * result + digit))
  end.

Definition StringToInt (string : list Z) : option Z :=
  c ← rd string 0;
  let '(sign, pos) := if c =? 45 then (1, 1) else if c =? 43 then (0, 1) else (0, 0) in
  result ← StringToInt_loop (S (length string)) string pos 0;
  Some (if negb (sign =? 0) then s32 (- result) else result).

Definition IsSpace (c : Z) : bool :=
  (c =? 32) || (c =? 9) || (c =? 10) || (c =? 11) || (c =? 12) || (c =? 13).

Definition digits : list Z := [48; 49; 50; 51; 52; 53; 54; 55; 56; 57; 65; 66; 67; 68; 69; 70].

(** The hexadecimal printer: [rc] is the allocated object of 9 zero bytes. *)
Fixpoint IntToHexString_loop (n : nat) (w : Z) (rc : list Z) (i j : Z) : option (list Z) :=
  match n with
  | O => Some rc
  | S n =>
      d ← rd digits (Z.land (Z.shiftr w j) 0x0f);
      rc ← wr rc i d;
      IntToHexString_loop n w rc (i + 1) (j - 4)
  end.

Definition IntToHexString (w : Z) : option (list Z) :=
  let hexSize := 8 in
  let rc := replicate (Z.to_nat (hexSize + 1)) 0 in
  IntToHexString_loop (Z.to_nat hexSize) w rc 0 ((hexSize - 1) * 4).

(** [do { numChars++; temp /= 10; } while (temp)] *)
Fixpoint count_chars (fuel : nat) (numChars temp : Z) : option Z :=
  match fuel with
  | O => None
  | S fuel =>
      let numChars := numChars + 1 in
      let temp := Z.quot temp 10 in
      if negb (temp =? 0) then count_chars fuel numChars temp else Some numChars
  end.

(** [do { ret[i--] = n % 10 + '0'; n /= 10; } while (n)] *)
Fixpoint put_digits (fuel : nat) (ret : list Z) (i n : Z) : option (list Z) :=
  match fuel with
  | O => None
  | S fuel =>
      ret ← wr ret i (u8 (Z.rem n 10 + 48));
      let n := Z.quot n 10 in
      if negb (n =? 0) then put_digits fuel ret (i - 1) n else Some ret
  end.

(** Ten divisions by 10 bring every [int] to 0, so the loops' fuel suffices. *)
Definition INT_DIGITS : nat := 10.

Definition IntToString (ret : list Z) (n : Z) : option (list Z) :=
  let '(n, isNegative, numChars) :=
    if n <? 0 then (s32 (- n), true, 1) else (n, false, 0) in
  numChars ← count_chars INT_DIGITS numChars n;
  ret ← wr ret numChars 0;
  ret ← (if (isNegative : bool) then wr ret 0 45 else Some ret);
  put_digits INT_DIGITS ret (numChars - 1) n.

(** ** Decimal digits *)

(** The [k] low decimal digits of [n], most significant first. *)
Fixpoint dec (k : nat) (n : Z) : list Z :=
  match k with
  | O => []
  | S k => dec k (n / 10) ++ [n mod 10 + 48]
  end.

(** [n] has exactly [k] decimal digits. *)
Definition has_digits (k : nat) (n : Z) : Prop :=
  0 <= n < 10 ^ Z.of_nat k /\ (0 < k)%nat /\ (k = 1%nat \/ 10 ^ Z.of_nat (k - 1) <= n).

Lemma length_dec k n : length (dec k n) = k.
Proof. revert n. induction k as [|k IH]; intros n; simpl; [done|]. rewrite length_app, IH. simpl. lia. Qed.

Lemma pow10_S k : 10 ^ Z.of_nat (S k) = 10 * 10 ^ Z.of_nat k.
Proof. rewrite Nat2Z.inj_succ, Z.pow_succ_r by lia. done. Qed.

Lemma has_digits_div k n :
  has_digits (S k) n -> (n / 10 = 0 /\ k = 0%nat) \/ (n / 10 <> 0 /\ has_digits k (n / 10)).
Proof.
  intros (Hn & _ & Hlow). rewrite pow10_S in Hn. destruct k as [|k].
  - left. split; [|done]. rewrite Z.pow_0_r in Hn. zmod.
  - right. destruct Hlow as [|Hlow]; [lia|].
    replace (S (S k) - 1)%nat with (S k) in Hlow by lia. rewrite pow10_S in *.
    assert (0 < 10 ^ Z.of_nat k) by (apply Z.pow_pos_nonneg; lia).
    assert (10 ^ Z.of_nat k <= n / 10) by (apply Z.div_le_lower_bound; lia).
    split; [lia|]. unfold has_digits. rewrite pow10_S.
    split; [|split; [lia|right]].
    + split; [lia|]. apply Z.div_lt_upper_bound; lia.
    + by replace (S k - 1)%nat with k by lia.
Qed.

Lemma count_chars_spec fuel num n :
  0 <= n < 10 ^ Z.of_nat fuel -> (0 < fuel)%nat ->
  exists k, (k <= fuel)%nat /\ has_digits k n /\
    count_chars fuel num n = Some (num + Z.of_nat k).
Proof.
  revert num n. induction fuel as [|fuel IH]; intros num n Hn Hf; [lia|].
  cbn [count_chars]. rewrite Z.quot_div_nonneg by lia. rewrite pow10_S in Hn.
  destruct (Z.eqb_spec (n / 10) 0) as [H0|H0]; cbn [negb].
  - exists 1%nat. split_and!; [lia| |do 2 f_equal; lia].
    split; [change (10 ^ Z.of_nat 1) with 10; zmod|]. split; [lia|by left].
  - destruct fuel as [|fuel']; [rewrite Z.pow_0_r in Hn; zmod|].
    set (f := S fuel') in *.
    destruct (IH (num + 1) (n / 10)) as (k & Hk & (Hr & Hk0 & Hlow) & ->); [|lia|].
    { split; [apply Z.div_pos; lia|apply Z.div_lt_upper_bound; lia]. }
    exists (S k). split_and!; [lia| |f_equal; lia].
    assert (n = 10 * (n / 10) + n mod 10) by (apply Z.div_mod; lia).
    pose proof (Z.mod_pos_bound n 10 ltac:(lia)).
    split; [rewrite pow10_S; lia|]. split; [lia|]. right.
    replace (S k - 1)%nat with k by lia. destruct k as [|k]; [lia|].
    destruct Hlow as [Hlow|Hlow]; rewrite pow10_S.
    + assert (k = 0%nat) as -> by lia. rewrite Z.pow_0_r. lia.
    + replace (S k - 1)%nat with k in Hlow by lia. lia.
Qed.

Lemma put_digits_spec fuel k ret base n :
  has_digits k n -> (k <= fuel)%nat -> (base + k <= length ret)%nat ->
  put_digits fuel ret (Z.of_nat base + Z.of_nat k - 1) n = Some (splice ret base (dec k n)).
Proof.
  revert k ret n. induction fuel as [|fuel IH]; intros k ret n Hd Hk Hb.
  { destruct Hd as (_ & ? & _). lia. }
  destruct k as [|k]; [destruct Hd as (_ & ? & _); lia|].
  pose proof Hd as ((Hn0 & _) & _). cbn [put_digits dec].
  rewrite Z.quot_div_nonneg, Z.rem_mod_nonneg by lia.
  pose proof (Z.mod_pos_bound n 10 ltac:(lia)). rewrite u8_small by lia.
  rewrite wr_Some by lia. cbn [mbind option_bind].
  replace (Z.to_nat (Z.of_nat base + Z.of_nat (S k) - 1)) with (base + k)%nat by lia.
  set (d := n mod 10 + 48). clearbody d.
  assert (forall xs, length xs = k ->
    splice (<[(base + k)%nat := d]> ret) base xs = splice ret base (xs ++ [d])) as Hsp.
  { intros xs Hxs. apply list_eq. intros j.
    destruct (decide (base <= j < base + k)%nat).
    - rewrite !splice_lookup_in by (rewrite ?length_app, ?length_insert; simpl; lia).
      by rewrite lookup_app_l by lia.
    - rewrite splice_lookup_out by (rewrite ?length_insert; lia).
      destruct (decide (j = base + k)%nat) as [->|].
      + rewrite list_lookup_insert_eq by lia.
        rewrite splice_lookup_in by (rewrite ?length_app; simpl; lia).
        rewrite lookup_app_r, Hxs by lia. by replace (base + k - base - k)%nat with 0%nat by lia.
      + rewrite list_lookup_insert_ne by done.
        rewrite splice_lookup_out by (rewrite ?length_app; simpl; lia). done. }
  destruct (has_digits_div k n Hd) as [[H0 ->]|[Hne Hd']].
  - rewrite H0. cbn [negb Z.eqb dec].
    rewrite <- (Hsp [] eq_refl), splice_nil. done.
  - destruct (Z.eqb_spec (n / 10) 0); [done|]. cbn [negb].
    replace (Z.of_nat base + Z.of_nat (S k) - 1 - 1) with (Z.of_nat base + Z.of_nat k - 1) by lia.
    rewrite IH by (rewrite ?length_insert; (done || lia)). rewrite Hsp by apply length_dec. done.
Qed.

(** Reading the digits back. *)
Lemma digit_of_char d : 0 <= d <= 9 -> digit_of (d + 48) = d.
Proof. intros. unfold digit_of. zwrap. Qed.

Lemma StringToInt_loop_dec fuel k p n q r :
  0 <= n < 10 ^ Z.of_nat k -> 0 <= r -> r * 10 ^ Z.of_nat k + n < 2147483648 ->
  StringToInt_loop (k + fuel) (p ++ dec k n ++ q) (Z.of_nat (length p)) r =
    StringToInt_loop fuel (p ++ dec k n ++ q) (Z.of_nat (length p + k))
      (r * 10 ^ Z.of_nat k + n).
Proof.
  revert fuel n q. induction k as [|k IH]; intros fuel n q Hn Hr Hb.
  { rewrite Z.pow_0_r in *. rewrite Nat.add_0_r. f_equal. lia. }
  cbn [dec]. rewrite <- app_assoc. cbn [app]. rewrite pow10_S in *.
  pose proof (Z.mod_pos_bound n 10 ltac:(lia)).
  assert (n = 10 * (n / 10) + n mod 10) as Hdm by (apply Z.div_mod; lia).
  assert (0 < 10 ^ Z.of_nat k) by (apply Z.pow_pos_nonneg; lia).
  replace (S k + fuel)%nat with (k + S fuel)%nat by lia.
  rewrite IH; [|split; [apply Z.div_pos; lia|apply Z.div_lt_upper_bound; lia]|done|nia].
  cbn [StringToInt_loop]. rewrite rd_nat.
  rewrite (lookup_app_r p), (lookup_app_r (dec k _)) by (rewrite ?length_dec; lia).
  rewrite length_dec. replace (length p + k - length p - k)%nat with 0%nat by lia.
  cbn [lookup list_lookup mbind option_bind]. rewrite digit_of_char by lia.
  destruct (Z.ltb_spec 9 (n mod 10)); [lia|].
  rewrite s32_small by nia. f_equal; [lia|]. nia.
Qed.

(** ** Properties *)

(** What [IntToString] leaves in its buffer. *)
Lemma IntToString_spec ret n :
  -2147483648 < n < 2147483648 -> length ret = 24%nat ->
  exists k, (1 <= k <= 10)%nat /\ has_digits k (Z.abs n) /\
    IntToString ret n =
      Some ((if n <? 0 then [45] else []) ++ dec k (Z.abs n) ++
            0 :: drop (S ((if n <? 0 then 1 else 0) + k)) ret).
Proof.
  intros Hn Hl. unfold IntToString.
  assert (forall num a, 0 <= a < 2147483648 ->
    exists k, (1 <= k <= 10)%nat /\ has_digits k a /\
      count_chars INT_DIGITS num a = Some (num + Z.of_nat k)) as Hcount.
  { intros num a Ha. destruct (count_chars_spec INT_DIGITS num a) as (k & Hk & Hd & Hc).
    - change (10 ^ Z.of_nat INT_DIGITS) with 10000000000. lia.
    - unfold INT_DIGITS. lia.
    - exists k. unfold INT_DIGITS in Hk. destruct Hd as (? & ? & ?). split_and!; try done; lia. }
  destruct (Z.ltb_spec n 0) as [Hneg|Hpos].
  - rewrite s32_small by lia. destruct (Hcount 1 (- n) ltac:(lia)) as (k & Hk & Hd & ->).
    exists k. replace (Z.abs n) with (- n) by lia. split; [done|]. split; [done|].
    cbn [mbind option_bind]. rewrite wr_Some by lia. cbn [mbind option_bind].
    rewrite wr_Some by (rewrite length_insert; lia). cbn [mbind option_bind].
    replace (1 + Z.of_nat k - 1) with (Z.of_nat 1 + Z.of_nat k - 1) by lia.
    rewrite put_digits_spec; [|done|unfold INT_DIGITS; lia|rewrite !length_insert; lia].
    f_equal. unfold splice. rewrite length_dec.
    replace (Z.to_nat (1 + Z.of_nat k)) with (S k) by lia.
    destruct ret as [|x ret]; [done|]. simpl in Hl. change (Z.to_nat 0) with 0%nat.
    change (<[S k := 0]> (x :: ret)) with (x :: <[k := 0]> ret).
    change (<[0%nat := 45]> (x :: <[k := 0]> ret)) with (45 :: <[k := 0]> ret).
    cbn [take drop Nat.add]. rewrite take_0. cbn [app]. do 2 f_equal.
    rewrite (drop_S _ 0 k) by (apply list_lookup_insert_eq; lia).
    by rewrite drop_insert_lt by lia.
  - destruct (Hcount 0 n ltac:(lia)) as (k & Hk & Hd & ->).
    exists k. replace (Z.abs n) with n by lia. split; [done|]. split; [done|].
    cbn [mbind option_bind]. rewrite wr_Some by lia. cbn [mbind option_bind].
    replace (0 + Z.of_nat k - 1) with (Z.of_nat 0 + Z.of_nat k - 1) by lia.
    rewrite put_digits_spec; [|done|unfold INT_DIGITS; lia|rewrite !length_insert; lia].
    f_equal. unfold splice. rewrite length_dec, take_0.
    replace (Z.to_nat (0 + Z.of_nat k)) with k by lia. cbn [app Nat.add]. f_equal.
    rewrite (drop_S _ 0 k) by (apply list_lookup_insert_eq; lia).
    by rewrite drop_insert_lt by lia.
Qed.

Lemma StringToInt_stop fuel p c q r :
  9 < digit_of c -> StringToInt_loop (S fuel) (p ++ c :: q) (Z.of_nat (length p)) r = Some r.
Proof.
  intros Hc. cbn [StringToInt_loop]. rewrite rd_nat, list_lookup_middle by done.
  cbn [mbind option_bind]. by destruct (Z.ltb_spec 9 (digit_of c)); [|lia].
Qed.

(** A digit string behind an optional sign. *)
Lemma StringToInt_loop_digits k n p rest fuel :
  0 <= n < 2147483648 -> has_digits k n -> (k < fuel)%nat ->
  StringToInt_loop fuel (p ++ dec k n ++ 0 :: rest) (Z.of_nat (length p)) 0 = Some n.
Proof.
  intros Hn ((? & ?) & _ & _) Hf.
  replace fuel with (k + S (fuel - k - 1))%nat by lia.
  rewrite StringToInt_loop_dec by lia. rewrite Z.mul_0_l, Z.add_0_l.
  rewrite app_assoc.
  replace (length p + k)%nat with (length (p ++ dec k n)) by (by rewrite length_app, length_dec).
  by apply StringToInt_stop.
Qed.

Lemma dec_head k n :
  has_digits k n -> exists d l, dec k n = d :: l /\ 48 <= d <= 57.
Proof.
  intros (_ & Hk & _). destruct k as [|k]; [lia|]. clear Hk. revert n.
  induction k as [|k IH]; intros n.
  - exists (n mod 10 + 48), []. split; [done|]. pose proof (Z.mod_pos_bound n 10 ltac:(lia)). lia.
  - destruct (IH (n / 10)) as (d & l & Hd & Hr). exists d, (l ++ [n mod 10 + 48]).
    split; [|done]. change (dec (S (S k)) n) with (dec (S k) (n / 10) ++ [n mod 10 + 48]).
    by rewrite Hd.
Qed.

(** Printing and parsing are inverse: for every [int] but the smallest,
    [StringToInt] applied to the buffer [IntToString] filled returns the number. *)
Theorem StringToInt_IntToString (ret : list Z) (n : Z)
    (Hn : -2147483648 < n < 2147483648) (Hret : length ret = 24%nat) :
  exists buf, IntToString ret n = Some buf /\ StringToInt buf = Some n.
Proof.
  destruct (IntToString_spec ret n Hn Hret) as (k & Hk & Hd & ->).
  eexists. split; [done|]. unfold StringToInt.
  destruct (Z.ltb_spec n 0) as [Hneg|Hpos]; cbn [app].
  - change (rd (45 :: _) 0) with (Some 45). cbn [mbind option_bind Z.eqb Pos.eqb].
    pose proof (StringToInt_loop_digits k (Z.abs n) [45] (drop (S (1 + k)) ret)
      (S (length (45 :: dec k (Z.abs n) ++ 0 :: drop (S (1 + k)) ret)))) as H.
    change (Z.of_nat (length [45])) with 1 in H. cbn [app] in H. rewrite H.
    + cbn [mbind option_bind negb Z.eqb]. rewrite s32_small by lia. f_equal. lia.
    + lia.
    + done.
    + simpl. rewrite length_app, length_dec. simpl. lia.
  - destruct (dec_head k (Z.abs n) Hd) as (d & l & Hdl & Hdr).
    pose proof (StringToInt_loop_digits k (Z.abs n) [] (drop (S (0 + k)) ret)
      (S (length (dec k (Z.abs n) ++ 0 :: drop (S (0 + k)) ret)))) as H.
    change (Z.of_nat (length (@nil Z))) with 0 in H. cbn [app] in H.
    assert (rd (dec k (Z.abs n) ++ 0 :: drop (S (0 + k)) ret) 0 = Some d) as ->
      by (rewrite Hdl; done).
    cbn [mbind option_bind]. destruct (Z.eqb_spec d 45); [lia|]. destruct (Z.eqb_spec d 43); [lia|].
    rewrite H.
    + cbn [mbind option_bind negb Z.eqb]. f_equal. lia.
    + lia.
    + done.
    + rewrite length_app, length_dec. simpl. lia.
Qed.

Lemma StringToInt_IntToString_witness :
  exists buf, IntToString (replicate 24 7) (-2031) = Some buf /\ StringToInt buf = Some (-2031).
Proof. exact (StringToInt_IntToString (replicate 24 7) (-2031) ltac:(lia) eq_refl). Defined.

(** The smallest [int] is printed wrongly: its negation overflows, the
    remainders stay negative, and the buffer holds ["-./,),(-*,("]. *)
Theorem IntToString_min_int (x0 : Z) :
  IntToString (replicate 24 x0) (-2147483648) =
    Some ([45; 46; 47; 44; 41; 44; 40; 45; 42; 44; 40; 0] ++ replicate 12 x0).
Proof. reflexivity. Qed.

(** [IntToHexString] prints the byte it is given as eight hexadecimal
    digits, the first six of them 0, and a terminator. *)
Theorem IntToHexString_correct (w : Z) (Hw : 0 <= w < 256) :
  IntToHexString w =
    Some (replicate 6 48 ++
          [digits !!! Z.to_nat (w / 16); digits !!! Z.to_nat (w mod 16); 0]).
Proof.
  assert (Forall (fun w => IntToHexString w =
    Some (replicate 6 48 ++
          [digits !!! Z.to_nat (w / 16); digits !!! Z.to_nat (w mod 16); 0]))
    (Z.of_nat <$> seq 0 256)) as Hall.
  { repeat (apply Forall_cons_2; [vm_compute; reflexivity|]). apply Forall_nil_2. }
  rewrite Forall_forall in Hall. apply Hall.
  apply list_elem_of_fmap. exists (Z.to_nat w). split; [lia|]. apply elem_of_seq. lia.
Qed.

Lemma IntToHexString_correct_witness :
  IntToHexString 0xA7 = Some [48; 48; 48; 48; 48; 48; 65; 55; 0].
Proof. exact (IntToHexString_correct 0xA7 ltac:(lia)). Defined.
