(* ===== verification/LinkedList.v ===== *)
(** * Linked lists and spinlocks (src/libz/fudge/list.c, spinlock.c, x86/atomic.s)

    Items and list headers live in two stores indexed by address; the pointer
    updates of [list_add_unsafe] and [list_remove_unsafe] are updates of the
    item store, so aliasing between [list->head], [list->tail] and an item's
    neighbours is the aliasing of the source.  [None] is the dereference of an
    invalid pointer, or an [acquire] of a lock that is held, which spins.  The
    lock itself is modelled again at the end as a step relation over any number
    of threads. *)
From S2P Require Import Prelude.

Local Open Scope Z_scope.

(** ** Data (list.h, spinlock.h) *)

Record list_item := Item { it_next : Z; it_prev : Z; it_data : Z }.
Record list_hdr := Hdr { l_lock : Z; l_head : Z; l_tail : Z; l_count : Z }.
Record store := Store { items : gmap Z list_item; lists : gmap Z list_hdr }.

Definition with_items (s : store) (its : gmap Z list_item) : store := Store its (lists s).
Definition with_hdr (s : store) (l : Z) (h : list_hdr) : store :=
  Store (items s) (<[l := h]> (lists s)).

(** [p->next = v] and [p->prev = v] *)
Definition link_next (its : gmap Z list_item) (p v : Z) : option (gmap Z list_item) :=
  i ← its !! p; Some (<[p := Item v (it_prev i) (it_data i)]> its).
Definition link_prev (its : gmap Z list_item) (p v : Z) : option (gmap Z list_item) :=
  i ← its !! p; Some (<[p := Item (it_next i) v (it_data i)]> its).

(** ** spinlock.c on the lock of a list *)

Definition set_lock (s : store) (l v : Z) : option store :=
  h ← lists s !! l; Some (with_hdr s l (Hdr v (l_head h) (l_tail h) (l_count h))).

(** [while (atomic_testandset(1, &lock))]: with nobody else running, the
    exchange returns 0 at once or 1 for ever. *)
Definition spinlock_acquire (s : store) (l : Z) : option store :=
  h ← lists s !! l;
  if l_lock h =? 0 then set_lock s l 1 else None.

Definition spinlock_release (s : store) (l : Z) : option store := set_lock s l 0.

Definition spinlock_init (s : store) (l : Z) : option store := set_lock s l 0.

(** ** list.c *)

Definition list_add_unsafe (s : store) (l item : Z) : option store :=
  h ← lists s !! l;
  its ← link_prev (items s) item (l_tail h);
  its ← link_next its item 0;
  '(its, head) ← (if negb (l_head h =? 0) then
                    its ← link_next its (l_tail h) item; Some (its, l_head h)
                  else Some (its, item));
  Some (with_hdr (with_items s its) l (Hdr (l_lock h) head item (u32 (l_count h + 1)))).

Definition list_add (s : store) (l item : Z) : option store :=
  s ← spinlock_acquire s l; s ← list_add_unsafe s l item; spinlock_release s l.

Definition list_remove_unsafe (s : store) (l item : Z) : option store :=
  h ← lists s !! l;
  i ← items s !! item;
  let head := if l_head h =? item then it_next i else l_head h in
  let tail := if l_tail h =? item then it_prev i else l_tail h in
  its ← (if negb (head =? 0) then link_prev (items s) head 0 else Some (items s));
  its ← (if negb (tail =? 0) then link_next its tail 0 else Some its);
  i ← its !! item;
  its ← (if negb (it_next i =? 0) then link_prev its (it_next i) (it_prev i) else Some its);
  i ← its !! item;
  its ← (if negb (it_prev i =? 0) then link_next its (it_prev i) (it_next i) else Some its);
  its ← link_next its item 0;
  its ← link_prev its item 0;
  Some (with_hdr (with_items s its) l (Hdr (l_lock h) head tail (u32 (l_count h - 1)))).

Definition list_remove (s : store) (l item : Z) : option store :=
  s ← spinlock_acquire s l; s ← list_remove_unsafe s l item; spinlock_release s l.

Definition list_move_unsafe (s : store) (to from item : Z) : option store :=
  s ← list_remove_unsafe s from item; list_add_unsafe s to item.

Definition list_move (s : store) (to from item : Z) : option store :=
  if to =? from then
    s ← spinlock_acquire s to;
    s ← list_move_unsafe s to from item;
    spinlock_release s to
  else
    s ← spinlock_acquire s from;
    s ← spinlock_acquire s to;
    s ← list_move_unsafe s to from item;
    s ← spinlock_release s to;
    spinlock_release s from.

Definition list_pickhead (s : store) (l : Z) : option (store * Z) :=
  s ← spinlock_acquire s l;
  h ← lists s !! l;
  let item := l_head h in
  s ← (if negb (item =? 0) then list_remove_unsafe s l item else Some s);
  s ← spinlock_release s l;
  Some (s, item).

Definition list_picktail (s : store) (l : Z) : option (store * Z) :=
  s ← spinlock_acquire s l;
  h ← lists s !! l;
  let item := l_tail h in
  s ← (if negb (item =? 0) then list_remove_unsafe s l item else Some s);
  s ← spinlock_release s l;
  Some (s, item).

Definition list_inititem (s : store) (item data : Z) : option store :=
  _ ← items s !! item; Some (with_items s (<[item := Item 0 0 data]> (items s))).

Definition list_init (s : store) (l : Z) : option store :=
  s ← spinlock_init s l;
  h ← lists s !! l;
  Some (with_hdr s l (Hdr (l_lock h) 0 0 0)).

(** ** The abstract view: a sequence of items *)

Definition first_of (xs : list Z) (d : Z) : Z := match xs with [] => d | x :: _ => x end.
Definition last_of (d : Z) (xs : list Z) : Z := default d (last xs).

(** [seg its prv xs nxt]: the items [xs] are linked in this order, entered
    from [prv] and leaving to [nxt]. *)
Fixpoint seg (its : gmap Z list_item) (prv : Z) (xs : list Z) (nxt : Z) : Prop :=
  match xs with
  | [] => True
  | x :: xs =>
      (exists i, its !! x = Some i /\ it_next i = first_of xs nxt /\ it_prev i = prv) /\
      seg its x xs nxt
  end.

Record list_repr (s : store) (l : Z) (xs : list Z) : Prop := {
  lr_hdr : exists lk, lists s !! l = Some (Hdr lk (first_of xs 0) (last_of 0 xs)
                                             (u32 (Z.of_nat (length xs))));
  lr_seg : seg (items s) 0 xs 0;
  lr_nodup : NoDup xs;
  lr_nonnull : 0 ∉ xs
}.

Definition unlocked (s : store) (l : Z) : Prop := exists h, lists s !! l = Some h /\ l_lock h = 0.

Lemma seg_ext its its' prv xs nxt :
  (forall x, x ∈ xs -> its' !! x = its !! x) -> seg its prv xs nxt -> seg its' prv xs nxt.
Proof.
  revert prv. induction xs as [|x xs IH]; intros prv He; [done|]. cbn [seg].
  intros [Hx Hs]. split.
  - rewrite He by by left. exact Hx.
  - apply IH; [|done]. intros y Hy. apply He. by right.
Qed.

Lemma last_of_cons d x xs : last_of d (x :: xs) = last_of x xs.
Proof. unfold last_of. rewrite last_cons. by destruct (last xs). Qed.

Lemma last_of_snoc d xs x : last_of d (xs ++ [x]) = x.
Proof. unfold last_of. by rewrite last_snoc. Qed.

Lemma first_of_app xs ys d : first_of (xs ++ ys) d = first_of xs (first_of ys d).
Proof. by destruct xs. Qed.

Lemma seg_app its prv xs ys nxt :
  seg its prv (xs ++ ys) nxt <->
  seg its prv xs (first_of ys nxt) /\ seg its (last_of prv xs) ys nxt.
Proof.
  revert prv. induction xs as [|x xs IH]; intros prv; [cbn; tauto|].
  rewrite last_of_cons. cbn [app seg]. rewrite IH, first_of_app. tauto.
Qed.

(** Writing one pointer of an item. *)
Lemma link_next_Some its p v i :
  its !! p = Some i -> link_next its p v = Some (<[p := Item v (it_prev i) (it_data i)]> its).
Proof. intros H. unfold link_next. by rewrite H. Qed.

Lemma link_prev_Some its p v i :
  its !! p = Some i -> link_prev its p v = Some (<[p := Item (it_next i) v (it_data i)]> its).
Proof. intros H. unfold link_prev. by rewrite H. Qed.

(** Writing the pointer an item already has changes nothing. *)
Lemma link_next_same its p i : its !! p = Some i -> link_next its p (it_next i) = Some its.
Proof. intros H. rewrite (link_next_Some _ _ _ _ H). f_equal. apply insert_id. rewrite H. by destruct i. Qed.

Lemma link_prev_same its p i : its !! p = Some i -> link_prev its p (it_prev i) = Some its.
Proof. intros H. rewrite (link_prev_Some _ _ _ _ H). f_equal. apply insert_id. rewrite H. by destruct i. Qed.

(** The last item of a segment and its first. *)
Lemma seg_snoc its prv xs x nxt :
  seg its prv (xs ++ [x]) nxt <->
  seg its prv xs x /\ exists i, its !! x = Some i /\ it_next i = nxt /\ it_prev i = last_of prv xs.
Proof. rewrite seg_app. cbn [seg first_of]. tauto. Qed.

(** What an operation on list [l] with items [xs] leaves alone. *)
Record frame (s s' : store) (l : Z) (xs : list Z) : Prop := {
  fr_items : forall x, x ∉ xs -> items s' !! x = items s !! x;
  fr_lists : forall l', l' <> l -> lists s' !! l' = lists s !! l';
  fr_lock : forall h, lists s !! l = Some h ->
    exists h', lists s' !! l = Some h' /\ l_lock h' = l_lock h;
  fr_valid : forall x, is_Some (items s !! x) -> is_Some (items s' !! x)
}.

Lemma insert_valid (its : gmap Z list_item) p i x :
  is_Some (its !! x) -> is_Some (<[p := i]> its !! x).
Proof. rewrite lookup_insert_is_Some. destruct (decide (p = x)); tauto. Qed.

#[export] Hint Resolve insert_valid : core.

Lemma list_add_unsafe_spec s l xs item i :
  list_repr s l xs -> items s !! item = Some i -> item ∉ xs -> item <> 0 ->
  exists s', list_add_unsafe s l item = Some s' /\ list_repr s' l (xs ++ [item]) /\
    frame s s' l (xs ++ [item]).
Proof.
  intros [[lk Hh] Hseg Hnd Hnn] Hi Hnin Hne. unfold list_add_unsafe. rewrite Hh.
  cbn [mbind option_bind l_tail l_head l_lock l_count].
  rewrite (link_prev_Some _ _ _ _ Hi). cbn [mbind option_bind].
  rewrite (link_next_Some _ _ _ (Item (it_next i) (last_of 0 xs) (it_data i)))
    by apply lookup_insert_eq.
  cbn [mbind option_bind it_prev it_data]. rewrite insert_insert_eq.
  set (its := <[item := _]> (items s)).
  assert (forall x, x <> item -> its !! x = items s !! x) as Hits
    by (intros; unfold its; by rewrite lookup_insert_ne).
  assert (NoDup (xs ++ [item])) as Hnd'.
  { apply NoDup_app. split_and!; [done| |apply NoDup_singleton].
    intros x Hx ->%list_elem_of_singleton. done. }
  assert (0 ∉ xs ++ [item]) as Hnn' by (rewrite elem_of_app, list_elem_of_singleton; intuition).
  assert (forall x, x ∉ xs ++ [item] -> x ∉ xs /\ x <> item) as Hout.
  { intros x Hx. rewrite elem_of_app, list_elem_of_singleton in Hx. tauto. }
  destruct xs as [|t ys _] using rev_ind.
  - cbn [first_of negb Z.eqb mbind option_bind app]. eexists. split; [done|]. split.
    + split; cbn [items lists with_hdr with_items]; [|..|done|done].
      * exists lk. by rewrite lookup_insert_eq.
      * cbn [seg]. split; [|done]. eexists. split; [apply lookup_insert_eq|]. done.
    + split; cbn [items lists with_hdr with_items].
      * intros x Hx. apply Hits. apply Hout. done.
      * intros l' Hl'. by rewrite lookup_insert_ne.
      * intros h Hh'. rewrite lookup_insert_eq. eexists. split; [done|].
        rewrite Hh in Hh'. by injection Hh' as <-.
      * intros x Hx. unfold its. auto.
  - assert (t <> 0) as Ht by (intros ->; apply Hnn; rewrite elem_of_app, list_elem_of_singleton; tauto).
    assert (t <> item) as Hti by (intros ->; apply Hnin; rewrite elem_of_app, list_elem_of_singleton; tauto).
    assert (t ∉ ys) as Hty.
    { apply NoDup_app in Hnd as (_ & Hd & _). intros Hin. apply (Hd t Hin). by apply list_elem_of_singleton. }
    apply seg_snoc in Hseg as [Hseg (j & Hj & Hjn & Hjp)].
    assert (first_of (ys ++ [t]) 0 <> 0) as Hf.
    { destruct ys as [|y ys]; [done|]. cbn [app first_of]. intros ->. apply Hnn. by left. }
    rewrite last_of_snoc. destruct (Z.eqb_spec (first_of (ys ++ [t]) 0) 0); [done|]. cbn [negb].
    rewrite (link_next_Some _ _ _ j) by (rewrite Hits; done).
    cbn [mbind option_bind]. eexists. split; [done|]. split.
    + split; cbn [items lists with_hdr with_items]; [|..|done|done].
      * exists lk. rewrite lookup_insert_eq, last_of_snoc. f_equal. f_equal.
        -- by destruct ys.
        -- rewrite u32_add_l. f_equal. rewrite !length_app. simpl. lia.
      * rewrite seg_snoc, last_of_snoc, seg_snoc. split_and!.
        -- apply (seg_ext (items s)); [|done]. intros x Hx.
           rewrite lookup_insert_ne by (intros ->; done). apply Hits.
           intros ->. apply Hnin. rewrite elem_of_app. by left.
        -- eexists. rewrite lookup_insert_eq. split; [done|]. done.
        -- eexists. rewrite lookup_insert_ne by done. unfold its. rewrite lookup_insert_eq.
           split; [done|]. cbn [it_next it_prev]. by rewrite last_of_snoc.
    + split; cbn [items lists with_hdr with_items].
      * intros x Hx%Hout. rewrite elem_of_app, list_elem_of_singleton in Hx.
        rewrite lookup_insert_ne by (intros ->; tauto). apply Hits. tauto.
      * intros l' Hl'. by rewrite lookup_insert_ne.
      * intros h Hh'. rewrite lookup_insert_eq. eexists. split; [done|].
        rewrite Hh in Hh'. by injection Hh' as <-.
      * intros x Hx. unfold its. auto.
Qed.

Lemma seg_lookup its prv xs nxt x : seg its prv xs nxt -> x ∈ xs -> is_Some (its !! x).
Proof.
  revert prv. induction xs as [|y xs IH]; intros prv; cbn [seg].
  { intros _ H. by apply not_elem_of_nil in H. }
  intros [(i & Hi & _) Hs] [->|Hx]%elem_of_cons; [by exists i|]. by apply (IH y).
Qed.

(** Removing an item from the middle of a segment: the left neighbour gets the
    right one as successor, the right neighbour the left one as predecessor. *)
Lemma seg_unlink its its' prv l1 x l2 nxt :
  NoDup (l1 ++ x :: l2) -> seg its prv (l1 ++ x :: l2) nxt ->
  (forall y i, y ∈ l1 ++ l2 -> its !! y = Some i ->
     its' !! y = Some (Item (if decide (last l1 = Some y) then first_of l2 nxt else it_next i)
                            (if decide (head l2 = Some y) then last_of prv l1 else it_prev i)
                            (it_data i))) ->
  seg its' prv (l1 ++ l2) nxt.
Proof.
  intros Hnd Hseg Hup. apply seg_app in Hseg as [Hs1 Hs2]. cbn [first_of seg] in Hs1, Hs2.
  destruct Hs2 as [_ Hs2]. apply NoDup_app in Hnd as (Hnd1 & Hd & Hnd2).
  apply NoDup_cons in Hnd2 as [_ Hnd2].
  assert (forall y, y ∈ l1 -> y ∉ l2) as Hdis by (intros y Hy Hy2; apply (Hd y Hy); by right).
  assert (forall y, y ∈ l1 ++ l2 -> last l1 <> Some y -> head l2 <> Some y ->
            is_Some (its !! y) -> its' !! y = its !! y) as Hsame.
  { intros y Hy H1 H2 [i Hi]. rewrite (Hup y i Hy Hi), Hi, !decide_False by done. by destruct i. }
  apply seg_app. split.
  - destruct l1 as [|p l1' _] using rev_ind; [done|]. apply seg_snoc in Hs1 as [Hs1 (i & Hi & Hn & Hp)].
    apply seg_snoc. apply NoDup_app in Hnd1 as (_ & Hd1 & _). split.
    + apply (seg_ext its); [|done]. intros y Hy. apply Hsame.
      * rewrite !elem_of_app. by left; left.
      * rewrite last_snoc. intros [= ->]. apply (Hd1 y Hy). by apply list_elem_of_singleton.
      * destruct l2 as [|z l2]; [done|]. intros [= ->]. apply (Hdis y); [|by left].
        rewrite elem_of_app. by left.
      * by apply (seg_lookup _ _ _ _ _ Hs1).
    + eexists. split; [apply (Hup p i); [|done]; rewrite !elem_of_app, list_elem_of_singleton; tauto|].
      cbn [it_next it_prev]. rewrite last_snoc, decide_True by done. split; [done|].
      rewrite decide_False; [done|]. destruct l2 as [|z l2]; [done|]. intros [= ->].
      apply (Hdis p); [|by left]. rewrite elem_of_app, list_elem_of_singleton. by right.
  - destruct l2 as [|z l2]; [done|]. cbn [seg] in Hs2 |- *. destruct Hs2 as [(i & Hi & Hn & Hp) Hs2].
    apply NoDup_cons in Hnd2 as [Hz _].
    assert (forall y, y ∈ z :: l2 -> last l1 <> Some y) as Hl1.
    { intros y Hy Hl. apply (Hdis y); [|done]. by apply last_Some_elem_of. }
    split.
    + eexists. split; [apply (Hup z i); [rewrite elem_of_app; right; by left|done]|].
      cbn [it_next it_prev head]. rewrite (decide_True (P := Some z = Some z)) by done.
      rewrite decide_False by (apply Hl1; by left). done.
    + apply (seg_ext its); [|done]. intros y Hy. apply Hsame.
      * rewrite elem_of_app. right. by right.
      * apply Hl1. by right.
      * intros [= ->]. done.
      * by apply (seg_lookup _ _ _ _ _ Hs2).
Qed.

(** A guarded pointer write: [if (p) p->next = v]. *)
Definition put_next (a v y : Z) (i : list_item) : list_item :=
  Item (if decide (y = a /\ a <> 0) then v else it_next i) (it_prev i) (it_data i).
Definition put_prev (a v y : Z) (i : list_item) : list_item :=
  Item (it_next i) (if decide (y = a /\ a <> 0) then v else it_prev i) (it_data i).

Lemma guarded_next its a v :
  a = 0 \/ is_Some (its !! a) ->
  exists its', (if negb (a =? 0) then link_next its a v else Some its) = Some its' /\
    forall y, its' !! y = put_next a v y <$> its !! y.
Proof.
  intros Ha. unfold put_next. destruct (Z.eqb_spec a 0) as [->|Hne]; cbn [negb].
  - exists its. split; [done|]. intros y. destruct (its !! y) as [[]|]; [|done]. cbn.
    by rewrite decide_False by tauto.
  - destruct Ha as [|[j Hj]]; [done|]. rewrite (link_next_Some _ _ _ _ Hj). eexists. split; [done|].
    intros y. destruct (decide (y = a)) as [->|Hya].
    + rewrite lookup_insert_eq, Hj. cbn. by rewrite decide_True.
    + rewrite lookup_insert_ne by done. destruct (its !! y) as [[]|]; [|done]. cbn.
      by rewrite decide_False by tauto.
Qed.

Lemma guarded_prev its a v :
  a = 0 \/ is_Some (its !! a) ->
  exists its', (if negb (a =? 0) then link_prev its a v else Some its) = Some its' /\
    forall y, its' !! y = put_prev a v y <$> its !! y.
Proof.
  intros Ha. unfold put_prev. destruct (Z.eqb_spec a 0) as [->|Hne]; cbn [negb].
  - exists its. split; [done|]. intros y. destruct (its !! y) as [[]|]; [|done]. cbn.
    by rewrite decide_False by tauto.
  - destruct Ha as [|[j Hj]]; [done|]. rewrite (link_prev_Some _ _ _ _ Hj). eexists. split; [done|].
    intros y. destruct (decide (y = a)) as [->|Hya].
    + rewrite lookup_insert_eq, Hj. cbn. by rewrite decide_True.
    + rewrite lookup_insert_ne by done. destruct (its !! y) as [[]|]; [|done]. cbn.
      by rewrite decide_False by tauto.
Qed.

(** First and last items are items of the list, or 0. *)
Lemma first_of_case xs : (xs = [] /\ first_of xs 0 = 0) \/ first_of xs 0 ∈ xs.
Proof. destruct xs; [by left|right; by left]. Qed.

Lemma last_of_case xs : (xs = [] /\ last_of 0 xs = 0) \/ last_of 0 xs ∈ xs.
Proof.
  destruct xs as [|x xs _] using rev_ind; [by left|]. right. rewrite last_of_snoc, elem_of_app.
  right. by apply list_elem_of_singleton.
Qed.

Lemma head_first y xs : 0 ∉ xs -> (head xs = Some y <-> y = first_of xs 0 /\ first_of xs 0 <> 0).
Proof.
  intros H0. destruct xs as [|x xs]; cbn; [naive_solver|]. split; [|naive_solver].
  intros [= ->]. split; [done|]. intros ->. apply H0. by left.
Qed.

Lemma last_last y xs : 0 ∉ xs -> (last xs = Some y <-> y = last_of 0 xs /\ last_of 0 xs <> 0).
Proof.
  intros H0. destruct xs as [|x xs _] using rev_ind; [cbn; naive_solver|].
  rewrite last_snoc, last_of_snoc. split; [|naive_solver].
  intros [= ->]. split; [done|]. intros ->. apply H0. rewrite elem_of_app, list_elem_of_singleton. tauto.
Qed.

(** The links at the two ends of a whole list. *)
Lemma seg_first its xs i : seg its 0 xs 0 -> its !! first_of xs 0 = Some i -> xs <> [] -> it_prev i = 0.
Proof. destruct xs as [|x xs]; [done|]. cbn. intros [(j & Hj & _ & Hp) _] Hi _. congruence. Qed.

Lemma seg_last its prv xs i : seg its prv xs 0 -> its !! last_of 0 xs = Some i -> xs <> [] -> it_next i = 0.
Proof.
  destruct xs as [|x xs _] using rev_ind; [done|]. rewrite last_of_snoc. intros [_ (j & Hj & Hn & _)]%seg_snoc Hi _.
  congruence.
Qed.

(** The neighbours an item of a list has, and the ends the list gets when the
    item leaves. *)
Lemma unlink_ends its l1 x l2 :
  NoDup (l1 ++ x :: l2) -> seg its 0 (l1 ++ x :: l2) 0 -> 0 ∉ l1 ++ x :: l2 ->
  (exists i, its !! x = Some i /\ it_next i = first_of l2 0 /\ it_prev i = last_of 0 l1) /\
  (if first_of (l1 ++ x :: l2) 0 =? x then first_of l2 0 else first_of (l1 ++ x :: l2) 0)
    = first_of (l1 ++ l2) 0 /\
  (if last_of 0 (l1 ++ x :: l2) =? x then last_of 0 l1 else last_of 0 (l1 ++ x :: l2))
    = last_of 0 (l1 ++ l2).
Proof.
  intros Hnd Hseg H0. apply seg_app in Hseg as [_ [(i & Hi & Hn & Hp) _]].
  apply NoDup_app in Hnd as (_ & Hd & Hnd2). split; [by exists i|]. split.
  - destruct l1 as [|y l1]; cbn [app first_of]; [by rewrite Z.eqb_refl|].
    destruct (Z.eqb_spec y x) as [->|]; [|done]. exfalso. apply (Hd x); [by left|by left].
  - destruct l2 as [|z l2 _] using rev_ind.
    + rewrite last_of_snoc, Z.eqb_refl, app_nil_r. done.
    + rewrite app_comm_cons, !app_assoc, !last_of_snoc.
      destruct (Z.eqb_spec z x) as [->|]; [|done]. exfalso. apply NoDup_cons in Hnd2 as [Hx _].
      apply Hx. rewrite elem_of_app, list_elem_of_singleton. by right.
Qed.

(** The four guarded writes of a removal, applied to the item at [y]. *)
Definition relink (hd tl n p y : Z) (i : list_item) : list_item :=
  put_next p n y (put_prev n p y (put_next tl 0 y (put_prev hd 0 y i))).

Lemma relink_id hd tl n p y i :
  Forall (fun a => ~ (y = a /\ a <> 0)) [hd; tl; n; p] -> relink hd tl n p y i = i.
Proof.
  intros H. rewrite !Forall_cons in H. destruct H as (H1 & H2 & H3 & H4 & _). unfold relink, put_next, put_prev. cbn.
  rewrite !decide_False by done. by destruct i.
Qed.

Section Removal.
Context (s : store) (l lk : Z) (l1 : list Z) (x : Z) (l2 : list Z).
Local Notation xs := (l1 ++ x :: l2).
Context (Hh : lists s !! l = Some (Hdr lk (first_of xs 0) (last_of 0 xs) (u32 (Z.of_nat (length xs))))).
Context (Hseg : seg (items s) 0 xs 0) (Hnd : NoDup xs) (Hnn : 0 ∉ xs).
Local Notation hd := (first_of (l1 ++ l2) 0).
Local Notation tl := (last_of 0 (l1 ++ l2)).
Local Notation n := (first_of l2 0).
Local Notation p := (last_of 0 l1).

Lemma rest_members y : y ∈ l1 ++ l2 -> y ∈ xs /\ y <> x /\ y <> 0.
Proof.
  intros Hy. assert (y ∈ xs) as Hy' by (rewrite elem_of_app in *; rewrite elem_of_cons; tauto).
  split; [done|]. split; [|intros ->; done]. intros ->. rewrite <- Permutation_middle in Hnd.
  by apply NoDup_cons in Hnd as [Hx _].
Qed.

(** The items written to are null or in the rest of the list. *)
Lemma ends_members : Forall (fun a => a = 0 \/ a ∈ l1 ++ l2) [hd; tl; n; p].
Proof.
  repeat (apply Forall_cons; split); [..|by apply Forall_nil].
  - destruct (first_of_case (l1 ++ l2)) as [[_ ?]|?]; auto.
  - destruct (last_of_case (l1 ++ l2)) as [[_ ?]|?]; auto.
  - destruct (first_of_case l2) as [[_ ?]|?]; [auto|]. right. rewrite elem_of_app. by right.
  - destruct (last_of_case l1) as [[_ ?]|?]; [auto|]. right. rewrite elem_of_app. by left.
Qed.

Lemma not_ends y : y ∉ l1 ++ l2 -> Forall (fun a => ~ (y = a /\ a <> 0)) [hd; tl; n; p].
Proof. intros Hy. eapply Forall_impl; [apply ends_members|]. intros a [->|Ha] [-> ?]; done. Qed.

Lemma removed_out : x ∉ l1 ++ l2.
Proof. intros Hx. by apply rest_members in Hx as (_ & ? & _). Qed.

(** What the statements of the function do. *)
Lemma list_remove_unsafe_exec :
  exists i its, items s !! x = Some i /\
    list_remove_unsafe s l x =
      Some (with_hdr (with_items s (<[x := Item 0 0 (it_data i)]> its)) l
              (Hdr lk hd tl (u32 (u32 (Z.of_nat (length xs)) - 1)))) /\
    forall y, its !! y = relink hd tl n p y <$> items s !! y.
Proof.
  destruct (unlink_ends _ _ _ _ Hnd Hseg Hnn) as ((i & Hi & Hin & Hip) & Hhead & Htail).
  assert (forall a (f : Z -> list_item -> list_item), a = 0 \/ a ∈ l1 ++ l2 -> a = 0 \/ is_Some (f a <$> items s !! a)) as Hv.
  { intros a f [->|Ha]; [auto|]. right. apply fmap_is_Some, (seg_lookup _ _ _ _ _ Hseg). by apply rest_members. }
  pose proof ends_members as He. rewrite !Forall_cons in He. destruct He as (Hhd & Htl & Hn & Hp & _).
  pose proof (not_ends x removed_out) as Hx. rewrite !Forall_cons in Hx. destruct Hx as (X1 & X2 & X3 & X4 & _).
  unfold list_remove_unsafe. rewrite Hh. cbn [mbind option_bind l_head l_tail l_lock l_count].
  rewrite Hi. cbn [mbind option_bind]. rewrite Hin, Hip, Hhead, Htail.
  destruct (guarded_prev (items s) hd 0) as (its1 & -> & H1).
  { destruct (Hv hd (fun _ i => i) Hhd) as [?|[j Hj]]; [auto|]. right. destruct (items s !! hd); done. }
  cbn [mbind option_bind]. destruct (guarded_next its1 tl 0) as (its2 & -> & H2); [rewrite H1; by apply Hv|].
  cbn [mbind option_bind]. assert (its2 !! x = Some i) as ->.
  { rewrite H2, H1, Hi. cbn. unfold put_next, put_prev. rewrite !decide_False by done. by destruct i. }
  cbn [mbind option_bind]. rewrite Hin, Hip.
  destruct (guarded_prev its2 n p) as (its3 & -> & H3).
  { rewrite H2, H1, <- option_fmap_compose. by apply (Hv n (fun y => put_next tl 0 y ∘ put_prev hd 0 y)). }
  cbn [mbind option_bind]. assert (its3 !! x = Some i) as ->.
  { rewrite H3, H2, H1, Hi. cbn. unfold put_next, put_prev. rewrite !decide_False by done. by destruct i. }
  cbn [mbind option_bind]. rewrite Hin, Hip.
  destruct (guarded_next its3 p n) as (its4 & -> & H4).
  { rewrite H3, H2, H1, <- !option_fmap_compose.
    by apply (Hv p (fun y => put_prev n p y ∘ (put_next tl 0 y ∘ put_prev hd 0 y))). }
  assert (forall y, its4 !! y = relink hd tl n p y <$> items s !! y) as Hits.
  { intros y. rewrite H4, H3, H2, H1. by destruct (items s !! y). }
  cbn [mbind option_bind]. rewrite (link_next_Some _ _ _ i).
  2:{ rewrite Hits, Hi. cbn. by rewrite relink_id by apply not_ends, removed_out. }
  cbn [mbind option_bind]. rewrite (link_prev_Some _ _ _ (Item 0 (it_prev i) (it_data i))) by apply lookup_insert_eq.
  cbn [mbind option_bind it_next it_data]. rewrite insert_insert_eq. by exists i, its4.
Qed.

(** The links of the items that stay, as [seg_unlink] needs them. *)
Lemma relink_links y j :
  y ∈ l1 ++ l2 -> items s !! y = Some j ->
  relink hd tl n p y j =
    Item (if decide (last l1 = Some y) then n else it_next j) (if decide (head l2 = Some y) then p else it_prev j) (it_data j).
Proof.
  intros Hy Hj. destruct (unlink_ends _ _ _ _ Hnd Hseg Hnn) as (_ & Hhead & Htail).
  assert (0 ∉ l1 /\ 0 ∉ l2) as [H01 H02] by (rewrite elem_of_app, elem_of_cons in Hnn; tauto).
  unfold relink, put_next, put_prev. cbn. f_equal.
  - destruct (decide (last l1 = Some y)) as [Hl|Hl]; rewrite (last_last y l1 H01) in Hl; [by rewrite decide_True|].
    rewrite decide_False by done. case_decide as Ht; [|done]. destruct Ht as [-> Ht].
    symmetry. apply (seg_last _ _ _ _ Hseg); [|by destruct l1].
    destruct (Z.eqb_spec (last_of 0 xs) x) as [He|He]; [|by rewrite Htail]. exfalso. apply Hl. by rewrite Htail.
  - destruct (decide (head l2 = Some y)) as [Hl|Hl]; rewrite (head_first y l2 H02) in Hl; [by rewrite decide_True|].
    rewrite decide_False by done. case_decide as Ht; [|done]. destruct Ht as [-> Ht].
    symmetry. apply (seg_first _ _ _ Hseg); [|by destruct l1].
    destruct (Z.eqb_spec (first_of xs 0) x) as [He|He]; [|by rewrite Hhead]. exfalso. apply Hl. by rewrite Hhead.
Qed.
End Removal.

Lemma list_remove_unsafe_spec s l l1 x l2 :
  list_repr s l (l1 ++ x :: l2) ->
  exists s', list_remove_unsafe s l x = Some s' /\ list_repr s' l (l1 ++ l2) /\
    frame s s' l (l1 ++ x :: l2).
Proof.
  intros [[lk Hh] Hseg Hnd Hnn].
  destruct (list_remove_unsafe_exec s l lk l1 x l2) as (i & its & Hi & -> & Hits); [done..|].
  eexists. split; [done|]. split; [split|split]; cbn [items lists with_hdr with_items].
  - exists lk. rewrite lookup_insert_eq. do 2 f_equal. rewrite u32_sub_l. f_equal. rewrite !length_app. simpl. lia.
  - apply (seg_unlink (items s) _ _ _ x); [done|done|]. intros y j Hy Hj.
    destruct (rest_members l1 x l2 Hnd Hnn y Hy) as (_ & Hyx & _). rewrite lookup_insert_ne, Hits, Hj by done. cbn.
    f_equal. eapply relink_links with (x := x); eassumption.
  - apply NoDup_app in Hnd as (? & Hd & ?%NoDup_cons). apply NoDup_app. split_and!; [done| |tauto].
    intros y Hy Hy2. apply (Hd y Hy). by right.
  - intros H0. by apply (rest_members l1 x l2 Hnd Hnn) in H0 as (? & _).
  - intros y Hy. rewrite lookup_insert_ne by (intros ->; apply Hy; rewrite elem_of_app; right; by left).
    rewrite Hits. destruct (items s !! y) as [j|]; [|done]. cbn. rewrite relink_id; [done|].
    eapply not_ends; [eassumption..|]. intros Hy'. apply Hy. by apply (rest_members l1 x l2 Hnd Hnn).
  - intros l' Hl'. by rewrite lookup_insert_ne.
  - intros h Hh'. rewrite lookup_insert_eq. eexists. split; [done|]. rewrite Hh in Hh'. by injection Hh' as <-.
  - intros y Hy. apply insert_valid. rewrite Hits. by apply fmap_is_Some.
Qed.

(** ** Operations under the lock *)

(** Two stores that differ at most in the lock of [l]. *)
Record same_but_lock (s s' : store) (l v : Z) : Prop := {
  sb_items : items s' = items s;
  sb_other : forall l', l' <> l -> lists s' !! l' = lists s !! l';
  sb_hdr : exists h, lists s !! l = Some h /\
    lists s' !! l = Some (Hdr v (l_head h) (l_tail h) (l_count h))
}.

Lemma set_lock_spec s l v :
  is_Some (lists s !! l) -> exists s', set_lock s l v = Some s' /\ same_but_lock s s' l v.
Proof.
  intros [h Hh]. unfold set_lock. rewrite Hh. cbn [mbind option_bind]. eexists. split; [done|].
  split; cbn [items lists with_hdr]; [done| |].
  - intros l' Hl'. by rewrite lookup_insert_ne.
  - exists h. by rewrite lookup_insert_eq.
Qed.

Lemma same_but_lock_repr s s' l v l' xs :
  same_but_lock s s' l v -> list_repr s l' xs -> list_repr s' l' xs.
Proof.
  intros [Hi Ho (h & Hh & Hh')] [[lk Hl] Hs Hn H0]. split; try done; [|by rewrite Hi].
  destruct (decide (l' = l)) as [->|Hne].
  - exists v. rewrite Hh'. rewrite Hl in Hh. by injection Hh as <-.
  - exists lk. by rewrite Ho.
Qed.

Lemma repr_hdr s l xs : list_repr s l xs -> is_Some (lists s !! l).
Proof. intros [[lk Hl] _ _ _]. by eexists. Qed.

Lemma same_but_lock_unlocked s s' l : same_but_lock s s' l 0 -> unlocked s' l.
Proof. intros [_ _ (h & _ & Hh)]. eexists. split; [exact Hh|done]. Qed.

Lemma acquire_spec s l :
  unlocked s l -> exists s', spinlock_acquire s l = Some s' /\ same_but_lock s s' l 1.
Proof.
  intros (h & Hh & H0). unfold spinlock_acquire. rewrite Hh. cbn [mbind option_bind].
  rewrite H0, Z.eqb_refl. apply set_lock_spec. by exists h.
Qed.

(** A header that exists survives an operation and its lock is not touched. *)
Lemma frame_hdr s s' l l' xs :
  frame s s' l xs -> is_Some (lists s !! l') -> is_Some (lists s' !! l').
Proof.
  intros Hf [h Hh]. destruct (decide (l' = l)) as [->|Hne].
  - destruct (fr_lock _ _ _ _ Hf h Hh) as (h' & Hh' & _). by exists h'.
  - rewrite (fr_lists _ _ _ _ Hf l' Hne). by exists h.
Qed.

(** Acquire, operate, release: the contract of every locking operation.  [post]
    is what the unlocked operation establishes. *)
Lemma with_lock_spec (op : store -> option store) s l xs xs' fp :
  unlocked s l -> list_repr s l xs ->
  (forall s1, items s1 = items s -> list_repr s1 l xs ->
     exists s2, op s1 = Some s2 /\ list_repr s2 l xs' /\ frame s1 s2 l fp) ->
  exists s', (s1 ← spinlock_acquire s l; s2 ← op s1; spinlock_release s2 l) = Some s' /\
    list_repr s' l xs' /\ unlocked s' l /\
    (forall x, x ∉ fp -> items s' !! x = items s !! x) /\
    (forall l', l' <> l -> lists s' !! l' = lists s !! l').
Proof.
  intros Hu Hr Hop. destruct (acquire_spec s l Hu) as (s1 & -> & H1). cbn [mbind option_bind].
  destruct (Hop s1 (sb_items _ _ _ _ H1) (same_but_lock_repr _ _ _ _ _ _ H1 Hr))
    as (s2 & -> & Hr2 & Hf). cbn [mbind option_bind].
  destruct (set_lock_spec s2 l 0 (repr_hdr _ _ _ Hr2)) as (s3 & Hs3 & H3).
  exists s3. split_and!.
  - exact Hs3.
  - by apply (same_but_lock_repr _ _ _ _ _ _ H3).
  - by apply (same_but_lock_unlocked s2).
  - intros x Hx. rewrite (sb_items _ _ _ _ H3), (fr_items _ _ _ _ Hf) by done.
    by rewrite (sb_items _ _ _ _ H1).
  - intros l' Hl'. rewrite (sb_other _ _ _ _ H3), (fr_lists _ _ _ _ Hf) by done.
    by rewrite (sb_other _ _ _ _ H1).
Qed.

(** ** Properties *)

(** [list_add] appends: on an unlocked list holding [xs], adding an item
    that is not in it yields the list [xs] followed by the item, well linked in
    both directions and with the right count; the lock is free again and no
    item outside the list and no other list header changes. *)
Theorem list_add_appends (s : store) (l item : Z) (xs : list Z) (i : list_item)
    (Hunlocked : unlocked s l) (Hlist : list_repr s l xs)
    (Hitem : items s !! item = Some i) (Hnew : item ∉ xs) (Hnonnull : item <> 0) :
  exists s', list_add s l item = Some s' /\ list_repr s' l (xs ++ [item]) /\ unlocked s' l /\
    (forall x, x ∉ xs ++ [item] -> items s' !! x = items s !! x) /\
    (forall l', l' <> l -> lists s' !! l' = lists s !! l').
Proof.
  apply (with_lock_spec (fun s => list_add_unsafe s l item) s l xs); [done..|].
  intros s1 Hi Hr. apply (list_add_unsafe_spec s1 l xs item i); try done. by rewrite Hi.
Qed.

(** Two lists: 1000 with items 10, 20, 30 and the empty list 2000. *)
Definition sample_lists : store :=
  Store {[10 := Item 20 0 7; 20 := Item 30 10 8; 30 := Item 0 20 9; 40 := Item 0 0 5]}
        {[1000 := Hdr 0 10 30 3; 2000 := Hdr 0 0 0 0]}.

Lemma sample_list_repr : list_repr sample_lists 1000 [10; 20; 30].
Proof.
  split.
  - exists 0. reflexivity.
  - cbn. split_and!; [eexists; split; [reflexivity|done]..|done].
  - repeat constructor; set_solver by lia.
  - set_solver by lia.
Qed.

Lemma sample_list_unlocked : unlocked sample_lists 1000.
Proof. exists (Hdr 0 10 30 3). split; reflexivity. Qed.

Lemma list_add_appends_witness :
  exists s', list_add sample_lists 1000 40 = Some s' /\ list_repr s' 1000 [10; 20; 30; 40].
Proof.
  destruct (list_add_appends sample_lists 1000 40 [10; 20; 30] (Item 0 0 5)
              sample_list_unlocked sample_list_repr eq_refl ltac:(set_solver by lia) ltac:(lia))
    as (s' & Ha & Hr & _).
  exists s'. split; [exact Ha|exact Hr].
Defined.

(** [list_remove] unlinks exactly the given item wherever it is in the
    list (first, middle, last or only): the others keep their order. *)
Theorem list_remove_unlinks (s : store) (l item : Z) (l1 l2 : list Z)
    (Hunlocked : unlocked s l) (Hlist : list_repr s l (l1 ++ item :: l2)) :
  exists s', list_remove s l item = Some s' /\ list_repr s' l (l1 ++ l2) /\ unlocked s' l /\
    (forall x, x ∉ l1 ++ item :: l2 -> items s' !! x = items s !! x) /\
    (forall l', l' <> l -> lists s' !! l' = lists s !! l').
Proof.
  apply (with_lock_spec (fun s => list_remove_unsafe s l item) s l (l1 ++ item :: l2)); [done..|].
  intros s1 _ Hr. by apply list_remove_unsafe_spec.
Qed.

Lemma list_remove_unlinks_witness :
  exists s', list_remove sample_lists 1000 20 = Some s' /\ list_repr s' 1000 [10; 30].
Proof.
  destruct (list_remove_unlinks sample_lists 1000 20 [10] [30] sample_list_unlocked sample_list_repr)
    as (s' & Ha & Hr & _).
  exists s'. split; [exact Ha|exact Hr].
Defined.

(** Taking one end of the list: the common part of the two pick functions. *)
Lemma pick_spec s l l1 x l2 :
  unlocked s l -> list_repr s l (l1 ++ x :: l2) ->
  exists s1 s2 s', spinlock_acquire s l = Some s1 /\ list_repr s1 l (l1 ++ x :: l2) /\
    list_remove_unsafe s1 l x = Some s2 /\ spinlock_release s2 l = Some s' /\
    list_repr s' l (l1 ++ l2) /\ unlocked s' l.
Proof.
  intros Hu Hr. destruct (acquire_spec s l Hu) as (s1 & Hacq & H1).
  pose proof (same_but_lock_repr _ _ _ _ _ _ H1 Hr) as Hr1.
  destruct (list_remove_unsafe_spec s1 l l1 x l2 Hr1) as (s2 & Hrem & Hr2 & _).
  destruct (set_lock_spec s2 l 0 (repr_hdr _ _ _ Hr2)) as (s3 & Hs3 & H3).
  exists s1, s2, s3. split_and!; try done.
  - by apply (same_but_lock_repr _ _ _ _ _ _ H3).
  - by apply (same_but_lock_unlocked s2).
Qed.

Lemma pick_empty s l :
  unlocked s l -> list_repr s l [] ->
  exists s', list_pickhead s l = Some (s', 0) /\ list_picktail s l = Some (s', 0) /\
    list_repr s' l [] /\ unlocked s' l.
Proof.
  intros Hu Hr. destruct (acquire_spec s l Hu) as (s1 & Hacq & H1).
  pose proof (same_but_lock_repr _ _ _ _ _ _ H1 Hr) as Hr1. pose proof Hr1 as [[lk Hl] _ _ _].
  destruct (set_lock_spec s1 l 0) as (s2 & Hs2 & H2); [by eexists|].
  exists s2. unfold list_pickhead, list_picktail, spinlock_release. rewrite Hacq.
  cbn [mbind option_bind]. rewrite Hl. cbn [mbind option_bind l_head l_tail first_of].
  change (last_of 0 []) with 0. cbn [negb Z.eqb mbind option_bind]. rewrite Hs2. split_and!; try done.
  - by apply (same_but_lock_repr _ _ _ _ _ _ H2).
  - by apply (same_but_lock_unlocked s1).
Qed.

(** The list is a deque: [list_pickhead] removes and returns the first item,
    [list_picktail] the last one, and both return [NULL] exactly on the empty
    list. *)
Theorem list_pick_ends (s : store) (l : Z) (xs : list Z)
    (Hunlocked : unlocked s l) (Hlist : list_repr s l xs) :
  (exists s', list_pickhead s l = Some (s', first_of xs 0) /\
     list_repr s' l (tail xs) /\ unlocked s' l) /\
  (exists s', list_picktail s l = Some (s', last_of 0 xs) /\
     list_repr s' l (removelast xs) /\ unlocked s' l).
Proof.
  split.
  - destruct xs as [|x xs].
    { destruct (pick_empty s l Hunlocked Hlist) as (s' & Hp & _ & Hr & Hu'). by exists s'. }
    destruct (pick_spec s l [] x xs Hunlocked Hlist) as (s1 & s2 & s' & Ha & Hr1 & Hrem & Hrel & Hr & Hu).
    exists s'. split_and!; try done. unfold list_pickhead. rewrite Ha. cbn [mbind option_bind].
    pose proof Hr1 as [[lk Hl] _ _ Hnn]. rewrite Hl. cbn [mbind option_bind l_head first_of app].
    destruct (Z.eqb_spec x 0) as [->|]; [exfalso; apply Hnn; by left|]. cbn [negb].
    rewrite Hrem. cbn [mbind option_bind]. by rewrite Hrel.
  - destruct xs as [|x xs _] using rev_ind.
    { destruct (pick_empty s l Hunlocked Hlist) as (s' & _ & Hp & Hr & Hu'). by exists s'. }
    destruct (pick_spec s l xs x [] Hunlocked Hlist) as (s1 & s2 & s' & Ha & Hr1 & Hrem & Hrel & Hr & Hu).
    exists s'. rewrite last_of_snoc, removelast_last. rewrite app_nil_r in Hr. split_and!; try done.
    unfold list_picktail. rewrite Ha. cbn [mbind option_bind].
    pose proof Hr1 as [[lk Hl] _ _ Hnn]. rewrite Hl. cbn [mbind option_bind l_tail].
    rewrite last_of_snoc. destruct (Z.eqb_spec x 0) as [->|].
    { exfalso. apply Hnn. rewrite elem_of_app, list_elem_of_singleton. by right. }
    cbn [negb]. rewrite Hrem. cbn [mbind option_bind]. by rewrite Hrel.
Qed.

Lemma list_pick_ends_witness :
  exists s', list_picktail sample_lists 1000 = Some (s', 30) /\ list_repr s' 1000 [10; 20].
Proof.
  destruct (list_pick_ends sample_lists 1000 [10; 20; 30] sample_list_unlocked sample_list_repr)
    as [_ (s' & Hp & Hr & _)].
  exists s'. split; [exact Hp|exact Hr].
Defined.

(** An operation on one list does not disturb a list of other items. *)
Lemma frame_repr s s' l l' xs ys :
  frame s s' l xs -> l' <> l -> (forall y, y ∈ ys -> y ∉ xs) ->
  list_repr s l' ys -> list_repr s' l' ys.
Proof.
  intros Hf Hne Hdis [[lk Hl] Hs Hn H0]. split; try done.
  - exists lk. by rewrite (fr_lists _ _ _ _ Hf).
  - apply (seg_ext (items s)); [|done]. intros y Hy. apply (fr_items _ _ _ _ Hf). by apply Hdis.
Qed.

(** [list_move] transfers an item between two lists: it leaves the source
    list and becomes the last item of the destination, both lists stay well
    formed, and both locks are free again. *)
Theorem list_move_transfers (s : store) (to from item : Z) (l1 l2 ys : list Z)
    (Hne : to <> from) (Hut : unlocked s to) (Huf : unlocked s from)
    (Hfrom : list_repr s from (l1 ++ item :: l2)) (Hto : list_repr s to ys)
    (Hdis : forall y, y ∈ ys -> y ∉ l1 ++ item :: l2) :
  exists s', list_move s to from item = Some s' /\
    list_repr s' from (l1 ++ l2) /\ list_repr s' to (ys ++ [item]) /\
    unlocked s' to /\ unlocked s' from.
Proof.
  assert (item ∈ l1 ++ item :: l2) as Hin by (rewrite elem_of_app; right; by left).
  unfold list_move. destruct (Z.eqb_spec to from); [done|].
  destruct (acquire_spec s from Huf) as (s1 & -> & H1). cbn [mbind option_bind].
  assert (unlocked s1 to) as Hut1.
  { destruct Hut as (h & Hh & H0). exists h. by rewrite (sb_other _ _ _ _ H1). }
  destruct (acquire_spec s1 to Hut1) as (s2 & -> & H2). cbn [mbind option_bind].
  assert (forall l xs, list_repr s l xs -> list_repr s2 l xs) as Hkeep.
  { intros l xs Hr. apply (same_but_lock_repr _ _ _ _ _ _ H2).
    by apply (same_but_lock_repr _ _ _ _ _ _ H1). }
  apply Hkeep in Hfrom, Hto. unfold list_move_unsafe.
  destruct (list_remove_unsafe_spec s2 from l1 item l2 Hfrom) as (s3 & -> & Hfrom3 & Hf3).
  cbn [mbind option_bind].
  assert (list_repr s3 to ys) as Hto3 by (by apply (frame_repr s2 s3 from to _ ys Hf3)).
  destruct (fr_valid _ _ _ _ Hf3 item) as [i Hi].
  { by apply (seg_lookup _ _ _ _ _ (lr_seg _ _ _ Hfrom)). }
  assert (item ∉ ys) as Hnin by (intros Hy; by apply (Hdis item Hy)).
  assert (item ∉ l1 ++ l2 /\ item <> 0) as [Hnin12 Hnz].
  { destruct Hfrom as [_ _ Hnd Hnn]. rewrite <- Permutation_middle in Hnd.
    apply NoDup_cons in Hnd as [? _]. split; [done|]. intros ->. done. }
  destruct (list_add_unsafe_spec s3 to ys item i Hto3 Hi Hnin Hnz) as (s4 & -> & Hto4 & Hf4).
  cbn [mbind option_bind].
  assert (list_repr s4 from (l1 ++ l2)) as Hfrom4.
  { apply (frame_repr s3 s4 to from (ys ++ [item]) (l1 ++ l2) Hf4); [done| |done]. intros y Hy.
    rewrite elem_of_app, list_elem_of_singleton. intros [Hy'| ->]; [|done].
    apply (Hdis y Hy'). rewrite elem_of_app, elem_of_cons in *. tauto. }
  unfold spinlock_release.
  destruct (set_lock_spec s4 to 0 (repr_hdr _ _ _ Hto4)) as (s5 & -> & H5). cbn [mbind option_bind].
  destruct (set_lock_spec s5 from 0) as (s6 & -> & H6).
  { by apply (repr_hdr _ _ (l1 ++ l2)), (same_but_lock_repr _ _ _ _ _ _ H5). }
  exists s6. split_and!; try done.
  - by apply (same_but_lock_repr _ _ _ _ _ _ H6), (same_but_lock_repr _ _ _ _ _ _ H5).
  - by apply (same_but_lock_repr _ _ _ _ _ _ H6), (same_but_lock_repr _ _ _ _ _ _ H5).
  - destruct (same_but_lock_unlocked s4 s5 to H5) as (h & Hh & Hh0). exists h.
    by rewrite (sb_other _ _ _ _ H6).
  - by apply (same_but_lock_unlocked s5).
Qed.

Lemma list_move_transfers_witness :
  exists s', list_move sample_lists 2000 1000 20 = Some s' /\
    list_repr s' 1000 [10; 30] /\ list_repr s' 2000 [20].
Proof.
  destruct (list_move_transfers sample_lists 2000 1000 20 [10] [30] [])
    as (s' & Hm & Hf & Ht & _).
  - discriminate.
  - exists (Hdr 0 0 0 0). split; reflexivity.
  - exact sample_list_unlocked.
  - exact sample_list_repr.
  - split; [exists 0; reflexivity|exact I|constructor|set_solver by lia].
  - intros y Hy. apply not_elem_of_nil in Hy. contradiction.
  - exists s'. split; [exact Hm|]. split; [exact Hf|exact Ht].
Defined.

(** ** The spinlock between threads

    Each thread repeatedly runs [spinlock_acquire]; critical section;
    [spinlock_release] on one lock.  [atomic_testandset] is a locked exchange:
    one step reads the old value and stores the new one. *)
Module Spinlock.

Inductive pc := Outside | Spinning | Inside.

Record config := Config { lock : Z; threads : list pc }.

(** x86/atomic.s, [lock xchgl]: the old value, and the word after the exchange. *)
Definition atomic_testandset (value lk : Z) : Z * Z := (lk, value).

(** arm/atomic.c and riscv/atomic.c: [return 0;], the word is not written. *)
Definition atomic_testandset_arm (value lk : Z) : Z * Z := (0, lk).

Inductive step (testandset : Z -> Z -> Z * Z) : config -> config -> Prop :=
  | step_call lk ts t :
      ts !! t = Some Outside ->
      step testandset (Config lk ts) (Config lk (<[t := Spinning]> ts))
  | step_spin lk ts t old lk' :
      ts !! t = Some Spinning -> testandset 1 lk = (old, lk') -> old <> 0 ->
      step testandset (Config lk ts) (Config lk' ts)
  | step_enter lk ts t old lk' :
      ts !! t = Some Spinning -> testandset 1 lk = (old, lk') -> old = 0 ->
      step testandset (Config lk ts) (Config lk' (<[t := Inside]> ts))
  | step_release lk ts t old lk' :
      ts !! t = Some Inside -> testandset 0 lk = (old, lk') ->
      step testandset (Config lk ts) (Config lk' (<[t := Outside]> ts)).

(** After [spinlock_init] with [n] threads outside. *)
Definition initial (n : nat) : config := Config 0 (replicate n Outside).

Definition reachable (testandset : Z -> Z -> Z * Z) (n : nat) (c : config) : Prop :=
  rtc (step testandset) (initial n) c.

(** The lock word is 1 exactly when some thread is inside, and at most one is. *)
Definition inv (c : config) : Prop :=
  (lock c = 0 /\ forall t, threads c !! t <> Some Inside) \/
  (lock c = 1 /\ exists t, threads c !! t = Some Inside /\
     forall t', threads c !! t' = Some Inside -> t' = t).

Lemma inv_initial n : inv (initial n).
Proof.
  left. split; [done|]. cbn [initial threads]. intros t H. apply lookup_replicate in H as [? _]. done.
Qed.

Lemma inv_step c c' : step atomic_testandset c c' -> inv c -> inv c'.
Proof.
  intros Hs Hinv.
  assert (forall (ts : list pc) t p t', <[t := p]> ts !! t' = Some Inside -> p <> Inside ->
            t' <> t /\ ts !! t' = Some Inside) as Hother.
  { intros ts t p t' Hl Hp. destruct (decide (t' = t)) as [->|Hne].
    - destruct (decide (t < length ts)%nat).
      + rewrite list_lookup_insert_eq in Hl by done. congruence.
      + rewrite list_insert_ge in Hl by lia. apply lookup_lt_Some in Hl. lia.
    - by rewrite list_lookup_insert_ne in Hl. }
  destruct Hs as [lk ts t Ht|lk ts t old lk' Ht Hx Ho|lk ts t old lk' Ht Hx Ho|lk ts t old lk' Ht Hx];
    unfold inv in *; cbn [lock threads] in *; unfold atomic_testandset in *; simplify_eq.
  - destruct Hinv as [[-> Hno]|(-> & u & Hu & Huniq)]; [left|right]; (split; [done|]).
    + intros t' Ht'. apply Hother in Ht' as [_ ?]; [|done]. by apply (Hno t').
    + exists u. split.
      * rewrite list_lookup_insert_ne; [done|]. intros ->. congruence.
      * intros t' Ht'. apply Hother in Ht' as [_ ?]; [|done]. by apply Huniq.
  - destruct Hinv as [[? _]|(_ & Hin)]; [done|]. by right.
  - destruct Hinv as [[_ Hno]|(? & _)]; [|done]. right. split; [done|]. exists t. split.
    + apply list_lookup_insert_eq. by apply lookup_lt_Some in Ht.
    + intros t' Ht'. destruct (decide (t' = t)) as [->|Hne]; [done|].
      rewrite list_lookup_insert_ne in Ht' by done. by apply Hno in Ht'.
  - destruct Hinv as [[_ Hno]|(_ & u & Hu & Huniq)]; [by apply Hno in Ht|]. left. split; [done|].
    intros t' Ht'. apply Hother in Ht' as [Hne Ht']; [|done].
    rewrite (Huniq t' Ht') in Hne. by apply Hne, eq_sym, Huniq.
Qed.

Lemma reachable_inv n c : reachable atomic_testandset n c -> inv c.
Proof.
  intros Hr. pose proof (inv_initial n) as Hi. unfold reachable in Hr.
  induction Hr as [c|c1 c2 c3 Hs _ IH]; [done|]. apply IH. by apply (inv_step c1).
Qed.

(** C27. On x86 the spinlock gives mutual exclusion: in every configuration that any
    number of threads can reach, at most one thread is between
    [spinlock_acquire] and [spinlock_release]; and when nobody is, the lock
    word is 0, so a spinning thread enters with its next exchange. *)
Theorem spinlock_mutual_exclusion (n : nat) (c : config) (Hreach : reachable atomic_testandset n c) :
  (forall t t', threads c !! t = Some Inside -> threads c !! t' = Some Inside -> t = t') /\
  ((forall t, threads c !! t <> Some Inside) ->
   forall t, threads c !! t = Some Spinning ->
     step atomic_testandset c (Config 1 (<[t := Inside]> (threads c)))).
Proof.
  apply reachable_inv in Hreach. destruct c as [lk ts]. unfold inv in Hreach. cbn [lock threads] in *.
  split.
  - intros t t' Ht Ht'. destruct Hreach as [[_ Hno]|(_ & u & _ & Huniq)]; [by apply Hno in Ht|].
    rewrite (Huniq t Ht). symmetry. by apply Huniq.
  - intros Hno t Ht. destruct Hreach as [[-> _]|(_ & u & Hu & _)]; [|by apply Hno in Hu].
    by apply (step_enter _ 0 ts t 0 1).
Qed.

Lemma spinlock_mutual_exclusion_witness :
  reachable atomic_testandset 2 (Config 1 [Inside; Spinning]) /\
  forall t, [Inside; Spinning] !! t = Some Inside -> t = 0%nat.
Proof.
  assert (reachable atomic_testandset 2 (Config 1 [Inside; Spinning])) as Hr.
  { apply (rtc_l _ _ (Config 0 [Spinning; Outside])); [by apply (step_call _ 0 [Outside; Outside] 0)|].
    apply (rtc_l _ _ (Config 0 [Spinning; Spinning])); [by apply (step_call _ 0 [Spinning; Outside] 1)|].
    apply rtc_once. by apply (step_enter _ 0 [Spinning; Spinning] 0 0 1). }
  split; [exact Hr|]. intros t Ht.
  exact (proj1 (spinlock_mutual_exclusion 2 (Config 1 [Inside; Spinning]) Hr) t 0%nat Ht eq_refl).
Defined.

(** On ARM and RISC-V the spinlock excludes nobody: [atomic_testandset]
    there is a stub that answers 0 and does not write, so any number of threads
    can be inside at the same time. *)
Theorem spinlock_arm_no_exclusion (n : nat) :
  reachable atomic_testandset_arm n (Config 0 (replicate n Inside)).
Proof.
  assert (forall k (rest : list pc), (k + length rest = n)%nat ->
    rtc (step atomic_testandset_arm) (Config 0 (replicate k Inside ++ replicate (length rest) Outside))
      (Config 0 (replicate n Inside))) as H.
  { intros k rest. revert k. induction rest as [|x rest IH]; intros k Hk; cbn [length replicate].
    - cbn in Hk. rewrite app_nil_r. replace k with n by lia. constructor.
    - set (ts := replicate (length rest) Outside).
      assert (forall p q (pre : list pc), <[length pre := q]> (pre ++ p :: ts) = pre ++ q :: ts) as Hins.
      { intros p q pre. replace (length pre) with (length pre + 0)%nat by lia. by rewrite insert_app_r. }
      assert (forall p, (replicate k Inside ++ p :: ts) !! k = Some p) as Hlook.
      { intros p. rewrite lookup_app_r, length_replicate, Nat.sub_diag by (rewrite length_replicate; lia). done. }
      pose proof (fun p q => Hins p q (replicate k Inside)) as Hins'. rewrite length_replicate in Hins'.
      apply (rtc_l _ _ (Config 0 (replicate k Inside ++ Spinning :: ts))).
      { rewrite <- (Hins' Outside Spinning). apply step_call. apply Hlook. }
      apply (rtc_l _ _ (Config 0 (replicate k Inside ++ Inside :: ts))).
      { rewrite <- (Hins' Spinning Inside). by apply (step_enter _ 0 _ k 0 0); [apply Hlook|..]. }
      change (replicate k Inside ++ Inside :: ts) with (replicate k Inside ++ [Inside] ++ ts).
      rewrite app_assoc. change [Inside] with (replicate 1 Inside). rewrite <- replicate_add.
      apply (IH (k + 1)%nat). cbn [length] in Hk. lia. }
  specialize (H 0%nat (replicate n Outside)). rewrite length_replicate in H. by apply H.
Qed.

End Spinlock.
