(* ===== verification/Cstring.v ===== *)
(** * Strings and formatted output (src/libz/fudge/cstring.c)

    Objects are byte lists as in Buffer.v; [None] is an access outside an object
    or a division by zero.  [char] is signed: comparisons go through [s8]. *)
From S2P Require Import Prelude Buffer.

Local Open Scope Z_scope.

(** ** writevalue *)

(** The literal ["zyxwvutsrqponmlkjihgfedcba9876543210123456789abcdefghijklmnopqrstuvwxyz"]:
    the character of a remainder [r] is at [35 + r], for [-35 <= r <= 35]. *)
Definition digit_table : list Z :=
  [122; 121; 120; 119; 118; 117; 116; 115; 114; 113; 112; 111; 110; 109; 108; 107; 106;
   105; 104; 103; 102; 101; 100; 99; 98; 97; 57; 56; 55; 54; 53; 52; 51; 50; 49; 48; 49;
   50; 51; 52; 53; 54; 55; 56; 57; 97; 98; 99; 100; 101; 102; 103; 104; 105; 106; 107;
   108; 109; 110; 111; 112; 113; 114; 115; 116; 117; 118; 119; 120; 121; 122].

(** [for (i = 1; i < count; i++) { ... if (!num && i >= padding) break; }]; the
    result is the object, [current] and [i]. *)
Fixpoint writevalue_loop (n : nat) (out : list Z) (current num b i padding : Z)
    : option (list Z * Z * Z) :=
  match n with
  | O => Some (out, current, i)
  | S n =>
      if b =? 0 then None
      else
        c ← rd digit_table (35 + Z.rem num b);
        out ← wr out current c;
        let num := Z.quot num b in
        if (num =? 0) && (padding <=? i) then Some (out, current + 1, i)
        else writevalue_loop n out (current + 1) num b (i + 1) padding
  end.

(** [while (out < current) { swap }] *)
Fixpoint reverse_loop (fuel : nat) (out : list Z) (lo hi : Z) : option (list Z) :=
  match fuel with
  | O => None
  | S fuel =>
      if lo <? hi then
        c ← rd out hi;
        x ← rd out lo;
        out ← wr out hi x;
        out ← wr out lo c;
        reverse_loop fuel out (lo + 1) (hi - 1)
      else Some out
  end.

Definition writevalue (out : list Z) (count value base padding : Z) : option (list Z * Z) :=
  '(out, current, i) ← writevalue_loop (Z.to_nat (count - 1)) out 0 value (s32 base) 1 padding;
  '(out, current, i) ←
    (if value <? 0 then out ← wr out current 45; Some (out, current + 1, i + 1)
     else Some (out, current, i));
  out ← reverse_loop (S (length out)) out 0 (current - 1);
  Some (out, u32 i).

(** ** Length and comparison *)

Fixpoint cstring_length_loop (fuel : nat) (inp : list Z) (pos : Z) : option Z :=
  match fuel with
  | O => None
  | S fuel =>
      c ← rd inp pos;
      if c =? 0 then Some (u32 pos) else cstring_length_loop fuel inp (pos + 1)
  end.

(** Every iteration reads the next byte of the object. *)
Definition cstring_length (inp : list Z) : option Z :=
  cstring_length_loop (S (length inp)) inp 0.

Definition cstring_length_zero (inp : list Z) : option Z :=
  n ← cstring_length inp; Some (u32 (n + 1)).

Definition cstring_match (in1 in2 : list Z) : option Z :=
  n1 ← cstring_length_zero in1;
  n2 ← cstring_length_zero in2;
  buffer_match in1 in2 (if n1 <? n2 then n1 else n2).

Definition cstring_match_substring (in1 in2 : list Z) : option Z :=
  n1 ← cstring_length_zero in1;
  n2 ← cstring_length in2;
  if n2 <? n1 then buffer_match in1 in2 n2 else Some 0.

(** ** Character classes and numbers *)

Definition cstring_isspace (c : Z) : Z := if s8 c =? 32 then 1 else 0.

Definition cstring_isalpha (c : Z) : Z :=
  let c := s8 c in
  if (97 <=? c) && (c <=? 122) then 1
  else if (65 <=? c) && (c <=? 90) then 1
  else 0.

Definition cstring_isdigit (c : Z) : Z :=
  let c := s8 c in if (48 <=? c) && (c <=? 57) then 1 else 0.

Definition cstring_toint (c : Z) : Z :=
  let c := s8 c in
  if 97 <=? c then c - 97 + 10
  else if 65 <=? c then c - 65 + 10
  else if 48 <=? c then c - 48
  else 0.

Fixpoint cstring_read_value_loop (n : nat) (inp : list Z) (i value base : Z) : option Z :=
  match n with
  | O => Some value
  | S n =>
      c ← rd inp i;
      cstring_read_value_loop n inp (i + 1) (u32 (value * base + cstring_toint c)) base
  end.

Definition cstring_read_value (inp : list Z) (count base : Z) : option Z :=
  cstring_read_value_loop (Z.to_nat count) inp 0 0 base.

(** ** Writing *)

Definition cstring_write (out : list Z) (count : Z) (inp : list Z) (offset : Z)
    : option (list Z * Z) :=
  n ← cstring_length inp; buffer_write out count inp n offset.

Definition cstring_write_zero (out : list Z) (count offset : Z) : option (list Z * Z) :=
  if offset <? count then out ← wr out offset 0; Some (out, 1)
  else out ← wr out (u32 (count - 1)) 0; Some (out, 0).

(** [num0] is the content of the uninitialised local [char num[64]]. *)
Definition cstring_write_value (num0 out : list Z) (count value base padding offset : Z)
    : option (list Z * Z) :=
  '(num, n) ← writevalue num0 64 value base padding;
  buffer_write out count num n offset.

(** ** The formatter *)

(** The local variables of [cstring_write_fmt] that change in its loop. *)
Record fmt_state := Fmt {
  f_out : list Z;
  f_offset : Z;
  escaped : bool;
  interpreted : bool;
  cargs : Z;
  f_base : Z;
  f_padding : Z;
  isunsigned : bool
}.

Definition emit (st : fmt_state) (count : Z) (inp : list Z) (icount : Z) : option fmt_state :=
  '(out, n) ← buffer_write (f_out st) count inp icount (f_offset st);
  Some (Fmt out (u32 (f_offset st + n)) (escaped st) (interpreted st) (cargs st)
            (f_base st) (f_padding st) (isunsigned st)).

(** [interpreted = 0; padding = 0; base = 10] *)
Definition reset_directive (st : fmt_state) : fmt_state :=
  Fmt (f_out st) (f_offset st) (escaped st) false (cargs st) 10 0 (isunsigned st).
Definition set_padding (st : fmt_state) (p : Z) : fmt_state :=
  Fmt (f_out st) (f_offset st) (escaped st) (interpreted st) (cargs st) (f_base st) p (isunsigned st).
Definition set_base (st : fmt_state) (b : Z) : fmt_state :=
  Fmt (f_out st) (f_offset st) (escaped st) (interpreted st) (cargs st) b (f_padding st) (isunsigned st).
Definition set_unsigned (st : fmt_state) (u : bool) : fmt_state :=
  Fmt (f_out st) (f_offset st) (escaped st) (interpreted st) (cargs st) (f_base st) (f_padding st) u.
Definition set_escaped (st : fmt_state) (e : bool) : fmt_state :=
  Fmt (f_out st) (f_offset st) e (interpreted st) (cargs st) (f_base st) (f_padding st) (isunsigned st).
Definition set_interpreted (st : fmt_state) : fmt_state :=
  Fmt (f_out st) (f_offset st) (escaped st) true (cargs st) (f_base st) (f_padding st) (isunsigned st).
Definition next_arg (st : fmt_state) : fmt_state :=
  Fmt (f_out st) (f_offset st) (escaped st) (interpreted st) (cargs st + 1)
      (f_base st) (f_padding st) (isunsigned st).

(** The argument pointers point to byte objects; the loads are little endian. *)
Definition read8 (obj : list Z) : option Z := rd obj 0.
Definition read16 (obj : list Z) : option Z :=
  a ← rd obj 0; b ← rd obj 1; Some (a + 256 * b).
Definition read32 (obj : list Z) : option Z :=
  a ← rd obj 0; b ← rd obj 1; c ← rd obj 2; d ← rd obj 3;
  Some (a + 256 * b + 65536 * c + 16777216 * d).

Section fmt.
Context (num0 : list Z) (count : Z) (args : list (list Z)).

Definition arg (st : fmt_state) : option (list Z) := args !! Z.to_nat (cargs st).

(** [offset += buffer_write(out, count, num, writevalue(num, 64, value, ...), offset)] *)
Definition emit_value (st : fmt_state) (value : Z) : option fmt_state :=
  '(num, n) ← writevalue num0 64 value (f_base st) (f_padding st);
  emit st count num n.

(** The [switch] on a character inside a directive. *)
Definition directive (st : fmt_state) (q : Z) : option fmt_state :=
  if q =? 48 then Some (set_padding st 0)
  else if q =? 49 then Some (set_padding st 1)
  else if q =? 50 then Some (set_padding st 2)
  else if q =? 52 then Some (set_padding st 4)
  else if q =? 56 then Some (set_padding st 8)
  else if q =? 62 then Some (set_padding st (Z.shiftr (f_padding st) 1))
  else if q =? 60 then Some (set_padding st (u32 (Z.shiftl (f_padding st) 1)))
  else if q =? 66 then Some (set_base st 2)
  else if q =? 79 then Some (set_base st 8)
  else if q =? 68 then Some (set_base st 10)
  else if q =? 72 then Some (set_base st 16)
  else if q =? 45 then Some (set_unsigned st false)
  else if q =? 43 then Some (set_unsigned st true)
  else if q =? 99 then
    obj ← arg st;
    v ← read8 obj;
    st ← emit_value st (if isunsigned st then v else s8 v);
    Some (reset_directive (next_arg st))
  else if q =? 104 then
    obj ← arg st;
    v ← read16 obj;
    st ← emit_value st (if isunsigned st then v else s16 v);
    Some (reset_directive (next_arg st))
  else if q =? 117 then
    obj ← arg st;
    v ← read32 obj;
    st ← emit_value st (s32 v);
    Some (reset_directive (next_arg st))
  else if q =? 105 then
    obj ← arg st;
    v ← read32 obj;
    st ← emit_value st (s32 v);
    Some (reset_directive (next_arg st))
  else if q =? 115 then
    svalue ← arg st;
    n ← cstring_length svalue;
    st ← emit st count svalue n;
    Some (reset_directive (next_arg st))
  else if q =? 119 then
    svalue ← arg st;
    let st := next_arg st in
    obj ← arg st;
    uvalue ← read32 obj;
    st ← emit st count svalue uvalue;
    Some (reset_directive (next_arg st))
  else Some (reset_directive st).

(** The body of the loop. *)
Definition fmt_char (st : fmt_state) (q : Z) : option fmt_state :=
  if escaped st then
    st ← (if q =? 48 then emit st count [0] 1 else Some st);
    Some (set_escaped st false)
  else if interpreted st then directive st q
  else if q =? 37 then Some (set_interpreted st)
  else if q =? 92 then Some (set_escaped st true)
  else emit st count [q] 1.

Fixpoint fmt_loop (chars : list Z) (st : fmt_state) : option fmt_state :=
  match chars with
  | [] => Some st
  | q :: chars => st ← fmt_char st q; fmt_loop chars st
  end.
End fmt.

Definition cstring_write_fmt (num0 out : list Z) (count : Z) (fmt : list Z)
    (args : list (list Z)) (offset : Z) : option (list Z * Z) :=
  length ← cstring_length fmt;
  st ← fmt_loop num0 count args (take (Z.to_nat length) fmt)
         (Fmt out offset false false 0 10 0 true);
  Some (f_out st, u32 (f_offset st - offset)).

Definition cstring_write_fmt0 num0 out count fmt offset :=
  cstring_write_fmt num0 out count fmt [] offset.
Definition cstring_write_fmt1 num0 out count fmt offset arg1 :=
  cstring_write_fmt num0 out count fmt [arg1] offset.
Definition cstring_write_fmt2 num0 out count fmt offset arg1 arg2 :=
  cstring_write_fmt num0 out count fmt [arg1; arg2] offset.
Definition cstring_write_fmt3 num0 out count fmt offset arg1 arg2 arg3 :=
  cstring_write_fmt num0 out count fmt [arg1; arg2; arg3] offset.
Definition cstring_write_fmt4 num0 out count fmt offset arg1 arg2 arg3 arg4 :=
  cstring_write_fmt num0 out count fmt [arg1; arg2; arg3; arg4] offset.
Definition cstring_write_fmt6 num0 out count fmt offset arg1 arg2 arg3 arg4 arg5 arg6 :=
  cstring_write_fmt num0 out count fmt [arg1; arg2; arg3; arg4; arg5; arg6] offset.
Definition cstring_write_fmt8 num0 out count fmt offset
    arg1 arg2 arg3 arg4 arg5 arg6 arg7 arg8 :=
  cstring_write_fmt num0 out count fmt
    [arg1; arg2; arg3; arg4; arg5; arg6; arg7; arg8] offset.

(** ** Digits *)

Definition digit_char (d : Z) : Z := if d <? 10 then 48 + d else 87 + d.

Lemma digit_table_spec r : -36 < r < 36 -> rd digit_table (35 + r) = Some (digit_char (Z.abs r)).
Proof.
  intros Hr. assert (Forall (fun r => rd digit_table (35 + r) = Some (digit_char (Z.abs r)))
    ((fun i => Z.of_nat i - 35) <$> seq 0 71)) as Hall by (repeat constructor).
  rewrite Forall_forall in Hall. apply Hall, list_elem_of_fmap. exists (Z.to_nat (r + 35)).
  split; [lia|]. apply elem_of_seq. lia.
Qed.

(** C's division rounds towards zero, so it commutes with the absolute value. *)
Lemma abs_quot_rem v b :
  0 < b -> Z.abs (Z.rem v b) = Z.abs v mod b /\ Z.abs (Z.quot v b) = Z.abs v / b.
Proof.
  intros Hb. destruct (Z.le_gt_cases 0 v) as [Hv|Hv].
  - rewrite Z.rem_mod_nonneg, Z.quot_div_nonneg by lia.
    pose proof (Z.mod_pos_bound v b ltac:(lia)). pose proof (Z.div_pos v b Hv ltac:(lia)).
    rewrite (Z.abs_eq v), !Z.abs_eq by lia. done.
  - replace v with (- - v) by lia. rewrite Z.rem_opp_l, Z.quot_opp_l by lia.
    rewrite Z.rem_mod_nonneg, Z.quot_div_nonneg by lia. rewrite !Z.abs_opp.
    pose proof (Z.mod_pos_bound (- v) b ltac:(lia)). pose proof (Z.div_pos (- v) b ltac:(lia) ltac:(lia)).
    rewrite (Z.abs_eq ((- v) mod b)), (Z.abs_eq (- v / b)) by lia.
    by rewrite (Z.abs_neq v) by lia.
Qed.

Lemma toint_digit r : 0 <= r < 36 -> cstring_toint (digit_char r) = r.
Proof.
  intros Hr. assert (Forall (fun r => cstring_toint (digit_char r) = r)
    (Z.of_nat <$> seq 0 36)) as Hall by (repeat constructor).
  rewrite Forall_forall in Hall. apply Hall, list_elem_of_fmap. exists (Z.to_nat r).
  split; [lia|]. apply elem_of_seq. lia.
Qed.

(** The [k] low digits of [v] in base [b], least significant first. *)
Fixpoint ldig (b : Z) (k : nat) (v : Z) : list Z :=
  match k with
  | O => []
  | S k => digit_char (v mod b) :: ldig b k (v / b)
  end.

Lemma length_ldig b k v : length (ldig b k v) = k.
Proof. revert v. induction k as [|k IH]; intros v; simpl; [done|]. by rewrite IH. Qed.

Lemma pow_S b k : b ^ Z.of_nat (S k) = b * b ^ Z.of_nat k.
Proof. rewrite Nat2Z.inj_succ, Z.pow_succ_r by lia. done. Qed.

(** The digit loop stops after [L] digits, enough for the value and the padding. *)
Lemma writevalue_loop_spec n out (c : nat) v b i padding :
  2 <= b <= 36 -> Z.abs v < b ^ Z.of_nat n -> (0 < n)%nat ->
  padding < i + Z.of_nat n -> (c + n <= length out)%nat ->
  exists L, (1 <= L <= n)%nat /\ Z.abs v < b ^ Z.of_nat L /\ padding <= i + Z.of_nat L - 1 /\
    (L = 1%nat \/ padding = i + Z.of_nat L - 1 \/ b ^ Z.of_nat (L - 1) <= Z.abs v) /\
    writevalue_loop n out (Z.of_nat c) v b i padding =
      Some (splice out c (ldig b L (Z.abs v)), Z.of_nat (c + L), i + Z.of_nat L - 1).
Proof.
  revert out c v i. induction n as [|n IH]; intros out c v i Hb Hv Hn Hp Hl; [lia|].
  cbn [writevalue_loop]. destruct (Z.eqb_spec b 0); [lia|].
  destruct (abs_quot_rem v b ltac:(lia)) as [Hrem Hquot].
  pose proof (Z.mod_pos_bound (Z.abs v) b ltac:(lia)). rewrite digit_table_spec, Hrem by lia.
  cbn [mbind option_bind]. rewrite wr_Some by lia. cbn [mbind option_bind]. rewrite Nat2Z.id.
  replace (Z.quot v b =? 0) with (Z.abs v / b =? 0)
    by (rewrite <- Hquot; destruct (Z.eqb_spec (Z.quot v b) 0), (Z.eqb_spec (Z.abs (Z.quot v b)) 0); lia).
  destruct ((Z.abs v / b =? 0) && (padding <=? i)) eqn:E.
  - apply andb_true_iff in E as [E1%Z.eqb_eq E2%Z.leb_le]. exists 1%nat. split; [lia|].
    change (Z.of_nat 1) with 1. rewrite Z.pow_1_r. apply Z.div_small_iff in E1; [|lia].
    split; [lia|]. split; [lia|]. split; [by left|]. do 2 f_equal; [f_equal|]; [|lia|lia].
    cbn [ldig]. rewrite <- (splice_cons out c _ []) by (simpl; lia). by rewrite splice_nil.
  - assert (0 < n)%nat as Hn'.
    { destruct n; [|lia]. exfalso. change (Z.of_nat 1) with 1 in *. rewrite Z.pow_1_r in Hv.
      rewrite Z.div_small in E by lia. cbn in E. apply Z.leb_gt in E. lia. }
    rewrite pow_S in Hv.
    replace (Z.of_nat c + 1) with (Z.of_nat (S c)) by lia.
    destruct (IH (<[c := digit_char (Z.abs v mod b)]> out) (S c) (Z.quot v b) (i + 1))
      as (L & HL & HvL & HpL & Hmin & ->); try (rewrite ?length_insert; lia).
    { rewrite Hquot. apply Z.div_lt_upper_bound; lia. }
    rewrite Hquot in *. exists (S L). split; [lia|]. split.
    { rewrite pow_S. pose proof (Z.div_mod (Z.abs v) b ltac:(lia)). nia. }
    split; [lia|]. split.
    { right. replace (S L - 1)%nat with L by lia. destruct Hmin as [->|[Hm|Hm]].
      - apply andb_false_iff in E as [E%Z.eqb_neq|E%Z.leb_gt]; [right|left; lia].
        change (Z.of_nat 1) with 1. rewrite Z.pow_1_r.
        destruct (Z.le_gt_cases b (Z.abs v)); [done|]. rewrite Z.div_small in E by lia. done.
      - left. lia.
      - right. replace L with (S (L - 1)) by lia. rewrite pow_S.
        pose proof (Z.div_mod (Z.abs v) b ltac:(lia)). nia. }
    do 2 f_equal; [f_equal|]; [|lia|lia].
    cbn [ldig]. apply splice_cons. rewrite length_ldig. lia.
Qed.

(** ** Reversal in place *)

Lemma reverse_loop_spec n fuel p xs q :
  (length xs <= n)%nat -> (length xs < fuel)%nat ->
  reverse_loop fuel (p ++ xs ++ q) (Z.of_nat (length p))
    (Z.of_nat (length p) + Z.of_nat (length xs) - 1) = Some (p ++ reverse xs ++ q).
Proof.
  revert fuel p xs q. induction n as [|n IH]; intros fuel p xs q Hn Hf;
    (destruct fuel as [|fuel]; [lia|]); cbn [reverse_loop].
  { destruct xs; [|simpl in Hn; lia]. destruct (Z.ltb_spec (Z.of_nat (length p))
      (Z.of_nat (length p) + Z.of_nat (length (@nil Z)) - 1)); [simpl in *; lia|done]. }
  destruct xs as [|x xs].
  { destruct (Z.ltb_spec (Z.of_nat (length p))
      (Z.of_nat (length p) + Z.of_nat (length (@nil Z)) - 1)); [simpl in *; lia|done]. }
  destruct xs as [|y xs _] using rev_ind.
  { destruct (Z.ltb_spec (Z.of_nat (length p))
      (Z.of_nat (length p) + Z.of_nat (length [x]) - 1)); [simpl in *; lia|done]. }
  set (hi := Z.of_nat (length p) + Z.of_nat (length (x :: xs ++ [y])) - 1).
  assert (hi = Z.of_nat (length (p ++ x :: xs))) as Hhi.
  { unfold hi. cbn [length]. rewrite !length_app. cbn [length]. lia. }
  assert (hi = Z.of_nat (length (p ++ y :: xs))) as Hhi'.
  { unfold hi. cbn [length]. rewrite !length_app. cbn [length]. lia. }
  destruct (Z.ltb_spec (Z.of_nat (length p)) hi);
    [|rewrite Hhi, length_app in *; cbn [length] in *; lia].
  assert (p ++ (x :: xs ++ [y]) ++ q = (p ++ x :: xs) ++ y :: q) as E1
    by (cbn [app]; rewrite <- !app_assoc; done).
  rewrite E1, Hhi, rd_mid. cbn [mbind option_bind].
  assert (rd ((p ++ x :: xs) ++ y :: q) (Z.of_nat (length p)) = Some x) as ->.
  { rewrite <- app_assoc. cbn [app]. apply rd_mid. }
  cbn [mbind option_bind]. rewrite wr_mid. cbn [mbind option_bind].
  rewrite <- (app_assoc p). cbn [app]. rewrite wr_mid. cbn [mbind option_bind].
  replace (p ++ y :: xs ++ x :: q) with ((p ++ [y]) ++ xs ++ (x :: q)) by (by rewrite <- app_assoc).
  replace (Z.of_nat (length p) + 1) with (Z.of_nat (length (p ++ [y])))
    by (rewrite length_app; cbn [length]; lia).
  replace (Z.of_nat (length (p ++ x :: xs)) - 1)
    with (Z.of_nat (length (p ++ [y])) + Z.of_nat (length xs) - 1)
    by (rewrite !length_app; cbn [length]; lia).
  cbn [length] in Hn, Hf. rewrite length_app in Hn, Hf. cbn [length] in Hn, Hf.
  rewrite IH by lia. f_equal.
  rewrite reverse_cons, reverse_app. cbn [reverse rev_append app].
  by rewrite <- !app_assoc.
Qed.

(** The text of a number: sign, then at least [L] digits. *)
Definition value_text (b : Z) (L : nat) (v : Z) : list Z :=
  (if v <? 0 then [45] else []) ++ reverse (ldig b L (Z.abs v)).

Lemma writevalue_spec num v b padding :
  2 <= b <= 36 -> -2147483648 <= v < 2147483648 -> padding <= 62 -> length num = 64%nat ->
  exists L num', (1 <= L <= 63)%nat /\ Z.abs v < b ^ Z.of_nat L /\ padding <= Z.of_nat L /\
    (L = 1%nat \/ padding = Z.of_nat L \/ b ^ Z.of_nat (L - 1) <= Z.abs v) /\
    writevalue num 64 v b padding = Some (num', Z.of_nat (length (value_text b L v))) /\
    num' = value_text b L v ++ drop (length (value_text b L v)) num.
Proof.
  intros Hb Hv Hp Hl. unfold writevalue. change (Z.to_nat (64 - 1)) with 63%nat.
  rewrite s32_small by lia.
  destruct (writevalue_loop_spec 63 num 0 v b 1 padding) as (L & HL & HvL & HpL & Hmin & Hw);
    [lia| |lia|lia|lia|].
  { assert (2 ^ 63 <= b ^ Z.of_nat 63) by (apply Z.pow_le_mono_l; lia).
    change (2 ^ 63) with 9223372036854775808 in *. lia. }
  change (Z.of_nat 0) with 0 in Hw. rewrite Hw. cbn [mbind option_bind].
  rewrite splice_0, length_ldig. unfold value_text.
  exists L. eexists. split; [done|]. split; [done|]. split; [lia|].
  split; [destruct Hmin as [?|[?|?]]; [auto|right; left; lia|auto]|]. split; [|reflexivity].
  pose proof (length_ldig b L (Z.abs v)) as Hds. revert Hds.
  generalize (ldig b L (Z.abs v)) as ds. clear Hw. intros ds Hds.
  assert (length ((if v <? 0 then [45] else []) ++ reverse ds) = (if v <? 0 then S L else L)) as Hlen.
  { rewrite length_app, length_reverse, Hds. by destruct (v <? 0). }
  pose proof (reverse_loop_spec 64 (S (length num)) [] ds (drop L num)) as Hrev.
  destruct (Z.ltb_spec v 0) as [Hneg|Hpos].
  - replace (Z.of_nat (0 + L)) with (Z.of_nat (length ds)) by lia.
    rewrite (drop_cons_total num L) by lia. rewrite wr_mid. cbn [mbind option_bind].
    pose proof (reverse_loop_spec 64 (S (length num)) [] (ds ++ [45]) (drop (S L) num)) as Hr.
    change (Z.of_nat (length (@nil Z))) with 0 in Hr. cbn [app] in Hr. rewrite <- app_assoc in Hr.
    cbn [app] in Hr.
    replace (length (ds ++ 45 :: drop (S L) num)) with (length num)
      by (rewrite length_app; cbn [length]; rewrite length_drop; lia).
    replace (Z.of_nat (length ds) + 1 - 1) with (0 + Z.of_nat (length (ds ++ [45])) - 1)
      by (rewrite length_app; cbn [length]; lia).
    rewrite Hr by (rewrite length_app; cbn [length]; lia). cbn [mbind option_bind].
    rewrite reverse_app. change (reverse [45]) with [45]. rewrite Hlen. cbn [app].
    do 2 f_equal. rewrite u32_small; lia.
  - cbn [mbind option_bind app] in *.
    change (Z.of_nat (length (@nil Z))) with 0 in Hrev.
    replace (length (ds ++ drop L num)) with (length num) by (rewrite length_app, length_drop; lia).
    replace (Z.of_nat (0 + L) - 1) with (0 + Z.of_nat (length ds) - 1) by lia.
    rewrite Hrev by lia. cbn [mbind option_bind]. rewrite Hlen. do 2 f_equal.
    rewrite u32_small; lia.
Qed.

(** Reading digits back, most significant first. *)
Lemma read_value_loop_app n xs inp (i : nat) v b :
  slice inp i (length xs) = xs ->
  cstring_read_value_loop (length xs + n) inp (Z.of_nat i) v b =
    cstring_read_value_loop n inp (Z.of_nat (i + length xs))
      (foldl (fun acc c => u32 (acc * b + cstring_toint c)) v xs) b.
Proof.
  revert i v. induction xs as [|x xs IH]; intros i v Hs; cbn [length foldl Nat.add].
  { by rewrite Nat.add_0_r. }
  cbn [cstring_read_value_loop length] in *.
  assert (inp !! i = Some x) as Hx.
  { apply (f_equal head) in Hs. unfold slice in Hs. rewrite head_lookup, lookup_take_lt, lookup_drop in Hs by lia.
    by rewrite Nat.add_0_r in Hs. }
  rewrite rd_nat, Hx. cbn [mbind option_bind].
  replace (Z.of_nat i + 1) with (Z.of_nat (S i)) by lia. rewrite IH.
  - do 2 f_equal. lia.
  - rewrite (slice_S _ _ _ x Hx) in Hs. by injection Hs.
Qed.

Lemma fold_digits b L v :
  2 <= b <= 36 -> 0 <= v < b ^ Z.of_nat L -> v < 4294967296 ->
  foldl (fun acc c => u32 (acc * b + cstring_toint c)) 0 (reverse (ldig b L v)) = v.
Proof.
  intros Hb. revert v. induction L as [|L IH]; intros v Hv H32.
  { rewrite Z.pow_0_r in Hv. simpl. lia. }
  cbn [ldig]. rewrite reverse_cons, foldl_app. cbn [foldl].
  rewrite pow_S in Hv. pose proof (Z.mod_pos_bound v b ltac:(lia)).
  pose proof (Z.div_mod v b ltac:(lia)). pose proof (Z.div_pos v b ltac:(lia) ltac:(lia)).
  rewrite IH; [|split; [lia|apply Z.div_lt_upper_bound; lia]|nia].
  rewrite toint_digit by lia. rewrite u32_small; lia.
Qed.

(** ** Properties *)

(** Printing a number and reading it back: for every base from 2 to 36, a
    non-negative [int] and a padding the buffer can hold, [writevalue] writes at
    least [padding] digits without leaving its 64-byte buffer, and
    [cstring_read_value] of them is the number. *)
Theorem writevalue_read_value (num : list Z) (v b padding : Z)
    (Hbase : 2 <= b <= 36) (Hvalue : 0 <= v < 2147483648) (Hpad : padding <= 62)
    (Hnum : length num = 64%nat) :
  exists num' n, writevalue num 64 v b padding = Some (num', n) /\
    length num' = 64%nat /\ padding <= n <= 63 /\
    cstring_read_value num' n b = Some v.
Proof.
  destruct (writevalue_spec num v b padding Hbase ltac:(lia) Hpad Hnum)
    as (L & num' & HL & HvL & HpL & _ & Hw & Hnum').
  unfold value_text in *. destruct (Z.ltb_spec v 0); [lia|]. cbn [app] in *.
  rewrite length_reverse, length_ldig in *. rewrite Z.abs_eq in * by lia.
  exists num', (Z.of_nat L). split; [done|]. split.
  { rewrite Hnum', length_app, length_reverse, length_ldig, length_drop. lia. }
  split; [lia|]. unfold cstring_read_value. rewrite Nat2Z.id.
  pose proof (read_value_loop_app 0 (reverse (ldig b L v)) num' 0 0 b) as Hr.
  rewrite length_reverse, length_ldig, Nat.add_0_r in Hr. change (Z.of_nat 0) with 0 in Hr.
  rewrite Hr; [by rewrite fold_digits by lia|].
  unfold slice. rewrite drop_0, Hnum', take_app_length'; [done|].
  by rewrite length_reverse, length_ldig.
Qed.

Lemma writevalue_read_value_witness :
  exists num' n, writevalue (replicate 64 0) 64 48879 16 8 = Some (num', n) /\
    8 <= n <= 63 /\ cstring_read_value num' n 16 = Some 48879.
Proof.
  destruct (writevalue_read_value (replicate 64 0) 48879 16 8 ltac:(lia) ltac:(lia) ltac:(lia) eq_refl)
    as (num' & n & Hw & _ & Hn & Hr).
  exists num', n. split; [exact Hw|]. split; [exact Hn|exact Hr].
Defined.

(** *** The formatter *)

Lemma cstring_length_loop_spec fuel p s rest :
  Forall (fun c => c <> 0) s -> (length s < fuel)%nat ->
  cstring_length_loop fuel (p ++ s ++ 0 :: rest) (Z.of_nat (length p)) =
    Some (u32 (Z.of_nat (length p + length s))).
Proof.
  revert fuel p. induction s as [|x s IH]; intros fuel p Hs Hf;
    (destruct fuel as [|fuel]; [simpl in Hf; lia|]); cbn [cstring_length_loop app length] in *.
  - rewrite rd_mid. cbn [mbind option_bind Z.eqb]. by rewrite Nat.add_0_r.
  - inversion Hs as [|? ? Hx Hs']; subst. rewrite rd_mid. cbn [mbind option_bind].
    destruct (Z.eqb_spec x 0); [done|].
    rewrite mid_snoc, <- (length_snoc p x), IH by (done || lia).
    rewrite length_app. cbn [length]. do 3 f_equal. lia.
Qed.

Lemma cstring_length_spec s rest :
  Forall (fun c => c <> 0) s -> Z.of_nat (length s) <= max32 ->
  cstring_length (s ++ 0 :: rest) = Some (Z.of_nat (length s)).
Proof.
  intros Hs Hl. unfold cstring_length, max32 in *.
  pose proof (cstring_length_loop_spec (S (length (s ++ 0 :: rest))) [] s rest Hs) as H.
  change (Z.of_nat (length (@nil Z))) with 0 in H. cbn [app length Nat.add] in H.
  rewrite H by (rewrite length_app; lia). by rewrite u32_small by lia.
Qed.

(** A piece of a format: a literal character, the escape [\0], [%s] with a string
    argument, or [%u] with an unsigned argument and the text it is printed as. *)
Inductive token :=
  | TLit (c : Z)
  | TNul
  | TStr (s rest : list Z)
  | TUns (v : Z) (text : list Z).

Definition le32 (v : Z) : list Z := [v mod 256; v / 256 mod 256; v / 65536 mod 256; v / 16777216].

Definition fmt_of (t : token) : list Z :=
  match t with TLit c => [c] | TNul => [92; 48] | TStr _ _ => [37; 115] | TUns _ _ => [37; 117] end.
Definition args_of (t : token) : list (list Z) :=
  match t with TLit _ | TNul => [] | TStr s rest => [s ++ 0 :: rest] | TUns v _ => [le32 v] end.
Definition text_of (t : token) : list Z :=
  match t with TLit c => [c] | TNul => [0] | TStr s _ => s | TUns _ text => text end.

(** [text] is the decimal notation of [v], without leading zeros. *)
Definition is_decimal (v : Z) (text : list Z) : Prop :=
  exists L, (1 <= L)%nat /\ 0 <= v < 10 ^ Z.of_nat L /\
    (L = 1%nat \/ 10 ^ Z.of_nat (L - 1) <= v) /\ text = reverse (ldig 10 L v).

(** What [%u] prints for [v]: its decimal notation below 2^31, and that of the
    [int] with the same bits, with its minus sign, from there on. *)
Definition prints_unsigned (v : Z) (text : list Z) : Prop :=
  (v < 2147483648 /\ is_decimal v text) \/
  (2147483648 <= v /\ exists ds, text = 45 :: ds /\ is_decimal (4294967296 - v) ds).

Lemma prints_unsigned_text v text : 0 <= v < 4294967296 -> prints_unsigned v text ->
  exists L, (1 <= L)%nat /\ Z.abs (s32 v) < 10 ^ Z.of_nat L /\
    (L = 1%nat \/ 10 ^ Z.of_nat (L - 1) <= Z.abs (s32 v)) /\ text = value_text 10 L (s32 v).
Proof.
  intros Hv [[Hlt (L & HL & HvL & Hmin & ->)]|[Hge (ds & -> & L & HL & HvL & Hmin & ->)]]; exists L.
  - unfold value_text. rewrite s32_small by lia. destruct (Z.ltb_spec v 0); [lia|].
    rewrite Z.abs_eq by lia. split_and!; (done || lia).
  - assert (s32 v = v - 4294967296) as -> by zwrap. unfold value_text.
    destruct (Z.ltb_spec (v - 4294967296) 0); [|lia].
    replace (Z.abs (v - 4294967296)) with (4294967296 - v) by lia. split_and!; (done || lia).
Qed.

Definition token_ok (t : token) : Prop :=
  match t with
  | TLit c => c <> 0 /\ c <> 37 /\ c <> 92
  | TNul => True
  | TStr s rest => Forall (fun c => c <> 0) s /\ Z.of_nat (length s) <= max32
  | TUns v text => 0 <= v < 4294967296 /\ prints_unsigned v text
  end.

Lemma decimal_unique v L L' :
  0 <= v -> (1 <= L)%nat -> (1 <= L')%nat -> v < 10 ^ Z.of_nat L -> v < 10 ^ Z.of_nat L' ->
  (L = 1%nat \/ 10 ^ Z.of_nat (L - 1) <= v) -> (L' = 1%nat \/ 10 ^ Z.of_nat (L' - 1) <= v) -> L = L'.
Proof.
  assert (forall A B, (1 <= A)%nat -> (A < B)%nat -> v < 10 ^ Z.of_nat A ->
            (B = 1%nat \/ 10 ^ Z.of_nat (B - 1) <= v) -> False) as Hlt.
  { intros A B HA HAB HvA [->|HB]; [lia|].
    assert (10 ^ Z.of_nat A <= 10 ^ Z.of_nat (B - 1)) by (apply Z.pow_le_mono_r; lia). lia. }
  intros. destruct (Nat.lt_total L L') as [?|[?|?]]; [exfalso|done|exfalso]; eauto.
Qed.

Lemma read32_le32 v : 0 <= v < 4294967296 -> read32 (le32 v) = Some v.
Proof.
  intros Hv. assert (forall a b c d, read32 [a; b; c; d] =
    Some (a + 256 * b + 65536 * c + 16777216 * d)) as Hr by reflexivity.
  unfold le32. rewrite Hr. f_equal. zmod.
Qed.

(** Writing [t] at [off] into an object of which [C] bytes may be used. *)
Definition put (C : nat) (out : list Z) (off : nat) (t : list Z) : list Z :=
  splice out off (take (C - off) t).
Definition put_off (C off : nat) (t : list Z) : nat := off + min (length t) (C - off).

Lemma put_app C out off t1 t2 :
  (off <= C)%nat -> (C <= length out)%nat ->
  put C (put C out off t1) (put_off C off t1) t2 = put C out off (t1 ++ t2) /\
  put_off C (put_off C off t1) t2 = put_off C off (t1 ++ t2).
Proof.
  intros Ho Hl. unfold put, put_off. rewrite length_app. split; [|lia].
  destruct (le_lt_dec (length t1) (C - off)).
  - rewrite Nat.min_l, (take_ge t1), (take_app_ge t1) by lia.
    rewrite splice_app by (rewrite length_take; lia).
    do 3 f_equal. lia.
  - rewrite Nat.min_r by lia. replace (C - (off + (C - off)))%nat with 0%nat by lia.
    rewrite take_0, splice_nil. by rewrite take_app_le by lia.
Qed.

Lemma length_put C out off t : (C <= length out)%nat -> length (put C out off t) = length out.
Proof.
  intros Hl. unfold put. destruct (le_lt_dec C off).
  - replace (C - off)%nat with 0%nat by lia. by rewrite take_0, splice_nil.
  - apply length_splice. rewrite length_take. lia.
Qed.

Lemma put_off_le C off t : (off <= C)%nat -> (put_off C off t <= C)%nat.
Proof. unfold put_off. lia. Qed.

(** The formatter between two directives, [k] arguments consumed. *)
Definition plain (out : list Z) (off : nat) (k : Z) : fmt_state :=
  Fmt out (Z.of_nat off) false false k 10 0 true.

Lemma buffer_write_put C out off inp n :
  (off <= C)%nat -> (C <= length out)%nat -> Z.of_nat C <= max32 ->
  (n <= length inp)%nat ->
  buffer_write out (Z.of_nat C) inp (Z.of_nat n) (Z.of_nat off) =
    Some (put C out off (take n inp), Z.of_nat (min n (C - off))).
Proof.
  intros Ho Hl HC Hn. rewrite buffer_write_spec by lia. unfold room, put.
  rewrite Nat2Z.id, take_take. do 2 f_equal.
  - f_equal. f_equal. destruct (Z.leb_spec (Z.of_nat C) (Z.of_nat off)); lia.
  - destruct (Z.leb_spec (Z.of_nat C) (Z.of_nat off)); lia.
Qed.

Lemma emit_put C st inp n off :
  f_offset st = Z.of_nat off -> (off <= C)%nat -> (C <= length (f_out st))%nat ->
  Z.of_nat C <= max32 -> (n <= length inp)%nat ->
  emit st (Z.of_nat C) inp (Z.of_nat n) =
    Some (Fmt (put C (f_out st) off (take n inp)) (Z.of_nat (put_off C off (take n inp)))
              (escaped st) (interpreted st) (cargs st) (f_base st) (f_padding st) (isunsigned st)).
Proof.
  intros Hoff Ho Hl HC Hn. unfold emit. rewrite Hoff, buffer_write_put by done.
  cbn [mbind option_bind]. unfold put_off, max32 in *. rewrite length_take. do 2 f_equal.
  rewrite u32_small; lia.
Qed.

(** Computes the fields of a formatter state. *)
Ltac fmt_cbn :=
  cbn [f_out f_offset escaped interpreted cargs f_base f_padding isunsigned plain
       reset_directive next_arg set_interpreted mbind option_bind fmt_loop].

Section fmt_spec.
Context (num0 : list Z) (C : nat) (args : list (list Z)).
Context (Hnum0 : length num0 = 64%nat) (HC : Z.of_nat C <= max32).

(** One token of the format. *)
Lemma fmt_token t out off (k : nat) :
  token_ok t -> (off <= C)%nat -> (C <= length out)%nat ->
  (forall i a, args_of t !! i = Some a -> args !! (k + i)%nat = Some a) ->
  fmt_loop num0 (Z.of_nat C) args (fmt_of t) (plain out off (Z.of_nat k)) =
    Some (plain (put C out off (text_of t)) (put_off C off (text_of t))
            (Z.of_nat (k + length (args_of t)))).
Proof.
  intros Hok Ho Hl Hargs. destruct t as [c| |s rest|v text]; cbn [fmt_of args_of text_of length] in *.
  - destruct Hok as (Hc0 & Hc1 & Hc2). cbn [fmt_loop]. unfold fmt_char.
    cbn [escaped interpreted plain]. destruct (Z.eqb_spec c 37); [done|].
    destruct (Z.eqb_spec c 92); [done|]. change 1 with (Z.of_nat 1).
    rewrite (emit_put C _ [c] 1 off) by (done || (cbn [length]; lia)).
    cbn [take]. fmt_cbn. unfold reset_directive, next_arg, plain. fmt_cbn. do 2 f_equal. lia.
  - cbn [fmt_loop]. unfold fmt_char.
    cbn [escaped interpreted plain Z.eqb Pos.eqb mbind option_bind set_escaped].
    change 1 with (Z.of_nat 1).
    rewrite (emit_put C _ [0] 1 off) by (done || (cbn [length]; lia)).
    cbn [take]. fmt_cbn. unfold set_escaped, plain. fmt_cbn. do 2 f_equal. lia.
  - destruct Hok as [Hs Hlen]. specialize (Hargs 0%nat _ eq_refl). rewrite Nat.add_0_r in Hargs.
    cbn [fmt_loop]. unfold fmt_char at 1. cbn [escaped interpreted plain Z.eqb Pos.eqb mbind option_bind].
    unfold fmt_char. cbn [escaped interpreted set_interpreted]. unfold directive.
    cbn [Z.eqb Pos.eqb]. unfold arg. fmt_cbn. rewrite Nat2Z.id, Hargs.
    cbn [mbind option_bind]. rewrite cstring_length_spec by done. cbn [mbind option_bind].
    rewrite (emit_put C _ _ _ off) by (try done; rewrite length_app; lia).
    rewrite take_app_length. fmt_cbn. unfold reset_directive, next_arg, plain. fmt_cbn. do 2 f_equal. lia.
  - destruct Hok as [Hv Ht]. destruct (prints_unsigned_text v text Hv Ht) as (L & HL & HvL & Hmin & ->).
    specialize (Hargs 0%nat _ eq_refl). assert (-2147483648 <= s32 v < 2147483648) as Hr by zwrap.
    rewrite Nat.add_0_r in Hargs.
    cbn [fmt_loop]. unfold fmt_char at 1. cbn [escaped interpreted plain Z.eqb Pos.eqb mbind option_bind].
    unfold fmt_char. cbn [escaped interpreted set_interpreted]. unfold directive.
    cbn [Z.eqb Pos.eqb]. unfold arg. fmt_cbn. rewrite Nat2Z.id, Hargs.
    cbn [mbind option_bind]. rewrite read32_le32 by lia. cbn [mbind option_bind].
    unfold emit_value. cbn [f_base f_padding set_interpreted plain].
    destruct (writevalue_spec num0 (s32 v) 10 0 ltac:(lia) ltac:(lia) ltac:(lia) Hnum0)
      as (L' & num' & HL' & HvL' & _ & Hmin' & -> & Hnum'). cbn [mbind option_bind].
    assert (L' = L) as ->
      by (apply (decimal_unique (Z.abs (s32 v))); (done || lia || (destruct Hmin' as [?|[?|?]]; lia))).
    rewrite (emit_put C _ _ _ off) by (try done; rewrite Hnum', length_app; lia).
    rewrite Hnum', take_app_length. fmt_cbn. unfold reset_directive, next_arg, plain. fmt_cbn. do 2 f_equal. lia.
Qed.

Lemma fmt_loop_app xs ys st :
  fmt_loop num0 (Z.of_nat C) args (xs ++ ys) st =
    (st ← fmt_loop num0 (Z.of_nat C) args xs st; fmt_loop num0 (Z.of_nat C) args ys st).
Proof.
  revert st. induction xs as [|x xs IH]; intros st; cbn [app fmt_loop]; [done|].
  destruct (fmt_char num0 (Z.of_nat C) args st x) as [st'|]; cbn [mbind option_bind]; [apply IH|done].
Qed.

Lemma fmt_tokens ts out off (k : nat) :
  Forall token_ok ts -> (off <= C)%nat -> (C <= length out)%nat ->
  (forall i a, (ts ≫= args_of) !! i = Some a -> args !! (k + i)%nat = Some a) ->
  exists k', fmt_loop num0 (Z.of_nat C) args (ts ≫= fmt_of) (plain out off (Z.of_nat k)) =
    Some (plain (put C out off (ts ≫= text_of)) (put_off C off (ts ≫= text_of)) k').
Proof.
  revert out off k. induction ts as [|t ts IH]; intros out off k Hok Ho Hl Hargs.
  { exists (Z.of_nat k). cbn. unfold put, put_off. rewrite take_nil, splice_nil. cbn.
    rewrite Nat.add_0_r. done. }
  inversion Hok as [|? ? Ht Hts]; subst.
  change ((t :: ts) ≫= fmt_of) with (fmt_of t ++ (ts ≫= fmt_of)).
  change ((t :: ts) ≫= text_of) with (text_of t ++ (ts ≫= text_of)).
  change ((t :: ts) ≫= args_of) with (args_of t ++ (ts ≫= args_of)) in Hargs.
  rewrite fmt_loop_app, (fmt_token t out off k); try done.
  2: { intros i a Hi. apply Hargs. by apply lookup_app_l_Some. }
  cbn [mbind option_bind].
  destruct (IH (put C out off (text_of t)) (put_off C off (text_of t)) (k + length (args_of t))%nat)
    as (k' & Hk').
  - done.
  - by apply put_off_le.
  - by rewrite length_put.
  - intros i a Hi. replace (k + length (args_of t) + i)%nat with (k + (length (args_of t) + i))%nat by lia.
    apply Hargs. rewrite lookup_app_r by lia. by replace (length (args_of t) + i - length (args_of t))%nat with i by lia.
  - exists k'. rewrite Hk'. destruct (put_app C out off (text_of t) (ts ≫= text_of) Ho Hl) as [-> ->]. done.
Qed.
End fmt_spec.

Lemma fmt_nonzero ts : Forall token_ok ts -> Forall (fun c => c <> 0) (ts ≫= fmt_of).
Proof.
  induction 1 as [|t ts Ht _ IH]; [constructor|].
  change ((t :: ts) ≫= fmt_of) with (fmt_of t ++ (ts ≫= fmt_of)).
  apply Forall_app. split; [|done]. destruct t as [c| |s rest|v text]; cbn in Ht |- *.
  - repeat constructor. tauto.
  - repeat constructor; lia.
  - repeat constructor; lia.
  - repeat constructor; lia.
Qed.

(** The text of a sequence of pieces, cut off at [count]. *)
Lemma write_fmt_tokens (num0 out : list Z) (C off : nat) (ts : list token)
    (rest : list Z) (Hnum0 : length num0 = 64%nat) (Hcount : Z.of_nat C <= max32)
    (Hout : (C <= length out)%nat) (Hoff : (off <= C)%nat) (Htokens : Forall token_ok ts)
    (Hlen : Z.of_nat (length (ts ≫= fmt_of)) <= max32) :
  let text := take (C - off) (ts ≫= text_of) in
  cstring_write_fmt num0 out (Z.of_nat C) ((ts ≫= fmt_of) ++ 0 :: rest) (ts ≫= args_of)
    (Z.of_nat off) = Some (splice out off text, Z.of_nat (length text)).
Proof.
  intros text. unfold cstring_write_fmt.
  rewrite cstring_length_spec by (done || by apply fmt_nonzero). cbn [mbind option_bind].
  rewrite Nat2Z.id, take_app_length.
  destruct (fmt_tokens num0 C (ts ≫= args_of) Hnum0 Hcount ts out off 0 Htokens Hoff Hout)
    as (k' & Hk'); [done|].
  change (Fmt out (Z.of_nat off) false false 0 10 0 true) with (plain out off (Z.of_nat 0)).
  rewrite Hk'. cbn [mbind option_bind f_out f_offset plain]. unfold put, put_off. do 2 f_equal.
  unfold text, max32 in *. rewrite length_take, u32_small by lia. lia.
Qed.

(** C36. The formatter writes the concatenation of its pieces: for any sequence
    of literal characters (other than the null character, [%] and the
    backslash), [\0] escapes, [%s] and [%u] directives and the arguments that
    belong to them, [cstring_write_fmt] writes at [offset] the literal
    characters, a null character for each escape, the strings and the numbers
    one after the other, cut off at [count], touches nothing else, and returns
    the number of bytes written.  A [%u] argument below 2^31 is written in
    decimal; one from 2^31 on is written as the negative [int] with the same
    bits, a minus sign and the decimal notation of 2^32 less the argument. *)
Theorem cstring_write_fmt_correct (num0 out : list Z) (C off : nat) (ts : list token)
    (rest : list Z) (Hnum0 : length num0 = 64%nat) (Hcount : Z.of_nat C <= max32)
    (Hout : (C <= length out)%nat) (Hoff : (off <= C)%nat) (Htokens : Forall token_ok ts)
    (Hlen : Z.of_nat (length (ts ≫= fmt_of)) <= max32) :
  let text := take (C - off) (ts ≫= text_of) in
  cstring_write_fmt num0 out (Z.of_nat C) ((ts ≫= fmt_of) ++ 0 :: rest) (ts ≫= args_of)
    (Z.of_nat off) = Some (splice out off text, Z.of_nat (length text)).
Proof. by apply write_fmt_tokens. Qed.

(** The pieces of the format ["id=%u %s"]. *)
Definition sample_tokens : list token :=
  [TLit 105; TLit 100; TLit 61; TUns 42 [52; 50]; TLit 32; TStr [97; 98; 99; 100; 101] []].

Lemma sample_tokens_ok : Forall token_ok sample_tokens.
Proof.
  unfold sample_tokens.
  repeat apply Forall_cons_2; try apply Forall_nil_2; cbn [token_ok]; try lia.
  - split; [lia|]. left. split; [lia|]. exists 2%nat. split; [lia|]. split; [cbn; lia|]. split; [right; cbn; lia|reflexivity].
  - split; [repeat constructor; lia|]. unfold max32. cbn [length]. lia.
Qed.

Lemma cstring_write_fmt_correct_witness :
  cstring_write_fmt (replicate 64 9) (replicate 12 46) 10
    [105; 100; 61; 37; 117; 32; 37; 115; 0] [le32 42; [97; 98; 99; 100; 101; 0]] 1 =
    Some ([46; 105; 100; 61; 52; 50; 32; 97; 98; 99; 46; 46], 9) /\
  cstring_write_fmt (replicate 64 9) (replicate 4 46) 4 [37; 117; 0] [le32 4294967295] 0 =
    Some ([45; 49; 46; 46], 2).
Proof.
  split.
  - apply (cstring_write_fmt_correct (replicate 64 9) (replicate 12 46) 10 1 sample_tokens []);
      [reflexivity|unfold max32; lia|cbn; lia|lia|exact sample_tokens_ok|unfold max32; cbn; lia].
  - apply (cstring_write_fmt_correct (replicate 64 9) (replicate 4 46) 4 0 [TUns 4294967295 [45; 49]] []);
      [reflexivity|unfold max32; lia|cbn; lia|lia| |unfold max32; cbn; lia].
    constructor; [|constructor]. split; [lia|]. right. split; [lia|]. exists [49]. split; [reflexivity|].
    exists 1%nat. split; [lia|]. split; [cbn; lia|]. split; [by left|reflexivity].
Defined.

(** Unsigned arguments of 2^31 and above are printed as negative numbers:
    the [%u] directive passes its value through the [int] parameter of
    [writevalue], so 4294967295 comes out as ["-1"]. *)
Theorem cstring_write_fmt_unsigned_wraps (num0 : list Z) (v : Z)
    (Hnum0 : length num0 = 64%nat) (Hv : 2147483648 <= v < 4294967296) :
  exists st, directive num0 4294967295 [le32 v]
      (Fmt (replicate 64 0) 0 false true 0 10 0 true) 117 = Some st /\
    take 1 (f_out st) = [45].
Proof.
  unfold directive. cbn [Z.eqb Pos.eqb].
  assert (arg [le32 v] (Fmt (replicate 64 0) 0 false true 0 10 0 true) = Some (le32 v)) as ->
    by reflexivity.
  cbn [mbind option_bind].
  rewrite read32_le32 by lia. cbn [mbind option_bind].
  assert (s32 v = v - 4294967296) as -> by zwrap.
  unfold emit_value. cbn [f_base f_padding].
  destruct (writevalue_spec num0 (v - 4294967296) 10 0 ltac:(lia) ltac:(lia) ltac:(lia) Hnum0)
    as (L & num' & HL & _ & _ & _ & -> & Hnum'). cbn [mbind option_bind].
  unfold value_text in *. destruct (Z.ltb_spec (v - 4294967296) 0); [|lia].
  set (ds := reverse (ldig 10 L (Z.abs (v - 4294967296)))) in *.
  assert (length ds = L) as Hds by (unfold ds; by rewrite length_reverse, length_ldig).
  unfold emit. cbn [f_out f_offset].
  assert (buffer_write (replicate 64 0) 4294967295 num' (Z.of_nat (length ([45] ++ ds))) 0 =
          Some (splice (replicate 64 0) 0 (45 :: ds), Z.of_nat (S L))) as ->.
  { unfold buffer_write. cbn [app length]. rewrite Hds.
    destruct (Z.leb_spec 4294967295 0); [lia|].
    destruct (Z.ltb_spec (u32 (4294967295 - 0)) (Z.of_nat (S L))).
    { rewrite u32_small in *; lia. }
    rewrite buffer_copy_spec; try lia.
    - cbn [mbind option_bind]. unfold slice. rewrite drop_0, Nat2Z.id, Hnum'.
      rewrite take_app_length'; [done|]. cbn [app length]. lia.
    - rewrite length_replicate. lia.
    - rewrite Hnum', length_app, length_drop, Hnum0. cbn [app length]. lia. }
  cbn [mbind option_bind]. eexists. split; [done|]. cbn. done.
Qed.

Lemma cstring_write_fmt_unsigned_wraps_witness :
  exists st, directive (replicate 64 0) 4294967295 [[255; 255; 255; 255]]
      (Fmt (replicate 64 0) 0 false true 0 10 0 true) 117 = Some st /\ take 1 (f_out st) = [45].
Proof.
  exact (cstring_write_fmt_unsigned_wraps (replicate 64 0) 4294967295 eq_refl ltac:(lia)).
Defined.

(** *** Comparison *)

Lemma take_zero_string s rest k :
  (k = S (length s)) -> take k (s ++ 0 :: rest) = s ++ [0].
Proof. intros ->. by rewrite take_app_ge, Nat.sub_succ_l, Nat.sub_diag by lia. Qed.

(** A string that starts with another string and its terminator is that string. *)
Lemma take_zero_eq s t rest :
  Forall (fun c => c <> 0) t -> (length s <= length t)%nat ->
  take (S (length s)) (t ++ 0 :: rest) = s ++ [0] -> s = t.
Proof.
  intros Ht Hl He. destruct (decide (length s = length t)) as [Heq|Hne].
  - rewrite Heq, take_zero_string in He by done. apply app_inj_1 in He as [? _]; [done|]. done.
  - exfalso. apply (f_equal (fun l => l !! length s)) in He.
    rewrite lookup_take_lt, lookup_app_l, lookup_app_r, Nat.sub_diag in He by lia. cbn in He.
    rewrite Forall_lookup in Ht. by apply (Ht (length s) 0).
Qed.

(** [cstring_match] is equality of the two strings, and
    [cstring_match_substring] says whether the second is a prefix of the first;
    neither reads past the terminators. *)
Theorem cstring_match_correct (s t rest1 rest2 : list Z)
    (Hs : Forall (fun c => c <> 0) s) (Ht : Forall (fun c => c <> 0) t)
    (Hls : Z.of_nat (length s) < max32) (Hlt : Z.of_nat (length t) < max32) :
  cstring_match (s ++ 0 :: rest1) (t ++ 0 :: rest2) = Some (if decide (s = t) then 1 else 0) /\
  cstring_match_substring (s ++ 0 :: rest1) (t ++ 0 :: rest2) =
    Some (if decide (t `prefix_of` s) then 1 else 0).
Proof.
  unfold cstring_match, cstring_match_substring, cstring_length_zero, max32 in *.
  rewrite !cstring_length_spec by (done || (unfold max32; lia)). cbn [mbind option_bind].
  rewrite !u32_small by lia. split.
  - rewrite buffer_match_spec
      by (rewrite ?length_app; cbn [length];
          destruct (Z.ltb_spec (Z.of_nat (length s) + 1) (Z.of_nat (length t) + 1)); lia).
    f_equal.
    destruct (Z.ltb_spec (Z.of_nat (length s) + 1) (Z.of_nat (length t) + 1)) as [Hlt'|Hge].
    + rewrite (take_zero_string s) by lia.
      destruct (decide (s = t)) as [->|Hne]; [lia|]. rewrite decide_False; [done|].
      intros He. apply Hne. apply (take_zero_eq s t rest2); [done|lia|].
      by replace (S (length s)) with (Z.to_nat (Z.of_nat (length s) + 1)) by lia.
    + rewrite (take_zero_string t) by lia.
      destruct (decide (s = t)) as [->|Hne].
      * rewrite decide_True; [done|]. apply take_zero_string. lia.
      * rewrite decide_False; [done|]. intros He. apply Hne. symmetry.
        apply (take_zero_eq t s rest1); [done|lia|].
        by replace (S (length t)) with (Z.to_nat (Z.of_nat (length t) + 1)) by lia.
  - destruct (Z.ltb_spec (Z.of_nat (length t)) (Z.of_nat (length s) + 1)) as [Hlt'|Hge].
    + rewrite buffer_match_spec by (rewrite ?length_app; cbn [length]; lia).
      rewrite Nat2Z.id, take_app_le, take_app_length by lia. f_equal.
      destruct (decide (t `prefix_of` s)) as [[k ->]|Hno].
      * by rewrite decide_True by apply take_app_length.
      * rewrite decide_False; [done|]. intros He. apply Hno. rewrite <- He. apply prefix_take.
    + rewrite decide_False; [done|]. intros Hp%prefix_length. lia.
Qed.

Lemma cstring_match_correct_witness :
  cstring_match [97; 98; 0; 9] [97; 98; 0] = Some 1 /\
  cstring_match_substring [97; 98; 0; 9] [97; 0] = Some 1.
Proof.
  split.
  - apply (cstring_match_correct [97; 98] [97; 98] [9] []);
      (repeat constructor; lia) || (unfold max32; cbn; lia).
  - apply (cstring_match_correct [97; 98] [97] [9] []);
      (repeat constructor; lia) || (unfold max32; cbn; lia).
Defined.
