(* ===== verification/ArmDiv.v ===== *)
(** * Software division for ARM (src/libz/fudge/arm)

    The compiler support routines of the ARM port: shift-and-subtract division,
    its signed wrappers, and the leading-zero count. *)
From S2P Require Import Prelude.

Local Open Scope Z_scope.

(** ** __udivmodsi4.c *)

(** [while ((signed int)den >= 0) { den <<= 1; qbit <<= 1; }] *)
Fixpoint normalise (fuel : nat) (den qbit : Z) : option (Z * Z) :=
  if 0 <=? s32 den then
    match fuel with
    | O => None
    | S fuel => normalise fuel (u32 (Z.shiftl den 1)) (u32 (Z.shiftl qbit 1))
    end
  else Some (den, qbit).

(** [while (qbit) { if (den <= num) { num -= den; quot += qbit; } den >>= 1; qbit >>= 1; }] *)
Fixpoint subtract (fuel : nat) (num den quot qbit : Z) : option (Z * Z) :=
  if qbit =? 0 then Some (num, quot)
  else
    match fuel with
    | O => None
    | S fuel =>
        let '(num, quot) :=
          if den <=? num then (u32 (num - den), u32 (quot + qbit)) else (num, quot) in
        subtract fuel num (Z.shiftr den 1) quot (Z.shiftr qbit 1)
    end.

(** The quotient, and what is stored through [rem_p] ([None]: nothing is). A
    32-bit word has at most 31 leading zeros when it is not 0. *)
Definition __udivmodsi4 (num den : Z) : option (Z * option Z) :=
  if den =? 0 then Some (0, None)
  else
    '(den, qbit) ← normalise 31 den 1;
    '(num, quot) ← subtract 32 num den 0 qbit;
    Some (quot, Some num).

(** ** The wrappers *)

Definition __udivsi3 (num den : Z) : option Z := '(q, _) ← __udivmodsi4 num den; Some q.
Definition __aeabi_uidiv (num den : Z) : option Z := '(q, _) ← __udivmodsi4 num den; Some q.

(** [v] is uninitialised when nothing was stored. *)
Definition __umodsi3 (num den : Z) : option Z := '(_, r) ← __udivmodsi4 num den; r.

(** [if (x < 0) { x = -x; ... }], as the unsigned argument of the division. *)
Definition __divsi3 (num den : Z) : option Z :=
  let '(num, minus) := if num <? 0 then (s32 (- num), 1) else (num, 0) in
  let '(den, minus) := if den <? 0 then (s32 (- den), Z.lxor minus 1) else (den, minus) in
  '(v, _) ← __udivmodsi4 (u32 num) (u32 den);
  let v := s32 v in
  Some (if negb (minus =? 0) then s32 (- v) else v).

Definition __aeabi_idiv (num den : Z) : option Z :=
  let '(num, minus) := if num <? 0 then (s32 (- num), 1) else (num, 0) in
  let '(den, minus) := if den <? 0 then (s32 (- den), Z.lxor minus 1) else (den, minus) in
  '(v, _) ← __udivmodsi4 (u32 num) (u32 den);
  let v := s32 v in
  Some (if negb (minus =? 0) then s32 (- v) else v).

Definition __modsi3 (num den : Z) : option Z :=
  let '(num, minus) := if num <? 0 then (s32 (- num), 1) else (num, 0) in
  let '(den, minus) := if den <? 0 then (s32 (- den), Z.lxor minus 1) else (den, minus) in
  '(_, v) ← __udivmodsi4 (u32 num) (u32 den);
  v ← v;
  let v := s32 v in
  Some (if negb (minus =? 0) then s32 (- v) else v).

(** ** __clzsi2.c *)

Definition clz_step (mask k : Z) (pv : Z * Z) : Z * Z :=
  let '(p, v) := pv in
  if negb (Z.land v mask =? 0) then (p - k, Z.shiftr v k) else (p, v).

Definition __clzsi2 (v : Z) : Z :=
  let st := (31, v) in
  let st := clz_step 0xffff0000 16 st in
  let st := clz_step 0xff00 8 st in
  let st := clz_step 0xf0 4 st in
  let st := clz_step 0xc 2 st in
  let st := clz_step 0x2 1 st in
  u32 (fst st).

(** ** The unsigned division *)

Lemma s32_sign den : 0 <= den < 4294967296 -> (0 <=? s32 den) = (den <? 2147483648).
Proof.
  intros Hd. destruct (Z.ltb_spec den 2147483648) as [Hlt|Hge].
  - rewrite s32_small by lia. apply Z.leb_le. lia.
  - apply Z.leb_gt. zwrap.
Qed.

(** Normalisation shifts the divisor until its top bit is set. *)
Lemma normalise_spec fuel den (j : nat) :
  0 < den < 4294967296 -> 2147483648 <= den * 2 ^ Z.of_nat fuel -> (j + fuel <= 31)%nat ->
  exists k, normalise fuel den (2 ^ Z.of_nat j) = Some (den * 2 ^ Z.of_nat k, 2 ^ Z.of_nat (j + k)) /\
    (k <= fuel)%nat /\ 2147483648 <= den * 2 ^ Z.of_nat k < 4294967296.
Proof.
  revert den j. induction fuel as [|fuel IH]; intros den j Hd Hf Hj; cbn [normalise];
    rewrite s32_sign by lia.
  - change (2 ^ Z.of_nat 0) with 1 in *.
    destruct (Z.ltb_spec den 2147483648); [lia|]. exists 0%nat.
    rewrite Nat.add_0_r. change (2 ^ Z.of_nat 0) with 1. rewrite Z.mul_1_r. split; [done|]. lia.
  - destruct (Z.ltb_spec den 2147483648) as [Hlt|Hge].
    + rewrite !Z.shiftl_mul_pow2 by lia. change (2 ^ 1) with 2.
      replace (2 ^ Z.of_nat j * 2) with (2 ^ Z.of_nat (S j))
        by (rewrite Nat2Z.inj_succ, Z.pow_succ_r by lia; lia).
      assert (2 ^ Z.of_nat (S j) <= 2 ^ 31) by (apply Z.pow_le_mono_r; lia).
      change (2 ^ 31) with 2147483648 in *.
      assert (0 < 2 ^ Z.of_nat (S j)) by (apply Z.pow_pos_nonneg; lia).
      rewrite (u32_small (2 ^ Z.of_nat (S j))), (u32_small (den * 2)) by lia.
      rewrite Nat2Z.inj_succ, Z.pow_succ_r in Hf by lia.
      destruct (IH (den * 2) (S j)) as (k & -> & Hk & Hr); [lia|lia|lia|].
      exists (S k). rewrite Nat2Z.inj_succ, Z.pow_succ_r by lia.
      replace (den * (2 * 2 ^ Z.of_nat k)) with (den * 2 * 2 ^ Z.of_nat k) by lia.
      split; [do 3 f_equal; lia|]. split; [lia|done].
    + exists 0%nat. rewrite Nat.add_0_r. change (2 ^ Z.of_nat 0) with 1. rewrite Z.mul_1_r.
      split; [done|]. lia.
Qed.

(** The subtraction loop: with [den = d * 2^k], [qbit = 2^k] and a rest below
    [2 * den], it divides the rest by [d]. *)
Lemma subtract_spec k d num quot fuel :
  0 < d -> 0 <= num < 2 * (d * 2 ^ Z.of_nat k) -> num < 4294967296 ->
  0 <= quot -> quot + 2 * 2 ^ Z.of_nat k <= 4294967296 -> (k < fuel)%nat ->
  subtract fuel num (d * 2 ^ Z.of_nat k) quot (2 ^ Z.of_nat k) =
    Some (num mod d, quot + num / d).
Proof.
  revert num quot fuel. induction k as [|k IH]; intros num quot fuel Hd Hn H32 Hq Hqb Hf;
    (destruct fuel as [|fuel]; [lia|]); cbn [subtract].
  - change (2 ^ Z.of_nat 0) with 1 in *. rewrite Z.mul_1_r in *. cbn [Z.eqb].
    assert (forall a b, subtract fuel a (Z.shiftr d 1) b (Z.shiftr 1 1) = Some (a, b)) as Hend
      by (intros; by destruct fuel).
    destruct (Z.leb_spec d num) as [Hle|Hgt].
    + rewrite (u32_small (num - d)), (u32_small (quot + 1)), Hend by lia.
      assert (num / d = 1) as Hdiv by (symmetry; apply (Z.div_unique num d 1 (num - d)); lia).
      assert (num mod d = num - d) as Hmod by (symmetry; apply (Z.mod_unique num d 1 (num - d)); lia).
      rewrite Hdiv, Hmod. done.
    + rewrite Hend, Z.div_small, Z.mod_small by lia. do 2 f_equal. lia.
  - assert (0 < 2 ^ Z.of_nat k) as Hp by (apply Z.pow_pos_nonneg; lia).
    rewrite Nat2Z.inj_succ, Z.pow_succ_r in * by lia.
    destruct (Z.eqb_spec (2 * 2 ^ Z.of_nat k) 0); [lia|].
    assert (Z.shiftr (d * (2 * 2 ^ Z.of_nat k)) 1 = d * 2 ^ Z.of_nat k) as ->.
    { rewrite Z.shiftr_div_pow2 by lia. change (2 ^ 1) with 2.
      replace (d * (2 * 2 ^ Z.of_nat k)) with (d * 2 ^ Z.of_nat k * 2) by lia. apply Z.div_mul. lia. }
    assert (Z.shiftr (2 * 2 ^ Z.of_nat k) 1 = 2 ^ Z.of_nat k) as ->.
    { rewrite Z.shiftr_div_pow2 by lia. change (2 ^ 1) with 2. rewrite Z.mul_comm. apply Z.div_mul. lia. }
    destruct (Z.leb_spec (d * (2 * 2 ^ Z.of_nat k)) num) as [Hle|Hgt].
    + rewrite (u32_small (num - _)), (u32_small (quot + _)) by nia.
      rewrite IH by nia.
      replace (num - d * (2 * 2 ^ Z.of_nat k)) with (num + - (2 * 2 ^ Z.of_nat k) * d) by lia.
      rewrite Z.mod_add, Z.div_add by lia. do 2 f_equal. lia.
    + apply IH; nia.
Qed.

Lemma udivmod_spec num den :
  0 <= num < 4294967296 -> 0 < den < 4294967296 ->
  __udivmodsi4 num den = Some (num / den, Some (num mod den)).
Proof.
  intros Hn Hd. unfold __udivmodsi4. destruct (Z.eqb_spec den 0); [lia|].
  change 1 with (2 ^ Z.of_nat 0).
  destruct (normalise_spec 31 den 0) as (k & -> & Hk & Hr).
  - done.
  - change (2 ^ Z.of_nat 31) with 2147483648. lia.
  - lia.
  - cbn [mbind option_bind Nat.add].
    assert (2 ^ Z.of_nat k <= 2 ^ 31) by (apply Z.pow_le_mono_r; lia).
    change (2 ^ 31) with 2147483648 in *.
    rewrite subtract_spec by lia. cbn [mbind option_bind]. do 2 f_equal.
Qed.

(** The shift-and-subtract loop is division: for every non-zero divisor,
    [__udivmodsi4] terminates with the quotient and stores the remainder;
    [__udivsi3], [__aeabi_uidiv] and [__umodsi3] return them. *)
Theorem udivmodsi4_correct (num den : Z)
    (Hnum : 0 <= num < 4294967296) (Hden : 0 < den < 4294967296) :
  __udivmodsi4 num den = Some (num / den, Some (num mod den)) /\
  __udivsi3 num den = Some (num / den) /\ __aeabi_uidiv num den = Some (num / den) /\
  __umodsi3 num den = Some (num mod den).
Proof.
  unfold __udivsi3, __aeabi_uidiv, __umodsi3. rewrite udivmod_spec by done. done.
Qed.

Lemma udivmodsi4_correct_witness :
  __udivmodsi4 4000000000 7 = Some (571428571, Some 3).
Proof. exact (proj1 (udivmodsi4_correct 4000000000 7 ltac:(lia) ltac:(lia))). Defined.

(** ** The signed wrappers *)

(** The sign handling shared by the wrappers. *)
Lemma abs_word x : -2147483648 <= x < 2147483648 ->
  u32 (if x <? 0 then s32 (- x) else x) = Z.abs x.
Proof. intros. destruct (Z.ltb_spec x 0); zwrap. Qed.

Definition sign_flip (num den : Z) : bool := xorb (num <? 0) (den <? 0).

Lemma signed_prologue num den :
  -2147483648 <= num < 2147483648 -> -2147483648 <= den < 2147483648 -> den <> 0 ->
  __divsi3 num den = Some (let v := s32 (Z.abs num / Z.abs den) in
                           if sign_flip num den then s32 (- v) else v) /\
  __modsi3 num den = Some (let v := s32 (Z.abs num mod Z.abs den) in
                           if sign_flip num den then s32 (- v) else v).
Proof.
  intros Hn Hd Hne. unfold __divsi3, __modsi3, sign_flip.
  pose proof (abs_word num Hn) as Hna. pose proof (abs_word den Hd) as Hda.
  assert (0 <= Z.abs num < 4294967296) by lia. assert (0 < Z.abs den < 4294967296) by lia.
  destruct (num <? 0), (den <? 0); rewrite Hna, Hda, udivmod_spec by done;
    cbn [mbind option_bind xorb Z.lxor negb Z.eqb]; done.
Qed.

(** Signed division truncates towards zero, as C requires: [__divsi3] (and
    its twin [__aeabi_idiv]) returns the truncated quotient for every pair of
    ints with a non-zero divisor whose quotient is representable. *)
Theorem divsi3_correct (num den : Z)
    (Hnum : -2147483648 <= num < 2147483648) (Hden : -2147483648 <= den < 2147483648)
    (Hnz : den <> 0) (Hrep : num <> -2147483648 \/ den <> -1) :
  __divsi3 num den = Some (Z.quot num den) /\ __aeabi_idiv num den = Some (Z.quot num den).
Proof.
  change (__aeabi_idiv num den) with (__divsi3 num den).
  enough (__divsi3 num den = Some (Z.quot num den)) as H by done.
  destruct (signed_prologue num den Hnum Hden Hnz) as [-> _]. f_equal.
  rewrite <- Z.quot_div_nonneg by lia.
  assert (Z.quot num den = (if sign_flip num den then - Z.quot (Z.abs num) (Z.abs den)
                            else Z.quot (Z.abs num) (Z.abs den))) as ->.
  { unfold sign_flip. destruct (Z.ltb_spec num 0), (Z.ltb_spec den 0); cbn [xorb].
    - rewrite !Z.abs_neq, Z.quot_opp_opp by lia. done.
    - rewrite Z.abs_neq, Z.abs_eq, Z.quot_opp_l by lia. lia.
    - rewrite Z.abs_eq, Z.abs_neq, Z.quot_opp_r by lia. lia.
    - rewrite !Z.abs_eq by lia. done. }
  assert (0 <= Z.quot (Z.abs num) (Z.abs den) <= Z.abs num) as Hb.
  { rewrite Z.quot_div_nonneg by lia. split; [apply Z.div_pos; lia|].
    apply Z.div_le_upper_bound; [lia|]. nia. }
  destruct (Z.eq_dec (Z.abs den) 1) as [H1|H1].
  - rewrite H1, Z.quot_1_r in *. unfold sign_flip in *.
    destruct (Z.ltb_spec num 0), (Z.ltb_spec den 0); cbn [xorb]; zwrap.
  - assert (Z.quot (Z.abs num) (Z.abs den) < 2147483648).
    { rewrite Z.quot_div_nonneg by lia. apply Z.div_lt_upper_bound; nia. }
    cbv zeta. rewrite (s32_small (Z.quot _ _)) by lia.
    destruct (sign_flip num den); [apply s32_small; lia|done].
Qed.

Lemma divsi3_correct_witness : __divsi3 (-7) 2 = Some (-3) /\ __aeabi_idiv (-7) 2 = Some (-3).
Proof.
  exact (divsi3_correct (-7) 2 ltac:(lia) ltac:(lia) ltac:(lia) ltac:(left; lia)).
Defined.

(** The signed remainder takes the sign of the quotient instead of the
    dividend: for a negative divisor that does not divide the dividend,
    [__modsi3] differs from C's [%] (it returns -1 for 7 % -2); for a positive
    divisor the two agree. *)
Theorem modsi3_sign (num den : Z)
    (Hnum : -2147483648 < num < 2147483648) (Hden : -2147483648 < den < 2147483648)
    (Hnz : den <> 0) :
  (0 < den -> __modsi3 num den = Some (Z.rem num den)) /\
  (den < 0 -> __modsi3 num den = Some (- Z.rem num den)).
Proof.
  destruct (signed_prologue num den ltac:(lia) ltac:(lia) Hnz) as [_ ->].
  pose proof (Z.mod_pos_bound (Z.abs num) (Z.abs den) ltac:(lia)) as Hm.
  rewrite (s32_small (_ mod _)) by lia. unfold sign_flip.
  assert (Z.abs num mod Z.abs den = Z.abs (Z.rem num den)) as ->.
  { rewrite <- Z.rem_mod_nonneg by lia. rewrite Z.rem_abs_r, Z.rem_abs_l by lia. done. }
  assert (num < 0 -> Z.rem num den <= 0) by (intros; apply Z.rem_nonpos; lia).
  assert (0 <= num -> 0 <= Z.rem num den) by (intros; apply Z.rem_nonneg; lia).
  assert (Z.abs (Z.rem num den) < 2147483648).
  { pose proof (Z.rem_bound_abs num den Hnz). lia. }
  cbv zeta.
  split; intros Hs; destruct (Z.ltb_spec num 0), (Z.ltb_spec den 0); cbn [xorb]; try lia;
    f_equal; rewrite ?s32_small by lia; lia.
Qed.

Lemma modsi3_sign_witness : __modsi3 7 (-2) = Some (-1) /\ Z.rem 7 (-2) = 1.
Proof.
  split; [|reflexivity].
  exact (proj2 (modsi3_sign 7 (-2) ltac:(lia) ltac:(lia) ltac:(lia)) ltac:(lia)).
Defined.

(** ** Leading zeros *)

Lemma land_high v k :
  0 <= k -> Z.land v (Z.shiftl (Z.ones k) k) = Z.shiftl (Z.land (Z.shiftr v k) (Z.ones k)) k.
Proof.
  intros Hk. apply Z.bits_inj'. intros n Hn.
  rewrite Z.land_spec, !Z.shiftl_spec, Z.land_spec by lia.
  destruct (Z.ltb_spec n k).
  - rewrite !(Z.testbit_neg_r _ (n - k)) by lia. by rewrite andb_false_r.
  - rewrite Z.shiftr_spec by lia. by replace (n - k + k) with n by lia.
Qed.

(** One halving step: the test on the mask asks whether the value has a bit
    above position [k]. *)
Lemma clz_step_spec mask k p v :
  0 < k -> mask = Z.shiftl (Z.ones k) k -> 0 < v < 2 ^ k * 2 ^ k ->
  exists p' v', clz_step mask k (p, v) = (p', v') /\ 0 < v' < 2 ^ k /\
    p' - Z.log2 v' = p - Z.log2 v.
Proof.
  intros Hk -> Hv. assert (0 < 2 ^ k) as Hp by (apply Z.pow_pos_nonneg; lia).
  unfold clz_step. rewrite land_high, Z.shiftl_mul_pow2 by lia.
  rewrite Z.land_ones, Z.shiftr_div_pow2 by lia.
  assert (v / 2 ^ k < 2 ^ k) by (apply Z.div_lt_upper_bound; lia).
  rewrite (Z.mod_small (v / 2 ^ k)) by (split; [apply Z.div_pos; lia|done]).
  destruct (Z.eqb_spec (v / 2 ^ k * 2 ^ k) 0) as [H0|H0]; cbn [negb].
  - assert (v / 2 ^ k = 0) as Hs by nia. apply Z.div_small_iff in Hs; [|lia].
    exists p, v. split; [done|]. split; [lia|done].
  - assert (0 <= v / 2 ^ k) by (apply Z.div_pos; lia).
    exists (p - k), (v / 2 ^ k). split; [done|]. split; [nia|].
    rewrite <- Z.shiftr_div_pow2, Z.log2_shiftr by lia.
    assert (k <= Z.log2 v); [|lia]. apply Z.log2_le_pow2; [lia|].
    destruct (Z.le_gt_cases (2 ^ k) v); [done|]. rewrite Z.div_small in H0 by lia. lia.
Qed.

(** [__clzsi2] counts leading zeros: for a non-zero word it returns 31
    minus the position of the highest set bit. *)
Theorem clzsi2_correct (v : Z) (Hv : 0 < v < 4294967296) : __clzsi2 v = 31 - Z.log2 v.
Proof.
  unfold __clzsi2.
  destruct (clz_step_spec 0xffff0000 16 31 v) as (p1 & v1 & -> & H1 & E1); [lia|done|done|].
  destruct (clz_step_spec 0xff00 8 p1 v1) as (p2 & v2 & -> & H2 & E2); [lia|done|done|].
  destruct (clz_step_spec 0xf0 4 p2 v2) as (p3 & v3 & -> & H3 & E3); [lia|done|done|].
  destruct (clz_step_spec 0xc 2 p3 v3) as (p4 & v4 & -> & H4 & E4); [lia|done|done|].
  destruct (clz_step_spec 0x2 1 p4 v4) as (p5 & v5 & -> & H5 & E5); [lia|done|done|].
  change (2 ^ 1) with 2 in H5. assert (v5 = 1) as -> by lia.
  change (Z.log2 1) with 0 in E5. cbn [fst].
  assert (Z.log2 v < 32) by (apply Z.log2_lt_pow2; [lia|change (2 ^ 32) with 4294967296; lia]).
  pose proof (Z.log2_nonneg v). rewrite u32_small; lia.
Qed.

Lemma clzsi2_correct_witness : __clzsi2 0x00012345 = 15.
Proof. exact (clzsi2_correct 0x00012345 ltac:(lia)). Defined.
