(* ===== verification/Crc.v ===== *)
(** * CRC-32 (src/libz/hash/crc.c)

    The table-driven checksum of POSIX [cksum], with the table of the source,
    and a bit-by-bit reference. *)
From S2P Require Import Prelude.

Local Open Scope Z_scope.

Definition tab : list Z :=
  [0x00000000; 0x04C11DB7; 0x09823B6E; 0x0D4326D9; 0x130476DC; 0x17C56B6B;
   0x1A864DB2; 0x1E475005; 0x2608EDB8; 0x22C9F00F; 0x2F8AD6D6; 0x2B4BCB61;
   0x350C9B64; 0x31CD86D3; 0x3C8EA00A; 0x384FBDBD; 0x4C11DB70; 0x48D0C6C7;
   0x4593E01E; 0x4152FDA9; 0x5F15ADAC; 0x5BD4B01B; 0x569796C2; 0x52568B75;
   0x6A1936C8; 0x6ED82B7F; 0x639B0DA6; 0x675A1011; 0x791D4014; 0x7DDC5DA3;
   0x709F7B7A; 0x745E66CD; 0x9823B6E0; 0x9CE2AB57; 0x91A18D8E; 0x95609039;
   0x8B27C03C; 0x8FE6DD8B; 0x82A5FB52; 0x8664E6E5; 0xBE2B5B58; 0xBAEA46EF;
   0xB7A96036; 0xB3687D81; 0xAD2F2D84; 0xA9EE3033; 0xA4AD16EA; 0xA06C0B5D;
   0xD4326D90; 0xD0F37027; 0xDDB056FE; 0xD9714B49; 0xC7361B4C; 0xC3F706FB;
   0xCEB42022; 0xCA753D95; 0xF23A8028; 0xF6FB9D9F; 0xFBB8BB46; 0xFF79A6F1;
   0xE13EF6F4; 0xE5FFEB43; 0xE8BCCD9A; 0xEC7DD02D; 0x34867077; 0x30476DC0;
   0x3D044B19; 0x39C556AE; 0x278206AB; 0x23431B1C; 0x2E003DC5; 0x2AC12072;
   0x128E9DCF; 0x164F8078; 0x1B0CA6A1; 0x1FCDBB16; 0x018AEB13; 0x054BF6A4;
   0x0808D07D; 0x0CC9CDCA; 0x7897AB07; 0x7C56B6B0; 0x71159069; 0x75D48DDE;
   0x6B93DDDB; 0x6F52C06C; 0x6211E6B5; 0x66D0FB02; 0x5E9F46BF; 0x5A5E5B08;
   0x571D7DD1; 0x53DC6066; 0x4D9B3063; 0x495A2DD4; 0x44190B0D; 0x40D816BA;
   0xACA5C697; 0xA864DB20; 0xA527FDF9; 0xA1E6E04E; 0xBFA1B04B; 0xBB60ADFC;
   0xB6238B25; 0xB2E29692; 0x8AAD2B2F; 0x8E6C3698; 0x832F1041; 0x87EE0DF6;
   0x99A95DF3; 0x9D684044; 0x902B669D; 0x94EA7B2A; 0xE0B41DE7; 0xE4750050;
   0xE9362689; 0xEDF73B3E; 0xF3B06B3B; 0xF771768C; 0xFA325055; 0xFEF34DE2;
   0xC6BCF05F; 0xC27DEDE8; 0xCF3ECB31; 0xCBFFD686; 0xD5B88683; 0xD1799B34;
   0xDC3ABDED; 0xD8FBA05A; 0x690CE0EE; 0x6DCDFD59; 0x608EDB80; 0x644FC637;
   0x7A089632; 0x7EC98B85; 0x738AAD5C; 0x774BB0EB; 0x4F040D56; 0x4BC510E1;
   0x46863638; 0x42472B8F; 0x5C007B8A; 0x58C1663D; 0x558240E4; 0x51435D53;
   0x251D3B9E; 0x21DC2629; 0x2C9F00F0; 0x285E1D47; 0x36194D42; 0x32D850F5;
   0x3F9B762C; 0x3B5A6B9B; 0x0315D626; 0x07D4CB91; 0x0A97ED48; 0x0E56F0FF;
   0x1011A0FA; 0x14D0BD4D; 0x19939B94; 0x1D528623; 0xF12F560E; 0xF5EE4BB9;
   0xF8AD6D60; 0xFC6C70D7; 0xE22B20D2; 0xE6EA3D65; 0xEBA91BBC; 0xEF68060B;
   0xD727BBB6; 0xD3E6A601; 0xDEA580D8; 0xDA649D6F; 0xC423CD6A; 0xC0E2D0DD;
   0xCDA1F604; 0xC960EBB3; 0xBD3E8D7E; 0xB9FF90C9; 0xB4BCB610; 0xB07DABA7;
   0xAE3AFBA2; 0xAAFBE615; 0xA7B8C0CC; 0xA379DD7B; 0x9B3660C6; 0x9FF77D71;
   0x92B45BA8; 0x9675461F; 0x8832161A; 0x8CF30BAD; 0x81B02D74; 0x857130C3;
   0x5D8A9099; 0x594B8D2E; 0x5408ABF7; 0x50C9B640; 0x4E8EE645; 0x4A4FFBF2;
   0x470CDD2B; 0x43CDC09C; 0x7B827D21; 0x7F436096; 0x7200464F; 0x76C15BF8;
   0x68860BFD; 0x6C47164A; 0x61043093; 0x65C52D24; 0x119B4BE9; 0x155A565E;
   0x18197087; 0x1CD86D30; 0x029F3D35; 0x065E2082; 0x0B1D065B; 0x0FDC1BEC;
   0x3793A651; 0x3352BBE6; 0x3E119D3F; 0x3AD08088; 0x2497D08D; 0x2056CD3A;
   0x2D15EBE3; 0x29D4F654; 0xC5A92679; 0xC1683BCE; 0xCC2B1D17; 0xC8EA00A0;
   0xD6AD50A5; 0xD26C4D12; 0xDF2F6BCB; 0xDBEE767C; 0xE3A1CBC1; 0xE760D676;
   0xEA23F0AF; 0xEEE2ED18; 0xF0A5BD1D; 0xF464A0AA; 0xF9278673; 0xFDE69BC4;
   0x89B8FD09; 0x8D79E0BE; 0x803AC667; 0x84FBDBD0; 0x9ABC8BD5; 0x9E7D9662;
   0x933EB0BB; 0x97FFAD0C; 0xAFB010B1; 0xAB710D06; 0xA6322BDF; 0xA2F33668;
   0xBCB4666D; 0xB8757BDA; 0xB5365D03; 0xB1F740B4].

Record crc := Crc { sum : Z; total : Z }.

(** [s->sum = (s->sum << 8) ^ tab[(s->sum >> 24) ^ byte]] *)
Definition crc_step (s byte : Z) : option Z :=
  t ← rd tab (Z.lxor (Z.shiftr s 24) byte);
  Some (Z.lxor (u32 (Z.shiftl s 8)) t).

Fixpoint crc_read_loop (n : nat) (data : list Z) (i s : Z) : option Z :=
  match n with
  | O => Some s
  | S n => d ← rd data i; s ← crc_step s d; crc_read_loop n data (i + 1) s
  end.

Definition crc_read (c : crc) (buffer : list Z) (count : Z) : option crc :=
  s ← crc_read_loop (Z.to_nat count) buffer 0 (sum c);
  Some (Crc s (u32 (total c + count))).

(** [for (i = s->total; i > 0; i >>= 8)]: a word has four bytes. *)
Fixpoint crc_finalize_loop (fuel : nat) (i s : Z) : option Z :=
  if 0 <? i then
    match fuel with
    | O => None
    | S fuel => s ← crc_step s (Z.land i 0xFF); crc_finalize_loop fuel (Z.shiftr i 8) s
    end
  else Some s.

Definition crc_finalize (c : crc) : option (crc * Z) :=
  s ← crc_finalize_loop 4 (total c) (sum c);
  Some (Crc s (total c), u32 (Z.lnot s)).

(** ** The reference: polynomial division, one bit at a time *)

Definition POLY : Z := 0x04C11DB7.

Definition bit_step (x : Z) : Z :=
  if Z.testbit x 31 then Z.lxor (u32 (Z.shiftl x 1)) POLY else u32 (Z.shiftl x 1).

Fixpoint bit_steps (n : nat) (x : Z) : Z :=
  match n with O => x | S n => bit_steps n (bit_step x) end.

(** Feeding one byte: it is added to the top of the register. *)
Definition crc_byte (s byte : Z) : Z := bit_steps 8 (Z.lxor s (Z.shiftl byte 24)).

Definition crc_bytes (s : Z) (bytes : list Z) : Z := foldl crc_byte s bytes.

(** The bytes of the length, least significant first. *)
Fixpoint length_bytes (fuel : nat) (n : Z) : list Z :=
  match fuel with
  | O => []
  | S fuel => if 0 <? n then Z.land n 0xFF :: length_bytes fuel (Z.shiftr n 8) else []
  end.

(** ** The table step equals eight bit steps *)

Lemma u32_lxor a b : u32 (Z.lxor a b) = Z.lxor (u32 a) (u32 b).
Proof.
  unfold u32. change 4294967296 with (2 ^ 32). rewrite <- !Z.land_ones by lia.
  apply Z.bits_inj'. intros n Hn. rewrite !Z.lxor_spec, !Z.land_spec, Z.lxor_spec.
  by destruct (Z.testbit a n), (Z.testbit b n), (Z.testbit (Z.ones 32) n).
Qed.

Lemma bit_step_lxor x y : bit_step (Z.lxor x y) = Z.lxor (bit_step x) (bit_step y).
Proof.
  unfold bit_step. rewrite Z.lxor_spec, Z.shiftl_lxor, u32_lxor.
  set (a := u32 (Z.shiftl x 1)). set (b := u32 (Z.shiftl y 1)).
  apply Z.bits_inj'. intros n Hn.
  destruct (Z.testbit x 31), (Z.testbit y 31); cbn [xorb]; rewrite ?Z.lxor_spec;
    destruct (Z.testbit a n), (Z.testbit b n), (Z.testbit POLY n); done.
Qed.

Lemma bit_steps_lxor n x y : bit_steps n (Z.lxor x y) = Z.lxor (bit_steps n x) (bit_steps n y).
Proof.
  revert x y. induction n as [|n IH]; intros x y; cbn [bit_steps]; [done|].
  by rewrite bit_step_lxor, IH.
Qed.

(** Bits that do not reach the top are only shifted. *)
Lemma bit_steps_low n x :
  (n <= 32)%nat -> 0 <= x < 2 ^ (32 - Z.of_nat n) -> bit_steps n x = x * 2 ^ Z.of_nat n.
Proof.
  revert x. induction n as [|n IH]; intros x Hn Hx; cbn [bit_steps].
  { change (2 ^ Z.of_nat 0) with 1. lia. }
  assert (2 ^ (32 - Z.of_nat (S n)) <= 2 ^ 31) by (apply Z.pow_le_mono_r; lia).
  change (2 ^ 31) with 2147483648 in *.
  assert (bit_step x = x * 2) as ->.
  { unfold bit_step. rewrite Z.shiftl_mul_pow2 by lia. change (2 ^ 1) with 2.
    rewrite (proj2 (Z.testbit_false x 31 ltac:(lia)));
      [|rewrite Z.div_small by (change (2 ^ 31) with 2147483648; lia); done].
    rewrite u32_small; lia. }
  replace (32 - Z.of_nat n) with (Z.succ (32 - Z.of_nat (S n))) in IH by lia.
  rewrite Z.pow_succ_r in IH by lia. rewrite IH by lia.
  rewrite Nat2Z.inj_succ, Z.pow_succ_r by lia. lia.
Qed.

Lemma tab_spec h : 0 <= h < 256 -> rd tab h = Some (bit_steps 8 (Z.shiftl h 24)).
Proof.
  intros Hh. assert (Forall (fun h => rd tab h = Some (bit_steps 8 (Z.shiftl h 24)))
    (Z.of_nat <$> seq 0 256)) as Hall.
  { repeat (apply Forall_cons_2; [vm_compute; reflexivity|]). apply Forall_nil_2. }
  rewrite Forall_forall in Hall. apply Hall, list_elem_of_fmap. exists (Z.to_nat h).
  split; [lia|]. apply elem_of_seq. lia.
Qed.

Lemma lxor_bound a b k : 0 <= k -> 0 <= a < 2 ^ k -> 0 <= b < 2 ^ k -> 0 <= Z.lxor a b < 2 ^ k.
Proof.
  intros Hk Ha Hb.
  assert (Z.lxor a b = Z.lxor a b mod 2 ^ k) as ->; [|apply Z.mod_pos_bound; lia].
  rewrite <- (Z.mod_small a (2 ^ k)), <- (Z.mod_small b (2 ^ k)) by lia.
  rewrite <- !Z.land_ones by done. apply Z.bits_inj'. intros n Hn.
  rewrite !Z.land_spec, !Z.lxor_spec, !Z.land_spec.
  by destruct (Z.testbit a n), (Z.testbit b n), (Z.testbit (Z.ones k) n).
Qed.

(** The register splits into its top byte and the rest. *)
Lemma split_top s : 0 <= s < 4294967296 ->
  s = Z.lxor (Z.shiftl (Z.shiftr s 24) 24) (s mod 2 ^ 24).
Proof.
  intros Hs. apply Z.bits_inj'. intros n Hn. rewrite Z.lxor_spec, Z.testbit_mod_pow2 by lia.
  destruct (Z.ltb_spec n 24).
  - rewrite Z.shiftl_spec_low by lia. cbn [xorb]. by destruct (Z.testbit s n).
  - rewrite Z.shiftl_spec, Z.shiftr_spec by lia. replace (n - 24 + 24) with n by lia.
    cbn [xorb]. by destruct (Z.testbit s n).
Qed.

Lemma crc_step_spec s b : 0 <= s < 4294967296 -> 0 <= b < 256 -> crc_step s b = Some (crc_byte s b).
Proof.
  intros Hs Hb. unfold crc_step, crc_byte.
  assert (0 <= Z.shiftr s 24 < 256) as Htop
    by (rewrite Z.shiftr_div_pow2 by lia; change (2 ^ 24) with 16777216; zmod).
  rewrite tab_spec by (apply (lxor_bound _ _ 8); done). cbn [mbind option_bind]. f_equal.
  rewrite (split_top s) at 3 by done.
  rewrite (Z.lxor_comm _ (s mod 2 ^ 24)), Z.lxor_assoc, <- Z.shiftl_lxor, bit_steps_lxor. f_equal.
  rewrite (bit_steps_low 8 (s mod 2 ^ 24)) by (lia || (apply Z.mod_pos_bound; lia)).
  rewrite Z.shiftl_mul_pow2 by lia. change (2 ^ 8) with 256. change (2 ^ Z.of_nat 8) with 256.
  change (2 ^ 24) with 16777216. zwrap.
Qed.

Lemma bit_steps_range n x : 0 <= x < 4294967296 -> 0 <= bit_steps n x < 4294967296.
Proof.
  revert x. induction n as [|n IH]; intros x Hx; cbn [bit_steps]; [done|]. apply IH. unfold bit_step.
  case_match; [|apply u32_range]. apply (lxor_bound _ _ 32); [lia|apply u32_range|done].
Qed.

Lemma crc_byte_range s b : 0 <= s < 4294967296 -> 0 <= b < 256 -> 0 <= crc_byte s b < 4294967296.
Proof.
  intros Hs Hb. apply bit_steps_range. apply (lxor_bound _ _ 32); [lia|done|].
  rewrite Z.shiftl_mul_pow2 by lia. change (2 ^ 24) with 16777216. change (2 ^ 32) with 4294967296. lia.
Qed.

Lemma crc_read_loop_spec xs p q s :
  0 <= s < 4294967296 -> Forall (fun b => 0 <= b < 256) xs ->
  crc_read_loop (length xs) (p ++ xs ++ q) (Z.of_nat (length p)) s = Some (crc_bytes s xs) /\
  0 <= crc_bytes s xs < 4294967296.
Proof.
  revert p s. induction xs as [|x xs IH]; intros p s Hs Hx; cbn [crc_read_loop length crc_bytes foldl].
  { done. }
  inversion Hx as [|? ? Hb Hx']; subst. cbn [app]. rewrite rd_mid. cbn [mbind option_bind].
  rewrite crc_step_spec by done. cbn [mbind option_bind].
  rewrite mid_snoc, <- (length_snoc p x). apply IH; [by apply crc_byte_range|done].
Qed.

Lemma crc_finalize_loop_spec fuel i s :
  0 <= s < 4294967296 -> 0 <= i < 256 ^ Z.of_nat fuel ->
  crc_finalize_loop fuel i s = Some (crc_bytes s (length_bytes fuel i)).
Proof.
  revert i s. induction fuel as [|fuel IH]; intros i s Hs Hi; cbn [crc_finalize_loop length_bytes].
  - change (256 ^ Z.of_nat 0) with 1 in Hi. by destruct (Z.ltb_spec 0 i); [lia|].
  - destruct (Z.ltb_spec 0 i); [|done]. rewrite Nat2Z.inj_succ, Z.pow_succ_r in Hi by lia.
    assert (0 <= Z.land i 0xFF < 256) as Hb
      by (change 0xFF with (Z.ones 8); rewrite Z.land_ones by lia; apply Z.mod_pos_bound; lia).
    rewrite crc_step_spec by done. cbn [mbind option_bind]. apply IH; [by apply crc_byte_range|].
    rewrite Z.shiftr_div_pow2 by lia. change (2 ^ 8) with 256.
    split; [apply Z.div_pos; lia|apply Z.div_lt_upper_bound; lia].
Qed.

(** ** Properties *)

(** C34. The table-driven checksum is polynomial division: reading any bytes and
    finalising yields the complement of the bit-by-bit CRC with polynomial
    0x04C11DB7 of the bytes followed by the bytes of their number, least
    significant first; reading a buffer in two parts gives the same state as
    reading it at once. *)
Theorem crc_is_polynomial_division (xs ys rest : list Z)
    (Hxs : Forall (fun b => 0 <= b < 256) xs) (Hys : Forall (fun b => 0 <= b < 256) ys)
    (Hlen : Z.of_nat (length (xs ++ ys)) < 4294967296) :
  let n := Z.of_nat (length (xs ++ ys)) in
  exists c1 c2, crc_read (Crc 0 0) (xs ++ ys ++ rest) (Z.of_nat (length xs)) = Some c1 /\
    crc_read c1 (ys ++ rest) (Z.of_nat (length ys)) = Some c2 /\
    crc_read (Crc 0 0) (xs ++ ys ++ rest) n = Some c2 /\
    crc_finalize c2 =
      Some (Crc (crc_bytes 0 ((xs ++ ys) ++ length_bytes 4 n)) n,
            u32 (Z.lnot (crc_bytes 0 ((xs ++ ys) ++ length_bytes 4 n)))).
Proof.
  intros n. rewrite length_app in Hlen.
  destruct (crc_read_loop_spec xs [] (ys ++ rest) 0 ltac:(lia) Hxs) as [H1 R1].
  destruct (crc_read_loop_spec ys [] rest (crc_bytes 0 xs) R1 Hys) as [H2 R2].
  destruct (crc_read_loop_spec (xs ++ ys) [] rest 0 ltac:(lia)) as [H3 R3];
    [by apply Forall_app|].
  rewrite <- app_assoc in H3.
  change (Z.of_nat (length (@nil Z))) with 0 in *. cbn [app] in *.
  exists (Crc (crc_bytes 0 xs) (Z.of_nat (length xs))), (Crc (crc_bytes 0 (xs ++ ys)) n).
  unfold crc_read. cbn [sum total]. rewrite !Nat2Z.id.
  rewrite H1, H2. unfold n. rewrite Nat2Z.id, H3. cbn [mbind option_bind].
  rewrite !(u32_small (0 + _)), (u32_small (_ + _)) by (rewrite ?length_app; lia).
  rewrite !Z.add_0_l. split; [done|]. split.
  { unfold crc_bytes. rewrite foldl_app, length_app, Nat2Z.inj_add. done. }
  split; [done|]. unfold crc_finalize. cbn [sum total].
  rewrite crc_finalize_loop_spec by (done || (rewrite length_app; change (256 ^ Z.of_nat 4) with 4294967296; lia)).
  cbn [mbind option_bind]. unfold crc_bytes. rewrite <- foldl_app. done.
Qed.

(** The check value of POSIX [cksum] for ["123456789"]. *)
Lemma crc_is_polynomial_division_witness :
  exists c1 c2, crc_read (Crc 0 0) [49; 50; 51; 52; 53; 54; 55; 56; 57] 4 = Some c1 /\
    crc_read c1 [53; 54; 55; 56; 57] 5 = Some c2 /\
    exists c3, crc_finalize c2 = Some (c3, 930766865).
Proof.
  destruct (crc_is_polynomial_division [49; 50; 51; 52] [53; 54; 55; 56; 57] [])
    as (c1 & c2 & H1 & H2 & _ & H3).
  - repeat constructor; lia.
  - repeat constructor; lia.
  - reflexivity.
  - exists c1, c2. split; [exact H1|]. split; [exact H2|]. eexists. rewrite H3.
    vm_compute. reflexivity.
Defined.
