(* ===== verification/BlockHash.v ===== *)
(** * Block hashes (src/libz/hash/md5.c, sha1.c: the streaming part)

    [md5_read] and [sha1_read] are the same code around a different compression
    function, and so are [md5_write] and [sha1_write] up to the byte order of
    the length and the digest.  This file states what the streaming code needs
    as an interface, models it once against the interface, and proves that it
    hashes the padded message whatever the chunks it was read in.  Md5.v and
    Sha1.v supply the instances. *)
From S2P Require Import Prelude Buffer.

Local Open Scope Z_scope.

(** What a hash provides: the chaining value it starts from, [processblock] on
    one 64-byte block, the eight length bytes of the padding from [lo << 3] and
    [hi], and the digest bytes of the final chaining value. *)
Class BlockHash (chain : Type) := {
  bh_init : chain;
  bh_compress : chain -> list Z -> chain;
  bh_length : Z -> Z -> list Z;
  bh_digest : chain -> list Z;
  bh_length_8 : forall lo hi, length (bh_length lo hi) = 8%nat
}.

Section hash.
Context {chain : Type} `{BlockHash chain}.

(** [struct md5] / [struct sha1]: the length split at bit 29, the chaining value,
    the block buffer. *)
Record hash_state := Hash { h_lo : Z; h_hi : Z; h_chain : chain; h_buffer : list Z }.

(** [md5_init] leaves the buffer as it is. *)
Definition hash_init (buffer : list Z) : hash_state := Hash 0 0 bh_init buffer.

(** The 64 bytes at [p]. *)
Definition block_at (data : list Z) (p : Z) : option (list Z) :=
  if decide (0 <= p /\ p + 64 <= Z.of_nat (length data)) then Some (slice data (Z.to_nat p) 64)
  else None.

(** [for (; count >= 64; count -= 64, p += 64) processblock(s, p)] *)
Fixpoint read_blocks (n : nat) (c : chain) (data : list Z) (p : Z) : option chain :=
  match n with
  | O => Some c
  | S n => b ← block_at data p; read_blocks n (bh_compress c b) data (p + 64)
  end.

Definition hash_read (s : hash_state) (data : list Z) (count : Z) : option hash_state :=
  let r := Z.land (h_lo s) 0x3F in
  let temp := h_lo s in
  let lo := Z.land (u32 (h_lo s + count)) 0x1FFFFFFF in
  let hi := u32 (h_hi s + Z.shiftr count 29) in
  let hi := if lo <? temp then u32 (hi + 1) else hi in
  '(c, buffer, p, count) ←
    (if negb (r =? 0) then
       let c := 64 - r in
       if count <? c then
         buffer ← buffer_copy (h_buffer s) r data 0 count;
         Some (h_chain s, buffer, -1, 0)
       else
         buffer ← buffer_copy (h_buffer s) r data 0 c;
         Some (bh_compress (h_chain s) buffer, buffer, c, count - c)
     else Some (h_chain s, h_buffer s, 0, count));
  if p =? -1 then Some (Hash lo hi c buffer)
  else
    c ← read_blocks (Z.to_nat (count / 64)) c data p;
    let p := p + 64 * (count / 64) in
    let count := count mod 64 in
    buffer ← buffer_copy buffer 0 data p count;
    Some (Hash lo hi c buffer).

(** The final block or blocks; the state it leaves, and the digest. *)
Definition hash_write (s : hash_state) : option (hash_state * list Z) :=
  let r := Z.land (h_lo s) 0x3F in
  buffer ← wr (h_buffer s) r 0x80;
  let r := r + 1 in
  '(c, buffer, r) ←
    (if 56 <? r then
       buffer ← buffer_clear buffer r (64 - r);
       Some (bh_compress (h_chain s) buffer, buffer, 0)
     else Some (h_chain s, buffer, r));
  buffer ← buffer_clear buffer r (56 - r);
  let lo := u32 (Z.shiftl (h_lo s) 3) in
  buffer ← buffer_copy buffer 56 (bh_length lo (h_hi s)) 0 8;
  let c := bh_compress c buffer in
  Some (Hash lo (h_hi s) c buffer, bh_digest c).

(** ** The reference: hashing a complete message *)

(** [n] blocks from the front of [m]. *)
Fixpoint run (n : nat) (c : chain) (m : list Z) : chain :=
  match n with
  | O => c
  | S n => run n (bh_compress c (take 64 m)) (drop 64 m)
  end.

(** The padded message: a 1 bit, zeros up to 56 modulo 64, the bit length. *)
Definition pad (m : list Z) : list Z :=
  let n := Z.of_nat (length m) in
  m ++ [0x80] ++ replicate (Z.to_nat ((55 - n) mod 64)) 0 ++
    bh_length (u32 (8 * (n mod 2 ^ 29))) (u32 (n / 2 ^ 29)).

Definition hash_message (m : list Z) : list Z :=
  bh_digest (run (length (pad m) / 64) bh_init (pad m)).

(** The state after reading the message [m]. *)
Record holds (s : hash_state) (m : list Z) : Prop := {
  ho_lo : h_lo s = Z.of_nat (length m) mod 2 ^ 29;
  ho_hi : h_hi s = u32 (Z.of_nat (length m) / 2 ^ 29);
  ho_chain : h_chain s = run (length m / 64) bh_init m;
  ho_buffer : take (length m mod 64) (h_buffer s) = drop (64 * (length m / 64)) m;
  ho_size : length (h_buffer s) = 64%nat
}.

(** ** Blocks *)


Lemma run_add n1 n2 c m : run (n1 + n2) c m = run n2 (run n1 c m) (drop (64 * n1) m).
Proof.
  revert c m. induction n1 as [|n1 IH]; intros c m; cbn [Nat.add run].
  { by rewrite Nat.mul_0_r, drop_0. }
  rewrite IH, drop_drop. do 2 f_equal. lia.
Qed.

Lemma run_app n c m x : (64 * n <= length m)%nat -> run n c (m ++ x) = run n c m.
Proof.
  revert c m. induction n as [|n IH]; intros c m Hl; cbn [run]; [done|].
  rewrite take_app_le, drop_app_le by lia. apply IH. rewrite length_drop. lia.
Qed.

Lemma read_blocks_spec n c data (p : nat) :
  (p + 64 * n <= length data)%nat ->
  read_blocks n c data (Z.of_nat p) = Some (run n c (drop p data)).
Proof.
  revert c p. induction n as [|n IH]; intros c p Hl; cbn [read_blocks run]; [done|].
  unfold block_at. rewrite decide_True by lia. cbn [mbind option_bind]. rewrite Nat2Z.id.
  replace (Z.of_nat p + 64) with (Z.of_nat (p + 64)) by lia. rewrite IH by lia.
  rewrite drop_drop. done.
Qed.

Lemma land_63 n : Z.land (Z.of_nat n mod 2 ^ 29) 0x3F = Z.of_nat (n mod 64).
Proof.
  change 0x3F with (2 ^ 6 - 1). rewrite land_pow2_pred by lia.
  rewrite Nat2Z.inj_mod. change (Z.of_nat 64) with 64. change (2 ^ 6) with 64.
  change (2 ^ 29) with 536870912. zmod.
Qed.

(** The split length counts bytes. *)
Lemma length_split n k :
  0 <= n -> 0 <= k < 4294967296 ->
  let lo := Z.land (u32 (n mod 2 ^ 29 + k)) 0x1FFFFFFF in
  let hi := u32 (u32 (n / 2 ^ 29) + Z.shiftr k 29) in
  lo = (n + k) mod 2 ^ 29 /\
  (if lo <? n mod 2 ^ 29 then u32 (hi + 1) else hi) = u32 ((n + k) / 2 ^ 29).
Proof.
  intros Hn Hk lo hi. unfold lo, hi. clear lo hi.
  change 0x1FFFFFFF with (2 ^ 29 - 1). rewrite land_pow2_pred, Z.shiftr_div_pow2 by lia.
  rewrite u32_mod_pow2 by lia. change (2 ^ 29) with 536870912.
  split; [zmod|]. rewrite Zplus_mod_idemp_l.
  destruct (Z.ltb_spec ((n + k) mod 536870912) (n mod 536870912)).
  - rewrite !u32_add_l, <- Z.add_assoc, u32_add_l. f_equal. zmod.
  - rewrite u32_add_l. f_equal. zmod.
Qed.

(** Reading from a block boundary of the message on: the remaining blocks, and
    the rest into the buffer. *)
Lemma read_tail m x rest p q buf :
  length buf = 64%nat -> (64 * q = length m + p)%nat -> (p <= length x)%nat ->
  let count := Z.of_nat (length x - p) in
  let total := length (m ++ x) in
  exists buf',
    read_blocks (Z.to_nat (count / 64)) (run q bh_init (m ++ x)) (x ++ rest) (Z.of_nat p) =
      Some (run (total / 64) bh_init (m ++ x)) /\
    buffer_copy buf 0 (x ++ rest) (Z.of_nat p + 64 * (count / 64)) (count mod 64) = Some buf' /\
    length buf' = 64%nat /\ take (total mod 64) buf' = drop (64 * (total / 64)) (m ++ x).
Proof.
  intros Hb Hq Hp count total. unfold count. clear count.
  set (k := ((length x - p) / 64)%nat).
  assert (Z.of_nat (length x - p) / 64 = Z.of_nat k) as ->
    by (unfold k; rewrite Nat2Z.inj_div; done).
  assert (Z.of_nat (length x - p) mod 64 = Z.of_nat ((length x - p) mod 64)) as ->
    by (rewrite Nat2Z.inj_mod; done).
  pose proof (Nat.div_mod (length x - p) 64 ltac:(lia)) as Hdm. fold k in Hdm.
  pose proof (Nat.mod_upper_bound (length x - p) 64 ltac:(lia)) as Hub.
  set (j := ((length x - p) mod 64)%nat) in *. clearbody k j.
  assert (total = 64 * (q + k) + j)%nat as Htot by (unfold total; rewrite length_app; lia).
  assert (total / 64 = q + k)%nat as Hdiv by (symmetry; apply (Nat.div_unique _ _ _ j); lia).
  assert (total mod 64 = j)%nat as Hmod by (symmetry; apply (Nat.mod_unique _ _ (q + k)); lia).
  rewrite Hdiv, Hmod, Nat2Z.id.
  exists (splice buf 0 (slice (x ++ rest) (p + 64 * k) j)).
  assert (p + 64 * k + j <= length (x ++ rest))%nat by (rewrite length_app; lia).
  split_and!.
  - rewrite read_blocks_spec by lia. rewrite run_add. f_equal.
    assert (drop (64 * q) (m ++ x) = drop p x) as Hdrop.
    { rewrite Hq, <- drop_drop, drop_app_length. done. }
    rewrite Hdrop. rewrite drop_app_le by lia. apply run_app. rewrite length_drop. lia.
  - rewrite buffer_copy_spec, Nat2Z.id by lia.
    by replace (Z.to_nat (Z.of_nat p + 64 * Z.of_nat k)) with (p + 64 * k)%nat by lia.
  - rewrite length_splice; [done|]. rewrite length_slice by lia. lia.
  - rewrite splice_0 by (rewrite length_slice; lia).
    rewrite take_app_length' by (rewrite length_slice; lia).
    replace (64 * (q + k))%nat with (length m + (p + 64 * k))%nat by lia.
    rewrite <- drop_drop, drop_app_length. unfold slice.
    rewrite drop_app_le, take_app_le by (rewrite ?length_drop; lia).
    rewrite take_ge by (rewrite length_drop; lia). done.
Qed.

(** Completing the block in the buffer with the first bytes of [x]. *)
Lemma complete_block m x q r buf :
  length m = (64 * q + r)%nat -> (r < 64)%nat -> (64 - r <= length x)%nat -> length buf = 64%nat ->
  take r buf = drop (64 * q) m ->
  bh_compress (run q bh_init m) (splice buf r (take (64 - r) x)) = run (q + 1) bh_init (m ++ x).
Proof.
  intros Hm Hr Hx Hb Hbuf. rewrite run_add, run_app by lia. cbn [run]. f_equal.
  rewrite drop_app_le, <- Hbuf by lia. unfold splice.
  rewrite length_take, Nat.min_l, (drop_ge buf), app_nil_r by lia.
  rewrite take_app_ge by (rewrite length_take; lia). rewrite length_take. do 2 f_equal. lia.
Qed.

Lemma hash_read_holds s m x rest :
  holds s m -> Z.of_nat (length x) < 4294967296 ->
  exists s', hash_read s (x ++ rest) (Z.of_nat (length x)) = Some s' /\ holds s' (m ++ x).
Proof.
  intros [Hlo Hhi Hc Hbuf Hsz] Hx. unfold hash_read. rewrite Hlo, Hhi, land_63.
  destruct (length_split (Z.of_nat (length m)) (Z.of_nat (length x)) ltac:(lia) ltac:(lia)) as [-> ->].
  rewrite <- Nat2Z.inj_add, <- length_app.
  pose proof (Nat.div_mod (length m) 64 ltac:(lia)) as Hdm.
  pose proof (Nat.mod_upper_bound (length m) 64 ltac:(lia)) as Hub.
  set (r := (length m mod 64)%nat) in *. set (q := (length m / 64)%nat) in *. clearbody r q.
  assert (64 * q <= length m)%nat as Hqm by lia.
  destruct (Z.eqb_spec (Z.of_nat r) 0) as [Hr|Hr]; cbn [negb].
  - (* the buffer is empty *)
    cbn [mbind option_bind]. change (0 =? -1) with false. cbv iota.
    destruct (read_tail m x rest 0 q (h_buffer s) Hsz ltac:(lia) ltac:(lia))
      as (buf' & Hrb & Hbc & Hl & Ht).
    rewrite run_app in Hrb by done. rewrite Nat.sub_0_r in *. change (Z.of_nat 0) with 0 in *.
    rewrite Hc, Hrb. cbn [mbind option_bind]. rewrite Hbc. cbn [mbind option_bind].
    eexists. split; [done|]. by split.
  - destruct (Z.ltb_spec (Z.of_nat (length x)) (64 - Z.of_nat r)) as [Hs|Hs].
    + (* everything fits into the buffer *)
      rewrite buffer_copy_spec by (rewrite ?length_app; lia). cbn [mbind option_bind].
      rewrite Z.eqb_refl. eexists. split; [done|]. rewrite !Nat2Z.id.
      unfold slice. rewrite drop_0, take_app_length.
      assert (length (m ++ x) / 64 = q)%nat as Hdiv.
      { symmetry. apply (Nat.div_unique _ _ _ (r + length x)); rewrite ?length_app; lia. }
      assert (length (m ++ x) mod 64 = r + length x)%nat as Hmod.
      { symmetry. apply (Nat.mod_unique _ _ q); rewrite ?length_app; lia. }
      split; cbn [h_lo h_hi h_chain h_buffer]; try done.
      * by rewrite Hdiv, run_app.
      * rewrite Hdiv, Hmod, drop_app_le, <- Hbuf by lia. unfold splice.
        rewrite app_assoc. apply take_app_length'. rewrite length_app, length_take. lia.
      * by rewrite length_splice by lia.
    + (* the buffer is completed and compressed *)
      rewrite buffer_copy_spec by (rewrite ?length_app; lia). cbn [mbind option_bind].
      destruct (Z.eqb_spec (64 - Z.of_nat r) (-1)); [lia|].
      replace (Z.to_nat (64 - Z.of_nat r)) with (64 - r)%nat by lia.
      rewrite !Nat2Z.id. change (Z.to_nat 0) with 0%nat.
      unfold slice. rewrite drop_0, take_app_le by lia.
      set (buf := splice (h_buffer s) r (take (64 - r) x)).
      assert (length buf = 64%nat) as Hlb
        by (unfold buf; rewrite length_splice; [done|rewrite length_take; lia]).
      assert (bh_compress (h_chain s) buf = run (q + 1) bh_init (m ++ x)) as ->
        by (rewrite Hc; apply complete_block; done || lia).
      destruct (read_tail m x rest (64 - r) (q + 1) buf Hlb ltac:(lia) ltac:(lia))
        as (buf' & Hrb & Hbc & Hl & Ht).
      replace (Z.of_nat (64 - r)) with (64 - Z.of_nat r) in * by lia.
      replace (Z.of_nat (length x - (64 - r))) with (Z.of_nat (length x) - (64 - Z.of_nat r)) in * by lia.
      rewrite Hrb. cbn [mbind option_bind]. rewrite Hbc. cbn [mbind option_bind].
      eexists. split; [done|]. by split.
Qed.

Lemma hash_init_holds buffer : length buffer = 64%nat -> holds (hash_init buffer) [].
Proof. intros Hb. by split. Qed.

(** The padded message, block by block. *)
Lemma pad_zeros (m : list Z) :
  Z.to_nat ((55 - Z.of_nat (length m)) mod 64) =
    (if decide (length m mod 64 <= 55)%nat then 55 - length m mod 64
     else 119 - length m mod 64)%nat.
Proof.
  pose proof (Nat.div_mod (length m) 64 ltac:(lia)) as Hdm.
  pose proof (Nat.mod_upper_bound (length m) 64 ltac:(lia)) as Hub.
  case_decide; zmod.
Qed.

Lemma splice_full (b : list Z) i xs :
  length b = 64%nat -> (i + length xs = 64)%nat -> splice b i xs = take i b ++ xs.
Proof. intros Hb Hi. unfold splice. rewrite (drop_ge b) by lia. by rewrite app_nil_r. Qed.

Lemma wr_splice (b : list Z) i v :
  (i < length b)%nat -> wr b (Z.of_nat i) v = Some (splice b i [v]).
Proof.
  intros Hi. rewrite wr_Some, Nat2Z.id by lia. f_equal.
  rewrite <- (splice_cons b i v []) by (simpl; lia). by rewrite splice_nil.
Qed.

(** The last block built in the buffer: the rest of the message, the 1 bit,
    zeros, the length. *)
Lemma final_block buf r lb :
  length buf = 64%nat -> (r <= 55)%nat -> length lb = 8%nat ->
  splice (splice (splice buf r [0x80]) (S r) (replicate (55 - r) 0)) 56 lb =
    take r buf ++ 0x80 :: replicate (55 - r) 0 ++ lb.
Proof.
  intros Hb Hr Hl.
  pose proof (splice_app buf r [0x80] (replicate (55 - r) 0)) as E1.
  rewrite length_replicate in E1. cbn [length app] in E1.
  replace (r + 1)%nat with (S r) in E1 by lia. rewrite E1 by lia.
  pose proof (splice_app buf r (0x80 :: replicate (55 - r) 0) lb) as E2.
  cbn [length] in E2. rewrite length_replicate in E2. replace (r + S (55 - r))%nat with 56%nat in E2 by lia.
  rewrite E2 by lia. rewrite splice_full; [done|done|].
  rewrite length_app. cbn [length]. rewrite length_replicate. lia.
Qed.

(** The chaining value of a padded message whose rest takes one more block, or
    two. *)
Lemma run_padded_one m q r tl :
  length m = (64 * q + r)%nat -> (r + length tl = 64)%nat ->
  run (length (m ++ tl) / 64) bh_init (m ++ tl) = bh_compress (run q bh_init m) (drop (64 * q) m ++ tl).
Proof.
  intros Hm Ht. assert (length (m ++ tl) / 64 = q + 1)%nat as ->.
  { symmetry. apply (Nat.div_unique _ _ _ 0); [lia|]. rewrite length_app. lia. }
  rewrite run_add, run_app by lia. cbn [run]. f_equal. rewrite drop_app_le by lia. apply take_ge.
  rewrite length_app, length_drop. lia.
Qed.

Lemma run_padded_two m q r tl1 tl2 :
  length m = (64 * q + r)%nat -> (r + length tl1 = 64)%nat -> length tl2 = 64%nat ->
  run (length (m ++ tl1 ++ tl2) / 64) bh_init (m ++ tl1 ++ tl2) =
    bh_compress (bh_compress (run q bh_init m) (drop (64 * q) m ++ tl1)) tl2.
Proof.
  intros Hm H1 H2. assert (length (m ++ tl1 ++ tl2) / 64 = q + 2)%nat as ->.
  { symmetry. apply (Nat.div_unique _ _ _ 0); [lia|]. rewrite !length_app. lia. }
  rewrite run_add, run_app by lia. cbn [run]. rewrite drop_app_le, (app_assoc (drop _ _)) by lia.
  assert (length (drop (64 * q) m ++ tl1) = 64%nat) as Hl by (rewrite length_app, length_drop; lia).
  rewrite take_app_length', drop_app_length' by done. f_equal. by apply take_ge; rewrite H2.
Qed.

(** Filling the buffer with zeros from [i] on. *)
Lemma fill_block buf r k :
  length buf = 64%nat -> (r + 1 + k = 64)%nat ->
  splice (splice buf r [0x80]) (S r) (replicate k 0) = take r buf ++ 0x80 :: replicate k 0.
Proof.
  intros Hb Hk. pose proof (splice_app buf r [0x80] (replicate k 0)) as E.
  rewrite length_replicate in E. cbn [length app] in E. replace (r + 1)%nat with (S r) in E by lia.
  rewrite E, splice_full; [done|done|cbn [length]; rewrite length_replicate; lia|lia].
Qed.

Lemma last_block buf lb :
  length buf = 64%nat -> length lb = 8%nat -> splice (splice buf 0 (replicate 56 0)) 56 lb = replicate 56 0 ++ lb.
Proof.
  intros Hb Hl. pose proof (splice_app buf 0 (replicate 56 0) lb) as E. rewrite length_replicate in E. cbn [Nat.add] in E.
  rewrite E, splice_full; [by rewrite take_0|done|rewrite length_app, length_replicate; lia|lia].
Qed.

Lemma length_splice_fill (b : list Z) i k v :
  length b = 64%nat -> (i + k <= 64)%nat -> length (splice b i (replicate k v)) = 64%nat.
Proof. intros Hb Hi. by rewrite length_splice by (rewrite length_replicate; lia). Qed.

Lemma hash_write_holds s m :
  holds s m -> exists s', hash_write s = Some (s', hash_message m).
Proof.
  intros [Hlo Hhi Hc Hbuf Hsz]. unfold hash_write. rewrite Hlo, Hhi, land_63. pose proof (pad_zeros m) as Hz.
  pose proof (Nat.div_mod (length m) 64 ltac:(lia)) as Hdm. pose proof (Nat.mod_upper_bound (length m) 64 ltac:(lia)) as Hub.
  set (r := (length m mod 64)%nat) in *. set (q := (length m / 64)%nat) in *. clearbody r q.
  set (lb := bh_length (u32 (8 * (Z.of_nat (length m) mod 2 ^ 29))) (u32 (Z.of_nat (length m) / 2 ^ 29))).
  assert (length lb = 8%nat) as Hlb by apply bh_length_8.
  replace (u32 (Z.shiftl (Z.of_nat (length m) mod 2 ^ 29) 3)) with (u32 (8 * (Z.of_nat (length m) mod 2 ^ 29)))
    by (rewrite Z.shiftl_mul_pow2 by lia; f_equal; lia).
  fold lb. rewrite wr_splice by lia. cbn [mbind option_bind].
  assert (length (splice (h_buffer s) r [128]) = 64%nat) as Hl1 by (apply (length_splice_fill _ r 1%nat); lia).
  unfold hash_message, pad. fold lb. rewrite Hz. replace (Z.to_nat (Z.of_nat r + 1)) with (S r) by lia.
  destruct (decide (r <= 55)%nat) as [Hr|Hr].
  - destruct (Z.ltb_spec 56 (Z.of_nat r + 1)); [lia|]. cbn [mbind option_bind].
    rewrite buffer_clear_spec by lia. cbn [mbind option_bind].
    replace (Z.to_nat (56 - (Z.of_nat r + 1))) with (55 - r)%nat by lia.
    replace (Z.to_nat (Z.of_nat r + 1)) with (S r) by lia.
    rewrite buffer_copy_spec by (rewrite ?length_splice_fill, ?Hlb by lia; lia). cbn [mbind option_bind].
    change (Z.to_nat 56) with 56%nat. change (Z.to_nat 0) with 0%nat. change (Z.to_nat 8) with 8%nat.
    unfold slice. rewrite drop_0, (take_ge lb), final_block by (done || lia). eexists. do 3 f_equal.
    rewrite (run_padded_one m q r); [by rewrite Hc, Hbuf|lia|].
    cbn [app length]. rewrite length_app, length_replicate. lia.
  - destruct (Z.ltb_spec 56 (Z.of_nat r + 1)); [|lia]. rewrite buffer_clear_spec by lia. cbn [mbind option_bind].
    replace (Z.to_nat (64 - (Z.of_nat r + 1))) with (63 - r)%nat by lia.
    replace (Z.to_nat (Z.of_nat r + 1)) with (S r) by lia.
    assert (length (splice (splice (h_buffer s) r [128]) (S r) (replicate (63 - r) 0)) = 64%nat) as Hb1
      by (apply length_splice_fill; lia).
    rewrite buffer_clear_spec by lia. cbn [mbind option_bind].
    change (Z.to_nat (56 - 0)) with 56%nat. change (Z.to_nat 0) with 0%nat.
    rewrite buffer_copy_spec by (rewrite ?length_splice_fill, ?Hlb by lia; lia). cbn [mbind option_bind].
    change (Z.to_nat 56) with 56%nat. change (Z.to_nat 0) with 0%nat. change (Z.to_nat 8) with 8%nat.
    unfold slice. rewrite drop_0, (take_ge lb), last_block, fill_block by (done || lia). eexists. do 3 f_equal.
    replace (119 - r)%nat with (63 - r + 56)%nat by lia. rewrite replicate_add.
    replace ([128] ++ (replicate (63 - r) 0 ++ replicate 56 0) ++ lb)
      with ((128 :: replicate (63 - r) 0) ++ replicate 56 0 ++ lb) by (cbn [app]; by rewrite <- app_assoc).
    rewrite (run_padded_two m q r); [by rewrite Hc, Hbuf|lia| |].
    + cbn [length]. rewrite length_replicate. lia.
    + rewrite length_app, length_replicate. lia.
Qed.

(** Reading a list of chunks one after the other. *)
Fixpoint read_chunks (s : hash_state) (chunks : list (list Z)) : option hash_state :=
  match chunks with
  | [] => Some s
  | x :: chunks => s ← hash_read s x (Z.of_nat (length x)); read_chunks s chunks
  end.

Lemma read_chunks_holds s m chunks :
  holds s m -> Forall (fun x => Z.of_nat (length x) < 4294967296) chunks ->
  exists s', read_chunks s chunks = Some s' /\ holds s' (m ++ concat chunks).
Proof.
  revert s m. induction chunks as [|x chunks IH]; intros s m Hs Hc; cbn [read_chunks concat].
  { exists s. by rewrite app_nil_r. }
  inversion Hc as [|? ? Hx Hc']; subst.
  destruct (hash_read_holds s m x [] Hs Hx) as (s1 & Hr & Hs1). rewrite app_nil_r in Hr.
  rewrite Hr. cbn [mbind option_bind]. rewrite app_assoc. by apply IH.
Qed.

(** Initialise, read the chunks, finish. *)
Definition hash_chunks (buffer : list Z) (chunks : list (list Z)) : option (list Z) :=
  s ← read_chunks (hash_init buffer) chunks;
  '(_, digest) ← hash_write s;
  Some digest.

Lemma hash_chunks_correct buffer chunks :
  length buffer = 64%nat -> Forall (fun x => Z.of_nat (length x) < 4294967296) chunks ->
  hash_chunks buffer chunks = Some (hash_message (concat chunks)).
Proof.
  intros Hb Hc. unfold hash_chunks.
  destruct (read_chunks_holds _ [] chunks (hash_init_holds buffer Hb) Hc) as (s & -> & Hs).
  cbn [mbind option_bind]. destruct (hash_write_holds s _ Hs) as (s' & ->). done.
Qed.
End hash.
#[global] Arguments hash_state : clear implicits.

(** ** Words *)

(** [rol] of both files. *)
Definition rol (n k : Z) : Z := Z.lor (u32 (Z.shiftl n k)) (Z.shiftr n (32 - k)).

Definition byte_of (v k : Z) : Z := u8 (Z.shiftr v (8 * k)).
