(* ===== verification/Md5.v ===== *)
(** * MD5 (src/libz/hash/md5.c)

    The compression function, as an instance of the block hash interface. *)
From S2P Require Import Prelude Buffer BlockHash.

Local Open Scope Z_scope.

Definition md5_tab : list Z :=
  [0xD76AA478; 0xE8C7B756; 0x242070DB; 0xC1BDCEEE; 0xF57C0FAF; 0x4787C62A;
   0xA8304613; 0xFD469501; 0x698098D8; 0x8B44F7AF; 0xFFFF5BB1; 0x895CD7BE;
   0x6B901122; 0xFD987193; 0xA679438E; 0x49B40821; 0xF61E2562; 0xC040B340;
   0x265E5A51; 0xE9B6C7AA; 0xD62F105D; 0x02441453; 0xD8A1E681; 0xE7D3FBC8;
   0x21E1CDE6; 0xC33707D6; 0xF4D50D87; 0x455A14ED; 0xA9E3E905; 0xFCEFA3F8;
   0x676F02D9; 0x8D2A4C8A; 0xFFFA3942; 0x8771F681; 0x6D9D6122; 0xFDE5380C;
   0xA4BEEA44; 0x4BDECFA9; 0xF6BB4B60; 0xBEBFBC70; 0x289B7EC6; 0xEAA127FA;
   0xD4EF3085; 0x04881D05; 0xD9D4D039; 0xE6DB99E5; 0x1FA27CF8; 0xC4AC5665;
   0xF4292244; 0x432AFF97; 0xAB9423A7; 0xFC93A039; 0x655B59C3; 0x8F0CCC92;
   0xFFEFF47D; 0x85845DD1; 0x6FA87E4F; 0xFE2CE6E0; 0xA3014314; 0x4E0811A1;
   0xF7537E82; 0xBD3AF235; 0x2AD7D2BB; 0xEB86D391].

Record md5_chain := Md5 { m_a : Z; m_b : Z; m_c : Z; m_d : Z }.

(** The macros [F], [G], [H], [I] on 32-bit words. *)
Definition F (x y z : Z) : Z := Z.lxor z (Z.land x (Z.lxor y z)).
Definition G (x y z : Z) : Z := Z.lxor y (Z.land z (Z.lxor y x)).
Definition H (x y z : Z) : Z := Z.lxor (Z.lxor x y) z.
Definition I (x y z : Z) : Z := Z.lxor y (Z.lor x (u32 (Z.lnot z))).

(** [a += f(b, c, d) + w + t; a = rol(a, s) + b] *)
Definition XX (f : Z -> Z -> Z -> Z) (a b c d w s t : Z) : Z :=
  let a := u32 (a + (f b c d + w + t)) in u32 (rol a s + b).

(** [W[i]]: the [i]-th little-endian word of the block. *)
Definition md5_W (buffer : list Z) (i : Z) : Z :=
  let b k := buffer !!! Z.to_nat (4 * i + k) in
  Z.lor (Z.lor (Z.lor (b 0) (Z.shiftl (b 1) 8)) (Z.shiftl (b 2) 16)) (Z.shiftl (b 3) 24).

Definition md5_T (i : Z) : Z := md5_tab !!! Z.to_nat i.

(** The four statements of a loop body, from counter [i]; [k] is the index of
    the word used at a counter. *)
Definition md5_body (f : Z -> Z -> Z -> Z) (k : Z -> Z) (s1 s2 s3 s4 : Z)
    (buffer : list Z) (i : Z) (q : md5_chain) : md5_chain :=
  let '(Md5 a b c d) := q in
  let a := XX f a b c d (md5_W buffer (k i)) s1 (md5_T i) in
  let d := XX f d a b c (md5_W buffer (k (i + 1))) s2 (md5_T (i + 1)) in
  let c := XX f c d a b (md5_W buffer (k (i + 2))) s3 (md5_T (i + 2)) in
  let b := XX f b c d a (md5_W buffer (k (i + 3))) s4 (md5_T (i + 3)) in
  Md5 a b c d.

(** [while (i < bound) body], four steps of the counter at a time. *)
Fixpoint md5_while (n : nat) (body : Z -> md5_chain -> md5_chain) (i : Z) (q : md5_chain)
    : md5_chain :=
  match n with O => q | S n => md5_while n body (i + 4) (body i q) end.

(** [processblock] *)
Definition md5_processblock (s : md5_chain) (buffer : list Z) : md5_chain :=
  let q := md5_while 4 (md5_body F (fun i => i) 7 12 17 22 buffer) 0 s in
  let q := md5_while 4 (md5_body G (fun i => (5 * i + 1) mod 16) 5 9 14 20 buffer) 16 q in
  let q := md5_while 4 (md5_body H (fun i => (3 * i + 5) mod 16) 4 11 16 23 buffer) 32 q in
  let q := md5_while 4 (md5_body I (fun i => 7 * i mod 16) 6 10 15 21 buffer) 48 q in
  Md5 (u32 (m_a s + m_a q)) (u32 (m_b s + m_b q)) (u32 (m_c s + m_c q)) (u32 (m_d s + m_d q)).

Definition le_bytes (v : Z) : list Z := [byte_of v 0; byte_of v 1; byte_of v 2; byte_of v 3].

(** [buffer[56..63]] of [md5_write], from [lo] and [hi]. *)
Definition md5_length (lo hi : Z) : list Z := le_bytes lo ++ le_bytes hi.

(** [digest[0..15]] *)
Definition md5_digest (s : md5_chain) : list Z :=
  le_bytes (m_a s) ++ le_bytes (m_b s) ++ le_bytes (m_c s) ++ le_bytes (m_d s).

#[global] Program Instance md5_hash : BlockHash md5_chain := {
  bh_init := Md5 0x67452301 0xEFCDAB89 0x98BADCFE 0x10325476;
  bh_compress := md5_processblock;
  bh_length := md5_length;
  bh_digest := md5_digest
}.
Next Obligation. done. Qed.

Definition md5_init (buffer : list Z) : hash_state md5_chain := hash_init buffer.
Definition md5_read (s : hash_state md5_chain) (data : list Z) (count : Z) :=
  hash_read s data count.
Definition md5_write (s : hash_state md5_chain) : option (hash_state md5_chain * list Z) :=
  hash_write s.

(** ** Properties *)

(** Reading chunks with [md5_read]. *)
Fixpoint md5_chunks (s : hash_state md5_chain) (chunks : list (list Z))
    : option (hash_state md5_chain) :=
  match chunks with
  | [] => Some s
  | x :: chunks => s ← md5_read s x (Z.of_nat (length x)); md5_chunks s chunks
  end.

Lemma md5_chunks_eq s chunks : md5_chunks s chunks = read_chunks s chunks.
Proof.
  revert s. induction chunks as [|x chunks IH]; intros s; cbn [md5_chunks read_chunks]; [done|].
  unfold md5_read. destruct (hash_read s x (Z.of_nat (length x))); cbn [mbind option_bind]; auto.
Qed.

(** MD5 does not depend on how its input is cut: initialising, reading
    any chunks and writing yields the digest of the padded concatenation,
    compressed block by block from the initial value. *)
Theorem md5_streaming (buffer : list Z) (chunks : list (list Z))
    (Hbuffer : length buffer = 64%nat)
    (Hchunks : Forall (fun x => Z.of_nat (length x) < 4294967296) chunks) :
  (s ← md5_chunks (md5_init buffer) chunks; '(_, digest) ← md5_write s; Some digest) =
    Some (hash_message (concat chunks)).
Proof. rewrite md5_chunks_eq. by apply hash_chunks_correct. Qed.

(** The RFC 1321 digest of ["message digest"], read in three chunks. *)
Lemma md5_streaming_witness :
  (s ← md5_chunks (md5_init (replicate 64 1)) [[109; 101; 115]; [115; 97; 103; 101; 32]; [100; 105; 103; 101; 115; 116]];
   '(_, digest) ← md5_write s; Some digest) =
  Some [0xf9; 0x6b; 0x69; 0x7d; 0x7c; 0xb7; 0x93; 0x8d; 0x52; 0x5a; 0x2f; 0x31; 0xaa; 0xf1; 0x61; 0xd0].
Proof.
  rewrite (md5_streaming (replicate 64 1)
    [[109; 101; 115]; [115; 97; 103; 101; 32]; [100; 105; 103; 101; 115; 116]] eq_refl
    ltac:(repeat constructor)).
  vm_compute. reflexivity.
Defined.
