(* ===== verification/Sha1.v ===== *)
(** * SHA-1 (src/libz/hash/sha1.c)

    The compression function, as an instance of the block hash interface, and
    the boolean functions of both hashes against their standards. *)
From S2P Require Import Prelude Buffer BlockHash Md5.

Local Open Scope Z_scope.

Record sha1_chain := Sha1 { s_a : Z; s_b : Z; s_c : Z; s_d : Z; s_e : Z }.

(** The macros [F0] to [F3]. *)
Definition F0 (b c d : Z) : Z := Z.lxor d (Z.land b (Z.lxor c d)).
Definition F1 (b c d : Z) : Z := Z.lxor (Z.lxor b c) d.
Definition F2 (b c d : Z) : Z := Z.lor (Z.land b c) (Z.land d (Z.lor b c)).
Definition F3 (b c d : Z) : Z := Z.lxor (Z.lxor b c) d.

(** [e += rol(a, 5) + f(b, c, d) + w + k] *)
Definition GX (f : Z -> Z -> Z -> Z) (k a b c d e w : Z) : Z :=
  u32 (e + (rol a 5 + f b c d + w + k)).

(** The first sixteen words, big endian. *)
Definition sha1_W0 (buffer : list Z) (i : Z) : Z :=
  let b k := buffer !!! Z.to_nat (4 * i + k) in
  Z.lor (Z.lor (Z.lor (u32 (Z.shiftl (b 0) 24)) (Z.shiftl (b 1) 16)) (Z.shiftl (b 2) 8)) (b 3).

(** [W[i] = rol(W[i - 3] ^ W[i - 8] ^ W[i - 14] ^ W[i - 16], 1)] *)
Fixpoint sha1_expand (n : nat) (W : list Z) : list Z :=
  match n with
  | O => W
  | S n =>
      let i := length W in
      sha1_expand n (W ++ [rol (Z.lxor (Z.lxor (Z.lxor (W !!! (i - 3)%nat) (W !!! (i - 8)%nat))
                                          (W !!! (i - 14)%nat)) (W !!! (i - 16)%nat)) 1])
  end.

Definition sha1_W (buffer : list Z) : list Z :=
  sha1_expand 64 ((fun i => sha1_W0 buffer (Z.of_nat i)) <$> seq 0 16).

(** The five statements of a loop body. *)
Definition sha1_body (f : Z -> Z -> Z -> Z) (k : Z) (W : list Z) (i : nat) (q : sha1_chain)
    : sha1_chain :=
  let '(Sha1 a b c d e) := q in
  let e := GX f k a b c d e (W !!! i) in
  let b := rol b 30 in
  let d := GX f k e a b c d (W !!! (i + 1)%nat) in
  let a := rol a 30 in
  let c := GX f k d e a b c (W !!! (i + 2)%nat) in
  let e := rol e 30 in
  let b := GX f k c d e a b (W !!! (i + 3)%nat) in
  let d := rol d 30 in
  let a := GX f k b c d e a (W !!! (i + 4)%nat) in
  let c := rol c 30 in
  Sha1 a b c d e.

(** [while (i < bound) body], five steps of the counter at a time. *)
Fixpoint sha1_while (n : nat) (body : nat -> sha1_chain -> sha1_chain) (i : nat) (q : sha1_chain)
    : sha1_chain :=
  match n with O => q | S n => sha1_while n body (i + 5)%nat (body i q) end.

(** [processblock] *)
Definition sha1_processblock (s : sha1_chain) (buffer : list Z) : sha1_chain :=
  let W := sha1_W buffer in
  let q := sha1_while 4 (sha1_body F0 0x5A827999 W) 0 s in
  let q := sha1_while 4 (sha1_body F1 0x6ED9EBA1 W) 20 q in
  let q := sha1_while 4 (sha1_body F2 0x8F1BBCDC W) 40 q in
  let q := sha1_while 4 (sha1_body F3 0xCA62C1D6 W) 60 q in
  Sha1 (u32 (s_a s + s_a q)) (u32 (s_b s + s_b q)) (u32 (s_c s + s_c q))
       (u32 (s_d s + s_d q)) (u32 (s_e s + s_e q)).

Definition be_bytes (v : Z) : list Z := [byte_of v 3; byte_of v 2; byte_of v 1; byte_of v 0].

(** [buffer[56..63]] of [sha1_write]. *)
Definition sha1_length (lo hi : Z) : list Z := be_bytes hi ++ be_bytes lo.

(** [digest[0..19]] *)
Definition sha1_digest (s : sha1_chain) : list Z :=
  be_bytes (s_a s) ++ be_bytes (s_b s) ++ be_bytes (s_c s) ++ be_bytes (s_d s) ++ be_bytes (s_e s).

#[global] Program Instance sha1_hash : BlockHash sha1_chain := {
  bh_init := Sha1 0x67452301 0xEFCDAB89 0x98BADCFE 0x10325476 0xC3D2E1F0;
  bh_compress := sha1_processblock;
  bh_length := sha1_length;
  bh_digest := sha1_digest
}.
Next Obligation. done. Qed.

Definition sha1_init (buffer : list Z) : hash_state sha1_chain := hash_init buffer.
Definition sha1_read (s : hash_state sha1_chain) (data : list Z) (count : Z) :=
  hash_read s data count.
Definition sha1_write (s : hash_state sha1_chain) : option (hash_state sha1_chain * list Z) :=
  hash_write s.

(** ** Properties *)

(** Reading chunks with [sha1_read]. *)
Fixpoint sha1_chunks (s : hash_state sha1_chain) (chunks : list (list Z))
    : option (hash_state sha1_chain) :=
  match chunks with
  | [] => Some s
  | x :: chunks => s ← sha1_read s x (Z.of_nat (length x)); sha1_chunks s chunks
  end.

Lemma sha1_chunks_eq s chunks : sha1_chunks s chunks = read_chunks s chunks.
Proof.
  revert s. induction chunks as [|x chunks IH]; intros s; cbn [sha1_chunks read_chunks]; [done|].
  unfold sha1_read. destruct (hash_read s x (Z.of_nat (length x))); cbn [mbind option_bind]; auto.
Qed.

(** SHA-1 does not depend on how its input is cut: initialising, reading
    any chunks and writing yields the digest of the padded concatenation,
    compressed block by block from the initial value. *)
Theorem sha1_streaming (buffer : list Z) (chunks : list (list Z))
    (Hbuffer : length buffer = 64%nat)
    (Hchunks : Forall (fun x => Z.of_nat (length x) < 4294967296) chunks) :
  (s ← sha1_chunks (sha1_init buffer) chunks; '(_, digest) ← sha1_write s; Some digest) =
    Some (hash_message (concat chunks)).
Proof. rewrite sha1_chunks_eq. by apply hash_chunks_correct. Qed.

(** The FIPS 180 digest of ["abc"], read in two chunks. *)
Lemma sha1_streaming_witness :
  (s ← sha1_chunks (sha1_init (replicate 64 1)) [[97]; [98; 99]];
   '(_, digest) ← sha1_write s; Some digest) =
  Some [0xa9; 0x99; 0x3e; 0x36; 0x47; 0x06; 0x81; 0x6a; 0xba; 0x3e;
        0x25; 0x71; 0x78; 0x50; 0xc2; 0x6c; 0x9c; 0xd0; 0xd8; 0x9d].
Proof.
  rewrite (sha1_streaming (replicate 64 1) [[97]; [98; 99]] eq_refl ltac:(repeat constructor)).
  vm_compute. reflexivity.
Defined.

(** The boolean functions are those of the standards: the selection and
    majority macros, written with fewer operations, agree bit for bit with
    [(x & y) | (~x & z)], [(x & z) | (y & ~z)] and
    [(b & c) | (b & d) | (c & d)]. *)
Theorem boolean_functions_standard (x y z n : Z) (Hn : 0 <= n) :
  Z.testbit (F x y z) n = Z.testbit (Z.lor (Z.land x y) (Z.land (Z.lnot x) z)) n /\
  Z.testbit (G x y z) n = Z.testbit (Z.lor (Z.land x z) (Z.land y (Z.lnot z))) n /\
  Z.testbit (F0 x y z) n = Z.testbit (Z.lor (Z.land x y) (Z.land (Z.lnot x) z)) n /\
  Z.testbit (F2 x y z) n =
    Z.testbit (Z.lor (Z.lor (Z.land x y) (Z.land x z)) (Z.land y z)) n.
Proof.
  unfold F, G, F0, F2.
  repeat rewrite ?Z.lxor_spec, ?Z.lor_spec, ?Z.land_spec.
  rewrite !Z.lnot_spec by done.
  destruct (Z.testbit x n), (Z.testbit y n), (Z.testbit z n); done.
Qed.

Lemma boolean_functions_standard_witness :
  Z.testbit (F 5 3 9) 1 = Z.testbit (Z.lor (Z.land 5 3) (Z.land (Z.lnot 5) 9)) 1.
Proof. exact (proj1 (boolean_functions_standard 5 3 9 1 ltac:(lia))). Defined.
