(* ===== verification/Utf8.v ===== *)
(** * UTF-8 (src/libz/fudge/utf8.c)

    Strings are byte objects; a code point is an [int].  [None] is an access
    outside the object. *)
From S2P Require Import Prelude.

Local Open Scope Z_scope.

(** ** Operations *)

(** The continuation bytes: [i] of them, from position [pos] on; the result is
    [r] and, unless a byte is not a continuation byte, the code point. *)
Fixpoint utf8_decode_loop (i : nat) (s : list Z) (pos r u : Z) : option (Z * option Z) :=
  match i with
  | O => Some (r, Some u)
  | S i =>
      c ← rd s pos;
      if negb (Z.land c 0xC0 =? 0x80) then Some (r, None)
      else utf8_decode_loop i s (pos + 1) (r + 1) (Z.lor (Z.shiftl u 6) (Z.land c 0x3F))
  end.

(** The bytes consumed and the code point stored in [*u]. *)
Definition utf8_decode (s : list Z) : option (Z * Z) :=
  c ← rd s 0;
  if negb (Z.land (Z.lnot c) 0x80 =? 0) then Some (1, c)
  else
    let start :=
      if Z.land c 0xE0 =? 0xC0 then Some (Z.land c 0x1F, 1%nat)
      else if Z.land c 0xF0 =? 0xE0 then Some (Z.land c 0x0F, 2%nat)
      else if Z.land c 0xF8 =? 0xF0 then Some (Z.land c 0x07, 3%nat)
      else None in
    match start with
    | None => Some (1, 0xFFFD)
    | Some (u, n) =>
        '(r, u) ← utf8_decode_loop n s 1 1 u;
        match u with
        | None => Some (r, 0xFFFD)
        | Some u =>
            if (Nat.eqb n 1 && (u <? 0x80)) || (Nat.eqb n 2 && (u <? 0x800)) ||
               (Nat.eqb n 3 && (u <? 0x10000)) || ((0xD800 <=? u) && (u <=? 0xDFFF))
            then Some (r, 0xFFFD)
            else Some (r, u)
        end
    end.

(** [for (i = n, ++sp; i > 0; --i, ++sp)
       *sp = ((uc >> 6 * (i - 1)) & 0x3F) | 0x80] *)
Fixpoint utf8_encode_loop (i : nat) (uc : Z) (s : list Z) (sp : Z) : option (list Z) :=
  match i with
  | O => Some s
  | S i =>
      s ← wr s sp (Z.lor (Z.land (Z.shiftr uc (6 * Z.of_nat i)) 0x3F) 0x80);
      utf8_encode_loop i uc s (sp + 1)
  end.

(** The object after the call and the number of bytes. *)
Definition utf8_encode (u : Z) (s : list Z) : option (list Z * Z) :=
  let uc := u32 u in
  if uc <? 0x80 then s ← wr s 0 (u8 uc); Some (s, 1)
  else if u <? 0x800 then
    s ← wr s 0 (u8 (Z.lor (Z.shiftr uc 6) 0xC0));
    s ← utf8_encode_loop 1 uc s 1; Some (s, 2)
  else if uc <? 0x10000 then
    s ← wr s 0 (u8 (Z.lor (Z.shiftr uc 12) 0xE0));
    s ← utf8_encode_loop 2 uc s 1; Some (s, 3)
  else if uc <=? 0x10FFFF then
    s ← wr s 0 (u8 (Z.lor (Z.shiftr uc 18) 0xF0));
    s ← utf8_encode_loop 3 uc s 1; Some (s, 4)
  else
    s ← wr s 0 0xEF; s ← wr s 1 0xBF; s ← wr s 2 0xBD; Some (s, 3).

(** [(c & 0xC0) == 0x80] for the byte [c] at [i] *)
Definition continues (s : list Z) (i : Z) : option bool :=
  c ← rd s i; Some (Z.land c 0xC0 =? 0x80).

(** [a && b], evaluating [b] only when [a] holds. *)
Definition and_then (a : bool) (b : option bool) : option bool := if a then b else Some false.
Definition or_else (a : option bool) (b : option bool) : option bool :=
  x ← a; if (x : bool) then Some true else b.

Definition utf8_isfull (s : list Z) (b : Z) : option Z :=
  if b <? 1 then Some 0
  else
    c1 ← rd s 0;
    if (Z.land c1 0xE0 =? 0xC0) && (b =? 1) then Some 0
    else
      two ← and_then (Z.land c1 0xF0 =? 0xE0)
              (or_else (Some (b =? 1)) (and_then (b =? 2) (continues s 1)));
      if (two : bool) then Some 0
      else
        three ← and_then (Z.land c1 0xF8 =? 0xF0)
                  (or_else (or_else (Some (b =? 1)) (and_then (b =? 2) (continues s 1)))
                     (and_then (b =? 3)
                        (x ← continues s 1; and_then x (continues s 2))));
        Some (if (three : bool) then 0 else 1).

Definition utf8_size (s : list Z) : option Z :=
  c ← rd s 0;
  Some (if negb (Z.land (Z.lnot c) 0x80 =? 0) then 1
        else if Z.land c 0xE0 =? 0xC0 then 2
        else if Z.land c 0xF0 =? 0xE0 then 3
        else 4).

(** ** The encoding as arithmetic *)

(** The bytes of a code point. *)
Definition utf8_bytes (u : Z) : list Z :=
  if u <? 0x80 then [u]
  else if u <? 0x800 then [192 + u / 64; 128 + u mod 64]
  else if u <? 0x10000 then [224 + u / 4096; 128 + u / 64 mod 64; 128 + u mod 64]
  else [240 + u / 262144; 128 + u / 4096 mod 64; 128 + u / 64 mod 64; 128 + u mod 64].

Lemma lead1 c : 0 <= c < 128 -> (Z.land (Z.lnot c) 0x80 =? 0) = false.
Proof.
  intros Hc. apply negb_true_iff.
  exact (byte_range_ind (fun c => negb (Z.land (Z.lnot c) 0x80 =? 0)) 0 128 eq_refl c Hc).
Qed.

Definition classify2 (c : Z) : bool :=
  (Z.land (Z.lnot c) 0x80 =? 0) && (Z.land c 0xE0 =? 0xC0) && (Z.land c 0x1F =? c - 192).
Definition classify3 (c : Z) : bool :=
  (Z.land (Z.lnot c) 0x80 =? 0) && negb (Z.land c 0xE0 =? 0xC0) && (Z.land c 0xF0 =? 0xE0) &&
  (Z.land c 0x0F =? c - 224).
Definition classify4 (c : Z) : bool :=
  (Z.land (Z.lnot c) 0x80 =? 0) && negb (Z.land c 0xE0 =? 0xC0) &&
  negb (Z.land c 0xF0 =? 0xE0) && (Z.land c 0xF8 =? 0xF0) && (Z.land c 0x07 =? c - 240).
Definition classify_cont (c : Z) : bool :=
  (Z.land c 0xC0 =? 0x80) && (Z.land c 0x3F =? c - 128).

Lemma lead2 c : 192 <= c < 224 -> classify2 c = true.
Proof. exact (byte_range_ind classify2 192 32 eq_refl c). Qed.
Lemma lead3 c : 224 <= c < 240 -> classify3 c = true.
Proof. exact (byte_range_ind classify3 224 16 eq_refl c). Qed.
Lemma lead4 c : 240 <= c < 248 -> classify4 c = true.
Proof. exact (byte_range_ind classify4 240 8 eq_refl c). Qed.
Lemma cont_byte c : 128 <= c < 192 -> classify_cont c = true.
Proof. exact (byte_range_ind classify_cont 128 64 eq_refl c). Qed.

Lemma lor_tag x : 0 <= x < 64 ->
  Z.lor x 0x80 = 128 + x /\ (x < 32 -> Z.lor x 0xC0 = 192 + x) /\
  (x < 16 -> Z.lor x 0xE0 = 224 + x) /\ (x < 8 -> Z.lor x 0xF0 = 240 + x).
Proof.
  intros Hx.
  pose proof (byte_range_ind (fun x => Z.lor x 0x80 =? 128 + x) 0 64 eq_refl x Hx) as H1.
  pose proof (byte_range_ind (fun x => Z.lor x 0xC0 =? 192 + x) 0 32 eq_refl x) as H2.
  pose proof (byte_range_ind (fun x => Z.lor x 0xE0 =? 224 + x) 0 16 eq_refl x) as H3.
  pose proof (byte_range_ind (fun x => Z.lor x 0xF0 =? 240 + x) 0 8 eq_refl x) as H4.
  split_and!; intros; apply Z.eqb_eq; [done|apply H2|apply H3|apply H4]; lia.
Qed.

Lemma lor_shift6 u y : 0 <= y < 64 -> Z.lor (Z.shiftl u 6) y = 64 * u + y.
Proof.
  intros Hy. rewrite lor_add.
  - rewrite Z.shiftl_mul_pow2 by lia. change (2 ^ 6) with 64. lia.
  - apply Z.bits_inj'. intros n Hn. rewrite Z.land_spec, Z.bits_0.
    destruct (Z.ltb_spec n 6).
    + rewrite Z.shiftl_spec_low by lia. done.
    + rewrite <- (Z.mod_small y (2 ^ 6)) by (change (2 ^ 6) with 64; lia).
      rewrite Z.mod_pow2_bits_high by lia. apply andb_false_r.
Qed.

Lemma land_63_mod x : Z.land x 0x3F = x mod 64.
Proof. change 0x3F with (2 ^ 6 - 1). rewrite land_pow2_pred by lia. done. Qed.

(** A loop over continuation bytes accumulates their low six bits. *)
Lemma decode_cont i s pos r u c :
  rd s pos = Some c -> 128 <= c < 192 ->
  utf8_decode_loop (S i) s pos r u = utf8_decode_loop i s (pos + 1) (r + 1) (64 * u + (c - 128)).
Proof.
  intros Hc Hr. cbn [utf8_decode_loop]. rewrite Hc. cbn [mbind option_bind].
  pose proof (cont_byte c Hr) as [->%Z.eqb_eq ->%Z.eqb_eq]%andb_true_iff.
  cbn [negb Z.eqb Pos.eqb]. by rewrite lor_shift6 by lia.
Qed.

Lemma land_shiftr u k : 0 <= k -> Z.land (Z.shiftr u k) 0x3F = u / 2 ^ k mod 64.
Proof. intros. by rewrite land_63_mod, Z.shiftr_div_pow2. Qed.

(** Writes to the first four bytes of an object. *)
Lemma wr_first4 y0 y1 y2 y3 (s : list Z) v :
  wr (y0 :: y1 :: y2 :: y3 :: s) 0 v = Some (v :: y1 :: y2 :: y3 :: s) /\
  wr (y0 :: y1 :: y2 :: y3 :: s) 1 v = Some (y0 :: v :: y2 :: y3 :: s) /\
  wr (y0 :: y1 :: y2 :: y3 :: s) 2 v = Some (y0 :: y1 :: v :: y3 :: s) /\
  wr (y0 :: y1 :: y2 :: y3 :: s) 3 v = Some (y0 :: y1 :: y2 :: v :: s).
Proof. split_and!; rewrite wr_Some by (cbn [length]; lia); reflexivity. Qed.

Lemma wr_0 y0 y1 y2 y3 (s : list Z) v :
  wr (y0 :: y1 :: y2 :: y3 :: s) 0 v = Some (v :: y1 :: y2 :: y3 :: s).
Proof. apply wr_first4. Qed.
Lemma wr_1 y0 y1 y2 y3 (s : list Z) v :
  wr (y0 :: y1 :: y2 :: y3 :: s) 1 v = Some (y0 :: v :: y2 :: y3 :: s).
Proof. apply wr_first4. Qed.
Lemma wr_2 y0 y1 y2 y3 (s : list Z) v :
  wr (y0 :: y1 :: y2 :: y3 :: s) 2 v = Some (y0 :: y1 :: v :: y3 :: s).
Proof. apply wr_first4. Qed.
Lemma wr_3 y0 y1 y2 y3 (s : list Z) v :
  wr (y0 :: y1 :: y2 :: y3 :: s) 3 v = Some (y0 :: y1 :: y2 :: v :: s).
Proof. apply wr_first4. Qed.

(** The lead bytes as arithmetic. *)
Lemma lead_bytes u :
  (0 <= u < 2048 -> u8 (Z.lor (Z.shiftr u 6) 0xC0) = 192 + u / 64) /\
  (0 <= u < 65536 -> u8 (Z.lor (Z.shiftr u 12) 0xE0) = 224 + u / 4096) /\
  (0 <= u < 2097152 -> u8 (Z.lor (Z.shiftr u 18) 0xF0) = 240 + u / 262144).
Proof.
  rewrite !Z.shiftr_div_pow2 by lia.
  change (2 ^ 6) with 64. change (2 ^ 12) with 4096. change (2 ^ 18) with 262144.
  split_and!; intros Hu.
  - rewrite (proj1 (proj2 (lor_tag (u / 64) ltac:(zmod)))) by zmod. rewrite u8_small; zmod.
  - rewrite (proj1 (proj2 (proj2 (lor_tag (u / 4096) ltac:(zmod))))) by zmod. rewrite u8_small; zmod.
  - rewrite (proj2 (proj2 (proj2 (lor_tag (u / 262144) ltac:(zmod))))) by zmod. rewrite u8_small; zmod.
Qed.

(** Encoding a code point in range writes its bytes. *)
Lemma utf8_encode_spec u s :
  0 <= u <= 0x10FFFF -> (4 <= length s)%nat ->
  utf8_encode u s = Some (splice s 0 (utf8_bytes u), Z.of_nat (length (utf8_bytes u))).
Proof.
  intros Hu Hl. unfold utf8_encode, utf8_bytes. rewrite u32_small by lia.
  destruct s as [|x0 [|x1 [|x2 [|x3 s]]]]; cbn [length] in Hl; try lia.
  destruct (lead_bytes u) as (L2 & L3 & L4).
  assert (forall y, 0 <= y < 64 -> Z.lor y 128 = 128 + y) as Htag by (intros; by apply lor_tag).
  cbn [utf8_encode_loop].
  change (6 * Z.of_nat 0) with 0. change (6 * Z.of_nat 1) with 6. change (6 * Z.of_nat 2) with 12.
  rewrite !land_shiftr by lia. change (2 ^ 0) with 1. change (2 ^ 6) with 64.
  change (2 ^ 12) with 4096. rewrite Z.div_1_r, !Htag by zmod.
  change (1 + 1) with 2. change (2 + 1) with 3. rewrite !wr_0.
  destruct (Z.ltb_spec u 128); [|destruct (Z.ltb_spec u 2048); [|destruct (Z.ltb_spec u 65536)]];
    cbn [mbind option_bind].
  - rewrite u8_small by lia. done.
  - rewrite L2 by lia. rewrite wr_1. done.
  - rewrite L3 by lia. rewrite wr_1. cbn [mbind option_bind]. rewrite wr_2. done.
  - destruct (Z.leb_spec u 1114111); [|lia]. rewrite L4 by lia.
    rewrite wr_1. cbn [mbind option_bind]. rewrite wr_2. cbn [mbind option_bind]. rewrite wr_3. done.
Qed.

(** Decoding the bytes of a code point; [tl] is whatever follows. *)
Lemma utf8_decode_bytes u tl :
  0 <= u <= 0x10FFFF ->
  utf8_decode (utf8_bytes u ++ tl) =
    Some (Z.of_nat (length (utf8_bytes u)),
          if (0xD800 <=? u) && (u <=? 0xDFFF) then 0xFFFD else u).
Proof.
  intros Hu. unfold utf8_decode, utf8_bytes.
  destruct (Z.ltb_spec u 128); [|destruct (Z.ltb_spec u 2048); [|destruct (Z.ltb_spec u 65536)]];
    cbn [app].
  - change (rd (u :: tl) 0) with (Some u). cbn [mbind option_bind]. rewrite lead1 by lia.
    cbn [negb length]. destruct (Z.leb_spec 55296 u); [lia|]. done.
  - set (c1 := 192 + u / 64). set (c2 := 128 + u mod 64).
    change (rd (c1 :: c2 :: tl) 0) with (Some c1). cbn [mbind option_bind].
    pose proof (lead2 c1 ltac:(unfold c1; zmod)) as Hc. unfold classify2 in Hc.
    apply andb_true_iff in Hc as [[-> ->]%andb_true_iff ->%Z.eqb_eq]. cbn [negb].
    rewrite (decode_cont 0 _ 1 1 _ c2) by (done || (unfold c2; zmod)). cbn [utf8_decode_loop mbind option_bind].
    replace (64 * (c1 - 192) + (c2 - 128)) with u by (unfold c1, c2; zmod).
    cbn [Nat.eqb andb orb]. destruct (Z.ltb_spec u 128); [lia|]. cbn [orb].
    by destruct ((55296 <=? u) && (u <=? 57343)).
  - set (c1 := 224 + u / 4096). set (c2 := 128 + u / 64 mod 64). set (c3 := 128 + u mod 64).
    change (rd (c1 :: c2 :: c3 :: tl) 0) with (Some c1). cbn [mbind option_bind].
    pose proof (lead3 c1 ltac:(unfold c1; zmod)) as Hc. unfold classify3 in Hc.
    apply andb_true_iff in Hc as [[[-> ->%negb_true_iff]%andb_true_iff ->]%andb_true_iff ->%Z.eqb_eq].
    cbn [negb].
    rewrite (decode_cont 1 _ 1 1 _ c2) by (done || (unfold c2; zmod)).
    rewrite (decode_cont 0 _ (1 + 1) (1 + 1) _ c3) by (done || (unfold c3; zmod)).
    cbn [utf8_decode_loop mbind option_bind].
    replace (64 * (64 * (c1 - 224) + (c2 - 128)) + (c3 - 128)) with u by (unfold c1, c2, c3; zmod).
    cbn [Nat.eqb andb orb]. destruct (Z.ltb_spec u 2048); [lia|]. cbn [orb].
    by destruct ((55296 <=? u) && (u <=? 57343)).
  - set (c1 := 240 + u / 262144). set (c2 := 128 + u / 4096 mod 64).
    set (c3 := 128 + u / 64 mod 64). set (c4 := 128 + u mod 64).
    change (rd (c1 :: c2 :: c3 :: c4 :: tl) 0) with (Some c1). cbn [mbind option_bind].
    pose proof (lead4 c1 ltac:(unfold c1; zmod)) as Hc. unfold classify4 in Hc.
    apply andb_true_iff in Hc
      as [[[[-> ->%negb_true_iff]%andb_true_iff ->%negb_true_iff]%andb_true_iff ->]%andb_true_iff ->%Z.eqb_eq].
    cbn [negb].
    rewrite (decode_cont 2 _ 1 1 _ c2) by (done || (unfold c2; zmod)).
    rewrite (decode_cont 1 _ (1 + 1) (1 + 1) _ c3) by (done || (unfold c3; zmod)).
    rewrite (decode_cont 0 _ (1 + 1 + 1) (1 + 1 + 1) _ c4) by (done || (unfold c4; zmod)).
    cbn [utf8_decode_loop mbind option_bind].
    replace (64 * (64 * (64 * (c1 - 240) + (c2 - 128)) + (c3 - 128)) + (c4 - 128)) with u
      by (unfold c1, c2, c3, c4; zmod).
    cbn [Nat.eqb andb orb]. destruct (Z.ltb_spec u 65536); [lia|]. cbn [orb].
    by destruct ((55296 <=? u) && (u <=? 57343)).
Qed.

(** ** Properties *)

(** C37. Round trip: every Unicode scalar value is encoded into one to four
    bytes, [utf8_decode] returns the value and that number of bytes whatever
    follows, and [utf8_size] of the first byte is that number; a surrogate is
    encoded but decodes to U+FFFD. *)
Theorem utf8_roundtrip (u : Z) (s : list Z)
    (Hu : 0 <= u <= 0x10FFFF) (Hs : (4 <= length s)%nat) :
  exists s' n, utf8_encode u s = Some (s', n) /\ 1 <= n <= 4 /\ length s' = length s /\
    drop (Z.to_nat n) s' = drop (Z.to_nat n) s /\
    utf8_decode s' = Some (n, if (0xD800 <=? u) && (u <=? 0xDFFF) then 0xFFFD else u) /\
    utf8_size s' = Some n.
Proof.
  rewrite utf8_encode_spec by done. eexists _, _. split; [done|].
  assert (1 <= length (utf8_bytes u) <= 4)%nat as Hn
    by (unfold utf8_bytes; repeat case_match; cbn [length]; lia).
  rewrite Nat2Z.id, splice_0. split; [lia|]. split.
  { rewrite length_app, length_drop. lia. }
  split; [by rewrite drop_app_length|]. split; [by apply utf8_decode_bytes|].
  unfold utf8_size, utf8_bytes.
  destruct (Z.ltb_spec u 128); [|destruct (Z.ltb_spec u 2048); [|destruct (Z.ltb_spec u 65536)]];
    cbn [app length]; match goal with |- context[rd (?c :: ?l) 0] => change (rd (c :: l) 0) with (Some c) end;
    cbn [mbind option_bind].
  - by rewrite lead1 by lia.
  - pose proof (lead2 (192 + u / 64) ltac:(zmod)) as Hc. unfold classify2 in Hc.
    by apply andb_true_iff in Hc as [[-> ->]%andb_true_iff _].
  - pose proof (lead3 (224 + u / 4096) ltac:(zmod)) as Hc. unfold classify3 in Hc.
    by apply andb_true_iff in Hc as [[[-> ->%negb_true_iff]%andb_true_iff ->]%andb_true_iff _].
  - pose proof (lead4 (240 + u / 262144) ltac:(zmod)) as Hc. unfold classify4 in Hc.
    by apply andb_true_iff in Hc
      as [[[[-> ->%negb_true_iff]%andb_true_iff ->%negb_true_iff]%andb_true_iff _]%andb_true_iff _].
Qed.

Lemma utf8_roundtrip_witness :
  exists s' n, utf8_encode 0x20AC [0; 0; 0; 0; 7] = Some (s', n) /\ utf8_decode s' = Some (n, 0x20AC).
Proof.
  destruct (utf8_roundtrip 0x20AC [0; 0; 0; 0; 7] ltac:(lia) ltac:(cbn; lia))
    as (s' & n & He & _ & _ & _ & Hd & _).
  exists s', n. split; [exact He|exact Hd].
Defined.

(** *** Decoding arbitrary bytes *)

Lemma lead_inv c : 0 <= c < 256 ->
  ((Z.land (Z.lnot c) 0x80 =? 0) = false -> c < 128) /\
  ((Z.land c 0xE0 =? 0xC0) = true -> 192 <= c < 224) /\
  ((Z.land c 0xF0 =? 0xE0) = true -> 224 <= c < 240) /\
  ((Z.land c 0xF8 =? 0xF0) = true -> 240 <= c < 248) /\
  ((Z.land c 0xC0 =? 0x80) = true -> 128 <= c < 192).
Proof.
  intros Hc.
  set (ok := fun c => implb (negb (Z.land (Z.lnot c) 0x80 =? 0)) (c <? 128) &&
    implb (Z.land c 0xE0 =? 0xC0) ((192 <=? c) && (c <? 224)) &&
    implb (Z.land c 0xF0 =? 0xE0) ((224 <=? c) && (c <? 240)) &&
    implb (Z.land c 0xF8 =? 0xF0) ((240 <=? c) && (c <? 248)) &&
    implb (Z.land c 0xC0 =? 0x80) ((128 <=? c) && (c <? 192))).
  pose proof (byte_range_ind ok 0 256 eq_refl c Hc) as H. unfold ok in H.
  repeat (apply andb_true_iff in H as [H ?]).
  split_and!; intros E; rewrite E in *; cbn [negb implb] in *; lia.
Qed.

(** What the continuation loop computed, read backwards. *)
Lemma decode_cont_inv i s pos r u r' u' :
  Forall (fun c => 0 <= c < 256) s ->
  utf8_decode_loop (S i) s pos r u = Some (r', Some u') ->
  exists c, rd s pos = Some c /\ 128 <= c < 192 /\
    utf8_decode_loop i s (pos + 1) (r + 1) (64 * u + (c - 128)) = Some (r', Some u').
Proof.
  intros Hs Hd. cbn [utf8_decode_loop] in Hd. destruct (rd s pos) as [c|] eqn:Ec; [|done].
  cbn [mbind option_bind] in Hd. destruct (Z.land c 192 =? 128) eqn:E; cbn [negb] in Hd; [|done].
  assert (0 <= c < 256) as Hc.
  { rewrite Forall_lookup in Hs. apply (Hs _ _ (rd_lookup _ _ _ Ec)). }
  apply (proj2 (proj2 (proj2 (proj2 (lead_inv c Hc))))) in E.
  exists c. split; [done|]. split; [done|].
  pose proof (cont_byte c E) as [_ E2%Z.eqb_eq]%andb_true_iff. rewrite E2 in Hd.
  by rewrite <- lor_shift6 by lia.
Qed.

Lemma rd_list (s : list Z) (xs : list Z) :
  (forall i x, xs !! i = Some x -> rd s (Z.of_nat i) = Some x) -> take (length xs) s = xs.
Proof.
  intros Hx. apply list_eq. intros i. destruct (xs !! i) as [x|] eqn:E.
  - pose proof (lookup_lt_Some _ _ _ E). rewrite lookup_take_lt by done.
    specialize (Hx i x E). by rewrite rd_nat in Hx.
  - apply lookup_ge_None in E. apply lookup_ge_None. rewrite length_take. lia.
Qed.

(** [utf8_decode] accepts only shortest forms: when it returns a code point
    other than U+FFFD, that is at most 0x10FFFF, the bytes it consumed are
    exactly the encoding of the code point; overlong sequences, stray and
    missing continuation bytes and surrogates all decode to U+FFFD. *)
Theorem utf8_decode_canonical (s : list Z) (r u : Z)
    (Hbytes : Forall (fun c => 0 <= c < 256) s)
    (Hdecode : utf8_decode s = Some (r, u)) (Hvalid : u <> 0xFFFD) (Hrange : u <= 0x10FFFF) :
  take (Z.to_nat r) s = utf8_bytes u /\ ~ (0xD800 <= u <= 0xDFFF).
Proof.
  unfold utf8_decode in Hdecode. destruct (rd s 0) as [c|] eqn:Ec; [|done].
  assert (0 <= c < 256) as Hc.
  { rewrite Forall_lookup in Hbytes. apply (Hbytes _ _ (rd_lookup _ _ _ Ec)). }
  destruct (lead_inv c Hc) as (I1 & I2 & I3 & I4 & _). cbn [mbind option_bind] in Hdecode.
  assert (forall xs, (forall i x, xs !! i = Some x -> rd s (Z.of_nat i) = Some x) ->
            Z.to_nat r = length xs -> take (Z.to_nat r) s = xs) as Htake.
  { intros xs Hx ->. by apply rd_list. }
  destruct (Z.land (Z.lnot c) 0x80 =? 0) eqn:E1; cbn [negb] in Hdecode.
  2: { injection Hdecode as <- <-. specialize (I1 eq_refl). split; [|lia].
       unfold utf8_bytes. destruct (Z.ltb_spec c 128); [|lia]. apply Htake; [|done].
       intros [|i] x Hx; [|done]. cbn in Hx. by injection Hx as <-. }
  destruct (Z.land c 0xE0 =? 0xC0) eqn:E2; [|destruct (Z.land c 0xF0 =? 0xE0) eqn:E3;
    [|destruct (Z.land c 0xF8 =? 0xF0) eqn:E4]].
  - specialize (I2 eq_refl). pose proof (lead2 c I2) as [_ Hm%Z.eqb_eq]%andb_true_iff. rewrite Hm in Hdecode.
    destruct (utf8_decode_loop 1 s 1 1 (c - 192)) as [[r1 [u1|]]|] eqn:El; cbn [mbind option_bind] in Hdecode;
      [|congruence|done].
    apply decode_cont_inv in El as (c2 & Hc2 & Hr2 & El); [|done]. cbn [utf8_decode_loop] in El.
    injection El as <- <-. cbn [Nat.eqb andb orb] in Hdecode.
    destruct (Z.ltb_spec (64 * (c - 192) + (c2 - 128)) 128); [cbn in Hdecode; congruence|]. cbn [orb] in Hdecode.
    destruct ((55296 <=? 64 * (c - 192) + (c2 - 128)) && _) eqn:Es; [congruence|].
    injection Hdecode as <- <-. split; [|lia]. unfold utf8_bytes.
    destruct (Z.ltb_spec (64 * (c - 192) + (c2 - 128)) 128); [lia|].
    destruct (Z.ltb_spec (64 * (c - 192) + (c2 - 128)) 2048); [|lia].
    apply Htake; [|done]. intros [|[|i]] x Hx; cbn in Hx; try done; injection Hx as <-.
    + change (Z.of_nat 0) with 0. rewrite Ec. f_equal. zmod.
    + change (Z.of_nat 1) with 1. rewrite Hc2. f_equal. zmod.
  - specialize (I3 eq_refl). pose proof (lead3 c I3) as [_ Hm%Z.eqb_eq]%andb_true_iff. rewrite Hm in Hdecode.
    destruct (utf8_decode_loop 2 s 1 1 (c - 224)) as [[r1 [u1|]]|] eqn:El; cbn [mbind option_bind] in Hdecode;
      [|congruence|done].
    apply decode_cont_inv in El as (c2 & Hc2 & Hr2 & El); [|done].
    apply decode_cont_inv in El as (c3 & Hc3 & Hr3 & El); [|done]. cbn [utf8_decode_loop] in El.
    injection El as <- Hu1. cbn [Nat.eqb andb orb] in Hdecode.
    destruct (Z.ltb_spec u1 2048); [cbn in Hdecode; congruence|]. cbn [orb] in Hdecode.
    destruct ((55296 <=? u1) && (u1 <=? 57343)) eqn:Es; [congruence|].
    injection Hdecode as <- <-. split; [|lia]. unfold utf8_bytes.
    destruct (Z.ltb_spec u1 128); [lia|]. destruct (Z.ltb_spec u1 2048); [lia|].
    destruct (Z.ltb_spec u1 65536); [|lia].
    apply Htake; [|done]. intros [|[|[|i]]] x Hx; cbn in Hx; try done; injection Hx as <-.
    + change (Z.of_nat 0) with 0. rewrite Ec. f_equal. zmod.
    + change (Z.of_nat 1) with 1. rewrite Hc2. f_equal. zmod.
    + change (Z.of_nat 2) with (1 + 1). rewrite Hc3. f_equal. zmod.
  - specialize (I4 eq_refl). pose proof (lead4 c I4) as [_ Hm%Z.eqb_eq]%andb_true_iff. rewrite Hm in Hdecode.
    destruct (utf8_decode_loop 3 s 1 1 (c - 240)) as [[r1 [u1|]]|] eqn:El; cbn [mbind option_bind] in Hdecode;
      [|congruence|done].
    apply decode_cont_inv in El as (c2 & Hc2 & Hr2 & El); [|done].
    apply decode_cont_inv in El as (c3 & Hc3 & Hr3 & El); [|done].
    apply decode_cont_inv in El as (c4 & Hc4 & Hr4 & El); [|done]. cbn [utf8_decode_loop] in El.
    injection El as <- Hu1. cbn [Nat.eqb andb orb] in Hdecode.
    destruct (Z.ltb_spec u1 65536); [cbn in Hdecode; congruence|]. cbn [orb] in Hdecode.
    destruct ((55296 <=? u1) && (u1 <=? 57343)) eqn:Es; [congruence|].
    injection Hdecode as <- <-. split; [|lia]. unfold utf8_bytes.
    destruct (Z.ltb_spec u1 128); [lia|]. destruct (Z.ltb_spec u1 2048); [lia|].
    destruct (Z.ltb_spec u1 65536); [lia|].
    apply Htake; [|done]. intros [|[|[|[|i]]]] x Hx; cbn in Hx; try done; injection Hx as <-.
    + change (Z.of_nat 0) with 0. rewrite Ec. f_equal. zmod.
    + change (Z.of_nat 1) with 1. rewrite Hc2. f_equal. zmod.
    + change (Z.of_nat 2) with (1 + 1). rewrite Hc3. f_equal. zmod.
    + change (Z.of_nat 3) with (1 + 1 + 1). rewrite Hc4. f_equal. zmod.
  - congruence.
Qed.

Lemma utf8_decode_canonical_witness :
  take 3 [0xE2; 0x82; 0xAC; 0x41] = utf8_bytes 0x20AC.
Proof.
  apply (proj1 (utf8_decode_canonical [0xE2; 0x82; 0xAC; 0x41] 3 0x20AC
    ltac:(repeat constructor; lia) eq_refl ltac:(lia) ltac:(lia))).
Defined.

(** The two ends of the code point range are not checked symmetrically:
    [utf8_decode] accepts sequences above 0x10FFFF, which [utf8_encode] refuses,
    and [utf8_encode] of a negative [int], whose second test compares the signed
    value, writes a two-byte sequence instead of U+FFFD. *)
Theorem utf8_range_unchecked (u : Z) (s : list Z)
    (Hu : -2147483648 <= u < 0) (Hs : (4 <= length s)%nat) :
  utf8_decode [0xF7; 0xBF; 0xBF; 0xBF] = Some (4, 0x1FFFFF) /\
  exists s', utf8_encode u s = Some (s', 2).
Proof.
  split; [reflexivity|]. unfold utf8_encode.
  assert (2147483648 <= u32 u) by zwrap.
  destruct (Z.ltb_spec (u32 u) 128); [lia|]. destruct (Z.ltb_spec u 2048); [|lia].
  destruct s as [|x0 [|x1 [|x2 [|x3 s]]]]; cbn [length] in Hs; try lia.
  rewrite wr_0. cbn [mbind option_bind utf8_encode_loop]. rewrite wr_1. by eexists.
Qed.

Lemma utf8_range_unchecked_witness :
  exists s', utf8_encode (-1) [0; 0; 0; 0] = Some (s', 2).
Proof. exact (proj2 (utf8_range_unchecked (-1) [0; 0; 0; 0] ltac:(lia) ltac:(cbn; lia))). Defined.
