(* ===== verification/Base64.v ===== *)
(** * Base64 (src/libz/fudge/base64.c)

    The encoder reads and writes byte objects.  The decoder's output pointer
    [pos] starts at [NULL], so its stores are modelled on the flat memory, where
    address 0 is an address like any other; the source string is an object. *)
From S2P Require Import Prelude Memory.

Local Open Scope Z_scope.

(** ["ABCDEFGHIJKLMNOPQRSTUVWXYZabcdefghijklmnopqrstuvwxyz0123456789+/"] *)
Definition base64_table : list Z :=
  [65; 66; 67; 68; 69; 70; 71; 72; 73; 74; 75; 76; 77; 78; 79; 80; 81; 82; 83; 84; 85; 86; 87;
   88; 89; 90; 97; 98; 99; 100; 101; 102; 103; 104; 105; 106; 107; 108; 109; 110; 111; 112; 113;
   114; 115; 116; 117; 118; 119; 120; 121; 122; 48; 49; 50; 51; 52; 53; 54; 55; 56; 57; 43; 47].

(** ** base64_encode *)

(** [*pos++ = c], and with a character of the table. *)
Definition putc (st : list Z * Z) (c : Z) : option (list Z * Z) :=
  let '(out, pos) := st in out ← wr out pos c; Some (out, pos + 1).
Definition putt (st : list Z * Z) (v : Z) : option (list Z * Z) :=
  c ← rd base64_table v; putc st c.

(** [while (end - in >= 3)]: [n] more groups fit. *)
Fixpoint encode_loop (n : nat) (src : list Z) (inp : Z) (st : list Z * Z) (line_len : Z)
    : option (list Z * Z * Z) :=
  match n with
  | O => Some (st, line_len)
  | S n =>
      i0 ← rd src inp; i1 ← rd src (inp + 1); i2 ← rd src (inp + 2);
      st ← putt st (Z.shiftr i0 2);
      st ← putt st (Z.lor (Z.shiftl (Z.land i0 0x03) 4) (Z.shiftr i1 4));
      st ← putt st (Z.lor (Z.shiftl (Z.land i1 0x0f) 2) (Z.shiftr i2 6));
      st ← putt st (Z.land i2 0x3f);
      let line_len := line_len + 4 in
      if 72 <=? line_len then
        st ← putc st 10; encode_loop n src (inp + 3) st 0
      else encode_loop n src (inp + 3) st line_len
  end.

Definition base64_encode (src : list Z) (len : Z) (out : list Z) : option (list Z * Z) :=
  let groups := Z.to_nat (len / 3) in
  let inp := 3 * (len / 3) in
  '(st, line_len) ← encode_loop groups src 0 (out, 0) 0;
  let left := len mod 3 in
  '(st, line_len) ←
    (if negb (left =? 0) then
       i0 ← rd src inp;
       st ← putt st (Z.shiftr i0 2);
       st ← (if left =? 1 then
               st ← putt st (Z.shiftl (Z.land i0 0x03) 4);
               putc st 61
             else
               i1 ← rd src (inp + 1);
               st ← putt st (Z.lor (Z.shiftl (Z.land i0 0x03) 4) (Z.shiftr i1 4));
               putt st (Z.shiftl (Z.land i1 0x0f) 2));
       st ← putc st 61;
       Some (st, line_len + 4)
     else Some (st, line_len));
  st ← (if negb (line_len =? 0) then putc st 10 else Some st);
  let '(out, pos) := st in
  out ← wr out pos 0;
  Some (out, u32 pos).

(** ** base64_decode *)

(** [dtable], after its two initialisation loops and [dtable['='] = 0]. *)
Fixpoint dtable_fill (n : nat) (i : Z) (d : list Z) : option (list Z) :=
  match n with
  | O => Some d
  | S n => c ← rd base64_table i; d ← wr d c i; dtable_fill n (i + 1) d
  end.
Definition dtable : option (list Z) :=
  d ← dtable_fill 64 0 (replicate 256 0x80); wr d 61 0.

Fixpoint decode_count (n : nat) (d src : list Z) (i count : Z) : option Z :=
  match n with
  | O => Some count
  | S n =>
      c ← rd src i; t ← rd d c;
      decode_count n d src (i + 1) (if negb (t =? 0x80) then count + 1 else count)
  end.

(** The decoding loop: memory, [pos], the current block with [count] values,
    and [pad]; the result has [None] for the early [return 0]. *)
Fixpoint decode_loop (n : nat) (d src : list Z) (i : Z) (m : mem) (pos : Z)
    (block : list Z) (pad : Z) : option (mem * option Z) :=
  match n with
  | O => Some (m, Some pos)
  | S n =>
      c ← rd src i; tmp ← rd d c;
      if tmp =? 0x80 then decode_loop n d src (i + 1) m pos block pad
      else
        let pad := if c =? 61 then pad + 1 else pad in
        let block := block ++ [tmp] in
        match block with
        | [b0; b1; b2; b3] =>
            let m := store8 m pos (Z.lor (Z.shiftl b0 2) (Z.shiftr b1 4)) in
            let m := store8 m (u32 (pos + 1)) (Z.lor (Z.shiftl b1 4) (Z.shiftr b2 2)) in
            let m := store8 m (u32 (pos + 2)) (Z.lor (Z.shiftl b2 6) b3) in
            let pos := u32 (pos + 3) in
            if negb (pad =? 0) then
              if pad =? 1 then Some (m, Some (u32 (pos - 1)))
              else if pad =? 2 then Some (m, Some (u32 (pos - 2)))
              else Some (m, None)
            else decode_loop n d src (i + 1) m pos [] pad
        | _ => decode_loop n d src (i + 1) m pos block pad
        end
  end.

Definition base64_decode (m : mem) (src : list Z) (len out : Z) : option (mem * Z) :=
  d ← dtable;
  count ← decode_count (Z.to_nat len) d src 0 0;
  if (count =? 0) || negb (count mod 4 =? 0) then Some (m, 0)
  else
    '(m, pos) ← decode_loop (Z.to_nat len) d src 0 m 0 [] 0;
    match pos with
    | None => Some (m, 0)
    | Some pos => Some (m, u32 (pos - out))
    end.

(** ** The text of an encoding *)

Definition sextet (v : Z) : Z := base64_table !!! Z.to_nat v.

(** The four sextets of three bytes. *)
Definition group (a b c : Z) : list Z :=
  [sextet (a / 4); sextet (a mod 4 * 16 + b / 16); sextet (b mod 16 * 4 + c / 64); sextet (c mod 64)].
Definition group2 (a b : Z) : list Z :=
  [sextet (a / 4); sextet (a mod 4 * 16 + b / 16); sextet (b mod 16 * 4); 61].
Definition group1 (a : Z) : list Z := [sextet (a / 4); sextet (a mod 4 * 16); 61; 61].

(** Lines of 72 characters; [line] is what the current line already has. *)
Fixpoint enc_groups (n : nat) (line : Z) (src : list Z) : list Z * Z * list Z :=
  match n, src with
  | S n, a :: b :: c :: rest =>
      let full := 72 <=? line + 4 in
      let '(t, l, r) := enc_groups n (if full then 0 else line + 4) rest in
      (group a b c ++ (if full then [10] else []) ++ t, l, r)
  | _, _ => ([], line, src)
  end.

Definition enc_text (src : list Z) : list Z :=
  let '(t, line, rest) := enc_groups (length src / 3) 0 src in
  let '(g, line) :=
    match rest with
    | [] => ([], line)
    | [a] => (group1 a, line + 4)
    | a :: b :: _ => (group2 a b, line + 4)
    end in
  t ++ g ++ (if negb (line =? 0) then [10] else []).

(** ** Arithmetic of sextets *)

Lemma table_sextet v : 0 <= v < 64 -> rd base64_table v = Some (sextet v).
Proof.
  intros Hv. unfold sextet. destruct (rd_Some base64_table v) as [c Hc]; [change (Z.of_nat (length base64_table)) with 64; lia|].
  rewrite Hc. apply rd_lookup in Hc. by rewrite (list_lookup_total_correct _ _ _ Hc).
Qed.

Lemma sextets_arith a b c :
  is_byte a -> is_byte b -> is_byte c ->
  Z.shiftr a 2 = a / 4 /\
  Z.lor (Z.shiftl (Z.land a 3) 4) (Z.shiftr b 4) = a mod 4 * 16 + b / 16 /\
  Z.lor (Z.shiftl (Z.land b 15) 2) (Z.shiftr c 6) = b mod 16 * 4 + c / 64 /\
  Z.land c 63 = c mod 64 /\ Z.shiftl (Z.land a 3) 4 = a mod 4 * 16 /\
  Z.shiftl (Z.land b 15) 2 = b mod 16 * 4.
Proof.
  unfold is_byte. intros Ha Hb Hc.
  change 3 with (2 ^ 2 - 1). change 15 with (2 ^ 4 - 1). change 63 with (2 ^ 6 - 1).
  rewrite !land_pow2_pred, !Z.shiftr_div_pow2 by lia.
  change (2 ^ 2) with 4. change (2 ^ 4) with 16. change (2 ^ 6) with 64.
  rewrite (lor_shift (a mod 4) (b / 16) 4), (lor_shift (b mod 16) (c / 64) 2)
    by (try lia; change (2 ^ 4) with 16; change (2 ^ 2) with 4; zmod).
  rewrite !Z.shiftl_mul_pow2 by lia. done.
Qed.

(** ** The encoder writes the text *)

Lemma putc_spec p b q c :
  putc (p ++ b :: q, Z.of_nat (length p)) c = Some ((p ++ [c]) ++ q, Z.of_nat (length (p ++ [c]))).
Proof.
  unfold putc. rewrite wr_mid. cbn [mbind option_bind]. rewrite length_snoc. by rewrite <- mid_snoc.
Qed.

(** Writing a list of characters. *)
Lemma putc_room out p c :
  (length p < length out)%nat ->
  putc (splice out 0 p, Z.of_nat (length p)) c =
    Some (splice out 0 (p ++ [c]), Z.of_nat (length (p ++ [c]))).
Proof.
  intros Hl. rewrite !splice_0, (drop_cons_total out (length p)) by done. rewrite putc_spec.
  assert (length (p ++ [c]) = S (length p)) as -> by (rewrite length_app; cbn [length]; lia). done.
Qed.

Lemma putt_room out p v :
  (length p < length out)%nat -> 0 <= v < 64 ->
  putt (splice out 0 p, Z.of_nat (length p)) v =
    Some (splice out 0 (p ++ [sextet v]), Z.of_nat (length (p ++ [sextet v]))).
Proof. intros Hl Hv. unfold putt. rewrite table_sextet by done. by apply putc_room. Qed.

Lemma enc_groups_length n line src t l r :
  enc_groups n line src = (t, l, r) -> (length t <= 5 * n)%nat.
Proof.
  revert line src t l r. induction n as [|n IH]; intros line src t l r; cbn [enc_groups].
  { intros [= <- <- <-]. cbn. lia. }
  destruct src as [|a [|b [|c rest]]]; try (intros [= <- <- <-]; cbn; lia).
  destruct (enc_groups n (if 72 <=? line + 4 then 0 else line + 4) rest) as [[t' l'] r'] eqn:E.
  intros [= <- <- <-]. apply IH in E. destruct (72 <=? line + 4); cbn; lia.
Qed.

(** The group loop, from [p] already written and [i] bytes already read. *)
Lemma encode_loop_spec n src (i : nat) out p line t l r :
  Forall is_byte src -> (i + 3 * n <= length src)%nat ->
  enc_groups n line (drop i src) = (t, l, r) -> (length p + 5 * n <= length out)%nat ->
  encode_loop n src (Z.of_nat i) (splice out 0 p, Z.of_nat (length p)) line =
    Some (splice out 0 (p ++ t), Z.of_nat (length (p ++ t)), l) /\
  r = drop (i + 3 * n) src.
Proof.
  revert i p line t l r. induction n as [|n IH]; intros i p line t l r Hs Hi He Hl.
  { cbn in He. injection He as <- <- <-. rewrite app_nil_r, Nat.mul_0_r, Nat.add_0_r. done. }
  assert (exists a b c, src !! i = Some a /\ src !! S i = Some b /\ src !! S (S i) = Some c)
    as (a & b & c & Ea & Eb & Ec).
  { destruct (lookup_lt_is_Some_2 src i) as [a ?]; [lia|].
    destruct (lookup_lt_is_Some_2 src (S i)) as [b ?]; [lia|].
    destruct (lookup_lt_is_Some_2 src (S (S i))) as [c ?]; [lia|]. by exists a, b, c. }
  rewrite Forall_lookup in Hs.
  destruct (sextets_arith a b c (Hs _ _ Ea) (Hs _ _ Eb) (Hs _ _ Ec)) as (X1 & X2 & X3 & X4 & _).
  pose proof (Hs _ _ Ea). pose proof (Hs _ _ Eb). pose proof (Hs _ _ Ec). unfold is_byte in *.
  rewrite (drop_S _ _ _ Ea), (drop_S _ _ _ Eb), (drop_S _ _ _ Ec) in He. cbn [enc_groups] in He.
  destruct (enc_groups n (if 72 <=? line + 4 then 0 else line + 4) (drop (S (S (S i))) src))
    as [[t' l'] r'] eqn:Er. injection He as <- <- <-.
  cbn [encode_loop]. rewrite rd_nat, Ea. cbn [mbind option_bind].
  replace (Z.of_nat i + 1) with (Z.of_nat (S i)) by lia.
  replace (Z.of_nat i + 2) with (Z.of_nat (S (S i))) by lia.
  rewrite !rd_nat, Eb, Ec. cbn [mbind option_bind]. rewrite X1, X2, X3, X4.
  rewrite putt_room by (lia || zmod). cbn [mbind option_bind].
  rewrite putt_room by (rewrite ?length_app; cbn [length]; (lia || zmod)). cbn [mbind option_bind].
  rewrite putt_room by (rewrite ?length_app; cbn [length]; (lia || zmod)). cbn [mbind option_bind].
  rewrite putt_room by (rewrite ?length_app; cbn [length]; (lia || zmod)). cbn [mbind option_bind].
  assert (forall x, (((p ++ [sextet (a / 4)]) ++ [sextet (a mod 4 * 16 + b / 16)]) ++
            [sextet (b mod 16 * 4 + c / 64)]) ++ [sextet (c mod 64)] = p ++ group a b c /\
            (p ++ group a b c) ++ x = p ++ group a b c ++ x) as Hg.
  { intros x. unfold group. rewrite <- !app_assoc. done. }
  rewrite (proj1 (Hg [])). replace (Z.of_nat i + 3) with (Z.of_nat (S (S (S i)))) by lia.
  replace (i + 3 * S n)%nat with (S (S (S i)) + 3 * n)%nat by lia.
  assert (Forall is_byte src) as Hs' by (apply Forall_lookup; exact Hs).
  destruct (72 <=? line + 4).
  - rewrite putc_room by (rewrite length_app; cbn [group length]; lia). cbn [mbind option_bind].
    destruct (IH (S (S (S i))) ((p ++ group a b c) ++ [10]) 0 t' l' r') as [-> ->]; try done; try lia.
    + rewrite !length_app. cbn [group length]. lia.
    + rewrite <- !app_assoc. done.
  - destruct (IH (S (S (S i))) (p ++ group a b c) (line + 4) t' l' r') as [-> ->]; try done; try lia.
    + rewrite !length_app. cbn [group length]. lia.
    + rewrite <- !app_assoc. done.
Qed.

(** The final newline and terminator. *)
Lemma encode_end out p (line : Z) :
  (length p + 2 <= length out)%nat ->
  (st ← (if negb (line =? 0) then putc (splice out 0 p, Z.of_nat (length p)) 10
         else Some (splice out 0 p, Z.of_nat (length p)));
   let '(out', pos) := st in out'' ← wr out' pos 0; Some (out'', u32 pos)) =
  Some (splice out 0 (p ++ (if negb (line =? 0) then [10] else []) ++ [0]),
        u32 (Z.of_nat (length (p ++ (if negb (line =? 0) then [10] else []))))).
Proof.
  intros Hg.
  assert (forall p, (length p < length out)%nat ->
    wr (splice out 0 p) (Z.of_nat (length p)) 0 = Some (splice out 0 (p ++ [0]))) as Hwr.
  { intros q Hp. pose proof (putc_room out q 0 Hp) as Hpc. unfold putc in Hpc.
    destruct (wr (splice out 0 q) (Z.of_nat (length q)) 0); [|done].
    cbn [mbind option_bind] in Hpc. by injection Hpc as ->. }
  destruct (negb (line =? 0)).
  - rewrite putc_room by lia. cbn [mbind option_bind].
    rewrite Hwr by (rewrite !length_app; cbn [length]; lia). cbn [mbind option_bind].
    by rewrite <- !app_assoc.
  - cbn [mbind option_bind]. rewrite Hwr by lia. cbn [mbind option_bind].
    by rewrite app_nil_r.
Qed.

(** [base64_encode] writes exactly the base64 text of its input (lines of 72
    characters, [=] padding, a final newline), then a terminator, into any
    buffer with room for it, and returns the length of the text. *)
Theorem base64_encode_text src out :
  Forall is_byte src ->
  (5 * (length src / 3) + 6 <= length out)%nat ->
  base64_encode src (Z.of_nat (length src)) out =
    Some (splice out 0 (enc_text src ++ [0]), u32 (Z.of_nat (length (enc_text src)))).
Proof.
  intros Hs Hl. unfold base64_encode, enc_text.
  assert (Z.of_nat (length src) / 3 = Z.of_nat (length src / 3)) as -> by (rewrite Nat2Z.inj_div; done).
  assert (Z.of_nat (length src) mod 3 = Z.of_nat (length src mod 3)) as -> by (rewrite Nat2Z.inj_mod; done).
  rewrite Nat2Z.id. set (n := (length src / 3)%nat) in *.
  pose proof (Nat.div_mod (length src) 3 ltac:(lia)) as Hdm. fold n in Hdm.
  pose proof (Nat.mod_upper_bound (length src) 3 ltac:(lia)) as Hub.
  set (k := (length src mod 3)%nat) in *. clearbody n k.
  destruct (enc_groups n 0 src) as [[t l] r] eqn:E.
  pose proof (enc_groups_length _ _ _ _ _ _ E) as Ht.
  destruct (encode_loop_spec n src 0 out [] 0 t l r Hs ltac:(lia)) as [Hloop Hr];
    [by rewrite drop_0|cbn; lia|].
  rewrite splice_nil in Hloop. change (Z.of_nat 0) with 0 in Hloop.
  change (Z.of_nat (length (@nil Z))) with 0 in Hloop. rewrite Hloop. cbn [mbind option_bind app].
  cbn [Nat.add] in Hr. rewrite Forall_lookup in Hs.
  destruct k as [|[|[|k]]]; [| | |lia].
  - cbn [negb Z.of_nat Z.eqb]. assert (r = []) as -> by (rewrite Hr; apply drop_ge; lia).
    cbn [mbind option_bind]. pose proof (encode_end out t l ltac:(lia)) as Hend.
    rewrite <- app_assoc. exact Hend.
  - change (Z.of_nat 1) with 1. cbn [negb Z.eqb Pos.eqb].
    destruct (lookup_lt_is_Some_2 src (3 * n)) as [a Ea]; [lia|].
    rewrite (drop_S _ _ _ Ea), drop_ge in Hr by lia. subst r.
    replace (3 * Z.of_nat n) with (Z.of_nat (3 * n)) by lia. rewrite rd_nat, Ea.
    cbn [mbind option_bind]. pose proof (Hs _ _ Ea) as Ha.
    destruct (sextets_arith a 0 0 Ha ltac:(unfold is_byte; lia) ltac:(unfold is_byte; lia))
      as (X1 & _ & _ & _ & X5 & _). unfold is_byte in Ha. rewrite X1, X5.
    rewrite putt_room by (lia || zmod). cbn [mbind option_bind].
    rewrite putt_room by (rewrite ?length_app; cbn [length]; (lia || zmod)). cbn [mbind option_bind].
    rewrite putc_room by (rewrite ?length_app; cbn [length]; lia). cbn [mbind option_bind].
    rewrite putc_room by (rewrite ?length_app; cbn [length]; lia). cbn [mbind option_bind].
    rewrite <- !app_assoc. cbn [app]. fold (group1 a).
    pose proof (encode_end out (t ++ group1 a) (l + 4)) as Hend. rewrite <- !app_assoc in Hend.
    apply Hend. rewrite length_app. cbn [group1 length]. lia.
  - change (Z.of_nat 2) with 2. cbn [negb Z.eqb Pos.eqb].
    destruct (lookup_lt_is_Some_2 src (3 * n)) as [a Ea]; [lia|].
    destruct (lookup_lt_is_Some_2 src (S (3 * n))) as [b Eb]; [lia|].
    rewrite (drop_S _ _ _ Ea), (drop_S _ _ _ Eb), drop_ge in Hr by lia. subst r.
    replace (3 * Z.of_nat n) with (Z.of_nat (3 * n)) by lia.
    replace (Z.of_nat (3 * n) + 1) with (Z.of_nat (S (3 * n))) by lia. rewrite !rd_nat, Ea, Eb.
    cbn [mbind option_bind]. pose proof (Hs _ _ Ea) as Ha. pose proof (Hs _ _ Eb) as Hb.
    destruct (sextets_arith a b 0 Ha Hb ltac:(unfold is_byte; lia)) as (X1 & X2 & _ & _ & _ & X6).
    unfold is_byte in Ha, Hb. rewrite X1, X2, X6.
    rewrite putt_room by (lia || zmod). cbn [mbind option_bind].
    rewrite putt_room by (rewrite ?length_app; cbn [length]; (lia || zmod)). cbn [mbind option_bind].
    rewrite putt_room by (rewrite ?length_app; cbn [length]; (lia || zmod)). cbn [mbind option_bind].
    rewrite putc_room by (rewrite ?length_app; cbn [length]; lia). cbn [mbind option_bind].
    rewrite <- !app_assoc. cbn [app]. fold (group2 a b).
    pose proof (encode_end out (t ++ group2 a b) (l + 4)) as Hend. rewrite <- !app_assoc in Hend.
    apply Hend. rewrite length_app. cbn [group2 length]. lia.
Qed.

Lemma base64_encode_text_witness :
  let src := [77; 97; 110; 255] in let out := replicate 12 0xAA in
  (Forall is_byte src /\ (5 * (length src / 3) + 6 <= length out)%nat) /\
  base64_encode src 4 out = Some (splice out 0 (enc_text src ++ [0]), u32 (Z.of_nat (length (enc_text src)))) /\
  enc_text src = [84; 87; 70; 117; 47; 119; 61; 61; 10].
Proof.
  cbv zeta. assert (Forall is_byte [77; 97; 110; 255]) as HF by (repeat (apply Forall_cons; split; [unfold is_byte; lia|]); apply Forall_nil; exact I).
  assert (5 * (length [77; 97; 110; 255] / 3) + 6 <= length (replicate 12 0xAA))%nat as HL by (vm_compute; lia).
  split_and!; [exact HF|exact HL|exact (base64_encode_text [77; 97; 110; 255] (replicate 12 0xAA) HF HL)|
    vm_compute; reflexivity].
Defined.

(** ** The decoder reads it back *)

(** The table, evaluated. *)
Definition dtab : list Z := Eval vm_compute in default [] dtable.

Lemma dtable_dtab : dtable = Some dtab.
Proof. vm_compute. reflexivity. Qed.

Lemma dtab_sextet v : 0 <= v < 64 -> rd dtab (sextet v) = Some v /\ sextet v <> 61.
Proof.
  intros Hv.
  assert (forallb (fun n => bool_decide (rd dtab (sextet (Z.of_nat n)) = Some (Z.of_nat n)) &&
                     negb (sextet (Z.of_nat n) =? 61)) (seq 0 64) = true) as H by (vm_compute; reflexivity).
  rewrite forallb_forall in H. specialize (H (Z.to_nat v)).
  rewrite Z2Nat.id in H by lia. rewrite in_seq in H. specialize (H ltac:(lia)).
  apply andb_true_iff in H as [H1 H2]. apply bool_decide_eq_true in H1.
  apply negb_true_iff, Z.eqb_neq in H2. done.
Qed.

(** The two loops of the decoder as recursions on the characters still unread. *)
Fixpoint count_text (l : list Z) (count : Z) : option Z :=
  match l with
  | [] => Some count
  | c :: l => t ← rd dtab c; count_text l (if negb (t =? 0x80) then count + 1 else count)
  end.

Lemma decode_count_text l src (i : nat) count :
  drop i src = l -> decode_count (length l) dtab src (Z.of_nat i) count = count_text l count.
Proof.
  revert i count. induction l as [|c l IH]; intros i count Hd; [done|].
  assert (src !! i = Some c) as Hc by (rewrite <- (Nat.add_0_r i), <- lookup_drop, Hd; done).
  cbn [length decode_count count_text]. rewrite rd_nat, Hc. cbn [mbind option_bind].
  destruct (rd dtab c); [|done]. cbn [mbind option_bind].
  replace (Z.of_nat i + 1) with (Z.of_nat (S i)) by lia. apply IH.
  rewrite (drop_S _ _ _ Hc) in Hd. by injection Hd.
Qed.

Fixpoint decode_text (l : list Z) (m : mem) (pos : Z) (block : list Z) (pad : Z)
    : option (mem * option Z) :=
  match l with
  | [] => Some (m, Some pos)
  | c :: l =>
      tmp ← rd dtab c;
      if tmp =? 0x80 then decode_text l m pos block pad
      else
        let pad := if c =? 61 then pad + 1 else pad in
        let block := block ++ [tmp] in
        match block with
        | [b0; b1; b2; b3] =>
            let m := store8 m pos (Z.lor (Z.shiftl b0 2) (Z.shiftr b1 4)) in
            let m := store8 m (u32 (pos + 1)) (Z.lor (Z.shiftl b1 4) (Z.shiftr b2 2)) in
            let m := store8 m (u32 (pos + 2)) (Z.lor (Z.shiftl b2 6) b3) in
            let pos := u32 (pos + 3) in
            if negb (pad =? 0) then
              if pad =? 1 then Some (m, Some (u32 (pos - 1)))
              else if pad =? 2 then Some (m, Some (u32 (pos - 2)))
              else Some (m, None)
            else decode_text l m pos [] pad
        | _ => decode_text l m pos block pad
        end
  end.

Lemma decode_loop_text l src (i : nat) m pos block pad :
  drop i src = l -> decode_loop (length l) dtab src (Z.of_nat i) m pos block pad = decode_text l m pos block pad.
Proof.
  revert i m pos block pad. induction l as [|c l IH]; intros i m pos block pad Hd; [done|].
  assert (src !! i = Some c) as Hc by (rewrite <- (Nat.add_0_r i), <- lookup_drop, Hd; done).
  cbn [length decode_loop decode_text]. rewrite rd_nat, Hc. cbn [mbind option_bind].
  destruct (rd dtab c) as [tmp|]; [|done]. cbn [mbind option_bind].
  replace (Z.of_nat i + 1) with (Z.of_nat (S i)) by lia.
  assert (drop (S i) src = l) as Hd' by (rewrite (drop_S _ _ _ Hc) in Hd; by injection Hd).
  rewrite !(IH (S i)) by done.
  destruct (tmp =? 128); [done|].
  destruct (block ++ [tmp]) as [|b0 [|b1 [|b2 [|b3 [|b4 bs]]]]]; rewrite ?IH by done; done.
Qed.

(** Storing a list of bytes from [pos] on. *)
Fixpoint poke (m : mem) (pos : Z) (bs : list Z) : mem :=
  match bs with [] => m | b :: bs => poke (store8 m pos b) (pos + 1) bs end.

Lemma poke_app m pos bs cs :
  poke m pos (bs ++ cs) = poke (poke m pos bs) (pos + Z.of_nat (length bs)) cs.
Proof.
  revert m pos. induction bs as [|b bs IH]; intros m pos; cbn [poke app length].
  - by rewrite Z.add_0_r.
  - rewrite IH. f_equal. lia.
Qed.

Lemma load8_poke_out m pos bs a :
  ~ (pos <= a < pos + Z.of_nat (length bs)) -> load8 (poke m pos bs) a = load8 m a.
Proof.
  revert m pos. induction bs as [|b bs IH]; intros m pos Ha; [done|]. cbn [poke length] in *.
  rewrite IH by lia. apply load8_store8_ne. lia.
Qed.

Lemma load8_poke m pos bs (i : nat) b :
  bs !! i = Some b -> load8 (poke m pos bs) (pos + Z.of_nat i) = u8 b.
Proof.
  revert m pos i. induction bs as [|b' bs IH]; intros m pos [|i] Hb; try done; cbn [poke].
  - injection Hb as ->. rewrite Z.add_0_r, load8_poke_out by lia. apply load8_store8_eq.
  - rewrite <- (IH (store8 m pos b') (pos + 1) i Hb). f_equal. lia.
Qed.

(** [store8] only sees the low byte. *)
Lemma store8_u8 m a v w : u8 v = u8 w -> store8 m a v = store8 m a w.
Proof. unfold store8. by intros ->. Qed.

Lemma unsextets_arith v0 v1 v2 v3 :
  0 <= v0 < 64 -> 0 <= v1 < 64 -> 0 <= v2 < 64 -> 0 <= v3 < 64 ->
  Z.lor (Z.shiftl v0 2) (Z.shiftr v1 4) = v0 * 4 + v1 / 16 /\
  Z.lor (Z.shiftl v1 4) (Z.shiftr v2 2) = v1 * 16 + v2 / 4 /\
  Z.lor (Z.shiftl v2 6) v3 = v2 * 64 + v3.
Proof.
  intros. rewrite !Z.shiftr_div_pow2 by lia. change (2 ^ 4) with 16. change (2 ^ 2) with 4.
  rewrite (lor_shift v0 (v1 / 16) 2), (lor_shift v1 (v2 / 4) 4), (lor_shift v2 v3 6)
    by (try lia; change (2 ^ 4) with 16; change (2 ^ 2) with 4; zmod).
  done.
Qed.

Lemma decode_char v l m pos block pad :
  0 <= v < 64 -> (length block < 3)%nat ->
  decode_text (sextet v :: l) m pos block pad = decode_text l m pos (block ++ [v]) pad.
Proof.
  intros Hv Hb. destruct (dtab_sextet v Hv) as [H1 H2]. cbn [decode_text]. rewrite H1.
  cbn [mbind option_bind]. rewrite (proj2 (Z.eqb_neq v 128)), (proj2 (Z.eqb_neq (sextet v) 61)) by (lia || done).
  by destruct block as [|? [|? [|? ?]]]; cbn [length] in Hb; try lia.
Qed.

Lemma decode_newline l m pos block pad : decode_text (10 :: l) m pos block pad = decode_text l m pos block pad.
Proof. reflexivity. Qed.

(** Three stores in a row, at the bytes the four sextets spell. *)
Lemma store_group m pos v0 v1 v2 v3 x y z :
  0 <= v0 < 64 -> 0 <= v1 < 64 -> 0 <= v2 < 64 -> 0 <= v3 < 64 -> 0 <= pos -> pos + 3 < 2 ^ 32 ->
  x = u8 (v0 * 4 + v1 / 16) -> y = u8 (v1 * 16 + v2 / 4) -> z = u8 (v2 * 64 + v3) ->
  store8 (store8 (store8 m pos (Z.lor (Z.shiftl v0 2) (Z.shiftr v1 4)))
    (u32 (pos + 1)) (Z.lor (Z.shiftl v1 4) (Z.shiftr v2 2)))
    (u32 (pos + 2)) (Z.lor (Z.shiftl v2 6) v3) = poke m pos [x; y; z].
Proof.
  intros H0 H1 H2 H3 Hp Hp' -> -> ->.
  destruct (unsextets_arith v0 v1 v2 v3 H0 H1 H2 H3) as (-> & -> & ->). cbn [poke].
  unfold u32. rewrite !Z.mod_small by lia. replace (pos + 1 + 1) with (pos + 2) by lia.
  unfold store8. rewrite !(u8_small (u8 _)) by apply u8_range. done.
Qed.

Lemma decode_group a b c l m pos :
  is_byte a -> is_byte b -> is_byte c -> 0 <= pos -> pos + 3 < 2 ^ 32 ->
  decode_text (group a b c ++ l) m pos [] 0 = decode_text l (poke m pos [a; b; c]) (pos + 3) [] 0.
Proof.
  unfold is_byte, group. intros Ha Hb Hc Hp Hp'. cbn [app].
  rewrite !decode_char by (cbn; (lia || zmod)). cbn [app].
  destruct (dtab_sextet (c mod 64) ltac:(zmod)) as [H1 H2]. cbn [decode_text]. rewrite H1.
  cbn [mbind option_bind app]. rewrite (proj2 (Z.eqb_neq (c mod 64) 128)) by zmod.
  rewrite (proj2 (Z.eqb_neq _ _) H2). change (negb (0 =? 0)) with false. cbv iota.
  rewrite (store_group m pos _ _ _ _ a b c) by (unfold u8; zmod).
  unfold u32. by rewrite Z.mod_small by lia.
Qed.

Lemma decode_group2 a b l m pos :
  is_byte a -> is_byte b -> 0 <= pos -> pos + 3 < 2 ^ 32 ->
  decode_text (group2 a b ++ l) m pos [] 0 = Some (poke m pos [a; b; 0], Some (pos + 2)).
Proof.
  unfold is_byte, group2. intros Ha Hb Hp Hp'. cbn [app].
  rewrite !decode_char by (cbn; (lia || zmod)). cbn [app decode_text].
  change (rd dtab 61) with (Some 0). cbn [mbind option_bind app Z.eqb negb].
  rewrite (store_group m pos _ _ _ 0 a b 0) by (unfold u8; zmod).
  cbn [Z.add Z.eqb Pos.eqb negb]. do 3 f_equal. unfold u32. zmod.
Qed.

Lemma decode_group1 a l m pos :
  is_byte a -> 0 <= pos -> pos + 3 < 2 ^ 32 ->
  decode_text (group1 a ++ l) m pos [] 0 = Some (poke m pos [a; 0; 0], Some (pos + 1)).
Proof.
  unfold is_byte, group1. intros Ha Hp Hp'. cbn [app].
  rewrite !decode_char by (cbn; (lia || zmod)). cbn [app decode_text].
  change (rd dtab 61) with (Some 0). cbn [mbind option_bind app Z.eqb negb].
  rewrite (store_group m pos _ _ 0 0 a 0 0) by (unfold u8; zmod).
  cbn [Z.add Z.eqb Pos.eqb Pos.add negb]. do 3 f_equal. unfold u32. zmod.
Qed.

Lemma decode_groups n src line t l r tail m pos :
  Forall is_byte src -> (3 * n <= length src)%nat -> enc_groups n line src = (t, l, r) ->
  0 <= pos -> pos + 3 * Z.of_nat n < 2 ^ 32 ->
  decode_text (t ++ tail) m pos [] 0 =
    decode_text tail (poke m pos (take (3 * n) src)) (pos + 3 * Z.of_nat n) [] 0 /\
  r = drop (3 * n) src.
Proof.
  revert src line t l r m pos. induction n as [|n IH]; intros src line t l r m pos Hs Hn He Hp Hp'.
  { cbn in He. injection He as <- <- <-. cbn. by rewrite Z.add_0_r, drop_0. }
  destruct src as [|a [|b [|c rest]]]; cbn [length] in Hn; try lia. cbn [enc_groups] in He.
  destruct (enc_groups n (if 72 <=? line + 4 then 0 else line + 4) rest) as [[t' l'] r'] eqn:E.
  rewrite !pair_eq in He. destruct He as [[<- <-] <-].
  inversion Hs as [|? ? Ha Hs1]; inversion Hs1 as [|? ? Hb Hs2]; inversion Hs2 as [|? ? Hc Hs3]; subst.
  rewrite <- !app_assoc, decode_group by (done || lia).
  replace (3 * S n)%nat with (S (S (S (3 * n)))) by lia. cbn [take drop].
  replace (pos + 3 * Z.of_nat (S n)) with (pos + 3 + 3 * Z.of_nat n) by lia.
  destruct (IH rest (if 72 <=? line + 4 then 0 else line + 4) t' l' r' (poke m pos [a; b; c]) (pos + 3))
    as [HIH ->]; try done; try lia.
  split; [|done]. cbn [poke] in *. replace (pos + 3) with (pos + 1 + 1 + 1) in * by lia.
  rewrite <- HIH. by destruct (72 <=? line + 4).
Qed.

Lemma count_char v l k : 0 <= v < 64 -> count_text (sextet v :: l) k = count_text l (k + 1).
Proof.
  intros Hv. cbn [count_text]. rewrite (proj1 (dtab_sextet v Hv)). cbn [mbind option_bind].
  by rewrite (proj2 (Z.eqb_neq v 128)) by lia.
Qed.

Lemma count_pad l k : count_text (61 :: l) k = count_text l (k + 1).
Proof. reflexivity. Qed.

Lemma count_newline l k (b : bool) : count_text ((if b then [10] else []) ++ l) k = count_text l k.
Proof. by destruct b. Qed.

Lemma count_groups n src line t l r tail k :
  Forall is_byte src -> (3 * n <= length src)%nat -> enc_groups n line src = (t, l, r) ->
  count_text (t ++ tail) k = count_text tail (k + 4 * Z.of_nat n).
Proof.
  revert src line t l r k. induction n as [|n IH]; intros src line t l r k Hs Hn He.
  { cbn in He. injection He as <- <- <-. by rewrite Z.add_0_r. }
  destruct src as [|a [|b [|c rest]]]; cbn [length] in Hn; try lia. cbn [enc_groups] in He.
  destruct (enc_groups n (if 72 <=? line + 4 then 0 else line + 4) rest) as [[t' l'] r'] eqn:E.
  rewrite !pair_eq in He. destruct He as [[<- <-] <-].
  inversion Hs as [|? ? Ha Hs1]; inversion Hs1 as [|? ? Hb Hs2]; inversion Hs2 as [|? ? Hc Hs3]; subst.
  unfold is_byte in *. unfold group. rewrite <- !app_assoc. cbn [app].
  rewrite !count_char by zmod.
  replace (k + 4 * Z.of_nat (S n)) with (k + 1 + 1 + 1 + 1 + 4 * Z.of_nat n) by lia.
  rewrite <- (IH _ _ _ _ _ (k + 1 + 1 + 1 + 1) Hs3 ltac:(lia) E). by destruct (72 <=? line + 4).
Qed.

(** What the decoder stores: the bytes, and the zero bytes the padding spells. *)
Definition pad_bytes (src : list Z) : list Z :=
  match (length src mod 3)%nat with 1%nat => [0; 0] | 2%nat => [0] | _ => [] end.

Lemma decode_enc_text src m :
  Forall is_byte src -> Z.of_nat (length src) + 3 < 2 ^ 32 ->
  decode_text (enc_text src) m 0 [] 0 =
    Some (poke m 0 (src ++ pad_bytes src), Some (Z.of_nat (length src))) /\
  count_text (enc_text src) 0 = Some (4 * Z.of_nat ((length src + 2) / 3)).
Proof.
  intros Hs Hl. unfold enc_text, pad_bytes.
  pose proof (Nat.div_mod (length src) 3 ltac:(lia)) as Hdm.
  pose proof (Nat.mod_upper_bound (length src) 3 ltac:(lia)) as Hub.
  set (n := (length src / 3)%nat) in *. set (k := (length src mod 3)%nat) in *. clearbody n k.
  assert ((length src + 2) / 3 = n + (if k =? 0 then 0 else 1))%nat as ->.
  { symmetry. destruct k as [|[|[|?]]]; [apply (Nat.div_unique _ 3 _ 2)|apply (Nat.div_unique _ 3 _ 0)|
      apply (Nat.div_unique _ 3 _ 1)|]; cbn; lia. }
  destruct (enc_groups n 0 src) as [[t l] r] eqn:E.
  assert (Forall is_byte r) as Hr.
  { destruct (decode_groups n src 0 t l r [] m 0) as [_ ->]; try done; try lia. by apply Forall_drop. }
  assert (forall tail, decode_text (t ++ tail) m 0 [] 0 =
    decode_text tail (poke m 0 (take (3 * n) src)) (3 * Z.of_nat n) [] 0 /\ r = drop (3 * n) src) as HG.
  { intros tail. apply (decode_groups n src 0 t l r tail m 0); try done; lia. }
  pose proof (proj2 (HG [])) as Er.
  assert (src = take (3 * n) src ++ r) as Esrc by (rewrite Er; by rewrite take_drop).
  assert (length (take (3 * n) src) = 3 * n)%nat as Elen by (rewrite length_take; lia).
  assert (forall g x, length r = k -> poke (poke m 0 (take (3 * n) src)) (3 * Z.of_nat n) (r ++ g) = poke m 0 (src ++ x)
    <-> poke m 0 (take (3 * n) src ++ r ++ g) = poke m 0 ((take (3 * n) src ++ r) ++ x)) as HP.
  { intros g x _. rewrite <- Esrc. rewrite (poke_app m 0 (take (3 * n) src)), Elen. by rewrite Z.add_0_l, Nat2Z.inj_mul. }
  assert (length r = k) as Hrk by (rewrite Er, length_drop; lia).
  destruct r as [|a [|b [|? ?]]]; cbn [length] in Hrk; subst k; try lia;
    rewrite (proj1 (HG _)), (count_groups n src 0 t l _ _ 0 Hs ltac:(lia) E);
    clear HG; unfold is_byte in Hr.
  - rewrite app_nil_r in Esrc. cbn [app Nat.eqb]. rewrite app_nil_r, <- Esrc.
    split.
    + destruct (negb (l =? 0)); [rewrite decode_newline|]; cbn [decode_text]; do 3 f_equal; lia.
    + rewrite <- (app_nil_r (if negb _ then _ else _)), count_newline. cbn [count_text]. f_equal. lia.
  - inversion Hr; subst. rewrite decode_group1 by (done || lia). split.
    + do 2 f_equal; [|f_equal; lia]. apply (HP [0; 0] [0; 0] eq_refl). by rewrite <- app_assoc.
    + unfold group1. cbn [app]. rewrite !count_char, !count_pad by zmod.
      rewrite <- (app_nil_r (if negb _ then _ else _)), count_newline. cbn [count_text Nat.eqb]. f_equal. lia.
  - inversion Hr as [|? ? ? Hr']; inversion Hr'; subst. rewrite decode_group2 by (done || lia). split.
    + do 2 f_equal; [|f_equal; lia]. apply (HP [0] [0] eq_refl). by rewrite <- app_assoc.
    + unfold group2. cbn [app]. rewrite !count_char, !count_pad by zmod.
      rewrite <- (app_nil_r (if negb _ then _ else _)), count_newline. cbn [count_text Nat.eqb]. f_equal. lia.
Qed.

(** Round trip, and where it ends up: on the text of a non-empty [src],
    [base64_decode] recovers every byte of [src], but stores them from address
    0, because [pos] starts at [NULL]: the bytes at [out], and everything else
    above the decoded bytes, are untouched, and the value returned is the
    number of bytes minus the address of [out]. *)
Theorem base64_decode_at_null m src out :
  Forall is_byte src -> src <> [] -> Z.of_nat (length src) + 3 < 2 ^ 32 ->
  let text := enc_text src in
  exists m', base64_decode m text (Z.of_nat (length text)) out =
      Some (m', u32 (Z.of_nat (length src) - out)) /\
    (forall (i : nat) b, src !! i = Some b -> load8 m' (Z.of_nat i) = b) /\
    (forall a, Z.of_nat (length src) + 2 <= a -> load8 m' a = load8 m a).
Proof.
  intros Hs Hne Hl text. destruct (decode_enc_text src m Hs Hl) as [HD HC]. fold text in HD, HC.
  exists (poke m 0 (src ++ pad_bytes src)). split_and!.
  - unfold base64_decode. rewrite dtable_dtab, Nat2Z.id. cbn [mbind option_bind].
    rewrite (decode_count_text text text 0), HC by apply drop_0. cbn [mbind option_bind].
    assert (1 <= (length src + 2) / 3)%nat.
    { apply Nat.div_le_lower_bound; [lia|]. destruct src; [done|]. cbn. lia. }
    rewrite (proj2 (Z.eqb_neq _ 0)), (Z.mul_comm 4), Z.mod_mul by lia. cbn [orb negb Z.eqb].
    by rewrite (decode_loop_text text text 0), HD by apply drop_0.
  - intros i b Hb. rewrite <- (Z.add_0_l (Z.of_nat i)).
    rewrite (load8_poke _ _ _ _ b) by (by apply lookup_app_l_Some).
    rewrite Forall_lookup in Hs. apply u8_small. apply (Hs _ _ Hb).
  - intros a Ha. apply load8_poke_out. rewrite length_app. unfold pad_bytes.
    destruct (length src mod 3)%nat as [|[|[|?]]]; cbn [length]; lia.
Qed.

Lemma base64_decode_at_null_witness :
  let src := [77; 97; 110; 255] in
  exists m', base64_decode ∅ [84; 87; 70; 117; 47; 119; 61; 61; 10] 9 0x100000 = Some (m', u32 (4 - 0x100000)) /\
    (forall (i : nat) b, src !! i = Some b -> load8 m' (Z.of_nat i) = b) /\
    (forall a, 6 <= a -> load8 m' a = load8 ∅ a).
Proof.
  cbv zeta. apply (base64_decode_at_null ∅ [77; 97; 110; 255] 0x100000);
    [repeat (apply Forall_cons; split; [unfold is_byte; lia|]); apply Forall_nil; exact I|discriminate|reflexivity].
Defined.
