(* ===== verification/Url.v ===== *)
(** * URL parser and printer (src/libz/fudge/url.c)

    [url_parse] is a state machine over the characters of a nul-terminated
    string: each state is one function here, a step either consumes its
    character ([Next]), leaves it to the next state ([Again], the source's
    [i--]) or rejects the string.  The component strings are copied into the
    caller's buffer; the pointers of [struct url] are offsets into it, and a
    null pointer is [None]. *)
From S2P Require Import Prelude Buffer Cstring.

Local Open Scope Z_scope.

(** ** Data *)

Inductive url_state :=
  | URL_SCHEME | URL_LIMBO1 | URL_LIMBO2 | URL_AUTHORITY | URL_USERINFO
  | URL_HOST | URL_PORT | URL_PATH | URL_QUERY | URL_FRAGMENT.

Record url := mk_url {
  full : Z; authority : Z; scheme : option Z; userinfo : option Z; host : option Z;
  port : option Z; path : option Z; query : option Z; fragment : option Z }.

Record pos := mk_pos { buffer : list Z; buffersize : Z; bufferused : Z }.

(** The locals of [url_parse] that change: [*url], [pos], [start], [state]. *)
Record parse := mk_parse { purl : url; ppos : pos; start : Z; state : url_state }.

Definition url_null : url := mk_url 0 0 None None None None None None None.

Definition set_full (u : url) : url :=
  mk_url 1 (authority u) (scheme u) (userinfo u) (host u) (port u) (path u) (query u) (fragment u).
Definition set_authority (u : url) : url :=
  mk_url (full u) 1 (scheme u) (userinfo u) (host u) (port u) (path u) (query u) (fragment u).
Definition set_scheme (u : url) (x : option Z) : url :=
  mk_url (full u) (authority u) x (userinfo u) (host u) (port u) (path u) (query u) (fragment u).
Definition set_userinfo (u : url) (x : option Z) : url :=
  mk_url (full u) (authority u) (scheme u) x (host u) (port u) (path u) (query u) (fragment u).
Definition set_host (u : url) (x : option Z) : url :=
  mk_url (full u) (authority u) (scheme u) (userinfo u) x (port u) (path u) (query u) (fragment u).
Definition set_port (u : url) (x : option Z) : url :=
  mk_url (full u) (authority u) (scheme u) (userinfo u) (host u) x (path u) (query u) (fragment u).
Definition set_path (u : url) (x : option Z) : url :=
  mk_url (full u) (authority u) (scheme u) (userinfo u) (host u) (port u) x (query u) (fragment u).
Definition set_query (u : url) (x : option Z) : url :=
  mk_url (full u) (authority u) (scheme u) (userinfo u) (host u) (port u) (path u) x (fragment u).
Definition set_fragment (u : url) (x : option Z) : url :=
  mk_url (full u) (authority u) (scheme u) (userinfo u) (host u) (port u) (path u) (query u) x.

Definition on_url (f : url -> url) (p : parse) : parse :=
  mk_parse (f (purl p)) (ppos p) (start p) (state p).
Definition goto (p : parse) (st : url_state) : parse :=
  mk_parse (purl p) (ppos p) (start p) st.

(** ** Copying *)

(** [for (i = 0; i < len; i++) out[i] = s[i]], [out] and [s] at their offsets. *)
Fixpoint copy_chars (n : nat) (out : list Z) (o : Z) (s : list Z) (i : Z) : option (list Z) :=
  match n with
  | O => Some out
  | S n => c ← rd s i; out ← wr out o c; copy_chars n out (o + 1) s (i + 1)
  end.

Definition createstring (p : pos) (s : list Z) (st e : Z) (zero : bool) : option (pos * option Z) :=
  let len := u32 (e - st) in
  if negb zero && (len =? 0) then Some (p, None)
  else
    let avail := u32 (buffersize p - bufferused p) in
    if len <? avail then
      out ← copy_chars (Z.to_nat len) (buffer p) (bufferused p) s st;
      out ← wr out (bufferused p + len) 0;
      Some (mk_pos out (buffersize p) (u32 (bufferused p + (len + 1))), Some (bufferused p))
    else Some (p, None).

Definition copyout (buf : list Z) (size : Z) (s : list Z) (len offset : Z) : option (list Z * Z) :=
  let avail := u32 (size - offset) in
  if len <? avail then
    out ← copy_chars (Z.to_nat len) buf offset s 0;
    out ← wr out (offset + len) 0;
    Some (out, len)
  else Some (buf, 0).

(** ** The states *)

Inductive outcome := Next (p : parse) | Again (p : parse) | Reject (p : parse).

Section Steps.
Variable s : list Z.

(** [url->field = createstring(&pos, start, end, zero)] with [end = s + i]. *)
Definition assign (set : url -> option Z -> url) (p : parse) (i : Z) (zero : bool) : option parse :=
  '(ps, x) ← createstring (ppos p) s (start p) i zero;
  Some (mk_parse (set (purl p) x) ps (start p) (state p)).

(** The same followed by [state = st; start = next; break]. *)
Definition assign_goto (set : url -> option Z -> url) (p : parse) (i : Z) (zero : bool)
    (st : url_state) : option outcome :=
  p ← assign set p i zero; Some (Next (mk_parse (purl p) (ppos p) (i + 1) st)).

Definition step_scheme (i c : Z) (p : parse) : option outcome :=
  let p := on_url set_full p in
  if c =? 0 then Some (Next p)
  else if c =? 58 then assign_goto set_scheme p i false URL_LIMBO1
  else if (c =? 43) || (c =? 45) || (c =? 46) then Some (Next p)
  else if cstring_isalpha c =? 0 then Some (Reject p)
  else Some (Next p).

Definition step_limbo1 (i c : Z) (p : parse) : option outcome :=
  if c =? 47 then Some (Next (goto p URL_LIMBO2)) else Some (Again (goto p URL_PATH)).

Definition step_limbo2 (i c : Z) (p : parse) : option outcome :=
  if c =? 47 then Some (Next (mk_parse (purl p) (ppos p) (i + 1) URL_AUTHORITY))
  else Some (Again (goto p URL_PATH)).

Definition step_authority (i c : Z) (p : parse) : option outcome :=
  let p := on_url set_authority p in
  if c =? 64 then Some (Again (goto p URL_USERINFO))
  else if (c =? 0) || (c =? 47) || (c =? 58) then Some (Again (goto p URL_HOST))
  else Some (Next p).

Definition step_userinfo (i c : Z) (p : parse) : option outcome :=
  let p := on_url set_authority p in
  if c =? 0 then p ← assign set_userinfo p i false; Some (Next p)
  else if c =? 64 then assign_goto set_userinfo p i false URL_HOST
  else Some (Next p).

Definition step_host (i c : Z) (p : parse) : option outcome :=
  let p := on_url set_authority p in
  if c =? 0 then p ← assign set_host p i false; Some (Next p)
  else if c =? 58 then assign_goto set_host p i false URL_PORT
  else if c =? 47 then assign_goto set_host p i false URL_PATH
  else Some (Next p).

Definition step_port (i c : Z) (p : parse) : option outcome :=
  let p := on_url set_authority p in
  if c =? 0 then p ← assign set_port p i false; Some (Next p)
  else if c =? 47 then assign_goto set_port p i false URL_PATH
  else if cstring_isdigit c =? 0 then Some (Reject p)
  else Some (Next p).

Definition step_path (i c : Z) (p : parse) : option outcome :=
  if c =? 0 then p ← assign set_path p i true; Some (Next p)
  else if c =? 63 then assign_goto set_path p i true URL_QUERY
  else if c =? 35 then assign_goto set_path p i true URL_FRAGMENT
  else Some (Next p).

Definition step_query (i c : Z) (p : parse) : option outcome :=
  if c =? 0 then p ← assign set_query p i true; Some (Next p)
  else if c =? 35 then assign_goto set_query p i true URL_FRAGMENT
  else Some (Next p).

Definition step_fragment (i c : Z) (p : parse) : option outcome :=
  if c =? 0 then p ← assign set_fragment p i true; Some (Next p) else Some (Next p).

Definition url_step (i c : Z) (p : parse) : option outcome :=
  match state p with
  | URL_SCHEME => step_scheme i c p
  | URL_LIMBO1 => step_limbo1 i c p
  | URL_LIMBO2 => step_limbo2 i c p
  | URL_AUTHORITY => step_authority i c p
  | URL_USERINFO => step_userinfo i c p
  | URL_HOST => step_host i c p
  | URL_PORT => step_port i c p
  | URL_PATH => step_path i c p
  | URL_QUERY => step_query i c p
  | URL_FRAGMENT => step_fragment i c p
  end.

(** The [for] loop; [i--] before the increment leaves [i] where it is, also at
    [i = 0], where the unsigned counter wraps and comes back. *)
Fixpoint parse_loop (fuel : nat) (count i : Z) (p : parse) : option (parse * bool) :=
  match fuel with
  | O => None
  | S fuel =>
      if i <? count then
        c ← rd s i;
        o ← url_step i c p;
        match o with
        | Next p => parse_loop fuel count (u32 (i + 1)) p
        | Again p => parse_loop fuel count (u32 (u32 (i - 1) + 1)) p
        | Reject p => Some (p, false)
        end
      else Some (p, true)
  end.
End Steps.

(** Results: the structure, the buffer, and the value returned.  At most one
    step of a run is an [Again], so [count + 2] iterations are enough. *)
Definition url_parse (buf : list Z) (size : Z) (s : list Z) (st : url_state)
    : option (url * list Z * Z) :=
  count ← cstring_length_zero s;
  '(p, ok) ← parse_loop s (Z.to_nat count + 2) count 0 (mk_parse url_null (mk_pos buf size 0) 0 st);
  let u := purl p in
  let ret :=
    if negb ok then 0
    else if negb (full u =? 0) && bool_decide (scheme u = None) then 0
    else if negb (authority u =? 0) && bool_decide (host u = None) then 0
    else 1 in
  Some (u, buffer (ppos p), ret).

(** ** Printing *)

Section ToString.
(** The object the pointers of the structure point into. *)
Variable strings : list Z.

(** [offset += copyout(buffer, buffersize, ..., offset)] with a literal and
    with a string of the structure. *)
Definition out_lit (size : Z) (lit : list Z) (st : list Z * Z) : option (list Z * Z) :=
  let '(buf, offset) := st in
  '(buf, n) ← copyout buf size (lit ++ [0]) (Z.of_nat (length lit)) offset;
  Some (buf, u32 (offset + n)).

Definition out_str (size : Z) (x : Z) (st : list Z * Z) : option (list Z * Z) :=
  let '(buf, offset) := st in
  let str := drop (Z.to_nat x) strings in
  len ← cstring_length str;
  '(buf, n) ← copyout buf size str len offset;
  Some (buf, u32 (offset + n)).

Definition url_tostring (u : url) (buf : list Z) (size : Z) : option (list Z * Z) :=
  let st := (buf, 0) in
  st ← (match scheme u with
        | None => Some st
        | Some x => st ← out_str size x st; out_lit size [58] st
        end);
  st ← (if authority u =? 0 then Some st
        else
          st ← out_lit size [47; 47] st;
          st ← (match userinfo u with
                | None => Some st
                | Some x => st ← out_str size x st; out_lit size [64] st
                end);
          st ← (match host u with None => Some st | Some x => out_str size x st end);
          match port u with
          | None => Some st
          | Some x => st ← out_lit size [58] st; out_str size x st
          end);
  st ← (match path u with
        | None => Some st
        | Some x =>
            st ← (if authority u =? 0 then Some st else out_lit size [47] st);
            out_str size x st
        end);
  st ← (match query u with
        | None => Some st
        | Some x => st ← out_lit size [63] st; out_str size x st
        end);
  st ← (match fragment u with
        | None => Some st
        | Some x => st ← out_lit size [35] st; out_str size x st
        end);
  let '(buf, offset) := st in
  buf ← wr buf offset 0;
  Some (buf, offset).
End ToString.

(** ** Copying, specified *)

Lemma copy_chars_spec n out (o : nat) s (i : nat) :
  (i + n <= length s)%nat -> (o + n <= length out)%nat ->
  copy_chars n out (Z.of_nat o) s (Z.of_nat i) = Some (splice out o (slice s i n)).
Proof.
  revert out o i. induction n as [|n IH]; intros out o i Hi Ho; [by rewrite slice_0, splice_nil|].
  destruct (lookup_lt_is_Some_2 s i) as [c Hc]; [lia|].
  cbn [copy_chars]. rewrite rd_nat, Hc. cbn [mbind option_bind]. rewrite wr_Some by lia.
  rewrite Nat2Z.id. cbn [mbind option_bind].
  replace (Z.of_nat o + 1) with (Z.of_nat (S o)) by lia. replace (Z.of_nat i + 1) with (Z.of_nat (S i)) by lia.
  rewrite IH by (rewrite ?length_insert; lia).
  rewrite splice_cons by (rewrite length_slice; lia). by rewrite (slice_S _ _ _ _ Hc).
Qed.

(** A copy and its terminator. *)
Lemma copy_string_spec n out (o : nat) s (i : nat) :
  (i + n <= length s)%nat -> (o + n < length out)%nat ->
  (out' ← copy_chars n out (Z.of_nat o) s (Z.of_nat i); wr out' (Z.of_nat o + Z.of_nat n) 0) =
    Some (splice out o (slice s i n ++ [0])).
Proof.
  intros Hi Ho. rewrite copy_chars_spec by lia. cbn [mbind option_bind].
  assert (length (slice s i n) = n) as Hl by (rewrite length_slice; lia).
  rewrite wr_Some by (rewrite length_splice; lia). f_equal.
  replace (Z.to_nat (Z.of_nat o + Z.of_nat n)) with (o + length (slice s i n))%nat by lia.
  rewrite <- splice_app by (cbn [length]; lia).
  rewrite <- (splice_cons _ _ 0 []) by (rewrite length_splice; cbn [length]; lia).
  by rewrite splice_nil.
Qed.

(** Both copying functions read [wr] under a bind with a continuation. *)
Lemma copy_string_bind {A} n out (o : nat) s (i : nat) (k : list Z -> option A) :
  (i + n <= length s)%nat -> (o + n < length out)%nat ->
  (out' ← copy_chars n out (Z.of_nat o) s (Z.of_nat i);
   out'' ← wr out' (Z.of_nat o + Z.of_nat n) 0; k out'') = k (splice out o (slice s i n ++ [0])).
Proof.
  intros Hi Ho. pose proof (copy_string_spec n out o s i Hi Ho) as H.
  destruct (copy_chars n out (Z.of_nat o) s (Z.of_nat i)); [|done]. cbn [mbind option_bind] in *.
  by rewrite H.
Qed.

(** The buffer has [used] bytes in use, and [size] is at most its length. *)
Definition pos_ok (p : pos) : Prop :=
  0 <= bufferused p <= buffersize p /\ buffersize p <= Z.of_nat (length (buffer p)) /\
  buffersize p < 2 ^ 32.

(** [createstring] on every branch. *)
Lemma createstring_spec p s (st e : nat) zero :
  pos_ok p -> (st <= e <= length s)%nat -> Z.of_nat (length s) < 2 ^ 32 ->
  createstring p s (Z.of_nat st) (Z.of_nat e) zero =
    Some (if (negb zero && (e - st =? 0)%nat) || (buffersize p - bufferused p <=? Z.of_nat (e - st))
          then (p, None)
          else (mk_pos (splice (buffer p) (Z.to_nat (bufferused p)) (slice s st (e - st) ++ [0]))
                  (buffersize p) (bufferused p + Z.of_nat (e - st) + 1), Some (bufferused p))).
Proof.
  intros (Hu & Hb & Hs) He Hl. destruct p as [b size used]. cbn [buffer buffersize bufferused] in *.
  destruct (Z_of_nat_complete used ltac:(lia)) as [u ->]. unfold createstring. cbn [buffer buffersize bufferused].
  replace (u32 (Z.of_nat e - Z.of_nat st)) with (Z.of_nat (e - st)) by (unfold u32; rewrite Z.mod_small; lia).
  replace (u32 (size - Z.of_nat u)) with (size - Z.of_nat u) by (unfold u32; rewrite Z.mod_small; lia).
  replace (Z.of_nat (e - st) =? 0) with (e - st =? 0)%nat
    by (destruct (Nat.eqb_spec (e - st) 0), (Z.eqb_spec (Z.of_nat (e - st)) 0); lia || done).
  rewrite Z.leb_antisym.
  destruct (negb zero && (e - st =? 0)%nat); [done|]. cbn [orb].
  destruct (Z.ltb_spec (Z.of_nat (e - st)) (size - Z.of_nat u)); [|done]. cbn [negb].
  rewrite !Nat2Z.id.
  etransitivity; [apply (copy_string_bind (e - st) b u s st (fun out => Some (mk_pos out size _, Some _))); lia|].
  rewrite u32_small by lia. do 3 f_equal. lia.
Qed.

(** ** Totality: the parser terminates and stays inside its objects *)

(** How often a state can still hand its character on. *)
Definition rank (st : url_state) : nat :=
  match st with
  | URL_SCHEME | URL_LIMBO1 | URL_LIMBO2 | URL_AUTHORITY => 1
  | _ => 0
  end.

Definition parse_ok (i : nat) (p : parse) : Prop :=
  pos_ok (ppos p) /\ 0 <= start p <= Z.of_nat i.

Section Total.
Context (s : list Z) (Hs : Z.of_nat (length s) < 2 ^ 32).

Lemma assign_ok set p (i : nat) zero :
  parse_ok i p -> (i <= length s)%nat ->
  exists p', assign s set p (Z.of_nat i) zero = Some p' /\ parse_ok i p' /\ state p' = state p.
Proof.
  intros [Hp Hst] Hi. unfold assign. destruct (Z_of_nat_complete (start p) ltac:(lia)) as [st Est].
  rewrite Est, createstring_spec by (done || lia). cbn [mbind option_bind]. destruct Hp as (Hu & Hb & Hs').
  destruct (_ || (buffersize (ppos p) - bufferused (ppos p) <=? Z.of_nat (i - st))) eqn:E;
    eexists; (split; [reflexivity|]); (split; [|done]); (split; [|cbn; lia]); [done|].
  apply orb_false_iff in E as [_ E%Z.leb_gt]. repeat split; cbn; try lia.
  rewrite length_splice; [lia|]. rewrite length_app, length_slice by lia. cbn [length]. lia.
Qed.

Definition step_ok (i : nat) (p : parse) (o : outcome) : Prop :=
  match o with
  | Next p' => parse_ok (S i) p' /\ (rank (state p') <= rank (state p))%nat
  | Again p' => parse_ok i p' /\ (rank (state p') < rank (state p))%nat
  | Reject _ => True
  end.

Lemma parse_ok_S i p : parse_ok i p -> parse_ok (S i) p.
Proof. intros [? ?]. split; [done|lia]. Qed.

Lemma parse_ok_url i p f : parse_ok i p -> parse_ok i (on_url f p).
Proof. done. Qed.

(** The two ways a component ends. *)
Lemma assign_next_ok set p (i : nat) zero q :
  parse_ok i p -> (i <= length s)%nat -> state q = state p ->
  exists o, (p ← assign s set p (Z.of_nat i) zero; Some (Next p)) = Some o /\ step_ok i q o.
Proof.
  intros Hp Hi Hq. destruct (assign_ok set p i zero Hp Hi) as (p' & -> & Hp' & Est).
  eexists. split; [reflexivity|]. split; [by apply parse_ok_S|]. by rewrite Est, Hq.
Qed.

Lemma assign_goto_ok set p (i : nat) zero st q :
  parse_ok i p -> (i <= length s)%nat -> (rank st <= rank (state q))%nat ->
  exists o, assign_goto s set p (Z.of_nat i) zero st = Some o /\ step_ok i q o.
Proof.
  intros Hp Hi Hq. unfold assign_goto.
  destruct (assign_ok set p i zero Hp Hi) as (p' & -> & [Hp' _] & _).
  eexists. split; [reflexivity|]. split; [|done]. split; [done|]. cbn. lia.
Qed.

Lemma url_step_ok (i : nat) c p :
  parse_ok i p -> (i < length s)%nat -> exists o, url_step s (Z.of_nat i) c p = Some o /\ step_ok i p o.
Proof.
  intros Hp Hi. pose proof (parse_ok_S _ _ Hp) as [HpS HstS]. pose proof (proj2 Hp).
  unfold url_step. destruct (state p) eqn:Est;
    unfold step_scheme, step_limbo1, step_limbo2, step_authority, step_userinfo, step_host, step_port,
      step_path, step_query, step_fragment;
    repeat (case_match;
      try (eexists; split; [reflexivity|]; first [exact I | split; [split; [done|cbn; lia]|rewrite ?Est; cbn; rewrite ?Est; cbn; lia]]));
    first [apply assign_next_ok; [done|lia|done] | apply assign_goto_ok; [done|lia|rewrite Est; cbn; lia]].
Qed.

Lemma parse_loop_total count fuel (i : nat) p :
  0 <= count <= Z.of_nat (length s) -> parse_ok i p -> Z.of_nat i <= count ->
  (Z.to_nat count - i + rank (state p) < fuel)%nat ->
  exists r, parse_loop s fuel count (Z.of_nat i) p = Some r.
Proof.
  intros Hc. revert i p. induction fuel as [|fuel IH]; intros i p Hp Hi Hf; [lia|].
  cbn [parse_loop]. destruct (Z.ltb_spec (Z.of_nat i) count); [|by eexists].
  destruct (lookup_lt_is_Some_2 s i) as [c Ec]; [lia|]. rewrite rd_nat, Ec. cbn [mbind option_bind].
  destruct (url_step_ok i c p Hp) as ([p'|p'|p'] & -> & Ho); [lia| | |]; cbn [mbind option_bind].
  - destruct Ho as [Hp' Hr]. rewrite u32_small by lia.
    replace (Z.of_nat i + 1) with (Z.of_nat (S i)) by lia. apply IH; [done|lia|lia].
  - destruct Ho as [Hp' Hr]. rewrite u32_add_l, u32_small by lia.
    replace (Z.of_nat i - 1 + 1) with (Z.of_nat i) by lia. apply IH; [done|lia|lia].
  - by eexists.
Qed.
End Total.

Lemma url_parse_defined (text rest buf : list Z) size st :
  Forall (fun c => c <> 0) text -> Z.of_nat (length (text ++ 0 :: rest)) < 2 ^ 32 ->
  0 <= size <= Z.of_nat (length buf) -> size < 2 ^ 32 ->
  exists r, parse_loop (text ++ 0 :: rest) (Z.to_nat (Z.of_nat (length text) + 1) + 2)
    (Z.of_nat (length text) + 1) 0 (mk_parse url_null (mk_pos buf size 0) 0 st) = Some r.
Proof.
  intros Ht Hl Hb Hs. rewrite length_app in Hl. cbn [length] in Hl.
  apply (parse_loop_total (text ++ 0 :: rest)) with (i := 0%nat);
    rewrite ?length_app; cbn [length]; try lia; [repeat split; cbn; lia|].
  assert (rank st <= 1)%nat by (destruct st; cbn; lia). cbn [state]. lia.
Qed.

(** Safety and termination: on every nul-terminated string and from every
    state, [url_parse] returns: no access leaves the string or the buffer
    (whatever the string holds and however small the buffer is) and the loop
    ends, although it can step back. *)
Theorem url_parse_total (text rest buf : list Z) size st :
  Forall (fun c => c <> 0) text -> Z.of_nat (length (text ++ 0 :: rest)) < 2 ^ 32 ->
  0 <= size <= Z.of_nat (length buf) -> size < 2 ^ 32 ->
  exists r, url_parse buf size (text ++ 0 :: rest) st = Some r.
Proof.
  intros Ht Hl Hb Hs. destruct (url_parse_defined text rest buf size st Ht Hl Hb Hs) as [[p ok] Hr].
  unfold url_parse, cstring_length_zero. rewrite length_app in Hl. cbn [length] in Hl.
  rewrite cstring_length_spec by (done || unfold max32; lia). cbn [mbind option_bind].
  rewrite u32_small by lia. rewrite Hr. cbn [mbind option_bind]. by eexists.
Qed.

Lemma url_parse_total_witness :
  exists r, url_parse (replicate 4 7) 4 [104; 58; 47; 47; 64; 0] URL_SCHEME = Some r.
Proof.
  apply (url_parse_total [104; 58; 47; 47; 64] [] (replicate 4 7) 4 URL_SCHEME);
    [repeat (apply Forall_cons; split; [discriminate|]); apply Forall_nil; exact I
    |reflexivity|split; [discriminate|vm_compute; discriminate]|reflexivity].
Defined.

(** ** Runs of the machine *)

Section Runs.
Context (s : list Z) (Hs : Z.of_nat (length s) < 2 ^ 32) (count : Z) (Hcount : 0 <= count <= Z.of_nat (length s)).

(** From position [i] and locals [p] the loop ends with [r]. *)
Definition parses (i : nat) (p : parse) (r : parse * bool) : Prop :=
  exists fuel, parse_loop s fuel count (Z.of_nat i) p = Some r.

Lemma parse_loop_fuel fuel k i p r :
  parse_loop s fuel count i p = Some r -> parse_loop s (fuel + k) count i p = Some r.
Proof.
  revert i p. induction fuel as [|fuel IH]; intros i p; [done|]. cbn [parse_loop Nat.add].
  destruct (i <? count); [|done]. destruct (rd s i) as [c|]; [|done]. cbn [mbind option_bind].
  destruct (url_step s i c p) as [[p'|p'|p']|]; [| |done|done]; cbn [mbind option_bind]; apply IH.
Qed.

(** A run is determined, so a terminating loop with any fuel finds its result. *)
Lemma parses_loop fuel i p r r' :
  parses i p r -> parse_loop s fuel count (Z.of_nat i) p = Some r' -> r' = r.
Proof.
  intros [f Hf] Hr. apply (parse_loop_fuel _ fuel) in Hf. apply (parse_loop_fuel _ f) in Hr.
  rewrite Nat.add_comm in Hr. congruence.
Qed.

Lemma parses_end i p : count <= Z.of_nat i -> parses i p (p, true).
Proof. intros Hi. exists 1%nat. cbn [parse_loop]. by destruct (Z.ltb_spec (Z.of_nat i) count); [lia|]. Qed.

Lemma parses_next_iff (i : nat) c p p' r :
  s !! i = Some c -> Z.of_nat i < count -> url_step s (Z.of_nat i) c p = Some (Next p') ->
  parses i p r <-> parses (S i) p' r.
Proof.
  intros Hc Hi Hst.
  assert (forall f, parse_loop s (S f) count (Z.of_nat i) p = parse_loop s f count (Z.of_nat (S i)) p') as E.
  { intros f. cbn [parse_loop]. rewrite (proj2 (Z.ltb_lt _ _) Hi), rd_nat, Hc. cbn [mbind option_bind].
    rewrite Hst. cbn [mbind option_bind]. rewrite u32_small by lia.
    by replace (Z.of_nat i + 1) with (Z.of_nat (S i)) by lia. }
  split; [intros [[|f] Hf]; [done|]; exists f; by rewrite <- E|intros [f Hf]; exists (S f); by rewrite E].
Qed.

Lemma parses_next (i : nat) c p p' r :
  s !! i = Some c -> Z.of_nat i < count -> url_step s (Z.of_nat i) c p = Some (Next p') ->
  parses (S i) p' r -> parses i p r.
Proof. intros Hc Hi Hst. by apply (parses_next_iff i c p p' r). Qed.

Lemma parses_again (i : nat) c p p' r :
  s !! i = Some c -> Z.of_nat i < count -> url_step s (Z.of_nat i) c p = Some (Again p') ->
  parses i p' r -> parses i p r.
Proof.
  intros Hc Hi Hst [f Hf]. exists (S f). cbn [parse_loop]. rewrite (proj2 (Z.ltb_lt _ _) Hi), rd_nat, Hc.
  cbn [mbind option_bind]. rewrite Hst. cbn [mbind option_bind]. rewrite u32_add_l, u32_small by lia.
  by replace (Z.of_nat i - 1 + 1) with (Z.of_nat i) by lia.
Qed.

Lemma parses_reject (i : nat) c p p' :
  s !! i = Some c -> Z.of_nat i < count -> url_step s (Z.of_nat i) c p = Some (Reject p') ->
  parses i p (p', false).
Proof.
  intros Hc Hi Hst. exists 1%nat. cbn [parse_loop]. rewrite (proj2 (Z.ltb_lt _ _) Hi), rd_nat, Hc.
  cbn [mbind option_bind]. by rewrite Hst.
Qed.

(** What a state does to the structure on any character, and the characters it
    passes over. *)
Definition mark (st : url_state) : url -> url :=
  match st with
  | URL_SCHEME => set_full
  | URL_AUTHORITY | URL_USERINFO | URL_HOST | URL_PORT => set_authority
  | _ => fun u => u
  end.

Definition plain (st : url_state) (c : Z) : bool :=
  match st with
  | URL_SCHEME => (c =? 43) || (c =? 45) || (c =? 46) || negb (cstring_isalpha c =? 0) && negb (c =? 58)
  | URL_LIMBO1 | URL_LIMBO2 => false
  | URL_AUTHORITY => negb ((c =? 64) || (c =? 0) || (c =? 47) || (c =? 58))
  | URL_USERINFO => negb ((c =? 0) || (c =? 64))
  | URL_HOST => negb ((c =? 0) || (c =? 58) || (c =? 47))
  | URL_PORT => negb (cstring_isdigit c =? 0)
  | URL_PATH => negb ((c =? 0) || (c =? 63) || (c =? 35))
  | URL_QUERY => negb ((c =? 0) || (c =? 35))
  | URL_FRAGMENT => negb (c =? 0)
  end.

Lemma on_url_id p : on_url (fun u => u) p = p.
Proof. by destruct p. Qed.

Lemma step_mark i c p : url_step s i c (on_url (mark (state p)) p) = url_step s i c p.
Proof.
  destruct p as [u ps st state]. destruct state; try done.
Qed.

Lemma step_plain i c p :
  plain (state p) c = true -> url_step s i c p = Some (Next (on_url (mark (state p)) p)).
Proof.
  unfold url_step, plain. intros H.
  destruct (state p); unfold step_scheme, step_authority, step_userinfo, step_host, step_port,
      step_path, step_query, step_fragment; cbn [mark]; rewrite ?on_url_id; try discriminate;
    repeat match goal with |- context [if ?b then _ else _] => destruct b eqn:? end; try done; exfalso; revert H;
    repeat match goal with E : _ || _ = true |- _ => apply orb_true_iff in E as [E|E] end;
    try (match goal with E : (c =? ?k) = true |- _ => apply Z.eqb_eq in E; subst c end;
         intros H; vm_compute in H; discriminate H);
    destruct (c =? 43), (c =? 45), (c =? 46), (cstring_isalpha c =? 0), (cstring_isdigit c =? 0); intros H; discriminate.
Qed.

Lemma parses_mark i p r :
  (i < length s)%nat -> Z.of_nat i < count ->
  parses i (on_url (mark (state p)) p) r <-> parses i p r.
Proof.
  intros Hl Hi. destruct (lookup_lt_is_Some_2 s i Hl) as [c Hc].
  assert (forall f, parse_loop s f count (Z.of_nat i) (on_url (mark (state p)) p) =
    parse_loop s f count (Z.of_nat i) p) as E.
  { intros [|f]; [done|]. cbn [parse_loop]. rewrite (proj2 (Z.ltb_lt _ _) Hi), rd_nat, Hc.
    cbn [mbind option_bind]. by rewrite step_mark. }
  split; intros [f Hf]; exists f; by rewrite ?E in *.
Qed.

(** The machine runs over the plain characters of its state. *)
Lemma parses_scan pre xs post p r :
  s = pre ++ xs ++ post -> post <> [] -> Z.of_nat (length (pre ++ xs)) < count ->
  Forall (fun c => plain (state p) c = true) xs ->
  parses (length pre) p r <-> parses (length (pre ++ xs)) p r.
Proof.
  revert pre p. induction xs as [|c xs IH]; intros pre p Es Hpost Hc Hxs; [by rewrite app_nil_r|].
  apply Forall_cons in Hxs as [Hpl Hxs']. rewrite mid_snoc in Hc |- *.
  assert (length ((pre ++ [c]) ++ xs) < length s)%nat.
  { rewrite Es, !length_app. destruct post; [done|]. cbn [length]. lia. }
  rewrite (parses_next_iff (length pre) c p (on_url (mark (state p)) p)).
  - replace (S (length pre)) with (length (pre ++ [c])) by (rewrite length_app; cbn; lia).
    rewrite (IH (pre ++ [c])); [|by rewrite <- mid_snoc|done|done|by destruct p].
    by apply parses_mark.
  - rewrite Es. apply list_lookup_middle. done.
  - rewrite !length_app in Hc. lia.
  - by apply step_plain.
Qed.

(** ** One component *)

Variables (buf : list Z) (size : Z).
Hypothesis Hsize : 0 <= size <= Z.of_nat (length buf).
Hypothesis Hsize32 : size < 2 ^ 32.

(** The strings [acc] lie at the start of the buffer. *)
Definition room (acc : list Z) : pos := mk_pos (splice buf 0 acc) size (Z.of_nat (length acc)).

Lemma assign_room set u st zero pre xs post acc :
  s = pre ++ xs ++ post -> (zero = true \/ xs <> []) ->
  Z.of_nat (length (acc ++ xs ++ [0])) <= size ->
  assign s set (mk_parse u (room acc) (Z.of_nat (length pre)) st) (Z.of_nat (length (pre ++ xs))) zero =
    Some (mk_parse (set u (Some (Z.of_nat (length acc)))) (room (acc ++ xs ++ [0])) (Z.of_nat (length pre)) st).
Proof.
  intros Es Hz Hl. rewrite !length_app in Hl. cbn [length] in Hl.
  assert (length (splice buf 0 acc) = length buf) as Hb by (apply length_splice; lia).
  unfold assign, room. cbn [ppos purl start state].
  rewrite createstring_spec; cbn [buffer buffersize bufferused]; [|repeat split; cbn; lia| |done].
  2: { rewrite Es, !length_app. lia. }
  replace (length (pre ++ xs) - length pre)%nat with (length xs) by (rewrite length_app; lia).
  replace (negb zero && (length xs =? 0)%nat) with false
    by (destruct Hz as [-> | Hz]; [done|]; destruct xs; [done|]; by rewrite andb_false_r).
  rewrite (proj2 (Z.leb_gt _ _)) by lia. cbn [orb mbind option_bind].
  replace (slice s (length pre) (length xs)) with xs
    by (unfold slice; rewrite Es, drop_app_length, take_app_length; done).
  rewrite Nat2Z.id, (splice_app buf 0 acc) by (rewrite length_app; cbn [length]; lia).
  do 3 f_equal. rewrite !length_app. cbn [length]. lia.
Qed.

(** A component that ends at a delimiter [c]. *)
Lemma field_goto set zero st st' c pre xs post u acc r :
  s = pre ++ xs ++ c :: post -> Z.of_nat (length (pre ++ xs)) < count ->
  Forall (fun c => plain st c = true) xs ->
  (forall i p, state p = st -> url_step s i c p = assign_goto s set (on_url (mark st) p) i zero st') ->
  (zero = true \/ xs <> []) -> Z.of_nat (length (acc ++ xs ++ [0])) <= size ->
  parses (length (pre ++ xs ++ [c]))
    (mk_parse (set (mark st u) (Some (Z.of_nat (length acc)))) (room (acc ++ xs ++ [0]))
       (Z.of_nat (length (pre ++ xs ++ [c]))) st') r ->
  parses (length pre) (mk_parse u (room acc) (Z.of_nat (length pre)) st) r.
Proof.
  intros Es Hc Hpl Hst Hz Hl Hr. apply (parses_scan pre xs (c :: post)); [done|done|done|done|].
  assert (length (pre ++ xs ++ [c]) = S (length (pre ++ xs))) as El by (rewrite !length_app; cbn; lia).
  eapply (parses_next _ c); [rewrite Es, app_assoc; by apply list_lookup_middle|done| |].
  - rewrite Hst by done. unfold assign_goto, on_url. cbn [purl ppos start state].
    rewrite (assign_room _ _ _ _ pre xs (c :: post)) by done. cbn [mbind option_bind purl ppos]. reflexivity.
  - rewrite El in Hr. by replace (Z.of_nat (length (pre ++ xs)) + 1) with (Z.of_nat (S (length (pre ++ xs)))) by lia.
Qed.

(** A component that ends with the string. *)
Lemma field_end set zero st pre xs post u acc :
  s = pre ++ xs ++ 0 :: post -> count = Z.of_nat (length (pre ++ xs)) + 1 ->
  Forall (fun c => plain st c = true) xs ->
  (forall i p, state p = st ->
    url_step s i 0 p = (p ← assign s set (on_url (mark st) p) i zero; Some (Next p))) ->
  (zero = true \/ xs <> []) -> Z.of_nat (length (acc ++ xs ++ [0])) <= size ->
  parses (length pre) (mk_parse u (room acc) (Z.of_nat (length pre)) st)
    (mk_parse (set (mark st u) (Some (Z.of_nat (length acc)))) (room (acc ++ xs ++ [0]))
       (Z.of_nat (length pre)) st, true).
Proof.
  intros Es Hc Hpl Hst Hz Hl. apply (parses_scan pre xs (0 :: post)); [done|done|lia|done|].
  eapply (parses_next _ 0); [rewrite Es, app_assoc; by apply list_lookup_middle|lia| |].
  - rewrite Hst by done. unfold on_url. cbn [purl ppos start state].
    rewrite (assign_room _ _ _ _ pre xs (0 :: post)) by done. reflexivity.
  - apply parses_end. lia.
Qed.
End Runs.

(** ** Well-formed URLs and their text

    [scheme://[user@]host[:port][/path[?query][#fragment]]] *)

Record aurl := mk_aurl {
  a_scheme : list Z; a_user : option (list Z); a_host : list Z; a_port : option (list Z);
  a_path : option (list Z * option (list Z) * option (list Z)) }.

(** An optional part behind its delimiter. *)
Definition lead (c : Z) (x : option (list Z)) : list Z :=
  match x with None => [] | Some xs => c :: xs end.

Definition path_text (x : option (list Z * option (list Z) * option (list Z))) : list Z :=
  match x with None => [] | Some (p, q, f) => 47 :: p ++ lead 63 q ++ lead 35 f end.

Definition render (a : aurl) : list Z :=
  a_scheme a ++ [58; 47; 47] ++ (match a_user a with None => [] | Some xs => xs ++ [64] end) ++
  a_host a ++ lead 58 (a_port a) ++ path_text (a_path a).

Definition all_plain (st : url_state) (xs : list Z) : Prop := Forall (fun c => plain st c = true) xs.
Definition if_some (P : list Z -> Prop) (x : option (list Z)) : Prop :=
  match x with None => True | Some xs => P xs end.

Definition aurl_ok (a : aurl) : Prop :=
  (a_scheme a <> [] /\ all_plain URL_SCHEME (a_scheme a)) /\
  if_some (fun xs => xs <> [] /\ all_plain URL_AUTHORITY xs) (a_user a) /\
  (a_host a <> [] /\ all_plain URL_AUTHORITY (a_host a)) /\
  if_some (fun xs => xs <> [] /\ all_plain URL_PORT xs) (a_port a) /\
  match a_path a with
  | None => True
  | Some (p, q, f) =>
      all_plain URL_PATH p /\ if_some (all_plain URL_QUERY) q /\ if_some (all_plain URL_FRAGMENT) f
  end.

(** Where the strings go: one after the other, each with its terminator. *)
Definition store (set : url -> option Z -> url) (x : option (list Z)) (ua : url * list Z) : url * list Z :=
  match x with
  | None => ua
  | Some xs => (set ua.1 (Some (Z.of_nat (length ua.2))), ua.2 ++ xs ++ [0])
  end.

Definition store_path (x : option (list Z * option (list Z) * option (list Z))) (ua : url * list Z) :=
  match x with
  | None => ua
  | Some (p, q, f) => store set_fragment f (store set_query q (store set_path (Some p) ua))
  end.

Definition layout (a : aurl) : url * list Z :=
  store_path (a_path a) (store set_port (a_port a) (store set_host (Some (a_host a))
    (store set_userinfo (a_user a) (store set_scheme (Some (a_scheme a))
      (set_authority (set_full url_null), []))))).

Section Parsing.
Context (s rest : list Z) (Hs : Z.of_nat (length s) < 2 ^ 32) (count : Z) (buf : list Z) (size : Z)
  (Hsize : 0 <= size <= Z.of_nat (length buf)) (Hsize32 : size < 2 ^ 32).

(** What a run from [p] at [i] ends with. *)
Definition ends (i : nat) (p : parse) (ua : url * list Z) : Prop :=
  exists p', parses s count i p (p', true) /\ purl p' = ua.1 /\ ppos p' = room buf size ua.2.

Definition at_state (u : url) (acc pre : list Z) (st : url_state) : parse :=
  mk_parse u (room buf size acc) (Z.of_nat (length pre)) st.

Lemma count_bound pre xs : s = pre ++ xs ++ 0 :: rest -> count = Z.of_nat (length (pre ++ xs)) + 1 ->
  0 <= count <= Z.of_nat (length s).
Proof. intros -> ->. rewrite !length_app. cbn [length]. lia. Qed.

(** The string ends inside the component [xs]. *)
Lemma end_stage set zero st pre xs u acc :
  s = pre ++ xs ++ 0 :: rest -> count = Z.of_nat (length (pre ++ xs)) + 1 -> all_plain st xs ->
  (forall i p, state p = st ->
    url_step s i 0 p = (p ← assign s set (on_url (mark st) p) i zero; Some (Next p))) ->
  (zero = true \/ xs <> []) -> Z.of_nat (length (acc ++ xs ++ [0])) <= size ->
  ends (length pre) (at_state u acc pre st) (store set (Some xs) (mark st u, acc)).
Proof.
  intros Es Hc Hxs Hst Hz Hl. pose proof (count_bound _ _ Es Hc) as Hcb.
  exists (mk_parse (set (mark st u) (Some (Z.of_nat (length acc)))) (room buf size (acc ++ xs ++ [0]))
            (Z.of_nat (length pre)) st).
  split; [|done]. by apply (field_end s Hs count Hcb buf size Hsize Hsize32 set zero st pre xs rest).
Qed.

(** The component [xs] ends at [c], and [ys] is still to come. *)
Lemma goto_stage set zero st st' c pre xs ys u acc ua :
  s = pre ++ (xs ++ c :: ys) ++ 0 :: rest -> count = Z.of_nat (length (pre ++ xs ++ c :: ys)) + 1 ->
  all_plain st xs ->
  (forall i p, state p = st -> url_step s i c p = assign_goto s set (on_url (mark st) p) i zero st') ->
  (zero = true \/ xs <> []) -> Z.of_nat (length (acc ++ xs ++ [0])) <= size ->
  (let pre' := pre ++ xs ++ [c] in
   s = pre' ++ ys ++ 0 :: rest -> count = Z.of_nat (length (pre' ++ ys)) + 1 ->
   ends (length pre') (at_state (set (mark st u) (Some (Z.of_nat (length acc)))) (acc ++ xs ++ [0]) pre' st') ua) ->
  ends (length pre) (at_state u acc pre st) ua.
Proof.
  intros Es Hc Hxs Hst Hz Hl Hnext. pose proof (count_bound _ _ Es Hc) as Hcb.
  destruct Hnext as (p' & Hp & Hp'); [rewrite Es; by rewrite <- !app_assoc| |].
  { rewrite Hc. f_equal. f_equal. rewrite !length_app. cbn [length]. lia. }
  exists p'. split; [|done]. rewrite <- app_assoc in Es.
  apply (field_goto s Hs count Hcb buf size Hsize Hsize32 set zero st st' c pre xs (ys ++ 0 :: rest)); try done.
  rewrite Hc, !length_app. cbn [length]. lia.
Qed.

Ltac stage_step :=
  intros ? ? E; unfold url_step; rewrite E; cbn [mark]; rewrite ?on_url_id; reflexivity.
Ltac stage_room :=
  cbn [store store_path fst snd length] in *; rewrite ?length_app in *; cbn [length] in *; lia.

Lemma query_stage pre q f u acc :
  s = pre ++ (q ++ lead 35 f) ++ 0 :: rest -> count = Z.of_nat (length (pre ++ q ++ lead 35 f)) + 1 ->
  all_plain URL_QUERY q -> if_some (all_plain URL_FRAGMENT) f ->
  Z.of_nat (length (store set_fragment f (store set_query (Some q) (u, acc))).2) <= size ->
  ends (length pre) (at_state u acc pre URL_QUERY) (store set_fragment f (store set_query (Some q) (u, acc))).
Proof.
  intros Es Hc Hq Hf Hl. destruct f as [f|]; cbn [lead if_some] in *.
  - apply (goto_stage set_query true URL_QUERY URL_FRAGMENT 35 pre q f); try done;
      [stage_step|by left|stage_room|].
    intros pre' Es' Hc'. apply end_stage with (zero := true); [done|done|done|stage_step|by left|stage_room].
  - rewrite app_nil_r in *. apply end_stage with (zero := true); [done|done|done|stage_step|by left|stage_room].
Qed.

Lemma path_stage pre p q f u acc :
  s = pre ++ (p ++ lead 63 q ++ lead 35 f) ++ 0 :: rest ->
  count = Z.of_nat (length (pre ++ p ++ lead 63 q ++ lead 35 f)) + 1 ->
  all_plain URL_PATH p -> if_some (all_plain URL_QUERY) q -> if_some (all_plain URL_FRAGMENT) f ->
  Z.of_nat (length (store_path (Some (p, q, f)) (u, acc)).2) <= size ->
  ends (length pre) (at_state u acc pre URL_PATH) (store_path (Some (p, q, f)) (u, acc)).
Proof.
  intros Es Hc Hp Hq Hf Hl. destruct q as [q|].
  - apply (goto_stage set_path true URL_PATH URL_QUERY 63 pre p (q ++ lead 35 f)); try done;
      [stage_step|by left|destruct f; stage_room|].
    intros pre' Es' Hc'. by apply (query_stage pre' q f).
  - cbn [lead app] in *. destruct f as [f|]; cbn [lead if_some] in *.
    + apply (goto_stage set_path true URL_PATH URL_FRAGMENT 35 pre p f); try done;
        [stage_step|by left|stage_room|].
      intros pre' Es' Hc'. apply end_stage with (zero := true); [done|done|done|stage_step|by left|stage_room].
    + rewrite app_nil_r in *. apply end_stage with (zero := true); [done|done|done|stage_step|by left|stage_room].
Qed.

Lemma plain_authority_host xs : all_plain URL_AUTHORITY xs -> all_plain URL_HOST xs.
Proof.
  intros H. apply (Forall_impl _ _ _ H). intros c. cbn [plain].
  destruct (c =? 64), (c =? 0), (c =? 47), (c =? 58); done.
Qed.

Lemma port_stage pre x y u acc :
  s = pre ++ (x ++ path_text y) ++ 0 :: rest ->
  count = Z.of_nat (length (pre ++ x ++ path_text y)) + 1 ->
  x <> [] -> all_plain URL_PORT x -> match y with None => True | Some (p, q, f) =>
    all_plain URL_PATH p /\ if_some (all_plain URL_QUERY) q /\ if_some (all_plain URL_FRAGMENT) f end ->
  Z.of_nat (length (store_path y (store set_port (Some x) (set_authority u, acc))).2) <= size ->
  ends (length pre) (at_state u acc pre URL_PORT) (store_path y (store set_port (Some x) (set_authority u, acc))).
Proof.
  intros Es Hc Hx Hpl Hy Hl. destruct y as [[[p q] f]|]; cbn [path_text] in *.
  - destruct Hy as (Hp & Hq & Hf).
    apply (goto_stage set_port false URL_PORT URL_PATH 47 pre x (p ++ lead 63 q ++ lead 35 f)); try done;
      [stage_step|by right|destruct q, f; stage_room|].
    intros pre' Es' Hc'. by apply (path_stage pre' p q f).
  - rewrite app_nil_r in *. apply end_stage with (zero := false); [done|done|done|stage_step|by right|stage_room].
Qed.

Lemma host_stage pre h x y u acc :
  s = pre ++ (h ++ lead 58 x ++ path_text y) ++ 0 :: rest ->
  count = Z.of_nat (length (pre ++ h ++ lead 58 x ++ path_text y)) + 1 ->
  h <> [] -> all_plain URL_HOST h -> if_some (fun xs => xs <> [] /\ all_plain URL_PORT xs) x ->
  match y with None => True | Some (p, q, f) =>
    all_plain URL_PATH p /\ if_some (all_plain URL_QUERY) q /\ if_some (all_plain URL_FRAGMENT) f end ->
  let ua := store_path y (store set_port x (store set_host (Some h) (set_authority u, acc))) in
  Z.of_nat (length ua.2) <= size -> ends (length pre) (at_state u acc pre URL_HOST) ua.
Proof.
  intros Es Hc Hh Hpl Hx Hy ua Hl. subst ua. destruct x as [x|]; cbn [lead if_some] in *.
  - destruct Hx as [Hx Hpx].
    apply (goto_stage set_host false URL_HOST URL_PORT 58 pre h (x ++ path_text y)); try done;
      [stage_step|by right|destruct y as [[[? [?|]] [?|]]|]; stage_room|].
    intros pre' Es' Hc'. by apply (port_stage pre' x y).
  - destruct y as [[[p q] f]|]; cbn [path_text app] in *.
    + destruct Hy as (Hp & Hq & Hf).
      apply (goto_stage set_host false URL_HOST URL_PATH 47 pre h (p ++ lead 63 q ++ lead 35 f)); try done;
        [stage_step|by right|destruct q, f; stage_room|].
      intros pre' Es' Hc'. by apply (path_stage pre' p q f).
    + rewrite app_nil_r in *. apply end_stage with (zero := false); [done|done|done|stage_step|by right|stage_room].
Qed.

Lemma scheme_text_stage pre sc ys u acc ua :
  s = pre ++ (sc ++ 58 :: 47 :: 47 :: ys) ++ 0 :: rest ->
  count = Z.of_nat (length (pre ++ sc ++ 58 :: 47 :: 47 :: ys)) + 1 ->
  sc <> [] -> all_plain URL_SCHEME sc -> Z.of_nat (length (acc ++ sc ++ [0])) <= size ->
  (let pre' := pre ++ sc ++ [58; 47; 47] in
   s = pre' ++ ys ++ 0 :: rest -> count = Z.of_nat (length (pre' ++ ys)) + 1 ->
   ends (length pre') (at_state (set_scheme (set_full u) (Some (Z.of_nat (length acc)))) (acc ++ sc ++ [0])
     pre' URL_AUTHORITY) ua) ->
  ends (length pre) (at_state u acc pre URL_SCHEME) ua.
Proof.
  intros Es Hc Hsc Hpl Hl Hnext.
  apply (goto_stage set_scheme false URL_SCHEME URL_LIMBO1 58 pre sc (47 :: 47 :: ys)); try done;
    [stage_step|by right|].
  intros pre' Es' Hc'. pose proof (count_bound _ _ Es' Hc') as Hcb.
  assert (pre ++ sc ++ [58; 47; 47] = (pre' ++ [47]) ++ [47]) as E
    by (unfold pre'; by rewrite <- !app_assoc).
  cbv zeta in Hnext. rewrite E in Hnext.
  destruct Hnext as (p' & Hp & Hp'); [rewrite Es'; by rewrite <- !app_assoc| |].
  { rewrite Hc', !length_app. cbn [length]. lia. }
  exists p'. split; [|done]. rewrite length_app in Hc'. cbn [length] in Hc'.
  assert (s !! length pre' = Some 47) as H1 by (rewrite Es'; by apply list_lookup_middle).
  assert (s !! S (length pre') = Some 47) as H2.
  { rewrite Es'. rewrite lookup_app_r by lia. by replace (S (length pre') - length pre')%nat with 1%nat by lia. }
  unfold at_state in *. rewrite !(length_app _ [47]) in Hp. cbn [length] in Hp. rewrite !Nat.add_1_r in Hp.
  eapply (parses_next s Hs count Hcb _ 47); [done|lia|reflexivity|].
  eapply (parses_next s Hs count Hcb _ 47); [done|lia|reflexivity|].
  cbn [goto purl ppos]. by replace (Z.of_nat (S (length pre')) + 1) with (Z.of_nat (S (S (length pre')))) by lia.
Qed.

(** A host without user part: the machine only learns at the delimiter that it
    has read a host. *)
Lemma authority_host pre h c post u acc ua :
  s = pre ++ h ++ c :: post -> Z.of_nat (length (pre ++ h)) < count -> count <= Z.of_nat (length s) ->
  all_plain URL_AUTHORITY h -> c = 0 \/ c = 47 \/ c = 58 ->
  ends (length pre) (at_state u acc pre URL_HOST) ua -> ends (length pre) (at_state u acc pre URL_AUTHORITY) ua.
Proof.
  intros Es Hc Hcl Hpl Hd (p' & Hp & Hp'). exists p'. split; [|done].
  assert (0 <= count <= Z.of_nat (length s)) as Hcb by lia.
  assert (s !! length (pre ++ h) = Some c) as Hlook by (rewrite Es, app_assoc; by apply list_lookup_middle).
  apply (parses_scan s Hs count Hcb pre h (c :: post)); [done|done|done|done|].
  eapply (parses_again s Hs count Hcb _ c); [done|done| |].
  - unfold url_step, step_authority. cbn [state at_state].
    destruct Hd as [-> | [-> | ->]]; reflexivity.
  - apply (parses_mark s count _ (at_state u acc pre URL_HOST)); [by apply lookup_lt_Some in Hlook|done|].
    apply (parses_scan s Hs count Hcb pre h (c :: post)); [done|done|done|by apply plain_authority_host|done].
Qed.

Lemma user_stage pre x ys u acc ua :
  s = pre ++ (x ++ 64 :: ys) ++ 0 :: rest -> count = Z.of_nat (length (pre ++ x ++ 64 :: ys)) + 1 ->
  x <> [] -> all_plain URL_AUTHORITY x -> Z.of_nat (length (acc ++ x ++ [0])) <= size ->
  (let pre' := pre ++ x ++ [64] in
   s = pre' ++ ys ++ 0 :: rest -> count = Z.of_nat (length (pre' ++ ys)) + 1 ->
   ends (length pre') (at_state (set_userinfo (set_authority u) (Some (Z.of_nat (length acc))))
     (acc ++ x ++ [0]) pre' URL_HOST) ua) ->
  ends (length pre) (at_state u acc pre URL_AUTHORITY) ua.
Proof.
  intros Es Hc Hx Hpl Hl Hnext. pose proof (count_bound _ _ Es Hc) as Hcb.
  assert (all_plain URL_USERINFO x) as Hpl'.
  { apply (Forall_impl _ _ _ Hpl). intros c. cbn [plain].
    destruct (c =? 64), (c =? 0), (c =? 47), (c =? 58); done. }
  assert (ends (length pre) (at_state u acc pre URL_USERINFO) ua) as (p' & Hp & Hp').
  { apply (goto_stage set_userinfo false URL_USERINFO URL_HOST 64 pre x ys); try done; [stage_step|by right]. }
  exists p'. split; [|done]. rewrite <- app_assoc in Es.
  assert (s !! length (pre ++ x) = Some 64) as Hlook by (rewrite Es, app_assoc; by apply list_lookup_middle).
  assert (Z.of_nat (length (pre ++ x)) < count) by (rewrite Hc, !length_app; cbn [length]; lia).
  apply (parses_scan s Hs count Hcb pre x ((64 :: ys) ++ 0 :: rest)); [done|done|done|done|].
  eapply (parses_again s Hs count Hcb _ 64); [done|done|reflexivity|].
  apply (parses_mark s count _ (at_state u acc pre URL_USERINFO)); [by apply lookup_lt_Some in Hlook|done|].
  by apply (parses_scan s Hs count Hcb pre x ((64 :: ys) ++ 0 :: rest)).
Qed.
End Parsing.

Ltac forall_list := repeat (apply Forall_cons; split; [done|]); by apply Forall_nil.

Lemma plain_nonzero st xs : all_plain st xs -> Forall (fun c => c <> 0) xs.
Proof. intros H. apply (Forall_impl _ _ _ H). intros c Hc ->. by destruct st. Qed.

Lemma lead_nonzero c st x : c <> 0 -> if_some (all_plain st) x -> Forall (fun c => c <> 0) (lead c x).
Proof. intros Hc. destruct x; cbn [lead if_some]; [|done]. intros H%plain_nonzero. by constructor. Qed.

Lemma render_nonzero a : aurl_ok a -> Forall (fun c => c <> 0) (render a).
Proof.
  destruct a as [sc us h x y]. intros ((_ & H1) & H2 & (_ & H3) & H4 & H5). unfold render.
  cbn [a_scheme a_user a_host a_port a_path if_some] in *.
  repeat (apply Forall_app; split); eauto using plain_nonzero.
  - destruct us as [us|]; [|done]. apply Forall_app. split; [eapply plain_nonzero, H2|forall_list].
  - apply (lead_nonzero _ URL_PORT); [done|]. destruct x; [apply H4|done].
  - destruct y as [[[p q] f]|]; [|done]. destruct H5 as (Hp & Hq & Hf). constructor; [done|].
    repeat (apply Forall_app; split); eauto using plain_nonzero.
    + by apply (lead_nonzero _ URL_QUERY).
    + by apply (lead_nonzero _ URL_FRAGMENT).
Qed.

(** The run of the machine on a well-formed URL. *)
Lemma render_ends a rest buf size :
  let s := render a ++ 0 :: rest in
  aurl_ok a -> Z.of_nat (length s) < 2 ^ 32 -> 0 <= size <= Z.of_nat (length buf) -> size < 2 ^ 32 ->
  Z.of_nat (length (layout a).2) <= size ->
  ends s (Z.of_nat (length (render a)) + 1) buf size 0 (mk_parse url_null (mk_pos buf size 0) 0 URL_SCHEME) (layout a).
Proof.
  intros s Hok Hs Hb Hs32 Hl.
  destruct a as [sc us h x y]. destruct Hok as ((Hsc & H1) & H2 & (Hh & H3) & H4 & H5).
  replace (mk_parse url_null (mk_pos buf size 0) 0 URL_SCHEME) with (at_state buf size url_null [] [] URL_SCHEME)
    by (unfold at_state, room; by rewrite splice_nil).
  change 0%nat with (length (@nil Z)).
  set (tail := h ++ lead 58 x ++ path_text y).
  assert (exists c post, lead 58 x ++ path_text y ++ 0 :: rest = c :: post /\ (c = 0 \/ c = 47 \/ c = 58)) as (d & post & Hd & Hdc).
  { destruct x; [by eexists _, _; split; [done|auto]|]. destruct y as [[[? ?] ?]|]; eexists _, _; (split; [done|auto]). }
  eapply (scheme_text_stage s rest Hs _ buf size Hb Hs32 [] sc
    ((match us with None => [] | Some xs => xs ++ [64] end) ++ tail)); try done.
  - cbn in Hl. destruct us, x, y as [[[? [?|]] [?|]]|]; cbn in *; rewrite !length_app in *; cbn in *;
      rewrite ?length_app in *; cbn in *; rewrite ?length_app in *; cbn in *; lia.
  - intros pre Es Hc. destruct us as [us|].
    + destruct H2 as [Hus H2]. rewrite <- app_assoc in Es, Hc. cbn [app] in Es, Hc.
      apply (user_stage s rest Hs _ buf size Hb Hs32 pre us tail); try done.
      * rewrite Es. by rewrite <- !app_assoc.
      * cbn in Hl. destruct x, y as [[[? [?|]] [?|]]|]; cbn in *; rewrite !length_app in *; cbn in *;
          rewrite ?length_app in *; cbn in *; rewrite ?length_app in *; cbn in *; lia.
      * intros pre' Es' Hc'. by apply (host_stage s rest Hs _ buf size Hb Hs32 pre' h x y);
          [| | |apply plain_authority_host| | |].
    + cbn [app] in Es, Hc. apply (authority_host s Hs _ buf size pre h d post); try done.
      * rewrite Es. unfold tail. by rewrite <- !app_assoc, Hd.
      * rewrite Hc. unfold tail. rewrite !length_app. lia.
      * unfold s. rewrite length_app. cbn [length]. lia.
      * by apply (host_stage s rest Hs _ buf size Hb Hs32 pre h x y); [| | |apply plain_authority_host| | |].
Qed.

(** ** Printing, specified *)

Lemma splice_over out t y z :
  (length y <= length z)%nat -> (length t + length z <= length out)%nat ->
  splice (splice out 0 (t ++ y)) (length t) z = splice out 0 (t ++ z).
Proof.
  intros Hy Hl.
  rewrite <- (splice_app out 0 t y), <- (splice_app out 0 t z) by lia. cbn [Nat.add].
  set (b := splice out 0 t). assert (length b = length out) as Hb by (apply length_splice; lia).
  apply list_eq. intros j. destruct (decide (length t <= j < length t + length z)%nat).
  - rewrite !splice_lookup_in by (rewrite ?length_splice; lia). done.
  - rewrite !splice_lookup_out by (rewrite ?length_splice; lia). done.
Qed.

Section Printing.
Context (strings out : list Z) (size : Z) (Hsize : 0 <= size <= Z.of_nat (length out)) (Hsize32 : size < 2 ^ 32).

(** The text [t] is in the output, [offset] behind it. *)
Definition printed (t : list Z) (st : list Z * Z) : Prop :=
  exists y, (length y <= 1)%nat /\ st = (splice out 0 (t ++ y), Z.of_nat (length t)).

Lemma printed_nil : printed [] (out, 0).
Proof. exists []. split; [cbn; lia|]. cbn [app]. by rewrite splice_nil. Qed.

Lemma copyout_printed t st xs rest (len : Z) :
  printed t st -> len = Z.of_nat (length xs) -> Z.of_nat (length (t ++ xs)) < size ->
  exists b, copyout st.1 size (xs ++ 0 :: rest) len st.2 = Some (b, len) /\
    printed (t ++ xs) (b, u32 (st.2 + len)).
Proof.
  intros (y & Hy & ->) -> Hl. cbn [fst snd]. rewrite length_app in Hl. unfold copyout.
  rewrite (u32_small (size - _)) by lia. rewrite (proj2 (Z.ltb_lt _ _)) by lia. rewrite Nat2Z.id.
  exists (splice out 0 ((t ++ xs) ++ [0])). split.
  - assert (length (splice out 0 (t ++ y)) = length out) as Hb
      by (apply length_splice; rewrite length_app; lia).
    etransitivity; [apply (copy_string_bind (length xs) _ (length t) (xs ++ 0 :: rest) 0 (fun b => Some (b, _)));
      rewrite ?length_app; lia|].
    unfold slice. rewrite drop_0, take_app_length. do 2 f_equal.
    rewrite splice_over by (rewrite ?length_app; cbn [length]; lia). by rewrite <- app_assoc.
  - exists [0]. split; [done|]. rewrite length_app, u32_small by lia. f_equal. lia.
Qed.

Lemma out_lit_printed t st lit :
  printed t st -> Z.of_nat (length (t ++ lit)) < size ->
  exists st', out_lit size lit st = Some st' /\ printed (t ++ lit) st'.
Proof.
  intros Hp Hl. destruct (copyout_printed t st lit [] _ Hp eq_refl Hl) as (b & Hb & Hp').
  unfold out_lit. destruct st as [b0 off]. cbn [fst snd] in *. rewrite Hb. cbn [mbind option_bind]. eauto.
Qed.

(** [x] points to the string [xs]. *)
Definition points (x : Z) (xs : list Z) : Prop :=
  Forall (fun c => c <> 0) xs /\ exists rest, drop (Z.to_nat x) strings = xs ++ 0 :: rest.

Lemma out_str_printed t st x xs :
  printed t st -> points x xs -> Z.of_nat (length (t ++ xs)) < size ->
  exists st', out_str strings size x st = Some st' /\ printed (t ++ xs) st'.
Proof.
  intros Hp (Hnz & rest & Hx) Hl. destruct (copyout_printed t st xs rest _ Hp eq_refl Hl) as (b & Hb & Hp').
  rewrite length_app in Hl. unfold out_str. destruct st as [b0 off]. cbn [fst snd] in *.
  rewrite Hx, cstring_length_spec by (done || unfold max32; lia). cbn [mbind option_bind].
  rewrite Hb. cbn [mbind option_bind]. eauto.
Qed.

(** A pointer and the optional part it stands for. *)
Definition field_is (x : option Z) (xs : option (list Z)) : Prop :=
  match x, xs with None, None => True | Some x, Some xs => points x xs | _, _ => False end.

Lemma out_lead_printed c t st x xs :
  printed t st -> field_is x xs -> Z.of_nat (length (t ++ lead c xs)) < size ->
  exists st', match x with None => Some st | Some x => st ← out_lit size [c] st; out_str strings size x st end = Some st' /\
    printed (t ++ lead c xs) st'.
Proof.
  intros Hp Hf Hl. destruct x as [x|], xs as [xs|]; try done.
  - cbn [lead] in *. rewrite mid_snoc in *. rewrite length_app in Hl.
    destruct (out_lit_printed t st [c] Hp) as (st1 & -> & H1); [lia|]. cbn [mbind option_bind].
    apply out_str_printed; [done|done|rewrite length_app; lia].
  - cbn [lead]. rewrite app_nil_r. eauto.
Qed.

(** The structure describes [a]. *)
Definition describes (u : url) (a : aurl) : Prop :=
  authority u = 1 /\ field_is (scheme u) (Some (a_scheme a)) /\ field_is (userinfo u) (a_user a) /\
  field_is (host u) (Some (a_host a)) /\ field_is (port u) (a_port a) /\
  match a_path a with
  | None => path u = None /\ query u = None /\ fragment u = None
  | Some (p, q, f) => field_is (path u) (Some p) /\ field_is (query u) q /\ field_is (fragment u) f
  end.

Definition user_text (x : option (list Z)) : list Z :=
  match x with None => [] | Some xs => xs ++ [64] end.

Lemma out_user_printed t st x xs :
  printed t st -> field_is x xs -> Z.of_nat (length (t ++ user_text xs)) < size ->
  exists st', match x with None => Some st | Some x => st ← out_str strings size x st; out_lit size [64] st end = Some st' /\
    printed (t ++ user_text xs) st'.
Proof.
  intros Hp Hf Hl. destruct x as [x|], xs as [xs|]; try done; cbn [user_text] in *.
  - rewrite app_assoc in *. rewrite (length_app (t ++ xs)) in Hl. cbn [length] in Hl.
    destruct (out_str_printed t st x xs Hp Hf) as (st1 & -> & H1); [lia|]. cbn [mbind option_bind].
    apply out_lit_printed; [done|]. rewrite (length_app (t ++ xs)). cbn [length]. lia.
  - rewrite app_nil_r. eauto.
Qed.

Lemma out_path_printed t st p q f y :
  printed t st -> Z.of_nat (length (t ++ path_text y)) < size ->
  match y with
  | None => p = None /\ q = None /\ f = None
  | Some (p', q', f') => field_is p (Some p') /\ field_is q q' /\ field_is f f'
  end ->
  exists st1 st2 st3,
    match p with None => Some st | Some x => st ← out_lit size [47] st; out_str strings size x st end = Some st1 /\
    match q with None => Some st1 | Some x => st ← out_lit size [63] st1; out_str strings size x st end = Some st2 /\
    match f with None => Some st2 | Some x => st ← out_lit size [35] st2; out_str strings size x st end = Some st3 /\
    printed (t ++ path_text y) st3.
Proof.
  intros Hp Hl Hy. destruct y as [[[p' q'] f']|]; cbn [path_text] in *.
  - destruct Hy as (H1 & H2 & H3).
    assert (t ++ 47 :: p' ++ lead 63 q' ++ lead 35 f' = ((t ++ lead 47 (Some p')) ++ lead 63 q') ++ lead 35 f') as E
      by (cbn [lead]; by rewrite <- !app_assoc).
    rewrite E, length_app in Hl. rewrite (length_app (_ ++ lead 47 _)) in Hl.
    destruct (out_lead_printed 47 _ _ p (Some p') Hp H1) as (st1 & E1 & P1); [lia|].
    destruct (out_lead_printed 63 _ _ q q' P1 H2) as (st2 & E2 & P2); [rewrite length_app; lia|].
    destruct (out_lead_printed 35 _ _ f f' P2 H3) as (st3 & E3 & P3); [rewrite !length_app in *; lia|].
    exists st1, st2, st3. by rewrite E.
  - destruct Hy as (-> & -> & ->). exists st, st, st. by rewrite app_nil_r.
Qed.

Lemma terminate_printed t b off :
  printed t (b, off) -> Z.of_nat (length t) < size ->
  wr b off 0 = Some (splice out 0 (t ++ [0])) /\ off = Z.of_nat (length t).
Proof.
  intros (y & Hy & [= -> ->]) Hl. split; [|done].
  rewrite wr_Some by (rewrite length_splice; rewrite ?length_app; lia). f_equal. rewrite Nat2Z.id.
  rewrite <- (splice_over out t y [0]) by (cbn [length]; lia).
  rewrite <- (splice_cons _ _ 0 []) by (rewrite length_splice; rewrite ?length_app; cbn [length]; lia).
  by rewrite splice_nil.
Qed.

Lemma url_tostring_render u a :
  describes u a -> Z.of_nat (length (render a)) < size ->
  url_tostring strings u out size = Some (splice out 0 (render a ++ [0]), Z.of_nat (length (render a))).
Proof.
  destruct u as [fl au sc us h x p q f], a as [asc aus ah ax ay].
  intros (Hau & Hsc & Hus & Hh & Hx & Hy) Hl. cbn in Hau, Hsc, Hus, Hh, Hx, Hy. subst au.
  destruct sc as [sc|]; [|done]. destruct h as [h|]; [|done].
  unfold url_tostring. cbn [scheme authority userinfo host port path query fragment].
  assert (render (mk_aurl asc aus ah ax ay) =
    ((((((asc ++ [58]) ++ [47; 47]) ++ user_text aus) ++ ah) ++ lead 58 ax) ++ path_text ay)) as E.
  { unfold render. fold (user_text aus). cbn [a_scheme a_user a_host a_port a_path]. by rewrite <- !app_assoc. }
  rewrite E in Hl |- *.
  assert (forall t t' : list Z, Z.of_nat (length (t ++ t')) < size -> Z.of_nat (length t) < size) as Hle
    by (intros ? ?; rewrite length_app; lia).
  pose proof (Hle _ _ Hl) as L6. pose proof (Hle _ _ L6) as L5. pose proof (Hle _ _ L5) as L4.
  pose proof (Hle _ _ L4) as L3. pose proof (Hle _ _ L3) as L2. pose proof (Hle _ _ L2) as L1.
  destruct (out_str_printed [] (out, 0) sc asc printed_nil Hsc L1) as (st1 & -> & H1). cbn [mbind option_bind app] in *.
  destruct (out_lit_printed _ _ [58] H1 L2) as (st2 & -> & H2). cbn [mbind option_bind Z.eqb].
  destruct (out_lit_printed _ _ [47; 47] H2 L3) as (st3 & -> & H3). cbn [mbind option_bind].
  destruct (out_user_printed _ _ us aus H3 Hus L4) as (st4 & -> & H4). cbn [mbind option_bind].
  destruct (out_str_printed _ _ h ah H4 Hh L5) as (st5 & -> & H5). cbn [mbind option_bind].
  destruct (out_lead_printed 58 _ _ x ax H5 Hx L6) as (st6 & -> & H6). cbn [mbind option_bind].
  destruct (out_path_printed _ _ p q f ay H6 Hl Hy) as (st7 & st8 & [b off] & -> & E8 & E9 & H9).
  cbn [mbind option_bind]. rewrite E8. cbn [mbind option_bind]. rewrite E9. cbn [mbind option_bind]. destruct (terminate_printed _ _ _ H9 Hl) as [-> ->]. reflexivity.
Qed.
End Printing.

(** ** Round trip *)

(** A stored string is found again, whatever is stored after it. *)
Definition extends (acc strings : list Z) : Prop := exists more, strings = acc ++ more.

Lemma store_field (set : url -> option Z -> url) (get : url -> option Z) x ua strings :
  (forall u v, get (set u v) = v) -> get ua.1 = None -> if_some (fun xs => Forall (fun c => c <> 0) xs) x ->
  extends (store set x ua).2 strings ->
  field_is strings (get (store set x ua).1) x /\ extends ua.2 strings.
Proof.
  intros Hset Hget Hx [more E]. destruct x as [xs|]; cbn [store fst snd if_some] in *.
  - rewrite Hset. rewrite <- !app_assoc in E. split; [|by exists (xs ++ [0] ++ more)].
    split; [done|]. exists more. rewrite Nat2Z.id, E. by rewrite drop_app_length.
  - rewrite Hget. split; [done|]. by exists more.
Qed.

Lemma store_other (set : url -> option Z -> url) (get : url -> option Z) x ua :
  (forall u v, get (set u v) = get u) -> get (store set x ua).1 = get ua.1.
Proof. intros H. destruct x; [apply H|done]. Qed.

Lemma if_some_nonzero (P : list Z -> Prop) x :
  (forall xs, P xs -> Forall (fun c => c <> 0) xs) -> if_some P x -> if_some (fun xs => Forall (fun c => c <> 0) xs) x.
Proof. intros H. destruct x; cbn [if_some]; eauto. Qed.

Lemma layout_describes a strings :
  aurl_ok a -> extends (layout a).2 strings -> describes strings (layout a).1 a.
Proof.
  destruct a as [sc us h x y]. intros ((_ & H1) & H2 & (_ & H3) & H4 & H5) Hext.
  unfold layout in *. cbn [a_scheme a_user a_host a_port a_path] in *.
  set (u1 := store set_scheme (Some sc) _) in *. set (u2 := store set_userinfo us u1) in *.
  set (u3 := store set_host (Some h) u2) in *. set (u4 := store set_port x u3) in *.
  assert (forall ua, extends (store_path y ua).2 strings -> extends ua.2 strings) as Hpath.
  { intros ua [more E]. destruct y as [[[p [q|]] [f|]]|]; cbn in E; rewrite ?E, <- ?app_assoc; eexists; reflexivity. }
  assert (if_some (fun xs => Forall (fun c => c <> 0) xs) us /\ if_some (fun xs => Forall (fun c => c <> 0) xs) x) as [N2 N4].
  { split; [apply (if_some_nonzero _ us (fun xs H => plain_nonzero _ _ (proj2 H)) H2)|
            apply (if_some_nonzero _ x (fun xs H => plain_nonzero _ _ (proj2 H)) H4)]. }
  destruct (store_field set_port port x u3 strings) as [F4 E3]; [done|by destruct us|done|by apply Hpath|].
  destruct (store_field set_host host (Some h) u2 strings) as [F3 E2];
    [done|by destruct us|by eapply plain_nonzero|done|].
  destruct (store_field set_userinfo userinfo us u1 strings) as [F2 E1]; [done|done|done|done|].
  destruct (store_field set_scheme scheme (Some sc) (set_authority (set_full url_null), []) strings)
    as [F1 _]; [done|done|by eapply plain_nonzero|done|].
  fold u4 in F4. fold u3 in F3. fold u2 in F2. fold u1 in F1.
  assert (scheme u4.1 = scheme u1.1 /\ userinfo u4.1 = userinfo u2.1 /\ host u4.1 = host u3.1 /\ authority u4.1 = 1 /\
    path u4.1 = None /\ query u4.1 = None /\ fragment u4.1 = None) as (G1 & G2 & G3 & G4 & G5 & G6 & G7)
    by (destruct us, x; done).
  rewrite <- G1 in F1. rewrite <- G2 in F2. rewrite <- G3 in F3. clearbody u4. clear u1 u2 u3 E1 E2 E3 G1 G2 G3.
  destruct y as [[[p q] f]|]; cbn [store_path] in *; [|done]. destruct H5 as (Hp & Hq & Hf).
  set (v1 := store set_path (Some p) u4) in *. set (v2 := store set_query q v1) in *.
  destruct (store_field set_fragment fragment f v2 strings) as [V3 X2];
    [done|by destruct q|by apply (if_some_nonzero _ f (plain_nonzero URL_FRAGMENT))|done|].
  destruct (store_field set_query query q v1 strings) as [V2 X1];
    [done|done|by apply (if_some_nonzero _ q (plain_nonzero URL_QUERY))|done|].
  destruct (store_field set_path path (Some p) u4 strings) as [V1 _]; [done|done|by eapply plain_nonzero|done|].
  fold v2 in V2. fold v1 in V1.
  repeat split; try (destruct q, f; done).
  all: destruct q, f; done.
Qed.

(** C15. Round trip: parsing the text of a well-formed URL
    [scheme://[user@]host[:port][/path[?query][#fragment]]] succeeds, and printing
    the result writes the same text again and returns its length, when the
    parse buffer has room for the components with their terminators and the
    output buffer for the text. *)
Theorem url_roundtrip a rest buf size out osize :
  aurl_ok a -> Z.of_nat (length (render a ++ 0 :: rest)) < 2 ^ 32 ->
  0 <= size <= Z.of_nat (length buf) -> size < 2 ^ 32 ->
  Z.of_nat (length (layout a).2) <= size ->
  0 <= osize <= Z.of_nat (length out) -> osize < 2 ^ 32 -> Z.of_nat (length (render a)) < osize ->
  exists u strings,
    url_parse buf size (render a ++ 0 :: rest) URL_SCHEME = Some (u, strings, 1) /\
    url_tostring strings u out osize =
      Some (splice out 0 (render a ++ [0]), Z.of_nat (length (render a))).
Proof.
  intros Hok Hs Hb Hb32 Hl Ho Ho32 Hr.
  destruct (render_ends a rest buf size Hok Hs Hb Hb32 Hl) as (p' & Hp & Hu & Hpos).
  exists (layout a).1, (splice buf 0 (layout a).2).
  assert (describes (splice buf 0 (layout a).2) (layout a).1 a) as Hd.
  { apply layout_describes; [done|]. rewrite splice_0. by eexists. }
  split; [|by apply url_tostring_render].
  destruct (url_parse_defined (render a) rest buf size URL_SCHEME) as [[pr ok] Hloop]; [by apply render_nonzero|done|done|done|].
  unfold url_parse, cstring_length_zero. rewrite length_app in Hs. cbn [length] in Hs.
  rewrite cstring_length_spec by (first [by apply render_nonzero|unfold max32; lia]). cbn [mbind option_bind].
  rewrite u32_small by lia. rewrite Hloop. cbn [mbind option_bind].
  pose proof (parses_loop _ _ _ 0%nat _ _ _ Hp Hloop) as [= -> ->]. rewrite Hu, Hpos. cbn [negb].
  destruct Hd as (Hau & Hsc & _ & Hh & _). rewrite Hau.
  destruct (scheme (layout a).1); [|done]. destruct (host (layout a).1); [|done].
  rewrite !bool_decide_eq_false_2 by done. rewrite andb_false_r. reflexivity.
Qed.

(** [http://bob@host:80/a/b?k=v#top] *)
Definition sample_url : aurl :=
  mk_aurl [104; 116; 116; 112] (Some [98; 111; 98]) [104; 111; 115; 116] (Some [56; 48])
    (Some ([97; 47; 98], Some [107; 61; 118], Some [116; 111; 112])).

Lemma url_roundtrip_witness :
  aurl_ok sample_url /\
  exists u strings,
    url_parse (replicate 64 7) 64 (render sample_url ++ [0]) URL_SCHEME = Some (u, strings, 1) /\
    url_tostring strings u (replicate 40 9) 40 =
      Some (splice (replicate 40 9) 0 (render sample_url ++ [0]), 30).
Proof.
  assert (aurl_ok sample_url) as Hok.
  { repeat split; try discriminate; repeat (apply Forall_cons; split; [reflexivity|]); apply Forall_nil; exact I. }
  split; [exact Hok|].
  apply (url_roundtrip sample_url [] (replicate 64 7) 64 (replicate 40 9) 40 Hok);
    first [reflexivity | vm_compute; split; discriminate | vm_compute; discriminate].
Defined.

(** A user part with a password is rejected: in [http://bob:pw@host/] the colon
    makes [bob] the host, and [p] is then not a digit of the port. *)
Example url_password_rejected :
  exists u strings,
    url_parse (replicate 64 0) 64
      [104; 116; 116; 112; 58; 47; 47; 98; 111; 98; 58; 112; 119; 64; 104; 111; 115; 116; 47; 0] URL_SCHEME =
      Some (u, strings, 0) /\ host u = Some 5 /\ slice strings 5 4 = [98; 111; 98; 0].
Proof. eexists _, _. vm_compute. done. Qed.
