(* ===== verification/Net.v ===== *)
(** * Packet headers and checksums (src/libz/net)

    A header is a range of bytes of a frame object; a [struct x_header *] is the
    index of its first byte, and its fields are at constant offsets (every
    field is an array of bytes, so the structures have no padding).  A 16-bit
    load through [unsigned short *] is little-endian. *)
From S2P Require Import Prelude Buffer.

Local Open Scope Z_scope.

(** ** Loads and stores in network order (net.c) *)

Definition net_load8 (data : list Z) (o : Z) : option Z := rd data o.
Definition net_load16 (data : list Z) (o : Z) : option Z :=
  d0 ← rd data o; d1 ← rd data (o + 1);
  Some (u16 (Z.lor (Z.shiftl d0 8) d1)).
Definition net_load32 (data : list Z) (o : Z) : option Z :=
  d0 ← rd data o; d1 ← rd data (o + 1); d2 ← rd data (o + 2); d3 ← rd data (o + 3);
  Some (u32 (Z.lor (Z.lor (Z.lor (Z.shiftl d0 24) (Z.shiftl d1 16)) (Z.shiftl d2 8)) d3)).

Definition net_save8 (data : list Z) (o num : Z) : option (list Z) := wr data o (u8 num).
Definition net_save16 (data : list Z) (o num : Z) : option (list Z) :=
  data ← wr data o (u8 (Z.shiftr (u16 num) 8));
  wr data (o + 1) (u8 (u16 num)).
Definition net_save32 (data : list Z) (o num : Z) : option (list Z) :=
  data ← wr data o (u8 (Z.shiftr (u32 num) 24));
  data ← wr data (o + 1) (u8 (Z.shiftr (u32 num) 16));
  data ← wr data (o + 2) (u8 (Z.shiftr (u32 num) 8));
  wr data (o + 3) (u8 (u32 num)).

(** ** Checksums *)

(** [*payload] *)
Definition load_word (data : list Z) (o : Z) : option Z :=
  lo ← rd data o; hi ← rd data (o + 1); Some (lo + 256 * hi).

(** [while (sum >> 16) sum = (sum & 0xFFFF) + (sum >> 16)]: two passes are
    enough for a 32-bit sum ([fold_fixed] below). *)
Fixpoint fold_sum (fuel : nat) (sum : Z) : Z :=
  match fuel with
  | O => sum
  | S fuel =>
      if Z.shiftr sum 16 =? 0 then sum
      else fold_sum fuel (u32 (Z.land sum 0xFFFF + Z.shiftr sum 16))
  end.

(** [return ~sum] as an [unsigned short]. *)
Definition complement (sum : Z) : Z := u16 (Z.lnot sum).

(** [while (len > 1)]: [n] whole words are left; with the early fold of
    ipv4_calculatechecksum and icmp_calculatechecksum. *)
Fixpoint sum_words_fold (n : nat) (data : list Z) (o sum : Z) : option Z :=
  match n with
  | O => Some sum
  | S n =>
      w ← load_word data o;
      let sum := u32 (sum + w) in
      let sum :=
        if negb (Z.land sum 0x80000000 =? 0) then u32 (Z.land sum 0xFFFF + Z.shiftr sum 16) else sum in
      sum_words_fold n data (o + 2) sum
  end.

Definition ipv4_calculatechecksum (data : list Z) (header len : Z) : option Z :=
  sum ← sum_words_fold (Z.to_nat (len / 2)) data header 0;
  Some (complement (fold_sum 3 sum)).

Definition icmp_calculatechecksum (data : list Z) (header len : Z) : option Z :=
  sum ← sum_words_fold (Z.to_nat (len / 2)) data header 0;
  Some (complement (fold_sum 3 sum)).

Definition htons (v : Z) : Z :=
  let c1 := u8 v in
  let c2 := u8 (Z.shiftr (u16 v) 8) in
  u16 (Z.lor (Z.shiftl c1 8) c2).

(** [(a[i + 1] << 8) | a[i]] *)
Definition addr_word (a : list Z) (i : Z) : option Z :=
  hi ← rd a (i + 1); lo ← rd a i; Some (Z.lor (Z.shiftl hi 8) lo).

Fixpoint sum_words (n : nat) (data : list Z) (o sum : Z) : option Z :=
  match n with
  | O => Some sum
  | S n => w ← load_word data o; sum_words n data (o + 2) (u32 (sum + w))
  end.

(** The common body of tcp_checksum and udp_checksum, up to [~sum]. *)
Definition pseudo_sum (protocol : Z) (data : list Z) (header : Z) (sip tip : list Z) (len : Z) : option Z :=
  let len := u16 len in
  s0 ← addr_word sip 0; s1 ← addr_word sip 2;
  t0 ← addr_word tip 0; t1 ← addr_word tip 2;
  let sum := u32 (s0 + s1 + t0 + t1 + htons protocol + htons len) in
  sum ← sum_words (Z.to_nat (len / 2)) data header sum;
  sum ← (if len mod 2 =? 0 then Some sum
         else w ← load_word data (header + 2 * (len / 2)); Some (u32 (sum + Z.land w (htons 0xFF00))));
  Some (fold_sum 3 sum).

Definition tcp_checksum (data : list Z) (header : Z) (sip tip : list Z) (len : Z) : option Z :=
  sum ← pseudo_sum 0x0006 data header sip tip len; Some (complement sum).

Definition udp_checksum (data : list Z) (header : Z) (sip tip : list Z) (len : Z) : option Z :=
  sum ← pseudo_sum 0x0011 data header sip tip len;
  let sum2 := complement sum in
  Some (if sum2 =? 0 then 0xFFFF else sum2).

(** ** Ethernet: [tha] 0, [sha] 6, [type] 12 *)

Definition ethernet_hlen : Z := 14.

Definition ethernet_initheader (data : list Z) (h type : Z) (sha tha : list Z) : option (list Z) :=
  data ← net_save16 data (h + 12) type;
  data ← buffer_copy data (h + 6) sha 0 6;
  buffer_copy data h tha 0 6.

Definition ethernet_putheader (data : list Z) (h type : Z) (sha tha : list Z) : option (list Z) :=
  ethernet_initheader data h type sha tha.

(** ** ARP: [htype] 0, [ptype] 2, [hlength] 4, [plength] 5, [operation] 6 *)

Definition arp_hlen : Z := 8.
Definition arp_len (data : list Z) (h : Z) : option Z :=
  a ← net_load8 data (h + 4); b ← net_load8 data (h + 5); Some (u16 (8 + a * 2 + b * 2)).

Definition arp_initheader (data : list Z) (h htype hlength ptype plength operation : Z) : option (list Z) :=
  data ← net_save16 data h htype;
  data ← net_save16 data (h + 2) ptype;
  data ← net_save8 data (h + 4) hlength;
  data ← net_save8 data (h + 5) plength;
  net_save16 data (h + 6) operation.

Definition arp_putheader (data : list Z) (h htype hlength ptype plength operation : Z) : option (list Z) :=
  arp_initheader data h htype hlength ptype plength operation.

(** ** IPv4: [version] 0, [dscp] 1, [length] 2, [identification] 4,
    [fragment] 6, [ttl] 8, [protocol] 9, [checksum] 10, [sip] 12, [tip] 16 *)

Definition ipv4_hlen (data : list Z) (h : Z) : option Z :=
  v ← net_load8 data h; Some (u16 (Z.land v 0x0F * 4)).
Definition ipv4_len (data : list Z) (h : Z) : option Z := net_load16 data (h + 2).

Definition ipv4_initheader (data : list Z) (h : Z) (sip tip : list Z) (protocol count : Z) : option (list Z) :=
  data ← net_save8 data h 0x45;
  data ← net_save8 data (h + 1) 0;
  data ← net_save16 data (h + 2) (u32 (count + 20));
  data ← net_save16 data (h + 4) 0;
  data ← net_save16 data (h + 6) 0;
  data ← net_save8 data (h + 8) 64;
  data ← net_save8 data (h + 9) protocol;
  data ← net_save16 data (h + 10) 0;
  data ← buffer_copy data (h + 12) sip 0 4;
  data ← buffer_copy data (h + 16) tip 0 4;
  checksum ← ipv4_calculatechecksum data h 20;
  data ← wr data (h + 10) (u8 checksum);
  wr data (h + 11) (u8 (Z.shiftr checksum 8)).

(** [protocol] is an [unsigned char] here, [length] an [unsigned short]. *)
Definition ipv4_putheader (data : list Z) (h : Z) (sip tip : list Z) (protocol length : Z) : option (list Z) :=
  ipv4_initheader data h sip tip (u8 protocol) (u16 length).

(** ** ICMP: [type] 0, [code] 1, [checksum] 2 *)

Definition icmp_hlen : Z := 4.
Definition icmp_initheader (data : list Z) (h type code : Z) : option (list Z) :=
  data ← net_save8 data h type;
  data ← net_save8 data (h + 1) code;
  net_save16 data (h + 2) 0.
Definition icmp_putheader (data : list Z) (h type code : Z) : option (list Z) :=
  icmp_initheader data h type code.

(** ** UDP: [sp] 0, [tp] 2, [length] 4, [checksum] 6 *)

Definition udp_hlen : Z := 8.
Definition udp_initheader (data : list Z) (h : Z) (sp tp : list Z) (count : Z) : option (list Z) :=
  data ← buffer_copy data h sp 0 2;
  data ← buffer_copy data (h + 2) tp 0 2;
  data ← net_save16 data (h + 4) (u32 (count + 8));
  net_save16 data (h + 6) 0.
Definition udp_putheader (data : list Z) (h : Z) (sp tp : list Z) (count : Z) : option (list Z) :=
  udp_initheader data h sp tp count.

(** ** TCP: [sp] 0, [tp] 2, [seq] 4, [ack] 8, [flags] 12, [window] 14,
    [checksum] 16, [urgent] 18 *)

Definition tcp_hlen (data : list Z) (h : Z) : option Z :=
  f ← rd data (h + 12); Some (u16 (Z.shiftr f 4 * 4)).

Definition tcp_initheader (data : list Z) (h : Z) (sp tp : list Z) : option (list Z) :=
  data ← buffer_copy data h sp 0 2;
  data ← buffer_copy data (h + 2) tp 0 2;
  data ← net_save32 data (h + 4) 0;
  data ← net_save32 data (h + 8) 0;
  data ← net_save16 data (h + 12) 0;
  data ← net_save16 data (h + 14) 0;
  data ← net_save16 data (h + 16) 0;
  net_save16 data (h + 18) 0.

Definition tcp_putheader (data : list Z) (h : Z) (sp tp : list Z) (flags seq ack window : Z) : option (list Z) :=
  data ← tcp_initheader data h sp tp;
  data ← wr data (h + 12) (Z.shiftl 5 4);
  data ← wr data (h + 13) (u8 flags);
  data ← net_save32 data (h + 4) seq;
  data ← net_save32 data (h + 8) ack;
  net_save16 data (h + 14) window.

(** ** Ones' complement arithmetic *)

(** The sum of the little-endian words of a byte string (a last single byte is
    padded with a zero), and the ones' complement representative of a sum. *)
Fixpoint wsum (l : list Z) : Z :=
  match l with lo :: hi :: l => lo + 256 * hi + wsum l | [lo] => lo | [] => 0 end.

Definition ones_sum (t : Z) : Z := if t =? 0 then 0 else (t - 1) mod 65535 + 1.

Lemma land_low16 s : Z.land s 0xFFFF = s mod 65536.
Proof. change 0xFFFF with (2 ^ 16 - 1). by rewrite land_pow2_pred by lia. Qed.

Lemma fold_step s : 0 <= s < 2 ^ 32 ->
  u32 (Z.land s 0xFFFF + Z.shiftr s 16) = s mod 65536 + s / 65536.
Proof.
  intros Hs. rewrite land_low16, Z.shiftr_div_pow2 by lia. change (2 ^ 16) with 65536.
  apply u32_small. zmod.
Qed.

Lemma fold_sum_S n s : 0 <= s < 2 ^ 32 ->
  fold_sum (S n) s = if s / 65536 =? 0 then s else fold_sum n (s mod 65536 + s / 65536).
Proof.
  intros Hs. cbn [fold_sum]. rewrite fold_step by done. rewrite Z.shiftr_div_pow2 by lia. done.
Qed.

(** Two passes reach a 16-bit value, and the third test ends the loop. *)
Lemma fold_fixed s : 0 <= s < 2 ^ 32 -> fold_sum 3 s = ones_sum s.
Proof.
  intros Hs. unfold ones_sum. rewrite fold_sum_S by done.
  destruct (Z.eqb_spec (s / 65536) 0) as [H1|H1]; [destruct (Z.eqb_spec s 0); zmod|].
  set (s1 := s mod 65536 + s / 65536) in *. assert (0 < s1 <= 131070) by (unfold s1; zmod).
  assert ((s - 1) mod 65535 = (s1 - 1) mod 65535) as ->.
  { unfold s1. replace (s - 1) with (s mod 65536 + s / 65536 - 1 + (s / 65536) * 65535) by zmod.
    apply Z.mod_add. lia. }
  destruct (Z.eqb_spec s 0); [zmod|].
  rewrite fold_sum_S by lia. destruct (Z.eqb_spec (s1 / 65536) 0); [zmod|].
  set (s2 := s1 mod 65536 + s1 / 65536) in *. assert (0 < s2 <= 65535) by (unfold s2; zmod).
  rewrite fold_sum_S by lia. destruct (Z.eqb_spec (s2 / 65536) 0); [unfold s2; zmod|zmod].
Qed.

Lemma complement_ones s : 0 <= s <= 65535 -> complement s = 65535 - s.
Proof. intros. unfold complement, u16, Z.lnot. rewrite <- Z.sub_1_r. zmod. Qed.

Lemma ones_sum_range t : 0 <= t -> 0 <= ones_sum t <= 65535.
Proof. intros. unfold ones_sum. destruct (t =? 0); zmod. Qed.

(** Equal modulo [2^16 - 1] and zero together: the same ones' complement value. *)
Definition same_sum (a b : Z) : Prop := a mod 65535 = b mod 65535 /\ (a = 0 <-> b = 0).

Lemma same_sum_ones a b : 0 <= a -> 0 <= b -> same_sum a b -> ones_sum a = ones_sum b.
Proof.
  intros Ha Hb [H Hz]. unfold ones_sum.
  destruct (Z.eqb_spec a 0) as [E|E], (Z.eqb_spec b 0) as [E'|E']; [done|tauto|tauto|].
  f_equal. rewrite (Zminus_mod a), (Zminus_mod b), H. done.
Qed.

#[export] Instance same_sum_refl : Reflexive same_sum.
Proof. done. Qed.
#[export] Instance same_sum_trans : Transitive same_sum.
Proof. intros a b c [H1 H2] [H3 H4]. split; [congruence|tauto]. Qed.

(** Adding the complement of a sum to it gives all ones. *)
Lemma ones_sum_complement t : 0 < t -> ones_sum (t + (65535 - ones_sum t)) = 65535.
Proof.
  intros Ht. unfold ones_sum at 2. destruct (Z.eqb_spec t 0); [lia|].
  assert (0 <= (t - 1) mod 65535 < 65535) by (apply Z.mod_pos_bound; lia).
  unfold ones_sum. destruct (Z.eqb_spec (t + (65535 - ((t - 1) mod 65535 + 1))) 0); [lia|].
  replace (t + (65535 - ((t - 1) mod 65535 + 1)) - 1) with (65534 + ((t - 1) / 65535) * 65535) by zmod.
  by rewrite Z.mod_add by lia.
Qed.

(** ** The checksum functions compute the complement of the sum *)

Lemma wsum_nonneg l : Forall is_byte l -> 0 <= wsum l.
Proof.
  remember (length l) as n eqn:En. revert l En. induction n as [n IH] using lt_wf_ind. intros l En Hl.
  destruct l as [|a [|b l]]; cbn [wsum]; [lia|by apply Forall_cons in Hl as [[? ?] _]|]. cbn [length] in En.
  apply Forall_cons in Hl as [Ha Hl]. apply Forall_cons in Hl as [Hb Hl].
  specialize (IH (length l) ltac:(lia) l eq_refl Hl). unfold is_byte in *. lia.
Qed.

Lemma load_word_spec data (o : nat) n :
  (o + 2 * S n <= length data)%nat -> Forall is_byte data ->
  exists lo hi, is_byte lo /\ is_byte hi /\ load_word data (Z.of_nat o) = Some (lo + 256 * hi) /\
    slice data o (2 * S n) = lo :: hi :: slice data (S (S o)) (2 * n).
Proof.
  intros Ho Hd. destruct (lookup_lt_is_Some_2 data o) as [lo Hlo]; [lia|].
  destruct (lookup_lt_is_Some_2 data (S o)) as [hi Hhi]; [lia|].
  rewrite Forall_lookup in Hd. exists lo, hi. split; [eauto|]. split; [eauto|]. split.
  - unfold load_word. replace (Z.of_nat o + 1) with (Z.of_nat (S o)) by lia. by rewrite !rd_nat, Hlo, Hhi.
  - replace (2 * S n)%nat with (S (S (2 * n))) by lia. by rewrite (slice_S _ _ _ _ Hlo), (slice_S _ _ _ _ Hhi).
Qed.

Lemma sum_words_fold_spec n data (o : nat) sum :
  (o + 2 * n <= length data)%nat -> Forall is_byte data -> 0 <= sum < 2 ^ 31 ->
  exists s, sum_words_fold n data (Z.of_nat o) sum = Some s /\ 0 <= s < 2 ^ 31 /\
    same_sum (sum + wsum (slice data o (2 * n))) s.
Proof.
  revert o sum. induction n as [|n IH]; intros o sum Ho Hd Hs.
  { exists sum. cbn. by rewrite Z.add_0_r. }
  destruct (load_word_spec data o n Ho Hd) as (lo & hi & Hlo & Hhi & Hw & Hsl). unfold is_byte in *.
  cbn [sum_words_fold]. rewrite Hw. cbn [mbind option_bind]. rewrite (u32_small (sum + _)) by lia.
  set (s0 := sum + (lo + 256 * hi)).
  assert (exists s1, (if negb (Z.land s0 0x80000000 =? 0) then u32 (Z.land s0 0xFFFF + Z.shiftr s0 16) else s0) = s1 /\
    0 <= s1 < 2 ^ 31 /\ same_sum s0 s1) as (s1 & -> & Hs1 & Hsame).
  { assert (Z.land s0 0x80000000 = 0 -> s0 < 2 ^ 31) as Hbit.
    { intros H0. apply Z.nle_gt. intros Hge. assert (Z.testbit (Z.land s0 0x80000000) 31 = true) as Hb; [|by rewrite H0 in Hb].
      rewrite Z.land_spec. apply andb_true_iff. split; [|done].
      apply Z.testbit_true; [lia|]. assert (s0 / 2 ^ 31 = 1) as -> by (unfold s0 in *; zmod). done. }
    destruct (Z.eqb_spec (Z.land s0 0x80000000) 0) as [H0|H0]; cbn [negb].
    - exists s0. split; [done|]. split; [unfold s0 in *; specialize (Hbit H0); lia|reflexivity].
    - exists (s0 mod 65536 + s0 / 65536). rewrite fold_step by (unfold s0; lia). split; [done|].
      assert (0 <= s0 < 2 ^ 32) by (unfold s0; lia). split; [zmod|]. split; [|zmod].
      rewrite <- (Z.mod_add (s0 mod 65536 + s0 / 65536) (s0 / 65536)) by lia. f_equal. zmod. }
  replace (Z.of_nat o + 2) with (Z.of_nat (S (S o))) by lia.
  destruct (IH (S (S o)) s1 ltac:(lia) Hd Hs1) as (s & Es & Hr & Hss). exists s. split; [done|]. split; [done|].
  etransitivity; [|exact Hss]. rewrite Hsl. cbn [wsum].
  assert (0 <= wsum (slice data (S (S o)) (2 * n))) by (apply wsum_nonneg; by apply Forall_take, Forall_drop).
  set (W := wsum _) in *. replace (sum + (lo + 256 * hi + W)) with (s0 + W) by (unfold s0; lia).
  destruct Hsame as [Hm Hz]. assert (0 <= s0) by (unfold s0; lia). split; [|lia].
  by rewrite (Zplus_mod s0), (Zplus_mod s1), Hm.
Qed.

Lemma ipv4_checksum_spec data (h : nat) len :
  0 <= len -> (h + 2 * Z.to_nat (len / 2) <= length data)%nat -> Forall is_byte data ->
  ipv4_calculatechecksum data (Z.of_nat h) len =
    Some (65535 - ones_sum (wsum (slice data h (2 * Z.to_nat (len / 2))))).
Proof.
  intros Hlen Hh Hd. unfold ipv4_calculatechecksum.
  destruct (sum_words_fold_spec (Z.to_nat (len / 2)) data h 0 Hh Hd) as (s & -> & Hs & Hsame); [lia|].
  cbn [mbind option_bind]. rewrite fold_fixed by lia.
  rewrite complement_ones by (apply ones_sum_range; lia). do 2 f_equal. symmetry.
  apply same_sum_ones; [|lia|exact Hsame]. apply wsum_nonneg. by apply Forall_take, Forall_drop.
Qed.

Lemma sum_words_spec n data (o : nat) sum :
  (o + 2 * n <= length data)%nat -> Forall is_byte data ->
  0 <= sum -> sum + 65535 * Z.of_nat n < 2 ^ 32 ->
  sum_words n data (Z.of_nat o) sum = Some (sum + wsum (slice data o (2 * n))) /\
  0 <= wsum (slice data o (2 * n)) <= 65535 * Z.of_nat n.
Proof.
  revert o sum. induction n as [|n IH]; intros o sum Ho Hd Hs Hb.
  { rewrite Nat.mul_0_r, slice_0. cbn [wsum sum_words]. rewrite Z.add_0_r. split; [done|lia]. }
  destruct (load_word_spec data o n Ho Hd) as (lo & hi & Hlo & Hhi & Hw & Hsl). unfold is_byte in *.
  cbn [sum_words]. rewrite Hw. cbn [mbind option_bind]. rewrite u32_small by lia.
  replace (Z.of_nat o + 2) with (Z.of_nat (S (S o))) by lia.
  destruct (IH (S (S o)) (sum + (lo + 256 * hi))) as [-> Hr]; [lia|done|lia|lia|].
  rewrite Hsl. cbn [wsum]. split; [f_equal; lia|lia].
Qed.

Lemma wsum_app a b : Nat.Even (length a) -> wsum (a ++ b) = wsum a + wsum b.
Proof.
  intros [n Hn]. revert a Hn. induction n as [|n IH]; intros a Hn.
  - destruct a; [done|cbn in Hn; lia].
  - destruct a as [|x [|y a]]; cbn [length] in Hn; [lia|lia|]. cbn [wsum app]. rewrite IH by lia. lia.
Qed.

(** The fields of the pseudo header, as words. *)
Definition pseudo_words (protocol : Z) (sip tip : list Z) (len : Z) : Z :=
  wsum sip + wsum tip + htons protocol + htons len.

Lemma htons_range v : 0 <= htons v <= 65535.
Proof. unfold htons. pose proof (u16_range (Z.lor (u8 v ≪ 8) (u8 (u16 v ≫ 8)))). lia. Qed.

Lemma addr_words a :
  length a = 4%nat -> Forall is_byte a ->
  exists w0 w1, addr_word a 0 = Some w0 /\ addr_word a 2 = Some w1 /\ w0 + w1 = wsum a /\
    0 <= w0 <= 65535 /\ 0 <= w1 <= 65535.
Proof.
  intros Hl Ha. destruct a as [|a0 [|a1 [|a2 [|a3 [|]]]]]; try done.
  repeat (apply Forall_cons in Ha as [? Ha]). unfold is_byte in *.
  assert (forall lo hi, 0 <= lo < 256 -> Z.lor (Z.shiftl hi 8) lo = lo + 256 * hi) as Hlor.
  { intros lo hi Hlo. rewrite lor_shift by lia. lia. }
  exists (a0 + 256 * a1), (a2 + 256 * a3).
  unfold addr_word. cbn [rd]. rewrite <- !Hlor by lia. cbn [wsum]. repeat split; try reflexivity; rewrite ?Hlor by lia; lia.
Qed.

Lemma even_odd_nat n : n = (2 * (n / 2) + n mod 2)%nat.
Proof. apply Nat.div_mod. lia. Qed.

Lemma pseudo_sum_spec protocol data (h n : nat) sip tip :
  Z.of_nat n <= 65535 -> (h + n + n mod 2 <= length data)%nat -> Forall is_byte data ->
  length sip = 4%nat -> Forall is_byte sip -> length tip = 4%nat -> Forall is_byte tip ->
  pseudo_sum protocol data (Z.of_nat h) sip tip (Z.of_nat n) =
    Some (ones_sum (pseudo_words protocol sip tip (Z.of_nat n) + wsum (slice data h n))).
Proof.
  intros Hn Hh Hd Hsl Hs Htl Ht. unfold pseudo_sum, pseudo_words.
  destruct (addr_words sip Hsl Hs) as (s0 & s1 & -> & -> & <- & Hs0 & Hs1).
  destruct (addr_words tip Htl Ht) as (t0 & t1 & -> & -> & <- & Ht0 & Ht1). cbn [mbind option_bind].
  rewrite u16_small by lia. pose proof (htons_range protocol). pose proof (htons_range (Z.of_nat n)).
  pose proof (even_odd_nat n) as En. pose proof (Nat.mod_upper_bound n 2 ltac:(lia)) as Hmod.
  replace (Z.of_nat n / 2) with (Z.of_nat (n / 2)) by (rewrite Nat2Z.inj_div; done).
  replace (Z.of_nat n mod 2) with (Z.of_nat (n mod 2)) by (rewrite Nat2Z.inj_mod; done).
  rewrite Nat2Z.id. rewrite (u32_small (s0 + _ + _ + _ + _ + _)) by lia.
  set (p := s0 + s1 + t0 + t1 + htons protocol + htons (Z.of_nat n)).
  replace (s0 + s1 + (t0 + t1) + htons protocol + htons (Z.of_nat n)) with p by (unfold p; lia).
  destruct (sum_words_spec (n / 2) data h p) as [-> Hw]; [lia|done|unfold p; lia|unfold p; lia|].
  cbn [mbind option_bind]. set (k := (n / 2)%nat) in *. set (W := wsum (slice data h (2 * k))) in *.
  destruct (n mod 2)%nat as [|[|?]] eqn:Em; [| |lia].
  - change (Z.of_nat 0 =? 0) with true. cbv iota. cbn [mbind option_bind]. rewrite fold_fixed by (unfold p; lia).
    unfold W. by replace (2 * k)%nat with n by lia.
  - change (Z.of_nat 1 =? 0) with false. cbv iota.
    destruct (load_word_spec data (h + 2 * k) 0) as (lo & hi & Hlo & Hhi & Hlw & Hsl2); [lia|done|].
    replace (Z.of_nat h + 2 * Z.of_nat k) with (Z.of_nat (h + 2 * k)) by lia. rewrite Hlw.
    cbn [mbind option_bind]. change (htons 0xFF00) with (2 ^ 8 - 1). rewrite land_pow2_pred by lia.
    change (2 ^ 8) with 256. unfold is_byte in *.
    replace ((lo + 256 * hi) mod 256) with lo by zmod.
    rewrite u32_small by (unfold p; lia). rewrite fold_fixed by (unfold p; lia).
    assert (slice data h n = slice data h (2 * k) ++ [lo]) as ->.
    { rewrite En. replace (2 * k + 1)%nat with (S (2 * k)) by lia. unfold slice.
      assert (drop h data !! (2 * k)%nat = Some lo) as Hlk.
      { rewrite lookup_drop. apply (f_equal head) in Hsl2. unfold slice in Hsl2. cbn [head] in Hsl2.
        change (2 * 1)%nat with 2%nat in Hsl2.
        destruct (drop (h + 2 * k) data) as [|x l] eqn:Ed; [done|]. cbn in Hsl2. injection Hsl2 as ->.
        by rewrite <- (Nat.add_0_r (h + 2 * k)), <- lookup_drop, Ed. }
      by rewrite (take_S_r _ _ _ Hlk). }
    rewrite wsum_app by (exists k; rewrite length_slice; lia). fold W. cbn [wsum]. do 2 f_equal. lia.
Qed.

(** ** Stores inside a header *)

(** Big-endian bytes. *)
Definition be16 (v : Z) : list Z := [v / 256 mod 256; v mod 256].
Definition be32 (v : Z) : list Z := [v / 16777216 mod 256; v / 65536 mod 256; v / 256 mod 256; v mod 256].

Lemma splice_self b i n : (i + n <= length b)%nat -> splice b i (slice b i n) = b.
Proof.
  intros H. unfold splice. rewrite length_slice by lia. unfold slice.
  rewrite <- drop_drop, take_drop. apply take_drop.
Qed.

Lemma splice_inside b h xs k ys :
  (k + length ys <= length xs)%nat -> (h + length xs <= length b)%nat ->
  splice (splice b h xs) (h + k) ys = splice b h (splice xs k ys).
Proof.
  intros Hk Hh. apply list_eq. intros j.
  assert (length (splice b h xs) = length b) as Hb by (apply length_splice; lia).
  assert (length (splice xs k ys) = length xs) as Hx by (apply length_splice; lia).
  destruct (decide (h + k <= j < h + k + length ys)%nat).
  - rewrite splice_lookup_in, (splice_lookup_in b), splice_lookup_in by lia. f_equal. lia.
  - rewrite splice_lookup_out by lia. destruct (decide (h <= j < h + length xs)%nat).
    + rewrite !(splice_lookup_in b), splice_lookup_out by lia. done.
    + by rewrite !(splice_lookup_out b) by lia.
Qed.

Lemma net_save16_splice b (o : nat) v :
  (o + 2 <= length b)%nat -> net_save16 b (Z.of_nat o) v = Some (splice b o (be16 v)).
Proof.
  intros Ho. unfold net_save16. rewrite wr_one by lia. cbn [mbind option_bind].
  replace (Z.of_nat o + 1) with (Z.of_nat (o + 1)) by lia.
  rewrite wr_one by (rewrite length_splice; cbn [length]; lia).
  replace (o + 1)%nat with (o + length [u8 (u16 v ≫ 8)])%nat by (cbn [length]; lia).
  rewrite splice_app by (cbn [length]; lia). unfold be16, u8, u16. cbn [app].
  rewrite Z.shiftr_div_pow2 by lia. change (2 ^ 8) with 256.
  replace (v mod 65536 / 256 mod 256) with (v / 256 mod 256) by zmod.
  by replace (v mod 65536 mod 256) with (v mod 256) by zmod.
Qed.

Lemma net_save32_splice b (o : nat) v :
  (o + 4 <= length b)%nat -> net_save32 b (Z.of_nat o) v = Some (splice b o (be32 v)).
Proof.
  intros Ho. unfold net_save32. rewrite wr_one by lia. cbn [mbind option_bind].
  replace (Z.of_nat o + 1) with (Z.of_nat (o + 1)) by lia.
  replace (Z.of_nat o + 2) with (Z.of_nat (o + 2)) by lia.
  replace (Z.of_nat o + 3) with (Z.of_nat (o + 3)) by lia.
  rewrite wr_one by (rewrite length_splice; cbn [length]; lia). cbn [mbind option_bind].
  rewrite (splice_app b o [_]) by (cbn [length]; lia). cbn [app].
  rewrite wr_one by (rewrite length_splice; cbn [length]; lia). cbn [mbind option_bind].
  rewrite (splice_app b o [_; _]) by (cbn [length]; lia). cbn [app].
  rewrite wr_one by (rewrite length_splice; cbn [length]; lia).
  rewrite (splice_app b o [_; _; _]) by (cbn [length]; lia). cbn [app].
  unfold be32, u8, u32. rewrite !Z.shiftr_div_pow2 by lia.
  change (2 ^ 8) with 256. change (2 ^ 16) with 65536. change (2 ^ 24) with 16777216.
  set (w := v mod 4294967296).
  replace (w / 16777216 mod 256) with (v / 16777216 mod 256) by (unfold w; zmod).
  replace (w / 65536 mod 256) with (v / 65536 mod 256) by (unfold w; zmod).
  replace (w / 256 mod 256) with (v / 256 mod 256) by (unfold w; zmod).
  by replace (w mod 256) with (v mod 256) by (unfold w; zmod).
Qed.

Lemma buffer_copy_splice b (o : nat) src n :
  n = Z.of_nat (length src) -> (o + length src <= length b)%nat ->
  buffer_copy b (Z.of_nat o) src 0 n = Some (splice b o src).
Proof.
  intros -> Ho. rewrite buffer_copy_spec by lia. f_equal. rewrite !Nat2Z.id.
  unfold slice. change (Z.to_nat 0) with 0%nat. by rewrite drop_0, take_ge by lia.
Qed.

(** Makes the elements of a list of known length explicit. *)
Ltac explicit l :=
  let H := fresh in
  match goal with E : length l = _ |- _ => rename E into H end;
  repeat (destruct l as [|? l]; [discriminate H|]; try (destruct l; [clear H|discriminate H])).

(** Header offsets as natural numbers. *)
Ltac at_nat h :=
  repeat match goal with
  | |- context [Z.of_nat h + Zpos ?k] =>
      let n := eval compute in (Pos.to_nat k) in
      replace (Z.of_nat h + Zpos k) with (Z.of_nat (h + n)) by lia
  end.

Lemma splice_inside_0 b h xs ys :
  (length ys <= length xs)%nat -> (h + length xs <= length b)%nat ->
  splice (splice b h xs) h ys = splice b h (splice xs 0 ys).
Proof. intros. rewrite <- (splice_inside b h xs 0 ys), Nat.add_0_r by lia. done. Qed.

Ltac header_room := first [reflexivity | rewrite ?length_splice; cbn [length]; lia].

(** One store into the header bytes [xs] of [splice b h xs]. *)
Ltac put_field :=
  first [rewrite net_save16_splice by header_room | rewrite net_save32_splice by header_room
        | rewrite wr_one by header_room | rewrite buffer_copy_splice by header_room];
  first [rewrite splice_inside by (cbn [length be16 be32]; lia)
        | rewrite splice_inside_0 by (cbn [length be16 be32]; lia)];
  cbn [mbind option_bind splice take drop app length Nat.add be16 be32].

Section Headers.
Context (data : list Z) (h : nat).

(** The bytes of the header, whatever they are before. *)
Lemma header_bytes n : (h + n <= length data)%nat -> exists xs, length xs = n /\ data = splice data h xs.
Proof. intros H. exists (slice data h n). by rewrite length_slice, splice_self. Qed.

Lemma ethernet_initheader_spec type sha tha :
  length sha = 6%nat -> length tha = 6%nat -> (h + 14 <= length data)%nat ->
  ethernet_initheader data (Z.of_nat h) type sha tha = Some (splice data h (tha ++ sha ++ be16 type)).
Proof.
  intros Hsha Htha Hh. destruct (header_bytes 14 Hh) as (xs & Hxs & E). rewrite E at 1.
  explicit xs. explicit sha. explicit tha. unfold ethernet_initheader. at_nat h.
  do 3 put_field. reflexivity.
Qed.

Lemma arp_initheader_spec htype hlength ptype plength operation :
  (h + 8 <= length data)%nat ->
  arp_initheader data (Z.of_nat h) htype hlength ptype plength operation =
    Some (splice data h (be16 htype ++ be16 ptype ++ [u8 hlength; u8 plength] ++ be16 operation)).
Proof.
  intros Hh. destruct (header_bytes 8 Hh) as (xs & Hxs & E). rewrite E at 1. explicit xs.
  unfold arp_initheader, net_save8. at_nat h. do 5 put_field. reflexivity.
Qed.

Lemma icmp_initheader_spec type code :
  (h + 4 <= length data)%nat ->
  icmp_initheader data (Z.of_nat h) type code = Some (splice data h [u8 type; u8 code; 0; 0]).
Proof.
  intros Hh. destruct (header_bytes 4 Hh) as (xs & Hxs & E). rewrite E at 1. explicit xs.
  unfold icmp_initheader, net_save8. at_nat h. do 3 put_field. reflexivity.
Qed.

Lemma udp_initheader_spec sp tp count :
  length sp = 2%nat -> length tp = 2%nat -> (h + 8 <= length data)%nat ->
  udp_initheader data (Z.of_nat h) sp tp count =
    Some (splice data h (sp ++ tp ++ be16 (u32 (count + 8)) ++ [0; 0])).
Proof.
  intros Hsp Htp Hh. destruct (header_bytes 8 Hh) as (xs & Hxs & E). rewrite E at 1.
  explicit xs. explicit sp. explicit tp. unfold udp_initheader. at_nat h. do 4 put_field. reflexivity.
Qed.

(** The TCP header of [tcp_putheader]: five words long, checksum and urgent
    pointer zero. *)
Definition tcp_bytes (sp tp : list Z) (flags seq ack window : Z) (checksum : list Z) : list Z :=
  sp ++ tp ++ be32 seq ++ be32 ack ++ [80; u8 flags] ++ be16 window ++ checksum ++ [0; 0].

Lemma tcp_putheader_spec sp tp flags seq ack window :
  length sp = 2%nat -> length tp = 2%nat -> (h + 20 <= length data)%nat ->
  tcp_putheader data (Z.of_nat h) sp tp flags seq ack window =
    Some (splice data h (tcp_bytes sp tp flags seq ack window [0; 0])).
Proof.
  intros Hsp Htp Hh. destruct (header_bytes 20 Hh) as (xs & Hxs & E). rewrite E at 1.
  explicit xs. explicit sp. explicit tp. unfold tcp_putheader, tcp_initheader. at_nat h.
  do 13 put_field. reflexivity.
Qed.

(** The IPv4 header of [ipv4_initheader] with a given checksum field. *)
Definition ipv4_bytes (sip tip : list Z) (protocol count : Z) (checksum : list Z) : list Z :=
  [0x45; 0] ++ be16 (u32 (count + 20)) ++ [0; 0; 0; 0; 64; u8 protocol] ++ checksum ++ sip ++ tip.

(** The checksum that goes into it, low byte first. *)
Definition ipv4_check (sip tip : list Z) (protocol count : Z) : list Z :=
  let c := 65535 - ones_sum (wsum (ipv4_bytes sip tip protocol count [0; 0])) in [c mod 256; c / 256].

Lemma slice_splice xs : (h + length xs <= length data)%nat -> slice (splice data h xs) h (length xs) = xs.
Proof.
  intros H. unfold slice, splice. rewrite drop_app_ge by (rewrite length_take; lia).
  rewrite length_take, Nat.min_l, Nat.sub_diag, drop_0 by lia. by rewrite take_app_length.
Qed.

Lemma Forall_splice (P : Z -> Prop) xs : Forall P data -> Forall P xs -> Forall P (splice data h xs).
Proof.
  intros Hd Hx. unfold splice. repeat (apply Forall_app; split); [by apply Forall_take|done|by apply Forall_drop].
Qed.

Lemma ipv4_bytes_ok sip tip protocol count c0 c1 :
  Forall is_byte sip -> Forall is_byte tip -> is_byte c0 -> is_byte c1 ->
  Forall is_byte (ipv4_bytes sip tip protocol count [c0; c1]).
Proof.
  intros Hs Ht H0 H1. unfold ipv4_bytes, be16, is_byte in *. pose proof (u8_range protocol).
  repeat (apply Forall_app; split); try done;
    repeat (apply Forall_cons; split; [first [lia | apply Z.mod_pos_bound; lia]|]); apply Forall_nil; done.
Qed.

Lemma ipv4_check_ok sip tip protocol count :
  Forall is_byte sip -> Forall is_byte tip ->
  let c := 65535 - ones_sum (wsum (ipv4_bytes sip tip protocol count [0; 0])) in
  0 <= c < 65536 /\ is_byte (c mod 256) /\ is_byte (c / 256).
Proof.
  intros Hs Ht c. assert (0 <= wsum (ipv4_bytes sip tip protocol count [0; 0])) as Hw.
  { apply wsum_nonneg, ipv4_bytes_ok; unfold is_byte; (done || lia). }
  pose proof (ones_sum_range _ Hw). unfold is_byte, c. repeat split; zmod.
Qed.

Lemma ipv4_initheader_spec sip tip protocol count :
  length sip = 4%nat -> Forall is_byte sip -> length tip = 4%nat -> Forall is_byte tip ->
  (h + 20 <= length data)%nat -> Forall is_byte data ->
  ipv4_initheader data (Z.of_nat h) sip tip protocol count =
    Some (splice data h (ipv4_bytes sip tip protocol count (ipv4_check sip tip protocol count))).
Proof.
  intros Hsl Hs Htl Ht Hh Hd. destruct (ipv4_check_ok sip tip protocol count Hs Ht) as (Hc & Hc0 & Hc1).
  unfold ipv4_check. set (c := 65535 - _) in *. assert (is_byte 0) as H0 by (unfold is_byte; lia).
  pose proof (ipv4_bytes_ok sip tip protocol count 0 0 Hs Ht H0 H0) as Hz.
  assert (length (ipv4_bytes sip tip protocol count [0; 0]) = 20%nat) as Hlen
    by (unfold ipv4_bytes; rewrite !length_app, Hsl, Htl; done).
  assert (ipv4_calculatechecksum (splice data h (ipv4_bytes sip tip protocol count [0; 0])) (Z.of_nat h) 20 = Some c) as Hck.
  { rewrite ipv4_checksum_spec; [|lia| |by apply Forall_splice].
    - change (2 * Z.to_nat (20 / 2))%nat with 20%nat. rewrite <- Hlen at 1. by rewrite slice_splice by lia.
    - rewrite length_splice by lia. exact Hh. }
  assert (forall d, d = splice data h (ipv4_bytes sip tip protocol count [0; 0]) ->
    ipv4_calculatechecksum d (Z.of_nat h) 20 = Some c) as Hck' by (by intros d ->).
  clear Hck. clearbody c. clear Hz Hlen.
  destruct (header_bytes 20 Hh) as (xs & Hxs & E). rewrite E at 1. explicit xs. explicit sip. explicit tip.
  unfold ipv4_initheader, net_save8. at_nat h. do 10 put_field.
  rewrite Hck' by reflexivity. cbn [mbind option_bind]. do 2 put_field.
  rewrite Z.shiftr_div_pow2 by lia. change (2 ^ 8) with 256.
  rewrite (u8_small (c / 256)) by (unfold is_byte in *; lia). reflexivity.
Qed.

Lemma wsum_ipv4 sip tip protocol count c0 c1 :
  length sip = 4%nat ->
  wsum (ipv4_bytes sip tip protocol count [c0; c1]) =
    wsum (ipv4_bytes sip tip protocol count [0; 0]) + (c0 + 256 * c1).
Proof. intros Hs. unfold ipv4_bytes. cbn [app wsum be16]. lia. Qed.
End Headers.

Lemma rd_splice data (h : nat) xs (k : nat) :
  (h + length xs <= length data)%nat -> (k < length xs)%nat ->
  rd (splice data h xs) (Z.of_nat (h + k)) = xs !! k.
Proof. intros H Hk. rewrite rd_nat, splice_lookup_in by lia. f_equal. lia. Qed.

(** An IPv4 header verifies: whatever the frame held before,
    [ipv4_initheader] changes only the twenty bytes of the header, the
    checksum computed over the finished header is zero, and the header length,
    the total length and the addresses read back. *)
Theorem ipv4_header_verifies data (h : nat) sip tip protocol count :
  length sip = 4%nat -> Forall is_byte sip -> length tip = 4%nat -> Forall is_byte tip ->
  (h + 20 <= length data)%nat -> Forall is_byte data -> 0 <= count -> count + 20 < 65536 ->
  exists bytes, length bytes = 20%nat /\
    let data' := splice data h bytes in
    ipv4_initheader data (Z.of_nat h) sip tip protocol count = Some data' /\
    ipv4_calculatechecksum data' (Z.of_nat h) 20 = Some 0 /\
    ipv4_hlen data' (Z.of_nat h) = Some 20 /\ ipv4_len data' (Z.of_nat h) = Some (count + 20) /\
    slice data' (h + 12) 4 = sip /\ slice data' (h + 16) 4 = tip.
Proof.
  intros Hsl Hs Htl Ht Hh Hd Hc0 Hc. destruct (ipv4_check_ok sip tip protocol count Hs Ht) as (Hcc & Hb0 & Hb1).
  set (c := 65535 - _) in *. set (bytes := ipv4_bytes sip tip protocol count (ipv4_check sip tip protocol count)).
  assert (length bytes = 20%nat) as Hlen by (unfold bytes, ipv4_bytes; rewrite !length_app, Hsl, Htl; done).
  exists bytes. split; [done|]. intros data'. split; [by apply ipv4_initheader_spec|].
  assert (slice data' h 20 = bytes) as Hsl' by (unfold data'; rewrite <- Hlen at 1; by apply slice_splice; lia).
  split_and!.
  - rewrite ipv4_checksum_spec; [|lia|unfold data'; rewrite length_splice by lia; exact Hh|
      apply Forall_splice; [done|by apply ipv4_bytes_ok]].
    change (2 * Z.to_nat (20 / 2))%nat with 20%nat. rewrite Hsl'. unfold bytes, ipv4_check. fold c.
    rewrite wsum_ipv4 by done. replace (c mod 256 + 256 * (c / 256)) with c by zmod. unfold c.
    rewrite ones_sum_complement; [done|].
    assert (0 <= wsum sip /\ 0 <= wsum tip) as [? ?] by (split; by apply wsum_nonneg).
    destruct sip as [|? [|? [|? [|? [|]]]]]; try done. explicit tip. unfold ipv4_bytes. cbn [app wsum be16] in *.
    assert (0 <= u32 (count + 20) / 256 mod 256 /\ 0 <= u32 (count + 20) mod 256) by (split; apply Z.mod_pos_bound; lia).
    pose proof (u8_range protocol). lia.
  - unfold ipv4_hlen, net_load8. replace (Z.of_nat h) with (Z.of_nat (h + 0)) by lia.
    unfold data'. rewrite rd_splice by lia. reflexivity.
  - unfold ipv4_len, net_load16. at_nat h.
    replace (Z.of_nat (h + 2) + 1) with (Z.of_nat (h + 3)) by lia. unfold data'. rewrite !rd_splice by lia.
    cbn [bytes ipv4_bytes be16 app lookup list_lookup mbind option_bind]. f_equal.
    rewrite lor_shift by (try lia; change (2 ^ 8) with 256; apply Z.mod_pos_bound; lia).
    rewrite (u32_small (count + 20)) by lia. change (2 ^ 8) with 256. rewrite u16_small; zmod.
  - unfold slice in Hsl' |- *. rewrite <- drop_drop. rewrite <- (take_drop 20 (drop h data')), Hsl'.
    explicit sip. explicit tip. reflexivity.
  - unfold slice in Hsl' |- *. rewrite <- drop_drop. rewrite <- (take_drop 20 (drop h data')), Hsl'.
    explicit sip. explicit tip. reflexivity.
Qed.

Lemma ipv4_header_verifies_witness :
  exists bytes, length bytes = 20%nat /\
    let data' := splice (replicate 40 0xAA) 14 bytes in
    ipv4_initheader (replicate 40 0xAA) 14 [10; 0; 5; 1] [10; 0; 5; 2] 6 20 = Some data' /\
    ipv4_calculatechecksum data' 14 20 = Some 0 /\
    ipv4_hlen data' 14 = Some 20 /\ ipv4_len data' 14 = Some 40 /\
    slice data' 26 4 = [10; 0; 5; 1] /\ slice data' 30 4 = [10; 0; 5; 2].
Proof.
  apply (ipv4_header_verifies (replicate 40 0xAA) 14 [10; 0; 5; 1] [10; 0; 5; 2] 6 20);
    first [reflexivity | discriminate | (apply Forall_replicate; split; [discriminate|reflexivity])
          | (repeat (apply Forall_cons; split; [split; [discriminate|reflexivity]|]); apply Forall_nil; exact I)
          | (vm_compute; lia)].
Defined.

(** ** Segment checksums *)

(** Storing a word at an even offset of a zero field adds it to the sum. *)
Lemma wsum_store data (h k n : nat) c0 c1 :
  Nat.Even k -> (k + 2 <= n)%nat -> (h + n <= length data)%nat -> slice data (h + k) 2 = [0; 0] ->
  wsum (slice (splice data (h + k) [c0; c1]) h n) = wsum (slice data h n) + (c0 + 256 * c1).
Proof.
  intros Hk Hn Hh Hz.
  set (A := slice data h k). set (B := slice data (h + k + 2) (n - k - 2)).
  assert (length A = k) as HA by (unfold A; apply length_slice; lia).
  assert (slice data h n = A ++ [0; 0] ++ B) as ->.
  { assert (forall (l : list Z) a b, (a <= b)%nat -> take b l = take a l ++ take (b - a) (drop a l)) as Hsp.
    { intros l a b Hab. rewrite take_take_drop. f_equal. lia. }
    unfold A, B. rewrite <- Hz. unfold slice. rewrite (Hsp _ k n) by lia. f_equal.
    rewrite (Hsp _ 2%nat (n - k)%nat) by lia. rewrite !drop_drop. f_equal. }
  assert (slice (splice data (h + k) [c0; c1]) h n = A ++ [c0; c1] ++ B) as ->.
  { unfold A, B, slice, splice. cbn [length]. rewrite drop_app_le by (rewrite length_take; lia).
    rewrite take_app, (take_ge (drop h _)) by (rewrite length_drop, length_take; lia).
    rewrite length_drop, length_take, Nat.min_l by lia.
    replace (n - (h + k - h))%nat with (S (S (n - k - 2))) by lia.
    rewrite <- take_drop_commute. done. }
  rewrite !(wsum_app A) by (rewrite HA; done). cbn [app wsum]. lia.
Qed.

(** What a segment and the addresses around it have to be. *)
Record segment_ok (data : list Z) (h n : nat) (sip tip : list Z) : Prop := {
  seg_len : Z.of_nat n <= 65535;
  seg_room : (h + n + n mod 2 <= length data)%nat;
  seg_bytes : Forall is_byte data;
  seg_sip : length sip = 4%nat /\ Forall is_byte sip;
  seg_tip : length tip = 4%nat /\ Forall is_byte tip }.

Lemma segment_sum protocol data h n sip tip :
  segment_ok data h n sip tip ->
  let t := pseudo_words protocol sip tip (Z.of_nat n) + wsum (slice data h n) in
  pseudo_sum protocol data (Z.of_nat h) sip tip (Z.of_nat n) = Some (ones_sum t) /\ htons protocol <= t.
Proof.
  intros [Hn Hr Hd [Hs1 Hs2] [Ht1 Ht2]] t. split; [by apply pseudo_sum_spec|].
  unfold t, pseudo_words. pose proof (htons_range (Z.of_nat n)).
  assert (0 <= wsum sip /\ 0 <= wsum tip /\ 0 <= wsum (slice data h n)) as (? & ? & ?); [|lia].
  split_and!; apply wsum_nonneg; [done|done|by apply Forall_take, Forall_drop].
Qed.

(** Writing the checksum field keeps the segment well formed. *)
Lemma segment_ok_store data h n sip tip k c0 c1 :
  segment_ok data h n sip tip -> (k + 2 <= n)%nat -> is_byte c0 -> is_byte c1 ->
  segment_ok (splice data (h + k) [c0; c1]) h n sip tip.
Proof.
  intros [Hn Hr Hd Hs Ht] Hk H0 H1. assert (0 <= n mod 2)%nat by lia. split; try done.
  - rewrite length_splice; [done|]. cbn [length]. lia.
  - apply Forall_splice; [done|]. by repeat (apply Forall_cons; split; [done|]); apply Forall_nil.
Qed.

Lemma check_bytes c : 0 <= c < 65536 -> is_byte (c mod 256) /\ is_byte (c / 256) /\ c mod 256 + 256 * (c / 256) = c.
Proof. intros. unfold is_byte. repeat split; zmod. Qed.

(** Verification on the receiving side: the stored complement makes the sum all
    ones. *)
Lemma stored_sum protocol data h n sip tip k c :
  segment_ok data h n sip tip -> Nat.Even k -> (k + 2 <= n)%nat -> slice data (h + k) 2 = [0; 0] ->
  0 < htons protocol -> 0 <= c < 65536 ->
  pseudo_sum protocol data (Z.of_nat h) sip tip (Z.of_nat n) = Some (65535 - c) \/
    (c = 65535 /\ pseudo_sum protocol data (Z.of_nat h) sip tip (Z.of_nat n) = Some 65535) ->
  pseudo_sum protocol (splice data (h + k) [c mod 256; c / 256]) (Z.of_nat h) sip tip (Z.of_nat n) = Some 65535.
Proof.
  intros Hok Hk Hkn Hz Hp Hc Hsum. destruct (check_bytes c Hc) as (H0 & H1 & Hcc).
  destruct (segment_sum protocol _ _ _ _ _ (segment_ok_store _ _ _ _ _ k _ _ Hok Hkn H0 H1)) as [-> _].
  destruct (segment_sum protocol _ _ _ _ _ Hok) as [E Ht]. rewrite E in Hsum. f_equal.
  rewrite wsum_store by (try done; destruct Hok; lia). rewrite Hcc, Z.add_assoc.
  set (t := pseudo_words _ _ _ _ + wsum (slice data h n)) in *.
  destruct Hsum as [[= Hsum]|[-> [= Hsum]]].
  - replace c with (65535 - ones_sum t) by lia. apply ones_sum_complement. lia.
  - rewrite <- Hsum. apply same_sum_ones; [lia|lia|]. split; [|lia].
    rewrite <- (Z.mod_add t 1) by lia. f_equal. lia.
Qed.

(** TCP and UDP segments verify: when the checksum field of a segment is
    zero, the value [tcp_checksum] or [udp_checksum] computes for it makes the
    same function, run over the segment with the value stored low byte first,
    report a valid segment: 0 for TCP, and [0xFFFF] for UDP, whose checksum is
    never 0; for every payload, odd lengths included. *)
Theorem segment_checksum_verifies data h n sip tip :
  segment_ok data h n sip tip ->
  ((18 <= n)%nat -> slice data (h + 16) 2 = [0; 0] ->
   exists c, 0 <= c < 65536 /\ tcp_checksum data (Z.of_nat h) sip tip (Z.of_nat n) = Some c /\
     tcp_checksum (splice data (h + 16) [c mod 256; c / 256]) (Z.of_nat h) sip tip (Z.of_nat n) = Some 0) /\
  ((8 <= n)%nat -> slice data (h + 6) 2 = [0; 0] ->
   exists c, 0 < c < 65536 /\ udp_checksum data (Z.of_nat h) sip tip (Z.of_nat n) = Some c /\
     udp_checksum (splice data (h + 6) [c mod 256; c / 256]) (Z.of_nat h) sip tip (Z.of_nat n) = Some 0xFFFF).
Proof.
  intros Hok. split; intros Hn Hz; unfold tcp_checksum, udp_checksum.
  - destruct (segment_sum 6 _ _ _ _ _ Hok) as [E Ht]. rewrite E. set (t := _ + _) in *.
    assert (0 <= t) as Ht0 by (pose proof (htons_range 6); lia). pose proof (ones_sum_range t Ht0) as Hr.
    exists (65535 - ones_sum t). cbn [mbind option_bind]. rewrite complement_ones by done.
    split; [lia|]. split; [done|].
    rewrite (stored_sum 6 data h n sip tip 16); try done; [by exists 8%nat|lia|].
    left. rewrite E. f_equal. lia.
  - destruct (segment_sum 17 _ _ _ _ _ Hok) as [E Ht]. rewrite E. set (t := _ + _) in *.
    assert (0 <= t) as Ht0 by (pose proof (htons_range 17); lia). pose proof (ones_sum_range t Ht0) as Hr.
    cbn [mbind option_bind]. rewrite complement_ones by done. eexists. split; [|split; [reflexivity|]].
    + destruct (Z.eqb_spec (65535 - ones_sum t) 0); lia.
    + rewrite (stored_sum 17 data h n sip tip 6); try done; [by exists 3%nat| |].
      * destruct (Z.eqb_spec (65535 - ones_sum t) 0); lia.
      * rewrite E. destruct (Z.eqb_spec (65535 - ones_sum t) 0); [right; split; [done|f_equal; lia]|left; f_equal; lia].
Qed.

Lemma segment_checksum_verifies_witness :
  let data := [0; 80; 31; 144; 0; 1; 0; 0; 0; 9; 0; 0; 80; 16; 16; 0; 0; 0; 0; 0; 72; 105] in
  segment_ok data 0 21 [10; 0; 5; 1] [10; 0; 5; 2] /\
  (exists c, tcp_checksum data 0 [10; 0; 5; 1] [10; 0; 5; 2] 21 = Some c /\
    tcp_checksum (splice data 16 [c mod 256; c / 256]) 0 [10; 0; 5; 1] [10; 0; 5; 2] 21 = Some 0) /\
  (exists c, udp_checksum data 0 [10; 0; 5; 1] [10; 0; 5; 2] 21 = Some c /\
    udp_checksum (splice data 6 [c mod 256; c / 256]) 0 [10; 0; 5; 1] [10; 0; 5; 2] 21 = Some 0xFFFF).
Proof.
  cbv zeta. set (data := [0; 80; 31; 144; 0; 1; 0; 0; 0; 9; 0; 0; 80; 16; 16; 0; 0; 0; 0; 0; 72; 105]).
  assert (segment_ok data 0 21 [10; 0; 5; 1] [10; 0; 5; 2]) as Hok.
  { split; [discriminate|vm_compute; lia| |split; [reflexivity|]|split; [reflexivity|]];
      repeat (apply Forall_cons; split; [split; [discriminate|reflexivity]|]); apply Forall_nil; exact I. }
  split; [exact Hok|].
  destruct (segment_checksum_verifies data 0 21 _ _ Hok) as [Ht Hu]. split.
  - destruct (Ht ltac:(lia) eq_refl) as (c & _ & H1 & H2). exists c. split; [exact H1|exact H2].
  - destruct (Hu ltac:(lia) eq_refl) as (c & _ & H1 & H2). exists c. split; [exact H1|exact H2].
Defined.
