(* ===== verification/Socket.v ===== *)
(** * Sockets (src/libz/socket/socket.c)

    A socket keeps the addresses of one endpoint and, for TCP, the connection
    state and the sequence numbers.  [info] is a union whose UDP view, two
    port bytes, overlays the low bytes of the TCP state; the record holds the
    TCP view and [udp_port] reads the overlay (little-endian).  Frames are byte
    objects; [send] appends the first [count] bytes to the list of frames sent.
    The frame buffers on the stack ([char data[SOCKET_MTUSIZE]]) start with
    arbitrary contents, the parameter [stack].  The socket parameters of a call
    are distinct objects. *)
From S2P Require Import Prelude Buffer Cstring Net.

Local Open Scope Z_scope.

Record socket := mk_socket {
  resolved : Z; haddress : list Z; paddress : list Z;
  tcp_state : Z; tcp_seq : Z; tcp_ack : Z; tcp_port : list Z }.

Definition SOCKET_MTUSIZE : Z := 1518.
Definition ETHERNET_TYPE_ARP : Z := 0x0806.
Definition ETHERNET_TYPE_IPV4 : Z := 0x0800.
Definition IPV4_PROTOCOL_ICMP : Z := 0x01.
Definition IPV4_PROTOCOL_TCP : Z := 0x06.
Definition IPV4_PROTOCOL_UDP : Z := 0x11.
Definition FIN : Z := 0x01.
Definition SYN : Z := 0x02.
Definition PSH : Z := 0x08.
Definition ACK : Z := 0x10.
Definition TCP_STATE_LISTEN : Z := 1.
Definition TCP_STATE_SYNSENT : Z := 2.
Definition TCP_STATE_SYNRECEIVED : Z := 3.
Definition TCP_STATE_ESTABLISHED : Z := 4.
Definition TCP_STATE_FINWAIT1 : Z := 5.
Definition TCP_STATE_FINWAIT2 : Z := 6.
Definition TCP_STATE_CLOSING : Z := 8.
Definition TCP_STATE_LASTACK : Z := 9.
Definition TCP_STATE_CLOSED : Z := 11.

Definition set_resolved (s : socket) (x : Z) : socket :=
  mk_socket x (haddress s) (paddress s) (tcp_state s) (tcp_seq s) (tcp_ack s) (tcp_port s).
Definition set_haddress (s : socket) (x : list Z) : socket :=
  mk_socket (resolved s) x (paddress s) (tcp_state s) (tcp_seq s) (tcp_ack s) (tcp_port s).
Definition set_paddress (s : socket) (x : list Z) : socket :=
  mk_socket (resolved s) (haddress s) x (tcp_state s) (tcp_seq s) (tcp_ack s) (tcp_port s).
Definition set_state (s : socket) (x : Z) : socket :=
  mk_socket (resolved s) (haddress s) (paddress s) x (tcp_seq s) (tcp_ack s) (tcp_port s).
Definition set_seq (s : socket) (x : Z) : socket :=
  mk_socket (resolved s) (haddress s) (paddress s) (tcp_state s) (u32 x) (tcp_ack s) (tcp_port s).
Definition set_ack (s : socket) (x : Z) : socket :=
  mk_socket (resolved s) (haddress s) (paddress s) (tcp_state s) (tcp_seq s) (u32 x) (tcp_port s).
Definition set_tcp_port (s : socket) (x : list Z) : socket :=
  mk_socket (resolved s) (haddress s) (paddress s) (tcp_state s) (tcp_seq s) (tcp_ack s) x.

(** The UDP view of the union. *)
Definition udp_port (s : socket) : list Z := [tcp_state s mod 256; tcp_state s / 256 mod 256].
Definition set_udp_port (s : socket) (p : list Z) : socket :=
  set_state s (tcp_state s / 65536 * 65536 + (p !!! 0%nat) + 256 * (p !!! 1%nat)).

(** ** Building frames *)

(** The two bytes of [&checksum]. *)
Definition word_bytes (c : Z) : list Z := [c mod 256; c / 256 mod 256].

Definition buildarp (data : list Z) (ocount : Z) (local remote router : socket) (operation : Z)
    (sha sip tha tip : list Z) : option (list Z * Z) :=
  data ← ethernet_putheader data 0 ETHERNET_TYPE_ARP (haddress local) (haddress router);
  data ← arp_putheader data ethernet_hlen 1 6 ETHERNET_TYPE_IPV4 4 operation;
  let length := ethernet_hlen + arp_hlen in
  '(data, n) ← buffer_write data ocount sha 6 length;
  let length := u32 (length + n) in
  '(data, n) ← buffer_write data ocount sip 4 length;
  let length := u32 (length + n) in
  '(data, n) ← buffer_write data ocount tha 6 length;
  let length := u32 (length + n) in
  '(data, n) ← buffer_write data ocount tip 4 length;
  Some (data, u32 (length + n)).

Definition buildicmp (data : list Z) (ocount : Z) (local remote router : socket) (type code count : Z)
    (buffer : list Z) : option (list Z * Z) :=
  data ← ethernet_putheader data 0 ETHERNET_TYPE_IPV4 (haddress local) (haddress router);
  data ← ipv4_putheader data ethernet_hlen (paddress local) (paddress remote) IPV4_PROTOCOL_ICMP (u32 (4 + count));
  ilen ← ipv4_hlen data ethernet_hlen;
  let h := ethernet_hlen + ilen in
  data ← icmp_putheader data h type code;
  ilen ← ipv4_hlen data ethernet_hlen;
  let length := ethernet_hlen + ilen + icmp_hlen in
  '(data, n) ← buffer_write data ocount buffer count length;
  checksum ← icmp_calculatechecksum data h (u32 (icmp_hlen + count));
  data ← buffer_copy data (h + 2) (word_bytes checksum) 0 2;
  Some (data, u32 (length + n)).

Definition buildtcp (data : list Z) (ocount : Z) (local remote router : socket) (flags window count : Z)
    (buffer : list Z) : option (list Z * Z) :=
  data ← ethernet_putheader data 0 ETHERNET_TYPE_IPV4 (haddress local) (haddress router);
  data ← ipv4_putheader data ethernet_hlen (paddress local) (paddress remote) IPV4_PROTOCOL_TCP (u32 (20 + count));
  ilen ← ipv4_hlen data ethernet_hlen;
  let h := ethernet_hlen + ilen in
  data ← tcp_putheader data h (tcp_port local) (tcp_port remote) flags (tcp_seq remote) (tcp_ack remote) window;
  ilen ← ipv4_hlen data ethernet_hlen;
  tlen ← tcp_hlen data h;
  let length := ethernet_hlen + ilen + tlen in
  '(data, n) ← buffer_write data ocount buffer count length;
  tlen ← tcp_hlen data h;
  checksum ← tcp_checksum data h (paddress local) (paddress remote) (u32 (tlen + count));
  data ← buffer_copy data (h + 16) (word_bytes checksum) 0 2;
  Some (data, u32 (length + n)).

Definition buildudp (data : list Z) (ocount : Z) (local remote router : socket) (count : Z)
    (buffer : list Z) : option (list Z * Z) :=
  data ← ethernet_putheader data 0 ETHERNET_TYPE_IPV4 (haddress local) (haddress router);
  data ← ipv4_putheader data ethernet_hlen (paddress local) (paddress remote) IPV4_PROTOCOL_UDP (u32 (8 + count));
  ilen ← ipv4_hlen data ethernet_hlen;
  let h := ethernet_hlen + ilen in
  data ← udp_putheader data h (udp_port local) (udp_port remote) count;
  ilen ← ipv4_hlen data ethernet_hlen;
  let length := ethernet_hlen + ilen + udp_hlen in
  '(data, n) ← buffer_write data ocount buffer count length;
  checksum ← udp_checksum data h (paddress local) (paddress remote) (u32 (udp_hlen + count));
  data ← buffer_copy data (h + 6) (word_bytes checksum) 0 2;
  Some (data, u32 (length + n)).

(** [send(descriptor, data, build...(data, ...))] *)
Definition send (frame : option (list Z * Z)) (sent : list (list Z)) : option (list (list Z)) :=
  '(data, count) ← frame; Some (sent ++ [take (Z.to_nat count) data]).

(** ** Handlers *)

Section Handlers.
Variable stack : list Z.

(** [handlearp]: [h] is the ARP header and [p] the payload in the frame. *)
Definition handlearp (local remote : socket) (frame : list Z) (h p : Z) : option (socket * list (list Z)) :=
  op ← net_load16 frame (h + 6);
  if op =? 1 then
    hlen ← net_load8 frame (h + 4); plen ← net_load8 frame (h + 5);
    ok ← buffer_match (drop (Z.to_nat (p + hlen + plen + hlen)) frame) (paddress local) 4;
    if ok =? 0 then Some (remote, [])
    else
      ha ← buffer_copy (replicate 6 0) 0 frame p 6;
      pa ← buffer_copy (replicate 4 0) 0 frame (p + hlen) 4;
      let answer := mk_socket 0 ha pa 0 0 0 [0; 0] in
      sent ← send (buildarp stack SOCKET_MTUSIZE local answer answer 2 (haddress local) (paddress local)
                     (drop (Z.to_nat p) frame) (drop (Z.to_nat (p + hlen)) frame)) [];
      Some (remote, sent)
  else if op =? 2 then
    ha ← buffer_copy (haddress remote) 0 frame p 6;
    Some (set_resolved (set_haddress remote ha) 1, [])
  else Some (remote, []).

Definition handleicmp (local remote router : socket) (frame : list Z) (h p psize : Z) : option (list (list Z)) :=
  type ← net_load8 frame h;
  if type =? 8 then
    send (buildicmp stack SOCKET_MTUSIZE local remote router 0 0 psize (drop (Z.to_nat p) frame)) []
  else Some [].

(** [send(descriptor, data, buildtcp(data, SOCKET_MTUSIZE, local, remote, router, flags, 4096, 0, 0))] *)
Definition reply (local remote router : socket) (flags : Z) : option (socket * list (list Z)) :=
  sent ← send (buildtcp stack SOCKET_MTUSIZE local remote router flags 4096 0 []) []; Some (remote, sent).

Definition tcp_listen (local remote router : socket) (frame : list Z) (h : Z) :=
  flags ← rd frame (h + 13);
  if flags =? SYN then
    s ← net_load32 frame (h + 4);
    reply local (set_ack (set_state remote TCP_STATE_SYNRECEIVED) (s + 1)) router (Z.lor ACK SYN)
  else Some (remote, []).

Definition tcp_synsent (local remote router : socket) (frame : list Z) (h : Z) :=
  flags ← rd frame (h + 13);
  if flags =? Z.lor SYN ACK then
    a ← net_load32 frame (h + 8); s ← net_load32 frame (h + 4);
    reply local (set_ack (set_seq (set_state remote TCP_STATE_ESTABLISHED) a) (s + 1)) router ACK
  else if flags =? SYN then
    s ← net_load32 frame (h + 4);
    reply local (set_ack (set_state remote TCP_STATE_SYNRECEIVED) (s + 1)) router ACK
  else Some (remote, []).

Definition tcp_synreceived (remote : socket) (frame : list Z) (h : Z) : option (socket * list (list Z)) :=
  flags ← rd frame (h + 13);
  if flags =? ACK then
    a ← net_load32 frame (h + 8); Some (set_seq (set_state remote TCP_STATE_ESTABLISHED) a, [])
  else Some (remote, []).

Definition tcp_established (local remote router : socket) (frame : list Z) (h psize : Z) :=
  flags ← rd frame (h + 13);
  if (flags =? ACK) || (flags =? Z.lor PSH ACK) then
    a ← net_load32 frame (h + 8); s ← net_load32 frame (h + 4);
    let remote := set_ack (set_seq remote a) (s + psize) in
    if psize =? 0 then Some (remote, []) else reply local remote router ACK
  else if (flags =? Z.lor FIN ACK) || (flags =? Z.lor (Z.lor FIN PSH) ACK) then
    a ← net_load32 frame (h + 8); s ← net_load32 frame (h + 4);
    reply local (set_ack (set_seq (set_state remote TCP_STATE_CLOSED) a) (s + psize + 1)) router ACK
  else Some (remote, []).

Definition tcp_finwait1 (local remote router : socket) (frame : list Z) (h : Z) :=
  flags ← rd frame (h + 13);
  if flags =? ACK then
    a ← net_load32 frame (h + 8); Some (set_seq (set_state remote TCP_STATE_FINWAIT2) a, [])
  else if flags =? FIN then
    s ← net_load32 frame (h + 4);
    reply local (set_ack (set_state remote TCP_STATE_CLOSING) (s + 1)) router ACK
  else Some (remote, []).

(** [TCP_STATE_TIMEWAIT] is overwritten at once. *)
Definition tcp_finwait2 (remote : socket) (frame : list Z) (h : Z) : option (socket * list (list Z)) :=
  flags ← rd frame (h + 13);
  Some (if flags =? FIN then set_state remote TCP_STATE_CLOSED else remote, []).

Definition tcp_closing (remote : socket) (frame : list Z) (h : Z) : option (socket * list (list Z)) :=
  flags ← rd frame (h + 13);
  if flags =? ACK then
    a ← net_load32 frame (h + 8); Some (set_seq (set_state remote TCP_STATE_CLOSED) a, [])
  else Some (remote, []).

Definition tcp_lastack (remote : socket) (frame : list Z) (h : Z) : option (socket * list (list Z)) :=
  flags ← rd frame (h + 13);
  if flags =? ACK then
    a ← net_load32 frame (h + 8); Some (set_seq (set_state remote TCP_STATE_CLOSED) a, [])
  else Some (remote, []).

(** [handletcp]: the socket of the peer and the frames sent; the value
    returned is always [psize]. *)
Definition handletcp (local remote router : socket) (frame : list Z) (h psize : Z)
    : option (socket * list (list Z)) :=
  let st := tcp_state remote in
  if st =? TCP_STATE_LISTEN then tcp_listen local remote router frame h
  else if st =? TCP_STATE_SYNSENT then tcp_synsent local remote router frame h
  else if st =? TCP_STATE_SYNRECEIVED then tcp_synreceived remote frame h
  else if st =? TCP_STATE_ESTABLISHED then tcp_established local remote router frame h psize
  else if st =? TCP_STATE_FINWAIT1 then tcp_finwait1 local remote router frame h
  else if st =? TCP_STATE_FINWAIT2 then tcp_finwait2 remote frame h
  else if st =? TCP_STATE_CLOSING then tcp_closing remote frame h
  else if st =? TCP_STATE_LASTACK then tcp_lastack remote frame h
  else Some (remote, []).

Definition handleudp (psize : Z) : Z := psize.

(** ** Dispatch on received frames *)

Definition socket_handle_arp (local remote : socket) (frame : list Z) : option (socket * list (list Z)) :=
  type ← net_load16 frame 12;
  if type =? ETHERNET_TYPE_ARP then
    handlearp local remote frame ethernet_hlen (ethernet_hlen + arp_hlen)
  else Some (remote, []).

Definition socket_handle_icmp (local remote router : socket) (frame : list Z) : option (list (list Z)) :=
  type ← net_load16 frame 12;
  if type =? ETHERNET_TYPE_IPV4 then
    ilen ← ipv4_hlen frame ethernet_hlen; itot ← ipv4_len frame ethernet_hlen;
    protocol ← net_load8 frame (ethernet_hlen + 9);
    if protocol =? IPV4_PROTOCOL_ICMP then
      let h := ethernet_hlen + ilen in
      handleicmp local remote router frame h (h + icmp_hlen) (u32 (itot - (ilen + icmp_hlen)))
    else Some []
  else Some [].

(** The result: the peer, the frames sent, the output object and the value
    returned. *)
Definition socket_handle_tcp (local remote router : socket) (frame : list Z) (outputcount : Z) (output : list Z)
    : option (socket * list (list Z) * list Z * Z) :=
  type ← net_load16 frame 12;
  if type =? ETHERNET_TYPE_IPV4 then
    ilen ← ipv4_hlen frame ethernet_hlen; itot ← ipv4_len frame ethernet_hlen;
    protocol ← net_load8 frame (ethernet_hlen + 9);
    if protocol =? IPV4_PROTOCOL_TCP then
      let h := ethernet_hlen + ilen in
      tlen ← tcp_hlen frame h;
      tp ← net_load16 frame (h + 2); lp ← net_load16 (tcp_port local) 0;
      if tp =? lp then
        let psize := u32 (itot - (ilen + tlen)) in
        '(remote, sent) ← handletcp local remote router frame h psize;
        if psize =? 0 then Some (remote, sent, output, 0)
        else
          '(output, n) ← buffer_write output outputcount (drop (Z.to_nat (h + tlen)) frame) psize 0;
          Some (remote, sent, output, n)
      else Some (remote, [], output, 0)
    else Some (remote, [], output, 0)
  else Some (remote, [], output, 0).

Definition socket_handle_udp (local : socket) (frame : list Z) (outputcount : Z) (output : list Z)
    : option (list Z * Z) :=
  type ← net_load16 frame 12;
  if type =? ETHERNET_TYPE_IPV4 then
    ilen ← ipv4_hlen frame ethernet_hlen; itot ← ipv4_len frame ethernet_hlen;
    protocol ← net_load8 frame (ethernet_hlen + 9);
    if protocol =? IPV4_PROTOCOL_UDP then
      let h := ethernet_hlen + ilen in
      tp ← net_load16 frame (h + 2); lp ← net_load16 (udp_port local) 0;
      if tp =? lp then
        let psize := u32 (itot - (ilen + udp_hlen)) in
        if handleudp psize =? 0 then Some (output, 0)
        else buffer_write output outputcount (drop (Z.to_nat (h + udp_hlen)) frame) psize 0
      else Some (output, 0)
    else Some (output, 0)
  else Some (output, 0).

(** ** Sending *)

Definition socket_send_tcp (local remote router : socket) (psize : Z) (pdata : list Z)
    : option (list (list Z) * Z) :=
  if tcp_state remote =? TCP_STATE_ESTABLISHED then
    sent ← send (buildtcp stack SOCKET_MTUSIZE local remote router (Z.lor PSH ACK) 4096 psize pdata) [];
    Some (sent, psize)
  else Some ([], 0).

Definition socket_send_udp (local remote router : socket) (psize : Z) (pdata : list Z)
    : option (list (list Z) * Z) :=
  sent ← send (buildudp stack SOCKET_MTUSIZE local remote router psize pdata) []; Some (sent, psize).
End Handlers.

(** ** Choosing the peer of a frame *)

(** The result is the index of the socket returned, [None] for a null pointer,
    and the table of sockets, which learns the address of a new peer. *)
Definition socket_accept_arp (frame : list Z) : option (option nat) :=
  type ← net_load16 frame 12;
  Some (if type =? ETHERNET_TYPE_ARP then Some 0%nat else None).

(** Does the resolved socket [r] with port bytes [port] match the sender of the
    frame (its transport header at [h])? *)
Definition peer_matches (r : socket) (port frame : list Z) (h : Z) : option bool :=
  m1 ← buffer_match (haddress r) (drop 6 frame) 6;
  if m1 =? 0 then Some false else
  m2 ← buffer_match (paddress r) (drop (14 + 12) frame) 4;
  if m2 =? 0 then Some false else
  m3 ← buffer_match port (drop (Z.to_nat h) frame) 2;
  Some (negb (m3 =? 0)).

Fixpoint accept_tcp_loop (remotes : list socket) (frame : list Z) (h : Z) : option (list socket * option nat) :=
  match remotes with
  | [] => Some ([], None)
  | r :: rs =>
      if negb (resolved r =? 0) then
        ok ← peer_matches r (tcp_port r) frame h;
        if (ok : bool) then Some (r :: rs, Some 0%nat)
        else '(rs, i) ← accept_tcp_loop rs frame h; Some (r :: rs, option_map S i)
      else
        ha ← buffer_copy (haddress r) 0 frame 6 6;
        pa ← buffer_copy (paddress r) 0 frame (14 + 12) 4;
        po ← buffer_copy (tcp_port r) 0 frame h 2;
        s ← net_load32 frame (h + 4);
        let r := set_tcp_port (set_paddress (set_haddress r ha) pa) po in
        Some (set_resolved (set_ack r s) 1 :: rs, Some 0%nat)
  end.

Definition socket_accept_tcp (local : socket) (remotes : list socket) (frame : list Z)
    : option (list socket * option nat) :=
  type ← net_load16 frame 12;
  if type =? ETHERNET_TYPE_IPV4 then
    ilen ← ipv4_hlen frame ethernet_hlen;
    protocol ← net_load8 frame (ethernet_hlen + 9);
    if protocol =? IPV4_PROTOCOL_TCP then
      let h := ethernet_hlen + ilen in
      tp ← net_load16 frame (h + 2); lp ← net_load16 (tcp_port local) 0;
      if tp =? lp then accept_tcp_loop remotes frame h else Some (remotes, None)
    else Some (remotes, None)
  else Some (remotes, None).

Fixpoint accept_udp_loop (remotes : list socket) (frame : list Z) (h : Z) : option (list socket * option nat) :=
  match remotes with
  | [] => Some ([], None)
  | r :: rs =>
      if negb (resolved r =? 0) then
        ok ← peer_matches r (udp_port r) frame h;
        if (ok : bool) then Some (r :: rs, Some 0%nat)
        else '(rs, i) ← accept_udp_loop rs frame h; Some (r :: rs, option_map S i)
      else
        ha ← buffer_copy (haddress r) 0 frame 6 6;
        pa ← buffer_copy (paddress r) 0 frame (14 + 12) 4;
        po ← buffer_copy (udp_port r) 0 frame h 2;
        let r := set_udp_port (set_paddress (set_haddress r ha) pa) po in
        Some (set_resolved r 1 :: rs, Some 0%nat)
  end.

Definition socket_accept_udp (local : socket) (remotes : list socket) (frame : list Z)
    : option (list socket * option nat) :=
  type ← net_load16 frame 12;
  if type =? ETHERNET_TYPE_IPV4 then
    ilen ← ipv4_hlen frame ethernet_hlen;
    protocol ← net_load8 frame (ethernet_hlen + 9);
    if protocol =? IPV4_PROTOCOL_UDP then
      let h := ethernet_hlen + ilen in
      tp ← net_load16 frame (h + 2); lp ← net_load16 (udp_port local) 0;
      if tp =? lp then accept_udp_loop remotes frame h else Some (remotes, None)
    else Some (remotes, None)
  else Some (remotes, None).

(** ** The receive loop

    [frames] is what the successive calls of [channel_poll_any] deliver; the
    loop ends when it delivers no more.  The result has the table of peers, the
    frames sent, the output object and the value returned. *)
Section Receive.
Variable stack : list Z.

Fixpoint socket_receive (local : socket) (remotes : list socket) (router : socket) (frames : list (list Z))
    (output : list Z) (count : Z) : option (list socket * list (list Z) * list Z * Z) :=
  match frames with
  | [] => Some (remotes, [], output, 0)
  | frame :: frames =>
      a ← socket_accept_arp frame;
      '(remotes, sent1) ←
        (match a with
         | None => Some (remotes, [])
         | Some i =>
             r ← remotes !! i;
             '(r, sent) ← socket_handle_arp stack local r frame;
             Some (<[i := r]> remotes, sent)
         end);
      '(remotes, a) ← socket_accept_tcp local remotes frame;
      '(remotes, sent2, output, payload, closed) ←
        (match a with
         | None => Some (remotes, [], output, 0, false)
         | Some i =>
             r ← remotes !! i;
             '(r, sent, output, n) ← socket_handle_tcp stack local r router frame count output;
             Some (<[i := r]> remotes, sent, output, n, tcp_state r =? TCP_STATE_CLOSED)
         end);
      if negb (payload =? 0) then Some (remotes, sent1 ++ sent2, output, payload)
      else if (closed : bool) then Some (remotes, sent1 ++ sent2, output, 0)
      else
        '(remotes, a) ← socket_accept_udp local remotes frame;
        '(output, payload) ←
          (match a with
           | None => Some (output, 0)
           | Some _ => socket_handle_udp local frame count output
           end);
        if negb (payload =? 0) then Some (remotes, sent1 ++ sent2, output, payload)
        else
          '(remotes, sent3, output, n) ← socket_receive local remotes router frames output count;
          Some (remotes, sent1 ++ sent2 ++ sent3, output, n)
  end.

(** ** Opening connections *)

Definition socket_listen_tcp (local : socket) (remotes : list socket) : socket * list socket :=
  let local := set_state local TCP_STATE_LISTEN in
  (local, (fun r => set_state r (tcp_state local)) <$> remotes).

(** [while (channel_poll_any(...))]: until the connection is established or no
    more frames come. *)
Fixpoint connect_loop (local remote router : socket) (frames : list (list Z)) (buffer : list Z)
    : option (socket * list (list Z)) :=
  match frames with
  | [] => Some (remote, [])
  | frame :: frames =>
      '(remote, sent1) ← socket_handle_arp stack local remote frame;
      '(remote, sent2, buffer, _) ← socket_handle_tcp stack local remote router frame SOCKET_MTUSIZE buffer;
      if tcp_state remote =? TCP_STATE_ESTABLISHED then Some (remote, sent1 ++ sent2)
      else
        '(remote, sent3) ← connect_loop local remote router frames buffer;
        Some (remote, sent1 ++ sent2 ++ sent3)
  end.

Definition socket_connect_tcp (local remote router : socket) (frames : list (list Z)) (buffer : list Z)
    : option (socket * list (list Z)) :=
  let remote := set_ack (set_state remote TCP_STATE_SYNSENT) 0 in
  sent ← send (buildtcp stack SOCKET_MTUSIZE local remote router SYN 4096 0 []) [];
  '(remote, sent') ← connect_loop local remote router frames buffer;
  Some (remote, sent ++ sent').

Fixpoint resolve_loop (local remote : socket) (frames : list (list Z)) : option (socket * list (list Z)) :=
  match frames with
  | [] => Some (remote, [])
  | frame :: frames =>
      '(remote, sent) ← socket_handle_arp stack local remote frame;
      if negb (resolved remote =? 0) then Some (remote, sent)
      else '(remote, sent') ← resolve_loop local remote frames; Some (remote, sent ++ sent')
  end.

Definition socket_resolveremote (local remote : socket) (frames : list (list Z)) : option (socket * list (list Z)) :=
  let multicast := set_haddress remote [0xFF; 0xFF; 0xFF; 0xFF; 0xFF; 0xFF] in
  sent ← send (buildarp stack SOCKET_MTUSIZE local remote multicast 1 (haddress local) (paddress local)
                 (haddress remote) (paddress remote)) [];
  '(remote, sent') ← resolve_loop local remote frames;
  Some (remote, sent ++ sent').
End Receive.

(** ** Binding *)

Definition socket_init (s : socket) : socket := set_resolved s 0.

Definition socket_bind_ipv4 (s : socket) (address : list Z) : option socket :=
  a ← buffer_copy (paddress s) 0 address 0 4; Some (set_paddress s a).

(** [convert]: the numbers between the dots.  [n] characters are left. *)
Fixpoint convert_loop (n : nat) (buffer address : list Z) (i start k : Z) : option (list Z * Z) :=
  match n with
  | O => Some (address, k)
  | S n =>
      c ← rd buffer i;
      if (c =? 46) || (c =? 0) then
        v ← cstring_read_value (drop (Z.to_nat start) buffer) (u32 (i - start)) 10;
        address ← wr address k (u8 v);
        convert_loop n buffer address (i + 1) (i + 1) (k + 1)
      else convert_loop n buffer address (i + 1) start k
  end.

Definition convert (address buffer : list Z) : option (list Z * Z) :=
  n ← cstring_length_zero buffer; convert_loop (Z.to_nat n) buffer address 0 0 0.

Definition socket_bind_ipv4s (a : list Z) (s : socket) (address : list Z) : option socket :=
  '(a, n) ← convert a address;
  if n =? 4 then socket_bind_ipv4 s a else Some s.

Definition socket_bind_tcp (s : socket) (port : list Z) (seq ack : Z) : option socket :=
  p ← buffer_copy (tcp_port s) 0 port 0 2;
  Some (set_ack (set_seq (set_state (set_tcp_port s p) TCP_STATE_CLOSED) seq) ack).

Definition socket_bind_tcps (p : list Z) (s : socket) (port : list Z) (seq ack : Z) : option socket :=
  n ← cstring_length port; v ← cstring_read_value port n 10;
  p ← net_save16 p 0 v; socket_bind_tcp s p seq ack.

Definition socket_bind_tcpv (p : list Z) (s : socket) (port seq ack : Z) : option socket :=
  p ← net_save16 p 0 port; socket_bind_tcp s p seq ack.

Definition socket_bind_udp (s : socket) (port : list Z) : option socket :=
  p ← buffer_copy (udp_port s) 0 port 0 2; Some (set_udp_port s p).

Definition socket_bind_udps (p : list Z) (s : socket) (port : list Z) : option socket :=
  n ← cstring_length port; v ← cstring_read_value port n 10;
  p ← net_save16 p 0 v; socket_bind_udp s p.

Definition socket_bind_udpv (p : list Z) (s : socket) (port : Z) : option socket :=
  p ← net_save16 p 0 port; socket_bind_udp s p.

(** ** The frames [buildtcp] builds *)

Record sock_ok (s : socket) : Prop := {
  ok_ha : length (haddress s) = 6%nat /\ Forall is_byte (haddress s);
  ok_pa : length (paddress s) = 4%nat /\ Forall is_byte (paddress s);
  ok_po : length (tcp_port s) = 2%nat /\ Forall is_byte (tcp_port s);
  ok_seq : 0 <= tcp_seq s < 2 ^ 32;
  ok_ack : 0 <= tcp_ack s < 2 ^ 32 }.

(** The segment of a peer: its TCP header, with a checksum field, and the
    payload; and the frame around it. *)
Definition segment (local remote : socket) (flags : Z) (check payload : list Z) : list Z :=
  tcp_bytes (tcp_port local) (tcp_port remote) flags (tcp_seq remote) (tcp_ack remote) 4096 check ++ payload.

Definition ip_header (local remote : socket) (n : Z) : list Z :=
  ipv4_bytes (paddress local) (paddress remote) IPV4_PROTOCOL_TCP n
    (ipv4_check (paddress local) (paddress remote) IPV4_PROTOCOL_TCP n).

Definition tcp_frame (local remote router : socket) (flags : Z) (check payload : list Z) : list Z :=
  haddress router ++ haddress local ++ be16 ETHERNET_TYPE_IPV4 ++
  ip_header local remote (20 + Z.of_nat (length payload)) ++ segment local remote flags check payload.

(** The checksum field: the complement of the sum over pseudo header and segment. *)
Definition tcp_check (local remote : socket) (flags : Z) (payload : list Z) : Z :=
  65535 - ones_sum (pseudo_words 6 (paddress local) (paddress remote) (20 + Z.of_nat (length payload)) +
                    wsum (segment local remote flags [0; 0] payload)).

Section Frames.
Context (local remote router : socket) (Hl : sock_ok local) (Hr : sock_ok remote) (Ho : sock_ok router).

Lemma length_ip_header n : length (ip_header local remote n) = 20%nat.
Proof.
  destruct Hl as [_ [Hpl _] _ _ _], Hr as [_ [Hpr _] _ _ _].
  unfold ip_header, ipv4_bytes, ipv4_check. rewrite !length_app, Hpl, Hpr. done.
Qed.

Lemma length_segment flags c0 c1 payload : length (segment local remote flags [c0; c1] payload) = (20 + length payload)%nat.
Proof.
  destruct Hl as [_ _ [Hpl _] _ _], Hr as [_ _ [Hpr _] _ _].
  unfold segment, tcp_bytes. rewrite !length_app, Hpl, Hpr. done.
Qed.

Lemma length_tcp_frame flags c0 c1 payload :
  length (tcp_frame local remote router flags [c0; c1] payload) = (54 + length payload)%nat.
Proof.
  destruct Hl as [[Hhl _] _ _ _ _], Ho as [[Hho _] _ _ _ _].
  unfold tcp_frame. rewrite !length_app, Hhl, Hho, length_ip_header, length_segment. cbn [be16 length]. lia.
Qed.

Lemma be_bytes_ok v : Forall is_byte (be16 v) /\ Forall is_byte (be32 v).
Proof.
  unfold be16, be32, is_byte.
  split; repeat (apply Forall_cons; split; [apply Z.mod_pos_bound; lia|]); by apply Forall_nil.
Qed.

Lemma segment_bytes_ok flags c0 c1 payload :
  is_byte c0 -> is_byte c1 -> Forall is_byte payload -> Forall is_byte (segment local remote flags [c0; c1] payload).
Proof.
  intros H0 H1 Hp. destruct Hl as [_ _ [_ Hpl] _ _], Hr as [_ _ [_ Hpr] _ _]. pose proof (u8_range flags).
  unfold segment, tcp_bytes. repeat (apply Forall_app; split); try done; try apply be_bytes_ok;
    repeat (apply Forall_cons; split; [unfold is_byte in *; lia|]); by apply Forall_nil.
Qed.

Lemma ip_header_ok n : Forall is_byte (ip_header local remote n).
Proof.
  destruct Hl as [_ [_ Hpl] _ _ _], Hr as [_ [_ Hpr] _ _ _].
  destruct (ipv4_check_ok (paddress local) (paddress remote) IPV4_PROTOCOL_TCP n Hpl Hpr) as (_ & H0 & H1).
  unfold ip_header, ipv4_check. by apply ipv4_bytes_ok.
Qed.

Lemma ip_version n : ip_header local remote n !! 0%nat = Some 0x45.
Proof. reflexivity. Qed.

Lemma room_fits (ocount icount offset : Z) :
  0 <= icount -> offset + icount <= ocount -> 0 < ocount - offset -> room ocount icount offset = icount.
Proof. intros. unfold room. destruct (Z.leb_spec ocount offset); lia. Qed.

(** Appending to what lies at the start of the buffer. *)
Lemma write_end (stack pre xs : list Z) :
  (length pre + length xs <= length stack)%nat ->
  splice (splice stack 0 pre) (length pre) xs = splice stack 0 (pre ++ xs).
Proof. intros H. by rewrite <- (splice_app stack 0 pre xs) by lia. Qed.

Lemma rd_prefix (stack pre : list Z) (k : nat) (z v : Z) :
  (length pre <= length stack)%nat -> z = Z.of_nat k -> pre !! k = Some v -> rd (splice stack 0 pre) z = Some v.
Proof.
  intros H -> Hk. pose proof (rd_splice stack 0 pre k) as E. cbn [Nat.add] in E.
  rewrite E; [done|lia|]. by apply lookup_lt_Some in Hk.
Qed.

(** Changing the checksum field in the finished frame. *)
Lemma set_check flags payload c0 c1 :
  splice (tcp_frame local remote router flags [0; 0] payload) 50 [c0; c1] =
    tcp_frame local remote router flags [c0; c1] payload.
Proof.
  destruct Hl as [[Hhl _] [Hpl _] [Hpol _] _ _], Hr as [_ [Hpr _] [Hpor _] _ _], Ho as [[Hho _] _ _ _ _].
  unfold tcp_frame, segment, tcp_bytes.
  set (A := haddress router ++ haddress local ++ be16 ETHERNET_TYPE_IPV4 ++
            ip_header local remote (20 + Z.of_nat (length payload)) ++
            tcp_port local ++ tcp_port remote ++ be32 (tcp_seq remote) ++ be32 (tcp_ack remote) ++
            [80; u8 flags] ++ be16 4096).
  assert (length A = 50%nat) as HA.
  { unfold A. rewrite !length_app, Hhl, Hho, length_ip_header, Hpol, Hpor. done. }
  assert (forall c, haddress router ++ haddress local ++ be16 ETHERNET_TYPE_IPV4 ++
     ip_header local remote (20 + Z.of_nat (length payload)) ++
     (tcp_port local ++ tcp_port remote ++ be32 (tcp_seq remote) ++ be32 (tcp_ack remote) ++
      [80; u8 flags] ++ be16 4096 ++ c ++ [0; 0]) ++ payload = A ++ c ++ [0; 0] ++ payload) as E.
  { intros c. unfold A. by rewrite <- !app_assoc. }
  rewrite !E. unfold splice. rewrite <- HA at 1. rewrite take_app_length. f_equal. f_equal.
  cbn [length app]. replace (50 + 2)%nat with (length (A ++ [0; 0])) by (rewrite length_app, HA; done).
  change (0 :: 0 :: 0 :: 0 :: payload) with ([0; 0] ++ 0 :: 0 :: payload).
  by rewrite app_assoc, drop_app_length.
Qed.

Section Build.
Context (stack : list Z) (Hstack : length stack = Z.to_nat SOCKET_MTUSIZE) (Hbytes : Forall is_byte stack).

(** Ethernet and IPv4 headers go to the start of the buffer. *)
Definition link_headers (n : Z) : list Z :=
  haddress router ++ haddress local ++ be16 ETHERNET_TYPE_IPV4 ++ ip_header local remote n.

Lemma length_link_headers n : length (link_headers n) = 34%nat.
Proof.
  destruct Hl as [[Hhl _] _ _ _ _], Ho as [[Hho _] _ _ _ _].
  unfold link_headers. rewrite !length_app, Hhl, Hho, length_ip_header. done.
Qed.

Lemma link_headers_spec n :
  0 <= n < 65516 ->
  (data ← ethernet_putheader stack 0 ETHERNET_TYPE_IPV4 (haddress local) (haddress router);
   ipv4_putheader data ethernet_hlen (paddress local) (paddress remote) IPV4_PROTOCOL_TCP n) =
    Some (splice stack 0 (link_headers n)).
Proof.
  intros Hn. destruct Hl as [[Hhl Hhlb] [Hpl Hplb] _ _ _], Hr as [_ [Hpr Hprb] _ _ _], Ho as [[Hho Hhob] _ _ _ _].
  pose proof Hstack as Hs. unfold SOCKET_MTUSIZE in Hs.
  unfold ethernet_putheader. change 0 with (Z.of_nat 0) at 1.
  rewrite ethernet_initheader_spec by (done || lia). cbn [mbind option_bind].
  set (E := haddress router ++ haddress local ++ be16 ETHERNET_TYPE_IPV4).
  assert (length E = 14%nat) as HE by (unfold E; rewrite !length_app, Hhl, Hho; done).
  unfold ipv4_putheader. change (u8 IPV4_PROTOCOL_TCP) with IPV4_PROTOCOL_TCP. rewrite u16_small by lia.
  change ethernet_hlen with (Z.of_nat 14). rewrite ipv4_initheader_spec; try done.
  - fold (ip_header local remote n). rewrite <- HE at 1. rewrite write_end by (rewrite HE, length_ip_header; lia).
    unfold E, link_headers. by rewrite <- !app_assoc.
  - rewrite length_splice by lia. lia.
  - apply Forall_splice; [done|]. unfold E. repeat (apply Forall_app; split); try done. apply be_bytes_ok.
Qed.

Lemma link_version n pre :
  (length pre <= 1484)%nat -> ipv4_hlen (splice stack 0 (link_headers n ++ pre)) ethernet_hlen = Some 20.
Proof.
  intros Hp. pose proof (length_link_headers n) as Hlen. pose proof Hstack as Hs. unfold SOCKET_MTUSIZE in Hs.
  unfold ipv4_hlen, net_load8. rewrite (rd_prefix stack _ 14 _ 0x45); [done| |done|].
  - rewrite length_app. lia.
  - destruct Hl as [[Hhl _] _ _ _ _], Ho as [[Hho _] _ _ _ _]. unfold link_headers.
    rewrite !app_assoc, <- app_assoc. rewrite lookup_app_r; rewrite !length_app, Hhl, Hho; [|cbn; lia].
    reflexivity.
Qed.

Lemma bind_two {A B C} (a : option A) (f : A -> option B) (k : B -> option C) r :
  (x ← a; f x) = Some r -> (x ← a; y ← f x; k y) = k r.
Proof. destruct a; [|done]. cbn [mbind option_bind]. by intros ->. Qed.

Lemma tcp_check_range flags payload :
  Forall is_byte payload ->
  let t := pseudo_words 6 (paddress local) (paddress remote) (20 + Z.of_nat (length payload)) +
           wsum (segment local remote flags [0; 0] payload) in
  0 < t /\ 0 <= tcp_check local remote flags payload < 65536.
Proof.
  intros Hp t. destruct Hl as [_ [_ Hpl] _ _ _], Hr as [_ [_ Hpr] _ _ _].
  assert (0 < t) as Ht.
  { unfold t, pseudo_words. pose proof (htons_range (20 + Z.of_nat (length payload))).
    pose proof (wsum_nonneg _ Hpl). pose proof (wsum_nonneg _ Hpr).
    assert (0 <= wsum (segment local remote flags [0; 0] payload)).
    { apply wsum_nonneg, segment_bytes_ok; unfold is_byte; (done || lia). }
    change (htons 6) with 1536. lia. }
  split; [done|]. unfold tcp_check. fold t. pose proof (ones_sum_range t ltac:(lia)). lia.
Qed.

(** The checksum [buildtcp] computes over the segment in the buffer. *)
Lemma tcp_frame_check flags payload L T :
  Forall is_byte payload -> 54 + Z.of_nat (length payload) < SOCKET_MTUSIZE ->
  L = link_headers (20 + Z.of_nat (length payload)) ->
  T = tcp_bytes (tcp_port local) (tcp_port remote) flags (tcp_seq remote) (tcp_ack remote) 4096 [0; 0] ->
  tcp_checksum (splice stack 0 (L ++ T ++ payload)) (Z.of_nat 34) (paddress local) (paddress remote)
    (20 + Z.of_nat (length payload)) = Some (tcp_check local remote flags payload).
Proof.
  intros Hp Hn -> ->. pose proof Hstack as Hs. unfold SOCKET_MTUSIZE in Hs, Hn.
  destruct (tcp_check_range flags payload Hp) as [Ht Hc].
  pose proof (length_link_headers (20 + Z.of_nat (length payload))) as HL.
  set (L := link_headers _) in *.
  change (tcp_bytes _ _ _ _ _ _ _ ++ payload) with (segment local remote flags [0; 0] payload).
  pose proof (length_segment flags 0 0 payload) as HS. set (S := segment _ _ _ _ _) in *.
  set (n := length payload) in *. unfold tcp_checksum.
  replace (20 + Z.of_nat n) with (Z.of_nat (20 + n)) by lia.
  pose proof (Nat.mod_upper_bound (20 + n) 2 ltac:(lia)).
  destruct Hl as [[Hhl Hhlb] [Hpl Hplb] _ _ _], Hr as [_ [Hpr Hprb] _ _ _], Ho as [[Hho Hhob] _ _ _ _].
  assert (length (splice stack 0 (L ++ S)) = length stack) as Hlen by (apply length_splice; rewrite length_app; lia).
  rewrite pseudo_sum_spec; try done; try lia.
  - assert (slice (splice stack 0 (L ++ S)) 34 (20 + n) = S) as ->.
    { unfold slice. rewrite splice_0, <- app_assoc. rewrite <- HL, drop_app_length, <- HS. by rewrite take_app_length. }
    replace (Z.of_nat (20 + n)) with (20 + Z.of_nat n) by lia. cbn [mbind option_bind].
    by rewrite complement_ones by (apply ones_sum_range; lia).
  - apply Forall_splice; [done|]. apply Forall_app. split.
    + unfold L, link_headers. do 3 (apply Forall_app; split; [first [done|apply be_bytes_ok]|]). apply ip_header_ok.
    + apply segment_bytes_ok; unfold is_byte; (done || lia).
Qed.

(** The whole frame: [buildtcp] fills the start of the buffer with it. *)
Lemma buildtcp_spec flags payload :
  Forall is_byte payload -> 54 + Z.of_nat (length payload) < SOCKET_MTUSIZE ->
  let c := tcp_check local remote flags payload in
  buildtcp stack SOCKET_MTUSIZE local remote router flags 4096 (Z.of_nat (length payload)) payload =
    Some (splice stack 0 (tcp_frame local remote router flags [c mod 256; c / 256] payload),
          54 + Z.of_nat (length payload)).
Proof.
  intros Hp Hn c. pose proof Hstack as Hs. unfold SOCKET_MTUSIZE in Hs, Hn.
  destruct Hl as [_ [Hpl Hplb] [Hpol _] _ _], Hr as [_ [Hpr Hprb] [Hpor _] _ _].
  destruct (tcp_check_range flags payload Hp) as [_ Hc]. fold c in Hc.
  set (n := length payload) in *. unfold buildtcp. rewrite (u32_small (20 + Z.of_nat n)) by lia.
  rewrite (bind_two _ _ _ _ (link_headers_spec (20 + Z.of_nat n) ltac:(lia))).
  set (L := link_headers (20 + Z.of_nat n)). pose proof (length_link_headers (20 + Z.of_nat n)) as HL. fold L in HL.
  set (T := tcp_bytes (tcp_port local) (tcp_port remote) flags (tcp_seq remote) (tcp_ack remote) 4096 [0; 0]).
  assert (length T = 20%nat) as HT by (unfold T, tcp_bytes; rewrite !length_app, Hpol, Hpor; done).
  assert (forall pre, (length pre <= 1484)%nat -> ipv4_hlen (splice stack 0 (L ++ pre)) ethernet_hlen = Some 20) as Hv
    by (intros pre; apply link_version).
  pose proof (Hv [] ltac:(cbn; lia)) as Hv0. rewrite app_nil_r in Hv0. rewrite Hv0. cbn [mbind option_bind].
  change (ethernet_hlen + 20) with (Z.of_nat 34). 
  assert (forall d, d = splice stack 0 L -> tcp_putheader d (Z.of_nat 34) (tcp_port local) (tcp_port remote) flags (tcp_seq remote)
    (tcp_ack remote) 4096 = Some (splice stack 0 (L ++ T))) as Hput.
  { intros d ->. rewrite tcp_putheader_spec by (try done; rewrite length_splice; lia). fold T.
    rewrite <- HL at 1. by rewrite write_end by lia. }
  rewrite Hput by done. clear Hput. cbn [mbind option_bind]. rewrite (Hv T) by lia. cbn [mbind option_bind].
  assert (forall pre, (length pre <= 1464)%nat -> tcp_hlen (splice stack 0 (L ++ T ++ pre)) (Z.of_nat 34) = Some 20) as Ht.
  { intros pre Hpre. unfold tcp_hlen. rewrite (rd_prefix stack _ 46 _ 80); [done| |done|].
    - rewrite !length_app. lia.
    - rewrite lookup_app_r by lia. rewrite HL. rewrite lookup_app_l by lia.
      unfold T, tcp_bytes. do 2 (rewrite lookup_app_r by lia; rewrite ?Hpol, ?Hpor). reflexivity. }
  pose proof (Ht [] ltac:(cbn; lia)) as Ht0. rewrite app_nil_r in Ht0. rewrite Ht0. cbn [mbind option_bind].
  change (ethernet_hlen + 20 + 20) with 54.
  rewrite buffer_write_spec; try lia; [|unfold SOCKET_MTUSIZE, max32; lia|
    rewrite length_splice; rewrite ?length_app; unfold SOCKET_MTUSIZE; lia].
  rewrite room_fits by (unfold SOCKET_MTUSIZE; lia). cbn [mbind option_bind].
  replace (take (Z.to_nat (Z.of_nat n)) payload) with payload by (rewrite Nat2Z.id; unfold n; by rewrite firstn_all).
  change (Z.to_nat 54) with 54%nat.
  assert (length (L ++ T) = 54%nat) as HLT by (rewrite length_app; lia).
  assert (splice (splice stack 0 (L ++ T)) 54 payload = splice stack 0 (L ++ T ++ payload)) as HW.
  { rewrite <- HLT at 1. rewrite write_end by (fold n; lia). by rewrite <- app_assoc. }
  rewrite !HW. clear HW. rewrite (Ht payload) by (fold n; lia). cbn [mbind option_bind].
  rewrite (u32_small (20 + _)), (u32_small (54 + _)) by lia.
  pose proof (tcp_frame_check flags payload L T Hp Hn eq_refl eq_refl) as Hck. fold n in Hck. rewrite Hck.
  cbn [mbind option_bind]. fold c. change (Z.of_nat 34 + 16) with (Z.of_nat 50).
  assert (length (L ++ T ++ payload) = 54 + n)%nat as HLTp by (rewrite app_assoc, length_app, HLT; done).
  rewrite buffer_copy_splice by (try reflexivity; rewrite length_splice; cbn [word_bytes length]; lia).
  cbn [mbind option_bind]. rewrite (splice_inside stack 0 _ 50) by (cbn [word_bytes length]; lia).
  unfold word_bytes. rewrite (Z.mod_small (c / 256)) by zmod. rewrite <- set_check. do 3 f_equal.
  unfold L, T, link_headers, tcp_frame, segment. fold n. by rewrite <- !app_assoc.
Qed.

End Build.
End Frames.

(** ** Reading a frame *)

Lemma slice_rd obj (k : nat) xs (j : nat) v :
  slice obj k (length xs) = xs -> xs !! j = Some v -> rd obj (Z.of_nat (k + j)) = Some v.
Proof.
  intros Hs Hj. rewrite rd_nat, <- lookup_drop. rewrite <- Hs in Hj. unfold slice in Hj.
  rewrite lookup_take_Some in Hj. apply Hj.
Qed.

Lemma net_load16_at obj (k : nat) v :
  slice obj k 2 = be16 v -> 0 <= v < 65536 -> net_load16 obj (Z.of_nat k) = Some v.
Proof.
  intros Hs Hv. unfold net_load16.
  pose proof (slice_rd obj k (be16 v) 0 _ Hs eq_refl) as H0. rewrite Nat.add_0_r in H0. rewrite H0.
  replace (Z.of_nat k + 1) with (Z.of_nat (k + 1)) by lia.
  rewrite (slice_rd obj k (be16 v) 1 _ Hs eq_refl). cbn [mbind option_bind]. f_equal.
  rewrite lor_shift by (try lia; change (2 ^ 8) with 256; zmod). change (2 ^ 8) with 256. unfold u16. zmod.
Qed.

Lemma net_load32_at obj (k : nat) v :
  slice obj k 4 = be32 v -> 0 <= v < 2 ^ 32 -> net_load32 obj (Z.of_nat k) = Some v.
Proof.
  intros Hs Hv. unfold net_load32.
  pose proof (slice_rd obj k (be32 v) 0 _ Hs eq_refl) as H0. rewrite Nat.add_0_r in H0. rewrite H0.
  replace (Z.of_nat k + 1) with (Z.of_nat (k + 1)) by lia. replace (Z.of_nat k + 2) with (Z.of_nat (k + 2)) by lia.
  replace (Z.of_nat k + 3) with (Z.of_nat (k + 3)) by lia.
  rewrite (slice_rd obj k (be32 v) 1 _ Hs eq_refl), (slice_rd obj k (be32 v) 2 _ Hs eq_refl),
    (slice_rd obj k (be32 v) 3 _ Hs eq_refl). cbn [mbind option_bind]. f_equal.
  set (b3 := v / 16777216 mod 256). set (b2 := v / 65536 mod 256). set (b1 := v / 256 mod 256). set (b0 := v mod 256).
  assert (0 <= b3 < 256 /\ 0 <= b2 < 256 /\ 0 <= b1 < 256 /\ 0 <= b0 < 256) as (? & ? & ? & ?)
    by (repeat split; apply Z.mod_pos_bound; lia).
  replace (Z.lor (Z.lor (Z.lor (b3 ≪ 24) (b2 ≪ 16)) (b1 ≪ 8)) b0)
    with (Z.lor (Z.lor (Z.lor (b3 ≪ 8) b2 ≪ 8) b1 ≪ 8) b0)
    by (rewrite !Z.shiftl_lor, !Z.shiftl_shiftl by lia; reflexivity).
  rewrite !lor_shift by (try lia; change (2 ^ 8) with 256; lia). change (2 ^ 8) with 256.
  unfold u32, b3, b2, b1, b0. zmod.
Qed.

(** The fields of a received frame, whatever follows it in the buffer. *)
Record frame_reads (local remote : socket) (flags : Z) (payload obj tail : list Z) : Prop := {
  fr_type : net_load16 obj 12 = Some ETHERNET_TYPE_IPV4;
  fr_ihlen : ipv4_hlen obj ethernet_hlen = Some 20;
  fr_ilen : ipv4_len obj ethernet_hlen = Some (40 + Z.of_nat (length payload));
  fr_protocol : net_load8 obj (ethernet_hlen + 9) = Some IPV4_PROTOCOL_TCP;
  fr_tlen : tcp_hlen obj 34 = Some 20;
  fr_flags : rd obj (34 + 13) = Some (u8 flags);
  fr_seq : net_load32 obj (34 + 4) = Some (tcp_seq remote);
  fr_ack : net_load32 obj (34 + 8) = Some (tcp_ack remote);
  fr_tp : net_load16 obj (34 + 2) = net_load16 (tcp_port remote) 0;
  fr_sha : slice obj 6 6 = haddress local;
  fr_sip : slice obj 26 4 = paddress local;
  fr_sp : slice obj 34 2 = tcp_port local;
  fr_payload : drop 54 obj = payload ++ tail }.

Lemma tcp_frame_reads local remote router flags c0 c1 payload tail :
  sock_ok local -> sock_ok remote -> sock_ok router -> 40 + Z.of_nat (length payload) < 65536 ->
  frame_reads local remote flags payload (tcp_frame local remote router flags [c0; c1] payload ++ tail) tail.
Proof.
  intros [[Hhl _] [Hpl _] [Hpol _] _ _] [_ [Hpr _] [Hpor _] Hseq Hack] [[Hho _] _ _ _ _] Hn.
  unfold tcp_frame, segment, ip_header, ipv4_check. destruct local, remote, router. cbn in *.
  set (c := 65535 - _). clearbody c.
  explicit haddress0. explicit haddress2. explicit paddress0. explicit paddress1. explicit tcp_port0. explicit tcp_port1.
  unfold ipv4_bytes, tcp_bytes. set (n := 20 + Z.of_nat (length payload)).
  set (obj := (_ ++ _) ++ tail).
  split; try reflexivity.
  - apply (net_load16_at obj 16 (40 + Z.of_nat (length payload))); [|lia].
    replace (40 + Z.of_nat (length payload)) with (u32 (n + 20)) by (unfold n; rewrite u32_small; lia). reflexivity.
  - apply (net_load32_at obj 38); [reflexivity|done].
  - apply (net_load32_at obj 42); [reflexivity|done].
Qed.

(** ** Handling a frame *)

Section Handling.
Context (stack : list Z) (Hstack : length stack = Z.to_nat SOCKET_MTUSIZE) (Hbytes : Forall is_byte stack).

(** The frame a socket sends for its peer. *)
Definition frame_of (local remote router : socket) (flags : Z) (payload : list Z) : list Z :=
  let c := tcp_check local remote flags payload in
  tcp_frame local remote router flags [c mod 256; c / 256] payload.

Lemma send_frame local remote router flags payload :
  sock_ok local -> sock_ok remote -> sock_ok router -> Forall is_byte payload ->
  54 + Z.of_nat (length payload) < SOCKET_MTUSIZE ->
  send (buildtcp stack SOCKET_MTUSIZE local remote router flags 4096 (Z.of_nat (length payload)) payload) [] =
    Some [frame_of local remote router flags payload].
Proof.
  intros Hl Hr Ho Hp Hn. unfold send, frame_of.
  rewrite (buildtcp_spec local remote router Hl Hr Ho stack Hstack Hbytes) by done.
  cbn [mbind option_bind app]. do 2 f_equal.
  pose proof (length_tcp_frame local remote router Hl Hr Ho flags
    (tcp_check local remote flags payload mod 256) (tcp_check local remote flags payload / 256) payload) as Hlen.
  replace (Z.to_nat (54 + Z.of_nat (length payload))) with (54 + length payload)%nat by lia.
  rewrite splice_0, <- Hlen. apply take_app_length.
Qed.

Lemma reply_spec local remote router flags :
  sock_ok local -> sock_ok remote -> sock_ok router ->
  reply stack local remote router flags = Some (remote, [frame_of local remote router flags []]).
Proof.
  intros Hl Hr Ho. unfold reply. pose proof (send_frame local remote router flags [] Hl Hr Ho) as H.
  change (Z.of_nat (length [])) with 0 in H. rewrite H by done. done.
Qed.

(** [socket_handle_tcp] on a frame of another socket ([src], sending to [dst]) that
    carries the port of [local]. *)
Lemma handle_frame src dst flags payload obj tail local remote router ocount output :
  frame_reads src dst flags payload obj tail -> tcp_port dst = tcp_port local ->
  length (tcp_port local) = 2%nat -> 40 + Z.of_nat (length payload) < 65536 ->
  socket_handle_tcp stack local remote router obj ocount output =
    ('(remote, sent) ← handletcp stack local remote router obj 34 (Z.of_nat (length payload));
     if Z.of_nat (length payload) =? 0 then Some (remote, sent, output, 0)
     else '(output, n) ← buffer_write output ocount (payload ++ tail) (Z.of_nat (length payload)) 0;
          Some (remote, sent, output, n)).
Proof.
  intros [Ht Hil Hlen Hp Htl Hf Hsq Hak Htp _ _ _ Hpay] Hport Hpl Hn.
  unfold socket_handle_tcp. rewrite Ht. cbn [mbind option_bind]. rewrite Z.eqb_refl, Hil, Hlen, Hp.
  cbn [mbind option_bind]. rewrite Z.eqb_refl. change (ethernet_hlen + 20) with 34. rewrite Htl, Htp, Hport.
  cbn [mbind option_bind]. remember (tcp_port local) as po eqn:Epo. destruct po as [|p0 [|p1 [|]]]; try done.
  cbn [mbind option_bind net_load16 rd]. change (net_load16 [p0; p1] 0) with (Some (u16 (Z.lor (p0 ≪ 8) p1))).
  cbn [mbind option_bind]. rewrite Z.eqb_refl.
  replace (u32 (40 + Z.of_nat (length payload) - (20 + 20))) with (Z.of_nat (length payload))
    by (rewrite u32_small; lia).
  change (Z.to_nat (34 + 20)) with 54%nat. by rewrite Hpay.
Qed.

Lemma sock_ok_ack s x : sock_ok s -> sock_ok (set_ack s x).
Proof. intros [? ? ? ? ?]. split; try done. apply u32_range. Qed.
Lemma sock_ok_seq s x : sock_ok s -> sock_ok (set_seq s x).
Proof. intros [? ? ? ? ?]. split; try done. apply u32_range. Qed.
Lemma sock_ok_state s x : sock_ok s -> sock_ok (set_state s x).
Proof. by intros [? ? ? ? ?]. Qed.
End Handling.

Create HintDb sockets.
#[export] Hint Resolve sock_ok_ack sock_ok_seq sock_ok_state : sockets.

(** ** Choosing the peer *)

(** What the table learns from the first frame of a peer. *)
Definition learn (r src dst : socket) : socket :=
  mk_socket 1 (haddress src) (paddress src) (tcp_state r) (tcp_seq r) (tcp_seq dst) (tcp_port src).

Lemma copy_field (old obj : list Z) (o n : nat) :
  length old = n -> (o + n <= length obj)%nat -> buffer_copy old 0 obj (Z.of_nat o) (Z.of_nat n) = Some (slice obj o n).
Proof.
  intros Ho Hn. rewrite buffer_copy_spec by lia. f_equal. rewrite !Nat2Z.id. apply splice_whole.
  rewrite length_slice; lia.
Qed.

Lemma slice_length_room (obj xs : list Z) (o n : nat) :
  (0 < n)%nat -> slice obj o n = xs -> length xs = n -> (o + n <= length obj)%nat.
Proof. intros Hn <- H. unfold slice in H. rewrite length_take, length_drop in H. lia. Qed.

(** An unused entry of the table takes the peer over. *)
Lemma accept_new src dst flags payload obj tail r rs :
  frame_reads src dst flags payload obj tail -> sock_ok src -> sock_ok dst -> sock_ok r -> resolved r = 0 ->
  accept_tcp_loop (r :: rs) obj 34 = Some (learn r src dst :: rs, Some 0%nat).
Proof.
  intros [_ _ _ _ _ _ Hsq _ _ Hsha Hsip Hsp _] [[Hh _] [Hp _] [Hpo _] _ _] [_ _ _ Hseq _] [[Hrh _] [Hrp _] [Hrpo _] _ _] Hres.
  cbn [accept_tcp_loop]. rewrite Hres. cbn [Z.eqb negb].
  change (buffer_copy (haddress r) 0 obj 6 6) with (buffer_copy (haddress r) 0 obj (Z.of_nat 6) (Z.of_nat 6)).
  rewrite (copy_field (haddress r) obj 6 6) by (first [done | eapply slice_length_room; [|exact Hsha|]; (done || lia)]).
  cbn [mbind option_bind].
  change (buffer_copy (paddress r) 0 obj (14 + 12) 4) with (buffer_copy (paddress r) 0 obj (Z.of_nat 26) (Z.of_nat 4)).
  rewrite (copy_field (paddress r) obj 26 4) by (first [done | eapply slice_length_room; [|exact Hsip|]; (done || lia)]).
  cbn [mbind option_bind].
  change (buffer_copy (tcp_port r) 0 obj 34 2) with (buffer_copy (tcp_port r) 0 obj (Z.of_nat 34) (Z.of_nat 2)).
  rewrite (copy_field (tcp_port r) obj 34 2) by (first [done | eapply slice_length_room; [|exact Hsp|]; (done || lia)]).
  cbn [mbind option_bind]. rewrite Hsq. cbn [mbind option_bind]. rewrite Hsha, Hsip, Hsp.
  do 3 f_equal. unfold set_resolved, set_ack, set_tcp_port, set_paddress, set_haddress, learn. cbn.
  by rewrite u32_small.
Qed.

(** The entry of a known peer is found again. *)
Definition peer_of (r src : socket) : Prop :=
  resolved r <> 0 /\ haddress r = haddress src /\ paddress r = paddress src /\ tcp_port r = tcp_port src.

Lemma match_field (f obj : list Z) (o n : nat) :
  (0 < n)%nat -> length f = n -> slice obj o n = f -> buffer_match f (drop o obj) (Z.of_nat n) = Some 1.
Proof.
  intros Hn Hl Hs. assert (o + n <= length obj)%nat by (eapply slice_length_room; eauto).
  rewrite buffer_match_spec; rewrite ?length_drop; try lia. f_equal. rewrite decide_True; [done|].
  rewrite Nat2Z.id. rewrite (take_ge f) by lia. by unfold slice in Hs.
Qed.

Lemma accept_known src dst flags payload obj tail r rs :
  frame_reads src dst flags payload obj tail -> sock_ok src -> peer_of r src ->
  accept_tcp_loop (r :: rs) obj 34 = Some (r :: rs, Some 0%nat).
Proof.
  intros [_ _ _ _ _ _ _ _ _ Hsha Hsip Hsp _] [[Hh _] [Hp _] [Hpo _] _ _] (Hres & Eh & Ep & Epo).
  cbn [accept_tcp_loop]. rewrite (proj2 (Z.eqb_neq _ _) Hres). cbn [negb]. unfold peer_matches.
  rewrite Eh, Ep, Epo.
  pose proof (match_field (haddress src) obj 6 6 ltac:(lia) Hh Hsha) as H1.
  pose proof (match_field (paddress src) obj 26 4 ltac:(lia) Hp Hsip) as H2.
  pose proof (match_field (tcp_port src) obj 34 2 ltac:(lia) Hpo Hsp) as H3.
  change (Z.of_nat 6) with 6 in H1. change (Z.of_nat 4) with 4 in H2. change (Z.of_nat 2) with 2 in H3.
  rewrite H1. cbn [mbind option_bind Z.eqb]. change (14 + 12)%nat with 26%nat. rewrite H2. cbn [mbind option_bind Z.eqb].
  change (Z.to_nat 34) with 34%nat. rewrite H3. reflexivity.
Qed.

Section Exchange.
Context (stack : list Z) (Hstack : length stack = Z.to_nat SOCKET_MTUSIZE) (Hbytes : Forall is_byte stack).

(** Receiving one TCP frame for the first entry of the table. *)
Lemma receive_frame src dst flags payload obj tail local remotes router r rs output count :
  frame_reads src dst flags payload obj tail -> tcp_port dst = tcp_port local -> length (tcp_port local) = 2%nat ->
  accept_tcp_loop remotes obj 34 = Some (r :: rs, Some 0%nat) ->
  socket_receive stack local remotes router [obj] output count =
    ('(r, sent, output, n) ← socket_handle_tcp stack local r router obj count output;
     Some (r :: rs, sent, output, n)).
Proof.
  intros [Ht Hil Hlen Hp Htl Hf Hsq Hak Htp _ _ _ Hpay] Hport Hpl Hacc.
  cbn [socket_receive]. unfold socket_accept_arp. rewrite Ht. cbn [mbind option_bind].
  change (ETHERNET_TYPE_IPV4 =? ETHERNET_TYPE_ARP) with false. cbv iota. cbn [mbind option_bind].
  assert (socket_accept_tcp local remotes obj = Some (r :: rs, Some 0%nat)) as ->.
  { unfold socket_accept_tcp. rewrite Ht. cbn [mbind option_bind]. rewrite Z.eqb_refl, Hil, Hp. cbn [mbind option_bind].
    rewrite Z.eqb_refl. change (ethernet_hlen + 20) with 34. rewrite Htp, Hport.
    remember (tcp_port local) as po eqn:Epo. destruct po as [|p0 [|p1 [|]]]; try done.
    change (net_load16 [p0; p1] 0) with (Some (u16 (Z.lor (p0 ≪ 8) p1))). cbn [mbind option_bind]. by rewrite Z.eqb_refl. }
  cbn [mbind option_bind lookup list_lookup].
  destruct (socket_handle_tcp stack local r router obj count output) as [[[[r' sent] out] n]|]; [|done].
  cbn [mbind option_bind insert list_insert]. destruct (Z.eqb_spec n 0) as [-> |Hn]; cbn [negb app]; [|done].
  destruct (tcp_state r' =? TCP_STATE_CLOSED); [done|].
  assert (socket_accept_udp local (r' :: rs) obj = Some (r' :: rs, None)) as ->.
  { unfold socket_accept_udp. rewrite Ht. cbn [mbind option_bind]. rewrite Z.eqb_refl, Hil, Hp. cbn [mbind option_bind].
    by change (IPV4_PROTOCOL_TCP =? IPV4_PROTOCOL_UDP) with false. }
  cbn [mbind option_bind Z.eqb negb]. by rewrite app_nil_r.
Qed.

(** ** The three-way handshake *)

Lemma frame_of_reads local remote router flags payload tail :
  sock_ok local -> sock_ok remote -> sock_ok router -> 40 + Z.of_nat (length payload) < 65536 ->
  frame_reads local remote flags payload (frame_of local remote router flags payload ++ tail) tail.
Proof. intros. by apply tcp_frame_reads. Qed.

(** Two ends agree: what one will send next is what the other expects. *)
Definition synced (c s : socket) : Prop :=
  tcp_state c = TCP_STATE_ESTABLISHED /\ tcp_state s = TCP_STATE_ESTABLISHED /\
  tcp_seq c = tcp_ack s /\ tcp_ack c = tcp_seq s.

Section Parties.
(** The client's own socket, its record of the server and its router; the
    server's own socket, its router, and the first entry of its table. *)
Context (cl cr crt sl srt : socket).
Context (Hcl : sock_ok cl) (Hcr : sock_ok cr) (Hcrt : sock_ok crt) (Hsl : sock_ok sl) (Hsrt : sock_ok srt).
Context (Hport : tcp_port cr = tcp_port sl).

Lemma port_len s : sock_ok s -> length (tcp_port s) = 2%nat.
Proof. by intros [_ _ [? _] _ _]. Qed.

(** The server answers a SYN. *)
Lemma server_syn r rs tail output count :
  sock_ok r -> resolved r = 0 -> tcp_state r = TCP_STATE_LISTEN ->
  let r1 := set_ack (set_state (learn r cl cr) TCP_STATE_SYNRECEIVED) (tcp_seq cr + 1) in
  socket_receive stack sl (r :: rs) srt [frame_of cl cr crt SYN [] ++ tail] output count =
    Some (r1 :: rs, [frame_of sl r1 srt (Z.lor ACK SYN) []], output, 0) /\ sock_ok r1.
Proof.
  intros Hr Hres Hst r1.
  assert (sock_ok r1) as Hr1.
  { destruct Hcl as [? ? ? ? ?], Hr as [? ? ? ? ?], Hcr as [? ? ? ? ?]. apply sock_ok_ack, sock_ok_state. by split. }
  split; [|done].
  pose proof (frame_of_reads cl cr crt SYN [] tail Hcl Hcr Hcrt ltac:(cbn; lia)) as HF.
  rewrite (receive_frame cl cr SYN [] _ tail sl (r :: rs) srt (learn r cl cr) rs); try done;
    [|by apply port_len|by apply (accept_new cl cr SYN [] _ tail)].
  rewrite (handle_frame stack Hstack cl cr SYN [] _ tail) by (first [done|by apply port_len|cbn; lia]).
  unfold handletcp. cbn [learn tcp_state]. rewrite Hst. change (TCP_STATE_LISTEN =? TCP_STATE_LISTEN) with true. cbv iota.
  unfold tcp_listen. rewrite (fr_flags _ _ _ _ _ _ HF), (fr_seq _ _ _ _ _ _ HF). cbn [mbind option_bind].
  change (u8 SYN =? SYN) with true. cbv iota.
  change (set_ack (set_state _ TCP_STATE_SYNRECEIVED) (tcp_seq cr + 1)) with r1.
  rewrite reply_spec by done. reflexivity.
Qed.

(** The client accepts the answer and acknowledges it. *)
Lemma client_connect cr0 r tail buffer :
  cr = set_ack (set_state cr0 TCP_STATE_SYNSENT) 0 -> sock_ok r -> tcp_port r = tcp_port cl ->
  let cr' := set_ack (set_seq (set_state cr TCP_STATE_ESTABLISHED) (tcp_ack r)) (tcp_seq r + 1) in
  socket_connect_tcp stack cl cr0 crt [frame_of sl r srt (Z.lor ACK SYN) [] ++ tail] buffer =
    Some (cr', [frame_of cl cr crt SYN []; frame_of cl cr' crt ACK []]) /\ sock_ok cr'.
Proof.
  intros Ecr Hr Hp cr'. assert (sock_ok cr') as Hcr' by (unfold cr'; eauto with sockets). split; [|done].
  pose proof (frame_of_reads sl r srt (Z.lor ACK SYN) [] tail Hsl Hr Hsrt ltac:(cbn; lia)) as HF.
  unfold socket_connect_tcp. rewrite <- Ecr. change 0 with (Z.of_nat (length (@nil Z))) at 1.
  rewrite (send_frame stack Hstack Hbytes) by done. cbn [mbind option_bind connect_loop].
  unfold socket_handle_arp. rewrite (fr_type _ _ _ _ _ _ HF). cbn [mbind option_bind].
  change (ETHERNET_TYPE_IPV4 =? ETHERNET_TYPE_ARP) with false. cbv iota. cbn [mbind option_bind].
  rewrite (handle_frame stack Hstack sl r (Z.lor ACK SYN) [] _ tail) by (first [done|by apply port_len|cbn; lia]).
  unfold handletcp. assert (tcp_state cr = TCP_STATE_SYNSENT) as -> by (by rewrite Ecr).
  change (TCP_STATE_SYNSENT =? TCP_STATE_LISTEN) with false. change (TCP_STATE_SYNSENT =? TCP_STATE_SYNSENT) with true. cbv iota.
  unfold tcp_synsent. rewrite (fr_flags _ _ _ _ _ _ HF), (fr_seq _ _ _ _ _ _ HF), (fr_ack _ _ _ _ _ _ HF).
  cbn [mbind option_bind]. change (u8 (Z.lor ACK SYN) =? Z.lor SYN ACK) with true. cbv iota. fold cr'.
  rewrite reply_spec by done. cbn [mbind option_bind].
  change (Z.of_nat (length []) =? 0) with true. cbv iota. cbn [mbind option_bind].
  change (tcp_state cr' =? TCP_STATE_ESTABLISHED) with true. reflexivity.
Qed.

(** The acknowledgement completes the server's side. *)
Lemma server_ack r rs tail output count :
  sock_ok r -> peer_of r cl -> tcp_state r = TCP_STATE_SYNRECEIVED ->
  socket_receive stack sl (r :: rs) srt [frame_of cl cr crt ACK [] ++ tail] output count =
    Some (set_seq (set_state r TCP_STATE_ESTABLISHED) (tcp_ack cr) :: rs, [], output, 0).
Proof.
  intros Hr Hpeer Hst.
  pose proof (frame_of_reads cl cr crt ACK [] tail Hcl Hcr Hcrt ltac:(cbn; lia)) as HF.
  rewrite (receive_frame cl cr ACK [] _ tail sl (r :: rs) srt r rs); try done;
    [|by apply port_len|by apply (accept_known cl cr ACK [] _ tail)].
  rewrite (handle_frame stack Hstack cl cr ACK [] _ tail) by (first [done|by apply port_len|cbn; lia]).
  unfold handletcp. rewrite Hst. change (TCP_STATE_SYNRECEIVED =? TCP_STATE_LISTEN) with false.
  change (TCP_STATE_SYNRECEIVED =? TCP_STATE_SYNSENT) with false.
  change (TCP_STATE_SYNRECEIVED =? TCP_STATE_SYNRECEIVED) with true. cbv iota.
  unfold tcp_synreceived. rewrite (fr_flags _ _ _ _ _ _ HF), (fr_ack _ _ _ _ _ _ HF). reflexivity.
Qed.
End Parties.
End Exchange.

(** C28. The three-way handshake: a client that connects and a server that
    listens exchange three frames, and both end established with matching
    sequence numbers: what each will send next is what the other expects, one
    past the initial sequence numbers.  The server's table entry has learned
    the client's addresses.  The frames travel as bytes, followed by arbitrary
    contents of the receive buffers, through the builders and the parsers. *)
Theorem tcp_handshake cstack sstack cl cr crt sl srt r rs t1 t2 t3 buffer output count :
  length cstack = Z.to_nat SOCKET_MTUSIZE -> Forall is_byte cstack ->
  length sstack = Z.to_nat SOCKET_MTUSIZE -> Forall is_byte sstack ->
  sock_ok cl -> sock_ok cr -> sock_ok crt -> sock_ok sl -> sock_ok srt -> sock_ok r ->
  tcp_port cr = tcp_port sl -> resolved r = 0 ->
  let (sl', table) := socket_listen_tcp sl (r :: rs) in
  exists f1 f2 f3 cr' r1 r2,
    socket_connect_tcp cstack cl cr crt [f2 ++ t2] buffer = Some (cr', [f1; f3]) /\
    socket_receive sstack sl' table srt [f1 ++ t1] output count = Some (<[0%nat := r1]> table, [f2], output, 0) /\
    socket_receive sstack sl' (<[0%nat := r1]> table) srt [f3 ++ t3] output count =
      Some (<[0%nat := r2]> table, [], output, 0) /\
    synced cr' r2 /\ peer_of r2 cl /\
    tcp_seq cr' = u32 (tcp_seq cr + 1) /\ tcp_ack cr' = u32 (tcp_seq r + 1).
Proof.
  intros Hcs Hcb Hss Hsb Hcl Hcr Hcrt Hsl Hsrt Hr Hport Hres. cbn [socket_listen_tcp fmap list_fmap].
  set (sl' := set_state sl TCP_STATE_LISTEN). set (r0 := set_state r (tcp_state sl')).
  set (cr0 := set_ack (set_state cr TCP_STATE_SYNSENT) 0).
  assert (sock_ok sl') as Hsl' by (unfold sl'; eauto with sockets).
  assert (sock_ok r0) as Hr0 by (unfold r0; eauto with sockets).
  assert (sock_ok cr0) as Hcr0 by (unfold cr0; eauto with sockets).
  destruct (server_syn sstack Hss Hsb cl cr0 crt sl' srt Hcl Hcr0 Hcrt Hsl' Hsrt Hport r0
    ((fun r => set_state r (tcp_state sl')) <$> rs) t1 output count Hr0 Hres eq_refl) as [E1 Hr1].
  set (r1 := set_ack _ _) in E1, Hr1.
  destruct (client_connect cstack Hcs Hcb cl cr0 crt sl' srt Hcl Hcr0 Hcrt Hsl' Hsrt cr r1 t2 buffer eq_refl Hr1 eq_refl) as [E2 Hcr'].
  set (cr' := set_ack _ _) in E2, Hcr'.
  pose proof (server_ack sstack Hss cl cr' crt sl' srt Hcl Hcr' Hcrt Hsl' Hport r1
    ((fun r => set_state r (tcp_state sl')) <$> rs) t3 output count Hr1 ltac:(by repeat split) eq_refl) as E3.
  eexists _, _, _, cr', r1, _. split; [exact E2|]. split; [exact E1|]. split; [exact E3|].
  unfold synced, peer_of, cr', r1, cr0, r0. cbn. rewrite !u32_idem. by repeat split.
Qed.

Definition sample_socket (host : Z) (res : Z) (seq : Z) (port : list Z) : socket :=
  mk_socket res [2; 0; 0; 0; 0; host] [10; 0; 5; host] 11 seq 0 port.

Ltac concrete_bytes :=
  repeat (apply Forall_cons; split; [split; [discriminate|reflexivity]|]); apply Forall_nil; exact I.

Lemma sample_ok host res seq p0 p1 :
  0 <= host < 256 -> 0 <= seq < 2 ^ 32 -> 0 <= p0 < 256 -> 0 <= p1 < 256 -> sock_ok (sample_socket host res seq [p0; p1]).
Proof.
  intros Hh Hs H0 H1. split; try done; (split; [done|]);
    repeat (apply Forall_cons; split; [first [split; [discriminate|reflexivity]|exact Hh|exact H0|exact H1]|]); by apply Forall_nil.
Qed.

Lemma tcp_handshake_witness :
  let cl := sample_socket 1 1 0 [200; 1] in let cr := sample_socket 2 1 1000 [0; 80] in
  let rt := sample_socket 3 1 0 [0; 0] in let sl := sample_socket 2 1 0 [0; 80] in
  let r := sample_socket 0 0 4294967295 [0; 0] in
  let stack := replicate 1518 0xAA in
  let (sl', table) := socket_listen_tcp sl [r] in
  exists f1 f2 f3 cr' r1 r2,
    socket_connect_tcp stack cl cr rt [f2 ++ [7]] [] = Some (cr', [f1; f3]) /\
    socket_receive stack sl' table rt [f1 ++ [8]] [] 0 = Some (<[0%nat := r1]> table, [f2], [], 0) /\
    socket_receive stack sl' (<[0%nat := r1]> table) rt [f3 ++ [9]] [] 0 = Some (<[0%nat := r2]> table, [], [], 0) /\
    synced cr' r2 /\ peer_of r2 cl /\ tcp_seq cr' = 1001 /\ tcp_ack cr' = 0.
Proof.
  cbv zeta.
  apply (tcp_handshake (replicate 1518 0xAA) (replicate 1518 0xAA) (sample_socket 1 1 0 [200; 1])
    (sample_socket 2 1 1000 [0; 80]) (sample_socket 3 1 0 [0; 0]) (sample_socket 2 1 0 [0; 80])
    (sample_socket 3 1 0 [0; 0]) (sample_socket 0 0 4294967295 [0; 0]) [] [8] [7] [9] [] [] 0);
    first [reflexivity | (apply Forall_replicate; split; [discriminate|reflexivity])
          | (apply sample_ok; lia) | (vm_compute; reflexivity)].
Defined.

Section Transfer.
Context (cstack sstack : list Z).
Context (Hcs : length cstack = Z.to_nat SOCKET_MTUSIZE) (Hcb : Forall is_byte cstack).
Context (Hss : length sstack = Z.to_nat SOCKET_MTUSIZE) (Hsb : Forall is_byte sstack).

(** An established end takes a data segment: it acknowledges it, and the payload
    goes to the output. *)
Lemma receive_data cl cr crt sl srt r rs payload tail output count :
  sock_ok cl -> sock_ok cr -> sock_ok crt -> sock_ok sl -> sock_ok srt -> sock_ok r ->
  tcp_port cr = tcp_port sl -> peer_of r cl -> tcp_state r = TCP_STATE_ESTABLISHED ->
  payload <> [] -> 54 + Z.of_nat (length payload) < SOCKET_MTUSIZE ->
  Z.of_nat (length payload) <= count -> count <= Z.of_nat (length output) -> count <= max32 ->
  let r' := set_ack (set_seq r (tcp_ack cr)) (tcp_seq cr + Z.of_nat (length payload)) in
  socket_receive sstack sl (r :: rs) srt [frame_of cl cr crt (Z.lor PSH ACK) payload ++ tail] output count =
    Some (r' :: rs, [frame_of sl r' srt ACK []], splice output 0 payload, Z.of_nat (length payload)).
Proof.
  intros Hcl Hcr Hcrt Hsl Hsrt Hr Hport Hpeer Hst Hne Hlen Hcount Hout Hmax r'. unfold SOCKET_MTUSIZE in Hlen.
  assert (0 < length payload)%nat by (destruct payload; [done|cbn; lia]).
  assert (sock_ok r') as Hr' by (unfold r'; eauto with sockets).
  pose proof (frame_of_reads cl cr crt (Z.lor PSH ACK) payload tail Hcl Hcr Hcrt ltac:(lia)) as HF.
  rewrite (receive_frame sstack cl cr (Z.lor PSH ACK) payload _ tail sl (r :: rs) srt r rs); try done;
    [|by apply port_len|by apply (accept_known cl cr (Z.lor PSH ACK) payload _ tail)].
  rewrite (handle_frame sstack Hss cl cr (Z.lor PSH ACK) payload _ tail) by (first [done|by apply port_len|lia]).
  unfold handletcp. rewrite Hst. change (TCP_STATE_ESTABLISHED =? TCP_STATE_LISTEN) with false.
  change (TCP_STATE_ESTABLISHED =? TCP_STATE_SYNSENT) with false.
  change (TCP_STATE_ESTABLISHED =? TCP_STATE_SYNRECEIVED) with false.
  change (TCP_STATE_ESTABLISHED =? TCP_STATE_ESTABLISHED) with true. cbv iota.
  unfold tcp_established. rewrite (fr_flags _ _ _ _ _ _ HF), (fr_seq _ _ _ _ _ _ HF), (fr_ack _ _ _ _ _ _ HF).
  cbn [mbind option_bind]. change ((u8 (Z.lor PSH ACK) =? ACK) || (u8 (Z.lor PSH ACK) =? Z.lor PSH ACK)) with true. cbv iota.
  rewrite (proj2 (Z.eqb_neq (Z.of_nat (length payload)) 0)) by lia. fold r'.
  rewrite (reply_spec sstack Hss Hsb) by done. cbn [mbind option_bind].
  rewrite buffer_write_spec by (rewrite ?length_app; lia). rewrite room_fits by lia.
  cbn [mbind option_bind]. change (Z.to_nat 0) with 0%nat. by rewrite Nat2Z.id, take_app_length.
Qed.

(** An established end takes a bare acknowledgement. *)
Lemma receive_ack cl cr crt sl r srt tail ocount output :
  sock_ok cl -> sock_ok sl -> sock_ok r -> sock_ok srt -> tcp_port r = tcp_port cl ->
  tcp_state cr = TCP_STATE_ESTABLISHED ->
  socket_handle_tcp cstack cl cr crt (frame_of sl r srt ACK [] ++ tail) ocount output =
    Some (set_ack (set_seq cr (tcp_ack r)) (tcp_seq r + 0), [], output, 0).
Proof.
  intros Hcl Hsl Hr Hsrt Hport Hst.
  pose proof (frame_of_reads sl r srt ACK [] tail Hsl Hr Hsrt ltac:(cbn; lia)) as HF.
  rewrite (handle_frame cstack Hcs sl r ACK [] _ tail) by (first [done|by apply port_len|cbn; lia]).
  unfold handletcp. rewrite Hst. change (TCP_STATE_ESTABLISHED =? TCP_STATE_LISTEN) with false.
  change (TCP_STATE_ESTABLISHED =? TCP_STATE_SYNSENT) with false.
  change (TCP_STATE_ESTABLISHED =? TCP_STATE_SYNRECEIVED) with false.
  change (TCP_STATE_ESTABLISHED =? TCP_STATE_ESTABLISHED) with true. cbv iota.
  unfold tcp_established. rewrite (fr_flags _ _ _ _ _ _ HF), (fr_seq _ _ _ _ _ _ HF), (fr_ack _ _ _ _ _ _ HF).
  reflexivity.
Qed.

(** C29. Data transfer: between two established ends with matching sequence
    numbers, a payload handed to [socket_send_tcp] is what [socket_receive]
    returns on the other side, whole and alone in the output; the
    acknowledgement sent back moves the sender's sequence number past it, so
    that the two ends match again and the next payload can follow. *)
Theorem tcp_transfer cl cr crt sl srt r rs payload t1 t2 output count ocount out :
  sock_ok cl -> sock_ok cr -> sock_ok crt -> sock_ok sl -> sock_ok srt -> sock_ok r ->
  tcp_port cr = tcp_port sl -> peer_of r cl -> synced cr r ->
  Forall is_byte payload -> payload <> [] -> 54 + Z.of_nat (length payload) < SOCKET_MTUSIZE ->
  Z.of_nat (length payload) <= count -> count <= Z.of_nat (length output) -> count <= max32 ->
  exists f a cr' r',
    socket_send_tcp cstack cl cr crt (Z.of_nat (length payload)) payload = Some ([f], Z.of_nat (length payload)) /\
    socket_receive sstack sl (r :: rs) srt [f ++ t1] output count =
      Some (r' :: rs, [a], splice output 0 payload, Z.of_nat (length payload)) /\
    socket_handle_tcp cstack cl cr crt (a ++ t2) ocount out = Some (cr', [], out, 0) /\
    synced cr' r' /\ peer_of r' cl /\ sock_ok cr' /\ sock_ok r' /\ tcp_port cr' = tcp_port cr /\
    tcp_seq cr' = u32 (tcp_seq cr + Z.of_nat (length payload)).
Proof.
  intros Hcl Hcr Hcrt Hsl Hsrt Hr Hport Hpeer (Hc & Hs & Hsa & Has) Hp Hne Hlen Hcount Hout Hmax.
  pose proof (receive_data cl cr crt sl srt r rs payload t1 output count Hcl Hcr Hcrt Hsl Hsrt Hr Hport Hpeer Hs Hne
    Hlen Hcount Hout Hmax) as E. cbv zeta in E.
  set (r' := set_ack _ _) in E. assert (sock_ok r') as Hr' by (unfold r'; eauto with sockets).
  pose proof (receive_ack cl cr crt sl r' srt t2 ocount out Hcl Hsl Hr' Hsrt ltac:(apply Hpeer) Hc) as E2.
  eexists _, _, _, r'. split; [|split; [exact E|split; [exact E2|]]].
  { unfold socket_send_tcp. rewrite Hc. change (TCP_STATE_ESTABLISHED =? TCP_STATE_ESTABLISHED) with true. cbv iota.
    rewrite (send_frame cstack Hcs Hcb) by done. reflexivity. }
  destruct Hcr as [? ? ? Hseq Hack]. unfold synced, peer_of, r'. cbn.
  rewrite !Z.add_0_r, !u32_idem, (u32_small (tcp_ack cr)) by done.
  destruct Hpeer as (? & ? & ? & ?). split_and!; try done; unfold r' in *; cbn; eauto with sockets.
  - split; try done; cbn; apply u32_range.
Qed.
End Transfer.

Lemma tcp_transfer_witness :
  let cl := sample_socket 1 1 0 [200; 1] in let rt := sample_socket 3 1 0 [0; 0] in
  let cr := set_ack (set_state (sample_socket 2 1 4294967290 [0; 80]) 4) 77 in
  let sl := sample_socket 2 1 0 [0; 80] in
  let r := set_ack (set_state (sample_socket 1 1 77 [200; 1]) 4) 4294967290 in
  let stack := replicate 1518 0xAA in
  exists f a cr' r',
    socket_send_tcp stack cl cr rt 10 (replicate 10 65) = Some ([f], 10) /\
    socket_receive stack sl [r] rt [f ++ [7]] (replicate 16 0) 12 =
      Some ([r'], [a], splice (replicate 16 0) 0 (replicate 10 65), 10) /\
    socket_handle_tcp stack cl cr rt (a ++ [8]) 0 [] = Some (cr', [], [], 0) /\
    synced cr' r' /\ peer_of r' cl /\ sock_ok cr' /\ sock_ok r' /\ tcp_port cr' = tcp_port cr /\ tcp_seq cr' = 4.
Proof.
  cbv zeta.
  apply (tcp_transfer (replicate 1518 0xAA) (replicate 1518 0xAA) eq_refl
    ltac:(apply Forall_replicate; split; [discriminate|reflexivity]) eq_refl
    ltac:(apply Forall_replicate; split; [discriminate|reflexivity])
    (sample_socket 1 1 0 [200; 1]) (set_ack (set_state (sample_socket 2 1 4294967290 [0; 80]) 4) 77)
    (sample_socket 3 1 0 [0; 0]) (sample_socket 2 1 0 [0; 80]) (sample_socket 3 1 0 [0; 0])
    (set_ack (set_state (sample_socket 1 1 77 [200; 1]) 4) 4294967290) [] (replicate 10 65) [7] [8] (replicate 16 0) 12 0 []);
    first [reflexivity | discriminate | (apply Forall_replicate; split; [discriminate|reflexivity])
          | (apply sample_ok; lia) | (apply sock_ok_ack, sock_ok_state, sample_ok; lia)
          | (repeat split; discriminate) | (vm_compute; discriminate)].
Defined.

(** The lengths of a received frame are not checked: a total length of 20 in
    the IP header, less than the two headers need, makes the payload size wrap
    around, and the copy to the output leaves the receive buffer. *)
Example socket_length_unchecked :
  let short := [2; 0; 0; 0; 0; 2; 2; 0; 0; 0; 0; 1; 8; 0; 69; 0; 0; 20; 0; 0; 0; 0; 64; 6; 0; 0; 10; 0; 5; 1; 10; 0; 5; 2;
                200; 1; 0; 80; 0; 0; 0; 1; 0; 0; 0; 1; 80; 16; 16; 0; 0; 0; 0; 0] in
  let frame := short ++ replicate (Z.to_nat 1518 - length short) 0 in
  socket_handle_tcp (replicate (Z.to_nat 1518) 0) (sample_socket 2 1 0 [0; 80]) (sample_socket 1 1 0 [200; 1])
    (sample_socket 3 1 0 [0; 0]) frame 4096 (replicate (Z.to_nat 4096) 0) = None.
Proof. vm_compute. reflexivity. Qed.
