(* ===== verification/Gdb.v ===== *)
(** * The debugger stub

    [src/kernel/gdb/i386-stub.c]: the remote protocol of gdb on a serial line.
    Packets [$<data>#<checksum>] are acknowledged with [+] or [-]; the stub
    serves the requests of the host ([g], [G], [P], [m], [M], [c], [s], [?],
    [d], [k]) until the program is resumed.

    The state is the line (the characters still to arrive and those sent), the
    two packet buffers, the saved registers as 64 bytes, the memory of the
    program and the variables of the fault protocol.  Which addresses fault is
    a property of the machine, the variable [fault] of the Section.  The
    [fprintf] diagnostics are left out, and so is the case that a request
    addresses the stub's own variables as memory. *)
From S2P Require Import Prelude Memory.

Local Open Scope Z_scope.

Record stub := mk_stub {
  rx : list Z; tx : list Z;
  remcomInBuffer : list Z; remcomOutBuffer : list Z;
  registers : list Z; ram : mem;
  mem_err : bool; mem_fault_routine : bool;
  remote_debug : bool; gdb_i386vector : Z }.

Definition set_rx (s : stub) x := mk_stub x (tx s) (remcomInBuffer s) (remcomOutBuffer s)
  (registers s) (ram s) (mem_err s) (mem_fault_routine s) (remote_debug s) (gdb_i386vector s).
Definition set_tx (s : stub) x := mk_stub (rx s) x (remcomInBuffer s) (remcomOutBuffer s)
  (registers s) (ram s) (mem_err s) (mem_fault_routine s) (remote_debug s) (gdb_i386vector s).
Definition set_in (s : stub) x := mk_stub (rx s) (tx s) x (remcomOutBuffer s)
  (registers s) (ram s) (mem_err s) (mem_fault_routine s) (remote_debug s) (gdb_i386vector s).
Definition set_out (s : stub) x := mk_stub (rx s) (tx s) (remcomInBuffer s) x
  (registers s) (ram s) (mem_err s) (mem_fault_routine s) (remote_debug s) (gdb_i386vector s).
Definition set_registers (s : stub) x := mk_stub (rx s) (tx s) (remcomInBuffer s) (remcomOutBuffer s)
  x (ram s) (mem_err s) (mem_fault_routine s) (remote_debug s) (gdb_i386vector s).
Definition set_ram (s : stub) x := mk_stub (rx s) (tx s) (remcomInBuffer s) (remcomOutBuffer s)
  (registers s) x (mem_err s) (mem_fault_routine s) (remote_debug s) (gdb_i386vector s).
Definition set_err (s : stub) x := mk_stub (rx s) (tx s) (remcomInBuffer s) (remcomOutBuffer s)
  (registers s) (ram s) x (mem_fault_routine s) (remote_debug s) (gdb_i386vector s).
Definition set_hook (s : stub) x := mk_stub (rx s) (tx s) (remcomInBuffer s) (remcomOutBuffer s)
  (registers s) (ram s) (mem_err s) x (remote_debug s) (gdb_i386vector s).
Definition set_debug (s : stub) x := mk_stub (rx s) (tx s) (remcomInBuffer s) (remcomOutBuffer s)
  (registers s) (ram s) (mem_err s) (mem_fault_routine s) x (gdb_i386vector s).
Definition set_vector (s : stub) x := mk_stub (rx s) (tx s) (remcomInBuffer s) (remcomOutBuffer s)
  (registers s) (ram s) (mem_err s) (mem_fault_routine s) (remote_debug s) x.

(** What a piece of the stub can do: return, wait for a character that has not
    arrived, jump back to the program ([return_to_prog]), or go wrong (an
    access outside an object, or a fault with no routine to take it).
    [NoFuel] is the end of the fuel of a loop. *)
Inductive result (A : Type) :=
| Ret (a : A) (s : stub)
| Starved (s : stub)
| Jump (s : stub)
| Crash
| NoFuel.
Arguments Ret {A}. Arguments Starved {A}. Arguments Jump {A}. Arguments Crash {A}. Arguments NoFuel {A}.

Definition M (A : Type) := stub -> result A.

Definition ret {A} (a : A) : M A := fun s => Ret a s.
Definition bind {A B} (m : M A) (k : A -> M B) : M B := fun s =>
  match m s with
  | Ret a s' => k a s'
  | Starved s' => Starved s'
  | Jump s' => Jump s'
  | Crash => Crash
  | NoFuel => NoFuel
  end.
Definition gets {A} (f : stub -> A) : M A := fun s => Ret (f s) s.
Definition modify (f : stub -> stub) : M unit := fun s => Ret tt (f s).
Definition crash {A} : M A := fun _ => Crash.
Definition nofuel {A} : M A := fun _ => NoFuel.

Declare Scope stub_scope.
Notation "x <- m ;; k" := (bind m (fun x => k)) (at level 100, m at next level, right associativity) : stub_scope.
Notation "m ;; k" := (bind m (fun _ => k)) (at level 100, right associativity) : stub_scope.
Local Open Scope stub_scope.

(** The line. *)
Definition getDebugChar : M Z := fun s =>
  match rx s with
  | [] => Starved s
  | c :: r => Ret c (set_rx s r)
  end.
Definition putDebugChar (a : Z) : M unit := modify (fun s => set_tx s (tx s ++ [a])).

(** Accesses to the two buffers. *)
Definition get_in (i : Z) : M Z := fun s =>
  match rd (remcomInBuffer s) i with Some c => Ret c s | None => Crash end.
Definition put_in (i c : Z) : M unit := fun s =>
  match wr (remcomInBuffer s) i c with Some b => Ret tt (set_in s b) | None => Crash end.
Definition get_out (i : Z) : M Z := fun s =>
  match rd (remcomOutBuffer s) i with Some c => Ret c s | None => Crash end.
Definition put_out (i c : Z) : M unit := fun s =>
  match wr (remcomOutBuffer s) i c with Some b => Ret tt (set_out s b) | None => Crash end.

Definition BUFMAX : Z := 400.
Definition NUMREGS : Z := 16.
Definition NUMREGBYTES : Z := NUMREGS * 4.
Definition ESP : Z := 4.
Definition EBP : Z := 5.
Definition PC : Z := 8.
Definition PS : Z := 9.

Definition hexchars : list Z := [48; 49; 50; 51; 52; 53; 54; 55; 56; 57; 97; 98; 99; 100; 101; 102].
Definition hexchar (i : Z) : Z := default 0 (hexchars !! Z.to_nat i).

Definition hex (ch : Z) : Z :=
  if (97 <=? ch) && (ch <=? 102) then ch - 97 + 10
  else if (48 <=? ch) && (ch <=? 57) then ch - 48
  else if (65 <=? ch) && (ch <=? 70) then ch - 65 + 10
  else -1.

(** [strcpy] into the output buffer. *)
Fixpoint strcpy (pointer : Z) (src : list Z) : M unit :=
  match src with
  | [] => crash
  | c :: src' =>
      if c =? 0 then put_out pointer 0
      else put_out pointer c ;; strcpy (pointer + 1) src'
  end.

Definition OK : list Z := [79; 75; 0].
Definition E01 : list Z := [69; 48; 49; 0].
Definition E02 : list Z := [69; 48; 50; 0].
Definition E03 : list Z := [69; 48; 51; 0].

(** ** Packets

    The control points of [getpacket] at which it reads a character: looking
    for [$]; in the data, with [count] characters stored; at the two digits of
    the checksum. *)
Inductive phase :=
| Start
| Body (count checksum : Z)
| Sum1 (checksum : Z)
| Sum2 (checksum xmitcsum : Z).

Definition getpacket_finish (checksum xmitcsum : Z) : M (option Z) :=
  if checksum =? xmitcsum then
    putDebugChar 43 ;;
    c <- get_in 2 ;;
    if c =? 58 then
      b0 <- get_in 0 ;; putDebugChar b0 ;;
      b1 <- get_in 1 ;; putDebugChar b1 ;;
      ret (Some 3)
    else ret (Some 0)
  else putDebugChar 45 ;; ret None.

Fixpoint getpacket_loop (fuel : nat) (ph : phase) : M Z :=
  c <- getDebugChar ;;
  match fuel with
  | O => nofuel
  | S fuel =>
      let ch := u8 c in
      match ph with
      | Start => if ch =? 36 then getpacket_loop fuel (Body 0 0) else getpacket_loop fuel Start
      | Body count checksum =>
          if ch =? 36 then getpacket_loop fuel (Body 0 0)
          else if ch =? 35 then put_in count 0 ;; getpacket_loop fuel (Sum1 checksum)
          else
            put_in count ch ;;
            if count + 1 <? BUFMAX - 1
            then getpacket_loop fuel (Body (count + 1) (u8 (checksum + ch)))
            else put_in (count + 1) 0 ;; getpacket_loop fuel Start
      | Sum1 checksum => getpacket_loop fuel (Sum2 checksum (u8 (Z.shiftl (hex ch) 4)))
      | Sum2 checksum xmitcsum =>
          r <- getpacket_finish checksum (u8 (xmitcsum + hex ch)) ;;
          match r with
          | Some ptr => ret ptr
          | None => getpacket_loop fuel Start
          end
      end
  end.

Definition getpacket : M Z := fun s => getpacket_loop (length (rx s)) Start s.

(** The data of a packet, from [buffer[count]] to the null character. *)
Fixpoint putpacket_data (fuel : nat) (count checksum : Z) : M Z :=
  match fuel with
  | O => nofuel
  | S fuel =>
      ch <- get_out count ;;
      if ch =? 0 then ret checksum
      else putDebugChar ch ;; putpacket_data fuel (count + 1) (u8 (checksum + ch))
  end.

Definition putpacket_once : M unit :=
  putDebugChar 36 ;;
  n <- gets (fun s => length (remcomOutBuffer s)) ;;
  checksum <- putpacket_data (S n) 0 0 ;;
  putDebugChar 35 ;;
  putDebugChar (hexchar (Z.shiftr checksum 4)) ;;
  putDebugChar (hexchar (checksum mod 16)).

Fixpoint putpacket_loop (fuel : nat) : M unit :=
  putpacket_once ;;
  c <- getDebugChar ;;
  match fuel with
  | O => nofuel
  | S fuel => if c =? 43 then ret tt else putpacket_loop fuel
  end.

Definition putpacket : M unit := fun s => putpacket_loop (length (rx s)) s.

(** ** Registers

    [registers] is an array of [int]; the stub also reads and writes its bytes. *)
Definition get_register (r : Z) : M Z :=
  b <- gets registers ;;
  match rd b (4 * r), rd b (4 * r + 1), rd b (4 * r + 2), rd b (4 * r + 3) with
  | Some b0, Some b1, Some b2, Some b3 => ret (s32 (b0 + 256 * b1 + 65536 * b2 + 16777216 * b3))
  | _, _, _, _ => crash
  end.

Definition word_bytes (v : Z) : list Z :=
  [u8 v; u8 (Z.shiftr v 8); u8 (Z.shiftr v 16); u8 (Z.shiftr v 24)].

Definition put_register (r v : Z) : M unit :=
  b <- gets registers ;;
  if (0 <=? r) && (4 * r + 4 <=? Z.of_nat (length b))
  then modify (fun s => set_registers s (splice b (Z.to_nat (4 * r)) (word_bytes v)))
  else crash.

(** ** Memory and its hexadecimal form *)

(** A pointer into the registers or to an address of the program. *)
Inductive loc :=
| Reg (offset : Z)
| Ram (addr : Z).

Definition loc_next (l : loc) : loc :=
  match l with
  | Reg i => Reg (i + 1)
  | Ram a => Ram (u32 (a + 1))
  end.

Section Stub.

(** The addresses whose access raises an exception of the processor. *)
Variable fault : Z -> bool.

(** [mem_fault]: the exception resets [mem_fault_routine] and continues in it
    ([set_mem_err]), which returns to the caller of the access; without a
    routine the stub itself has failed. *)
Definition mem_fault : M unit :=
  h <- gets mem_fault_routine ;;
  if h : bool then modify (fun s => set_err (set_hook s false) true) else crash.

Definition get_char (l : loc) : M Z :=
  match l with
  | Reg i => b <- gets registers ;; match rd b i with Some c => ret c | None => crash end
  | Ram a => if fault a then mem_fault ;; ret 0 else gets (fun s => load8 (ram s) a)
  end.

Definition set_char (l : loc) (v : Z) : M unit :=
  match l with
  | Reg i =>
      b <- gets registers ;;
      match wr b i (u8 v) with Some b' => modify (fun s => set_registers s b') | None => crash end
  | Ram a => if fault a then mem_fault else modify (fun s => set_ram s (store8 (ram s) a v))
  end.

Definition when (b : bool) (m : M unit) : M unit := if b then m else ret tt.

Fixpoint mem2hex_loop (n : nat) (m : loc) (buf : Z) (may_fault : bool) : M Z :=
  match n with
  | O =>
      put_out buf 0 ;;
      when may_fault (modify (fun s => set_hook s false)) ;;
      ret buf
  | S n =>
      ch <- get_char m ;;
      err <- gets mem_err ;;
      if may_fault && err then ret buf
      else
        put_out buf (hexchar (Z.shiftr ch 4)) ;;
        put_out (buf + 1) (hexchar (ch mod 16)) ;;
        mem2hex_loop n (loc_next m) (buf + 2) may_fault
  end.

Definition mem2hex (m : loc) (buf count : Z) (may_fault : bool) : M Z :=
  when may_fault (modify (fun s => set_hook s true)) ;;
  mem2hex_loop (Z.to_nat count) m buf may_fault.

(** Two characters of hexadecimal text as the [unsigned char] they are
    assembled in. *)
Definition hexbyte (a b : Z) : Z := u8 (u8 (Z.shiftl (hex a) 4) + hex b).

Fixpoint hex2mem_loop (n : nat) (buf : Z) (m : loc) (may_fault : bool) : M unit :=
  match n with
  | O => when may_fault (modify (fun s => set_hook s false))
  | S n =>
      a <- get_in buf ;;
      b <- get_in (buf + 1) ;;
      set_char m (hexbyte a b) ;;
      err <- gets mem_err ;;
      if may_fault && err then ret tt
      else hex2mem_loop n (buf + 2) (loc_next m) may_fault
  end.

Definition hex2mem (buf : Z) (m : loc) (count : Z) (may_fault : bool) : M unit :=
  when may_fault (modify (fun s => set_hook s true)) ;;
  hex2mem_loop (Z.to_nat count) buf m may_fault.

Definition computeSignal (exceptionVector : Z) : Z :=
  match exceptionVector with
  | 0 => 8
  | 1 | 3 => 5
  | 4 | 5 => 16
  | 6 => 4
  | 7 => 8
  | 8 => 7
  | 9 | 10 | 11 | 12 | 13 | 14 => 11
  | 16 => 7
  | _ => 7
  end.

(** The number of digits, the value and the pointer after them. *)
Fixpoint hexToInt_loop (fuel : nat) (ptr numChars intValue : Z) : M (Z * Z * Z) :=
  match fuel with
  | O => nofuel
  | S fuel =>
      c <- get_in ptr ;;
      if c =? 0 then ret (numChars, intValue, ptr)
      else
        let hexValue := hex c in
        if 0 <=? hexValue
        then hexToInt_loop fuel (ptr + 1) (numChars + 1) (s32 (Z.lor (s32 (Z.shiftl intValue 4)) hexValue))
        else ret (numChars, intValue, ptr)
  end.

Definition hexToInt (ptr : Z) : M (Z * Z * Z) :=
  n <- gets (fun s => length (remcomInBuffer s)) ;;
  hexToInt_loop (S n) ptr 0 0.

(** ** Requests *)

Definition cmd_status (sigval : Z) : M unit :=
  put_out 0 83 ;; put_out 1 (hexchar (Z.shiftr sigval 4)) ;;
  put_out 2 (hexchar (sigval mod 16)) ;; put_out 3 0.

Definition cmd_setreg (ptr : Z) : M unit :=
  r <- hexToInt ptr ;;
  let '(n, regno, ptr) := r in
  if n =? 0 then strcpy 0 E01
  else
    c <- get_in ptr ;;
    if negb (c =? 61) then strcpy 0 E01
    else if (0 <=? regno) && (regno <? NUMREGS) then
      hex2mem (ptr + 1) (Reg (4 * regno)) 4 false ;; strcpy 0 OK
    else strcpy 0 E01.

Definition cmd_read (ptr : Z) : M unit :=
  r <- hexToInt ptr ;;
  let '(n, addr, ptr) := r in
  if n =? 0 then strcpy 0 E01
  else
    c <- get_in ptr ;;
    if negb (c =? 44) then strcpy 0 E01
    else
      r <- hexToInt (ptr + 1) ;;
      let '(n, length, _) := r in
      if n =? 0 then strcpy 0 E01
      else
        modify (fun s => set_err s false) ;;
        mem2hex (Ram (u32 addr)) 0 length true ;;
        err <- gets mem_err ;;
        when err (strcpy 0 E03).

Definition cmd_write (ptr : Z) : M unit :=
  r <- hexToInt ptr ;;
  let '(n, addr, ptr) := r in
  if n =? 0 then strcpy 0 E02
  else
    c <- get_in ptr ;;
    if negb (c =? 44) then strcpy 0 E02
    else
      r <- hexToInt (ptr + 1) ;;
      let '(n, length, ptr) := r in
      if n =? 0 then strcpy 0 E02
      else
        c <- get_in ptr ;;
        if negb (c =? 58) then strcpy 0 E02
        else
          modify (fun s => set_err s false) ;;
          hex2mem (ptr + 1) (Ram (u32 addr)) length true ;;
          err <- gets mem_err ;;
          if err : bool then strcpy 0 E03 else strcpy 0 OK.

(** [_returnFromException] is a jump: nothing after it runs. *)
Definition _returnFromException : M unit := fun s => Jump s.

Definition cmd_resume (stepping : bool) (ptr : Z) : M unit :=
  r <- hexToInt ptr ;;
  let '(n, addr, _) := r in
  when (negb (n =? 0)) (put_register PC addr) ;;
  ps <- get_register PS ;;
  put_register PS (Z.land ps 0xfffffeff) ;;
  when stepping (ps <- get_register PS ;; put_register PS (Z.lor ps 0x100)) ;;
  _returnFromException.

Definition dispatch (sigval c ptr : Z) : M unit :=
  if c =? 63 then cmd_status sigval
  else if c =? 100 then modify (fun s => set_debug s (negb (remote_debug s)))
  else if c =? 103 then mem2hex (Reg 0) 0 NUMREGBYTES false ;; ret tt
  else if c =? 71 then hex2mem ptr (Reg 0) NUMREGBYTES false ;; strcpy 0 OK
  else if c =? 80 then cmd_setreg ptr
  else if c =? 109 then cmd_read ptr
  else if c =? 77 then cmd_write ptr
  else if c =? 115 then cmd_resume true ptr
  else if c =? 99 then cmd_resume false ptr
  else ret tt.

(** One turn of the loop of [handle_exception]. *)
Definition serve (sigval : Z) : M unit :=
  put_out 0 0 ;;
  ptr <- getpacket ;;
  c <- get_in ptr ;;
  dispatch sigval c (ptr + 1) ;;
  putpacket.

Fixpoint serve_loop (fuel : nat) (sigval : Z) : M unit :=
  match fuel with
  | O => nofuel
  | S fuel => serve sigval ;; serve_loop fuel sigval
  end.

(** [hexchars[r]], a colon, the register and a semicolon. *)
Definition put_pair (r ptr : Z) : M Z :=
  put_out ptr (hexchar r) ;;
  put_out (ptr + 1) 58 ;;
  ptr <- mem2hex (Reg (4 * r)) (ptr + 2) 4 false ;;
  put_out ptr 59 ;;
  ret (ptr + 1).

Definition announce (sigval : Z) : M unit :=
  put_out 0 84 ;;
  put_out 1 (hexchar (Z.shiftr sigval 4)) ;;
  put_out 2 (hexchar (Z.land sigval 15)) ;;
  ptr <- put_pair ESP 3 ;;
  ptr <- put_pair EBP ptr ;;
  ptr <- put_pair PC ptr ;;
  put_out ptr 0 ;;
  putpacket.

Definition handle_exception (exceptionVector : Z) : M unit :=
  modify (fun s => set_vector s exceptionVector) ;;
  announce (computeSignal exceptionVector) ;;
  n <- gets (fun s => length (rx s)) ;;
  serve_loop (S n) (computeSignal exceptionVector).

End Stub.

(** ** The exception vectors *)
Record idt_entry := mk_idt_entry {
  base_low : Z; sel : Z; zero : Z; flags : Z; base_high : Z }.

Definition exceptionHandler (entries : list idt_entry) (exception_number base : Z)
  : option (list idt_entry) :=
  match entries !! Z.to_nat exception_number with
  | None => None
  | Some e =>
      Some (<[Z.to_nat exception_number :=
              mk_idt_entry (Z.land base 0xFFFF) (sel e) (zero e) (flags e)
                           (Z.land (Z.shiftr base 16) 0xFFFF)]> entries)
  end.

(** The vectors [set_debug_traps] takes over, in its order; [catch n] is the
    address of [_catchException<n>]. *)
Definition trap_vectors : list Z := [0; 1; 3; 4; 5; 6; 7; 8; 9; 10; 11; 12; 16].

Fixpoint install (vectors : list Z) (catch : Z -> Z) (entries : list idt_entry)
  : option (list idt_entry) :=
  match vectors with
  | [] => Some entries
  | v :: vs =>
      match exceptionHandler entries v (catch v) with
      | None => None
      | Some entries' => install vs catch entries'
      end
  end.

(** The table and the flag [initialized]. *)
Definition set_debug_traps (catch : Z -> Z) (entries : list idt_entry) : option (list idt_entry * bool) :=
  match install trap_vectors catch entries with
  | None => None
  | Some entries' => Some (entries', true)
  end.

(** Appends in right-nested form. *)
Ltac flatten := repeat progress (cbn [app]; rewrite <- ?app_assoc).

(** ** Running the monad *)

Lemma bind_Ret {A B} (m : M A) (k : A -> M B) s a s' : m s = Ret a s' -> bind m k s = k a s'.
Proof. unfold bind. by intros ->. Qed.

Lemma getDebugChar_cons s c r : rx s = c :: r -> getDebugChar s = Ret c (set_rx s r).
Proof. unfold getDebugChar. by intros ->. Qed.

(** The buffers as a part that has been passed and a part that is ahead. *)
Lemma put_in_mid s p x q v :
  remcomInBuffer s = p ++ x :: q ->
  put_in (Z.of_nat (length p)) v s = Ret tt (set_in s (p ++ v :: q)).
Proof. unfold put_in. intros ->. by rewrite wr_mid. Qed.

Lemma put_out_mid s p x q v :
  remcomOutBuffer s = p ++ x :: q ->
  put_out (Z.of_nat (length p)) v s = Ret tt (set_out s (p ++ v :: q)).
Proof. unfold put_out. intros ->. by rewrite wr_mid. Qed.

Lemma get_in_mid s p x q :
  remcomInBuffer s = p ++ x :: q -> get_in (Z.of_nat (length p)) s = Ret x s.
Proof. unfold get_in. intros ->. by rewrite rd_mid. Qed.

Lemma get_out_mid s p x q :
  remcomOutBuffer s = p ++ x :: q -> get_out (Z.of_nat (length p)) s = Ret x s.
Proof. unfold get_out. intros ->. by rewrite rd_mid. Qed.

(** ** Hexadecimal text *)

Definition hexpair (b : Z) : list Z := [hexchar (Z.shiftr b 4); hexchar (b mod 16)].
Definition hextext (bs : list Z) : list Z := mjoin (hexpair <$> bs).

Lemma below_cases n (P : Z -> Prop) i : 0 <= i < n -> Forall P (seqZ 0 n) -> P i.
Proof. intros Hi HP. rewrite Forall_forall in HP. apply HP, elem_of_seqZ. lia. Qed.

Ltac nibbles i := pattern i; apply (below_cases 16); [lia | by repeat constructor].

Lemma hex_hexchar i : 0 <= i < 16 -> hex (hexchar i) = i.
Proof. intros. nibbles i. Qed.

Lemma hexchar_digit i : 0 <= i < 16 -> 48 <= hexchar i <= 57 \/ 97 <= hexchar i <= 102.
Proof.
  intros. pattern i. apply (below_cases 16); [lia|].
  eapply (@bool_decide_unpack _ _). vm_compute. exact I.
Qed.

Lemma shiftr4_range b : is_byte b -> 0 <= Z.shiftr b 4 < 16.
Proof. unfold is_byte. intros. rewrite Z.shiftr_div_pow2 by lia. change (2 ^ 4) with 16. zmod. Qed.

Lemma mod16_range b : 0 <= b mod 16 < 16.
Proof. zmod. Qed.

#[local] Hint Resolve shiftr4_range mod16_range u8_range : stub.
#[local] Hint Extern 1 (is_byte (u8 _)) => apply u8_range : stub.

Lemma u8_pair b : is_byte b -> u8 (u8 (Z.shiftl (Z.shiftr b 4) 4) + b mod 16) = b.
Proof.
  unfold is_byte. intros. rewrite Z.shiftl_mul_pow2, Z.shiftr_div_pow2 by lia.
  change (2 ^ 4) with 16. zwrap.
Qed.

Lemma hexbyte_pair b : is_byte b -> hexbyte (hexchar (Z.shiftr b 4)) (hexchar (b mod 16)) = b.
Proof. intros. unfold hexbyte. rewrite !hex_hexchar by auto with stub. by apply u8_pair. Qed.

Lemma length_hextext bs : length (hextext bs) = (2 * length bs)%nat.
Proof. induction bs as [|b bs IH]; [done|]. change (S (S (length (hextext bs))) = 2 * S (length bs))%nat. lia. Qed.

(** A character of the data of a packet. *)
Definition plain (c : Z) : Prop := is_byte c /\ c <> 0 /\ c <> 35 /\ c <> 36.

Lemma plain_digit i : 0 <= i < 16 -> plain (hexchar i).
Proof. intros Hi%hexchar_digit. unfold plain, is_byte. lia. Qed.

Lemma plain_hextext bs : Forall is_byte bs -> Forall plain (hextext bs).
Proof.
  induction 1 as [|b bs Hb _ IH]; [by constructor|].
  repeat constructor; [apply plain_digit; auto with stub..|exact IH].
Qed.

(** ** Packets on the line *)

Definition checksum (d : list Z) : Z := u8 (foldr Z.add 0 d).

(** A packet as it is sent. *)
Definition frame (d : list Z) : list Z :=
  36 :: d ++ [35; hexchar (Z.shiftr (checksum d) 4); hexchar (checksum d mod 16)].

Lemma u8_plain c : plain c -> u8 c = c.
Proof. intros [? _]. by apply u8_small. Qed.

Lemma checksum_cons k c d : u8 (u8 (k + c) + foldr Z.add 0 d) = u8 (k + (c + foldr Z.add 0 d)).
Proof. zwrap. Qed.

(** Everything before a [$] is skipped. *)
Lemma scan_noise noise : forall f s r,
  Forall (fun c => u8 c <> 36) noise -> rx s = noise ++ r ->
  getpacket_loop (length noise + f) Start s = getpacket_loop f Start (set_rx s r).
Proof.
  induction noise as [|c noise IH]; intros f s r Hn Hr.
  - cbn in *. subst r. by destruct s.
  - apply Forall_cons in Hn as [Hc Hn]. cbn [length Nat.add getpacket_loop].
    rewrite (bind_Ret _ _ _ _ _ (getDebugChar_cons _ _ _ Hr)). cbn zeta.
    rewrite (proj2 (Z.eqb_neq _ _) Hc). by erewrite IH.
Qed.

(** Data is stored and summed up to the end of the buffer. *)
Lemma scan_data d : forall f s p q k r,
  is_byte k -> Forall plain d -> rx s = d ++ r -> remcomInBuffer s = p ++ q ->
  (length d < length q)%nat -> Z.of_nat (length p + length d) < 399 ->
  getpacket_loop (length d + f) (Body (Z.of_nat (length p)) k) s =
  getpacket_loop f (Body (Z.of_nat (length (p ++ d))) (u8 (k + foldr Z.add 0 d)))
    (set_in (set_rx s r) ((p ++ d) ++ drop (length d) q)).
Proof.
  induction d as [|c d IH]; intros f s p q k r Hk Hd Hr Hb Hq Hl.
  - cbn in *. subst r. rewrite app_nil_r, drop_0, Z.add_0_r, u8_small, <- Hb by done. by destruct s.
  - apply Forall_cons in Hd as [Hc Hd].
    destruct q as [|x q]; [cbn in Hq; lia|]. cbn [length Nat.add getpacket_loop] in *.
    rewrite (bind_Ret _ _ _ _ _ (getDebugChar_cons _ _ _ Hr)). cbn zeta.
    rewrite u8_plain by done. destruct Hc as (? & ? & ? & ?).
    rewrite !(proj2 (Z.eqb_neq _ _)) by done.
    erewrite bind_Ret by (by eapply put_in_mid).
    rewrite (proj2 (Z.ltb_lt _ _)), <- (length_snoc p c) by (unfold BUFMAX; lia).
    erewrite (IH _ _ (p ++ [c]) q); [|auto with stub|done|done|by rewrite <- app_assoc|lia|].
    + rewrite checksum_cons. by rewrite <- (app_assoc p).
    + rewrite length_app. cbn. lia.
Qed.

(** The end of the data and the checksum [hi lo] that is sent with it. *)
Lemma scan_sum f s p x q k hi lo r :
  rx s = 35 :: hi :: lo :: r -> remcomInBuffer s = p ++ x :: q ->
  getpacket_loop (S (S (S f))) (Body (Z.of_nat (length p)) k) s =
  bind (getpacket_finish k (hexbyte (u8 hi) (u8 lo)))
       (fun o => match o with Some ptr => ret ptr | None => getpacket_loop f Start end)
       (set_in (set_rx s r) (p ++ 0 :: q)).
Proof.
  intros Hr Hb. cbn [getpacket_loop].
  rewrite (bind_Ret _ _ _ _ _ (getDebugChar_cons _ _ _ Hr)). cbn zeta. cbn [u8].
  change (u8 35 =? 36) with false. change (u8 35 =? 35) with true. cbn match.
  erewrite bind_Ret by (by eapply put_in_mid). done.
Qed.

(** A packet with data [d] and checksum characters [hi lo], and the room for it. *)
Definition packet (d : list Z) (hi lo : Z) : list Z := 36 :: d ++ [35; hi; lo].
Definition data_ok (d : list Z) : Prop := Forall plain d /\ (length d <= 398)%nat.
Definition quiet (noise : list Z) : Prop := Forall (fun c => u8 c <> 36) noise.

(** The input buffer with the data of a packet in it. *)
Definition stored (d b : list Z) : list Z := d ++ 0 :: drop (S (length d)) b.

Lemma scan_packet f s noise d hi lo r :
  quiet noise -> data_ok d -> length (remcomInBuffer s) = 400%nat ->
  rx s = noise ++ packet d hi lo ++ r ->
  getpacket_loop (length noise + (length (packet d hi lo) + f)) Start s =
  bind (getpacket_finish (checksum d) (hexbyte (u8 hi) (u8 lo)))
       (fun o => match o with Some ptr => ret ptr | None => getpacket_loop f Start end)
       (set_in (set_rx s r) (stored d (remcomInBuffer s))).
Proof.
  intros Hn [Hd Hl] Hb Hr. rewrite (scan_noise _ _ _ _ Hn Hr).
  unfold packet in *. cbn [app length Nat.add getpacket_loop].
  erewrite bind_Ret by (by eapply getDebugChar_cons). cbn zeta.
  change (u8 36 =? 36) with true. cbn match.
  rewrite length_app, <- Nat.add_assoc.
  rewrite (scan_data d _ _ [] (remcomInBuffer s) 0 (35 :: hi :: lo :: r));
    [|by cbv|done|by cbn; rewrite <- app_assoc|done|lia|cbn; lia].
  cbn [app length Nat.add].
  destruct (drop (length d) (remcomInBuffer s)) as [|x q] eqn:Hq.
  { apply (f_equal length) in Hq. rewrite length_drop in Hq. cbn in Hq. lia. }
  rewrite (scan_sum _ _ d x q _ hi lo r) by done.
  unfold stored. replace (drop (S (length d)) (remcomInBuffer s)) with q; [done|].
  by rewrite <- Nat.add_1_r, <- drop_drop, Hq.
Qed.

(** What the host sees of an accepted packet, and where its request starts. *)
Definition sequence_id (b : list Z) : list Z :=
  if decide (b !! 2%nat = Some 58) then take 2 b else [].
Definition request_at (b : list Z) : Z :=
  if decide (b !! 2%nat = Some 58) then 3 else 0.

Lemma get_in_lookup s (i : nat) c : remcomInBuffer s !! i = Some c -> get_in (Z.of_nat i) s = Ret c s.
Proof. unfold get_in. rewrite rd_nat. by intros ->. Qed.

Lemma finish_good s k :
  length (remcomInBuffer s) = 400%nat ->
  getpacket_finish k k s =
  Ret (Some (request_at (remcomInBuffer s)))
      (set_tx s (tx s ++ 43 :: sequence_id (remcomInBuffer s))).
Proof.
  intros Hl. unfold getpacket_finish, request_at, sequence_id. rewrite Z.eqb_refl.
  destruct (remcomInBuffer s) as [|b0 [|b1 [|b2 b]]] eqn:Hb; [done..|].
  cbn [lookup list_lookup]. unfold bind, putDebugChar, modify.
  rewrite (get_in_lookup _ 2 b2) by (cbn; by rewrite Hb).
  destruct (Z.eqb_spec b2 58) as [->|Hn].
  - rewrite decide_True by done.
    rewrite (get_in_lookup _ 0 b0) by (cbn; by rewrite Hb).
    rewrite (get_in_lookup _ 1 b1) by (cbn; by rewrite Hb).
    cbn. unfold ret, set_tx; cbn. by rewrite <- !app_assoc.
  - rewrite !decide_False by congruence. done.
Qed.

Lemma finish_bad s k x :
  k <> x -> getpacket_finish k x s = Ret None (set_tx s (tx s ++ [45])).
Proof. intros H. unfold getpacket_finish. by rewrite (proj2 (Z.eqb_neq _ _) H). Qed.

Lemma length_stored d b : (length d < length b)%nat -> length (stored d b) = length b.
Proof. intros. unfold stored. rewrite length_app. cbn. rewrite length_drop. lia. Qed.

(** A transmission that arrives damaged: any data whose sum is not the checksum
    that came with it. *)
Record attempt := mk_attempt { before : list Z; data : list Z; sum_hi : Z; sum_lo : Z }.

Definition damaged (a : attempt) : Prop :=
  quiet (before a) /\ data_ok (data a) /\ checksum (data a) <> hexbyte (u8 (sum_hi a)) (u8 (sum_lo a)).
Definition wire (a : attempt) : list Z := before a ++ packet (data a) (sum_hi a) (sum_lo a).

(** Damaged packets are answered with [-] each. *)
Lemma scan_damaged atts : forall f s r,
  Forall damaged atts -> length (remcomInBuffer s) = 400%nat ->
  rx s = mjoin (wire <$> atts) ++ r ->
  exists b, length b = 400%nat /\
  getpacket_loop (length (mjoin (wire <$> atts)) + f) Start s =
  getpacket_loop f Start
    (set_in (set_tx (set_rx s r) (tx s ++ replicate (length atts) 45)) b).
Proof.
  induction atts as [|a atts IH]; intros f s r Ha Hb Hr.
  - exists (remcomInBuffer s). split; [done|]. cbn in *. subst r. rewrite app_nil_r. by destruct s.
  - apply Forall_cons in Ha as [(Hq & Hd & Hs) Ha].
    cbn [fmap list_fmap mjoin list_join] in *. unfold wire in Hr at 1. rewrite <- !app_assoc in Hr.
    edestruct (IH f (set_tx (set_in (set_rx s (mjoin (wire <$> atts) ++ r))
      (stored (data a) (remcomInBuffer s))) (tx s ++ [45])) r) as (b & Hlb & Heq); [done| |done|].
    { cbn. destruct Hd. rewrite length_stored; lia. }
    exists b. split; [done|]. unfold wire at 1. rewrite !length_app, <- !Nat.add_assoc.
    rewrite (scan_packet _ _ _ _ _ _ _ Hq Hd Hb Hr).
    erewrite bind_Ret by (by apply finish_bad).
    etransitivity; [exact Heq|]. cbn. by rewrite <- app_assoc.
Qed.

Lemma frame_packet d :
  frame d = packet d (hexchar (Z.shiftr (checksum d) 4)) (hexchar (checksum d mod 16)).
Proof. done. Qed.

Lemma hexbyte_checksum d :
  hexbyte (u8 (hexchar (Z.shiftr (checksum d) 4))) (u8 (hexchar (checksum d mod 16))) = checksum d.
Proof.
  assert (is_byte (checksum d)) by apply u8_range.
  rewrite !u8_plain by (apply plain_digit; auto with stub). by apply hexbyte_pair.
Qed.

(** A good packet is accepted, and nothing after it is read. *)
Lemma getpacket_good noise d r s :
  quiet noise -> data_ok d -> length (remcomInBuffer s) = 400%nat -> rx s = noise ++ frame d ++ r ->
  let b := stored d (remcomInBuffer s) in
  getpacket s = Ret (request_at b) (set_in (set_tx (set_rx s r) (tx s ++ 43 :: sequence_id b)) b).
Proof.
  intros Hn Hd Hb Hr. unfold getpacket. rewrite Hr, !length_app.
  rewrite frame_packet in *. rewrite (scan_packet _ _ _ _ _ _ r) by done.
  rewrite hexbyte_checksum. erewrite bind_Ret
    by (apply finish_good; cbn; destruct Hd; rewrite length_stored; lia). done.
Qed.

(** The same after any number of damaged transmissions. *)
Lemma getpacket_accepts atts noise d s r :
  Forall damaged atts -> quiet noise -> data_ok d -> length (remcomInBuffer s) = 400%nat ->
  rx s = mjoin (wire <$> atts) ++ noise ++ frame d ++ r ->
  exists b, length b = 400%nat /\
  getpacket s =
  Ret (request_at (stored d b))
      (set_in (set_tx (set_rx s r)
         (tx s ++ replicate (length atts) 45 ++ 43 :: sequence_id (stored d b))) (stored d b)).
Proof.
  intros Ha Hn Hd Hb Hr. unfold getpacket at 1. rewrite Hr, length_app.
  destruct (scan_damaged atts (length (noise ++ frame d ++ r)) s _ Ha Hb Hr) as (b & Hlb & ->). exists b. split; [done|].
  etransitivity; [by apply (getpacket_good noise d r
    (set_in (set_tx (set_rx s (noise ++ frame d ++ r)) (tx s ++ replicate (length atts) 45)) b))|].
  unfold set_tx, set_in, set_rx. cbn [tx rx remcomInBuffer]. by rewrite <- app_assoc.
Qed.

(** The sender repeats the packet until it reads a [+]. *)
Lemma putpacket_data_sends d : forall fuel s p q k,
  Forall (fun c => c <> 0) d -> remcomOutBuffer s = p ++ d ++ 0 :: q -> (length d < fuel)%nat ->
  is_byte k ->
  putpacket_data fuel (Z.of_nat (length p)) k s =
  Ret (u8 (k + foldr Z.add 0 d)) (set_tx s (tx s ++ d)).
Proof.
  induction d as [|c d IH]; intros fuel s p q k Hd Hb Hf Hk;
    (destruct fuel as [|fuel]; [cbn in Hf; lia|]); cbn [putpacket_data].
  - erewrite bind_Ret by (by eapply get_out_mid). cbn.
    rewrite app_nil_r, Z.add_0_r, u8_small by done. by destruct s.
  - apply Forall_cons in Hd as [Hc Hd]. cbn in Hf.
    erewrite bind_Ret by (by eapply get_out_mid).
    rewrite (proj2 (Z.eqb_neq _ _) Hc). unfold putDebugChar, modify at 1. unfold bind at 1.
    rewrite <- (length_snoc p c).
    rewrite (IH _ _ (p ++ [c]) q); [|done|by cbn; rewrite Hb, <- app_assoc|lia|auto with stub].
    rewrite checksum_cons. cbn. by rewrite <- app_assoc.
Qed.

Lemma putpacket_once_sends s d :
  Forall (fun c => c <> 0) d -> (exists q, remcomOutBuffer s = d ++ 0 :: q) ->
  putpacket_once s = Ret tt (set_tx s (tx s ++ frame d)).
Proof.
  intros Hd [q Hq]. unfold putpacket_once, putDebugChar, modify, gets. unfold bind at 1 2.
  erewrite bind_Ret.
  2: { apply (putpacket_data_sends d _ _ [] q 0); [done|done| |by cbv].
       cbn. rewrite Hq, length_app. lia. }
  unfold bind. cbn. unfold set_tx, frame, checksum; cbn. by rewrite <- !app_assoc.
Qed.

Lemma putpacket_repeats nacks : forall s d r,
  Forall (fun c => c <> 0) d -> (exists q, remcomOutBuffer s = d ++ 0 :: q) ->
  Forall (fun c => c <> 43) nacks -> rx s = nacks ++ 43 :: r ->
  putpacket s = Ret tt (set_tx (set_rx s r) (tx s ++ mjoin (replicate (S (length nacks)) (frame d)))).
Proof.
  intros s d r Hd Hq. unfold putpacket.
  assert (forall fuel s, (exists q, remcomOutBuffer s = d ++ 0 :: q) ->
    Forall (fun c => c <> 43) nacks -> rx s = nacks ++ 43 :: r -> (length nacks < fuel)%nat ->
    putpacket_loop fuel s =
    Ret tt (set_tx (set_rx s r) (tx s ++ mjoin (replicate (S (length nacks)) (frame d))))) as Hloop.
  { clear s Hq. induction nacks as [|c nacks IH]; intros fuel s Hq Hn Hr Hf;
      (destruct fuel as [|fuel]; [cbn in Hf; lia|]); cbn [putpacket_loop];
      erewrite bind_Ret by (by apply putpacket_once_sends);
      erewrite bind_Ret by (apply getDebugChar_cons; cbn; by rewrite Hr).
    - cbn. unfold ret. by rewrite app_nil_r.
    - apply Forall_cons in Hn as [Hc Hn]. rewrite (proj2 (Z.eqb_neq _ _) Hc).
      rewrite IH; [|done|done|done|cbn in Hf; lia]. cbn. by rewrite <- app_assoc. }
  intros Hn Hr. apply Hloop; [done..|]. rewrite Hr, length_app. cbn. lia.
Qed.

(** A packet in the output buffer of the sender. *)
Definition holds (d b : list Z) : Prop := exists q, b = d ++ 0 :: q.

Lemma plain_not_null d : Forall plain d -> Forall (fun c => c <> 0) d.
Proof. intros H. eapply Forall_impl; [exact H|]. by intros c (_ & ? & _). Qed.

(** C30. Reliable transmission.  A sender [t] puts the data [d] on a line that
    damages the first [length atts] transmissions; the receiver [s] answers each
    of them with [-] and the first good one with [+].  With these answers the
    sender sends the packet exactly [length atts + 1] times and returns, the
    receiver has the data in its buffer, and what follows on either side of the
    line has not been touched. *)
Theorem packet_transport (t s : stub) (d : list Z) (atts : list attempt) (noise r r' : list Z) :
  data_ok d -> holds d (remcomOutBuffer t) ->
  Forall damaged atts -> quiet noise -> length (remcomInBuffer s) = 400%nat ->
  rx s = mjoin (wire <$> atts) ++ noise ++ frame d ++ r ->
  exists b answers,
    length b = 400%nat /\
    answers = replicate (length atts) 45 ++ 43 :: sequence_id (stored d b) /\
    getpacket s = Ret (request_at (stored d b))
                      (set_in (set_tx (set_rx s r) (tx s ++ answers)) (stored d b)) /\
    putpacket (set_rx t (answers ++ r')) =
    Ret tt (set_tx (set_rx t (sequence_id (stored d b) ++ r'))
                   (tx t ++ mjoin (replicate (length atts + 1) (frame d)))).
Proof.
  intros Hd Ht Ha Hn Hb Hr.
  destruct (getpacket_accepts _ _ _ _ _ Ha Hn Hd Hb Hr) as (b & Hlb & Heq).
  exists b, (replicate (length atts) 45 ++ 43 :: sequence_id (stored d b)).
  split_and!; [done..|].
  rewrite (putpacket_repeats (replicate (length atts) 45) _ d (sequence_id (stored d b) ++ r')).
  - by rewrite length_replicate, Nat.add_1_r.
  - destruct Hd. by apply plain_not_null.
  - exact Ht.
  - by apply Forall_replicate.
  - cbn. by rewrite <- app_assoc.
Qed.

(** ** Reading and writing memory *)

Section Access.
Context (fault : Z -> bool).

(** The byte a pointer designates. *)
Definition peek (s : stub) (l : loc) : option Z :=
  match l with
  | Reg i => rd (registers s) i
  | Ram a => if fault a then None else Some (load8 (ram s) a)
  end.

Definition peeks (s : stub) : loc -> nat -> option (list Z) :=
  fix go l n := match n with
  | O => Some []
  | S n => b ← peek s l; bs ← go (loc_next l) n; Some (b :: bs)
  end.

Lemma get_char_peek s l b : peek s l = Some b -> get_char fault l s = Ret b s.
Proof.
  destruct l as [i|a]; cbn; unfold bind, gets.
  - by intros ->.
  - by destruct (fault a); intros [= ->].
Qed.

(** [mem2hex] puts the text of the bytes and a null character in the buffer. *)
Lemma mem2hex_loop_text n : forall l bs s p q mf,
  peeks s l n = Some bs -> mf && mem_err s = false ->
  remcomOutBuffer s = p ++ q -> (2 * n < length q)%nat ->
  mem2hex_loop fault n l (Z.of_nat (length p)) mf s =
  Ret (Z.of_nat (length (p ++ hextext bs)))
      (set_out (set_hook s (if mf : bool then false else mem_fault_routine s))
               ((p ++ hextext bs) ++ 0 :: drop (S (2 * n)) q)).
Proof.
  induction n as [|n IH]; intros l bs s p q mf Hp He Hb Hq; cbn [mem2hex_loop peeks] in *.
  - injection Hp as <-. destruct q as [|x q]; [cbn in Hq; lia|].
    erewrite bind_Ret by (by eapply put_out_mid). cbn. rewrite app_nil_r, drop_0.
    destruct mf; cbn; [done|]. by destruct s.
  - destruct (peek s l) as [b|] eqn:Hpb; [|done]. cbn in Hp.
    destruct (peeks s (loc_next l) n) as [bs'|] eqn:Hps; [|done]. injection Hp as <-.
    destruct q as [|x [|y q]]; [cbn in Hq; lia..|].
    rewrite (bind_Ret _ _ _ _ _ (get_char_peek _ _ _ Hpb)).
    unfold gets at 1. unfold bind at 1. rewrite He.
    erewrite bind_Ret by (by eapply put_out_mid).
    rewrite <- (length_snoc p (hexchar (Z.shiftr b 4))).
    erewrite bind_Ret by (apply (put_out_mid _ _ y q); apply mid_snoc).
    replace (Z.of_nat (length p) + 2) with (Z.of_nat (length (p ++ hexpair b)))
      by (rewrite length_app; cbn; lia).
    rewrite (IH _ bs' _ (p ++ hexpair b) q); [|done|done| |cbn in Hq; lia].
    + rewrite <- (app_assoc p). replace (2 * S n)%nat with (S (S (2 * n))) by lia. done.
    + cbn. by rewrite <- !app_assoc.
Qed.

Lemma length_peeks s n : forall l bs, peeks s l n = Some bs -> length bs = n.
Proof.
  induction n as [|n IH]; intros l bs; cbn; [by intros [= <-]|].
  destruct (peek s l); [|done]. cbn. destruct (peeks s (loc_next l) n) eqn:E; [|done].
  intros [= <-]. cbn. f_equal. by eapply IH.
Qed.

Lemma mem2hex_text s l bs n mf :
  peeks s l n = Some bs -> mf && mem_err s = false -> (2 * n < length (remcomOutBuffer s))%nat ->
  mem2hex fault l 0 (Z.of_nat n) mf s =
  Ret (Z.of_nat (length (hextext bs)))
      (set_out (set_hook s (if mf : bool then false else mem_fault_routine s))
               (stored (hextext bs) (remcomOutBuffer s))).
Proof.
  intros Hp He Hq. unfold mem2hex, stored. rewrite Nat2Z.id.
  rewrite (length_hextext bs), (length_peeks _ _ _ _ Hp). destruct mf; unfold when, modify, ret; unfold bind at 1.
  - rewrite (mem2hex_loop_text n l bs _ [] (remcomOutBuffer s)); [|done..].
    cbn [app]. by rewrite length_hextext, (length_peeks _ _ _ _ Hp).
  - rewrite (mem2hex_loop_text n l bs _ [] (remcomOutBuffer s)); [|done..].
    cbn [app]. by rewrite length_hextext, (length_peeks _ _ _ _ Hp).
Qed.

(** A fault ends [mem2hex] and is recorded in [mem_err]. *)
Lemma mem2hex_loop_fault n : forall l s p q,
  peeks s l n = None -> (exists a, l = Ram a) -> mem_fault_routine s = true -> mem_err s = false ->
  remcomOutBuffer s = p ++ q -> (2 * n < length q)%nat ->
  exists v b, length b = length (p ++ q) /\
  mem2hex_loop fault n l (Z.of_nat (length p)) true s =
  Ret v (set_out (set_err (set_hook s false) true) b).
Proof.
  induction n as [|n IH]; intros l s p q Hp [a ->] Hh He Hb Hq; cbn [mem2hex_loop peeks] in *; [done|].
  destruct (peek s (Ram a)) as [b|] eqn:Hpb; cbn in Hp.
  - destruct (peeks s (Ram (u32 (a + 1))) n) as [bs'|] eqn:Hps; [done|].
    destruct q as [|x [|y q]]; [cbn in Hq; lia..|].
    rewrite (bind_Ret _ _ _ _ _ (get_char_peek _ _ _ Hpb)).
    unfold gets at 1. unfold bind at 1. rewrite He. cbn [andb].
    erewrite bind_Ret by (by eapply put_out_mid).
    rewrite <- (length_snoc p (hexchar (Z.shiftr b 4))).
    erewrite bind_Ret by (apply (put_out_mid _ _ y q); apply mid_snoc).
    replace (Z.of_nat (length p) + 2) with (Z.of_nat (length (p ++ hexpair b)))
      by (rewrite length_app; cbn; lia).
    match goal with |- context [mem2hex_loop fault n _ _ true ?s1] =>
      destruct (IH (Ram (u32 (a + 1))) s1 (p ++ hexpair b) q) as (v & b' & Hlb & Heq) end;
      [exact Hps|by eexists|done|done|by cbn; rewrite <- !app_assoc|cbn in Hq; lia|].
    exists v, b'. split; [|exact Heq]. rewrite Hlb, !length_app. cbn. lia.
  - cbn in Hpb. destruct (fault a) eqn:Hf; [|done].
    eexists _, (p ++ q). split; [done|]. cbn [get_char]. rewrite Hf.
    unfold bind, mem_fault, gets, bind. rewrite Hh. cbn. rewrite <- Hb. done.
Qed.

(** A text that does not fit runs over the end of the buffer. *)
Lemma mem2hex_loop_overflow n : forall l bs s p q mf,
  peeks s l n = Some bs -> mf && mem_err s = false ->
  remcomOutBuffer s = p ++ q -> (length q <= 2 * n)%nat ->
  mem2hex_loop fault n l (Z.of_nat (length p)) mf s = Crash.
Proof.
  assert (forall s p v k, remcomOutBuffer s = p -> Z.of_nat (length p) <= k -> put_out k v s = Crash) as Hend.
  { intros s p v k Hb Hk. unfold put_out. rewrite Hb, wr_None by lia. done. }
  induction n as [|n IH]; intros l bs s p q mf Hp He Hb Hq; cbn [mem2hex_loop peeks] in *.
  - destruct q; [|cbn in Hq; lia]. rewrite app_nil_r in Hb. unfold bind.
    by rewrite (Hend _ p) by (done || lia).
  - destruct (peek s l) as [b|] eqn:Hpb; [|done]. cbn in Hp.
    destruct (peeks s (loc_next l) n) as [bs'|] eqn:Hps; [|done].
    rewrite (bind_Ret _ _ _ _ _ (get_char_peek _ _ _ Hpb)).
    unfold gets at 1. unfold bind at 1. rewrite He.
    destruct q as [|x q].
    { rewrite app_nil_r in Hb. unfold bind. by rewrite (Hend _ p) by (done || lia). }
    erewrite bind_Ret by (by eapply put_out_mid).
    rewrite <- (length_snoc p (hexchar (Z.shiftr b 4))).
    destruct q as [|y q].
    { unfold bind. by rewrite (Hend _ (p ++ [hexchar (Z.shiftr b 4)])) by (done || lia). }
    erewrite bind_Ret by (apply (put_out_mid _ _ y q); apply mid_snoc).
    replace (Z.of_nat (length p) + 2) with (Z.of_nat (length (p ++ hexpair b)))
      by (rewrite length_app; cbn; lia).
    apply (IH _ bs' _ (p ++ hexpair b) q); [done|done| |cbn in Hq; lia].
    cbn. by rewrite <- !app_assoc.
Qed.

Lemma mem2hex_fault s a n :
  peeks s (Ram a) n = None -> mem_err s = false -> (2 * n < length (remcomOutBuffer s))%nat ->
  exists v b, length b = length (remcomOutBuffer s) /\
    mem2hex fault (Ram a) 0 (Z.of_nat n) true s = Ret v (set_out (set_err (set_hook s false) true) b).
Proof.
  intros Hp He Hq. unfold mem2hex, when, modify. rewrite Nat2Z.id. unfold bind at 1.
  by apply (mem2hex_loop_fault n (Ram a) (set_hook s true) [] (remcomOutBuffer s));
    [|eexists|..].
Qed.

Lemma mem2hex_overflow s l bs n :
  peeks s l n = Some bs -> mem_err s = false -> (length (remcomOutBuffer s) <= 2 * n)%nat ->
  mem2hex fault l 0 (Z.of_nat n) true s = Crash.
Proof.
  intros Hp He Hq. unfold mem2hex, when, modify. rewrite Nat2Z.id. unfold bind at 1.
  by apply (mem2hex_loop_overflow n l bs (set_hook s true) [] (remcomOutBuffer s)).
Qed.

(** Storing a byte, and storing several. *)
Definition poke (s : stub) (l : loc) (v : Z) : option stub :=
  match l with
  | Reg i => b ← wr (registers s) i (u8 v); Some (set_registers s b)
  | Ram a => if fault a then None else Some (set_ram s (store8 (ram s) a v))
  end.

Fixpoint pokes (s : stub) (l : loc) (bs : list Z) : option stub :=
  match bs with
  | [] => Some s
  | b :: bs => s' ← poke s l b; pokes s' (loc_next l) bs
  end.

Fixpoint unhex (t : list Z) : list Z :=
  match t with
  | a :: b :: t => hexbyte a b :: unhex t
  | _ => []
  end.

Lemma unhex_hextext bs : Forall is_byte bs -> unhex (hextext bs) = bs.
Proof.
  induction 1 as [|b bs Hb _ IH]; [done|].
  change (hextext (b :: bs)) with (hexpair b ++ hextext bs). cbn. by rewrite hexbyte_pair, IH.
Qed.

Lemma set_char_poke s l v s' : poke s l v = Some s' -> set_char fault l v s = Ret tt s'.
Proof.
  destruct l as [i|a]; cbn; unfold bind, gets.
  - destruct (wr _ _ _); [|done]. by intros [= <-].
  - destruct (fault a); [done|]. by intros [= <-].
Qed.

Lemma poke_frame s l v s' :
  poke s l v = Some s' -> s' = set_ram (set_registers s (registers s')) (ram s').
Proof.
  destruct s, l as [i|a]; cbn.
  - destruct (wr _ _ _); [|done]. by intros [= <-].
  - destruct (fault a); [done|]. by intros [= <-].
Qed.

Lemma hex2mem_loop_stores n : forall l t s s' p q mf,
  length t = (2 * n)%nat -> pokes s l (unhex t) = Some s' -> mf && mem_err s = false ->
  remcomInBuffer s = p ++ t ++ q ->
  hex2mem_loop fault n (Z.of_nat (length p)) l mf s =
  Ret tt (set_hook s' (if mf : bool then false else mem_fault_routine s)).
Proof.
  induction n as [|n IH]; intros l t s s' p q mf Ht Hp He Hb; cbn [hex2mem_loop].
  - destruct t; [|cbn in Ht; lia]. injection Hp as <-. destruct mf; [done|]. by destruct s.
  - destruct t as [|a [|b t]]; [cbn in Ht; lia..|]. cbn [unhex pokes] in Hp.
    destruct (poke s l (hexbyte a b)) as [s1|] eqn:Hs1; [|done]. cbn in Hp.
    assert (mem_err s1 = mem_err s /\ mem_fault_routine s1 = mem_fault_routine s /\
            remcomInBuffer s1 = remcomInBuffer s) as (He1 & Hh1 & Hb1)
      by (by rewrite (poke_frame _ _ _ _ Hs1)).
    erewrite bind_Ret by (by eapply get_in_mid).
    rewrite <- (length_snoc p a).
    erewrite bind_Ret by (apply (get_in_mid _ _ b (t ++ q)); rewrite Hb; apply mid_snoc).
    erewrite bind_Ret by (by apply set_char_poke).
    unfold gets at 1. unfold bind at 1. rewrite He1, He.
    replace (Z.of_nat (length p) + 2) with (Z.of_nat (length (p ++ [a; b])))
      by (rewrite length_app; cbn; lia).
    rewrite (IH _ t _ s' (p ++ [a; b]) q); [|cbn in Ht; lia|done|by rewrite He1|].
    + by rewrite Hh1.
    + by rewrite Hb1, Hb, <- app_assoc.
Qed.

Lemma hex2mem_stores n l t s s' p q mf :
  length t = (2 * n)%nat -> pokes (if mf : bool then set_hook s true else s) l (unhex t) = Some s' ->
  mf && mem_err s = false -> remcomInBuffer s = p ++ t ++ q ->
  hex2mem fault (Z.of_nat (length p)) l (Z.of_nat n) mf s =
  Ret tt (set_hook s' (if mf : bool then false else mem_fault_routine s)).
Proof.
  intros Ht Hp He Hb. unfold hex2mem. rewrite Nat2Z.id.
  destruct mf; unfold when, modify, ret; unfold bind at 1;
    by erewrite hex2mem_loop_stores.
Qed.

Lemma length_unhex n : forall t, length t = (2 * n)%nat -> length (unhex t) = n.
Proof.
  induction n as [|n IH]; intros t Ht; [by destruct t|].
  destruct t as [|x [|y t]]; [cbn in Ht; lia..|]. cbn. f_equal. apply IH. cbn in Ht. lia.
Qed.

(** The memory after the bytes [bs] were stored from address [a] on. *)
Fixpoint store_bytes (m : mem) (a : Z) (bs : list Z) : mem :=
  match bs with
  | [] => m
  | b :: bs => store_bytes (store8 m a b) (u32 (a + 1)) bs
  end.

(** The addresses of [n] bytes from [a] on, and that none of them faults. *)
Definition within (a : Z) (n : nat) (x : Z) : Prop := exists i : nat, (i < n)%nat /\ x = u32 (a + Z.of_nat i).
Definition accessible (a : Z) (n : nat) : Prop := forall i : nat, (i < n)%nat -> fault (u32 (a + Z.of_nat i)) = false.

Lemma u32_next a (i : nat) : u32 (u32 (u32 a + 1) + Z.of_nat i) = u32 (u32 a + Z.of_nat (S i)).
Proof. rewrite u32_add_l. f_equal. lia. Qed.

Lemma accessible_S a n :
  accessible (u32 a) (S n) -> fault (u32 a) = false /\ accessible (u32 (u32 a + 1)) n.
Proof.
  intros H. split.
  - specialize (H 0%nat ltac:(lia)). by rewrite Z.add_0_r, u32_idem in H.
  - intros i Hi. rewrite u32_next. apply H. lia.
Qed.

Lemma pokes_ram bs : forall s a,
  accessible (u32 a) (length bs) ->
  pokes s (Ram (u32 a)) bs = Some (set_ram s (store_bytes (ram s) (u32 a) bs)).
Proof.
  induction bs as [|b bs IH]; intros s a Ha; cbn [pokes store_bytes].
  - by destruct s.
  - apply accessible_S in Ha as [Hf Ha]. cbn [poke]. rewrite Hf. cbn [mbind option_bind loc_next].
    by rewrite IH.
Qed.

Lemma load_store m x y v : load8 (store8 m x v) y = if decide (x = y) then u8 v else load8 m y.
Proof.
  unfold load8, store8. case_decide as H.
  - subst. rewrite lookup_insert_eq. cbn. unfold u8. by rewrite Z.mod_mod.
  - by rewrite lookup_insert_ne.
Qed.

Lemma store_bytes_outside bs : forall m a x,
  ~ within (u32 a) (length bs) x -> load8 (store_bytes m (u32 a) bs) x = load8 m x.
Proof.
  induction bs as [|b bs IH]; intros m a x Hx; cbn; [done|].
  rewrite IH.
  - rewrite load_store, decide_False; [done|]. intros <-. apply Hx. exists 0%nat.
    split; [cbn; lia|]. by rewrite Z.add_0_r, u32_idem.
  - intros (i & Hi & ->). apply Hx. exists (S i). split; [cbn; lia|].
    apply u32_next.
Qed.

Lemma store_bytes_inside bs : forall m a (i : nat) b,
  Z.of_nat (length bs) <= 4294967296 -> bs !! i = Some b ->
  load8 (store_bytes m (u32 a) bs) (u32 (u32 a + Z.of_nat i)) = u8 b.
Proof.
  induction bs as [|b0 bs IH]; intros m a i b Hl Hi; [done|]. cbn [store_bytes length] in *.
  destruct i as [|i]; cbn in Hi.
  - injection Hi as ->. rewrite Z.add_0_r, u32_idem, store_bytes_outside.
    + rewrite load_store. by rewrite decide_True.
    + intros (j & Hj & Heq). rewrite u32_next, u32_add_l in Heq.
      apply (mod_eq_close a (a + Z.of_nat (S j)) 4294967296) in Heq; lia.
  - rewrite <- (IH (store8 m (u32 a) b0) (u32 a + 1) i b) by (done || lia).
    by rewrite u32_next.
Qed.

Lemma peeks_ram n : forall s a,
  accessible (u32 a) n ->
  exists bs, peeks s (Ram (u32 a)) n = Some bs /\ length bs = n /\
    forall i, (i < n)%nat -> bs !! i = Some (load8 (ram s) (u32 (u32 a + Z.of_nat i))).
Proof.
  induction n as [|n IH]; intros s a Ha; cbn [peeks].
  - exists []. split_and!; [done..|lia].
  - apply accessible_S in Ha as [Hf Ha]. cbn [peek]. rewrite Hf. cbn [mbind option_bind loc_next].
    destruct (IH s (u32 a + 1) Ha) as (bs & -> & Hl & Hi). cbn.
    eexists. split; [done|]. split; [cbn; lia|]. intros [|i] ?; cbn.
    + by rewrite Z.add_0_r, u32_idem.
    + rewrite Hi by lia. by rewrite u32_next.
Qed.

(** The registers. *)
Lemma pokes_reg bs : forall s p q,
  registers s = p ++ q -> (length bs <= length q)%nat -> Forall is_byte bs ->
  pokes s (Reg (Z.of_nat (length p))) bs = Some (set_registers s (p ++ bs ++ drop (length bs) q)).
Proof.
  induction bs as [|b bs IH]; intros s p q Hr Hl Hb; cbn [pokes].
  - rewrite app_nil_l, drop_0, <- Hr. by destruct s.
  - destruct q as [|x q]; [cbn in Hl; lia|]. apply Forall_cons in Hb as [Hb0 Hb].
    cbn [poke]. rewrite Hr, wr_mid, u8_small by done. cbn [mbind option_bind loc_next].
    rewrite <- (length_snoc p b), (IH _ (p ++ [b]) q); [|by rewrite mid_snoc|cbn in Hl; lia|done].
    cbn. by rewrite <- app_assoc.
Qed.

Lemma peeks_reg n : forall s p q,
  registers s = p ++ q -> (n <= length q)%nat ->
  peeks s (Reg (Z.of_nat (length p))) n = Some (take n q).
Proof.
  induction n as [|n IH]; intros s p q Hr Hl; cbn [peeks]; [done|].
  destruct q as [|x q]; [cbn in Hl; lia|]. cbn [peek]. rewrite Hr, rd_mid. cbn [mbind option_bind loc_next].
  rewrite <- (length_snoc p x), (IH _ (p ++ [x]) q); [done|by rewrite Hr, mid_snoc|cbn in Hl; lia].
Qed.

End Access.

(** ** Numbers *)

Definition hexdigits (ds : list Z) : Prop := Forall (fun c => 0 <= hex c) ds.
Definition hexval_from (v : Z) (ds : list Z) : Z := foldl (fun v c => 16 * v + hex c) v ds.
Definition hexval (ds : list Z) : Z := hexval_from 0 ds.

Lemma hex_range c : -1 <= hex c < 16.
Proof. unfold hex. repeat case_match; lia. Qed.

Lemma digit_char c : 0 <= hex c -> 48 <= c <= 57 \/ 65 <= c <= 70 \/ 97 <= c <= 102.
Proof. unfold hex. repeat case_match; lia. Qed.

Lemma s32_shift_in v h : 0 <= h < 16 -> s32 (Z.lor (s32 (Z.shiftl v 4)) h) = s32 (16 * v + h).
Proof.
  intros. rewrite Z.shiftl_mul_pow2 by lia. change (2 ^ 4) with 16.
  assert (exists x, s32 (v * 16) = x * 16) as [x Hx].
  { exists (v - 268435456 * ((v * 16 + 2147483648) / 4294967296)). unfold s32. zmod. }
  rewrite Hx. replace (x * 16) with (Z.shiftl x 4) by (by rewrite Z.shiftl_mul_pow2 by lia).
  rewrite lor_shift by lia. change (2 ^ 4) with 16. rewrite <- Hx. unfold s32. zmod.
Qed.

Lemma s32_linear v w h : s32 v = s32 w -> s32 (16 * v + h) = s32 (16 * w + h).
Proof. unfold s32. intros. zmod. Qed.

Lemma s32_s32 v : s32 (s32 v) = s32 v.
Proof. unfold s32. zmod. Qed.

Lemma hexToInt_loop_reads ds : forall fuel s p c q n v w,
  hexdigits ds -> hex c < 0 -> remcomInBuffer s = p ++ ds ++ c :: q -> (length ds < fuel)%nat ->
  s32 v = s32 w -> s32 v = v ->
  hexToInt_loop fuel (Z.of_nat (length p)) n v s =
  Ret (n + Z.of_nat (length ds), s32 (hexval_from w ds), Z.of_nat (length (p ++ ds))) s.
Proof.
  induction ds as [|d ds IH]; intros fuel s p c q n v w Hd Hc Hb Hf Hvw Hv;
    (destruct fuel as [|fuel]; [cbn in Hf; lia|]); cbn [hexToInt_loop].
  - erewrite bind_Ret by (by eapply get_in_mid). cbn. rewrite app_nil_r, Z.add_0_r, <- Hvw, Hv.
    rewrite (proj2 (Z.leb_gt _ _) Hc). by destruct (c =? 0).
  - apply Forall_cons in Hd as [Hd0 Hd]. cbn in Hf.
    erewrite bind_Ret by (by eapply get_in_mid). cbn zeta.
    rewrite (proj2 (Z.eqb_neq d 0)) by (apply digit_char in Hd0; lia).
    rewrite (proj2 (Z.leb_le _ _) Hd0), <- (length_snoc p d).
    pose proof (hex_range d). rewrite s32_shift_in by lia.
    rewrite (IH _ _ (p ++ [d]) c q _ _ (16 * w + hex d)); [|done|done| |lia| |apply s32_s32].
    + rewrite <- app_assoc. cbn. by replace (n + 1 + Z.of_nat (length ds)) with (n + Z.of_nat (S (length ds))) by lia.
    + by rewrite Hb, <- app_assoc.
    + rewrite s32_s32. by apply s32_linear.
Qed.

(** [hexToInt] reads the digits up to the first character that is none. *)
Lemma hexToInt_reads s p ds c q :
  hexdigits ds -> hex c < 0 -> remcomInBuffer s = p ++ ds ++ c :: q ->
  hexToInt (Z.of_nat (length p)) s =
  Ret (Z.of_nat (length ds), s32 (hexval ds), Z.of_nat (length (p ++ ds))) s.
Proof.
  intros Hd Hc Hb. unfold hexToInt, gets. unfold bind at 1.
  rewrite (hexToInt_loop_reads ds _ _ p c q _ _ 0); try done.
  rewrite Hb, !length_app. lia.
Qed.

(** ** Serving a request *)

(** The output buffer after [strcpy] of a text. *)
Lemma strcpy_text t : forall s p q,
  Forall (fun c => c <> 0) t -> remcomOutBuffer s = p ++ q -> (length t < length q)%nat ->
  strcpy (Z.of_nat (length p)) (t ++ [0]) s = Ret tt (set_out s (p ++ t ++ 0 :: drop (S (length t)) q)).
Proof.
  induction t as [|c t IH]; intros s p q Ht Hb Hl;
    (destruct q as [|x q]; [cbn in Hl; lia|]); cbn [app strcpy Z.eqb].
  - erewrite (put_out_mid _ p x q) by done. cbn. by rewrite drop_0.
  - apply Forall_cons in Ht as [Hc Ht]. rewrite (proj2 (Z.eqb_neq _ _) Hc).
    erewrite bind_Ret by (by eapply put_out_mid). rewrite <- (length_snoc p c).
    rewrite (IH _ (p ++ [c]) q); [|done|apply mid_snoc|cbn in Hl; lia].
    cbn. by rewrite <- app_assoc.
Qed.

Lemma strcpy_reply t s :
  Forall (fun c => c <> 0) t -> (length t < length (remcomOutBuffer s))%nat ->
  strcpy 0 (t ++ [0]) s = Ret tt (set_out s (stored t (remcomOutBuffer s))).
Proof. intros Ht Hl. exact (strcpy_text t s [] (remcomOutBuffer s) Ht eq_refl Hl). Qed.

(** The state in which a request [d] is looked at. *)
Definition received (s : stub) (d r : list Z) : stub :=
  set_in (set_tx (set_rx (set_out s (0 :: drop 1 (remcomOutBuffer s))) r) (tx s ++ [43]))
         (stored d (remcomInBuffer s)).

Lemma serve_dispatched fault sigval s c d r :
  data_ok (c :: d) -> length (remcomInBuffer s) = 400%nat -> length (remcomOutBuffer s) = 400%nat -> stored (c :: d) (remcomInBuffer s) !! 2%nat <> Some 58 ->
  rx s = frame (c :: d) ++ r ->
  serve fault sigval s = bind (dispatch fault sigval c 1) (fun _ => putpacket) (received s (c :: d) r).
Proof.
  intros Hd Hi Ho Hseq Hr. unfold serve, received.
  destruct (remcomOutBuffer s) as [|o out] eqn:Hout; [cbn in Ho; lia|].
  erewrite bind_Ret by (by apply (put_out_mid _ [] o out)).
  erewrite bind_Ret by (apply (getpacket_good [] (c :: d) r); [by constructor|done..]).
  unfold request_at, sequence_id. rewrite !decide_False by done.
  by erewrite bind_Ret by (by apply (get_in_lookup _ 0%nat c)).
Qed.

Lemma serve_reply fault sigval s c d r reply s1 :
  data_ok (c :: d) -> length (remcomInBuffer s) = 400%nat -> length (remcomOutBuffer s) = 400%nat ->
  stored (c :: d) (remcomInBuffer s) !! 2%nat <> Some 58 ->
  rx s = frame (c :: d) ++ 43 :: r ->
  dispatch fault sigval c 1 (received s (c :: d) (43 :: r)) = Ret tt s1 ->
  rx s1 = 43 :: r -> holds reply (remcomOutBuffer s1) -> Forall (fun c => c <> 0) reply ->
  serve fault sigval s = Ret tt (set_tx (set_rx s1 r) (tx s1 ++ frame reply)).
Proof.
  intros Hd Hi Ho Hseq Hr Hdis Hr1 Hh Hz.
  rewrite (serve_dispatched _ _ _ c d (43 :: r)), (bind_Ret _ _ _ _ _ Hdis) by done.
  rewrite (putpacket_repeats [] s1 reply r); [|done|done|by constructor|done].
  cbn. by rewrite app_nil_r.
Qed.

(** The effect of a served request on the line and the buffers; its third
    character stays in the input buffer and is not the [:] of a sequence number. *)
Definition buffers_ok (s : stub) : Prop :=
  length (remcomInBuffer s) = 400%nat /\ length (remcomOutBuffer s) = 400%nat.
Definition answered (s s' : stub) (r reply : list Z) : Prop :=
  rx s' = r /\ tx s' = tx s ++ 43 :: frame reply /\ buffers_ok s' /\
  remcomInBuffer s' !! 2%nat <> Some 58.

Lemma u32_s32 v : u32 (s32 v) = u32 v.
Proof. zwrap. Qed.

(** A number at [p] and the character that ends it. *)
Lemma number_at s p ds c q :
  hexdigits ds -> ds <> [] -> hex c < 0 -> remcomInBuffer s = p ++ ds ++ c :: q ->
  exists n, n =? 0 = false /\
    hexToInt (Z.of_nat (length p)) s = Ret (n, s32 (hexval ds), Z.of_nat (length (p ++ ds))) s /\
    get_in (Z.of_nat (length (p ++ ds))) s = Ret c s.
Proof.
  intros Hd Hne Hc Hb. exists (Z.of_nat (length ds)). split_and!.
  - apply Z.eqb_neq. by destruct ds.
  - by eapply hexToInt_reads.
  - eapply get_in_mid. by rewrite <- app_assoc.
Qed.

Definition read_request (ds ls : list Z) : list Z := 109 :: ds ++ 44 :: ls.
Definition write_request (ds ls t : list Z) : list Z := 77 :: ds ++ 44 :: ls ++ 58 :: t.

(** The numbers of a request. *)
Definition number (ds : list Z) (v : Z) : Prop := hexdigits ds /\ ds <> [] /\ hexval ds = v.

Lemma third_not_colon c ds sep rest :
  hexdigits ds -> ds <> [] -> sep <> 58 -> (c :: ds ++ sep :: rest) !! 2%nat <> Some 58.
Proof.
  intros Hd Hne Hsep. destruct ds as [|d0 [|d1 ds]]; [done|cbn; congruence|]. cbn.
  apply Forall_cons in Hd as [_ Hd]. apply Forall_cons in Hd as [Hd _].
  apply digit_char in Hd. intros [= ->]. lia.
Qed.

Lemma holds_stored d b : holds d (stored d b).
Proof. by eexists. Qed.

Lemma cmd_write_stores fault s p ds ls t n a q :
  number ds a -> number ls (Z.of_nat n) -> Z.of_nat n < 2147483648 ->
  length t = (2 * n)%nat -> remcomInBuffer s = p ++ ds ++ 44 :: ls ++ 58 :: t ++ q ->
  accessible fault (u32 a) n -> (2 < length (remcomOutBuffer s))%nat ->
  cmd_write fault (Z.of_nat (length p)) s =
  Ret tt (set_out (set_hook (set_err (set_ram s (store_bytes (ram s) (u32 a) (unhex t))) false) false)
            (stored [79; 75] (remcomOutBuffer s))).
Proof.
  intros (Hd & Hdn & Ha) (Hl & Hln & Hn) Hn32 Ht Hb Hacc Ho. unfold cmd_write.
  destruct (number_at s p ds 44 _ Hd Hdn ltac:(by vm_compute) Hb) as (k & Hk & H1 & H2).
  rewrite (bind_Ret _ _ _ _ _ H1), Hk, (bind_Ret _ _ _ _ _ H2). cbn [negb Z.eqb Pos.eqb].
  rewrite <- (length_snoc (p ++ ds) 44).
  destruct (number_at s ((p ++ ds) ++ [44]) ls 58 (t ++ q) Hl Hln) as (k' & Hk' & H3 & H4);
    [by vm_compute|by rewrite Hb, <- !app_assoc|].
  rewrite (bind_Ret _ _ _ _ _ H3), Hk', (bind_Ret _ _ _ _ _ H4). cbn [negb Z.eqb Pos.eqb].
  rewrite <- (length_snoc (_ ++ ls) 58). unfold modify at 1. unfold bind at 1.
  rewrite Ha, Hn, u32_s32, s32_small by lia.
  erewrite bind_Ret; [|eapply (hex2mem_stores fault n _ t _ _ _ q true);
    [done|apply pokes_ram; by rewrite (length_unhex n)|done|by cbn; rewrite Hb, <- !app_assoc]].
  unfold gets, bind. cbn [mem_err set_hook set_ram set_err].
  etransitivity; [apply (strcpy_reply [79; 75]); [by repeat constructor|done]|done].
Qed.

(** The arguments of a read request have been parsed. *)
Lemma cmd_read_parsed fault s p ds ls n a c q :
  number ds a -> number ls (Z.of_nat n) -> Z.of_nat n < 2147483648 -> hex c < 0 ->
  remcomInBuffer s = p ++ ds ++ 44 :: ls ++ c :: q ->
  cmd_read fault (Z.of_nat (length p)) s =
  bind (mem2hex fault (Ram (u32 a)) 0 (Z.of_nat n) true)
    (fun _ => bind (gets mem_err) (fun err => when err (strcpy 0 E03))) (set_err s false).
Proof.
  intros (Hd & Hdn & Ha) (Hl & Hln & Hn) Hlt Hc Hb. unfold cmd_read.
  destruct (number_at s p ds 44 _ Hd Hdn ltac:(by vm_compute) Hb) as (k & Hk & H1 & H2).
  rewrite (bind_Ret _ _ _ _ _ H1), Hk, (bind_Ret _ _ _ _ _ H2). cbn [negb Z.eqb Pos.eqb].
  rewrite <- (length_snoc (p ++ ds) 44).
  destruct (number_at s ((p ++ ds) ++ [44]) ls c q Hl Hln Hc) as (k' & Hk' & H3 & H4);
    [by rewrite Hb, <- !app_assoc|].
  rewrite (bind_Ret _ _ _ _ _ H3), Hk'. unfold modify at 1. unfold bind at 1.
  by rewrite Ha, Hn, u32_s32, s32_small by lia.
Qed.

Lemma cmd_read_text fault s p ds ls n a c q :
  number ds a -> number ls (Z.of_nat n) -> hex c < 0 ->
  remcomInBuffer s = p ++ ds ++ 44 :: ls ++ c :: q ->
  accessible fault (u32 a) n -> (2 * n < length (remcomOutBuffer s) <= 400)%nat ->
  exists bs, peeks fault s (Ram (u32 a)) n = Some bs /\
  cmd_read fault (Z.of_nat (length p)) s =
  Ret tt (set_out (set_hook (set_err s false) false) (stored (hextext bs) (remcomOutBuffer s))).
Proof.
  intros Hd Hl Hc Hb Hacc Ho.
  destruct (peeks_ram fault n s a Hacc) as (bs & Hbs & _). exists bs. split; [done|].
  erewrite (cmd_read_parsed _ _ _ _ _ _ a); [|done|done|lia|done|done].
  erewrite bind_Ret by (apply (mem2hex_text fault _ _ bs n true); [exact Hbs|done|cbn; lia]).
  done.
Qed.

Lemma length_received s d r :
  buffers_ok s -> data_ok d -> buffers_ok (received s d r).
Proof.
  intros [Hi Ho] [_ Hl]. split; cbn.
  - rewrite length_stored; lia.
  - rewrite length_drop. lia.
Qed.

Lemma data_ok_write ds ls t : data_ok (write_request ds ls t) -> (length t <= 398)%nat.
Proof. intros [_ H]. cbn in H. rewrite !length_app in H. cbn in H. rewrite length_app in H. cbn in H. lia. Qed.

Lemma serve_answers fault sigval s c d r reply m regs s1 :
  data_ok (c :: d) -> buffers_ok s -> stored (c :: d) (remcomInBuffer s) !! 2%nat <> Some 58 ->
  rx s = frame (c :: d) ++ 43 :: r ->
  dispatch fault sigval c 1 (received s (c :: d) (43 :: r)) = Ret tt s1 ->
  rx s1 = 43 :: r -> tx s1 = tx s ++ [43] -> buffers_ok s1 ->
  remcomInBuffer s1 = stored (c :: d) (remcomInBuffer s) ->
  holds reply (remcomOutBuffer s1) -> Forall (fun c => c <> 0) reply ->
  ram s1 = m -> registers s1 = regs ->
  exists s', serve fault sigval s = Ret tt s' /\ answered s s' r reply /\
    ram s' = m /\ registers s' = regs.
Proof.
  intros Hd [Hi Ho] Hseq Hr Hdis Hr1 Ht1 Hb1 Hi1 Hh Hz <- <-.
  eexists. split; [by eapply serve_reply|]. split; [|done]. split; [done|].
  split; [|split; [done|cbn; by rewrite Hi1]]. cbn. by rewrite Ht1, <- app_assoc.
Qed.

Lemma stored_app d x b : exists q, stored (d ++ x) b = d ++ x ++ 0 :: q.
Proof. unfold stored. eexists. by rewrite <- app_assoc. Qed.

Lemma buffers_ok_reply s t x : buffers_ok s -> (length t < 400)%nat ->
  remcomInBuffer x = remcomInBuffer s -> remcomOutBuffer x = stored t (remcomOutBuffer s) -> buffers_ok x.
Proof. intros [Hi Ho] Ht H1 H2. split; [by rewrite H1|]. rewrite H2, length_stored; lia. Qed.

(** A request [M<addr>,<n>:<text>] stores the bytes the text denotes at
    the address, answers [OK], and leaves the registers alone. *)
Lemma serve_write fault sigval s ds ls t n a r :
  number ds a -> number ls (Z.of_nat n) -> length t = (2 * n)%nat ->
  data_ok (write_request ds ls t) -> buffers_ok s -> accessible fault (u32 a) n ->
  rx s = frame (write_request ds ls t) ++ 43 :: r ->
  exists s', serve fault sigval s = Ret tt s' /\ answered s s' r [79; 75] /\
    ram s' = store_bytes (ram s) (u32 a) (unhex t) /\ registers s' = registers s.
Proof.
  intros Hd Hl Ht Hok Hbuf Hacc Hr. pose proof (data_ok_write _ _ _ Hok).
  pose proof (length_received s _ (43 :: r) Hbuf Hok) as Hrec.
  eapply (serve_answers fault sigval s 77 _ r [79; 75]); [done..| |exact Hr| | | | | | | | |].
  - unfold stored. cbn [app]. rewrite <- app_assoc. destruct Hd as (? & ? & ?).
    by apply third_not_colon.
  - apply (cmd_write_stores fault (received s (write_request ds ls t) (43 :: r)) [77] ds ls t n a
        (0 :: drop (S (length (write_request ds ls t))) (remcomInBuffer s))); [done|done|lia|done| |done|].
    + unfold received, stored, write_request. cbn [remcomInBuffer set_in]. by flatten.
    + destruct Hrec. lia.
  - done.
  - done.
  - by apply (buffers_ok_reply (received s (write_request ds ls t) (43 :: r)) [79; 75]); [|cbn; lia|..].
  - done.
  - apply holds_stored.
  - by repeat constructor.
  - done.
  - done.
Qed.

(** The bytes of [n] addresses from [a] on. *)
Definition bytes_of (m : mem) (a : Z) (n : nat) : list Z :=
  (fun i => load8 m (u32 (a + Z.of_nat i))) <$> seq 0 n.

Lemma bytes_of_bytes m a n : Forall is_byte (bytes_of m a n).
Proof. apply Forall_fmap, Forall_forall. intros i _. apply u8_range. Qed.

Lemma peeks_bytes_of fault s a n :
  accessible fault (u32 a) n -> peeks fault s (Ram (u32 a)) n = Some (bytes_of (ram s) (u32 a) n).
Proof.
  intros Ha. destruct (peeks_ram fault n s a Ha) as (bs & -> & Hl & Hi). f_equal.
  apply list_eq_same_length with n; [by unfold bytes_of; rewrite length_fmap, length_seq|done|].
  intros i x y Hlt Hx Hy. rewrite Hi in Hx by done. injection Hx as <-.
  unfold bytes_of in Hy. rewrite list_lookup_fmap, lookup_seq_lt in Hy by done.
  by injection Hy as <-.
Qed.

Lemma request_third s ds ls c :
  hexdigits ds -> ds <> [] -> stored (c :: ds ++ 44 :: ls) (remcomInBuffer s) !! 2%nat <> Some 58.
Proof. intros. unfold stored. cbn [app]. rewrite <- app_assoc. by apply third_not_colon. Qed.

(** A request [m<addr>,<n>] for at most 199 bytes is answered with the text
    of the bytes at these addresses; memory and registers are unchanged. *)
Lemma serve_read fault sigval s ds ls n a r :
  number ds a -> number ls (Z.of_nat n) -> (n <= 199)%nat ->
  data_ok (read_request ds ls) -> buffers_ok s -> accessible fault (u32 a) n ->
  rx s = frame (read_request ds ls) ++ 43 :: r ->
  exists s', serve fault sigval s = Ret tt s' /\
    answered s s' r (hextext (bytes_of (ram s) (u32 a) n)) /\
    ram s' = ram s /\ registers s' = registers s.
Proof.
  intros Hd Hl Hn Hok Hbuf Hacc Hr.
  pose proof (length_received s _ (43 :: r) Hbuf Hok) as Hrec.
  destruct (cmd_read_text fault (received s (read_request ds ls) (43 :: r)) [109] ds ls n a 0
    (drop (S (length (read_request ds ls))) (remcomInBuffer s))) as (bs & Hbs & Heq);
    [done|done|by vm_compute| |done|destruct Hrec; lia|].
  { unfold received, stored, read_request. cbn [remcomInBuffer set_in]. by flatten. }
  rewrite peeks_bytes_of in Hbs by done. injection Hbs as <-.
  eapply (serve_answers fault sigval s 109); [done..| |exact Hr|exact Heq| | | | | | | |].
  - destruct Hd as (? & ? & ?). by apply request_third.
  - done.
  - done.
  - eapply (buffers_ok_reply (received s (read_request ds ls) (43 :: r))); [done| |done|done].
    rewrite length_hextext. unfold bytes_of. rewrite length_fmap, length_seq. lia.
  - done.
  - apply holds_stored.
  - apply plain_not_null, plain_hextext, bytes_of_bytes.
  - done.
  - done.
Qed.

Lemma bytes_of_stored m a bs :
  Forall is_byte bs -> Z.of_nat (length bs) <= 4294967296 ->
  bytes_of (store_bytes m (u32 a) bs) (u32 a) (length bs) = bs.
Proof.
  intros Hb Hl. apply list_eq_same_length with (length bs);
    [done|by unfold bytes_of; rewrite length_fmap, length_seq|].
  intros i x y Hlt Hx Hy. unfold bytes_of in Hx. rewrite list_lookup_fmap, lookup_seq_lt in Hx by done.
  cbn in Hx. injection Hx as <-. rewrite (store_bytes_inside _ _ _ _ y) by done.
  apply u8_small. rewrite Forall_lookup in Hb. by eapply Hb.
Qed.

(** C31. Memory round trip over the line.  The host writes bytes with an [M]
    request and reads them back with an [m] request; the stub answers [OK] and
    the text of the bytes, and no other address has changed. *)
Theorem memory_roundtrip fault sigval s ds ls ds' ls' bs a r :
  number ds a -> number ls (Z.of_nat (length bs)) -> number ds' a -> number ls' (Z.of_nat (length bs)) ->
  Forall is_byte bs -> data_ok (write_request ds ls (hextext bs)) -> data_ok (read_request ds' ls') ->
  buffers_ok s -> accessible fault (u32 a) (length bs) ->
  rx s = frame (write_request ds ls (hextext bs)) ++ 43 :: frame (read_request ds' ls') ++ 43 :: r ->
  exists s', bind (serve fault sigval) (fun _ => serve fault sigval) s = Ret tt s' /\
    rx s' = r /\ tx s' = tx s ++ (43 :: frame [79; 75]) ++ (43 :: frame (hextext bs)) /\
    (forall x, ~ within (u32 a) (length bs) x -> load8 (ram s') x = load8 (ram s) x) /\
    registers s' = registers s.
Proof.
  intros Hd Hl Hd' Hl' Hb Hw Hrd Hbuf Hacc Hr.
  pose proof (data_ok_write _ _ _ Hw) as Hlen. rewrite length_hextext in Hlen.
  destruct (serve_write fault sigval s ds ls (hextext bs) (length bs) a _ Hd Hl
    (length_hextext bs) Hw Hbuf Hacc Hr) as (s1 & H1 & (Hr1 & Ht1 & Hb1 & Hq1) & Hm1 & Hg1).
  destruct (serve_read fault sigval s1 ds' ls' (length bs) a r Hd' Hl' ltac:(lia) Hrd Hb1 Hacc Hr1)
    as (s2 & H2 & (Hr2 & Ht2 & Hb2 & Hq2) & Hm2 & Hg2).
  rewrite unhex_hextext in Hm1 by done. rewrite Hm1, bytes_of_stored in Ht2 by (done || lia).
  exists s2. rewrite (bind_Ret _ _ _ _ _ H1). split_and!; [done|done| |..].
  - by rewrite Ht2, Ht1, <- app_assoc.
  - intros x Hx. by rewrite Hm2, Hm1, store_bytes_outside.
  - by rewrite Hg2.
Qed.

(** The state in which a read request is looked at holds its text. *)
Lemma received_read s ds ls r : exists q,
  remcomInBuffer (received s (read_request ds ls) r) = [109] ++ ds ++ 44 :: ls ++ 0 :: q.
Proof.
  eexists. unfold received, stored, read_request. cbn [remcomInBuffer set_in]. flatten. done.
Qed.

(** A fault on the way is answered with [E03]. *)
Lemma serve_read_fault fault sigval s ds ls n a r :
  number ds a -> number ls (Z.of_nat n) -> (n <= 199)%nat ->
  data_ok (read_request ds ls) -> buffers_ok s -> peeks fault s (Ram (u32 a)) n = None ->
  rx s = frame (read_request ds ls) ++ 43 :: r ->
  exists s', serve fault sigval s = Ret tt s' /\ answered s s' r [69; 48; 51] /\
    ram s' = ram s /\ registers s' = registers s.
Proof.
  intros Hd Hl Hn Hok Hbuf Hp Hr. pose proof (length_received s _ (43 :: r) Hbuf Hok) as [Hi Ho].
  destruct (received_read s ds ls (43 :: r)) as [q Hq].
  set (t := received s (read_request ds ls) (43 :: r)) in *.
  destruct (mem2hex_fault fault (set_err t false) (u32 a) n) as (v & b & Hlb & Heq);
    [exact Hp|done|cbn [remcomOutBuffer set_err]; lia|]. cbn [remcomOutBuffer set_err] in Hlb.
  eapply (serve_answers fault sigval s 109); [done..| |exact Hr| | | | | | | | |].
  - destruct Hd as (? & ? & ?). by apply request_third.
  - cbn [dispatch Z.eqb Pos.eqb]. etransitivity.
    { apply (cmd_read_parsed fault t [109] ds ls n a 0 q); [done|done|lia|by vm_compute|done]. }
    rewrite (bind_Ret _ _ _ _ _ Heq). unfold gets, bind. cbn [mem_err set_out set_err when].
    apply (strcpy_reply [69; 48; 51]); [by repeat constructor|cbn in *; lia].
  - done.
  - done.
  - split; [exact Hi|]. cbn [remcomOutBuffer set_out]. rewrite length_stored; cbn in *; lia.
  - done.
  - apply holds_stored.
  - by repeat constructor.
  - done.
  - done.
Qed.

Lemma peeks_accessible fault s n : forall a bs,
  peeks fault s (Ram (u32 a)) n = Some bs -> accessible fault (u32 a) n.
Proof.
  induction n as [|n IH]; intros a bs; cbn [peeks peek loc_next]; [by intros _ i Hi; lia|].
  destruct (fault (u32 a)) eqn:Hf; [done|]. cbn [mbind option_bind].
  destruct (peeks fault s (Ram (u32 (u32 a + 1))) n) as [bs'|] eqn:Hp; [|done].
  intros _ [|i] Hi; [by rewrite Z.add_0_r, u32_idem|].
  rewrite <- u32_next. apply (IH (u32 a + 1) bs' Hp). lia.
Qed.

(** A request for 200 bytes or more, if they can be read, writes past the end of
    the output buffer. *)
Lemma serve_read_overflow fault sigval s ds ls n a r :
  number ds a -> number ls (Z.of_nat n) -> (200 <= n)%nat -> Z.of_nat n < 2147483648 ->
  data_ok (read_request ds ls) -> buffers_ok s -> accessible fault (u32 a) n ->
  rx s = frame (read_request ds ls) ++ r ->
  serve fault sigval s = Crash.
Proof.
  intros Hd Hl Hn Hn32 Hok Hbuf Hacc Hr. pose proof (length_received s _ r Hbuf Hok) as [_ Ho].
  destruct (received_read s ds ls r) as [q Hq].
  rewrite (serve_dispatched _ _ _ 109 (ds ++ 44 :: ls) r); [|done|apply Hbuf|apply Hbuf| |done].
  2: { destruct Hd as (? & ? & ?). by apply request_third. }
  set (t := received s (109 :: ds ++ 44 :: ls) r) in *. unfold bind at 1. cbn [dispatch Z.eqb Pos.eqb].
  pose proof (cmd_read_parsed fault t [109] ds ls n a 0 q Hd Hl Hn32 ltac:(by vm_compute) Hq) as Hc.
  change (Z.of_nat (length [109])) with 1 in Hc. rewrite Hc.
  unfold bind at 1. erewrite mem2hex_overflow; [done|by apply peeks_bytes_of|done|].
  change (length (remcomOutBuffer t) = 400%nat) in Ho. cbn [remcomOutBuffer set_err]. lia.
Qed.

(** What a request [m<addr>,<n>] leads to.  Up to 199 readable bytes are
    answered with their text; if one of them faults, with [E03]; from 200
    readable bytes on the text runs over the end of the output buffer.  Memory
    and registers are never changed. *)
Theorem read_request_cases fault sigval s ds ls n a r :
  number ds a -> number ls (Z.of_nat n) -> Z.of_nat n < 2147483648 ->
  data_ok (read_request ds ls) -> buffers_ok s ->
  rx s = frame (read_request ds ls) ++ 43 :: r ->
  ((n <= 199)%nat ->
    exists s', serve fault sigval s = Ret tt s' /\
      answered s s' r (match peeks fault s (Ram (u32 a)) n with
                       | Some bs => hextext bs
                       | None => [69; 48; 51]
                       end) /\
      ram s' = ram s /\ registers s' = registers s) /\
  ((200 <= n)%nat -> accessible fault (u32 a) n -> serve fault sigval s = Crash).
Proof.
  intros Hd Hl Hn32 Hok Hbuf Hr. split.
  - intros Hn. destruct (peeks fault s (Ram (u32 a)) n) as [bs|] eqn:Hp.
    + pose proof (peeks_accessible _ _ _ _ _ Hp) as Hacc.
      rewrite peeks_bytes_of in Hp by done. injection Hp as <-. by eapply serve_read.
    + by apply (serve_read_fault fault sigval s ds ls n a r).
  - intros Hn Hacc. by apply (serve_read_overflow fault sigval s ds ls n a (43 :: r)).
Qed.

Lemma read_request_cases_witness :
  exists s', serve (fun a => a =? 300) 5
    (mk_stub (frame (read_request [49; 50; 56] [52]) ++ [43]) [] (replicate 400 0) (replicate 400 0)
       (replicate 64 0) (<[296 := 171]> ∅) false false true 3) = Ret tt s' /\
    tx s' = 43 :: frame [97; 98; 48; 48; 48; 48; 48; 48].
Proof.
  edestruct (proj1 (read_request_cases (fun a => a =? 300) 5
    (mk_stub (frame (read_request [49; 50; 56] [52]) ++ [43]) [] (replicate 400 0) (replicate 400 0)
       (replicate 64 0) (<[296 := 171]> ∅) false false true 3)
    [49; 50; 56] [52] 4 296 [] ltac:(split_and!; [by repeat constructor|done|done])
    ltac:(split_and!; [by repeat constructor|done|done]) ltac:(lia)
    ltac:(split; [by repeat constructor|cbn; lia]) ltac:(done) ltac:(done)) ltac:(lia))
    as (s' & Hs & (_ & Ht & _) & _).
  exists s'. split; [exact Hs|]. rewrite Ht. reflexivity.
Defined.

(** ** Registers over the line *)

Definition set_all_request (bs : list Z) : list Z := 71 :: hextext bs.
Definition set_one_request (ds t : list Z) : list Z := 80 :: ds ++ 61 :: t.

Lemma hextext_third c bs rest : (2 <= length bs)%nat -> Forall is_byte bs ->
  (c :: hextext bs ++ rest) !! 2%nat <> Some 58.
Proof.
  intros Hl Hb. destruct bs as [|b bs]; [cbn in Hl; lia|]. apply Forall_cons in Hb as [Hb _]. cbn.
  pose proof (hexchar_digit (b mod 16) (mod16_range b)). intros [= ?]. lia.
Qed.

Lemma serve_set_all fault sigval s bs r :
  length bs = 64%nat -> Forall is_byte bs -> length (registers s) = 64%nat -> buffers_ok s ->
  rx s = frame (set_all_request bs) ++ 43 :: r ->
  exists s', serve fault sigval s = Ret tt s' /\ answered s s' r [79; 75] /\
    ram s' = ram s /\ registers s' = bs.
Proof.
  intros Hl Hb Hg Hbuf Hr.
  assert (data_ok (set_all_request bs)) as Hok.
  { split; [constructor; [by vm_compute|by apply plain_hextext]|]. cbn. rewrite length_hextext. lia. }
  pose proof (length_received s _ (43 :: r) Hbuf Hok) as Hrec.
  eapply (serve_answers fault sigval s 71 _ r [79; 75]); [done..| |exact Hr| | | | | | | | |].
  - unfold stored. cbn [app]. apply hextext_third; [lia|done].
  - cbn [dispatch Z.eqb Pos.eqb].
    erewrite bind_Ret; [|eapply (hex2mem_stores fault 64 (Reg 0) (hextext bs) _ _ [71] _ false)]; cycle 1.
    + rewrite length_hextext. lia.
    + rewrite unhex_hextext by done. apply (pokes_reg fault bs _ [] (registers s)); [done|lia|done].
    + done.
    + unfold received, stored. cbn [remcomInBuffer set_in]. by flatten.
    + apply (strcpy_reply [79; 75]); [by repeat constructor|destruct Hrec; cbn in *; lia].
  - done.
  - done.
  - by apply (buffers_ok_reply (received s (set_all_request bs) (43 :: r)) [79; 75]); [|cbn; lia|..].
  - done.
  - apply holds_stored.
  - by repeat constructor.
  - done.
  - cbn. rewrite drop_ge by lia. by rewrite app_nil_r.
Qed.

(** Register [k] of the saved registers replaced by four bytes. *)
Definition with_register (regs : list Z) (k : nat) (bs : list Z) : list Z :=
  splice regs (4 * k) bs.

Lemma serve_set_one fault sigval s ds bs k r :
  number ds (Z.of_nat k) -> (k < 16)%nat -> length bs = 4%nat -> Forall is_byte bs ->
  length (registers s) = 64%nat -> buffers_ok s -> data_ok (set_one_request ds (hextext bs)) ->
  rx s = frame (set_one_request ds (hextext bs)) ++ 43 :: r ->
  exists s', serve fault sigval s = Ret tt s' /\ answered s s' r [79; 75] /\
    ram s' = ram s /\ registers s' = with_register (registers s) k bs.
Proof.
  intros (Hd & Hdn & Hk) Hk16 Hl Hb Hg Hbuf Hok Hr.
  pose proof (length_received s _ (43 :: r) Hbuf Hok) as Hrec.
  eapply (serve_answers fault sigval s 80 _ r [79; 75]); [done..| |exact Hr| | | | | | | | |].
  - unfold stored. cbn [app]. rewrite <- app_assoc. by apply third_not_colon.
  - cbn [dispatch Z.eqb Pos.eqb]. unfold cmd_setreg.
    destruct (number_at (received s (set_one_request ds (hextext bs)) (43 :: r)) [80] ds 61
      (hextext bs ++ 0 :: drop (S (length (set_one_request ds (hextext bs)))) (remcomInBuffer s))
      Hd Hdn ltac:(by vm_compute)) as (n & Hn & H1 & H2).
    { unfold received, stored, set_one_request. cbn [remcomInBuffer set_in]. by flatten. }
    change (Z.of_nat (length [80])) with 1 in H1.
    rewrite (bind_Ret _ _ _ _ _ H1), Hn, (bind_Ret _ _ _ _ _ H2). cbn [negb Z.eqb Pos.eqb].
    rewrite Hk, s32_small by lia.
    rewrite (proj2 (Z.leb_le _ _)), (proj2 (Z.ltb_lt _ _)) by (unfold NUMREGS; lia). cbn [andb].
    rewrite <- (length_snoc _ 61).
    erewrite bind_Ret; [|eapply (hex2mem_stores fault 4 _ (hextext bs) _ _ _ _ false)]; cycle 1.
    + rewrite length_hextext. lia.
    + rewrite unhex_hextext by done.
      replace (4 * Z.of_nat k) with (Z.of_nat (length (take (4 * k) (registers s))))
        by (rewrite length_take; lia).
      apply (pokes_reg fault bs _ _ (drop (4 * k) (registers s))); [|rewrite length_drop; lia|done].
      cbn. by rewrite take_drop.
    + done.
    + unfold received, stored, set_one_request. cbn [remcomInBuffer set_in]. by flatten.
    + apply (strcpy_reply [79; 75]); [by repeat constructor|destruct Hrec; cbn in *; lia].
  - done.
  - done.
  - by apply (buffers_ok_reply (received s (set_one_request ds (hextext bs)) (43 :: r)) [79; 75]);
      [|cbn; lia|..].
  - done.
  - apply holds_stored.
  - by repeat constructor.
  - done.
  - cbn [registers set_out set_hook set_registers]. unfold with_register, splice.
    by rewrite drop_drop.
Qed.

Lemma serve_get_all fault sigval s r :
  length (registers s) = 64%nat -> Forall is_byte (registers s) -> buffers_ok s ->
  remcomInBuffer s !! 2%nat <> Some 58 -> rx s = frame [103] ++ 43 :: r ->
  exists s', serve fault sigval s = Ret tt s' /\ answered s s' r (hextext (registers s)) /\
    ram s' = ram s /\ registers s' = registers s.
Proof.
  intros Hg Hb Hbuf Hseq Hr.
  assert (data_ok [103]) as Hok by (split; [by repeat constructor|cbn; lia]).
  pose proof (length_received s _ (43 :: r) Hbuf Hok) as Hrec.
  eapply (serve_answers fault sigval s 103 []); [done..| |exact Hr| | | | | | | | |].
  - unfold stored. cbn [app length].
    change (drop 2 (remcomInBuffer s) !! 0%nat <> Some 58). by rewrite lookup_drop.
  - cbn [dispatch Z.eqb Pos.eqb].
    erewrite bind_Ret; [done|].
    apply (mem2hex_text fault _ (Reg 0) (registers s) 64 false); [|done|destruct Hrec; cbn in *; lia].
    etransitivity; [by apply (peeks_reg fault 64 _ [] (registers s)); [|lia]|].
    by rewrite take_ge by lia.
  - done.
  - done.
  - apply (buffers_ok_reply (received s [103] (43 :: r)) (hextext (registers s))); [done| |done|done].
    rewrite length_hextext. lia.
  - done.
  - apply holds_stored.
  - by apply plain_not_null, plain_hextext.
  - done.
  - done.
Qed.

(** C32. Register session.  With the stub in its loop, its two buffers of 400
    bytes and its 64 bytes of saved registers, the host sends three packets with
    correct checksums and acknowledges every answer: all registers ([G] and the
    hexadecimal text of 64 bytes), one register ([P], its number below 16 in
    hexadecimal digits, [=] and the text of four bytes, at most 398 characters in
    all), and the request to read them ([g]).  The stub acknowledges each packet,
    answers [OK], [OK] and the hexadecimal text of the registers as set by the
    first packet with the four bytes of that register replaced; these are then
    the saved registers, the memory is unchanged and the rest of the line is
    unread. *)
Theorem register_session fault sigval s ds bs k v r :
  number ds (Z.of_nat k) -> (k < 16)%nat -> length v = 4%nat -> Forall is_byte v ->
  length bs = 64%nat -> Forall is_byte bs -> length (registers s) = 64%nat -> buffers_ok s ->
  data_ok (set_one_request ds (hextext v)) ->
  rx s = frame (set_all_request bs) ++ 43 :: frame (set_one_request ds (hextext v)) ++
         43 :: frame [103] ++ 43 :: r ->
  exists s',
    bind (serve fault sigval) (fun _ => bind (serve fault sigval) (fun _ => serve fault sigval)) s = Ret tt s' /\
    rx s' = r /\
    tx s' = tx s ++ (43 :: frame [79; 75]) ++ (43 :: frame [79; 75]) ++
            (43 :: frame (hextext (with_register bs k v))) /\
    registers s' = with_register bs k v /\ ram s' = ram s.
Proof.
  intros Hds Hk Hlv Hv Hl Hb Hg Hbuf Hok Hr.
  destruct (serve_set_all fault sigval s bs _ Hl Hb Hg Hbuf Hr) as (s1 & H1 & (Hr1 & Ht1 & Hb1 & Hq1) & Hm1 & Hg1).
  destruct (serve_set_one fault sigval s1 ds v k _ Hds Hk Hlv Hv ltac:(by rewrite Hg1) Hb1 Hok Hr1)
    as (s2 & H2 & (Hr2 & Ht2 & Hb2 & Hq2) & Hm2 & Hg2).
  rewrite Hg1 in Hg2.
  destruct (serve_get_all fault sigval s2 r) as (s3 & H3 & (Hr3 & Ht3 & _) & Hm3 & Hg3).
  { rewrite Hg2. unfold with_register. rewrite length_splice; lia. }
  { rewrite Hg2. unfold with_register, splice. apply Forall_app; split; [by apply Forall_take|].
    apply Forall_app; split; [done|by apply Forall_drop]. }
  { done. }
  { done. }
  { done. }
  exists s3. rewrite (bind_Ret _ _ _ _ _ H1), (bind_Ret _ _ _ _ _ H2). split_and!; [done|done| |..].
  - rewrite Ht3, Ht2, Ht1, Hg2. by rewrite <- !app_assoc.
  - by rewrite Hg3.
  - by rewrite Hm3, Hm2.
Qed.

(** ** Resuming the program *)

(** The [int] in register [k]. *)
Definition word_at (regs : list Z) (k : nat) : Z :=
  let b j := default 0 (regs !! (4 * k + j)%nat) in
  s32 (b 0%nat + 256 * b 1%nat + 65536 * b 2%nat + 16777216 * b 3%nat).

Lemma get_register_word s (k : nat) :
  (4 * k + 4 <= length (registers s))%nat ->
  get_register (Z.of_nat k) s = Ret (word_at (registers s) k) s.
Proof.
  intros Hk. unfold get_register, gets. unfold bind. unfold word_at.
  destruct (lookup_lt_is_Some_2 (registers s) (4 * k) ltac:(lia)) as [b0 H0].
  destruct (lookup_lt_is_Some_2 (registers s) (4 * k + 1) ltac:(lia)) as [b1 H1].
  destruct (lookup_lt_is_Some_2 (registers s) (4 * k + 2) ltac:(lia)) as [b2 H2].
  destruct (lookup_lt_is_Some_2 (registers s) (4 * k + 3) ltac:(lia)) as [b3 H3].
  replace (4 * Z.of_nat k) with (Z.of_nat (4 * k)) by lia.
  change 1 with (Z.of_nat 1) at 1. change 2 with (Z.of_nat 2) at 1. change 3 with (Z.of_nat 3) at 1.
  rewrite <- !Nat2Z.inj_add, !rd_nat, H0, H1, H2, H3.
  rewrite Nat.add_0_r. by rewrite H0.
Qed.

Lemma put_register_splice s (k : nat) v :
  (4 * k + 4 <= length (registers s))%nat ->
  put_register (Z.of_nat k) v s = Ret tt (set_registers s (with_register (registers s) k (word_bytes v))).
Proof.
  intros Hk. unfold put_register, gets, modify. unfold bind.
  rewrite !(proj2 (Z.leb_le _ _)) by lia. cbn [andb]. unfold with_register.
  by replace (Z.to_nat (4 * Z.of_nat k)) with (4 * k)%nat by lia.
Qed.

Lemma word_at_same regs k v :
  (4 * k + 4 <= length regs)%nat -> word_at (with_register regs k (word_bytes v)) k = s32 v.
Proof.
  intros Hk. unfold word_at, with_register.
  rewrite !splice_lookup_in by (cbn; lia).
  replace (4 * k + 0 - 4 * k)%nat with 0%nat by lia. replace (4 * k + 1 - 4 * k)%nat with 1%nat by lia.
  replace (4 * k + 2 - 4 * k)%nat with 2%nat by lia. replace (4 * k + 3 - 4 * k)%nat with 3%nat by lia.
  cbn [word_bytes lookup list_lookup default]. rewrite !Z.shiftr_div_pow2 by lia.
  change (2 ^ 8) with 256. change (2 ^ 16) with 65536. change (2 ^ 24) with 16777216. cbn. zwrap.
Qed.

Lemma word_at_other regs k j v :
  (4 * k + 4 <= length regs)%nat -> j <> k ->
  word_at (with_register regs k (word_bytes v)) j = word_at regs j.
Proof. intros Hk Hj. unfold word_at, with_register. by rewrite !splice_lookup_out by (cbn; lia). Qed.

Lemma length_with_register regs k v :
  (4 * k + 4 <= length regs)%nat -> length (with_register regs k (word_bytes v)) = length regs.
Proof. intros. unfold with_register. apply length_splice. cbn. lia. Qed.

Lemma s32_testbit v i : 0 <= i < 32 -> Z.testbit (s32 v) i = Z.testbit v i.
Proof.
  intros Hi. rewrite <- (Z.mod_pow2_bits_low (s32 v) 32 i), <- (Z.mod_pow2_bits_low v 32 i) by lia.
  f_equal. change (2 ^ 32) with 4294967296. unfold s32. zmod.
Qed.

Definition resume_request (step : bool) (ds : list Z) : list Z := (if step then 115 else 99) :: ds.

(** The trace bit (bit 8) of the flags, cleared or set. *)
Definition traced (step : bool) (ps : Z) : Z :=
  let ps := s32 (Z.land ps 0xfffffeff) in if step then s32 (Z.lor ps 0x100) else ps.

Lemma traced_bits step ps i : 0 <= i < 32 ->
  Z.testbit (traced step ps) i = if i =? 8 then step else Z.testbit ps i.
Proof.
  intros Hi. assert (Z.testbit 0xfffffeff i = negb (i =? 8)) as Hm.
  { pattern i. apply (below_cases 32); [done|by repeat constructor]. }
  unfold traced. destruct step; rewrite ?s32_testbit, ?Z.lor_spec, ?s32_testbit, Z.land_spec, Hm by done.
  - change 0x100 with (2 ^ 8). rewrite Z.pow2_bits_eqb by lia.
    destruct (Z.eqb_spec 8 i), (Z.eqb_spec i 8); try lia; cbn;
      by rewrite ?andb_false_r, ?andb_true_r, ?orb_false_r.
  - by destruct (i =? 8); rewrite ?andb_false_r, ?andb_true_r.
Qed.

Lemma put_word_effect s (k : nat) v :
  (4 * k + 4 <= length (registers s))%nat ->
  exists regs, put_register (Z.of_nat k) v s = Ret tt (set_registers s regs) /\
    length regs = length (registers s) /\ word_at regs k = s32 v /\
    forall j, j <> k -> word_at regs j = word_at (registers s) j.
Proof.
  intros Hk. eexists. split; [by apply put_register_splice|]. split_and!.
  - by apply length_with_register.
  - by apply word_at_same.
  - intros j Hj. by apply word_at_other.
Qed.

(** The flags are updated and the program is resumed. *)
Lemma resume_with_trace s step :
  length (registers s) = 64%nat ->
  exists regs,
    bind (get_register PS) (fun ps => bind (put_register PS (Z.land ps 0xfffffeff)) (fun _ =>
      bind (when step (bind (get_register PS) (fun ps => put_register PS (Z.lor ps 0x100))))
           (fun _ => _returnFromException))) s = Jump (set_registers s regs) /\
    word_at regs 9 = traced step (word_at (registers s) 9) /\
    forall k, k <> 9%nat -> word_at regs k = word_at (registers s) k.
Proof.
  intros Hg. rewrite (bind_Ret _ _ _ _ _ (get_register_word s 9 ltac:(lia))).
  destruct (put_word_effect s 9 (Z.land (word_at (registers s) 9) 0xfffffeff) ltac:(lia))
    as (r1 & H1 & Hl1 & H9 & Hk).
  rewrite (bind_Ret _ _ _ _ _ H1). destruct step; cbn [when].
  - destruct (put_word_effect (set_registers s r1) 9 (Z.lor (word_at r1 9) 0x100)
      ltac:(cbn [registers set_registers]; lia)) as (r2 & H2 & _ & H9' & Hk').
    exists r2. split_and!.
    + erewrite bind_Ret; [done|].
      rewrite (bind_Ret _ _ _ _ _
        (get_register_word (set_registers s r1) 9 ltac:(cbn [registers set_registers]; lia))).
      exact H2.
    + by rewrite H9', H9.
    + intros k Hne. rewrite Hk' by done. by apply Hk.
  - by exists r1.
Qed.

Lemma cmd_resume_jumps s step p ds q :
  hexdigits ds -> remcomInBuffer s = p ++ ds ++ 0 :: q -> length (registers s) = 64%nat ->
  exists regs, cmd_resume step (Z.of_nat (length p)) s = Jump (set_registers s regs) /\
    word_at regs 8 = (if decide (ds = []) then word_at (registers s) 8 else s32 (hexval ds)) /\
    word_at regs 9 = traced step (word_at (registers s) 9) /\
    (forall k, k <> 8%nat -> k <> 9%nat -> word_at regs k = word_at (registers s) k).
Proof.
  intros Hd Hb Hg. unfold cmd_resume.
  rewrite (bind_Ret _ _ _ _ _ (hexToInt_reads s p ds 0 q Hd ltac:(by vm_compute) Hb)).
  case_decide as Hn.
  - subst ds. destruct (resume_with_trace s step Hg) as (regs & H & H9 & Hk).
    exists regs. split_and!; [exact H|by apply Hk|done|]. intros k _. apply Hk.
  - rewrite (proj2 (Z.eqb_neq _ _)) by (by destruct ds). cbn [negb when].
    destruct (put_word_effect s 8 (s32 (hexval ds)) ltac:(lia)) as (r1 & H1 & Hl1 & H8 & Hk1).
    rewrite (bind_Ret _ _ _ _ _ H1).
    destruct (resume_with_trace (set_registers s r1) step) as (regs & H & H9 & Hk);
      [cbn [registers set_registers]; lia|]. cbn [registers set_registers] in *.
    exists regs. split_and!; [exact H| | |].
    + by rewrite Hk, H8, s32_s32.
    + by rewrite H9, Hk1.
    + intros k Hk8 Hk9. rewrite Hk by done. by apply Hk1.
Qed.

(** A request [c] or [s], with or without an address, is acknowledged and
    resumes the program with [pc] at the address (or unchanged), with the trace
    bit of the flags set exactly for [s], and with every other bit of the flags,
    every other register and the memory as they were. *)
Theorem resume_request_effect fault sigval s step ds r :
  hexdigits ds -> data_ok (resume_request step ds) -> buffers_ok s -> length (registers s) = 64%nat ->
  stored (resume_request step ds) (remcomInBuffer s) !! 2%nat <> Some 58 ->
  rx s = frame (resume_request step ds) ++ r ->
  exists s', serve fault sigval s = Jump s' /\ rx s' = r /\ tx s' = tx s ++ [43] /\ ram s' = ram s /\
    word_at (registers s') 8 = (if decide (ds = []) then word_at (registers s) 8 else s32 (hexval ds)) /\
    (forall i, 0 <= i < 32 -> Z.testbit (word_at (registers s') 9) i =
                              if i =? 8 then step else Z.testbit (word_at (registers s) 9) i) /\
    (forall k, k <> 8%nat -> k <> 9%nat -> word_at (registers s') k = word_at (registers s) k).
Proof.
  intros Hd Hok [Hi Ho] Hg Hseq Hr. unfold resume_request in *.
  rewrite (serve_dispatched _ _ _ (if step then 115 else 99) ds r) by done.
  set (t := received s _ r).
  destruct (cmd_resume_jumps t step [if step then 115 else 99] ds
    (drop (S (length ((if step then 115 else 99) :: ds))) (remcomInBuffer s)) Hd)
    as (regs & H & H8 & H9 & Hk); [by flatten|done|].
  exists (set_registers t regs). split_and!; [|done|done|done|exact H8| |exact Hk].
  - unfold bind. change (Z.of_nat (length [if step then 115 else 99])) with 1 in H.
    destruct step; cbn [dispatch Z.eqb Pos.eqb]; by rewrite H.
  - intros i Hi'. change (word_at (registers (set_registers t regs)) 9) with (word_at regs 9).
    rewrite H9. by apply traced_bits.
Qed.

(** ** Every loop ends

    A piece of the stub is [bounded] when it never runs out of fuel and does not
    put characters back on the line. *)
Definition bounded {A} (m : M A) : Prop := forall s,
  match m s with
  | Ret _ s' => (length (rx s') <= length (rx s))%nat
  | NoFuel => False
  | _ => True
  end.

Create HintDb bounded.

Lemma bounded_bind {A B} (m : M A) (k : A -> M B) :
  bounded m -> (forall a, bounded (k a)) -> bounded (bind m k).
Proof.
  intros Hm Hk s. specialize (Hm s). unfold bind. destruct (m s) as [a s'| | | |]; try done.
  specialize (Hk a s'). destruct (k a s'); try done. lia.
Qed.

Lemma bounded_if {A} (b : bool) (m m' : M A) : bounded m -> bounded m' -> bounded (if b then m else m').
Proof. by destruct b. Qed.

Lemma bounded_when b m : bounded m -> bounded (when b m).
Proof. intros H. destruct b; [done|]. intros s. cbn. lia. Qed.

Lemma bounded_ret {A} (a : A) : bounded (ret a).
Proof. intros s. cbn. lia. Qed.
Lemma bounded_crash {A} : bounded (@crash A).
Proof. done. Qed.
Lemma bounded_gets {A} (f : stub -> A) : bounded (gets f).
Proof. intros s. cbn. lia. Qed.
Lemma bounded_modify f : (forall s, rx (f s) = rx s) -> bounded (modify f).
Proof. intros H s. cbn. rewrite H. lia. Qed.
Lemma bounded_putDebugChar c : bounded (putDebugChar c).
Proof. by apply bounded_modify. Qed.
Lemma bounded_getDebugChar : bounded getDebugChar.
Proof. intros s. unfold getDebugChar. destruct (rx s) eqn:H; [done|]. cbn. lia. Qed.
Lemma bounded_get_in i : bounded (get_in i).
Proof. intros s. unfold get_in. destruct (rd _ _); [lia|done]. Qed.
Lemma bounded_put_in i c : bounded (put_in i c).
Proof. intros s. unfold put_in. destruct (wr _ _ _); [cbn; lia|done]. Qed.
Lemma bounded_get_out i : bounded (get_out i).
Proof. intros s. unfold get_out. destruct (rd _ _); [lia|done]. Qed.
Lemma bounded_put_out i c : bounded (put_out i c).
Proof. intros s. unfold put_out. destruct (wr _ _ _); [cbn; lia|done]. Qed.
Lemma bounded_return : bounded _returnFromException.
Proof. by intros s. Qed.

#[local] Hint Resolve bounded_if bounded_when bounded_ret bounded_crash bounded_gets
  bounded_putDebugChar bounded_getDebugChar bounded_get_in bounded_put_in bounded_get_out
  bounded_put_out bounded_return : bounded.
#[local] Hint Extern 1 (bounded (bind _ _)) => apply bounded_bind; [|intros] : bounded.
#[local] Hint Extern 1 (bounded (modify _)) => apply bounded_modify; done : bounded.
#[local] Hint Extern 1 (bounded (let '(_, _) := ?x in _)) => destruct x : bounded.
#[local] Hint Extern 2 (bounded (match ?x with _ => _ end)) => destruct x : bounded.

Lemma bounded_strcpy src : forall pointer, bounded (strcpy pointer src).
Proof. induction src; intros; cbn; eauto with bounded. Qed.

Lemma bounded_get_register r : bounded (get_register r).
Proof. unfold get_register. eauto 10 with bounded. Qed.

Lemma bounded_put_register r v : bounded (put_register r v).
Proof. unfold put_register. eauto 10 with bounded. Qed.

#[local] Hint Resolve bounded_strcpy bounded_get_register bounded_put_register : bounded.

Section Bounded.
Context (fault : Z -> bool).

Lemma bounded_get_char l : bounded (get_char fault l).
Proof. destruct l; cbn [get_char]; unfold mem_fault; eauto 10 with bounded. Qed.

Lemma bounded_set_char l v : bounded (set_char fault l v).
Proof. destruct l; cbn [set_char]; unfold mem_fault; eauto 10 with bounded. Qed.

#[local] Hint Resolve bounded_get_char bounded_set_char : bounded.

Lemma bounded_mem2hex m buf count mf : bounded (mem2hex fault m buf count mf).
Proof.
  unfold mem2hex. apply bounded_bind; [eauto with bounded|intros _].
  revert m buf. induction (Z.to_nat count); intros; cbn [mem2hex_loop]; eauto 20 with bounded.
Qed.

Lemma bounded_hex2mem buf m count mf : bounded (hex2mem fault buf m count mf).
Proof.
  unfold hex2mem. apply bounded_bind; [eauto with bounded|intros _].
  revert m buf. induction (Z.to_nat count); intros; cbn [hex2mem_loop]; eauto 20 with bounded.
Qed.

(** A loop that walks over a buffer leaves it before its fuel is used up. *)
Lemma hexToInt_loop_ends s fuel : forall ptr n v,
  0 <= ptr <= Z.of_nat (length (remcomInBuffer s)) ->
  Z.of_nat (length (remcomInBuffer s)) < Z.of_nat fuel + ptr ->
  match hexToInt_loop fuel ptr n v s with Ret _ s' => s' = s | NoFuel => False | _ => True end.
Proof.
  induction fuel as [|fuel IH]; intros ptr n v Hp Hf; cbn [hexToInt_loop]; [lia|].
  unfold bind, get_in. destruct (rd (remcomInBuffer s) ptr) as [c|] eqn:Hc; [|done].
  apply rd_lt in Hc. destruct (c =? 0); [done|]. cbn zeta. destruct (0 <=? hex c); [|done].
  apply IH; lia.
Qed.

Lemma rd_outside (b : list Z) i : ~ (0 <= i <= Z.of_nat (length b)) -> rd b i = None.
Proof. intros Hi. destruct (rd b i) eqn:H; [|done]. apply rd_lt in H. lia. Qed.

Lemma bounded_hexToInt ptr : bounded (hexToInt ptr).
Proof.
  intros s. unfold hexToInt, gets. unfold bind at 1.
  destruct (decide (0 <= ptr <= Z.of_nat (length (remcomInBuffer s)))).
  - pose proof (hexToInt_loop_ends s (S (length (remcomInBuffer s))) ptr 0 0 ltac:(lia) ltac:(lia)) as H.
    destruct (hexToInt_loop _ _ _ _ _); try done. by subst.
  - cbn [hexToInt_loop]. unfold bind, get_in. by rewrite rd_outside.
Qed.

Lemma putpacket_data_ends fuel : forall s count k,
  0 <= count <= Z.of_nat (length (remcomOutBuffer s)) ->
  Z.of_nat (length (remcomOutBuffer s)) < Z.of_nat fuel + count ->
  match putpacket_data fuel count k s with Ret _ s' => rx s' = rx s | NoFuel => False | _ => True end.
Proof.
  induction fuel as [|fuel IH]; intros s count k Hp Hf; cbn [putpacket_data]; [lia|].
  unfold bind, get_out. destruct (rd (remcomOutBuffer s) count) as [c|] eqn:Hc; [|done].
  apply rd_lt in Hc. destruct (c =? 0); [done|].
  apply (IH (set_tx s (tx s ++ [c]))); cbn [remcomOutBuffer set_tx]; lia.
Qed.

Lemma bounded_putpacket_once : bounded putpacket_once.
Proof.
  unfold putpacket_once. apply bounded_bind; [eauto with bounded|intros _ s].
  unfold gets. unfold bind at 1.
  pose proof (putpacket_data_ends (S (length (remcomOutBuffer s))) s 0 0 ltac:(lia) ltac:(lia)) as H.
  unfold bind. destruct (putpacket_data _ _ _ _); try done. cbn. by rewrite H.
Qed.

Lemma bounded_putpacket : bounded putpacket.
Proof.
  intros s. unfold putpacket.
  assert (forall fuel s, (length (rx s) <= fuel)%nat ->
    match putpacket_loop fuel s with
    | Ret _ s' => (length (rx s') <= length (rx s))%nat | NoFuel => False | _ => True end) as H.
  { clear s. induction fuel as [|fuel IH]; intros s Hf; cbn [putpacket_loop];
      unfold bind; pose proof (bounded_putpacket_once s) as H1;
      (destruct (putpacket_once s) as [u s1| | | |]; try done); unfold getDebugChar;
      destruct (rx s1) as [|c r] eqn:Hr; try done; cbn in H1; [lia|].
    destruct (c =? 43); [cbn; lia|]. specialize (IH (set_rx s1 r) ltac:(cbn; lia)).
    destruct (putpacket_loop fuel (set_rx s1 r)); try done. cbn in IH. lia. }
  by apply H.
Qed.

(** The same up to a number of characters on the line. *)
Definition bounded_to {A} (n : nat) (m : M A) : Prop := forall s,
  (length (rx s) <= n)%nat ->
  match m s with
  | Ret _ s' => (length (rx s') <= length (rx s))%nat
  | NoFuel => False
  | _ => True
  end.

Lemma bounded_to_all {A} n (m : M A) : bounded m -> bounded_to n m.
Proof. intros H s _. apply H. Qed.

Lemma bounded_to_bind {A B} n (m : M A) (k : A -> M B) :
  bounded m -> (forall a, bounded_to n (k a)) -> bounded_to n (bind m k).
Proof.
  intros Hm Hk s Hs. specialize (Hm s). unfold bind. destruct (m s) as [a s'| | | |]; try done.
  specialize (Hk a s' ltac:(lia)). destruct (k a s'); try done. lia.
Qed.

Lemma bounded_to_if {A} n (b : bool) (m m' : M A) :
  bounded_to n m -> bounded_to n m' -> bounded_to n (if b then m else m').
Proof. by destruct b. Qed.

Lemma bounded_finish k x : bounded (getpacket_finish k x).
Proof. unfold getpacket_finish. eauto 20 with bounded. Qed.

#[local] Hint Resolve bounded_to_if bounded_to_all bounded_finish : bounded.
#[local] Hint Extern 1 (bounded_to _ (bind _ _)) => apply bounded_to_bind; [|intros] : bounded.
#[local] Hint Extern 2 (bounded_to _ (match ?x with _ => _ end)) => destruct x : bounded.

(** [getpacket] takes at least one character off the line. *)
Lemma getpacket_ends fuel : forall ph s,
  (length (rx s) <= fuel)%nat ->
  match getpacket_loop fuel ph s with
  | Ret _ s' => (length (rx s') < length (rx s))%nat | NoFuel => False | _ => True end.
Proof.
  induction fuel as [|fuel IH]; intros ph s Hf; cbn [getpacket_loop]; unfold bind at 1;
    unfold getDebugChar; destruct (rx s) as [|c r] eqn:Hr; try done; cbn in Hf; [lia|].
  assert (forall ph, bounded_to fuel (getpacket_loop fuel ph)) as Hloop.
  { intros ph' s' Hs'. specialize (IH ph' s' Hs'). destruct (getpacket_loop _ _ _); try done. lia. }
  match goal with |- context [match ?m (set_rx s r) with _ => _ end] =>
    assert (bounded_to fuel m) as Hm by eauto 20 with bounded end.
  specialize (Hm (set_rx s r) ltac:(cbn; lia)). cbn zeta in *.
  match goal with |- match ?x with _ => _ end => destruct x; try done end. cbn in *. lia.
Qed.

Lemma bounded_getpacket : bounded getpacket.
Proof.
  intros s. pose proof (getpacket_ends (length (rx s)) Start s ltac:(lia)) as H.
  unfold getpacket. destruct (getpacket_loop _ _ _); try done. lia.
Qed.

#[local] Hint Resolve bounded_mem2hex bounded_hex2mem bounded_hexToInt bounded_putpacket
  bounded_getpacket : bounded.

Lemma bounded_dispatch sigval c ptr : bounded (dispatch fault sigval c ptr).
Proof.
  unfold dispatch, cmd_status, cmd_setreg, cmd_read, cmd_write, cmd_resume.
  repeat apply bounded_if; eauto 30 with bounded.
Qed.

#[local] Hint Resolve bounded_dispatch : bounded.

(** One turn of the command loop uses up input. *)
Lemma serve_consumes sigval s :
  match serve fault sigval s with
  | Ret _ s' => (length (rx s') < length (rx s))%nat | NoFuel => False | _ => True end.
Proof.
  unfold serve. unfold bind at 1. unfold put_out at 1.
  destruct (wr _ _ _) as [b|]; [|done]. unfold bind at 1.
  pose proof (getpacket_ends (length (rx s)) Start (set_out s b) ltac:(cbn; lia)) as H.
  change (getpacket_loop (length (rx s)) Start (set_out s b)) with (getpacket (set_out s b)) in H.
  destruct (getpacket (set_out s b)) as [ptr s1| | | |]; try done.
  match goal with |- match ?m s1 with _ => _ end =>
    assert (bounded m) as Hm by eauto 10 with bounded end.
  specialize (Hm s1). cbn in H.
  match goal with |- match ?x with _ => _ end => destruct x; try done end. lia.
Qed.

Lemma serve_loop_ends sigval fuel : forall s,
  (length (rx s) < fuel)%nat -> serve_loop fault fuel sigval s <> NoFuel /\
  forall s', serve_loop fault fuel sigval s <> Ret tt s'.
Proof.
  induction fuel as [|fuel IH]; intros s Hf; [lia|]. cbn [serve_loop]. unfold bind.
  pose proof (serve_consumes sigval s) as H. destruct (serve fault sigval s) as [u s1| | | |]; try done.
  apply IH. lia.
Qed.

End Bounded.

(** [handle_exception] always comes to a definite end of its input: whatever
    has arrived on the line, the fuel of its loops is enough, and it does not
    return either.  It waits for more characters, has jumped back to the
    program, or has gone wrong. *)
Theorem handle_exception_outcome fault vector s :
  match handle_exception fault vector s with
  | Starved _ | Jump _ | Crash => True
  | Ret _ _ | NoFuel => False
  end.
Proof.
  unfold handle_exception. unfold bind at 1. cbn [modify].
  assert (bounded (announce fault (computeSignal vector))) as Ha.
  { unfold announce, put_pair. pose proof bounded_mem2hex. pose proof bounded_putpacket.
    eauto 40 with bounded. }
  unfold bind at 1. specialize (Ha (set_vector s vector)).
  destruct (announce _ _ _) as [u s1| | | |]; try done. unfold gets. unfold bind.
  destruct (serve_loop_ends fault (computeSignal vector) (S (length (rx s1))) s1 ltac:(lia)) as [H1 H2].
  destruct (serve_loop _ _ _ _) as [[] s2| | | |] eqn:E; [by destruct (H2 s2)|done..].
Qed.

(** ** A line that never answers

    [gdpiml.c] defines [getDebugChar] as a function that returns 0. *)
Definition deaf_line (n : nat) (s : stub) : stub := set_rx s (replicate n 0).

Lemma putpacket_starves n : forall fuel s d,
  Forall (fun c => c <> 0) d -> holds d (remcomOutBuffer s) -> rx s = replicate n 0 -> (n <= fuel)%nat ->
  putpacket_loop fuel s = Starved (set_tx (set_rx s []) (tx s ++ mjoin (replicate (S n) (frame d)))).
Proof.
  induction n as [|n IH]; intros fuel s d Hd Hh Hr Hf.
  - destruct fuel; cbn [putpacket_loop];
      erewrite bind_Ret by (by apply putpacket_once_sends); unfold bind, getDebugChar;
      cbn [rx set_tx]; rewrite Hr; unfold set_tx, set_rx; cbn; by rewrite app_nil_r, Hr.
  - destruct fuel as [|fuel]; [lia|]. cbn [putpacket_loop].
    erewrite bind_Ret by (by apply putpacket_once_sends).
    erewrite bind_Ret by (apply getDebugChar_cons; cbn; by rewrite Hr).
    cbn [Z.eqb]. rewrite (IH _ _ d) by (done || lia). cbn. by rewrite <- app_assoc.
Qed.

(** On such a line [putpacket] never returns: after any number [n] of
    characters it is still waiting for a [+], having sent the packet [n + 1]
    times. *)
Theorem putpacket_deaf n s d :
  Forall (fun c => c <> 0) d -> holds d (remcomOutBuffer s) ->
  exists s', putpacket (deaf_line n s) = Starved s' /\
    tx s' = tx s ++ mjoin (replicate (S n) (frame d)).
Proof.
  intros Hd Hh. exists (set_tx (set_rx s []) (tx s ++ mjoin (replicate (S n) (frame d)))).
  split; [|done]. unfold putpacket. rewrite (putpacket_starves n _ _ d); [done..|].
  cbn. rewrite length_replicate. lia.
Qed.

Lemma putpacket_deaf_witness :
  exists s', putpacket (deaf_line 3 (mk_stub [] [] (replicate 400 0) (79 :: 75 :: replicate 398 0)
      (replicate 64 0) ∅ false false true 3)) = Starved s' /\
    tx s' = mjoin (replicate 4 (frame [79; 75])).
Proof.
  apply (putpacket_deaf 3 (mk_stub [] [] (replicate 400 0) (79 :: 75 :: replicate 398 0)
    (replicate 64 0) ∅ false false true 3) [79; 75]).
  - by repeat constructor.
  - exists (replicate 397 0). reflexivity.
Defined.

(** ** The vectors that are taken over *)

(** The address in a gate. *)
Definition gate_base (e : idt_entry) : Z := base_low e + 65536 * base_high e.

Lemma gate_base_set lo sel zero flags b :
  lo = Z.land b 0xFFFF -> 0 <= b < 4294967296 ->
  gate_base (mk_idt_entry lo sel zero flags (Z.land (Z.shiftr b 16) 0xFFFF)) = b.
Proof.
  intros -> Hb. unfold gate_base. cbn [base_low base_high].
  change 0xFFFF with (2 ^ 16 - 1). rewrite !land_pow2_pred, Z.shiftr_div_pow2 by lia.
  change (2 ^ 16) with 65536. zmod.
Qed.

Definition taken_over (catch : Z -> Z) (v : Z) (e e' : idt_entry) : Prop :=
  gate_base e' = catch v /\ sel e' = sel e /\ zero e' = zero e /\ flags e' = flags e.

Lemma install_effect catch vs : forall entries,
  Forall (fun v => 0 <= v < Z.of_nat (length entries)) vs -> NoDup vs ->
  (forall v, 0 <= catch v < 4294967296) ->
  exists entries', install vs catch entries = Some entries' /\ length entries' = length entries /\
    forall v e, 0 <= v -> entries !! Z.to_nat v = Some e ->
      exists e', entries' !! Z.to_nat v = Some e' /\
        if decide (v ∈ vs) then taken_over catch v e e' else e' = e.
Proof.
  induction vs as [|v vs IH]; intros entries Hr Hnd Hc; cbn [install].
  - exists entries. split_and!; [done..|]. intros v e _ He. exists e. split; [done|].
    by rewrite decide_False by apply not_elem_of_nil.
  - apply Forall_cons in Hr as [Hv Hr]. apply NoDup_cons in Hnd as [Hni Hnd].
    unfold exceptionHandler.
    destruct (lookup_lt_is_Some_2 entries (Z.to_nat v) ltac:(lia)) as [e0 He0]. rewrite He0.
    destruct (IH (<[Z.to_nat v := mk_idt_entry (Z.land (catch v) 0xFFFF) (sel e0) (zero e0) (flags e0)
      (Z.land (Z.shiftr (catch v) 16) 0xFFFF)]> entries)) as (entries' & -> & Hl & H);
      [by rewrite length_insert|done|done|].
    exists entries'. split_and!; [done|by rewrite Hl, length_insert|].
    intros w e Hw He. destruct (decide (w = v)) as [->|Hne].
    + rewrite He0 in He. injection He as ->.
      destruct (H v _ Hw (list_lookup_insert_eq entries (Z.to_nat v) _ ltac:(lia))) as (e' & He' & Heff).
      exists e'. split; [done|]. rewrite decide_False in Heff by done. subst e'.
      rewrite decide_True by apply list_elem_of_here. split_and!; [by apply gate_base_set|done..].
    + destruct (H w e Hw) as (e' & He' & Heff); [by rewrite list_lookup_insert_ne by lia|].
      exists e'. split; [done|]. destruct (decide (w ∈ vs)).
      * by rewrite decide_True by (by apply list_elem_of_further).
      * by rewrite decide_False by (by intros [?|?]%elem_of_cons).
Qed.

(** [set_debug_traps] makes exactly the gates 0, 1, 3 to 12 and 16 of the
    interrupt table point to the stub and keeps their selectors and flags.  The
    gates of the general protection fault (13) and of the page fault (14) are
    untouched, so a fault of [mem2hex] or [hex2mem] does not reach
    [mem_fault]. *)
Theorem set_debug_traps_effect catch entries :
  length entries = 256%nat -> (forall v, 0 <= catch v < 4294967296) ->
  exists entries', set_debug_traps catch entries = Some (entries', true) /\ length entries' = 256%nat /\
    (forall v e, v ∈ trap_vectors -> entries !! Z.to_nat v = Some e ->
      exists e', entries' !! Z.to_nat v = Some e' /\ taken_over catch v e e') /\
    (forall v, 0 <= v -> v ∉ trap_vectors -> entries' !! Z.to_nat v = entries !! Z.to_nat v) /\
    entries' !! 13%nat = entries !! 13%nat /\ entries' !! 14%nat = entries !! 14%nat.
Proof.
  intros Hl Hc.
  destruct (install_effect catch trap_vectors entries) as (entries' & Hi & Hl' & H); [| |done|].
  { rewrite Hl. by repeat constructor. }
  { apply (bool_decide_unpack _). by vm_compute. }
  assert (forall v, 0 <= v -> v ∉ trap_vectors -> entries' !! Z.to_nat v = entries !! Z.to_nat v) as Hout.
  { intros v Hv Hn. destruct (entries !! Z.to_nat v) as [e|] eqn:He.
    - destruct (H v e Hv He) as (e' & -> & Heff). rewrite decide_False in Heff by done. by subst.
    - apply lookup_ge_None in He. apply lookup_ge_None. lia. }
  assert (Forall (fun v => 0 <= v) trap_vectors) as Hpos by (by repeat constructor).
  rewrite Forall_forall in Hpos.
  exists entries'. split_and!; [unfold set_debug_traps; by rewrite Hi|lia| |done|apply (Hout 13)|apply (Hout 14)];
    try lia; try (apply (bool_decide_unpack _); by vm_compute).
  intros v e Hv He. destruct (H v e (Hpos v Hv) He) as (e' & He' & Heff).
  exists e'. by rewrite decide_True in Heff.
Qed.

Lemma set_debug_traps_effect_witness :
  exists entries', set_debug_traps (fun v => 0x100000 + 16 * (v mod 256)) (replicate 256 (mk_idt_entry 1 8 0 142 2))
    = Some (entries', true) /\ entries' !! 14%nat = Some (mk_idt_entry 1 8 0 142 2).
Proof.
  destruct (set_debug_traps_effect (fun v => 0x100000 + 16 * (v mod 256))
    (replicate 256 (mk_idt_entry 1 8 0 142 2)) eq_refl ltac:(intros v; cbn beta; zmod))
    as (entries' & H & _ & _ & _ & _ & H14).
  exists entries'. split; [exact H|]. rewrite H14. reflexivity.
Defined.

(** ** Sequence numbers

    [getpacket] looks for the [:] of a sequence number in [buffer[2]] also when
    the packet is shorter than that.  After a packet that had one, a request of
    one character is acknowledged with a sequence number of its own and the
    request that is served is the one of the earlier packet. *)
Theorem short_packet_stale_request s c r :
  plain c -> length (remcomInBuffer s) = 400%nat -> remcomInBuffer s !! 2%nat = Some 58 ->
  rx s = frame [c] ++ r ->
  exists s', getpacket s = Ret 3 s' /\ rx s' = r /\ tx s' = tx s ++ [43; c; 0] /\
    drop 2 (remcomInBuffer s') = drop 2 (remcomInBuffer s).
Proof.
  intros Hc Hl H2 Hr. eexists. rewrite (getpacket_good [] [c] r); [|by constructor| |done|done].
  2: { split; [by apply Forall_singleton|cbn; lia]. }
  assert (stored [c] (remcomInBuffer s) !! 2%nat = Some 58) as H.
  { unfold stored. cbn [app length]. change (drop 2 (remcomInBuffer s) !! 0%nat = Some 58).
    by rewrite lookup_drop. }
  unfold request_at, sequence_id. rewrite !decide_True by done. split_and!; done.
Qed.

(** A stub with memory, and both buffers empty. *)
Definition fresh_stub (input : list Z) (m : mem) : stub :=
  mk_stub input [] (replicate 400 0) (replicate 400 0) (replicate 64 0) m false false true 3.

Ltac is_number := split_and!; [by repeat constructor|done|reflexivity].
Ltac is_data := split; [by repeat constructor|cbn; lia].

Lemma packet_transport_witness :
  exists s' t', getpacket (fresh_stub (wire (mk_attempt [] [109; 48; 44; 50] 48 48) ++
      [1] ++ frame [109; 48; 44; 49]) ∅) = Ret 0 s' /\ tx s' = [45; 43] /\
    putpacket (set_rx (set_out (fresh_stub [] ∅) ([109; 48; 44; 49] ++ replicate 396 0)) [45; 43]) = Ret tt t' /\
    tx t' = frame [109; 48; 44; 49] ++ frame [109; 48; 44; 49].
Proof.
  destruct (packet_transport (set_out (fresh_stub [] ∅) ([109; 48; 44; 49] ++ replicate 396 0))
    (fresh_stub (wire (mk_attempt [] [109; 48; 44; 50] 48 48) ++ [1] ++ frame [109; 48; 44; 49]) ∅)
    [109; 48; 44; 49] [mk_attempt [] [109; 48; 44; 50] 48 48] [1] [] [])
    as (b & answers & Hb & -> & Hg & Hp).
  - by split; [repeat constructor|cbn; lia].
  - exists (replicate 395 0). reflexivity.
  - repeat constructor; (done || (cbn; lia)).

  - by repeat constructor.
  - reflexivity.
  - reflexivity.
  - eexists _, _. split; [exact Hg|]. split; [reflexivity|]. split; [exact Hp|reflexivity].
Defined.

Lemma memory_roundtrip_witness :
  exists s', bind (serve (fun _ => false) 5) (fun _ => serve (fun _ => false) 5)
    (fresh_stub (frame (write_request [49; 48] [50] (hextext [171; 9])) ++
                 43 :: frame (read_request [49; 48] [50]) ++ [43]) ∅) = Ret tt s' /\
    tx s' = (43 :: frame [79; 75]) ++ 43 :: frame [97; 98; 48; 57].
Proof.
  destruct (memory_roundtrip (fun _ => false) 5
    (fresh_stub (frame (write_request [49; 48] [50] (hextext [171; 9])) ++
                 43 :: frame (read_request [49; 48] [50]) ++ [43]) ∅)
    [49; 48] [50] [49; 48] [50] [171; 9] 16 []) as (s' & H & _ & Ht & _);
    [is_number..|by repeat constructor|is_data|is_data|done|done|reflexivity|].
  exists s'. split; [exact H|]. rewrite Ht. reflexivity.
Defined.

Lemma register_session_witness :
  exists s', bind (serve (fun _ => false) 5)
      (fun _ => bind (serve (fun _ => false) 5) (fun _ => serve (fun _ => false) 5))
    (fresh_stub (frame (set_all_request (replicate 64 17)) ++
      43 :: frame (set_one_request [56] (hextext [1; 2; 3; 4])) ++ 43 :: frame [103] ++ [43]) ∅) = Ret tt s' /\
    registers s' = replicate 32 17 ++ [1; 2; 3; 4] ++ replicate 28 17.
Proof.
  destruct (register_session (fun _ => false) 5
    (fresh_stub (frame (set_all_request (replicate 64 17)) ++
      43 :: frame (set_one_request [56] (hextext [1; 2; 3; 4])) ++ 43 :: frame [103] ++ [43]) ∅)
    [56] (replicate 64 17) 8 [1; 2; 3; 4] []) as (s' & H & _ & _ & Hg & _);
    [is_number|lia|done|by repeat constructor|done|by repeat constructor|done|done|is_data|reflexivity|].
  exists s'. split; [exact H|]. rewrite Hg. reflexivity.
Defined.

Lemma resume_request_effect_witness :
  exists s', serve (fun _ => false) 5 (fresh_stub (frame (resume_request true [49; 48; 48])) ∅) = Jump s' /\
    word_at (registers s') 8 = 256 /\ Z.testbit (word_at (registers s') 9) 8 = true.
Proof.
  destruct (resume_request_effect (fun _ => false) 5
    (fresh_stub (frame (resume_request true [49; 48; 48])) ∅) true [49; 48; 48] [])
    as (s' & H & _ & _ & _ & H8 & H9 & _); [by repeat constructor|is_data|done|done|done|reflexivity|].
  exists s'. split; [exact H|]. split; [rewrite H8; reflexivity|].
  rewrite H9 by lia. reflexivity.
Defined.
