(* ===== verification/Regexp.v ===== *)
(** * Regular expressions

    [src/libz/fudge/regexp.c]: a backtracking matcher that interprets the
    pattern text while it matches.  It is written in continuation-passing
    style: every function takes a function pointer [c] and a [struct data *d]
    of its arguments, kept in the stack frames of the callers.

    The function pointers are the constructors of [tail], the structures those
    of [data].  A [char *] is the list of the characters from there to the end
    of the object, the terminating null character included; reading past the
    end is [Stray].  [char] is signed.  The functions that call one another
    through a pointer, or in a cycle, do so through the argument [rec], which
    [run] supplies with one unit of fuel less.

    The main theorem is that for every pattern written from the grammar of this
    file the matcher ends, and reports a match exactly for the strings of the
    language of the pattern. *)
From S2P Require Import Prelude Cstring.

Local Open Scope Z_scope.

Definition REGEXP_OK : Z := 0.
Definition REGEXP_FAIL : Z := 1.
Definition REGEXP_SYNTAX : Z := 2.
Definition REGEXP_NOTIMPL : Z := 3.

(** [MAX], the bound of an open repetition. *)
Definition MAX : Z := max32.

Inductive tail :=
| seqatomtail | class1tail | classtail | classnegtail | constclasstail
| singletail | seqortail | seqtail | matchtail.

(** Fields that a caller does not set are left at [] and [false]; the function
    that receives the structure does not read them. *)
Inductive data :=
| null
| mk_data (cont : tail) (next : data) (pat str : list Z) (ok : bool) (incarn : Z).

(** A call whose callee is not known at the call site, or that closes a cycle. *)
Inductive call :=
| Call (c : tail) (p s : list Z) (d : data) (o : bool)
| Special (p s : list Z) (c : tail) (d : data) (o : bool).

Inductive result :=
| Val (r : Z)
| Stray
| NoFuel.

(** [q[0]], and the rest of the C code with it. *)
Definition peek (p : list Z) (k : Z -> result) : result :=
  match p with [] => Stray | c :: _ => k c end.
Definition next (p : list Z) : list Z := drop 1 p.

(** A test of the character under [s] that is made, and the character read, only
    when [o] holds. *)
Definition test (o : bool) (s : list Z) (f : Z -> bool) (k : bool -> result) : result :=
  if o then peek s (fun sc => k (f sc)) else k false.

Section Matcher.
Variable rec : call -> result.

Definition eat1 (p s : list Z) (c : tail) (d : data) (o : bool) : result :=
  rec (Call c p (if o then next s else s) d o).

Definition class1 (p s : list Z) (c : tail) (d : data) (o : bool) : result :=
  let d2 := mk_data c d [] s o 0 in
  peek p (fun ch =>
    if ch =? 92 then rec (Special (next p) s class1tail d2 true)
    else if ch =? 93 then rec (Call c (next p) s d o)
    else if ch =? 0 then Val REGEXP_SYNTAX
    else if (ch =? 45) || (ch =? 91) then Val REGEXP_NOTIMPL
    else
      peek (next p) (fun p1 =>
        if negb (p1 =? 45) then
          peek s (fun sc => eat1 (next p) s class1tail d2 (sc =? ch))
        else
          peek (next (next p)) (fun p2 =>
            if p2 =? 0 then Val REGEXP_SYNTAX
            else if (p2 =? 91) || (p2 =? 93) || (p2 =? 92) || (p2 =? 45) then Val REGEXP_NOTIMPL
            else peek s (fun sc =>
              eat1 (next (next (next p))) s class1tail d2 ((ch <=? sc) && (sc <=? p2)))))).

Definition class (p s : list Z) (c : tail) (d : data) (o : bool) : result :=
  let d2 := mk_data c d [] s o 0 in
  peek p (fun ch =>
    if ch =? 94 then class1 (next p) s classnegtail d2 false
    else class1 p s classtail d2 false).

Definition constclass (p1 p s : list Z) (c : tail) (d : data) (o : bool) : result :=
  class p1 s constclasstail (mk_data c d p [] false 0) o.

Definition special_literals : list Z :=
  [40; 41; 124; 123; 125; 63; 42; 43; 91; 93; 46; 45; 94; 92; 36].
Definition special_notimpl : list Z :=
  [112; 80; 114; 88; 98; 99; 67; 119; 87; 105; 73].

(** The constant classes, with the character that ends a C string. *)
Definition space_class : list Z := [32; 9; 10; 93; 0].
Definition digit_class : list Z := [48; 45; 57; 93; 0].
Definition line_class : list Z := [94; 10; 93; 0].

Definition special (p s : list Z) (c : tail) (d : data) (o : bool) : result :=
  peek p (fun ch =>
    if ch =? 115 then constclass space_class (next p) s c d o
    else if ch =? 83 then constclass (94 :: space_class) (next p) s c d o
    else if ch =? 100 then constclass digit_class (next p) s c d o
    else if ch =? 68 then constclass (94 :: digit_class) (next p) s c d o
    else if ch =? 110 then test o s (fun sc => sc =? 10) (eat1 (next p) s c d)
    else if ch =? 116 then test o s (fun sc => sc =? 9) (eat1 (next p) s c d)
    else if bool_decide (ch ∈ special_literals)
    then test o s (fun sc => sc =? ch) (eat1 (next p) s c d)
    else if bool_decide (ch ∈ special_notimpl) then Val REGEXP_NOTIMPL
    else Val REGEXP_SYNTAX).

(** The characters [atom] reports as misplaced. *)
Definition atom_syntax : list Z := [123; 125; 63; 42; 43; 41; 124; 94; 36].

Definition seq (p s : list Z) (c : tail) (d : data) (o : bool) : result :=
  rec (Call seqtail p s (mk_data c d [] s o 0) o).

Definition atom (p s : list Z) (c : tail) (d : data) (o : bool) : result :=
  peek p (fun ch =>
    if ch =? 46 then constclass line_class (next p) s c d o
    else if ch =? 92 then special (next p) s c d o
    else if ch =? 91 then class (next p) s c d o
    else if ch =? 40 then seq (next p) s seqatomtail (mk_data c d [] [] false 0) o
    else if bool_decide (ch ∈ atom_syntax) then Val REGEXP_SYNTAX
    else test o s (fun sc => sc =? ch) (eat1 (next p) s c d)).

Definition single (p s : list Z) (c : tail) (d : data) (o : bool) (i : Z) : result :=
  atom p s singletail (mk_data c d p s o i) o.

(** [r2 = ...; if (r2 != REGEXP_FAIL) return r2;] and what follows. *)
Definition or_else (r : result) (k : result) : result :=
  match r with
  | Val v => if v =? REGEXP_FAIL then k else r
  | _ => r
  end.

(** The part of [singletail] after the repetition has been read: [lo] and [hi]
    are its bounds and [p] is the rest of the pattern. *)
Definition repeat_tail (lo hi : Z) (p s : list Z) (o : bool)
  (cont : tail) (nxt : data) (pat str : list Z) (ok : bool) (incarn : Z) : result :=
  let d := mk_data cont nxt pat str ok incarn in
  let third :=
    if (incarn >? lo) && (length s =? length str)%nat then Val REGEXP_FAIL
    else if incarn <? hi then single pat s cont nxt o (u32 (incarn + 1))
    else Val REGEXP_FAIL in
  let second :=
    if (hi >=? 1) && (incarn >=? lo) then or_else (rec (Call singletail p s d o)) third else third in
  if (lo =? 0) && (incarn =? 1) then or_else (rec (Call singletail p str d ok)) second else second.

(** The counted repetition [{n}], [{n,m}]: its bounds and the rest of the
    pattern, or nothing for a syntax error.  [p] points to the brace. *)
Definition counted (p : list Z) : option (option (Z * Z * list Z)) :=
  len ← cstring_length (next p);
  lo ← cstring_read_value (next p) len 10;
  let q := drop (Z.to_nat len) p in
  if len =? 1 then Some None
  else
    qc ← q !! 0%nat;
    r ← (if qc =? 44 then
           len2 ← cstring_length q;
           hi ← cstring_read_value (next q) len2 10;
           let q2 := drop (Z.to_nat len2) q in
           qp ← q !! Z.to_nat (len2 - 1);
           Some (if qp =? 44 then MAX else hi, q2)
         else Some (lo, q));
    let '(hi, q) := r in
    qc ← q !! 0%nat;
    if negb (qc =? 125) || (lo >? hi) then Some None else Some (Some (lo, hi, next q)).

Definition apply_singletail (p s : list Z) (cont : tail) (nxt : data) (pat str : list Z)
  (ok : bool) (incarn : Z) (o : bool) : result :=
  peek p (fun ch =>
    if (ch =? 63) || (ch =? 42) || (ch =? 43) then
      repeat_tail (if negb (ch =? 43) then 0 else 1) (if negb (ch =? 63) then MAX else 1)
        (next p) s o cont nxt pat str ok incarn
    else if ch =? 123 then
      match counted p with
      | None => Stray
      | Some None => Val REGEXP_SYNTAX
      | Some (Some (lo, hi, p')) => repeat_tail lo hi p' s o cont nxt pat str ok incarn
      end
    else rec (Call cont p s nxt o)).

Definition apply_seqtail (p s : list Z) (d : data) (cont : tail) (nxt : data) (str : list Z)
  (ok o : bool) : result :=
  peek p (fun ch =>
    if ch =? 124 then
      let d3 := mk_data cont nxt [] s o 0 in
      let d2 := mk_data seqortail d3 [] str ok 0 in
      single (next p) str seqtail d2 ok 1
    else if (ch =? 0) || (ch =? 41) then rec (Call cont p s nxt o)
    else single p s seqtail d o 1).

Definition apply_seqatomtail (p s : list Z) (cont : tail) (nxt : data) (o : bool) : result :=
  peek p (fun ch => if negb (ch =? 41) then Val REGEXP_SYNTAX else rec (Call cont (next p) s nxt o)).

Definition apply_class1tail (p : list Z) (cont : tail) (nxt : data) (str : list Z) (ok o : bool) : result :=
  class1 p str cont nxt (ok || o).

Definition apply_classtail (p s : list Z) (cont : tail) (nxt : data) (ok o : bool) : result :=
  eat1 p s cont nxt (ok && o).

Definition apply_classnegtail (p s : list Z) (cont : tail) (nxt : data) (ok o : bool) : result :=
  test ok s (fun sc => negb (sc =? 0) && negb o) (eat1 p s cont nxt).

Definition apply_constclasstail (s : list Z) (cont : tail) (nxt : data) (pat : list Z) (o : bool) : result :=
  rec (Call cont pat s nxt o).

Definition apply_seqortail (p s : list Z) (cont : tail) (nxt : data) (str : list Z) (ok o : bool) : result :=
  or_else (rec (Call cont p s nxt o)) (rec (Call cont p str nxt ok)).

Definition apply_matchtail (p s : list Z) (o : bool) : result :=
  peek p (fun ch =>
    if negb (ch =? 0) then Val REGEXP_SYNTAX
    else if o then peek s (fun sc => Val (if sc =? 0 then 0 else 1)) else Val 1).

(** The function a pointer designates. *)
Definition apply (c : tail) (p s : list Z) (d : data) (o : bool) : result :=
  match c, d with
  | matchtail, _ => apply_matchtail p s o
  | _, null => Stray
  | seqatomtail, mk_data cont nxt _ _ _ _ => apply_seqatomtail p s cont nxt o
  | class1tail, mk_data cont nxt _ str ok _ => apply_class1tail p cont nxt str ok o
  | classtail, mk_data cont nxt _ _ ok _ => apply_classtail p s cont nxt ok o
  | classnegtail, mk_data cont nxt _ _ ok _ => apply_classnegtail p s cont nxt ok o
  | constclasstail, mk_data cont nxt pat _ _ _ => apply_constclasstail s cont nxt pat o
  | singletail, mk_data cont nxt pat str ok incarn => apply_singletail p s cont nxt pat str ok incarn o
  | seqortail, mk_data cont nxt _ str ok _ => apply_seqortail p s cont nxt str ok o
  | seqtail, mk_data cont nxt _ str ok _ => apply_seqtail p s d cont nxt str ok o
  end.

End Matcher.

Fixpoint run (fuel : nat) (k : call) : result :=
  match fuel with
  | O => NoFuel
  | S fuel =>
      match k with
      | Call c p s d o => apply (run fuel) c p s d o
      | Special p s c d o => special (run fuel) p s c d o
      end
  end.

Definition regexp_match (fuel : nat) (p s : list Z) : result :=
  seq (run fuel) p s matchtail null true.

(** ** Evaluation

    [evaluates f v]: with enough fuel, [f] returns [v]. *)
Definition evaluates (f : (call -> result) -> result) (v : Z) : Prop :=
  exists n, forall m, (n <= m)%nat -> f (run m) = Val v.

(** [f] ends with whatever [g] ends with. *)
Definition leads_to (f g : (call -> result) -> result) : Prop :=
  forall v, evaluates g v -> evaluates f v.

Declare Scope regexp_scope.
Notation "f ~> g" := (leads_to (fun rec => f rec) (fun rec => g rec)) (at level 70, no associativity) : regexp_scope.

Lemma leads_to_refl f : leads_to f f.
Proof. by intros v. Qed.

Lemma leads_to_trans f g h : leads_to f g -> leads_to g h -> leads_to f h.
Proof. intros H1 H2 v Hv. by apply H1, H2. Qed.

#[export] Instance leads_to_preorder : PreOrder leads_to.
Proof. split; [intros f; apply leads_to_refl|intros f g h; apply leads_to_trans]. Qed.

(** Functions that are equal lead to one another. *)
Lemma leads_to_eq f g : (forall rec, f rec = g rec) -> leads_to f g.
Proof. intros H v [n Hn]. exists n. intros m Hm. rewrite H. by apply Hn. Qed.

Lemma call_leads c p s d o :
  leads_to (fun rec => rec (Call c p s d o)) (fun rec => apply rec c p s d o).
Proof.
  intros v [n Hn]. exists (S n). intros [|m] Hm; [lia|]. cbn [run]. apply Hn. lia.
Qed.

Lemma special_leads p s c d o :
  leads_to (fun rec => rec (Special p s c d o)) (fun rec => special rec p s c d o).
Proof.
  intros v [n Hn]. exists (S n). intros [|m] Hm; [lia|]. cbn [run]. apply Hn. lia.
Qed.

Lemma evaluates_val v : evaluates (fun _ => Val v) v.
Proof. by exists 0%nat. Qed.

Lemma or_else_ok f g : evaluates f 0 -> evaluates (fun rec => or_else (f rec) (g rec)) 0.
Proof. intros [n Hn]. exists n. intros m Hm. by rewrite Hn. Qed.

Lemma or_else_fail f g v :
  evaluates f 1 -> evaluates g v -> evaluates (fun rec => or_else (f rec) (g rec)) v.
Proof.
  intros [n Hn] [n' Hn']. exists (n + n')%nat. intros m Hm. rewrite Hn by lia. cbn. apply Hn'. lia.
Qed.

(** [f] returns [REGEXP_OK] if [R] holds and [REGEXP_FAIL] if not. *)
Definition decides (f : (call -> result) -> result) (R : Prop) : Prop :=
  R /\ evaluates f REGEXP_OK \/ ~ R /\ evaluates f REGEXP_FAIL.

Lemma decides_leads f g R : leads_to f g -> decides g R -> decides f R.
Proof. intros H [[HR Hg]|[HR Hg]]; [left|right]; split; auto. Qed.

Lemma decides_iff f R R' : (R <-> R') -> decides f R -> decides f R'.
Proof. intros H [[HR Hg]|[HR Hg]]; [left|right]; split; tauto. Qed.

Lemma decides_or f g R R' :
  decides f R -> decides g R' -> decides (fun rec => or_else (f rec) (g rec)) (R \/ R').
Proof.
  intros [[HR Hf]|[HR Hf]] Hg.
  - left. split; [by left|]. by apply or_else_ok.
  - destruct Hg as [[HR' Hg]|[HR' Hg]].
    + left. split; [by right|]. by apply or_else_fail.
    + right. split; [tauto|]. by apply or_else_fail.
Qed.

Lemma decides_fail : decides (fun _ => Val REGEXP_FAIL) False.
Proof. right. split; [tauto|apply evaluates_val]. Qed.

(** ** The grammar *)

(** What follows a backslash. *)
Inductive esc :=
| EChar (c : Z)
| ENewline | ETab | ESpace | ENotSpace | EDigit | ENotDigit.

Inductive item :=
| IChr (c : Z)
| IRange (a b : Z)
| IEsc (e : esc).

Inductive quant := Once | Optional | Star | Plus.

Inductive ratom :=
| ALit (c : Z)
| AAny
| AEsc (e : esc)
| AClass (negated : bool) (its : list item)
| AGroup (r : alts)
with branch :=
| BNil
| BCons (a : ratom) (q : quant) (b : branch)
with alts :=
| One (b : branch)
| Or (b : branch) (r : alts).

Scheme ratom_ind' := Induction for ratom Sort Prop
with branch_ind' := Induction for branch Sort Prop
with alts_ind' := Induction for alts Sort Prop.
Combined Scheme regexp_ind from ratom_ind', branch_ind', alts_ind'.

(** The text of a pattern. *)
Definition esc_text (e : esc) : Z :=
  match e with
  | EChar c => c
  | ENewline => 110 | ETab => 116 | ESpace => 115 | ENotSpace => 83 | EDigit => 100 | ENotDigit => 68
  end.

Definition item_text (it : item) : list Z :=
  match it with
  | IChr c => [c]
  | IRange a b => [a; 45; b]
  | IEsc e => [92; esc_text e]
  end.

Definition items_text (its : list item) : list Z := mjoin (item_text <$> its).

Definition quant_text (q : quant) : list Z :=
  match q with Once => [] | Optional => [63] | Star => [42] | Plus => [43] end.

Fixpoint atom_text (a : ratom) : list Z :=
  match a with
  | ALit c => [c]
  | AAny => [46]
  | AEsc e => [92; esc_text e]
  | AClass negated its => 91 :: (if negated then [94] else []) ++ items_text its ++ [93]
  | AGroup r => 40 :: alts_text r ++ [41]
  end
with branch_text (b : branch) : list Z :=
  match b with
  | BNil => []
  | BCons a q b => atom_text a ++ quant_text q ++ branch_text b
  end
with alts_text (r : alts) : list Z :=
  match r with
  | One b => branch_text b
  | Or b r => branch_text b ++ 124 :: alts_text r
  end.

(** The characters a single-character pattern accepts. *)
Definition is_space (x : Z) : bool := (x =? 32) || (x =? 9) || (x =? 10).
Definition is_digit (x : Z) : bool := (48 <=? x) && (x <=? 57).

Definition esc_mem (e : esc) (x : Z) : bool :=
  match e with
  | EChar c => x =? c
  | ENewline => x =? 10
  | ETab => x =? 9
  | ESpace => is_space x
  | ENotSpace => negb (x =? 0) && negb (is_space x)
  | EDigit => is_digit x
  | ENotDigit => negb (x =? 0) && negb (is_digit x)
  end.

Definition item_mem (x : Z) (it : item) : bool :=
  match it with
  | IChr c => x =? c
  | IRange a b => (a <=? x) && (x <=? b)
  | IEsc e => esc_mem e x
  end.

Definition class_mem (negated : bool) (its : list item) (x : Z) : bool :=
  if negated then negb (x =? 0) && negb (existsb (item_mem x) its) else existsb (item_mem x) its.

(** The language of a pattern. *)
Definition language := list Z -> Prop.

Definition cat (L K : language) : language := fun w => exists u v, w = u ++ v /\ L u /\ K v.

Inductive star (L : language) : language :=
| star_nil : star L []
| star_app u v : L u -> star L v -> star L (u ++ v).

Definition repeated (q : quant) (L : language) : language :=
  match q with
  | Once => L
  | Optional => fun w => w = [] \/ L w
  | Star => star L
  | Plus => cat L (star L)
  end.

Definition one_of (f : Z -> bool) : language := fun w => exists x, w = [x] /\ f x = true.

Fixpoint atom_lang (a : ratom) : language :=
  match a with
  | ALit c => one_of (fun x => x =? c)
  | AAny => one_of (fun x => negb (x =? 0) && negb (x =? 10))
  | AEsc e => one_of (esc_mem e)
  | AClass negated its => one_of (class_mem negated its)
  | AGroup r => alts_lang r
  end
with branch_lang (b : branch) : language :=
  match b with
  | BNil => fun w => w = []
  | BCons a q b => cat (repeated q (atom_lang a)) (branch_lang b)
  end
with alts_lang (r : alts) : language :=
  match r with
  | One b => branch_lang b
  | Or b r => fun w => branch_lang b w \/ alts_lang r w
  end.

(** Patterns that are written with these rules: metacharacters are escaped, the
    characters of a class are positive, a class that is not negated does not
    start with [^], and an alternative after a [|] is not empty. *)
Definition class_meta : list Z := [92; 93; 45; 91].
Definition atom_meta : list Z := [46; 92; 91; 40].

Definition esc_ok (e : esc) : bool :=
  match e with EChar c => bool_decide (c ∈ special_literals) | _ => true end.

Definition item_ok (it : item) : bool :=
  match it with
  | IChr c => (0 <? c) && bool_decide (c ∉ class_meta)
  | IRange a b => (0 <? a) && bool_decide (a ∉ class_meta) && (0 <? b) && bool_decide (b ∉ class_meta)
  | IEsc e => esc_ok e
  end.

Definition no_caret (its : list item) : bool :=
  match its with
  | IChr c :: _ => negb (c =? 94)
  | IRange a _ :: _ => negb (a =? 94)
  | _ => true
  end.

Definition first_branch (r : alts) : branch := match r with One b | Or b _ => b end.
Definition nonempty (b : branch) : bool := match b with BNil => false | _ => true end.

Fixpoint atom_ok (a : ratom) : bool :=
  match a with
  | ALit c => negb (c =? 0) && bool_decide (c ∉ atom_meta) && bool_decide (c ∉ atom_syntax)
  | AAny => true
  | AEsc e => esc_ok e
  | AClass negated its => forallb item_ok its && (negated || no_caret its)
  | AGroup r => alts_ok r
  end
with branch_ok (b : branch) : bool :=
  match b with
  | BNil => true
  | BCons a q b => atom_ok a && branch_ok b
  end
with alts_ok (r : alts) : bool :=
  match r with
  | One b => branch_ok b
  | Or b r => branch_ok b && nonempty (first_branch r) && alts_ok r
  end.

(** ** Single characters

    [cur w] is the character under a pointer to the string [w]; a test moves
    the pointer on when it succeeds. *)
Definition str (w : list Z) : list Z := w ++ [0].
Definition cur (w : list Z) : Z := default 0 (w !! 0%nat).
Definition moved (t : bool) (w : list Z) : list Z := if t then next (str w) else str w.

Lemma next_cons c p : next (c :: p) = p.
Proof. apply drop_0. Qed.

Lemma peek_str w k : peek (str w) k = k (cur w).
Proof. by destruct w. Qed.

Lemma test_str o w f k : test o (str w) f k = k (o && f (cur w)).
Proof. unfold test. destruct o; [apply peek_str|done]. Qed.

(** The call of the continuation after a single-character test. *)
Definition tested (c : tail) (p : list Z) (w : list Z) (d : data) (t : bool) : (call -> result) -> result :=
  fun rec => rec (Call c p (moved t w) d t).

Definition special_reads (e : esc) : Prop := forall p w c d o,
  leads_to (fun rec => special rec (esc_text e :: p) (str w) c d o)
           (tested c p w d (o && esc_mem e (cur w))).

Lemma class_plain c : 0 < c -> c ∉ class_meta ->
  c =? 92 = false /\ c =? 93 = false /\ c =? 0 = false /\ (c =? 45) = false /\ c =? 91 = false.
Proof.
  unfold class_meta. intros Hc Hn. rewrite !not_elem_of_cons in Hn.
  destruct Hn as (? & ? & ? & ? & _). by rewrite !(proj2 (Z.eqb_neq _ _)) by lia.
Qed.

Definition item_reads (it : item) : Prop :=
  match it with IEsc e => special_reads e | _ => item_ok it = true end.

(** What follows an item is not a [-]. *)
Lemma items_head its p : Forall item_reads its ->
  exists c q, items_text its ++ 93 :: p = c :: q /\ c =? 45 = false.
Proof.
  intros H. destruct its as [|it its]; [by exists 93, p|]. apply Forall_cons in H as [H _].
  destruct it as [c|a b|e]; cbn in H.
  - apply andb_true_iff in H as [H1 H2]. apply bool_decide_eq_true in H2. apply Z.ltb_lt in H1.
    eexists _, _. split; [done|]. by apply class_plain.
  - rewrite !andb_true_iff in H. destruct H as [[[H1 H2] _] _].
    apply bool_decide_eq_true in H2. apply Z.ltb_lt in H1.
    eexists _, _. split; [done|]. by apply class_plain.
  - by eexists _, _.
Qed.

Lemma items_text_cons it its p : items_text (it :: its) ++ p = item_text it ++ items_text its ++ p.
Proof. unfold items_text. cbn. by rewrite app_assoc. Qed.

(** A class is read to its end, and whether one of its items accepts the
    current character is remembered. *)
Lemma class1_items its : forall p w c d o,
  Forall item_reads its ->
  leads_to (fun rec => class1 rec (items_text its ++ 93 :: p) (str w) c d o)
           (fun rec => rec (Call c p (str w) d (o || existsb (item_mem (cur w)) its))).
Proof.
  induction its as [|it its IH]; intros p w c d o Hits.
  - apply leads_to_eq. intros rec. cbn. by rewrite orb_false_r.
  - apply Forall_cons in Hits as [Hit Hits].
    destruct (items_head its p Hits) as (c0 & q0 & Hq & H45).
    assert (forall t, leads_to (tested class1tail (items_text its ++ 93 :: p) w (mk_data c d [] (str w) o 0) t)
      (fun rec => rec (Call c p (str w) d ((o || t) || existsb (item_mem (cur w)) its)))) as Htail.
    { intros t. etransitivity; [apply call_leads|]. apply (IH p w c d (o || t) Hits). }
    rewrite items_text_cons. cbn [existsb]. rewrite orb_assoc.
    destruct it as [ch|a b|e]; cbn [item_text app item_mem].
    + cbn in Hit. apply andb_true_iff in Hit as [H1 H2]. apply bool_decide_eq_true in H2.
      apply Z.ltb_lt in H1. destruct (class_plain ch H1 H2) as (E1 & E2 & E3 & E4 & E5).
      etransitivity; [|apply Htail]. apply leads_to_eq. intros rec. unfold class1. cbn [peek].
      rewrite E1, E2, E3, E4, E5, !next_cons. cbn [orb]. rewrite Hq at 1. cbn [peek].
      rewrite H45. cbn [negb]. by rewrite peek_str.
    + cbn in Hit. rewrite !andb_true_iff in Hit. destruct Hit as [[[H1 H2] H3] H4].
      apply bool_decide_eq_true in H2, H4. apply Z.ltb_lt in H1, H3.
      destruct (class_plain a H1 H2) as (E1 & E2 & E3 & E4 & E5).
      destruct (class_plain b H3 H4) as (F1 & F2 & F3 & F4 & F5).
      etransitivity; [|apply Htail]. apply leads_to_eq. intros rec. unfold class1. cbn [peek].
      rewrite E1, E2, E3, E4, E5, !next_cons. cbn [orb peek negb Z.eqb Pos.eqb].
      rewrite F1, F2, F3, F4, F5. cbn [orb]. by rewrite peek_str.
    + etransitivity; [|apply Htail].
      etransitivity; [|apply ((Hit : special_reads e) _ w class1tail _ true)].
      etransitivity; [|apply special_leads].
      apply leads_to_eq. intros rec. unfold class1. cbn [peek]. by rewrite !next_cons.
Qed.

Lemma class_reads negated its p w c d o :
  Forall item_reads its -> (negated || no_caret its) = true ->
  (negated = false -> existsb (item_mem 0) its = false) ->
  leads_to (fun rec => class rec ((if negated then [94] else []) ++ items_text its ++ 93 :: p) (str w) c d o)
           (tested c p w d (o && class_mem negated its (cur w))).
Proof.
  intros Hits Hcaret H0. destruct negated; cbn [app].
  - etransitivity; [|etransitivity;
      [apply (class1_items its p w classnegtail (mk_data c d [] (str w) o 0) false Hits)|]].
    + apply leads_to_eq. intros rec. unfold class. cbn [peek Z.eqb Pos.eqb]. by rewrite next_cons.
    + etransitivity; [apply call_leads|]. apply leads_to_eq. intros rec. cbn [apply]. unfold apply_classnegtail. rewrite test_str.
      unfold eat1, tested, moved, class_mem. done.
  - etransitivity; [|etransitivity;
      [apply (class1_items its p w classtail (mk_data c d [] (str w) o 0) false Hits)|]].
    + apply leads_to_eq. intros rec. unfold class.
      assert (exists ch q, items_text its ++ 93 :: p = ch :: q /\ ch =? 94 = false) as (ch & q & Hq & H94).
      { destruct its as [|[ch|a b|e] its]; [by exists 93, p| | |by eexists _, _].
        - eexists _, _. split; [done|]. by apply negb_true_iff.
        - eexists _, _. split; [done|]. by apply negb_true_iff. }
      rewrite Hq at 1. cbn [peek]. by rewrite H94.
    + etransitivity; [apply call_leads|]. apply leads_to_eq. intros rec. done.
Qed.

(** A constant class gives control back to the pattern it stands in. *)
Lemma constclass_reads negated its p rest w c d o :
  Forall item_reads its -> (negated || no_caret its) = true ->
  (negated = false -> existsb (item_mem 0) its = false) ->
  leads_to (fun rec => constclass rec ((if negated then [94] else []) ++ items_text its ++ 93 :: rest) p (str w) c d o)
           (tested c p w d (o && class_mem negated its (cur w))).
Proof.
  intros. etransitivity; [by apply (class_reads negated its rest w constclasstail)|].
  unfold tested. etransitivity; [apply call_leads|]. apply leads_to_eq. done.
Qed.

(** Escapes that stand for a constant class. *)
Lemma special_constclass e (negated : bool) its :
  (forall rec p s c d o, special rec (esc_text e :: p) s c d o =
    constclass rec ((if negated then [94] else []) ++ items_text its ++ [93; 0]) (next (esc_text e :: p)) s c d o) ->
  Forall item_reads its -> (negated || no_caret its) = true ->
  (negated = false -> existsb (item_mem 0) its = false) ->
  (forall x, class_mem negated its x = esc_mem e x) ->
  special_reads e.
Proof.
  intros Heq Hits Hcaret H0 Hmem p w c d o. rewrite <- Hmem.
  etransitivity; [|by apply (constclass_reads negated its p [0])].
  apply leads_to_eq. intros rec. by rewrite Heq, next_cons.
Qed.

Lemma special_escape e : esc_ok e = true -> special_reads e.
Proof.
  intros He. destruct e as [ch| | | | | |].
  - cbn in He. apply bool_decide_eq_true in He. intros p w c d o. apply leads_to_eq. intros rec.
    unfold special. cbn [peek esc_text]. rewrite next_cons, (bool_decide_eq_true_2 _ He).
    assert (ch <> 115 /\ ch <> 83 /\ ch <> 100 /\ ch <> 68 /\ ch <> 110 /\ ch <> 116) as Hne.
    { unfold special_literals in He. rewrite !elem_of_cons, elem_of_nil in He. lia. }
    rewrite !(proj2 (Z.eqb_neq _ _)) by lia. by rewrite test_str.
  - intros p w c d o. apply leads_to_eq. intros rec. unfold special. cbn [peek esc_text Z.eqb Pos.eqb].
    by rewrite next_cons, test_str.
  - intros p w c d o. apply leads_to_eq. intros rec. unfold special. cbn [peek esc_text Z.eqb Pos.eqb].
    by rewrite next_cons, test_str.
  - apply (special_constclass ESpace false [IChr 32; IChr 9; IChr 10]); [done|by repeat constructor|done..|].
    intros x. cbn. by rewrite orb_false_r, orb_assoc.
  - apply (special_constclass ENotSpace true [IChr 32; IChr 9; IChr 10]); [done|by repeat constructor|done..|].
    intros x. cbn. by rewrite orb_false_r, orb_assoc.
  - apply (special_constclass EDigit false [IRange 48 57]); [done|by repeat constructor|done..|].
    intros x. cbn. by rewrite orb_false_r.
  - apply (special_constclass ENotDigit true [IRange 48 57]); [done|by repeat constructor|done..|].
    intros x. cbn. by rewrite orb_false_r.
Qed.

Lemma item_ok_reads its : forallb item_ok its = true -> Forall item_reads its.
Proof.
  induction its as [|it its IH]; [by constructor|]. cbn. intros [H1 H2]%andb_true_iff.
  constructor; [|by apply IH]. destruct it; [done|done|]. by apply special_escape.
Qed.

Lemma esc_mem_0 e : esc_ok e = true -> esc_mem e 0 = false.
Proof.
  destruct e; try done. cbn [esc_ok esc_mem]. intros H%bool_decide_eq_true. apply Z.eqb_neq. intros <-.
  revert H. apply (bool_decide_unpack _). by vm_compute.
Qed.

Lemma items_mem_0 its : forallb item_ok its = true -> existsb (item_mem 0) its = false.
Proof.
  induction its as [|it its IH]; [done|]. cbn. intros [H1 H2]%andb_true_iff. rewrite (IH H2), orb_false_r.
  destruct it as [c|a b|e]; cbn [item_ok item_mem] in *; [| |by apply esc_mem_0].
  - apply andb_true_iff in H1 as [H1 _]. apply Z.ltb_lt in H1. apply Z.eqb_neq. lia.
  - rewrite !andb_true_iff in H1. destruct H1 as [[[H1 _] _] _]. apply Z.ltb_lt in H1.
    apply andb_false_iff. left. apply Z.leb_gt. lia.
Qed.

(** The atoms that are one character. *)
Definition char_mem (a : ratom) : option (Z -> bool) :=
  match a with
  | ALit c => Some (fun x => x =? c)
  | AAny => Some (fun x => negb (x =? 0) && negb (x =? 10))
  | AEsc e => Some (esc_mem e)
  | AClass negated its => Some (class_mem negated its)
  | AGroup _ => None
  end.

Lemma atom_reads_char a f p w c d o :
  atom_ok a = true -> char_mem a = Some f ->
  leads_to (fun rec => atom rec (atom_text a ++ p) (str w) c d o) (tested c p w d (o && f (cur w))).
Proof.
  intros Hok Hf. destruct a as [ch| |e|negated its|r]; cbn in Hf; try done; injection Hf as <-.
  - cbn in Hok. rewrite !andb_true_iff in Hok. destruct Hok as [[H0 H1] H2].
    apply bool_decide_eq_true in H1, H2. apply leads_to_eq. intros rec. unfold atom. cbn [atom_text app peek].
    unfold atom_meta in H1. rewrite !not_elem_of_cons in H1. destruct H1 as (? & ? & ? & ? & _).
    rewrite !(proj2 (Z.eqb_neq _ _)), (bool_decide_eq_false_2 _ H2), next_cons by done.
    by rewrite test_str.
  - etransitivity; [|etransitivity; [apply (constclass_reads true [IChr 10] p [0] w c d o);
      [by repeat constructor|done..]|]]; [by apply leads_to_eq|].
    apply leads_to_eq. intros rec. unfold class_mem. cbn [existsb item_mem]. by rewrite orb_false_r.
  - etransitivity; [|by apply (special_escape e Hok)]. apply leads_to_eq. done.
  - cbn [atom_ok] in Hok. apply andb_true_iff in Hok as [Hits Hcaret].
    etransitivity; [|apply (class_reads negated its p w c d o (item_ok_reads _ Hits) Hcaret);
      intros _; by apply items_mem_0].
    apply leads_to_eq. intros rec. unfold atom. cbn [atom_text app peek Z.eqb Pos.eqb]. rewrite next_cons.
    by rewrite <- !app_assoc.
Qed.

Lemma char_mem_0 a f : atom_ok a = true -> char_mem a = Some f -> f 0 = false.
Proof.
  intros Hok Hf. destruct a as [ch| |e|negated its|r]; cbn in Hf; try done; injection Hf as <-; cbn [atom_ok class_mem] in *.
  - rewrite !andb_true_iff in Hok. destruct Hok as [[H0%negb_true_iff _] _]. by rewrite Z.eqb_sym.
  - done.
  - by apply esc_mem_0.
  - apply andb_true_iff in Hok as [Hits _]. destruct negated; [done|]. by apply items_mem_0.
Qed.

(** ** Continuations

    [good t d p W A B]: called at the rest [p] of the pattern with any suffix of
    the string [W], the continuation [t], [d] succeeds if the match so far has
    succeeded and the rest of the string is in [A], or if [B], which stands for
    the alternatives that it tries on its own. *)
Definition good (t : tail) (d : data) (p W : list Z) (A : language) (B : Prop) : Prop :=
  forall w o, w `suffix_of` W ->
  decides (fun rec => rec (Call t p (str w) d o)) ((o = true /\ A w) \/ B).

(** Strings have no null character and a length that a counter can hold. *)
Definition subject (W : list Z) : Prop :=
  Forall (fun c => c <> 0) W /\ Z.of_nat (length W) + 2 < MAX.

Lemma subject_suffix w W : w `suffix_of` W -> subject W -> subject w.
Proof.
  intros [u ->] [Hz Hl]. apply Forall_app in Hz as [_ Hz]. split; [done|]. rewrite length_app in Hl. lia.
Qed.

Lemma good_suffix t d p w W A B : w `suffix_of` W -> good t d p W A B -> good t d p w A B.
Proof. intros Hw Hg v o Hv. apply Hg. by etransitivity. Qed.

Definition atom_prop (a : ratom) : Prop := forall c d p W A B w o,
  subject W -> good c d p W A B -> w `suffix_of` W ->
  decides (fun rec => atom rec (atom_text a ++ p) (str w) c d o)
          ((o = true /\ cat (atom_lang a) A w) \/ B).

Lemma atom_prop_char a f : atom_ok a = true -> char_mem a = Some f -> atom_lang a = one_of f -> atom_prop a.
Proof.
  intros Hok Hf Hl c d p W A B w o HW Hg Hw.
  eapply decides_leads; [by apply atom_reads_char|]. rewrite Hl. unfold tested, moved.
  destruct (o && f (cur w)) eqn:Ht.
  - apply andb_true_iff in Ht as [-> Ht].
    destruct w as [|x w]; [cbn in Ht; by rewrite (char_mem_0 a f Hok Hf) in Ht|]. cbn in Ht.
    eapply decides_iff; [|apply (Hg w true); etransitivity; [|exact Hw]; by exists [x]].
    split; (intros [[_ HA]|HB]; [left; split; [done|]|by right]).
    + exists [x], w. split_and!; [done| |done]. by exists x.
    + destruct HA as (u & v & Heq & (y & -> & _) & HA). by injection Heq as -> ->.
  - eapply decides_iff; [|by apply (Hg w false)].
    split; (intros [[Ho HA]|HB]; [|by right]); [done|].
    destruct HA as (u & v & -> & (y & -> & Hy) & _). cbn in Ht. by rewrite Ho, Hy in Ht.
Qed.

(** ** Repetitions *)

Lemma star_nonempty L u : star L u -> u <> [] ->
  exists x y, u = x ++ y /\ x <> [] /\ L x /\ star L y.
Proof.
  induction 1 as [|x y Hx Hy IH]; [done|]. intros Hne. destruct x as [|c x].
  - by apply IH.
  - by exists (c :: x), y.
Qed.

Lemma repeat_fold L A w :
  cat L (fun v => A v \/ cat (cat L (star L)) A v) w -> cat (cat L (star L)) A w.
Proof.
  intros (u & v & -> & Hu & [HA|(x & v' & -> & (u1 & us & -> & Hu1 & Hus) & HA)]).
  - exists u, v. split_and!; [done| |done]. exists u, []. rewrite app_nil_r. split_and!; [done..|constructor].
  - exists (u ++ u1 ++ us), v'. split_and!; [by rewrite app_assoc| |done].
    exists u, (u1 ++ us). split_and!; [done..|]. by constructor.
Qed.

(** More iterations after one that got from [w] to [v] are only tried if it has
    moved; no match is lost by that. *)
Lemma repeat_unfold L A w :
  cat L (fun v => A v \/ v <> w /\ cat (cat L (star L)) A v) w <-> cat (cat L (star L)) A w.
Proof.
  split.
  - intros (u & v & -> & Hu & H). apply repeat_fold. exists u, v. split_and!; [done..|]. tauto.
  - intros (x & v & -> & (u1 & us & -> & Hu1 & Hus) & HA).
    assert (forall y z, y <> [] -> L y -> star L z ->
      cat L (fun v0 => A v0 \/ v0 <> (y ++ z) ++ v /\ cat (cat L (star L)) A v0) ((y ++ z) ++ v)) as Hmain.
    { intros y z Hy HL Hz. exists y, (z ++ v). split_and!; [by rewrite app_assoc|done|].
      destruct z as [|c z]; [by left|right]. split.
      - intros Heq%(f_equal length). rewrite !length_app in Heq. destruct y; [done|]. cbn in Heq. lia.
      - destruct (star_nonempty L _ Hz) as (x1 & y1 & -> & _ & Hx1 & Hy1); [done|].
        exists (x1 ++ y1), v. split_and!; [done| |done]. by exists x1, y1. }
    destruct u1 as [|c u1]; [|by apply Hmain].
    destruct us as [|c us]; [exists [], v; by split_and!; [| |left]|].
    destruct (star_nonempty L _ Hus) as (x1 & y1 & Heq & Hx1 & HL & Hy1); [done|].
    rewrite app_nil_l, Heq. by apply Hmain.
Qed.

(** The same without the guard. *)
Lemma repeat_plain L A w :
  cat L (fun v => A v \/ True /\ cat (cat L (star L)) A v) w <-> cat (cat L (star L)) A w.
Proof.
  split.
  - intros (u & v & -> & Hu & H). apply repeat_fold. exists u, v. split_and!; [done..|]. tauto.
  - rewrite <- repeat_unfold. intros (u & v & -> & Hu & H). exists u, v. split_and!; [done..|]. tauto.
Qed.

Lemma cat_star L A w : cat (star L) A w <-> A w \/ cat (cat L (star L)) A w.
Proof.
  split.
  - intros (u & v & -> & Hu & HA). destruct Hu as [|x y Hx Hy]; [by left|right].
    exists (x ++ y), v. split_and!; [done| |done]. by exists x, y.
  - intros [HA|(u & v & -> & (x & y & -> & Hx & Hy) & HA)].
    + exists [], w. split_and!; [done|constructor|done].
    + exists (x ++ y), v. split_and!; [done|by constructor|done].
Qed.

(** The character after an atom does not ask for a repetition. *)
Definition calm (p : list Z) : Prop :=
  exists ch q, p = ch :: q /\ ch <> 63 /\ ch <> 42 /\ ch <> 43 /\ ch <> 123.

Lemma singletail_calm c d pat w0 ok i p w o :
  calm p ->
  leads_to (fun rec => rec (Call singletail p w (mk_data c d pat w0 ok i) o)) (fun rec => rec (Call c p w d o)).
Proof.
  intros (ch & q & -> & H1 & H2 & H3 & H4). etransitivity; [apply call_leads|].
  apply leads_to_eq. intros rec. cbn [apply]. unfold apply_singletail. cbn [peek].
  by rewrite !(proj2 (Z.eqb_neq _ _)).
Qed.

Lemma suffix_same_length (v w : list Z) : v `suffix_of` w -> length (str v) = length (str w) -> v = w.
Proof.
  intros [u ->] H. unfold str in H. rewrite !length_app in H. destruct u; [done|]. cbn in H. lia.
Qed.

Section Repeat.
Context (a : ratom) (Ha : atom_prop a).
Context (c : tail) (d : data) (p W : list Z) (A : language) (B : Prop).
Context (HW : subject W) (Hg : good c d p W A B) (Hcalm : calm p).

(** The last choice of [repeat_tail]: one more iteration. *)
Definition iterate (lo hi : Z) (pat w w0 : list Z) (o : bool) (i : Z) : (call -> result) -> result :=
  fun rec =>
  if (i >? lo) && (length (str w) =? length (str w0))%nat then Val REGEXP_FAIL
  else if i <? hi then single rec pat (str w) c d o (u32 (i + 1)) else Val REGEXP_FAIL.

Lemma repeat_tail_decides lo hi pat w w0 o ok i R :
  w `suffix_of` W -> w0 `suffix_of` W -> 1 <= hi -> lo <= i ->
  decides (iterate lo hi pat w w0 o i) R ->
  decides (fun rec => repeat_tail rec lo hi p (str w) o c d pat (str w0) ok i)
    ((lo = 0 /\ i = 1 /\ ok = true /\ A w0) \/ (o = true /\ A w) \/ B \/ R).
Proof.
  intros Hw Hw0 Hhi Hlo HR. unfold repeat_tail.
  assert (forall v b, v `suffix_of` W ->
    decides (fun rec => rec (Call singletail p (str v) (mk_data c d pat (str w0) ok i) b))
            ((b = true /\ A v) \/ B)) as Hcont.
  { intros v b Hv. eapply decides_leads; [by apply singletail_calm|]. by apply Hg. }
  assert (decides (fun rec => if (hi >=? 1) && (i >=? lo)
      then or_else (rec (Call singletail p (str w) (mk_data c d pat (str w0) ok i) o)) (iterate lo hi pat w w0 o i rec)
      else iterate lo hi pat w w0 o i rec) (((o = true /\ A w) \/ B) \/ R)) as Hsecond.
  { rewrite !(proj2 (Z.geb_le _ _)) by lia. cbn [andb]. apply decides_or; [by apply Hcont|done]. }
  destruct (Z.eqb_spec lo 0) as [H0|H0]; [destruct (Z.eqb_spec i 1) as [H1|H1]|]; cbn [andb].
  - eapply decides_iff; [|apply (decides_or _ _ _ _ (Hcont w0 ok Hw0) Hsecond)]. tauto.
  - eapply decides_iff; [|exact Hsecond]. tauto.
  - eapply decides_iff; [|exact Hsecond]. tauto.
Qed.

Lemma iterate_decides lo hi pat w w0 o i R :
  w `suffix_of` w0 -> 0 <= i < MAX -> i < hi ->
  (w <> w0 \/ i <= lo -> decides (fun rec => single rec pat (str w) c d o (i + 1)) R) ->
  decides (iterate lo hi pat w w0 o i) ((w <> w0 \/ i <= lo) /\ R).
Proof.
  intros Hw Hi Hhi HR. unfold iterate. rewrite Z.gtb_ltb.
  destruct ((lo <? i) && (length (str w) =? length (str w0))%nat) eqn:E.
  - apply andb_true_iff in E as [E1%Z.ltb_lt E2%Nat.eqb_eq].
    eapply decides_iff; [|apply decides_fail]. apply (suffix_same_length w w0 Hw) in E2.
    split; [done|]. intros [[H|H] _]; [done|lia].
  - assert (w <> w0 \/ i <= lo) as Hc.
    { apply andb_false_iff in E as [E%Z.ltb_ge|E%Nat.eqb_neq]; [by right|left; congruence]. }
    rewrite (proj2 (Z.ltb_lt _ _) Hhi), u32_small by (unfold MAX, max32 in *; lia).
    eapply decides_iff; [|by apply HR]. tauto.
Qed.

(** One iteration: the atom, and then the choices of [repeat_tail].  [C v] says
    when another iteration follows at [v], [K v] what it accepts. *)
Lemma single_decides ch lo hi w o i (C K : language) :
  ch = 63 /\ lo = 0 /\ hi = 1 \/ ch = 42 /\ lo = 0 /\ hi = MAX \/ ch = 43 /\ lo = 1 /\ hi = MAX ->
  w `suffix_of` W -> lo <= i ->
  (forall v b, v `suffix_of` w ->
    decides (iterate lo hi (atom_text a ++ ch :: p) v w b i) (C v /\ ((b = true /\ K v) \/ B))) ->
  decides (fun rec => single rec (atom_text a ++ ch :: p) (str w) c d o i)
    ((o = true /\ cat (atom_lang a) (fun v => A v \/ C v /\ K v) w) \/
     (lo = 0 /\ i = 1 /\ o = true /\ A w) \/ B).
Proof.
  intros Hch Hw Hi HR. unfold single.
  apply (Ha singletail _ (ch :: p) w (fun v => A v \/ C v /\ K v)
    ((lo = 0 /\ i = 1 /\ o = true /\ A w) \/ B) w o); [by eapply subject_suffix| |done].
  intros v b Hv. eapply decides_leads; [apply call_leads|].
  eapply (decides_leads _ (fun rec => repeat_tail rec lo hi p (str v) b c d (atom_text a ++ ch :: p) (str w) o i)).
  { apply leads_to_eq. intros rec. cbn [apply]. unfold apply_singletail. cbn [peek]. rewrite next_cons.
    destruct Hch as [(-> & -> & ->)|[(-> & -> & ->)|(-> & -> & ->)]]; done. }
  eapply decides_iff; [|apply repeat_tail_decides; [by etransitivity|done| |done|by apply HR]].
  - tauto.
  - destruct Hch as [(-> & -> & ->)|[(-> & -> & ->)|(-> & -> & ->)]]; by vm_compute.
Qed.

(** From the second iteration on. *)
Lemma single_again ch lo n : forall w o i,
  ch = 42 /\ lo = 0 \/ ch = 43 /\ lo = 1 ->
  (length w < n)%nat -> w `suffix_of` W -> 2 <= i -> Z.of_nat (length w) + i < MAX ->
  decides (fun rec => single rec (atom_text a ++ ch :: p) (str w) c d o i)
    ((o = true /\ cat (cat (atom_lang a) (star (atom_lang a))) A w) \/ B).
Proof.
  induction n as [|n IH]; intros w o i Hch Hn Hw Hi Hlen; [lia|].
  eapply decides_iff;
    [|apply (single_decides ch lo MAX w o i (fun v => v <> w \/ i <= lo)
        (cat (cat (atom_lang a) (star (atom_lang a))) A)); [tauto|done|lia|]].
  - rewrite <- (repeat_unfold (atom_lang a) A w).
    assert (forall v : list Z, v <> w \/ i <= lo <-> v <> w) as Hc by (intros; split; [intros [?|?]; [done|lia]|tauto]).
    assert (~ (lo = 0 /\ i = 1 /\ o = true /\ A w)) by lia.
    unfold cat at 1 5. setoid_rewrite Hc. tauto.
  - intros v b Hv. apply iterate_decides; [done|lia|lia|]. intros [Hne|?]; [|lia].
    assert (length v < length w)%nat as Hvl.
    { destruct Hv as [u ->]. rewrite length_app. destruct u; [done|]. cbn. lia. }
    apply IH; [done|lia|by etransitivity|lia|lia].
Qed.

(** All kinds of repetition. *)
Lemma single_repeats q w o :
  w `suffix_of` W ->
  decides (fun rec => single rec (atom_text a ++ quant_text q ++ p) (str w) c d o 1)
    ((o = true /\ cat (repeated q (atom_lang a)) A w) \/ B).
Proof.
  intros Hw. destruct (subject_suffix _ _ Hw HW) as [_ Hlen].
  destruct q; cbn [quant_text app repeated].
  - apply (Ha singletail _ p w A B w o); [by eapply subject_suffix| |done].
    intros v b Hv. eapply decides_leads; [by apply singletail_calm|]. apply Hg. by etransitivity.
  - eapply decides_iff;
      [|apply (single_decides 63 0 1 w o 1 (fun _ => False) (fun _ => False)); [tauto|done|lia|]].
    + unfold cat. split.
      * intros [[-> (u & v & -> & Hu & [HA|[[] _]])]|[(_ & _ & -> & HA)|HB]]; [left|left|by right]; (split; [done|]).
        -- exists u, v. split_and!; [done|by right|done].
        -- exists [], w. split_and!; [done|by left|done].
      * intros [[-> (u & v & -> & [->|Hu] & HA)]|HB]; [right; left|left|by right; right].
        -- by split_and!.
        -- split; [done|]. exists u, v. split_and!; [done..|by left].
    + intros v b Hv. unfold iterate. rewrite Z.ltb_irrefl.
      eapply decides_iff; [|destruct (_ && _); apply decides_fail]. tauto.
  - eapply decides_iff;
      [|apply (single_decides 42 0 MAX w o 1 (fun v => v <> w)
          (cat (cat (atom_lang a) (star (atom_lang a))) A)); [tauto|done|lia|]].
    + rewrite (repeat_unfold (atom_lang a) A w), cat_star. pose proof (eq_refl 0). pose proof (eq_refl 1). tauto.
    + intros v b Hv. eapply decides_iff; [|apply iterate_decides; [done|lia|lia|]].
      2: { intros _. apply (single_again 42 0 (S (length v))); [tauto|lia|by etransitivity|lia|].
           apply suffix_length in Hv. lia. }
      split; [intros [[?|?] ?]; [tauto|lia]|tauto].
  - eapply decides_iff;
      [|apply (single_decides 43 1 MAX w o 1 (fun v => True)
          (cat (cat (atom_lang a) (star (atom_lang a))) A)); [tauto|done|lia|]].
    + assert (~ (1 = 0 /\ 1 = 1 /\ o = true /\ A w)) by lia.
      assert (cat (atom_lang a) (fun v => A v \/ True /\ cat (cat (atom_lang a) (star (atom_lang a))) A v) w <->
              cat (cat (atom_lang a) (star (atom_lang a))) A w) as ->; [|tauto].
      apply repeat_plain.
    + intros v b Hv. eapply decides_iff; [|apply iterate_decides; [done|lia|lia|]].
      2: { intros _. apply (single_again 43 1 (S (length v))); [tauto|lia|by etransitivity|lia|].
           apply suffix_length in Hv. lia. }
      split; [tauto|]. intros [_ H]. split; [right; lia|done].
Qed.

End Repeat.

(** ** Branches and alternatives *)

Lemma atom_head a : atom_ok a = true -> exists ch q, atom_text a = ch :: q /\
  ch <> 63 /\ ch <> 42 /\ ch <> 43 /\ ch <> 123 /\ ch <> 124 /\ ch <> 0 /\ ch <> 41.
Proof.
  destruct a as [c| |e|negated its|r]; cbn [atom_ok atom_text]; intros H; eexists _, _; (split; [done|]); try lia.
  rewrite !andb_true_iff in H. destruct H as [[H0%negb_true_iff%Z.eqb_neq _] H2%bool_decide_eq_true].
  unfold atom_syntax in H2. rewrite !not_elem_of_cons in H2. lia.
Qed.

(** The end of a branch: another alternative, the end of a group or of the pattern. *)
Definition stops (p : list Z) : Prop := exists ch q, p = ch :: q /\ (ch = 124 \/ ch = 0 \/ ch = 41).

Lemma branch_calm b p : branch_ok b = true -> stops p -> calm (branch_text b ++ p).
Proof.
  destruct b as [|a q b]; cbn [branch_ok branch_text].
  - intros _ (ch & r & -> & H). exists ch, r. split; [done|]. lia.
  - intros [Ha _]%andb_true_iff _. destruct (atom_head a Ha) as (ch & r & -> & H).
    eexists _, _. split; [done|]. tauto.
Qed.

Definition branch_prop (b : branch) : Prop := forall t nxt pat s0 ok i p W A B,
  subject W -> stops p -> good seqtail (mk_data t nxt pat s0 ok i) p W A B ->
  good seqtail (mk_data t nxt pat s0 ok i) (branch_text b ++ p) W (cat (branch_lang b) A) B.

Definition alts_prop (r : alts) : Prop := forall t nxt ch q W A B w o,
  subject W -> ch = 0 \/ ch = 41 -> good t nxt (ch :: q) W A B -> w `suffix_of` W ->
  decides (fun rec => rec (Call seqtail (alts_text r ++ ch :: q) (str w) (mk_data t nxt [] (str w) o 0) o))
          ((o = true /\ cat (alts_lang r) A w) \/ B).

Lemma cat_nil A w : cat (fun v => v = []) A w <-> A w.
Proof.
  split; [by intros (u & v & -> & -> & HA)|]. intros HA. by exists [], w.
Qed.

Lemma cat_assoc L K A w : cat (cat L K) A w <-> cat L (cat K A) w.
Proof.
  split.
  - intros (x & v & -> & (u & y & -> & HL & HK) & HA). exists u, (y ++ v).
    split_and!; [by rewrite app_assoc|done|]. by exists y, v.
  - intros (u & x & -> & HL & (y & v & -> & HK & HA)). exists (u ++ y), v.
    split_and!; [by rewrite app_assoc| |done]. by exists u, y.
Qed.

Lemma branch_nil_prop : branch_prop BNil.
Proof.
  intros t nxt pat s0 ok i p W A B HW Hp Hg w o Hw. cbn [branch_text app branch_lang].
  eapply decides_iff; [|by apply Hg]. by rewrite cat_nil.
Qed.

Lemma branch_cons_prop a q b :
  atom_ok a = true -> branch_ok b = true -> atom_prop a -> branch_prop b -> branch_prop (BCons a q b).
Proof.
  intros Hok Hokb Ha Hb t nxt pat s0 ok i p W A B HW Hp Hg w o Hw. cbn [branch_text branch_lang].
  rewrite <- !app_assoc.
  eapply decides_leads; [apply call_leads|].
  eapply (decides_leads _ (fun rec => single rec (atom_text a ++ quant_text q ++ branch_text b ++ p)
    (str w) seqtail (mk_data t nxt pat s0 ok i) o 1)).
  { destruct (atom_head a Hok) as (ch & r & Hr & H). apply leads_to_eq. intros rec. cbn [apply].
    unfold apply_seqtail. rewrite Hr at 1. cbn [app peek]. by rewrite !(proj2 (Z.eqb_neq _ _)) by tauto. }
  eapply decides_iff; [|apply (single_repeats a Ha seqtail _ _ W (cat (branch_lang b) A) B HW); [|by apply branch_calm|done]].
  - by rewrite cat_assoc.
  - by apply Hb.
Qed.

(** At the end of the pattern or of a group, [seqtail] calls its continuation. *)
Lemma seqtail_end t nxt s0 ok ch q W A B :
  ch = 0 \/ ch = 41 -> good t nxt (ch :: q) W A B -> good seqtail (mk_data t nxt [] s0 ok 0) (ch :: q) W A B.
Proof.
  intros Hch Hg w o Hw. eapply decides_leads; [apply call_leads|].
  eapply decides_leads; [|by apply Hg]. apply leads_to_eq. intros rec. cbn [apply]. unfold apply_seqtail. cbn [peek].
  by destruct Hch as [-> | ->].
Qed.

Lemma one_prop b : branch_prop b -> alts_prop (One b).
Proof.
  intros Hb t nxt ch q W A B w o HW Hch Hg Hw. cbn [alts_text alts_lang].
  apply (Hb t nxt [] (str w) o 0 (ch :: q) W A B HW); [|by apply seqtail_end|done].
  exists ch, q. split; [done|tauto].
Qed.

(** [seqortail] tries its continuation with the second alternative and then
    with the first. *)
Lemma seqortail_good t nxt v b p W A B :
  v `suffix_of` W -> good t nxt p W A B ->
  good seqortail (mk_data t nxt [] (str v) b 0) p W A (B \/ (b = true /\ A v)).
Proof.
  intros Hv Hg w o Hw. eapply decides_leads; [apply call_leads|].
  eapply decides_iff; [|apply (decides_or _ _ _ _ (Hg w o Hw) (Hg v b Hv))]. tauto.
Qed.

Lemma apply_leads c p s d o :
  leads_to (fun rec => apply rec c p s d o) (fun rec => rec (Call c p s d o)).
Proof. intros v [n Hn]. exists n. intros m Hm. apply (Hn (S m)). lia. Qed.

Lemma first_branch_head r p : alts_ok r = true -> nonempty (first_branch r) = true ->
  exists ch q, alts_text r ++ p = ch :: q /\ ch <> 124 /\ ch <> 0 /\ ch <> 41.
Proof.
  intros Hok Hne.
  assert (exists a q b rest, alts_text r = atom_text a ++ q ++ b ++ rest /\ atom_ok a = true) as (a & q & b & rest & -> & Ha).
  { destruct r as [[|a q b]|[|a q b] r]; try done; cbn in *; rewrite !andb_true_iff in Hok.
    - exists a, (quant_text q), (branch_text b), []. rewrite app_nil_r. tauto.
    - eexists a, (quant_text q), (branch_text b), _. rewrite <- !app_assoc. split; [done|tauto]. }
  destruct (atom_head a Ha) as (ch & t & -> & H). eexists _, _. split; [done|]. tauto.
Qed.

Lemma or_prop b r :
  alts_ok r = true -> nonempty (first_branch r) = true ->
  branch_prop b -> alts_prop r -> alts_prop (Or b r).
Proof.
  intros Hok Hne Hb Hr t nxt ch q W A B w o HW Hch Hg Hw. cbn [alts_text alts_lang]. rewrite <- app_assoc. cbn [app].
  assert (good seqtail (mk_data t nxt [] (str w) o 0) (124 :: alts_text r ++ ch :: q) W A
    ((o = true /\ cat (alts_lang r) A w) \/ B)) as Hbar.
  { intros v b' Hv. eapply decides_leads; [apply call_leads|].
    eapply decides_leads; [|eapply decides_iff; [|apply (Hr seqortail (mk_data t nxt [] (str v) b' 0) ch q W A
      (B \/ (b' = true /\ A v)) w o HW Hch); [by apply seqortail_good|done]]].
    - etransitivity; [|apply apply_leads]. apply leads_to_eq. intros rec. cbn [apply]. unfold apply_seqtail.
      destruct (first_branch_head r (ch :: q) Hok Hne) as (c0 & q0 & Hq & H1 & H2 & H3).
      cbn [peek Z.eqb Pos.eqb]. rewrite next_cons, Hq. cbn [peek]. by rewrite !(proj2 (Z.eqb_neq _ _)).
    - tauto. }
  eapply decides_iff; [|apply (Hb t nxt [] (str w) o 0 (124 :: alts_text r ++ ch :: q) W A
      ((o = true /\ cat (alts_lang r) A w) \/ B) HW);
    [by exists 124, (alts_text r ++ ch :: q); tauto|exact Hbar|done]].
  split.
  - intros [[Ho (u & v & -> & Hu & HA)]|[[Ho (u & v & -> & Hu & HA)]|HB]]; [left|left|by right];
      (split; [done|]); exists u, v; tauto.
  - intros [[Ho (u & v & -> & [Hu|Hu] & HA)]|HB]; [left|right; left|by right; right]; (split; [done|]); by exists u, v.
Qed.

Lemma group_prop r : alts_prop r -> atom_prop (AGroup r).
Proof.
  intros Hr c d p W A B w o HW Hg Hw.
  eapply decides_leads; [|apply (Hr seqatomtail (mk_data c d [] [] false 0) 41 p W A B w o HW); [by right| |done]].
  - apply leads_to_eq. intros rec. unfold atom. cbn [atom_text app peek Z.eqb Pos.eqb].
    rewrite next_cons, <- app_assoc. done.
  - intros v b Hv. eapply decides_leads; [apply call_leads|]. eapply decides_leads; [|by apply Hg].
    apply leads_to_eq. intros rec. cbn [apply]. unfold apply_seqatomtail. cbn [peek Z.eqb Pos.eqb negb]. by rewrite next_cons.
Qed.

Lemma all_props :
  (forall a, atom_ok a = true -> atom_prop a) /\
  (forall b, branch_ok b = true -> branch_prop b) /\
  (forall r, alts_ok r = true -> alts_prop r).
Proof.
  apply regexp_ind.
  - intros c Hok. by eapply (atom_prop_char (ALit c)); [exact Hok|..].
  - intros Hok. by eapply (atom_prop_char AAny); [exact Hok|..].
  - intros e Hok. by eapply (atom_prop_char (AEsc e)); [exact Hok|..].
  - intros negated its Hok. by eapply (atom_prop_char (AClass negated its)); [exact Hok|..].
  - intros r IH Hok. by apply group_prop, IH.
  - intros _. apply branch_nil_prop.
  - intros a IHa q b IHb Hok. cbn in Hok. apply andb_true_iff in Hok as [Ha Hb].
    apply branch_cons_prop; auto.
  - intros b IH Hok. by apply one_prop, IH.
  - intros b IHb r IHr Hok. cbn in Hok. rewrite !andb_true_iff in Hok. destruct Hok as [[Hb Hne] Hr].
    apply or_prop; auto.
Qed.

(** C26. Correctness of the matcher.  For every pattern of the grammar and every
    string (without null characters, shorter than the largest counter),
    [regexp_match] ends, for every amount of fuel from some point on, with
    [REGEXP_OK] if the string is in the language of the pattern and with
    [REGEXP_FAIL] if it is not. *)
Theorem regexp_match_correct r w :
  alts_ok r = true -> Forall (fun c => c <> 0) w -> Z.of_nat (length w) + 2 < MAX ->
  exists n v, (forall m, (n <= m)%nat -> regexp_match m (alts_text r ++ [0]) (w ++ [0]) = Val v) /\
    (v = REGEXP_OK /\ alts_lang r w \/ v = REGEXP_FAIL /\ ~ alts_lang r w).
Proof.
  intros Hok Hw Hl.
  assert (good matchtail null [0] w (fun v => v = []) False) as Hend.
  { intros v o Hv. eapply decides_leads; [apply call_leads|].
    destruct (subject_suffix v w Hv (conj Hw Hl)) as [Hz _].
    destruct o; [destruct v as [|c v]|].
    - left. split; [by left|]. apply evaluates_val.
    - right. split; [naive_solver|]. apply Forall_cons in Hz as [Hc _].
      exists 0%nat. intros m _. cbn. by rewrite (proj2 (Z.eqb_neq _ _) Hc).
    - right. split; [naive_solver|]. apply evaluates_val. }
  destruct all_props as (_ & _ & Hr).
  destruct (Hr r Hok matchtail null 0 [] w (fun v => v = []) False w true (conj Hw Hl) (or_introl eq_refl) Hend)
    as [[HL [n Hn]]|[HL [n Hn]]]; [done| |]; exists n; eexists; (split; [exact Hn|]); [left|right];
    (split; [done|]).
  - destruct HL as [[_ (u & v & -> & Hu & ->)]|[]]. by rewrite app_nil_r.
  - intros Hin. apply HL. left. split; [done|]. exists w, []. by rewrite app_nil_r.
Qed.

(** [a(b|cd)*] and [abcdb]. *)
Lemma regexp_match_correct_witness :
  exists n v,
    (forall m, (n <= m)%nat ->
      regexp_match m [97; 40; 98; 124; 99; 100; 41; 42; 0] [97; 98; 99; 100; 98; 0] = Val v) /\
    (v = REGEXP_OK \/ v = REGEXP_FAIL).
Proof.
  destruct (regexp_match_correct
    (One (BCons (ALit 97) Once (BCons (AGroup (Or (BCons (ALit 98) Once BNil)
       (One (BCons (ALit 99) Once (BCons (ALit 100) Once BNil))))) Star BNil)))
    [97; 98; 99; 100; 98] ltac:(by vm_compute) ltac:(by repeat constructor) ltac:(by vm_compute))
    as (n & v & Hn & Hv).
  exists n, v. split; [exact Hn|]. destruct Hv as [[-> _]|[-> _]]; [left|right]; reflexivity.
Defined.

(** The digits of a counted repetition are taken together with everything up to
    the end of the pattern: the brace counts as the digit 38, so that [a{3}]
    stands for 68 times [a]. *)
Example counted_repetition_wrong :
  regexp_match 300 [97; 123; 51; 125; 0] [97; 97; 97; 0] = Val REGEXP_FAIL /\
  regexp_match 300 [97; 123; 51; 125; 0] (replicate 68 97 ++ [0]) = Val REGEXP_OK /\
  regexp_match 300 [97; 123; 49; 125; 98; 0] [97; 98; 0] = Val REGEXP_SYNTAX.
Proof. split_and!; by vm_compute. Qed.

(** After a [|] at the end of a pattern the null character is taken for an atom
    and the pattern is read past its end. *)
Example trailing_bar_strays :
  regexp_match 100 [97; 124; 0] [98; 0] = Stray /\ regexp_match 100 [97; 124; 0] [0] = Stray.
Proof. split; by vm_compute. Qed.
