(* ===== verification/P9p.v ===== *)
(** * 9P messages

    [src/libz/fudge/p9p.c]: the messages of the 9P file protocol.  A message is
    its size, type and tag, and then fields that are little-endian numbers,
    buffers and strings with a length in front.  The functions write into a
    buffer, seen as the list of its bytes, and return the number of bytes;
    writing outside the buffer is [None].

    The theorems: what every builder writes, and that the reading functions of
    the same file get every field back. *)
From S2P Require Import Prelude Buffer Cstring.

Local Open Scope Z_scope.

(** ** Reading *)

Definition p9p_read1 (buffer : list Z) (o : Z) : option Z := rd buffer o.

Definition p9p_read2 (buffer : list Z) (o : Z) : option Z :=
  p0 ← rd buffer o; p1 ← rd buffer (o + 1);
  Some (u16 (Z.lor (Z.shiftl p1 8) p0)).

Definition p9p_read4 (buffer : list Z) (o : Z) : option Z :=
  p0 ← rd buffer o; p1 ← rd buffer (o + 1); p2 ← rd buffer (o + 2); p3 ← rd buffer (o + 3);
  Some (u32 (Z.lor (Z.lor (Z.lor (Z.shiftl p3 24) (Z.shiftl p2 16)) (Z.shiftl p1 8)) p0)).

Definition p9p_readstringlength (buffer : list Z) (o : Z) : option Z := p9p_read2 buffer o.

(** The pointers these two return, as offsets into the buffer. *)
Definition p9p_readbuffer (o : Z) : Z := o.
Definition p9p_readstringdata (o : Z) : Z := o + 2.

(** ** Writing *)

(** [p[0] = ...; p[1] = ...; ...] *)
Fixpoint put_bytes (buffer : list Z) (o : Z) (bs : list Z) : option (list Z) :=
  match bs with
  | [] => Some buffer
  | x :: bs => b ← wr buffer o x; put_bytes b (o + 1) bs
  end.

Definition p9p_write1 (buffer : list Z) (o v : Z) : option (list Z * Z) :=
  b ← put_bytes buffer o [u8 v]; Some (b, 1).

Definition p9p_write2 (buffer : list Z) (o v : Z) : option (list Z * Z) :=
  let v := u16 v in
  b ← put_bytes buffer o [u8 v; u8 (Z.shiftr v 8)]; Some (b, 2).

Definition p9p_write4 (buffer : list Z) (o v : Z) : option (list Z * Z) :=
  let v := u32 v in
  b ← put_bytes buffer o [u8 v; u8 (Z.shiftr v 8); u8 (Z.shiftr v 16); u8 (Z.shiftr v 24)]; Some (b, 4).

Definition p9p_write8 (buffer : list Z) (o vl vh : Z) : option (list Z * Z) :=
  let vl := u32 vl in let vh := u32 vh in
  b ← put_bytes buffer o
        [u8 vl; u8 (Z.shiftr vl 8); u8 (Z.shiftr vl 16); u8 (Z.shiftr vl 24);
         u8 vh; u8 (Z.shiftr vh 8); u8 (Z.shiftr vh 16); u8 (Z.shiftr vh 24)];
  Some (b, 8).

Definition p9p_writebuffer (buffer : list Z) (o count : Z) (v : list Z) : option (list Z * Z) :=
  b ← buffer_copy buffer o v 0 count; Some (b, count).

Definition p9p_writestring (buffer : list Z) (o : Z) (v : list Z) : option (list Z * Z) :=
  len ← cstring_length v;
  let count := u16 len in
  '(b, k) ← p9p_write2 buffer o count;
  '(b, k') ← p9p_writebuffer b (o + k) count v;
  Some (b, k + k').

(** [sizeof (struct p9p_header)] *)
Definition HEADER : Z := 7.

(** [n += w(buffer, n, ...)], with the buffer and [n] as the state. *)
Definition put (w : list Z -> Z -> option (list Z * Z)) (st : list Z * Z) : option (list Z * Z) :=
  '(b, k) ← w st.1 st.2; Some (b, u32 (st.2 + k)).

(** [for (i = 0; i < n; i++) n += w(buffer, n, vs[i])] *)
Fixpoint put_each (w : list Z -> list Z -> Z -> option (list Z * Z)) (n : nat) (vs : list (list Z))
    (st : list Z * Z) : option (list Z * Z) :=
  match n, vs with
  | O, _ => Some st
  | S _, [] => None
  | S n, v :: vs => st ← put (w v) st; put_each w n vs st
  end.

Definition p9p_mk (buffer : list Z) (size type tag : Z) : option (list Z * Z) :=
  st ← put (fun b n => p9p_write4 b n size) (buffer, 0);
  st ← put (fun b n => p9p_write1 b n type) st;
  put (fun b n => p9p_write2 b n tag) st.

(** [p9p_mk(buffer, n, type, tag); return n;] *)
Definition finish (st : list Z * Z) (type tag : Z) : option (list Z * Z) :=
  '(b, _) ← p9p_mk st.1 st.2 type tag; Some (b, st.2).

(** ** Messages *)

Definition P9P_RLERROR : Z := 7.
Definition P9P_RERROR : Z := 107.
Definition P9P_TATTACH : Z := 104.
Definition P9P_RATTACH : Z := 105.
Definition P9P_TAUTH : Z := 102.
Definition P9P_RAUTH : Z := 103.
Definition P9P_TCLUNK : Z := 120.
Definition P9P_RCLUNK : Z := 121.
Definition P9P_TFLUSH : Z := 108.
Definition P9P_RFLUSH : Z := 109.
Definition P9P_TVERSION : Z := 100.
Definition P9P_RVERSION : Z := 101.
Definition P9P_TWALK : Z := 110.
Definition P9P_RWALK : Z := 111.
Definition P9P_TREAD : Z := 116.
Definition P9P_RREAD : Z := 117.
Definition P9P_TWRITE : Z := 118.
Definition P9P_RWRITE : Z := 119.
Definition P9P_TOPEN : Z := 112.
Definition P9P_ROPEN : Z := 113.
Definition P9P_TCREATE : Z := 114.
Definition P9P_RCREATE : Z := 115.
Definition P9P_TREMOVE : Z := 122.
Definition P9P_RREMOVE : Z := 123.
Definition P9P_TSTAT : Z := 124.
Definition P9P_RSTAT : Z := 125.
Definition P9P_TWSTAT : Z := 126.
Definition P9P_RWSTAT : Z := 127.
Definition P9P_TGETATTR : Z := 24.
Definition P9P_RGETATTR : Z := 25.

Definition p9p_mkrlerror (buffer : list Z) (tag : Z) (ecode : Z) : option (list Z * Z) :=
  st ← put (fun b n => p9p_write4 b n ecode) (buffer, HEADER);
  finish st P9P_RLERROR tag.

Definition p9p_mkrerror (buffer : list Z) (tag : Z) (ename : list Z) : option (list Z * Z) :=
  st ← put (fun b n => p9p_writestring b n ename) (buffer, HEADER);
  finish st P9P_RERROR tag.

Definition p9p_mktattach (buffer : list Z) (tag : Z) (fid afid : Z) (uname : list Z) (aname : list Z) : option
    (list Z * Z) :=
  st ← put (fun b n => p9p_write4 b n fid) (buffer, HEADER);
  st ← put (fun b n => p9p_write4 b n afid) st;
  st ← put (fun b n => p9p_writestring b n uname) st;
  st ← put (fun b n => p9p_writestring b n aname) st;
  finish st P9P_TATTACH tag.

Definition p9p_mktattach_u (buffer : list Z) (tag : Z) (fid afid : Z) (uname : list Z) (aname : list Z) (nuname :
    Z) : option (list Z * Z) :=
  st ← put (fun b n => p9p_write4 b n fid) (buffer, HEADER);
  st ← put (fun b n => p9p_write4 b n afid) st;
  st ← put (fun b n => p9p_writestring b n uname) st;
  st ← put (fun b n => p9p_writestring b n aname) st;
  st ← put (fun b n => p9p_write4 b n nuname) st;
  finish st P9P_TATTACH tag.

Definition p9p_mkrattach (buffer : list Z) (tag : Z) (qid : list Z) : option (list Z * Z) :=
  st ← put (fun b n => p9p_writebuffer b n 13 qid) (buffer, HEADER);
  finish st P9P_RATTACH tag.

Definition p9p_mktauth (buffer : list Z) (tag : Z) (afid : Z) (uname : list Z) (aname : list Z) : option (list Z *
    Z) :=
  st ← put (fun b n => p9p_write4 b n afid) (buffer, HEADER);
  st ← put (fun b n => p9p_writestring b n uname) st;
  st ← put (fun b n => p9p_writestring b n aname) st;
  finish st P9P_TAUTH tag.

Definition p9p_mktauth_u (buffer : list Z) (tag : Z) (afid : Z) (uname : list Z) (aname : list Z) (nuname : Z) :
    option (list Z * Z) :=
  st ← put (fun b n => p9p_write4 b n afid) (buffer, HEADER);
  st ← put (fun b n => p9p_writestring b n uname) st;
  st ← put (fun b n => p9p_writestring b n aname) st;
  st ← put (fun b n => p9p_write4 b n nuname) st;
  finish st P9P_TAUTH tag.

Definition p9p_mkrauth (buffer : list Z) (tag : Z) (aqid : list Z) : option (list Z * Z) :=
  st ← put (fun b n => p9p_writebuffer b n 13 aqid) (buffer, HEADER);
  finish st P9P_RAUTH tag.

Definition p9p_mktclunk (buffer : list Z) (tag : Z) (fid : Z) : option (list Z * Z) :=
  st ← put (fun b n => p9p_write4 b n fid) (buffer, HEADER);
  finish st P9P_TCLUNK tag.

Definition p9p_mkrclunk (buffer : list Z) (tag : Z) : option (list Z * Z) :=
  finish (buffer, HEADER) P9P_RCLUNK tag.

Definition p9p_mktflush (buffer : list Z) (tag : Z) (oldtag : Z) : option (list Z * Z) :=
  st ← put (fun b n => p9p_write2 b n oldtag) (buffer, HEADER);
  finish st P9P_TFLUSH tag.

Definition p9p_mkrflush (buffer : list Z) (tag : Z) : option (list Z * Z) :=
  finish (buffer, HEADER) P9P_RFLUSH tag.

Definition p9p_mktversion (buffer : list Z) (tag : Z) (msize : Z) (version : list Z) : option (list Z * Z) :=
  st ← put (fun b n => p9p_write4 b n msize) (buffer, HEADER);
  st ← put (fun b n => p9p_writestring b n version) st;
  finish st P9P_TVERSION tag.

Definition p9p_mkrversion (buffer : list Z) (tag : Z) (msize : Z) (version : list Z) : option (list Z * Z) :=
  st ← put (fun b n => p9p_write4 b n msize) (buffer, HEADER);
  st ← put (fun b n => p9p_writestring b n version) st;
  finish st P9P_RVERSION tag.

Definition p9p_mktwalk (buffer : list Z) (tag : Z) (fid newfid nwname : Z) (wname : list (list Z)) : option (list
    Z * Z) :=
  st ← put (fun b n => p9p_write4 b n fid) (buffer, HEADER);
  st ← put (fun b n => p9p_write4 b n newfid) st;
  st ← put (fun b n => p9p_write2 b n nwname) st;
  st ← put_each (fun v b n => p9p_writestring b n v) (Z.to_nat (u16 nwname)) wname st;
  finish st P9P_TWALK tag.

Definition p9p_mkrwalk (buffer : list Z) (tag : Z) (nwqid : Z) (wqid : list (list Z)) : option (list Z * Z) :=
  st ← put (fun b n => p9p_write2 b n nwqid) (buffer, HEADER);
  st ← put_each (fun v b n => p9p_writebuffer b n 13 v) (Z.to_nat (u16 nwqid)) wqid st;
  finish st P9P_RWALK tag.

Definition p9p_mktread (buffer : list Z) (tag : Z) (fid offsetl offseth count : Z) : option (list Z * Z) :=
  st ← put (fun b n => p9p_write4 b n fid) (buffer, HEADER);
  st ← put (fun b n => p9p_write8 b n offsetl offseth) st;
  st ← put (fun b n => p9p_write4 b n count) st;
  finish st P9P_TREAD tag.

Definition p9p_mkrread (buffer : list Z) (tag : Z) (count : Z) (data : list Z) : option (list Z * Z) :=
  st ← put (fun b n => p9p_write4 b n count) (buffer, HEADER);
  st ← put (fun b n => p9p_writebuffer b n count data) st;
  finish st P9P_RREAD tag.

Definition p9p_mktwrite (buffer : list Z) (tag : Z) (fid offsetl offseth count : Z) (data : list Z) : option (list
    Z * Z) :=
  st ← put (fun b n => p9p_write4 b n fid) (buffer, HEADER);
  st ← put (fun b n => p9p_write8 b n offsetl offseth) st;
  st ← put (fun b n => p9p_write4 b n count) st;
  st ← put (fun b n => p9p_writebuffer b n count data) st;
  finish st P9P_TWRITE tag.

Definition p9p_mkrwrite (buffer : list Z) (tag : Z) (count : Z) : option (list Z * Z) :=
  st ← put (fun b n => p9p_write4 b n count) (buffer, HEADER);
  finish st P9P_RWRITE tag.

Definition p9p_mktopen (buffer : list Z) (tag : Z) (fid mode : Z) : option (list Z * Z) :=
  st ← put (fun b n => p9p_write4 b n fid) (buffer, HEADER);
  st ← put (fun b n => p9p_write1 b n mode) st;
  finish st P9P_TOPEN tag.

Definition p9p_mkropen (buffer : list Z) (tag : Z) (qid : list Z) (iounit : Z) : option (list Z * Z) :=
  st ← put (fun b n => p9p_writebuffer b n 13 qid) (buffer, HEADER);
  st ← put (fun b n => p9p_write4 b n iounit) st;
  finish st P9P_ROPEN tag.

Definition p9p_mktcreate (buffer : list Z) (tag : Z) (fid : Z) (name : list Z) (perm mode : Z) : option (list Z *
    Z) :=
  st ← put (fun b n => p9p_write4 b n fid) (buffer, HEADER);
  st ← put (fun b n => p9p_writestring b n name) st;
  st ← put (fun b n => p9p_write4 b n perm) st;
  st ← put (fun b n => p9p_write1 b n mode) st;
  finish st P9P_TCREATE tag.

Definition p9p_mkrcreate (buffer : list Z) (tag : Z) (qid : list Z) (iounit : Z) : option (list Z * Z) :=
  st ← put (fun b n => p9p_writebuffer b n 13 qid) (buffer, HEADER);
  st ← put (fun b n => p9p_write4 b n iounit) st;
  finish st P9P_RCREATE tag.

Definition p9p_mktremove (buffer : list Z) (tag : Z) (fid : Z) : option (list Z * Z) :=
  st ← put (fun b n => p9p_write4 b n fid) (buffer, HEADER);
  finish st P9P_TREMOVE tag.

Definition p9p_mkrremove (buffer : list Z) (tag : Z) : option (list Z * Z) :=
  finish (buffer, HEADER) P9P_RREMOVE tag.

Definition p9p_mktstat (buffer : list Z) (tag : Z) (fid : Z) : option (list Z * Z) :=
  st ← put (fun b n => p9p_write4 b n fid) (buffer, HEADER);
  finish st P9P_TSTAT tag.

Definition p9p_mkrstat (buffer : list Z) (tag : Z) (stat : list Z) : option (list Z * Z) :=
  finish (buffer, HEADER) P9P_RSTAT tag.

Definition p9p_mktwstat (buffer : list Z) (tag : Z) (fid : Z) (stat : list Z) : option (list Z * Z) :=
  st ← put (fun b n => p9p_write4 b n fid) (buffer, HEADER);
  finish st P9P_TWSTAT tag.

Definition p9p_mkrwstat (buffer : list Z) (tag : Z) : option (list Z * Z) :=
  finish (buffer, HEADER) P9P_RWSTAT tag.

Definition p9p_mktgetattr (buffer : list Z) (tag : Z) (fid : Z) (mask : list Z) : option (list Z * Z) :=
  st ← put (fun b n => p9p_write4 b n fid) (buffer, HEADER);
  st ← put (fun b n => p9p_writebuffer b n 8 mask) st;
  finish st P9P_TGETATTR tag.

Definition p9p_mkrgetattr (buffer : list Z) (tag : Z) (valid : list Z) (qid : list Z) (mode uid gid : Z) (nlink :
    list Z) (rdev : list Z) (size : list Z) (blksize : list Z) (blocks : list Z) (atimesec : list Z) (atimensec :
    list Z) (mtimesec : list Z) (mtimensec : list Z) (ctimesec : list Z) (ctimensec : list Z) (btimesec : list Z)
    (btimensec : list Z) (gen : list Z) (dataversion : list Z) : option (list Z * Z) :=
  st ← put (fun b n => p9p_writebuffer b n 8 valid) (buffer, HEADER);
  st ← put (fun b n => p9p_writebuffer b n 13 qid) st;
  st ← put (fun b n => p9p_write4 b n mode) st;
  st ← put (fun b n => p9p_write4 b n uid) st;
  st ← put (fun b n => p9p_write4 b n gid) st;
  st ← put (fun b n => p9p_writebuffer b n 8 nlink) st;
  st ← put (fun b n => p9p_writebuffer b n 8 rdev) st;
  st ← put (fun b n => p9p_writebuffer b n 8 size) st;
  st ← put (fun b n => p9p_writebuffer b n 8 blksize) st;
  st ← put (fun b n => p9p_writebuffer b n 8 blocks) st;
  st ← put (fun b n => p9p_writebuffer b n 8 atimesec) st;
  st ← put (fun b n => p9p_writebuffer b n 8 atimensec) st;
  st ← put (fun b n => p9p_writebuffer b n 8 mtimesec) st;
  st ← put (fun b n => p9p_writebuffer b n 8 mtimensec) st;
  st ← put (fun b n => p9p_writebuffer b n 8 ctimesec) st;
  st ← put (fun b n => p9p_writebuffer b n 8 ctimensec) st;
  st ← put (fun b n => p9p_writebuffer b n 8 btimesec) st;
  st ← put (fun b n => p9p_writebuffer b n 8 btimensec) st;
  st ← put (fun b n => p9p_writebuffer b n 8 gen) st;
  st ← put (fun b n => p9p_writebuffer b n 8 dataversion) st;
  finish st P9P_RGETATTR tag.

(** ** The messages as data

    The arguments of the builders, without the counts that are the length of
    another argument.  Strings are without their null character. *)
Definition zstr (s : list Z) : list Z := s ++ [0].

(** The value of a field; [VCounted] is data after a count of four bytes,
    [VStrings] and [VQids] are lists after a count of two. *)
Inductive value :=
| V1 (v : Z) | V2 (v : Z) | V4 (v : Z) | V8 (vl vh : Z)
| VBytes (size : nat) (bs : list Z)
| VString (s : list Z)
| VCounted (bs : list Z)
| VStrings (ss : list (list Z))
| VQids (qs : list (list Z)).

Inductive message :=
| Rlerror (ecode : Z)
| Rerror (ename : list Z)
| Tattach (fid : Z) (afid : Z) (uname : list Z) (aname : list Z)
| Tattach_u (fid : Z) (afid : Z) (uname : list Z) (aname : list Z) (nuname : Z)
| Rattach (qid : list Z)
| Tauth (afid : Z) (uname : list Z) (aname : list Z)
| Tauth_u (afid : Z) (uname : list Z) (aname : list Z) (nuname : Z)
| Rauth (aqid : list Z)
| Tclunk (fid : Z)
| Rclunk
| Tflush (oldtag : Z)
| Rflush
| Tversion (msize : Z) (version : list Z)
| Rversion (msize : Z) (version : list Z)
| Twalk (fid : Z) (newfid : Z) (wname : list (list Z))
| Rwalk (wqid : list (list Z))
| Tread (fid : Z) (offsetl : Z) (offseth : Z) (count : Z)
| Rread (data : list Z)
| Twrite (fid : Z) (offsetl : Z) (offseth : Z) (data : list Z)
| Rwrite (count : Z)
| Topen (fid : Z) (mode : Z)
| Ropen (qid : list Z) (iounit : Z)
| Tcreate (fid : Z) (name : list Z) (perm : Z) (mode : Z)
| Rcreate (qid : list Z) (iounit : Z)
| Tremove (fid : Z)
| Rremove
| Tstat (fid : Z)
| Rstat (stat : list Z)
| Twstat (fid : Z) (stat : list Z)
| Rwstat
| Tgetattr (fid : Z) (mask : list Z)
| Rgetattr (valid : list Z) (qid : list Z) (mode : Z) (uid : Z) (gid : Z) (nlink : list Z) (rdev : list Z) (size :
    list Z) (blksize : list Z) (blocks : list Z) (atimesec : list Z) (atimensec : list Z) (mtimesec : list Z)
    (mtimensec : list Z) (ctimesec : list Z) (ctimensec : list Z) (btimesec : list Z) (btimensec : list Z) (gen :
    list Z) (dataversion : list Z).

Definition build (m : message) (buffer : list Z) (tag : Z) : option (list Z * Z) :=
  match m with
  | Rlerror ecode => p9p_mkrlerror buffer tag ecode
  | Rerror ename => p9p_mkrerror buffer tag (zstr ename)
  | Tattach fid afid uname aname => p9p_mktattach buffer tag fid afid (zstr uname) (zstr aname)
  | Tattach_u fid afid uname aname nuname => p9p_mktattach_u buffer tag fid afid (zstr uname) (zstr aname) nuname
  | Rattach qid => p9p_mkrattach buffer tag qid
  | Tauth afid uname aname => p9p_mktauth buffer tag afid (zstr uname) (zstr aname)
  | Tauth_u afid uname aname nuname => p9p_mktauth_u buffer tag afid (zstr uname) (zstr aname) nuname
  | Rauth aqid => p9p_mkrauth buffer tag aqid
  | Tclunk fid => p9p_mktclunk buffer tag fid
  | Rclunk => p9p_mkrclunk buffer tag
  | Tflush oldtag => p9p_mktflush buffer tag oldtag
  | Rflush => p9p_mkrflush buffer tag
  | Tversion msize version => p9p_mktversion buffer tag msize (zstr version)
  | Rversion msize version => p9p_mkrversion buffer tag msize (zstr version)
  | Twalk fid newfid wname => p9p_mktwalk buffer tag fid newfid (Z.of_nat (length wname)) (zstr <$> wname)
  | Rwalk wqid => p9p_mkrwalk buffer tag (Z.of_nat (length wqid)) wqid
  | Tread fid offsetl offseth count => p9p_mktread buffer tag fid offsetl offseth count
  | Rread data => p9p_mkrread buffer tag (Z.of_nat (length data)) data
  | Twrite fid offsetl offseth data => p9p_mktwrite buffer tag fid offsetl offseth (Z.of_nat (length data)) data
  | Rwrite count => p9p_mkrwrite buffer tag count
  | Topen fid mode => p9p_mktopen buffer tag fid mode
  | Ropen qid iounit => p9p_mkropen buffer tag qid iounit
  | Tcreate fid name perm mode => p9p_mktcreate buffer tag fid (zstr name) perm mode
  | Rcreate qid iounit => p9p_mkrcreate buffer tag qid iounit
  | Tremove fid => p9p_mktremove buffer tag fid
  | Rremove => p9p_mkrremove buffer tag
  | Tstat fid => p9p_mktstat buffer tag fid
  | Rstat stat => p9p_mkrstat buffer tag stat
  | Twstat fid stat => p9p_mktwstat buffer tag fid stat
  | Rwstat => p9p_mkrwstat buffer tag
  | Tgetattr fid mask => p9p_mktgetattr buffer tag fid mask
  | Rgetattr valid qid mode uid gid nlink rdev size blksize blocks atimesec atimensec mtimesec mtimensec ctimesec
      ctimensec btimesec btimensec gen dataversion => p9p_mkrgetattr buffer tag valid qid mode uid gid nlink rdev
      size blksize blocks atimesec atimensec mtimesec mtimensec ctimesec ctimensec btimesec btimensec gen
      dataversion
  end.

Definition message_type (m : message) : Z :=
  match m with
  | Rlerror _ => P9P_RLERROR
  | Rerror _ => P9P_RERROR
  | Tattach _ _ _ _ => P9P_TATTACH
  | Tattach_u _ _ _ _ _ => P9P_TATTACH
  | Rattach _ => P9P_RATTACH
  | Tauth _ _ _ => P9P_TAUTH
  | Tauth_u _ _ _ _ => P9P_TAUTH
  | Rauth _ => P9P_RAUTH
  | Tclunk _ => P9P_TCLUNK
  | Rclunk => P9P_RCLUNK
  | Tflush _ => P9P_TFLUSH
  | Rflush => P9P_RFLUSH
  | Tversion _ _ => P9P_TVERSION
  | Rversion _ _ => P9P_RVERSION
  | Twalk _ _ _ => P9P_TWALK
  | Rwalk _ => P9P_RWALK
  | Tread _ _ _ _ => P9P_TREAD
  | Rread _ => P9P_RREAD
  | Twrite _ _ _ _ => P9P_TWRITE
  | Rwrite _ => P9P_RWRITE
  | Topen _ _ => P9P_TOPEN
  | Ropen _ _ => P9P_ROPEN
  | Tcreate _ _ _ _ => P9P_TCREATE
  | Rcreate _ _ => P9P_RCREATE
  | Tremove _ => P9P_TREMOVE
  | Rremove => P9P_RREMOVE
  | Tstat _ => P9P_TSTAT
  | Rstat _ => P9P_RSTAT
  | Twstat _ _ => P9P_TWSTAT
  | Rwstat => P9P_RWSTAT
  | Tgetattr _ _ => P9P_TGETATTR
  | Rgetattr _ _ _ _ _ _ _ _ _ _ _ _ _ _ _ _ _ _ _ _ => P9P_RGETATTR
  end.

(** The fields a builder writes after the header: its arguments, except the
    directory entry [stat] of [Rstat] and [Twstat], which [p9p_mkrstat] and
    [p9p_mktwstat] take and do not write. *)
Definition fields (m : message) : list value :=
  match m with
  | Rlerror ecode => [V4 ecode]
  | Rerror ename => [VString ename]
  | Tattach fid afid uname aname => [V4 fid; V4 afid; VString uname; VString aname]
  | Tattach_u fid afid uname aname nuname => [V4 fid; V4 afid; VString uname; VString aname; V4 nuname]
  | Rattach qid => [VBytes 13 qid]
  | Tauth afid uname aname => [V4 afid; VString uname; VString aname]
  | Tauth_u afid uname aname nuname => [V4 afid; VString uname; VString aname; V4 nuname]
  | Rauth aqid => [VBytes 13 aqid]
  | Tclunk fid => [V4 fid]
  | Rclunk => []
  | Tflush oldtag => [V2 oldtag]
  | Rflush => []
  | Tversion msize version => [V4 msize; VString version]
  | Rversion msize version => [V4 msize; VString version]
  | Twalk fid newfid wname => [V4 fid; V4 newfid; VStrings wname]
  | Rwalk wqid => [VQids wqid]
  | Tread fid offsetl offseth count => [V4 fid; V8 offsetl offseth; V4 count]
  | Rread data => [VCounted data]
  | Twrite fid offsetl offseth data => [V4 fid; V8 offsetl offseth; VCounted data]
  | Rwrite count => [V4 count]
  | Topen fid mode => [V4 fid; V1 mode]
  | Ropen qid iounit => [VBytes 13 qid; V4 iounit]
  | Tcreate fid name perm mode => [V4 fid; VString name; V4 perm; V1 mode]
  | Rcreate qid iounit => [VBytes 13 qid; V4 iounit]
  | Tremove fid => [V4 fid]
  | Rremove => []
  | Tstat fid => [V4 fid]
  | Rstat _ => []
  | Twstat fid _ => [V4 fid]
  | Rwstat => []
  | Tgetattr fid mask => [V4 fid; VBytes 8 mask]
  | Rgetattr valid qid mode uid gid nlink rdev size blksize blocks atimesec atimensec mtimesec mtimensec ctimesec
      ctimensec btimesec btimensec gen dataversion => [VBytes 8 valid; VBytes 13 qid; V4 mode; V4 uid; V4 gid;
      VBytes 8 nlink; VBytes 8 rdev; VBytes 8 size; VBytes 8 blksize; VBytes 8 blocks; VBytes 8 atimesec; VBytes 8
      atimensec; VBytes 8 mtimesec; VBytes 8 mtimensec; VBytes 8 ctimesec; VBytes 8 ctimensec; VBytes 8 btimesec;
      VBytes 8 btimensec; VBytes 8 gen; VBytes 8 dataversion]
  end.

(** ** Layout *)

Definition le2 (v : Z) : list Z := [u8 (u16 v); u8 (Z.shiftr (u16 v) 8)].
Definition le4 (v : Z) : list Z :=
  [u8 (u32 v); u8 (Z.shiftr (u32 v) 8); u8 (Z.shiftr (u32 v) 16); u8 (Z.shiftr (u32 v) 24)].

Definition enc_string (s : list Z) : list Z := le2 (Z.of_nat (length s)) ++ s.

Definition enc (v : value) : list Z :=
  match v with
  | V1 v => [u8 v]
  | V2 v => le2 v
  | V4 v => le4 v
  | V8 vl vh => le4 vl ++ le4 vh
  | VBytes _ bs => bs
  | VString s => enc_string s
  | VCounted bs => le4 (Z.of_nat (length bs)) ++ bs
  | VStrings ss => le2 (Z.of_nat (length ss)) ++ mjoin (enc_string <$> ss)
  | VQids qs => le2 (Z.of_nat (length qs)) ++ mjoin qs
  end.

Definition payload (m : message) : list Z := mjoin (enc <$> fields m).
Definition header (size type tag : Z) : list Z := le4 size ++ [u8 type] ++ le2 tag.

(** The message as a whole. *)
Definition encoding (m : message) (tag : Z) : list Z :=
  header (Z.of_nat (7 + length (payload m))) (message_type m) tag ++ payload m.

(** Numbers are in the range of their type, strings have no null character and
    a length that fits in the two bytes in front of them, and arrays have the
    size of their declaration. *)
Definition string_ok (s : list Z) : Prop := Forall (fun c => c <> 0) s /\ Z.of_nat (length s) < 65536.

Definition value_ok (v : value) : Prop :=
  match v with
  | V1 v => 0 <= v < 256
  | V2 v => 0 <= v < 65536
  | V4 v => 0 <= v < 4294967296
  | V8 vl vh => 0 <= vl < 4294967296 /\ 0 <= vh < 4294967296
  | VBytes size bs => length bs = size
  | VString s => string_ok s
  | VCounted bs => Z.of_nat (length bs) < 4294967296
  | VStrings ss => Z.of_nat (length ss) < 65536 /\ Forall string_ok ss
  | VQids qs => Z.of_nat (length qs) < 65536 /\ Forall (fun q => length q = 13%nat) qs
  end.

Definition message_ok (m : message) : Prop := Forall value_ok (fields m).

(** *** One step of a builder *)

Lemma put_bytes_splice bs : forall b (o : nat),
  (o + length bs <= length b)%nat -> put_bytes b (Z.of_nat o) bs = Some (splice b o bs).
Proof.
  induction bs as [|x bs IH]; intros b o Ho; cbn [put_bytes].
  - by rewrite splice_nil.
  - cbn [length] in Ho. rewrite wr_one by lia. cbn [mbind option_bind].
    replace (Z.of_nat o + 1) with (Z.of_nat (o + 1)) by lia.
    rewrite IH by (rewrite length_splice; cbn [length]; lia).
    by rewrite (splice_app b o [x]) by (cbn [length]; lia).
Qed.

(** [f] appends the bytes [bs] to those written after the header. *)
Definition emits (f : list Z * Z -> option (list Z * Z)) (bs : list Z) : Prop := forall buf acc,
  (7 + length acc + length bs <= length buf)%nat -> Z.of_nat (length buf) <= max32 ->
  f (splice buf 7 acc, Z.of_nat (7 + length acc)) =
  Some (splice buf 7 (acc ++ bs), Z.of_nat (7 + length (acc ++ bs))).

(** [w] writes the bytes [bs] at any place where they fit. *)
Definition writes (w : list Z -> Z -> option (list Z * Z)) (bs : list Z) : Prop := forall b (o : nat),
  (o + length bs <= length b)%nat -> Z.of_nat (length b) <= max32 ->
  w b (Z.of_nat o) = Some (splice b o bs, Z.of_nat (length bs)).

Create HintDb p9p.

Lemma emits_put w bs : writes w bs -> emits (put w) bs.
Proof.
  intros Hw buf acc Hl Hm. unfold put. cbn [fst snd].
  rewrite Hw by (rewrite ?length_splice; lia). cbn [mbind option_bind].
  rewrite splice_app by lia. rewrite u32_small by (unfold max32 in Hm; lia).
  rewrite length_app. do 2 f_equal. lia.
Qed.

Lemma writes_bytes k bs :
  length bs = Z.to_nat k -> 0 <= k ->
  writes (fun b o => b' ← put_bytes b o bs; Some (b', k)) bs.
Proof.
  intros Hk H0 b o Ho _. rewrite put_bytes_splice by done. cbn. do 2 f_equal. lia.
Qed.

Lemma writes_1 v : writes (fun b n => p9p_write1 b n v) [u8 v].
Proof. by apply (writes_bytes 1). Qed.
Lemma writes_2 v : writes (fun b n => p9p_write2 b n v) (le2 v).
Proof. by apply (writes_bytes 2). Qed.
Lemma writes_4 v : writes (fun b n => p9p_write4 b n v) (le4 v).
Proof. by apply (writes_bytes 4). Qed.
Lemma writes_8 vl vh : writes (fun b n => p9p_write8 b n vl vh) (le4 vl ++ le4 vh).
Proof. by apply (writes_bytes 8). Qed.

Lemma writes_buffer (count : Z) bs :
  Z.of_nat (length bs) = count -> writes (fun b n => p9p_writebuffer b n count bs) bs.
Proof.
  intros <- b o Ho _. unfold p9p_writebuffer. rewrite buffer_copy_spec by lia. cbn [mbind option_bind].
  rewrite Nat2Z.id. unfold slice. rewrite Nat2Z.id, drop_0, take_ge by lia. done.
Qed.

Lemma writes_string s : string_ok s -> writes (fun b n => p9p_writestring b n (zstr s)) (enc_string s).
Proof.
  intros [Hs Hl] b o Ho Hb. unfold p9p_writestring, zstr, enc_string in *. rewrite length_app in Ho.
  cbn [le2 length] in Ho. rewrite cstring_length_spec by (unfold max32 in *; done || lia). cbn [mbind option_bind].
  rewrite u16_small by lia. rewrite (writes_2 (Z.of_nat (length s)) b o) by (cbn [le2 length]; lia).
  cbn [mbind option_bind]. rewrite <- Nat2Z.inj_add. unfold p9p_writebuffer.
  rewrite buffer_copy_spec by (rewrite ?length_splice, ?length_app; cbn [le2 length]; lia).
  cbn [mbind option_bind]. rewrite !Nat2Z.id. unfold slice. cbn [Z.to_nat]. rewrite drop_0, take_app_length.
  rewrite splice_app by (cbn [le2 length]; lia). rewrite length_app. do 2 f_equal. lia.
Qed.

#[local] Hint Resolve emits_put writes_1 writes_2 writes_4 writes_8 writes_buffer writes_string : p9p.

Lemma emits_each (w : list Z -> list Z -> Z -> option (list Z * Z)) (e : list Z -> list Z) vs us n :
  n = length us -> Forall2 (fun v u => writes (w u) (e v)) vs us ->
  emits (put_each w n us) (mjoin (e <$> vs)).
Proof.
  intros ->. induction 1 as [|v u vs us Hv Hvs IH]; intros buf acc Hl Hm; cbn [put_each length].
  - cbn. by rewrite app_nil_r.
  - change (mjoin (e <$> v :: vs)) with (e v ++ mjoin (e <$> vs)) in *. rewrite length_app in Hl.
    rewrite (emits_put _ _ Hv) by (done || lia). cbn [mbind option_bind].
    rewrite IH by (done || (rewrite length_app; lia)). by rewrite app_assoc.
Qed.

(** *** Whole builders

    [completes type tag k bs]: the rest [k] of a builder appends [bs] and
    finishes the message with its header. *)
Definition completes (type tag : Z) (k : list Z * Z -> option (list Z * Z)) (bs : list Z) : Prop :=
  forall buf acc,
  (7 + length (acc ++ bs) <= length buf)%nat -> Z.of_nat (length buf) <= max32 ->
  let n := Z.of_nat (7 + length (acc ++ bs)) in
  k (splice buf 7 acc, Z.of_nat (7 + length acc)) =
  Some (splice buf 0 (header n type tag ++ acc ++ bs), n).

Lemma p9p_mk_writes b size type tag :
  (7 <= length b)%nat -> Z.of_nat (length b) <= max32 ->
  p9p_mk b size type tag = Some (splice b 0 (header size type tag), 7).
Proof.
  intros Hl Hm. unfold p9p_mk, put. cbn [fst snd].
  change 0 with (Z.of_nat 0%nat). rewrite (writes_4 size b 0%nat) by (cbn [length le4]; lia).
  cbn [mbind option_bind fst snd]. change (u32 (Z.of_nat 0 + Z.of_nat (length (le4 size)))) with (Z.of_nat 4%nat).
  assert (length (splice b 0 (le4 size)) = length b) as Hl1 by (apply length_splice; cbn [length le4]; lia).
  rewrite (writes_1 type _ 4%nat) by (cbn [length]; lia). cbn [mbind option_bind fst snd].
  change (u32 (Z.of_nat 4 + Z.of_nat (length [u8 type]))) with (Z.of_nat 5%nat).
  rewrite (splice_app b 0 (le4 size) [u8 type] : _ -> splice (splice b 0 (le4 size)) 4 [u8 type] = _)
    by (cbn [length le4]; lia).
  rewrite (writes_2 tag _ 5%nat) by (rewrite ?length_splice; cbn [length le2 le4 app]; lia).
  cbn [mbind option_bind].
  by rewrite (splice_app b 0 (le4 size ++ [u8 type]) (le2 tag) :
    _ -> splice (splice b 0 (le4 size ++ [u8 type])) 5 (le2 tag) = _) by (cbn [length le2 le4 app]; lia).
Qed.

Lemma splice_front b xs ys :
  (length xs + length ys <= length b)%nat ->
  splice (splice b (length xs) ys) 0 xs = splice b 0 (xs ++ ys).
Proof.
  intros Hl. rewrite !splice_0. unfold splice.
  rewrite drop_app_ge, length_take_le, Nat.sub_diag, drop_0 by (rewrite ?length_take; lia).
  by rewrite length_app, <- app_assoc.
Qed.

Lemma completes_finish type tag : completes type tag (fun st => finish st type tag) [].
Proof.
  intros buf acc Hl Hm. rewrite app_nil_r in *. unfold finish. cbn [fst snd].
  rewrite p9p_mk_writes by (rewrite ?length_splice; lia). cbn [mbind option_bind].
  by rewrite (splice_front buf (header _ type tag) acc) by (cbn [length header le4 le2 app]; lia).
Qed.

Lemma completes_put type tag f k xs ys :
  emits f xs -> completes type tag k ys -> completes type tag (fun st => st' ← f st; k st') (xs ++ ys).
Proof.
  intros Hf Hk buf acc Hl Hm. rewrite app_assoc in *.
  rewrite Hf by (rewrite !length_app in *; lia). cbn [mbind option_bind]. by apply Hk.
Qed.

Lemma completes_start type tag k bs bs' buf :
  completes type tag k bs' -> bs' = bs ->
  (7 + length bs <= length buf)%nat -> Z.of_nat (length buf) <= max32 ->
  k (buf, HEADER) = Some (splice buf 0 (header (Z.of_nat (7 + length bs)) type tag ++ bs),
                          Z.of_nat (7 + length bs)).
Proof.
  intros Hk -> Hl Hm. rewrite <- (splice_nil buf 7) at 1. by apply (Hk buf []).
Qed.

Lemma emits_strings ss :
  Z.of_nat (length ss) < 65536 -> Forall string_ok ss ->
  emits (put_each (fun v b n => p9p_writestring b n v) (Z.to_nat (u16 (Z.of_nat (length ss)))) (zstr <$> ss))
        (mjoin (enc_string <$> ss)).
Proof.
  intros Hl Hs. apply emits_each; [rewrite u16_small, length_fmap by lia; lia|].
  clear Hl. induction Hs as [|s ss Hs _ IH]; cbn; constructor; [by apply writes_string|exact IH].
Qed.

Lemma emits_qids qs :
  Z.of_nat (length qs) < 65536 -> Forall (fun q => length q = 13%nat) qs ->
  emits (put_each (fun v b n => p9p_writebuffer b n 13 v) (Z.to_nat (u16 (Z.of_nat (length qs)))) qs) (mjoin qs).
Proof.
  intros Hl Hs. rewrite <- (list_fmap_id qs) at 3.
  apply emits_each; [rewrite u16_small by lia; lia|].
  clear Hl. induction Hs as [|q qs Hq _ IH]; cbn; constructor; [|exact IH].
  apply writes_buffer. lia.
Qed.

#[local] Hint Resolve emits_strings emits_qids : p9p.
#[local] Hint Extern 2 (Z.of_nat (length _) = _) => first [reflexivity | lia] : p9p.

Lemma length_encoding m tag : length (encoding m tag) = (7 + length (payload m))%nat.
Proof. done. Qed.

#[local] Hint Unfold p9p_mkrlerror p9p_mkrerror p9p_mktattach p9p_mktattach_u p9p_mkrattach p9p_mktauth
  p9p_mktauth_u p9p_mkrauth p9p_mktclunk p9p_mkrclunk p9p_mktflush p9p_mkrflush p9p_mktversion p9p_mkrversion
  p9p_mktwalk p9p_mkrwalk p9p_mktread p9p_mkrread p9p_mktwrite p9p_mkrwrite p9p_mktopen p9p_mkropen
  p9p_mktcreate p9p_mkrcreate p9p_mktremove p9p_mkrremove p9p_mktstat p9p_mkrstat p9p_mktwstat p9p_mkrwstat
  p9p_mktgetattr p9p_mkrgetattr : p9p.

(** Splits a builder into its steps, each of which is in the hint database. *)
Ltac by_steps buf :=
  autounfold with p9p;
  match goal with |- ?l = ?r => match eval pattern (buf, HEADER) in l with ?k _ =>
    change (k (buf, HEADER) = r) end end;
  eapply completes_start;
  [repeat (eapply completes_put; [solve [eauto with p9p]|]); apply completes_finish
  |unfold payload; cbn [fields fmap list_fmap mjoin list_join enc]; rewrite <- ?app_assoc, ?app_nil_r; reflexivity
  |done|done].

(** The layout of every 9P message.  If the message fits in the buffer, its
    builder writes the size of the message, the type, the tag and the fields in
    order, each in its encoding, to the start of the buffer, leaves the rest of
    the buffer as it was, and returns the size. *)
Lemma build_layout m buf tag :
  message_ok m -> (length (encoding m tag) <= length buf)%nat -> Z.of_nat (length buf) <= max32 ->
  build m buf tag = Some (splice buf 0 (encoding m tag), Z.of_nat (length (encoding m tag))).
Proof.
  rewrite length_encoding. intros Hok Hl Hm. unfold message_ok in Hok.
  destruct m; cbn [fields] in Hok; rewrite ?Forall_cons in Hok; cbn [value_ok] in Hok; destruct_and?;
    cbn [build]; by_steps buf.
Qed.

(** ** Reading a message back

    What a receiver does with the reading functions: the fields of a message of
    a type, for the plain protocol or for its [u] variant. *)
Inductive kind := K1 | K2 | K4 | K8 | KBytes (size : nat) | KString | KCounted | KStrings | KQids.

Definition kind_of (v : value) : kind :=
  match v with
  | V1 _ => K1 | V2 _ => K2 | V4 _ => K4 | V8 _ _ => K8
  | VBytes size _ => KBytes size
  | VString _ => KString | VCounted _ => KCounted | VStrings _ => KStrings | VQids _ => KQids
  end.

Definition schema (u : bool) (type : Z) : list kind :=
  match type with
  | 7 => [K4]
  | 24 => [K4; KBytes 8]
  | 25 => [KBytes 8; KBytes 13; K4; K4; K4; KBytes 8; KBytes 8; KBytes 8; KBytes 8; KBytes 8; KBytes 8; KBytes 8;
      KBytes 8; KBytes 8; KBytes 8; KBytes 8; KBytes 8; KBytes 8; KBytes 8; KBytes 8]
  | 100 => [K4; KString]
  | 101 => [K4; KString]
  | 102 => if u then [K4; KString; KString; K4] else [K4; KString; KString]
  | 103 => [KBytes 13]
  | 104 => if u then [K4; K4; KString; KString; K4] else [K4; K4; KString; KString]
  | 105 => [KBytes 13]
  | 107 => [KString]
  | 108 => [K2]
  | 109 => []
  | 110 => [K4; K4; KStrings]
  | 111 => [KQids]
  | 112 => [K4; K1]
  | 113 => [KBytes 13; K4]
  | 114 => [K4; KString; K4; K1]
  | 115 => [KBytes 13; K4]
  | 116 => [K4; K8; K4]
  | 117 => [KCounted]
  | 118 => [K4; K8; KCounted]
  | 119 => [K4]
  | 120 => [K4]
  | 121 => []
  | 122 => [K4]
  | 123 => []
  | 124 => [K4]
  | 125 => []
  | 126 => [K4]
  | 127 => []
  | _ => []
  end.

Definition is_u (m : message) : bool :=
  match m with Tattach_u _ _ _ _ _ | Tauth_u _ _ _ _ => true | _ => false end.

Definition bytes_from (b : list Z) (o : Z) (n : nat) : list Z := slice b (Z.to_nat o) n.

Definition read_string (b : list Z) (o : Z) : option (list Z * Z) :=
  len ← p9p_readstringlength b o;
  Some (bytes_from b (p9p_readstringdata o) (Z.to_nat len), o + 2 + len).

(** [n] strings, and [n] arrays of 13 bytes. *)
Fixpoint read_strings (n : nat) (b : list Z) (o : Z) : option (list (list Z) * Z) :=
  match n with
  | O => Some ([], o)
  | S n => '(s, o) ← read_string b o; '(ss, o) ← read_strings n b o; Some (s :: ss, o)
  end.

Fixpoint read_qids (n : nat) (b : list Z) (o : Z) : list (list Z) * Z :=
  match n with
  | O => ([], o)
  | S n => let '(qs, o') := read_qids n b (o + 13) in (bytes_from b (p9p_readbuffer o) 13 :: qs, o')
  end.

Definition read_value (b : list Z) (o : Z) (k : kind) : option (value * Z) :=
  match k with
  | K1 => v ← p9p_read1 b o; Some (V1 v, o + 1)
  | K2 => v ← p9p_read2 b o; Some (V2 v, o + 2)
  | K4 => v ← p9p_read4 b o; Some (V4 v, o + 4)
  | K8 => vl ← p9p_read4 b o; vh ← p9p_read4 b (o + 4); Some (V8 vl vh, o + 8)
  | KBytes size => Some (VBytes size (bytes_from b (p9p_readbuffer o) size), o + Z.of_nat size)
  | KString => '(s, o) ← read_string b o; Some (VString s, o)
  | KCounted => n ← p9p_read4 b o; Some (VCounted (bytes_from b (p9p_readbuffer (o + 4)) (Z.to_nat n)), o + 4 + n)
  | KStrings => n ← p9p_read2 b o; '(ss, o) ← read_strings (Z.to_nat n) b (o + 2); Some (VStrings ss, o)
  | KQids => n ← p9p_read2 b o; let '(qs, o) := read_qids (Z.to_nat n) b (o + 2) in Some (VQids qs, o)
  end.

Fixpoint read_fields (b : list Z) (o : Z) (ks : list kind) : option (list value) :=
  match ks with
  | [] => Some []
  | k :: ks => '(v, o) ← read_value b o k; vs ← read_fields b o ks; Some (v :: vs)
  end.

Lemma rd_in p l q (k : nat) x : l !! k = Some x -> rd (p ++ l ++ q) (Z.of_nat (length p) + Z.of_nat k) = Some x.
Proof.
  intros Hx. rewrite <- Nat2Z.inj_add, rd_nat, lookup_app_r by lia.
  replace (length p + k - length p)%nat with k by lia. by apply lookup_app_l_Some.
Qed.

Lemma bytes_from_in p l q : bytes_from (p ++ l ++ q) (Z.of_nat (length p)) (length l) = l.
Proof. unfold bytes_from, slice. rewrite Nat2Z.id, drop_app_length. apply take_app_length. Qed.

Lemma read1_in p v q : 0 <= v < 256 -> p9p_read1 (p ++ [u8 v] ++ q) (Z.of_nat (length p)) = Some v.
Proof.
  intros Hv. unfold p9p_read1. rewrite <- (Z.add_0_r (Z.of_nat (length p))), u8_small by done.
  by apply (rd_in p [v] q 0).
Qed.

Lemma read2_in p v q : p9p_read2 (p ++ le2 v ++ q) (Z.of_nat (length p)) = Some (u16 v).
Proof.
  unfold p9p_read2. rewrite <- (Z.add_0_r (Z.of_nat (length p))) at 1.
  rewrite (rd_in p (le2 v) q 0 _ eq_refl : rd _ (_ + 0) = _), (rd_in p (le2 v) q 1 _ eq_refl : rd _ (_ + 1) = _).
  cbn [mbind option_bind]. f_equal. rewrite lor_shift by (apply u8_range || lia).
  rewrite Z.shiftr_div_pow2 by lia. change (2 ^ 8) with 256. zwrap.
Qed.

Lemma word_assemble b0 b1 b2 b3 :
  is_byte b0 -> is_byte b1 -> is_byte b2 -> is_byte b3 ->
  Z.lor (Z.lor (Z.lor (Z.shiftl b3 24) (Z.shiftl b2 16)) (Z.shiftl b1 8)) b0 =
  b0 + 256 * b1 + 65536 * b2 + 16777216 * b3.
Proof.
  unfold is_byte. intros. rewrite <- !Z.lor_assoc.
  rewrite (lor_shift b1 b0 8) by (change (2 ^ 8) with 256; lia). change (2 ^ 8) with 256.
  rewrite (lor_shift b2) by (change (2 ^ 16) with 65536; lia). change (2 ^ 16) with 65536.
  rewrite (lor_shift b3) by (change (2 ^ 24) with 16777216; lia). change (2 ^ 24) with 16777216. lia.
Qed.

Lemma read4_in p v q : p9p_read4 (p ++ le4 v ++ q) (Z.of_nat (length p)) = Some (u32 v).
Proof.
  unfold p9p_read4. rewrite <- (Z.add_0_r (Z.of_nat (length p))) at 1.
  rewrite (rd_in p (le4 v) q 0 _ eq_refl : rd _ (_ + 0) = _), (rd_in p (le4 v) q 1 _ eq_refl : rd _ (_ + 1) = _).
  rewrite (rd_in p (le4 v) q 2 _ eq_refl : rd _ (_ + 2) = _), (rd_in p (le4 v) q 3 _ eq_refl : rd _ (_ + 3) = _).
  cbn [mbind option_bind]. f_equal. rewrite word_assemble by apply u8_range.
  rewrite !Z.shiftr_div_pow2 by lia.
  change (2 ^ 8) with 256. change (2 ^ 16) with 65536. change (2 ^ 24) with 16777216. zwrap.
Qed.

Lemma read_string_in p s q : string_ok s ->
  read_string (p ++ enc_string s ++ q) (Z.of_nat (length p)) =
  Some (s, Z.of_nat (length (p ++ enc_string s))).
Proof.
  intros [_ Hl]. unfold read_string, enc_string, p9p_readstringlength. rewrite <- app_assoc, read2_in.
  cbn [mbind option_bind]. rewrite u16_small by lia. unfold p9p_readstringdata.
  do 2 f_equal; [|rewrite !length_app; cbn [length le2]; lia].
  rewrite Nat2Z.id, app_assoc.
  replace (Z.of_nat (length p) + 2) with (Z.of_nat (length (p ++ le2 (Z.of_nat (length s)))))
    by (rewrite length_app; cbn [length le2]; lia).
  apply bytes_from_in.
Qed.

Lemma read_strings_in ss : forall p q, Forall string_ok ss ->
  read_strings (length ss) (p ++ mjoin (enc_string <$> ss) ++ q) (Z.of_nat (length p)) =
  Some (ss, Z.of_nat (length (p ++ mjoin (enc_string <$> ss)))).
Proof.
  induction ss as [|s ss IH]; intros p q Hs; cbn [length read_strings].
  - cbn. by rewrite app_nil_r.
  - apply Forall_cons in Hs as [H1 Hs].
    change (mjoin (enc_string <$> s :: ss)) with (enc_string s ++ mjoin (enc_string <$> ss)).
    rewrite <- app_assoc, read_string_in by done. cbn [mbind option_bind].
    rewrite app_assoc, IH by done. cbn [mbind option_bind]. by rewrite <- app_assoc.
Qed.

Lemma read_qids_in qs : forall p q, Forall (fun x => length x = 13%nat) qs ->
  read_qids (length qs) (p ++ mjoin qs ++ q) (Z.of_nat (length p)) = (qs, Z.of_nat (length (p ++ mjoin qs))).
Proof.
  induction qs as [|x qs IH]; intros p q Hs; cbn [length read_qids].
  - cbn. by rewrite app_nil_r.
  - apply Forall_cons in Hs as [H1 Hs]. change (mjoin (x :: qs)) with (x ++ mjoin qs).
    replace (Z.of_nat (length p) + 13) with (Z.of_nat (length (p ++ x))) by (rewrite length_app; lia).
    rewrite <- app_assoc, (app_assoc p x), IH by done. rewrite <- !app_assoc.
    unfold p9p_readbuffer. rewrite <- H1 at 1. by rewrite bytes_from_in.
Qed.

(** Every field is read back as it was written. *)
Lemma read_value_in v p q : value_ok v ->
  read_value (p ++ enc v ++ q) (Z.of_nat (length p)) (kind_of v) =
  Some (v, Z.of_nat (length (p ++ enc v))).
Proof.
  intros Hv. rewrite length_app.
  destruct v as [v|v|v|vl vh|size bs|s|bs|ss|qs]; cbn [kind_of read_value enc value_ok] in *.
  - rewrite read1_in by done. cbn. do 2 f_equal. lia.
  - rewrite read2_in, u16_small by done. cbn. do 2 f_equal. lia.
  - rewrite read4_in, u32_small by done. cbn. do 2 f_equal. lia.
  - rewrite <- app_assoc, read4_in. cbn [mbind option_bind].
    replace (Z.of_nat (length p) + 4) with (Z.of_nat (length (p ++ le4 vl))) by (rewrite length_app; cbn [length le4]; lia).
    rewrite app_assoc, read4_in, !u32_small by lia. cbn. do 2 f_equal. lia.
  - subst size. unfold p9p_readbuffer. rewrite bytes_from_in. do 2 f_equal. lia.
  - rewrite read_string_in by done. cbn [mbind option_bind]. by rewrite length_app.
  - rewrite <- app_assoc, read4_in, u32_small by lia. cbn [mbind option_bind]. unfold p9p_readbuffer.
    replace (Z.of_nat (length p) + 4) with (Z.of_nat (length (p ++ le4 (Z.of_nat (length bs)))))
      by (rewrite length_app; cbn [length le4]; lia).
    rewrite app_assoc, Nat2Z.id, bytes_from_in. do 2 f_equal. rewrite !length_app. lia.
  - destruct Hv as [Hl Hs]. rewrite <- app_assoc, read2_in, u16_small by lia. cbn [mbind option_bind].
    replace (Z.of_nat (length p) + 2) with (Z.of_nat (length (p ++ le2 (Z.of_nat (length ss)))))
      by (rewrite length_app; cbn [length le2]; lia).
    rewrite app_assoc, Nat2Z.id, read_strings_in by done. cbn [mbind option_bind]. do 2 f_equal.
    rewrite !length_app. lia.
  - destruct Hv as [Hl Hs]. rewrite <- app_assoc, read2_in, u16_small by lia. cbn [mbind option_bind].
    replace (Z.of_nat (length p) + 2) with (Z.of_nat (length (p ++ le2 (Z.of_nat (length qs)))))
      by (rewrite length_app; cbn [length le2]; lia).
    rewrite app_assoc, Nat2Z.id, read_qids_in by done. do 2 f_equal. rewrite !length_app. lia.
Qed.

Lemma read_fields_in vs : forall p q, Forall value_ok vs ->
  read_fields (p ++ mjoin (enc <$> vs) ++ q) (Z.of_nat (length p)) (kind_of <$> vs) = Some vs.
Proof.
  induction vs as [|v vs IH]; intros p q Hvs; [done|]. apply Forall_cons in Hvs as [Hv Hvs].
  change (mjoin (enc <$> v :: vs)) with (enc v ++ mjoin (enc <$> vs)). cbn [fmap list_fmap read_fields].
  rewrite <- app_assoc, read_value_in by done. cbn [mbind option_bind].
  rewrite app_assoc, IH by done. done.
Qed.

Lemma schema_fields m : message_ok m -> schema (is_u m) (message_type m) = kind_of <$> fields m.
Proof. by destruct m. Qed.

Lemma message_type_byte m : 0 <= message_type m < 256.
Proof. by destruct m. Qed.

(** The message with another directory entry in it, if it has one. *)
Definition with_stat (st : list Z) (m : message) : message :=
  match m with
  | Rstat _ => Rstat st
  | Twstat fid _ => Twstat fid st
  | m => m
  end.

Lemma build_ignores_stat st m buf tag : build (with_stat st m) buf tag = build m buf tag.
Proof. by destruct m. Qed.

(** C35. Every 9P message comes back, but for the directory entries.  If the
    message fits in the buffer, its numbers are in range, its strings have no
    null character, its strings and lists have at most 65535 elements and its
    arrays the declared size, then its builder returns its size and leaves the bytes of the buffer behind it
    alone, and the reading functions return from the buffer that size, the type,
    the tag and, following the layout of the type, every argument of the builder
    in order, with one exception: the entry [stat] of [Rstat] and [Twstat] is not
    written ([p9p_mkrstat], [p9p_mktwstat]), so an [Rstat] comes back empty, a
    [Twstat] with its [fid] only, and the bytes are the same for every entry. *)
Theorem p9p_roundtrip m buf tag :
  message_ok m -> 0 <= tag < 65536 ->
  (length (encoding m tag) <= length buf)%nat -> Z.of_nat (length buf) <= max32 ->
  exists b n, build m buf tag = Some (b, n) /\
    length b = length buf /\ drop (Z.to_nat n) b = drop (Z.to_nat n) buf /\
    p9p_read4 b 0 = Some n /\ p9p_read1 b 4 = Some (message_type m) /\ p9p_read2 b 5 = Some tag /\
    read_fields b 7 (schema (is_u m) (message_type m)) = Some (fields m) /\
    (forall st, build (with_stat st m) buf tag = Some (b, n)).
Proof.
  intros Hok Htag Hl Hm. eexists _, _. split; [by apply build_layout|].
  split; [by apply length_splice|]. rewrite splice_0, Nat2Z.id.
  split; [by apply drop_app_length|].
  set (r := drop _ buf). set (size := Z.of_nat (7 + length (payload m))).
  assert (encoding m tag ++ r = le4 size ++ [u8 (message_type m)] ++ le2 tag ++ payload m ++ r) as ->
    by (unfold encoding, header; by rewrite <- !app_assoc).
  split_and!.
  - etransitivity; [apply (read4_in [] size)|]. rewrite u32_small; [done|].
    rewrite length_encoding in Hl. unfold size, max32 in *. lia.
  - apply (read1_in (le4 size)). apply message_type_byte.
  - rewrite (app_assoc (le4 size)). etransitivity; [apply (read2_in (le4 size ++ [u8 (message_type m)]))|].
    by rewrite u16_small.
  - rewrite schema_fields by done. rewrite (app_assoc (le4 size)), (app_assoc (le4 size ++ _)).
    by apply (read_fields_in (fields m) ((le4 size ++ [u8 (message_type m)]) ++ le2 tag)).
  - intros st. rewrite build_ignores_stat, build_layout by done. by rewrite splice_0.
Qed.

Lemma p9p_roundtrip_witness :
  exists b n, build (Twalk 1 2 [[117; 115; 114]; [98; 105; 110]]) (replicate 64 0) 7 = Some (b, n) /\
    n = 27 /\ p9p_read1 b 4 = Some P9P_TWALK /\
    read_fields b 7 [K4; K4; KStrings] = Some [V4 1; V4 2; VStrings [[117; 115; 114]; [98; 105; 110]]].
Proof.
  destruct (p9p_roundtrip (Twalk 1 2 [[117; 115; 114]; [98; 105; 110]]) (replicate 64 0) 7)
    as (b & n & Hb & _ & _ & _ & Ht & _ & Hf & _).
  - repeat constructor; (done || (cbn; lia)).
  - lia.
  - cbn. lia.
  - by vm_compute.
  - exists b, n. split; [exact Hb|]. split; [|by split].
    vm_compute in Hb. by injection Hb as _ <-.
Defined.

(** The directory entry of these two messages is not written. *)
Example stat_not_written s1 s2 buf tag fid :
  p9p_mkrstat buf tag s1 = p9p_mkrstat buf tag s2 /\
  p9p_mktwstat buf tag fid s1 = p9p_mktwstat buf tag fid s2.
Proof. done. Qed.
