(* ===== verification/Option.v ===== *)
(** * Options of a process (src/libz/abi/option.c)

    The table of a program's settings: [OPTION_MAX] slots with a key (a pointer,
    null in a free slot) and a 64-byte value.  Strings are objects as in
    Cstring.v; [None] is an access outside an object or through a null pointer.

    The abstraction of the table is the finite map from the key strings to the
    value strings ([settings]); [option_table_refines_map] shows that every
    sequence of [option_add] and [option_set] acts on it as on a map. *)
From S2P Require Import Prelude Buffer Cstring.
From stdpp Require Import gmap.

Local Open Scope Z_scope.

Definition OPTION_MAX : nat := 32.

Record opt := Opt { key : option (list Z); value : list Z }.

(** The loops return the index of the slot, [None] for the null pointer. *)
Fixpoint find_loop (n : nat) (options : list opt) (i : nat) (k : list Z) : option (option nat) :=
  match n with
  | O => Some None
  | S n =>
      o ← options !! i;
      match key o with
      | None => find_loop n options (S i) k
      | Some k' =>
          m ← cstring_match k' k;
          if m =? 0 then find_loop n options (S i) k else Some (Some i)
      end
  end.

Definition find (options : list opt) (k : list Z) : option (option nat) :=
  find_loop OPTION_MAX options 0 k.

Fixpoint findfree_loop (n : nat) (options : list opt) (i : nat) : option (option nat) :=
  match n with
  | O => Some None
  | S n =>
      o ← options !! i;
      match key o with
      | None => Some (Some i)
      | Some _ => findfree_loop n options (S i)
      end
  end.

Definition findfree (options : list opt) : option (option nat) :=
  findfree_loop OPTION_MAX options 0.

Definition option_isvalid (options : list opt) (k : list Z) : option Z :=
  r ← find options k;
  i ← r;
  o ← options !! i;
  n ← cstring_length (value o);
  Some (if 0 <? n then 1 else 0).

Definition option_get (options : list opt) (i : Z) : option (option nat) :=
  if i <? Z.of_nat OPTION_MAX then
    o ← options !! Z.to_nat i;
    Some (match key o with Some _ => Some (Z.to_nat i) | None => None end)
  else Some None.

Definition option_getdecimal (options : list opt) (k : list Z) : option Z :=
  r ← find options k;
  match r with
  | None => Some 0
  | Some i =>
      o ← options !! i;
      n ← cstring_length (value o);
      v ← cstring_read_value (value o) n 10;
      Some (s32 v)
  end.

Definition option_getstring (options : list opt) (k : list Z) : option (option (list Z)) :=
  r ← find options k;
  match r with
  | None => Some None
  | Some i => o ← options !! i; Some (Some (value o))
  end.

(** [cstring_write_zero(value, 64, cstring_write(value, 64, text, 0))] *)
Definition write_setting (val text : list Z) : option (list Z * Z) :=
  '(val, n) ← cstring_write val 64 text 0;
  cstring_write_zero val 64 n.

Definition option_set (options : list opt) (k text : list Z) : option (list opt * Z) :=
  r ← find options k;
  match r with
  | None => Some (options, 0)
  | Some i =>
      o ← options !! i;
      '(val, n) ← write_setting (value o) text;
      Some (<[i := Opt (key o) val]> options, n)
  end.

Definition option_init (o : opt) (k text : list Z) : option opt :=
  '(val, _) ← write_setting (value o) text;
  Some (Opt (Some k) val).

Definition option_add (options : list opt) (k text : list Z) : option (list opt) :=
  r ← findfree options;
  match r with
  | None => Some options
  | Some i =>
      o ← options !! i;
      o ← option_init o k text;
      Some (<[i := o]> options)
  end.

(** The table of a program that has just been loaded. *)
Definition no_options : list opt := replicate OPTION_MAX (Opt None (replicate 64 0)).

(** ** The settings as a finite map *)

(** The characters of a nul-terminated object. *)
Fixpoint chars (obj : list Z) : list Z :=
  match obj with
  | [] => []
  | c :: obj => if c =? 0 then [] else c :: chars obj
  end.

Lemma chars_cstr s obj : cstr s obj -> chars obj = s.
Proof.
  intros [Hs [rest ->]]. induction Hs as [|c s Hc Hs IH]; cbn [app chars]; [done|].
  destruct (Z.eqb_spec c 0); [done|]. by rewrite IH.
Qed.

(** The first slot with a key decides. *)
Definition settings (options : list opt) : gmap (list Z) (list Z) :=
  foldr (fun o m => match key o with
                    | Some k => <[chars k := chars (value o)]> m
                    | None => m
                    end) ∅ options.

(** A nul-terminated string of a length the 32-bit counters can express. *)
Definition is_string (s obj : list Z) : Prop := cstr s obj /\ Z.of_nat (length s) < max32.

Definition used (o : opt) : Prop :=
  (exists k obj, key o = Some obj /\ is_string k obj) /\
  length (value o) = 64%nat /\ exists v, cstr v (value o).

Definition unused (o : opt) : Prop := key o = None /\ length (value o) = 64%nat.

(** The used slots come first. *)
Definition options_wf (n : nat) (options : list opt) : Prop :=
  length options = OPTION_MAX /\ (n <= OPTION_MAX)%nat /\
  Forall used (take n options) /\ Forall unused (drop n options).

Lemma match_string s t sobj tobj :
  is_string s sobj -> is_string t tobj ->
  cstring_match sobj tobj = Some (if decide (s = t) then 1 else 0).
Proof.
  intros [[Hs [r1 ->]] Hls] [[Ht [r2 ->]] Hlt]. by apply cstring_match_correct.
Qed.

Lemma settings_app xs ys :
  settings (xs ++ ys) = settings xs ∪ settings ys.
Proof.
  induction xs as [|x xs IH]; cbn; [by rewrite (left_id_L ∅ (∪))|].
  unfold settings in IH. rewrite IH. destruct (key x); [|done]. by rewrite insert_union_l.
Qed.

Lemma settings_unused xs : Forall unused xs -> settings xs = ∅.
Proof. induction 1 as [|x xs [Hx _] _ IH]; cbn; [done|]. by rewrite Hx. Qed.

(** What [find] returns: the first slot with the key, if the map has it. *)
Lemma find_loop_spec n options i k kobj :
  is_string k kobj -> (i + n = length options)%nat ->
  Forall (fun o => used o \/ unused o) (drop i options) ->
  (settings (drop i options) !! k = None /\ find_loop n options i kobj = Some None) \/
  (exists j o obj, (i <= j < length options)%nat /\ options !! j = Some o /\
     key o = Some obj /\ chars obj = k /\ used o /\
     settings (drop i (take j options)) !! k = None /\
     settings (drop i options) !! k = Some (chars (value o)) /\
     find_loop n options i kobj = Some (Some j)).
Proof.
  intros Hk. revert i. induction n as [|n IH]; intros i Hn Hall; cbn [find_loop].
  { left. rewrite drop_ge by lia. done. }
  destruct (lookup_lt_is_Some_2 options i) as [o Ho]; [lia|].
  rewrite (drop_S _ _ _ Ho) in Hall |- *. inversion Hall as [|? ? Hx Hrest]; subst.
  rewrite Ho. cbn [mbind option_bind].
  destruct (key o) as [obj|] eqn:Ek.
  - destruct Hx as [Hu|[Hu _]]; [|congruence]. pose proof Hu as [(s & obj' & Hobj & Hs) _].
    rewrite Ek in Hobj. injection Hobj as <-. rewrite (match_string _ _ _ _ Hs Hk).
    cbn [mbind option_bind]. pose proof (chars_cstr s obj (proj1 Hs)) as Hch. case_decide as Hsk.
    + rewrite Hsk in Hch. right. exists i, o, obj. cbn. rewrite Ek, Hch, lookup_insert_eq.
      rewrite drop_ge by (rewrite length_take; lia). split_and!; try done; lia.
    + cbn [Z.eqb]. destruct (IH (S i)) as [[Hm Hf]|(j & o' & ob' & Hj & Ho' & Hko & Hc & Hu' & Hnone & Hm & Hf)];
        [lia|done| |].
      * left. rewrite Hf. cbn. rewrite Ek, Hch, lookup_insert_ne by done. done.
      * right. exists j, o', ob'. rewrite Hf. cbn. rewrite Ek, Hch, lookup_insert_ne by done.
        split_and!; try done; try lia.
        rewrite (drop_S _ o) by (rewrite lookup_take_lt by lia; done). cbn.
        rewrite Ek, Hch, lookup_insert_ne by done. done.
  - destruct (IH (S i)) as [[Hm Hf]|(j & o' & ob' & Hj & Ho' & Hko & Hc & Hu' & Hnone & Hm & Hf)];
      [lia|done| |].
    + left. rewrite Hf. cbn. by rewrite Ek.
    + right. exists j, o', ob'. rewrite Hf. cbn. rewrite Ek. split_and!; try done; try lia.
      rewrite (drop_S _ o) by (rewrite lookup_take_lt by lia; done). cbn. by rewrite Ek.
Qed.

Lemma options_wf_all n options :
  options_wf n options -> Forall (fun o => used o \/ unused o) options.
Proof.
  intros (_ & _ & Hu & Hf). rewrite <- (take_drop n options). apply Forall_app. split.
  - eapply Forall_impl; [exact Hu|]. by left.
  - eapply Forall_impl; [exact Hf|]. by right.
Qed.

(** A value is cut off after 63 characters. *)
Lemma write_setting_spec val v text :
  length val = 64%nat -> is_string v text ->
  exists val', write_setting val text = Some (val', if Z.of_nat (length v) <? 64 then 1 else 0) /\
    length val' = 64%nat /\ cstr (take 63 v) val'.
Proof.
  intros Hval [[Hv [rest ->]] Hlen]. unfold write_setting, cstring_write, cstring_write_zero, max32 in *.
  rewrite cstring_length_spec by (unfold max32; (done || lia)). cbn [mbind option_bind].
  rewrite buffer_write_spec by (rewrite ?length_app; unfold max32; lia).
  unfold room. cbn [Z.leb Z.compare mbind option_bind]. rewrite Z.sub_0_r.
  change (Z.to_nat 0) with 0%nat. set (m := Z.to_nat (Z.min (Z.of_nat (length v)) 64)).
  assert (m <= 64)%nat as Hm by lia. assert (m <= length v)%nat as Hmv by lia.
  rewrite splice_0, take_app_le by lia. rewrite length_take, Nat.min_l by lia.
  destruct (Z.ltb_spec (Z.of_nat (length v)) 64) as [Hs|Hs].
  - rewrite Z.min_l by lia. destruct (Z.ltb_spec (Z.of_nat (length v)) 64); [|lia].
    rewrite (take_ge v m), (take_ge v 63) by lia. replace m with (length v) by lia.
    destruct (lookup_lt_is_Some_2 val (length v)) as [x Hx]; [lia|].
    rewrite (drop_S _ _ _ Hx), wr_mid. cbn [mbind option_bind]. eexists. split; [done|].
    split; [|split; [done|by eexists]].
    rewrite length_app. cbn [length]. rewrite length_drop. lia.
  - rewrite Z.min_r by lia. cbn [Z.ltb Z.compare]. change (u32 (64 - 1)) with 63.
    destruct (lookup_lt_is_Some_2 v 63) as [x Hx]; [lia|].
    replace m with 64%nat by lia. rewrite (take_S_r _ _ _ Hx), drop_ge, app_nil_r by lia.
    pose proof (wr_mid (take 63 v) x [] 0) as Hw. rewrite length_take, Nat.min_l in Hw by lia.
    change (Z.of_nat 63) with 63 in Hw. rewrite Hw. cbn [mbind option_bind]. eexists. split; [done|].
    split; [rewrite length_app, length_take; cbn [length]; lia|].
    split; [by apply Forall_take|by exists []].
Qed.

(** ** Refinement *)

Lemma settings_update j options o k obj v :
  options !! j = Some o -> key o = Some obj -> chars obj = k ->
  settings (take j options) !! k = None ->
  settings (<[j := Opt (Some obj) v]> options) = <[k := chars v]> (settings options).
Proof.
  intros Ho Hk Hc Hnone. pose proof (lookup_lt_Some _ _ _ Ho) as Hj.
  rewrite insert_take_drop by done. rewrite <- (take_drop_middle options j o Ho) at 3.
  rewrite !settings_app. cbn [settings foldr key value]. rewrite Hk, Hc.
  change (foldr _ ∅ (drop (S j) options)) with (settings (drop (S j) options)).
  rewrite !insert_union_r by done. by rewrite insert_insert_eq.
Qed.

Lemma find_spec n options k kobj :
  options_wf n options -> is_string k kobj ->
  (settings options !! k = None /\ find options kobj = Some None) \/
  (exists j o obj, (j < n)%nat /\ options !! j = Some o /\ key o = Some obj /\ chars obj = k /\
     used o /\ settings (take j options) !! k = None /\
     settings options !! k = Some (chars (value o)) /\ find options kobj = Some (Some j)).
Proof.
  intros Hwf Hk. pose proof (options_wf_all _ _ Hwf) as Hall. destruct Hwf as (Hlen & Hn & Hu & Hf).
  destruct (find_loop_spec OPTION_MAX options 0 k kobj Hk) as [[Hm Hfind]|Hfound]; [lia|done| |].
  - left. by rewrite drop_0 in Hm.
  - right. destruct Hfound as (j & o & obj & Hj & Ho & Hko & Hc & Huo & Hnone & Hm & Hfind).
    rewrite drop_0 in Hm, Hnone. exists j, o, obj. split_and!; try done.
    destruct (le_lt_dec n j) as [Hnj|]; [|done]. exfalso.
    rewrite Forall_lookup in Hf. destruct (Hf (j - n)%nat o) as [Hk' _]; [|congruence].
    rewrite lookup_drop. by replace (n + (j - n))%nat with j by lia.
Qed.

Lemma findfree_spec n options :
  options_wf n options ->
  findfree options = Some (if decide (n < OPTION_MAX)%nat then Some n else None).
Proof.
  intros (Hlen & Hn & Hu & Hf). rewrite Forall_lookup in Hu, Hf. unfold findfree.
  assert (forall m i, (i + m = OPTION_MAX)%nat -> (i <= n)%nat ->
    findfree_loop m options i = Some (if decide (n < OPTION_MAX)%nat then Some n else None)) as H.
  { induction m as [|m IH]; intros i Hm Hi; cbn [findfree_loop].
    - case_decide; [lia|done].
    - destruct (lookup_lt_is_Some_2 options i) as [o Ho]; [lia|]. rewrite Ho. cbn [mbind option_bind].
      destruct (decide (i < n)%nat) as [Hin|Hin].
      + destruct (Hu i o) as [(k & obj & -> & _) _]; [by rewrite lookup_take_lt|].
        apply IH; lia.
      + replace n with i in * by lia. destruct (Hf 0%nat o) as [-> _].
        { by rewrite lookup_drop, Nat.add_0_r. }
        rewrite decide_True by lia. done. }
  apply H; lia.
Qed.

Lemma option_add_spec n options k kobj v vobj :
  options_wf n options -> is_string k kobj -> is_string v vobj ->
  exists options', option_add options kobj vobj = Some options' /\
    if decide (n < OPTION_MAX)%nat
    then options_wf (S n) options' /\ settings options' = settings options ∪ {[k := take 63 v]}
    else options' = options.
Proof.
  intros Hwf Hk Hv. unfold option_add. rewrite (findfree_spec n) by done. cbn [mbind option_bind].
  case_decide as Hn; [|by eexists]. destruct Hwf as (Hlen & Hle & Hu & Hf).
  destruct (lookup_lt_is_Some_2 options n) as [o Ho]; [lia|]. rewrite Ho. cbn [mbind option_bind].
  rewrite (drop_S _ _ _ Ho) in Hf. inversion Hf as [|? ? [Hko Hvo] Hrest]; subst.
  destruct (write_setting_spec (value o) v vobj Hvo Hv) as (val & Hw & Hlv & Hcv).
  unfold option_init. rewrite Hw. cbn [mbind option_bind]. eexists. split; [done|].
  rewrite insert_take_drop by lia. split.
  - assert (length (take n options) = n) as Htn by (rewrite length_take; lia).
    split; [|split; [lia|split]].
    + rewrite length_app, Htn. cbn [length]. rewrite length_drop. lia.
    + rewrite (cons_middle _ (take n options)), app_assoc.
      rewrite take_app_length' by (rewrite length_app; cbn [length]; lia).
      apply Forall_app. split; [done|]. repeat constructor; [|done|by eexists].
      exists k, kobj. done.
    + rewrite (cons_middle _ (take n options)), app_assoc.
      rewrite drop_app_length' by (rewrite length_app; cbn [length]; lia). done.
  - assert (settings options = settings (take n options)) as ->.
    { transitivity (settings (take n options ++ drop n options)); [by rewrite take_drop|].
      rewrite settings_app, (settings_unused (drop n options)) by (rewrite (drop_S _ _ _ Ho); done).
      apply (right_id_L ∅ (∪)). }
    rewrite settings_app. cbn. change (foldr _ ∅ (drop (S n) options)) with (settings (drop (S n) options)).
    rewrite (settings_unused (drop (S n) options)) by done.
    rewrite (chars_cstr _ _ (proj1 Hk)), (chars_cstr _ _ Hcv). done.
Qed.

Lemma option_set_spec n options k kobj v vobj :
  options_wf n options -> is_string k kobj -> is_string v vobj ->
  exists options', options_wf n options' /\
    option_set options kobj vobj =
      Some (options', if decide (is_Some (settings options !! k) /\ (length v < 64)%nat) then 1 else 0) /\
    settings options' = alter (fun _ => take 63 v) k (settings options).
Proof.
  intros Hwf Hk Hv. unfold option_set.
  destruct (find_spec n options k kobj Hwf Hk)
    as [[Hm ->]|(j & o & obj & Hj & Ho & Hko & Hc & Huo & Hnone & Hm & ->)]; cbn [mbind option_bind].
  - exists options. split; [done|]. split.
    + rewrite decide_False by (rewrite Hm; intros [[] ?]; done). done.
    + apply map_eq. intros j. rewrite lookup_alter. case_decide; [subst; by rewrite Hm|done].
  - rewrite Ho. cbn [mbind option_bind]. pose proof Huo as (_ & Hlo & _).
    destruct (write_setting_spec (value o) v vobj Hlo Hv) as (val & -> & Hlv & Hcv).
    cbn [mbind option_bind]. destruct Hwf as (Hlen & Hle & Hu & Hf). rewrite Hko.
    exists (<[j := Opt (Some obj) val]> options). split.
    + split; [by rewrite length_insert|]. split; [done|]. split.
      * rewrite take_insert_lt by done. apply Forall_insert; [done|].
        destruct Huo as [(s & ob & E & Hs) _]. rewrite Hko in E. injection E as <-.
        split; [by exists s, obj|]. split; [done|by exists (take 63 v)].
      * by rewrite drop_insert_lt.
    + split.
      * do 2 f_equal. rewrite Hm. destruct (Z.ltb_spec (Z.of_nat (length v)) 64).
        -- rewrite decide_True; [done|]. split; [by eexists|lia].
        -- rewrite decide_False; [done|]. intros [_ ?]. lia.
      * rewrite (settings_update j options o k obj val Ho Hko Hc Hnone), (chars_cstr _ _ Hcv).
        apply map_eq. intros i. rewrite lookup_alter, lookup_insert.
        case_decide; [subst; by rewrite Hm|done].
Qed.

Inductive update := Add (k v : list Z) | Assign (k v : list Z).

Definition exec (options : list opt) (u : update) : option (list opt) :=
  match u with
  | Add k v => option_add options (k ++ [0]) (v ++ [0])
  | Assign k v => '(options, _) ← option_set options (k ++ [0]) (v ++ [0]); Some options
  end.

(** The same update of the map; [n] counts the additions that found a slot. *)
Definition map_update (st : nat * gmap (list Z) (list Z)) (u : update) :=
  let '(n, m) := st in
  match u with
  | Add k v => if decide (n < OPTION_MAX)%nat then (S n, m ∪ {[k := take 63 v]}) else (n, m)
  | Assign k v => (n, alter (fun _ => take 63 v) k m)
  end.

Definition text (s : list Z) : Prop := Forall (fun c => c <> 0) s /\ Z.of_nat (length s) < max32.

Definition update_ok (u : update) : Prop :=
  match u with Add k v | Assign k v => text k /\ text v end.

Lemma text_string s : text s -> is_string s (s ++ [0]).
Proof. intros [Hs Hl]. split; [|done]. split; [done|by exists []]. Qed.

Lemma exec_refines n options u :
  options_wf n options -> update_ok u ->
  exists options', exec options u = Some options' /\
    let st := map_update (n, settings options) u in
    options_wf st.1 options' /\ settings options' = st.2.
Proof.
  intros Hwf Hu. destruct u as [k v|k v]; destruct Hu as [Hk%text_string Hv%text_string];
    cbn [exec map_update].
  - destruct (option_add_spec n options _ _ _ _ Hwf Hk Hv) as (options' & -> & H).
    exists options'. split; [done|]. case_decide; [done|]. by subst.
  - destruct (option_set_spec n options _ _ _ _ Hwf Hk Hv) as (options' & Hwf' & -> & Hm).
    exists options'. done.
Qed.

Lemma no_options_wf : options_wf 0 no_options.
Proof.
  unfold options_wf, no_options, OPTION_MAX. split; [done|]. split; [lia|].
  split; [constructor|]. rewrite drop_0. by apply Forall_replicate.
Qed.

Lemma no_options_settings : settings no_options = ∅.
Proof. reflexivity. Qed.

(** C21. The option table is a finite map whose keys are claimed by the first
    [option_add]: after any sequence of additions and assignments, starting
    from the table of a fresh process, no access has left an object and
    [option_getstring] finds for every key the string the map assigns to it,
    and nothing for the other keys.  An addition beyond the 32 slots is
    dropped, a later addition of the same key is invisible, an assignment
    changes only keys that were added, and every value keeps its first 63
    characters. *)
Theorem option_table_refines_map (us : list update) (k : list Z)
    (Hus : Forall update_ok us) (Hk : text k) :
  exists options r, foldl (fun o u => o ≫= fun o => exec o u) (Some no_options) us = Some options /\
    option_getstring options (k ++ [0]) = Some r /\
    chars <$> r = (foldl map_update (0%nat, ∅) us).2 !! k.
Proof.
  assert (exists n options, foldl (fun o u => o ≫= fun o => exec o u) (Some no_options) us = Some options /\
    options_wf n options /\ foldl map_update (0%nat, ∅) us = (n, settings options))
    as (n & options & -> & Hwf & ->).
  { induction us as [|u us IH] using rev_ind.
    - exists 0%nat, no_options. split_and!; [done|apply no_options_wf|done].
    - apply Forall_app in Hus as [Hus Hu]. inversion Hu; subst.
      destruct (IH Hus) as (n & options & Hf & Hwf & Hm). rewrite !foldl_app, Hf, Hm. cbn [foldl mbind option_bind].
      destruct (exec_refines n options u Hwf ltac:(done)) as (options' & -> & Hwf' & Hm').
      eexists _, options'. split_and!; [done|exact Hwf'|]. rewrite Hm'. by apply surjective_pairing. }
  unfold option_getstring. cbn [snd].
  destruct (find_spec n options k _ Hwf (text_string k Hk))
    as [[Hm Hfd]|(j & o & obj & Hj & Ho & Hko & Hc & Huo & Hnone & Hm & Hfd)].
  - exists options, None. rewrite Hfd, Hm. done.
  - exists options, (Some (value o)). rewrite Hfd, Hm. cbn. rewrite Ho. done.
Qed.

Lemma option_table_refines_map_witness :
  exists options r,
    foldl (fun o u => o ≫= fun o => exec o u) (Some no_options)
      [Add [97] [49]; Add [98] [50]; Add [97] [51]; Assign [97] [52]; Assign [99] [53]] = Some options /\
    option_getstring options ([97] ++ [0]) = Some r /\ chars <$> r = Some [52].
Proof.
  apply (option_table_refines_map
    [Add [97] [49]; Add [98] [50]; Add [97] [51]; Assign [97] [52]; Assign [99] [53]] [97]).
  - repeat constructor; unfold max32; cbn [length]; lia.
  - split; [repeat constructor; lia|unfold max32; cbn [length]; lia].
Defined.

(** [option_isvalid] follows the null pointer [find] returns for a key that was
    never added. *)
Theorem option_isvalid_missing (n : nat) (options : list opt) (k : list Z)
    (Hwf : options_wf n options) (Hk : text k) :
  option_isvalid options (k ++ [0]) = None <-> settings options !! k = None.
Proof.
  unfold option_isvalid.
  destruct (find_spec n options k _ Hwf (text_string k Hk))
    as [[Hm ->]|(j & o & obj & Hj & Ho & Hko & Hc & Huo & Hnone & Hm & ->)]; cbn [mbind option_bind].
  - done.
  - rewrite Ho, Hm. cbn [mbind option_bind]. destruct Huo as (_ & Hl & v & Hv & rest & Hval).
    rewrite Hval in Hl |- *. rewrite length_app in Hl. cbn [length] in Hl.
    rewrite cstring_length_spec by (done || (unfold max32; lia)). done.
Qed.

Lemma option_isvalid_missing_witness :
  option_isvalid no_options [97; 0] = None.
Proof.
  apply (option_isvalid_missing 0 no_options [97] no_options_wf); [|reflexivity].
  split; [repeat constructor; lia|unfold max32; cbn [length]; lia].
Defined.

(** [option_set] reports failure for a value it has stored: a string of 64
    characters or more is cut and the result is 0, as for an unknown key. *)
Theorem option_set_reports_truncation (n : nat) (options : list opt) (k v : list Z)
    (Hwf : options_wf n options) (Hk : text k) (Hv : text v)
    (Hknown : is_Some (settings options !! k)) (Hlong : (64 <= length v)%nat) :
  exists options', option_set options (k ++ [0]) (v ++ [0]) = Some (options', 0) /\
    settings options' !! k = Some (take 63 v).
Proof.
  destruct (option_set_spec n options k _ v _ Hwf (text_string k Hk) (text_string v Hv))
    as (options' & _ & Hs & Hm).
  exists options'. rewrite decide_False in Hs by (intros [_ ?]; lia). split; [done|].
  rewrite Hm, lookup_alter_eq. by destruct Hknown as [x ->].
Qed.

Lemma option_set_reports_truncation_witness :
  exists options options', option_add no_options [97; 0] [49; 0] = Some options /\
    option_set options ([97] ++ [0]) (replicate 64 50 ++ [0]) = Some (options', 0) /\
    settings options' !! [97] = Some (replicate 63 50).
Proof.
  assert (text [97]) as Hk by (split; [repeat constructor; lia|unfold max32; cbn [length]; lia]).
  assert (text [49]) as Hv by (split; [repeat constructor; lia|unfold max32; cbn [length]; lia]).
  destruct (option_add_spec 0 no_options _ _ _ _ no_options_wf (text_string _ Hk) (text_string _ Hv))
    as (options & Ha & Hr). rewrite decide_True in Hr by (unfold OPTION_MAX; lia). destruct Hr as [Hwf Hm].
  destruct (option_set_reports_truncation 1 options [97] (replicate 64 50) Hwf Hk)
    as (options' & Hs & Hl).
  - split; [by apply Forall_replicate|unfold max32; rewrite length_replicate; lia].
  - rewrite Hm. by eexists.
  - rewrite length_replicate. lia.
  - exists options, options'. split; [exact Ha|]. split; [exact Hs|exact Hl].
Defined.
