(* ===== verification/Channel.v ===== *)
(** * Channels of a process (src/libz/abi/channel.c, src/libz/abi/call.c,
      src/libz/fudge/message.c)

    A process receives messages with [call_pick] and sends them with
    [call_place]; [channel.c] keeps a table of listeners (a callback, the
    target of messages sent to [CHANNEL_DEFAULT], and a flag that closes the
    process after the event) and the loops that wait for messages.

    The kernel is not part of the library: the outcomes of its calls are an
    input, the lists of [sys]; a call whose list is empty has not returned
    ([Blocked]).  [trace] records what the process asked the kernel to do.
    [user] is the rest of the process, which the callbacks may change; the
    callbacks themselves are the variable [invoke].

    [Crash] is an access outside an object, [NoFuel] the end of the fuel of a
    loop that polls. *)
From S2P Require Import Prelude Buffer Cstring.
From Stdlib Require Ascii String.

Local Open Scope Z_scope.

Definition CHANNEL_LISTENERS : Z := 256.
Definition CHANNEL_DEFAULT : Z := 0.
Definition MESSAGE_SIZE : Z := 1536.

Definition EVENT_MAIN : Z := 0x01.
Definition EVENT_TERM : Z := 0x02.
Definition EVENT_CLOSE : Z := 0x03.
Definition EVENT_REDIRECT : Z := 0x04.
Definition EVENT_OPTION : Z := 0x05.
Definition EVENT_PATH : Z := 0x06.
Definition EVENT_DATA : Z := 0x07.
Definition EVENT_ERROR : Z := 0x08.
Definition EVENT_STATUS : Z := 0x0B.
Definition EVENT_REDIRECT_TARGET : Z := 0x01.
Definition EVENT_REDIRECT_SOURCE : Z := 0x02.
Definition FILE_L0 : Z := 0x00.
Definition FILE_PW : Z := 0x0F.

(** The characters of a literal. *)
Definition lit (s : String.string) : list Z :=
  (fun c => Z.of_nat (Ascii.nat_of_ascii c)) <$> String.list_ascii_of_string s.

Record message := Message { event : Z; source : Z; length_ : Z }.

(** [sizeof (struct message)] is 12. *)
Definition message_datasize (m : message) : Z := u32 (length_ m - 12).
Definition message_init (ev src len : Z) : message := Message ev src (u32 (12 + len)).

(** [callback] is the address of a function, [None] the null pointer. *)
Record listener := Listener { callback : option nat; target : Z; autoclose : bool }.

(** What the process asks of the kernel. *)
Inductive request :=
| Place (target event : Z) (data : list Z)
| Walk (idescriptor pdescriptor : Z) (path : list Z)
| Spawn (pdescriptor wdescriptor : Z)
| Kill (channel : Z)
| Despawn
| Read (idescriptor count offset : Z)
| Write (idescriptor : Z) (data : list Z) (offset : Z).

(** The outcomes of the calls still to come, each in the order of the calls. *)
Record sys := Sys {
  picks : list (option (message * list Z));
  places : list bool;
  walks : list Z;
  spawns : list Z;
  reads : list (list Z);
  writes : list Z;
  trace : list request }.

Record proc (U : Type) := Proc {
  listeners : list listener; active : bool; kernel : sys; user : U }.
Arguments Proc {U}. Arguments listeners {U}. Arguments active {U}.
Arguments kernel {U}. Arguments user {U}.

Inductive result (U A : Type) :=
| Ret (a : A) (s : proc U)
| Blocked (s : proc U)
| Crash
| NoFuel.
Arguments Ret {U A}. Arguments Blocked {U A}. Arguments Crash {U A}. Arguments NoFuel {U A}.

Definition M (U A : Type) := proc U -> result U A.

#[global] Instance M_ret U : MRet (M U) := fun A a s => Ret a s.
#[global] Instance M_bind U : MBind (M U) := fun A B k c s =>
  match c s with
  | Ret a s => k a s
  | Blocked s => Blocked s
  | Crash => Crash
  | NoFuel => NoFuel
  end.

Definition lift {U A} (o : option A) : M U A :=
  fun s => match o with Some a => Ret a s | None => Crash end.
Definition get {U} : M U (proc U) := fun s => Ret s s.
Definition put {U} (s : proc U) : M U unit := fun _ => Ret tt s.
Definition no_fuel {U A} : M U A := fun _ => NoFuel.

Definition with_listeners {U} (s : proc U) ls := Proc ls (active s) (kernel s) (user s).
Definition with_active {U} (s : proc U) a := Proc (listeners s) a (kernel s) (user s).
Definition with_kernel {U} (s : proc U) k := Proc (listeners s) (active s) k (user s).
Definition with_user {U} (s : proc U) (u : U) := Proc (listeners s) (active s) (kernel s) u.
Definition with_picks (k : sys) x :=
  Sys x (places k) (walks k) (spawns k) (reads k) (writes k) (trace k).

(** ** System calls *)

Section calls.
Context {U : Type}.

Definition asked (k : sys) (r : request) : sys :=
  Sys (picks k) (places k) (walks k) (spawns k) (reads k) (writes k) (trace k ++ [r]).

(** [call_place] returns zero when the target cannot take the message yet. *)
Definition call_place (tgt ev count : Z) (data : list Z) : M U Z := fun s =>
  let k := kernel s in
  if count <=? Z.of_nat (length data) then
    match places k with
    | [] => Blocked s
    | b :: rest =>
        let k := Sys (picks k) rest (walks k) (spawns k) (reads k) (writes k) (trace k) in
        if b then Ret 1 (with_kernel s (asked k (Place tgt ev (take (Z.to_nat count) data))))
        else Ret 0 (with_kernel s k)
    end
  else Crash.

(** [call_pick] fills in the message and the start of the data buffer, or
    returns zero when there is no message. *)
Definition call_pick (m : message) (data : list Z) : M U (Z * message * list Z) := fun s =>
  let k := kernel s in
  match picks k with
  | [] => Blocked s
  | None :: rest => Ret (0, m, data) (with_kernel s (with_picks k rest))
  | Some (m', payload) :: rest =>
      if (length payload <=? length data)%nat then
        Ret (1, m', splice data 0 payload) (with_kernel s (with_picks k rest))
      else Crash
  end.

Definition call_walk (idescriptor pdescriptor : Z) (path : list Z) (count : Z) : M U Z := fun s =>
  let k := kernel s in
  if count <=? Z.of_nat (length path) then
    match walks k with
    | [] => Blocked s
    | r :: rest =>
        Ret r (with_kernel s (asked (Sys (picks k) (places k) rest (spawns k) (reads k) (writes k) (trace k))
                 (Walk idescriptor pdescriptor (take (Z.to_nat count) path))))
    end
  else Crash.

Definition call_spawn (pdescriptor wdescriptor : Z) : M U Z := fun s =>
  let k := kernel s in
  match spawns k with
  | [] => Blocked s
  | r :: rest =>
      Ret r (with_kernel s (asked (Sys (picks k) (places k) (walks k) rest (reads k) (writes k) (trace k))
               (Spawn pdescriptor wdescriptor)))
  end.

Definition call_kill (channel : Z) : M U unit := fun s =>
  Ret tt (with_kernel s (asked (kernel s) (Kill channel))).

Definition call_despawn : M U unit := fun s =>
  Ret tt (with_kernel s (asked (kernel s) Despawn)).

(** [call_read] stores at [buffer + position] and returns the number of bytes. *)
Definition call_read (idescriptor : Z) (buffer : list Z) (position count offset : Z)
    : M U (list Z * Z) := fun s =>
  let k := kernel s in
  match reads k with
  | [] => Blocked s
  | bytes :: rest =>
      if (Z.to_nat position + length bytes <=? length buffer)%nat then
        Ret (splice buffer (Z.to_nat position) bytes, Z.of_nat (length bytes))
          (with_kernel s (asked (Sys (picks k) (places k) (walks k) (spawns k) rest (writes k) (trace k))
             (Read idescriptor count offset)))
      else Crash
  end.

(** [call_write] takes bytes from [buffer + position]. *)
Definition call_write (idescriptor : Z) (buffer : list Z) (position count offset : Z) : M U Z := fun s =>
  let k := kernel s in
  match writes k with
  | [] => Blocked s
  | n :: rest =>
      if position + count <=? Z.of_nat (length buffer) then
        Ret n (with_kernel s (asked (Sys (picks k) (places k) (walks k) (spawns k) (reads k) rest (trace k))
                 (Write idescriptor (slice buffer (Z.to_nat position) (Z.to_nat count)) offset)))
      else Crash
  end.

Definition call_walk_duplicate (idescriptor pdescriptor : Z) : M U Z :=
  call_walk idescriptor pdescriptor [] 0.

Definition call_walk_relative (idescriptor pdescriptor : Z) (path : list Z) : M U Z :=
  n ← lift (cstring_length path); call_walk idescriptor pdescriptor path n.

Definition call_walk_absolute (idescriptor : Z) (path : list Z) : M U Z :=
  n ← lift (cstring_length path); call_walk idescriptor FILE_PW path n.

Fixpoint read_all_loop (fuel : nat) (idescriptor : Z) (buffer : list Z) (count offset c : Z)
    : M U (list Z * Z) :=
  match fuel with
  | O => no_fuel
  | S fuel =>
      if c <? count then
        '(buffer, n) ← call_read idescriptor buffer c (u32 (count - c)) (u32 (offset + c));
        read_all_loop fuel idescriptor buffer count offset (u32 (c + n))
      else mret (buffer, c)
  end.

(** Every iteration takes one outcome of [call_read]. *)
Definition call_read_all (idescriptor : Z) (buffer : list Z) (count offset : Z)
    : M U (list Z * Z) :=
  s ← get; read_all_loop (S (length (reads (kernel s)))) idescriptor buffer count offset 0.

Fixpoint write_all_loop (fuel : nat) (idescriptor : Z) (buffer : list Z) (count offset c : Z)
    : M U Z :=
  match fuel with
  | O => no_fuel
  | S fuel =>
      if c <? count then
        n ← call_write idescriptor buffer c (u32 (count - c)) (u32 (offset + c));
        write_all_loop fuel idescriptor buffer count offset (u32 (c + n))
      else mret c
  end.

Definition call_write_all (idescriptor : Z) (buffer : list Z) (count offset : Z) : M U Z :=
  s ← get; write_all_loop (S (length (writes (kernel s)))) idescriptor buffer count offset 0.

Definition call_spawn_absolute (pdescriptor wdescriptor : Z) (path : list Z) : M U Z :=
  r ← call_walk_absolute pdescriptor path;
  if r =? 0 then mret 0 else call_spawn pdescriptor wdescriptor.
End calls.

(** ** channel.c *)

Section channel.
Context {U : Type}.

(** [invoke f source data size] runs the function at the address [f]; it may
    change the process and the data buffer it is given. *)
Context (invoke : nat -> Z -> list Z -> Z -> M U (list Z)).

(** The content of the uninitialised local buffers: [char buffer[MESSAGE_SIZE]]
    and the formatter's [char num[64]]. *)
Context (stack0 num0 : list Z).

(** [listeners[event]] *)
Definition listener_at (ev : Z) : M U listener :=
  s ← get; lift (if ev <? 0 then None else listeners s !! Z.to_nat ev).

Definition set_listener (ev : Z) (f : listener -> listener) : M U unit :=
  s ← get;
  l ← listener_at ev;
  put (with_listeners s (<[Z.to_nat ev := f l]> (listeners s))).

(** [while (!call_place(target, event, count, data));]; every iteration takes
    one outcome. *)
Fixpoint place_loop (fuel : nat) (tgt ev count : Z) (data : list Z) : M U unit :=
  match fuel with
  | O => no_fuel
  | S fuel =>
      r ← call_place tgt ev count data;
      if r =? 0 then place_loop fuel tgt ev count data else mret tt
  end.

Definition send (tgt ev count : Z) (data : list Z) : M U Z :=
  if MESSAGE_SIZE <? count then mret 0
  else
    tgt ← (if tgt =? CHANNEL_DEFAULT then l ← listener_at ev; mret (target l) else mret tgt);
    if tgt =? 0 then mret 0
    else
      s ← get;
      _ ← place_loop (S (length (places (kernel s)))) tgt ev count data;
      mret count.

(** The bytes of [struct event_redirect]. *)
Definition redirect_bytes (ev mode channel : Z) : list Z := le32 ev ++ le32 mode ++ le32 channel.

Definition redirect (tgt ev mode channel : Z) : M U Z :=
  send tgt EVENT_REDIRECT 12 (redirect_bytes ev mode channel).

Definition channel_close : M U unit :=
  _ ← send CHANNEL_DEFAULT EVENT_CLOSE 0 [];
  s ← get;
  put (with_active s false).

Definition channel_open : M U unit := s ← get; put (with_active s true).

(** The result is the data buffer after the callback. *)
Definition channel_dispatch (m : message) (data : list Z) : M U (list Z) :=
  if event m <? CHANNEL_LISTENERS then
    l ← listener_at (event m);
    data ← (match callback l with
            | Some f => invoke f (source m) data (message_datasize m)
            | None => mret data
            end);
    l ← listener_at (event m);
    if autoclose l then _ ← channel_close; mret data else mret data
  else mret data.

Definition channel_send (tgt ev : Z) : M U Z := send tgt ev 0 [].

Definition channel_send_buffer (tgt ev count : Z) (data : list Z) : M U Z := send tgt ev count data.

(** [send(target, event, cstring_write_fmt...(buffer, MESSAGE_SIZE, fmt, 0, ...), buffer)] *)
Definition send_formatted (tgt ev : Z) (written : option (list Z * Z)) : M U Z :=
  '(buffer, count) ← lift written; send tgt ev count buffer.

Definition channel_send_fmt0 tgt ev fmt :=
  send_formatted tgt ev (cstring_write_fmt0 num0 stack0 MESSAGE_SIZE fmt 0).
Definition channel_send_fmt1 tgt ev fmt arg1 :=
  send_formatted tgt ev (cstring_write_fmt1 num0 stack0 MESSAGE_SIZE fmt 0 arg1).
Definition channel_send_fmt2 tgt ev fmt arg1 arg2 :=
  send_formatted tgt ev (cstring_write_fmt2 num0 stack0 MESSAGE_SIZE fmt 0 arg1 arg2).
Definition channel_send_fmt3 tgt ev fmt arg1 arg2 arg3 :=
  send_formatted tgt ev (cstring_write_fmt3 num0 stack0 MESSAGE_SIZE fmt 0 arg1 arg2 arg3).
Definition channel_send_fmt4 tgt ev fmt arg1 arg2 arg3 arg4 :=
  send_formatted tgt ev (cstring_write_fmt4 num0 stack0 MESSAGE_SIZE fmt 0 arg1 arg2 arg3 arg4).
Definition channel_send_fmt6 tgt ev fmt arg1 arg2 arg3 arg4 arg5 arg6 :=
  send_formatted tgt ev
    (cstring_write_fmt6 num0 stack0 MESSAGE_SIZE fmt 0 arg1 arg2 arg3 arg4 arg5 arg6).
Definition channel_send_fmt8 tgt ev fmt arg1 arg2 arg3 arg4 arg5 arg6 arg7 arg8 :=
  send_formatted tgt ev
    (cstring_write_fmt8 num0 stack0 MESSAGE_SIZE fmt 0 arg1 arg2 arg3 arg4 arg5 arg6 arg7 arg8).

Definition channel_listen (tgt ev : Z) : M U Z :=
  redirect tgt ev EVENT_REDIRECT_SOURCE CHANNEL_DEFAULT.

Definition channel_forward (tgt ev channel : Z) : M U Z :=
  redirect tgt ev EVENT_REDIRECT_TARGET channel.

(** The result is the returned value, the message and the data buffer. *)
Fixpoint pick_loop (fuel : nat) (m : message) (data : list Z) : M U (Z * message * list Z) :=
  match fuel with
  | O => no_fuel
  | S fuel =>
      s ← get;
      if active s then
        '(r, m, data) ← call_pick m data;
        if r =? 0 then pick_loop fuel m data else mret (event m, m, data)
      else mret (0, m, data)
  end.

Definition channel_pick (m : message) (data : list Z) : M U (Z * message * list Z) :=
  s ← get; pick_loop (S (length (picks (kernel s)))) m data.

(** [m0], [data0]: the uninitialised locals. *)
Definition channel_process (m0 : message) (data0 : list Z) : M U Z :=
  '(r, m, data) ← channel_pick m0 data0;
  if r =? 0 then mret 0
  else _ ← channel_dispatch m data; mret (event m).

(** [channel_poll_any] and [channel_poll_from] differ in the condition. *)
Fixpoint poll_loop (fuel : nat) (want : message -> bool) (m : message) (data : list Z)
    : M U (Z * message * list Z) :=
  match fuel with
  | O => no_fuel
  | S fuel =>
      '(r, m, data) ← channel_pick m data;
      if r =? 0 then mret (0, m, data)
      else if want m then mret (event m, m, data)
      else data ← channel_dispatch m data; poll_loop fuel want m data
  end.

Definition channel_poll_any (fuel : nat) (ev : Z) (m : message) (data : list Z) :=
  poll_loop fuel (fun m => event m =? ev) m data.

Definition channel_poll_from (fuel : nat) (src ev : Z) (m : message) (data : list Z) :=
  poll_loop fuel (fun m => (event m =? ev) && (source m =? src)) m data.

(** [channel_read_any] and [channel_read_from] differ in the condition; the
    result is the returned value and the data buffer. *)
Fixpoint read_loop (fuel : nat) (want : message -> bool) (m : message) (data : list Z)
    : M U (Z * list Z) :=
  match fuel with
  | O => no_fuel
  | S fuel =>
      '(r, m, data) ← channel_pick m data;
      if r =? EVENT_CLOSE then mret (0, data)
      else if want m then mret (message_datasize m, data)
      else data ← channel_dispatch m data; read_loop fuel want m data
  end.

Definition channel_read_any (fuel : nat) (m0 : message) (ev : Z) (data : list Z) :=
  read_loop fuel (fun m => event m =? ev) m0 data.

Definition channel_read_from (fuel : nat) (m0 : message) (src ev : Z) (data : list Z) :=
  read_loop fuel (fun m => (event m =? ev) && (source m =? src)) m0 data.

Definition channel_wait_any (fuel : nat) (m0 : message) (data0 : list Z) (ev : Z) : M U Z :=
  '(r, _, _) ← channel_poll_any fuel ev m0 data0; mret r.

Definition channel_wait_from (fuel : nat) (m0 : message) (data0 : list Z) (src ev : Z) : M U Z :=
  '(r, _, _) ← channel_poll_from fuel src ev m0 data0; mret r.

Definition channel_bind (ev : Z) (f : option nat) : M U unit :=
  set_listener ev (fun l => Listener f (target l) (autoclose l)).

Definition channel_autoclose (ev : Z) (b : bool) : M U unit :=
  set_listener ev (fun l => Listener (callback l) (target l) b).

Definition channel_route (ev mode tgt src : Z) : M U unit :=
  let t := if mode =? EVENT_REDIRECT_TARGET then tgt
           else if mode =? EVENT_REDIRECT_SOURCE then src
           else CHANNEL_DEFAULT in
  set_listener ev (fun l => Listener (callback l) t (autoclose l)).
End channel.

(** ** Sending *)

Section sending.
Context {U : Type}.
Implicit Types s : proc U.

(** The outcomes left after the first acceptance. *)
Fixpoint accepted (l : list bool) : option (list bool) :=
  match l with
  | [] => None
  | true :: l => Some l
  | false :: l => accepted l
  end.

Definition with_places (k : sys) x :=
  Sys (picks k) x (walks k) (spawns k) (reads k) (writes k) (trace k).

(** The state after a message has been accepted. *)
Definition delivered s (rest : list bool) (r : request) : proc U :=
  with_kernel s (asked (with_places (kernel s) rest) r).

(** Where a message for [tgt] goes. *)
Definition resolve s (tgt ev : Z) : Z :=
  if tgt =? 0 then from_option target 0 (listeners s !! Z.to_nat ev) else tgt.

Lemma place_loop_spec fuel tgt ev count data s :
  count <= Z.of_nat (length data) -> (length (places (kernel s)) < fuel)%nat ->
  place_loop fuel tgt ev count data s =
    match accepted (places (kernel s)) with
    | Some rest => Ret tt (delivered s rest (Place tgt ev (take (Z.to_nat count) data)))
    | None => Blocked (with_kernel s (with_places (kernel s) []))
    end.
Proof.
  intros Hc. revert s. induction fuel as [|fuel IH]; intros s Hf; [lia|]. cbn [place_loop].
  unfold mbind, M_bind, call_place. destruct (Z.leb_spec count (Z.of_nat (length data))); [|lia].
  destruct s as [ls a k u]. destruct k as [pk pl wk sp rds wrs tr]. cbn in Hf |- *.
  destruct pl as [|[] pl]; cbn in Hf |- *; try done. rewrite IH by (cbn; lia). done.
Qed.

Lemma send_spec tgt ev count data s :
  0 <= ev < 256 -> length (listeners s) = 256%nat -> 0 <= count <= Z.of_nat (length data) ->
  send tgt ev count data s =
    if (MESSAGE_SIZE <? count) || (resolve s tgt ev =? 0) then Ret 0 s
    else match accepted (places (kernel s)) with
         | Some rest => Ret count (delivered s rest (Place (resolve s tgt ev) ev (take (Z.to_nat count) data)))
         | None => Blocked (with_kernel s (with_places (kernel s) []))
         end.
Proof.
  intros Hev Hl Hc. unfold send, resolve, CHANNEL_DEFAULT.
  destruct (Z.ltb_spec MESSAGE_SIZE count); [done|]. cbn [orb].
  destruct (lookup_lt_is_Some_2 (listeners s) (Z.to_nat ev)) as [l Hlk]; [lia|].
  unfold mbind, M_bind, mret, M_ret, listener_at, get, lift, mbind, M_bind.
  destruct (Z.ltb_spec ev 0); [lia|].
  destruct (tgt =? 0) eqn:Et; [rewrite Hlk; cbn [from_option]; destruct (target l =? 0); [done|]|rewrite Et];
    rewrite place_loop_spec by lia; by destruct (accepted (places (kernel s))).
Qed.

(** What sending the message [bytes] to [tgt] does: nothing when it is too long
    or there is no target; otherwise the kernel refuses it for some time, then
    takes it once, or refuses it for ever. *)
Definition sent s (tgt ev : Z) (bytes : list Z) : result U Z :=
  if (1536 <? Z.of_nat (length bytes)) || (tgt =? 0) then Ret 0 s
  else match accepted (places (kernel s)) with
       | Some rest => Ret (Z.of_nat (length bytes)) (delivered s rest (Place tgt ev bytes))
       | None => Blocked (with_kernel s (with_places (kernel s) []))
       end.

Lemma send_sent tgt ev count data s :
  0 <= ev < 256 -> length (listeners s) = 256%nat -> 0 <= count <= Z.of_nat (length data) ->
  send tgt ev count data s = sent s (resolve s tgt ev) ev (take (Z.to_nat count) data).
Proof.
  intros Hev Hl Hc. rewrite send_spec by done. unfold sent, MESSAGE_SIZE.
  rewrite length_take_le by lia. by rewrite Z2Nat.id by lia.
Qed.

(** A formatted message carries the text of its pieces, cut off at 1536 bytes. *)
Lemma send_tokens stack0 num0 tgt ev ts s :
  length stack0 = 1536%nat -> length num0 = 64%nat -> Forall token_ok ts ->
  Z.of_nat (length (ts ≫= fmt_of)) <= max32 ->
  let text := take 1536 (ts ≫= text_of) in
  send_formatted tgt ev
    (cstring_write_fmt num0 stack0 MESSAGE_SIZE ((ts ≫= fmt_of) ++ [0]) (ts ≫= args_of) 0) s =
  send tgt ev (Z.of_nat (length text)) (text ++ drop (length text) stack0) s.
Proof.
  intros Hst Hn Hts Hl text. unfold send_formatted, MESSAGE_SIZE.
  change 1536 with (Z.of_nat 1536) at 1. change 0 with (Z.of_nat 0) at 2.
  rewrite (write_fmt_tokens num0 stack0 1536 0 ts []) by (done || lia || (unfold max32; lia)).
  rewrite Nat.sub_0_r. fold text. unfold mbind, M_bind, lift. by rewrite splice_0.
Qed.
End sending.

(** ** Effects as lists of requests *)

Section emits.
Context {U : Type}.
Implicit Types s : proc U.

(** The state after the requests [rs], with [rest] the acceptances left. *)
Definition after s (rest : list bool) (rs : list request) : proc U :=
  let k := kernel s in
  with_kernel s (Sys (picks k) rest (walks k) (spawns k) (reads k) (writes k) (trace k ++ rs)).

(** When every message is accepted at once, [c] returns [a] and has made
    exactly the requests [rs]. *)
Definition emits {A} (c : M U A) (a : A) (rs : list request) : Prop := forall s rest,
  length (listeners s) = 256%nat -> places (kernel s) = replicate (length rs) true ++ rest ->
  c s = Ret a (after s rest rs).

Lemma emits_ret {A} (a : A) : emits (mret a) a [].
Proof.
  intros [ls act [] u] rest Hl Hp. cbn in Hp. subst. unfold after. cbn. by rewrite app_nil_r.
Qed.

Lemma emits_bind {A B} (c : M U A) (k : A -> M U B) a b rs1 rs2 :
  emits c a rs1 -> emits (k a) b rs2 -> emits (c ≫= k) b (rs1 ++ rs2).
Proof.
  intros Hc Hk s rest Hl Hp. unfold mbind, M_bind.
  rewrite length_app, replicate_add, <- app_assoc in Hp.
  rewrite (Hc s _ Hl Hp), (Hk _ rest) by done. unfold after. cbn. by rewrite app_assoc.
Qed.

Lemma emits_bind_r {A B} (c : M U A) (k : A -> M U B) a b rs :
  emits c a [] -> emits (k a) b rs -> emits (c ≫= k) b rs.
Proof. intros Hc Hk. exact (emits_bind c k a b [] rs Hc Hk). Qed.

Lemma emits_lift {A} (o : option A) a : o = Some a -> emits (lift o) a [].
Proof. intros ->. apply emits_ret. Qed.

Lemma emits_send tgt ev count data :
  0 <= ev < 256 -> tgt <> 0 -> 0 <= count <= 1536 -> count <= Z.of_nat (length data) ->
  emits (send tgt ev count data) count [Place tgt ev (take (Z.to_nat count) data)].
Proof.
  intros Hev Ht Hc Hd s rest Hl Hp. rewrite send_spec by (done || lia). unfold resolve, MESSAGE_SIZE.
  destruct (Z.eqb_spec tgt 0); [done|]. destruct (Z.eqb_spec tgt 0); [done|].
  destruct (Z.ltb_spec 1536 count); [lia|]. cbn [orb]. rewrite Hp. done.
Qed.

Lemma emits_tokens stack0 num0 tgt ev ts :
  length stack0 = 1536%nat -> length num0 = 64%nat -> Forall token_ok ts ->
  Z.of_nat (length (ts ≫= fmt_of)) <= max32 -> (length (ts ≫= text_of) <= 1536)%nat ->
  0 <= ev < 256 -> tgt <> 0 ->
  emits (send_formatted tgt ev
    (cstring_write_fmt num0 stack0 MESSAGE_SIZE ((ts ≫= fmt_of) ++ [0]) (ts ≫= args_of) 0))
    (Z.of_nat (length (ts ≫= text_of))) [Place tgt ev (ts ≫= text_of)].
Proof.
  intros Hst Hn Hts Hlf Hlt Hev Ht s rest Hl Hp.
  pose proof (send_tokens stack0 num0 tgt ev ts s Hst Hn Hts Hlf) as H. rewrite take_ge in H by done.
  etransitivity; [exact H|].
  set (t := ts ≫= text_of) in *.
  assert (0 <= Z.of_nat (length t) <= 1536) as Hc by lia.
  assert (Z.of_nat (length t) <= Z.of_nat (length (t ++ drop (length t) stack0))) as Hd
    by (rewrite length_app; lia).
  rewrite (emits_send tgt ev _ _ Hev Ht Hc Hd s rest Hl Hp). by rewrite Nat2Z.id, take_app_length.
Qed.
End emits.

(** ** What every operation preserves *)

Create HintDb good.

Section typing.
Context {U : Type}.
Implicit Types s : proc U.

(** What the kernel delivers fits the receive buffers. *)
Definition message_ok (x : option (message * list Z)) : Prop :=
  match x with
  | Some (m, payload) => 0 <= event m < 4294967296 /\ (length payload <= 1536)%nat
  | None => True
  end.

Definition proc_ok s : Prop :=
  length (listeners s) = 256%nat /\ Forall message_ok (picks (kernel s)).

Definition npicks s : nat := length (picks (kernel s)).

(** [c] keeps the process well formed, leaves no object, un-receives no message,
    and ([total]) does not run out of fuel. *)
Definition good {A} (total : bool) (c : M U A) (Q : A -> Prop) : Prop := forall s, proc_ok s ->
  match c s with
  | Ret a s' => proc_ok s' /\ (npicks s' <= npicks s)%nat /\ Q a
  | Blocked s' => proc_ok s'
  | Crash => False
  | NoFuel => total = false
  end.

Lemma good_ret {A} t (a : A) (Q : A -> Prop) : Q a -> good t (mret a) Q.
Proof. intros HQ s Hs. cbn. done. Qed.

Lemma good_bind {A B} t (c : M U A) (k : A -> M U B) (P : A -> Prop) (Q : B -> Prop) :
  good t c P -> (forall a, P a -> good t (k a) Q) -> good t (c ≫= k) Q.
Proof.
  intros Hc Hk s Hs. unfold mbind, M_bind. specialize (Hc s Hs).
  destruct (c s) as [a s1|s1| |]; [|done|done|done]. destruct Hc as (Hs1 & Hn & HP).
  specialize (Hk a HP s1 Hs1). destruct (k a s1) as [b s2|s2| |]; [|done|done|done].
  destruct Hk as (? & ? & ?). split_and!; [done|lia|done].
Qed.

Lemma good_weaken {A} t (c : M U A) (P Q : A -> Prop) :
  good t c P -> (forall a, P a -> Q a) -> good t c Q.
Proof.
  intros Hc HPQ s Hs. specialize (Hc s Hs). destruct (c s); naive_solver.
Qed.

Lemma good_get_then {B} t (k : proc U -> M U B) Q :
  (forall s, proc_ok s -> good t (k s) Q) -> good t (get ≫= k) Q.
Proof. intros Hk s Hs. exact (Hk s Hs s Hs). Qed.

Lemma good_lift {A} t (o : option A) (Q : A -> Prop) (a : A) :
  o = Some a -> Q a -> good t (lift o) Q.
Proof. intros -> HQ s Hs. cbn. done. Qed.

Lemma good_if {A} t (b : bool) (c1 c2 : M U A) Q :
  (b = true -> good t c1 Q) -> (b = false -> good t c2 Q) -> good t (if b then c1 else c2) Q.
Proof. destruct b; auto. Qed.

Lemma good_send t tgt ev count data :
  0 <= ev < 256 -> 0 <= count <= Z.of_nat (length data) ->
  good t (send tgt ev count data) (fun r => r = 0 \/ r = count).
Proof.
  intros Hev Hc s [Hl Hp]. rewrite send_spec by done.
  destruct ((MESSAGE_SIZE <? count) || _); [split_and!; [done|lia|by left]|].
  destruct (accepted _); [|done]. split_and!; [done|unfold npicks; cbn; lia|by right].
Qed.

Lemma good_listener_at t ev :
  0 <= ev < 256 -> good t (listener_at ev) (fun _ => True).
Proof.
  intros Hev s [Hl Hp]. unfold listener_at, mbind, M_bind, get, lift.
  destruct (Z.ltb_spec ev 0); [lia|].
  destruct (lookup_lt_is_Some_2 (listeners s) (Z.to_nat ev)) as [l ->]; [lia|]. done.
Qed.

Lemma good_set_listener t ev f :
  0 <= ev < 256 -> good t (set_listener ev f) (fun _ => True).
Proof.
  intros Hev s [Hl Hp]. unfold set_listener, listener_at, mbind, M_bind, get, lift, put.
  destruct (Z.ltb_spec ev 0); [lia|].
  destruct (lookup_lt_is_Some_2 (listeners s) (Z.to_nat ev)) as [l ->]; [lia|].
  split; [split; [cbn; by rewrite length_insert|done]|]. split; [unfold npicks; cbn; lia|done].
Qed.

Lemma good_set_active t b : good t (s ← get; put (with_active s b)) (fun _ => True).
Proof. intros s Hs. cbn. done. Qed.

Lemma good_close t : good t channel_close (fun _ => True).
Proof.
  unfold channel_close. eapply good_bind; [apply good_send; unfold EVENT_CLOSE; cbn; lia|].
  intros _ _. apply good_set_active.
Qed.

(** A message received by [channel_pick] is one fewer to receive. *)
Lemma pick_loop_spec fuel m data s :
  (npicks s < fuel)%nat -> proc_ok s -> length data = 1536%nat ->
  match pick_loop fuel m data s with
  | Ret (r, m', data') s' =>
      proc_ok s' /\ length data' = 1536%nat /\ listeners s' = listeners s /\ user s' = user s /\
      if active s then active s' = true /\ (npicks s' < npicks s)%nat /\ r = event m' /\ 0 <= event m' < 4294967296
      else s' = s /\ r = 0 /\ m' = m /\ data' = data
  | Blocked s' => proc_ok s'
  | _ => False
  end.
Proof.
  revert s data. induction fuel as [|fuel IH]; intros s data Hf Hs Hd; [lia|]. cbn [pick_loop].
  unfold mbind, M_bind, get. destruct (active s) eqn:Ha; [|cbn; rewrite ?Ha; by split_and!].
  unfold call_pick. destruct Hs as [Hl Hp]. unfold npicks in *.
  destruct (picks (kernel s)) as [|[[m' p]|] rest] eqn:Ek; [split; [done|by rewrite Ek]| |].
  - apply Forall_cons in Hp as [[Hm Hlen] Hrest]. destruct (Nat.leb_spec (length p) (length data)); [|lia].
    cbn. rewrite length_splice by lia. split_and!; try done; cbn [length]; lia.
  - apply Forall_cons in Hp as [_ Hrest]. cbn [Z.eqb].
    specialize (IH (with_kernel s (with_picks (kernel s) rest)) data). cbn in IH, Hf.
    specialize (IH ltac:(lia) (conj Hl Hrest) Hd). rewrite Ha in IH.
    destruct (pick_loop fuel m data _) as [[[r m'] d'] s'|s'| |]; try done.
    destruct IH as (? & ? & ? & ? & ? & ? & ? & ?). split_and!; try done; cbn [length]; lia.
Qed.

Lemma channel_pick_spec m data s :
  proc_ok s -> length data = 1536%nat ->
  match channel_pick m data s with
  | Ret (r, m', data') s' =>
      proc_ok s' /\ length data' = 1536%nat /\ listeners s' = listeners s /\ user s' = user s /\
      if active s then active s' = true /\ (npicks s' < npicks s)%nat /\ r = event m' /\ 0 <= event m' < 4294967296
      else s' = s /\ r = 0 /\ m' = m /\ data' = data
  | Blocked s' => proc_ok s'
  | _ => False
  end.
Proof. intros Hs Hd. apply pick_loop_spec; [unfold npicks; lia|done|done]. Qed.

Lemma good_pick t m data :
  length data = 1536%nat -> good t (channel_pick m data) (fun '(_, _, data') => length data' = 1536%nat).
Proof.
  intros Hd s Hs. pose proof (channel_pick_spec m data s Hs Hd) as H.
  destruct (channel_pick m data s) as [[[r m'] d'] s'|s'| |]; [|done|done|done].
  destruct H as (? & ? & _ & _ & H). split_and!; [done| |done].
  destruct (active s); [lia|by destruct H as [-> _]].
Qed.

Section handlers.
Context (invoke : nat -> Z -> list Z -> Z -> M U (list Z)) (t : bool).

(** What the loops expect of the callbacks. *)
Context (Hinvoke : forall f src data size, length data = 1536%nat ->
  good t (invoke f src data size) (fun data' => length data' = 1536%nat)).

Lemma good_dispatch m data :
  0 <= event m -> length data = 1536%nat ->
  good t (channel_dispatch invoke m data) (fun data' => length data' = 1536%nat).
Proof.
  intros Hm Hd. unfold channel_dispatch, CHANNEL_LISTENERS.
  apply good_if; intros Hev; [apply Z.ltb_lt in Hev|by apply good_ret].
  eapply good_bind; [apply good_listener_at; lia|]. intros l _.
  apply (good_bind _ _ _ (fun data' => length data' = 1536%nat)).
  { destruct (callback l); [by apply Hinvoke|by apply good_ret]. }
  intros data' Hd'. eapply good_bind; [apply good_listener_at; lia|]. intros l' _.
  apply good_if; intros _; [|by apply good_ret].
  eapply good_bind; [apply good_close|]. intros _ _. by apply good_ret.
Qed.

Lemma good_process m data :
  length data = 1536%nat -> good t (channel_process invoke m data) (fun _ => True).
Proof.
  intros Hd s Hs. unfold channel_process, mbind at 1, M_bind at 1.
  pose proof (channel_pick_spec m data s Hs Hd) as H.
  destruct (channel_pick m data s) as [[[r m'] d'] s'|s'| |]; [|done|done|done].
  destruct H as (Hs' & Hd' & _ & _ & H). destruct (Z.eqb_spec r 0).
  - cbn. split_and!; [done| |done]. destruct (active s); [lia|by destruct H as [-> _]].
  - destruct (active s); [|lia]. destruct H as (_ & Hlt & -> & Hm).
    pose proof (good_bind t _ (fun _ => mret (event m')) _ (fun _ => True)
      (good_dispatch m' d' (proj1 Hm) Hd') (fun _ _ => good_ret _ _ _ I) s' Hs') as Hg.
    destruct ((channel_dispatch invoke m' d' ≫= _) s') as [r s2|s2| |]; [|done|done|done].
    destruct Hg as (? & ? & ?). split_and!; [done|lia|done].
Qed.
End handlers.
End typing.

(** ** Properties *)

(** What the operations preserve.  For events below 256 and callbacks that do so
    themselves, sending, redirecting, dispatching, processing and picking a
    message, and changing the listener table, leave no object, keep the table of
    256 listeners and leave what the kernel still has to deliver well formed;
    none of them runs out of fuel, so each returns or waits for the kernel. *)
Theorem channel_operations_typed {U : Type} (invoke : nat -> Z -> list Z -> Z -> M U (list Z))
    (Hinvoke : forall f src data size, length data = 1536%nat ->
      good true (invoke f src data size) (fun data' => length data' = 1536%nat))
    (ev tgt : Z) (Hev : 0 <= ev < 256) (m : message) (data : list Z) (Hm : 0 <= event m)
    (Hdata : length data = 1536%nat) (count : Z) (Hcount : 0 <= count <= 1536) :
  good true (channel_send_buffer tgt ev count data : M U Z) (fun r => r = 0 \/ r = count) /\
  good true (channel_send tgt ev : M U Z) (fun r => r = 0) /\
  good true (channel_listen tgt ev : M U Z) (fun r => r = 0 \/ r = 12) /\
  (forall c, good true (channel_forward tgt ev c : M U Z) (fun r => r = 0 \/ r = 12)) /\
  good true (channel_dispatch invoke m data) (fun data' => length data' = 1536%nat) /\
  good true (channel_process invoke m data) (fun _ => True) /\
  good true (channel_pick m data : M U _) (fun '(_, _, data') => length data' = 1536%nat) /\
  (forall f, good true (channel_bind ev f : M U unit) (fun _ => True)) /\
  (forall b, good true (channel_autoclose ev b : M U unit) (fun _ => True)) /\
  (forall mode src, good true (channel_route ev mode tgt src : M U unit) (fun _ => True)) /\
  good true (channel_open : M U unit) (fun _ => True) /\
  good true (channel_close : M U unit) (fun _ => True).
Proof.
  split_and!.
  - apply good_send; lia.
  - eapply good_weaken; [apply good_send; cbn; lia|]. intros a [?|?]; lia.
  - apply good_send; unfold EVENT_REDIRECT; cbn; lia.
  - intros c. apply good_send; unfold EVENT_REDIRECT; cbn; lia.
  - by apply good_dispatch.
  - by apply good_process.
  - by apply good_pick.
  - intros f. by apply good_set_listener.
  - intros b. by apply good_set_listener.
  - intros mode src. by apply good_set_listener.
  - apply good_set_active.
  - apply good_close.
Qed.

(** A process with one listener that counts its messages, and a kernel that
    refuses one send. *)
Definition sample_listeners : list listener :=
  <[7%nat := Listener (Some 1%nat) 5 false]> (<[2%nat := Listener None 0 true]>
    (replicate 256 (Listener None 0 false))).

Definition sample_invoke (f : nat) (src : Z) (data : list Z) (size : Z) : M nat (list Z) :=
  s ← get; _ ← put (with_user s (S (user s))); mret data.

Definition sample_message (ev : Z) : option (message * list Z) := Some (message_init ev 9 1, [ev]).

Definition sample_proc (pk : list (option (message * list Z))) : proc nat :=
  Proc sample_listeners true (Sys pk [false; true] [] [] [] [] []) 0%nat.

Lemma sample_invoke_good f src data size :
  length data = 1536%nat ->
  good true (sample_invoke f src data size) (fun data' => length data' = 1536%nat).
Proof. intros Hd s [Hl Hp]. cbn. done. Qed.

Lemma channel_operations_typed_witness :
  good true (channel_dispatch sample_invoke (message_init 7 9 1) (replicate 1536 0))
    (fun data' => length data' = 1536%nat).
Proof.
  apply (channel_operations_typed sample_invoke sample_invoke_good 7 0 ltac:(lia)
    (message_init 7 9 1) (replicate 1536 0) ltac:(cbn; lia) ltac:(apply length_replicate) 0 ltac:(lia)).
Defined.

(** [dispatched s data xs s' data']: from [s], the outcomes [xs] of [call_pick]
    are taken in order; each message is dispatched before the next is taken,
    and leaves the process active and the rest of the queue alone. *)
Inductive dispatched {U : Type} (invoke : nat -> Z -> list Z -> Z -> M U (list Z)) :
  proc U -> list Z -> list (option (message * list Z)) -> proc U -> list Z -> Prop :=
| dispatched_nil s data : dispatched invoke s data [] s data
| dispatched_idle s data rest xs s' data' :
    active s = true -> picks (kernel s) = None :: rest ->
    dispatched invoke (with_kernel s (with_picks (kernel s) rest)) data xs s' data' ->
    dispatched invoke s data (None :: xs) s' data'
| dispatched_message s data m payload rest s1 data1 xs s' data' :
    active s = true -> picks (kernel s) = Some (m, payload) :: rest ->
    (length payload <= length data)%nat ->
    channel_dispatch invoke m (splice data 0 payload)
      (with_kernel s (with_picks (kernel s) rest)) = Ret data1 s1 ->
    picks (kernel s1) = rest ->
    dispatched invoke s1 data1 xs s' data' ->
    dispatched invoke s data (Some (m, payload) :: xs) s' data'.

Definition skipped (want : message -> bool) (x : option (message * list Z)) : Prop :=
  match x with Some (m, _) => event m <> 0 /\ want m = false | None => True end.

Lemma pick_inactive {U} (s : proc U) m data : active s = false -> channel_pick m data s = Ret (0, m, data) s.
Proof.
  intros Ha. unfold channel_pick, mbind, M_bind, get. cbn [pick_loop].
  unfold mbind, M_bind, get. by rewrite Ha.
Qed.

Lemma pick_idle {U} (s : proc U) m data rest :
  active s = true -> picks (kernel s) = None :: rest ->
  channel_pick m data s = channel_pick m data (with_kernel s (with_picks (kernel s) rest)).
Proof.
  intros Ha Hp. unfold channel_pick, mbind, M_bind, get. rewrite Hp. cbn [length pick_loop].
  unfold mbind, M_bind, get, call_pick. rewrite Ha. by rewrite Hp.
Qed.

Lemma pick_message {U} (s : proc U) m data m' payload rest :
  active s = true -> picks (kernel s) = Some (m', payload) :: rest ->
  (length payload <= length data)%nat ->
  channel_pick m data s =
    Ret (event m', m', splice data 0 payload) (with_kernel s (with_picks (kernel s) rest)).
Proof.
  intros Ha Hp Hl. unfold channel_pick, mbind, M_bind, get. rewrite Hp. cbn [length pick_loop].
  unfold mbind, M_bind, get, call_pick. rewrite Ha, Hp.
  destruct (Nat.leb_spec (length payload) (length data)); [done|lia].
Qed.

(** A message that is received and dispatched. *)
Lemma process_message {U} (invoke : nat -> Z -> list Z -> Z -> M U (list Z)) (s : proc U) m0 data m payload rest :
  active s = true -> picks (kernel s) = Some (m, payload) :: rest ->
  (length payload <= length data)%nat -> event m <> 0 ->
  channel_process invoke m0 data s =
    (channel_dispatch invoke m (splice data 0 payload) ≫= fun _ => mret (event m))
      (with_kernel s (with_picks (kernel s) rest)).
Proof.
  intros Ha Hp Hl Hm. unfold channel_process. unfold mbind at 1, M_bind at 1.
  rewrite (pick_message s m0 data m payload rest) by done.
  destruct (Z.eqb_spec (event m) 0); [done|]. done.
Qed.

Lemma listener_at_spec {U} (s : proc U) ev l :
  0 <= ev -> listeners s !! Z.to_nat ev = Some l -> listener_at ev s = Ret l s.
Proof.
  intros He Hl. unfold listener_at, mbind, M_bind, get, lift.
  destruct (Z.ltb_spec ev 0); [lia|]. by rewrite Hl.
Qed.

Lemma set_listener_spec {U} (s : proc U) ev f l :
  0 <= ev -> listeners s !! Z.to_nat ev = Some l ->
  set_listener ev f s = Ret tt (with_listeners s (<[Z.to_nat ev := f l]> (listeners s))).
Proof.
  intros He Hl. unfold set_listener, mbind, M_bind, get. by rewrite (listener_at_spec s ev l).
Qed.

(** Dispatching to a callback that leaves the event open. *)
Lemma dispatch_callback {U} (invoke : nat -> Z -> list Z -> Z -> M U (list Z)) (s s1 : proc U) m data d1 l l1 f :
  0 <= event m < 256 -> listeners s !! Z.to_nat (event m) = Some l -> callback l = Some f ->
  invoke f (source m) data (message_datasize m) s = Ret d1 s1 ->
  listeners s1 !! Z.to_nat (event m) = Some l1 -> autoclose l1 = false ->
  channel_dispatch invoke m data s = Ret d1 s1.
Proof.
  intros He Hl Hf Hi Hl1 Hc. unfold channel_dispatch, CHANNEL_LISTENERS.
  destruct (Z.ltb_spec (event m) 256); [|lia]. unfold mbind, M_bind.
  rewrite (listener_at_spec s _ l), Hf by (done || lia). rewrite Hi.
  rewrite (listener_at_spec s1 _ l1) by (done || lia). by rewrite Hc.
Qed.

(** ** The messages that come in *)

(** The kernel has no message for [k] calls, then delivers [m]. *)
Definition incoming {U} (s : proc U) (k : nat) (m : message) (payload : list Z)
    (rest : list (option (message * list Z))) : Prop :=
  active s = true /\ picks (kernel s) = replicate k None ++ Some (m, payload) :: rest.

(** The kernel has no message any more. *)
Definition idle {U} (s : proc U) (k : nat) : Prop :=
  active s = true /\ picks (kernel s) = replicate k None.

(** The process after the kernel has delivered a message. *)
Definition received {U} (s : proc U) (rest : list (option (message * list Z))) : proc U :=
  with_kernel s (with_picks (kernel s) rest).

Lemma incoming_or_idle {U} (s : proc U) : active s = true ->
  (exists k m payload rest, incoming s k m payload rest) \/ (exists k, idle s k).
Proof.
  intros Ha. unfold incoming, idle. induction (picks (kernel s)) as [|[[m p]|] l IH].
  - right. by exists 0%nat.
  - left. by exists 0%nat, m, p, l.
  - destruct IH as [(k & m & p & rest & _ & ->)|(k & _ & ->)].
    + left. by exists (S k), m, p, rest.
    + right. by exists (S k).
Qed.

Lemma pick_incoming {U} (s : proc U) m0 data k m payload rest :
  incoming s k m payload rest -> (length payload <= length data)%nat ->
  channel_pick m0 data s = Ret (event m, m, splice data 0 payload) (received s rest).
Proof.
  revert s. induction k as [|k IH]; intros s [Ha Hp] Hl; [by apply pick_message|].
  rewrite (pick_idle s m0 data _ Ha Hp).
  exact (IH (received s (replicate k None ++ Some (m, payload) :: rest)) (conj Ha eq_refl) Hl).
Qed.

Lemma pick_waits {U} (s : proc U) m0 data k :
  idle s k -> channel_pick m0 data s = Blocked (received s []).
Proof.
  revert s. induction k as [|k IH]; intros s [Ha Hp].
  - unfold channel_pick, mbind, M_bind, get. cbn [pick_loop]. unfold mbind, M_bind, get, call_pick, received.
    rewrite Ha, Hp. destruct s as [ls a [] u]. cbn in *. by subst.
  - rewrite (pick_idle s m0 data _ Ha Hp). exact (IH (received s (replicate k None)) (conj Ha eq_refl)).
Qed.

Lemma incoming_ok {U} (s : proc U) k m payload rest :
  proc_ok s -> incoming s k m payload rest ->
  proc_ok (received s rest) /\ (npicks (received s rest) < npicks s)%nat /\
  message_ok (Some (m, payload)).
Proof.
  intros [Hl Hp] [_ Hk]. unfold proc_ok, npicks. rewrite Hk in *. cbn [received with_kernel listeners kernel picks with_picks].
  apply Forall_app in Hp as [_ Hp]. apply Forall_cons in Hp as [Hm Hp].
  split_and!; [done|done|rewrite length_app; cbn; lia|done].
Qed.

(** [channel_process] after the message has been received. *)
Lemma process_cases {U} (invoke : nat -> Z -> list Z -> Z -> M U (list Z)) (s s1 : proc U) m0 data m data1 ev l :
  channel_pick m0 data s = Ret (event m, m, data1) s1 -> 0 <= event m -> 0 <= ev < 256 ->
  listeners s1 !! Z.to_nat ev = Some l ->
  (event m = 0 \/ 256 <= event m -> channel_process invoke m0 data s = Ret (event m) s1) /\
  (forall f d s2 l2, event m = ev -> ev <> 0 -> callback l = Some f ->
     invoke f (source m) data1 (message_datasize m) s1 = Ret d s2 ->
     listeners s2 !! Z.to_nat ev = Some l2 ->
     channel_process invoke m0 data s =
       if autoclose l2 then (channel_close ≫= fun _ => mret ev) s2 else Ret ev s2) /\
  (event m = ev -> ev <> 0 -> callback l = None ->
     channel_process invoke m0 data s =
       if autoclose l then (channel_close ≫= fun _ => mret ev) s1 else Ret ev s1).
Proof.
  intros Hpick Hm Hev Hl. unfold channel_process, channel_dispatch, CHANNEL_LISTENERS, mbind, M_bind.
  rewrite Hpick. destruct (Z.eqb_spec (event m) 0) as [E|E].
  { split_and!; [by rewrite E|intros; lia|intros; lia]. }
  destruct (Z.ltb_spec (event m) 256).
  - split; [intros; lia|]. split.
    + intros f d s2 l2 <- _ Hf Hi Hl2. rewrite (listener_at_spec s1 _ l), Hf by done.
      rewrite Hi. rewrite (listener_at_spec s2 _ l2) by done.
      destruct (autoclose l2); [|done]. by destruct (channel_close s2).
    + intros <- _ Hf. rewrite (listener_at_spec s1 _ l), Hf by done. cbn [mret M_ret].
      unfold mret, M_ret. rewrite (listener_at_spec s1 _ l) by done.
      destruct (autoclose l); [|done]. by destruct (channel_close s1).
  - split_and!; [done|intros; lia|intros; lia].
Qed.

(** C19. What the operations on channels that are not loops over messages do to a
    process with 256 listeners, for events below 256.  [channel_send] and [channel_send_buffer]
    hand the kernel exactly one message with the given bytes and return their
    number, or return 0 without a call when they are more than 1536 or there is
    no target; the target 0 stands for the target of the event's listener.
    [channel_listen] and [channel_forward] send the redirection for the event:
    to the sender, or to the given channel.  [channel_bind],
    [channel_autoclose] and [channel_route] change the callback, the flag or the
    target of the event's listener and nothing else, the last by its mode;
    [channel_open] and [channel_close] set and clear the flag of the process,
    the latter after the close event.  [channel_pick] receives the next message
    or returns 0 when the process is closed, and [channel_process] dispatches it:
    to the callback of its event, closing the process afterwards when the
    listener says so then, and to nobody for event 0 and from event 256 on.  A send waits when
    the kernel accepts nothing any more, a pick when it delivers nothing.  (The
    loops [channel_poll_any] and [channel_poll_from] are the next theorem's;
    [channel_read_any] and [channel_read_from] need not return, and the formatted
    sends pass the text they format to the same function as
    [channel_send_buffer].) *)
Theorem channel_operations_effect {U : Type} (invoke : nat -> Z -> list Z -> Z -> M U (list Z))
    (s : proc U) (ev tgt : Z) (l : listener) (m0 : message) (data : list Z)
    (Hlisteners : length (listeners s) = 256%nat) (Hev : 0 <= ev < 256)
    (Hl : listeners s !! Z.to_nat ev = Some l) (Hdata : length data = 1536%nat) :
  channel_send tgt ev s = sent s (if tgt =? 0 then target l else tgt) ev [] /\
  (forall bytes junk,
     channel_send_buffer tgt ev (Z.of_nat (length bytes)) (bytes ++ junk) s =
       sent s (if tgt =? 0 then target l else tgt) ev bytes) /\
  channel_listen tgt ev s = sent s (resolve s tgt 4) 4 (le32 ev ++ le32 2 ++ le32 0) /\
  (forall c, channel_forward tgt ev c s = sent s (resolve s tgt 4) 4 (le32 ev ++ le32 1 ++ le32 c)) /\
  (forall f, channel_bind ev f s = Ret tt
     (with_listeners s (<[Z.to_nat ev := Listener f (target l) (autoclose l)]> (listeners s)))) /\
  (forall b, channel_autoclose ev b s = Ret tt
     (with_listeners s (<[Z.to_nat ev := Listener (callback l) (target l) b]> (listeners s)))) /\
  (forall mode src t, mode = 1 /\ t = tgt \/ mode = 2 /\ t = src \/ mode <> 1 /\ mode <> 2 /\ t = 0 ->
     channel_route ev mode tgt src s = Ret tt
       (with_listeners s (<[Z.to_nat ev := Listener (callback l) t (autoclose l)]> (listeners s)))) /\
  channel_open s = Ret tt (with_active s true) /\
  channel_close s = match sent s (resolve s 0 3) 3 [] with
                    | Ret _ s' => Ret tt (with_active s' false)
                    | Blocked s' => Blocked s'
                    | _ => Crash
                    end /\
  (active s = false ->
     channel_pick m0 data s = Ret (0, m0, data) s /\ channel_process invoke m0 data s = Ret 0 s) /\
  (forall k, idle s k ->
     channel_pick m0 data s = Blocked (received s []) /\
     channel_process invoke m0 data s = Blocked (received s [])) /\
  (forall k m payload rest, incoming s k m payload rest -> (length payload <= 1536)%nat -> 0 <= event m ->
     let s1 := received s rest in
     let data1 := splice data 0 payload in
     channel_pick m0 data s = Ret (event m, m, data1) s1 /\
     (event m = 0 \/ 256 <= event m -> channel_process invoke m0 data s = Ret (event m) s1) /\
     (forall f d s2 l2, event m = ev -> ev <> 0 -> callback l = Some f ->
        invoke f (source m) data1 (message_datasize m) s1 = Ret d s2 ->
        listeners s2 !! Z.to_nat ev = Some l2 ->
        channel_process invoke m0 data s =
          if autoclose l2 then (channel_close ≫= fun _ => mret ev) s2 else Ret ev s2) /\
     (event m = ev -> ev <> 0 -> callback l = None ->
        channel_process invoke m0 data s =
          if autoclose l then (channel_close ≫= fun _ => mret ev) s1 else Ret ev s1)).
Proof.
  assert (forall t, resolve s t ev = if t =? 0 then target l else t) as Hr
    by (intros t; unfold resolve; by rewrite Hl).
  split_and!.
  - unfold channel_send. rewrite send_sent, Hr by (done || (cbn; lia)). done.
  - intros bytes junk. unfold channel_send_buffer.
    rewrite send_sent, Hr by (done || (rewrite length_app; lia)).
    by rewrite Nat2Z.id, take_app_length.
  - apply send_sent; [unfold EVENT_REDIRECT; lia|done|cbn; lia].
  - intros c. apply send_sent; [unfold EVENT_REDIRECT; lia|done|cbn; lia].
  - intros f. unfold channel_bind. by rewrite (set_listener_spec s ev _ l) by (done || lia).
  - intros b. unfold channel_autoclose. by rewrite (set_listener_spec s ev _ l) by (done || lia).
  - intros mode src t Ht. unfold channel_route, EVENT_REDIRECT_TARGET, EVENT_REDIRECT_SOURCE, CHANNEL_DEFAULT.
    rewrite (set_listener_spec s ev _ l) by (done || lia).
    destruct (Z.eqb_spec mode 1), (Z.eqb_spec mode 2); do 4 f_equal; lia.
  - done.
  - unfold channel_close, mbind, M_bind, CHANNEL_DEFAULT, EVENT_CLOSE.
    rewrite send_sent by (done || (cbn; lia)). cbn [take Z.to_nat].
    unfold sent. destruct (_ || _); [done|]. by destruct (accepted _).
  - intros Ha. split; [by apply pick_inactive|].
    unfold channel_process, mbind, M_bind. by rewrite pick_inactive.
  - intros k Hi. split; [by apply (pick_waits s m0 data k)|].
    unfold channel_process, mbind, M_bind. by rewrite (pick_waits s m0 data k).
  - intros k m payload rest Hin Hlen Hm s1 data1.
    assert (channel_pick m0 data s = Ret (event m, m, data1) s1) as Hpick
      by (apply (pick_incoming s m0 data k); [done|lia]).
    split; [done|]. by apply process_cases.
Qed.

Lemma channel_operations_effect_witness :
  let s := sample_proc [None; sample_message 7] in
  channel_send_buffer 0 7 3 ([1; 2; 3] ++ [4]) s = sent s 5 7 [1; 2; 3] /\
  sent s 5 7 [1; 2; 3] = Ret 3 (delivered s [] (Place 5 7 [1; 2; 3])) /\
  channel_route 7 2 12 9 s = Ret tt
    (with_listeners s (<[7%nat := Listener (Some 1%nat) 9 false]> (listeners s))) /\
  channel_process sample_invoke (Message 0 0 0) (replicate 1536 0) s =
    Ret 7 (with_user (received s []) 1%nat).
Proof.
  intros s.
  destruct (channel_operations_effect sample_invoke s 7 0 (Listener (Some 1%nat) 5 false)
    (Message 0 0 0) (replicate 1536 0) eq_refl ltac:(lia) eq_refl ltac:(apply length_replicate))
    as (_ & Hb & _).
  destruct (channel_operations_effect sample_invoke s 7 12 (Listener (Some 1%nat) 5 false)
    (Message 0 0 0) (replicate 1536 0) eq_refl ltac:(lia) eq_refl ltac:(apply length_replicate))
    as (_ & _ & _ & _ & _ & _ & Hr & _ & _ & _ & _ & Hin).
  split; [exact (Hb [1; 2; 3] [4])|]. split; [reflexivity|]. split; [apply Hr; lia|].
  destruct (Hin 1%nat (message_init 7 9 1) [7] []) as (_ & _ & Hp & _).
  - split; reflexivity.
  - cbn. lia.
  - cbn. lia.
  - exact (Hp 1%nat _ _ (Listener (Some 1%nat) 5 false) eq_refl ltac:(lia) eq_refl eq_refl eq_refl).
Defined.

(** A waiting loop serves the process in order: [channel_poll_any] dispatches
    every message that arrives before the first one with the event waited for,
    each exactly once and before the next is received, then stores that message
    and its data and returns the event; later messages stay in the queue.
    The loop needs one turn per message. *)
Theorem channel_poll_any_first {U : Type} (invoke : nat -> Z -> list Z -> Z -> M U (list Z))
    (s s' : proc U) (data data' : list Z) (xs rest : list (option (message * list Z)))
    (m0 m : message) (payload : list Z) (ev : Z) (fuel : nat)
    (Hserved : dispatched invoke s data xs s' data')
    (Hskip : Forall (skipped (fun m => event m =? ev)) xs)
    (Hactive : active s' = true) (Hnext : picks (kernel s') = Some (m, payload) :: rest)
    (Hroom : (length payload <= length data')%nat)
    (Hm : event m = ev) (Hev : ev <> 0) (Hfuel : (length xs < fuel)%nat) :
  channel_poll_any invoke fuel ev m0 data s =
    Ret (ev, m, splice data' 0 payload) (with_kernel s' (with_picks (kernel s') rest)).
Proof.
  unfold channel_poll_any. revert m0 fuel Hfuel Hskip Hactive Hnext Hroom.
  induction Hserved as [s data|s data rest' xs s' data' Ha Hp Hd IH
    |s data m1 p1 rest' s1 data1 xs s' data' Ha Hp Hl1 Hdis Hpk Hd IH];
    intros m0 fuel Hfuel Hskip Hactive Hnext Hroom; (destruct fuel as [|fuel]; [lia|]).
  - cbn [poll_loop]. unfold mbind, M_bind.
    rewrite (pick_message s m0 data m payload rest) by done. rewrite Hm.
    destruct (Z.eqb_spec ev 0); [done|]. by rewrite Z.eqb_refl.
  - apply Forall_cons in Hskip as [_ Hskip]. cbn [length] in Hfuel.
    rewrite <- (IH m0 (S fuel)) by (done || lia).
    cbn [poll_loop]. unfold mbind at 1 3, M_bind at 1 3. by rewrite (pick_idle s m0 data rest').
  - apply Forall_cons in Hskip as [[Hm1 Hw] Hskip]. cbn [length] in Hfuel. cbn [poll_loop].
    unfold mbind at 1, M_bind at 1. rewrite (pick_message s m0 data m1 p1 rest') by done.
    destruct (Z.eqb_spec (event m1) 0); [done|]. rewrite Hw. unfold mbind, M_bind. rewrite Hdis.
    apply IH; (done || lia).
Qed.

Lemma channel_poll_any_first_witness :
  channel_poll_any sample_invoke 3 8 (Message 0 0 0) (replicate 4 0)
    (sample_proc [sample_message 7; None; sample_message 7; sample_message 8; sample_message 7]) =
  Ret (8, message_init 8 9 1, [8; 0; 0; 0])
    (Proc sample_listeners true (Sys [sample_message 7] [false; true] [] [] [] [] []) 2%nat).
Proof.
  pose proof (channel_poll_any_first sample_invoke
    (sample_proc [sample_message 7; None; sample_message 7; sample_message 8; sample_message 7])
    (Proc sample_listeners true
       (Sys [sample_message 8; sample_message 7] [false; true] [] [] [] [] []) 2%nat)
    (replicate 4 0) [7; 0; 0; 0] [sample_message 7; None; sample_message 7] [sample_message 7]
    (Message 0 0 0) (message_init 8 9 1) [8] 8 4) as H.
  etransitivity; [|apply H]; try reflexivity; try lia.
  - eapply dispatched_message; [reflexivity|reflexivity|cbn; lia|vm_compute; reflexivity|reflexivity|].
    eapply dispatched_idle; [reflexivity|reflexivity|].
    eapply dispatched_message; [reflexivity|reflexivity|cbn; lia|vm_compute; reflexivity|reflexivity|].
    apply dispatched_nil.
  - repeat constructor; cbn; lia.
  - cbn. lia.
  - cbn. lia.
Defined.

(** ** Waiting for an event *)

Lemma List_last_cons {A} (x y : A) l : List.last (x :: l) y = List.last l x.
Proof.
  revert x y. induction l as [|z l IH]; intros x y; [done|].
  change (List.last (x :: z :: l) y) with (List.last (z :: l) y). by rewrite (IH z y), (IH z x).
Qed.

Section waiting.
Context {U : Type} (invoke : nat -> Z -> list Z -> Z -> M U (list Z)).
Context (want : message -> bool).

(** [serves s data ms s' data']: the messages [ms], none of them wanted, come in
    one after the other, and each is dispatched before the next is received. *)
Inductive serves : proc U -> list Z -> list message -> proc U -> list Z -> Prop :=
| serves_nil s data : serves s data [] s data
| serves_message s data k m payload rest data1 s1 ms s' data' :
    incoming s k m payload rest -> event m <> 0 -> want m = false ->
    channel_dispatch invoke m (splice data 0 payload) (received s rest) = Ret data1 s1 ->
    serves s1 data1 ms s' data' ->
    serves s data (m :: ms) s' data'.

(** How waiting ends, with the last message [m0] in the caller's structure. *)
Inductive wait_ends (m0 : message) (s : proc U) (data : list Z) : result U (Z * message * list Z) -> Prop :=
| ends_found k m payload rest :
    incoming s k m payload rest -> event m <> 0 -> want m = true ->
    wait_ends m0 s data (Ret (event m, m, splice data 0 payload) (received s rest))
| ends_closed :
    active s = false -> wait_ends m0 s data (Ret (0, m0, data) s)
| ends_null_event k m payload rest :
    incoming s k m payload rest -> event m = 0 ->
    wait_ends m0 s data (Ret (0, m, splice data 0 payload) (received s rest))
| ends_idle k :
    idle s k -> wait_ends m0 s data (Blocked (received s []))
| ends_in_handler k m payload rest s' :
    incoming s k m payload rest -> event m <> 0 -> want m = false ->
    channel_dispatch invoke m (splice data 0 payload) (received s rest) = Blocked s' ->
    wait_ends m0 s data (Blocked s').

Context (Hinvoke : forall f src data size, length data = 1536%nat ->
  good true (invoke f src data size) (fun data' => length data' = 1536%nat)).

Lemma poll_loop_serves fuel m0 data s :
  proc_ok s -> length data = 1536%nat -> (npicks s < fuel)%nat ->
  exists ms s' data', serves s data ms s' data' /\ proc_ok s' /\
    wait_ends (List.last ms m0) s' data' (poll_loop invoke fuel want m0 data s).
Proof.
  revert m0 data s. induction fuel as [|fuel IH]; intros m0 data s Hs Hd Hf; [lia|].
  cbn [poll_loop]. unfold mbind at 1, M_bind at 1.
  destruct (active s) eqn:Ha.
  2: { exists [], s, data. split; [apply serves_nil|]. split; [done|].
       rewrite pick_inactive by done. by apply ends_closed. }
  destruct (incoming_or_idle s Ha) as [(k & m & payload & rest & Hin)|[k Hk]].
  2: { exists [], s, data. split; [apply serves_nil|]. split; [done|].
       rewrite (pick_waits s m0 data k Hk). by apply (ends_idle _ _ _ k). }
  destruct (incoming_ok s k m payload rest Hs Hin) as (Hs1 & Hn1 & Hm & Hp).
  rewrite (pick_incoming s m0 data k m payload rest Hin) by lia.
  destruct (Z.eqb_spec (event m) 0) as [E|E].
  { exists [], s, data. split; [apply serves_nil|]. split; [done|]. by apply (ends_null_event _ _ _ k m payload rest). }
  destruct (want m) eqn:Ew.
  { exists [], s, data. split; [apply serves_nil|]. split; [done|]. by apply (ends_found _ _ _ k m payload rest). }
  unfold mbind, M_bind.
  pose proof (good_dispatch invoke true Hinvoke m (splice data 0 payload) (proj1 Hm)) as Hg.
  rewrite length_splice in Hg by lia. specialize (Hg Hd (received s rest) Hs1).
  destruct (channel_dispatch invoke m (splice data 0 payload) (received s rest))
    as [d2 s2|s2| |] eqn:Edis; [|clear Hg|done|done].
  - destruct Hg as (Hs2 & Hn2 & Hd2). destruct (IH m d2 s2 Hs2 Hd2) as (ms & s' & d' & Hserve & Hs' & He); [lia|].
    exists (m :: ms), s', d'. split; [by eapply serves_message|]. split; [done|].
    rewrite List_last_cons. exact He.
  - exists [], s, data. split; [apply serves_nil|]. split; [done|]. by apply (ends_in_handler _ _ _ k m payload rest).
Qed.
End waiting.

(** C20. Waiting for an event.  With one turn per outcome of [call_pick] still to
    come, 256 listeners, messages that fit the buffer of 1536 bytes and callbacks
    that keep the process so and end, [channel_poll_from] and
    [channel_poll_any] dispatch the messages that are not waited for, each
    before the next is received, and end in one of five ways: they return the
    event waited for with its message (for [channel_poll_from] also from the
    source waited for); they return 0 with the process closed; they return 0
    because a message with event 0 arrived; they wait in [call_pick] with
    nothing more to come; or they wait in a callback, or in the close event that
    the dispatcher sends.  They never leave an object. *)
Theorem channel_poll_from_terminates {U : Type} (invoke : nat -> Z -> list Z -> Z -> M U (list Z))
    (Hinvoke : forall f src data size, length data = 1536%nat ->
      good true (invoke f src data size) (fun data' => length data' = 1536%nat))
    (s : proc U) (m0 : message) (data : list Z) (src ev : Z) (fuel : nat)
    (Hs : proc_ok s) (Hdata : length data = 1536%nat) (Hfuel : (npicks s < fuel)%nat) :
  let from := fun m => (event m =? ev) && (source m =? src) in
  let any := fun m => event m =? ev in
  (exists ms s' data', serves invoke from s data ms s' data' /\ proc_ok s' /\
     wait_ends invoke from (List.last ms m0) s' data' (channel_poll_from invoke fuel src ev m0 data s)) /\
  (exists ms s' data', serves invoke any s data ms s' data' /\ proc_ok s' /\
     wait_ends invoke any (List.last ms m0) s' data' (channel_poll_any invoke fuel ev m0 data s)).
Proof. intros from any. split; by apply poll_loop_serves. Qed.

Lemma channel_poll_from_terminates_witness :
  let s := sample_proc [sample_message 7; None; sample_message 8] in
  let from := fun m => (event m =? 8) && (source m =? 9) in
  exists ms s' data', serves sample_invoke from s (replicate 1536 0) ms s' data' /\ proc_ok s' /\
    wait_ends sample_invoke from (List.last ms (Message 0 0 0)) s' data'
      (channel_poll_from sample_invoke 4 9 8 (Message 0 0 0) (replicate 1536 0) s).
Proof.
  apply (channel_poll_from_terminates sample_invoke sample_invoke_good
    (sample_proc [sample_message 7; None; sample_message 8]) (Message 0 0 0) (replicate 1536 0) 9 8 4).
  - split; [reflexivity|]. repeat constructor; cbn; lia.
  - apply length_replicate.
  - cbn. lia.
Defined.

(** A computation that does not reopen a closed process. *)
Definition stays_closed {U A : Type} (c : M U A) : Prop := forall s, active s = false ->
  match c s with Ret _ s' => active s' = false | _ => True end.

Lemma stays_closed_bind {U A B} (c : M U A) (k : A -> M U B) :
  stays_closed c -> (forall a, stays_closed (k a)) -> stays_closed (c ≫= k).
Proof.
  intros Hc Hk s Hs. unfold mbind, M_bind. specialize (Hc s Hs).
  destruct (c s); [by apply Hk|done|done|done].
Qed.

Lemma stays_closed_listener_at {U} ev : stays_closed (listener_at ev : M U listener).
Proof.
  intros s Hs. unfold listener_at, mbind, M_bind, get, lift.
  by destruct (if ev <? 0 then None else listeners s !! Z.to_nat ev).
Qed.

Lemma stays_closed_close {U} : stays_closed (channel_close : M U unit).
Proof. intros s Hs. unfold channel_close, mbind, M_bind. by destruct (send _ _ _ _ s). Qed.

Lemma stays_closed_dispatch {U} (invoke : nat -> Z -> list Z -> Z -> M U (list Z)) m data :
  (forall f src data size, stays_closed (invoke f src data size)) ->
  stays_closed (channel_dispatch invoke m data).
Proof.
  intros Hinvoke. unfold channel_dispatch. destruct (event m <? CHANNEL_LISTENERS); [|by intros s Hs].
  apply stays_closed_bind; [apply stays_closed_listener_at|]. intros l.
  apply stays_closed_bind; [destruct (callback l); [by apply Hinvoke|by intros s Hs]|]. intros d.
  apply stays_closed_bind; [apply stays_closed_listener_at|]. intros l'.
  destruct (autoclose l'); [|by intros s Hs].
  apply stays_closed_bind; [apply stays_closed_close|]. by intros _ s Hs.
Qed.

(** Reading does not end when the process is closed: the loops of
    [channel_read_any] compare the result of [channel_pick] with [EVENT_CLOSE],
    but a closed process gets 0 from it.  Once a message with another event has
    closed the process, the loop dispatches that message again and again and
    never returns, however many turns it is given. *)
Theorem channel_read_any_hangs {U : Type} (invoke : nat -> Z -> list Z -> Z -> M U (list Z))
    (Hinvoke : forall f src data size, stays_closed (invoke f src data size))
    (s : proc U) (m : message) (data : list Z) (ev : Z)
    (Hclosed : active s = false) (Hother : event m <> ev) (fuel : nat) :
  forall r s', channel_read_any invoke fuel m ev data s <> Ret r s'.
Proof.
  unfold channel_read_any. revert s data Hclosed.
  induction fuel as [|fuel IH]; intros s data Hs r s'; [done|]. cbn [read_loop].
  unfold mbind at 1, M_bind at 1. rewrite pick_inactive by done. cbn [Z.eqb EVENT_CLOSE].
  destruct (Z.eqb_spec (event m) ev); [done|]. unfold mbind at 1, M_bind at 1.
  pose proof (stays_closed_dispatch invoke m data Hinvoke s Hs) as Hd.
  destruct (channel_dispatch invoke m data s); [by apply IH|done|done|done].
Qed.

Lemma channel_read_any_hangs_witness :
  let closed := with_active (sample_proc []) false in
  channel_process sample_invoke (Message 0 0 0) (replicate 4 0) (sample_proc [sample_message 2]) =
    Ret 2 closed /\
  forall r s', channel_read_any sample_invoke 1000 (message_init 2 9 1) 8 (replicate 4 0) closed <> Ret r s'.
Proof.
  split; [vm_compute; reflexivity|].
  apply (channel_read_any_hangs sample_invoke).
  - intros f src data size s Hs. exact Hs.
  - reflexivity.
  - cbn. lia.
Defined.

Lemma read_all_loop_spec {U} fuel desc count offset chunks : forall (s : proc U) buffer (c : nat),
  reads (kernel s) = chunks -> (length chunks < fuel)%nat ->
  Z.of_nat c + Z.of_nat (length (concat chunks)) = count -> 0 <= count <= max32 ->
  (Z.to_nat count <= length buffer)%nat -> Forall (fun b => b <> []) chunks ->
  exists s', read_all_loop fuel desc buffer count offset (Z.of_nat c) s =
    Ret (splice buffer c (concat chunks), count) s' /\ reads (kernel s') = [].
Proof.
  revert fuel. induction chunks as [|b chunks IH]; intros fuel s buffer c Hr Hf Hc Hn Hl Hne;
    (destruct fuel as [|fuel]; [cbn in Hf; lia|]); cbn [read_all_loop concat] in *.
  - cbn [length] in Hc. destruct (Z.ltb_spec (Z.of_nat c) count); [lia|].
    exists s. rewrite splice_nil. replace (Z.of_nat c) with count by lia. done.
  - apply Forall_cons in Hne as [Hb Hne]. rewrite length_app in Hc. cbn [length] in Hf.
    assert (0 < length b)%nat by (destruct b; [done|cbn; lia]).
    destruct (Z.ltb_spec (Z.of_nat c) count); [|lia].
    unfold mbind, M_bind, call_read. rewrite Hr, Nat2Z.id.
    destruct (Nat.leb_spec (c + length b) (length buffer)); [|lia].
    unfold max32 in *. rewrite u32_small by lia.
    replace (Z.of_nat c + Z.of_nat (length b)) with (Z.of_nat (c + length b)) by lia.
    match goal with |- context [read_all_loop _ _ _ _ _ _ ?s1] =>
      destruct (IH fuel s1 (splice buffer c b) (c + length b)%nat) as (s' & -> & Hs') end;
      try done; try lia; [by rewrite length_splice by lia|].
    exists s'. rewrite splice_app by lia. done.
Qed.

(** [call_read_all] gathers what successive reads return until it has [count]
    bytes: if every read returns something and together they return exactly
    [count] bytes, the buffer holds their concatenation; if a read returns
    nothing (the end of a file), the loop asks again. *)
Theorem call_read_all_complete {U : Type} (s : proc U) (desc count offset : Z) (buffer : list Z)
    (Hcount : Z.of_nat (length (concat (reads (kernel s)))) = count) (Hmax : count <= max32)
    (Hroom : (Z.to_nat count <= length buffer)%nat)
    (Hchunks : Forall (fun b => b <> []) (reads (kernel s))) :
  exists s', call_read_all desc buffer count offset s =
    Ret (splice buffer 0 (concat (reads (kernel s))), count) s' /\ reads (kernel s') = [].
Proof.
  unfold call_read_all, mbind, M_bind, get.
  apply (read_all_loop_spec _ desc count offset _ s buffer 0); (done || lia).
Qed.

Lemma call_read_all_complete_witness :
  exists s', call_read_all 0 (replicate 5 0) 4 0
      (Proc sample_listeners true (Sys [] [] [] [] [[1; 2]; [3; 4]] [] []) 0%nat) =
    Ret ([1; 2; 3; 4; 0], 4) s' /\ reads (kernel s') = [].
Proof.
  apply (call_read_all_complete
    (Proc sample_listeners true (Sys [] [] [] [] [[1; 2]; [3; 4]] [] []) 0%nat) 0 4 0 (replicate 5 0));
    [reflexivity|unfold max32; lia|cbn; lia|repeat constructor; done].
Defined.

(** A file shorter than the count is never finished: as long as the reads
    return nothing, [call_read_all] does not return. *)
Theorem call_read_all_short_file {U : Type} (s : proc U) (n : nat) (desc count offset : Z)
    (buffer : list Z) (Hcount : 0 < count) (Heof : reads (kernel s) = replicate n []) :
  exists s', call_read_all desc buffer count offset s = Blocked s'.
Proof.
  unfold call_read_all, mbind, M_bind, get. rewrite Heof, length_replicate.
  revert s buffer Heof. induction n as [|n IH]; intros s buffer Heof; cbn [read_all_loop];
    (destruct (Z.ltb_spec 0 count); [|lia]); unfold mbind, M_bind, call_read; rewrite Heof.
  - by eexists.
  - cbn [replicate length]. destruct (Nat.leb_spec (Z.to_nat 0 + 0) (length buffer)); [|cbn in *; lia].
    change (u32 (0 + Z.of_nat 0)) with 0. apply IH. done.
Qed.

Lemma call_read_all_short_file_witness :
  exists s', call_read_all 0 (replicate 5 0) 4 0
    (Proc sample_listeners true (Sys [] [] [] [] [[]; []; []] [] []) 0%nat) = Blocked s'.
Proof.
  apply (call_read_all_short_file _ 3); [lia|reflexivity].
Defined.
