(* ===== verification/Crt0.v ===== *)
(** * The runtime of a process (src/libz/abi/crt0.c)

    [main] opens the channel, installs the callbacks for options, redirections
    and status requests, runs the program's [init] and serves messages until
    the channel is closed.  The rest of the process ([user] of Channel.v) is the
    option table and the data of the program, whose own callbacks are the
    variable [app_invoke]. *)
From S2P Require Import Prelude Buffer Cstring Option Channel.
From Stdlib Require String.
Import String.StringSyntax.

Local Open Scope string_scope.
Local Open Scope Z_scope.

Record runtime (A : Type) := Runtime { options : list opt; program_data : A }.
Arguments Runtime {A}. Arguments options {A}. Arguments program_data {A}.

(** The addresses of the three callbacks. *)
Definition addr_onoption : nat := 1.
Definition addr_onredirect : nat := 2.
Definition addr_onstatus : nat := 3.

Section crt0.
Context {A : Type}.
Context (app_invoke : nat -> Z -> list Z -> Z -> M (runtime A) (list Z)).
Context (init : M (runtime A) unit).

(** The content of the uninitialised locals. *)
Context (stack0 num0 : list Z) (m0 : message) (data0 : list Z).

Definition set_options (o : list opt) : M (runtime A) unit :=
  s ← get; put (with_user s (Runtime o (program_data (user s)))).

(** [for (i = 0; (key = buffer_tindex(mdata, msize, '\0', i)); i += 2)] *)
Fixpoint onoption_loop (fuel : nat) (mdata : list Z) (msize i : Z) : M (runtime A) unit :=
  match fuel with
  | O => no_fuel
  | S fuel =>
      p ← lift (buffer_tindex mdata msize 0 i);
      match p with
      | None => mret tt
      | Some p =>
          let key := drop (Z.to_nat p) mdata in
          n ← lift (cstring_length_zero key);
          let value := drop (Z.to_nat n) key in
          s ← get;
          '(opts, r) ← lift (option_set (options (user s)) key value);
          _ ← set_options opts;
          _ ← (if r =? 0 then
                 channel_send_fmt1 stack0 num0 CHANNEL_DEFAULT EVENT_ERROR
                   (lit "Unrecognized option: %s" ++ [10; 0]) key
               else mret 0);
          onoption_loop fuel mdata msize (u32 (i + 2))
      end
  end.

(** The field [i] exists only if the message has [i] zero bytes. *)
Definition onoption (source : Z) (mdata : list Z) (msize : Z) : M (runtime A) unit :=
  onoption_loop (S (S (Z.to_nat msize))) mdata msize 0.

Definition onredirect (source : Z) (mdata : list Z) (msize : Z) : M (runtime A) unit :=
  ev ← lift (read32 mdata);
  mode ← lift (read32 (drop 4 mdata));
  tgt ← lift (read32 (drop 8 mdata));
  channel_route ev mode tgt source.

Fixpoint onstatus_loop (n : nat) (i : Z) : M (runtime A) unit :=
  match n with
  | O => mret tt
  | S n =>
      s ← get;
      r ← lift (option_get (options (user s)) i);
      _ ← (match r with
           | Some j =>
               o ← lift (options (user s) !! j);
               k ← lift (key o);
               channel_send_fmt2 stack0 num0 CHANNEL_DEFAULT EVENT_DATA (lit "%s:%s" ++ [10; 0]) k (value o)
           | None => mret 0
           end);
      onstatus_loop n (i + 1)
  end.

Definition onstatus (source : Z) (mdata : list Z) (msize : Z) : M (runtime A) unit :=
  onstatus_loop OPTION_MAX 0.

Definition panic (file : list Z) (line : Z) : M (runtime A) unit :=
  _ ← channel_send_fmt2 stack0 num0 CHANNEL_DEFAULT EVENT_ERROR
        (lit "Process panic! File %s on line %u" ++ [10; 0]) file (le32 line);
  _ ← channel_close;
  call_despawn.

(** Calling a function pointer of the listener table. *)
Definition invoke (f : nat) (source : Z) (mdata : list Z) (msize : Z) : M (runtime A) (list Z) :=
  if (f =? addr_onoption)%nat then _ ← onoption source mdata msize; mret mdata
  else if (f =? addr_onredirect)%nat then _ ← onredirect source mdata msize; mret mdata
  else if (f =? addr_onstatus)%nat then _ ← onstatus source mdata msize; mret mdata
  else app_invoke f source mdata msize.

(** [while (channel_process());] *)
Fixpoint main_loop (fuel : nat) : M (runtime A) unit :=
  match fuel with
  | O => no_fuel
  | S fuel =>
      r ← channel_process invoke m0 data0;
      if r =? 0 then mret tt else main_loop fuel
  end.

Definition main_setup : M (runtime A) unit :=
  _ ← channel_open;
  _ ← channel_autoclose EVENT_MAIN true;
  _ ← channel_autoclose EVENT_TERM true;
  _ ← channel_bind EVENT_OPTION (Some addr_onoption);
  _ ← channel_bind EVENT_REDIRECT (Some addr_onredirect);
  _ ← channel_bind EVENT_STATUS (Some addr_onstatus);
  init.

Definition main (fuel : nat) : M (runtime A) unit := _ ← main_setup; main_loop fuel.
End crt0.

(** ** Redirections *)

Lemma read32_app v rest : 0 <= v < 4294967296 -> read32 (le32 v ++ rest) = Some v.
Proof.
  intros Hv. assert (forall a b c d, read32 (a :: b :: c :: d :: rest) =
    Some (a + 256 * b + 65536 * c + 16777216 * d)) as Hr by reflexivity.
  unfold le32. cbn [app]. rewrite Hr. f_equal. zmod.
Qed.

(** The target [channel_route] stores. *)
Definition routed (mode channel source : Z) : Z :=
  if mode =? EVENT_REDIRECT_TARGET then channel
  else if mode =? EVENT_REDIRECT_SOURCE then source
  else CHANNEL_DEFAULT.

Section redirects.
Context {A : Type} (app_invoke : nat -> Z -> list Z -> Z -> M (runtime A) (list Z)).
Context (stack0 num0 : list Z) (m0 : message) (data0 : list Z).
Implicit Types s : proc (runtime A).

(** The listener table after the message of [redirect] has been served. *)
Lemma redirect_served s src ev mode channel rest l t :
  active s = true -> length data0 = 1536%nat ->
  picks (kernel s) = Some (message_init EVENT_REDIRECT src 12, redirect_bytes ev mode channel) :: rest ->
  listeners s !! 4%nat = Some (Listener (Some addr_onredirect) t false) ->
  0 <= ev < 256 -> listeners s !! Z.to_nat ev = Some l ->
  0 <= mode < 4294967296 -> 0 <= channel < 4294967296 ->
  channel_process (invoke app_invoke stack0 num0) m0 data0 s =
    Ret EVENT_REDIRECT
      (with_listeners (with_kernel s (with_picks (kernel s) rest))
         (<[Z.to_nat ev := Listener (callback l) (routed mode channel src) (autoclose l)]> (listeners s))).
Proof.
  intros Ha Hd Hp H4 Hev Hl Hmode Hch.
  rewrite (process_message _ s m0 data0 _ _ _ Ha Hp) by (done || (cbn; lia)).
  unfold mbind, M_bind.
  assert (invoke app_invoke stack0 num0 addr_onredirect src
    (splice data0 0 (redirect_bytes ev mode channel)) (message_datasize (message_init EVENT_REDIRECT src 12))
    (with_kernel s (with_picks (kernel s) rest)) =
    Ret (splice data0 0 (redirect_bytes ev mode channel))
     (with_listeners (with_kernel s (with_picks (kernel s) rest))
       (<[Z.to_nat ev := Listener (callback l) (routed mode channel src) (autoclose l)]> (listeners s)))) as Hi.
  { unfold invoke. cbn [Nat.eqb addr_onoption addr_onredirect]. unfold onredirect, redirect_bytes.
    rewrite splice_0, <- !app_assoc. unfold mbind, M_bind.
    rewrite read32_app by lia. cbn [lift].
    rewrite (drop_app_length' (le32 ev)), read32_app by (done || lia). cbn [lift].
    rewrite (drop_app_ge (le32 ev) _ 8), (drop_app_length' (le32 mode)), read32_app by (done || lia || (cbn; lia)).
    cbn [lift]. unfold channel_route. rewrite (set_listener_spec _ ev _ l) by (done || lia). done. }
  assert (exists l1, <[Z.to_nat ev := Listener (callback l) (routed mode channel src) (autoclose l)]>
    (listeners s) !! 4%nat = Some l1 /\ autoclose l1 = false) as (l1 & Hl1 & Hc1).
  { destruct (decide (Z.to_nat ev = 4%nat)) as [E4|E4].
    - rewrite E4, H4 in Hl. injection Hl as <-. rewrite E4. eexists.
      rewrite list_lookup_insert_eq by (by eapply lookup_lt_Some). done.
    - rewrite list_lookup_insert_ne by done. by eexists. }
  by rewrite (dispatch_callback _ (with_kernel s (with_picks (kernel s) rest)) _
    (message_init EVENT_REDIRECT src 12) _ _ _ l1 addr_onredirect
    ltac:(cbn; unfold EVENT_REDIRECT; lia) H4 eq_refl Hi Hl1 Hc1).
Qed.
End redirects.

(** Redirection end to end.  A process that calls [channel_listen] (or
    [channel_forward] with [channel]) on another process sends it one
    [EVENT_REDIRECT] message; when the other process receives that message, its
    later sends of the event to [CHANNEL_DEFAULT] go to the sender (or to
    [channel]), and the routes of all other events are unchanged. *)
Theorem redirection_takes_effect {A B : Type}
    (app_invoke : nat -> Z -> list Z -> Z -> M (runtime A) (list Z)) (stack0 num0 : list Z)
    (m0 : message) (data0 : list Z) (sender : proc B) (accept : list bool)
    (receiver : proc (runtime A)) (me other ev channel : Z) (rest : list (option (message * list Z)))
    (forward : bool) (t : Z)
    (Hsender : length (listeners sender) = 256%nat)
    (Haccept : accepted (places (kernel sender)) = Some accept)
    (Hreceiver : length (listeners receiver) = 256%nat /\ active receiver = true)
    (Hlistener : listeners receiver !! 4%nat = Some (Listener (Some addr_onredirect) t false))
    (Hdata0 : length data0 = 1536%nat) (Hev : 0 <= ev < 256) (Hother : 0 < other)
    (Hchannel : 0 <= channel < 4294967296) :
  let asks := if forward then channel_forward other ev channel else channel_listen other ev in
  exists sender' bytes, asks sender = Ret 12 sender' /\
    trace (kernel sender') = trace (kernel sender) ++ [Place other EVENT_REDIRECT bytes] /\
    (picks (kernel receiver) = Some (message_init EVENT_REDIRECT me 12, bytes) :: rest ->
     exists receiver', channel_process (invoke app_invoke stack0 num0) m0 data0 receiver =
         Ret EVENT_REDIRECT receiver' /\
       picks (kernel receiver') = rest /\
       resolve receiver' CHANNEL_DEFAULT ev = (if forward then channel else me) /\
       (forall ev', 0 <= ev' -> ev' <> ev ->
          resolve receiver' CHANNEL_DEFAULT ev' = resolve receiver CHANNEL_DEFAULT ev')).
Proof.
  intros asks.
  set (mode := if forward then EVENT_REDIRECT_TARGET else EVENT_REDIRECT_SOURCE).
  set (ch := if forward then channel else CHANNEL_DEFAULT).
  assert (asks = redirect other ev mode ch) as -> by (unfold asks; by destruct forward).
  exists (delivered sender accept (Place other EVENT_REDIRECT (redirect_bytes ev mode ch))), (redirect_bytes ev mode ch).
  assert (0 <= ch < 4294967296) by (unfold ch, CHANNEL_DEFAULT; destruct forward; lia).
  assert (0 <= mode < 4294967296) by (unfold mode, EVENT_REDIRECT_TARGET, EVENT_REDIRECT_SOURCE; destruct forward; lia).
  destruct Hreceiver as [Hlen Hactive]. split; [|split; [done|]].
  - unfold redirect. rewrite send_spec by (done || (unfold EVENT_REDIRECT; cbn; lia)). unfold resolve.
    destruct (Z.eqb_spec other 0); [lia|]. rewrite Haccept. cbn [orb Z.ltb Z.compare MESSAGE_SIZE Pos.compare Pos.compare_cont].
    destruct (Z.eqb_spec other 0); [lia|done].
  - intros Hp. destruct (lookup_lt_is_Some_2 (listeners receiver) (Z.to_nat ev)) as [l Hl]; [lia|].
    eexists. split; [by eapply redirect_served|]. split; [done|]. unfold resolve. cbn.
    rewrite list_lookup_insert_eq by (by eapply lookup_lt_Some). cbn. split.
    + unfold mode, ch. by destruct forward.
    + intros ev' Hev' Hne. rewrite list_lookup_insert_ne by lia. done.
Qed.

(** A process that has run [main_setup], with the given messages to come. *)
Definition no_listeners : list listener := replicate 256 (Listener None 0 false).

Definition fresh (pk : list (option (message * list Z))) (pl : list bool) (opts : list opt)
    : proc (runtime unit) :=
  Proc no_listeners false (Sys pk pl [] [] [] [] []) (Runtime opts tt).

Definition no_app (f : nat) (src : Z) (data : list Z) (size : Z) : M (runtime unit) (list Z) := mret data.

Definition started (pk : list (option (message * list Z))) (pl : list bool) (opts : list opt)
    : proc (runtime unit) :=
  match main_setup (mret tt) (fresh pk pl opts) with Ret _ s => s | _ => fresh pk pl opts end.

Lemma redirection_takes_effect_witness :
  let bytes := redirect_bytes 7 EVENT_REDIRECT_SOURCE 0 in
  exists sender', channel_listen 8 7 (started [] [false; true] no_options) = Ret 12 sender' /\
    trace (kernel sender') = [Place 8 EVENT_REDIRECT bytes] /\
    exists receiver',
      channel_process (invoke no_app (replicate 1536 0) (replicate 64 0)) (Message 0 0 0) (replicate 1536 0)
        (started [Some (message_init EVENT_REDIRECT 5 12, bytes)] [] no_options) =
        Ret EVENT_REDIRECT receiver' /\
      picks (kernel receiver') = [] /\ resolve receiver' CHANNEL_DEFAULT 7 = 5.
Proof.
  destruct (redirection_takes_effect no_app (replicate 1536 0) (replicate 64 0) (Message 0 0 0)
    (replicate 1536 0) (started [] [false; true] no_options) []
    (started [Some (message_init EVENT_REDIRECT 5 12, redirect_bytes 7 EVENT_REDIRECT_SOURCE 0)] [] no_options)
    5 8 7 0 [] false 0) as (sender' & bytes & Hask & Htr & Hrecv);
    [vm_compute; reflexivity|vm_compute; reflexivity|split; vm_compute; reflexivity
    |vm_compute; reflexivity|apply length_replicate|lia|lia|lia|].
  assert (channel_listen 8 7 (started [] [false; true] no_options) =
    Ret 12 (delivered (started [] [false; true] no_options) []
      (Place 8 EVENT_REDIRECT (redirect_bytes 7 EVENT_REDIRECT_SOURCE 0)))) as Hrun
    by (vm_compute; reflexivity).
  rewrite Hrun in Hask. injection Hask as <-. injection Htr as <-.
  destruct Hrecv as (receiver' & Hr & Hpk & Hres & _); [reflexivity|].
  eexists. split; [exact Hrun|]. split; [reflexivity|]. exists receiver'. done.
Defined.

(** ** Options *)

(** The fields of an option message: key, value, key, value, ... *)
Definition pair_fields (kvs : list (list Z * list Z)) : list (list Z) :=
  kvs ≫= (fun '(k, v) => [k; v]).

Definition set_pairs (kvs : list (list Z * list Z)) (m : gmap (list Z) (list Z)) :=
  foldl (fun m '(k, v) => alter (fun _ => v) k m) m kvs.

(** A pair [option_set] accepts: a known key and a value that fits. *)
Definition pair_ok (m : gmap (list Z) (list Z)) (kv : list Z * list Z) : Prop :=
  text kv.1 /\ Forall (fun c => c <> 0) kv.2 /\ (length kv.2 < 64)%nat /\ is_Some (m !! kv.1).

Lemma pair_fields_nonzero m kvs :
  Forall (pair_ok m) kvs -> Forall (Forall (fun c => c <> 0)) (pair_fields kvs).
Proof.
  induction 1 as [|[k v] kvs [[Hk _] [Hv _]] _ IH]; [constructor|].
  change (pair_fields ((k, v) :: kvs)) with (k :: v :: pair_fields kvs). auto.
Qed.

Lemma length_pair_fields kvs : length (pair_fields kvs) = (2 * length kvs)%nat.
Proof.
  induction kvs as [|[k v] kvs IH]; [done|].
  change (pair_fields ((k, v) :: kvs)) with (k :: v :: pair_fields kvs). cbn [length]. lia.
Qed.

Lemma pair_fields_app kvs1 kvs2 : pair_fields (kvs1 ++ kvs2) = pair_fields kvs1 ++ pair_fields kvs2.
Proof. apply bind_app. Qed.

Lemma zfields_app fs1 fs2 : zfields (fs1 ++ fs2) = zfields fs1 ++ zfields fs2.
Proof. unfold zfields. by rewrite fmap_app, concat_app. Qed.

Section option_messages.
Context {A : Type} (app_invoke : nat -> Z -> list Z -> Z -> M (runtime A) (list Z)).
Context (stack0 num0 : list Z) (m0 : message) (data0 : list Z).
Implicit Types s : proc (runtime A).

(** One turn of the loop: the pair at field [2 * length done]. *)
Lemma onoption_turn fuel done_ k v todo post n s :
  let fs := pair_fields (done_ ++ (k, v) :: todo) in
  options_wf n (options (user s)) ->
  Forall (Forall (fun c => c <> 0)) fs -> pair_ok (settings (options (user s))) (k, v) ->
  Z.of_nat (length (zfields fs)) <= max32 -> Z.of_nat (length fs) <= max32 - 2 ->
  exists opts, options_wf n opts /\
    settings opts = alter (fun _ => v) k (settings (options (user s))) /\
    onoption_loop stack0 num0 (S fuel) (zfields fs ++ post) (Z.of_nat (length (zfields fs)))
      (Z.of_nat (length (pair_fields done_))) s =
    onoption_loop stack0 num0 fuel (zfields fs ++ post) (Z.of_nat (length (zfields fs)))
      (Z.of_nat (length (pair_fields (done_ ++ [(k, v)]))))
      (with_user s (Runtime opts (program_data (user s)))).
Proof.
  intros fs Hwf Hfs ([Hk Hlk] & Hv & Hlv & Hknown) Hm Hm'. cbn [fst snd] in *.
  assert (fs = pair_fields done_ ++ k :: v :: pair_fields todo) as Efs
    by (unfold fs; rewrite pair_fields_app; done).
  clearbody fs.
  assert (zfields fs ++ post = zfields (pair_fields done_) ++ k ++ 0 :: v ++ 0 :: zfields (pair_fields todo) ++ post)
    as Ez by (rewrite Efs, zfields_app, !zfields_cons; by rewrite <- !app_assoc; cbn [app]; rewrite <- !app_assoc).
  cbn [onoption_loop]. unfold mbind at 1, M_bind at 1.
  rewrite buffer_tindex_fields; [|done|rewrite Efs; by destruct (pair_fields done_)
    |rewrite Efs, length_app; lia|done|lia].
  cbn [lift]. rewrite decide_False by (rewrite Efs, length_app; cbn [length]; lia).
  replace (take (length (pair_fields done_)) fs) with (pair_fields done_)
    by (rewrite Efs; by rewrite take_app_length).
  rewrite Nat2Z.id, Ez, drop_app_length.
  set (rest := zfields (pair_fields todo) ++ post).
  unfold mbind at 1, M_bind at 1, cstring_length_zero. unfold max32 in *.
  rewrite cstring_length_spec by (unfold max32; (done || lia)). cbn [mbind option_bind lift].
  rewrite (u32_small (Z.of_nat (length k) + 1)) by lia. replace (Z.of_nat (length k) + 1) with (Z.of_nat (S (length k))) by lia.
  assert (drop (S (length k)) (k ++ 0 :: v ++ 0 :: rest) = v ++ 0 :: rest) as Hdrop.
  { rewrite (drop_app_ge k _ (S (length k))) by lia. by replace (S (length k) - length k)%nat with 1%nat by lia. }
  rewrite Nat2Z.id, Hdrop.
  assert (is_string k (k ++ 0 :: v ++ 0 :: rest)) as Hks.
  { split; [split; [done|by eexists]|unfold max32; lia]. }
  assert (is_string v (v ++ 0 :: rest)) as Hvs.
  { split; [split; [done|by eexists]|unfold max32; lia]. }
  destruct (option_set_spec n (options (user s)) k _ v _ Hwf Hks Hvs) as (opts & Hwf' & Hset & Hset').
  exists opts. rewrite decide_True in Hset by done. rewrite take_ge in Hset' by lia. split_and!; [done|done|].
  unfold mbind, M_bind, get. rewrite Hset. cbn [lift]. unfold set_options, mbind, M_bind, get, put. cbn [Z.eqb mret M_ret].
  rewrite pair_fields_app, length_app. change (length (pair_fields [(k, v)])) with 2%nat.
  rewrite Efs, length_app in Hm'. cbn [length] in Hm'. rewrite u32_small by lia.
  by replace (Z.of_nat (length (pair_fields done_)) + 2) with (Z.of_nat (length (pair_fields done_) + 2)) by lia.
Qed.

Lemma pair_ok_alter m k v kvs :
  Forall (pair_ok m) kvs -> Forall (pair_ok (alter (fun _ => v) k m)) kvs.
Proof.
  intros Hok. eapply Forall_impl; [exact Hok|]. intros [k' v'] (? & ? & ? & ?). split_and!; try done.
  by apply lookup_alter_is_Some.
Qed.

Lemma onoption_loop_spec fuel done_ todo post n s :
  let fs := pair_fields (done_ ++ todo) in
  (length todo < fuel)%nat -> fs <> [] -> options_wf n (options (user s)) ->
  Forall (Forall (fun c => c <> 0)) fs -> Forall (pair_ok (settings (options (user s)))) todo ->
  Z.of_nat (length (zfields fs)) <= max32 -> Z.of_nat (length fs) <= max32 - 2 ->
  exists opts, options_wf n opts /\ settings opts = set_pairs todo (settings (options (user s))) /\
    onoption_loop stack0 num0 fuel (zfields fs ++ post) (Z.of_nat (length (zfields fs)))
      (Z.of_nat (length (pair_fields done_))) s =
    Ret tt (with_user s (Runtime opts (program_data (user s)))).
Proof.
  revert done_ s fuel. induction todo as [|[k v] todo IH]; intros done_ s fuel fs Hf Hne Hwf Hfs Hok Hm Hm';
    (destruct fuel as [|fuel]; [lia|]).
  - exists (options (user s)). split_and!; [done|done|]. cbn [onoption_loop]. unfold mbind, M_bind.
    subst fs. rewrite app_nil_r in *.
    rewrite buffer_tindex_fields; [|exact Hfs|exact Hne|lia|exact Hm|lia]. rewrite decide_True by done. cbn. by destruct s as [? ? ? []].
  - apply Forall_cons in Hok as [Hkv Hok].
    destruct (onoption_turn fuel done_ k v todo post n s Hwf Hfs Hkv Hm Hm') as (opts & Hwf' & Hset & Heq).
    fold fs in Heq. rewrite Heq. cbn [length] in Hf.
    specialize (IH (done_ ++ [(k, v)]) (with_user s (Runtime opts (program_data (user s)))) fuel).
    cbn zeta in IH. rewrite <- app_assoc in IH. cbn [app user with_user options program_data] in IH. fold fs in IH.
    destruct IH as (opts' & Hwf2 & Hset2 & Heq2); try done; [lia|rewrite Hset; by apply pair_ok_alter|].
    exists opts'. split_and!; [done|by rewrite Hset2, Hset|]. rewrite Heq2. by destruct s.
Qed.

(** A message of options, served. *)
Lemma options_served s src kvs rest n t :
  active s = true -> length data0 = 1536%nat -> length (listeners s) = 256%nat ->
  picks (kernel s) = Some (message_init EVENT_OPTION src (Z.of_nat (length (zfields (pair_fields kvs)))),
                           zfields (pair_fields kvs)) :: rest ->
  (length (zfields (pair_fields kvs)) <= 1536)%nat -> kvs <> [] ->
  listeners s !! 5%nat = Some (Listener (Some addr_onoption) t false) ->
  options_wf n (options (user s)) -> Forall (pair_ok (settings (options (user s)))) kvs ->
  exists opts, options_wf n opts /\ settings opts = set_pairs kvs (settings (options (user s))) /\
    channel_process (invoke app_invoke stack0 num0) m0 data0 s =
      Ret EVENT_OPTION (with_user (with_kernel s (with_picks (kernel s) rest))
        (Runtime opts (program_data (user s)))).
Proof.
  intros Ha Hd Hlen Hp Hl Hne H5 Hwf Hok. set (fs := pair_fields kvs) in *.
  set (s1 := with_kernel s (with_picks (kernel s) rest)).
  assert (length fs <= length (zfields fs))%nat as Hlz.
  { clear. induction fs as [|f fs IH]; [done|]. rewrite zfields_cons, length_app. cbn [length]. lia. }
  pose proof (length_pair_fields kvs) as Hlf. fold fs in Hlf.
  destruct (onoption_loop_spec (S (S (length (zfields fs)))) [] kvs (drop (length (zfields fs)) data0) n s1)
    as (opts & Hwf' & Hset & Hrun); cbn [app]; fold fs.
  - lia.
  - intros E. rewrite E in Hlf. destruct kvs; [done|cbn in Hlf; lia].
  - done.
  - by eapply pair_fields_nonzero.
  - done.
  - unfold max32. lia.
  - unfold max32. lia.
  - exists opts. split_and!; [done|done|]. cbn [app] in Hrun. fold fs in Hrun.
    change (Z.of_nat (length (pair_fields []))) with 0 in Hrun.
    rewrite (process_message _ s m0 data0 _ _ _ Ha Hp) by (done || lia). unfold mbind, M_bind.
    rewrite splice_0. fold s1.
    set (m := message_init EVENT_OPTION src (Z.of_nat (length (zfields fs)))).
    assert (message_datasize m = Z.of_nat (length (zfields fs))) as Hds.
    { unfold message_datasize, m, message_init. cbn [length_].
      rewrite !u32_small by (rewrite ?u32_small by lia; lia). lia. }
    assert (invoke app_invoke stack0 num0 addr_onoption src (zfields fs ++ drop (length (zfields fs)) data0)
      (message_datasize m) s1 = Ret (zfields fs ++ drop (length (zfields fs)) data0)
        (with_user s1 (Runtime opts (program_data (user s))))) as Hi.
    { rewrite Hds. unfold invoke. cbn [Nat.eqb addr_onoption]. unfold onoption, mbind, M_bind.
      rewrite Nat2Z.id, Hrun. done. }
    by rewrite (dispatch_callback _ s1 _ m _ _ _ _ addr_onoption
      ltac:(cbn; unfold EVENT_OPTION; lia) H5 eq_refl Hi H5 eq_refl).
Qed.
End option_messages.

(** The format [job_run] uses for an option. *)
Definition option_format : list Z := lit "%s\0%s\0" ++ [0].

Lemma option_message_sent {B} (sender : proc B) stack0 num0 accept ch k v r1 r2 :
  length stack0 = 1536%nat -> length num0 = 64%nat -> length (listeners sender) = 256%nat ->
  text k -> text v -> (length (zfields [k; v]) <= 1536)%nat -> 0 < ch ->
  accepted (places (kernel sender)) = Some accept ->
  channel_send_fmt2 stack0 num0 ch EVENT_OPTION option_format (k ++ 0 :: r1) (v ++ 0 :: r2) sender =
    Ret (Z.of_nat (length (zfields [k; v])))
      (delivered sender accept (Place ch EVENT_OPTION (zfields [k; v]))).
Proof.
  intros Hst Hn Hls [Hk Hlk] [Hv Hlv] Hlen Hch Hacc. unfold channel_send_fmt2, cstring_write_fmt2.
  pose proof (send_tokens stack0 num0 ch EVENT_OPTION [TStr k r1; TNul; TStr v r2; TNul] sender Hst Hn) as H.
  assert ([TStr k r1; TNul; TStr v r2; TNul] ≫= text_of = zfields [k; v]) as Et.
  { rewrite !zfields_cons. reflexivity. }
  rewrite Et, take_ge in H by done. etransitivity; [apply H|].
  - apply Forall_cons_2; [split; [done|unfold max32 in *; lia]|]. apply Forall_cons_2; [exact I|].
    apply Forall_cons_2; [split; [done|unfold max32 in *; lia]|]. apply Forall_cons_2; [exact I|].
    apply Forall_nil_2.
  - cbn. unfold max32. lia.
  - rewrite send_spec; [|unfold EVENT_OPTION; lia|done|rewrite length_app; lia].
    unfold resolve, MESSAGE_SIZE. destruct (Z.eqb_spec ch 0); [lia|].
    destruct (Z.ltb_spec 1536 (Z.of_nat (length (zfields [k; v])))); [lia|]. cbn [orb].
    destruct (Z.eqb_spec ch 0); [lia|]. rewrite Hacc. by rewrite Nat2Z.id, take_app_length.
Qed.

(** C18. Options end to end.  The message that a job sends for an option (the
    format of [job_run]) is the key, a zero, the value and a zero, when these are
    at most 1536 bytes, the channel is not 0 and its mailbox accepts it.  When the
    key is already in the table of the receiver and the value has at most 63
    characters, a process with the runtime of [main] (its listener for the option
    event still [onoption]) that receives the message sets exactly that option to
    the value, and [option_getstring] then returns it.  (A key that is not in the
    table is not added, and a longer value is cut.) *)
Theorem option_reaches_process {A B : Type}
    (app_invoke : nat -> Z -> list Z -> Z -> M (runtime A) (list Z)) (stack0 num0 : list Z)
    (m0 : message) (data0 : list Z) (sender : proc B) (accept : list bool)
    (receiver : proc (runtime A)) (me ch : Z) (k v r1 r2 : list Z)
    (rest : list (option (message * list Z))) (n : nat) (t : Z)
    (Hlocals : length stack0 = 1536%nat /\ length num0 = 64%nat /\ length data0 = 1536%nat)
    (Hsender : length (listeners sender) = 256%nat)
    (Haccept : accepted (places (kernel sender)) = Some accept)
    (Hreceiver : length (listeners receiver) = 256%nat /\ active receiver = true)
    (Hlistener : listeners receiver !! 5%nat = Some (Listener (Some addr_onoption) t false))
    (Hoptions : options_wf n (options (user receiver)))
    (Hknown : is_Some (settings (options (user receiver)) !! k))
    (Hk : text k) (Hv : text v) (Hshort : (length v < 64)%nat)
    (Hfits : (length k + length v <= 1534)%nat) (Hch : 0 < ch) :
  let bytes := k ++ 0 :: v ++ [0] in
  let count := Z.of_nat (length k + length v + 2) in
  exists sender',
    channel_send_fmt2 stack0 num0 ch EVENT_OPTION option_format (k ++ 0 :: r1) (v ++ 0 :: r2) sender =
      Ret count sender' /\
    trace (kernel sender') = trace (kernel sender) ++ [Place ch EVENT_OPTION bytes] /\
    (picks (kernel receiver) = Some (message_init EVENT_OPTION me count, bytes) :: rest ->
     exists receiver' val, channel_process (invoke app_invoke stack0 num0) m0 data0 receiver =
         Ret EVENT_OPTION receiver' /\
       option_getstring (options (user receiver')) (k ++ [0]) = Some (Some val) /\ chars val = v /\
       settings (options (user receiver')) = <[k := v]> (settings (options (user receiver)))).
Proof.
  destruct Hlocals as (Hst & Hn & Hd). destruct Hreceiver as [Hlen Hact].
  assert (length (zfields [k; v]) <= 1536)%nat as Hlz
    by (rewrite !zfields_cons, !length_app; cbn [length]; rewrite length_app; cbn; lia).
  assert (k ++ 0 :: v ++ [0] = zfields [k; v]) as Hz
    by (rewrite !zfields_cons; done).
  assert (Z.of_nat (length k + length v + 2) = Z.of_nat (length (zfields [k; v]))) as Hc'
    by (rewrite <- Hz, !length_app; cbn [length]; rewrite length_app; cbn; lia).
  cbn zeta. rewrite Hz, Hc'.
  eexists _. split; [by apply option_message_sent|]. split; [done|]. intros Hp.
  destruct (options_served app_invoke stack0 num0 m0 data0 receiver me [(k, v)] rest n t)
    as (opts & Hwf & Hset & Hrun); try done.
  { apply Forall_cons_2; [|apply Forall_nil_2]. split_and!; [exact Hk|exact (proj1 Hv)|done|done]. }
  destruct Hknown as [old Hold].
  assert (settings opts = <[k := v]> (settings (options (user receiver)))) as Hs.
  { rewrite Hset. cbn. apply map_eq. intros i. rewrite lookup_alter, lookup_insert.
    case_decide; [by subst; rewrite Hold|done]. }
  destruct (find_spec n opts k (k ++ [0]) Hwf (text_string k Hk))
    as [[Hm _]|(j & o & obj & Hj & Ho & Hko & Hc & Huo & Hnone & Hm & Hfd)];
    rewrite Hs, lookup_insert_eq in Hm; [done|]. injection Hm as Hm.
  eexists _, (value o). split; [exact Hrun|]. cbn [user with_user options].
  split_and!; [|done|done]. unfold option_getstring. rewrite Hfd. cbn [mbind option_bind]. by rewrite Ho.
Qed.

(** A table with the single option [w = 1]. *)
Definition one_option : list opt :=
  default [] (option_add no_options [119; 0] [49; 0]).

Lemma one_option_wf : options_wf 1 one_option /\ settings one_option = {[ [119] := [49] ]}.
Proof.
  assert (text [119] /\ text [49]) as [Hk Hv]
    by (split; (split; [repeat constructor; lia|unfold max32; cbn [length]; lia])).
  destruct (option_add_spec 0 no_options _ _ _ _ no_options_wf (text_string _ Hk) (text_string _ Hv))
    as (o & Ha & Hr). rewrite decide_True in Hr by (unfold OPTION_MAX; lia).
  unfold one_option. change [119; 0] with ([119] ++ [0]). change [49; 0] with ([49] ++ [0]).
  rewrite Ha. exact Hr.
Qed.

Definition option_receiver : proc (runtime unit) :=
  started [Some (message_init EVENT_OPTION 5 5, [119; 0; 50; 52; 0])] [] one_option.

Lemma option_reaches_process_witness :
  exists sender',
    channel_send_fmt2 (replicate 1536 0) (replicate 64 0) 8 EVENT_OPTION option_format
      ([119] ++ 0 :: []) ([50; 52] ++ 0 :: []) (started [] [true] no_options) = Ret 5 sender' /\
    trace (kernel sender') =
      trace (kernel (started [] [true] no_options)) ++ [Place 8 EVENT_OPTION [119; 0; 50; 52; 0]] /\
    (picks (kernel option_receiver) = Some (message_init EVENT_OPTION 5 5, [119; 0; 50; 52; 0]) :: [] ->
     exists receiver' val,
       channel_process (invoke no_app (replicate 1536 0) (replicate 64 0)) (Message 0 0 0) (replicate 1536 0)
         option_receiver = Ret EVENT_OPTION receiver' /\
       option_getstring (options (user receiver')) ([119] ++ [0]) = Some (Some val) /\ chars val = [50; 52] /\
       settings (options (user receiver')) = <[[119] := [50; 52]]> (settings (options (user option_receiver)))).
Proof.
  assert (user option_receiver = Runtime one_option tt) as Hu by (vm_compute; reflexivity).
  assert (options_wf 1 (options (user option_receiver))) as Hwf
    by (rewrite Hu; exact (proj1 one_option_wf)).
  assert (is_Some (settings (options (user option_receiver)) !! [119])) as Hknown
    by (rewrite Hu; cbn [options]; rewrite (proj2 one_option_wf); exists [49]; reflexivity).
  apply (option_reaches_process no_app (replicate 1536 0) (replicate 64 0) (Message 0 0 0) (replicate 1536 0)
    (started [] [true] no_options) [] option_receiver 5 8 [119] [50; 52] [] [] [] 1 0);
    [|vm_compute; reflexivity|vm_compute; reflexivity| |vm_compute; reflexivity|exact Hwf|exact Hknown| | |cbn; lia|cbn; lia|lia].
  - split_and!; apply length_replicate.
  - split; vm_compute; reflexivity.
  - split; [repeat constructor; lia|unfold max32; cbn [length]; lia].
  - split; [repeat constructor; lia|unfold max32; cbn [length]; lia].
Defined.

(** The event of a redirection is not checked: a message with an event of 256
    or more makes the receiver write outside its listener table. *)
Theorem redirect_event_unchecked {A : Type}
    (app_invoke : nat -> Z -> list Z -> Z -> M (runtime A) (list Z)) (stack0 num0 : list Z)
    (m0 : message) (data0 : list Z) (s : proc (runtime A)) (src ev mode channel t : Z)
    (rest : list (option (message * list Z)))
    (Hactive : active s = true) (Hlen : length (listeners s) = 256%nat) (Hdata0 : length data0 = 1536%nat)
    (Hlistener : listeners s !! 4%nat = Some (Listener (Some addr_onredirect) t false))
    (Hnext : picks (kernel s) =
       Some (message_init EVENT_REDIRECT src 12, redirect_bytes ev mode channel) :: rest)
    (Hev : 256 <= ev < 4294967296) (Hmode : 0 <= mode < 4294967296) (Hch : 0 <= channel < 4294967296) :
  channel_process (invoke app_invoke stack0 num0) m0 data0 s = Crash.
Proof.
  rewrite (process_message _ s m0 data0 _ _ _ Hactive Hnext) by (done || (cbn; lia)).
  set (s1 := with_kernel s (with_picks (kernel s) rest)).
  unfold channel_dispatch, mbind, M_bind. cbn [event message_init source].
  change (EVENT_REDIRECT <? CHANNEL_LISTENERS) with true. cbn beta iota.
  rewrite (listener_at_spec s1 EVENT_REDIRECT _ ltac:(unfold EVENT_REDIRECT; lia) Hlistener). cbn [callback].
  unfold invoke. cbn [Nat.eqb addr_onoption addr_onredirect]. unfold onredirect, redirect_bytes.
  rewrite splice_0, <- !app_assoc. unfold mbind, M_bind.
  rewrite read32_app by lia. cbn [lift].
  rewrite (drop_app_length' (le32 ev)), read32_app by (done || lia). cbn [lift].
  rewrite (drop_app_ge (le32 ev) _ 8), (drop_app_length' (le32 mode)), read32_app by (done || lia || (cbn; lia)).
  cbn [lift]. unfold channel_route, set_listener, mbind, M_bind, get, listener_at, mbind, M_bind, get.
  destruct (Z.ltb_spec ev 0); [lia|]. change (listeners s1) with (listeners s).
  by rewrite (lookup_ge_None_2 (listeners s)) by lia.
Qed.

Lemma redirect_event_unchecked_witness :
  channel_process (invoke no_app (replicate 1536 0) (replicate 64 0)) (Message 0 0 0) (replicate 1536 0)
    (started [Some (message_init EVENT_REDIRECT 5 12, redirect_bytes 4096 1 6)] [] no_options) = Crash.
Proof.
  apply (redirect_event_unchecked no_app (replicate 1536 0) (replicate 64 0) (Message 0 0 0)
    (replicate 1536 0) _ 5 4096 1 6 0 []);
    [vm_compute; reflexivity|vm_compute; reflexivity|apply length_replicate|vm_compute; reflexivity
    |vm_compute; reflexivity|lia|lia|lia].
Defined.

(** A process ends on [EVENT_TERM]: after [main_setup], the first termination
    message that reaches the loop of [main] sends [EVENT_CLOSE] to whoever
    listens for it and ends [main]; the messages behind it are not received. *)
Theorem main_ends_on_term (stack0 num0 : list Z) (m0 : message) (data0 : list Z)
    (app_invoke : nat -> Z -> list Z -> Z -> M (runtime unit) (list Z)) (fuel : nat)
    (s : proc (runtime unit)) (src : Z) (payload : list Z) (rest : list (option (message * list Z)))
    (accept : list bool) (listener : Z) (c : option nat)
    (Hactive : active s = true) (Hlen : length (listeners s) = 256%nat)
    (Hdata0 : (length payload <= length data0)%nat)
    (Hterm : listeners s !! 2%nat = Some (Listener None 0 true))
    (Hclose : listeners s !! 3%nat = Some (Listener c listener false)) (Hlistener : 0 < listener)
    (Haccept : accepted (places (kernel s)) = Some accept)
    (Hnext : picks (kernel s) =
       Some (message_init EVENT_TERM src (Z.of_nat (length payload)), payload) :: rest) :
  exists s', main_loop app_invoke stack0 num0 m0 data0 (S (S fuel)) s = Ret tt s' /\
    active s' = false /\ picks (kernel s') = rest /\
    trace (kernel s') = trace (kernel s) ++ [Place listener EVENT_CLOSE []].
Proof.
  cbn [main_loop]. unfold mbind at 1, M_bind at 1.
  rewrite (process_message _ s m0 data0 _ _ _ Hactive Hnext) by done.
  set (s1 := with_kernel s (with_picks (kernel s) rest)).
  assert (channel_dispatch (invoke app_invoke stack0 num0)
    (message_init EVENT_TERM src (Z.of_nat (length payload))) (splice data0 0 payload) s1 =
    Ret (splice data0 0 payload)
      (with_active (delivered s1 accept (Place listener EVENT_CLOSE [])) false)) as Hd.
  { unfold channel_dispatch, mbind, M_bind. cbn [event message_init].
    change (EVENT_TERM <? CHANNEL_LISTENERS) with true. cbn beta iota.
    rewrite (listener_at_spec s1 EVENT_TERM _ ltac:(unfold EVENT_TERM; lia) Hterm). cbn [callback mret M_ret].
    rewrite (listener_at_spec s1 EVENT_TERM _ ltac:(unfold EVENT_TERM; lia) Hterm). cbn [autoclose].
    unfold channel_close, mbind, M_bind.
    rewrite send_spec by (done || (unfold EVENT_CLOSE; cbn; lia)). unfold resolve.
    change (CHANNEL_DEFAULT =? 0) with true. cbn iota. change (Z.to_nat EVENT_CLOSE) with 3%nat.
    change (listeners s1) with (listeners s). rewrite Hclose. cbn [from_option target].
    destruct (Z.eqb_spec listener 0); [lia|]. change (MESSAGE_SIZE <? 0) with false. cbn [orb].
    change (places (kernel s1)) with (places (kernel s)). rewrite Haccept. done. }
  unfold mbind at 1, M_bind at 1. rewrite Hd. cbn [mret M_ret event message_init]. change (EVENT_TERM =? 0) with false.
  cbn iota. cbn [main_loop]. unfold mbind, M_bind, channel_process, mbind, M_bind.
  rewrite pick_inactive by done. cbn [Z.eqb mret M_ret]. eexists. split; [done|]. done.
Qed.

Lemma main_ends_on_term_witness :
  let pk := [Some (message_init EVENT_TERM 5 0, []); Some (message_init EVENT_STATUS 5 0, [])] in
  let s := started pk [true] no_options in
  let s1 := with_listeners s (<[3%nat := Listener None 9 false]> (listeners s)) in
  exists s', main_loop no_app (replicate 1536 0) (replicate 64 0) (Message 0 0 0) (replicate 1536 0) 2 s1 =
      Ret tt s' /\
    active s' = false /\ picks (kernel s') = [Some (message_init EVENT_STATUS 5 0, [])] /\
    trace (kernel s') = trace (kernel s1) ++ [Place 9 EVENT_CLOSE []].
Proof.
  intros pk s s1.
  apply (main_ends_on_term (replicate 1536 0) (replicate 64 0) (Message 0 0 0) (replicate 1536 0) no_app 0
    s1 5 [] [Some (message_init EVENT_STATUS 5 0, [])] [] 9 None);
    [vm_compute; reflexivity|vm_compute; reflexivity|cbn; lia|vm_compute; reflexivity
    |vm_compute; reflexivity|lia|vm_compute; reflexivity|vm_compute; reflexivity].
Defined.
