(* ===== verification/Job.v ===== *)
(** * Jobs: processes a shell starts together (src/libz/abi/job.c)

    A job is an array of workers, each with a program, its paths and options and
    the channel of the spawned process (0 when there is none).  Pointers into
    the parsed text are the rest of the text from there on; the null pointer is
    [None].  Operations on channels are those of Channel.v. *)
From S2P Require Import Prelude Buffer Cstring Option Channel Crt0.
From Stdlib Require String.
Import String.StringSyntax.

Local Open Scope string_scope.
Local Open Scope Z_scope.

Record job_arg := Arg { arg_key : option (list Z); arg_value : option (list Z) }.

Record job_worker := Worker {
  program : option (list Z); channel : Z;
  paths : list (option (list Z)); npaths : Z;
  job_options : list job_arg; noptions : Z }.

Record job := Job { workers : list job_worker; capacity : Z; job_count_ : Z }.

Definition with_channel (w : job_worker) (c : Z) : job_worker :=
  Worker (program w) c (paths w) (npaths w) (job_options w) (noptions w).

(** ** Parsing *)

(** [current + cstring_length_zero(current)], as an index of the text. *)
Definition nextword (buffer : list Z) (start : nat) : option nat :=
  n ← cstring_length_zero (drop start buffer); Some (start + Z.to_nat n)%nat.

Definition set_worker (j : job) (w : job_worker) : job :=
  Job (<[Z.to_nat (job_count_ j) := w]> (workers j)) (capacity j) (job_count_ j).

Definition parse_program (j : job) (p : job_worker) (text : list Z) : job :=
  let j := set_worker j (Worker (Some text) (channel p) (paths p) (npaths p) (job_options p) (noptions p)) in
  Job (workers j) (capacity j) (u32 (job_count_ j + 1)).

Definition parse_path (j : job) (p : job_worker) (text : list Z) : option job :=
  if npaths p <? Z.of_nat (length (paths p)) then
    Some (set_worker j (Worker (program p) (channel p) (<[Z.to_nat (npaths p) := Some text]> (paths p))
            (u32 (npaths p + 1)) (job_options p) (noptions p)))
  else None.

Definition parse_option (j : job) (p : job_worker) (val k : list Z) : option job :=
  if noptions p <? Z.of_nat (length (job_options p)) then
    Some (set_worker j (Worker (program p) (channel p) (paths p) (npaths p)
            (<[Z.to_nat (noptions p) := Arg (Some k) (Some val)]> (job_options p)) (u32 (noptions p + 1))))
  else None.

(** Every word is at least one byte long. *)
Fixpoint parse_loop (fuel : nat) (j : job) (buffer : list Z) (start stop : nat) : option job :=
  match fuel with
  | O => None
  | S fuel =>
      if (start <? stop)%nat then
        c ← buffer !! start;
        if c =? 80 then
          start ← nextword buffer start;
          p ← workers j !! Z.to_nat (job_count_ j);
          let j := parse_program j p (drop start buffer) in
          start ← nextword buffer start;
          parse_loop fuel j buffer start stop
        else if c =? 68 then
          start ← nextword buffer start;
          p ← workers j !! Z.to_nat (job_count_ j);
          j ← parse_path j p (drop start buffer);
          start ← nextword buffer start;
          parse_loop fuel j buffer start stop
        else if c =? 79 then
          start ← nextword buffer start;
          let val := drop start buffer in
          start ← nextword buffer start;
          p ← workers j !! Z.to_nat (job_count_ j);
          j ← parse_option j p val (drop start buffer);
          start ← nextword buffer start;
          parse_loop fuel j buffer start stop
        else if c =? 69 then Some j
        else
          start ← nextword buffer start;
          parse_loop fuel j buffer start stop
      else Some j
  end.

Definition job_parse (j : job) (buffer : list Z) (count : Z) : option job :=
  parse_loop (S (Z.to_nat count)) j buffer 0 (Z.to_nat count).

(** [buffer_clear] of the worker array. *)
Definition clear_worker : job_worker :=
  Worker None 0 (replicate 32 None) 0 (replicate 32 (Arg None None)) 0.

Definition job_init (ws : list job_worker) (cap : Z) : option job :=
  if cap <=? Z.of_nat (length ws) then
    Some (Job (replicate (Z.to_nat cap) clear_worker ++ drop (Z.to_nat cap) ws) cap 0)
  else None.

(** ** Operations *)

Section job.
Context {U : Type}.
Context (invoke : nat -> Z -> list Z -> Z -> M U (list Z)).
Context (stack0 num0 : list Z).

(** The bytes of a worker in memory, from its [program] field on. *)
Context (worker_bytes : job_worker -> list Z).

(** [&job->workers[i]] *)
Definition worker_at (j : job) (i : Z) : M U job_worker := lift (workers j !! Z.to_nat i).

(** The loops over [i < job->count]; the array ends before the fuel does. *)
Fixpoint activatenext_loop (fuel : nat) (j : job) (i : Z) : M U unit :=
  match fuel with
  | O => no_fuel
  | S fuel =>
      if i <? job_count_ j then
        w ← worker_at j i;
        if channel w =? 0 then activatenext_loop fuel j (i + 1)
        else _ ← channel_send (channel w) EVENT_MAIN; mret tt
      else mret tt
  end.

Definition activatenext (j : job) (startindex : Z) : M U unit :=
  activatenext_loop (S (length (workers j))) j startindex.

Fixpoint spawn_loop (fuel : nat) (j : job) (pdescriptor wdescriptor i : Z) : M U (job * Z) :=
  match fuel with
  | O => no_fuel
  | S fuel =>
      if i <? job_count_ j then
        w ← worker_at j i;
        prog ← lift (program w);
        r ← call_walk_relative pdescriptor FILE_L0 prog;
        r ← (if r =? 0 then call_walk_absolute pdescriptor prog else mret r);
        if r =? 0 then
          _ ← channel_send_fmt1 stack0 num0 CHANNEL_DEFAULT EVENT_ERROR
                (lit "Program not found: %s" ++ [10; 0]) (worker_bytes w);
          mret (j, 0)
        else
          c ← call_spawn pdescriptor wdescriptor;
          let j := Job (<[Z.to_nat i := with_channel w c]> (workers j)) (capacity j) (job_count_ j) in
          if c =? 0 then
            _ ← channel_send_fmt0 stack0 num0 CHANNEL_DEFAULT EVENT_ERROR (lit "Job spawn failed" ++ [10; 0]);
            mret (j, 0)
          else spawn_loop fuel j pdescriptor wdescriptor (i + 1)
      else mret (j, job_count_ j)
  end.

Definition job_spawn (j : job) (pdescriptor wdescriptor : Z) : M U (job * Z) :=
  r ← call_walk_absolute FILE_L0 (lit "/bin" ++ [0]);
  if r =? 0 then
    _ ← channel_send_fmt0 stack0 num0 CHANNEL_DEFAULT EVENT_ERROR (lit "Bin directory not found" ++ [10; 0]);
    mret (j, 0)
  else spawn_loop (S (length (workers j))) j pdescriptor wdescriptor 0.

(** The loops that act on every worker: [f] is the body. *)
Fixpoint each_worker (fuel : nat) (j : job) (limit i : Z) (f : Z -> job_worker -> M U unit) : M U unit :=
  match fuel with
  | O => no_fuel
  | S fuel =>
      if i <? limit then
        w ← worker_at j i;
        _ ← f i w;
        each_worker fuel j limit (i + 1) f
      else mret tt
  end.

(** [if (worker->channel) ...] *)
Definition if_alive (w : job_worker) (c : M U unit) : M U unit :=
  if channel w =? 0 then mret tt else c.

Definition job_listen (j : job) (ev : Z) : M U unit :=
  each_worker (S (length (workers j))) j (job_count_ j) 0 (fun _ w =>
    if_alive w (_ ← channel_listen (channel w) ev; mret tt)).

Definition job_pipe (j : job) (ev : Z) : M U unit :=
  each_worker (S (length (workers j))) j (u32 (job_count_ j - 1)) 0 (fun i w =>
    if_alive w (w' ← worker_at j (i + 1);
                _ ← channel_forward (channel w) ev (channel w'); mret tt)).

Fixpoint send_options (n : nat) (w : job_worker) (k : Z) : M U unit :=
  match n with
  | O => mret tt
  | S n =>
      a ← lift (job_options w !! Z.to_nat k);
      key ← lift (arg_key a);
      val ← lift (arg_value a);
      _ ← channel_send_fmt2 stack0 num0 (channel w) EVENT_OPTION option_format key val;
      send_options n w (k + 1)
  end.

Definition path_format : list Z := lit "%s\0" ++ [0].

Fixpoint send_paths (n : nat) (w : job_worker) (k : Z) : M U unit :=
  match n with
  | O => mret tt
  | S n =>
      p ← lift (paths w !! Z.to_nat k);
      path ← lift p;
      _ ← channel_send_fmt1 stack0 num0 (channel w) EVENT_PATH path_format path;
      send_paths n w (k + 1)
  end.

Definition job_run (j : job) : M U unit :=
  _ ← each_worker (S (length (workers j))) j (job_count_ j) 0 (fun _ w =>
        if_alive w (send_options (Z.to_nat (noptions w)) w 0));
  _ ← each_worker (S (length (workers j))) j (job_count_ j) 0 (fun _ w =>
        if_alive w (send_paths (Z.to_nat (npaths w)) w 0));
  activatenext j 0.

Fixpoint close_loop (fuel : nat) (j : job) (chan i : Z) : M U job :=
  match fuel with
  | O => no_fuel
  | S fuel =>
      if i <? job_count_ j then
        w ← worker_at j i;
        if channel w =? chan then
          let j := Job (<[Z.to_nat i := with_channel w 0]> (workers j)) (capacity j) (job_count_ j) in
          _ ← activatenext j (i + 1);
          mret j
        else close_loop fuel j chan (i + 1)
      else mret j
  end.

Definition job_close (j : job) (chan : Z) : M U job := close_loop (S (length (workers j))) j chan 0.

Fixpoint exist_loop (fuel : nat) (j : job) (chan i : Z) : M U Z :=
  match fuel with
  | O => no_fuel
  | S fuel =>
      if i <? job_count_ j then
        w ← worker_at j i;
        if channel w =? chan then mret chan else exist_loop fuel j chan (i + 1)
      else mret 0
  end.

Definition job_exist (j : job) (chan : Z) : M U Z := exist_loop (S (length (workers j))) j chan 0.

Fixpoint count_loop (fuel : nat) (j : job) (i total : Z) : M U Z :=
  match fuel with
  | O => no_fuel
  | S fuel =>
      if i <? job_count_ j then
        w ← worker_at j i;
        count_loop fuel j (i + 1) (if channel w =? 0 then total else total + 1)
      else mret total
  end.

Definition job_count (j : job) : M U Z := count_loop (S (length (workers j))) j 0 0.

(** The result is the returned source, the message and the data buffer. *)
Fixpoint job_pick (fuel : nat) (j : job) (m : message) (data : list Z) : M U (Z * message * list Z) :=
  match fuel with
  | O => no_fuel
  | S fuel =>
      n ← job_count j;
      if n =? 0 then mret (0, m, data)
      else
        '(r, m, data) ← channel_pick m data;
        if r =? 0 then mret (0, m, data)
        else
          x ← job_exist j (source m);
          if x =? 0 then data ← channel_dispatch invoke m data; job_pick fuel j m data
          else mret (source m, m, data)
  end.

Fixpoint sendfirst_loop (fuel : nat) (j : job) (ev count : Z) (buffer : list Z) (i : Z) : M U unit :=
  match fuel with
  | O => no_fuel
  | S fuel =>
      if i <? job_count_ j then
        w ← worker_at j i;
        if channel w =? 0 then sendfirst_loop fuel j ev count buffer (i + 1)
        else _ ← channel_send_buffer (channel w) ev count buffer; mret tt
      else mret tt
  end.

Definition job_sendfirst (j : job) (ev count : Z) (buffer : list Z) : M U unit :=
  sendfirst_loop (S (length (workers j))) j ev count buffer 0.

Definition job_sendall (j : job) (ev count : Z) (buffer : list Z) : M U unit :=
  each_worker (S (length (workers j))) j (job_count_ j) 0 (fun _ w =>
    if_alive w (_ ← channel_send_buffer (channel w) ev count buffer; mret tt)).

Fixpoint killall_loop (fuel : nat) (j : job) (i : Z) : M U job :=
  match fuel with
  | O => no_fuel
  | S fuel =>
      if i <? job_count_ j then
        w ← worker_at j i;
        if channel w =? 0 then killall_loop fuel j (i + 1)
        else
          _ ← call_kill (channel w);
          killall_loop fuel
            (Job (<[Z.to_nat i := with_channel w 0]> (workers j)) (capacity j) (job_count_ j)) (i + 1)
      else mret j
  end.

Definition job_killall (j : job) : M U job := killall_loop (S (length (workers j))) j 0.
End job.

(** ** The text of a job *)

(** What a worker is given: its paths and options, in order, then its program. *)
Inductive item := IPath (p : list Z) | IOption (k v : list Z).
Record command := Command { c_items : list item; c_program : list Z }.

Definition item_fields (x : item) : list (list Z) :=
  match x with
  | IPath p => [[68]; p]
  | IOption k v => [[79]; v; k]
  end.

Definition command_fields (c : command) : list (list Z) :=
  (c_items c ≫= item_fields) ++ [[80]; c_program c].

Definition paths_of (xs : list item) : list (list Z) :=
  xs ≫= (fun x => match x with IPath p => [p] | IOption _ _ => [] end).
Definition options_of (xs : list item) : list (list Z * list Z) :=
  xs ≫= (fun x => match x with IPath _ => [] | IOption k v => [(k, v)] end).

Definition item_ok (x : item) : Prop :=
  match x with IPath p => text p | IOption k v => text k /\ text v end.

Definition command_ok (c : command) : Prop :=
  Forall item_ok (c_items c) /\ text (c_program c) /\
  (length (paths_of (c_items c)) <= 32)%nat /\ (length (options_of (c_items c)) <= 32)%nat.

(** A pointer to the string [s]. *)
Definition points_to (o : option (list Z)) (s : list Z) : Prop := exists obj, o = Some obj /\ cstr s obj.

(** A worker holds the paths [ps] and the options [os]. *)
Definition loaded (w : job_worker) (ps : list (list Z)) (os : list (list Z * list Z)) : Prop :=
  (npaths w = Z.of_nat (length ps) /\ length (paths w) = 32%nat /\
   Forall2 points_to (take (length ps) (paths w)) ps) /\
  (noptions w = Z.of_nat (length os) /\ length (job_options w) = 32%nat /\
   Forall2 (fun a kv => points_to (arg_key a) kv.1 /\ points_to (arg_value a) kv.2)
     (take (length os) (job_options w)) os).

Definition holds (w : job_worker) (c : command) : Prop :=
  points_to (program w) (c_program c) /\ loaded w (paths_of (c_items c)) (options_of (c_items c)).

(** The first workers hold the commands [cs], the next one the items [xs]. *)
Definition job_holds (j : job) (cap : nat) (cs : list command) (xs : list item) : Prop :=
  length (workers j) = cap /\ Z.of_nat cap <= max32 /\ job_count_ j = Z.of_nat (length cs) /\
  Forall2 holds (take (length cs) (workers j)) cs /\
  (forall w, workers j !! length cs = Some w -> loaded w (paths_of xs) (options_of xs)) /\
  Forall (fun w => w = clear_worker) (drop (S (length cs)) (workers j)).

Lemma nextword_spec pre f rest :
  text f -> nextword (pre ++ f ++ 0 :: rest) (length pre) = Some (length (pre ++ f ++ [0])).
Proof.
  intros [Hf Hl]. unfold nextword, cstring_length_zero. rewrite drop_app_length.
  rewrite cstring_length_spec by (unfold max32 in *; (done || lia)). cbn [mbind option_bind].
  unfold max32 in *. rewrite u32_small by lia. rewrite !length_app. cbn [length]. f_equal. lia.
Qed.

(** The same with the text before it already split off. *)
Lemma nextword_at buffer pre f rest n :
  buffer = pre ++ f ++ 0 :: rest -> n = length pre -> text f ->
  nextword buffer n = Some (length (pre ++ f ++ [0])) /\
  buffer = (pre ++ f ++ [0]) ++ rest /\ drop (length (pre ++ f ++ [0])) buffer = rest.
Proof.
  intros -> -> Hf. split; [by apply nextword_spec|].
  assert (pre ++ f ++ 0 :: rest = (pre ++ f ++ [0]) ++ rest) as E by (rewrite <- !app_assoc; done).
  split; [done|]. by rewrite E, drop_app_length.
Qed.

Lemma points_to_app f rest : text f -> points_to (Some (f ++ 0 :: rest)) f.
Proof. intros [Hf _]. eexists. split; [done|]. split; [done|by eexists]. Qed.

Lemma take_insert_snoc {T} (l : list T) n x :
  (n < length l)%nat -> take (S n) (<[n := x]> l) = take n l ++ [x].
Proof.
  intros Hn. rewrite (take_S_r _ _ x) by (by apply list_lookup_insert_eq). by rewrite take_insert_ge by lia.
Qed.

Lemma loaded_path w ps os obj p :
  loaded w ps os -> (length ps < 32)%nat -> points_to (Some obj) p ->
  loaded (Worker (program w) (channel w) (<[Z.to_nat (npaths w) := Some obj]> (paths w))
            (u32 (npaths w + 1)) (job_options w) (noptions w)) (ps ++ [p]) os.
Proof.
  intros [(Hn & Hl & Hp) Ho] Hlt Hc. split; [|done]. cbn.
  rewrite Hn, Nat2Z.id, length_app, length_insert. cbn [length]. split_and!; [|done|].
  - rewrite u32_small by lia. lia.
  - replace (length ps + 1)%nat with (S (length ps)) by lia.
    rewrite take_insert_snoc by lia. apply Forall2_app; [done|]. by repeat constructor.
Qed.

Lemma loaded_option w ps os kobj vobj k v :
  loaded w ps os -> (length os < 32)%nat ->
  points_to (Some kobj) k -> points_to (Some vobj) v ->
  loaded (Worker (program w) (channel w) (paths w) (npaths w)
            (<[Z.to_nat (noptions w) := Arg (Some kobj) (Some vobj)]> (job_options w))
            (u32 (noptions w + 1))) ps (os ++ [(k, v)]).
Proof.
  intros [Hp (Hn & Hl & Ho)] Hlt Hk Hv. split; [done|]. cbn.
  rewrite Hn, Nat2Z.id, length_app, length_insert. cbn [length]. split_and!; [|done|].
  - rewrite u32_small by lia. lia.
  - replace (length os + 1)%nat with (S (length os)) by lia.
    rewrite take_insert_snoc by lia. apply Forall2_app; [done|]. by repeat constructor.
Qed.

Lemma set_worker_holds j cap cs xs w' xs' :
  job_holds j cap cs xs -> (length cs < cap)%nat -> loaded w' (paths_of xs') (options_of xs') ->
  job_holds (set_worker j w') cap cs xs'.
Proof.
  intros (Hl & Hm & Hc & Hf & Hw & Hd) Hlt Hload. unfold set_worker, job_holds. cbn. rewrite Hc, Nat2Z.id.
  split_and!; [by rewrite length_insert|done|done| | |].
  - by rewrite take_insert_ge by lia.
  - intros w. rewrite list_lookup_insert_eq by lia. by intros [= <-].
  - by rewrite drop_insert_lt by lia.
Qed.

Lemma job_holds_worker j cap cs xs :
  job_holds j cap cs xs -> (length cs < cap)%nat ->
  exists w, workers j !! Z.to_nat (job_count_ j) = Some w /\ loaded w (paths_of xs) (options_of xs).
Proof.
  intros (Hl & Hm & Hc & Hf & Hw & Hd) Hlt. rewrite Hc, Nat2Z.id.
  destruct (lookup_lt_is_Some_2 (workers j) (length cs)) as [w Ew]; [lia|]. eauto.
Qed.

Lemma paths_of_app xs ys : paths_of (xs ++ ys) = paths_of xs ++ paths_of ys.
Proof. apply bind_app. Qed.
Lemma options_of_app xs ys : options_of (xs ++ ys) = options_of xs ++ options_of ys.
Proof. apply bind_app. Qed.

Lemma text_letter c : c <> 0 -> text [c].
Proof. intros Hc. split; [by repeat constructor|unfold max32; cbn [length]; lia]. Qed.

Lemma lookup_letter buffer pre c rest : buffer = pre ++ [c] ++ 0 :: rest -> buffer !! length pre = Some c.
Proof. intros ->. rewrite lookup_app_r, Nat.sub_diag by lia. done. Qed.

Lemma parse_item fuel j cap cs xs x pre rest stop :
  job_holds j cap cs xs -> (length cs < cap)%nat -> item_ok x ->
  (length (paths_of (xs ++ [x])) <= 32)%nat -> (length (options_of (xs ++ [x])) <= 32)%nat ->
  (length pre < stop)%nat ->
  exists j', job_holds j' cap cs (xs ++ [x]) /\
    parse_loop (S fuel) j (pre ++ zfields (item_fields x) ++ rest) (length pre) stop =
    parse_loop fuel j' (pre ++ zfields (item_fields x) ++ rest)
      (length (pre ++ zfields (item_fields x))) stop.
Proof.
  intros Hj Hlt Hx Hps Hos Hstop. destruct (job_holds_worker _ _ _ _ Hj Hlt) as (w & Ew & Hload).
  rewrite paths_of_app in Hps. rewrite options_of_app in Hos. rewrite length_app in Hps, Hos.
  cbn [parse_loop]. destruct (Nat.ltb_spec (length pre) stop); [|lia].
  destruct x as [p|k v]; cbn [item_fields item_ok] in *.
  - set (buffer := pre ++ _). change (length (paths_of [IPath p])) with 1%nat in Hps.
    assert (buffer = pre ++ [68] ++ 0 :: (p ++ 0 :: rest)) as E0
      by (unfold buffer; rewrite !zfields_cons; cbn [zfields]; by rewrite <- !app_assoc; cbn; rewrite <- ?app_assoc).
    rewrite (lookup_letter _ _ _ _ E0). cbn [mbind option_bind Z.eqb Pos.eqb].
    destruct (nextword_at _ _ _ _ _ E0 eq_refl (text_letter 68 ltac:(lia))) as (-> & E1 & D1).
    cbn [mbind option_bind]. rewrite Ew, D1. cbn [mbind option_bind]. unfold parse_path.
    pose proof Hload as [(Hnp & Hlp & _) _].
    destruct (Z.ltb_spec (npaths w) (Z.of_nat (length (paths w)))); [|lia]. cbn [mbind option_bind].
    destruct (nextword_at _ _ _ _ _ E1 eq_refl Hx) as (-> & _ & _). cbn [mbind option_bind].
    eexists. split.
    + eapply set_worker_holds; [done|done|]. rewrite paths_of_app, options_of_app. cbn [options_of mbind list_bind].
      rewrite app_nil_r. apply loaded_path; [done|lia|by apply points_to_app].
    + f_equal. rewrite !zfields_cons, !length_app. cbn [length]. rewrite length_app. cbn [length zfields fmap list_fmap concat]. cbn. lia.
  - destruct Hx as [Hk Hv]. set (buffer := pre ++ _).
    change (length (options_of [IOption k v])) with 1%nat in Hos.
    assert (buffer = pre ++ [79] ++ 0 :: (v ++ 0 :: (k ++ 0 :: rest))) as E0
      by (unfold buffer; rewrite !zfields_cons; cbn [zfields]; by rewrite <- !app_assoc; cbn; rewrite <- ?app_assoc; cbn; rewrite <- ?app_assoc).
    rewrite (lookup_letter _ _ _ _ E0). cbn [mbind option_bind Z.eqb Pos.eqb].
    destruct (nextword_at _ _ _ _ _ E0 eq_refl (text_letter 79 ltac:(lia))) as (-> & E1 & D1).
    cbn [mbind option_bind]. rewrite D1.
    destruct (nextword_at _ _ _ _ _ E1 eq_refl Hv) as (-> & E2 & D2). cbn [mbind option_bind].
    rewrite Ew, D2. cbn [mbind option_bind]. unfold parse_option.
    pose proof Hload as [_ (Hno & Hlo & _)].
    destruct (Z.ltb_spec (noptions w) (Z.of_nat (length (job_options w)))); [|lia]. cbn [mbind option_bind].
    destruct (nextword_at _ _ _ _ _ E2 eq_refl Hk) as (-> & _ & _). cbn [mbind option_bind].
    eexists. split.
    + eapply set_worker_holds; [done|done|]. rewrite paths_of_app, options_of_app. cbn [paths_of mbind list_bind].
      rewrite app_nil_r. apply loaded_option; [done|lia|by apply points_to_app|by apply points_to_app].
    + f_equal. rewrite !zfields_cons, !length_app. cbn [length]. rewrite !length_app. cbn [length]. rewrite length_app. cbn. lia.
Qed.

Lemma zfields_item_pos x : (0 < length (zfields (item_fields x)))%nat.
Proof. destruct x; cbn [item_fields]; rewrite zfields_cons, length_app; cbn [length]; lia. Qed.

Lemma zfields_items_length xs : (length xs <= length (zfields (xs ≫= item_fields)))%nat.
Proof.
  induction xs as [|x xs IH]; [cbn; lia|].
  change ((x :: xs) ≫= item_fields) with (item_fields x ++ (xs ≫= item_fields)).
  rewrite zfields_app, length_app. cbn [length]. pose proof (zfields_item_pos x). lia.
Qed.

Lemma parse_items fuel j cap cs xs ys pre rest stop :
  job_holds j cap cs xs -> (length cs < cap)%nat -> Forall item_ok ys ->
  (length (paths_of (xs ++ ys)) <= 32)%nat -> (length (options_of (xs ++ ys)) <= 32)%nat ->
  (length (pre ++ zfields (ys ≫= item_fields)) <= stop)%nat ->
  exists j', job_holds j' cap cs (xs ++ ys) /\
    parse_loop (length ys + fuel) j (pre ++ zfields (ys ≫= item_fields) ++ rest) (length pre) stop =
    parse_loop fuel j' (pre ++ zfields (ys ≫= item_fields) ++ rest)
      (length (pre ++ zfields (ys ≫= item_fields))) stop.
Proof.
  revert j xs pre. induction ys as [|y ys IH]; intros j xs pre Hj Hlt Hok Hps Hos Hstop.
  { exists j. rewrite app_nil_r. cbn. rewrite app_nil_r. done. }
  apply Forall_cons in Hok as [Hy Hok].
  change ((y :: ys) ≫= item_fields) with (item_fields y ++ (ys ≫= item_fields)) in *.
  rewrite zfields_app in *. rewrite (cons_middle y xs) in *.
  destruct (parse_item (length ys + fuel) j cap cs xs y pre (zfields (ys ≫= item_fields) ++ rest) stop)
    as (j1 & Hj1 & E1); try done.
  { rewrite app_assoc, paths_of_app, length_app in Hps. lia. }
  { rewrite app_assoc, options_of_app, length_app in Hos. lia. }
  { pose proof (zfields_item_pos y). rewrite !length_app in Hstop. lia. }
  rewrite <- !app_assoc in *. cbn [length Nat.add]. rewrite E1.
  destruct (IH j1 (xs ++ [y]) (pre ++ zfields (item_fields y))) as (j' & Hj' & E2);
    rewrite <- ?app_assoc in *; try done.
  exists j'. split; [done|]. rewrite E2. done.
Qed.

Lemma clear_loaded : loaded clear_worker [] [].
Proof. split; split_and!; done. Qed.

Lemma parse_program_step fuel j cap cs xs prog pre rest stop :
  job_holds j cap cs xs -> (length cs < cap)%nat -> text prog -> (length pre < stop)%nat ->
  exists j', job_holds j' cap (cs ++ [Command xs prog]) [] /\
    parse_loop (S fuel) j (pre ++ zfields [[80]; prog] ++ rest) (length pre) stop =
    parse_loop fuel j' (pre ++ zfields [[80]; prog] ++ rest) (length (pre ++ zfields [[80]; prog])) stop.
Proof.
  intros Hj Hlt Hp Hstop. destruct (job_holds_worker _ _ _ _ Hj Hlt) as (w & Ew & Hload).
  cbn [parse_loop]. destruct (Nat.ltb_spec (length pre) stop); [|lia]. set (buffer := pre ++ _).
  assert (buffer = pre ++ [80] ++ 0 :: (prog ++ 0 :: rest)) as E0
    by (unfold buffer; rewrite !zfields_cons; by rewrite <- !app_assoc; cbn; rewrite <- ?app_assoc).
  rewrite (lookup_letter _ _ _ _ E0). cbn [mbind option_bind Z.eqb Pos.eqb].
  destruct (nextword_at _ _ _ _ _ E0 eq_refl (text_letter 80 ltac:(lia))) as (-> & E1 & D1).
  cbn [mbind option_bind]. rewrite Ew, D1. cbn [mbind option_bind].
  destruct (nextword_at _ _ _ _ _ E1 eq_refl Hp) as (-> & _ & _). cbn [mbind option_bind].
  exists (parse_program j w (prog ++ 0 :: rest)). split.
  - destruct Hj as (Hl & Hm & Hc & Hf & Hw & Hd). unfold parse_program, set_worker, job_holds. cbn [workers job_count_ capacity].
    rewrite Hc, Nat2Z.id, length_app. cbn [length]. unfold max32 in *. split_and!.
    + by rewrite length_insert.
    + done.
    + rewrite u32_small by lia. lia.
    + replace (length cs + 1)%nat with (S (length cs)) by lia. rewrite take_insert_snoc by lia.
      apply Forall2_app; [done|]. repeat constructor; try apply Hload. by apply points_to_app.
    + intros w' Ew'. rewrite list_lookup_insert_ne in Ew' by lia.
      rewrite Forall_lookup in Hd. rewrite (Hd 0%nat w'); [apply clear_loaded|].
      rewrite lookup_drop. by replace (S (length cs) + 0)%nat with (length cs + 1)%nat by lia.
    + rewrite drop_insert_lt by lia. replace (S (length cs + 1)) with (S (length cs) + 1)%nat by lia.
      rewrite <- drop_drop. by apply Forall_drop.
  - f_equal. rewrite !zfields_cons, !length_app. cbn [length]. rewrite length_app. cbn. lia.
Qed.

Lemma parse_commands fuel j cap cs ds pre rest stop :
  job_holds j cap cs [] -> (length (cs ++ ds) <= cap)%nat -> Forall command_ok ds ->
  (length (pre ++ zfields (ds ≫= command_fields)) <= stop)%nat ->
  (length (zfields (ds ≫= command_fields)) <= fuel)%nat ->
  exists j' fuel', job_holds j' cap (cs ++ ds) [] /\
    (fuel - length (zfields (ds ≫= command_fields)) <= fuel')%nat /\
    parse_loop fuel j (pre ++ zfields (ds ≫= command_fields) ++ rest) (length pre) stop =
    parse_loop fuel' j' (pre ++ zfields (ds ≫= command_fields) ++ rest)
      (length (pre ++ zfields (ds ≫= command_fields))) stop.
Proof.
  revert fuel j cs pre. induction ds as [|d ds IH]; intros fuel j cs pre Hj Hcap Hok Hstop Hfuel.
  { exists j, fuel. rewrite app_nil_r. cbn. rewrite app_nil_r. split_and!; [done|lia|done]. }
  apply Forall_cons in Hok as [(Hxs & Hp & Hps & Hos) Hok]. destruct d as [xs prog]. cbn [c_items c_program] in *.
  change ((Command xs prog :: ds) ≫= command_fields)
    with (((xs ≫= item_fields) ++ [[80]; prog]) ++ (ds ≫= command_fields)) in *.
  rewrite !zfields_app in *. rewrite <- !app_assoc in *.
  rewrite !length_app in Hstop. rewrite !length_app in Hfuel. rewrite !length_app in Hcap. cbn [length] in Hcap.
  assert (0 < length (zfields [[80%Z]; prog]))%nat by (rewrite zfields_cons, length_app; cbn [length]; lia).
  pose proof (zfields_items_length xs) as Hlx.
  destruct fuel as [|fuel]; [lia|].
  replace (S fuel) with (length xs + S (fuel - length xs))%nat by lia.
  destruct (parse_items (S (fuel - length xs)) j cap cs [] xs pre
    (zfields [[80]; prog] ++ zfields (ds ≫= command_fields) ++ rest) stop Hj)
    as (j1 & Hj1 & E1); [solve [cbn [app]; rewrite ?length_app; done || lia]..|].
  rewrite E1.
  destruct (parse_program_step (fuel - length xs) j1 cap cs xs prog (pre ++ zfields (xs ≫= item_fields))
    (zfields (ds ≫= command_fields) ++ rest) stop Hj1) as (j2 & Hj2 & E2);
    [solve [rewrite ?length_app; done || lia]..|].
  rewrite <- !app_assoc in E2. rewrite E2.
  destruct (IH (fuel - length xs)%nat j2 (cs ++ [Command xs prog])
    (pre ++ zfields (xs ≫= item_fields) ++ zfields [[80]; prog]) Hj2) as (j' & fuel' & Hj' & Hf & E3);
    [solve [rewrite ?length_app; cbn [length]; done || lia]..|].
  exists j', fuel'. rewrite <- (app_assoc cs) in Hj'. split; [done|].
  rewrite <- !app_assoc in E3. rewrite E3. split; [rewrite !length_app; lia|done].
Qed.

Lemma job_init_holds ws cap :
  (cap <= length ws)%nat -> Z.of_nat (length ws) <= max32 ->
  exists j, job_init ws (Z.of_nat cap) = Some j /\ length (workers j) = length ws /\
    (cap = length ws -> job_holds j cap [] []).
Proof.
  intros Hc Hm. unfold job_init. destruct (Z.leb_spec (Z.of_nat cap) (Z.of_nat (length ws))); [|lia].
  rewrite Nat2Z.id. eexists. split; [done|]. cbn [workers].
  rewrite length_app, length_replicate, length_drop. split; [lia|].
  intros ->. unfold job_holds. cbn [workers job_count_ length]. rewrite drop_all, app_nil_r, length_replicate.
  split_and!; [done|done|done|constructor| |].
  - intros w Hw. apply lookup_replicate in Hw as [-> _]. apply clear_loaded.
  - apply Forall_drop, Forall_replicate. done.
Qed.

(** What a text of commands is parsed to. *)
Lemma job_parse_commands (ws : list job_worker) (ds : list command) (post : list Z)
    (Hws : Z.of_nat (length ws) <= max32) (Hcap : (length ds <= length ws)%nat)
    (Hds : Forall command_ok ds) :
  let buffer := zfields ((ds ≫= command_fields) ++ [[69]]) in
  exists j0 j, job_init ws (Z.of_nat (length ws)) = Some j0 /\
    job_parse j0 (buffer ++ post) (Z.of_nat (length buffer)) = Some j /\
    job_count_ j = Z.of_nat (length ds) /\ Forall2 holds (take (length ds) (workers j)) ds.
Proof.
  intros buffer. destruct (job_init_holds ws (length ws)) as (j0 & Hinit & _ & Hj0); [lia|done|].
  specialize (Hj0 eq_refl). unfold job_parse. rewrite Nat2Z.id.
  assert (buffer ++ post = [] ++ zfields (ds ≫= command_fields) ++ [69] ++ 0 :: post) as Eb
    by (unfold buffer; rewrite zfields_app, <- app_assoc; done).
  assert (length buffer = length (zfields (ds ≫= command_fields)) + 2)%nat as Hlb
    by (unfold buffer; rewrite zfields_app, length_app; done).
  destruct (parse_commands (S (length buffer)) j0 (length ws) [] ds [] ([69] ++ 0 :: post) (length buffer) Hj0)
    as (j & fuel' & Hj & Hf & E); [done|done|cbn [app]; lia|lia|].
  exists j0, j. split; [done|]. rewrite Eb. cbn [length] in E. rewrite E.
  destruct fuel' as [|fuel']; [lia|]. cbn [parse_loop app].
  destruct (Nat.ltb_spec (length (zfields (ds ≫= command_fields))) (length buffer)); [|lia].
  rewrite lookup_app_r, Nat.sub_diag by lia. cbn.
  destruct Hj as (_ & _ & Hc & Hall & _). done.
Qed.

(** Parsing a job inverts its text: for any sequence of commands that fits the
    worker array, the text [O value key], [D path] and [P program] of each
    command, ended by [E], gives a job with one worker per command, in order,
    whose program, paths and options are those of the command; what follows the
    [E] is not read. *)
Theorem job_parse_correct (ws : list job_worker) (ds : list command) (post : list Z)
    (Hws : Z.of_nat (length ws) <= max32) (Hcap : (length ds <= length ws)%nat)
    (Hds : Forall command_ok ds) :
  let buffer := zfields ((ds ≫= command_fields) ++ [[69]]) in
  exists j0 j, job_init ws (Z.of_nat (length ws)) = Some j0 /\
    job_parse j0 (buffer ++ post) (Z.of_nat (length buffer)) = Some j /\
    job_count_ j = Z.of_nat (length ds) /\ Forall2 holds (take (length ds) (workers j)) ds.
Proof. by apply job_parse_commands. Qed.

(** The text of [cat a ?n 3 | wc]. *)
Definition sample_commands : list command :=
  [Command [IOption [110] [51]; IPath [97]] [99; 97; 116]; Command [] [119; 99]].

Lemma sample_commands_ok : Forall command_ok sample_commands.
Proof.
  assert (forall c, c <> 0 -> text [c]) as Ht by apply text_letter.
  repeat constructor; cbn; try lia; unfold max32; cbn [length]; lia.
Qed.

Lemma job_parse_correct_witness :
  let buffer := [79; 0; 51; 0; 110; 0; 68; 0; 97; 0; 80; 0; 99; 97; 116; 0; 80; 0; 119; 99; 0; 69; 0] in
  exists j0 j, job_init (replicate 3 clear_worker) 3 = Some j0 /\
    job_parse j0 (buffer ++ [1; 2]) (Z.of_nat (length buffer)) = Some j /\ job_count_ j = 2 /\
    Forall2 holds (take 2 (workers j)) sample_commands.
Proof.
  apply (job_parse_correct (replicate 3 clear_worker) sample_commands [1; 2]);
    [unfold max32; cbn [length replicate]; lia|cbn; lia|exact sample_commands_ok].
Defined.

(** ** What a job asks of the kernel *)

(** The messages for a worker with the channel [c]. *)
Definition option_requests (c : Z) (os : list (list Z * list Z)) : list request :=
  (fun kv => Place c EVENT_OPTION (zfields [kv.1; kv.2])) <$> os.
Definition path_requests (c : Z) (ps : list (list Z)) : list request :=
  (fun p => Place c EVENT_PATH (zfields [p])) <$> ps.

(** The channels of the workers of a job. *)
Definition channels (j : job) : list Z := channel <$> take (Z.to_nat (job_count_ j)) (workers j).

Definition job_ok (j : job) : Prop := 0 <= job_count_ j <= Z.of_nat (length (workers j)).

(** The first worker that is alive gets [EVENT_MAIN]. *)
Fixpoint main_request (cs : list Z) : list request :=
  match cs with
  | [] => []
  | c :: cs => if c =? 0 then main_request cs else [Place c EVENT_MAIN []]
  end.

Section emitted.
Context {U : Type}.

Lemma worker_at_emits (j : job) i w :
  workers j !! Z.to_nat i = Some w -> emits (worker_at j i : M U _) w [].
Proof. intros Hw. by apply emits_lift. Qed.

Lemma channels_lookup j (i : nat) w :
  job_ok j -> Z.of_nat i < job_count_ j -> workers j !! i = Some w -> channels j !! i = Some (channel w).
Proof.
  intros Hj Hi Hw. unfold channels. rewrite list_lookup_fmap, lookup_take_lt by lia. by rewrite Hw.
Qed.

Lemma length_channels j : job_ok j -> length (channels j) = Z.to_nat (job_count_ j).
Proof. intros Hj. unfold job_ok in Hj. unfold channels. rewrite length_fmap, length_take. lia. Qed.

Lemma emits_main (c : Z) : c <> 0 -> emits (channel_send c EVENT_MAIN : M U Z) 0 [Place c EVENT_MAIN []].
Proof. intros Hc. apply (emits_send c EVENT_MAIN 0 []); [unfold EVENT_MAIN; lia|done|lia|cbn; lia]. Qed.

Lemma activatenext_emits j (i : nat) :
  job_ok j -> emits (activatenext j (Z.of_nat i) : M U unit) tt (main_request (drop i (channels j))).
Proof.
  intros Hj. unfold activatenext. pose proof (length_channels j Hj) as Hlc. unfold job_ok in Hj.
  assert (forall fuel i, (Z.to_nat (job_count_ j) - i < fuel)%nat ->
    emits (activatenext_loop fuel j (Z.of_nat i) : M U unit) tt (main_request (drop i (channels j)))) as H.
  2: { apply H. lia. }
  clear i. induction fuel as [|fuel IH]; intros i Hf; [lia|]. cbn [activatenext_loop].
  destruct (Z.ltb_spec (Z.of_nat i) (job_count_ j)).
  - destruct (lookup_lt_is_Some_2 (workers j) i) as [w Hw]; [lia|].
    eapply emits_bind_r; [apply worker_at_emits; by rewrite Nat2Z.id|].
    rewrite (drop_S _ _ _ (channels_lookup j i w Hj ltac:(lia) Hw)). cbn [main_request].
    destruct (Z.eqb_spec (channel w) 0).
    + replace (Z.of_nat i + 1) with (Z.of_nat (S i)) by lia. apply IH. lia.
    + apply (emits_bind _ _ 0 tt [Place (channel w) EVENT_MAIN []] []); [by apply emits_main|apply emits_ret].
  - rewrite drop_ge by lia. apply emits_ret.
Qed.

(** The loops over the workers concatenate the requests of their bodies. *)
Lemma each_worker_emits j limit (f : Z -> job_worker -> M U unit) (g : nat -> job_worker -> list request) :
  0 <= limit <= Z.of_nat (length (workers j)) ->
  (forall i w, workers j !! i = Some w -> Z.of_nat i < limit -> emits (f (Z.of_nat i) w) tt (g i w)) ->
  emits (each_worker (S (length (workers j))) j limit 0 f) tt
    (concat (imap g (take (Z.to_nat limit) (workers j)))).
Proof.
  intros Hlim Hf. set (ws := take (Z.to_nat limit) (workers j)).
  assert (forall fuel i, (Z.to_nat limit - i < fuel)%nat ->
    emits (each_worker fuel j limit (Z.of_nat i) f) tt (concat (imap (fun k => g (i + k)%nat) (drop i ws)))) as H.
  { induction fuel as [|fuel IH]; intros i Hfu; [lia|]. cbn [each_worker].
    assert (length ws = Z.to_nat limit) as Hlw by (unfold ws; rewrite length_take; lia).
    destruct (Z.ltb_spec (Z.of_nat i) limit).
    - destruct (lookup_lt_is_Some_2 (workers j) i) as [w Hw]; [lia|].
      eapply emits_bind_r; [apply worker_at_emits; by rewrite Nat2Z.id|].
      assert (ws !! i = Some w) as Hw' by (unfold ws; by rewrite lookup_take_lt by lia).
      rewrite (drop_S _ _ _ Hw'). cbn [imap concat]. rewrite Nat.add_0_r.
      eapply emits_bind; [by apply Hf|]. replace (Z.of_nat i + 1) with (Z.of_nat (S i)) by lia.
      erewrite imap_ext; [apply IH; lia|]. intros k x _. cbn. f_equal. lia.
    - rewrite drop_ge by lia. apply emits_ret. }
  specialize (H (S (length (workers j))) 0%nat ltac:(lia)). by rewrite drop_0 in H.
Qed.

Lemma if_alive_emits (w : job_worker) (c : M U unit) rs :
  channel w <> 0 -> emits c tt rs -> emits (if_alive w c) tt rs.
Proof. intros Hc He. unfold if_alive. by destruct (Z.eqb_spec (channel w) 0). Qed.
End emitted.

Section formatted.
Context {U : Type} (stack0 num0 : list Z).
Context (Hst : length stack0 = 1536%nat) (Hn0 : length num0 = 64%nat).

Definition fits (xs : list item) : Prop :=
  Forall (fun x => match x with
                   | IPath p => text p /\ (length p <= 1535)%nat
                   | IOption k v => text k /\ text v /\ (length k + length v <= 1534)%nat
                   end) xs.

Lemma emits_option c kobj vobj k v :
  c <> 0 -> cstr k kobj -> cstr v vobj -> text k -> text v -> (length k + length v <= 1534)%nat ->
  exists n, emits (channel_send_fmt2 stack0 num0 c EVENT_OPTION option_format kobj vobj : M U Z) n
    [Place c EVENT_OPTION (zfields [k; v])].
Proof.
  intros Hc [_ [r1 ->]] [_ [r2 ->]] Hk Hv Hl.
  assert ([TStr k r1; TNul; TStr v r2; TNul] ≫= text_of = zfields [k; v]) as Et
    by (rewrite !zfields_cons; reflexivity).
  rewrite <- Et. eexists. apply (emits_tokens stack0 num0 c EVENT_OPTION [TStr k r1; TNul; TStr v r2; TNul]);
    [done|done| | | |unfold EVENT_OPTION; lia|done].
  - destruct Hk as [Hk Hk'], Hv as [Hv Hv']. unfold max32 in *.
    apply Forall_cons_2; [split; [done|unfold max32; lia]|]. apply Forall_cons_2; [exact I|].
    apply Forall_cons_2; [split; [done|unfold max32; lia]|]. apply Forall_cons_2; [exact I|].
    apply Forall_nil_2.
  - cbn. unfold max32. lia.
  - rewrite Et, !zfields_cons, length_app. cbn [length]. rewrite length_app. cbn. lia.
Qed.

Lemma emits_path c pobj p :
  c <> 0 -> cstr p pobj -> text p -> (length p <= 1535)%nat ->
  exists n, emits (channel_send_fmt1 stack0 num0 c EVENT_PATH path_format pobj : M U Z) n
    [Place c EVENT_PATH (zfields [p])].
Proof.
  intros Hc [_ [r1 ->]] Hp Hl.
  assert ([TStr p r1; TNul] ≫= text_of = zfields [p]) as Et by (rewrite !zfields_cons; reflexivity).
  rewrite <- Et. eexists. apply (emits_tokens stack0 num0 c EVENT_PATH [TStr p r1; TNul]);
    [done|done| | | |unfold EVENT_PATH; lia|done].
  - destruct Hp as [Hp Hp']. unfold max32 in *.
    apply Forall_cons_2; [split; [done|unfold max32; lia]|]. apply Forall_cons_2; [exact I|].
    apply Forall_nil_2.
  - cbn. unfold max32. lia.
  - rewrite Et, zfields_cons, length_app. cbn. lia.
Qed.

Lemma fits_options xs k v :
  fits xs -> (k, v) ∈ options_of xs -> text k /\ text v /\ (length k + length v <= 1534)%nat.
Proof.
  intros Hf Hin. apply list_elem_of_bind in Hin as ([p|k' v'] & Hin & Hx); [set_solver|].
  apply list_elem_of_singleton in Hin. injection Hin as -> ->.
  unfold fits in Hf. rewrite Forall_forall in Hf. exact (Hf _ Hx).
Qed.

Lemma fits_paths xs p : fits xs -> p ∈ paths_of xs -> text p /\ (length p <= 1535)%nat.
Proof.
  intros Hf Hin. apply list_elem_of_bind in Hin as ([p'|k' v'] & Hin & Hx); [|set_solver].
  apply list_elem_of_singleton in Hin as ->. unfold fits in Hf. rewrite Forall_forall in Hf. exact (Hf _ Hx).
Qed.

Lemma send_options_emits w xs :
  loaded w (paths_of xs) (options_of xs) -> fits xs -> channel w <> 0 ->
  emits (send_options stack0 num0 (Z.to_nat (noptions w)) w 0 : M U unit) tt
    (option_requests (channel w) (options_of xs)).
Proof.
  intros [_ (Hn & Hl & Ho)] Hf Hc. rewrite Hn, Nat2Z.id.
  set (os := options_of xs) in *.
  assert (forall n i, (i + n = length os)%nat ->
    emits (send_options stack0 num0 n w (Z.of_nat i) : M U unit) tt (option_requests (channel w) (drop i os))) as H.
  2: { specialize (H (length os) 0%nat eq_refl). by rewrite drop_0 in H. }
  induction n as [|n IH]; intros i Hi; cbn [send_options].
  { rewrite drop_ge by lia. apply emits_ret. }
  destruct (lookup_lt_is_Some_2 os i) as [[k v] Hkv]; [lia|].
  destruct (Forall2_lookup_r _ _ _ _ _ Ho Hkv) as (a & Ha & (kobj & Ek & Hk) & (vobj & Ev & Hv)).
  rewrite lookup_take_lt in Ha by lia. cbn [fst snd] in *.
  destruct (fits_options xs k v Hf) as (Hkt & Hvt & Hlen); [by eapply list_elem_of_lookup_2|].
  rewrite (drop_S _ _ _ Hkv).
  eapply emits_bind_r; [apply emits_lift; by rewrite Nat2Z.id|]. cbn beta.
  eapply emits_bind_r; [by apply emits_lift|]. cbn beta. eapply emits_bind_r; [by apply emits_lift|]. cbn beta.
  destruct (emits_option (channel w) kobj vobj k v Hc Hk Hv Hkt Hvt Hlen) as [m Hm].
  apply (emits_bind _ _ m tt [_] _ Hm). replace (Z.of_nat i + 1) with (Z.of_nat (S i)) by lia. apply IH. lia.
Qed.

Lemma send_paths_emits w xs :
  loaded w (paths_of xs) (options_of xs) -> fits xs -> channel w <> 0 ->
  emits (send_paths stack0 num0 (Z.to_nat (npaths w)) w 0 : M U unit) tt
    (path_requests (channel w) (paths_of xs)).
Proof.
  intros [(Hn & Hl & Ho) _] Hf Hc. rewrite Hn, Nat2Z.id.
  set (ps := paths_of xs) in *.
  assert (forall n i, (i + n = length ps)%nat ->
    emits (send_paths stack0 num0 n w (Z.of_nat i) : M U unit) tt (path_requests (channel w) (drop i ps))) as H.
  2: { specialize (H (length ps) 0%nat eq_refl). by rewrite drop_0 in H. }
  induction n as [|n IH]; intros i Hi; cbn [send_paths].
  { rewrite drop_ge by lia. apply emits_ret. }
  destruct (lookup_lt_is_Some_2 ps i) as [p Hp]; [lia|].
  destruct (Forall2_lookup_r _ _ _ _ _ Ho Hp) as (a & Ha & pobj & Ea & Hpo). subst a.
  rewrite lookup_take_lt in Ha by lia.
  destruct (fits_paths xs p Hf) as (Hpt & Hlen); [by eapply list_elem_of_lookup_2|].
  rewrite (drop_S _ _ _ Hp).
  eapply emits_bind_r; [apply emits_lift; by rewrite Nat2Z.id|]. cbn beta.
  eapply emits_bind_r; [by apply emits_lift|]. cbn beta.
  destruct (emits_path (channel w) pobj p Hc Hpo Hpt Hlen) as [m Hm].
  apply (emits_bind _ _ m tt [_] _ Hm). replace (Z.of_nat i + 1) with (Z.of_nat (S i)) by lia. apply IH. lia.
Qed.

(** Everything [job_run] asks for, in order. *)
Definition run_requests (cs : list Z) (ds : list command) : list request :=
  concat (zip_with (fun c d => option_requests c (options_of (c_items d))) cs ds) ++
  concat (zip_with (fun c d => path_requests c (paths_of (c_items d))) cs ds) ++
  main_request cs.

Lemma imap_zip_with (f : Z -> command -> list request) ws ds :
  length ws = length ds ->
  imap (fun i w => from_option (f (channel w)) [] (ds !! i)) ws = zip_with f (channel <$> ws) ds.
Proof.
  revert ds. induction ws as [|w ws IH]; intros [|d ds] Hl; try done.
  cbn. f_equal. rewrite <- IH by (cbn in Hl; lia). by apply imap_ext.
Qed.

Lemma job_run_emits j ds :
  job_ok j -> job_count_ j = Z.of_nat (length ds) ->
  Forall2 holds (take (length ds) (workers j)) ds -> Forall (fun d => fits (c_items d)) ds ->
  Forall (fun c => c <> 0) (channels j) ->
  emits (job_run stack0 num0 j : M U unit) tt (run_requests (channels j) ds).
Proof.
  intros Hj Hc Hh Hf Hne. pose proof Hj as Hj'. unfold job_ok in Hj'. rewrite Hc in Hj'.
  assert (forall i w d, workers j !! i = Some w -> ds !! i = Some d ->
    loaded w (paths_of (c_items d)) (options_of (c_items d)) /\ fits (c_items d) /\ channel w <> 0) as Hw.
  { intros i w d Hw Hd. pose proof (lookup_lt_Some _ _ _ Hd).
    destruct (Forall2_lookup_r _ _ _ _ _ Hh Hd) as (w' & Hw' & _ & Hload).
    rewrite lookup_take_lt, Hw in Hw' by lia. injection Hw' as <-.
    rewrite Forall_lookup in Hf. rewrite Forall_lookup in Hne. split_and!; [done|by eapply Hf|].
    apply (Hne i). apply channels_lookup; [done|lia|done]. }
  assert (forall (f : Z -> command -> list request) body,
    (forall i w d, workers j !! i = Some w -> ds !! i = Some d -> emits (body (Z.of_nat i) w : M U unit) tt (f (channel w) d)) ->
    emits (each_worker (S (length (workers j))) j (job_count_ j) 0 body) tt (concat (zip_with f (channels j) ds))) as Heach.
  { intros f body Hbody. unfold channels. rewrite <- imap_zip_with by (rewrite length_take; lia).
    apply each_worker_emits; [lia|]. intros i w Hwi Hi.
    destruct (lookup_lt_is_Some_2 ds i) as [d Hd]; [lia|]. rewrite Hd. by apply Hbody. }
  unfold job_run, run_requests. eapply emits_bind; [|eapply emits_bind].
  - apply Heach. intros i w d Hwi Hd. destruct (Hw i w d Hwi Hd) as (? & ? & ?).
    apply if_alive_emits; [done|by apply send_options_emits].
  - apply Heach. intros i w d Hwi Hd. destruct (Hw i w d Hwi Hd) as (? & ? & ?).
    apply if_alive_emits; [done|by apply send_paths_emits].
  - pose proof (activatenext_emits (U := U) j 0 Hj) as H. by rewrite drop_0 in H.
Qed.
End formatted.

Section closing.
Context {U : Type}.

(** Closing the worker with the channel [c]. *)
Lemma job_close_emits j (i : nat) c :
  job_ok j -> channels j !! i = Some c -> c ∉ take i (channels j) ->
  exists j', emits (job_close j c : M U job) j' (main_request (drop (S i) (channels j))) /\
    channels j' = <[i := 0]> (channels j) /\ job_ok j'.
Proof.
  intros Hj Hi Hnotin. pose proof (length_channels j Hj) as Hlc. pose proof Hj as Hj'. unfold job_ok in Hj'.
  pose proof (lookup_lt_Some _ _ _ Hi) as Hlt.
  destruct (lookup_lt_is_Some_2 (workers j) i) as [w Hw]; [lia|].
  pose proof (channels_lookup j i w Hj ltac:(lia) Hw) as Hcw. rewrite Hi in Hcw. injection Hcw as Hcw.
  set (j' := Job (<[i := with_channel w 0]> (workers j)) (capacity j) (job_count_ j)).
  assert (job_ok j') as Hok by (unfold job_ok, j'; cbn; rewrite length_insert; lia).
  assert (channels j' = <[i := 0]> (channels j)) as Hch.
  { unfold channels, j'. cbn [job_count_ workers]. rewrite take_insert_lt by lia.
    by rewrite list_fmap_insert. }
  exists j'. split; [|done]. unfold job_close.
  assert (forall fuel k, (k <= i)%nat -> (i - k < fuel)%nat ->
    emits (close_loop fuel j c (Z.of_nat k) : M U job) j' (main_request (drop (S i) (channels j)))) as H.
  2: { apply (H _ 0%nat); lia. }
  induction fuel as [|fuel IH]; intros k Hk Hf; [lia|]. cbn [close_loop].
  destruct (Z.ltb_spec (Z.of_nat k) (job_count_ j)); [|lia].
  destruct (lookup_lt_is_Some_2 (workers j) k) as [wk Hwk]; [lia|].
  eapply emits_bind_r; [apply worker_at_emits; by rewrite Nat2Z.id|].
  destruct (Z.eqb_spec (channel wk) c) as [He|He].
  - destruct (decide (k = i)) as [->|Hki].
    + rewrite Hw in Hwk. injection Hwk as <-. rewrite Nat2Z.id. fold j'.
      replace (Z.of_nat i + 1) with (Z.of_nat (S i)) by lia.
      rewrite <- (app_nil_r (main_request (drop (S i) (channels j)))).
      eapply emits_bind; [|apply emits_ret].
      pose proof (activatenext_emits (U := U) j' (S i) Hok) as Ha. rewrite Hch, drop_insert_lt in Ha by lia. exact Ha.
    + exfalso. apply Hnotin. apply list_elem_of_lookup. exists k. rewrite lookup_take_lt by lia.
      rewrite <- He. apply channels_lookup; [done|lia|done].
  - destruct (decide (k = i)) as [->|Hki]; [congruence|].
    replace (Z.of_nat k + 1) with (Z.of_nat (S k)) by lia. apply IH; lia.
Qed.

Lemma job_count_emits j :
  job_ok j -> emits (job_count j : M U Z) (Z.of_nat (length (filter (fun c => c <> 0) (channels j)))) [].
Proof.
  intros Hj. pose proof (length_channels j Hj) as Hlc. pose proof Hj as Hj'. unfold job_ok in Hj'.
  unfold job_count.
  assert (forall fuel i total, (Z.to_nat (job_count_ j) - i < fuel)%nat ->
    emits (count_loop fuel j (Z.of_nat i) total : M U Z)
      (total + Z.of_nat (length (filter (fun c => c <> 0) (drop i (channels j))))) []) as H.
  2: { apply (H _ 0%nat). lia. }
  induction fuel as [|fuel IH]; intros i total Hf; [lia|]. cbn [count_loop].
  destruct (Z.ltb_spec (Z.of_nat i) (job_count_ j)).
  - destruct (lookup_lt_is_Some_2 (workers j) i) as [w Hw]; [lia|].
    eapply emits_bind_r; [apply worker_at_emits; by rewrite Nat2Z.id|].
    rewrite (drop_S _ _ _ (channels_lookup j i w Hj ltac:(lia) Hw)), filter_cons.
    replace (Z.of_nat i + 1) with (Z.of_nat (S i)) by lia.
    destruct (Z.eqb_spec (channel w) 0).
    + rewrite decide_False by (intros Hn; done). apply IH. lia.
    + rewrite decide_True by done. specialize (IH (S i) (total + 1) ltac:(lia)).
      set (rest := filter (fun c => c <> 0) (drop (S i) (channels j))) in *. cbn [length].
      by replace (total + Z.of_nat (S (length rest))) with (total + 1 + Z.of_nat (length rest)) by lia.
  - rewrite drop_ge by lia. cbn. rewrite Z.add_0_r. apply emits_ret.
Qed.

(** The workers close one after the other. *)
Fixpoint close_all (cs : list Z) (j : job) : M U job :=
  match cs with
  | [] => mret j
  | c :: cs => j ← job_close j c; close_all cs j
  end.

Definition start (c : Z) : request := Place c EVENT_MAIN [].

Lemma main_request_alive cs : Forall (fun c => c <> 0) cs -> main_request cs = start <$> take 1 cs.
Proof. intros H. destruct H as [|c cs Hc _]; cbn; [done|]. destruct (Z.eqb_spec c 0); done. Qed.

(** From the state in which the first [i] workers have closed. *)
Lemma close_all_emits cs n : forall i j,
  job_ok j -> channels j = replicate i 0 ++ drop i cs -> Forall (fun c => c <> 0) cs ->
  (i + n <= length cs)%nat ->
  exists j', emits (close_all (take n (drop i cs)) j) j' (start <$> take n (drop (S i) cs)) /\
    job_ok j' /\ channels j' = replicate (i + n) 0 ++ drop (i + n) cs.
Proof.
  induction n as [|n IH]; intros i j Hj Hch Hne Hn.
  { exists j. rewrite !take_0, Nat.add_0_r. split; [apply emits_ret|done]. }
  destruct (lookup_lt_is_Some_2 cs i) as [c Hc]; [lia|].
  assert (channels j !! i = Some c) as Hci.
  { rewrite Hch, lookup_app_r, length_replicate, Nat.sub_diag, lookup_drop, Nat.add_0_r by (rewrite length_replicate; lia). done. }
  destruct (job_close_emits j i c Hj Hci) as (j1 & He & Hch1 & Hj1).
  { rewrite Hch, take_app_length' by (by rewrite length_replicate).
    intros Hin. apply elem_of_replicate in Hin as [-> _]. rewrite Forall_lookup in Hne. by apply (Hne i 0). }
  assert (channels j1 = replicate (S i) 0 ++ drop (S i) cs) as Hch1'.
  { rewrite Hch1, Hch, (drop_S _ _ _ Hc).
    rewrite insert_app_r_alt, length_replicate, Nat.sub_diag by (rewrite length_replicate; lia).
    cbn [list_insert insert]. rewrite replicate_S_end, <- app_assoc. done. }
  destruct (IH (S i) j1 Hj1 Hch1' Hne ltac:(lia)) as (j' & He' & Hj' & Hch').
  exists j'. replace (i + S n)%nat with (S i + n)%nat by lia. split; [|done].
  rewrite (drop_S _ _ _ Hc). cbn [take close_all].
  replace (start <$> take (S n) (drop (S i) cs))
    with (main_request (drop (S i) (channels j)) ++ (start <$> take n (drop (S (S i)) cs))).
  - by eapply emits_bind.
  - rewrite Hch, drop_app_ge, length_replicate by (rewrite length_replicate; lia).
    replace (S i - i)%nat with 1%nat by lia. rewrite drop_drop. replace (i + 1)%nat with (S i) by lia.
    rewrite main_request_alive by (by apply Forall_drop). rewrite <- fmap_app. f_equal.
    destruct (drop (S i) cs) as [|d rest] eqn:Ed.
    + rewrite drop_ge; [by rewrite !take_nil|]. apply (f_equal length) in Ed. rewrite length_drop in Ed. cbn in Ed. lia.
    + replace (drop (S (S i)) cs) with rest; [done|].
      replace (S (S i)) with (S i + 1)%nat by lia. by rewrite <- drop_drop, Ed.
Qed.

Lemma filter_zeros i cs :
  Forall (fun c => c <> 0) cs -> filter (fun c => c <> 0) (replicate i 0 ++ cs) = cs.
Proof.
  intros H. induction i as [|i IH]; cbn [replicate app].
  - induction H as [|c cs Hc _ IH]; [done|]. rewrite filter_cons_True by done. by rewrite IH.
  - rewrite filter_cons_False by (intros Hn; done). exact IH.
Qed.
End closing.

(** C17. A job runs its commands one after the other.  [job_run] sends every worker
    its options, then its paths, and starts only the first one; each time the
    running worker closes, the next one is started.  After the first [k]
    workers have closed, exactly the first [k + 1] have been started, each
    once and in the order of the job, and [job_count] is the number of workers
    left. *)
Theorem job_runs_in_order {U : Type} (stack0 num0 : list Z) (j : job) (ds : list command) (k : nat)
    (Hlocals : length stack0 = 1536%nat /\ length num0 = 64%nat)
    (Hj : job_ok j) (Hcount : job_count_ j = Z.of_nat (length ds))
    (Hholds : Forall2 holds (take (length ds) (workers j)) ds)
    (Hfits : Forall (fun d => fits (c_items d)) ds)
    (Halive : Forall (fun c => c <> 0) (channels j)) (Hk : (k <= length ds)%nat) :
  let cs := channels j in
  exists j', emits (_ ← job_run stack0 num0 j; close_all (take k cs) j : M U job) j'
      (concat (zip_with (fun c d => option_requests c (options_of (c_items d))) cs ds) ++
       concat (zip_with (fun c d => path_requests c (paths_of (c_items d))) cs ds) ++
       (start <$> take (S k) cs)) /\
    emits (job_count j' : M U Z) (Z.of_nat (length ds - k)) [].
Proof.
  intros cs. destruct Hlocals as [Hst Hn].
  pose proof (length_channels j Hj) as Hlc. rewrite Hcount, Nat2Z.id in Hlc.
  destruct (close_all_emits (U := U) cs k 0 j Hj) as (j' & He & Hj' & Hch'); [done|done|unfold cs; lia|].
  exists j'. split.
  - pose proof (job_run_emits (U := U) stack0 num0 Hst Hn j ds Hj Hcount Hholds Hfits Halive) as Hrun.
    unfold run_requests in Hrun. fold cs in Hrun.
    pose proof (emits_bind _ (fun _ => close_all (take k cs) j) _ _ _ _ Hrun He) as H.
    rewrite <- !app_assoc in H. rewrite (main_request_alive cs) in H by done.
    replace (start <$> take (S k) cs) with ((start <$> take 1 cs) ++ (start <$> take k (drop 1 cs))); [exact H|].
    rewrite <- fmap_app. f_equal. generalize cs. intros [|c cs']; cbn [take drop app]; [by rewrite take_nil|by rewrite take_0].
  - pose proof (job_count_emits (U := U) j' Hj') as H. cbn [Nat.add] in Hch'.
    rewrite Hch', filter_zeros, length_drop in H by (by apply Forall_drop).
    unfold cs in H. by rewrite Hlc in H.
Qed.

(** The job of [sample_commands] after parsing and spawning, with the channels
    7 and 8. *)
Definition sample_job : job :=
  let worker c prog ps os :=
    Worker (Some prog) c (ps ++ replicate (32 - length ps) None) (Z.of_nat (length ps))
      (os ++ replicate (32 - length os) (Arg None None)) (Z.of_nat (length os)) in
  Job [worker 7 [99; 97; 116; 0] [Some [97; 0]] [Arg (Some [110; 0]) (Some [51; 0])];
       worker 8 [119; 99; 0] [] []; clear_worker] 3 2.

Ltac pointer obj := exists obj; split; [reflexivity|]; split; [repeat constructor; lia|exists []; reflexivity].

Lemma sample_job_holds : Forall2 holds (take 2 (workers sample_job)) sample_commands.
Proof.
  apply Forall2_cons. split; [|apply Forall2_cons; split; [|apply Forall2_nil_2]].
  - split; [pointer [99; 97; 116; 0]|]. split; (split; [reflexivity|]; split; [reflexivity|]); cbn.
    + repeat constructor. pointer [97; 0].
    + apply Forall2_cons. split; [|apply Forall2_nil_2]. split; [pointer [110; 0]|pointer [51; 0]].
  - split; [pointer [119; 99; 0]|]. split; (split; [reflexivity|]; split; [reflexivity|]); constructor.
Qed.

Lemma job_runs_in_order_witness :
  exists j', emits (_ ← job_run (replicate 1536 0) (replicate 64 0) sample_job; close_all [7] sample_job : M nat job) j'
      [Place 7 EVENT_OPTION [110; 0; 51; 0]; Place 7 EVENT_PATH [97; 0]; start 7; start 8] /\
    emits (job_count j' : M nat Z) 1 [].
Proof.
  apply (job_runs_in_order (U := nat) (replicate 1536 0) (replicate 64 0) sample_job sample_commands 1).
  - split; apply length_replicate.
  - unfold job_ok. cbn. lia.
  - reflexivity.
  - exact sample_job_holds.
  - apply Forall_cons_2; [|apply Forall_cons_2; [|apply Forall_nil_2]]; cbn [c_items].
    + apply Forall_cons_2; [|apply Forall_cons_2; [|apply Forall_nil_2]].
      * split; [by apply text_letter|]. split; [by apply text_letter|cbn; lia].
      * split; [by apply text_letter|cbn; lia].
    + apply Forall_nil_2.
  - change (channels sample_job) with [7; 8].
    apply Forall_cons_2; [lia|]. apply Forall_cons_2; [lia|]. apply Forall_nil_2.
  - cbn. lia.
Defined.

(** A worker that closes before the running one starts its successor at once,
    and the running worker's own end starts that successor a second time. *)
Theorem job_close_starts_twice {U : Type} (j : job) (a b c : Z)
    (Hj : job_ok j) (Hch : channels j = [a; b; c]) (Hne : a <> 0 /\ b <> 0 /\ c <> 0) (Hab : a <> b) :
  exists j', emits (close_all [b; a] j : M U job) j' [start c; start c] /\ channels j' = [0; 0; c].
Proof.
  destruct Hne as (Ha & Hb & Hc).
  destruct (job_close_emits (U := U) j 1 b Hj) as (j1 & He1 & Hch1 & Hj1); [by rewrite Hch| |].
  { rewrite Hch. cbn. intros Hin. apply list_elem_of_singleton in Hin. congruence. }
  rewrite Hch in Hch1, He1. cbn in Hch1, He1.
  destruct (job_close_emits (U := U) j1 0 a Hj1) as (j2 & He2 & Hch2 & Hj2); [by rewrite Hch1| |].
  { rewrite take_0. apply not_elem_of_nil. }
  rewrite Hch1 in Hch2, He2. cbn in Hch2, He2. destruct (Z.eqb_spec c 0); [done|].
  exists j2. split; [|done]. cbn [close_all].
  eapply (emits_bind _ _ j1 j2 [start c] [start c]); [exact He1|].
  eapply (emits_bind _ _ j2 j2 [start c] []); [exact He2|apply emits_ret].
Qed.

Lemma job_close_starts_twice_witness :
  let w c := with_channel clear_worker c in
  exists j', emits (close_all [6; 5] (Job [w 5; w 6; w 7] 3 3) : M nat job) j' [start 7; start 7] /\
    channels j' = [0; 0; 7].
Proof.
  intros w. apply (job_close_starts_twice (U := nat) (Job [w 5; w 6; w 7] 3 3) 5 6 7);
    [unfold job_ok; cbn; lia|reflexivity|lia|lia].
Defined.

(** [job_pipe] of a job without workers counts down from zero: the loop bound
    [count - 1] is 2^32 - 1, and the loop runs over the end of the array. *)
Theorem job_pipe_empty {U : Type} (j : job) (ev : Z) (s : proc U)
    (Hcount : job_count_ j = 0) (Hcap : Z.of_nat (length (workers j)) < max32)
    (Hdead : Forall (fun w => channel w = 0) (workers j)) :
  job_pipe j ev s = Crash.
Proof.
  unfold job_pipe. rewrite Hcount. change (u32 (0 - 1)) with 4294967295. unfold max32 in Hcap.
  match goal with |- each_worker _ _ _ _ ?g _ = _ => set (f := g) end.
  assert (forall i w, channel w = 0 -> f i w s = Ret tt s) as Hf
    by (intros i w Hw; unfold f, if_alive; by rewrite Hw).
  clearbody f.
  assert (forall fuel i, (i + fuel = S (length (workers j)))%nat -> (i <= length (workers j))%nat ->
    each_worker fuel j 4294967295 (Z.of_nat i) f s = Crash) as H.
  2: { apply (H _ 0%nat); lia. }
  induction fuel as [|fuel IH]; intros i Hfu Hi; [lia|]. cbn [each_worker].
  destruct (Z.ltb_spec (Z.of_nat i) 4294967295); [|lia]. unfold mbind, M_bind.
  assert (worker_at j (Z.of_nat i) s = lift (workers j !! i) s) as -> by (unfold worker_at; by rewrite Nat2Z.id).
  destruct (workers j !! i) as [w|] eqn:Ew; [|done]. cbn [lift].
  pose proof (lookup_lt_Some _ _ _ Ew). rewrite Forall_lookup in Hdead. rewrite (Hf _ w (Hdead i w Ew)).
  replace (Z.of_nat i + 1) with (Z.of_nat (S i)) by lia. apply IH; lia.
Qed.

Lemma job_pipe_empty_witness :
  job_pipe (Job (replicate 4 clear_worker) 4 0) EVENT_DATA (started [] [] no_options) = Crash.
Proof.
  apply job_pipe_empty; [reflexivity|unfold max32; cbn [length workers replicate]; lia|repeat constructor].
Defined.
