(* ===== verification/Slang.v ===== *)
(** * The shell language (src/src/utils/slang.c)

    [slang] translates command lines into the texts that job.c parses: words,
    options ([?key value]), pipes and ends of line become tokens, operators move
    behind their operands, and a stack machine writes the job.

    Tokens refer to strings by their offset in the string table, a ring that is
    only written.  [None] is an access outside an array. *)
From S2P Require Import Prelude Buffer Ring Cstring Option Channel Crt0 Job.
From Stdlib Require String.
Import String.StringSyntax.

Local Open Scope string_scope.
Local Open Scope Z_scope.

Definition TOKEN_SKIP : Z := 1.
Definition TOKEN_END : Z := 2.
Definition TOKEN_IDENT : Z := 3.
Definition TOKEN_OPTION : Z := 4.
Definition TOKEN_PIPE : Z := 5.

Record token := Token { ttype : Z; tstr : option nat }.

Record tokenlist := Tokenlist { thead : nat; tsize : nat; table : list token }.

Definition tokenlist_init (size : nat) (tbl : list token) : tokenlist := Tokenlist 0 size tbl.

Definition tokenlist_reset (l : tokenlist) : tokenlist := Tokenlist 0 (tsize l) (table l).

(** The entry is stored before the bound is tested. *)
Definition tokenlist_push (l : tokenlist) (t : token) : option tokenlist :=
  if (thead l <? length (table l))%nat then
    Some (Tokenlist (if (thead l <? tsize l)%nat then S (thead l) else thead l) (tsize l)
            (<[thead l := t]> (table l)))
  else None.

(** The popped entry, [None] for the null pointer. *)
Definition tokenlist_pop (l : tokenlist) : option (tokenlist * option token) :=
  match thead l with
  | O => Some (l, None)
  | S h => t ← table l !! h; Some (Tokenlist h (tsize l) (table l), Some t)
  end.

Definition tokenlist_check (l : tokenlist) : option Z :=
  match thead l with
  | O => Some 0
  | S h => t ← table l !! h; Some (ttype t)
  end.

Definition tokenlist_add (l : tokenlist) (type : Z) (str : option nat) : option tokenlist :=
  tokenlist_push l (Token type str).

Definition precedence (t : token) : Z :=
  if ttype t =? TOKEN_END then 1
  else if ttype t =? TOKEN_PIPE then 2
  else if ttype t =? TOKEN_OPTION then 3
  else 0.

Definition tokenize (c : Z) : Z :=
  if (c =? 32) || (c =? 9) then TOKEN_SKIP
  else if c =? 63 then TOKEN_OPTION
  else if c =? 124 then TOKEN_PIPE
  else if (c =? 59) || (c =? 10) then TOKEN_END
  else TOKEN_IDENT.

(** [for (i = 0; i < count; i++)]; [n] is [count - i]. *)
Fixpoint getidentlength_loop (n : nat) (buffer : list Z) (i : nat) : option nat :=
  match n with
  | O => Some i
  | S n =>
      c ← buffer !! i;
      if tokenize c =? TOKEN_IDENT then getidentlength_loop n buffer (S i) else Some i
  end.

Definition getidentlength (count : nat) (buffer : list Z) : option nat :=
  getidentlength_loop count buffer 0.

(** Every turn takes at least one character. *)
Fixpoint tokenizebuffer_loop (fuel : nat) (infix : tokenlist) (stringtable : ring) (count : nat)
    (data : list Z) (i : nat) : option (tokenlist * ring) :=
  match fuel with
  | O => None
  | S fuel =>
      if (i <? count)%nat then
        ch ← data !! i;
        let token := tokenize ch in
        if token =? TOKEN_SKIP then tokenizebuffer_loop fuel infix stringtable count data (S i)
        else if token =? TOKEN_IDENT then
          infix ← tokenlist_add infix token (Some (Z.to_nat (ring_count stringtable)));
          c ← getidentlength (count - i) (drop i data);
          let '(stringtable, _) := ring_write stringtable (drop i data) (Z.of_nat c) in
          let '(stringtable, _) := ring_write stringtable [0] 1 in
          tokenizebuffer_loop fuel infix stringtable count data (i + c)
        else
          infix ← tokenlist_add infix token None;
          tokenizebuffer_loop fuel infix stringtable count data (S i)
      else Some (infix, stringtable)
  end.

Definition tokenizebuffer (infix : tokenlist) (stringtable : ring) (count : nat) (data : list Z)
    : option (tokenlist * ring) :=
  tokenizebuffer_loop (S count) infix stringtable count data 0.

(** [while ((t = tokenlist_pop(stack))) tokenlist_push(postfix, t);] *)
Fixpoint drain (fuel : nat) (postfix stack : tokenlist) : option (tokenlist * tokenlist) :=
  match fuel with
  | O => None
  | S fuel =>
      '(stack, t) ← tokenlist_pop stack;
      match t with
      | None => Some (postfix, stack)
      | Some t => postfix ← tokenlist_push postfix t; drain fuel postfix stack
      end
  end.

(** The loop for an operator with a precedence. *)
Fixpoint drain_above (fuel : nat) (tok : token) (postfix stack : tokenlist)
    : option (tokenlist * tokenlist) :=
  match fuel with
  | O => None
  | S fuel =>
      '(stack, t) ← tokenlist_pop stack;
      match t with
      | None => Some (postfix, stack)
      | Some t =>
          if precedence t <? precedence tok then
            stack ← tokenlist_push stack t; Some (postfix, stack)
          else
            postfix ← tokenlist_push postfix t; drain_above fuel tok postfix stack
      end
  end.

Fixpoint translate_loop (toks : list token) (postfix stack : tokenlist)
    : option (tokenlist * tokenlist) :=
  match toks with
  | [] => Some (postfix, stack)
  | tok :: toks =>
      '(postfix, stack) ←
        (if ttype tok =? TOKEN_IDENT then
           postfix ← tokenlist_push postfix tok; Some (postfix, stack)
         else if (ttype tok =? TOKEN_END) || (ttype tok =? TOKEN_PIPE) then
           '(postfix, stack) ← drain (S (thead stack)) postfix stack;
           postfix ← tokenlist_push postfix tok; Some (postfix, stack)
         else
           '(postfix, stack) ← drain_above (S (thead stack)) tok postfix stack;
           stack ← tokenlist_push stack tok; Some (postfix, stack));
      translate_loop toks postfix stack
  end.

(** The loop visits [infix->table[0..head)], which it does not change. *)
Definition translate (postfix infix stack : tokenlist) : option (tokenlist * tokenlist) :=
  if (thead infix <=? length (table infix))%nat
  then translate_loop (take (thead infix) (table infix)) postfix stack
  else None.

(** ** Writing the job *)

Record slang := Slang {
  stringtable : ring; infix : tokenlist; postfix : tokenlist; stack : tokenlist }.

Section parse.
Context {U : Type} (num0 : list Z).

(** [token->str] *)
Definition string_of (st : ring) (t : token) : option (list Z) :=
  o ← tstr t; Some (drop o (rbuffer st)).

(** [count += cstring_write_fmt...(buffer, MESSAGE_SIZE, fmt, count, ...)] *)
Definition append (buffer : list Z) (count : Z) (fmt : list Z) (args : list (list Z))
    : option (list Z * Z) :=
  '(buffer, n) ← cstring_write_fmt num0 buffer MESSAGE_SIZE fmt args count;
  Some (buffer, u32 (count + n)).

(** [while (tokenlist_check(stack) == TOKEN_IDENT) ...]: the last identifier is
    the program, those above it are paths. *)
Fixpoint write_command (fuel : nat) (st : ring) (stack : tokenlist) (buffer : list Z) (count : Z)
    : option (tokenlist * list Z * Z) :=
  match fuel with
  | O => None
  | S fuel =>
      top ← tokenlist_check stack;
      if top =? TOKEN_IDENT then
        '(stack, t) ← tokenlist_pop stack;
        t ← t;
        s ← string_of st t;
        top ← tokenlist_check stack;
        '(buffer, count) ←
          append buffer count
            ((if top =? TOKEN_IDENT then lit "D\0%s\0" else lit "P\0%s\0") ++ [0]) [s];
        write_command fuel st stack buffer count
      else Some (stack, buffer, count)
  end.

(** The loop over [postfix->table[0..head)]; the result is the stack. *)
Fixpoint parse_tokens (st : ring) (toks : list token) (stack : tokenlist) (buffer : list Z) (count : Z)
    : M U tokenlist :=
  match toks with
  | [] => mret stack
  | tok :: toks =>
      if ttype tok =? TOKEN_IDENT then
        stack ← lift (tokenlist_push stack tok);
        parse_tokens st toks stack buffer count
      else if ttype tok =? TOKEN_OPTION then
        '(stack, t) ← lift (tokenlist_pop stack);
        match t with
        | None => mret stack
        | Some t =>
            '(stack, u) ← lift (tokenlist_pop stack);
            match u with
            | None => mret stack
            | Some u =>
                ts ← lift (string_of st t);
                us ← lift (string_of st u);
                '(buffer, count) ← lift (append buffer count (lit "O\0%s\0%s\0" ++ [0]) [ts; us]);
                parse_tokens st toks stack buffer count
            end
        end
      else if ttype tok =? TOKEN_PIPE then
        '(stack, buffer, count) ← lift (write_command (S (thead stack)) st stack buffer count);
        parse_tokens st toks stack buffer count
      else if ttype tok =? TOKEN_END then
        '(stack, buffer, count) ← lift (write_command (S (thead stack)) st stack buffer count);
        '(buffer, count) ← lift (append buffer count (lit "E\0" ++ [0]) []);
        _ ← channel_send_buffer CHANNEL_DEFAULT EVENT_DATA count buffer;
        parse_tokens st toks stack buffer 0
      else parse_tokens st toks stack buffer count
  end.

(** [stack0] is the content of the uninitialised [char buffer[MESSAGE_SIZE]]. *)
Definition parse (stack0 : list Z) (st : ring) (postfix stack : tokenlist) : M U tokenlist :=
  if (thead postfix <=? length (table postfix))%nat
  then parse_tokens st (take (thead postfix) (table postfix)) stack stack0 0
  else fun _ => Crash.
End parse.

Section handlers.
Context (stack0 num0 : list Z).

Definition set_slang (sl : slang) : M (runtime slang) unit :=
  s ← get; put (with_user s (Runtime (options (user s)) sl)).

Definition reset (sl : slang) : slang :=
  Slang (ring_reset (stringtable sl)) (tokenlist_reset (infix sl)) (tokenlist_reset (postfix sl))
    (tokenlist_reset (stack sl)).

(** [translate(...); parse(...)] *)
Definition compile (sl : slang) : M (runtime slang) unit :=
  '(post, stk) ← lift (translate (postfix sl) (infix sl) (stack sl));
  stk ← parse num0 stack0 (stringtable sl) post stk;
  set_slang (Slang (stringtable sl) (infix sl) post stk).

Definition ondata (src : Z) (mdata : list Z) (msize : Z) : M (runtime slang) unit :=
  if msize =? 0 then mret tt
  else
    s ← get;
    let sl := reset (program_data (user s)) in
    '(inf, st) ← lift (tokenizebuffer (infix sl) (stringtable sl) (Z.to_nat msize) mdata);
    compile (Slang st inf (postfix sl) (stack sl)).

(** [buffer] is the 4096-byte local; every turn takes one outcome of [call_read]. *)
Fixpoint read_script (fuel : nat) (sl : slang) (buffer : list Z) (offset : Z) : M (runtime slang) slang :=
  match fuel with
  | O => no_fuel
  | S fuel =>
      '(buffer, count) ← call_read FILE_L0 buffer 0 4096 offset;
      if count =? 0 then mret sl
      else
        '(inf, st) ← lift (tokenizebuffer (infix sl) (stringtable sl) (Z.to_nat count) buffer);
        read_script fuel (Slang st inf (postfix sl) (stack sl)) buffer (u32 (offset + count))
  end.

Definition onpath (buffer0 : list Z) (src : Z) (mdata : list Z) (msize : Z) : M (runtime slang) unit :=
  r ← call_walk_absolute FILE_L0 mdata;
  if r =? 0 then
    _ ← channel_send_fmt1 stack0 num0 CHANNEL_DEFAULT EVENT_ERROR (lit "Path not found: %s" ++ [10; 0]) mdata;
    mret tt
  else
    s ← get;
    sl ← read_script (S (length (reads (kernel s)))) (reset (program_data (user s))) buffer0 0;
    compile sl.

Definition addr_ondata : nat := 4.
Definition addr_onpath : nat := 5.

(** The content of the static arrays before [init]. *)
Definition init (stringdata : list Z) (infixdata postfixdata stackdata : list token) : M (runtime slang) unit :=
  _ ← set_slang (Slang (ring_init 4096 stringdata) (tokenlist_init 1024 infixdata)
                   (tokenlist_init 1024 postfixdata) (tokenlist_init 8 stackdata));
  _ ← channel_bind EVENT_DATA (Some addr_ondata);
  channel_bind EVENT_PATH (Some addr_onpath).

Definition slang_invoke (buffer0 : list Z) (f : nat) (src : Z) (mdata : list Z) (msize : Z)
    : M (runtime slang) (list Z) :=
  if (f =? addr_ondata)%nat then _ ← ondata src mdata msize; mret mdata
  else if (f =? addr_onpath)%nat then _ ← onpath buffer0 src mdata msize; mret mdata
  else fun _ => Crash.
End handlers.

(** ** An example *)

Definition nil_tokens (n : nat) : list token := replicate n (Token 0 None).
Definition fresh_slang : slang :=
  Slang (ring_init 4096 (replicate 4096 0)) (tokenlist_init 1024 (nil_tokens 1024))
    (tokenlist_init 1024 (nil_tokens 1024)) (tokenlist_init 8 (nil_tokens 8)).

Definition slang_proc (sl : slang) : proc (runtime slang) :=
  Proc (<[7%nat := Listener (Some addr_ondata) 9 false]> no_listeners) true
    (Sys [] [true] [] [] [] [] []) (Runtime no_options sl).

Example slang_line :
  let line := lit "cat a b ?n 3 | wc" ++ [10] in
  match ondata (replicate 1536 0) (replicate 64 0) 0 line (Z.of_nat (length line)) (slang_proc fresh_slang) with
  | Ret _ s => trace (kernel s)
  | _ => []
  end = [Place 9 EVENT_DATA (zfields
           [lit "O"; lit "3"; lit "n"; lit "D"; lit "b"; lit "D"; lit "a"; lit "P"; lit "cat";
            lit "P"; lit "wc"; lit "E"])].
Proof. vm_compute. reflexivity. Qed.

(** ** Token lists as sequences *)

Definition tokens (l : tokenlist) : list token := take (thead l) (table l).

Definition list_ok (cap : nat) (l : tokenlist) : Prop :=
  tsize l = cap /\ length (table l) = cap /\ (thead l <= cap)%nat.

Lemma length_tokens cap l : list_ok cap l -> length (tokens l) = thead l.
Proof. intros (_ & Hl & Hh). unfold tokens. rewrite length_take. lia. Qed.

Lemma push_spec cap l t :
  list_ok cap l -> (length (tokens l) < cap)%nat ->
  exists l', tokenlist_push l t = Some l' /\ list_ok cap l' /\ tokens l' = tokens l ++ [t].
Proof.
  intros Hok Hlt. rewrite (length_tokens cap l Hok) in Hlt. destruct Hok as (Hs & Hl & Hh).
  unfold tokenlist_push. destruct (Nat.ltb_spec (thead l) (length (table l))); [|lia].
  destruct (Nat.ltb_spec (thead l) (tsize l)); [|lia]. eexists. split; [done|].
  split; [split_and!; cbn; rewrite ?length_insert; lia|]. unfold tokens. cbn [thead table].
  by rewrite take_insert_snoc.
Qed.

Lemma pop_spec cap l ts t :
  list_ok cap l -> tokens l = ts ++ [t] ->
  exists l', tokenlist_pop l = Some (l', Some t) /\ list_ok cap l' /\ tokens l' = ts.
Proof.
  intros Hok Ht. pose proof (length_tokens cap l Hok) as Hlen. rewrite Ht, length_app in Hlen. cbn [length] in Hlen.
  destruct Hok as (Hs & Hl & Hh). unfold tokenlist_pop. destruct (thead l) as [|h] eqn:Eh; [lia|].
  assert (table l !! h = Some t) as Hx.
  { apply (f_equal (lookup h)) in Ht. unfold tokens in Ht. rewrite lookup_take_lt in Ht by lia.
    rewrite Ht, lookup_app_r by lia. by replace (h - length ts)%nat with 0%nat by lia. }
  rewrite Hx. cbn [mbind option_bind]. eexists. split; [done|]. split; [split_and!; cbn; lia|].
  unfold tokens in *. cbn [thead table]. rewrite Eh, (take_S_r _ _ _ Hx) in Ht. by apply app_inj_tail in Ht as [-> _].
Qed.

Lemma pop_empty cap l : list_ok cap l -> tokens l = [] -> tokenlist_pop l = Some (l, None).
Proof.
  intros Hok Ht. pose proof (length_tokens cap l Hok) as Hlen. rewrite Ht in Hlen. cbn in Hlen.
  unfold tokenlist_pop. by rewrite <- Hlen.
Qed.

Lemma check_spec cap l ts t :
  list_ok cap l -> tokens l = ts ++ [t] -> tokenlist_check l = Some (ttype t).
Proof.
  intros Hok Ht. destruct (pop_spec cap l ts t Hok Ht) as (l' & Hp & _ & _).
  unfold tokenlist_pop, tokenlist_check in *. destruct (thead l); [done|].
  destruct (table l !! n); [|done]. cbn in Hp |- *. by injection Hp as _ ->.
Qed.

Lemma check_empty cap l : list_ok cap l -> tokens l = [] -> tokenlist_check l = Some 0.
Proof.
  intros Hok Ht. pose proof (length_tokens cap l Hok) as Hlen. rewrite Ht in Hlen. cbn in Hlen.
  unfold tokenlist_check. by rewrite <- Hlen.
Qed.

(** ** Lexing *)

Inductive lexeme := LIdent (s : list Z) | LOp (type : Z).

Definition ident_char (c : Z) : Prop := tokenize c = TOKEN_IDENT /\ c <> 0.

(** The words of a text: operators are single characters, an identifier is as
    long as possible, blanks separate. *)
Inductive lexes : list Z -> list lexeme -> Prop :=
| lexes_nil : lexes [] []
| lexes_skip c r ls : tokenize c = TOKEN_SKIP -> lexes r ls -> lexes (c :: r) ls
| lexes_op c r ls : tokenize c <> TOKEN_SKIP -> tokenize c <> TOKEN_IDENT -> lexes r ls ->
    lexes (c :: r) (LOp (tokenize c) :: ls)
| lexes_ident c w r ls : Forall ident_char (c :: w) ->
    match r with [] => True | c' :: _ => tokenize c' <> TOKEN_IDENT end ->
    lexes r ls -> lexes ((c :: w) ++ r) (LIdent (c :: w) :: ls).

(** The tokens of the lexemes; [o] is the length of the string table. *)
Fixpoint number (o : nat) (ls : list lexeme) : list token :=
  match ls with
  | [] => []
  | LIdent s :: ls => Token TOKEN_IDENT (Some o) :: number (o + length s + 1) ls
  | LOp ty :: ls => Token ty None :: number o ls
  end.

Definition idents (ls : list lexeme) : list (list Z) :=
  ls ≫= (fun l => match l with LIdent s => [s] | LOp _ => [] end).

(** A string table that has not wrapped around. *)
Definition linear (st : ring) (w : list Z) : Prop :=
  ring_wf st /\ rtail st = 0 /\ rcapacity st = 4096 /\ contents st = w.

Lemma ring_write_loop_tail n r b c : rtail (ring_write_loop n r b c).1 = rtail r.
Proof.
  revert r c. induction n as [|n IH]; intros r c; cbn [ring_write_loop]; [done|].
  destruct (ring_isfull r); [done|]. by rewrite IH.
Qed.

Lemma linear_write st w b count :
  linear st w -> (count <= length b)%nat -> (length w + count <= 4096)%nat ->
  linear (ring_write st b (Z.of_nat count)).1 (w ++ take count b).
Proof.
  intros (Hwf & Ht & Hc & Hw) Hb Hl.
  pose proof (ring_write_spec st b (Z.of_nat count) Hwf ltac:(unfold max32; lia) ltac:(lia)) as H.
  rewrite Nat2Z.id in H. unfold space in H. rewrite Hw, Hc in H.
  replace (count `min` (Z.to_nat 4096 - length w))%nat with count in H by lia.
  assert (rtail (ring_write st b (Z.of_nat count)).1 = rtail st) as Htail
    by (unfold ring_write; destruct (Z.of_nat count =? 0); [done|apply ring_write_loop_tail]).
  destruct (ring_write st b (Z.of_nat count)) as [st' c']. cbn [fst] in *. unfold linear.
  destruct H as (H1 & H2 & H3 & H4). rewrite Htail. split_and!; congruence.
Qed.

Lemma linear_count st w : linear st w -> Z.to_nat (ring_count st) = length w.
Proof. intros (_ & _ & _ & <-). by rewrite length_contents. Qed.

(** The strings lie at the start of the array. *)
Lemma linear_buffer st w : linear st w -> exists rest, rbuffer st = w ++ rest.
Proof.
  intros (Hwf & Ht & Hc & <-). exists (drop (Z.to_nat (ring_count st)) (rbuffer st)).
  rewrite <- (take_drop (Z.to_nat (ring_count st)) (rbuffer st)) at 1. f_equal.
  destruct Hwf as (_ & Hl & _ & _ & Hn). pose proof (ring_count_range st). rewrite Hc in *.
  apply list_eq. intros i. unfold contents. destruct (decide (i < Z.to_nat (ring_count st))%nat) as [Hi|Hi].
  - rewrite lookup_take_lt, list_lookup_fmap, lookup_seq_lt by done. cbn.
    rewrite Ht, Hc, Z.mod_small by lia. rewrite Z.add_0_l, Nat2Z.id.
    destruct (lookup_lt_is_Some_2 (rbuffer st) i) as [x Hx]; [lia|].
    by rewrite Hx, (list_lookup_total_correct _ _ _ Hx).
  - rewrite !lookup_ge_None_2; [done|rewrite length_fmap, length_seq; lia|rewrite length_take; lia].
Qed.

Lemma getidentlength_loop_spec w r post : forall pre,
  Forall (fun c => tokenize c = TOKEN_IDENT) w ->
  match r with [] => True | c :: _ => tokenize c <> TOKEN_IDENT end ->
  getidentlength_loop (length w + length r) (pre ++ w ++ r ++ post) (length pre) = Some (length pre + length w)%nat.
Proof.
  induction w as [|c w IH]; intros pre Hw Hr; cbn [length Nat.add app].
  - rewrite Nat.add_0_r. destruct r as [|c r]; [done|]. cbn [length getidentlength_loop app].
    rewrite lookup_app_r, Nat.sub_diag by lia. cbn [lookup list_lookup mbind option_bind].
    destruct (Z.eqb_spec (tokenize c) TOKEN_IDENT); [done|done].
  - apply Forall_cons in Hw as [Hc Hw]. cbn [getidentlength_loop].
    rewrite lookup_app_r, Nat.sub_diag by lia. cbn [lookup list_lookup mbind option_bind].
    rewrite Hc. cbn [Z.eqb TOKEN_IDENT Pos.eqb].
    specialize (IH (pre ++ [c]) Hw Hr). rewrite <- app_assoc, length_app in IH. cbn [app length] in IH.
    replace (S (length pre)) with (length pre + 1)%nat by lia. rewrite IH. f_equal. lia.
Qed.

(** The turn of the loop at an identifier. *)
Lemma ident_turn fuel inf st w pre c w0 r post :
  let s := c :: w0 in
  Forall ident_char s -> match r with [] => True | c' :: _ => tokenize c' <> TOKEN_IDENT end ->
  list_ok 1024 inf -> linear st w -> (length (tokens inf) < 1024)%nat -> (length w + S (length s) <= 4096)%nat ->
  exists inf1 st2,
    tokenizebuffer_loop (S fuel) inf st (length pre + (length s + length r)) (pre ++ (s ++ r) ++ post) (length pre) =
      tokenizebuffer_loop fuel inf1 st2 (length pre + (length s + length r)) (pre ++ (s ++ r) ++ post) (length pre + length s) /\
    list_ok 1024 inf1 /\ tokens inf1 = tokens inf ++ [Token TOKEN_IDENT (Some (length w))] /\ linear st2 ((w ++ s) ++ [0]).
Proof.
  intros s Hw0 Hnext Hinf Hst Htok Hstr. cbn [tokenizebuffer_loop]. assert (0 < length s)%nat by (unfold s; cbn; lia).
  destruct (Nat.ltb_spec (length pre) (length pre + (length s + length r))); [|lia].
  assert ((pre ++ (s ++ r) ++ post) !! length pre = Some c) as ->
    by (rewrite lookup_app_r, Nat.sub_diag by lia; done).
  cbn [mbind option_bind]. assert (tokenize c = TOKEN_IDENT) as Hci by (apply Forall_cons in Hw0 as [[? _] _]; done).
  rewrite Hci. cbn [Z.eqb TOKEN_IDENT TOKEN_SKIP Pos.eqb].
  destruct (push_spec 1024 inf (Token TOKEN_IDENT (Some (length w))) Hinf) as (inf1 & Hp & Hok1 & Ht1); [lia|].
  unfold tokenlist_add. rewrite (linear_count st w Hst). fold TOKEN_IDENT. change 3 with TOKEN_IDENT.
  rewrite Hp. cbn [mbind option_bind]. rewrite (drop_app_length pre). unfold getidentlength.
  replace (length pre + (length s + length r) - length pre)%nat with (length s + length r)%nat by lia.
  pose proof (getidentlength_loop_spec s r post []) as Hg. cbn [app length Nat.add] in Hg.
  rewrite <- app_assoc, Hg; [|eapply Forall_impl; [exact Hw0|]; by intros x [? _]|done]. cbn [mbind option_bind].
  pose proof (linear_write st w (s ++ r ++ post) (length s) Hst ltac:(rewrite length_app; lia) ltac:(lia)) as Hw1.
  destruct (ring_write st (s ++ r ++ post) (Z.of_nat (length s))) as [st1 n1]. cbn [fst] in Hw1.
  rewrite take_app_length in Hw1.
  pose proof (linear_write st1 (w ++ s) [0] 1 Hw1 ltac:(cbn; lia) ltac:(rewrite length_app; lia)) as Hw2.
  change (Z.of_nat 1) with 1 in Hw2. destruct (ring_write st1 [0] 1) as [st2 n2]. cbn [fst take] in Hw2.
  by exists inf1, st2.
Qed.

Lemma tokenizebuffer_loop_spec r ls :
  lexes r ls -> forall fuel inf st w pre post,
  list_ok 1024 inf -> linear st w -> (length r < fuel)%nat ->
  (length (tokens inf) + length ls <= 1024)%nat -> (length w + length (zfields (idents ls)) <= 4096)%nat ->
  exists inf' st',
    tokenizebuffer_loop fuel inf st (length pre + length r) (pre ++ r ++ post) (length pre) = Some (inf', st') /\
    list_ok 1024 inf' /\ tokens inf' = tokens inf ++ number (length w) ls /\
    linear st' (w ++ zfields (idents ls)).
Proof.
  induction 1 as [|c r ls Hc Hr IH|c r ls Hc1 Hc2 Hr IH|c w0 r ls Hw0 Hnext Hr IH];
    intros fuel inf st w pre post Hinf Hst Hf Htok Hstr; (destruct fuel as [|fuel]; [lia|]).
  1-3: cbn [tokenizebuffer_loop].
  - rewrite Nat.add_0_r, Nat.ltb_irrefl. exists inf, st. cbn. rewrite !app_nil_r. done.
  - cbn [length] in *. destruct (Nat.ltb_spec (length pre) (length pre + S (length r))); [|lia].
    rewrite lookup_app_r, Nat.sub_diag by lia. cbn [app lookup list_lookup mbind option_bind].
    rewrite Hc. cbn [Z.eqb TOKEN_SKIP Pos.eqb].
    destruct (IH fuel inf st w (pre ++ [c]) post) as (inf' & st' & E & H'); try done; [lia|].
    exists inf', st'. split; [|done]. rewrite <- E, <- app_assoc, length_app. cbn [app length]. f_equal; lia.
  - cbn [length] in *. destruct (Nat.ltb_spec (length pre) (length pre + S (length r))); [|lia].
    rewrite lookup_app_r, Nat.sub_diag by lia. cbn [app lookup list_lookup mbind option_bind].
    destruct (Z.eqb_spec (tokenize c) TOKEN_SKIP); [done|]. destruct (Z.eqb_spec (tokenize c) TOKEN_IDENT); [done|].
    destruct (push_spec 1024 inf (Token (tokenize c) None) Hinf) as (inf1 & Hp & Hok1 & Ht1); [lia|].
    unfold tokenlist_add. rewrite Hp. cbn [mbind option_bind].
    destruct (IH fuel inf1 st w (pre ++ [c]) post) as (inf' & st' & E & Hok' & Ht' & Hst'); try done.
    { lia. } { rewrite Ht1, length_app. cbn [length]. lia. }
    exists inf', st'. split; [|split; [done|split; [|done]]].
    + rewrite <- E, <- app_assoc, length_app. cbn [app length]. f_equal; lia.
    + rewrite Ht', Ht1, <- app_assoc. done.
  - rewrite length_app in *. set (s := c :: w0) in *.
    change (idents (LIdent s :: ls)) with (s :: idents ls) in *. rewrite zfields_cons, length_app in Hstr.
    cbn [length] in Hstr, Htok.
    destruct (ident_turn fuel inf st w pre c w0 r post) as (inf1 & st2 & Et & Hok1 & Ht1 & Hst2);
      [done|done|done|done|lia|fold s; lia|]. fold s in Et, Hst2.
    destruct (IH fuel inf1 st2 ((w ++ s) ++ [0]) (pre ++ s) post) as (inf' & st' & E & Hok' & Ht' & Hst'); try done.
    { enough (0 < length s)%nat by lia. unfold s. cbn. lia. } { rewrite Ht1, length_app. cbn [length] in *. lia. } { rewrite !length_app. cbn [length]. lia. }
    exists inf', st'. split; [|split; [done|split]].
    + rewrite Et, <- E, <- (app_assoc pre), (length_app pre), <- (app_assoc s). f_equal; lia.
    + rewrite Ht', Ht1, <- app_assoc. cbn [number app]. do 3 f_equal. rewrite !length_app. cbn [length]. lia.
    + rewrite zfields_cons. rewrite <- !app_assoc in Hst'. done.
Qed.

(** ** Tokens and their strings *)

(** The token [t] stands for the identifier [s] in the string table [st]. *)
Definition stands_for (st : ring) (t : token) (s : list Z) : Prop :=
  ttype t = TOKEN_IDENT /\ text s /\ exists obj, string_of st t = Some obj /\ cstr s obj.

Definition tok_is (st : ring) (t : token) (l : lexeme) : Prop :=
  match l with
  | LIdent s => stands_for st t s
  | LOp ty => t = Token ty None
  end.

Definition lexeme_ok (l : lexeme) : Prop := match l with LIdent s => text s | LOp _ => True end.

Lemma number_is st pre ls rest :
  rbuffer st = pre ++ zfields (idents ls) ++ rest -> Forall lexeme_ok ls ->
  Forall2 (tok_is st) (number (length pre) ls) ls.
Proof.
  revert pre. induction ls as [|[s|ty] ls IH]; intros pre Hb Hok; [constructor| |].
  - apply Forall_cons in Hok as [Hs Hok]. change (idents (LIdent s :: ls)) with (s :: idents ls) in Hb.
    rewrite zfields_cons in Hb. cbn [number]. constructor.
    + split; [done|]. split; [done|]. unfold string_of. cbn [tstr mbind option_bind]. eexists. split; [done|].
      rewrite Hb, drop_app_length. split; [apply Hs|]. rewrite <- app_assoc. by eexists.
    + replace (length pre + length s + 1)%nat with (length (pre ++ s ++ [0])) by (rewrite !length_app; cbn; lia).
      apply IH; [|done]. rewrite Hb. rewrite <- !app_assoc. done.
  - apply Forall_cons in Hok as [_ Hok]. cbn [number]. constructor; [done|]. by apply IH.
Qed.

(** ** Operators move behind their operands *)

Definition tok_option : token := Token TOKEN_OPTION None.

Lemma drain_spec cap ts post stk :
  list_ok 1024 post -> list_ok cap stk -> tokens stk = reverse ts ->
  (length (tokens post) + length ts <= 1024)%nat ->
  exists post' stk', drain (S (thead stk)) post stk = Some (post', stk') /\
    list_ok 1024 post' /\ list_ok cap stk' /\ tokens post' = tokens post ++ ts /\ tokens stk' = [].
Proof.
  revert post stk. induction ts as [|t ts IH]; intros post stk Hp Hs Ht Hl.
  - exists post, stk. cbn [drain]. rewrite (pop_empty cap) by done. cbn [mbind option_bind].
    rewrite app_nil_r. done.
  - rewrite reverse_cons in Ht. destruct (pop_spec cap stk _ _ Hs Ht) as (stk1 & Hpop & Hs1 & Ht1).
    destruct (push_spec 1024 post t Hp) as (post1 & Hpush & Hp1 & Htp); [cbn in Hl; lia|].
    pose proof (length_tokens cap stk Hs) as L0. pose proof (length_tokens cap stk1 Hs1) as L1.
    rewrite Ht, length_app in L0. rewrite Ht1 in L1. cbn [length] in L0.
    cbn [drain]. rewrite Hpop. cbn [mbind option_bind]. rewrite Hpush. cbn [mbind option_bind].
    replace (thead stk) with (S (thead stk1)) by lia.
    destruct (IH post1 stk1) as (post' & stk' & E & ? & ? & Ht' & ?); try done.
    { rewrite Htp, length_app. cbn in *. lia. }
    exists post', stk'. rewrite E. split_and!; try done. by rewrite Ht', Htp, <- app_assoc.
Qed.

(** An option: what waits on the stack is at most one option operator. *)
Lemma drain_above_spec post stk ws :
  list_ok 1024 post -> list_ok 8 stk -> tokens stk = ws -> ws = [] \/ ws = [tok_option] ->
  (length (tokens post) + length ws <= 1024)%nat ->
  exists post' stk', drain_above (S (thead stk)) tok_option post stk = Some (post', stk') /\
    list_ok 1024 post' /\ list_ok 8 stk' /\ tokens post' = tokens post ++ ws /\ tokens stk' = [].
Proof.
  intros Hp Hs Ht Hws Hl. destruct Hws as [->| ->]; cbn [drain_above].
  - exists post, stk. rewrite (pop_empty 8) by done. cbn [mbind option_bind]. by rewrite app_nil_r.
  - destruct (pop_spec 8 stk [] tok_option Hs Ht) as (stk1 & Hpop & Hs1 & Ht1).
    destruct (push_spec 1024 post tok_option Hp) as (post1 & Hpush & Hp1 & Htp); [cbn in Hl; lia|].
    pose proof (length_tokens 8 stk Hs) as L0. rewrite Ht in L0. cbn in L0.
    rewrite Hpop. cbn [mbind option_bind]. change (precedence tok_option <? precedence tok_option) with false.
    cbn iota. rewrite Hpush. cbn [mbind option_bind]. rewrite <- L0. cbn [drain_above].
    rewrite (pop_empty 8) by done. cbn [mbind option_bind]. exists post1, stk1. done.
Qed.

Lemma translate_loop_app xs ys post stk :
  translate_loop (xs ++ ys) post stk =
    ('(post, stk) ← translate_loop xs post stk; translate_loop ys post stk).
Proof.
  revert post stk. induction xs as [|x xs IH]; intros post stk; cbn [app translate_loop]; [done|].
  rewrite option_bind_assoc. apply option_bind_ext_fun. intros [post1 stk1]. apply IH.
Qed.

(** [post] and [stk] hold the sequences [ps] and [ws]. *)
Definition state_is (post stk : tokenlist) (ps ws : list token) : Prop :=
  list_ok 1024 post /\ list_ok 8 stk /\ tokens post = ps /\ tokens stk = ws.

Lemma translate_idents ts post stk ps ws :
  Forall (fun t => ttype t = TOKEN_IDENT) ts -> state_is post stk ps ws -> (length ps + length ts <= 1024)%nat ->
  exists post', translate_loop ts post stk = Some (post', stk) /\ state_is post' stk (ps ++ ts) ws.
Proof.
  intros Hts. revert post ps. induction Hts as [|t ts Ht Hts IH]; intros post ps (Hp & Hs & Eps & Ews) Hl.
  - exists post. rewrite app_nil_r. done.
  - cbn [translate_loop]. rewrite Ht. cbn [Z.eqb TOKEN_IDENT Pos.eqb].
    destruct (push_spec 1024 post t Hp) as (post1 & -> & Hp1 & Htp); [rewrite Eps; cbn in Hl; lia|].
    cbn [mbind option_bind]. rewrite Eps in Htp.
    destruct (IH post1 (ps ++ [t])) as (post' & E & H'); [done|rewrite length_app; cbn in *; lia|].
    exists post'. rewrite <- app_assoc in H'. done.
Qed.

Lemma translate_option post stk ps ws k v :
  ttype k = TOKEN_IDENT -> ttype v = TOKEN_IDENT ->
  state_is post stk ps ws -> ws = [] \/ ws = [tok_option] -> (length ps + length ws + 2 <= 1024)%nat ->
  exists post' stk', translate_loop [tok_option; k; v] post stk = Some (post', stk') /\
    state_is post' stk' (ps ++ ws ++ [k; v]) [tok_option].
Proof.
  intros Hk Hv (Hp & Hs & Eps & Ews) Hws Hl.
  destruct (drain_above_spec post stk ws Hp Hs Ews Hws) as (post1 & stk1 & E1 & Hp1 & Hs1 & Ht1 & Hts1); [rewrite Eps; lia|].
  destruct (push_spec 8 stk1 tok_option Hs1) as (stk2 & E2 & Hs2 & Ht2); [rewrite Hts1; cbn; lia|].
  destruct (translate_idents [k; v] post1 stk2 (ps ++ ws) [tok_option]) as (post' & E3 & H3).
  - by repeat constructor.
  - split_and!; [done|done|by rewrite Ht1, Eps|by rewrite Ht2, Hts1].
  - rewrite length_app. cbn. lia.
  - exists post', stk2. rewrite <- app_assoc in H3. split; [|done]. rewrite <- E3.
    cbn [translate_loop]. cbn [ttype tok_option Z.eqb TOKEN_OPTION TOKEN_IDENT TOKEN_END TOKEN_PIPE Pos.eqb orb].
    rewrite E1. cbn [mbind option_bind]. rewrite E2. reflexivity.
Qed.

Lemma translate_op ty post stk ps ws :
  ty = TOKEN_END \/ ty = TOKEN_PIPE -> state_is post stk ps ws -> (length ws <= 1)%nat ->
  (length ps + length ws < 1024)%nat ->
  exists post' stk', translate_loop [Token ty None] post stk = Some (post', stk') /\
    state_is post' stk' (ps ++ ws ++ [Token ty None]) [].
Proof.
  intros Hty (Hp & Hs & Eps & Ews) Hw Hl.
  assert (ws = reverse ws) as Hrev by (destruct ws as [|? [|? ?]]; [done|done|cbn in Hw; lia]).
  destruct (drain_spec 8 ws post stk Hp Hs) as (post1 & stk1 & E1 & Hp1 & Hs1 & Ht1 & Hts1); [by rewrite <- Hrev|rewrite Eps; lia|].
  destruct (push_spec 1024 post1 (Token ty None) Hp1) as (post2 & E2 & Hp2 & Ht2); [rewrite Ht1, length_app, Eps; lia|].
  exists post2, stk1. split; [|split_and!; [done|done|by rewrite Ht2, Ht1, Eps, <- app_assoc|done]].
  cbn [translate_loop ttype].
  destruct Hty as [->| ->]; cbn [Z.eqb TOKEN_IDENT TOKEN_END TOKEN_PIPE Pos.eqb orb]; rewrite E1;
    cbn [mbind option_bind]; rewrite E2; done.
Qed.

(** A command as tokens: its words, its options, and the operator that ends it. *)
Record tstage := Tstage { g_words : list token; g_options : list (token * token); g_end : Z }.

Definition g_infix (g : tstage) : list token :=
  g_words g ++ (g_options g ≫= fun kv => [tok_option; kv.1; kv.2]) ++ [Token (g_end g) None].
Definition g_postfix (g : tstage) : list token :=
  g_words g ++ (g_options g ≫= fun kv => [kv.1; kv.2; tok_option]) ++ [Token (g_end g) None].

Definition is_ident (t : token) : Prop := ttype t = TOKEN_IDENT.

Definition tstage_ok (g : tstage) : Prop :=
  Forall is_ident (g_words g) /\ Forall (fun kv => is_ident kv.1 /\ is_ident kv.2) (g_options g) /\
  (g_end g = TOKEN_END \/ g_end g = TOKEN_PIPE).

Lemma translate_options os : forall post stk ps ws,
  Forall (fun kv => is_ident kv.1 /\ is_ident kv.2) os ->
  state_is post stk ps ws -> ws = [] \/ ws = [tok_option] -> (length ps + length ws + 3 * length os <= 1024)%nat ->
  exists post' stk' ps' ws',
    translate_loop (os ≫= fun kv => [tok_option; kv.1; kv.2]) post stk = Some (post', stk') /\
    state_is post' stk' ps' ws' /\ (ws' = [] \/ ws' = [tok_option]) /\
    ps' ++ ws' = ps ++ ws ++ (os ≫= fun kv => [kv.1; kv.2; tok_option]).
Proof.
  induction os as [|[k v] os IH]; intros post stk ps ws Hos Hst Hws Hl.
  - exists post, stk, ps, ws. cbn. by rewrite app_nil_r.
  - apply Forall_cons in Hos as [[Hk Hv] Hos]. cbn [fst snd length] in *.
    destruct (translate_option post stk ps ws k v Hk Hv Hst Hws) as (post1 & stk1 & E1 & H1); [lia|].
    destruct (IH post1 stk1 _ _ Hos H1) as (post' & stk' & ps' & ws' & E2 & H2 & Hws2 & Heq); [by right| |].
    { rewrite !length_app. cbn. lia. }
    exists post', stk', ps', ws'. split; [|split; [done|split; [done|]]].
    + change (((k, v) :: os) ≫= (fun kv => [tok_option; kv.1; kv.2])) with ([tok_option; k; v] ++ (os ≫= fun kv => [tok_option; kv.1; kv.2])).
      rewrite translate_loop_app, E1. exact E2.
    + rewrite Heq. rewrite <- !app_assoc. done.
Qed.

Lemma length_options_bind {T} (f : token * token -> list T) (os : list (token * token)) n :
  (forall kv, length (f kv) = n) -> length (os ≫= f) = (n * length os)%nat.
Proof.
  intros Hf. induction os as [|kv os IH]; [cbn; lia|].
  change ((kv :: os) ≫= f) with (f kv ++ (os ≫= f)). rewrite length_app, IH, Hf. cbn. lia.
Qed.

Lemma translate_stage g post stk ps :
  tstage_ok g -> state_is post stk ps [] -> (length ps + length (g_infix g) <= 1024)%nat ->
  exists post' stk', translate_loop (g_infix g) post stk = Some (post', stk') /\
    state_is post' stk' (ps ++ g_postfix g) [].
Proof.
  intros (Hw & Ho & He) Hst Hl. unfold g_infix, g_postfix in *. rewrite !length_app in Hl.
  rewrite (length_options_bind _ _ 3) in Hl by done. cbn [length] in Hl.
  destruct (translate_idents (g_words g) post stk ps [] Hw Hst) as (post1 & E1 & H1); [lia|].
  destruct (translate_options (g_options g) post1 stk _ _ Ho H1) as (post2 & stk2 & ps2 & ws2 & E2 & H2 & Hws & Heq);
    [by left|rewrite length_app; cbn; lia|].
  assert (length ps2 + length ws2 = length ps + length (g_words g) + 3 * length (g_options g))%nat as Hlen.
  { apply (f_equal length) in Heq. rewrite !length_app, (length_options_bind _ _ 3) in Heq by done. cbn in Heq. lia. }
  destruct (translate_op (g_end g) post2 stk2 ps2 ws2 He H2) as (post' & stk' & E3 & H3);
    [destruct Hws as [->| ->]; cbn; lia|lia|].
  exists post', stk'. rewrite !translate_loop_app, E1. cbn [mbind option_bind]. rewrite translate_loop_app, E2.
  cbn [mbind option_bind]. split; [exact E3|]. rewrite app_assoc, Heq in H3. by rewrite <- !app_assoc in H3.
Qed.

Lemma translate_stages gs : forall post stk ps,
  Forall tstage_ok gs -> state_is post stk ps [] -> (length ps + length (gs ≫= g_infix) <= 1024)%nat ->
  exists post' stk', translate_loop (gs ≫= g_infix) post stk = Some (post', stk') /\
    state_is post' stk' (ps ++ (gs ≫= g_postfix)) [].
Proof.
  induction gs as [|g gs IH]; intros post stk ps Hok Hst Hl.
  - exists post, stk. cbn. by rewrite app_nil_r.
  - apply Forall_cons in Hok as [Hg Hok].
    change ((g :: gs) ≫= g_infix) with (g_infix g ++ (gs ≫= g_infix)) in *.
    change ((g :: gs) ≫= g_postfix) with (g_postfix g ++ (gs ≫= g_postfix)). rewrite length_app in Hl.
    destruct (translate_stage g post stk ps Hg Hst) as (post1 & stk1 & E1 & H1); [lia|].
    destruct (IH post1 stk1 _ Hok H1) as (post' & stk' & E2 & H2).
    { rewrite length_app. assert (length (g_postfix g) = length (g_infix g)) as ->; [|lia].
      unfold g_postfix, g_infix. rewrite !length_app, !(length_options_bind _ _ 3) by done. done. }
    exists post', stk'. rewrite translate_loop_app, E1. cbn [mbind option_bind]. split; [exact E2|].
    by rewrite app_assoc.
Qed.

(** ** The stack machine *)

(** The buffer holds [t]. *)
Definition written (b : list Z) (count : Z) (t : list Z) : Prop :=
  length b = 1536%nat /\ count = Z.of_nat (length t) /\ exists junk, b = t ++ junk.

Lemma splice_end t junk x : splice (t ++ junk) (length t) x = (t ++ x) ++ drop (length x) junk.
Proof. unfold splice. by rewrite take_app_length, drop_app_add, <- app_assoc. Qed.

Lemma append_spec num0 b count t ts :
  length num0 = 64%nat -> written b count t -> Forall token_ok ts ->
  Z.of_nat (length (ts ≫= fmt_of)) <= max32 -> (length t + length (ts ≫= text_of) <= 1536)%nat ->
  exists b' count', append num0 b count ((ts ≫= fmt_of) ++ [0]) (ts ≫= args_of) = Some (b', count') /\
    written b' count' (t ++ (ts ≫= text_of)).
Proof.
  intros Hn (Hb & -> & junk & ->) Hts Hf Hl. unfold append, MESSAGE_SIZE. change 1536 with (Z.of_nat 1536).
  rewrite (write_fmt_tokens num0 (t ++ junk) 1536 (length t) ts []) by (done || lia || (unfold max32; lia)).
  cbn [mbind option_bind]. rewrite take_ge by lia. rewrite u32_small by lia.
  eexists _, _. split; [done|]. split_and!.
  - rewrite length_splice by (rewrite Hb; lia). done.
  - rewrite length_app. lia.
  - rewrite splice_end. by eexists.
Qed.

(** The pieces of the formats. *)
Definition word_pieces (letter : Z) (strs : list (list Z * list Z)) : list Cstring.token :=
  [TLit letter; TNul] ++ (strs ≫= fun sr => [TStr sr.1 sr.2; TNul]).

Lemma append_word num0 b count t letter fmt s obj :
  length num0 = 64%nat -> written b count t -> letter <> 0 /\ letter <> 37 /\ letter <> 92 ->
  fmt = [letter; 92; 48; 37; 115; 92; 48; 0] -> text s -> cstr s obj ->
  (length t + length (zfields [[letter]; s]) <= 1536)%nat ->
  exists b' count', append num0 b count fmt [obj] = Some (b', count') /\
    written b' count' (t ++ zfields [[letter]; s]).
Proof.
  intros Hn Hw Hlt -> [Hs Hls] [_ [r ->]] Hl. unfold max32 in *.
  assert ([TLit letter; TNul; TStr s r; TNul] ≫= text_of = zfields [[letter]; s]) as Et
    by (rewrite !zfields_cons; reflexivity).
  rewrite <- Et in *. apply (append_spec num0 b count t [TLit letter; TNul; TStr s r; TNul]);
    [done|done| |cbn; unfold max32; lia|done].
  apply Forall_cons_2; [exact Hlt|]. apply Forall_cons_2; [exact I|].
  apply Forall_cons_2; [split; [done|unfold max32; lia]|]. apply Forall_cons_2; [exact I|]. apply Forall_nil_2.
Qed.

Lemma append_option num0 b count t v k vobj kobj :
  length num0 = 64%nat -> written b count t -> text v -> text k -> cstr v vobj -> cstr k kobj ->
  (length t + length (zfields [[79%Z]; v; k]) <= 1536)%nat ->
  exists b' count', append num0 b count (lit "O\0%s\0%s\0" ++ [0]) [vobj; kobj] = Some (b', count') /\
    written b' count' (t ++ zfields [[79]; v; k]).
Proof.
  intros Hn Hw [Hv Hlv] [Hk Hlk] [_ [r1 ->]] [_ [r2 ->]] Hl. unfold max32 in *.
  assert ([TLit 79; TNul; TStr v r1; TNul; TStr k r2; TNul] ≫= text_of = zfields [[79]; v; k]) as Et
    by (rewrite !zfields_cons; reflexivity).
  rewrite <- Et in *. apply (append_spec num0 b count t [TLit 79; TNul; TStr v r1; TNul; TStr k r2; TNul]);
    [done|done| |cbn; unfold max32; lia|done].
  apply Forall_cons_2; [cbn; lia|]. apply Forall_cons_2; [exact I|].
  apply Forall_cons_2; [split; [done|unfold max32; lia]|]. apply Forall_cons_2; [exact I|].
  apply Forall_cons_2; [split; [done|unfold max32; lia]|]. apply Forall_cons_2; [exact I|]. apply Forall_nil_2.
Qed.

Lemma append_end num0 b count t :
  length num0 = 64%nat -> written b count t -> (length t + 2 <= 1536)%nat ->
  exists b' count', append num0 b count (lit "E\0" ++ [0]) [] = Some (b', count') /\
    written b' count' (t ++ zfields [[69]]).
Proof.
  intros Hn Hw Hl. apply (append_spec num0 b count t [TLit 69; TNul]);
    [done|done| |cbn; unfold max32; lia|done].
  apply Forall_cons_2; [cbn; lia|]. apply Forall_cons_2; [exact I|]. apply Forall_nil_2.
Qed.

(** The fields of the words of a command: the paths from the last to the first,
    then the program. *)
Definition word_fields (prog : list Z) (paths : list (list Z)) : list (list Z) :=
  (reverse paths ≫= fun p => [[68]; p]) ++ [[80]; prog].

Lemma write_command_spec num0 st paths : forall ts p prog fuel stk b count t,
  length num0 = 64%nat -> list_ok 8 stk -> tokens stk = p :: ts ->
  stands_for st p prog -> Forall2 (stands_for st) ts paths -> (length ts + 1 < fuel)%nat ->
  written b count t -> (length t + length (zfields (word_fields prog paths)) <= 1536)%nat ->
  exists stk' b' count', write_command num0 fuel st stk b count = Some (stk', b', count') /\
    list_ok 8 stk' /\ tokens stk' = [] /\ written b' count' (t ++ zfields (word_fields prog paths)).
Proof.
  induction paths as [|path paths IH] using rev_ind; intros ts p prog fuel stk b count t Hn Hok Ht Hp Hts Hf Hw Hl;
    (destruct fuel as [|fuel]; [lia|]); cbn [write_command].
  - apply Forall2_nil_inv_r in Hts as ->. rewrite (check_spec 8 stk [] p Hok Ht). cbn [mbind option_bind].
    destruct Hp as (Hty & Hps & obj & Hobj & Hc). rewrite Hty. cbn [Z.eqb TOKEN_IDENT Pos.eqb].
    destruct (pop_spec 8 stk [] p Hok Ht) as (stk1 & -> & Hok1 & Ht1). cbn [mbind option_bind].
    rewrite Hobj. cbn [mbind option_bind]. rewrite (check_empty 8 stk1) by done. cbn [mbind option_bind Z.eqb TOKEN_IDENT].
    destruct (append_word num0 b count t 80 (lit "P\0%s\0" ++ [0]) prog obj Hn Hw) as (b' & count' & -> & Hw');
      [lia|done|done|done|done|]. cbn [mbind option_bind]. destruct fuel as [|fuel]; [lia|].
    cbn [write_command]. rewrite (check_empty 8 stk1) by done. cbn [mbind option_bind Z.eqb TOKEN_IDENT].
    exists stk1, b', count'. done.
  - apply Forall2_app_inv_r in Hts as (ts1 & ts2 & Hts1 & Hts2 & ->).
    apply Forall2_cons_inv_r in Hts2 as (tp & ts3 & Htp & Hnil & ->). apply Forall2_nil_inv_r in Hnil as ->.
    rewrite app_comm_cons in Ht. rewrite length_app in Hf. cbn [length] in Hf.
    rewrite (check_spec 8 stk _ _ Hok Ht). cbn [mbind option_bind].
    destruct Htp as (Hty & Hps & obj & Hobj & Hc). rewrite Hty. cbn [Z.eqb TOKEN_IDENT Pos.eqb].
    destruct (pop_spec 8 stk _ _ Hok Ht) as (stk1 & -> & Hok1 & Ht1). cbn [mbind option_bind].
    rewrite Hobj. cbn [mbind option_bind].
    assert (tokenlist_check stk1 = Some TOKEN_IDENT) as ->.
    { destruct ts1 as [|x ts1 _] using rev_ind.
      - rewrite (check_spec 8 stk1 [] p) by done. by rewrite (proj1 Hp).
      - rewrite app_comm_cons in Ht1. rewrite (check_spec 8 stk1 _ _ Hok1 Ht1).
        apply Forall2_app_inv_l in Hts1 as (? & q & _ & Hx & _).
        apply Forall2_cons_inv_l in Hx as (? & ? & Hx & _). by rewrite (proj1 Hx). }
    cbn [mbind option_bind Z.eqb TOKEN_IDENT Pos.eqb].
    assert (word_fields prog (paths ++ [path]) = [[68]; path] ++ word_fields prog paths) as Ew
      by (unfold word_fields; by rewrite reverse_app).
    rewrite Ew, zfields_app in Hl |- *. rewrite length_app in Hl.
    destruct (append_word num0 b count t 68 (lit "D\0%s\0" ++ [0]) path obj Hn Hw) as (b1 & count1 & -> & Hw1);
      [lia|done|done|done|lia|]. cbn [mbind option_bind].
    destruct (IH ts1 p prog fuel stk1 b1 count1 _ Hn Hok1 Ht1 Hp Hts1 ltac:(lia) Hw1)
      as (stk' & b' & count' & E & H'); [rewrite length_app; lia|].
    exists stk', b', count'. rewrite app_assoc. done.
Qed.

(** ** Commands *)

Record stage := Stage { s_program : list Z; s_paths : list (list Z); s_options : list (list Z * list Z) }.

(** The command a stage of a pipeline is compiled to. *)
Definition command_of (s : stage) : command :=
  Command (((fun kv => IOption kv.1 kv.2) <$> s_options s) ++ (IPath <$> reverse (s_paths s))) (s_program s).

Definition option_fields (os : list (list Z * list Z)) : list (list Z) :=
  os ≫= fun kv => [[79]; kv.2; kv.1].

Lemma command_of_fields s :
  command_fields (command_of s) = option_fields (s_options s) ++ word_fields (s_program s) (s_paths s).
Proof.
  unfold command_fields, command_of, word_fields, option_fields. cbn [c_items c_program].
  rewrite bind_app, <- app_assoc. f_equal; [|f_equal].
  - induction (s_options s) as [|[k v] os IH]; [done|]. cbn. by rewrite <- IH.
  - induction (reverse (s_paths s)) as [|p ps IH]; [done|]. cbn. by rewrite <- IH.
Qed.

Definition renders (st : ring) (g : tstage) (s : stage) : Prop :=
  Forall2 (stands_for st) (g_words g) (s_program s :: s_paths s) /\
  Forall2 (fun a kv => stands_for st a.1 kv.1 /\ stands_for st a.2 kv.2) (g_options g) (s_options s).

Section machine.
Context {U : Type} (num0 : list Z) (st : ring) (Hn0 : length num0 = 64%nat).
Implicit Types s : proc U.

Lemma parse_words ts rest : forall stk b count s,
  Forall is_ident ts -> list_ok 8 stk -> (length (tokens stk) + length ts <= 8)%nat ->
  exists stk', list_ok 8 stk' /\ tokens stk' = tokens stk ++ ts /\
    parse_tokens num0 st (ts ++ rest) stk b count s = parse_tokens num0 st rest stk' b count s.
Proof.
  induction ts as [|t ts IH]; intros stk b count s Hts Hok Hl.
  - exists stk. by rewrite app_nil_r.
  - apply Forall_cons in Hts as [Ht Hts]. cbn [length] in Hl.
    destruct (push_spec 8 stk t Hok) as (stk1 & E & Hok1 & Ht1); [lia|].
    destruct (IH stk1 b count s Hts Hok1) as (stk' & Hok' & Ht' & E'); [rewrite Ht1, length_app; cbn; lia|].
    exists stk'. split; [done|]. split; [by rewrite Ht', Ht1, <- app_assoc|].
    cbn [app parse_tokens]. unfold is_ident in Ht. rewrite Ht. cbn [Z.eqb TOKEN_IDENT Pos.eqb].
    unfold mbind, M_bind. rewrite E. exact E'.
Qed.

Lemma parse_options gos os rest : forall stk b count t s,
  Forall2 (fun a kv => stands_for st a.1 kv.1 /\ stands_for st a.2 kv.2) gos os ->
  list_ok 8 stk -> (gos = [] \/ length (tokens stk) + 2 <= 8)%nat -> written b count t ->
  (length t + length (zfields (option_fields os)) <= 1536)%nat ->
  exists stk' b' count', list_ok 8 stk' /\ tokens stk' = tokens stk /\
    written b' count' (t ++ zfields (option_fields os)) /\
    parse_tokens num0 st ((gos ≫= fun kv => [kv.1; kv.2; tok_option]) ++ rest) stk b count s =
    parse_tokens num0 st rest stk' b' count' s.
Proof.
  intros stk b count t s Hos. revert stk b count t s.
  induction Hos as [|[tk tv] [k v] gos os [Hk Hv] Hos IH]; intros stk b count t s Hok Hl Hw Hfit.
  - exists stk, b, count. cbn. rewrite app_nil_r. done.
  - destruct Hl as [|Hl]; [done|]. cbn [fst snd] in *.
    change (option_fields ((k, v) :: os)) with ([[79]; v; k] ++ option_fields os) in *.
    rewrite zfields_app, length_app in Hfit.
    destruct Hk as (Hkt & Hks & kobj & Hko & Hkc), Hv as (Hvt & Hvs & vobj & Hvo & Hvc).
    destruct (parse_words [tk; tv] (tok_option :: (gos ≫= fun kv => [kv.1; kv.2; tok_option]) ++ rest)
      stk b count s) as (stk1 & Hok1 & Ht1 & E1); [by repeat constructor|done|cbn; lia|].
    destruct (pop_spec 8 stk1 (tokens stk ++ [tk]) tv Hok1) as (stk2 & P2 & Hok2 & Ht2); [by rewrite <- app_assoc|].
    destruct (pop_spec 8 stk2 (tokens stk) tk Hok2 Ht2) as (stk3 & P3 & Hok3 & Ht3).
    destruct (append_option num0 b count t v k vobj kobj Hn0 Hw Hvs Hks Hvc Hkc) as (b1 & count1 & A & Hw1); [lia|].
    destruct (IH stk3 b1 count1 (t ++ zfields [[79]; v; k]) s Hok3) as (stk' & b' & count' & Hok' & Ht' & Hw' & E');
      [right; by rewrite Ht3|exact Hw1|rewrite length_app; lia|].
    exists stk', b', count'. split; [done|]. split; [by rewrite Ht', Ht3|].
    split; [by rewrite zfields_app, app_assoc|].
    change (((tk, tv) :: gos) ≫= fun kv => [kv.1; kv.2; tok_option])
      with ([tk; tv; tok_option] ++ (gos ≫= fun kv => [kv.1; kv.2; tok_option])).
    cbn [app] in E1 |- *. rewrite E1.
    cbn [parse_tokens ttype tok_option Z.eqb TOKEN_IDENT TOKEN_OPTION Pos.eqb]. unfold mbind, M_bind.
    rewrite P2. cbn [lift]. rewrite P3. cbn [lift]. rewrite Hvo. cbn [lift]. rewrite Hko. cbn [lift].
    rewrite A. exact E'.
Qed.

(** A command up to the operator that ends it. *)
Lemma parse_stage g sg rest stk b count t s :
  renders st g sg -> list_ok 8 stk -> tokens stk = [] ->
  (length (g_words g) <= 6)%nat -> written b count t ->
  (length t + length (zfields (command_fields (command_of sg))) <= 1536)%nat ->
  exists stk' b' count' stk2 b2 count2, list_ok 8 stk2 /\ tokens stk2 = [] /\
    write_command num0 (S (thead stk')) st stk' b' count' = Some (stk2, b2, count2) /\
    written b2 count2 (t ++ zfields (command_fields (command_of sg))) /\
    parse_tokens num0 st (g_postfix g ++ rest) stk b count s =
    parse_tokens num0 st (Token (g_end g) None :: rest) stk' b' count' s.
Proof.
  intros [Hwords Hopts] Hok Ht Hlen Hw Hfit. rewrite command_of_fields, zfields_app, length_app in Hfit.
  unfold g_postfix. rewrite <- !app_assoc.
  assert (Forall is_ident (g_words g)) as Hid
    by (eapply Forall2_Forall_l; [exact Hwords|]; apply Forall_true; by intros ? ? [? _]).
  destruct (parse_words (g_words g) ((g_options g ≫= fun kv => [kv.1; kv.2; tok_option]) ++ [Token (g_end g) None] ++ rest)
    stk b count s Hid Hok) as (stk1 & Hok1 & Ht1 & E1); [rewrite Ht; cbn; lia|].
  rewrite Ht in Ht1. cbn [app] in Ht1.
  destruct (parse_options (g_options g) (s_options sg) ([Token (g_end g) None] ++ rest) stk1 b count t s Hopts Hok1)
    as (stk' & b' & count' & Hok' & Ht' & Hw' & E2); [right; rewrite Ht1; lia|done|lia|].
  destruct (g_words g) as [|p ts] eqn:Eg; [by apply Forall2_nil_inv_l in Hwords|].
  apply Forall2_cons in Hwords as [Hp Hts].
  pose proof (length_tokens 8 stk' Hok') as L. rewrite Ht', Ht1 in L. cbn [length] in L.
  destruct (write_command_spec num0 st (s_paths sg) ts p (s_program sg) (S (thead stk')) stk' b' count'
    (t ++ zfields (option_fields (s_options sg))) Hn0 Hok')
    as (stk2 & b2 & count2 & E3 & Hok2 & Ht2 & Hw2); [by rewrite Ht', Ht1|done|done|lia|done|rewrite length_app; lia|].
  exists stk', b', count', stk2, b2, count2. split_and!; [done|done|done| |].
  - by rewrite command_of_fields, zfields_app, app_assoc.
  - rewrite E1. exact E2.
Qed.
End machine.

(** ** A command line *)

Definition stage_lexemes (e : Z) (s : stage) : list lexeme :=
  (LIdent <$> s_program s :: s_paths s) ++
  (s_options s ≫= fun kv => [LOp TOKEN_OPTION; LIdent kv.1; LIdent kv.2]) ++ [LOp e].

(** Commands separated by [|] and ended by [;] or a new line. *)
Fixpoint line_lexemes (ss : list stage) : list lexeme :=
  match ss with
  | [] => []
  | [s] => stage_lexemes TOKEN_END s
  | s :: ss => stage_lexemes TOKEN_PIPE s ++ line_lexemes ss
  end.

Lemma tok_is_idents st toks ss :
  Forall2 (tok_is st) toks (LIdent <$> ss) -> Forall2 (stands_for st) toks ss.
Proof.
  revert toks. induction ss as [|s ss IH]; intros toks H; cbn [fmap list_fmap] in H.
  - apply Forall2_nil_inv_r in H as ->. constructor.
  - apply Forall2_cons_inv_r in H as (t & r & Ht & H & ->). constructor; [exact Ht|by apply IH].
Qed.

Lemma tok_is_options st toks os :
  Forall2 (tok_is st) toks (os ≫= fun kv => [LOp TOKEN_OPTION; LIdent kv.1; LIdent kv.2]) ->
  exists gos, toks = (gos ≫= fun kv => [tok_option; kv.1; kv.2]) /\
    Forall2 (fun a kv => stands_for st a.1 kv.1 /\ stands_for st a.2 kv.2) gos os.
Proof.
  revert toks. induction os as [|[k v] os IH]; intros toks H.
  - apply Forall2_nil_inv_r in H as ->. exists []. split; [done|constructor].
  - change (((k, v) :: os) ≫= _) with
      ([LOp TOKEN_OPTION; LIdent k; LIdent v] ++ (os ≫= fun kv => [LOp TOKEN_OPTION; LIdent kv.1; LIdent kv.2])) in H.
    apply Forall2_cons_inv_r in H as (t1 & r1 & H1 & H & ->).
    apply Forall2_cons_inv_r in H as (t2 & r2 & H2 & H & ->).
    apply Forall2_cons_inv_r in H as (t3 & r3 & H3 & H & ->).
    destruct (IH r3 H) as (gos & -> & Hgos). exists ((t2, t3) :: gos).
    cbn in H1. subst t1. split; [done|]. by constructor.
Qed.

Lemma renders_ok st g s : renders st g s -> g_end g = TOKEN_END \/ g_end g = TOKEN_PIPE -> tstage_ok g.
Proof.
  intros [Hw Ho] He. split_and!; [| |done].
  - eapply Forall2_Forall_l; [exact Hw|]. apply Forall_true. by intros ? ? [? _].
  - eapply Forall2_Forall_l; [exact Ho|]. apply Forall_true. by intros ? ? [[? _] [? _]].
Qed.

Lemma tok_is_stage st toks e s :
  Forall2 (tok_is st) toks (stage_lexemes e s) ->
  exists g, toks = g_infix g /\ renders st g s /\ g_end g = e.
Proof.
  intros H. unfold stage_lexemes in H. apply Forall2_app_inv_r in H as (ws & r & Hw & H & ->).
  apply Forall2_app_inv_r in H as (os & es & Ho & He & ->). apply tok_is_idents in Hw.
  destruct (tok_is_options st os _ Ho) as (gos & -> & Hgos).
  apply Forall2_cons_inv_r in He as (t & nil & Ht & Hnil & ->). apply Forall2_nil_inv_r in Hnil as ->.
  cbn in Ht. subst t. exists (Tstage ws gos e). done.
Qed.

(** The tokens of a line, command by command. *)
Inductive line_renders (st : ring) : list tstage -> list stage -> Prop :=
| line_last g s : renders st g s -> g_end g = TOKEN_END -> line_renders st [g] [s]
| line_more g s gs ss : renders st g s -> g_end g = TOKEN_PIPE -> line_renders st gs ss ->
    line_renders st (g :: gs) (s :: ss).

Lemma tok_is_line st ss : forall toks,
  Forall2 (tok_is st) toks (line_lexemes ss) -> ss <> [] ->
  exists gs, toks = gs ≫= g_infix /\ line_renders st gs ss.
Proof.
  induction ss as [|s ss IH]; intros toks H Hne; [done|]. destruct ss as [|s' ss].
  - destruct (tok_is_stage st toks TOKEN_END s H) as (g & -> & Hr & He). exists [g].
    split; [|by constructor]. cbn. by rewrite app_nil_r.
  - change (line_lexemes (s :: s' :: ss)) with (stage_lexemes TOKEN_PIPE s ++ line_lexemes (s' :: ss)) in H.
    apply Forall2_app_inv_r in H as (t1 & t2 & H1 & H2 & ->).
    destruct (tok_is_stage st t1 TOKEN_PIPE s H1) as (g & -> & Hr & He).
    destruct (IH t2 H2) as (gs & -> & Hgs); [done|]. exists (g :: gs). split; [done|by constructor].
Qed.

Lemma line_renders_ok st gs ss : line_renders st gs ss -> Forall tstage_ok gs.
Proof.
  induction 1 as [g s Hr He|g s gs ss Hr He _ IH]; constructor; try done.
  - eapply renders_ok; [exact Hr|by left].
  - eapply renders_ok; [exact Hr|by right].
Qed.

Lemma line_renders_words st gs ss :
  line_renders st gs ss -> Forall (fun s => length (s_paths s) <= 5)%nat ss ->
  Forall (fun g => length (g_words g) <= 6)%nat gs.
Proof.
  induction 1 as [g s [Hw _] He|g s gs ss [Hw _] He _ IH]; intros Hss;
    apply Forall_cons in Hss as [Hs Hss]; apply Forall2_length in Hw; cbn [length] in Hw; constructor; auto; lia.
Qed.

(** The message of a line. *)
Definition line_message (ss : list stage) : list Z :=
  zfields (((command_of <$> ss) ≫= command_fields) ++ [[69]]).

Section line.
Context {U : Type} (num0 : list Z) (st : ring) (Hn0 : length num0 = 64%nat).
Implicit Types s : proc U.

Lemma parse_line gs ss : line_renders st gs ss -> forall stk b count t (s : proc U) tgt rest l,
  Forall (fun g => length (g_words g) <= 6)%nat gs -> list_ok 8 stk -> tokens stk = [] -> written b count t ->
  (length t + length (line_message ss) <= 1536)%nat ->
  length (listeners s) = 256%nat -> listeners s !! 7%nat = Some l -> target l = tgt -> tgt <> 0 ->
  places (kernel s) = true :: rest ->
  exists stk', list_ok 8 stk' /\ tokens stk' = [] /\
    parse_tokens num0 st (gs ≫= g_postfix) stk b count s =
      Ret stk' (after s rest [Place tgt EVENT_DATA (t ++ line_message ss)]).
Proof.
  induction 1 as [g sg Hr He|g sg gs ss Hr He Hgs IH];
    intros stk b count t s tgt rest l Hwords Hok Ht Hw Hfit Hls Hl Htgt Hne Hpl;
    apply Forall_cons in Hwords as [Hwd Hwords].
  - change ([g] ≫= g_postfix) with (g_postfix g ++ []).
    assert (line_message [sg] = zfields (command_fields (command_of sg)) ++ zfields [[69]]) as Em
      by (unfold line_message; cbn [fmap list_fmap];
          change ([command_of sg] ≫= command_fields) with (command_fields (command_of sg) ++ []);
          by rewrite app_nil_r, zfields_app).
    rewrite Em in *. rewrite length_app in Hfit.
    change (length (zfields [[69%Z]])) with 2%nat in Hfit.
    destruct (parse_stage num0 st Hn0 g sg [] stk b count t s Hr Hok Ht Hwd Hw)
      as (stk1 & b1 & c1 & stk2 & b2 & c2 & Hok2 & Ht2 & Ewc & Hw2 & ->); [lia|].
    rewrite He. cbn [parse_tokens ttype Z.eqb TOKEN_IDENT TOKEN_OPTION TOKEN_PIPE TOKEN_END Pos.eqb].
    unfold mbind, M_bind. rewrite Ewc. cbn [lift].
    destruct (append_end num0 b2 c2 _ Hn0 Hw2) as (b3 & c3 & -> & Hb3 & -> & junk & ->); [rewrite length_app; lia|].
    cbn [lift]. rewrite <- app_assoc. set (m := t ++ _ ++ _) in *.
    unfold channel_send_buffer. rewrite send_spec; [|unfold EVENT_DATA; lia|done|rewrite length_app; lia].
    unfold resolve, CHANNEL_DEFAULT. cbn [Z.eqb]. change (Z.to_nat EVENT_DATA) with 7%nat. rewrite Hl. cbn [from_option].
    rewrite Htgt. assert (length m <= 1536)%nat 
      by (unfold m; rewrite !length_app; change (length (zfields [[69%Z]])) with 2%nat; lia).
    unfold MESSAGE_SIZE. destruct (Z.ltb_spec 1536 (Z.of_nat (length m))); [lia|].
    destruct (Z.eqb_spec tgt 0); [done|]. cbn [orb]. rewrite Hpl. cbn [accepted].
    exists stk2. split_and!; [done|done|]. rewrite Nat2Z.id. rewrite (take_app_length m). done.
  - change ((g :: gs) ≫= g_postfix) with (g_postfix g ++ (gs ≫= g_postfix)).
    assert (line_message (sg :: ss) = zfields (command_fields (command_of sg)) ++ line_message ss) as Em.
    { unfold line_message. cbn [fmap list_fmap].
      change ((command_of sg :: (command_of <$> ss)) ≫= command_fields)
        with (command_fields (command_of sg) ++ ((command_of <$> ss) ≫= command_fields)).
      by rewrite <- app_assoc, zfields_app. }
    rewrite Em in *. rewrite length_app in Hfit.
    destruct (parse_stage num0 st Hn0 g sg (gs ≫= g_postfix) stk b count t s Hr Hok Ht Hwd Hw)
      as (stk1 & b1 & c1 & stk2 & b2 & c2 & Hok2 & Ht2 & Ewc & Hw2 & ->); [lia|].
    rewrite He. cbn [parse_tokens ttype Z.eqb TOKEN_IDENT TOKEN_OPTION TOKEN_PIPE Pos.eqb].
    unfold mbind, M_bind. rewrite Ewc. cbn [lift]. rewrite app_assoc.
    eapply IH; try done. rewrite length_app. lia.
Qed.
End line.

(** ** The program *)

Definition slang_ok (sl : slang) : Prop :=
  list_ok 1024 (infix sl) /\ list_ok 1024 (postfix sl) /\ list_ok 8 (stack sl) /\
  ring_wf (stringtable sl) /\ rcapacity (stringtable sl) = 4096.

Lemma reset_list_ok cap l : list_ok cap l -> list_ok cap (tokenlist_reset l) /\ tokens (tokenlist_reset l) = [].
Proof. intros (Hs & Hl & Hh). split; [split_and!; cbn; (done || lia)|]. unfold tokens. cbn. apply take_0. Qed.

Lemma reset_linear st : ring_wf st -> rcapacity st = 4096 -> linear (ring_reset st) [].
Proof.
  intros (Hk & Hl & _) Hc. unfold linear. split_and!; [|done|done|].
  - refine (conj Hk (conj Hl (conj _ (conj _ _)))); [cbn; unfold max32; lia|cbn; unfold max32; lia|].
    change (ring_count (ring_reset st)) with 0. change (rcapacity (ring_reset st)) with (rcapacity st). lia.
  - done.
Qed.

Lemma lexes_ok r ls : lexes r ls -> Z.of_nat (length r) < max32 -> Forall lexeme_ok ls.
Proof.
  unfold max32. induction 1 as [|c r ls _ _ IH|c r ls _ _ _ IH|c w r ls Hw _ _ IH]; intros Hl;
    rewrite ?length_app in Hl; cbn [length] in Hl.
  - constructor.
  - apply IH. lia.
  - constructor; [done|]. apply IH. lia.
  - constructor; [|apply IH; lia]. split; [|unfold max32; cbn [length]; lia].
    eapply Forall_impl; [exact Hw|]. by intros x [_ ?].
Qed.

Lemma number_length o ls : length (number o ls) = length ls.
Proof. revert o. induction ls as [|[s|ty] ls IH]; intros o; cbn; by rewrite ?IH. Qed.

(** What the shell needs of a line to translate it: a command, at most five
    paths per command (with the program, a key and its value they fill the
    stack of eight), and room for the tokens, the strings and the message. *)
Definition line_fits (ss : list stage) : Prop :=
  ss <> [] /\ Forall (fun s => length (s_paths s) <= 5)%nat ss /\
  (length (line_lexemes ss) <= 1024)%nat /\ (length (zfields (idents (line_lexemes ss))) <= 4096)%nat /\
  (length (line_message ss) <= 1536)%nat.

Lemma lexes_nil_inv r ls : lexes r ls -> ls <> [] -> (0 < length r)%nat.
Proof. destruct 1; intros Hne; [done|..]; rewrite ?length_app; cbn; lia. Qed.

Lemma line_lexemes_ne ss : ss <> [] -> line_lexemes ss <> [].
Proof. by destruct ss as [|s [|s' ss]]. Qed.

Lemma ondata_line stack0 num0 src line post ss (s : proc (runtime slang)) l rest :
  length stack0 = 1536%nat -> length num0 = 64%nat -> slang_ok (program_data (user s)) ->
  lexes line (line_lexemes ss) -> line_fits ss -> Z.of_nat (length line) < max32 ->
  length (listeners s) = 256%nat -> listeners s !! 7%nat = Some l -> target l <> 0 ->
  places (kernel s) = true :: rest ->
  exists s', ondata stack0 num0 src (line ++ post) (Z.of_nat (length line)) s = Ret tt s' /\
    slang_ok (program_data (user s')) /\
    trace (kernel s') = trace (kernel s) ++ [Place (target l) EVENT_DATA (line_message ss)].
Proof.
  intros Hst0 Hn0 (Hinf & Hpost & Hstk & Hwf & Hcap) Hlex (Hne & Hpaths & Htok & Hstr & Hmsg) Hlen Hls Hl Ht Hpl.
  pose proof (lexes_nil_inv _ _ Hlex (line_lexemes_ne ss Hne)) as Hpos.
  unfold ondata. destruct (Z.eqb_spec (Z.of_nat (length line)) 0); [lia|].
  unfold mbind at 1, M_bind at 1, get. unfold reset. cbn [infix stringtable postfix stack].
  set (sl := program_data (user s)) in *.
  destruct (reset_list_ok 1024 (infix sl) Hinf) as [Hinf0 Tinf0].
  destruct (reset_list_ok 1024 (postfix sl) Hpost) as [Hpost0 Tpost0].
  destruct (reset_list_ok 8 (stack sl) Hstk) as [Hstk0 Tstk0].
  unfold tokenizebuffer. rewrite Nat2Z.id.
  destruct (tokenizebuffer_loop_spec line _ Hlex (S (length line)) (tokenlist_reset (infix sl))
    (ring_reset (stringtable sl)) [] [] post Hinf0 (reset_linear _ Hwf Hcap))
    as (inf1 & st1 & E1 & Hinf1 & Tinf1 & Hst1); [lia|rewrite Tinf0; cbn; lia|cbn; lia|].
  cbn [app length Nat.add] in E1, Hst1. rewrite Tinf0 in Tinf1. cbn [app length] in Tinf1.
  unfold mbind at 1, M_bind at 1. rewrite E1. cbn [lift]. unfold compile. cbn [postfix infix stack stringtable].
  destruct (linear_buffer st1 _ Hst1) as [junk Hbuf].
  pose proof (number_is st1 [] (line_lexemes ss) junk Hbuf (lexes_ok _ _ Hlex Hlen)) as Hnum.
  destruct (tok_is_line st1 ss _ Hnum Hne) as (gs & Egs & Hgs). cbn [length] in Egs.
  assert (length (gs ≫= g_infix) = length (line_lexemes ss)) as Hlg by (rewrite <- Egs; apply number_length).
  destruct (translate_stages gs (tokenlist_reset (postfix sl)) (tokenlist_reset (stack sl)) []
    (line_renders_ok _ _ _ Hgs)) as (post1 & stk1 & E2 & Hp1 & Hs1 & Tp1 & Ts1); [done|cbn; lia|].
  unfold mbind at 1, M_bind at 1, translate. destruct Hinf1 as (Hi1 & Hi2 & Hi3).
  destruct (Nat.leb_spec (thead inf1) (length (table inf1))); [|lia].
  change (take (thead inf1) (table inf1)) with (tokens inf1). rewrite Tinf1, Egs, E2. cbn [lift].
  unfold mbind at 1, M_bind at 1, parse. pose proof Hp1 as (Hp11 & Hp12 & Hp13).
  destruct (Nat.leb_spec (thead post1) (length (table post1))); [|lia].
  change (take (thead post1) (table post1)) with (tokens post1). rewrite Tp1. cbn [app].
  destruct (parse_line num0 st1 Hn0 gs ss Hgs stk1 stack0 0 [] s (target l) rest l)
    as (stk2 & Hs2 & Ts2 & E3); try done.
  { by apply (line_renders_words st1 gs ss). } { split_and!; [done|done|by exists stack0]. }
  rewrite E3. cbn [app]. unfold set_slang, mbind, M_bind, get, put. eexists. split; [done|]. split; [|done].
  destruct Hst1 as (Hw1 & _ & Hc1 & _). cbn. split_and!; done.
Qed.

Lemma lexeme_ok_texts ss :
  Forall lexeme_ok (line_lexemes ss) ->
  Forall (fun s => text (s_program s) /\ Forall text (s_paths s) /\
                   Forall (fun kv => text kv.1 /\ text kv.2) (s_options s)) ss.
Proof.
  assert (forall e s, Forall lexeme_ok (stage_lexemes e s) -> text (s_program s) /\ Forall text (s_paths s) /\
    Forall (fun kv => text kv.1 /\ text kv.2) (s_options s)) as Hstage.
  { intros e s H. unfold stage_lexemes in H. apply Forall_app in H as [Hw H]. apply Forall_app in H as [Ho _].
    rewrite Forall_fmap in Hw. apply Forall_cons in Hw as [Hp Hps]. split_and!; [done|done|].
    induction (s_options s) as [|[k v] os IH]; [constructor|].
    change (((k, v) :: os) ≫= _) with
      ([LOp TOKEN_OPTION; LIdent k; LIdent v] ++ (os ≫= fun kv => [LOp TOKEN_OPTION; LIdent kv.1; LIdent kv.2])) in Ho.
    apply Forall_app in Ho as [Hkv Ho]. apply Forall_cons in Hkv as [_ Hkv]. apply Forall_cons in Hkv as [Hk Hkv].
    apply Forall_cons in Hkv as [Hv _]. constructor; [done|by apply IH]. }
  induction ss as [|s ss IH]; intros H; [constructor|]. destruct ss as [|s' ss].
  - constructor; [by eapply Hstage|constructor].
  - change (line_lexemes (s :: s' :: ss)) with (stage_lexemes TOKEN_PIPE s ++ line_lexemes (s' :: ss)) in H.
    apply Forall_app in H as [H1 H2]. constructor; [by eapply Hstage|by apply IH].
Qed.

Lemma command_of_paths s : paths_of (c_items (command_of s)) = reverse (s_paths s).
Proof.
  unfold command_of. cbn [c_items]. rewrite paths_of_app.
  assert (paths_of ((fun kv => IOption kv.1 kv.2) <$> s_options s) = []) as ->
    by (induction (s_options s); done). cbn [app].
  induction (reverse (s_paths s)) as [|p ps IH]; [done|]. cbn. by f_equal.
Qed.

Lemma command_of_options s : options_of (c_items (command_of s)) = s_options s.
Proof.
  unfold command_of. cbn [c_items]. rewrite options_of_app.
  assert (options_of (IPath <$> reverse (s_paths s)) = []) as ->
    by (induction (reverse (s_paths s)); done). rewrite app_nil_r.
  induction (s_options s) as [|[k v] os IH]; [done|]. cbn. by f_equal.
Qed.

(** C16. From a command line to a job.  When the shell program receives a
    non-empty line of commands ([program path ... ?key value ...], separated by
    [|] and ended by [;] or a new line, with any blanks between the words) that
    fits its tables, it sends its listener one message, and [job_parse] of that
    message gives one worker per command, in order, with that program and those
    options; the paths arrive in reverse order.  The line fits when a command has
    at most five paths and 32 options, the line has at most 1024 words and
    operators and 4096 bytes of words with their terminators, and the message
    has at most 1536 bytes (the shell does not check the first of these: its
    stack has eight entries, and a command of nine words writes behind it).  The
    listener of the data event must have a target, whose mailbox accepts the
    message, and the job must have a worker for every command. *)
Theorem shell_line_to_job (stack0 num0 : list Z) (src : Z) (line post : list Z) (ss : list stage)
    (s : proc (runtime slang)) (l : listener) (rest : list bool) (ws : list job_worker)
    (Hlocals : length stack0 = 1536%nat /\ length num0 = 64%nat)
    (Hslang : slang_ok (program_data (user s)))
    (Hline : lexes line (line_lexemes ss)) (Hfits : line_fits ss) (Hlen : Z.of_nat (length line) < max32)
    (Hoptions : Forall (fun sg => length (s_options sg) <= 32)%nat ss)
    (Hlisteners : length (listeners s) = 256%nat) (Hroute : listeners s !! 7%nat = Some l)
    (Htarget : target l <> 0) (Haccept : places (kernel s) = true :: rest)
    (Hws : Z.of_nat (length ws) <= max32) (Hcap : (length ss <= length ws)%nat) :
  exists s' msg j0 j,
    ondata stack0 num0 src (line ++ post) (Z.of_nat (length line)) s = Ret tt s' /\
    trace (kernel s') = trace (kernel s) ++ [Place (target l) EVENT_DATA msg] /\
    job_init ws (Z.of_nat (length ws)) = Some j0 /\
    job_parse j0 msg (Z.of_nat (length msg)) = Some j /\ job_count_ j = Z.of_nat (length ss) /\
    Forall2 (fun w sg => points_to (program w) (s_program sg) /\
                         loaded w (reverse (s_paths sg)) (s_options sg)) (take (length ss) (workers j)) ss.
Proof.
  destruct Hlocals as [Hst0 Hn0].
  destruct (ondata_line stack0 num0 src line post ss s l rest) as (s' & E & _ & Htr); try done.
  pose proof (lexeme_ok_texts ss (lexes_ok _ _ Hline Hlen)) as Htexts.
  destruct (job_parse_commands ws (command_of <$> ss) []) as (j0 & j & Hinit & Hparse & Hcount & Hall);
    [done|by rewrite length_fmap| |].
  - apply Forall_fmap. destruct Hfits as (_ & Hpaths & _). revert Htexts Hpaths Hoptions. clear.
    induction ss as [|sg ss IH]; intros Ht Hp Ho; [constructor|].
    apply Forall_cons in Ht as [(Hprog & Hps & Hos) Ht]. apply Forall_cons in Hp as [Hp1 Hp].
    apply Forall_cons in Ho as [Ho1 Ho]. constructor; [|by apply IH]. split_and!.
    + unfold command_of. cbn. apply Forall_app. rewrite !Forall_fmap. split; [done|].
      by apply Forall_reverse.
    + done.
    + rewrite command_of_paths, length_reverse. lia.
    + rewrite command_of_options. done.
  - rewrite length_fmap, app_nil_r in *. exists s', (line_message ss), j0, j. split_and!; try done.
    rewrite Forall2_fmap_r in Hall. eapply Forall2_impl; [exact Hall|]. intros w sg [Hp Hload].
    by rewrite command_of_paths, command_of_options in Hload.
Qed.

(** [cat a b ?n 3 | wc], with its words. *)
Definition sample_line : list Z := lit "cat a b ?n 3 | wc" ++ [10].
Definition sample_stages : list stage := [Stage (lit "cat") [lit "a"; lit "b"] [(lit "n", lit "3")]; Stage (lit "wc") [] []].

Ltac word w := apply (lexes_ident _ w);
  [repeat (apply Forall_cons_2; [split; [reflexivity|discriminate]|]); apply Forall_nil_2
  |vm_compute; discriminate|].
Ltac blank := apply lexes_skip; [reflexivity|].
Ltac operator := apply lexes_op; [discriminate|discriminate|].

Lemma sample_line_lexes : lexes sample_line (line_lexemes sample_stages).
Proof.
  vm_compute.
  word [97; 116]. blank. word (@nil Z). blank. word (@nil Z). blank. operator. word (@nil Z). blank.
  word (@nil Z). blank. operator. blank. word [99]. operator. apply lexes_nil.
Qed.

Lemma fresh_slang_ok : slang_ok fresh_slang.
Proof.
  split_and!; [split_and!; [reflexivity|reflexivity|cbn; lia]..| |reflexivity].
  refine (conj _ (conj _ (conj _ (conj _ _)))).
  - exists 12. split; [lia|reflexivity].
  - reflexivity.
  - cbn. unfold max32. lia.
  - cbn. unfold max32. lia.
  - vm_compute. discriminate.
Qed.

Lemma shell_line_to_job_witness :
  exists s' msg j0 j,
    ondata (replicate 1536 0) (replicate 64 0) 5 (sample_line ++ []) (Z.of_nat (length sample_line))
      (slang_proc fresh_slang) = Ret tt s' /\
    trace (kernel s') = [] ++ [Place 9 EVENT_DATA msg] /\
    job_init (replicate 4 clear_worker) 4 = Some j0 /\
    job_parse j0 msg (Z.of_nat (length msg)) = Some j /\ job_count_ j = 2 /\
    Forall2 (fun w sg => points_to (program w) (s_program sg) /\
                         loaded w (reverse (s_paths sg)) (s_options sg)) (take 2 (workers j)) sample_stages.
Proof.
  apply (shell_line_to_job (replicate 1536 0) (replicate 64 0) 5 sample_line [] sample_stages
    (slang_proc fresh_slang) (Listener (Some addr_ondata) 9 false) [] (replicate 4 clear_worker)).
  - split; apply length_replicate.
  - exact fresh_slang_ok.
  - exact sample_line_lexes.
  - split_and!; [discriminate| |vm_compute; lia|vm_compute; lia|vm_compute; lia].
    repeat constructor; cbn; lia.
  - vm_compute. reflexivity.
  - repeat constructor; cbn; lia.
  - reflexivity.
  - reflexivity.
  - discriminate.
  - reflexivity.
  - unfold max32. cbn. lia.
  - cbn. lia.
Defined.

(** An option that is not the last part of its command takes the next word as
    its value's key: [cat ?n 3 a] is compiled to the option [3 = a] and the
    path [n]. *)
Example option_before_path :
  let line := lit "cat ?n 3 a" ++ [10] in
  match ondata (replicate 1536 0) (replicate 64 0) 0 line (Z.of_nat (length line)) (slang_proc fresh_slang) with
  | Ret _ s => trace (kernel s)
  | _ => []
  end = [Place 9 EVENT_DATA (zfields
           [lit "O"; lit "a"; lit "3"; lit "D"; lit "n"; lit "P"; lit "cat"; lit "E"])].
Proof. vm_compute. reflexivity. Qed.

(** Eight words fill the stack; the ninth is stored behind it. *)
Example stack_overrun :
  let line := lit "a b c d e f g h i" ++ [10] in
  ondata (replicate 1536 0) (replicate 64 0) 0 line (Z.of_nat (length line)) (slang_proc fresh_slang) = Crash.
Proof. vm_compute. reflexivity. Qed.
