(* ===== verification/Console.v ===== *)
(** * The boot console (src/kernel/core/bootconsole.c)

    The text screen of the kernel: 25 rows of 80 cells of 16 bits, a cursor and
    two colours.  [Write] lays out a string and scrolls.  [None] is an access
    outside the screen.

    The copy of the output to the serial line, [WriteStr] of
    src/kernel/core/serialport.c, is modelled as far as it gets.

    [console_shows_last_lines] is the contract: with the serial copy off, the
    screen always shows the last 25 lines written since it was cleared, wrapped
    at 80 columns; with the copy on, writing fails. *)
From Stdlib Require String Ascii.
From S2P Require Import Prelude.
Import String.StringSyntax.

Local Open Scope Z_scope.

Definition VGA_WIDTH : nat := 80.
Definition VGA_HEIGHT : nat := 25.

Record console := Console {
  videoMemory : list Z;
  XOffset : Z;
  YOffset : Z;
  BackgroundColor : Z;
  ForegroundColor : Z;
  BootConsoleWriteToSerial : bool }.

Definition with_video (c : console) v := Console v (XOffset c) (YOffset c)
  (BackgroundColor c) (ForegroundColor c) (BootConsoleWriteToSerial c).
Definition with_cursor (c : console) x y := Console (videoMemory c) x y
  (BackgroundColor c) (ForegroundColor c) (BootConsoleWriteToSerial c).

(** [uint16_t attrib = (BackgroundColor << 4) | (ForegroundColor & 0x0F);] *)
Definition attrib (c : console) : Z :=
  u16 (Z.lor (Z.shiftl (BackgroundColor c) 4) (Z.land (ForegroundColor c) 0x0F)).

(** [ch | (attrib << 8)] stored in a cell; [ch] is a signed [char]. *)
Definition cell_of (c : console) (ch : Z) : Z := u16 (Z.lor (s8 ch) (Z.shiftl (attrib c) 8)).

(** ** Scrolling *)

Fixpoint scroll_cols (n : nat) (v : list Z) (i m : nat) : option (list Z) :=
  match n with
  | O => Some v
  | S n =>
      x ← rd v (Z.of_nat ((i + 1) * 80 + m));
      v ← wr v (Z.of_nat (i * 80 + m)) x;
      scroll_cols n v i (S m)
  end.

Fixpoint scroll_rows (n : nat) (v : list Z) (i : nat) : option (list Z) :=
  match n with
  | O => Some v
  | S n => v ← scroll_cols 80 v i 0; scroll_rows n v (S i)
  end.

(** [for (x = 0; x < 80; x++) videoMemory[row * VGA_WIDTH + x] = ' ' | (attrib << 8);] *)
Fixpoint blank_cols (n : nat) (c : console) (v : list Z) (row x : nat) : option (list Z) :=
  match n with
  | O => Some v
  | S n =>
      v ← wr v (Z.of_nat (row * VGA_WIDTH + x)) (cell_of c 32);
      blank_cols n c v row (S x)
  end.

Definition Scroll (c : console) : option console :=
  v ← scroll_rows 24 (videoMemory c) 0;
  v ← blank_cols 80 c v 24 0;
  Some (with_video c v).

Fixpoint blank_rows (n : nat) (c : console) (v : list Z) (y : nat) : option (list Z) :=
  match n with
  | O => Some v
  | S n => v ← blank_cols VGA_WIDTH c v y 0; blank_rows n c v (S y)
  end.

Definition ConsoleClear (c : console) : option console :=
  v ← blank_rows VGA_HEIGHT c (videoMemory c) 0;
  Some (with_cursor (with_video c v) 0 0).

Definition SetX (c : console) (x : Z) : console := with_cursor c x (YOffset c).
Definition SetY (c : console) (y : Z) : console := with_cursor c (XOffset c) y.
Definition GetBuffer (c : console) : list Z := videoMemory c.

(** ** Writing *)

(** The two tests at the end of the loop body. *)
Definition wrap_cursor (c : console) : option console :=
  let c := if 80 <=? XOffset c then with_cursor c 0 (YOffset c + 1) else c in
  if 25 <=? YOffset c then c ← Scroll c; Some (with_cursor c 0 24) else Some c.

(** The [default] case. *)
Definition put_char (c : console) (ch : Z) : option console :=
  v ← wr (videoMemory c) (YOffset c * 80 + XOffset c) (cell_of c ch);
  Some (with_cursor (with_video c v) (XOffset c + 1) (YOffset c)).

(** [WriteStr] of serialport.c passes the character [str[i]] to [Write], which
    takes a pointer: anything but the empty string reads a string at an address
    that is a character code. *)
Definition WriteStr (c : console) (str : list Z) : option console :=
  ch ← str !! 0%nat; if ch =? 0 then Some c else None.

Definition to_serial (c : console) (str : list Z) : option console :=
  if BootConsoleWriteToSerial c then WriteStr c str else Some c.

(** One turn of the loop for a character that is neither of the special ones. *)
Definition write_plain (c : console) (ch : Z) : option console :=
  c ← put_char c ch; wrap_cursor c.

(** [Write("    ")]: four blanks. *)
Definition write_tab (c : console) : option console :=
  c ← to_serial c [32; 32; 32; 32; 0];
  c ← write_plain c 32; c ← write_plain c 32; c ← write_plain c 32; write_plain c 32.

Definition write_char (c : console) (ch : Z) : option console :=
  c ← (if ch =? 10 then Some (with_cursor c 0 (YOffset c + 1))
       else if ch =? 9 then write_tab c
       else put_char c ch);
  wrap_cursor c.

Fixpoint write_loop (c : console) (str : list Z) : option console :=
  match str with
  | [] => None
  | ch :: str => if ch =? 0 then Some c else c ← write_char c ch; write_loop c str
  end.

Definition Write (c : console) (str : list Z) : option console :=
  c ← to_serial c str; write_loop c str.

Definition WriteLine (c : console) (str : list Z) : option console :=
  c ← Write c str; Write c [10; 0].

(** [Init(port)] of serialport.c: the bytes sent to the ports. *)
Definition Init (port : Z) : list (Z * Z) :=
  [(port + 1, 0x00); (port + 3, 0x80); (port + 0, 0x03); (port + 1, 0x00);
   (port + 3, 0x03); (port + 2, 0xC7); (port + 4, 0x0B)].

Definition COM1 : Z := 0x3f8.

Definition with_serial (c : console) b := Console (videoMemory c) (XOffset c) (YOffset c)
  (BackgroundColor c) (ForegroundColor c) b.

Definition start_message : list Z :=
  ((fun a => Z.of_nat (Ascii.nat_of_ascii a)) <$> String.list_ascii_of_string "Start of serial log for Alinix") ++ [0].

(** The console and the bytes sent to the ports. *)
Definition ConsoleInit (c : console) (enableSerial : bool) : option (console * list (Z * Z)) :=
  let c := with_serial c enableSerial in
  if enableSerial then c ← WriteLine c start_message; Some (c, Init COM1)
  else Some (c, []).

(** ** What the loops do to the screen *)

(** [k] is between [a] and [b]. *)
Notation between a k b := (a <= k < b)%nat.

Lemma scroll_cols_spec n : forall v i m,
  ((i + 1) * 80 + m + n <= length v)%nat ->
  exists v', scroll_cols n v i m = Some v' /\ length v' = length v /\
    forall k, v' !! k = if decide (between (i * 80 + m) k (i * 80 + m + n)) then v !! (k + 80)%nat else v !! k.
Proof.
  induction n as [|n IH]; intros v i m Hl; cbn [scroll_cols].
  - exists v. split_and!; [done|done|]. intros k. rewrite decide_False by lia. done.
  - rewrite rd_nat. destruct (lookup_lt_is_Some_2 v ((i + 1) * 80 + m)) as [x Hx]; [lia|]. rewrite Hx.
    cbn [mbind option_bind]. rewrite wr_Some by lia. rewrite Nat2Z.id. cbn [mbind option_bind].
    destruct (IH (<[(i * 80 + m)%nat := x]> v) i (S m)) as (v' & -> & Hl' & Hv'); [rewrite length_insert; lia|].
    exists v'. split; [done|]. rewrite length_insert in Hl'. split; [done|]. intros k. rewrite Hv'.
    destruct (decide (k = i * 80 + m)%nat) as [->|Hk].
    + rewrite decide_False by lia. rewrite decide_True by lia. rewrite list_lookup_insert_eq by lia.
      rewrite <- Hx. f_equal. lia.
    + repeat case_decide; try lia; rewrite list_lookup_insert_ne by lia; done.
Qed.

Lemma scroll_rows_spec n : forall v i,
  ((i + n + 1) * 80 <= length v)%nat ->
  exists v', scroll_rows n v i = Some v' /\ length v' = length v /\
    forall k, v' !! k = if decide (between (i * 80) k ((i + n) * 80)) then v !! (k + 80)%nat else v !! k.
Proof.
  induction n as [|n IH]; intros v i Hl; cbn [scroll_rows].
  - exists v. split_and!; [done|done|]. intros k. rewrite decide_False by lia. done.
  - destruct (scroll_cols_spec 80 v i 0) as (v1 & -> & Hl1 & Hv1); [lia|]. cbn [mbind option_bind].
    destruct (IH v1 (S i)) as (v' & -> & Hl' & Hv'); [lia|]. exists v'. split; [done|]. split; [lia|].
    intros k. rewrite Hv', !Hv1. repeat case_decide; try lia; done.
Qed.

Lemma blank_cols_spec n c : forall v row x,
  (row * 80 + x + n <= length v)%nat ->
  exists v', blank_cols n c v row x = Some v' /\ length v' = length v /\
    forall k, v' !! k = if decide (between (row * 80 + x) k (row * 80 + x + n)) then Some (cell_of c 32) else v !! k.
Proof.
  unfold VGA_WIDTH. induction n as [|n IH]; intros v row x Hl; cbn [blank_cols].
  - exists v. split_and!; [done|done|]. intros k. rewrite decide_False by lia. done.
  - unfold VGA_WIDTH. rewrite wr_Some by lia. rewrite Nat2Z.id. cbn [mbind option_bind].
    destruct (IH (<[(row * 80 + x)%nat := cell_of c 32]> v) row (S x)) as (v' & -> & Hl' & Hv');
      [rewrite length_insert; lia|].
    exists v'. split; [done|]. rewrite length_insert in Hl'. split; [done|]. intros k. rewrite Hv'.
    destruct (decide (k = row * 80 + x)%nat) as [->|Hk].
    + rewrite decide_False by lia. rewrite decide_True by lia. by rewrite list_lookup_insert_eq by lia.
    + repeat case_decide; try lia; [done|]. by rewrite list_lookup_insert_ne by lia.
Qed.

Lemma blank_rows_spec n c : forall v y,
  ((y + n) * 80 <= length v)%nat ->
  exists v', blank_rows n c v y = Some v' /\ length v' = length v /\
    forall k, v' !! k = if decide (between (y * 80) k ((y + n) * 80)) then Some (cell_of c 32) else v !! k.
Proof.
  induction n as [|n IH]; intros v y Hl; cbn [blank_rows].
  - exists v. split_and!; [done|done|]. intros k. rewrite decide_False by lia. done.
  - destruct (blank_cols_spec VGA_WIDTH c v y 0) as (v1 & -> & Hl1 & Hv1); [unfold VGA_WIDTH; lia|].
    cbn [mbind option_bind]. destruct (IH v1 (S y)) as (v' & -> & Hl' & Hv'); [lia|].
    exists v'. split; [done|]. split; [lia|]. unfold VGA_WIDTH in *. intros k. rewrite Hv', !Hv1.
    repeat case_decide; try lia; done.
Qed.

Lemma Scroll_spec c :
  length (videoMemory c) = 2000%nat ->
  exists v, Scroll c = Some (with_video c v) /\ length v = 2000%nat /\
    forall k, v !! k = if decide (k < 1920)%nat then videoMemory c !! (k + 80)%nat
                       else if decide (k < 2000)%nat then Some (cell_of c 32) else None.
Proof.
  intros Hl. unfold Scroll.
  destruct (scroll_rows_spec 24 (videoMemory c) 0) as (v1 & -> & Hl1 & Hv1); [lia|]. cbn [mbind option_bind].
  destruct (blank_cols_spec 80 c v1 24 0) as (v2 & -> & Hl2 & Hv2); [lia|]. cbn [mbind option_bind].
  exists v2. split; [done|]. split; [lia|]. intros k. rewrite Hv2, Hv1.
  repeat case_decide; try lia; try done. apply lookup_ge_None_2. lia.
Qed.

(** ** The screen as the end of a page *)

(** Everything written so far: the finished lines and the current one. *)
Record page := Page { above : list (list Z); line : list Z }.

Definition lines (p : page) : list (list Z) := above p ++ [line p].

Definition page_break (p : page) : page := Page (lines p) [].

Definition page_put (p : page) (cell : Z) : page :=
  let p := Page (above p) (line p ++ [cell]) in
  if (length (line p) =? 80)%nat then page_break p else p.

Definition page_char (c : console) (p : page) (ch : Z) : page :=
  if ch =? 10 then page_break p
  else if ch =? 9 then Nat.iter 4 (fun p => page_put p (cell_of c 32)) p
  else page_put p (cell_of c ch).

Definition page_write (c : console) (p : page) (s : list Z) : page := foldl (page_char c) p s.

(** Row [r], column [x] of the last 25 of the lines [ls]. *)
Definition glyph (blank : Z) (ls : list (list Z)) (r x : nat) : Z :=
  from_option (fun l => default blank (l !! x)) blank (ls !! (length ls - 25 + r)%nat).

Definition rows_show (c : console) (ls : list (list Z)) : Prop :=
  length (videoMemory c) = 2000%nat /\
  forall r x, (r < 25)%nat -> (x < 80)%nat ->
    videoMemory c !! (r * 80 + x)%nat = Some (glyph (cell_of c 32) ls r x).

Definition row_of (p : page) : nat := min (length (above p)) 24.

Definition shows (c : console) (p : page) : Prop :=
  rows_show c (lines p) /\ (length (line p) < 80)%nat /\
  XOffset c = Z.of_nat (length (line p)) /\ YOffset c = Z.of_nat (row_of p).

Definition colours (c : console) : Z * Z * bool :=
  (BackgroundColor c, ForegroundColor c, BootConsoleWriteToSerial c).

Lemma cell_of_colours c c' ch : colours c = colours c' -> cell_of c ch = cell_of c' ch.
Proof. unfold colours, cell_of, attrib. by intros [= -> -> _]. Qed.

Lemma glyph_break blank ls r x :
  (r < 25)%nat ->
  glyph blank (ls ++ [[]]) r x =
    if decide (length ls < 25)%nat then glyph blank ls r x
    else if decide (r < 24)%nat then glyph blank ls (S r) x else blank.
Proof.
  intros Hr. unfold glyph. rewrite length_app. cbn [length].
  assert (forall i, (ls ++ [[]]) !! i = ls !! i \/ (i = length ls /\ (ls ++ [[]]) !! i = Some [] /\ ls !! i = None)) as Hlk.
  { intros i. destruct (decide (i < length ls)%nat); [left; by apply lookup_app_l|].
    rewrite lookup_app_r by lia. destruct (decide (i = length ls)) as [->|].
    - right. rewrite Nat.sub_diag. split_and!; [done|done|]. by apply lookup_ge_None_2.
    - left. rewrite !lookup_ge_None_2; [done|lia|cbn; lia]. }
  case_decide as H1.
  - replace (length ls + 1 - 25)%nat with 0%nat by lia. replace (length ls - 25)%nat with 0%nat by lia. cbn [Nat.add].
    destruct (Hlk r) as [->|(_ & -> & ->)]; done.
  - case_decide as H2.
    + replace (length ls - 25 + S r)%nat with (length ls + 1 - 25 + r)%nat by lia.
      destruct (Hlk (length ls + 1 - 25 + r)%nat) as [->|(_ & -> & ->)]; done.
    + destruct (Hlk (length ls + 1 - 25 + r)%nat) as [->|(_ & -> & _)]; [|done].
      rewrite (lookup_ge_None_2 ls) by lia. done.
Qed.

(** Going to the next line, with the scroll that may follow. *)
Lemma break_shows c p :
  rows_show c (lines p) -> XOffset c = 0 -> YOffset c = Z.of_nat (row_of p) + 1 ->
  exists c', wrap_cursor c = Some c' /\ shows c' (page_break p) /\ colours c' = colours c.
Proof.
  intros [Hl Hv] Hx Hy. unfold wrap_cursor. rewrite Hx. cbn [Z.leb Z.compare].
  assert (length (lines p) = S (length (above p))) as Hll by (unfold lines; rewrite length_app; cbn; lia).
  unfold row_of in *. destruct (Z.leb_spec 25 (YOffset c)) as [H25|H25].
  - destruct (Scroll_spec c Hl) as (v & -> & Hlv & Hvv). cbn [mbind option_bind]. eexists. split; [done|].
    split; [|done]. split; [split; [done|]|].
    + intros r x Hr Hxx. cbn [with_cursor with_video videoMemory]. rewrite Hvv.
      change (lines (page_break p)) with (lines p ++ [[]]). rewrite glyph_break by done.
      change (cell_of (with_cursor (with_video c v) 0 24) 32) with (cell_of c 32).
      rewrite (decide_False (P := (length (lines p) < 25)%nat)) by lia. destruct (decide (r < 24)%nat).
      * rewrite decide_True by lia. replace (r * 80 + x + 80)%nat with (S r * 80 + x)%nat by lia. apply Hv; lia.
      * rewrite decide_False, decide_True by lia. done.
    + cbn. unfold row_of. cbn [page_break above]. rewrite Hll. split; [lia|]. split; [done|lia].
  - exists c. split; [done|]. split; [|done]. split; [split; [done|]|].
    + intros r x Hr Hxx. change (lines (page_break p)) with (lines p ++ [[]]). rewrite glyph_break by done.
      rewrite decide_True by lia. by apply Hv.
    + cbn. unfold row_of. cbn [page_break above]. rewrite Hll, Hx. split; [lia|]. split; [done|lia].
Qed.

Lemma wrap_cursor_shows c p : shows c p -> wrap_cursor c = Some c.
Proof.
  intros (_ & Hl & Hx & Hy). unfold wrap_cursor, row_of in *. destruct (Z.leb_spec 80 (XOffset c)); [lia|].
  destruct (Z.leb_spec 25 (YOffset c)); [lia|done].
Qed.

Lemma newline_shows c p :
  shows c p -> exists c', wrap_cursor (with_cursor c 0 (YOffset c + 1)) = Some c' /\
    shows c' (page_break p) /\ colours c' = colours c.
Proof.
  intros (Hrows & Hl & Hx & Hy). apply (break_shows (with_cursor c 0 (YOffset c + 1)) p); [done|done|].
  cbn. by rewrite Hy.
Qed.

(** The cell at the end of the current line. *)
Lemma glyph_put blank ab l cell r x :
  (r < 25)%nat -> (x < 80)%nat ->
  glyph blank (ab ++ [l ++ [cell]]) r x =
    if decide (r = min (length ab) 24 /\ x = length l) then cell else glyph blank (ab ++ [l]) r x.
Proof.
  intros Hr Hx. unfold glyph. rewrite !length_app. cbn [length].
  set (i := (length ab + 1 - 25 + r)%nat). destruct (decide (i < length ab)%nat) as [Hi|Hi].
  - rewrite !lookup_app_l by done. rewrite decide_False by lia. done.
  - rewrite !lookup_app_r by lia. destruct (decide (i = length ab)) as [Hie|Hie].
    + rewrite Hie, Nat.sub_diag. cbn [lookup list_lookup from_option].
      destruct (decide (x = length l)) as [->|Hxl].
      * rewrite decide_True by lia. rewrite lookup_app_r, Nat.sub_diag by lia. done.
      * rewrite decide_False by lia. destruct (decide (x < length l)%nat).
        -- by rewrite lookup_app_l.
        -- rewrite lookup_app_r, !lookup_ge_None_2 by (cbn; lia). done.
    + rewrite !lookup_ge_None_2 by (cbn; lia). rewrite decide_False by lia. done.
Qed.

Lemma put_shows c p ch :
  shows c p -> exists c', write_plain c ch = Some c' /\
    shows c' (page_put p (cell_of c ch)) /\ colours c' = colours c.
Proof.
  intros ((Hl & Hv) & Hlen & Hx & Hy). unfold write_plain, put_char. rewrite Hx, Hy. unfold row_of in *.
  replace (Z.of_nat (length (above p) `min` 24) * 80 + Z.of_nat (length (line p)))
    with (Z.of_nat (length (above p) `min` 24 * 80 + length (line p))) by lia.
  rewrite wr_Some, Nat2Z.id by lia. cbn [mbind option_bind].
  set (v := <[_ := _]> (videoMemory c)). set (c1 := with_cursor (with_video c v) _ _).
  set (p1 := Page (above p) (line p ++ [cell_of c ch])).
  assert (rows_show c1 (lines p1)) as Hrows.
  { split; [cbn; unfold v; by rewrite length_insert|]. intros r x Hr Hxx. cbn [videoMemory with_cursor with_video c1].
    change (cell_of c1 32) with (cell_of c 32). unfold lines, p1. cbn [above line]. rewrite glyph_put by done. unfold v.
    case_decide as Hd.
    - destruct Hd as [-> ->]. rewrite list_lookup_insert_eq by lia. done.
    - rewrite list_lookup_insert_ne by lia. by apply Hv. }
  unfold page_put. cbn zeta. cbn [line]. fold p1. rewrite length_app. cbn [length].
  destruct (Nat.eqb_spec (length (line p) + 1) 80) as [H80|H80].
  - destruct (break_shows (with_cursor c1 0 (YOffset c1 + 1)) p1) as (c' & E & Hs & Hcol);
      [done|done|cbn; unfold row_of, p1; cbn [above]; lia|].
    exists c'. split; [|by rewrite Hcol]. rewrite <- E. unfold wrap_cursor, c1. cbn [XOffset YOffset with_cursor with_video].
    destruct (Z.leb_spec 80 (Z.of_nat (length (line p)) + 1)); [|lia]. done.
  - assert (shows c1 p1) as Hs.
    { split; [done|]. unfold p1, c1. cbn. rewrite length_app. cbn. split; [lia|]. split; [lia|done]. }
    exists c1. rewrite (wrap_cursor_shows c1 p1 Hs). done.
Qed.

(** A step that keeps the colours and takes the page [p] to [p']. *)
Definition takes (c : console) (o : option console) (p' : page) : Prop :=
  exists c', o = Some c' /\ shows c' p' /\ colours c' = colours c.

Lemma takes_bind c o p1 f p2 :
  takes c o p1 -> (forall c1, shows c1 p1 -> colours c1 = colours c -> takes c1 (f c1) p2) -> takes c (o ≫= f) p2.
Proof.
  intros (c1 & -> & H1 & Hc1) Hf. cbn. destruct (Hf c1 H1 Hc1) as (c2 & -> & H2 & Hc2). exists c2.
  by rewrite Hc2.
Qed.

Lemma plain_takes c p ch : shows c p -> takes c (write_plain c ch) (page_put p (cell_of c ch)).
Proof. apply put_shows. Qed.

Lemma wrap_takes c p : shows c p -> takes c (wrap_cursor c) p.
Proof. intros H. exists c. by rewrite (wrap_cursor_shows c p H). Qed.

Lemma blank_takes c0 c p :
  shows c p -> colours c = colours c0 -> takes c (write_plain c 32) (page_put p (cell_of c0 32)).
Proof. intros H <-%(cell_of_colours _ _ 32). by apply plain_takes. Qed.

Lemma tab_takes c p :
  shows c p -> BootConsoleWriteToSerial c = false ->
  takes c (write_tab c) (Nat.iter 4 (fun p => page_put p (cell_of c 32)) p).
Proof.
  intros H Hs. unfold write_tab, to_serial. rewrite Hs. cbn [mbind option_bind Nat.iter nat_rect].
  eapply takes_bind; [by apply (blank_takes c)|]. intros c1 H1 E1.
  eapply takes_bind; [by apply (blank_takes c)|]. intros c2 H2 E2. rewrite E1 in E2.
  eapply takes_bind; [by apply (blank_takes c)|]. intros c3 H3 E3. rewrite E2 in E3.
  by apply blank_takes.
Qed.

Lemma write_char_takes c p ch :
  shows c p -> BootConsoleWriteToSerial c = false -> takes c (write_char c ch) (page_char c p ch).
Proof.
  intros H Hs. unfold write_char, page_char. destruct (ch =? 10); [by apply newline_shows|].
  destruct (ch =? 9); [|by apply (plain_takes c p ch)].
  eapply takes_bind; [by apply tab_takes|]. intros c1 H1 _. by apply wrap_takes.
Qed.

Lemma page_write_colours c c' s : forall p, colours c = colours c' -> page_write c p s = page_write c' p s.
Proof.
  induction s as [|ch s IH]; intros p Hc; [done|].
  change (page_write c (page_char c p ch) s = page_write c' (page_char c' p ch) s). rewrite (IH _ Hc). f_equal. unfold page_char. by rewrite !(cell_of_colours c c' _ Hc).
Qed.

Lemma write_loop_takes s : forall c p rest,
  shows c p -> BootConsoleWriteToSerial c = false -> Forall (fun ch => ch <> 0) s ->
  takes c (write_loop c (s ++ 0 :: rest)) (page_write c p s).
Proof.
  induction s as [|ch s IH]; intros c p rest H Hs Hf; cbn [write_loop app Z.eqb].
  - by exists c.
  - apply Forall_cons in Hf as [Hch Hf]. destruct (Z.eqb_spec ch 0); [done|].
    eapply takes_bind; [by apply write_char_takes|]. intros c1 H1 Hc1.
    change (page_write c p (ch :: s)) with (page_write c (page_char c p ch) s).
    rewrite <- (page_write_colours c1 c) by done. apply IH; [done| |done]. unfold colours in Hc1. congruence.
Qed.

Lemma Write_takes c p s obj :
  shows c p -> BootConsoleWriteToSerial c = false -> cstr s obj -> takes c (Write c obj) (page_write c p s).
Proof.
  intros H Hs [Hf [rest ->]]. unfold Write, to_serial. rewrite Hs. by apply write_loop_takes.
Qed.

(** A cleared screen shows the empty page. *)
Lemma ConsoleClear_shows c :
  length (videoMemory c) = 2000%nat -> takes c (ConsoleClear c) (Page [] []).
Proof.
  intros Hl. unfold ConsoleClear.
  destruct (blank_rows_spec VGA_HEIGHT c (videoMemory c) 0) as (v & -> & Hlv & Hv); [unfold VGA_HEIGHT; lia|].
  cbn [mbind option_bind]. eexists. split; [done|]. split; [|done]. split; [|split_and!; cbn; lia].
  split; [cbn; lia|]. intros r x Hr Hx. cbn [videoMemory with_cursor with_video]. unfold VGA_HEIGHT in Hv.
  rewrite Hv, decide_True by lia. by destruct r.
Qed.

(** ** The contract *)

(** The calls a client makes; a string is given by its characters. *)
Inductive console_call := CWrite (s : list Z) | CWriteLine (s : list Z) | CClear.

Definition call_ok (k : console_call) : Prop :=
  match k with CWrite s | CWriteLine s => Forall (fun ch => ch <> 0) s | CClear => True end.

Definition run_call (c : console) (k : console_call) : option console :=
  match k with
  | CWrite s => Write c (s ++ [0])
  | CWriteLine s => WriteLine c (s ++ [0])
  | CClear => ConsoleClear c
  end.

Fixpoint run_calls (c : console) (ks : list console_call) : option console :=
  match ks with [] => Some c | k :: ks => c ← run_call c k; run_calls c ks end.

Definition page_call (c : console) (p : page) (k : console_call) : page :=
  match k with
  | CWrite s => page_write c p s
  | CWriteLine s => page_break (page_write c p s)
  | CClear => Page [] []
  end.

Lemma run_call_takes c p k :
  shows c p -> BootConsoleWriteToSerial c = false -> call_ok k -> takes c (run_call c k) (page_call c p k).
Proof.
  intros H Hs Hk. destruct k as [s|s|]; cbn [run_call page_call].
  - apply (Write_takes c p s); [done|done|]. by split; [|exists []].
  - eapply takes_bind; [apply (Write_takes c p s); [done|done|by split; [|exists []]]|]. intros c1 H1 Hc1.
    unfold colours in Hc1. apply (Write_takes c1 _ [10]); [done|congruence|].
    split; [by repeat constructor|by exists []].
  - apply ConsoleClear_shows, H.
Qed.

Lemma page_calls_colours c c' ks : forall p,
  colours c = colours c' -> foldl (page_call c) p ks = foldl (page_call c') p ks.
Proof.
  induction ks as [|k ks IH]; intros p Hc; [done|]. cbn [foldl]. rewrite (IH _ Hc). f_equal.
  destruct k; cbn [page_call]; [..|done]; by rewrite (page_write_colours c c').
Qed.

Lemma run_calls_takes ks : forall c p,
  shows c p -> BootConsoleWriteToSerial c = false -> Forall call_ok ks ->
  takes c (run_calls c ks) (foldl (page_call c) p ks).
Proof.
  induction ks as [|k ks IH]; intros c p H Hs Hf; cbn [run_calls foldl]; [by exists c|].
  apply Forall_cons in Hf as [Hk Hf]. eapply takes_bind; [by apply run_call_takes|]. intros c1 H1 Hc1.
  rewrite <- (page_calls_colours c1 c) by done. apply IH; [done| |done]. unfold colours in Hc1. congruence.
Qed.

(** With the serial copy on, no string but the empty one can be written. *)
Lemma serial_output_fails c ch s :
  BootConsoleWriteToSerial c = true -> ch <> 0 -> Write c (ch :: s) = None.
Proof. intros Hs Hch. unfold Write, to_serial. rewrite Hs. cbn. by destruct (Z.eqb_spec ch 0). Qed.

(** A call that writes at least one character. *)
Definition prints (k : console_call) : bool :=
  match k with CWrite [] | CClear => false | _ => true end.

Lemma prints_fails c k :
  BootConsoleWriteToSerial c = true -> call_ok k -> prints k = true -> run_call c k = None.
Proof.
  intros Hs Hk Hp. destruct k as [[|ch s]|[|ch s]|]; try done; cbn [run_call app].
  - apply Forall_cons in Hk as [Hch _]. by apply serial_output_fails.
  - unfold WriteLine. assert (Write c [0] = Some c) as -> by (unfold Write, to_serial; by rewrite Hs).
    cbn [mbind option_bind]. by apply serial_output_fails.
  - apply Forall_cons in Hk as [Hch _]. unfold WriteLine. by rewrite serial_output_fails.
Qed.

Lemma silent_keeps_serial c k c' :
  prints k = false -> run_call c k = Some c' -> BootConsoleWriteToSerial c' = BootConsoleWriteToSerial c.
Proof.
  destruct k as [[|ch s]|s|]; try done; intros _; cbn [run_call app].
  - unfold Write, to_serial. destruct (BootConsoleWriteToSerial c) eqn:E; cbn; intros; by simplify_eq.
  - unfold ConsoleClear. destruct (blank_rows _ _ _ _); cbn; intros; by simplify_eq.
Qed.

Lemma serial_calls_fail ks : forall c,
  BootConsoleWriteToSerial c = true -> Forall call_ok ks -> existsb prints ks = true -> run_calls c ks = None.
Proof.
  induction ks as [|k ks IH]; intros c Hs Hf He; [done|]. apply Forall_cons in Hf as [Hk Hf].
  cbn [existsb] in He. cbn [run_calls]. destruct (prints k) eqn:Hp; [by rewrite prints_fails|].
  destruct (run_call c k) as [c'|] eqn:E; [|done]. cbn [mbind option_bind].
  apply IH; [|done|done]. by rewrite (silent_keeps_serial c k c').
Qed.

(** C22. From a screen of any contents and any cursor, with the copy to the
    serial line switched off, [ConsoleClear] and then any sequence of [Write],
    [WriteLine] and [ConsoleClear] calls succeeds with no access outside the
    screen, and leaves on the screen the last 25 of the lines written since the
    last clear, broken at newlines and after 80 characters, blank elsewhere,
    with the cursor after the last character.  With the copy switched on, as
    [kernelMain] does by [ConsoleInit(true)], a sequence that writes a character
    fails, because [WriteStr] takes the character for the address of a string,
    and so does [ConsoleInit(true)] itself. *)
Theorem console_shows_last_lines c ks :
  length (videoMemory c) = 2000%nat -> Forall call_ok ks ->
  (BootConsoleWriteToSerial c = false ->
     exists c', run_calls c (CClear :: ks) = Some c' /\ shows c' (foldl (page_call c) (Page [] []) ks)) /\
  (BootConsoleWriteToSerial c = true -> existsb prints ks = true -> run_calls c (CClear :: ks) = None) /\
  ConsoleInit c true = None.
Proof.
  intros Hl Hf. split_and!; [|intros Hs He; by apply serial_calls_fail; [|by constructor|]|done].
  intros Hs. cbn [run_calls].
  destruct (ConsoleClear_shows c Hl) as (c1 & E & H1 & Hc1). change (run_call c CClear) with (ConsoleClear c).
  rewrite E. cbn [mbind option_bind].
  destruct (run_calls_takes ks c1 (Page [] []) H1) as (c' & E' & H' & _); [unfold colours in Hc1; congruence|done|].
  exists c'. split; [done|]. by rewrite <- (page_calls_colours c1 c).
Qed.

(** The 26 letters on a line each: the screen starts with the third. *)
Definition letter_lines : list console_call := (fun i => CWriteLine [65 + Z.of_nat i]) <$> seq 0 26.

Lemma console_shows_last_lines_witness :
  exists c', run_calls (Console (replicate 2000 7) 3 99 0 15 false) (CClear :: letter_lines) = Some c' /\
    videoMemory c' !! 0%nat = Some 0x0F43 /\ YOffset c' = 24.
Proof.
  destruct (console_shows_last_lines (Console (replicate 2000 7) 3 99 0 15 false) letter_lines) as [Hoff _];
    [done|by repeat constructor|].
  destruct (Hoff eq_refl) as (c' & E & H).
  exists c'. split; [exact E|]. destruct H as ((_ & H) & _ & _ & HY).
  split; [exact (H 0%nat 0%nat ltac:(lia) ltac:(lia))|exact HY].
Defined.

Lemma ConsoleInit_serial_fails c : ConsoleInit c true = None.
Proof. done. Qed.

(** A character above 127 is negative and overwrites the colours of its cell:
    white on black becomes all ones. *)
Example high_character_loses_colours c : cell_of c 0x80 = 0xFF80.
Proof.
  unfold cell_of. change (s8 0x80) with (Z.shiftl (-1) 7).
  replace (Z.lor _ _) with (Z.shiftl (-1) 7); [done|]. apply Z.bits_inj'. intros n Hn.
  rewrite Z.lor_spec. destruct (Z.lt_ge_cases n 7).
  - by rewrite !Z.shiftl_spec_low by lia.
  - rewrite (Z.shiftl_spec (-1)), Z.bits_m1 by lia. done.
Qed.
