(* ===== verification/Descriptor.v ===== *)
(** * Descriptor tables (src/kernel/core/gdt.c, idt.c, tss.c and hal/tss.c)

    The global descriptor table, the interrupt descriptor table and the task
    state segment, as bytes in the memory of [Memory].  The addresses of the
    static objects and of the handlers are chosen by the linker: they are
    variables.  What the processor and the two interrupt controllers do with
    the bytes they are given ([read_segment], [read_gate], [ltr], [pic_write])
    is the specification side, from their manuals.

    The theorems say that every segment and gate the code stores is the one the
    processor reads back, that after [Install] an interrupt request reaches its
    own handler, and that [TSS_Install] loads a task register whose descriptor
    was never written. *)
From S2P Require Import Prelude Memory.

Local Open Scope Z_scope.

Record machine := Machine {
  ram : mem;
  gdtr : Z * Z;          (* limit and base *)
  idtr : Z * Z;
  tr : Z;
  outs : list (Z * Z) }. (* bytes sent to ports, oldest first *)

Definition with_ram (k : machine) m := Machine m (gdtr k) (idtr k) (tr k) (outs k).
Definition outportb (k : machine) (port v : Z) : machine :=
  Machine (ram k) (gdtr k) (idtr k) (tr k) (outs k ++ [(port, u8 v)]).

(** [lgdt] and [lidt]: a 16-bit limit and a 32-bit base in memory. *)
Definition lgdt (k : machine) (a : Z) : machine :=
  Machine (ram k) (load16 (ram k) a, load32 (ram k) (a + 2)) (idtr k) (tr k) (outs k).
Definition lidt (k : machine) (a : Z) : machine :=
  Machine (ram k) (gdtr k) (load16 (ram k) a, load32 (ram k) (a + 2)) (tr k) (outs k).

(** ** What the processor reads *)

Record segment := Segment { s_base : Z; s_limit : Z; s_access : Z; s_flags : Z }.

Definition read_segment (m : mem) (e : Z) : segment :=
  Segment (load16 m (e + 2) + 65536 * load8 m (e + 4) + 16777216 * load8 m (e + 7))
          (load16 m e + 65536 * (load8 m (e + 6) mod 16))
          (load8 m (e + 5)) (load8 m (e + 6) / 16).

(** The last offset of a segment: with bit 3 of the flags the limit counts
    pages. *)
Definition last_offset (s : segment) : Z :=
  if Z.testbit (s_flags s) 3 then s_limit s * 4096 + 4095 else s_limit s.

Record gate := Gate { g_offset : Z; g_selector : Z; g_reserved : Z; g_access : Z }.

Definition read_gate (m : mem) (e : Z) : gate :=
  Gate (load16 m e + 65536 * load16 m (e + 6)) (load16 m (e + 2)) (load8 m (e + 4)) (load8 m (e + 5)).

Definition g_present (g : gate) : bool := Z.testbit (g_access g) 7.
Definition g_level (g : gate) : Z := (g_access g / 32) mod 4.
Definition g_type (g : gate) : Z := g_access g mod 32.

(** Software may raise vector [v] at privilege level [cpl]. *)
Definition int_allowed (g : gate) (cpl : Z) : bool := g_present g && (cpl <=? g_level g).

(** [ltr]: the selector must name a present, available task state segment
    inside the table; anything else is an exception ([None]). *)
Definition ltr (k : machine) (sel : Z) : option machine :=
  let i := 8 * (sel / 8) in
  let a := load8 (ram k) (snd (gdtr k) + i + 5) in
  if (i + 7 <=? fst (gdtr k)) && ((a mod 32 =? 0x09) || (a mod 32 =? 0x01)) && Z.testbit a 7
  then Some (Machine (store8 (ram k) (snd (gdtr k) + i + 5) (Z.lor a 0x02)) (gdtr k) (idtr k) sel (outs k))
  else None.

(** ** The two interrupt controllers *)

(** Where the initialisation sequence is: waiting for the vector, for the
    cascade and for the mode word, or running. *)
Inductive stage := Icw2 | Icw3 | Icw4 | Running.

Record pic := Pic { p_stage : stage; p_vector : Z; p_mask : Z }.

Definition pic_write (p : pic) (command : bool) (v : Z) : pic :=
  if command then (if Z.testbit v 4 then Pic Icw2 (p_vector p) 0 else p)
  else match p_stage p with
       | Icw2 => Pic Icw3 (v - v mod 8) (p_mask p)
       | Icw3 => Pic Icw4 (p_vector p) (p_mask p)
       | Icw4 => Pic Running (p_vector p) (p_mask p)
       | Running => Pic Running (p_vector p) v
       end.

(** The primary controller is at ports 0x20 and 0x21, the secondary one at
    0xA0 and 0xA1. *)
Definition pics_out (ps : pic * pic) (o : Z * Z) : pic * pic :=
  let (port, v) := o in
  if port =? 0x20 then (pic_write (fst ps) true v, snd ps)
  else if port =? 0x21 then (pic_write (fst ps) false v, snd ps)
  else if port =? 0xA0 then (fst ps, pic_write (snd ps) true v)
  else if port =? 0xA1 then (fst ps, pic_write (snd ps) false v)
  else ps.

(** The vector request line [n] raises, if its controller lets it through. *)
Definition irq_vector (ps : pic * pic) (n : Z) : option Z :=
  let (p, i) := if n <? 8 then (fst ps, n) else (snd ps, n - 8) in
  match p_stage p with
  | Running => if Z.testbit (p_mask p) i then None else Some (p_vector p + i)
  | _ => None
  end.

(** ** The global descriptor table *)

Section Gdt.
Context (gdtEntries gdtPointer : Z).

Definition GdtSetDescriptor (m : mem) (number base limit access gran : Z) : mem :=
  let e := gdtEntries + 8 * number in
  let m := store16 m (e + 2) (Z.land base 0xFFFF) in
  let m := store8 m (e + 4) (Z.land (Z.shiftr base 16) 0xFF) in
  let m := store8 m (e + 7) (Z.land (Z.shiftr base 24) 0xFF) in
  let m := store16 m e (Z.land limit 0xFFFF) in
  let m := store8 m (e + 6) (Z.land (Z.shiftr limit 16) 0x0F) in
  let m := store8 m (e + 6) (Z.lor (load8 m (e + 6)) (Z.land gran 0xF0)) in
  store8 m (e + 5) access.

(** The same function under another name, and the address of an entry. *)
Definition GSetDescriptor := GdtSetDescriptor.
Definition GGetDescriptor (number : Z) : Z := gdtEntries + 8 * number.

(** [gdt_flush] of gdthelper.asm: [lgdt], then the segment registers. *)
Definition gdt_flush (k : machine) (p : Z) : machine := lgdt k p.

Definition GdtInit (k : machine) : machine :=
  let m := ram k in
  let m := store16 m gdtPointer (8 * 6 - 1) in
  let m := store32 m (gdtPointer + 2) gdtEntries in
  let m := GdtSetDescriptor m 0 0 0 0 0 in
  let m := GdtSetDescriptor m 1 0 0xFFFFFFFF 0x9A 0xCF in
  let m := GdtSetDescriptor m 2 0 0xFFFFFFFF 0x92 0xCF in
  let m := GdtSetDescriptor m 3 0 0xFFFFFFFF 0xFA 0xCF in
  let m := GdtSetDescriptor m 4 0 0xFFFFFFFF 0xF2 0xCF in
  gdt_flush (with_ram k m) gdtPointer.

(** ** The task state segment *)

Context (tss : Z).

Definition sizeof_TSSEntry : Z := 104.

(** [flush_tss] of hal/tss.c. *)
Definition flush_tss (k : machine) : option machine := ltr k 0x2B.

Definition TSS_SetStack (m : mem) (kernelSS kernelESP : Z) : mem :=
  store32 (store32 m (tss + 8) kernelSS) (tss + 4) kernelESP.

(** The call of [GGetDescriptor] has an entry's address as its only result,
    which is dropped. *)
Definition TSS_Install (k : machine) (idx kernelSS kernelESP : Z) : option machine :=
  let m := memset (ram k) tss 0 sizeof_TSSEntry in
  let _ := GGetDescriptor idx in
  let m := memset m tss 0 sizeof_TSSEntry in
  let m := store32 m (tss + 8) kernelSS in
  let m := store32 m (tss + 4) kernelESP in
  let m := store16 m (tss + 102) sizeof_TSSEntry in
  flush_tss (with_ram k m).
End Gdt.

(** ** The interrupt descriptor table *)

(** The handlers of idthelper.s. *)
Inductive handler := IgnoreInterrupt | HandleException (n : Z) | HandleInterruptRequest (n : Z).

Definition IDT_ENTRY_SIZE : nat := 256.
Definition IDT_PRESENT : Z := 0x80.
Definition IDT_INTERRUPT : Z := 0xE.
Definition IDT_INTERRUPT_OFFSET : Z := 0x20.

Section Idt.
Context (idtEntries idtPointer : Z) (addr : handler -> Z).

Definition IdtSetDescriptor (m : mem) (number : Z) (h : handler) (accesLevel : Z) : mem :=
  let e := idtEntries + 8 * number in
  let m := store16 m e (Z.land (addr h) 0xFFFF) in
  let m := store16 m (e + 6) (Z.land (Z.shiftr (addr h) 16) 0xFFFF) in
  let m := store8 m (e + 4) 0 in
  let m := store8 m (e + 5) (Z.lor (Z.lor IDT_PRESENT (Z.shiftl (Z.land accesLevel 3) 5)) IDT_INTERRUPT) in
  store16 m (e + 2) 0x8.

(** The calls of [IdtSetDescriptor] in [Install], in order. *)
Definition install_calls : list (Z * handler * Z) :=
  ((fun i => (Z.of_nat i, IgnoreInterrupt, 1)) <$> seq 0 IDT_ENTRY_SIZE) ++
  ((fun i => (Z.of_nat i, HandleException (Z.of_nat i), 1)) <$> seq 0 0x14) ++
  ((fun i => (IDT_INTERRUPT_OFFSET + Z.of_nat i, HandleInterruptRequest (Z.of_nat i), 1)) <$> seq 0 0x10) ++
  [(IDT_INTERRUPT_OFFSET + 0xDD, HandleInterruptRequest 0xDD, 1); (0x80, HandleInterruptRequest 0x60, 3)].

Definition set_call (m : mem) (c : Z * handler * Z) : mem := IdtSetDescriptor m c.1.1 c.1.2 c.2.

Definition remap_calls : list (Z * Z) :=
  [(0x20, 0x11); (0xA0, 0x11);
   (0x21, IDT_INTERRUPT_OFFSET); (0xA1, IDT_INTERRUPT_OFFSET + 8);
   (0x21, 0x04); (0xA1, 0x02); (0x21, 0x01); (0xA1, 0x01); (0x21, 0x00); (0xA1, 0x00)].

Definition Install (k : machine) : machine :=
  let m := store16 (ram k) idtPointer (8 * 256 - 1) in
  let m := store32 m (idtPointer + 2) idtEntries in
  let m := memset m idtEntries 0 (8 * 256 - 1) in
  let m := foldl set_call m install_calls in
  let k := foldl (fun k o => outportb k (fst o) (snd o)) (with_ram k m) remap_calls in
  lidt k idtPointer.
End Idt.

(** ** Reading back what was stored *)

Lemma load8_store8_at m a b v : a = b -> load8 (store8 m a v) b = u8 v.
Proof. intros ->. apply load8_store8_eq. Qed.

(** Evaluates loads after stores at addresses that [lia] can compare. *)
Ltac loads :=
  repeat first [rewrite load8_store8_ne by lia | rewrite load8_store8_at by lia].

Lemma land_ffff x : Z.land x 0xFFFF = x mod 65536.
Proof. exact (land_pow2_pred x 16 ltac:(lia)). Qed.
Lemma land_ff x : Z.land x 0xFF = x mod 256.
Proof. exact (land_pow2_pred x 8 ltac:(lia)). Qed.
Lemma land_0f x : Z.land x 0x0F = x mod 16.
Proof. exact (land_pow2_pred x 4 ltac:(lia)). Qed.

(** The granularity byte: flags above, the top of the limit below. *)
Lemma gran_byte l g : 0 <= l < 16 -> Z.lor l (Z.land g 0xF0) = 16 * (g / 16 mod 16) + l.
Proof.
  intros Hl. assert (Z.land g 0xF0 = Z.shiftl (g / 16 mod 16) 4) as ->.
  { change 0xF0 with (Z.shiftl (Z.ones 4) 4). change (g / 16) with (g / 2 ^ 4). rewrite <- Z.shiftr_div_pow2 by lia.
    change 16 with (2 ^ 4). rewrite <- Z.land_ones by lia. apply Z.bits_inj'. intros n Hn.
    rewrite Z.land_spec. destruct (Z.lt_ge_cases n 4).
    - rewrite !Z.shiftl_spec_low, andb_false_r by lia. done.
    - rewrite !Z.shiftl_spec, Z.land_spec, Z.shiftr_spec by lia. f_equal. f_equal. lia. }
  rewrite Z.lor_comm, lor_shift by lia. lia.
Qed.

(** The access byte of a gate. *)
Lemma gate_access l :
  Z.lor (Z.lor IDT_PRESENT (Z.shiftl (Z.land l 3) 5)) IDT_INTERRUPT = 0x8E + 32 * (l mod 4).
Proof.
  change 3 with (2 ^ 2 - 1). rewrite land_pow2_pred by lia. change (2 ^ 2) with 4.
  assert (l mod 4 = 0 \/ l mod 4 = 1 \/ l mod 4 = 2 \/ l mod 4 = 3) as [-> | [-> | [-> | ->]]]
    by (pose proof (Z.mod_pos_bound l 4); lia); done.
Qed.

Section GdtProofs.
Context (gdtEntries : Z).
Local Notation GdtSetDescriptor := (GdtSetDescriptor gdtEntries).

Lemma gdt_set_other m n base limit access gran a :
  ~ (gdtEntries + 8 * n <= a < gdtEntries + 8 * n + 8) ->
  load8 (GdtSetDescriptor m n base limit access gran) a = load8 m a.
Proof. intros Ha. unfold Descriptor.GdtSetDescriptor, store16. by loads. Qed.

(** The segment the processor finds in an entry that was just set; the upper 12
    bits of the limit are dropped. *)
Lemma gdt_set_reads m n base limit access gran :
  0 <= base < 4294967296 -> 0 <= limit < 4294967296 -> is_byte access -> is_byte gran ->
  read_segment (GdtSetDescriptor m n base limit access gran) (gdtEntries + 8 * n) =
    Segment base (limit mod 1048576) access (gran / 16).
Proof.
  intros Hb Hl Ha Hg. unfold is_byte in *. unfold read_segment, Descriptor.GdtSetDescriptor, load16, store16.
  set (e := gdtEntries + 8 * n). loads. rewrite !land_ffff, !land_ff, !land_0f, !Z.shiftr_div_pow2 by lia.
  change (2 ^ 16) with 65536. change (2 ^ 24) with 16777216.
  assert (0 <= (limit / 65536) mod 16 < 16) by (apply Z.mod_pos_bound; lia).
  rewrite (u8_small ((limit / 65536) mod 16)) by lia. rewrite gran_byte by done.
  rewrite (Z.mod_small (gran / 16)) by zmod. set (l := (limit / 65536) mod 16) in *. rewrite (u8_small (_ + l)) by zmod.
  f_equal; [zwrap|subst l; zwrap|by apply u8_small|zmod].
Qed.

Lemma read_segment_ext m m' e :
  (forall a, e <= a < e + 8 -> load8 m' a = load8 m a) -> read_segment m' e = read_segment m e.
Proof. intros H. unfold read_segment, load16. rewrite !H by lia. done. Qed.

Lemma gdt_set_frame m n n' base limit access gran :
  n <> n' ->
  read_segment (GdtSetDescriptor m n base limit access gran) (gdtEntries + 8 * n') =
  read_segment m (gdtEntries + 8 * n').
Proof. intros Hn. apply read_segment_ext. intros a Ha. apply gdt_set_other. lia. Qed.
End GdtProofs.

(** The segments [GdtInit] is meant to set up: the null one, then code and data
    for the kernel and for user mode, each over the whole address space. *)
Definition flat_segment (n : Z) : segment :=
  if n =? 0 then Segment 0 0 0 0
  else Segment 0 0xFFFFF (if n =? 1 then 0x9A else if n =? 2 then 0x92 else if n =? 3 then 0xFA else 0xF2) 0xC.

Section GdtInitProofs.
Context (gdtEntries gdtPointer : Z).
Context (Hdisj : gdtPointer + 6 <= gdtEntries \/ gdtEntries + 48 <= gdtPointer).
Context (Hrange : 0 <= gdtEntries < 4294967296).
Local Notation GdtInit := (GdtInit gdtEntries gdtPointer).

Lemma GdtInit_outside k a :
  ~ (gdtEntries <= a < gdtEntries + 40) -> ~ (gdtPointer <= a < gdtPointer + 6) ->
  load8 (ram (GdtInit k)) a = load8 (ram k) a.
Proof.
  intros Ha Hp. cbn [Descriptor.GdtInit gdt_flush lgdt ram with_ram]. rewrite !gdt_set_other by lia.
  by rewrite load8_store32_ne, load8_store16_ne by lia.
Qed.

Lemma GdtInit_gdtr k : gdtr (GdtInit k) = (47, gdtEntries).
Proof.
  cbn [Descriptor.GdtInit gdt_flush lgdt ram with_ram gdtr]. unfold load32, load16.
  rewrite !gdt_set_other by lia. unfold store32, store16. loads. f_equal. zwrap.
Qed.

Lemma GdtInit_segments k n :
  0 <= n < 5 -> read_segment (ram (GdtInit k)) (gdtEntries + 8 * n) = flat_segment n.
Proof.
  intros Hn. cbn [Descriptor.GdtInit gdt_flush lgdt ram with_ram]. unfold flat_segment.
  assert (n = 0 \/ n = 1 \/ n = 2 \/ n = 3 \/ n = 4) as [-> | [-> | [-> | [-> | ->]]]] by lia;
    rewrite ?gdt_set_frame by lia; by rewrite gdt_set_reads by (unfold is_byte; lia).
Qed.

(** The sixth entry is left to the code of the task state segment. *)
Lemma GdtInit_sixth k i :
  ~ (gdtPointer <= gdtEntries + 40 + i < gdtPointer + 6) -> 0 <= i < 8 ->
  load8 (ram (GdtInit k)) (gdtEntries + 40 + i) = load8 (ram k) (gdtEntries + 40 + i).
Proof. intros. apply GdtInit_outside; lia. Qed.
End GdtInitProofs.

(** After [GdtInit] the processor's table register holds the table of six
    entries; the entries 1 to 4 are read as segments from 0 to the last byte of
    the address space, with the access rights of kernel code and data and user
    code and data, and entry 0 as the null segment. *)
Theorem gdt_init_flat gdtEntries gdtPointer k :
  gdtPointer + 6 <= gdtEntries \/ gdtEntries + 48 <= gdtPointer -> 0 <= gdtEntries < 4294967296 ->
  let k' := GdtInit gdtEntries gdtPointer k in
  gdtr k' = (47, gdtEntries) /\
  (forall n, 0 <= n < 5 -> read_segment (ram k') (snd (gdtr k') + 8 * n) = flat_segment n) /\
  (forall n, 1 <= n < 5 -> s_base (flat_segment n) = 0 /\ last_offset (flat_segment n) = 0xFFFFFFFF).
Proof.
  intros Hd Hr k'. assert (gdtr k' = (47, gdtEntries)) as Hg by by apply GdtInit_gdtr.
  split_and!; [done|intros n Hn; rewrite Hg; by apply GdtInit_segments|]. intros n Hn.
  assert (n = 1 \/ n = 2 \/ n = 3 \/ n = 4) as [-> | [-> | [-> | ->]]] by lia; done.
Qed.

Lemma gdt_init_flat_witness :
  let k := GdtInit 0x2000 0x1000 (Machine ∅ (0, 0) (0, 0) 0 []) in
  gdtr k = (47, 0x2000) /\ read_segment (ram k) 0x2018 = Segment 0 0xFFFFF 0xFA 0xC.
Proof.
  destruct (gdt_init_flat 0x2000 0x1000 (Machine ∅ (0, 0) (0, 0) 0 [])) as (H1 & H2 & _); [lia|lia|].
  split; [exact H1|]. pose proof (H2 3 ltac:(lia)) as H3. rewrite H1 in H3. exact H3.
Defined.

(** ** The task register *)

(** C38. [TSS_Install] after [GdtInit]: the call of [GGetDescriptor] writes no
    descriptor, the table entry that [flush_tss] loads is still the empty one it
    was at boot, and loading it is a processor exception, whatever the
    arguments. *)
Theorem tss_install_faults gdtEntries gdtPointer tss k idx ss esp :
  gdtPointer + 6 <= gdtEntries \/ gdtEntries + 48 <= gdtPointer -> 0 <= gdtEntries < 4294967296 ->
  tss + 104 <= gdtEntries \/ gdtEntries + 48 <= tss ->
  load8 (ram k) (gdtEntries + 45) = 0 ->
  TSS_Install gdtEntries tss (GdtInit gdtEntries gdtPointer k) idx ss esp = None.
Proof.
  intros Hd Hr Ht Hboot. unfold TSS_Install, flush_tss, ltr. cbn [with_ram ram gdtr].
  rewrite GdtInit_gdtr by done. cbn [fst snd]. change (8 * (0x2B / 8)) with 40.
  rewrite load8_store16_ne, !load8_store32_ne by lia. unfold sizeof_TSSEntry.
  rewrite !load8_memset by lia.
  rewrite !decide_False by lia.
  replace (gdtEntries + 40 + 5) with (gdtEntries + 45) by lia. by rewrite GdtInit_outside, Hboot by lia.
Qed.

Lemma tss_install_faults_witness :
  TSS_Install 0x2000 0x3000 (GdtInit 0x2000 0x1000 (Machine ∅ (0, 0) (0, 0) 0 [])) 5 0x10 0x9000 = None.
Proof. apply tss_install_faults; [lia|lia|lia|done]. Defined.

(** With the call of [GdtSetDescriptor] that was meant, the task register is
    loaded. *)
Example tss_install_intended :
  let k := GdtInit 0x2000 0x1000 (Machine ∅ (0, 0) (0, 0) 0 []) in
  let m := GdtSetDescriptor 0x2000 (ram k) 5 0x3000 (0x3000 + sizeof_TSSEntry) 0xE9 0 in
  tr <$> flush_tss (with_ram k m) = Some 0x2B.
Proof. vm_compute. reflexivity. Qed.

(** ** The gates *)

#[export] Instance handler_eq_dec : EqDecision handler.
Proof. solve_decision. Defined.

(** The last call for vector [v]. *)
Fixpoint last_call (v : Z) (cs : list (Z * handler * Z)) : option (handler * Z) :=
  match cs with
  | [] => None
  | c :: cs =>
      match last_call v cs with Some c => Some c | None => if c.1.1 =? v then Some (c.1.2, c.2) else None end
  end.

(** The handler of each vector. *)
Definition vector_handler (v : Z) : handler :=
  if v <? 0x14 then HandleException v
  else if (0x20 <=? v) && (v <? 0x30) then HandleInterruptRequest (v - 0x20)
  else if v =? 0x80 then HandleInterruptRequest 0x60
  else if v =? 0xFD then HandleInterruptRequest 0xDD
  else IgnoreInterrupt.

Definition vector_level (v : Z) : Z := if v =? 0x80 then 3 else 1.

Lemma install_calls_last v :
  0 <= v < 256 -> last_call v install_calls = Some (vector_handler v, vector_level v).
Proof.
  intros Hv. in_range H (fun v => bool_decide (last_call v install_calls = Some (vector_handler v, vector_level v))) 0 256%nat v.
  by apply bool_decide_eq_true in H.
Qed.

Lemma install_calls_range : Forall (fun c => 0 <= c.1.1 < 256) install_calls.
Proof.
  apply Forall_forall. intros c Hc.
  assert (forallb (fun c => (0 <=? c.1.1) && (c.1.1 <? 256)) install_calls = true) as H by (vm_compute; done).
  rewrite forallb_forall in H. apply list_elem_of_In, H in Hc. lia.
Qed.

Section IdtProofs.
Context (idtEntries : Z) (addr : handler -> Z) (Haddr : forall h, 0 <= addr h < 4294967296).
Local Notation IdtSetDescriptor := (IdtSetDescriptor idtEntries addr).
Local Notation set_call := (set_call idtEntries addr).

Lemma idt_set_other m n h l a :
  ~ (idtEntries + 8 * n <= a < idtEntries + 8 * n + 8) -> load8 (IdtSetDescriptor m n h l) a = load8 m a.
Proof. intros Ha. unfold Descriptor.IdtSetDescriptor, store16. by loads. Qed.

Definition gate_for (h : handler) (l : Z) : gate := Gate (addr h) 0x8 0 (0x8E + 32 * (l mod 4)).

Lemma idt_set_reads m n h l :
  read_gate (IdtSetDescriptor m n h l) (idtEntries + 8 * n) = gate_for h l.
Proof.
  unfold read_gate, Descriptor.IdtSetDescriptor, load16, store16, gate_for. rewrite gate_access.
  set (e := idtEntries + 8 * n). loads. specialize (Haddr h). rewrite !land_ffff, Z.shiftr_div_pow2 by lia.
  change (2 ^ 16) with 65536. f_equal; [zwrap|]. apply u8_small. zmod.
Qed.

Lemma read_gate_ext m m' e :
  (forall a, e <= a < e + 8 -> load8 m' a = load8 m a) -> read_gate m' e = read_gate m e.
Proof. intros H. unfold read_gate, load16. rewrite !H by lia. done. Qed.

Lemma set_calls_reads cs : forall m v,
  read_gate (foldl set_call m cs) (idtEntries + 8 * v) =
    from_option (fun c => gate_for c.1 c.2) (read_gate m (idtEntries + 8 * v)) (last_call v cs).
Proof.
  induction cs as [|[[n h] l] cs IH]; intros m v; [done|]. cbn [foldl last_call fst snd]. rewrite IH.
  destruct (last_call v cs) as [c|]; [done|]. unfold Descriptor.set_call. cbn [fst snd from_option].
  destruct (Z.eqb_spec n v) as [->|Hn]; cbn [from_option fst snd].
  - apply idt_set_reads.
  - apply read_gate_ext. intros a Ha. apply idt_set_other. lia.
Qed.

Lemma set_calls_other cs : forall m a,
  Forall (fun c => 0 <= c.1.1 < 256) cs -> ~ (idtEntries <= a < idtEntries + 2048) ->
  load8 (foldl set_call m cs) a = load8 m a.
Proof.
  induction cs as [|[[n h] l] cs IH]; intros m a Hc Ha; [done|]. apply Forall_cons in Hc as [Hn Hc]. cbn in Hn.
  cbn [foldl]. rewrite IH by done. unfold Descriptor.set_call. cbn [fst snd]. apply idt_set_other. lia.
Qed.

End IdtProofs.

Section InstallProofs.
Context (idtEntries idtPointer : Z) (addr : handler -> Z).
Context (Haddr : forall h, 0 <= addr h < 4294967296).
Context (Hdisj : idtPointer + 6 <= idtEntries \/ idtEntries + 2048 <= idtPointer).
Context (Hrange : 0 <= idtEntries < 4294967296).
Local Notation Install := (Install idtEntries idtPointer addr).

Lemma foldl_outportb os : forall k,
  foldl (fun k o => outportb k (fst o) (snd o)) k os =
    Machine (ram k) (gdtr k) (idtr k) (tr k) (outs k ++ (prod_map id u8 <$> os)).
Proof.
  induction os as [|o os IH]; intros k; cbn [foldl fmap list_fmap].
  - rewrite app_nil_r. by destruct k.
  - rewrite IH. cbn. by rewrite <- app_assoc.
Qed.

Lemma Install_outs k : outs (Install k) = outs k ++ remap_calls.
Proof. unfold Descriptor.Install, lidt. rewrite foldl_outportb. done. Qed.

Lemma Install_gate k v :
  0 <= v < 256 -> read_gate (ram (Install k)) (idtEntries + 8 * v) = gate_for addr (vector_handler v) (vector_level v).
Proof.
  intros Hv. unfold Descriptor.Install, lidt. rewrite foldl_outportb. cbn [ram with_ram].
  rewrite set_calls_reads by done. by rewrite install_calls_last.
Qed.

Lemma Install_idtr k : idtr (Install k) = (2047, idtEntries).
Proof.
  unfold Descriptor.Install, lidt. rewrite foldl_outportb. cbn [idtr ram with_ram]. unfold load32, load16.
  rewrite !set_calls_other by (done || apply install_calls_range || lia).
  rewrite !load8_memset by lia. rewrite !decide_False by lia. unfold store32, store16. loads. f_equal. zwrap.
Qed.
End InstallProofs.

(** The gate of vector [v] in the table the processor uses. *)
Definition active_gate (k : machine) (v : Z) : gate := read_gate (ram k) (snd (idtr k) + 8 * v).

(** C23. After [Install], from any memory and any state of the two interrupt
    controllers: every one of the 256 gates is a present interrupt gate of the
    kernel code segment that leads to its own handler; request line [n], for
    each of the 16, is unmasked and raises vector [0x20 + n], whose gate leads
    to [HandleInterruptRequest n]; user code may raise vector 0x80 and no
    other. *)
Theorem interrupts_reach_handlers idtEntries idtPointer addr k pics :
  (forall h, 0 <= addr h < 4294967296) ->
  idtPointer + 6 <= idtEntries \/ idtEntries + 2048 <= idtPointer -> 0 <= idtEntries < 4294967296 ->
  let k' := Install idtEntries idtPointer addr k in
  let pics' := foldl pics_out (foldl pics_out pics (outs k)) (drop (length (outs k)) (outs k')) in
  (forall v, 0 <= v < 256 ->
    let g := active_gate k' v in
    g_offset g = addr (vector_handler v) /\ g_selector g = 0x8 /\ g_present g = true /\ g_type g = 0xE /\
    int_allowed g 3 = (v =? 0x80)) /\
  (forall n, 0 <= n < 16 ->
    irq_vector pics' n = Some (0x20 + n) /\
    g_offset (active_gate k' (0x20 + n)) = addr (HandleInterruptRequest n)).
Proof.
  intros Ha Hd Hr k' pics'.
  assert (forall v, 0 <= v < 256 -> active_gate k' v = gate_for addr (vector_handler v) (vector_level v)) as Hg.
  { intros v Hv. unfold active_gate, k'. rewrite Install_idtr by done. by apply Install_gate. }
  split.
  - intros v Hv g. unfold g. rewrite Hg by done. unfold vector_level. destruct (Z.eqb_spec v 0x80); done.
  - intros n Hn. split.
    + unfold pics', k'. rewrite Install_outs, drop_app_length. generalize (foldl pics_out pics (outs k)). intros ps.
      unfold irq_vector. destruct (Z.ltb_spec n 8).
      * cbn. rewrite Z.bits_0. done.
      * cbn -[Z.add Z.sub]. rewrite Z.bits_0. apply (f_equal Some). unfold IDT_INTERRUPT_OFFSET. zmod.
    + rewrite Hg by lia. cbn [g_offset gate_for]. f_equal. unfold vector_handler.
      destruct (Z.ltb_spec (0x20 + n) 0x14); [lia|]. destruct (Z.leb_spec 0x20 (0x20 + n)); [|lia].
      destruct (Z.ltb_spec (0x20 + n) 0x30); [|lia]. cbn. f_equal. lia.
Qed.

Definition demo_addr (h : handler) : Z :=
  match h with
  | IgnoreInterrupt => 0xC0100000
  | HandleException n => 0xC0101000 + n mod 256
  | HandleInterruptRequest n => 0xC0102000 + n mod 256
  end.

Lemma interrupts_reach_handlers_witness :
  let k := Install 0x8000 0x7000 demo_addr (Machine ∅ (0, 0) (0, 0) 0 []) in
  g_offset (active_gate k 0x0E) = 0xC010100E /\ g_offset (active_gate k 0x2B) = 0xC010200B.
Proof.
  destruct (interrupts_reach_handlers 0x8000 0x7000 demo_addr (Machine ∅ (0, 0) (0, 0) 0 [])
    (Pic Icw2 0 0, Pic Running 8 255)) as [H1 H2]; [|lia|lia|].
  - intros [|n|n]; cbn [demo_addr]; [lia|..]; pose proof (Z.mod_pos_bound n 256); lia.
  - split; [exact (proj1 (H1 0x0E ltac:(lia)))|exact (proj2 (H2 11 ltac:(lia)))].
Defined.
