(* ===== verification/Dns.v ===== *)
(** * Domain names (src/libz/net/dns.c, src/src/utils/dns.c)

    The encoding of a domain name in a packet, its decoding with compression
    pointers, the query of the [dns] program and the reading of a response.
    A packet is one object; a [char *] into it is an offset, with the 32-bit
    wrap of the source's unsigned arithmetic.

    Both loops over a received name can run for ever, so they take fuel and
    answer [More] when it is used up: the theorems give a fuel from which on
    the answer is the right one, or show that there is none.

    [dname] is the meaning RFC 1035 gives to the bytes, restricted to the
    pointers this code can follow. *)
From S2P Require Import Prelude Buffer Cstring Net.

Local Open Scope Z_scope.

(** ** Names (dns.c) *)

Fixpoint namesize_loop (fuel : nat) (pkt : list Z) (name i : Z) : outcome Z :=
  match fuel with
  | O => More
  | S fuel =>
      v ← acc (rd pkt (u32 (name + i)));
      if v =? 0 then Done (u32 (i + 1))
      else if Z.land (s8 v) 0xC0 =? 0xC0 then Done (u32 (i + 2))
      else namesize_loop fuel pkt name (u32 (i + s8 v + 1))
  end.

Definition dns_namesize (fuel : nat) (pkt : list Z) (name : Z) : outcome Z := namesize_loop fuel pkt name 0.

Fixpoint copyname_loop (n : nat) (out : list Z) (count : Z) (name : list Z) (namelen valstart c i : Z)
    : option (list Z * Z) :=
  match n with
  | O => Some (out, c)
  | S n =>
      ch ← rd name i;
      if (ch =? 46) || (ch =? 0) then
        '(out, k) ← buffer_write out count [namelen] 1 c;
        let c := u32 (c + k) in
        '(out, k) ← buffer_write out count (drop (Z.to_nat valstart) name) namelen c;
        let c := u32 (c + k) in
        copyname_loop n out count name 0 (i + 1) c (i + 1)
      else copyname_loop n out count name (u8 (namelen + 1)) valstart c (i + 1)
  end.

Definition dns_copyname (out : list Z) (count : Z) (name : list Z) : option (list Z * Z) :=
  n ← cstring_length_zero name;
  '(out, c) ← copyname_loop (Z.to_nat n) out count name 0 0 0 0;
  '(out, k) ← cstring_write_zero out count c;
  Some (out, u32 (c + k)).

Fixpoint writename_loop (fuel : nat) (out : list Z) (count : Z) (pkt : list Z) (start name index offset : Z)
    : outcome (list Z * Z) :=
  match fuel with
  | O => More
  | S fuel =>
      v ← acc (rd pkt (u32 (name + index)));
      if v =? 0 then Done (out, offset)
      else if Z.land (s8 v) 0xC0 =? 0xC0 then
        w ← acc (rd pkt (u32 (name + u32 (index + 1))));
        writename_loop fuel out count pkt start
          (u32 (start + Z.lor (Z.shiftl (Z.land (s8 v) 0x2F) 8) (s8 w))) 0 offset
      else
        '(out, k) ← acc (buffer_write out count (drop (Z.to_nat (u32 (name + index + 1))) pkt) (u32 (s8 v)) offset);
        let offset := u32 (offset + k) in
        let index := u32 (index + s8 v + 1) in
        w ← acc (rd pkt (u32 (name + index)));
        if w =? 0 then writename_loop fuel out count pkt start name index offset
        else
          '(out, k) ← acc (cstring_write out count [46; 0] offset);
          writename_loop fuel out count pkt start name index (u32 (offset + k))
  end.

Definition dns_writename (fuel : nat) (out : list Z) (count : Z) (pkt : list Z) (name start : Z)
    : outcome (list Z * Z) :=
  writename_loop fuel out count pkt start name 0 0.

(** ** The client (utils/dns.c) *)

Definition sizeof_header : Z := 12.
Definition sizeof_question : Z := 4.
Definition sizeof_answer : Z := 10.

(** [header] and [question] after the five [net_save16] calls on cleared
    structures. *)
Definition query_header : option (list Z) :=
  h ← net_save16 (replicate 12 0) 0 0x0001; h ← net_save16 h 2 0x0100; net_save16 h 4 0x0001.
Definition query_question : option (list Z) :=
  q ← net_save16 (replicate 4 0) 0 0x0001; net_save16 q 2 0x0001.

Definition buildrequest (buffer : list Z) (count : Z) (domain : list Z) : option (list Z * Z) :=
  header ← query_header;
  question ← query_question;
  '(buffer, k) ← buffer_write buffer count header sizeof_header 0;
  let offset := u32 (0 + k) in
  '(tail, k) ← dns_copyname (drop (Z.to_nat offset) buffer) (u32 (count - offset)) domain;
  let buffer := take (Z.to_nat offset) buffer ++ tail in
  let offset := u32 (offset + k) in
  '(buffer, k) ← buffer_write buffer count question sizeof_question offset;
  Some (buffer, u32 (offset + k)).

(** What one call of [reply] tells: the address of a name, or its alias. *)
Inductive notice := Address (name : list Z) (a b c d : Z) | Alias (name alias : list Z).

(** The contents of the uninitialised [char fullname[256]] and [alias[256]]. *)
Section Reply.
Context (stack0 : list Z).

Definition reply (fuel : nat) (type : Z) (pkt : list Z) (name rddata : Z) : outcome (list notice) :=
  '(fullname, n) ← dns_writename fuel stack0 256 pkt name 0;
  if type =? 1 then
    a ← acc (rd pkt rddata); b ← acc (rd pkt (rddata + 1));
    c ← acc (rd pkt (rddata + 2)); d ← acc (rd pkt (rddata + 3));
    Done [Address (take (Z.to_nat n) fullname) a b c d]
  else if type =? 5 then
    '(alias, m) ← dns_writename fuel stack0 256 pkt rddata 0;
    Done [Alias (take (Z.to_nat n) fullname) (take (Z.to_nat m) alias)]
  else Done [].

Fixpoint skip_questions (n fuel : nat) (pkt : list Z) (responselength : Z) : outcome Z :=
  match n with
  | O => Done responselength
  | S n =>
      k ← dns_namesize fuel pkt responselength;
      skip_questions n fuel pkt (u32 (u32 (responselength + k) + sizeof_question))
  end.

Fixpoint read_answers (n fuel : nat) (pkt : list Z) (responselength : Z) : outcome (list notice) :=
  match n with
  | O => Done []
  | S n =>
      let name := responselength in
      k ← dns_namesize fuel pkt name;
      let answer := u32 (responselength + k) in
      let rddata := u32 (answer + sizeof_answer) in
      rdlength ← acc (net_load16 pkt (answer + 8));
      type ← acc (net_load16 pkt answer);
      told ← reply fuel type pkt name rddata;
      rest ← read_answers n fuel pkt (u32 (rddata + rdlength));
      Done (told ++ rest)
  end.

(** The part of [onmain] after [socket_receive]. *)
Definition read_response (fuel : nat) (pkt : list Z) : outcome (list notice) :=
  questions ← acc (net_load16 pkt 4);
  pos ← skip_questions (Z.to_nat questions) fuel pkt sizeof_header;
  answers ← acc (net_load16 pkt 6);
  read_answers (Z.to_nat answers) fuel pkt pos.
End Reply.

(** ** What the bytes mean *)

(** The text of a name: its labels with dots between them. *)
Fixpoint text (ls : list (list Z)) : list Z :=
  match ls with [] => [] | [l] => l | l :: ls => l ++ 46 :: text ls end.

(** Every label after its length, and the root. *)
Definition labels (ls : list (list Z)) : list Z := ls ≫= fun l => Z.of_nat (length l) :: l.
Definition encode (ls : list (list Z)) : list Z := labels ls ++ [0].

Definition label_ok (l : list Z) : Prop := (1 <= length l <= 63)%nat.

(** [label_at pkt p l]: the label [l] and its length are at [p]. *)
Definition label_at (pkt : list Z) (p : nat) (l : list Z) : Prop :=
  label_ok l /\ slice pkt p (S (length l)) = Z.of_nat (length l) :: l.

(** The pointers the code reads as they were meant: bit 12 of the offset is
    clear, since it is masked out, and so is bit 7, since the second byte is a
    signed [char]. *)
Definition readable (hi lo : Z) : Prop := 0xC0 <= hi < 0x100 /\ 0 <= lo < 0x80 /\ Z.testbit hi 4 = false.

(** The name at [p], and the bytes it takes there. *)
Inductive dname (pkt : list Z) : nat -> nat -> list (list Z) -> Prop :=
  | dname_root p : pkt !! p = Some 0 -> dname pkt p 1 []
  | dname_label p l size ls :
      label_at pkt p l -> dname pkt (p + S (length l)) size ls -> dname pkt p (S (length l) + size) (l :: ls)
  | dname_pointer p hi lo size ls :
      pkt !! p = Some hi -> pkt !! S p = Some lo -> readable hi lo -> ls <> [] ->
      dname pkt (Z.to_nat (256 * (hi - 0xC0) + lo)) size ls -> dname pkt p 2 ls.

Lemma label_at_len pkt p l : label_at pkt p l -> pkt !! p = Some (Z.of_nat (length l)).
Proof.
  intros [_ H]. assert (slice pkt p (S (length l)) !! 0%nat = Some (Z.of_nat (length l))) as H0 by by rewrite H.
  unfold slice in H0. rewrite lookup_take_lt in H0 by lia. rewrite lookup_drop in H0. by rewrite Nat.add_0_r in H0.
Qed.

Lemma label_at_text pkt p l : label_at pkt p l -> slice pkt (S p) (length l) = l.
Proof.
  intros Hl. pose proof (label_at_len _ _ _ Hl) as Hlen. destruct Hl as [_ H]. rewrite (slice_S _ _ _ _ Hlen) in H.
  by injection H.
Qed.

Lemma dname_bound pkt p size ls : dname pkt p size ls -> (1 <= size)%nat /\ (p + size <= length pkt)%nat.
Proof.
  induction 1 as [p H|p l size ls Hl H IH|p hi lo size ls Hh Hlo Hr Hn H IH].
  - apply lookup_lt_Some in H. lia.
  - lia.
  - apply lookup_lt_Some in Hlo. lia.
Qed.

(** A name starts with a zero byte exactly when it is the root. *)
Lemma dname_first pkt p size ls :
  dname pkt p size ls -> exists v, pkt !! p = Some v /\ (v =? 0) = match ls with [] => true | _ => false end.
Proof.
  intros [p' H|p' l size' ls' Hl H|p' hi lo size' ls' Hh Hlo Hr Hn H].
  - by exists 0.
  - exists (Z.of_nat (length l)). split; [by apply label_at_len|]. destruct Hl as [[H1 H2] _].
    apply Z.eqb_neq. lia.
  - exists hi. split; [done|]. destruct ls'; [done|]. apply Z.eqb_neq. destruct Hr. lia.
Qed.

(** The tests on a length byte and on the first byte of a pointer. *)
Lemma label_byte n : (1 <= n <= 63)%nat ->
  s8 (Z.of_nat n) = Z.of_nat n /\ (Z.of_nat n =? 0) = false /\ (Z.land (Z.of_nat n) 0xC0 =? 0xC0) = false.
Proof.
  intros Hn. split; [zwrap|]. split; [apply Z.eqb_neq; lia|].
  in_range H (fun z => negb (Z.land z 0xC0 =? 0xC0)) 1 63%nat (Z.of_nat n). by apply negb_true_iff in H.
Qed.

(** The test on the first byte of a pointer. *)
Lemma pointer_first hi : 0xC0 <= hi < 0x100 -> (Z.land (s8 hi) 0xC0 =? 0xC0) = true.
Proof. intros Hhi. in_range H (fun hi => Z.land (s8 hi) 0xC0 =? 0xC0) 0xC0 64%nat hi. done. Qed.

Lemma pointer_bytes hi lo : readable hi lo ->
  (hi =? 0) = false /\ (Z.land (s8 hi) 0xC0 =? 0xC0) = true /\
  Z.lor (Z.shiftl (Z.land (s8 hi) 0x2F) 8) (s8 lo) = 256 * (hi - 0xC0) + lo.
Proof.
  intros ((H1 & H2) & Hlo & Hbit). split; [apply Z.eqb_neq; lia|].
  split; [by apply pointer_first|].
  in_range Hb (fun hi => Z.testbit hi 4 || (Z.land (s8 hi) 0x2F =? hi - 0xC0)) 0xC0 64%nat hi. rewrite Hbit in Hb.
  cbn [orb] in Hb. apply Z.eqb_eq in Hb. rewrite Hb.
  replace (s8 lo) with lo by zwrap. rewrite lor_shift by lia. lia.
Qed.

(** ** Reading a name *)

Section Reading.
Context (pkt : list Z) (Hpkt : Z.of_nat (length pkt) <= max32).

Lemma rd_at name i p : name + i = Z.of_nat p -> (p < length pkt)%nat -> rd pkt (u32 (name + i)) = pkt !! p.
Proof. intros -> Hp. unfold max32 in *. rewrite u32_small by lia. apply rd_nat. Qed.

Lemma namesize_dname p size ls :
  dname pkt p size ls -> exists n, forall fuel name i, (n <= fuel)%nat -> 0 <= name -> 0 <= i ->
    name + i = Z.of_nat p -> namesize_loop fuel pkt name i = Done (i + Z.of_nat size).
Proof.
  intros H. pose proof (dname_bound _ _ _ _ H) as [_ Hb]. unfold max32 in *.
  induction H as [p H|p l size ls Hl H IH|p hi lo size ls Hh Hlo Hr Hn H IH].
  - exists 1%nat. intros [|fuel] name i Hf Hname Hi Hp; [lia|]. cbn [namesize_loop]. rewrite (rd_at name i p), H by lia.
    cbn. rewrite u32_small by lia. done.
  - destruct IH as [n IH]; [lia|]. exists (S n). intros [|fuel] name i Hf Hname Hi Hp; [lia|]. cbn [namesize_loop].
    pose proof (dname_bound _ _ _ _ H) as [? ?].
    rewrite (rd_at name i p), (label_at_len _ _ _ Hl) by lia. cbn [acc from_option mbind outcome_bind].
    destruct (label_byte (length l) (proj1 Hl)) as (-> & -> & ->). rewrite u32_small by lia.
    rewrite IH by lia. f_equal. lia.
  - exists 1%nat. intros [|fuel] name i Hf Hname Hi Hp; [lia|]. cbn [namesize_loop].
    rewrite (rd_at name i p), Hh by lia. cbn [acc from_option mbind outcome_bind].
    destruct (pointer_bytes hi lo Hr) as (-> & -> & _). rewrite u32_small by lia. done.
Qed.
End Reading.

(** Writing [t] with what is left of the output. *)
Lemma buffer_write_app C out t rest off n :
  Z.of_nat C <= max32 -> (C <= length out)%nat -> (off <= C)%nat -> n = length t ->
  buffer_write out (Z.of_nat C) (t ++ rest) (Z.of_nat n) (Z.of_nat off) =
    Some (put C out off t, Z.of_nat (min (length t) (C - off))).
Proof. intros HC Hl Ho ->. rewrite buffer_write_put by (rewrite ?length_app; lia). by rewrite take_app_length. Qed.

Section Writing.
Context (pkt : list Z) (Hpkt : Z.of_nat (length pkt) <= max32).
Context (C : nat) (HC : Z.of_nat C <= max32).

(** What the loop started at [p] is to write. *)
Definition writes (p : nat) (t : list Z) : Prop :=
  exists n, forall fuel out name index off,
    (n <= fuel)%nat -> (C <= length out)%nat -> (off <= C)%nat -> 0 <= name -> 0 <= index ->
    name + index = Z.of_nat p ->
    writename_loop fuel out (Z.of_nat C) pkt 0 name index (Z.of_nat off) =
      Done (put C out off t, Z.of_nat (put_off C off t)).

Lemma writes_root p : pkt !! p = Some 0 -> writes p [].
Proof.
  intros H. pose proof (lookup_lt_Some _ _ _ H). exists 1%nat.
  intros [|fuel] out name index off Hf Ho Hoff Hname Hi Hp; [lia|]. cbn [writename_loop].
  rewrite (rd_at pkt Hpkt name index p), H by lia. cbn. unfold put, put_off. rewrite take_nil, splice_nil. cbn.
  by rewrite Nat.add_0_r.
Qed.

Lemma writes_label p l size ls :
  label_at pkt p l -> dname pkt (p + S (length l)) size ls -> writes (p + S (length l)) (text ls) ->
  writes p (text (l :: ls)).
Proof.
  intros Hl H [n IH]. pose proof (dname_bound _ _ _ _ H) as [? ?]. destruct (dname_first _ _ _ _ H) as (v & Hv & Hv0).
  unfold max32 in *. exists (S n). intros [|fuel] out name index off Hf Ho Hoff Hname Hi Hp; [lia|].
  cbn [writename_loop]. rewrite (rd_at pkt Hpkt name index p), (label_at_len _ _ _ Hl) by lia.
  cbn [acc from_option mbind outcome_bind]. destruct (label_byte (length l) (proj1 Hl)) as (-> & -> & ->).
  rewrite (u32_small (name + index + 1)), (u32_small (Z.of_nat (length l))), (u32_small (index + _ + 1)) by lia.
  replace (Z.to_nat (name + index + 1)) with (S p) by lia.
  rewrite (drop_slice pkt (S p) (length l)), (label_at_text _ _ _ Hl).
  rewrite buffer_write_app by (unfold max32; lia). cbn [acc from_option mbind outcome_bind].
  rewrite (u32_small (Z.of_nat off + _)) by lia. rewrite <- (Nat2Z.inj_add off). fold (put_off C off l).
  rewrite (rd_at pkt Hpkt name (index + Z.of_nat (length l) + 1) (p + S (length l))), Hv by lia.
  cbn [acc from_option mbind outcome_bind]. rewrite Hv0.
  pose proof (put_off_le C off l Hoff) as Hle. pose proof (length_put C out off l Ho) as Hlp.
  destruct ls as [|l' ls].
  - rewrite IH by lia. cbn [text]. destruct (put_app C out off l [] Hoff Ho) as [-> ->]. by rewrite app_nil_r.
  - unfold cstring_write. change (cstring_length [46; 0]) with (Some (Z.of_nat 1)). cbn [mbind option_bind].
    rewrite (buffer_write_app C _ [46] [0]) by (unfold max32; cbn; lia). cbn [acc from_option mbind outcome_bind].
    rewrite (u32_small (Z.of_nat (put_off C off l) + _)) by (cbn [length]; lia). rewrite <- Nat2Z.inj_add.
    fold (put_off C (put_off C off l) [46]).
    pose proof (put_off_le C (put_off C off l) [46] Hle). rewrite IH by (rewrite ?length_put; lia).
    change (text (l :: l' :: ls)) with (l ++ [46] ++ text (l' :: ls)).
    destruct (put_app C (put C out off l) (put_off C off l) [46] (text (l' :: ls))) as [-> ->]; [lia|lia|].
    by destruct (put_app C out off l ([46] ++ text (l' :: ls)) Hoff Ho) as [-> ->].
Qed.

Lemma writes_pointer p hi lo t :
  pkt !! p = Some hi -> pkt !! S p = Some lo -> readable hi lo ->
  writes (Z.to_nat (256 * (hi - 0xC0) + lo)) t -> writes p t.
Proof.
  intros Hh Hlo Hr [n IH]. pose proof (lookup_lt_Some _ _ _ Hlo). unfold max32 in *.
  exists (S n). intros [|fuel] out name index off Hf Ho Hoff Hname Hi Hp; [lia|]. cbn [writename_loop].
  rewrite (rd_at pkt Hpkt name index p), Hh by lia. cbn [acc from_option mbind outcome_bind].
  destruct (pointer_bytes hi lo Hr) as (-> & -> & E).
  rewrite (u32_small (index + 1)) by lia. rewrite (rd_at pkt Hpkt name (index + 1) (S p)), Hlo by lia.
  cbn [acc from_option mbind outcome_bind]. rewrite E. destruct Hr as (Hr1 & Hr2 & _). rewrite u32_small by lia.
  apply IH; lia.
Qed.

Lemma writename_dname p size ls : dname pkt p size ls -> writes p (text ls).
Proof. induction 1; eauto using writes_root, writes_label, writes_pointer. Qed.
End Writing.

(** ** Writing a query *)

Definition plain_char (c : Z) : Prop := c <> 0 /\ c <> 46.

(** Labels with the character that ends each. *)
Definition ended (ps : list (list Z * Z)) : list Z := ps ≫= fun p => p.1 ++ [p.2].

Lemma copyname_chars l : forall n out count name namelen valstart c i rest pre,
  name = pre ++ l ++ rest -> i = Z.of_nat (length pre) -> Forall plain_char l ->
  0 <= namelen -> namelen + Z.of_nat (length l) <= 255 ->
  copyname_loop (length l + n) out count name namelen valstart c i =
  copyname_loop n out count name (namelen + Z.of_nat (length l)) valstart c (i + Z.of_nat (length l)).
Proof.
  induction l as [|x l IH]; intros n out count name namelen valstart c i rest pre -> -> Hl Hn Hb.
  - cbn [length Nat.add]. by rewrite !Z.add_0_r.
  - apply Forall_cons in Hl as [[Hx0 Hx1] Hl]. cbn [length] in Hb. cbn [length Nat.add copyname_loop app]. rewrite rd_mid.
    cbn [mbind option_bind]. destruct (Z.eqb_spec x 46); [done|]. destruct (Z.eqb_spec x 0); [done|]. cbn [orb].
    rewrite u8_small by lia. rewrite (IH n _ _ _ _ _ _ _ rest (pre ++ [x])); [|by rewrite <- app_assoc|by rewrite length_snoc|done|lia|lia].
    f_equal; lia.
Qed.

Section Copying.
Context (C : nat) (HC : Z.of_nat C <= max32).

Lemma copyname_end out name namelen valstart off i x n l rest :
  rd name i = Some x -> x = 46 \/ x = 0 -> (C <= length out)%nat -> (off <= C)%nat ->
  namelen = Z.of_nat (length l) -> (length l <= 63)%nat -> drop (Z.to_nat valstart) name = l ++ rest ->
  copyname_loop (S n) out (Z.of_nat C) name namelen valstart (Z.of_nat off) i =
  copyname_loop n (put C out off (namelen :: l)) (Z.of_nat C) name 0 (i + 1)
    (Z.of_nat (put_off C off (namelen :: l))) (i + 1).
Proof.
  intros Hx Hx01 Ho Hoff Hn Hl Hd. cbn [copyname_loop]. rewrite Hx. cbn [mbind option_bind].
  assert ((x =? 46) || (x =? 0) = true) as -> by (destruct Hx01 as [-> | ->]; done).
  change (buffer_write out (Z.of_nat C) [namelen] 1) with (buffer_write out (Z.of_nat C) ([namelen] ++ []) (Z.of_nat 1)).
  rewrite (buffer_write_app C out [namelen] [] off 1) by (done || lia). cbn [mbind option_bind]. unfold max32 in *.
  rewrite u32_small by (cbn [length]; lia). rewrite <- Nat2Z.inj_add. fold (put_off C off [namelen]).
  pose proof (put_off_le C off [namelen] Hoff) as Hle. rewrite Hd. rewrite Hn in Hle |- *.
  rewrite buffer_write_app by (rewrite ?length_put; unfold max32; lia). cbn [mbind option_bind]. rewrite <- Hn in Hle |- *.
  rewrite u32_small by lia. rewrite <- Nat2Z.inj_add. fold (put_off C (put_off C off [namelen]) l).
  by destruct (put_app C out off [namelen] l Hoff Ho) as [-> ->].
Qed.

Lemma copyname_labels ps : forall out name off pre rest,
  name = pre ++ ended ps ++ rest ->
  Forall (fun p => label_ok p.1 /\ Forall plain_char p.1 /\ (p.2 = 46 \/ p.2 = 0)) ps ->
  (C <= length out)%nat -> (off <= C)%nat ->
  copyname_loop (length (ended ps)) out (Z.of_nat C) name 0 (Z.of_nat (length pre)) (Z.of_nat off) (Z.of_nat (length pre)) =
    Some (put C out off (labels ps.*1), Z.of_nat (put_off C off (labels ps.*1))).
Proof.
  induction ps as [|[l x] ps IH]; intros out name off pre rest Hname Hps Ho Hoff.
  - cbn. unfold put, put_off. rewrite take_nil, splice_nil. cbn. by rewrite Nat.add_0_r.
  - apply Forall_cons in Hps as [(Hlab & Hl & Hx) Hps]. cbn [fst snd] in *.
    assert (name = pre ++ l ++ x :: ended ps ++ rest) as Hname'.
    { rewrite Hname. unfold ended. cbn [mbind list_bind fst snd]. by rewrite <- !app_assoc. }
    replace (length (ended ((l, x) :: ps))) with (length l + S (length (ended ps)))%nat
      by (unfold ended; cbn [mbind list_bind fst snd]; rewrite !length_app; cbn; lia).
    unfold label_ok in Hlab.
    rewrite (copyname_chars l _ _ _ _ _ _ _ _ (x :: ended ps ++ rest) pre); [|done|done|done|lia|lia]. rewrite Z.add_0_l.
    rewrite (copyname_end _ _ _ _ off _ x _ l (x :: ended ps ++ rest)); [| |done|done|done|lia|lia|].
    + rewrite <- Nat2Z.inj_add, <- (length_app pre l), <- (length_snoc (pre ++ l) x).
      rewrite (IH _ name _ ((pre ++ l) ++ [x]) rest); [|by rewrite Hname', <- !app_assoc|done|by rewrite length_put|by apply put_off_le].
      change (labels ((l, x) :: ps).*1) with ((Z.of_nat (length l) :: l) ++ labels ps.*1).
      by destruct (put_app C out off (Z.of_nat (length l) :: l) (labels ps.*1) Hoff Ho) as [-> ->].
    + rewrite Hname', (app_assoc pre), <- Nat2Z.inj_add, <- (length_app pre l). apply rd_mid.
    + rewrite Hname', Nat2Z.id. apply drop_app_length.
Qed.
End Copying.

(** The text of a name with its nul, label by label. *)
Fixpoint ends (ls : list (list Z)) : list (list Z * Z) :=
  match ls with [] => [] | [l] => [(l, 0)] | l :: ls => (l, 46) :: ends ls end.

Lemma ends_fst ls : (ends ls).*1 = ls.
Proof. induction ls as [|l [|l' ls] IH]; [done|done|]. cbn in *. by rewrite IH. Qed.

Lemma ends_text ls : ls <> [] -> ended (ends ls) = text ls ++ [0].
Proof.
  induction ls as [|l [|l' ls] IH]; intros Hn; [done|by rewrite <- (app_nil_r (_ ++ _))|].
  change (ended (ends (l :: l' :: ls))) with ((l ++ [46]) ++ ended (ends (l' :: ls))). rewrite IH by done.
  change (text (l :: l' :: ls)) with (l ++ 46 :: text (l' :: ls)). by rewrite <- !app_assoc.
Qed.

Definition domain_ok (ls : list (list Z)) : Prop := ls <> [] /\ Forall (fun l => label_ok l /\ Forall plain_char l) ls.

Lemma ends_ok ls :
  Forall (fun l => label_ok l /\ Forall plain_char l) ls ->
  Forall (fun p => label_ok p.1 /\ Forall plain_char p.1 /\ (p.2 = 46 \/ p.2 = 0)) (ends ls).
Proof.
  induction ls as [|l [|l' ls] IH]; intros H; [by apply Forall_nil| |]; apply Forall_cons in H as [[? ?] H'].
  - constructor; [cbn; tauto|constructor].
  - constructor; [cbn; tauto|by apply IH].
Qed.

Lemma text_nonzero ls : Forall (fun l => label_ok l /\ Forall plain_char l) ls -> Forall (fun c => c <> 0) (text ls).
Proof.
  induction ls as [|l [|l' ls] IH]; intros H; [by apply Forall_nil| |]; apply Forall_cons in H as [[_ Hl] H'].
  - cbn. eapply Forall_impl; [done|]. by intros ? [? _].
  - change (text (l :: l' :: ls)) with (l ++ 46 :: text (l' :: ls)). apply Forall_app. split.
    + eapply Forall_impl; [done|]. by intros ? [? _].
    + constructor; [done|by apply IH].
Qed.

(** [dns_copyname] of a proper domain name writes its encoding. *)
Lemma dns_copyname_spec out C ls rest :
  domain_ok ls -> Z.of_nat C <= max32 -> (C <= length out)%nat -> (length (encode ls) <= C)%nat ->
  Z.of_nat (length (text ls)) < max32 ->
  dns_copyname out (Z.of_nat C) (text ls ++ 0 :: rest) =
    Some (splice out 0 (encode ls), Z.of_nat (length (encode ls))).
Proof.
  intros [Hn Hls] HC Ho Hfit Ht. unfold dns_copyname, cstring_length_zero, max32 in *.
  rewrite cstring_length_spec by (unfold max32; lia || by apply text_nonzero). cbn [mbind option_bind].
  rewrite u32_small by lia. replace (Z.to_nat (Z.of_nat (length (text ls)) + 1)) with (length (ended (ends ls)))
    by (rewrite ends_text by done; rewrite length_app; cbn; lia).
  rewrite (copyname_labels C HC (ends ls) out _ 0 [] rest); [|by rewrite ends_text, <- app_assoc by done|by apply ends_ok|done|lia].
  rewrite ends_fst. cbn [mbind option_bind]. unfold encode in *. rewrite length_app in Hfit. cbn [length] in Hfit.
  unfold put_off, put. rewrite Nat.sub_0_r, Nat.min_l, take_ge by lia. cbn [Nat.add].
  unfold cstring_write_zero. destruct (Z.ltb_spec (Z.of_nat (length (labels ls))) (Z.of_nat C)); [|lia].
  rewrite wr_one by (rewrite length_splice; lia). cbn [mbind option_bind].
  rewrite <- (Nat.add_0_l (length (labels ls))) at 1. rewrite splice_app by (cbn; lia).
  rewrite u32_small, length_app by lia. cbn. do 2 f_equal. lia.
Qed.

Lemma encode_cons l ls : encode (l :: ls) = (Z.of_nat (length l) :: l) ++ encode ls.
Proof. unfold encode, labels. cbn [mbind list_bind]. by rewrite app_assoc. Qed.

(** The bytes of an encoded name mean that name. *)
Lemma encode_dname ls : forall pkt p,
  Forall label_ok ls -> slice pkt p (length (encode ls)) = encode ls -> dname pkt p (length (encode ls)) ls.
Proof.
  induction ls as [|l ls IH]; intros pkt p Hls Hs.
  - apply dname_root. pose proof (f_equal (fun x => x !! 0%nat) Hs) as H0. unfold slice in H0.
    rewrite lookup_take_lt in H0 by (cbn; lia). rewrite lookup_drop, Nat.add_0_r in H0. done.
  - apply Forall_cons in Hls as [Hl Hls]. rewrite encode_cons in *.
    rewrite length_app in *. cbn [length Nat.add] in *.
    assert (slice pkt p (S (length l)) = Z.of_nat (length l) :: l /\
            slice pkt (p + S (length l)) (length (encode ls)) = encode ls) as [H1 H2].
    { unfold slice in *. rewrite <- drop_drop. apply (app_inj_1 _ (Z.of_nat (length l) :: l)).
      - rewrite length_take, length_drop. apply (f_equal length) in Hs. rewrite length_take, length_drop in Hs.
        rewrite length_app in Hs. cbn [length] in *. lia.
      - rewrite <- Hs. change (S (length l + length (encode ls))) with (S (length l) + length (encode ls))%nat.
        by rewrite take_take_drop. }
    change (S (length l + length (encode ls))) with (S (length l) + length (encode ls))%nat.
    apply dname_label; [done|]. by apply IH.
Qed.

(** ** Reading a response *)

(** The data of an answer: an address, an alias, or a type that is skipped. *)
Inductive rdata := RAddress (a b c d : Z) | RAlias (ls : list (list Z)) | ROther.

Definition rdata_at (pkt : list Z) (p : nat) (type : Z) (r : rdata) : Prop :=
  match r with
  | RAddress a b c d => type = 1 /\ slice pkt p 4 = [a; b; c; d]
  | RAlias ls => type = 5 /\ exists size, dname pkt p size ls
  | ROther => type <> 1 /\ type <> 5
  end.

Inductive questions_at (pkt : list Z) : nat -> nat -> nat -> Prop :=
  | questions_end p : questions_at pkt p 0 p
  | questions_more p size ls n e :
      dname pkt p size ls -> questions_at pkt (p + size + 4) n e -> questions_at pkt p (S n) e.

Inductive answers_at (pkt : list Z) : nat -> list (list (list Z) * rdata) -> Prop :=
  | answers_end p : answers_at pkt p []
  | answers_more p size ls type len r rest :
      dname pkt p size ls -> net_load16 pkt (Z.of_nat (p + size)) = Some type ->
      net_load16 pkt (Z.of_nat (p + size) + 8) = Some len -> rdata_at pkt (p + size + 10) type r ->
      answers_at pkt (p + size + 10 + Z.to_nat len) rest -> answers_at pkt p ((ls, r) :: rest).

Definition told (a : list (list Z) * rdata) : list notice :=
  let shown t := take 256 (text t) in
  match a.2 with
  | RAddress x y z w => [Address (shown a.1) x y z w]
  | RAlias ls => [Alias (shown a.1) (shown ls)]
  | ROther => []
  end.

Lemma take_put C out t :
  (C <= length out)%nat -> take (put_off C 0 t) (put C out 0 t) = take C t.
Proof.
  intros HC. unfold put_off, put. rewrite Nat.sub_0_r, splice_0. cbn [Nat.add].
  replace (length t `min` C)%nat with (length (take C t)) by (rewrite length_take; lia).
  apply take_app_length.
Qed.

Lemma net_load16_bound pkt o v : net_load16 pkt o = Some v -> 0 <= v < 65536 /\ o + 2 <= Z.of_nat (length pkt).
Proof.
  unfold net_load16. intros (d0 & H0 & (d1 & H1 & [= <-])%bind_Some)%bind_Some.
  split; [apply u16_range|]. apply rd_lt in H1. lia.
Qed.

Section Response.
Context (pkt : list Z) (Hpkt : (length pkt <= 4096)%nat).
Context (stack0 : list Z) (Hstack : length stack0 = 256%nat).

Lemma namesize_eventually p size ls :
  dname pkt p size ls -> eventually (fun fuel => dns_namesize fuel pkt (Z.of_nat p) = Done (Z.of_nat size)).
Proof.
  intros H. destruct (namesize_dname pkt ltac:(unfold max32; lia) p size ls H) as [n Hn].
  exists n. intros fuel Hf. unfold dns_namesize. by rewrite Hn by lia.
Qed.

Lemma writename_eventually p size ls :
  dname pkt p size ls -> eventually (fun fuel => exists out n,
    dns_writename fuel stack0 256 pkt (Z.of_nat p) 0 = Done (out, n) /\ take (Z.to_nat n) out = take 256 (text ls)).
Proof.
  intros H. destruct (writename_dname pkt ltac:(unfold max32; lia) 256 ltac:(unfold max32; lia) p size ls H) as [n Hn].
  exists n. intros fuel Hf. unfold dns_writename.
  pose proof (Hn fuel stack0 (Z.of_nat p) 0 0%nat Hf ltac:(lia) ltac:(lia) ltac:(lia) ltac:(lia) ltac:(lia)) as E.
  do 2 eexists. split; [exact E|]. rewrite Nat2Z.id. apply take_put. lia.
Qed.

Lemma reply_eventually p size ls q type r :
  dname pkt p size ls -> rdata_at pkt q type r ->
  eventually (fun fuel => reply stack0 fuel type pkt (Z.of_nat p) (Z.of_nat q) = Done (told (ls, r))).
Proof.
  intros H Hr. pose proof (writename_eventually p size ls H) as Hw. destruct r as [a b c d|ls'|]; cbn [rdata_at] in Hr.
  - destruct Hr as [-> Hs]. revert Hw. apply eventually_mono. intros fuel (out & n & E & Ht). unfold reply. rewrite E.
    cbn [mbind outcome_bind Z.eqb]. assert (forall i, (i < 4)%nat -> rd pkt (Z.of_nat q + Z.of_nat i) = [a; b; c; d] !! i) as Hi.
    { intros i Hi. rewrite <- Nat2Z.inj_add, rd_nat, <- Hs. unfold slice. by rewrite lookup_take_lt, lookup_drop. }
    pose proof (Hi 0%nat ltac:(lia)) as E0. change (Z.of_nat 0) with 0 in E0. rewrite Z.add_0_r in E0. rewrite E0.
    pose proof (Hi 1%nat ltac:(lia)) as E1. pose proof (Hi 2%nat ltac:(lia)) as E2. pose proof (Hi 3%nat ltac:(lia)) as E3.
    change (Z.of_nat 1) with 1 in E1. change (Z.of_nat 2) with 2 in E2. change (Z.of_nat 3) with 3 in E3.
    rewrite E1, E2, E3.
    cbn. by rewrite Ht.
  - destruct Hr as [-> [size' H']]. pose proof (eventually_and _ _ Hw (writename_eventually q size' ls' H')) as Hww.
    revert Hww. apply eventually_mono. intros fuel [(out & n & E & Ht) (out' & n' & E' & Ht')]. unfold reply. rewrite E, E'.
    cbn. by rewrite Ht, Ht'.
  - revert Hw. apply eventually_mono. intros fuel (out & n & E & Ht). unfold reply. rewrite E. cbn [mbind outcome_bind].
    destruct (Z.eqb_spec type 1), (Z.eqb_spec type 5); tauto.
Qed.

Lemma skip_questions_eventually p n e :
  questions_at pkt p n e -> eventually (fun fuel => skip_questions n fuel pkt (Z.of_nat p) = Done (Z.of_nat e)).
Proof.
  induction 1 as [p|p size ls n e H Hq IH]; [by apply eventually_always|].
  pose proof (dname_bound _ _ _ _ H) as [? ?].
  eapply eventually_mono, (eventually_and _ _ (namesize_eventually p size ls H) IH). intros fuel [E1 E2].
  cbn [skip_questions]. rewrite E1. cbn [mbind outcome_bind]. unfold sizeof_question.
  rewrite (u32_small (Z.of_nat p + _)), u32_small by lia. rewrite <- E2. f_equal. lia.
Qed.

Lemma read_answers_eventually p ans :
  answers_at pkt p ans ->
  eventually (fun fuel => read_answers stack0 (length ans) fuel pkt (Z.of_nat p) = Done (ans ≫= told)).
Proof.
  induction 1 as [p|p size ls type len r rest H Hty Hlen Hr Ha IH]; [by apply eventually_always|].
  pose proof (dname_bound _ _ _ _ H) as [? ?]. pose proof (net_load16_bound _ _ _ Hlen) as [? ?].
  eapply eventually_mono, (eventually_and _ _ (namesize_eventually p size ls H)
    (eventually_and _ _ (reply_eventually p size ls (p + size + 10) type r H Hr) IH)).
  intros fuel (E1 & E2 & E3). cbn [read_answers length]. rewrite E1. cbn [mbind outcome_bind]. unfold sizeof_answer.
  rewrite (u32_small (Z.of_nat p + _)), (u32_small (_ + 10)) by lia.
  replace (Z.of_nat p + Z.of_nat size) with (Z.of_nat (p + size)) by lia.
  rewrite Hlen, Hty. cbn [acc from_option mbind outcome_bind].
  replace (Z.of_nat (p + size) + 10) with (Z.of_nat (p + size + 10)) by lia. rewrite E2. cbn [mbind outcome_bind].
  rewrite u32_small by lia.
  replace (Z.of_nat (p + size + 10) + len) with (Z.of_nat (p + size + 10 + Z.to_nat len)) by lia. by rewrite E3.
Qed.
End Response.

(** C24. A response whose bytes mean, by RFC 1035, the given questions and
    answers, with names plain or compressed by pointers this code can read: the
    client returns, and tells exactly the address and the alias answers, in
    order, each name cut at 256 characters. *)
Theorem dns_response_read stack0 pkt nq e ans :
  (length pkt <= 4096)%nat -> length stack0 = 256%nat ->
  net_load16 pkt 4 = Some (Z.of_nat nq) -> net_load16 pkt 6 = Some (Z.of_nat (length ans)) ->
  questions_at pkt 12 nq e -> answers_at pkt e ans ->
  eventually (fun fuel => read_response stack0 fuel pkt = Done (ans ≫= told)).
Proof.
  intros Hp Hs H4 H6 Hq Ha.
  eapply eventually_mono, (eventually_and _ _ (skip_questions_eventually pkt Hp stack0 Hs 12 nq e Hq)
    (read_answers_eventually pkt Hp stack0 Hs e ans Ha)).
  intros fuel [E1 E2]. unfold read_response. rewrite H4, H6. cbn [acc from_option mbind outcome_bind].
  rewrite !Nat2Z.id. change sizeof_header with (Z.of_nat 12). rewrite E1. cbn [mbind outcome_bind]. exact E2.
Qed.

(** A response with the question [a.bc] and two answers that point to it: the
    alias [d.a.bc], itself compressed, and an address. *)
Definition sample_response : list Z :=
  [0; 1; 0x81; 0x80; 0; 1; 0; 2; 0; 0; 0; 0] ++ [1; 97; 2; 98; 99; 0] ++ [0; 1; 0; 1] ++
  [0xC0; 12] ++ [0; 5; 0; 1; 0; 0; 0; 9; 0; 4] ++ [1; 100; 0xC0; 12] ++
  [0xC0; 34] ++ [0; 1; 0; 1; 0; 0; 0; 9; 0; 4] ++ [10; 0; 5; 1].

Lemma dns_response_read_witness :
  eventually (fun fuel => read_response (replicate 256 7) fuel sample_response =
    Done [Alias [97; 46; 98; 99] [100; 46; 97; 46; 98; 99]; Address [100; 46; 97; 46; 98; 99] 10 0 5 1]).
Proof.
  assert (dname sample_response 12 6 [[97]; [98; 99]]) as Hq.
  { apply (encode_dname [[97]; [98; 99]] sample_response 12); [|done].
    by repeat (apply Forall_cons; split; [unfold label_ok; cbn; lia|]). }
  assert (dname sample_response 34 4 [[100]; [97]; [98; 99]]) as Ha.
  { apply (dname_label sample_response 34 [100] 2 [[97]; [98; 99]]); [split; [unfold label_ok; cbn; lia|done]|].
    by apply (dname_pointer _ 36 0xC0 12 6). }
  apply (dns_response_read (replicate 256 7) sample_response 1 22
    [([[97]; [98; 99]], RAlias [[100]; [97]; [98; 99]]); ([[100]; [97]; [98; 99]], RAddress 10 0 5 1)]);
    [cbn; lia|done|done|done|..].
  - apply (questions_more _ 12 6 [[97]; [98; 99]]); [done|]. constructor.
  - apply (answers_more _ 22 2 [[97]; [98; 99]] 5 4); [by apply (dname_pointer _ 22 0xC0 12 6)|done|done| |].
    { split; [done|]. by exists 4%nat. }
    apply (answers_more _ 38 2 _ 1 4); [by apply (dname_pointer _ 38 0xC0 34 4)|done|done|done|]. constructor.
Defined.

(** ** The query *)

Definition header_bytes : list Z := [0; 1; 1; 0; 0; 1; 0; 0; 0; 0; 0; 0].
Definition question_bytes : list Z := [0; 1; 0; 1].

Lemma buildrequest_spec buffer ls rest :
  length buffer = 4096%nat -> domain_ok ls -> (16 + length (encode ls) <= 4096)%nat ->
  Z.of_nat (length (text ls)) < max32 ->
  buildrequest buffer 4096 (text ls ++ 0 :: rest) =
    Some (header_bytes ++ encode ls ++ question_bytes ++ drop (16 + length (encode ls)) buffer,
          16 + Z.of_nat (length (encode ls))).
Proof.
  intros Hb Hd Hfit Ht. unfold buildrequest.
  change query_header with (Some header_bytes). change query_question with (Some question_bytes). cbn [mbind option_bind].
  rewrite buffer_write_spec by (unfold max32, sizeof_header; cbn [length header_bytes]; lia).
  change (room 4096 sizeof_header 0) with 12. cbn [mbind option_bind]. change (u32 (0 + 12)) with 12.
  change (Z.to_nat 0) with 0%nat. rewrite (take_ge header_bytes) by (vm_compute; lia). rewrite splice_0. change (length header_bytes) with 12%nat.
  change (Z.to_nat 12) with (length header_bytes). rewrite drop_app_length, take_app_length.
  change (u32 (4096 - 12)) with (Z.of_nat 4084).
  rewrite dns_copyname_spec by (rewrite ?length_drop; unfold max32 in *; cbn [length header_bytes]; lia || done).
  cbn [mbind option_bind]. rewrite splice_0, drop_drop. rewrite u32_small by (cbn [length header_bytes]; lia).
  set (n := length (encode ls)) in *.
  rewrite buffer_write_spec by
    (rewrite ?length_app, ?length_drop; unfold max32, sizeof_question; cbn [length header_bytes question_bytes]; lia).
  unfold room, sizeof_question. destruct (Z.leb_spec 4096 (12 + Z.of_nat n)); [lia|].
  rewrite Z.min_l by lia. cbn [mbind option_bind]. rewrite (take_ge question_bytes) by (vm_compute; lia).
  rewrite u32_small by lia. f_equal. f_equal; [|lia].
  replace (Z.to_nat (12 + Z.of_nat n)) with (length (header_bytes ++ encode ls)) by (rewrite length_app; cbn; lia).
  rewrite app_assoc. unfold splice. rewrite take_app_length, <- (drop_drop (_ ++ _)), drop_app_length, !drop_drop.
  rewrite <- app_assoc. do 4 f_equal. change (length question_bytes) with 4%nat. change (length header_bytes) with 12%nat. lia.
Qed.

(** The query for a domain name of one or more labels of 1 to 63 characters
    that fits in the buffer: its bytes are the header, the name and one
    question, and the name read back from it, as a responder or as this client
    reads names, is the domain name that was asked for. *)
Theorem dns_query_roundtrip stack0 buffer ls rest :
  length buffer = 4096%nat -> length stack0 = 256%nat -> domain_ok ls ->
  (16 + length (encode ls) <= 4096)%nat -> (length (text ls) <= 256)%nat ->
  exists query n, buildrequest buffer 4096 (text ls ++ 0 :: rest) = Some (query, n) /\
    dname query 12 (length (encode ls)) ls /\ questions_at query 12 1 (Z.to_nat n) /\
    eventually (fun fuel => exists out,
      dns_writename fuel stack0 256 query 12 0 = Done (out, Z.of_nat (length (text ls))) /\
      take (length (text ls)) out = text ls).
Proof.
  intros Hb Hs Hd Hfit Ht. rewrite buildrequest_spec by (unfold max32; done || lia). set (n := length (encode ls)) in *.
  do 2 eexists. split; [done|]. set (query := header_bytes ++ _).
  assert (length query = 4096%nat) as Hlq.
  { unfold query. rewrite !length_app, length_drop. change (length header_bytes) with 12%nat.
    change (length question_bytes) with 4%nat. lia. }
  assert (dname query 12 n ls) as Hn.
  { apply encode_dname; [eapply Forall_impl; [apply Hd|]; by intros ? [? _]|]. unfold query, slice.
    rewrite (drop_app_length header_bytes). apply take_app_length. }
  split; [done|]. split.
  - apply (questions_more _ 12 n ls); [done|]. replace (Z.to_nat _) with (12 + n + 4)%nat by lia. constructor.
  - destruct (writename_dname query ltac:(unfold max32; lia) 256 ltac:(unfold max32; lia) 12 n ls Hn) as [k Hk].
    exists k. intros fuel Hf. exists (put 256 stack0 0 (text ls)). unfold dns_writename.
    assert (put_off 256 0 (text ls) = length (text ls)) as Hoff by (unfold put_off; lia).
    pose proof (Hk fuel stack0 12 0 0%nat Hf ltac:(lia) ltac:(lia) ltac:(lia) ltac:(lia) ltac:(lia)) as E0.
    rewrite Hoff in E0. split; [exact E0|]. rewrite <- Hoff, take_put by lia. by apply take_ge.
Qed.

(** [fs.io] *)
Lemma dns_query_roundtrip_witness :
  exists query n, buildrequest (replicate 4096 7) 4096 [102; 115; 46; 105; 111; 0] = Some (query, n) /\
    dname query 12 7 [[102; 115]; [105; 111]].
Proof.
  destruct (dns_query_roundtrip (replicate 256 9) (replicate 4096 7) [[102; 115]; [105; 111]] [])
    as (query & n & E & H & _); [done|done| |cbn; lia|cbn; lia|].
  - split; [done|]. repeat (apply Forall_cons; split; [split; [unfold label_ok; cbn; lia|by repeat constructor]|]).
    by apply Forall_nil.
  - exists query, n. split; [exact E|exact H].
Defined.

(** A compression pointer to itself, which any responder can send, keeps
    the client in the loop for ever: no fuel is enough. *)
Theorem dns_pointer_loop_hangs pkt out count hi lo :
  let p := 256 * (hi - 0xC0) + lo in
  readable hi lo -> Z.of_nat (length pkt) <= max32 -> rd pkt p = Some hi -> rd pkt (p + 1) = Some lo ->
  forall fuel, dns_writename fuel out count pkt p 0 = More.
Proof.
  intros p Hr Hl Hhi Hlo fuel. unfold dns_writename. pose proof (rd_lt _ _ _ Hlo) as Hb. unfold max32 in *.
  destruct (pointer_bytes hi lo Hr) as (H0 & HC & HE). fold p in HE. destruct Hr as (Hr1 & Hr2 & _).
  assert (0 <= p) by lia. induction fuel as [|fuel IH]; [done|]. cbn [writename_loop].
  rewrite Z.add_0_r, (u32_small p), Hhi by lia. cbn [acc from_option mbind outcome_bind]. rewrite H0, HC.
  change (u32 (0 + 1)) with 1. rewrite (u32_small (p + 1)), Hlo by lia. cbn [acc from_option mbind outcome_bind].
  rewrite HE, Z.add_0_l, (u32_small p) by lia. exact IH.
Qed.

Lemma dns_pointer_loop_hangs_witness :
  dns_writename 1000 (replicate 256 0) 256 (replicate 12 0 ++ [0xC0; 12]) 12 0 = More.
Proof.
  apply (dns_pointer_loop_hangs (replicate 12 0 ++ [0xC0; 12]) (replicate 256 0) 256 0xC0 12);
    [by vm_compute|by vm_compute|done|done].
Defined.

(** The offset of a pointer whose second byte is above 127. *)
Lemma pointer_negative x lo : 128 <= lo < 256 -> Z.lor (Z.shiftl x 8) (s8 lo) = lo - 256.
Proof.
  intros Hlo. replace (s8 lo) with (lo - 256) by zwrap. apply Z.bits_inj'. intros n Hn. rewrite Z.lor_spec.
  destruct (Z.lt_ge_cases n 8).
  - by rewrite Z.shiftl_spec_low by lia.
  - replace (Z.testbit (lo - 256) n) with true; [apply orb_true_r|]. replace n with (n - 8 + 8) by lia.
    rewrite <- Z.shiftr_spec by lia. rewrite Z.shiftr_div_pow2 by lia.
    replace ((lo - 256) / 2 ^ 8) with (-1) by (change (2 ^ 8) with 256; zmod). by rewrite Z.bits_m1 by lia.
Qed.

(** A pointer whose second byte is above 127, as every second half of a
    256-byte block has: the byte is a negative [char], and the name is looked
    for in front of the packet. *)
Lemma dns_pointer_sign_lost fuel out count pkt p hi lo :
  Z.of_nat (length pkt) <= 65536 -> 0xC0 <= hi < 0x100 -> 128 <= lo < 256 ->
  rd pkt p = Some hi -> rd pkt (p + 1) = Some lo ->
  dns_writename (S (S fuel)) out count pkt p 0 = Fault.
Proof.
  intros Hl Hhi Hlo H0 H1. pose proof (rd_lt _ _ _ H0). pose proof (rd_lt _ _ _ H1).
  unfold dns_writename. cbn [writename_loop]. rewrite Z.add_0_r, (u32_small p), H0 by lia. cbn [acc from_option mbind outcome_bind].
  destruct (Z.eqb_spec hi 0); [lia|].
  rewrite pointer_first by done.
  change (u32 (0 + 1)) with 1. rewrite (u32_small (p + 1)), H1 by lia. cbn [acc from_option mbind outcome_bind].
  rewrite pointer_negative by done. assert (u32 (lo - 256) = lo + 4294967040) as Hu by (clear -Hlo; zwrap).
  rewrite Z.add_0_l, Z.add_0_r, u32_idem, Hu, (rd_None pkt (lo + 4294967040)) by lia. done.
Qed.

(** A pointer to offset 0x1000: its bit 12 is masked out. *)
Example pointer_bit_masked : Z.lor (Z.shiftl (Z.land (s8 0xD0) 0x2F) 8) (s8 0) = 0.
Proof. done. Qed.

(** The default domain, the empty string, is sent with a second nul before the
    question. *)
Example empty_domain_query :
  (fun '(q, n) => (take (Z.to_nat n) q, n)) <$> buildrequest (replicate 64 7) 64 [0] =
    Some (header_bytes ++ [0; 0] ++ question_bytes, 18).
Proof. vm_compute. reflexivity. Qed.
