(* ===== verification/Mtwist.v ===== *)
(** * Pseudo-random numbers and time stamps (src/libz/fudge/mtwist.c, time.c)

    The Mersenne Twister of the programs that need a port number or an identifier,
    and the time stamp that seeds it.  [refresh] works in place, backwards over
    the array and two words at a time; [None] is an access outside the array.

    [mtwist_outputs] relates it to the recurrence that defines MT19937: the 624
    numbers after seeding are the tempered members of that sequence, and the
    625th call reads in front of the array. *)
From S2P Require Import Prelude.

Local Open Scope Z_scope.

Definition MTWIST_VECTORS : Z := 624.
Definition MTWIST_RECURRENCE : Z := 397.

Definition combine_bits (x y : Z) : Z := Z.lor (Z.land x 0x80000000) (Z.land y 0x7FFFFFFF).

(** [decider[y & 1]] *)
Definition decider (y : Z) : Z := if Z.odd y then 0x9908B0DF else 0.

Definition matrix_multiply (x y : Z) : Z := Z.lxor (Z.lxor x (Z.shiftr y 1)) (decider y).

Record mtwist_state := Mtwist { vectors : list Z; current : Z }.

(** The body of the first loop: the array, [current], [value1]. *)
Definition refresh_low (s : list Z * Z * Z) : option (list Z * Z * Z) :=
  let '(v, cur, value1) := s in
  let cur := cur - 2 in
  value2 ← rd v (cur + 1);
  let value1 := combine_bits value1 value2 in
  x ← rd v (cur - MTWIST_RECURRENCE + 2);
  v ← wr v (cur + 2) (matrix_multiply x value1);
  value1 ← rd v cur;
  let value2 := combine_bits value2 value1 in
  x ← rd v (cur - MTWIST_RECURRENCE + 1);
  v ← wr v (cur + 1) (matrix_multiply x value2);
  Some (v, cur, value1).

(** The body of the second loop, with [value1] and [value2] exchanged. *)
Definition refresh_high (s : list Z * Z * Z) : option (list Z * Z * Z) :=
  let '(v, cur, value2) := s in
  let cur := cur - 2 in
  value1 ← rd v (cur + 1);
  let value2 := combine_bits value2 value1 in
  x ← rd v (cur + (MTWIST_VECTORS - MTWIST_RECURRENCE + 2));
  v ← wr v (cur + 2) (matrix_multiply x value2);
  value2 ← rd v cur;
  let value1 := combine_bits value1 value2 in
  x ← rd v (cur + (MTWIST_VECTORS - MTWIST_RECURRENCE + 1));
  v ← wr v (cur + 1) (matrix_multiply x value1);
  Some (v, cur, value2).

Fixpoint turns (n : nat) (body : list Z * Z * Z -> option (list Z * Z * Z)) (s : list Z * Z * Z) :=
  match n with O => Some s | S n => s ← body s; turns n body s end.

Definition refresh (st : mtwist_state) : option mtwist_state :=
  let v := vectors st in
  value1 ← rd v (MTWIST_VECTORS - 1);
  '(v, cur, value1) ← turns (Z.to_nat ((MTWIST_VECTORS - MTWIST_RECURRENCE) / 2)) refresh_low
    (v, MTWIST_VECTORS - 1, value1);
  let cur := cur - 1 in
  value2 ← rd v cur;
  let value1 := combine_bits value1 value2 in
  x ← rd v (cur - MTWIST_RECURRENCE + 1);
  v ← wr v (cur + 1) (matrix_multiply x value1);
  '(v, cur, value2) ← turns (Z.to_nat ((MTWIST_RECURRENCE - 1) / 2)) refresh_high (v, cur, value2);
  top ← rd v (MTWIST_VECTORS - 1);
  let value1 := combine_bits value2 top in
  x ← rd v (cur + (MTWIST_VECTORS - MTWIST_RECURRENCE));
  v ← wr v cur (matrix_multiply x value1);
  Some (Mtwist v MTWIST_VECTORS).

(** The loop [for (i = MTWIST_VECTORS - 2; i >= 0; i--)], [n] is [i + 1]. *)
Fixpoint seed_loop (n : nat) (f : Z -> Z -> Z) (v : list Z) : option (list Z) :=
  match n with
  | O => Some v
  | S i =>
      x ← rd v (Z.of_nat i + 1);
      v ← wr v (Z.of_nat i) (f x (Z.of_nat i));
      seed_loop i f v
  end.

Definition next1 (x i : Z) : Z := Z.land (u32 (69069 * x)) 0xFFFFFFFF.

Definition next2 (x i : Z) : Z :=
  let nextval := Z.shiftr x 30 in
  let nextval := Z.lxor nextval x in
  let nextval := u32 (nextval * 1812433253) in
  let nextval := u32 (nextval + ((MTWIST_VECTORS - 1) - i)) in
  Z.land nextval 0xFFFFFFFF.

Definition mtwist_seed (f : Z -> Z -> Z) (st : mtwist_state) (seed : Z) : option mtwist_state :=
  v ← wr (vectors st) (MTWIST_VECTORS - 1) (Z.land seed 0xFFFFFFFF);
  v ← seed_loop 623 f v;
  refresh (Mtwist v MTWIST_VECTORS).

Definition mtwist_seed1 := mtwist_seed next1.
Definition mtwist_seed2 := mtwist_seed next2.

Definition temper (value : Z) : Z :=
  let value := Z.lxor value (Z.shiftr value 11) in
  let value := Z.lxor value (Z.land (u32 (Z.shiftl value 7)) 0x9D2C5680) in
  let value := Z.lxor value (Z.land (u32 (Z.shiftl value 15)) 0xEFC60000) in
  Z.lxor value (Z.shiftr value 18).

Definition mtwist_rand (st : mtwist_state) : option (mtwist_state * Z) :=
  let cur := current st - 1 in
  value ← rd (vectors st) cur;
  Some (Mtwist (vectors st) cur, temper value).

(** ** The defining sequence *)

Definition twist (a b c : Z) : Z := matrix_multiply c (combine_bits a b).

(** The next window of 624 members. *)
Definition shift (w : list Z) : list Z := tail w ++ [twist (w !!! 0%nat) (w !!! 1%nat) (w !!! 397%nat)].

(** Member [k] of the sequence that starts with the window [w]. *)
Definition mt (w : list Z) (k : nat) : Z := Nat.iter k shift w !!! 0%nat.

Lemma length_shift w : (0 < length w)%nat -> length (shift w) = length w.
Proof. intros H. unfold shift. rewrite length_app. destruct w; cbn in *; lia. Qed.

Lemma length_window w k : length w = 624%nat -> length (Nat.iter k shift w) = 624%nat.
Proof.
  intros H. induction k as [|k IH]; [done|].
  change (Nat.iter (S k) shift w) with (shift (Nat.iter k shift w)). rewrite length_shift; lia.
Qed.

Lemma window_lookup w i : forall k,
  length w = 624%nat -> (i < 624)%nat -> Nat.iter k shift w !!! i = mt w (k + i).
Proof.
  induction i as [|i IH]; intros k Hw Hi; [by rewrite Nat.add_0_r|].
  replace (k + S i)%nat with (S k + i)%nat by lia. rewrite <- IH by (done || lia).
  change (Nat.iter (S k) shift w) with (shift (Nat.iter k shift w)).
  pose proof (length_window w k Hw) as Hl. destruct (Nat.iter k shift w) as [|y ys]; [done|].
  unfold shift. cbn [tail]. cbn in Hl. rewrite lookup_total_app_l by lia. done.
Qed.

Lemma mt_recurrence w k :
  length w = 624%nat -> mt w (k + 624) = twist (mt w k) (mt w (S k)) (mt w (k + 397)).
Proof.
  intros Hw. replace (k + 624)%nat with (S k + 623)%nat by lia. rewrite <- window_lookup by (done || lia).
  change (Nat.iter (S k) shift w) with (shift (Nat.iter k shift w)). pose proof (length_window w k Hw) as Hl.
  replace (S k) with (k + 1)%nat by lia. rewrite <- (Nat.add_0_r k) at 2.
  rewrite <- !window_lookup by (done || lia). unfold shift at 1.
  rewrite lookup_total_app_r by (destruct (Nat.iter k shift w); cbn in *; lia).
  replace (623 - length (tail (Nat.iter k shift w)))%nat with 0%nat by (destruct (Nat.iter k shift w); cbn in *; lia). done.
Qed.

Lemma mt_start w k : length w = 624%nat -> (k < 624)%nat -> mt w k = w !!! k.
Proof. intros Hw Hk. symmetry. exact (window_lookup w k 0 Hw Hk). Qed.

(** ** The array during [refresh] *)

Section Refresh.
Context (x : nat -> Z) (Hx : forall k, x (k + 624)%nat = twist (x k) (x (S k)) (x (k + 397)%nat)).

(** The first [t] members, from the end of the array, are replaced. *)
Definition holds (v : list Z) (t : nat) : Prop :=
  length v = 624%nat /\
  forall j, (j < 624)%nat -> v !! j = Some (x (if decide (623 - j < t)%nat then 1247 - j else 623 - j)).

Lemma holds_old v t k i : holds v t -> (t <= k < 624)%nat -> i = 623 - Z.of_nat k -> rd v i = Some (x k).
Proof.
  intros [Hl H] Hk ->. replace (623 - Z.of_nat k) with (Z.of_nat (623 - k)) by lia.
  rewrite rd_nat, H by lia. rewrite decide_False by lia. do 2 f_equal. lia.
Qed.

Lemma holds_new v t k i : holds v t -> (624 <= k < 624 + t)%nat -> (t <= 624)%nat -> i = 1247 - Z.of_nat k -> rd v i = Some (x k).
Proof.
  intros [Hl H] Hk Ht ->. replace (1247 - Z.of_nat k) with (Z.of_nat (1247 - k)) by lia.
  rewrite rd_nat, H by lia. rewrite decide_True by lia. do 2 f_equal. lia.
Qed.

Lemma holds_store v t i :
  holds v t -> (t < 624)%nat -> i = 623 - Z.of_nat t ->
  exists v', wr v i (matrix_multiply (x (t + 397)%nat) (combine_bits (x t) (x (S t)))) = Some v' /\ holds v' (S t).
Proof.
  intros [Hl H] Ht ->. change (matrix_multiply _ _) with (twist (x t) (x (S t)) (x (t + 397)%nat)). rewrite <- Hx.
  rewrite wr_Some by lia. eexists. split; [done|]. split; [by rewrite length_insert|]. intros j Hj.
  destruct (decide (j = 623 - t)%nat) as [->|Hne].
  - replace (Z.to_nat (623 - Z.of_nat t)) with (623 - t)%nat by lia. rewrite list_lookup_insert_eq by lia.
    rewrite decide_True by lia. do 2 f_equal. lia.
  - rewrite list_lookup_insert_ne, H by lia. repeat case_decide; lia || done.
Qed.

(** Reads a member that is still there, one that is already replaced, and
    stores the next one. *)
Ltac member L H k :=
  match type of H with holds ?v _ =>
    match goal with |- context [mbind _ (rd v ?i)] => rewrite (L _ _ k i H) by lia end
  end; cbn [mbind option_bind].
Ltac old H k := member holds_old H k.
Ltac new H k := member holds_new H k.
Ltac store H v' H' :=
  match type of H with holds ?v ?t =>
    match goal with |- context [wr v ?i _] => destruct (holds_store v t i H) as (v' & -> & H'); [lia|lia|] end
  end; cbn [mbind option_bind].

Lemma refresh_low_step v t cur :
  holds v t -> (t < 226)%nat -> cur = 623 - Z.of_nat t ->
  exists v', refresh_low (v, cur, x t) = Some (v', cur - 2, x (S (S t))) /\ holds v' (S (S t)).
Proof.
  intros H Ht ->. unfold refresh_low, MTWIST_RECURRENCE. old H (S t). old H (t + 397)%nat. store H v1 H1.
  old H1 (S (S t)). old H1 (S t + 397)%nat. store H1 v2 H2. by exists v2.
Qed.

Lemma refresh_high_step v t cur :
  holds v t -> (227 <= t < 622)%nat -> cur = 623 - Z.of_nat t ->
  exists v', refresh_high (v, cur, x t) = Some (v', cur - 2, x (S (S t))) /\ holds v' (S (S t)).
Proof.
  intros H Ht ->. unfold refresh_high, MTWIST_RECURRENCE, MTWIST_VECTORS. old H (S t). new H (t + 397)%nat.
  store H v1 H1. old H1 (S (S t)). new H1 (S t + 397)%nat. store H1 v2 H2. by exists v2.
Qed.

(** A loop whose turns replace two members each. *)
Lemma turns_two body lo hi :
  (forall v t cur, holds v t -> (lo <= t < hi)%nat -> cur = 623 - Z.of_nat t ->
    exists v', body (v, cur, x t) = Some (v', cur - 2, x (S (S t))) /\ holds v' (S (S t))) ->
  forall n v t cur, holds v t -> (lo <= t)%nat -> (t + 2 * n <= S hi)%nat -> cur = 623 - Z.of_nat t ->
    exists v', turns n body (v, cur, x t) = Some (v', cur - 2 * Z.of_nat n, x (t + 2 * n)%nat) /\ holds v' (t + 2 * n).
Proof.
  intros Hbody n. induction n as [|n IH]; intros v t cur H Hlo Hhi Hcur; cbn [turns].
  - exists v. rewrite Nat.mul_0_r, Nat.add_0_r. split; [|done]. do 3 f_equal. lia.
  - destruct (Hbody v t cur H) as (v1 & -> & H1); [lia|done|]. cbn [mbind option_bind].
    destruct (IH v1 (S (S t)) (cur - 2) H1) as (v2 & -> & H2); [lia|lia|lia|]. exists v2.
    replace (t + 2 * S n)%nat with (S (S t) + 2 * n)%nat by lia. split; [|done]. do 3 f_equal. lia.
Qed.

Lemma refresh_replaces v cur :
  holds v 0 -> exists v', refresh (Mtwist v cur) = Some (Mtwist v' 624) /\ holds v' 624.
Proof.
  intros H. unfold refresh, MTWIST_VECTORS, MTWIST_RECURRENCE. cbn [vectors]. old H 0%nat.
  change (Z.to_nat ((624 - 397) / 2)) with 113%nat. change (Z.to_nat ((397 - 1) / 2)) with 198%nat.
  destruct (turns_two refresh_low 0 226) with (n := 113%nat) (v := v) (t := 0%nat) (cur := 624 - 1)
    as (v1 & E1 & H1); [intros; by apply refresh_low_step; [..|lia|]|done|lia|lia|lia|].
  rewrite E1. clear E1. cbn [mbind option_bind]. change (0 + 2 * 113)%nat with 226%nat in *.
  old H1 227%nat. old H1 (226 + 397)%nat. store H1 v2 H2.
  destruct (turns_two refresh_high 227 622) with (n := 198%nat) (v := v2) (t := 227%nat) (cur := 624 - 1 - 2 * Z.of_nat 113 - 1)
    as (v3 & E3 & H3); [intros; by apply refresh_high_step|done|lia|lia|lia|].
  rewrite E3. clear E3. cbn [mbind option_bind]. change (227 + 2 * 198)%nat with 623%nat in *.
  new H3 624%nat. new H3 (623 + 397)%nat. store H3 v4 H4. by exists v4.
Qed.
End Refresh.

(** ** Seeding *)

(** The seed and the numbers made from it, in the order they are made. *)
Fixpoint seeds (f : Z -> Z -> Z) (seed : Z) (k : nat) : Z :=
  match k with O => Z.land seed 0xFFFFFFFF | S k => f (seeds f seed k) (622 - Z.of_nat k) end.

Definition seed_window (f : Z -> Z -> Z) (seed : Z) : list Z := seeds f seed <$> seq 0 624.

Lemma seed_window_lookup f seed k : (k < 624)%nat -> seed_window f seed !!! k = seeds f seed k.
Proof.
  intros Hk. apply list_lookup_total_correct. unfold seed_window. rewrite list_lookup_fmap, lookup_seq_lt by done. done.
Qed.

Lemma seed_loop_spec f seed n : forall v,
  (n <= 623)%nat -> length v = 624%nat -> (forall j, (n <= j < 624)%nat -> v !! j = Some (seeds f seed (623 - j))) ->
  exists v', seed_loop n f v = Some v' /\ length v' = 624%nat /\
    forall j, (j < 624)%nat -> v' !! j = Some (seeds f seed (623 - j)).
Proof.
  induction n as [|i IH]; intros v Hn Hl H; cbn [seed_loop].
  - exists v. split; [done|]. split; [done|]. intros j Hj. apply H. lia.
  - replace (Z.of_nat i + 1) with (Z.of_nat (S i)) by lia. rewrite rd_nat, H by lia. cbn [mbind option_bind].
    rewrite wr_Some, Nat2Z.id by lia. cbn [mbind option_bind]. apply IH; [lia|by rewrite length_insert|].
    intros j Hj. destruct (decide (j = i)) as [->|].
    + rewrite list_lookup_insert_eq by lia. f_equal. replace (623 - i)%nat with (S (623 - S i)) by lia.
      cbn [seeds]. f_equal. lia.
    + rewrite list_lookup_insert_ne by lia. apply H. lia.
Qed.

Lemma mtwist_seed_spec f st seed :
  length (vectors st) = 624%nat ->
  exists v, mtwist_seed f st seed = Some (Mtwist v 624) /\ length v = 624%nat /\
    forall j, (j < 624)%nat -> v !! j = Some (mt (seed_window f seed) (1247 - j)).
Proof.
  intros Hl. unfold mtwist_seed, MTWIST_VECTORS. rewrite wr_Some by lia. cbn [mbind option_bind].
  change (Z.to_nat (624 - 1)) with 623%nat.
  destruct (seed_loop_spec f seed 623 (<[623%nat := Z.land seed 0xFFFFFFFF]> (vectors st))) as (v & -> & Hlv & Hv);
    [lia|by rewrite length_insert| |].
  { intros j Hj. replace j with 623%nat by lia. rewrite list_lookup_insert_eq by lia. done. }
  cbn [mbind option_bind]. assert (length (seed_window f seed) = 624%nat) as Hw by (unfold seed_window; by rewrite length_fmap, length_seq).
  destruct (refresh_replaces (mt (seed_window f seed)) (fun k => mt_recurrence _ k Hw) v 624) as (v' & -> & Hl' & Hv').
  - split; [done|]. intros j Hj. rewrite Hv by done. rewrite decide_False by lia.
    rewrite mt_start, seed_window_lookup by (done || lia). done.
  - exists v'. split; [done|]. split; [done|]. intros j Hj. rewrite Hv' by done. by rewrite decide_True by lia.
Qed.

(** The results of [n] calls of [mtwist_rand]. *)
Fixpoint rands (n : nat) (st : mtwist_state) : option (mtwist_state * list Z) :=
  match n with
  | O => Some (st, [])
  | S n =>
      '(st, value) ← mtwist_rand st;
      '(st, values) ← rands n st;
      Some (st, value :: values)
  end.

Lemma rands_spec x v n : forall m,
  length v = 624%nat -> (forall j, (j < 624)%nat -> v !! j = Some (x (1247 - j)%nat)) -> (n <= m <= 624)%nat ->
  rands n (Mtwist v (Z.of_nat m)) =
    Some (Mtwist v (Z.of_nat (m - n)), (fun k => temper (x (1248 - m + k)%nat)) <$> seq 0 n).
Proof.
  induction n as [|n IH]; intros m Hl Hv Hm; cbn [rands].
  - by rewrite Nat.sub_0_r.
  - unfold mtwist_rand. cbn [current vectors]. replace (Z.of_nat m - 1) with (Z.of_nat (m - 1)) by lia.
    rewrite rd_nat, Hv by lia. cbn [mbind option_bind]. rewrite IH by (done || lia). cbn [mbind option_bind].
    replace (m - 1 - n)%nat with (m - S n)%nat by lia. do 2 f_equal. cbn [seq fmap list_fmap]. f_equal.
    + do 2 f_equal. lia.
    + rewrite <- fmap_S_seq, <- list_fmap_compose. apply list_fmap_ext. intros i k Hk. cbn. do 2 f_equal. lia.
Qed.

(** C25. After seeding by either function, the first [n] calls of [mtwist_rand],
    up to 624, return the tempered members 624, 625, ... of the sequence
    [x(k + 624) = x(k + 397) ^ twisted(x(k), x(k + 1))] that starts with the
    seeds; the 625th call reads outside the array. *)
Theorem mtwist_outputs f st seed n :
  length (vectors st) = 624%nat -> (n <= 624)%nat ->
  exists st' st'', mtwist_seed f st seed = Some st' /\
    rands n st' = Some (st'', (fun k => temper (mt (seed_window f seed) (624 + k))) <$> seq 0 n) /\
    (n = 624%nat -> mtwist_rand st'' = None).
Proof.
  intros Hl Hn. destruct (mtwist_seed_spec f st seed Hl) as (v & E & Hlv & Hv).
  exists (Mtwist v 624), (Mtwist v (Z.of_nat (624 - n))). split; [exact E|]. split; [|by intros ->].
  exact (rands_spec (mt (seed_window f seed)) v n 624 Hlv Hv ltac:(lia)).
Qed.

(** The published first output of MT19937 for the seed 5489. *)
Lemma mtwist_outputs_witness :
  exists st', mtwist_seed2 (Mtwist (replicate 624 7) 0) 5489 = Some st' /\ snd <$> rands 1 st' = Some [3499211612].
Proof.
  destruct (mtwist_outputs next2 (Mtwist (replicate 624 7) 0) 5489 1) as (st' & st'' & E & R & _); [done|lia|].
  exists st'. split; [exact E|]. rewrite R. vm_compute. reflexivity.
Defined.

(** ** Time stamps (time.c) *)

Definition dotm365 : list Z := [0; 31; 59; 90; 120; 151; 181; 212; 243; 273; 304; 334; 365].
Definition dotm366 : list Z := [0; 31; 60; 91; 121; 152; 182; 213; 244; 274; 305; 335; 365].

Definition isleapyear (year : Z) : bool :=
  if negb (year mod 4 =? 0) then false
  else if year mod 100 =? 0 then year mod 400 =? 0
  else true.

Definition time_unixtime (year month day hours minutes seconds : Z) : option Z :=
  let syear := u32 (year - 1970) in
  let dyear := u32 (u32 (u32 (365 * syear + syear / 4) - syear / 100) + syear / 400) in
  dmonth ← rd (if isleapyear syear then dotm366 else dotm365) (u32 (month - 1));
  Some (u32 (u32 ((dyear + dmonth + day) * 86400) + u32 (hours * 3600 + minutes * 60 + seconds))).

(** *** The calendar *)

Definition days_in (year month : Z) : Z :=
  if (month =? 4) || (month =? 6) || (month =? 9) || (month =? 11) then 30
  else if month =? 2 then (if isleapyear year then 29 else 28) else 31.

Definition sum_of (f : Z -> Z) (from n : nat) : Z := foldr Z.add 0 ((fun i => f (Z.of_nat i)) <$> seq from n).

(** Days from 1970-01-01 to the first of the month. *)
Definition days_before (year month : Z) : Z :=
  sum_of (fun y => sum_of (days_in y) 1 12) 1970 (Z.to_nat (year - 1970)) +
  sum_of (days_in year) 1 (Z.to_nat (month - 1)).

Definition unix_seconds (year month day hours minutes seconds : Z) : Z :=
  (days_before year month + (day - 1)) * 86400 + hours * 3600 + minutes * 60 + seconds.

(** How many days the result is late: one, since the day of the month counts
    from 1; one less in the years after a leap year, whose leap day is missed;
    and one more or less from March on in the years taken for leap years, which
    are 1970, 1974, ..., and in the leap years. *)
Definition days_late (year month : Z) : Z :=
  let r := (year - 1970) mod 4 in
  1 - (if r =? 3 then 1 else 0) +
  (if 2 <? month then (if r =? 0 then 1 else if r =? 2 then -1 else 0) else 0).

Definition date_days (year month : Z) : option Z :=
  let s := year - 1970 in
  d ← rd (if isleapyear s then dotm366 else dotm365) (month - 1);
  Some (365 * s + s / 4 - s / 100 + s / 400 + d).

(** Every month of the hundred years, by computation. *)
Lemma date_days_table year month :
  1970 <= year < 2070 -> 1 <= month <= 12 ->
  date_days year month = Some (days_before year month - 1 + days_late year month) /\
  0 <= days_before year month < 36525.
Proof.
  intros Hy Hm.
  assert (forallb (fun y => forallb (fun m =>
    let year := 1970 + Z.of_nat y in let month := Z.of_nat m in
    bool_decide (date_days year month = Some (days_before year month - 1 + days_late year month)) &&
    (0 <=? days_before year month) && (days_before year month <? 36525)) (seq 1 12)) (seq 0 100) = true) as H
    by (vm_compute; reflexivity).
  rewrite forallb_forall in H. specialize (H (Z.to_nat (year - 1970)) ltac:(apply in_seq; lia)).
  rewrite forallb_forall in H. specialize (H (Z.to_nat month) ltac:(apply in_seq; lia)). cbn zeta in H.
  replace (1970 + Z.of_nat (Z.to_nat (year - 1970))) with year in H by lia.
  replace (Z.of_nat (Z.to_nat month)) with month in H by lia.
  apply andb_true_iff in H as [[H1 H2]%andb_true_iff H3]. split; [by apply bool_decide_eq_true in H1|lia].
Qed.

(** From 1970 to 2069, at every valid date and time, [time_unixtime] returns
    the seconds since the epoch plus [days_late] days, which is 0, 1 or 2: it is
    right only in the years after a leap year and from March on in leap
    years. *)
Theorem time_unixtime_late year month day hours minutes seconds :
  1970 <= year < 2070 -> 1 <= month <= 12 -> 1 <= day <= 31 ->
  0 <= hours < 24 -> 0 <= minutes < 60 -> 0 <= seconds < 60 ->
  time_unixtime year month day hours minutes seconds =
    Some (unix_seconds year month day hours minutes seconds + 86400 * days_late year month) /\
  0 <= days_late year month <= 2.
Proof.
  intros Hy Hm Hd Hh Hmi Hs. destruct (date_days_table year month Hy Hm) as [E Hb].
  assert (0 <= days_late year month <= 2) as Hl.
  { unfold days_late. repeat case_match; lia. }
  split; [|done]. unfold time_unixtime, date_days in *. rewrite (u32_small (year - 1970)), (u32_small (month - 1)) by lia.
  cbn zeta in *. set (s := year - 1970) in *. apply bind_Some in E as (d & -> & [= E]). cbn [mbind option_bind].
  assert (0 <= s / 4 <= 24 /\ s / 100 = 0 /\ s / 400 = 0) as (H4 & H100 & H400) by zmod.
  rewrite H100, H400 in *. rewrite (u32_small (365 * s + s / 4)) by lia. rewrite Z.sub_0_r, Z.add_0_r in *.
  rewrite !(u32_small (365 * s + s / 4)) by lia. unfold unix_seconds.
  rewrite (u32_small (_ * 86400)) by lia. rewrite (u32_small (hours * 3600 + _ + _)) by lia.
  rewrite u32_small by lia. f_equal. lia.
Qed.

(** The epoch itself is a day late, and March 1970 two. *)
Lemma time_unixtime_late_witness :
  time_unixtime 1970 1 1 0 0 0 = Some 86400 /\ time_unixtime 1973 7 4 12 0 0 = Some 110635200.
Proof.
  split.
  - exact (proj1 (time_unixtime_late 1970 1 1 0 0 0 ltac:(lia) ltac:(lia) ltac:(lia) ltac:(lia) ltac:(lia) ltac:(lia))).
  - exact (proj1 (time_unixtime_late 1973 7 4 12 0 0 ltac:(lia) ltac:(lia) ltac:(lia) ltac:(lia) ltac:(lia) ltac:(lia))).
Defined.
