(* ===== verification/Archive.v ===== *)
(** * Archives and image lines (src/kernel/drivers/tar/USTAR/ustar.c,
      src/libz/fudge/tar.c, src/libz/fudge/cpio.c, src/libz/image/pcx.c)

    An archive is one object and a pointer into it is an offset.  [tar_lookup]
    goes from header to header by the size field, so a bad field can send it
    anywhere: it runs with fuel and its result is an [outcome].

    [tar_lookup_first] is its contract on a proper archive; the functions of the
    user-space library are related to the layout of the two formats and the
    decoder of a line of an image to the runs it is made of. *)
From S2P Require Import Prelude KString Cstring.

Local Open Scope Z_scope.

(** ** Looking up a file (ustar.c) *)

(** [memcmp] of the kernel on two objects. *)
Fixpoint memcmp_objects (a b : list Z) (size : nat) : option Z :=
  match size, a, b with
  | O, _, _ => Some 0
  | S size, x :: a, y :: b => if x <? y then Some (-1) else if y <? x then Some 1 else memcmp_objects a b size
  | _, _, _ => None
  end.

Fixpoint oct2bin_loop (size : nat) (str : list Z) (n : Z) : option Z :=
  match size, str with
  | O, _ => Some n
  | S size, c :: str => oct2bin_loop size str (s32 (s32 (n * 8) + (c - 48)))
  | _, _ => None
  end.

Definition oct2bin (str : list Z) (size : nat) : option Z := oct2bin_loop size str 0.

(** ["ustar"] *)
Definition ustar : list Z := [117; 115; 116; 97; 114].

(** The returned size and [*out]. *)
Fixpoint tar_lookup (fuel : nat) (archive : list Z) (ptr : Z) (filename : list Z) : outcome (Z * option Z) :=
  match fuel with
  | O => More
  | S fuel =>
      if ptr <? 0 then Fault else
      let at_ o := drop (Z.to_nat (ptr + o)) archive in
      c ← acc (memcmp_objects (at_ 257) (ustar ++ [0]) 5);
      if negb (c =? 0) then Done (0, None)
      else
        fileSize ← acc (oct2bin (at_ 0x7c) 11);
        n ← acc (strlen filename);
        d ← acc (memcmp_objects (at_ 0) filename (Z.to_nat (n + 1)));
        if d =? 0 then Done (fileSize, Some (ptr + 512))
        else tar_lookup fuel archive (ptr + s32 ((Z.quot (s32 (fileSize + 511)) 512 + 1) * 512)) filename
  end.

(** ** The library's view of the two formats (tar.c, cpio.c) *)

Definition TAR_BLOCK_SIZE : Z := 512.

Definition tar_readvalue (attribute : list Z) : option Z :=
  n ← cstring_length attribute; cstring_read_value attribute n 8.

(** [checksum -= address[i]] for [n] bytes from [i] on. *)
Fixpoint subtract_bytes (n : nat) (header : list Z) (i : nat) (checksum : Z) : option Z :=
  match n with
  | O => Some checksum
  | S n => b ← header !! i; subtract_bytes n header (S i) (u32 (checksum - b))
  end.

Definition tar_validate (header : list Z) : option bool :=
  checksum ← tar_readvalue (drop 148 header);
  checksum ← subtract_bytes 148 header 0 checksum;
  let checksum := Nat.iter 8 (fun c => u32 (c - 32)) checksum in
  checksum ← subtract_bytes 356 header 156 checksum;
  Some (checksum =? 0).

Definition tar_next (header : list Z) (offset : Z) : option Z :=
  size ← tar_readvalue (drop 124 header);
  Some (u32 (offset + u32 ((size / TAR_BLOCK_SIZE + (if size mod TAR_BLOCK_SIZE =? 0 then 1 else 2)) * TAR_BLOCK_SIZE))).

Record cpio_header := Cpio { magic : Z; namesize : Z; filesize0 : Z; filesize1 : Z }.

Definition sizeof_cpio_header : Z := 26.

Definition cpio_validate (h : cpio_header) : bool := magic h =? 0x71C7.
Definition cpio_filedata (h : cpio_header) : Z := u32 (sizeof_cpio_header + namesize h + Z.land (namesize h) 1).
Definition cpio_filesize (h : cpio_header) : Z := u32 (Z.lor (Z.shiftl (filesize0 h) 16) (filesize1 h)).
Definition cpio_next (h : cpio_header) : Z :=
  let size := cpio_filesize h in u32 (u32 (cpio_filedata h + size) + Z.land size 1).

(** ** A line of an image (pcx.c) *)

Fixpoint repeat_loop (repeat : nat) (buffer : list Z) (oindex cur : Z) : option (list Z * Z) :=
  match repeat with
  | O => Some (buffer, oindex)
  | S repeat => buffer ← wr buffer oindex cur; repeat_loop repeat buffer (u32 (oindex + 1)) cur
  end.

Fixpoint pcx_loop (fuel : nat) (raw : list Z) (width : Z) (buffer : list Z) (rindex oindex : Z)
    : outcome (list Z * Z) :=
  match fuel with
  | O => More
  | S fuel =>
      cur ← acc (rd raw rindex);
      let rindex := u32 (rindex + 1) in
      '(repeat, cur, rindex) ←
        (if Z.land cur 0xC0 =? 0xC0 then
           next ← acc (rd raw rindex); Done (Z.land cur 0x3F, next, u32 (rindex + 1))
         else Done (1, cur, rindex));
      '(buffer, oindex) ← acc (repeat_loop (Z.to_nat repeat) buffer oindex cur);
      if oindex <? width then pcx_loop fuel raw width buffer rindex oindex else Done (buffer, rindex)
  end.

(** The buffer after the call and the bytes of [raw] that were used. *)
Definition pcx_readline (fuel : nat) (raw : list Z) (width : Z) (buffer : list Z) : outcome (list Z * Z) :=
  pcx_loop fuel raw width buffer 0 0.

(** ** A proper archive *)

Definition oct_value (n : Z) (ds : list Z) : Z := foldl (fun n d => n * 8 + (d - 48)) n ds.

Record entry := Entry { e_name : list Z; e_header : list Z; e_data : list Z; e_pad : list Z }.

(** The header holds the name with its nul, the size as 11 octal digits and the
    magic; the data is padded to whole blocks. *)
Definition entry_ok (e : entry) : Prop :=
  Forall (fun c => c <> 0) (e_name e) /\ (exists rest, e_header e = e_name e ++ 0 :: rest) /\
  length (e_header e) = 512%nat /\
  (exists ds, slice (e_header e) 124 11 = ds /\ Forall (fun d => 48 <= d < 56) ds /\
    oct_value 0 ds = Z.of_nat (length (e_data e))) /\
  slice (e_header e) 257 5 = ustar /\
  Z.of_nat (length (e_data e)) < 2147482624 /\
  Z.of_nat (length (e_data e) + length (e_pad e)) = (Z.of_nat (length (e_data e)) + 511) / 512 * 512.

Definition entry_bytes (e : entry) : list Z := e_header e ++ e_data e ++ e_pad e.

(** What follows the last file is not a header. *)
Definition end_ok (tail : list Z) : Prop := (262 <= length tail)%nat /\ slice tail 257 5 <> ustar.

Definition layout (es : list entry) (tail : list Z) : list Z := (es ≫= entry_bytes) ++ tail.

(** The first file of that name, from the offset [off] on. *)
Fixpoint first_match (es : list entry) (off : Z) (filename : list Z) : Z * option Z :=
  match es with
  | [] => (0, None)
  | e :: es =>
      if decide (e_name e = filename) then (Z.of_nat (length (e_data e)), Some (off + 512))
      else first_match es (off + Z.of_nat (length (entry_bytes e))) filename
  end.

Lemma memcmp_take n : forall a b,
  (n <= length a)%nat -> (n <= length b)%nat ->
  exists c, memcmp_objects a b n = Some c /\ (c = 0 <-> take n a = take n b).
Proof.
  induction n as [|n IH]; intros a b Ha Hb; [by exists 0; destruct a, b|].
  destruct a as [|x a]; [cbn in Ha; lia|]. destruct b as [|y b]; [cbn in Hb; lia|]. cbn [length] in *. cbn [memcmp_objects take].
  destruct (Z.ltb_spec x y); [exists (-1); split; [done|]; split; [lia|intros [= ? ?]; lia]|].
  destruct (Z.ltb_spec y x); [exists 1; split; [done|]; split; [lia|intros [= ? ?]; lia]|].
  destruct (IH a b) as (c & -> & Hc); [lia|lia|]. exists c. split; [done|]. replace y with x by lia.
  split; [intros H'; f_equal; by apply Hc|]. intros [= H']. by apply Hc.
Qed.

(** Two names with their nuls are compared to the first difference. *)
Lemma memcmp_names s1 : forall s2 r1 r2,
  Forall (fun c => c <> 0) s1 -> Forall (fun c => c <> 0) s2 ->
  exists c, memcmp_objects (s1 ++ 0 :: r1) (s2 ++ 0 :: r2) (length s2 + 1) = Some c /\ (c = 0 <-> s1 = s2).
Proof.
  induction s1 as [|x s1 IH]; intros [|y s2] r1 r2 H1 H2; rewrite Nat.add_comm; cbn [length app memcmp_objects Nat.add].
  - exists 0. split; [by destruct r1, r2|done].
  - apply Forall_cons in H2 as [Hy _]. destruct (Z.ltb_spec 0 y); [by exists (-1)|].
    destruct (Z.ltb_spec y 0); [by exists 1|lia].
  - apply Forall_cons in H1 as [Hx _]. destruct (Z.ltb_spec x 0); [by exists (-1)|].
    destruct (Z.ltb_spec 0 x); [by exists 1|lia].
  - apply Forall_cons in H1 as [Hx H1]. apply Forall_cons in H2 as [Hy H2].
    destruct (Z.ltb_spec x y); [exists (-1); split; [done|]; split; [lia|intros [= ? ?]; lia]|].
    destruct (Z.ltb_spec y x); [exists 1; split; [done|]; split; [lia|intros [= ? ?]; lia]|].
    destruct (IH s2 r1 r2 H1 H2) as (c & E & Hc). rewrite Nat.add_comm in E. cbn [Nat.add] in E. exists c.
    split; [exact E|]. replace y with x by lia. rewrite Hc. split; [by intros ->|by intros [= ->]].
Qed.

Lemma oct_value_le ds : forall n, 0 <= n -> Forall (fun d => 48 <= d < 56) ds -> n <= oct_value n ds.
Proof.
  induction ds as [|d ds IH]; intros n Hn Hd; [done|]. apply Forall_cons in Hd as [Hd Hds].
  change (oct_value n (d :: ds)) with (oct_value (n * 8 + (d - 48)) ds).
  specialize (IH (n * 8 + (d - 48)) ltac:(lia) Hds). lia.
Qed.

Lemma oct2bin_spec ds : forall n rest,
  0 <= n -> Forall (fun d => 48 <= d < 56) ds -> oct_value n ds < 2147483648 ->
  oct2bin_loop (length ds) (ds ++ rest) n = Some (oct_value n ds).
Proof.
  induction ds as [|d ds IH]; intros n rest Hn Hd Hv; [done|]. apply Forall_cons in Hd as [Hd Hds].
  change (oct_value n (d :: ds)) with (oct_value (n * 8 + (d - 48)) ds) in *.
  pose proof (oct_value_le ds (n * 8 + (d - 48)) ltac:(lia) Hds). cbn [length app oct2bin_loop].
  rewrite (s32_small (n * 8)), s32_small by lia. by apply IH; [lia| |].
Qed.

Lemma entry_length e : entry_ok e ->
  Z.of_nat (length (entry_bytes e)) = ((Z.of_nat (length (e_data e)) + 511) / 512 + 1) * 512.
Proof.
  intros (_ & _ & Hh & _ & _ & _ & Hp). unfold entry_bytes. rewrite !length_app, Hh. lia.
Qed.

(** One turn of the loop at a header. *)
Lemma tar_lookup_entry fuel pre e rest filename frest :
  entry_ok e -> Forall (fun c => c <> 0) filename -> Z.of_nat (length filename) < 2147483647 ->
  tar_lookup (S fuel) (pre ++ entry_bytes e ++ rest) (Z.of_nat (length pre)) (filename ++ 0 :: frest) =
    if decide (e_name e = filename) then Done (Z.of_nat (length (e_data e)), Some (Z.of_nat (length pre) + 512))
    else tar_lookup fuel (pre ++ entry_bytes e ++ rest)
           (Z.of_nat (length pre) + Z.of_nat (length (entry_bytes e))) (filename ++ 0 :: frest).
Proof.
  intros He Hf Hlf. pose proof (entry_length e He) as Hlen. set (len := Z.of_nat (length (entry_bytes e))) in *.
  destruct He as (Hn & (hrest & Hh) & Hl & (ds & Hds & Hdig & Hval) & Hu & Hmax & Hpad). cbn [tar_lookup].
  set (arc := pre ++ entry_bytes e ++ rest). destruct (Z.ltb_spec (Z.of_nat (length pre)) 0); [lia|].
  assert (forall o : nat, drop (Z.to_nat (Z.of_nat (length pre) + Z.of_nat o)) arc = drop o (entry_bytes e ++ rest)) as Hat.
  { intros o. replace (Z.to_nat _) with (length pre + o)%nat by lia. unfold arc. rewrite <- drop_drop. by rewrite drop_app_length. }
  rewrite (Hat 257%nat : drop (Z.to_nat (_ + 257)) arc = _), (Hat 124%nat : drop (Z.to_nat (_ + 124)) arc = _),
    (Hat 0%nat : drop (Z.to_nat (_ + 0)) arc = _). unfold entry_bytes. rewrite <- app_assoc. set (more := _ ++ rest).
  assert (forall o n, (o + n <= 512)%nat -> drop o (e_header e ++ more) = slice (e_header e) o n ++ drop (o + n) (e_header e ++ more)) as Hs.
  { intros o n Ho. rewrite (drop_slice _ o n), slice_app_l by lia. done. }
  rewrite (Hs 257%nat 5%nat), Hu by lia.
  destruct (memcmp_take 5 (ustar ++ drop (257 + 5) (e_header e ++ more)) (ustar ++ [0])) as (c & -> & Hc); [cbn; lia|cbn; lia|].
  cbn [acc from_option mbind outcome_bind]. rewrite (proj2 Hc) by done. cbn [Z.eqb negb].
  rewrite (Hs 124%nat 11%nat), Hds by lia.
  assert (length ds = 11%nat) as Hld by (rewrite <- Hds, length_slice; lia).
  unfold oct2bin. rewrite <- Hld, oct2bin_spec, Hval by (done || lia). cbn [acc from_option mbind outcome_bind].
  rewrite strlen_spec by (done || lia). cbn [acc from_option mbind outcome_bind]. rewrite drop_0, Hh, <- app_assoc. cbn [app].
  replace (Z.to_nat (Z.of_nat (length filename) + 1)) with (length filename + 1)%nat by lia.
  destruct (memcmp_names (e_name e) filename (hrest ++ more) frest Hn Hf) as (d & -> & Hd). cbn [acc from_option mbind outcome_bind].
  destruct (Z.eqb_spec d 0) as [Hd0|Hd0]; [rewrite decide_True by (by apply Hd); done|].
  rewrite decide_False by (intros E; by apply Hd0, Hd). f_equal.
  rewrite (s32_small (_ + 511)), Z.quot_div_nonneg, s32_small by (lia || zmod). rewrite Hlen. done.
Qed.

Lemma tar_lookup_end fuel pre tail filename :
  end_ok tail -> tar_lookup (S fuel) (pre ++ tail) (Z.of_nat (length pre)) filename = Done (0, None).
Proof.
  intros [Hl Hu]. cbn [tar_lookup]. destruct (Z.ltb_spec (Z.of_nat (length pre)) 0); [lia|].
  replace (Z.to_nat (Z.of_nat (length pre) + 257)) with (length pre + 257)%nat by lia.
  rewrite <- (drop_drop (pre ++ tail)), drop_app_length.
  destruct (memcmp_take 5 (drop 257 tail) (ustar ++ [0])) as (c & -> & Hc); [rewrite length_drop; lia|cbn; lia|].
  cbn [acc from_option mbind outcome_bind]. destruct (Z.eqb_spec c 0) as [H0|H0]; [|done]. by apply Hc in H0.
Qed.

Lemma tar_lookup_layout es : forall pre tail filename frest,
  Forall entry_ok es -> end_ok tail -> Forall (fun c => c <> 0) filename -> Z.of_nat (length filename) < 2147483647 ->
  eventually (fun fuel =>
    tar_lookup fuel (pre ++ layout es tail) (Z.of_nat (length pre)) (filename ++ 0 :: frest) =
      Done (first_match es (Z.of_nat (length pre)) filename)).
Proof.
  induction es as [|e es IH]; intros pre tail filename frest Hes Ht Hf Hlf; apply eventually_S; cbn [first_match].
  - apply eventually_always. intros fuel. by apply tar_lookup_end.
  - apply Forall_cons in Hes as [He Hes].
    assert (layout (e :: es) tail = entry_bytes e ++ layout es tail) as Hlay
      by (unfold layout; cbn [mbind list_bind]; by rewrite <- app_assoc).
    eapply eventually_mono, (IH (pre ++ entry_bytes e) tail filename frest); [|done..]. intros fuel E. cbn beta in *.
    rewrite Hlay, tar_lookup_entry by done. case_decide; [done|]. rewrite <- app_assoc, length_app, Nat2Z.inj_add in E.
    exact E.
Qed.

(** On an archive of headers and padded files followed by anything that is
    not a header, [tar_lookup] returns: the size and the place of the first file
    with that name if there is one, and 0 if there is none.  Names are compared
    in full, so a prefix does not match. *)
Theorem tar_lookup_first es tail filename rest :
  Forall entry_ok es -> end_ok tail -> Forall (fun c => c <> 0) filename -> Z.of_nat (length filename) < 2147483647 ->
  eventually (fun fuel =>
    tar_lookup fuel (layout es tail) 0 (filename ++ 0 :: rest) = Done (first_match es 0 filename)).
Proof. intros Hes Ht Hf Hl. exact (tar_lookup_layout es [] tail filename rest Hes Ht Hf Hl). Qed.

(** Headers for the witness: the name, zeros, the size, zeros, the magic. *)
Definition mk_header (name digits : list Z) : list Z :=
  let name := name ++ replicate (124 - length name) 0 in
  name ++ digits ++ replicate 122 0 ++ ustar ++ replicate 250 0.

Definition sample_entries : list entry :=
  [Entry [97] (mk_header [97] (replicate 9 48 ++ [49; 50])) (replicate 10 7) (replicate 502 0);
   Entry [97; 98] (mk_header [97; 98] (replicate 10 48 ++ [51])) [1; 2; 3] (replicate 509 0)].

Lemma tar_lookup_first_witness :
  eventually (fun fuel => tar_lookup fuel (layout sample_entries (replicate 512 0)) 0 [97; 98; 0] = Done (3, Some 1536)).
Proof.
  apply (tar_lookup_first sample_entries (replicate 512 0) [97; 98] []).
  - repeat (apply Forall_cons; split); [..|by apply Forall_nil];
      (split_and!; [by repeat constructor|eexists; reflexivity|done|eexists; split; [reflexivity|split; [by repeat constructor|done]]|done|done|done]).
  - split; [by vm_compute; lia|done].
  - by repeat constructor.
  - done.
Defined.

(** A size field of 0o20000000000 overflows the 32-bit number and the file
    has a negative size. *)
Example tar_size_overflow : oct2bin ([50] ++ replicate 10 48) 11 = Some (-2147483648).
Proof. vm_compute. reflexivity. Qed.

(** ** The library's functions on a header *)

Lemma oct_digit_toint d : 48 <= d < 56 -> cstring_toint d = d - 48.
Proof.
  intros Hd. unfold cstring_toint. replace (s8 d) with d by zwrap.
  destruct (Z.leb_spec 97 d), (Z.leb_spec 65 d), (Z.leb_spec 48 d); lia.
Qed.

Lemma oct_value_fold ds : forall n,
  0 <= n -> Forall (fun d => 48 <= d < 56) ds -> oct_value n ds < 4294967296 ->
  foldl (fun v c => u32 (v * 8 + cstring_toint c)) n ds = oct_value n ds.
Proof.
  induction ds as [|d ds IH]; intros n Hn Hd Hv; [done|]. apply Forall_cons in Hd as [Hd Hds].
  change (oct_value n (d :: ds)) with (oct_value (n * 8 + (d - 48)) ds) in *.
  pose proof (oct_value_le ds (n * 8 + (d - 48)) ltac:(lia) Hds). cbn [foldl].
  rewrite oct_digit_toint, u32_small by lia. apply IH; [lia|done|done].
Qed.

Lemma tar_readvalue_spec ds rest :
  Forall (fun d => 48 <= d < 56) ds -> oct_value 0 ds < 4294967296 -> Z.of_nat (length ds) <= max32 ->
  tar_readvalue (ds ++ 0 :: rest) = Some (oct_value 0 ds).
Proof.
  intros Hd Hv Hl. unfold tar_readvalue. rewrite cstring_length_spec; [|eapply Forall_impl; [done|]; cbn; lia|done].
  cbn [mbind option_bind]. unfold cstring_read_value. rewrite Nat2Z.id.
  pose proof (read_value_loop_app 0 ds (ds ++ 0 :: rest) 0 0 8) as H. rewrite Nat.add_0_r in H.
  change (Z.of_nat 0) with 0 in H. rewrite H; [cbn; by rewrite oct_value_fold|]. unfold slice. rewrite drop_0. apply take_app_length.
Qed.

(** The sum the checksum field is to hold: its own bytes count as blanks. *)
Definition header_sum (h : list Z) : Z :=
  foldr Z.add 0 (slice h 0 148) + 8 * 32 + foldr Z.add 0 (slice h 156 356).

Lemma subtract_bytes_spec n h : forall i c,
  (i + n <= length h)%nat -> 0 <= c < 4294967296 ->
  subtract_bytes n h i c = Some (u32 (c - foldr Z.add 0 (slice h i n))).
Proof.
  induction n as [|n IH]; intros i c Hl Hc; cbn [subtract_bytes].
  - rewrite slice_0. cbn. by rewrite Z.sub_0_r, u32_small.
  - destruct (lookup_lt_is_Some_2 h i) as [b Hb]; [lia|]. rewrite Hb. cbn [mbind option_bind].
    rewrite IH by (lia || apply u32_range). rewrite (slice_S _ _ _ _ Hb). cbn [foldr]. rewrite u32_sub_l. do 2 f_equal. lia.
Qed.

Lemma tar_validate_spec h ds rest :
  length h = 512%nat -> drop 148 h = ds ++ 0 :: rest -> Forall (fun d => 48 <= d < 56) ds ->
  oct_value 0 ds < 4294967296 -> 0 <= header_sum h < 4294967296 ->
  tar_validate h = Some (bool_decide (oct_value 0 ds = header_sum h)).
Proof.
  intros Hl Hd Hdig Hv Hsum. unfold tar_validate. rewrite Hd, tar_readvalue_spec by
    (done || (apply (f_equal length) in Hd; rewrite length_drop, length_app in Hd; unfold max32; lia)).
  cbn [mbind option_bind]. pose proof (oct_value_le ds 0 ltac:(lia) Hdig).
  rewrite subtract_bytes_spec by lia. cbn [mbind option_bind].
  assert (forall k c, Nat.iter k (fun c => u32 (c - 32)) (u32 c) = u32 (c - 32 * Z.of_nat k)) as Hit.
  { induction k as [|k IHk]; intros c; [cbn; f_equal; lia|].
    change (u32 (Nat.iter k (fun c => u32 (c - 32)) (u32 c) - 32) = u32 (c - 32 * Z.of_nat (S k))).
    rewrite IHk, u32_sub_l. f_equal. lia. }
  rewrite Hit, subtract_bytes_spec by (lia || apply u32_range). cbn [mbind option_bind]. f_equal.
  rewrite u32_sub_l. unfold header_sum in *.
  replace (_ - _ - _) with (oct_value 0 ds - (foldr Z.add 0 (slice h 0 148) + 8 * 32 + foldr Z.add 0 (slice h 156 356))) by lia.
  set (sum := _ + _ + _) in *. case_bool_decide as E.
  - rewrite E, Z.sub_diag. done.
  - apply Z.eqb_neq. intros E'. apply E. clear Hit E. zwrap.
Qed.

(** The library's [tar_next] steps to the same next header as the kernel's
    lookup, the length of the entry further, when the size field ends in a nul;
    and [tar_validate] accepts a header exactly when its checksum field, in
    octal and ended by a nul, is the sum of its bytes with that field blank. *)
Theorem tar_readers_agree e off cs rest :
  entry_ok e -> e_header e !! 135%nat = Some 0 -> 0 <= off ->
  off + Z.of_nat (length (entry_bytes e)) < 4294967296 ->
  drop 148 (e_header e) = cs ++ 0 :: rest -> Forall (fun d => 48 <= d < 56) cs ->
  oct_value 0 cs < 4294967296 -> 0 <= header_sum (e_header e) < 4294967296 ->
  tar_next (e_header e) off = Some (off + Z.of_nat (length (entry_bytes e))) /\
  tar_validate (e_header e) = Some (bool_decide (oct_value 0 cs = header_sum (e_header e))).
Proof.
  intros He Hnul Hoff Hfit Hcs Hdig Hcv Hsum. pose proof (entry_length e He) as Hlen.
  destruct He as (_ & _ & Hl & (ds & Hds & Hd & Hval) & _ & Hmax & _).
  split; [|by eapply tar_validate_spec]. unfold tar_next.
  assert (length ds = 11%nat) as Hld by (rewrite <- Hds, length_slice; lia).
  rewrite (drop_slice _ 124 11), Hds. change (124 + 11)%nat with 135%nat. rewrite (drop_S _ _ _ Hnul).
  rewrite tar_readvalue_spec by (done || (unfold max32; lia)). cbn [mbind option_bind]. rewrite Hval, Hlen in *.
  set (n := Z.of_nat (length (e_data e))) in *. unfold TAR_BLOCK_SIZE.
  replace (n / 512 + (if n mod 512 =? 0 then 1 else 2)) with ((n + 511) / 512 + 1)
    by (destruct (Z.eqb_spec (n mod 512) 0); zmod).
  rewrite (u32_small (_ * 512)) by zmod. rewrite u32_small by zmod. done.
Qed.

Lemma tar_readers_agree_witness :
  let e := Entry [97] (mk_header [97] (replicate 9 48 ++ [49; 50])) (replicate 10 7) (replicate 502 0) in
  tar_next (e_header e) 512 = Some 1536 /\ tar_validate (e_header e) = Some false.
Proof.
  apply (tar_readers_agree (Entry [97] (mk_header [97] (replicate 9 48 ++ [49; 50])) (replicate 10 7) (replicate 502 0))
    512 [] (replicate 108 0 ++ ustar ++ replicate 250 0)).
  - split_and!; [by repeat constructor|eexists; reflexivity|done|eexists; split; [reflexivity|split; [by repeat constructor|done]]|done|done|done].
  - done.
  - lia.
  - done.
  - done.
  - constructor.
  - done.
  - vm_compute. split; [intros [=]|done].
Defined.

(** The next header of a cpio archive is at an even distance, after the name
    and the file, each padded to two bytes. *)
Lemma cpio_layout h :
  0 <= namesize h < 65536 -> 0 <= filesize0 h < 32768 -> 0 <= filesize1 h < 65536 ->
  let size := filesize0 h * 65536 + filesize1 h in
  cpio_filesize h = size /\ cpio_filedata h = 26 + 2 * ((namesize h + 1) / 2) /\
  cpio_next h = cpio_filedata h + 2 * ((size + 1) / 2).
Proof.
  intros Hn H0 H1 size. change (65536 : Z) with (2 ^ 16) in size.
  assert (cpio_filesize h = size) as Hs.
  { unfold cpio_filesize. rewrite lor_shift by lia. fold size. apply u32_small. unfold size. lia. }
  assert (forall z, Z.land z 1 = z mod 2) as Hodd by (intros z; exact (land_pow2_pred z 1 ltac:(lia))).
  assert (cpio_filedata h = 26 + 2 * ((namesize h + 1) / 2)) as Hd.
  { unfold cpio_filedata, sizeof_cpio_header. rewrite Hodd, u32_small by zmod. zmod. }
  split; [done|]. split; [done|]. unfold cpio_next. rewrite Hs, Hd, Hodd. unfold size in *. change (2 ^ 16) with 65536 in *.
  rewrite (u32_small (_ + (_ * _ + _))) by zmod. rewrite u32_small by zmod. zmod.
Qed.

(** ** A line is its runs *)

Definition run_ok (r : nat * Z) : Prop := (1 <= r.1 <= 63)%nat /\ is_byte r.2.

(** A single low byte stands for itself; anything else is a count and a byte. *)
Definition encode_run (r : nat * Z) : list Z :=
  if (r.1 =? 1)%nat && (r.2 <? 0xC0) then [r.2] else [0xC0 + Z.of_nat r.1; r.2].

Definition pixels (rs : list (nat * Z)) : list Z := rs ≫= fun r => replicate r.1 r.2.

Lemma pcx_byte b : 0 <= b < 256 ->
  (Z.land b 0xC0 =? 0xC0) = (0xC0 <=? b) /\ (0xC0 <= b -> Z.land b 0x3F = b - 0xC0).
Proof.
  intros Hb.
  in_range H (fun b => eqb (Z.land b 0xC0 =? 0xC0) (0xC0 <=? b) && ((b <? 0xC0) || (Z.land b 0x3F =? b - 0xC0))) 0 256%nat b.
  apply andb_true_iff in H as [H1 H2]. apply eqb_prop in H1. split; [done|].
  intros Hc. destruct (Z.ltb_spec b 0xC0); [lia|]. cbn in H2. lia.
Qed.

Lemma repeat_loop_spec c n : forall buffer o,
  (o + n <= length buffer)%nat -> Z.of_nat (length buffer) <= max32 ->
  repeat_loop n buffer (Z.of_nat o) c = Some (splice buffer o (replicate n c), Z.of_nat (o + n)).
Proof.
  induction n as [|n IH]; intros buffer o Ho Hm; cbn [repeat_loop replicate].
  - by rewrite splice_nil, Nat.add_0_r.
  - unfold max32 in *. rewrite wr_Some, Nat2Z.id by lia. cbn [mbind option_bind]. rewrite u32_small by lia.
    replace (Z.of_nat o + 1) with (Z.of_nat (S o)) by lia.
    rewrite IH by (rewrite ?length_insert; unfold max32; lia).
    rewrite splice_cons by (rewrite length_replicate; lia). do 3 f_equal. lia.
Qed.

(** The end of a turn: the run is written and the loop goes on or returns. *)
Definition pcx_after (fuel : nat) (raw : list Z) (width : Z) (buffer : list Z) (o n : nat) (b : Z) (rindex : nat)
    : outcome (list Z * Z) :=
  let buffer := splice buffer o (replicate n b) in
  if Z.of_nat (o + n) <? width then pcx_loop fuel raw width buffer (Z.of_nat rindex) (Z.of_nat (o + n))
  else Done (buffer, Z.of_nat rindex).

Section PcxTurn.
Context (buffer : list Z) (Hm : Z.of_nat (length buffer) <= max32).

Lemma pcx_single fuel pre b rest width o :
  0 <= b < 0xC0 -> (o + 1 <= length buffer)%nat -> Z.of_nat (length pre) < max32 ->
  pcx_loop (S fuel) (pre ++ b :: rest) width buffer (Z.of_nat (length pre)) (Z.of_nat o) =
    pcx_after fuel (pre ++ b :: rest) width buffer o 1 b (length pre + 1).
Proof.
  intros Hb Ho Hp. unfold max32 in *. cbn [pcx_loop]. rewrite rd_mid. cbn [acc from_option mbind outcome_bind].
  rewrite (proj1 (pcx_byte b ltac:(lia))). destruct (Z.leb_spec 0xC0 b); [lia|]. cbn [mbind outcome_bind].
  change (Z.to_nat 1) with 1%nat. rewrite repeat_loop_spec by (unfold max32; lia). cbn [acc from_option mbind outcome_bind].
  rewrite u32_small by lia. by replace (Z.of_nat (length pre) + 1) with (Z.of_nat (length pre + 1)) by lia.
Qed.

Lemma pcx_counted fuel pre n b rest width o :
  (1 <= n <= 63)%nat -> (o + n <= length buffer)%nat -> Z.of_nat (length pre) + 1 < max32 ->
  pcx_loop (S fuel) (pre ++ (0xC0 + Z.of_nat n) :: b :: rest) width buffer (Z.of_nat (length pre)) (Z.of_nat o) =
    pcx_after fuel (pre ++ (0xC0 + Z.of_nat n) :: b :: rest) width buffer o n b (length pre + 2).
Proof.
  intros Hn Ho Hp. unfold max32 in *. cbn [pcx_loop]. rewrite rd_mid. cbn [acc from_option mbind outcome_bind].
  set (c := 0xC0 + Z.of_nat n). destruct (pcx_byte c ltac:(lia)) as [-> H3F].
  destruct (Z.leb_spec 0xC0 c); [|lia]. rewrite H3F by lia. rewrite (u32_small (Z.of_nat (length pre) + 1)) by lia.
  replace (rd (pre ++ c :: b :: rest) (Z.of_nat (length pre) + 1)) with (Some b)
    by (rewrite mid_snoc, <- (length_snoc pre c); by rewrite rd_mid).
  cbn [acc from_option mbind outcome_bind]. replace (Z.to_nat (c - 0xC0)) with n by lia.
  rewrite repeat_loop_spec by (unfold max32; lia). cbn [acc from_option mbind outcome_bind].
  rewrite u32_small by lia. by replace (Z.of_nat (length pre) + 1 + 1) with (Z.of_nat (length pre + 2)) by lia.
Qed.

Lemma pcx_run fuel pre r rest width o :
  run_ok r -> (o + r.1 <= length buffer)%nat -> Z.of_nat (length pre) + 1 < max32 ->
  pcx_loop (S fuel) (pre ++ encode_run r ++ rest) width buffer (Z.of_nat (length pre)) (Z.of_nat o) =
    pcx_after fuel (pre ++ encode_run r ++ rest) width buffer o r.1 r.2 (length (pre ++ encode_run r)).
Proof.
  destruct r as [n b]. intros [Hn Hb] Ho Hp. unfold is_byte in Hb. unfold encode_run. cbn [fst snd] in *. rewrite length_app.
  destruct (Nat.eqb_spec n 1) as [->|Hn1], (Z.ltb_spec b 0xC0); cbn [andb app length];
    [apply pcx_single; lia|by apply (pcx_counted _ _ 1)|by apply pcx_counted..].
Qed.
End PcxTurn.

Lemma pcx_runs rs : forall pre rest width buffer o,
  rs <> [] -> Forall run_ok rs -> width = Z.of_nat (o + length (pixels rs)) -> (o + length (pixels rs) <= length buffer)%nat ->
  Z.of_nat (length buffer) <= max32 -> Z.of_nat (length (pre ++ (rs ≫= encode_run) ++ rest)) < max32 ->
  eventually (fun fuel => pcx_loop fuel (pre ++ (rs ≫= encode_run) ++ rest) width buffer (Z.of_nat (length pre)) (Z.of_nat o) =
    Done (splice buffer o (pixels rs), Z.of_nat (length (pre ++ (rs ≫= encode_run))))).
Proof.
  induction rs as [|r rs IH]; intros pre rest width buffer o Hne Hok Hw Hb Hm Hr; [done|]. apply eventually_S.
  apply Forall_cons in Hok as [Hrun Hok]. unfold pixels in *. cbn [mbind list_bind] in *.
  rewrite length_app, length_replicate in Hw, Hb. rewrite <- app_assoc in *.
  assert (Z.of_nat (length pre) + 1 < max32) as Hp.
  { rewrite !length_app in Hr. enough (1 <= length (encode_run r))%nat by lia. unfold encode_run. case_match; cbn; lia. }
  eapply eventually_mono; [intros fuel E; rewrite pcx_run by (done || lia); unfold pcx_after; cbn zeta; exact E|].
  destruct rs as [|r' rs'].
  - cbn [length mbind list_bind] in *. apply eventually_always. intros fuel. destruct (Z.ltb_spec (Z.of_nat (o + r.1)) width); [lia|].
    by rewrite !app_nil_r.
  - assert (1 <= length ((r' :: rs') ≫= fun r => replicate r.1 r.2))%nat as Hpos.
    { apply Forall_cons in Hok as [[? _] _]. cbn [mbind list_bind]. rewrite length_app, length_replicate. lia. }
    destruct (Z.ltb_spec (Z.of_nat (o + r.1)) width); [|lia].
    eapply eventually_mono, (IH (pre ++ encode_run r) rest width (splice buffer o (replicate r.1 r.2)) (o + r.1)%nat);
      [|done|done|unfold pixels; lia|..];
      rewrite ?length_splice by (rewrite length_replicate; lia); [|unfold pixels; lia|done|by rewrite <- app_assoc].
    intros fuel E. cbn beta in E. rewrite <- !app_assoc in E. rewrite E. f_equal. f_equal.
    rewrite <- splice_app by (rewrite length_replicate; lia). by rewrite length_replicate.
Qed.

(** Decoding a line that was written as runs of 1 to 63 equal bytes, of as
    many pixels as the line is wide: the decoder returns, the buffer holds the
    pixels, and exactly the bytes of the runs are used. *)
Theorem pcx_readline_decodes rs rest width buffer :
  rs <> [] -> Forall run_ok rs -> width = Z.of_nat (length (pixels rs)) ->
  (length (pixels rs) <= length buffer)%nat -> Z.of_nat (length buffer) <= max32 ->
  Z.of_nat (length ((rs ≫= encode_run) ++ rest)) < max32 ->
  eventually (fun fuel => pcx_readline fuel ((rs ≫= encode_run) ++ rest) width buffer =
    Done (pixels rs ++ drop (length (pixels rs)) buffer, Z.of_nat (length (rs ≫= encode_run)))).
Proof.
  intros Hne Hok Hw Hb Hm Hr. rewrite <- splice_0. exact (pcx_runs rs [] rest width buffer 0 Hne Hok Hw Hb Hm Hr).
Qed.

Lemma pcx_readline_decodes_witness :
  eventually (fun fuel => pcx_readline fuel [0xC3; 9; 0xC1; 0xFF; 7; 1; 2] 5 (replicate 6 0) =
    Done ([9; 9; 9; 0xFF; 7; 0], 5)).
Proof.
  apply (pcx_readline_decodes [(3%nat, 9); (1%nat, 0xFF); (1%nat, 7)] [1; 2] 5 (replicate 6 0)); [done| |done|cbn; lia|done|done].
  repeat (apply Forall_cons; split; [split; cbn; unfold is_byte; lia|]). by apply Forall_nil.
Defined.

(** A run that goes on past the width of the line is written in full. *)
Example pcx_run_overflows : pcx_readline 9 [0xC5; 9] 3 (replicate 3 0) = Fault.
Proof. vm_compute. reflexivity. Qed.
