(* ===== verification/Fixed.v ===== *)
(** * Fixed-point mathematics (src/libz/math/math.c)

    The integer functions: the square root of a 16-bit number, one bit of the
    result at a time, and the sine and cosine by a table of a quarter turn with
    interpolation.  A full turn is 32768.  The functions on [double] are not
    modelled. *)
From S2P Require Import Prelude.

Local Open Scope Z_scope.

(** ** The square root *)

(** The body of [for (bit = 0x4000; bit > 0; bit >>= 2)]. *)
Definition sqrt_step (bit : Z) (s : Z * Z) : Z * Z :=
  let '(root, value) := s in
  let trial := u16 (root + bit) in
  let root := Z.shiftr root 1 in
  if trial <=? value then (u16 (root + bit), u16 (value - trial)) else (root, value).

Fixpoint sqrt_loop (fuel : nat) (bit : Z) (s : Z * Z) : Z * Z :=
  match fuel with
  | O => s
  | S fuel => if bit <=? 0 then s else sqrt_loop fuel (Z.shiftr bit 2) (sqrt_step bit s)
  end.

(** [0x4000] has 15 bits: after eight turns [bit] is 0. *)
Definition math_sqrt16 (value : Z) : Z := fst (sqrt_loop 9 0x4000 (0, value)).

(** ** Sine and cosine *)

Definition sin90 : list Z :=
  [0x0000; 0x0647; 0x0c8b; 0x12c7; 0x18f8; 0x1f19; 0x2527; 0x2b1e;
   0x30fb; 0x36b9; 0x3c56; 0x41cd; 0x471c; 0x4c3f; 0x5133; 0x55f4;
   0x5a81; 0x5ed6; 0x62f1; 0x66ce; 0x6a6c; 0x6dc9; 0x70e1; 0x73b5;
   0x7640; 0x7883; 0x7a7c; 0x7c29; 0x7d89; 0x7e9c; 0x7f61; 0x7fd7;
   0x7fff].

Definition INT16_MAX : Z := 0x7FFF.
Definition INTERP_BITS : Z := 8.
Definition INTERP_MASK : Z := 0xFF.
Definition TABLE_MASK : Z := 0x1F.
Definition FLIP_BIT : Z := 0x20.
Definition NEGATE_BIT : Z := 0x40.

(** [angle += INT16_MAX; angle += 1;] for a negative angle *)
Definition turn_up (angle : Z) : Z := if angle <? 0 then s16 (s16 (angle + INT16_MAX) + 1) else angle.

Definition math_sin16 (angle : Z) : option Z :=
  let angle := turn_up angle in
  let v0 := Z.shiftr angle INTERP_BITS in
  let '(v0, v1) := if negb (Z.land v0 FLIP_BIT =? 0) then (Z.lnot v0, Z.lnot angle) else (v0, angle) in
  let v0 := Z.land v0 TABLE_MASK in
  lo ← rd sin90 v0;
  hi ← rd sin90 (v0 + 1);
  let v1 := s16 (lo + s16 (Z.shiftr ((hi - lo) * Z.land v1 INTERP_MASK) INTERP_BITS)) in
  Some (if negb (Z.land (Z.shiftr angle INTERP_BITS) NEGATE_BIT =? 0) then s16 (- v1) else v1).

Definition math_cos16 (angle : Z) : option Z :=
  let angle := turn_up angle in
  math_sin16 (s16 (angle - s16 (Z.quot (INT16_MAX * 270) 360))).

(** ** The square root is the integer square root *)

(** Before the turn for the bit [4 ^ k] of the square: [x] is the part of the
    root that is known, a multiple of [2 ^ (k + 1)]. *)
Definition sqrt_inv (n : Z) (k : nat) (x : Z) (s : Z * Z) : Prop :=
  s = (x * 2 ^ Z.of_nat k, n - x * x) /\ 0 <= x /\ x mod 2 ^ Z.of_nat k = 0 /\
  x * x <= n < (x + 2 ^ Z.of_nat k) * (x + 2 ^ Z.of_nat k).

Lemma sqrt_step_inv n k x s :
  0 <= n < 65536 -> (k < 8)%nat -> sqrt_inv n (S k) x s ->
  exists x', sqrt_inv n k x' (sqrt_step (2 ^ Z.of_nat k * 2 ^ Z.of_nat k) s).
Proof.
  intros Hn Hk (-> & Hx & Hmod & Hlo & Hhi). unfold sqrt_step.
  rewrite Nat2Z.inj_succ, Z.pow_succ_r in * by lia. set (b := 2 ^ Z.of_nat k) in *.
  assert (0 <= x < 256) as Hx256 by nia.
  assert (1 <= b <= 128 /\ x * (2 * b) + b * b < 65536) as [Hb Hfit].
  { unfold b in *. assert (k = 0 \/ k = 1 \/ k = 2 \/ k = 3 \/ k = 4 \/ k = 5 \/ k = 6 \/ k = 7)%nat as Hk' by lia.
    clear Hlo Hhi. destruct Hk' as [-> | [-> | [-> | [-> | [-> | [-> | [-> | ->]]]]]]];
      match type of Hmod with _ mod ?e = _ => let e' := eval vm_compute in e in change e with e' in Hmod end;
      match goal with |- context [2 ^ ?e] => let e' := eval vm_compute in (2 ^ e) in change (2 ^ e) with e' end; zmod. }
  assert (x mod b = 0) as Hmodb.
  { apply Z.mod_divide in Hmod as [q Hq]; [|lia]. apply Z.mod_divide; [lia|]. exists (q * 2). lia. }
  rewrite Z.shiftr_div_pow2 by lia. change (2 ^ 1) with 2. replace (x * (2 * b) / 2) with (x * b)
    by (replace (x * (2 * b)) with (x * b * 2) by lia; by rewrite Z.div_mul).
  rewrite (u16_small (x * (2 * b) + _)) by nia.
  destruct (Z.leb_spec (x * (2 * b) + b * b) (n - x * x)).
  - exists (x + b). unfold sqrt_inv. fold b. split.
    + rewrite !u16_small by nia. f_equal; lia.
    + split; [lia|]. split; [|split; lia]. rewrite <- Z.add_mod_idemp_l, Hmodb by lia. by rewrite Z.add_0_l, Z.mod_same by lia.
  - exists x. unfold sqrt_inv. fold b. split; [done|]. split; [lia|]. split; [done|lia].
Qed.

Lemma sqrt_loop_inv n fuel : forall k x s,
  0 <= n < 65536 -> (k <= 8)%nat -> (k < fuel)%nat -> sqrt_inv n k x s ->
  exists x', sqrt_inv n 0 x' (sqrt_loop fuel (match k with O => 0 | S k => 2 ^ Z.of_nat k * 2 ^ Z.of_nat k end) s).
Proof.
  induction fuel as [|fuel IH]; intros k x s Hn Hk Hf H; [lia|]. cbn [sqrt_loop]. destruct k as [|k]; [by exists x|].
  set (bit := 2 ^ Z.of_nat k * 2 ^ Z.of_nat k). assert (0 < 2 ^ Z.of_nat k) by (apply Z.pow_pos_nonneg; lia).
  destruct (Z.leb_spec bit 0); [nia|]. destruct (sqrt_step_inv n k x s) as [x' H']; [done|lia|done|].
  fold bit in H'. replace (Z.shiftr bit 2) with (match k with O => 0 | S k => 2 ^ Z.of_nat k * 2 ^ Z.of_nat k end).
  - by apply (IH k x'); [..|lia|lia|].
  - rewrite Z.shiftr_div_pow2 by lia. unfold bit. destruct k as [|k]; [done|]. rewrite Nat2Z.inj_succ, Z.pow_succ_r by lia.
    change (2 ^ 2) with 4. replace (2 * _ * _) with (2 ^ Z.of_nat k * 2 ^ Z.of_nat k * 4) by lia. by rewrite Z.div_mul by lia.
Qed.

(** For every 16-bit number the loop ends and the result is the integer
    square root: the greatest number whose square is not above it. *)
Theorem math_sqrt16_correct value :
  0 <= value < 65536 -> math_sqrt16 value = Z.sqrt value.
Proof.
  intros Hv. destruct (sqrt_loop_inv value 9 8 0 (0, value)) as (x & E & Hx & _ & Hb); [done|lia|lia| |].
  - split; [f_equal; lia|]. split; [lia|]. split; [done|]. cbn. lia.
  - unfold math_sqrt16. change (2 ^ Z.of_nat 7 * 2 ^ Z.of_nat 7) with 0x4000 in E. rewrite E. cbn [fst].
    change (2 ^ Z.of_nat 0) with 1 in *. symmetry. rewrite Z.mul_1_r. apply Z.sqrt_unique. lia.
Qed.

Lemma math_sqrt16_correct_witness : math_sqrt16 65535 = 255 /\ math_sqrt16 144 = 12.
Proof. split; [exact (math_sqrt16_correct 65535 ltac:(lia))|exact (math_sqrt16_correct 144 ltac:(lia))]. Defined.

(** ** The sine is a wave *)

(** The quarter wave: the table entry of the high bits, and the part of the way
    to the next one that the low eight bits say. *)
Definition quarter (r : Z) : Z :=
  let lo := sin90 !!! Z.to_nat (r / 256) in
  let hi := sin90 !!! Z.to_nat (r / 256 + 1) in
  lo + (hi - lo) * (r mod 256) / 256.

(** The wave of a full turn of 32768: up, down, and the same below zero. *)
Definition wave (a : Z) : Z :=
  let r := a mod 8192 in
  match a / 8192 with
  | 0 => quarter r
  | 1 => quarter (8191 - r)
  | 2 => - quarter r
  | _ => - quarter (8191 - r)
  end.

(** The entries of the table go up. *)
Lemma sin90_entry i : 0 <= i < 32 ->
  rd sin90 i = Some (sin90 !!! Z.to_nat i) /\ rd sin90 (i + 1) = Some (sin90 !!! Z.to_nat (i + 1)) /\
  0 <= sin90 !!! Z.to_nat i < sin90 !!! Z.to_nat (i + 1) /\ sin90 !!! Z.to_nat (i + 1) <= 0x7FFF.
Proof.
  intros Hi.
  in_range H (fun i =>
    bool_decide (rd sin90 i = Some (sin90 !!! Z.to_nat i)) &&
    bool_decide (rd sin90 (i + 1) = Some (sin90 !!! Z.to_nat (i + 1))) &&
    ((0 <=? sin90 !!! Z.to_nat i) && (sin90 !!! Z.to_nat i <? sin90 !!! Z.to_nat (i + 1)) &&
     (sin90 !!! Z.to_nat (i + 1) <=? 0x7FFF))) 0 32%nat i.
  apply andb_true_iff in H as [[H1 H2]%andb_true_iff H3].
  apply bool_decide_eq_true in H1, H2. split; [done|]. split; [done|]. lia.
Qed.

Lemma quarter_range r : 0 <= r < 8192 -> 0 <= quarter r <= 0x7FFF.
Proof.
  intros Hr. unfold quarter. destruct (sin90_entry (r / 256)) as (_ & _ & Hlo & Hhi); [zmod|].
  set (lo := sin90 !!! Z.to_nat (r / 256)) in *. set (hi := sin90 !!! Z.to_nat (r / 256 + 1)) in *.
  assert (0 <= r mod 256 < 256) as Hm by (apply Z.mod_pos_bound; lia). set (m := r mod 256) in *.
  assert (0 <= (hi - lo) * m / 256 <= hi - lo); [|lia]. split; [apply Z.div_pos; nia|].
  apply Z.div_le_upper_bound; nia.
Qed.

(** Interpolation with the two numbers the code has made from the angle. *)
Lemma interpolate r : 0 <= r < 8192 ->
  (lo ← rd sin90 (r / 256); hi ← rd sin90 (r / 256 + 1);
   Some (s16 (lo + s16 (Z.shiftr ((hi - lo) * (r mod 256)) 8)))) = Some (quarter r).
Proof.
  intros Hr. destruct (sin90_entry (r / 256)) as (-> & -> & Hlo & Hhi); [zmod|]. cbn [mbind option_bind].
  pose proof (quarter_range r Hr) as Hq. unfold quarter in *. rewrite Z.shiftr_div_pow2 by lia. change (2 ^ 8) with 256.
  set (lo := sin90 !!! Z.to_nat (r / 256)) in *. set (hi := sin90 !!! Z.to_nat (r / 256 + 1)) in *.
  set (d := (hi - lo) * (r mod 256) / 256) in *. clearbody lo hi d. f_equal.
  rewrite (s16_small d), s16_small by lia. done.
Qed.

(** The two bits of the angle that choose the quarter. *)
Lemma quarter_bits a : 0 <= a < 32768 ->
  negb (Z.land (Z.shiftr a 8) FLIP_BIT =? 0) = (a / 8192 =? 1) || (a / 8192 =? 3) /\
  negb (Z.land (Z.shiftr a 8) NEGATE_BIT =? 0) = (a / 8192 =? 2) || (a / 8192 =? 3).
Proof.
  intros Ha. rewrite Z.shiftr_div_pow2 by lia. change (2 ^ 8) with 256.
  replace (a / 8192) with (a / 256 / 32) by (rewrite Z.div_div by lia; done).
  assert (0 <= a / 256 < 128) as Hh by zmod.
  in_range H (fun h =>
    eqb (negb (Z.land h FLIP_BIT =? 0)) ((h / 32 =? 1) || (h / 32 =? 3)) &&
    eqb (negb (Z.land h NEGATE_BIT =? 0)) ((h / 32 =? 2) || (h / 32 =? 3))) 0 128%nat (a / 256).
  apply andb_true_iff in H as [H1 H2]. by apply eqb_prop in H1, H2.
Qed.

Lemma math_sin16_wave a : 0 <= a < 32768 -> math_sin16 a = Some (wave a).
Proof.
  intros Ha. unfold math_sin16, turn_up. destruct (Z.ltb_spec a 0); [lia|]. cbn zeta. unfold INTERP_BITS.
  destruct (quarter_bits a Ha) as [-> ->].
  assert (forall z k, 0 <= k -> Z.land z (2 ^ k - 1) = z mod 2 ^ k) as Hland by (intros; by apply land_pow2_pred).
  assert (forall z, Z.land z TABLE_MASK = z mod 32) as HT by (intros; exact (Hland _ 5 ltac:(lia))).
  assert (forall z, Z.land z INTERP_MASK = z mod 256) as HI by (intros; exact (Hland _ 8 ltac:(lia))).
  assert (a / 8192 = 0 \/ a / 8192 = 1 \/ a / 8192 = 2 \/ a / 8192 = 3) as Hq by zmod.
  set (r := a mod 8192). assert (0 <= r < 8192) as Hr by (apply Z.mod_pos_bound; lia).
  assert (Z.shiftr a 8 mod 32 = r / 256 /\ a mod 256 = r mod 256 /\
          Z.lnot (Z.shiftr a 8) mod 32 = (8191 - r) / 256 /\ Z.lnot a mod 256 = (8191 - r) mod 256) as (E1 & E2 & E3 & E4).
  { rewrite Z.shiftr_div_pow2 by lia. change (2 ^ 8) with 256. unfold Z.lnot, r. split_and!; zmod. }
  pose proof (interpolate r Hr) as Q1. pose proof (interpolate (8191 - r) ltac:(lia)) as Q2.
  pose proof (quarter_range r Hr) as R1. pose proof (quarter_range (8191 - r) ltac:(lia)) as R2.
  apply bind_Some in Q1 as (lo1 & L1 & (hi1 & H1 & [= Q1])%bind_Some).
  apply bind_Some in Q2 as (lo2 & L2 & (hi2 & H2 & [= Q2])%bind_Some).
  unfold wave. fold r. destruct Hq as [Hq | [Hq | [Hq | Hq]]]; rewrite Hq; cbn [orb Z.eqb Pos.eqb negb]; rewrite HT, HI.
  - rewrite E1, E2, L1. cbn [mbind option_bind]. rewrite H1. cbn [mbind option_bind]. by rewrite Q1.
  - rewrite E3, E4, L2. cbn [mbind option_bind]. rewrite H2. cbn [mbind option_bind]. by rewrite Q2.
  - rewrite E1, E2, L1. cbn [mbind option_bind]. rewrite H1. cbn [mbind option_bind]. by rewrite Q1, s16_small by lia.
  - rewrite E3, E4, L2. cbn [mbind option_bind]. rewrite H2. cbn [mbind option_bind]. by rewrite Q2, s16_small by lia.
Qed.

Lemma math_sin16_period a : -32768 <= a < 0 -> math_sin16 a = math_sin16 (a + 32768).
Proof.
  intros Ha. unfold math_sin16, turn_up, INT16_MAX. destruct (Z.ltb_spec a 0); [|lia].
  destruct (Z.ltb_spec (a + 32768) 0); [lia|]. rewrite (s16_small (a + _)), s16_small by lia.
  by replace (a + 0x7FFF + 1) with (a + 32768) by lia.
Qed.

(** For every 16-bit angle [math_sin16] returns the wave of period 32768
    that interpolates the table, rising and falling alike above and below zero,
    with no access outside the table and no overflow; [math_cos16] is that wave
    8193 units ahead, one more than a quarter of a turn. *)
Theorem math_sin16_is_wave angle :
  -32768 <= angle < 32768 ->
  math_sin16 angle = Some (wave (angle mod 32768)) /\ math_cos16 angle = Some (wave ((angle + 8193) mod 32768)) /\
  -32767 <= wave (angle mod 32768) <= 32767.
Proof.
  assert (forall a, -32768 <= a < 32768 -> math_sin16 a = Some (wave (a mod 32768))) as Hsin.
  { intros a Ha. destruct (Z.lt_ge_cases a 0).
    - rewrite math_sin16_period, math_sin16_wave by lia. do 2 f_equal. zmod.
    - rewrite math_sin16_wave by lia. by rewrite Z.mod_small by lia. }
  intros Ha. split; [by apply Hsin|]. split.
  - unfold math_cos16, turn_up, INT16_MAX. change (s16 (Z.quot (0x7FFF * 270) 360)) with 24575.
    destruct (Z.ltb_spec angle 0).
    + rewrite (s16_small (angle + _)), (s16_small (_ + 1)), s16_small by lia. rewrite Hsin by lia. do 2 f_equal. zmod.
    + rewrite s16_small by lia. rewrite Hsin by lia. do 2 f_equal. zmod.
  - assert (0 <= angle mod 32768 < 32768) as Hm by (apply Z.mod_pos_bound; lia). set (m := angle mod 32768) in *.
    assert (0 <= m mod 8192 < 8192) as Hr by (apply Z.mod_pos_bound; lia). unfold wave.
    pose proof (quarter_range (m mod 8192) Hr). pose proof (quarter_range (8191 - m mod 8192) ltac:(lia)).
    repeat case_match; lia.
Qed.

Lemma math_sin16_is_wave_witness :
  math_sin16 (-16384) = Some 0 /\ math_cos16 0 = Some 32766.
Proof.
  split; [exact (proj1 (math_sin16_is_wave (-16384) ltac:(lia)))|exact (proj1 (proj2 (math_sin16_is_wave 0 ltac:(lia))))].
Defined.
