(* ===== verification/GbState.v ===== *)
(** * Game Boy: the state (src/src/gameboy/cpu.h)

    The emulator of [src/src/gameboy] is an interpreter of the machine code of a
    game console: [cpu.c] keeps the whole console in one [struct gb_s].  This
    file has that record, field by field, and its well-formedness: every field
    within the width of its C type, every array as long as it is declared.

    The records have primitive projections: two states are convertible when
    their fields are. *)
From S2P Require Import Prelude.

Local Open Scope Z_scope.

#[local] Set Primitive Projections.

(** [struct cpu_registers_s]: the flags of [f_bits], the registers, the stack
    pointer and the program counter.  The unions [af], [bc], [de] and [hl] are
    the pairs of their halves; the low four bits of [f] are never read. *)
Record cpu_registers_s := CpuRegisters {
  cpu_fZ : Z; cpu_fN : Z; cpu_fH : Z; cpu_fC : Z; cpu_rA : Z; cpu_rB : Z; cpu_rC : Z; cpu_rD : Z;
  cpu_rE : Z; cpu_rH : Z; cpu_rL : Z; cpu_SP : Z; cpu_PC : Z }.

(** [struct gb_registers_s]: the input and output registers, a byte each. *)
Record gb_registers_s := GbRegisters {
  reg_TIMA : Z; reg_TMA : Z; reg_DIV : Z; reg_TAC : Z; reg_LCDC : Z; reg_STAT : Z; reg_SCY : Z;
  reg_SCX : Z; reg_LY : Z; reg_LYC : Z; reg_DMA : Z; reg_BGP : Z; reg_OBP0 : Z; reg_OBP1 : Z;
  reg_WY : Z; reg_WX : Z; reg_P1 : Z; reg_SB : Z; reg_SC : Z; reg_IF' : Z; reg_IE : Z }.

(** [struct count_s]: cycles since the last event of each clock. *)
Record count_s := Count {
  count_lcd_count : Z; count_div_count : Z; count_tima_count : Z; count_serial_count : Z }.

(** The anonymous structs [display] and [direct] of [struct gb_s]. *)
Record display_s := Display {
  display_bg_palette : list Z; display_sp_palette : list Z; display_window_clear : Z; display_WY : Z;
  display_frame_skip_count : Z; display_interlace_count : Z }.

Record direct_s := Direct {
  direct_interlace : Z; direct_frame_skip : Z; direct_joypad : Z }.

(** The fields of [struct gb_s] that describe the cartridge and its bank switch. *)
Record cart_s := Cart {
  c_mbc : Z; c_cart_ram : Z; c_num_rom_banks : Z; c_num_ram_banks : Z; c_selected_rom_bank : Z;
  c_cart_ram_bank : Z; c_enable_cart_ram : Z; c_cart_mode_select : Z }.

(** [struct gb_s], and the static objects of [gameboy.c] and [video.c] that its
    callbacks use: the file [rom], the array [cart_ram] ([save_ram] here) and the
    picture [fb]. *)
Record gb_s := Gb {
  gb_halt : Z; gb_ime : Z; gb_bios_enable : Z; gb_frame : Z; lcd_mode : Z; cart : cart_s;
  cart_rtc : list Z; cpu_reg : cpu_registers_s; gb_reg : gb_registers_s; counter : count_s;
  wram : list Z; vram : list Z; hram : list Z; oam : list Z; display : display_s; direct : direct_s;
  gb_serial_transfer : option (Z -> Z); rom : list Z; save_ram : list Z; fb : list (list Z) }.

(** ** Access to the fields *)

Notation fZ gb := (cpu_fZ (cpu_reg gb)).
Notation fN gb := (cpu_fN (cpu_reg gb)).
Notation fH gb := (cpu_fH (cpu_reg gb)).
Notation fC gb := (cpu_fC (cpu_reg gb)).
Notation rA gb := (cpu_rA (cpu_reg gb)).
Notation rB gb := (cpu_rB (cpu_reg gb)).
Notation rC gb := (cpu_rC (cpu_reg gb)).
Notation rD gb := (cpu_rD (cpu_reg gb)).
Notation rE gb := (cpu_rE (cpu_reg gb)).
Notation rH gb := (cpu_rH (cpu_reg gb)).
Notation rL gb := (cpu_rL (cpu_reg gb)).
Notation SP gb := (cpu_SP (cpu_reg gb)).
Notation PC gb := (cpu_PC (cpu_reg gb)).

Notation TIMA gb := (reg_TIMA (gb_reg gb)).
Notation TMA gb := (reg_TMA (gb_reg gb)).
Notation DIV gb := (reg_DIV (gb_reg gb)).
Notation TAC gb := (reg_TAC (gb_reg gb)).
Notation LCDC gb := (reg_LCDC (gb_reg gb)).
Notation STAT gb := (reg_STAT (gb_reg gb)).
Notation SCY gb := (reg_SCY (gb_reg gb)).
Notation SCX gb := (reg_SCX (gb_reg gb)).
Notation LY gb := (reg_LY (gb_reg gb)).
Notation LYC gb := (reg_LYC (gb_reg gb)).
Notation DMA gb := (reg_DMA (gb_reg gb)).
Notation BGP gb := (reg_BGP (gb_reg gb)).
Notation OBP0 gb := (reg_OBP0 (gb_reg gb)).
Notation OBP1 gb := (reg_OBP1 (gb_reg gb)).
Notation WY gb := (reg_WY (gb_reg gb)).
Notation WX gb := (reg_WX (gb_reg gb)).
Notation P1 gb := (reg_P1 (gb_reg gb)).
Notation SB gb := (reg_SB (gb_reg gb)).
Notation SC gb := (reg_SC (gb_reg gb)).
Notation IF' gb := (reg_IF' (gb_reg gb)).
Notation IE gb := (reg_IE (gb_reg gb)).

Notation lcd_count gb := (count_lcd_count (counter gb)).
Notation div_count gb := (count_div_count (counter gb)).
Notation tima_count gb := (count_tima_count (counter gb)).
Notation serial_count gb := (count_serial_count (counter gb)).

Notation bg_palette gb := (display_bg_palette (display gb)).
Notation sp_palette gb := (display_sp_palette (display gb)).
Notation window_clear gb := (display_window_clear (display gb)).
Notation dWY gb := (display_WY (display gb)).
Notation frame_skip_count gb := (display_frame_skip_count (display gb)).
Notation interlace_count gb := (display_interlace_count (display gb)).

Notation interlace gb := (direct_interlace (direct gb)).
Notation frame_skip gb := (direct_frame_skip (direct gb)).
Notation joypad gb := (direct_joypad (direct gb)).

Notation mbc gb := (c_mbc (cart gb)).
Notation cart_ram gb := (c_cart_ram (cart gb)).
Notation num_rom_banks gb := (c_num_rom_banks (cart gb)).
Notation num_ram_banks gb := (c_num_ram_banks (cart gb)).
Notation selected_rom_bank gb := (c_selected_rom_bank (cart gb)).
Notation cart_ram_bank gb := (c_cart_ram_bank (cart gb)).
Notation enable_cart_ram gb := (c_enable_cart_ram (cart gb)).
Notation cart_mode_select gb := (c_cart_mode_select (cart gb)).

Definition set_gb_halt (v : Z) (gb : gb_s) : gb_s :=
  Gb v (gb_ime gb) (gb_bios_enable gb) (gb_frame gb) (lcd_mode gb) (cart gb) (cart_rtc gb) (cpu_reg gb)
    (gb_reg gb) (counter gb) (wram gb) (vram gb) (hram gb) (oam gb) (display gb) (direct gb)
    (gb_serial_transfer gb) (rom gb) (save_ram gb) (fb gb).
Definition set_gb_ime (v : Z) (gb : gb_s) : gb_s :=
  Gb (gb_halt gb) v (gb_bios_enable gb) (gb_frame gb) (lcd_mode gb) (cart gb) (cart_rtc gb) (cpu_reg gb)
    (gb_reg gb) (counter gb) (wram gb) (vram gb) (hram gb) (oam gb) (display gb) (direct gb)
    (gb_serial_transfer gb) (rom gb) (save_ram gb) (fb gb).
Definition set_gb_bios_enable (v : Z) (gb : gb_s) : gb_s :=
  Gb (gb_halt gb) (gb_ime gb) v (gb_frame gb) (lcd_mode gb) (cart gb) (cart_rtc gb) (cpu_reg gb) (gb_reg gb)
    (counter gb) (wram gb) (vram gb) (hram gb) (oam gb) (display gb) (direct gb) (gb_serial_transfer gb)
    (rom gb) (save_ram gb) (fb gb).
Definition set_gb_frame (v : Z) (gb : gb_s) : gb_s :=
  Gb (gb_halt gb) (gb_ime gb) (gb_bios_enable gb) v (lcd_mode gb) (cart gb) (cart_rtc gb) (cpu_reg gb)
    (gb_reg gb) (counter gb) (wram gb) (vram gb) (hram gb) (oam gb) (display gb) (direct gb)
    (gb_serial_transfer gb) (rom gb) (save_ram gb) (fb gb).
Definition set_lcd_mode (v : Z) (gb : gb_s) : gb_s :=
  Gb (gb_halt gb) (gb_ime gb) (gb_bios_enable gb) (gb_frame gb) v (cart gb) (cart_rtc gb) (cpu_reg gb)
    (gb_reg gb) (counter gb) (wram gb) (vram gb) (hram gb) (oam gb) (display gb) (direct gb)
    (gb_serial_transfer gb) (rom gb) (save_ram gb) (fb gb).
Definition set_cart (v : cart_s) (gb : gb_s) : gb_s :=
  Gb (gb_halt gb) (gb_ime gb) (gb_bios_enable gb) (gb_frame gb) (lcd_mode gb) v (cart_rtc gb) (cpu_reg gb)
    (gb_reg gb) (counter gb) (wram gb) (vram gb) (hram gb) (oam gb) (display gb) (direct gb)
    (gb_serial_transfer gb) (rom gb) (save_ram gb) (fb gb).
Definition set_cart_rtc (v : list Z) (gb : gb_s) : gb_s :=
  Gb (gb_halt gb) (gb_ime gb) (gb_bios_enable gb) (gb_frame gb) (lcd_mode gb) (cart gb) v (cpu_reg gb)
    (gb_reg gb) (counter gb) (wram gb) (vram gb) (hram gb) (oam gb) (display gb) (direct gb)
    (gb_serial_transfer gb) (rom gb) (save_ram gb) (fb gb).
Definition set_cpu_reg (v : cpu_registers_s) (gb : gb_s) : gb_s :=
  Gb (gb_halt gb) (gb_ime gb) (gb_bios_enable gb) (gb_frame gb) (lcd_mode gb) (cart gb) (cart_rtc gb) v
    (gb_reg gb) (counter gb) (wram gb) (vram gb) (hram gb) (oam gb) (display gb) (direct gb)
    (gb_serial_transfer gb) (rom gb) (save_ram gb) (fb gb).
Definition set_gb_reg (v : gb_registers_s) (gb : gb_s) : gb_s :=
  Gb (gb_halt gb) (gb_ime gb) (gb_bios_enable gb) (gb_frame gb) (lcd_mode gb) (cart gb) (cart_rtc gb)
    (cpu_reg gb) v (counter gb) (wram gb) (vram gb) (hram gb) (oam gb) (display gb) (direct gb)
    (gb_serial_transfer gb) (rom gb) (save_ram gb) (fb gb).
Definition set_counter (v : count_s) (gb : gb_s) : gb_s :=
  Gb (gb_halt gb) (gb_ime gb) (gb_bios_enable gb) (gb_frame gb) (lcd_mode gb) (cart gb) (cart_rtc gb)
    (cpu_reg gb) (gb_reg gb) v (wram gb) (vram gb) (hram gb) (oam gb) (display gb) (direct gb)
    (gb_serial_transfer gb) (rom gb) (save_ram gb) (fb gb).
Definition set_wram (v : list Z) (gb : gb_s) : gb_s :=
  Gb (gb_halt gb) (gb_ime gb) (gb_bios_enable gb) (gb_frame gb) (lcd_mode gb) (cart gb) (cart_rtc gb)
    (cpu_reg gb) (gb_reg gb) (counter gb) v (vram gb) (hram gb) (oam gb) (display gb) (direct gb)
    (gb_serial_transfer gb) (rom gb) (save_ram gb) (fb gb).
Definition set_vram (v : list Z) (gb : gb_s) : gb_s :=
  Gb (gb_halt gb) (gb_ime gb) (gb_bios_enable gb) (gb_frame gb) (lcd_mode gb) (cart gb) (cart_rtc gb)
    (cpu_reg gb) (gb_reg gb) (counter gb) (wram gb) v (hram gb) (oam gb) (display gb) (direct gb)
    (gb_serial_transfer gb) (rom gb) (save_ram gb) (fb gb).
Definition set_hram (v : list Z) (gb : gb_s) : gb_s :=
  Gb (gb_halt gb) (gb_ime gb) (gb_bios_enable gb) (gb_frame gb) (lcd_mode gb) (cart gb) (cart_rtc gb)
    (cpu_reg gb) (gb_reg gb) (counter gb) (wram gb) (vram gb) v (oam gb) (display gb) (direct gb)
    (gb_serial_transfer gb) (rom gb) (save_ram gb) (fb gb).
Definition set_oam (v : list Z) (gb : gb_s) : gb_s :=
  Gb (gb_halt gb) (gb_ime gb) (gb_bios_enable gb) (gb_frame gb) (lcd_mode gb) (cart gb) (cart_rtc gb)
    (cpu_reg gb) (gb_reg gb) (counter gb) (wram gb) (vram gb) (hram gb) v (display gb) (direct gb)
    (gb_serial_transfer gb) (rom gb) (save_ram gb) (fb gb).
Definition set_display (v : display_s) (gb : gb_s) : gb_s :=
  Gb (gb_halt gb) (gb_ime gb) (gb_bios_enable gb) (gb_frame gb) (lcd_mode gb) (cart gb) (cart_rtc gb)
    (cpu_reg gb) (gb_reg gb) (counter gb) (wram gb) (vram gb) (hram gb) (oam gb) v (direct gb)
    (gb_serial_transfer gb) (rom gb) (save_ram gb) (fb gb).
Definition set_direct (v : direct_s) (gb : gb_s) : gb_s :=
  Gb (gb_halt gb) (gb_ime gb) (gb_bios_enable gb) (gb_frame gb) (lcd_mode gb) (cart gb) (cart_rtc gb)
    (cpu_reg gb) (gb_reg gb) (counter gb) (wram gb) (vram gb) (hram gb) (oam gb) (display gb) v
    (gb_serial_transfer gb) (rom gb) (save_ram gb) (fb gb).
Definition set_gb_serial_transfer (v : option (Z -> Z)) (gb : gb_s) : gb_s :=
  Gb (gb_halt gb) (gb_ime gb) (gb_bios_enable gb) (gb_frame gb) (lcd_mode gb) (cart gb) (cart_rtc gb)
    (cpu_reg gb) (gb_reg gb) (counter gb) (wram gb) (vram gb) (hram gb) (oam gb) (display gb) (direct gb) v
    (rom gb) (save_ram gb) (fb gb).
Definition set_rom (v : list Z) (gb : gb_s) : gb_s :=
  Gb (gb_halt gb) (gb_ime gb) (gb_bios_enable gb) (gb_frame gb) (lcd_mode gb) (cart gb) (cart_rtc gb)
    (cpu_reg gb) (gb_reg gb) (counter gb) (wram gb) (vram gb) (hram gb) (oam gb) (display gb) (direct gb)
    (gb_serial_transfer gb) v (save_ram gb) (fb gb).
Definition set_save_ram (v : list Z) (gb : gb_s) : gb_s :=
  Gb (gb_halt gb) (gb_ime gb) (gb_bios_enable gb) (gb_frame gb) (lcd_mode gb) (cart gb) (cart_rtc gb)
    (cpu_reg gb) (gb_reg gb) (counter gb) (wram gb) (vram gb) (hram gb) (oam gb) (display gb) (direct gb)
    (gb_serial_transfer gb) (rom gb) v (fb gb).
Definition set_fb (v : list (list Z)) (gb : gb_s) : gb_s :=
  Gb (gb_halt gb) (gb_ime gb) (gb_bios_enable gb) (gb_frame gb) (lcd_mode gb) (cart gb) (cart_rtc gb)
    (cpu_reg gb) (gb_reg gb) (counter gb) (wram gb) (vram gb) (hram gb) (oam gb) (display gb) (direct gb)
    (gb_serial_transfer gb) (rom gb) (save_ram gb) v.

Definition set_fZ (v : Z) (gb : gb_s) : gb_s :=
  let r := cpu_reg gb in set_cpu_reg (CpuRegisters v (cpu_fN r) (cpu_fH r) (cpu_fC r) (cpu_rA r) (cpu_rB r)
    (cpu_rC r) (cpu_rD r) (cpu_rE r) (cpu_rH r) (cpu_rL r) (cpu_SP r) (cpu_PC r)) gb.
Definition set_fN (v : Z) (gb : gb_s) : gb_s :=
  let r := cpu_reg gb in set_cpu_reg (CpuRegisters (cpu_fZ r) v (cpu_fH r) (cpu_fC r) (cpu_rA r) (cpu_rB r)
    (cpu_rC r) (cpu_rD r) (cpu_rE r) (cpu_rH r) (cpu_rL r) (cpu_SP r) (cpu_PC r)) gb.
Definition set_fH (v : Z) (gb : gb_s) : gb_s :=
  let r := cpu_reg gb in set_cpu_reg (CpuRegisters (cpu_fZ r) (cpu_fN r) v (cpu_fC r) (cpu_rA r) (cpu_rB r)
    (cpu_rC r) (cpu_rD r) (cpu_rE r) (cpu_rH r) (cpu_rL r) (cpu_SP r) (cpu_PC r)) gb.
Definition set_fC (v : Z) (gb : gb_s) : gb_s :=
  let r := cpu_reg gb in set_cpu_reg (CpuRegisters (cpu_fZ r) (cpu_fN r) (cpu_fH r) v (cpu_rA r) (cpu_rB r)
    (cpu_rC r) (cpu_rD r) (cpu_rE r) (cpu_rH r) (cpu_rL r) (cpu_SP r) (cpu_PC r)) gb.
Definition set_rA (v : Z) (gb : gb_s) : gb_s :=
  let r := cpu_reg gb in set_cpu_reg (CpuRegisters (cpu_fZ r) (cpu_fN r) (cpu_fH r) (cpu_fC r) v (cpu_rB r)
    (cpu_rC r) (cpu_rD r) (cpu_rE r) (cpu_rH r) (cpu_rL r) (cpu_SP r) (cpu_PC r)) gb.
Definition set_rB (v : Z) (gb : gb_s) : gb_s :=
  let r := cpu_reg gb in set_cpu_reg (CpuRegisters (cpu_fZ r) (cpu_fN r) (cpu_fH r) (cpu_fC r) (cpu_rA r) v
    (cpu_rC r) (cpu_rD r) (cpu_rE r) (cpu_rH r) (cpu_rL r) (cpu_SP r) (cpu_PC r)) gb.
Definition set_rC (v : Z) (gb : gb_s) : gb_s :=
  let r := cpu_reg gb in set_cpu_reg (CpuRegisters (cpu_fZ r) (cpu_fN r) (cpu_fH r) (cpu_fC r) (cpu_rA r)
    (cpu_rB r) v (cpu_rD r) (cpu_rE r) (cpu_rH r) (cpu_rL r) (cpu_SP r) (cpu_PC r)) gb.
Definition set_rD (v : Z) (gb : gb_s) : gb_s :=
  let r := cpu_reg gb in set_cpu_reg (CpuRegisters (cpu_fZ r) (cpu_fN r) (cpu_fH r) (cpu_fC r) (cpu_rA r)
    (cpu_rB r) (cpu_rC r) v (cpu_rE r) (cpu_rH r) (cpu_rL r) (cpu_SP r) (cpu_PC r)) gb.
Definition set_rE (v : Z) (gb : gb_s) : gb_s :=
  let r := cpu_reg gb in set_cpu_reg (CpuRegisters (cpu_fZ r) (cpu_fN r) (cpu_fH r) (cpu_fC r) (cpu_rA r)
    (cpu_rB r) (cpu_rC r) (cpu_rD r) v (cpu_rH r) (cpu_rL r) (cpu_SP r) (cpu_PC r)) gb.
Definition set_rH (v : Z) (gb : gb_s) : gb_s :=
  let r := cpu_reg gb in set_cpu_reg (CpuRegisters (cpu_fZ r) (cpu_fN r) (cpu_fH r) (cpu_fC r) (cpu_rA r)
    (cpu_rB r) (cpu_rC r) (cpu_rD r) (cpu_rE r) v (cpu_rL r) (cpu_SP r) (cpu_PC r)) gb.
Definition set_rL (v : Z) (gb : gb_s) : gb_s :=
  let r := cpu_reg gb in set_cpu_reg (CpuRegisters (cpu_fZ r) (cpu_fN r) (cpu_fH r) (cpu_fC r) (cpu_rA r)
    (cpu_rB r) (cpu_rC r) (cpu_rD r) (cpu_rE r) (cpu_rH r) v (cpu_SP r) (cpu_PC r)) gb.
Definition set_SP (v : Z) (gb : gb_s) : gb_s :=
  let r := cpu_reg gb in set_cpu_reg (CpuRegisters (cpu_fZ r) (cpu_fN r) (cpu_fH r) (cpu_fC r) (cpu_rA r)
    (cpu_rB r) (cpu_rC r) (cpu_rD r) (cpu_rE r) (cpu_rH r) (cpu_rL r) v (cpu_PC r)) gb.
Definition set_PC (v : Z) (gb : gb_s) : gb_s :=
  let r := cpu_reg gb in set_cpu_reg (CpuRegisters (cpu_fZ r) (cpu_fN r) (cpu_fH r) (cpu_fC r) (cpu_rA r)
    (cpu_rB r) (cpu_rC r) (cpu_rD r) (cpu_rE r) (cpu_rH r) (cpu_rL r) (cpu_SP r) v) gb.

Definition set_TIMA (v : Z) (gb : gb_s) : gb_s :=
  let r := gb_reg gb in set_gb_reg (GbRegisters v (reg_TMA r) (reg_DIV r) (reg_TAC r) (reg_LCDC r) (reg_STAT
    r) (reg_SCY r) (reg_SCX r) (reg_LY r) (reg_LYC r) (reg_DMA r) (reg_BGP r) (reg_OBP0 r) (reg_OBP1 r)
    (reg_WY r) (reg_WX r) (reg_P1 r) (reg_SB r) (reg_SC r) (reg_IF' r) (reg_IE r)) gb.
Definition set_TMA (v : Z) (gb : gb_s) : gb_s :=
  let r := gb_reg gb in set_gb_reg (GbRegisters (reg_TIMA r) v (reg_DIV r) (reg_TAC r) (reg_LCDC r)
    (reg_STAT r) (reg_SCY r) (reg_SCX r) (reg_LY r) (reg_LYC r) (reg_DMA r) (reg_BGP r) (reg_OBP0 r)
    (reg_OBP1 r) (reg_WY r) (reg_WX r) (reg_P1 r) (reg_SB r) (reg_SC r) (reg_IF' r) (reg_IE r)) gb.
Definition set_DIV (v : Z) (gb : gb_s) : gb_s :=
  let r := gb_reg gb in set_gb_reg (GbRegisters (reg_TIMA r) (reg_TMA r) v (reg_TAC r) (reg_LCDC r)
    (reg_STAT r) (reg_SCY r) (reg_SCX r) (reg_LY r) (reg_LYC r) (reg_DMA r) (reg_BGP r) (reg_OBP0 r)
    (reg_OBP1 r) (reg_WY r) (reg_WX r) (reg_P1 r) (reg_SB r) (reg_SC r) (reg_IF' r) (reg_IE r)) gb.
Definition set_TAC (v : Z) (gb : gb_s) : gb_s :=
  let r := gb_reg gb in set_gb_reg (GbRegisters (reg_TIMA r) (reg_TMA r) (reg_DIV r) v (reg_LCDC r)
    (reg_STAT r) (reg_SCY r) (reg_SCX r) (reg_LY r) (reg_LYC r) (reg_DMA r) (reg_BGP r) (reg_OBP0 r)
    (reg_OBP1 r) (reg_WY r) (reg_WX r) (reg_P1 r) (reg_SB r) (reg_SC r) (reg_IF' r) (reg_IE r)) gb.
Definition set_LCDC (v : Z) (gb : gb_s) : gb_s :=
  let r := gb_reg gb in set_gb_reg (GbRegisters (reg_TIMA r) (reg_TMA r) (reg_DIV r) (reg_TAC r) v (reg_STAT
    r) (reg_SCY r) (reg_SCX r) (reg_LY r) (reg_LYC r) (reg_DMA r) (reg_BGP r) (reg_OBP0 r) (reg_OBP1 r)
    (reg_WY r) (reg_WX r) (reg_P1 r) (reg_SB r) (reg_SC r) (reg_IF' r) (reg_IE r)) gb.
Definition set_STAT (v : Z) (gb : gb_s) : gb_s :=
  let r := gb_reg gb in set_gb_reg (GbRegisters (reg_TIMA r) (reg_TMA r) (reg_DIV r) (reg_TAC r) (reg_LCDC
    r) v (reg_SCY r) (reg_SCX r) (reg_LY r) (reg_LYC r) (reg_DMA r) (reg_BGP r) (reg_OBP0 r) (reg_OBP1 r)
    (reg_WY r) (reg_WX r) (reg_P1 r) (reg_SB r) (reg_SC r) (reg_IF' r) (reg_IE r)) gb.
Definition set_SCY (v : Z) (gb : gb_s) : gb_s :=
  let r := gb_reg gb in set_gb_reg (GbRegisters (reg_TIMA r) (reg_TMA r) (reg_DIV r) (reg_TAC r) (reg_LCDC
    r) (reg_STAT r) v (reg_SCX r) (reg_LY r) (reg_LYC r) (reg_DMA r) (reg_BGP r) (reg_OBP0 r) (reg_OBP1 r)
    (reg_WY r) (reg_WX r) (reg_P1 r) (reg_SB r) (reg_SC r) (reg_IF' r) (reg_IE r)) gb.
Definition set_SCX (v : Z) (gb : gb_s) : gb_s :=
  let r := gb_reg gb in set_gb_reg (GbRegisters (reg_TIMA r) (reg_TMA r) (reg_DIV r) (reg_TAC r) (reg_LCDC
    r) (reg_STAT r) (reg_SCY r) v (reg_LY r) (reg_LYC r) (reg_DMA r) (reg_BGP r) (reg_OBP0 r) (reg_OBP1 r)
    (reg_WY r) (reg_WX r) (reg_P1 r) (reg_SB r) (reg_SC r) (reg_IF' r) (reg_IE r)) gb.
Definition set_LY (v : Z) (gb : gb_s) : gb_s :=
  let r := gb_reg gb in set_gb_reg (GbRegisters (reg_TIMA r) (reg_TMA r) (reg_DIV r) (reg_TAC r) (reg_LCDC
    r) (reg_STAT r) (reg_SCY r) (reg_SCX r) v (reg_LYC r) (reg_DMA r) (reg_BGP r) (reg_OBP0 r) (reg_OBP1 r)
    (reg_WY r) (reg_WX r) (reg_P1 r) (reg_SB r) (reg_SC r) (reg_IF' r) (reg_IE r)) gb.
Definition set_LYC (v : Z) (gb : gb_s) : gb_s :=
  let r := gb_reg gb in set_gb_reg (GbRegisters (reg_TIMA r) (reg_TMA r) (reg_DIV r) (reg_TAC r) (reg_LCDC
    r) (reg_STAT r) (reg_SCY r) (reg_SCX r) (reg_LY r) v (reg_DMA r) (reg_BGP r) (reg_OBP0 r) (reg_OBP1 r)
    (reg_WY r) (reg_WX r) (reg_P1 r) (reg_SB r) (reg_SC r) (reg_IF' r) (reg_IE r)) gb.
Definition set_DMA (v : Z) (gb : gb_s) : gb_s :=
  let r := gb_reg gb in set_gb_reg (GbRegisters (reg_TIMA r) (reg_TMA r) (reg_DIV r) (reg_TAC r) (reg_LCDC
    r) (reg_STAT r) (reg_SCY r) (reg_SCX r) (reg_LY r) (reg_LYC r) v (reg_BGP r) (reg_OBP0 r) (reg_OBP1 r)
    (reg_WY r) (reg_WX r) (reg_P1 r) (reg_SB r) (reg_SC r) (reg_IF' r) (reg_IE r)) gb.
Definition set_BGP (v : Z) (gb : gb_s) : gb_s :=
  let r := gb_reg gb in set_gb_reg (GbRegisters (reg_TIMA r) (reg_TMA r) (reg_DIV r) (reg_TAC r) (reg_LCDC
    r) (reg_STAT r) (reg_SCY r) (reg_SCX r) (reg_LY r) (reg_LYC r) (reg_DMA r) v (reg_OBP0 r) (reg_OBP1 r)
    (reg_WY r) (reg_WX r) (reg_P1 r) (reg_SB r) (reg_SC r) (reg_IF' r) (reg_IE r)) gb.
Definition set_OBP0 (v : Z) (gb : gb_s) : gb_s :=
  let r := gb_reg gb in set_gb_reg (GbRegisters (reg_TIMA r) (reg_TMA r) (reg_DIV r) (reg_TAC r) (reg_LCDC
    r) (reg_STAT r) (reg_SCY r) (reg_SCX r) (reg_LY r) (reg_LYC r) (reg_DMA r) (reg_BGP r) v (reg_OBP1 r)
    (reg_WY r) (reg_WX r) (reg_P1 r) (reg_SB r) (reg_SC r) (reg_IF' r) (reg_IE r)) gb.
Definition set_OBP1 (v : Z) (gb : gb_s) : gb_s :=
  let r := gb_reg gb in set_gb_reg (GbRegisters (reg_TIMA r) (reg_TMA r) (reg_DIV r) (reg_TAC r) (reg_LCDC
    r) (reg_STAT r) (reg_SCY r) (reg_SCX r) (reg_LY r) (reg_LYC r) (reg_DMA r) (reg_BGP r) (reg_OBP0 r) v
    (reg_WY r) (reg_WX r) (reg_P1 r) (reg_SB r) (reg_SC r) (reg_IF' r) (reg_IE r)) gb.
Definition set_WY (v : Z) (gb : gb_s) : gb_s :=
  let r := gb_reg gb in set_gb_reg (GbRegisters (reg_TIMA r) (reg_TMA r) (reg_DIV r) (reg_TAC r) (reg_LCDC
    r) (reg_STAT r) (reg_SCY r) (reg_SCX r) (reg_LY r) (reg_LYC r) (reg_DMA r) (reg_BGP r) (reg_OBP0 r)
    (reg_OBP1 r) v (reg_WX r) (reg_P1 r) (reg_SB r) (reg_SC r) (reg_IF' r) (reg_IE r)) gb.
Definition set_WX (v : Z) (gb : gb_s) : gb_s :=
  let r := gb_reg gb in set_gb_reg (GbRegisters (reg_TIMA r) (reg_TMA r) (reg_DIV r) (reg_TAC r) (reg_LCDC
    r) (reg_STAT r) (reg_SCY r) (reg_SCX r) (reg_LY r) (reg_LYC r) (reg_DMA r) (reg_BGP r) (reg_OBP0 r)
    (reg_OBP1 r) (reg_WY r) v (reg_P1 r) (reg_SB r) (reg_SC r) (reg_IF' r) (reg_IE r)) gb.
Definition set_P1 (v : Z) (gb : gb_s) : gb_s :=
  let r := gb_reg gb in set_gb_reg (GbRegisters (reg_TIMA r) (reg_TMA r) (reg_DIV r) (reg_TAC r) (reg_LCDC
    r) (reg_STAT r) (reg_SCY r) (reg_SCX r) (reg_LY r) (reg_LYC r) (reg_DMA r) (reg_BGP r) (reg_OBP0 r)
    (reg_OBP1 r) (reg_WY r) (reg_WX r) v (reg_SB r) (reg_SC r) (reg_IF' r) (reg_IE r)) gb.
Definition set_SB (v : Z) (gb : gb_s) : gb_s :=
  let r := gb_reg gb in set_gb_reg (GbRegisters (reg_TIMA r) (reg_TMA r) (reg_DIV r) (reg_TAC r) (reg_LCDC
    r) (reg_STAT r) (reg_SCY r) (reg_SCX r) (reg_LY r) (reg_LYC r) (reg_DMA r) (reg_BGP r) (reg_OBP0 r)
    (reg_OBP1 r) (reg_WY r) (reg_WX r) (reg_P1 r) v (reg_SC r) (reg_IF' r) (reg_IE r)) gb.
Definition set_SC (v : Z) (gb : gb_s) : gb_s :=
  let r := gb_reg gb in set_gb_reg (GbRegisters (reg_TIMA r) (reg_TMA r) (reg_DIV r) (reg_TAC r) (reg_LCDC
    r) (reg_STAT r) (reg_SCY r) (reg_SCX r) (reg_LY r) (reg_LYC r) (reg_DMA r) (reg_BGP r) (reg_OBP0 r)
    (reg_OBP1 r) (reg_WY r) (reg_WX r) (reg_P1 r) (reg_SB r) v (reg_IF' r) (reg_IE r)) gb.
Definition set_IF' (v : Z) (gb : gb_s) : gb_s :=
  let r := gb_reg gb in set_gb_reg (GbRegisters (reg_TIMA r) (reg_TMA r) (reg_DIV r) (reg_TAC r) (reg_LCDC
    r) (reg_STAT r) (reg_SCY r) (reg_SCX r) (reg_LY r) (reg_LYC r) (reg_DMA r) (reg_BGP r) (reg_OBP0 r)
    (reg_OBP1 r) (reg_WY r) (reg_WX r) (reg_P1 r) (reg_SB r) (reg_SC r) v (reg_IE r)) gb.
Definition set_IE (v : Z) (gb : gb_s) : gb_s :=
  let r := gb_reg gb in set_gb_reg (GbRegisters (reg_TIMA r) (reg_TMA r) (reg_DIV r) (reg_TAC r) (reg_LCDC
    r) (reg_STAT r) (reg_SCY r) (reg_SCX r) (reg_LY r) (reg_LYC r) (reg_DMA r) (reg_BGP r) (reg_OBP0 r)
    (reg_OBP1 r) (reg_WY r) (reg_WX r) (reg_P1 r) (reg_SB r) (reg_SC r) (reg_IF' r) v) gb.

Definition set_lcd_count (v : Z) (gb : gb_s) : gb_s :=
  let r := counter gb in set_counter (Count v (count_div_count r) (count_tima_count r) (count_serial_count
    r)) gb.
Definition set_div_count (v : Z) (gb : gb_s) : gb_s :=
  let r := counter gb in set_counter (Count (count_lcd_count r) v (count_tima_count r) (count_serial_count
    r)) gb.
Definition set_tima_count (v : Z) (gb : gb_s) : gb_s :=
  let r := counter gb in set_counter (Count (count_lcd_count r) (count_div_count r) v (count_serial_count
    r)) gb.
Definition set_serial_count (v : Z) (gb : gb_s) : gb_s :=
  let r := counter gb in set_counter (Count (count_lcd_count r) (count_div_count r) (count_tima_count r) v)
    gb.

Definition set_bg_palette (v : list Z) (gb : gb_s) : gb_s :=
  let r := display gb in set_display (Display v (display_sp_palette r) (display_window_clear r) (display_WY
    r) (display_frame_skip_count r) (display_interlace_count r)) gb.
Definition set_sp_palette (v : list Z) (gb : gb_s) : gb_s :=
  let r := display gb in set_display (Display (display_bg_palette r) v (display_window_clear r) (display_WY
    r) (display_frame_skip_count r) (display_interlace_count r)) gb.
Definition set_window_clear (v : Z) (gb : gb_s) : gb_s :=
  let r := display gb in set_display (Display (display_bg_palette r) (display_sp_palette r) v (display_WY r)
    (display_frame_skip_count r) (display_interlace_count r)) gb.
Definition set_display_WY (v : Z) (gb : gb_s) : gb_s :=
  let r := display gb in set_display (Display (display_bg_palette r) (display_sp_palette r)
    (display_window_clear r) v (display_frame_skip_count r) (display_interlace_count r)) gb.
Definition set_frame_skip_count (v : Z) (gb : gb_s) : gb_s :=
  let r := display gb in set_display (Display (display_bg_palette r) (display_sp_palette r)
    (display_window_clear r) (display_WY r) v (display_interlace_count r)) gb.
Definition set_interlace_count (v : Z) (gb : gb_s) : gb_s :=
  let r := display gb in set_display (Display (display_bg_palette r) (display_sp_palette r)
    (display_window_clear r) (display_WY r) (display_frame_skip_count r) v) gb.

Definition set_interlace (v : Z) (gb : gb_s) : gb_s :=
  let r := direct gb in set_direct (Direct v (direct_frame_skip r) (direct_joypad r)) gb.
Definition set_frame_skip (v : Z) (gb : gb_s) : gb_s :=
  let r := direct gb in set_direct (Direct (direct_interlace r) v (direct_joypad r)) gb.
Definition set_joypad (v : Z) (gb : gb_s) : gb_s :=
  let r := direct gb in set_direct (Direct (direct_interlace r) (direct_frame_skip r) v) gb.

Definition set_mbc (v : Z) (gb : gb_s) : gb_s :=
  let r := cart gb in set_cart (Cart v (c_cart_ram r) (c_num_rom_banks r) (c_num_ram_banks r)
    (c_selected_rom_bank r) (c_cart_ram_bank r) (c_enable_cart_ram r) (c_cart_mode_select r)) gb.
Definition set_cart_ram (v : Z) (gb : gb_s) : gb_s :=
  let r := cart gb in set_cart (Cart (c_mbc r) v (c_num_rom_banks r) (c_num_ram_banks r)
    (c_selected_rom_bank r) (c_cart_ram_bank r) (c_enable_cart_ram r) (c_cart_mode_select r)) gb.
Definition set_num_rom_banks (v : Z) (gb : gb_s) : gb_s :=
  let r := cart gb in set_cart (Cart (c_mbc r) (c_cart_ram r) v (c_num_ram_banks r) (c_selected_rom_bank r)
    (c_cart_ram_bank r) (c_enable_cart_ram r) (c_cart_mode_select r)) gb.
Definition set_num_ram_banks (v : Z) (gb : gb_s) : gb_s :=
  let r := cart gb in set_cart (Cart (c_mbc r) (c_cart_ram r) (c_num_rom_banks r) v (c_selected_rom_bank r)
    (c_cart_ram_bank r) (c_enable_cart_ram r) (c_cart_mode_select r)) gb.
Definition set_selected_rom_bank (v : Z) (gb : gb_s) : gb_s :=
  let r := cart gb in set_cart (Cart (c_mbc r) (c_cart_ram r) (c_num_rom_banks r) (c_num_ram_banks r) v
    (c_cart_ram_bank r) (c_enable_cart_ram r) (c_cart_mode_select r)) gb.
Definition set_cart_ram_bank (v : Z) (gb : gb_s) : gb_s :=
  let r := cart gb in set_cart (Cart (c_mbc r) (c_cart_ram r) (c_num_rom_banks r) (c_num_ram_banks r)
    (c_selected_rom_bank r) v (c_enable_cart_ram r) (c_cart_mode_select r)) gb.
Definition set_enable_cart_ram (v : Z) (gb : gb_s) : gb_s :=
  let r := cart gb in set_cart (Cart (c_mbc r) (c_cart_ram r) (c_num_rom_banks r) (c_num_ram_banks r)
    (c_selected_rom_bank r) (c_cart_ram_bank r) v (c_cart_mode_select r)) gb.
Definition set_cart_mode_select (v : Z) (gb : gb_s) : gb_s :=
  let r := cart gb in set_cart (Cart (c_mbc r) (c_cart_ram r) (c_num_rom_banks r) (c_num_ram_banks r)
    (c_selected_rom_bank r) (c_cart_ram_bank r) (c_enable_cart_ram r) v) gb.

(** Assignment to a field of one bit. *)
Definition u1 (z : Z) : Z := z mod 2.

(** A value as a condition. *)
Definition nz (x : Z) : bool := negb (x =? 0).

(** Register pairs. *)
Definition pair (hi lo : Z) : Z := 256 * hi + lo.
Notation BC gb := (pair (rB gb) (rC gb)).
Notation DE gb := (pair (rD gb) (rE gb)).
Notation HL gb := (pair (rH gb) (rL gb)).
Definition set_BC (v : Z) (gb : gb_s) : gb_s := set_rC (u8 v) (set_rB (u8 (v / 256)) gb).
Definition set_DE (v : Z) (gb : gb_s) : gb_s := set_rE (u8 v) (set_rD (u8 (v / 256)) gb).
Definition set_HL (v : Z) (gb : gb_s) : gb_s := set_rL (u8 v) (set_rH (u8 (v / 256)) gb).

(** ** Well-formed states *)

Definition bytes (n : Z) (l : list Z) : Prop := Z.of_nat (length l) = n /\ Forall is_byte l.

Record wf_cpu (r : cpu_registers_s) : Prop := {
  wf_fZ : 0 <= cpu_fZ r < 2; wf_fN : 0 <= cpu_fN r < 2; wf_fH : 0 <= cpu_fH r < 2; wf_fC : 0 <= cpu_fC r < 2;
  wf_rA : is_byte (cpu_rA r); wf_rB : is_byte (cpu_rB r); wf_rC : is_byte (cpu_rC r);
  wf_rD : is_byte (cpu_rD r); wf_rE : is_byte (cpu_rE r); wf_rH : is_byte (cpu_rH r);
  wf_rL : is_byte (cpu_rL r); wf_SP : 0 <= cpu_SP r < 65536; wf_PC : 0 <= cpu_PC r < 65536 }.

Record wf_io (r : gb_registers_s) : Prop := {
  wf_TIMA : is_byte (reg_TIMA r); wf_TMA : is_byte (reg_TMA r); wf_DIV : is_byte (reg_DIV r);
  wf_TAC : is_byte (reg_TAC r); wf_LCDC : is_byte (reg_LCDC r); wf_STAT : is_byte (reg_STAT r);
  wf_SCY : is_byte (reg_SCY r); wf_SCX : is_byte (reg_SCX r); wf_LY : 0 <= reg_LY r < 154;
  wf_LYC : is_byte (reg_LYC r); wf_DMA : is_byte (reg_DMA r); wf_BGP : is_byte (reg_BGP r);
  wf_OBP0 : is_byte (reg_OBP0 r); wf_OBP1 : is_byte (reg_OBP1 r); wf_WY : is_byte (reg_WY r);
  wf_WX : is_byte (reg_WX r); wf_P1 : is_byte (reg_P1 r); wf_SB : is_byte (reg_SB r);
  wf_SC : is_byte (reg_SC r); wf_IF : is_byte (reg_IF' r); wf_IE : is_byte (reg_IE r) }.

(** After a step no clock is a full period behind, but for the timer: at its
    fastest rate it has a period shorter than some instructions. *)
Record wf_count (k : count_s) : Prop := {
  wf_lcd_count : 0 <= count_lcd_count k <= 456; wf_div_count : 0 <= count_div_count k < 256;
  wf_tima_count : 0 <= count_tima_count k < 4294967296; wf_serial_count : 0 <= count_serial_count k < 4096 }.

Definition shades (n : Z) (l : list Z) : Prop := Z.of_nat (length l) = n /\ Forall (fun c => 0 <= c < 4) l.

Record wf_display (d : display_s) : Prop := {
  wf_bg_palette : shades 4 (display_bg_palette d); wf_sp_palette : shades 8 (display_sp_palette d);
  wf_window_clear : is_byte (display_window_clear d); wf_display_WY : is_byte (display_WY d) }.

(** The cartridge: a bank is selected that exists, the file has all the banks
    and the array for its memory too, and the clock of a cartridge of type 3 is
    not used. *)
Record wf_cart (c : cart_s) (rom save : list Z) : Prop := {
  wf_rom : Forall is_byte rom; wf_save_ram : Forall is_byte save;
  wf_rom_min : 32768 <= Z.of_nat (length rom) < 2147483648; wf_ram_min : 8192 <= Z.of_nat (length save);
  wf_num_rom_banks : 0 < c_num_rom_banks c; wf_rom_length : c_num_rom_banks c * 16384 <= Z.of_nat (length rom);
  wf_selected : 0 <= c_selected_rom_bank c < 256; wf_selected_bank : c_selected_rom_bank c < c_num_rom_banks c;
  wf_cart_ram_bank : is_byte (c_cart_ram_bank c); wf_num_ram_banks : is_byte (c_num_ram_banks c);
  wf_ram_length : c_num_ram_banks c * 8192 <= Z.of_nat (length save);
  wf_no_clock : c_mbc c = 3 -> c_cart_ram c = 0 }.

Record wf (gb : gb_s) : Prop := {
  wf_cpu_reg : wf_cpu (cpu_reg gb); wf_gb_reg : wf_io (gb_reg gb);
  wf_displ : wf_display (display gb); wf_cartridge : wf_cart (cart gb) (rom gb) (save_ram gb);
  wf_joypad : is_byte (joypad gb); wf_lcd_mode : 0 <= lcd_mode gb < 4;
  wf_cart_rtc : bytes 5 (cart_rtc gb);
  wf_wram : bytes 8192 (wram gb); wf_vram : bytes 8192 (vram gb);
  wf_hram : bytes 256 (hram gb); wf_oam : bytes 160 (oam gb) }.

(** ** Bytes *)

Create HintDb gb.

Lemma byte_land a b : is_byte a -> is_byte (Z.land a b).
Proof.
  unfold is_byte. intros Ha. assert (0 <= Z.land a b) by (apply Z.land_nonneg; lia). split; [done|].
  replace (Z.land a b) with (Z.land a b mod 2 ^ 8); [apply Z.mod_pos_bound; lia|].
  rewrite <- (Z.mod_small a (2 ^ 8)) by lia. Z.bitblast.
Qed.

Lemma byte_lor a b : is_byte a -> is_byte b -> is_byte (Z.lor a b).
Proof.
  unfold is_byte. intros Ha Hb. assert (0 <= Z.lor a b) by (apply Z.lor_nonneg; lia). split; [done|].
  replace (Z.lor a b) with (Z.lor a b mod 2 ^ 8); [apply Z.mod_pos_bound; lia|].
  rewrite <- (Z.mod_small a (2 ^ 8)), <- (Z.mod_small b (2 ^ 8)) by lia. Z.bitblast.
Qed.

Lemma byte_lxor a b : is_byte a -> is_byte b -> is_byte (Z.lxor a b).
Proof.
  unfold is_byte. intros Ha Hb. assert (0 <= Z.lxor a b) by (apply Z.lxor_nonneg; lia). split; [done|].
  replace (Z.lxor a b) with (Z.lxor a b mod 2 ^ 8); [apply Z.mod_pos_bound; lia|].
  rewrite <- (Z.mod_small a (2 ^ 8)), <- (Z.mod_small b (2 ^ 8)) by lia. Z.bitblast.
Qed.

Lemma byte_shiftr a k : is_byte a -> 0 <= k -> is_byte (Z.shiftr a k).
Proof.
  unfold is_byte. intros Ha Hk. rewrite Z.shiftr_div_pow2 by done.
  pose proof (Z.pow_pos_nonneg 2 k ltac:(lia) Hk). split; [apply Z.div_pos; lia|].
  apply Z.div_lt_upper_bound; nia.
Qed.

Lemma byte_u8 z : is_byte (u8 z).
Proof. apply u8_range. Qed.

Lemma land_small a b n : 0 <= b < n -> 0 <= Z.land a b < n.
Proof.
  intros Hb. split; [apply Z.land_nonneg; lia|]. apply Z.le_lt_trans with b; [|lia]. apply Z.le_0_sub.
  rewrite Z.sub_nocarry_ldiff by (apply Z.bits_inj'; intros; rewrite Z.ldiff_spec, Z.land_spec, Z.bits_0;
    by destruct (Z.testbit a n0), (Z.testbit b n0)).
  apply Z.ldiff_nonneg. lia.
Qed.

Lemma byte_const z : (0 <=? z) && (z <? 256) = true -> is_byte z.
Proof. unfold is_byte. rewrite andb_true_iff, Z.leb_le, Z.ltb_lt. lia. Qed.

#[export] Hint Resolve byte_land byte_lor byte_lxor byte_u8 : gb.
#[export] Hint Extern 2 (is_byte (Z.shiftr _ _)) => apply byte_shiftr; [|lia] : gb.
#[export] Hint Extern 1 (is_byte ?z) => apply byte_const; reflexivity : gb.

(** ** Arrays *)

Lemma Forall_rd (P : Z -> Prop) l i : Forall P l -> 0 <= i < Z.of_nat (length l) -> exists v, rd l i = Some v /\ P v.
Proof.
  intros Hl Hi. destruct (rd_Some l i Hi) as [v Hv]. exists v. split; [done|].
  eapply Forall_lookup_1; [done|]. by apply rd_lookup in Hv.
Qed.

Lemma Forall_wr (P : Z -> Prop) l i v :
  Forall P l -> 0 <= i < Z.of_nat (length l) -> P v ->
  exists l', wr l i v = Some l' /\ length l' = length l /\ Forall P l'.
Proof.
  intros Hl Hi Hv. rewrite wr_Some by done. eexists. split; [done|]. rewrite length_insert. split; [done|].
  by apply Forall_insert.
Qed.

Lemma bytes_rd n l i : bytes n l -> 0 <= i < n -> exists v, rd l i = Some v /\ is_byte v.
Proof. intros [<- Hl] Hi. by apply Forall_rd. Qed.

Lemma bytes_wr n l i v : bytes n l -> 0 <= i < n -> is_byte v -> exists l', wr l i v = Some l' /\ bytes n l'.
Proof.
  intros [<- Hl] Hi Hv. destruct (Forall_wr is_byte l i v Hl Hi Hv) as (l' & -> & Hlen & Hl'). exists l'.
  split; [done|]. by split; [rewrite Hlen|].
Qed.

(** ** A console *)

Definition zeros (n : Z) : list Z := replicate (Z.to_nat n) 0.

(** A file of 512 KiB that holds no program, with the checksum of its header. *)
Definition demo_rom : list Z := replicate 0x14D 0 ++ 0xE7 :: zeros (0x80000 - 0x14E).

#[global] Arguments zeros : simpl never.
#[global] Arguments demo_rom : simpl never.

(** The console with that cartridge, cleared. *)
Definition demo : gb_s :=
  Gb 0 0 0 0 0 (Cart 0 0 2 0 1 0 0 0) (zeros 5) (CpuRegisters 0 0 0 0 0 0 0 0 0 0 0 0xFFFE 0x100)
    (GbRegisters 0 0 0 0 0 0 0 0 0 0 0 0 0 0 0 0 0 0 0 0 0) (Count 0 0 0 0)
    (zeros 8192) (zeros 8192) (zeros 256) (zeros 160) (Display (zeros 4) (zeros 8) 0 0 0 0) (Direct 0 0 0xFF)
    None demo_rom (zeros 0x20000) (replicate 144 (replicate 160 0)).

Lemma zeros_bytes n : 0 <= n -> bytes n (zeros n).
Proof. intros Hn. unfold zeros. split; [rewrite length_replicate; lia|]. apply Forall_replicate. unfold is_byte. lia. Qed.

Lemma zeros_shades n : 0 <= n -> shades n (zeros n).
Proof. intros Hn. unfold zeros. split; [rewrite length_replicate; lia|]. apply Forall_replicate. lia. Qed.

Lemma demo_rom_bytes : bytes 0x80000 demo_rom.
Proof.
  destruct (zeros_bytes (0x80000 - 0x14E) ltac:(lia)) as [Hl Hb]. unfold demo_rom. split.
  - rewrite length_app, length_replicate. cbn [length]. lia.
  - apply Forall_app. split; [apply Forall_replicate; unfold is_byte; lia|]. constructor; [unfold is_byte; lia|done].
Qed.

Lemma demo_wf : wf demo.
Proof.
  pose proof demo_rom_bytes as [Hr Hrb]. pose proof (zeros_bytes 0x20000 ltac:(lia)) as [Hs Hsb].
  split.
  - split; cbn; unfold is_byte; lia.
  - split; cbn; unfold is_byte; lia.
  - split; [exact (zeros_shades 4 ltac:(lia))|exact (zeros_shades 8 ltac:(lia))|..]; cbn; unfold is_byte; lia.
  - split; [exact Hrb|exact Hsb|..]; cbn; unfold is_byte; lia.
  - cbn. unfold is_byte. lia.
  - cbn. lia.
  - exact (zeros_bytes 5 ltac:(lia)).
  - exact (zeros_bytes 8192 ltac:(lia)).
  - exact (zeros_bytes 8192 ltac:(lia)).
  - exact (zeros_bytes 256 ltac:(lia)).
  - exact (zeros_bytes 160 ltac:(lia)).
Qed.
