(* ===== verification/GbMemory.v ===== *)
(** * Game Boy: the address space (src/src/gameboy/cpu.c, gameboy.c)

    [__gb_read] and [__gb_write] are the accesses of the program in the console
    to its 64 KiB: the cartridge behind its bank switch, the memories, and the
    registers of the devices.  [None] is an access outside an array of the
    emulator or a division by zero. *)
From S2P Require Import Prelude GbState.

Local Open Scope Z_scope.

Definition VRAM_ADDR : Z := 0x8000.
Definition CART_RAM_ADDR : Z := 0xA000.
Definition WRAM_0_ADDR : Z := 0xC000.
Definition WRAM_1_ADDR : Z := 0xD000.
Definition ECHO_ADDR : Z := 0xE000.
Definition OAM_ADDR : Z := 0xFE00.
Definition UNUSED_ADDR : Z := 0xFEA0.
Definition IO_ADDR : Z := 0xFF00.
Definition HRAM_ADDR : Z := 0xFF80.
Definition INTR_EN_ADDR : Z := 0xFFFF.
Definition ROM_BANK_SIZE : Z := 0x4000.
Definition WRAM_BANK_SIZE : Z := 0x1000.
Definition CRAM_BANK_SIZE : Z := 0x2000.
Definition OAM_SIZE : nat := 160.
Definition LCD_HBLANK : Z := 0.
Definition LCD_VBLANK : Z := 1.
Definition LCD_SEARCH_OAM : Z := 2.
Definition LCD_TRANSFER : Z := 3.
Definition STAT_USER_BITS : Z := 0xF8.
Definition LCDC_ENABLE : Z := 0x80.

(** ** Callbacks of gameboy.c *)

Inductive gb_error_e := GB_UNKNOWN_ERROR | GB_INVALID_OPCODE | GB_INVALID_READ | GB_INVALID_WRITE | GB_INVALID_MAX.

Definition gb_rom_read (gb : gb_s) (addr : Z) : option Z := rd (rom gb) addr.
Definition gb_cart_ram_read (gb : gb_s) (addr : Z) : option Z := rd (save_ram gb) addr.
Definition gb_cart_ram_write (gb : gb_s) (addr val : Z) : option gb_s :=
  m ← wr (save_ram gb) addr val; Some (set_save_ram m gb).
Definition gb_error (gb : gb_s) (gb_err : gb_error_e) (val : Z) : gb_s := gb.

(** ** Reading *)

Definition read_io (gb : gb_s) (addr : Z) : Z :=
  match Z.land addr 0xFF with
  | 0x00 => Z.lor 0xC0 (P1 gb)
  | 0x01 => SB gb
  | 0x02 => SC gb
  | 0x04 => DIV gb
  | 0x05 => TIMA gb
  | 0x06 => TMA gb
  | 0x07 => TAC gb
  | 0x0F => IF' gb
  | 0x40 => LCDC gb
  | 0x41 => Z.lor (Z.land (STAT gb) STAT_USER_BITS) (if nz (Z.land (LCDC gb) LCDC_ENABLE) then lcd_mode gb else LCD_VBLANK)
  | 0x42 => SCY gb
  | 0x43 => SCX gb
  | 0x44 => LY gb
  | 0x45 => LYC gb
  | 0x46 => DMA gb
  | 0x47 => BGP gb
  | 0x48 => OBP0 gb
  | 0x49 => OBP1 gb
  | 0x4A => WY gb
  | 0x4B => WX gb
  | 0xFF => IE gb
  | _ => 0xFF
  end.

Definition read_cart (gb : gb_s) (addr : Z) : option Z :=
  if nz (cart_ram gb) && nz (enable_cart_ram gb) then
    if (mbc gb =? 3) && (0x08 <=? cart_ram_bank gb) then rd (cart_rtc gb) (cart_ram_bank gb - 0x08)
    else if (nz (cart_mode_select gb) || negb (mbc gb =? 1)) && (cart_ram_bank gb <? num_ram_banks gb) then
      gb_cart_ram_read gb (addr - CART_RAM_ADDR + cart_ram_bank gb * CRAM_BANK_SIZE)
    else gb_cart_ram_read gb (addr - CART_RAM_ADDR)
  else Some 0.

(** [gb_error] changes nothing, so a read leaves the state as it is. *)
Definition __gb_read (gb : gb_s) (addr : Z) : option Z :=
  match Z.shiftr addr 12 with
  | 0x0 | 0x1 | 0x2 | 0x3 => gb_rom_read gb addr
  | 0x4 | 0x5 | 0x6 | 0x7 =>
      if (mbc gb =? 1) && nz (cart_mode_select gb) then
        gb_rom_read gb (u32 (addr + (Z.land (selected_rom_bank gb) 0x1F - 1) * ROM_BANK_SIZE))
      else gb_rom_read gb (u32 (addr + (selected_rom_bank gb - 1) * ROM_BANK_SIZE))
  | 0x8 | 0x9 => rd (vram gb) (addr - VRAM_ADDR)
  | 0xA | 0xB => read_cart gb addr
  | 0xC => rd (wram gb) (addr - WRAM_0_ADDR)
  | 0xD => rd (wram gb) (addr - WRAM_1_ADDR + WRAM_BANK_SIZE)
  | 0xE => rd (wram gb) (addr - ECHO_ADDR)
  | 0xF =>
      if addr <? OAM_ADDR then rd (wram gb) (addr - ECHO_ADDR)
      else if addr <? UNUSED_ADDR then rd (oam gb) (addr - OAM_ADDR)
      else if addr <? IO_ADDR then Some 0xFF
      else if (HRAM_ADDR <=? addr) && (addr <? INTR_EN_ADDR) then rd (hram gb) (addr - HRAM_ADDR)
      else if (0xFF10 <=? addr) && (addr <=? 0xFF3F) then Some 1
      else Some (read_io gb addr)
  | _ => Some 0xFF
  end.

(** ** Writing *)

Definition select_rom_bank (bank : Z) (gb : gb_s) : option gb_s :=
  if num_rom_banks gb =? 0 then None else Some (set_selected_rom_bank (u8 (bank mod num_rom_banks gb)) gb).

(** [++] on the zero bank. *)
Definition not_zero (mask bank : Z) : Z := if Z.land bank mask =? 0 then u8 (bank + 1) else bank.

(** Addresses of the cartridge's read-only memory: the registers of the bank
    switch, case 0x2 and 0x3 of the switch first. *)
Definition write_bank (gb : gb_s) (addr val : Z) : option gb_s :=
  if mbc gb =? 1 then
    select_rom_bank (not_zero 0x1F (Z.lor (Z.land val 0x1F) (Z.land (selected_rom_bank gb) 0x60))) gb
  else if (mbc gb =? 2) && nz (Z.land addr 0x10) then select_rom_bank (not_zero 0xFF (Z.land val 0x0F)) gb
  else if mbc gb =? 3 then select_rom_bank (not_zero 0xFF (Z.land val 0x7F)) gb
  else if mbc gb =? 5 then
    select_rom_bank (u8 (Z.lor (Z.shiftl (Z.land val 0x01) 8) (Z.land (selected_rom_bank gb) 0xFF))) gb
  else select_rom_bank (selected_rom_bank gb) gb.

Definition write_upper_bank (gb : gb_s) (val : Z) : option gb_s :=
  if mbc gb =? 1 then
    let gb := set_cart_ram_bank (Z.land val 3) gb in
    select_rom_bank (Z.lor (Z.shiftl (Z.land val 3) 5) (Z.land (selected_rom_bank gb) 0x1F)) gb
  else if mbc gb =? 3 then Some (set_cart_ram_bank val gb)
  else if mbc gb =? 5 then Some (set_cart_ram_bank (Z.land val 0x0F) gb)
  else Some gb.

Definition write_rom (gb : gb_s) (addr val : Z) : option gb_s :=
  match Z.shiftr addr 12 with
  | 0x0 | 0x1 =>
      if (mbc gb =? 2) && nz (Z.land addr 0x10) then Some gb
      else if (0 <? mbc gb) && nz (cart_ram gb) then
        Some (set_enable_cart_ram (Z.b2z (Z.land val 0x0F =? 0x0A)) gb)
      else Some gb
  | 0x2 =>
      if mbc gb =? 5 then select_rom_bank (u8 (Z.lor (Z.land (selected_rom_bank gb) 0x100) val)) gb
      else write_bank gb addr val
  | 0x3 => write_bank gb addr val
  | 0x4 | 0x5 => write_upper_bank gb val
  | _ => Some (set_cart_mode_select (Z.land val 1) gb)
  end.

Definition write_cart (gb : gb_s) (addr val : Z) : option gb_s :=
  if nz (cart_ram gb) && nz (enable_cart_ram gb) then
    if (mbc gb =? 3) && (0x08 <=? cart_ram_bank gb) then
      m ← wr (cart_rtc gb) (cart_ram_bank gb - 0x08) val; Some (set_cart_rtc m gb)
    else if nz (cart_mode_select gb) && (cart_ram_bank gb <? num_ram_banks gb) then
      gb_cart_ram_write gb (addr - CART_RAM_ADDR + cart_ram_bank gb * CRAM_BANK_SIZE) val
    else if nz (num_ram_banks gb) then gb_cart_ram_write gb (addr - CART_RAM_ADDR) val
    else Some gb
  else Some gb.

(** The copy of 160 bytes into the sprite table. *)
Fixpoint dma_loop (n : nat) (i : Z) (gb : gb_s) : option gb_s :=
  match n with
  | O => Some gb
  | S n =>
      v ← __gb_read gb (Z.shiftl (DMA gb) 8 + i);
      m ← wr (oam gb) i v;
      dma_loop n (i + 1) (set_oam m gb)
  end.

Definition shade (v i : Z) : Z := Z.land (Z.shiftr v (2 * i)) 0x03.

(** A palette register: its four shades go to the table from index [k] on. *)
Definition set_shades (p : list Z) (k v : Z) : option (list Z) :=
  p ← wr p k (shade v 0); p ← wr p (k + 1) (shade v 1); p ← wr p (k + 2) (shade v 2); wr p (k + 3) (shade v 3).

Definition write_lcdc (gb : gb_s) (val : Z) : gb_s :=
  let gb := set_LCDC val gb in
  if Z.land (LCDC gb) LCDC_ENABLE =? 0 then
    if negb (lcd_mode gb =? LCD_VBLANK) then set_LCDC (Z.lor (LCDC gb) LCDC_ENABLE) gb
    else
      let gb := set_STAT (Z.lor (Z.land (STAT gb) (Z.lnot 0x03)) LCD_VBLANK) gb in
      let gb := set_LY 0 gb in
      set_lcd_count 0 gb
  else gb.

Definition write_p1 (gb : gb_s) (val : Z) : gb_s :=
  let gb := set_P1 val gb in
  if Z.land (P1 gb) 0x10 =? 0 then set_P1 (Z.lor (P1 gb) (Z.shiftr (joypad gb) 4)) gb
  else set_P1 (Z.lor (P1 gb) (Z.land (joypad gb) 0x0F)) gb.

Definition write_io (gb : gb_s) (addr val : Z) : option gb_s :=
  match Z.land addr 0xFF with
  | 0x00 => Some (write_p1 gb val)
  | 0x01 => Some (set_SB val gb)
  | 0x02 => Some (set_SC val gb)
  | 0x04 => Some (set_DIV 0x00 gb)
  | 0x05 => Some (set_TIMA val gb)
  | 0x06 => Some (set_TMA val gb)
  | 0x07 => Some (set_TAC val gb)
  | 0x0F => Some (set_IF' (Z.lor val 0xE0) gb)
  | 0x40 => Some (write_lcdc gb val)
  | 0x41 => Some (set_STAT (Z.land val 0x78) gb)
  | 0x42 => Some (set_SCY val gb)
  | 0x43 => Some (set_SCX val gb)
  | 0x45 => Some (set_LYC val gb)
  | 0x46 => dma_loop OAM_SIZE 0 (set_DMA (val mod 0xF1) gb)
  | 0x47 => let gb := set_BGP val gb in p ← set_shades (bg_palette gb) 0 (BGP gb); Some (set_bg_palette p gb)
  | 0x48 => let gb := set_OBP0 val gb in p ← set_shades (sp_palette gb) 0 (OBP0 gb); Some (set_sp_palette p gb)
  | 0x49 => let gb := set_OBP1 val gb in p ← set_shades (sp_palette gb) 4 (OBP1 gb); Some (set_sp_palette p gb)
  | 0x4A => Some (set_WY val gb)
  | 0x4B => Some (set_WX val gb)
  | 0x50 => Some (set_gb_bios_enable 0 gb)
  | 0xFF => Some (set_IE val gb)
  | _ => Some (gb_error gb GB_INVALID_WRITE addr)
  end.

Definition __gb_write (gb : gb_s) (addr val : Z) : option gb_s :=
  match Z.shiftr addr 12 with
  | 0x0 | 0x1 | 0x2 | 0x3 | 0x4 | 0x5 | 0x6 | 0x7 => write_rom gb addr val
  | 0x8 | 0x9 => m ← wr (vram gb) (addr - VRAM_ADDR) val; Some (set_vram m gb)
  | 0xA | 0xB => write_cart gb addr val
  | 0xC => m ← wr (wram gb) (addr - WRAM_0_ADDR) val; Some (set_wram m gb)
  | 0xD => m ← wr (wram gb) (addr - WRAM_1_ADDR + WRAM_BANK_SIZE) val; Some (set_wram m gb)
  | 0xE => m ← wr (wram gb) (addr - ECHO_ADDR) val; Some (set_wram m gb)
  | 0xF =>
      if addr <? OAM_ADDR then m ← wr (wram gb) (addr - ECHO_ADDR) val; Some (set_wram m gb)
      else if addr <? UNUSED_ADDR then m ← wr (oam gb) (addr - OAM_ADDR) val; Some (set_oam m gb)
      else if addr <? IO_ADDR then Some gb
      else if (HRAM_ADDR <=? addr) && (addr <? INTR_EN_ADDR) then
        m ← wr (hram gb) (addr - HRAM_ADDR) val; Some (set_hram m gb)
      else if (0xFF10 <=? addr) && (addr <=? 0xFF3F) then Some gb
      else write_io gb addr val
  | _ => Some (gb_error gb GB_INVALID_WRITE addr)
  end.

(** ** Every access of a well-formed console succeeds *)

(** The sixteen blocks of 4 KiB. *)
Lemma addr_block addr : 0 <= addr < 65536 -> exists k, Z.shiftr addr 12 = k /\ 0 <= k < 16 /\ 4096 * k <= addr < 4096 * k + 4096.
Proof. intros Ha. exists (addr / 4096). rewrite Z.shiftr_div_pow2 by lia. change (2 ^ 12) with 4096. split; [done|]. zmod. Qed.

Lemma sixteen k : 0 <= k < 16 ->
  (k = 0 \/ k = 1 \/ k = 2 \/ k = 3 \/ k = 4 \/ k = 5 \/ k = 6 \/ k = 7) \/
  (k = 8 \/ k = 9 \/ k = 10 \/ k = 11 \/ k = 12 \/ k = 13 \/ k = 14) \/ k = 15.
Proof. lia. Qed.

(** [blocks addr]: the cases of the switch on [addr >> 12]. *)
Ltac blocks addr :=
  let k := fresh "k" in
  destruct (addr_block addr ltac:(lia)) as (k & -> & ?Hk & ?Haddr);
  destruct (sixteen k ltac:(lia)) as [?Hblk|[?Hblk|?Hblk]]; repeat (match goal with H : _ \/ _ |- _ => destruct H end); subst k; cbv iota.

Ltac consts :=
  unfold VRAM_ADDR, CART_RAM_ADDR, WRAM_0_ADDR, WRAM_1_ADDR, ECHO_ADDR, OAM_ADDR, UNUSED_ADDR, IO_ADDR, HRAM_ADDR,
    INTR_EN_ADDR, ROM_BANK_SIZE, WRAM_BANK_SIZE, CRAM_BANK_SIZE in *.

Lemma read_io_byte gb addr : wf gb -> is_byte (read_io gb addr).
Proof.
  intros [_ [] _ _ _ Hm _ _ _ _ _]. unfold read_io.
  assert (is_byte (if nz (Z.land (LCDC gb) LCDC_ENABLE) then lcd_mode gb else LCD_VBLANK))
    by (case_match; unfold is_byte, LCD_VBLANK; lia).
  assert (is_byte (LY gb)) by (unfold is_byte; lia). generalize (Z.land addr 0xFF). intros k.
  repeat match goal with
  | |- context [match ?x with _ => _ end] => is_var x; destruct x; try by eauto with gb
  end.
Qed.

Lemma read_cart_byte gb addr :
  wf gb -> 0xA000 <= addr < 0xC000 -> exists v, read_cart gb addr = Some v /\ is_byte v.
Proof.
  intros [_ _ _ Hc _ _ _ _ _ _ _] Ha. destruct Hc. unfold read_cart, gb_cart_ram_read. consts. unfold is_byte in *.
  destruct (nz (cart_ram gb)) eqn:Ecr; cbn [andb]; [|by exists 0]. case_match; [|by exists 0].
  destruct (Z.eqb_spec (mbc gb) 3) as [E3|_].
  { rewrite wf_no_clock in Ecr by done. discriminate. }
  cbn [andb]. case_match eqn:Eb; apply Forall_rd; try done; [|lia].
  apply andb_true_iff in Eb as [_ Eb%Z.ltb_lt]. nia.
Qed.

Lemma read_banked gb addr bank :
  wf gb -> 0x4000 <= addr < 0x8000 -> 0 <= bank <= selected_rom_bank gb ->
  exists v, gb_rom_read gb (u32 (addr + (bank - 1) * ROM_BANK_SIZE)) = Some v /\ is_byte v.
Proof.
  intros [_ _ _ Hc _ _ _ _ _ _ _] Ha Hb. destruct Hc. consts. unfold gb_rom_read. rewrite u32_small by nia.
  apply Forall_rd; [done|nia].
Qed.

Lemma bank_mask gb : wf gb -> 0 <= Z.land (selected_rom_bank gb) 0x1F <= selected_rom_bank gb.
Proof.
  intros [_ _ _ [] _ _ _ _ _ _ _]. change 0x1F with (2 ^ 5 - 1). rewrite land_pow2_pred by lia. change (2 ^ 5) with 32. zmod.
Qed.

Lemma __gb_read_byte gb addr : wf gb -> 0 <= addr < 65536 -> exists v, __gb_read gb addr = Some v /\ is_byte v.
Proof.
  intros Hwf Ha. pose proof Hwf as [_ _ _ Hc _ _ _ Hw Hv Hh Ho]. pose proof (wf_rom_min _ _ _ Hc). unfold __gb_read.
  pose proof (bank_mask gb Hwf). pose proof (wf_selected _ _ _ Hc). consts.
  blocks addr; try (by apply Forall_rd; [by destruct Hc|lia]); try (by eapply bytes_rd; [done|lia]);
    try (case_match; apply read_banked; (done || lia)); try (by apply read_cart_byte; [|lia]).
  case_match eqn:E1; [apply Z.ltb_lt in E1; by eapply bytes_rd; [exact Hw|lia]|]. apply Z.ltb_ge in E1.
  case_match eqn:E2; [apply Z.ltb_lt in E2; by eapply bytes_rd; [exact Ho|lia]|].
  case_match; [by exists 0xFF; auto with gb|].
  case_match eqn:E3; [apply andb_true_iff in E3 as [E3%Z.leb_le E4%Z.ltb_lt]; by eapply bytes_rd; [exact Hh|lia]|].
  case_match; [by exists 1; auto with gb|]. eexists. split; [done|]. by apply read_io_byte.
Qed.

(** A write touches neither the registers of the processor nor its state. *)
Record same_cpu (gb gb' : gb_s) : Prop := {
  same_regs : cpu_reg gb' = cpu_reg gb; same_halt : gb_halt gb' = gb_halt gb; same_ime : gb_ime gb' = gb_ime gb;
  same_frame : gb_frame gb' = gb_frame gb; same_rom : rom gb' = rom gb; same_fb : fb gb' = fb gb;
  same_counter : counter gb' = counter gb \/ counter gb' = counter (set_lcd_count 0 gb) }.

Lemma same_cpu_refl gb : same_cpu gb gb.
Proof. split; auto. Qed.

Lemma same_cpu_trans a b c : same_cpu a b -> same_cpu b c -> same_cpu a c.
Proof.
  intros [? ? ? ? ? ? Hab] [? ? ? ? ? ? Hbc]. constructor; try congruence. cbn [set_lcd_count set_counter counter] in *.
  destruct Hbc as [->| ->]; [done|]. right. by destruct Hab as [->| ->].
Qed.

#[export] Hint Resolve same_cpu_refl : gb.
#[export] Hint Extern 1 (same_cpu _ _) => split; cbn; auto; fail : gb.

(** [gb] after a write: an access that succeeded, on a state that is well-formed
    again. *)
Definition written (gb : gb_s) (r : option gb_s) : Prop := exists gb', r = Some gb' /\ wf gb' /\ same_cpu gb gb'.

(** [wf] after the assignment of some fields. *)
Ltac wf_field :=
  match goal with H : wf ?gb |- wf _ => destruct H; split; cbn; try assumption end;
  try match goal with
  | H : wf_cpu ?r |- wf_cpu _ => destruct H; split; cbn; try assumption
  | H : wf_io ?r |- wf_io _ => destruct H; split; cbn; try assumption
  | H : wf_display ?r |- wf_display _ => destruct H; split; cbn; try assumption
  | H : wf_cart ?c ?r ?s |- wf_cart _ _ _ => destruct H; split; cbn; try assumption
  end; eauto with gb.

Lemma written_id gb : wf gb -> written gb (Some gb).
Proof. intros. exists gb. auto with gb. Qed.

Ltac written := eexists; split; [reflexivity|split; [wf_field|auto with gb]].

Lemma written_after gb0 gb r : same_cpu gb0 gb -> written gb r -> written gb0 r.
Proof. intros H (gb' & E & Hw & Hs). exists gb'. split_and!; [done|done|]. by eapply same_cpu_trans. Qed.

Lemma select_rom_bank_wf gb bank : wf gb -> 0 <= bank -> written gb (select_rom_bank bank gb).
Proof.
  intros Hwf Hb. unfold select_rom_bank. pose proof (wf_num_rom_banks _ _ _ (wf_cartridge _ Hwf)) as Hn.
  destruct (Z.eqb_spec (num_rom_banks gb) 0); [lia|].
  assert (0 <= bank mod num_rom_banks gb < num_rom_banks gb) by (apply Z.mod_pos_bound; lia).
  assert (u8 (bank mod num_rom_banks gb) < num_rom_banks gb) by (eapply Z.le_lt_trans; [apply Z.mod_le|]; lia).
  written. apply u8_range.
Qed.

Lemma not_zero_pos mask bank : 0 <= bank -> 0 <= not_zero mask bank.
Proof. intros. unfold not_zero. case_match; [apply u8_range|done]. Qed.

Lemma write_bank_wf gb addr val : wf gb -> is_byte val -> written gb (write_bank gb addr val).
Proof.
  intros Hwf [Hv _]. pose proof (wf_selected _ _ _ (wf_cartridge _ Hwf)) as [Hs _]. unfold write_bank.
  repeat case_match; apply select_rom_bank_wf; try done; try apply not_zero_pos; try apply u8_range;
    rewrite ?Z.lor_nonneg, ?Z.land_nonneg; lia.
Qed.

Lemma write_upper_bank_wf gb val : wf gb -> is_byte val -> written gb (write_upper_bank gb val).
Proof.
  intros Hwf Hv. unfold write_upper_bank. repeat case_match; [|written|written|by apply written_id].
  apply (written_after gb (set_cart_ram_bank (Z.land val 3) gb)); [auto with gb|].
  apply select_rom_bank_wf; [wf_field|]. cbn.
  apply Z.lor_nonneg. rewrite Z.shiftl_nonneg, !Z.land_nonneg. lia.
Qed.

Lemma write_rom_wf gb addr val : wf gb -> is_byte val -> written gb (write_rom gb addr val).
Proof.
  intros Hwf Hv. unfold write_rom. 
  repeat match goal with
  | |- context [match ?x with _ => _ end] => destruct x
  end; try (by apply write_bank_wf); try (by apply write_upper_bank_wf); try (by apply written_id); try written.
  all: apply select_rom_bank_wf; [done|apply u8_range].
Qed.

Lemma gb_cart_ram_write_wf gb addr val :
  wf gb -> is_byte val -> 0 <= addr < Z.of_nat (length (save_ram gb)) -> written gb (gb_cart_ram_write gb addr val).
Proof.
  intros Hwf Hv Ha. unfold gb_cart_ram_write.
  destruct (Forall_wr is_byte (save_ram gb) addr val) as (m & -> & Hl & Hm); [by destruct Hwf as [??? []]|done|done|].
  cbn [mbind option_bind]. written; by rewrite Hl.
Qed.

Lemma write_cart_wf gb addr val :
  wf gb -> is_byte val -> 0xA000 <= addr < 0xC000 -> written gb (write_cart gb addr val).
Proof.
  intros Hwf Hv Ha. pose proof Hwf as [_ _ _ [] _ _ _ _ _ _ _]. unfold write_cart. consts. unfold is_byte in *.
  destruct (nz (cart_ram gb)) eqn:Ecr; cbn [andb]; [|by apply written_id]. case_match; [|by apply written_id].
  destruct (Z.eqb_spec (mbc gb) 3) as [E3|_]; [by rewrite wf_no_clock in Ecr|]. cbn [andb].
  case_match eqn:Eb; [|case_match; [|by apply written_id]]; apply gb_cart_ram_write_wf; try done; [|lia].
  apply andb_true_iff in Eb as [_ Eb%Z.ltb_lt]. nia.
Qed.

Lemma dma_loop_wf n : forall i gb,
  wf gb -> 0 <= i -> i + Z.of_nat n <= 160 -> 0 <= DMA gb <= 0xF0 -> written gb (dma_loop n i gb).
Proof.
  induction n as [|n IH]; intros i gb Hwf Hi Hn Hd; cbn [dma_loop]; [by apply written_id|].
  rewrite Z.shiftl_mul_pow2 by lia.
  destruct (__gb_read_byte gb (DMA gb * 2 ^ 8 + i) Hwf ltac:(lia)) as (v & -> & Hv). cbn [mbind option_bind].
  destruct (bytes_wr _ _ i v (wf_oam _ Hwf) ltac:(lia) Hv) as (m & -> & Hm). cbn [mbind option_bind].
  apply (written_after gb (set_oam m gb)); [auto with gb|]. apply IH; [wf_field|lia|lia|done].
Qed.

Lemma set_shades_wf n p k v : shades n p -> 0 <= k -> k + 3 < n -> exists p', set_shades p k v = Some p' /\ shades n p'.
Proof.
  intros [<- Hp] Hk Hn. unfold set_shades.
  assert (forall l i j, length l = length p -> Forall (fun c => 0 <= c < 4) l -> 0 <= j < 4 ->
    exists l', wr l (k + j) (shade v i) = Some l' /\ length l' = length p /\ Forall (fun c => 0 <= c < 4) l') as Hw.
  { intros l i j Hl Hf Hj. rewrite <- Hl. apply Forall_wr; [done|lia|]. apply land_small. lia. }
  destruct (Hw p 0 0) as (p1 & E1 & L1 & F1); [done|done|lia|]. rewrite Z.add_0_r in E1. rewrite E1. cbn [mbind option_bind].
  destruct (Hw p1 1 1) as (p2 & -> & L2 & F2); [done|done|lia|]. cbn [mbind option_bind].
  destruct (Hw p2 2 2) as (p3 & -> & L3 & F3); [done|done|lia|]. cbn [mbind option_bind].
  destruct (Hw p3 3 3) as (p4 & -> & L4 & F4); [done|done|lia|]. exists p4. split; [done|]. by split; [rewrite L4|].
Qed.

Lemma write_lcdc_wf gb val : wf gb -> is_byte val -> written gb (Some (write_lcdc gb val)).
Proof.
  intros Hwf Hv. unfold write_lcdc. cbn zeta. repeat case_match; try written.
  all: lia.
Qed.

Lemma write_p1_wf gb val : wf gb -> is_byte val -> written gb (Some (write_p1 gb val)).
Proof.
  intros Hwf Hv. pose proof (wf_joypad _ Hwf). unfold write_p1. cbn zeta. case_match; written.
  all: cbn; auto with gb.
Qed.

Lemma written_shades gb n l k v (put : list Z -> gb_s) :
  shades n l -> 0 <= k -> k + 3 < n -> (forall p, shades n p -> wf (put p) /\ same_cpu gb (put p)) ->
  written gb (p ← set_shades l k v; Some (put p)).
Proof.
  intros Hl Hk Hn Hp. destruct (set_shades_wf n l k v Hl Hk Hn) as (p & -> & H). cbn [mbind option_bind].
  destruct (Hp p H). by exists (put p).
Qed.

Lemma write_dma_wf gb val : wf gb -> is_byte val -> written gb (dma_loop OAM_SIZE 0 (set_DMA (val mod 0xF1) gb)).
Proof.
  intros Hwf [Hv _]. apply (written_after gb (set_DMA (val mod 0xF1) gb)); [auto with gb|].
  assert (is_byte (val mod 0xF1)) by (unfold is_byte; zmod).
  apply dma_loop_wf; [wf_field|done|done|cbn; zmod].
Qed.

Lemma write_io_wf gb addr val : wf gb -> is_byte val -> written gb (write_io gb addr val).
Proof.
  intros Hwf Hv. pose proof (wf_displ _ Hwf) as [Hbg Hsp _ _]. unfold write_io. generalize (Z.land addr 0xFF). intros k.
  repeat match goal with
  | |- context [match ?x with _ => _ end] => is_var x; destruct x; try by apply written_id
  end; cbn zeta; try (by apply write_lcdc_wf); try (by apply write_p1_wf); try (by apply write_dma_wf); try written.
  - eapply written_shades; [exact Hbg|lia|lia|]. intros p Hp. split; [|auto with gb]. assert (wf (set_BGP val gb)) by wf_field. wf_field.
  - eapply written_shades; [exact Hsp|lia|lia|]. intros p Hp. split; [|auto with gb]. assert (wf (set_OBP1 val gb)) by wf_field. wf_field.
  - eapply written_shades; [exact Hsp|lia|lia|]. intros p Hp. split; [|auto with gb]. assert (wf (set_OBP0 val gb)) by wf_field. wf_field.
Qed.

Lemma __gb_write_wf gb addr val :
  wf gb -> 0 <= addr < 65536 -> is_byte val -> written gb (__gb_write gb addr val).
Proof.
  intros Hwf Ha Hv. unfold __gb_write. consts.
  assert (forall n (l : list Z) i (put : list Z -> gb_s -> gb_s), bytes n l -> 0 <= i < n ->
    (forall m, bytes n m -> wf (put m gb) /\ same_cpu gb (put m gb)) ->
    written gb (m ← wr l i val; Some (put m gb))) as Harr.
  { intros n l i put Hl Hi Hp. destruct (bytes_wr n l i val Hl Hi Hv) as (m & -> & Hm). cbn [mbind option_bind].
    destruct (Hp m Hm). by exists (put m gb). }
  blocks addr; try (by apply write_rom_wf); try (by apply write_cart_wf; [done|done|lia]);
    try (eapply Harr; [apply wf_vram + apply wf_wram; done|lia|intros; split; [wf_field|auto with gb]]).
  case_match eqn:E1.
  { apply Z.ltb_lt in E1. eapply Harr; [by apply wf_wram|lia|intros; split; [wf_field|auto with gb]]. }
  apply Z.ltb_ge in E1. case_match eqn:E2.
  { apply Z.ltb_lt in E2. eapply Harr; [by apply wf_oam|lia|intros; split; [wf_field|auto with gb]]. }
  case_match; [by apply written_id|]. case_match eqn:E3.
  { apply andb_true_iff in E3 as [E3%Z.leb_le E4%Z.ltb_lt].
    eapply Harr; [by apply wf_hram|lia|intros; split; [wf_field|auto with gb]]. }
  case_match; [by apply written_id|]. by apply write_io_wf.
Qed.

(** ** The byte at the program counter, and the stack *)

(** [__gb_read(gb, gb->cpu_reg.pc++)] *)
Definition fetch (gb : gb_s) : option (Z * gb_s) :=
  v ← __gb_read gb (PC gb); Some (v, set_PC (u16 (PC gb + 1)) gb).

(** [__gb_read(gb, gb->cpu_reg.sp++)] *)
Definition pull (gb : gb_s) : option (Z * gb_s) :=
  v ← __gb_read gb (SP gb); Some (v, set_SP (u16 (SP gb + 1)) gb).

(** [__gb_write(gb, --gb->cpu_reg.sp, v)] *)
Definition push (v : Z) (gb : gb_s) : option gb_s :=
  let gb := set_SP (u16 (SP gb - 1)) gb in __gb_write gb (SP gb) v.

(** ** Bank switches that go wrong *)

(** The bank register of type 3 takes any byte, the clock has five: from bank 13
    on the read is outside it. *)
Lemma mbc3_clock_outside gb addr :
  mbc gb = 3 -> nz (cart_ram gb) = true -> nz (enable_cart_ram gb) = true -> 13 <= cart_ram_bank gb -> bytes 5 (cart_rtc gb) ->
  read_cart gb addr = None.
Proof.
  intros H3 Hr He Hb [Hl _]. unfold read_cart. rewrite H3, Hr, He. cbn [andb]. change (3 =? 3) with true.
  destruct (Z.leb_spec 8 (cart_ram_bank gb)); [|lia]. cbn [andb]. apply rd_None. lia.
Qed.

(** The ninth bit of the bank number of type 5 is lost in the byte that keeps it:
    the write has no effect. *)
Lemma mbc5_high_bit_lost gb addr val :
  wf gb -> mbc gb = 5 -> write_bank gb addr val = Some gb.
Proof.
  intros [_ _ _ [] _ _ _ _ _ _ _] H5. unfold write_bank. rewrite H5. cbn [Z.eqb Pos.eqb andb]. unfold select_rom_bank.
  destruct (Z.eqb_spec (num_rom_banks gb) 0); [lia|].
  replace (u8 (Z.lor (Z.shiftl (Z.land val 0x01) 8) (Z.land (selected_rom_bank gb) 0xFF))) with (selected_rom_bank gb).
  - rewrite Z.mod_small by lia. by rewrite u8_small by lia.
  - unfold u8. change 256 with (2 ^ 8). rewrite <- Z.land_ones, Z.land_lor_distr_l by lia. rewrite <- Z.land_assoc.
    change (Z.land 0xFF (Z.ones 8)) with (2 ^ 8 - 1). rewrite land_pow2_pred, (Z.mod_small (selected_rom_bank gb)) by lia.
    rewrite Z.shiftl_mul_pow2, Z.land_ones, Z.mod_mul by lia. done.
Qed.
