(* ===== verification/GbOps.v ===== *)
(** * Game Boy: the instructions as [cpu.c] executes them

    [__gb_execute_cb], and the switch of [__gb_step_cpu] over the 256 opcodes in
    pieces of eight; [execute] puts the pieces together.  An arm returns the new
    state and the cycles of the instruction, [inst_cycles] with what the arm adds
    to it.  [None] is an access outside an array of the emulator. *)
From S2P Require Import Prelude GbState GbMemory.

Local Open Scope Z_scope.

(** ** The second page *)

Definition cb_load (r : Z) (gb : gb_s) : option Z :=
  match r with
  | 0 => Some (rB gb)
  | 1 => Some (rC gb)
  | 2 => Some (rD gb)
  | 3 => Some (rE gb)
  | 4 => Some (rH gb)
  | 5 => Some (rL gb)
  | 6 => __gb_read gb (HL gb)
  | _ => Some (rA gb)
  end.

Definition cb_store (r val : Z) (gb : gb_s) : option gb_s :=
  match r with
  | 0 => Some (set_rB val gb)
  | 1 => Some (set_rC val gb)
  | 2 => Some (set_rD val gb)
  | 3 => Some (set_rE val gb)
  | 4 => Some (set_rH val gb)
  | 5 => Some (set_rL val gb)
  | 6 => __gb_write gb (HL gb) val
  | 7 => Some (set_rA val gb)
  | _ => Some gb
  end.

(** Rotations and shifts; [cbop] is bits 4 and 5 of the opcode, [d] bit 3. *)
Definition cb_shift (cbop d val : Z) (gb : gb_s) : Z * gb_s :=
  match cbop with
  | 0x0 | 0x1 =>
      if nz d then (* RRC R / RR R *)
        let temp := val in
        let val := Z.shiftr val 1 in
        let val := u8 (Z.lor val (if nz cbop then Z.shiftl (fC gb) 7 else Z.shiftl temp 7)) in
        let gb := set_fZ (Z.b2z (val =? 0x00)) gb in
        let gb := set_fN 0 gb in
        let gb := set_fH 0 gb in
        let gb := set_fC (u1 (Z.land temp 0x01)) gb in
        (val, gb)
      else (* RLC R / RL R *)
        let temp := val in
        let val := u8 (Z.shiftl val 1) in
        let val := u8 (Z.lor val (if nz cbop then fC gb else Z.shiftr temp 7)) in
        let gb := set_fZ (Z.b2z (val =? 0x00)) gb in
        let gb := set_fN 0 gb in
        let gb := set_fH 0 gb in
        let gb := set_fC (u1 (Z.shiftr temp 7)) gb in
        (val, gb)
  | 0x2 =>
      if nz d then (* SRA R *)
        let gb := set_fC (u1 (Z.land val 0x01)) gb in
        let val := u8 (Z.lor (Z.shiftr val 1) (Z.land val 0x80)) in
        let gb := set_fZ (Z.b2z (val =? 0x00)) gb in
        let gb := set_fN 0 gb in
        let gb := set_fH 0 gb in
        (val, gb)
      else (* SLA R *)
        let gb := set_fC (u1 (Z.shiftr val 7)) gb in
        let val := u8 (Z.shiftl val 1) in
        let gb := set_fZ (Z.b2z (val =? 0x00)) gb in
        let gb := set_fN 0 gb in
        let gb := set_fH 0 gb in
        (val, gb)
  | 0x3 =>
      if nz d then (* SRL R *)
        let gb := set_fC (u1 (Z.land val 0x01)) gb in
        let val := u8 (Z.shiftr val 1) in
        let gb := set_fZ (Z.b2z (val =? 0x00)) gb in
        let gb := set_fN 0 gb in
        let gb := set_fH 0 gb in
        (val, gb)
      else (* SWAP R *)
        let temp := u8 (Z.land (Z.shiftr val 4) 0x0F) in
        let temp := u8 (Z.lor temp (Z.land (Z.shiftl val 4) 0xF0)) in
        let val := temp in
        let gb := set_fZ (Z.b2z (val =? 0x00)) gb in
        let gb := set_fN 0 gb in
        let gb := set_fH 0 gb in
        let gb := set_fC 0 gb in
        (val, gb)
  | _ => (val, gb)
  end.

Definition __gb_execute_cb (gb : gb_s) : option gb_s :=
  '(cbop, gb) ← fetch gb;
  let r := Z.land cbop 0x7 in
  let b := Z.land (Z.shiftr cbop 3) 0x7 in
  let d := Z.land (Z.shiftr cbop 3) 0x1 in
  let gb :=
    match Z.land cbop 0x0F with
    | 0x06 | 0x0E => set_div_count (u32 (div_count gb + 8)) gb
    | _ => gb
    end in
  val ← cb_load r gb;
  match Z.shiftr cbop 6 with
  | 0x0 =>
      let '(val, gb) := cb_shift (Z.land (Z.shiftr cbop 4) 0x3) d val gb in
      cb_store r val gb
  | 0x1 => (* BIT B, R *)
      let gb := set_fZ (Z.b2z (Z.land (Z.shiftr val b) 0x1 =? 0)) gb in
      let gb := set_fN 0 gb in
      let gb := set_fH 1 gb in
      Some gb
  | 0x2 => (* RES B, R *)
      cb_store r (u8 (Z.land val (Z.lor (Z.shiftl 0xFE b) (Z.shiftr 0xFF (8 - b))))) gb
  | 0x3 => (* SET B, R *)
      cb_store r (u8 (Z.lor val (Z.shiftl 0x1 b))) gb
  | _ => cb_store r val gb
  end.

(** ** The first page *)

Definition op_00_07 (opcode inst_cycles : Z) (gb : gb_s) : option (gb_s * Z) :=
  match opcode with
  | 0x00 => (* NOP *)
      Some (gb, inst_cycles)
  | 0x01 => (* LD BC, imm *)
      '(v1, gb) ← fetch gb;
      let gb := set_rC v1 gb in
      '(v2, gb) ← fetch gb;
      let gb := set_rB v2 gb in
      Some (gb, inst_cycles)
  | 0x02 => (* LD (BC), A *)
      gb ← __gb_write gb (BC gb) (rA gb);
      Some (gb, inst_cycles)
  | 0x03 => (* INC BC *)
      let gb := set_BC (BC gb + 1) gb in
      Some (gb, inst_cycles)
  | 0x04 => (* INC B *)
      let gb := set_rB (u8 (rB gb + 1)) gb in
      let gb := set_fZ (Z.b2z (rB gb =? 0x00)) gb in
      let gb := set_fN 0 gb in
      let gb := set_fH (Z.b2z (Z.land (rB gb) 0x0F =? 0x00)) gb in
      Some (gb, inst_cycles)
  | 0x05 => (* DEC B *)
      let gb := set_rB (u8 (rB gb - 1)) gb in
      let gb := set_fZ (Z.b2z (rB gb =? 0x00)) gb in
      let gb := set_fN 1 gb in
      let gb := set_fH (Z.b2z (Z.land (rB gb) 0x0F =? 0x0F)) gb in
      Some (gb, inst_cycles)
  | 0x06 => (* LD B, imm *)
      '(v1, gb) ← fetch gb;
      let gb := set_rB v1 gb in
      Some (gb, inst_cycles)
  | 0x07 => (* RLCA *)
      let gb := set_rA (u8 (Z.lor (Z.shiftl (rA gb) 1) (Z.shiftr (rA gb) 7))) gb in
      let gb := set_fZ 0 gb in
      let gb := set_fN 0 gb in
      let gb := set_fH 0 gb in
      let gb := set_fC (u1 (Z.land (rA gb) 0x01)) gb in
      Some (gb, inst_cycles)
  | _ => Some (gb_error gb GB_INVALID_OPCODE opcode, inst_cycles)
  end.

Definition op_08_0F (opcode inst_cycles : Z) (gb : gb_s) : option (gb_s * Z) :=
  match opcode with
  | 0x08 => (* LD (imm), SP *)
      '(v1, gb) ← fetch gb;
      let temp := v1 in
      '(v2, gb) ← fetch gb;
      let temp := u16 (Z.lor temp (Z.shiftl v2 8)) in
      gb ← __gb_write gb temp (u8 (Z.land (SP gb) 0xFF));
      let temp := u16 (temp + 1) in
      gb ← __gb_write gb temp (u8 (Z.shiftr (SP gb) 8));
      Some (gb, inst_cycles)
  | 0x09 => (* ADD HL, BC *)
      let temp := u32 (HL gb + BC gb) in
      let gb := set_fN 0 gb in
      let gb := set_fH (if nz (Z.land (Z.lxor (Z.lxor temp (HL gb)) (BC gb)) 0x1000) then 1 else 0) gb in
      let gb := set_fC (if nz (Z.land temp 0xFFFF0000) then 1 else 0) gb in
      let gb := set_HL (Z.land temp 0x0000FFFF) gb in
      Some (gb, inst_cycles)
  | 0x0A => (* LD A, (BC) *)
      v1 ← __gb_read gb (BC gb);
      let gb := set_rA v1 gb in
      Some (gb, inst_cycles)
  | 0x0B => (* DEC BC *)
      let gb := set_BC (BC gb - 1) gb in
      Some (gb, inst_cycles)
  | 0x0C => (* INC C *)
      let gb := set_rC (u8 (rC gb + 1)) gb in
      let gb := set_fZ (Z.b2z (rC gb =? 0x00)) gb in
      let gb := set_fN 0 gb in
      let gb := set_fH (Z.b2z (Z.land (rC gb) 0x0F =? 0x00)) gb in
      Some (gb, inst_cycles)
  | 0x0D => (* DEC C *)
      let gb := set_rC (u8 (rC gb - 1)) gb in
      let gb := set_fZ (Z.b2z (rC gb =? 0x00)) gb in
      let gb := set_fN 1 gb in
      let gb := set_fH (Z.b2z (Z.land (rC gb) 0x0F =? 0x0F)) gb in
      Some (gb, inst_cycles)
  | 0x0E => (* LD C, imm *)
      '(v1, gb) ← fetch gb;
      let gb := set_rC v1 gb in
      Some (gb, inst_cycles)
  | 0x0F => (* RRCA *)
      let gb := set_fC (u1 (Z.land (rA gb) 0x01)) gb in
      let gb := set_rA (u8 (Z.lor (Z.shiftr (rA gb) 1) (Z.shiftl (rA gb) 7))) gb in
      let gb := set_fZ 0 gb in
      let gb := set_fN 0 gb in
      let gb := set_fH 0 gb in
      Some (gb, inst_cycles)
  | _ => Some (gb_error gb GB_INVALID_OPCODE opcode, inst_cycles)
  end.

Definition op_10_17 (opcode inst_cycles : Z) (gb : gb_s) : option (gb_s * Z) :=
  match opcode with
  | 0x10 => (* STOP *)
      Some (gb, inst_cycles)
  | 0x11 => (* LD DE, imm *)
      '(v1, gb) ← fetch gb;
      let gb := set_rE v1 gb in
      '(v2, gb) ← fetch gb;
      let gb := set_rD v2 gb in
      Some (gb, inst_cycles)
  | 0x12 => (* LD (DE), A *)
      gb ← __gb_write gb (DE gb) (rA gb);
      Some (gb, inst_cycles)
  | 0x13 => (* INC DE *)
      let gb := set_DE (DE gb + 1) gb in
      Some (gb, inst_cycles)
  | 0x14 => (* INC D *)
      let gb := set_rD (u8 (rD gb + 1)) gb in
      let gb := set_fZ (Z.b2z (rD gb =? 0x00)) gb in
      let gb := set_fN 0 gb in
      let gb := set_fH (Z.b2z (Z.land (rD gb) 0x0F =? 0x00)) gb in
      Some (gb, inst_cycles)
  | 0x15 => (* DEC D *)
      let gb := set_rD (u8 (rD gb - 1)) gb in
      let gb := set_fZ (Z.b2z (rD gb =? 0x00)) gb in
      let gb := set_fN 1 gb in
      let gb := set_fH (Z.b2z (Z.land (rD gb) 0x0F =? 0x0F)) gb in
      Some (gb, inst_cycles)
  | 0x16 => (* LD D, imm *)
      '(v1, gb) ← fetch gb;
      let gb := set_rD v1 gb in
      Some (gb, inst_cycles)
  | 0x17 => (* RLA *)
      let temp := rA gb in
      let gb := set_rA (u8 (Z.lor (Z.shiftl (rA gb) 1) (fC gb))) gb in
      let gb := set_fZ 0 gb in
      let gb := set_fN 0 gb in
      let gb := set_fH 0 gb in
      let gb := set_fC (u1 (Z.land (Z.shiftr temp 7) 0x01)) gb in
      Some (gb, inst_cycles)
  | _ => Some (gb_error gb GB_INVALID_OPCODE opcode, inst_cycles)
  end.

Definition op_18_1F (opcode inst_cycles : Z) (gb : gb_s) : option (gb_s * Z) :=
  match opcode with
  | 0x18 => (* JR imm *)
      '(v1, gb) ← fetch gb;
      let temp := s8 v1 in
      let gb := set_PC (u16 (PC gb + temp)) gb in
      Some (gb, inst_cycles)
  | 0x19 => (* ADD HL, DE *)
      let temp := u32 (HL gb + DE gb) in
      let gb := set_fN 0 gb in
      let gb := set_fH (if nz (Z.land (Z.lxor (Z.lxor temp (HL gb)) (DE gb)) 0x1000) then 1 else 0) gb in
      let gb := set_fC (if nz (Z.land temp 0xFFFF0000) then 1 else 0) gb in
      let gb := set_HL (Z.land temp 0x0000FFFF) gb in
      Some (gb, inst_cycles)
  | 0x1A => (* LD A, (DE) *)
      v1 ← __gb_read gb (DE gb);
      let gb := set_rA v1 gb in
      Some (gb, inst_cycles)
  | 0x1B => (* DEC DE *)
      let gb := set_DE (DE gb - 1) gb in
      Some (gb, inst_cycles)
  | 0x1C => (* INC E *)
      let gb := set_rE (u8 (rE gb + 1)) gb in
      let gb := set_fZ (Z.b2z (rE gb =? 0x00)) gb in
      let gb := set_fN 0 gb in
      let gb := set_fH (Z.b2z (Z.land (rE gb) 0x0F =? 0x00)) gb in
      Some (gb, inst_cycles)
  | 0x1D => (* DEC E *)
      let gb := set_rE (u8 (rE gb - 1)) gb in
      let gb := set_fZ (Z.b2z (rE gb =? 0x00)) gb in
      let gb := set_fN 1 gb in
      let gb := set_fH (Z.b2z (Z.land (rE gb) 0x0F =? 0x0F)) gb in
      Some (gb, inst_cycles)
  | 0x1E => (* LD E, imm *)
      '(v1, gb) ← fetch gb;
      let gb := set_rE v1 gb in
      Some (gb, inst_cycles)
  | 0x1F => (* RRA *)
      let temp := rA gb in
      let gb := set_rA (u8 (Z.lor (Z.shiftr (rA gb) 1) (Z.shiftl (fC gb) 7))) gb in
      let gb := set_fZ 0 gb in
      let gb := set_fN 0 gb in
      let gb := set_fH 0 gb in
      let gb := set_fC (u1 (Z.land temp 0x1)) gb in
      Some (gb, inst_cycles)
  | _ => Some (gb_error gb GB_INVALID_OPCODE opcode, inst_cycles)
  end.

Definition op_20_27 (opcode inst_cycles : Z) (gb : gb_s) : option (gb_s * Z) :=
  match opcode with
  | 0x20 => (* JP NZ, imm *)
      if fZ gb =? 0 then
        '(v1, gb) ← fetch gb;
        let temp := s8 v1 in
        let gb := set_PC (u16 (PC gb + temp)) gb in
        let inst_cycles := u8 (inst_cycles + 4) in
        Some (gb, inst_cycles)
      else
        let gb := set_PC (u16 (PC gb + 1)) gb in
        Some (gb, inst_cycles)
  | 0x21 => (* LD HL, imm *)
      '(v1, gb) ← fetch gb;
      let gb := set_rL v1 gb in
      '(v2, gb) ← fetch gb;
      let gb := set_rH v2 gb in
      Some (gb, inst_cycles)
  | 0x22 => (* LDI (HL), A *)
      gb ← __gb_write gb (HL gb) (rA gb);
      let gb := set_HL (HL gb + 1) gb in
      Some (gb, inst_cycles)
  | 0x23 => (* INC HL *)
      let gb := set_HL (HL gb + 1) gb in
      Some (gb, inst_cycles)
  | 0x24 => (* INC H *)
      let gb := set_rH (u8 (rH gb + 1)) gb in
      let gb := set_fZ (Z.b2z (rH gb =? 0x00)) gb in
      let gb := set_fN 0 gb in
      let gb := set_fH (Z.b2z (Z.land (rH gb) 0x0F =? 0x00)) gb in
      Some (gb, inst_cycles)
  | 0x25 => (* DEC H *)
      let gb := set_rH (u8 (rH gb - 1)) gb in
      let gb := set_fZ (Z.b2z (rH gb =? 0x00)) gb in
      let gb := set_fN 1 gb in
      let gb := set_fH (Z.b2z (Z.land (rH gb) 0x0F =? 0x0F)) gb in
      Some (gb, inst_cycles)
  | 0x26 => (* LD H, imm *)
      '(v1, gb) ← fetch gb;
      let gb := set_rH v1 gb in
      Some (gb, inst_cycles)
  | 0x27 => (* DAA *)
      let a := rA gb in
      let a :=
        if nz (fN gb) then
          let a := if nz (fH gb) then Z.land (a - 0x06) 0xFF else a in
          if nz (fC gb) then u16 (a - 0x60) else a
        else
          let a := if nz (fH gb) || (9 <? Z.land a 0x0F) then u16 (a + 0x06) else a in
          if nz (fC gb) || (0x9F <? a) then u16 (a + 0x60) else a in
      let gb := if Z.land a 0x100 =? 0x100 then set_fC 1 gb else gb in
      let gb := set_rA (u8 a) gb in
      let gb := set_fZ (Z.b2z (rA gb =? 0)) gb in
      let gb := set_fH 0 gb in
      Some (gb, inst_cycles)
  | _ => Some (gb_error gb GB_INVALID_OPCODE opcode, inst_cycles)
  end.

Definition op_28_2F (opcode inst_cycles : Z) (gb : gb_s) : option (gb_s * Z) :=
  match opcode with
  | 0x28 => (* JP Z, imm *)
      if nz (fZ gb) then
        '(v1, gb) ← fetch gb;
        let temp := s8 v1 in
        let gb := set_PC (u16 (PC gb + temp)) gb in
        let inst_cycles := u8 (inst_cycles + 4) in
        Some (gb, inst_cycles)
      else
        let gb := set_PC (u16 (PC gb + 1)) gb in
        Some (gb, inst_cycles)
  | 0x29 => (* ADD HL, HL *)
      let temp := u32 (HL gb + HL gb) in
      let gb := set_fN 0 gb in
      let gb := set_fH (if nz (Z.land temp 0x1000) then 1 else 0) gb in
      let gb := set_fC (if nz (Z.land temp 0xFFFF0000) then 1 else 0) gb in
      let gb := set_HL (Z.land temp 0x0000FFFF) gb in
      Some (gb, inst_cycles)
  | 0x2A => (* LD A, (HL+) *)
      v1 ← __gb_read gb (HL gb);
      let gb := set_HL (HL gb + 1) gb in
      let gb := set_rA v1 gb in
      Some (gb, inst_cycles)
  | 0x2B => (* DEC HL *)
      let gb := set_HL (HL gb - 1) gb in
      Some (gb, inst_cycles)
  | 0x2C => (* INC L *)
      let gb := set_rL (u8 (rL gb + 1)) gb in
      let gb := set_fZ (Z.b2z (rL gb =? 0x00)) gb in
      let gb := set_fN 0 gb in
      let gb := set_fH (Z.b2z (Z.land (rL gb) 0x0F =? 0x00)) gb in
      Some (gb, inst_cycles)
  | 0x2D => (* DEC L *)
      let gb := set_rL (u8 (rL gb - 1)) gb in
      let gb := set_fZ (Z.b2z (rL gb =? 0x00)) gb in
      let gb := set_fN 1 gb in
      let gb := set_fH (Z.b2z (Z.land (rL gb) 0x0F =? 0x0F)) gb in
      Some (gb, inst_cycles)
  | 0x2E => (* LD L, imm *)
      '(v1, gb) ← fetch gb;
      let gb := set_rL v1 gb in
      Some (gb, inst_cycles)
  | 0x2F => (* CPL *)
      let gb := set_rA (u8 (Z.lnot (rA gb))) gb in
      let gb := set_fN 1 gb in
      let gb := set_fH 1 gb in
      Some (gb, inst_cycles)
  | _ => Some (gb_error gb GB_INVALID_OPCODE opcode, inst_cycles)
  end.

Definition op_30_37 (opcode inst_cycles : Z) (gb : gb_s) : option (gb_s * Z) :=
  match opcode with
  | 0x30 => (* JP NC, imm *)
      if fC gb =? 0 then
        '(v1, gb) ← fetch gb;
        let temp := s8 v1 in
        let gb := set_PC (u16 (PC gb + temp)) gb in
        let inst_cycles := u8 (inst_cycles + 4) in
        Some (gb, inst_cycles)
      else
        let gb := set_PC (u16 (PC gb + 1)) gb in
        Some (gb, inst_cycles)
  | 0x31 => (* LD SP, imm *)
      '(v1, gb) ← fetch gb;
      let gb := set_SP v1 gb in
      '(v2, gb) ← fetch gb;
      let gb := set_SP (u16 (Z.lor (SP gb) (Z.shiftl v2 8))) gb in
      Some (gb, inst_cycles)
  | 0x32 => (* LD (HL), A *)
      gb ← __gb_write gb (HL gb) (rA gb);
      let gb := set_HL (HL gb - 1) gb in
      Some (gb, inst_cycles)
  | 0x33 => (* INC SP *)
      let gb := set_SP (u16 (SP gb + 1)) gb in
      Some (gb, inst_cycles)
  | 0x34 => (* INC (HL) *)
      v1 ← __gb_read gb (HL gb);
      let temp := u8 (v1 + 1) in
      let gb := set_fZ (Z.b2z (temp =? 0x00)) gb in
      let gb := set_fN 0 gb in
      let gb := set_fH (Z.b2z (Z.land temp 0x0F =? 0x00)) gb in
      gb ← __gb_write gb (HL gb) temp;
      Some (gb, inst_cycles)
  | 0x35 => (* DEC (HL) *)
      v1 ← __gb_read gb (HL gb);
      let temp := u8 (v1 - 1) in
      let gb := set_fZ (Z.b2z (temp =? 0x00)) gb in
      let gb := set_fN 1 gb in
      let gb := set_fH (Z.b2z (Z.land temp 0x0F =? 0x0F)) gb in
      gb ← __gb_write gb (HL gb) temp;
      Some (gb, inst_cycles)
  | 0x36 => (* LD (HL), imm *)
      '(v1, gb) ← fetch gb;
      gb ← __gb_write gb (HL gb) v1;
      Some (gb, inst_cycles)
  | 0x37 => (* SCF *)
      let gb := set_fN 0 gb in
      let gb := set_fH 0 gb in
      let gb := set_fC 1 gb in
      Some (gb, inst_cycles)
  | _ => Some (gb_error gb GB_INVALID_OPCODE opcode, inst_cycles)
  end.

Definition op_38_3F (opcode inst_cycles : Z) (gb : gb_s) : option (gb_s * Z) :=
  match opcode with
  | 0x38 => (* JP C, imm *)
      if nz (fC gb) then
        '(v1, gb) ← fetch gb;
        let temp := s8 v1 in
        let gb := set_PC (u16 (PC gb + temp)) gb in
        let inst_cycles := u8 (inst_cycles + 4) in
        Some (gb, inst_cycles)
      else
        let gb := set_PC (u16 (PC gb + 1)) gb in
        Some (gb, inst_cycles)
  | 0x39 => (* ADD HL, SP *)
      let temp := u32 (HL gb + SP gb) in
      let gb := set_fN 0 gb in
      let gb := set_fH (if nz (Z.land ((Z.land (HL gb) 0xFFF + (Z.land (SP gb) 0xFFF))) 0x1000) then 1 else 0) gb in
      let gb := set_fC (if nz (Z.land temp 0x10000) then 1 else 0) gb in
      let gb := set_HL (u16 temp) gb in
      Some (gb, inst_cycles)
  | 0x3A => (* LD A, (HL) *)
      v1 ← __gb_read gb (HL gb);
      let gb := set_HL (HL gb - 1) gb in
      let gb := set_rA v1 gb in
      Some (gb, inst_cycles)
  | 0x3B => (* DEC SP *)
      let gb := set_SP (u16 (SP gb - 1)) gb in
      Some (gb, inst_cycles)
  | 0x3C => (* INC A *)
      let gb := set_rA (u8 (rA gb + 1)) gb in
      let gb := set_fZ (Z.b2z (rA gb =? 0x00)) gb in
      let gb := set_fN 0 gb in
      let gb := set_fH (Z.b2z (Z.land (rA gb) 0x0F =? 0x00)) gb in
      Some (gb, inst_cycles)
  | 0x3D => (* DEC A *)
      let gb := set_rA (u8 (rA gb - 1)) gb in
      let gb := set_fZ (Z.b2z (rA gb =? 0x00)) gb in
      let gb := set_fN 1 gb in
      let gb := set_fH (Z.b2z (Z.land (rA gb) 0x0F =? 0x0F)) gb in
      Some (gb, inst_cycles)
  | 0x3E => (* LD A, imm *)
      '(v1, gb) ← fetch gb;
      let gb := set_rA v1 gb in
      Some (gb, inst_cycles)
  | 0x3F => (* CCF *)
      let gb := set_fN 0 gb in
      let gb := set_fH 0 gb in
      let gb := set_fC (u1 (Z.lnot (fC gb))) gb in
      Some (gb, inst_cycles)
  | _ => Some (gb_error gb GB_INVALID_OPCODE opcode, inst_cycles)
  end.

Definition op_40_47 (opcode inst_cycles : Z) (gb : gb_s) : option (gb_s * Z) :=
  match opcode with
  | 0x40 => (* LD B, B *)
      Some (gb, inst_cycles)
  | 0x41 => (* LD B, C *)
      let gb := set_rB (rC gb) gb in
      Some (gb, inst_cycles)
  | 0x42 => (* LD B, D *)
      let gb := set_rB (rD gb) gb in
      Some (gb, inst_cycles)
  | 0x43 => (* LD B, E *)
      let gb := set_rB (rE gb) gb in
      Some (gb, inst_cycles)
  | 0x44 => (* LD B, H *)
      let gb := set_rB (rH gb) gb in
      Some (gb, inst_cycles)
  | 0x45 => (* LD B, L *)
      let gb := set_rB (rL gb) gb in
      Some (gb, inst_cycles)
  | 0x46 => (* LD B, (HL) *)
      v1 ← __gb_read gb (HL gb);
      let gb := set_rB v1 gb in
      Some (gb, inst_cycles)
  | 0x47 => (* LD B, A *)
      let gb := set_rB (rA gb) gb in
      Some (gb, inst_cycles)
  | _ => Some (gb_error gb GB_INVALID_OPCODE opcode, inst_cycles)
  end.

Definition op_48_4F (opcode inst_cycles : Z) (gb : gb_s) : option (gb_s * Z) :=
  match opcode with
  | 0x48 => (* LD C, B *)
      let gb := set_rC (rB gb) gb in
      Some (gb, inst_cycles)
  | 0x49 => (* LD C, C *)
      Some (gb, inst_cycles)
  | 0x4A => (* LD C, D *)
      let gb := set_rC (rD gb) gb in
      Some (gb, inst_cycles)
  | 0x4B => (* LD C, E *)
      let gb := set_rC (rE gb) gb in
      Some (gb, inst_cycles)
  | 0x4C => (* LD C, H *)
      let gb := set_rC (rH gb) gb in
      Some (gb, inst_cycles)
  | 0x4D => (* LD C, L *)
      let gb := set_rC (rL gb) gb in
      Some (gb, inst_cycles)
  | 0x4E => (* LD C, (HL) *)
      v1 ← __gb_read gb (HL gb);
      let gb := set_rC v1 gb in
      Some (gb, inst_cycles)
  | 0x4F => (* LD C, A *)
      let gb := set_rC (rA gb) gb in
      Some (gb, inst_cycles)
  | _ => Some (gb_error gb GB_INVALID_OPCODE opcode, inst_cycles)
  end.

Definition op_50_57 (opcode inst_cycles : Z) (gb : gb_s) : option (gb_s * Z) :=
  match opcode with
  | 0x50 => (* LD D, B *)
      let gb := set_rD (rB gb) gb in
      Some (gb, inst_cycles)
  | 0x51 => (* LD D, C *)
      let gb := set_rD (rC gb) gb in
      Some (gb, inst_cycles)
  | 0x52 => (* LD D, D *)
      Some (gb, inst_cycles)
  | 0x53 => (* LD D, E *)
      let gb := set_rD (rE gb) gb in
      Some (gb, inst_cycles)
  | 0x54 => (* LD D, H *)
      let gb := set_rD (rH gb) gb in
      Some (gb, inst_cycles)
  | 0x55 => (* LD D, L *)
      let gb := set_rD (rL gb) gb in
      Some (gb, inst_cycles)
  | 0x56 => (* LD D, (HL) *)
      v1 ← __gb_read gb (HL gb);
      let gb := set_rD v1 gb in
      Some (gb, inst_cycles)
  | 0x57 => (* LD D, A *)
      let gb := set_rD (rA gb) gb in
      Some (gb, inst_cycles)
  | _ => Some (gb_error gb GB_INVALID_OPCODE opcode, inst_cycles)
  end.

Definition op_58_5F (opcode inst_cycles : Z) (gb : gb_s) : option (gb_s * Z) :=
  match opcode with
  | 0x58 => (* LD E, B *)
      let gb := set_rE (rB gb) gb in
      Some (gb, inst_cycles)
  | 0x59 => (* LD E, C *)
      let gb := set_rE (rC gb) gb in
      Some (gb, inst_cycles)
  | 0x5A => (* LD E, D *)
      let gb := set_rE (rD gb) gb in
      Some (gb, inst_cycles)
  | 0x5B => (* LD E, E *)
      Some (gb, inst_cycles)
  | 0x5C => (* LD E, H *)
      let gb := set_rE (rH gb) gb in
      Some (gb, inst_cycles)
  | 0x5D => (* LD E, L *)
      let gb := set_rE (rL gb) gb in
      Some (gb, inst_cycles)
  | 0x5E => (* LD E, (HL) *)
      v1 ← __gb_read gb (HL gb);
      let gb := set_rE v1 gb in
      Some (gb, inst_cycles)
  | 0x5F => (* LD E, A *)
      let gb := set_rE (rA gb) gb in
      Some (gb, inst_cycles)
  | _ => Some (gb_error gb GB_INVALID_OPCODE opcode, inst_cycles)
  end.

Definition op_60_67 (opcode inst_cycles : Z) (gb : gb_s) : option (gb_s * Z) :=
  match opcode with
  | 0x60 => (* LD H, B *)
      let gb := set_rH (rB gb) gb in
      Some (gb, inst_cycles)
  | 0x61 => (* LD H, C *)
      let gb := set_rH (rC gb) gb in
      Some (gb, inst_cycles)
  | 0x62 => (* LD H, D *)
      let gb := set_rH (rD gb) gb in
      Some (gb, inst_cycles)
  | 0x63 => (* LD H, E *)
      let gb := set_rH (rE gb) gb in
      Some (gb, inst_cycles)
  | 0x64 => (* LD H, H *)
      Some (gb, inst_cycles)
  | 0x65 => (* LD H, L *)
      let gb := set_rH (rL gb) gb in
      Some (gb, inst_cycles)
  | 0x66 => (* LD H, (HL) *)
      v1 ← __gb_read gb (HL gb);
      let gb := set_rH v1 gb in
      Some (gb, inst_cycles)
  | 0x67 => (* LD H, A *)
      let gb := set_rH (rA gb) gb in
      Some (gb, inst_cycles)
  | _ => Some (gb_error gb GB_INVALID_OPCODE opcode, inst_cycles)
  end.

Definition op_68_6F (opcode inst_cycles : Z) (gb : gb_s) : option (gb_s * Z) :=
  match opcode with
  | 0x68 => (* LD L, B *)
      let gb := set_rL (rB gb) gb in
      Some (gb, inst_cycles)
  | 0x69 => (* LD L, C *)
      let gb := set_rL (rC gb) gb in
      Some (gb, inst_cycles)
  | 0x6A => (* LD L, D *)
      let gb := set_rL (rD gb) gb in
      Some (gb, inst_cycles)
  | 0x6B => (* LD L, E *)
      let gb := set_rL (rE gb) gb in
      Some (gb, inst_cycles)
  | 0x6C => (* LD L, H *)
      let gb := set_rL (rH gb) gb in
      Some (gb, inst_cycles)
  | 0x6D => (* LD L, L *)
      Some (gb, inst_cycles)
  | 0x6E => (* LD L, (HL) *)
      v1 ← __gb_read gb (HL gb);
      let gb := set_rL v1 gb in
      Some (gb, inst_cycles)
  | 0x6F => (* LD L, A *)
      let gb := set_rL (rA gb) gb in
      Some (gb, inst_cycles)
  | _ => Some (gb_error gb GB_INVALID_OPCODE opcode, inst_cycles)
  end.

Definition op_70_77 (opcode inst_cycles : Z) (gb : gb_s) : option (gb_s * Z) :=
  match opcode with
  | 0x70 => (* LD (HL), B *)
      gb ← __gb_write gb (HL gb) (rB gb);
      Some (gb, inst_cycles)
  | 0x71 => (* LD (HL), C *)
      gb ← __gb_write gb (HL gb) (rC gb);
      Some (gb, inst_cycles)
  | 0x72 => (* LD (HL), D *)
      gb ← __gb_write gb (HL gb) (rD gb);
      Some (gb, inst_cycles)
  | 0x73 => (* LD (HL), E *)
      gb ← __gb_write gb (HL gb) (rE gb);
      Some (gb, inst_cycles)
  | 0x74 => (* LD (HL), H *)
      gb ← __gb_write gb (HL gb) (rH gb);
      Some (gb, inst_cycles)
  | 0x75 => (* LD (HL), L *)
      gb ← __gb_write gb (HL gb) (rL gb);
      Some (gb, inst_cycles)
  | 0x76 => (* HALT *)
      let gb := set_gb_halt 1 gb in
      Some (gb, inst_cycles)
  | 0x77 => (* LD (HL), A *)
      gb ← __gb_write gb (HL gb) (rA gb);
      Some (gb, inst_cycles)
  | _ => Some (gb_error gb GB_INVALID_OPCODE opcode, inst_cycles)
  end.

Definition op_78_7F (opcode inst_cycles : Z) (gb : gb_s) : option (gb_s * Z) :=
  match opcode with
  | 0x78 => (* LD A, B *)
      let gb := set_rA (rB gb) gb in
      Some (gb, inst_cycles)
  | 0x79 => (* LD A, C *)
      let gb := set_rA (rC gb) gb in
      Some (gb, inst_cycles)
  | 0x7A => (* LD A, D *)
      let gb := set_rA (rD gb) gb in
      Some (gb, inst_cycles)
  | 0x7B => (* LD A, E *)
      let gb := set_rA (rE gb) gb in
      Some (gb, inst_cycles)
  | 0x7C => (* LD A, H *)
      let gb := set_rA (rH gb) gb in
      Some (gb, inst_cycles)
  | 0x7D => (* LD A, L *)
      let gb := set_rA (rL gb) gb in
      Some (gb, inst_cycles)
  | 0x7E => (* LD A, (HL) *)
      v1 ← __gb_read gb (HL gb);
      let gb := set_rA v1 gb in
      Some (gb, inst_cycles)
  | 0x7F => (* LD A, A *)
      Some (gb, inst_cycles)
  | _ => Some (gb_error gb GB_INVALID_OPCODE opcode, inst_cycles)
  end.

Definition op_80_87 (opcode inst_cycles : Z) (gb : gb_s) : option (gb_s * Z) :=
  match opcode with
  | 0x80 => (* ADD A, B *)
      let temp := u16 (rA gb + rB gb) in
      let gb := set_fZ (Z.b2z (Z.land temp 0xFF =? 0x00)) gb in
      let gb := set_fN 0 gb in
      let gb := set_fH (if nz (Z.land (Z.lxor (Z.lxor (rA gb) (rB gb)) temp) 0x10) then 1 else 0) gb in
      let gb := set_fC (if nz (Z.land temp 0xFF00) then 1 else 0) gb in
      let gb := set_rA (u8 (Z.land temp 0xFF)) gb in
      Some (gb, inst_cycles)
  | 0x81 => (* ADD A, C *)
      let temp := u16 (rA gb + rC gb) in
      let gb := set_fZ (Z.b2z (Z.land temp 0xFF =? 0x00)) gb in
      let gb := set_fN 0 gb in
      let gb := set_fH (if nz (Z.land (Z.lxor (Z.lxor (rA gb) (rC gb)) temp) 0x10) then 1 else 0) gb in
      let gb := set_fC (if nz (Z.land temp 0xFF00) then 1 else 0) gb in
      let gb := set_rA (u8 (Z.land temp 0xFF)) gb in
      Some (gb, inst_cycles)
  | 0x82 => (* ADD A, D *)
      let temp := u16 (rA gb + rD gb) in
      let gb := set_fZ (Z.b2z (Z.land temp 0xFF =? 0x00)) gb in
      let gb := set_fN 0 gb in
      let gb := set_fH (if nz (Z.land (Z.lxor (Z.lxor (rA gb) (rD gb)) temp) 0x10) then 1 else 0) gb in
      let gb := set_fC (if nz (Z.land temp 0xFF00) then 1 else 0) gb in
      let gb := set_rA (u8 (Z.land temp 0xFF)) gb in
      Some (gb, inst_cycles)
  | 0x83 => (* ADD A, E *)
      let temp := u16 (rA gb + rE gb) in
      let gb := set_fZ (Z.b2z (Z.land temp 0xFF =? 0x00)) gb in
      let gb := set_fN 0 gb in
      let gb := set_fH (if nz (Z.land (Z.lxor (Z.lxor (rA gb) (rE gb)) temp) 0x10) then 1 else 0) gb in
      let gb := set_fC (if nz (Z.land temp 0xFF00) then 1 else 0) gb in
      let gb := set_rA (u8 (Z.land temp 0xFF)) gb in
      Some (gb, inst_cycles)
  | 0x84 => (* ADD A, H *)
      let temp := u16 (rA gb + rH gb) in
      let gb := set_fZ (Z.b2z (Z.land temp 0xFF =? 0x00)) gb in
      let gb := set_fN 0 gb in
      let gb := set_fH (if nz (Z.land (Z.lxor (Z.lxor (rA gb) (rH gb)) temp) 0x10) then 1 else 0) gb in
      let gb := set_fC (if nz (Z.land temp 0xFF00) then 1 else 0) gb in
      let gb := set_rA (u8 (Z.land temp 0xFF)) gb in
      Some (gb, inst_cycles)
  | 0x85 => (* ADD A, L *)
      let temp := u16 (rA gb + rL gb) in
      let gb := set_fZ (Z.b2z (Z.land temp 0xFF =? 0x00)) gb in
      let gb := set_fN 0 gb in
      let gb := set_fH (if nz (Z.land (Z.lxor (Z.lxor (rA gb) (rL gb)) temp) 0x10) then 1 else 0) gb in
      let gb := set_fC (if nz (Z.land temp 0xFF00) then 1 else 0) gb in
      let gb := set_rA (u8 (Z.land temp 0xFF)) gb in
      Some (gb, inst_cycles)
  | 0x86 => (* ADD A, (HL) *)
      v1 ← __gb_read gb (HL gb);
      let hl := v1 in
      let temp := u16 (rA gb + hl) in
      let gb := set_fZ (Z.b2z (Z.land temp 0xFF =? 0x00)) gb in
      let gb := set_fN 0 gb in
      let gb := set_fH (if nz (Z.land (Z.lxor (Z.lxor (rA gb) hl) temp) 0x10) then 1 else 0) gb in
      let gb := set_fC (if nz (Z.land temp 0xFF00) then 1 else 0) gb in
      let gb := set_rA (u8 (Z.land temp 0xFF)) gb in
      Some (gb, inst_cycles)
  | 0x87 => (* ADD A, A *)
      let temp := u16 (rA gb + rA gb) in
      let gb := set_fZ (Z.b2z (Z.land temp 0xFF =? 0x00)) gb in
      let gb := set_fN 0 gb in
      let gb := set_fH (if nz (Z.land temp 0x10) then 1 else 0) gb in
      let gb := set_fC (if nz (Z.land temp 0xFF00) then 1 else 0) gb in
      let gb := set_rA (u8 (Z.land temp 0xFF)) gb in
      Some (gb, inst_cycles)
  | _ => Some (gb_error gb GB_INVALID_OPCODE opcode, inst_cycles)
  end.

Definition op_88_8F (opcode inst_cycles : Z) (gb : gb_s) : option (gb_s * Z) :=
  match opcode with
  | 0x88 => (* ADC A, B *)
      let temp := u16 (rA gb + rB gb + fC gb) in
      let gb := set_fZ (Z.b2z (Z.land temp 0xFF =? 0x00)) gb in
      let gb := set_fN 0 gb in
      let gb := set_fH (if nz (Z.land (Z.lxor (Z.lxor (rA gb) (rB gb)) temp) 0x10) then 1 else 0) gb in
      let gb := set_fC (if nz (Z.land temp 0xFF00) then 1 else 0) gb in
      let gb := set_rA (u8 (Z.land temp 0xFF)) gb in
      Some (gb, inst_cycles)
  | 0x89 => (* ADC A, C *)
      let temp := u16 (rA gb + rC gb + fC gb) in
      let gb := set_fZ (Z.b2z (Z.land temp 0xFF =? 0x00)) gb in
      let gb := set_fN 0 gb in
      let gb := set_fH (if nz (Z.land (Z.lxor (Z.lxor (rA gb) (rC gb)) temp) 0x10) then 1 else 0) gb in
      let gb := set_fC (if nz (Z.land temp 0xFF00) then 1 else 0) gb in
      let gb := set_rA (u8 (Z.land temp 0xFF)) gb in
      Some (gb, inst_cycles)
  | 0x8A => (* ADC A, D *)
      let temp := u16 (rA gb + rD gb + fC gb) in
      let gb := set_fZ (Z.b2z (Z.land temp 0xFF =? 0x00)) gb in
      let gb := set_fN 0 gb in
      let gb := set_fH (if nz (Z.land (Z.lxor (Z.lxor (rA gb) (rD gb)) temp) 0x10) then 1 else 0) gb in
      let gb := set_fC (if nz (Z.land temp 0xFF00) then 1 else 0) gb in
      let gb := set_rA (u8 (Z.land temp 0xFF)) gb in
      Some (gb, inst_cycles)
  | 0x8B => (* ADC A, E *)
      let temp := u16 (rA gb + rE gb + fC gb) in
      let gb := set_fZ (Z.b2z (Z.land temp 0xFF =? 0x00)) gb in
      let gb := set_fN 0 gb in
      let gb := set_fH (if nz (Z.land (Z.lxor (Z.lxor (rA gb) (rE gb)) temp) 0x10) then 1 else 0) gb in
      let gb := set_fC (if nz (Z.land temp 0xFF00) then 1 else 0) gb in
      let gb := set_rA (u8 (Z.land temp 0xFF)) gb in
      Some (gb, inst_cycles)
  | 0x8C => (* ADC A, H *)
      let temp := u16 (rA gb + rH gb + fC gb) in
      let gb := set_fZ (Z.b2z (Z.land temp 0xFF =? 0x00)) gb in
      let gb := set_fN 0 gb in
      let gb := set_fH (if nz (Z.land (Z.lxor (Z.lxor (rA gb) (rH gb)) temp) 0x10) then 1 else 0) gb in
      let gb := set_fC (if nz (Z.land temp 0xFF00) then 1 else 0) gb in
      let gb := set_rA (u8 (Z.land temp 0xFF)) gb in
      Some (gb, inst_cycles)
  | 0x8D => (* ADC A, L *)
      let temp := u16 (rA gb + rL gb + fC gb) in
      let gb := set_fZ (Z.b2z (Z.land temp 0xFF =? 0x00)) gb in
      let gb := set_fN 0 gb in
      let gb := set_fH (if nz (Z.land (Z.lxor (Z.lxor (rA gb) (rL gb)) temp) 0x10) then 1 else 0) gb in
      let gb := set_fC (if nz (Z.land temp 0xFF00) then 1 else 0) gb in
      let gb := set_rA (u8 (Z.land temp 0xFF)) gb in
      Some (gb, inst_cycles)
  | 0x8E => (* ADC A, (HL) *)
      v1 ← __gb_read gb (HL gb);
      let val := v1 in
      let temp := u16 (rA gb + val + fC gb) in
      let gb := set_fZ (Z.b2z (Z.land temp 0xFF =? 0x00)) gb in
      let gb := set_fN 0 gb in
      let gb := set_fH (if nz (Z.land (Z.lxor (Z.lxor (rA gb) val) temp) 0x10) then 1 else 0) gb in
      let gb := set_fC (if nz (Z.land temp 0xFF00) then 1 else 0) gb in
      let gb := set_rA (u8 (Z.land temp 0xFF)) gb in
      Some (gb, inst_cycles)
  | 0x8F => (* ADC A, A *)
      let temp := u16 (rA gb + rA gb + fC gb) in
      let gb := set_fZ (Z.b2z (Z.land temp 0xFF =? 0x00)) gb in
      let gb := set_fN 0 gb in
      let gb := set_fH (if nz (Z.land (Z.lxor (Z.lxor (rA gb) (rA gb)) temp) 0x10) then 1 else 0) gb in
      let gb := set_fC (if nz (Z.land temp 0xFF00) then 1 else 0) gb in
      let gb := set_rA (u8 (Z.land temp 0xFF)) gb in
      Some (gb, inst_cycles)
  | _ => Some (gb_error gb GB_INVALID_OPCODE opcode, inst_cycles)
  end.

Definition op_90_97 (opcode inst_cycles : Z) (gb : gb_s) : option (gb_s * Z) :=
  match opcode with
  | 0x90 => (* SUB B *)
      let temp := u16 (rA gb - rB gb) in
      let gb := set_fZ (Z.b2z (Z.land temp 0xFF =? 0x00)) gb in
      let gb := set_fN 1 gb in
      let gb := set_fH (if nz (Z.land (Z.lxor (Z.lxor (rA gb) (rB gb)) temp) 0x10) then 1 else 0) gb in
      let gb := set_fC (if nz (Z.land temp 0xFF00) then 1 else 0) gb in
      let gb := set_rA (u8 (Z.land temp 0xFF)) gb in
      Some (gb, inst_cycles)
  | 0x91 => (* SUB C *)
      let temp := u16 (rA gb - rC gb) in
      let gb := set_fZ (Z.b2z (Z.land temp 0xFF =? 0x00)) gb in
      let gb := set_fN 1 gb in
      let gb := set_fH (if nz (Z.land (Z.lxor (Z.lxor (rA gb) (rC gb)) temp) 0x10) then 1 else 0) gb in
      let gb := set_fC (if nz (Z.land temp 0xFF00) then 1 else 0) gb in
      let gb := set_rA (u8 (Z.land temp 0xFF)) gb in
      Some (gb, inst_cycles)
  | 0x92 => (* SUB D *)
      let temp := u16 (rA gb - rD gb) in
      let gb := set_fZ (Z.b2z (Z.land temp 0xFF =? 0x00)) gb in
      let gb := set_fN 1 gb in
      let gb := set_fH (if nz (Z.land (Z.lxor (Z.lxor (rA gb) (rD gb)) temp) 0x10) then 1 else 0) gb in
      let gb := set_fC (if nz (Z.land temp 0xFF00) then 1 else 0) gb in
      let gb := set_rA (u8 (Z.land temp 0xFF)) gb in
      Some (gb, inst_cycles)
  | 0x93 => (* SUB E *)
      let temp := u16 (rA gb - rE gb) in
      let gb := set_fZ (Z.b2z (Z.land temp 0xFF =? 0x00)) gb in
      let gb := set_fN 1 gb in
      let gb := set_fH (if nz (Z.land (Z.lxor (Z.lxor (rA gb) (rE gb)) temp) 0x10) then 1 else 0) gb in
      let gb := set_fC (if nz (Z.land temp 0xFF00) then 1 else 0) gb in
      let gb := set_rA (u8 (Z.land temp 0xFF)) gb in
      Some (gb, inst_cycles)
  | 0x94 => (* SUB H *)
      let temp := u16 (rA gb - rH gb) in
      let gb := set_fZ (Z.b2z (Z.land temp 0xFF =? 0x00)) gb in
      let gb := set_fN 1 gb in
      let gb := set_fH (if nz (Z.land (Z.lxor (Z.lxor (rA gb) (rH gb)) temp) 0x10) then 1 else 0) gb in
      let gb := set_fC (if nz (Z.land temp 0xFF00) then 1 else 0) gb in
      let gb := set_rA (u8 (Z.land temp 0xFF)) gb in
      Some (gb, inst_cycles)
  | 0x95 => (* SUB L *)
      let temp := u16 (rA gb - rL gb) in
      let gb := set_fZ (Z.b2z (Z.land temp 0xFF =? 0x00)) gb in
      let gb := set_fN 1 gb in
      let gb := set_fH (if nz (Z.land (Z.lxor (Z.lxor (rA gb) (rL gb)) temp) 0x10) then 1 else 0) gb in
      let gb := set_fC (if nz (Z.land temp 0xFF00) then 1 else 0) gb in
      let gb := set_rA (u8 (Z.land temp 0xFF)) gb in
      Some (gb, inst_cycles)
  | 0x96 => (* SUB (HL) *)
      v1 ← __gb_read gb (HL gb);
      let val := v1 in
      let temp := u16 (rA gb - val) in
      let gb := set_fZ (Z.b2z (Z.land temp 0xFF =? 0x00)) gb in
      let gb := set_fN 1 gb in
      let gb := set_fH (if nz (Z.land (Z.lxor (Z.lxor (rA gb) val) temp) 0x10) then 1 else 0) gb in
      let gb := set_fC (if nz (Z.land temp 0xFF00) then 1 else 0) gb in
      let gb := set_rA (u8 (Z.land temp 0xFF)) gb in
      Some (gb, inst_cycles)
  | 0x97 => (* SUB A *)
      let gb := set_rA 0 gb in
      let gb := set_fZ 1 gb in
      let gb := set_fN 1 gb in
      let gb := set_fH 0 gb in
      let gb := set_fC 0 gb in
      Some (gb, inst_cycles)
  | _ => Some (gb_error gb GB_INVALID_OPCODE opcode, inst_cycles)
  end.

Definition op_98_9F (opcode inst_cycles : Z) (gb : gb_s) : option (gb_s * Z) :=
  match opcode with
  | 0x98 => (* SBC A, B *)
      let temp := u16 (rA gb - rB gb - fC gb) in
      let gb := set_fZ (Z.b2z (Z.land temp 0xFF =? 0x00)) gb in
      let gb := set_fN 1 gb in
      let gb := set_fH (if nz (Z.land (Z.lxor (Z.lxor (rA gb) (rB gb)) temp) 0x10) then 1 else 0) gb in
      let gb := set_fC (if nz (Z.land temp 0xFF00) then 1 else 0) gb in
      let gb := set_rA (u8 (Z.land temp 0xFF)) gb in
      Some (gb, inst_cycles)
  | 0x99 => (* SBC A, C *)
      let temp := u16 (rA gb - rC gb - fC gb) in
      let gb := set_fZ (Z.b2z (Z.land temp 0xFF =? 0x00)) gb in
      let gb := set_fN 1 gb in
      let gb := set_fH (if nz (Z.land (Z.lxor (Z.lxor (rA gb) (rC gb)) temp) 0x10) then 1 else 0) gb in
      let gb := set_fC (if nz (Z.land temp 0xFF00) then 1 else 0) gb in
      let gb := set_rA (u8 (Z.land temp 0xFF)) gb in
      Some (gb, inst_cycles)
  | 0x9A => (* SBC A, D *)
      let temp := u16 (rA gb - rD gb - fC gb) in
      let gb := set_fZ (Z.b2z (Z.land temp 0xFF =? 0x00)) gb in
      let gb := set_fN 1 gb in
      let gb := set_fH (if nz (Z.land (Z.lxor (Z.lxor (rA gb) (rD gb)) temp) 0x10) then 1 else 0) gb in
      let gb := set_fC (if nz (Z.land temp 0xFF00) then 1 else 0) gb in
      let gb := set_rA (u8 (Z.land temp 0xFF)) gb in
      Some (gb, inst_cycles)
  | 0x9B => (* SBC A, E *)
      let temp := u16 (rA gb - rE gb - fC gb) in
      let gb := set_fZ (Z.b2z (Z.land temp 0xFF =? 0x00)) gb in
      let gb := set_fN 1 gb in
      let gb := set_fH (if nz (Z.land (Z.lxor (Z.lxor (rA gb) (rE gb)) temp) 0x10) then 1 else 0) gb in
      let gb := set_fC (if nz (Z.land temp 0xFF00) then 1 else 0) gb in
      let gb := set_rA (u8 (Z.land temp 0xFF)) gb in
      Some (gb, inst_cycles)
  | 0x9C => (* SBC A, H *)
      let temp := u16 (rA gb - rH gb - fC gb) in
      let gb := set_fZ (Z.b2z (Z.land temp 0xFF =? 0x00)) gb in
      let gb := set_fN 1 gb in
      let gb := set_fH (if nz (Z.land (Z.lxor (Z.lxor (rA gb) (rH gb)) temp) 0x10) then 1 else 0) gb in
      let gb := set_fC (if nz (Z.land temp 0xFF00) then 1 else 0) gb in
      let gb := set_rA (u8 (Z.land temp 0xFF)) gb in
      Some (gb, inst_cycles)
  | 0x9D => (* SBC A, L *)
      let temp := u16 (rA gb - rL gb - fC gb) in
      let gb := set_fZ (Z.b2z (Z.land temp 0xFF =? 0x00)) gb in
      let gb := set_fN 1 gb in
      let gb := set_fH (if nz (Z.land (Z.lxor (Z.lxor (rA gb) (rL gb)) temp) 0x10) then 1 else 0) gb in
      let gb := set_fC (if nz (Z.land temp 0xFF00) then 1 else 0) gb in
      let gb := set_rA (u8 (Z.land temp 0xFF)) gb in
      Some (gb, inst_cycles)
  | 0x9E => (* SBC A, (HL) *)
      v1 ← __gb_read gb (HL gb);
      let val := v1 in
      let temp := u16 (rA gb - val - fC gb) in
      let gb := set_fZ (Z.b2z (Z.land temp 0xFF =? 0x00)) gb in
      let gb := set_fN 1 gb in
      let gb := set_fH (if nz (Z.land (Z.lxor (Z.lxor (rA gb) val) temp) 0x10) then 1 else 0) gb in
      let gb := set_fC (if nz (Z.land temp 0xFF00) then 1 else 0) gb in
      let gb := set_rA (u8 (Z.land temp 0xFF)) gb in
      Some (gb, inst_cycles)
  | 0x9F => (* SBC A, A *)
      let gb := set_rA (if nz (fC gb) then 0xFF else 0x00) gb in
      let gb := set_fZ (if nz (fC gb) then 0x00 else 0x01) gb in
      let gb := set_fN 1 gb in
      let gb := set_fH (u1 (fC gb)) gb in
      Some (gb, inst_cycles)
  | _ => Some (gb_error gb GB_INVALID_OPCODE opcode, inst_cycles)
  end.

Definition op_A0_A7 (opcode inst_cycles : Z) (gb : gb_s) : option (gb_s * Z) :=
  match opcode with
  | 0xA0 => (* AND B *)
      let gb := set_rA (u8 (Z.land (rA gb) (rB gb))) gb in
      let gb := set_fZ (Z.b2z (rA gb =? 0x00)) gb in
      let gb := set_fN 0 gb in
      let gb := set_fH 1 gb in
      let gb := set_fC 0 gb in
      Some (gb, inst_cycles)
  | 0xA1 => (* AND C *)
      let gb := set_rA (u8 (Z.land (rA gb) (rC gb))) gb in
      let gb := set_fZ (Z.b2z (rA gb =? 0x00)) gb in
      let gb := set_fN 0 gb in
      let gb := set_fH 1 gb in
      let gb := set_fC 0 gb in
      Some (gb, inst_cycles)
  | 0xA2 => (* AND D *)
      let gb := set_rA (u8 (Z.land (rA gb) (rD gb))) gb in
      let gb := set_fZ (Z.b2z (rA gb =? 0x00)) gb in
      let gb := set_fN 0 gb in
      let gb := set_fH 1 gb in
      let gb := set_fC 0 gb in
      Some (gb, inst_cycles)
  | 0xA3 => (* AND E *)
      let gb := set_rA (u8 (Z.land (rA gb) (rE gb))) gb in
      let gb := set_fZ (Z.b2z (rA gb =? 0x00)) gb in
      let gb := set_fN 0 gb in
      let gb := set_fH 1 gb in
      let gb := set_fC 0 gb in
      Some (gb, inst_cycles)
  | 0xA4 => (* AND H *)
      let gb := set_rA (u8 (Z.land (rA gb) (rH gb))) gb in
      let gb := set_fZ (Z.b2z (rA gb =? 0x00)) gb in
      let gb := set_fN 0 gb in
      let gb := set_fH 1 gb in
      let gb := set_fC 0 gb in
      Some (gb, inst_cycles)
  | 0xA5 => (* AND L *)
      let gb := set_rA (u8 (Z.land (rA gb) (rL gb))) gb in
      let gb := set_fZ (Z.b2z (rA gb =? 0x00)) gb in
      let gb := set_fN 0 gb in
      let gb := set_fH 1 gb in
      let gb := set_fC 0 gb in
      Some (gb, inst_cycles)
  | 0xA6 => (* AND B *)
      v1 ← __gb_read gb (HL gb);
      let gb := set_rA (u8 (Z.land (rA gb) v1)) gb in
      let gb := set_fZ (Z.b2z (rA gb =? 0x00)) gb in
      let gb := set_fN 0 gb in
      let gb := set_fH 1 gb in
      let gb := set_fC 0 gb in
      Some (gb, inst_cycles)
  | 0xA7 => (* AND A *)
      let gb := set_fZ (Z.b2z (rA gb =? 0x00)) gb in
      let gb := set_fN 0 gb in
      let gb := set_fH 1 gb in
      let gb := set_fC 0 gb in
      Some (gb, inst_cycles)
  | _ => Some (gb_error gb GB_INVALID_OPCODE opcode, inst_cycles)
  end.

Definition op_A8_AF (opcode inst_cycles : Z) (gb : gb_s) : option (gb_s * Z) :=
  match opcode with
  | 0xA8 => (* XOR B *)
      let gb := set_rA (u8 (Z.lxor (rA gb) (rB gb))) gb in
      let gb := set_fZ (Z.b2z (rA gb =? 0x00)) gb in
      let gb := set_fN 0 gb in
      let gb := set_fH 0 gb in
      let gb := set_fC 0 gb in
      Some (gb, inst_cycles)
  | 0xA9 => (* XOR C *)
      let gb := set_rA (u8 (Z.lxor (rA gb) (rC gb))) gb in
      let gb := set_fZ (Z.b2z (rA gb =? 0x00)) gb in
      let gb := set_fN 0 gb in
      let gb := set_fH 0 gb in
      let gb := set_fC 0 gb in
      Some (gb, inst_cycles)
  | 0xAA => (* XOR D *)
      let gb := set_rA (u8 (Z.lxor (rA gb) (rD gb))) gb in
      let gb := set_fZ (Z.b2z (rA gb =? 0x00)) gb in
      let gb := set_fN 0 gb in
      let gb := set_fH 0 gb in
      let gb := set_fC 0 gb in
      Some (gb, inst_cycles)
  | 0xAB => (* XOR E *)
      let gb := set_rA (u8 (Z.lxor (rA gb) (rE gb))) gb in
      let gb := set_fZ (Z.b2z (rA gb =? 0x00)) gb in
      let gb := set_fN 0 gb in
      let gb := set_fH 0 gb in
      let gb := set_fC 0 gb in
      Some (gb, inst_cycles)
  | 0xAC => (* XOR H *)
      let gb := set_rA (u8 (Z.lxor (rA gb) (rH gb))) gb in
      let gb := set_fZ (Z.b2z (rA gb =? 0x00)) gb in
      let gb := set_fN 0 gb in
      let gb := set_fH 0 gb in
      let gb := set_fC 0 gb in
      Some (gb, inst_cycles)
  | 0xAD => (* XOR L *)
      let gb := set_rA (u8 (Z.lxor (rA gb) (rL gb))) gb in
      let gb := set_fZ (Z.b2z (rA gb =? 0x00)) gb in
      let gb := set_fN 0 gb in
      let gb := set_fH 0 gb in
      let gb := set_fC 0 gb in
      Some (gb, inst_cycles)
  | 0xAE => (* XOR (HL) *)
      v1 ← __gb_read gb (HL gb);
      let gb := set_rA (u8 (Z.lxor (rA gb) v1)) gb in
      let gb := set_fZ (Z.b2z (rA gb =? 0x00)) gb in
      let gb := set_fN 0 gb in
      let gb := set_fH 0 gb in
      let gb := set_fC 0 gb in
      Some (gb, inst_cycles)
  | 0xAF => (* XOR A *)
      let gb := set_rA 0x00 gb in
      let gb := set_fZ 1 gb in
      let gb := set_fN 0 gb in
      let gb := set_fH 0 gb in
      let gb := set_fC 0 gb in
      Some (gb, inst_cycles)
  | _ => Some (gb_error gb GB_INVALID_OPCODE opcode, inst_cycles)
  end.

Definition op_B0_B7 (opcode inst_cycles : Z) (gb : gb_s) : option (gb_s * Z) :=
  match opcode with
  | 0xB0 => (* OR B *)
      let gb := set_rA (u8 (Z.lor (rA gb) (rB gb))) gb in
      let gb := set_fZ (Z.b2z (rA gb =? 0x00)) gb in
      let gb := set_fN 0 gb in
      let gb := set_fH 0 gb in
      let gb := set_fC 0 gb in
      Some (gb, inst_cycles)
  | 0xB1 => (* OR C *)
      let gb := set_rA (u8 (Z.lor (rA gb) (rC gb))) gb in
      let gb := set_fZ (Z.b2z (rA gb =? 0x00)) gb in
      let gb := set_fN 0 gb in
      let gb := set_fH 0 gb in
      let gb := set_fC 0 gb in
      Some (gb, inst_cycles)
  | 0xB2 => (* OR D *)
      let gb := set_rA (u8 (Z.lor (rA gb) (rD gb))) gb in
      let gb := set_fZ (Z.b2z (rA gb =? 0x00)) gb in
      let gb := set_fN 0 gb in
      let gb := set_fH 0 gb in
      let gb := set_fC 0 gb in
      Some (gb, inst_cycles)
  | 0xB3 => (* OR E *)
      let gb := set_rA (u8 (Z.lor (rA gb) (rE gb))) gb in
      let gb := set_fZ (Z.b2z (rA gb =? 0x00)) gb in
      let gb := set_fN 0 gb in
      let gb := set_fH 0 gb in
      let gb := set_fC 0 gb in
      Some (gb, inst_cycles)
  | 0xB4 => (* OR H *)
      let gb := set_rA (u8 (Z.lor (rA gb) (rH gb))) gb in
      let gb := set_fZ (Z.b2z (rA gb =? 0x00)) gb in
      let gb := set_fN 0 gb in
      let gb := set_fH 0 gb in
      let gb := set_fC 0 gb in
      Some (gb, inst_cycles)
  | 0xB5 => (* OR L *)
      let gb := set_rA (u8 (Z.lor (rA gb) (rL gb))) gb in
      let gb := set_fZ (Z.b2z (rA gb =? 0x00)) gb in
      let gb := set_fN 0 gb in
      let gb := set_fH 0 gb in
      let gb := set_fC 0 gb in
      Some (gb, inst_cycles)
  | 0xB6 => (* OR (HL) *)
      v1 ← __gb_read gb (HL gb);
      let gb := set_rA (u8 (Z.lor (rA gb) v1)) gb in
      let gb := set_fZ (Z.b2z (rA gb =? 0x00)) gb in
      let gb := set_fN 0 gb in
      let gb := set_fH 0 gb in
      let gb := set_fC 0 gb in
      Some (gb, inst_cycles)
  | 0xB7 => (* OR A *)
      let gb := set_fZ (Z.b2z (rA gb =? 0x00)) gb in
      let gb := set_fN 0 gb in
      let gb := set_fH 0 gb in
      let gb := set_fC 0 gb in
      Some (gb, inst_cycles)
  | _ => Some (gb_error gb GB_INVALID_OPCODE opcode, inst_cycles)
  end.

Definition op_B8_BF (opcode inst_cycles : Z) (gb : gb_s) : option (gb_s * Z) :=
  match opcode with
  | 0xB8 => (* CP B *)
      let temp := u16 (rA gb - rB gb) in
      let gb := set_fZ (Z.b2z (Z.land temp 0xFF =? 0x00)) gb in
      let gb := set_fN 1 gb in
      let gb := set_fH (if nz (Z.land (Z.lxor (Z.lxor (rA gb) (rB gb)) temp) 0x10) then 1 else 0) gb in
      let gb := set_fC (if nz (Z.land temp 0xFF00) then 1 else 0) gb in
      Some (gb, inst_cycles)
  | 0xB9 => (* CP C *)
      let temp := u16 (rA gb - rC gb) in
      let gb := set_fZ (Z.b2z (Z.land temp 0xFF =? 0x00)) gb in
      let gb := set_fN 1 gb in
      let gb := set_fH (if nz (Z.land (Z.lxor (Z.lxor (rA gb) (rC gb)) temp) 0x10) then 1 else 0) gb in
      let gb := set_fC (if nz (Z.land temp 0xFF00) then 1 else 0) gb in
      Some (gb, inst_cycles)
  | 0xBA => (* CP D *)
      let temp := u16 (rA gb - rD gb) in
      let gb := set_fZ (Z.b2z (Z.land temp 0xFF =? 0x00)) gb in
      let gb := set_fN 1 gb in
      let gb := set_fH (if nz (Z.land (Z.lxor (Z.lxor (rA gb) (rD gb)) temp) 0x10) then 1 else 0) gb in
      let gb := set_fC (if nz (Z.land temp 0xFF00) then 1 else 0) gb in
      Some (gb, inst_cycles)
  | 0xBB => (* CP E *)
      let temp := u16 (rA gb - rE gb) in
      let gb := set_fZ (Z.b2z (Z.land temp 0xFF =? 0x00)) gb in
      let gb := set_fN 1 gb in
      let gb := set_fH (if nz (Z.land (Z.lxor (Z.lxor (rA gb) (rE gb)) temp) 0x10) then 1 else 0) gb in
      let gb := set_fC (if nz (Z.land temp 0xFF00) then 1 else 0) gb in
      Some (gb, inst_cycles)
  | 0xBC => (* CP H *)
      let temp := u16 (rA gb - rH gb) in
      let gb := set_fZ (Z.b2z (Z.land temp 0xFF =? 0x00)) gb in
      let gb := set_fN 1 gb in
      let gb := set_fH (if nz (Z.land (Z.lxor (Z.lxor (rA gb) (rH gb)) temp) 0x10) then 1 else 0) gb in
      let gb := set_fC (if nz (Z.land temp 0xFF00) then 1 else 0) gb in
      Some (gb, inst_cycles)
  | 0xBD => (* CP L *)
      let temp := u16 (rA gb - rL gb) in
      let gb := set_fZ (Z.b2z (Z.land temp 0xFF =? 0x00)) gb in
      let gb := set_fN 1 gb in
      let gb := set_fH (if nz (Z.land (Z.lxor (Z.lxor (rA gb) (rL gb)) temp) 0x10) then 1 else 0) gb in
      let gb := set_fC (if nz (Z.land temp 0xFF00) then 1 else 0) gb in
      Some (gb, inst_cycles)
  | 0xBE => (* CP B *)
      v1 ← __gb_read gb (HL gb);
      let val := v1 in
      let temp := u16 (rA gb - val) in
      let gb := set_fZ (Z.b2z (Z.land temp 0xFF =? 0x00)) gb in
      let gb := set_fN 1 gb in
      let gb := set_fH (if nz (Z.land (Z.lxor (Z.lxor (rA gb) val) temp) 0x10) then 1 else 0) gb in
      let gb := set_fC (if nz (Z.land temp 0xFF00) then 1 else 0) gb in
      Some (gb, inst_cycles)
  | 0xBF => (* CP A *)
      let gb := set_fZ 1 gb in
      let gb := set_fN 1 gb in
      let gb := set_fH 0 gb in
      let gb := set_fC 0 gb in
      Some (gb, inst_cycles)
  | _ => Some (gb_error gb GB_INVALID_OPCODE opcode, inst_cycles)
  end.

Definition op_C0_C7 (opcode inst_cycles : Z) (gb : gb_s) : option (gb_s * Z) :=
  match opcode with
  | 0xC0 => (* RET NZ *)
      if fZ gb =? 0 then
        '(v1, gb) ← pull gb;
        let gb := set_PC v1 gb in
        '(v2, gb) ← pull gb;
        let gb := set_PC (u16 (Z.lor (PC gb) (Z.shiftl v2 8))) gb in
        let inst_cycles := u8 (inst_cycles + 12) in
        Some (gb, inst_cycles)
      else
        Some (gb, inst_cycles)
  | 0xC1 => (* POP BC *)
      '(v1, gb) ← pull gb;
      let gb := set_rC v1 gb in
      '(v2, gb) ← pull gb;
      let gb := set_rB v2 gb in
      Some (gb, inst_cycles)
  | 0xC2 => (* JP NZ, imm *)
      if fZ gb =? 0 then
        '(v1, gb) ← fetch gb;
        let temp := v1 in
        '(v2, gb) ← fetch gb;
        let temp := u16 (Z.lor temp (Z.shiftl v2 8)) in
        let gb := set_PC temp gb in
        let inst_cycles := u8 (inst_cycles + 4) in
        Some (gb, inst_cycles)
      else
        let gb := set_PC (u16 (PC gb + 2)) gb in
        Some (gb, inst_cycles)
  | 0xC3 => (* JP imm *)
      '(v1, gb) ← fetch gb;
      let temp := v1 in
      v2 ← __gb_read gb (PC gb);
      let temp := u16 (Z.lor temp (Z.shiftl v2 8)) in
      let gb := set_PC temp gb in
      Some (gb, inst_cycles)
  | 0xC4 => (* CALL NZ imm *)
      if fZ gb =? 0 then
        '(v1, gb) ← fetch gb;
        let temp := v1 in
        '(v2, gb) ← fetch gb;
        let temp := u16 (Z.lor temp (Z.shiftl v2 8)) in
        gb ← push (u8 (Z.shiftr (PC gb) 8)) gb;
        gb ← push (u8 (Z.land (PC gb) 0xFF)) gb;
        let gb := set_PC temp gb in
        let inst_cycles := u8 (inst_cycles + 12) in
        Some (gb, inst_cycles)
      else
        let gb := set_PC (u16 (PC gb + 2)) gb in
        Some (gb, inst_cycles)
  | 0xC5 => (* PUSH BC *)
      gb ← push (rB gb) gb;
      gb ← push (rC gb) gb;
      Some (gb, inst_cycles)
  | 0xC6 => (* ADD A, imm *)
      '(v1, gb) ← fetch gb;
      let value := v1 in
      let calc := u16 (rA gb + value) in
      let gb := set_fZ (if u8 calc =? 0 then 1 else 0) gb in
      let gb := set_fH (if 0x0F <? Z.land (rA gb) 0xF + (Z.land value 0xF) then 1 else 0) gb in
      let gb := set_fC (if 0xFF <? calc then 1 else 0) gb in
      let gb := set_fN 0 gb in
      let gb := set_rA (u8 (u8 calc)) gb in
      Some (gb, inst_cycles)
  | 0xC7 => (* RST 0x0000 *)
      gb ← push (u8 (Z.shiftr (PC gb) 8)) gb;
      gb ← push (u8 (Z.land (PC gb) 0xFF)) gb;
      let gb := set_PC 0x0000 gb in
      Some (gb, inst_cycles)
  | _ => Some (gb_error gb GB_INVALID_OPCODE opcode, inst_cycles)
  end.

Definition op_C8_CF (opcode inst_cycles : Z) (gb : gb_s) : option (gb_s * Z) :=
  match opcode with
  | 0xC8 => (* RET Z *)
      if nz (fZ gb) then
        '(v1, gb) ← pull gb;
        let temp := v1 in
        '(v2, gb) ← pull gb;
        let temp := u16 (Z.lor temp (Z.shiftl v2 8)) in
        let gb := set_PC temp gb in
        let inst_cycles := u8 (inst_cycles + 12) in
        Some (gb, inst_cycles)
      else
        Some (gb, inst_cycles)
  | 0xC9 => (* RET *)
      '(v1, gb) ← pull gb;
      let temp := v1 in
      '(v2, gb) ← pull gb;
      let temp := u16 (Z.lor temp (Z.shiftl v2 8)) in
      let gb := set_PC temp gb in
      Some (gb, inst_cycles)
  | 0xCA => (* JP Z, imm *)
      if nz (fZ gb) then
        '(v1, gb) ← fetch gb;
        let temp := v1 in
        '(v2, gb) ← fetch gb;
        let temp := u16 (Z.lor temp (Z.shiftl v2 8)) in
        let gb := set_PC temp gb in
        let inst_cycles := u8 (inst_cycles + 4) in
        Some (gb, inst_cycles)
      else
        let gb := set_PC (u16 (PC gb + 2)) gb in
        Some (gb, inst_cycles)
  | 0xCB => (* CB INST *)
      gb ← __gb_execute_cb gb;
      Some (gb, inst_cycles)
  | 0xCC => (* CALL Z, imm *)
      if nz (fZ gb) then
        '(v1, gb) ← fetch gb;
        let temp := v1 in
        '(v2, gb) ← fetch gb;
        let temp := u16 (Z.lor temp (Z.shiftl v2 8)) in
        gb ← push (u8 (Z.shiftr (PC gb) 8)) gb;
        gb ← push (u8 (Z.land (PC gb) 0xFF)) gb;
        let gb := set_PC temp gb in
        let inst_cycles := u8 (inst_cycles + 12) in
        Some (gb, inst_cycles)
      else
        let gb := set_PC (u16 (PC gb + 2)) gb in
        Some (gb, inst_cycles)
  | 0xCD => (* CALL imm *)
      '(v1, gb) ← fetch gb;
      let addr := v1 in
      '(v2, gb) ← fetch gb;
      let addr := u16 (Z.lor addr (Z.shiftl v2 8)) in
      gb ← push (u8 (Z.shiftr (PC gb) 8)) gb;
      gb ← push (u8 (Z.land (PC gb) 0xFF)) gb;
      let gb := set_PC addr gb in
      Some (gb, inst_cycles)
  | 0xCE => (* ADC A, imm *)
      '(v1, gb) ← fetch gb;
      let value := v1 in
      let a := rA gb in
      let carry := fC gb in
      let gb := set_rA (u8 (a + value + carry)) gb in
      let gb := set_fZ (if rA gb =? 0 then 1 else 0) gb in
      let gb := set_fH (if 0x0F <? Z.land a 0xF + (Z.land value 0xF) + carry then 1 else 0) gb in
      let gb := set_fC (if 0xFF <? u16 a + (u16 value) + carry then 1 else 0) gb in
      let gb := set_fN 0 gb in
      Some (gb, inst_cycles)
  | 0xCF => (* RST 0x0008 *)
      gb ← push (u8 (Z.shiftr (PC gb) 8)) gb;
      gb ← push (u8 (Z.land (PC gb) 0xFF)) gb;
      let gb := set_PC 0x0008 gb in
      Some (gb, inst_cycles)
  | _ => Some (gb_error gb GB_INVALID_OPCODE opcode, inst_cycles)
  end.

Definition op_D0_D7 (opcode inst_cycles : Z) (gb : gb_s) : option (gb_s * Z) :=
  match opcode with
  | 0xD0 => (* RET NC *)
      if fC gb =? 0 then
        '(v1, gb) ← pull gb;
        let temp := v1 in
        '(v2, gb) ← pull gb;
        let temp := u16 (Z.lor temp (Z.shiftl v2 8)) in
        let gb := set_PC temp gb in
        let inst_cycles := u8 (inst_cycles + 12) in
        Some (gb, inst_cycles)
      else
        Some (gb, inst_cycles)
  | 0xD1 => (* POP DE *)
      '(v1, gb) ← pull gb;
      let gb := set_rE v1 gb in
      '(v2, gb) ← pull gb;
      let gb := set_rD v2 gb in
      Some (gb, inst_cycles)
  | 0xD2 => (* JP NC, imm *)
      if fC gb =? 0 then
        '(v1, gb) ← fetch gb;
        let temp := v1 in
        '(v2, gb) ← fetch gb;
        let temp := u16 (Z.lor temp (Z.shiftl v2 8)) in
        let gb := set_PC temp gb in
        let inst_cycles := u8 (inst_cycles + 4) in
        Some (gb, inst_cycles)
      else
        let gb := set_PC (u16 (PC gb + 2)) gb in
        Some (gb, inst_cycles)
  | 0xD4 => (* CALL NC, imm *)
      if fC gb =? 0 then
        '(v1, gb) ← fetch gb;
        let temp := v1 in
        '(v2, gb) ← fetch gb;
        let temp := u16 (Z.lor temp (Z.shiftl v2 8)) in
        gb ← push (u8 (Z.shiftr (PC gb) 8)) gb;
        gb ← push (u8 (Z.land (PC gb) 0xFF)) gb;
        let gb := set_PC temp gb in
        let inst_cycles := u8 (inst_cycles + 12) in
        Some (gb, inst_cycles)
      else
        let gb := set_PC (u16 (PC gb + 2)) gb in
        Some (gb, inst_cycles)
  | 0xD5 => (* PUSH DE *)
      gb ← push (rD gb) gb;
      gb ← push (rE gb) gb;
      Some (gb, inst_cycles)
  | 0xD6 => (* SUB imm *)
      '(v1, gb) ← fetch gb;
      let val := v1 in
      let temp := u16 (rA gb - val) in
      let gb := set_fZ (Z.b2z (Z.land temp 0xFF =? 0x00)) gb in
      let gb := set_fN 1 gb in
      let gb := set_fH (if nz (Z.land (Z.lxor (Z.lxor (rA gb) val) temp) 0x10) then 1 else 0) gb in
      let gb := set_fC (if nz (Z.land temp 0xFF00) then 1 else 0) gb in
      let gb := set_rA (u8 (Z.land temp 0xFF)) gb in
      Some (gb, inst_cycles)
  | 0xD7 => (* RST 0x0010 *)
      gb ← push (u8 (Z.shiftr (PC gb) 8)) gb;
      gb ← push (u8 (Z.land (PC gb) 0xFF)) gb;
      let gb := set_PC 0x0010 gb in
      Some (gb, inst_cycles)
  | _ => Some (gb_error gb GB_INVALID_OPCODE opcode, inst_cycles)
  end.

Definition op_D8_DF (opcode inst_cycles : Z) (gb : gb_s) : option (gb_s * Z) :=
  match opcode with
  | 0xD8 => (* RET C *)
      if nz (fC gb) then
        '(v1, gb) ← pull gb;
        let temp := v1 in
        '(v2, gb) ← pull gb;
        let temp := u16 (Z.lor temp (Z.shiftl v2 8)) in
        let gb := set_PC temp gb in
        let inst_cycles := u8 (inst_cycles + 12) in
        Some (gb, inst_cycles)
      else
        Some (gb, inst_cycles)
  | 0xD9 => (* RETI *)
      '(v1, gb) ← pull gb;
      let temp := v1 in
      '(v2, gb) ← pull gb;
      let temp := u16 (Z.lor temp (Z.shiftl v2 8)) in
      let gb := set_PC temp gb in
      let gb := set_gb_ime 1 gb in
      Some (gb, inst_cycles)
  | 0xDA => (* JP C, imm *)
      if nz (fC gb) then
        '(v1, gb) ← fetch gb;
        let addr := v1 in
        '(v2, gb) ← fetch gb;
        let addr := u16 (Z.lor addr (Z.shiftl v2 8)) in
        let gb := set_PC addr gb in
        let inst_cycles := u8 (inst_cycles + 4) in
        Some (gb, inst_cycles)
      else
        let gb := set_PC (u16 (PC gb + 2)) gb in
        Some (gb, inst_cycles)
  | 0xDC => (* CALL C, imm *)
      if nz (fC gb) then
        '(v1, gb) ← fetch gb;
        let temp := v1 in
        '(v2, gb) ← fetch gb;
        let temp := u16 (Z.lor temp (Z.shiftl v2 8)) in
        gb ← push (u8 (Z.shiftr (PC gb) 8)) gb;
        gb ← push (u8 (Z.land (PC gb) 0xFF)) gb;
        let gb := set_PC temp gb in
        let inst_cycles := u8 (inst_cycles + 12) in
        Some (gb, inst_cycles)
      else
        let gb := set_PC (u16 (PC gb + 2)) gb in
        Some (gb, inst_cycles)
  | 0xDE => (* SBC A, imm *)
      '(v1, gb) ← fetch gb;
      let temp_8 := v1 in
      let temp_16 := u16 (rA gb - temp_8 - fC gb) in
      let gb := set_fZ (Z.b2z (Z.land temp_16 0xFF =? 0x00)) gb in
      let gb := set_fN 1 gb in
      let gb := set_fH (if nz (Z.land (Z.lxor (Z.lxor (rA gb) temp_8) temp_16) 0x10) then 1 else 0) gb in
      let gb := set_fC (if nz (Z.land temp_16 0xFF00) then 1 else 0) gb in
      let gb := set_rA (u8 (Z.land temp_16 0xFF)) gb in
      Some (gb, inst_cycles)
  | 0xDF => (* RST 0x0018 *)
      gb ← push (u8 (Z.shiftr (PC gb) 8)) gb;
      gb ← push (u8 (Z.land (PC gb) 0xFF)) gb;
      let gb := set_PC 0x0018 gb in
      Some (gb, inst_cycles)
  | _ => Some (gb_error gb GB_INVALID_OPCODE opcode, inst_cycles)
  end.

Definition op_E0_E7 (opcode inst_cycles : Z) (gb : gb_s) : option (gb_s * Z) :=
  match opcode with
  | 0xE0 => (* LD (0xFF00+imm), A *)
      '(v1, gb) ← fetch gb;
      gb ← __gb_write gb (Z.lor 0xFF00 v1) (rA gb);
      Some (gb, inst_cycles)
  | 0xE1 => (* POP HL *)
      '(v1, gb) ← pull gb;
      let gb := set_rL v1 gb in
      '(v2, gb) ← pull gb;
      let gb := set_rH v2 gb in
      Some (gb, inst_cycles)
  | 0xE2 => (* LD (C), A *)
      gb ← __gb_write gb (Z.lor 0xFF00 (rC gb)) (rA gb);
      Some (gb, inst_cycles)
  | 0xE5 => (* PUSH HL *)
      gb ← push (rH gb) gb;
      gb ← push (rL gb) gb;
      Some (gb, inst_cycles)
  | 0xE6 => (* AND imm *)
      '(v1, gb) ← fetch gb;
      let gb := set_rA (u8 (Z.land (rA gb) v1)) gb in
      let gb := set_fZ (Z.b2z (rA gb =? 0x00)) gb in
      let gb := set_fN 0 gb in
      let gb := set_fH 1 gb in
      let gb := set_fC 0 gb in
      Some (gb, inst_cycles)
  | 0xE7 => (* RST 0x0020 *)
      gb ← push (u8 (Z.shiftr (PC gb) 8)) gb;
      gb ← push (u8 (Z.land (PC gb) 0xFF)) gb;
      let gb := set_PC 0x0020 gb in
      Some (gb, inst_cycles)
  | _ => Some (gb_error gb GB_INVALID_OPCODE opcode, inst_cycles)
  end.

Definition op_E8_EF (opcode inst_cycles : Z) (gb : gb_s) : option (gb_s * Z) :=
  match opcode with
  | 0xE8 => (* ADD SP, imm *)
      '(v1, gb) ← fetch gb;
      let offset := s8 v1 in
      let gb := set_fZ 0 gb in
      let gb := set_fN 0 gb in
      let gb := set_fH (if 0xF <? Z.land (SP gb) 0xF + (Z.land offset 0xF) then 1 else 0) gb in
      let gb := set_fC (Z.b2z (0xFF <? Z.land (SP gb) 0xFF + (Z.land offset 0xFF))) gb in
      let gb := set_SP (u16 (SP gb + offset)) gb in
      Some (gb, inst_cycles)
  | 0xE9 => (* JP (HL) *)
      let gb := set_PC (HL gb) gb in
      Some (gb, inst_cycles)
  | 0xEA => (* LD (imm), A *)
      '(v1, gb) ← fetch gb;
      let addr := v1 in
      '(v2, gb) ← fetch gb;
      let addr := u16 (Z.lor addr (Z.shiftl v2 8)) in
      gb ← __gb_write gb addr (rA gb);
      Some (gb, inst_cycles)
  | 0xEE => (* XOR imm *)
      '(v1, gb) ← fetch gb;
      let gb := set_rA (u8 (Z.lxor (rA gb) v1)) gb in
      let gb := set_fZ (Z.b2z (rA gb =? 0x00)) gb in
      let gb := set_fN 0 gb in
      let gb := set_fH 0 gb in
      let gb := set_fC 0 gb in
      Some (gb, inst_cycles)
  | 0xEF => (* RST 0x0028 *)
      gb ← push (u8 (Z.shiftr (PC gb) 8)) gb;
      gb ← push (u8 (Z.land (PC gb) 0xFF)) gb;
      let gb := set_PC 0x0028 gb in
      Some (gb, inst_cycles)
  | _ => Some (gb_error gb GB_INVALID_OPCODE opcode, inst_cycles)
  end.

Definition op_F0_F7 (opcode inst_cycles : Z) (gb : gb_s) : option (gb_s * Z) :=
  match opcode with
  | 0xF0 => (* LD A, (0xFF00+imm) *)
      '(v1, gb) ← fetch gb;
      v2 ← __gb_read gb (Z.lor 0xFF00 v1);
      let gb := set_rA v2 gb in
      Some (gb, inst_cycles)
  | 0xF1 => (* POP AF *)
      '(v1, gb) ← pull gb;
      let temp_8 := v1 in
      let gb := set_fZ (u1 (Z.land (Z.shiftr temp_8 7) 1)) gb in
      let gb := set_fN (u1 (Z.land (Z.shiftr temp_8 6) 1)) gb in
      let gb := set_fH (u1 (Z.land (Z.shiftr temp_8 5) 1)) gb in
      let gb := set_fC (u1 (Z.land (Z.shiftr temp_8 4) 1)) gb in
      '(v2, gb) ← pull gb;
      let gb := set_rA v2 gb in
      Some (gb, inst_cycles)
  | 0xF2 => (* LD A, (C) *)
      v1 ← __gb_read gb (Z.lor 0xFF00 (rC gb));
      let gb := set_rA v1 gb in
      Some (gb, inst_cycles)
  | 0xF3 => (* DI *)
      let gb := set_gb_ime 0 gb in
      Some (gb, inst_cycles)
  | 0xF5 => (* PUSH AF *)
      gb ← push (rA gb) gb;
      gb ← push (u8 (Z.lor (Z.lor (Z.lor (Z.shiftl (fZ gb) 7) (Z.shiftl (fN gb) 6)) (Z.shiftl (fH gb) 5)) (Z.shiftl (fC gb) 4))) gb;
      Some (gb, inst_cycles)
  | 0xF6 => (* OR imm *)
      '(v1, gb) ← fetch gb;
      let gb := set_rA (u8 (Z.lor (rA gb) v1)) gb in
      let gb := set_fZ (Z.b2z (rA gb =? 0x00)) gb in
      let gb := set_fN 0 gb in
      let gb := set_fH 0 gb in
      let gb := set_fC 0 gb in
      Some (gb, inst_cycles)
  | 0xF7 => (* PUSH AF *)
      gb ← push (u8 (Z.shiftr (PC gb) 8)) gb;
      gb ← push (u8 (Z.land (PC gb) 0xFF)) gb;
      let gb := set_PC 0x0030 gb in
      Some (gb, inst_cycles)
  | _ => Some (gb_error gb GB_INVALID_OPCODE opcode, inst_cycles)
  end.

Definition op_F8_FF (opcode inst_cycles : Z) (gb : gb_s) : option (gb_s * Z) :=
  match opcode with
  | 0xF8 => (* LD HL, SP+/-imm *)
      '(v1, gb) ← fetch gb;
      let offset := s8 v1 in
      let gb := set_HL (SP gb + offset) gb in
      let gb := set_fZ 0 gb in
      let gb := set_fN 0 gb in
      let gb := set_fH (if 0xF <? Z.land (SP gb) 0xF + (Z.land offset 0xF) then 1 else 0) gb in
      let gb := set_fC (if 0xFF <? Z.land (SP gb) 0xFF + (Z.land offset 0xFF) then 1 else 0) gb in
      Some (gb, inst_cycles)
  | 0xF9 => (* LD SP, HL *)
      let gb := set_SP (HL gb) gb in
      Some (gb, inst_cycles)
  | 0xFA => (* LD A, (imm) *)
      '(v1, gb) ← fetch gb;
      let addr := v1 in
      '(v2, gb) ← fetch gb;
      let addr := u16 (Z.lor addr (Z.shiftl v2 8)) in
      v3 ← __gb_read gb addr;
      let gb := set_rA v3 gb in
      Some (gb, inst_cycles)
  | 0xFB => (* EI *)
      let gb := set_gb_ime 1 gb in
      Some (gb, inst_cycles)
  | 0xFE => (* CP imm *)
      '(v1, gb) ← fetch gb;
      let temp_8 := v1 in
      let temp_16 := u16 (rA gb - temp_8) in
      let gb := set_fZ (Z.b2z (Z.land temp_16 0xFF =? 0x00)) gb in
      let gb := set_fN 1 gb in
      let gb := set_fH (if nz (Z.land (Z.lxor (Z.lxor (rA gb) temp_8) temp_16) 0x10) then 1 else 0) gb in
      let gb := set_fC (if nz (Z.land temp_16 0xFF00) then 1 else 0) gb in
      Some (gb, inst_cycles)
  | 0xFF => (* RST 0x0038 *)
      gb ← push (u8 (Z.shiftr (PC gb) 8)) gb;
      gb ← push (u8 (Z.land (PC gb) 0xFF)) gb;
      let gb := set_PC 0x0038 gb in
      Some (gb, inst_cycles)
  | _ => Some (gb_error gb GB_INVALID_OPCODE opcode, inst_cycles)
  end.

(** The switch. *)
Definition execute (opcode inst_cycles : Z) (gb : gb_s) : option (gb_s * Z) :=
  match Z.shiftr opcode 3 with
  | 0 => op_00_07 opcode inst_cycles gb
  | 1 => op_08_0F opcode inst_cycles gb
  | 2 => op_10_17 opcode inst_cycles gb
  | 3 => op_18_1F opcode inst_cycles gb
  | 4 => op_20_27 opcode inst_cycles gb
  | 5 => op_28_2F opcode inst_cycles gb
  | 6 => op_30_37 opcode inst_cycles gb
  | 7 => op_38_3F opcode inst_cycles gb
  | 8 => op_40_47 opcode inst_cycles gb
  | 9 => op_48_4F opcode inst_cycles gb
  | 10 => op_50_57 opcode inst_cycles gb
  | 11 => op_58_5F opcode inst_cycles gb
  | 12 => op_60_67 opcode inst_cycles gb
  | 13 => op_68_6F opcode inst_cycles gb
  | 14 => op_70_77 opcode inst_cycles gb
  | 15 => op_78_7F opcode inst_cycles gb
  | 16 => op_80_87 opcode inst_cycles gb
  | 17 => op_88_8F opcode inst_cycles gb
  | 18 => op_90_97 opcode inst_cycles gb
  | 19 => op_98_9F opcode inst_cycles gb
  | 20 => op_A0_A7 opcode inst_cycles gb
  | 21 => op_A8_AF opcode inst_cycles gb
  | 22 => op_B0_B7 opcode inst_cycles gb
  | 23 => op_B8_BF opcode inst_cycles gb
  | 24 => op_C0_C7 opcode inst_cycles gb
  | 25 => op_C8_CF opcode inst_cycles gb
  | 26 => op_D0_D7 opcode inst_cycles gb
  | 27 => op_D8_DF opcode inst_cycles gb
  | 28 => op_E0_E7 opcode inst_cycles gb
  | 29 => op_E8_EF opcode inst_cycles gb
  | 30 => op_F0_F7 opcode inst_cycles gb
  | 31 => op_F8_FF opcode inst_cycles gb
  | _ => Some (gb_error gb GB_INVALID_OPCODE opcode, inst_cycles)
  end.

Definition op_cycles : list Z :=
  [4; 12; 8; 8; 4; 4; 8; 4; 20; 8; 8; 8; 4; 4; 8; 4;
   4; 12; 8; 8; 4; 4; 8; 4; 12; 8; 8; 8; 4; 4; 8; 4;
   8; 12; 8; 8; 4; 4; 8; 4; 8; 8; 8; 8; 4; 4; 8; 4;
   8; 12; 8; 8; 12; 12; 12; 4; 8; 8; 8; 8; 4; 4; 8; 4;
   4; 4; 4; 4; 4; 4; 8; 4; 4; 4; 4; 4; 4; 4; 8; 4;
   4; 4; 4; 4; 4; 4; 8; 4; 4; 4; 4; 4; 4; 4; 8; 4;
   4; 4; 4; 4; 4; 4; 8; 4; 4; 4; 4; 4; 4; 4; 8; 4;
   8; 8; 8; 8; 8; 8; 4; 8; 4; 4; 4; 4; 4; 4; 8; 4;
   4; 4; 4; 4; 4; 4; 8; 4; 4; 4; 4; 4; 4; 4; 8; 4;
   4; 4; 4; 4; 4; 4; 8; 4; 4; 4; 4; 4; 4; 4; 8; 4;
   4; 4; 4; 4; 4; 4; 8; 4; 4; 4; 4; 4; 4; 4; 8; 4;
   4; 4; 4; 4; 4; 4; 8; 4; 4; 4; 4; 4; 4; 4; 8; 4;
   8; 12; 12; 16; 12; 16; 8; 16; 8; 16; 12; 8; 12; 24; 8; 16;
   8; 12; 12; 0; 12; 16; 8; 16; 8; 16; 12; 0; 12; 0; 8; 16;
   12; 12; 8; 0; 0; 16; 8; 16; 16; 4; 16; 0; 0; 0; 8; 16;
   12; 12; 8; 4; 0; 16; 8; 16; 12; 8; 16; 4; 0; 0; 8; 16].
