(* ===== verification/GbIsa.v ===== *)
(** * Game Boy: the instruction set

    A reference definition of the processor, to compare [cpu.c] with: the
    instructions as an inductive type, the decoding of an opcode by its fields
    (two bits, three bits, three bits) and the meaning of an instruction by
    arithmetic on numbers.  It shares with the interpreter the accesses to memory
    only. *)
From S2P Require Import Prelude GbState GbMemory.

Local Open Scope Z_scope.

(** ** Instructions *)

Inductive reg8 := RB | RC | RD | RE | RH | RL | RA.
Inductive operand := Reg (r : reg8) | Ind | Imm.
Inductive reg16 := RBC | RDE | RHL | RSP | RAF.
Inductive indirect := IBC | IDE | IHLinc | IHLdec.
Inductive condition := NZ | CZ | NC | CC.
Inductive alu := ADD | ADC | SUB | SBC | AND | XOR | OR | CP.
Inductive rot := RLC | RRC | ROL | ROR | SLA | SRA | SWAP | SRL.

Inductive instr :=
| NOP | STOP | HALT | DI | EI | DAA | CPL | SCF | CCF
| LD8 (dst src : operand)
| LD16 (r : reg16)
| LD_abs_SP | LD_ind_A (m : indirect) | LD_A_ind (m : indirect)
| LDH_imm_A | LDH_A_imm | LDH_C_A | LDH_A_C | LD_abs_A | LD_A_abs
| LD_SP_HL | LD_HL_SP | ADD_SP
| INC16 (r : reg16) | DEC16 (r : reg16) | ADD_HL (r : reg16)
| INC8 (o : operand) | DEC8 (o : operand) | ALU (op : alu) (o : operand) | ROT_A (op : rot)
| JR (c : option condition) | JP (c : option condition) | JP_HL
| CALL (c : option condition) | RET (c : option condition) | RETI | RST (target : Z)
| PUSH (r : reg16) | POP (r : reg16)
| PREFIX | UNDEF.

Inductive cb_instr := ROT (op : rot) (o : operand) | BIT (b : Z) (o : operand) | RES (b : Z) (o : operand) | SET (b : Z) (o : operand).

(** ** Decoding *)

Definition operand_of (k : Z) : operand :=
  match k with 0 => Reg RB | 1 => Reg RC | 2 => Reg RD | 3 => Reg RE | 4 => Reg RH | 5 => Reg RL | 6 => Ind | _ => Reg RA end.
Definition reg16_of (k : Z) : reg16 := match k with 0 => RBC | 1 => RDE | 2 => RHL | _ => RSP end.
Definition stack_reg (k : Z) : reg16 := match k with 3 => RAF | _ => reg16_of k end.
Definition indirect_of (k : Z) : indirect := match k with 0 => IBC | 1 => IDE | 2 => IHLinc | _ => IHLdec end.
Definition condition_of (k : Z) : condition := match k with 0 => NZ | 1 => CZ | 2 => NC | _ => CC end.
Definition alu_of (k : Z) : alu :=
  match k with 0 => ADD | 1 => ADC | 2 => SUB | 3 => SBC | 4 => AND | 5 => XOR | 6 => OR | _ => CP end.
Definition rot_of (k : Z) : rot :=
  match k with 0 => RLC | 1 => RRC | 2 => ROL | 3 => ROR | 4 => SLA | 5 => SRA | 6 => SWAP | _ => SRL end.

Definition decode0 (y z : Z) : instr :=
  match z with
  | 0 => match y with 0 => NOP | 1 => LD_abs_SP | 2 => STOP | 3 => JR None | _ => JR (Some (condition_of (y - 4))) end
  | 1 => if Z.even y then LD16 (reg16_of (y / 2)) else ADD_HL (reg16_of (y / 2))
  | 2 => if Z.even y then LD_ind_A (indirect_of (y / 2)) else LD_A_ind (indirect_of (y / 2))
  | 3 => if Z.even y then INC16 (reg16_of (y / 2)) else DEC16 (reg16_of (y / 2))
  | 4 => INC8 (operand_of y)
  | 5 => DEC8 (operand_of y)
  | 6 => LD8 (operand_of y) Imm
  | _ => match y with 4 => DAA | 5 => CPL | 6 => SCF | 7 => CCF | _ => ROT_A (rot_of y) end
  end.

Definition decode3 (y z : Z) : instr :=
  match z with
  | 0 => match y with 4 => LDH_imm_A | 5 => ADD_SP | 6 => LDH_A_imm | 7 => LD_HL_SP | _ => RET (Some (condition_of y)) end
  | 1 => match y with 1 => RET None | 3 => RETI | 5 => JP_HL | 7 => LD_SP_HL | _ => POP (stack_reg (y / 2)) end
  | 2 => match y with 4 => LDH_C_A | 5 => LD_abs_A | 6 => LDH_A_C | 7 => LD_A_abs | _ => JP (Some (condition_of y)) end
  | 3 => match y with 0 => JP None | 1 => PREFIX | 6 => DI | 7 => EI | _ => UNDEF end
  | 4 => if y <? 4 then CALL (Some (condition_of y)) else UNDEF
  | 5 => if Z.even y then PUSH (stack_reg (y / 2)) else if y =? 1 then CALL None else UNDEF
  | 6 => ALU (alu_of y) Imm
  | _ => RST (8 * y)
  end.

Definition decode (opcode : Z) : instr :=
  let y := opcode / 8 mod 8 in
  let z := opcode mod 8 in
  match opcode / 64 with
  | 0 => decode0 y z
  | 1 => if (y =? 6) && (z =? 6) then HALT else LD8 (operand_of y) (operand_of z)
  | 2 => ALU (alu_of y) (operand_of z)
  | _ => decode3 y z
  end.

Definition decode_cb (opcode : Z) : cb_instr :=
  let y := opcode / 8 mod 8 in
  let o := operand_of (opcode mod 8) in
  match opcode / 64 with 0 => ROT (rot_of y) o | 1 => BIT y o | 2 => RES y o | _ => SET y o end.

(** ** Meaning *)

Definition get8 (r : reg8) (gb : gb_s) : Z :=
  match r with RB => rB gb | RC => rC gb | RD => rD gb | RE => rE gb | RH => rH gb | RL => rL gb | RA => rA gb end.

Definition put8 (r : reg8) (v : Z) (gb : gb_s) : gb_s :=
  match r with
  | RB => set_rB v gb | RC => set_rC v gb | RD => set_rD v gb | RE => set_rE v gb | RH => set_rH v gb
  | RL => set_rL v gb | RA => set_rA v gb
  end.

Definition flags (z n h c : bool) (gb : gb_s) : gb_s :=
  set_fC (Z.b2z c) (set_fH (Z.b2z h) (set_fN (Z.b2z n) (set_fZ (Z.b2z z) gb))).

(** The flag register as a byte. *)
Definition flag_byte (gb : gb_s) : Z := 128 * fZ gb + 64 * fN gb + 32 * fH gb + 16 * fC gb.

Definition get16 (r : reg16) (gb : gb_s) : Z :=
  match r with RBC => BC gb | RDE => DE gb | RHL => HL gb | RSP => SP gb | RAF => pair (rA gb) (flag_byte gb) end.

Definition put16 (r : reg16) (v : Z) (gb : gb_s) : gb_s :=
  match r with
  | RBC => set_BC v gb | RDE => set_DE v gb | RHL => set_HL v gb | RSP => set_SP (u16 v) gb
  | RAF => flags (Z.odd (v / 128)) (Z.odd (v / 64)) (Z.odd (v / 32)) (Z.odd (v / 16)) (set_rA (u8 (v / 256)) gb)
  end.

Definition load (o : operand) (gb : gb_s) : option (Z * gb_s) :=
  match o with
  | Reg r => Some (get8 r gb, gb)
  | Ind => v ← __gb_read gb (HL gb); Some (v, gb)
  | Imm => fetch gb
  end.

(** No instruction stores to an immediate operand. *)
Definition store (o : operand) (v : Z) (gb : gb_s) : option gb_s :=
  match o with Reg r => Some (put8 r v gb) | Ind => __gb_write gb (HL gb) v | Imm => Some gb end.

Definition holds (c : condition) (gb : gb_s) : bool :=
  match c with NZ => fZ gb =? 0 | CZ => nz (fZ gb) | NC => fC gb =? 0 | CC => nz (fC gb) end.
Definition taken (c : option condition) (gb : gb_s) : bool := match c with None => true | Some c => holds c gb end.

(** Addition and subtraction of bytes with a carry. *)
Definition add8 (v c : Z) (gb : gb_s) : gb_s :=
  let a := rA gb in
  set_rA ((a + v + c) mod 256)
    (flags ((a + v + c) mod 256 =? 0) false (15 <? a mod 16 + v mod 16 + c) (255 <? a + v + c) gb).

Definition cp8 (v c : Z) (gb : gb_s) : gb_s :=
  let a := rA gb in flags ((a - v - c) mod 256 =? 0) true (a mod 16 <? v mod 16 + c) (a <? v + c) gb.

Definition logic (h : bool) (r : Z) (gb : gb_s) : gb_s := set_rA r (flags (r =? 0) false h false gb).

Definition exec_alu (op : alu) (v : Z) (gb : gb_s) : gb_s :=
  let a := rA gb in
  match op with
  | ADD => add8 v 0 gb
  | ADC => add8 v (fC gb) gb
  | SUB => set_rA ((a - v) mod 256) (cp8 v 0 gb)
  | SBC => set_rA ((a - v - fC gb) mod 256) (cp8 v (fC gb) gb)
  | AND => logic true (Z.land a v) gb
  | XOR => logic false (Z.lxor a v) gb
  | OR => logic false (Z.lor a v) gb
  | CP => cp8 v 0 gb
  end.

(** The result and the bit that leaves the byte. *)
Definition rotate (op : rot) (v c : Z) : Z * Z :=
  match op with
  | RLC => ((2 * v) mod 256 + v / 128, v / 128)
  | RRC => (v / 2 + 128 * (v mod 2), v mod 2)
  | ROL => ((2 * v) mod 256 + c, v / 128)
  | ROR => (v / 2 + 128 * c, v mod 2)
  | SLA => ((2 * v) mod 256, v / 128)
  | SRA => (v / 2 + 128 * (v / 128), v mod 2)
  | SWAP => (16 * (v mod 16) + v / 16, 0)
  | SRL => (v / 2, v mod 2)
  end.

(** Decimal adjustment: the correction of an addition or subtraction of
    two-digit numbers. *)
Definition exec_daa (gb : gb_s) : gb_s :=
  let a := rA gb in
  let n := nz (fN gb) in
  let lo := nz (fH gb) || (negb n && (9 <? a mod 16)) in
  let hi := nz (fC gb) || (negb n && (0x99 <? a)) in
  let k := (if lo then 6 else 0) + (if hi then 0x60 else 0) in
  let r := (if n then a - k else a + k) mod 256 in
  set_rA r (flags (r =? 0) n false hi gb).

(** A word from memory: the low byte first. *)
Definition fetch16 (gb : gb_s) : option (Z * gb_s) :=
  '(lo, gb) ← fetch gb; '(hi, gb) ← fetch gb; Some (pair hi lo, gb).
Definition pull16 (gb : gb_s) : option (Z * gb_s) :=
  '(lo, gb) ← pull gb; '(hi, gb) ← pull gb; Some (pair hi lo, gb).
Definition push16 (v : Z) (gb : gb_s) : option gb_s :=
  gb ← push (v / 256) gb; push (v mod 256) gb.

Definition indirect_addr (m : indirect) (gb : gb_s) : Z :=
  match m with IBC => BC gb | IDE => DE gb | _ => HL gb end.
Definition indirect_step (m : indirect) (gb : gb_s) : gb_s :=
  match m with IHLinc => set_HL (HL gb + 1) gb | IHLdec => set_HL (HL gb - 1) gb | _ => gb end.

(** [SP] and a signed offset: the flags are those of the addition of bytes. *)
Definition offset_flags (e : Z) (gb : gb_s) : gb_s :=
  flags false false (15 <? SP gb mod 16 + e mod 16) (255 <? SP gb mod 256 + e) gb.

Definition exec_cb (i : cb_instr) (gb : gb_s) : option gb_s :=
  match i with
  | ROT op o =>
      '(v, gb) ← load o gb;
      let '(r, c) := rotate op v (fC gb) in
      store o r (flags (r =? 0) false false (nz c) gb)
  | BIT b o => '(v, gb) ← load o gb; Some (set_fH 1 (set_fN 0 (set_fZ (Z.b2z (negb (Z.testbit v b))) gb)))
  | RES b o => '(v, gb) ← load o gb; store o (Z.clearbit v b) gb
  | SET b o => '(v, gb) ← load o gb; store o (Z.setbit v b) gb
  end.

Definition cb_operand (i : cb_instr) : operand := match i with ROT _ o | BIT _ o | RES _ o | SET _ o => o end.

(** The divider alone is told of the access to memory. *)
Definition cb_clock (i : cb_instr) (gb : gb_s) : gb_s :=
  match cb_operand i with Ind => set_div_count (u32 (div_count gb + 8)) gb | _ => gb end.

Definition access (o : operand) : Z := match o with Reg _ => 0 | _ => 4 end.

(** The new state and the number of clock cycles: four for every access to
    memory, the opcode included, and for every internal step. *)
Definition exec (i : instr) (gb : gb_s) : option (gb_s * Z) :=
  match i with
  | NOP | STOP => Some (gb, 4)
  | UNDEF => Some (gb, 0)
  | HALT => Some (set_gb_halt 1 gb, 4)
  | DI => Some (set_gb_ime 0 gb, 4)
  | EI => Some (set_gb_ime 1 gb, 4)
  | DAA => Some (exec_daa gb, 4)
  | CPL => Some (set_fH 1 (set_fN 1 (set_rA (255 - rA gb) gb)), 4)
  | SCF => Some (set_fC 1 (set_fH 0 (set_fN 0 gb)), 4)
  | CCF => Some (set_fC (1 - fC gb) (set_fH 0 (set_fN 0 gb)), 4)
  | LD8 d s => '(v, gb) ← load s gb; gb ← store d v gb; Some (gb, 4 + access d + access s)
  | LD16 r => '(v, gb) ← fetch16 gb; Some (put16 r v gb, 12)
  | LD_abs_SP =>
      '(m, gb) ← fetch16 gb;
      gb ← __gb_write gb m (SP gb mod 256); gb ← __gb_write gb ((m + 1) mod 65536) (SP gb / 256); Some (gb, 20)
  | LD_ind_A m => gb ← __gb_write gb (indirect_addr m gb) (rA gb); Some (indirect_step m gb, 8)
  | LD_A_ind m => v ← __gb_read gb (indirect_addr m gb); Some (set_rA v (indirect_step m gb), 8)
  | LDH_imm_A => '(n, gb) ← fetch gb; gb ← __gb_write gb (0xFF00 + n) (rA gb); Some (gb, 12)
  | LDH_A_imm => '(n, gb) ← fetch gb; v ← __gb_read gb (0xFF00 + n); Some (set_rA v gb, 12)
  | LDH_C_A => gb ← __gb_write gb (0xFF00 + rC gb) (rA gb); Some (gb, 8)
  | LDH_A_C => v ← __gb_read gb (0xFF00 + rC gb); Some (set_rA v gb, 8)
  | LD_abs_A => '(m, gb) ← fetch16 gb; gb ← __gb_write gb m (rA gb); Some (gb, 16)
  | LD_A_abs => '(m, gb) ← fetch16 gb; v ← __gb_read gb m; Some (set_rA v gb, 16)
  | LD_SP_HL => Some (set_SP (HL gb) gb, 8)
  | LD_HL_SP => '(e, gb) ← fetch gb; Some (set_HL (SP gb + s8 e) (offset_flags e gb), 12)
  | ADD_SP => '(e, gb) ← fetch gb; Some (set_SP (u16 (SP gb + s8 e)) (offset_flags e gb), 16)
  | INC16 r => Some (put16 r (get16 r gb + 1) gb, 8)
  | DEC16 r => Some (put16 r (get16 r gb - 1) gb, 8)
  | ADD_HL r =>
      let v := get16 r gb in
      Some (set_HL (HL gb + v)
              (set_fC (Z.b2z (65535 <? HL gb + v)) (set_fH (Z.b2z (4095 <? HL gb mod 4096 + v mod 4096)) (set_fN 0 gb))), 8)
  | INC8 o =>
      '(v, gb) ← load o gb;
      let r := (v + 1) mod 256 in
      gb ← store o r (set_fH (Z.b2z (15 <? v mod 16 + 1)) (set_fN 0 (set_fZ (Z.b2z (r =? 0)) gb)));
      Some (gb, 4 + 2 * access o)
  | DEC8 o =>
      '(v, gb) ← load o gb;
      let r := (v - 1) mod 256 in
      gb ← store o r (set_fH (Z.b2z (v mod 16 <? 1)) (set_fN 1 (set_fZ (Z.b2z (r =? 0)) gb)));
      Some (gb, 4 + 2 * access o)
  | ALU op o => '(v, gb) ← load o gb; Some (exec_alu op v gb, 4 + access o)
  | ROT_A op => let '(r, c) := rotate op (rA gb) (fC gb) in Some (set_rA r (flags false false false (nz c) gb), 4)
  | JR c =>
      if taken c gb then '(e, gb) ← fetch gb; Some (set_PC (u16 (PC gb + s8 e)) gb, 12)
      else Some (set_PC (u16 (PC gb + 1)) gb, 8)
  | JP c =>
      if taken c gb then '(m, gb) ← fetch16 gb; Some (set_PC m gb, 16)
      else Some (set_PC (u16 (PC gb + 2)) gb, 12)
  | JP_HL => Some (set_PC (HL gb) gb, 4)
  | CALL c =>
      if taken c gb then '(m, gb) ← fetch16 gb; gb ← push16 (PC gb) gb; Some (set_PC m gb, 24)
      else Some (set_PC (u16 (PC gb + 2)) gb, 12)
  | RET None => '(m, gb) ← pull16 gb; Some (set_PC m gb, 16)
  | RET (Some c) => if holds c gb then '(m, gb) ← pull16 gb; Some (set_PC m gb, 20) else Some (gb, 8)
  | RETI => '(m, gb) ← pull16 gb; Some (set_gb_ime 1 (set_PC m gb), 16)
  | RST t => gb ← push16 (PC gb) gb; Some (set_PC t gb, 16)
  | PUSH r => gb ← push16 (get16 r gb) gb; Some (gb, 16)
  | POP r => '(v, gb) ← pull16 gb; Some (put16 r v gb, 12)
  | PREFIX =>
      '(op, gb) ← fetch gb;
      gb ← exec_cb (decode_cb op) (cb_clock (decode_cb op) gb);
      Some (gb, 8)
  end.
