(* ===== verification/GbCpu.v ===== *)
(** * Game Boy: the interpreter implements the instruction set

    The switch of [cpu.c] writes out 245 opcodes one by one, with flags computed
    by masks on words wider than the registers.  [execute_isa] says that on every
    well-formed state it does what [GbIsa] defines, in the same number of cycles. *)
From S2P Require Import Prelude GbState GbMemory GbOps GbIsa.

Local Open Scope Z_scope.

(** ** Masks and shifts as arithmetic *)

Lemma land_1 x : Z.land x 1 = x mod 2.
Proof. exact (land_pow2_pred x 1 ltac:(lia)). Qed.
Lemma land_7 x : Z.land x 7 = x mod 8.
Proof. exact (land_pow2_pred x 3 ltac:(lia)). Qed.
Lemma land_15 x : Z.land x 15 = x mod 16.
Proof. exact (land_pow2_pred x 4 ltac:(lia)). Qed.
Lemma land_255 x : Z.land x 255 = x mod 256.
Proof. exact (land_pow2_pred x 8 ltac:(lia)). Qed.
Lemma land_4095 x : Z.land x 4095 = x mod 4096.
Proof. exact (land_pow2_pred x 12 ltac:(lia)). Qed.
Lemma land_65535 x : Z.land x 65535 = x mod 65536.
Proof. exact (land_pow2_pred x 16 ltac:(lia)). Qed.

Lemma shiftr_div x k : 0 <= k -> Z.shiftr x k = x / 2 ^ k.
Proof. apply Z.shiftr_div_pow2. Qed.

(** A mask of one bit. *)
Lemma nz_bit x k : 0 <= k -> nz (Z.land x (2 ^ k)) = Z.testbit x k.
Proof.
  intros Hk. unfold nz. rewrite Z.land_comm. destruct (Z.testbit x k) eqn:E.
  - destruct (Z.eqb_spec (Z.land (2 ^ k) x) 0) as [H0|]; [|done].
    apply (f_equal (fun z => Z.testbit z k)) in H0. rewrite Z.land_spec, Z.pow2_bits_true, E, Z.bits_0 in H0 by done. done.
  - replace (Z.land (2 ^ k) x) with 0; [done|]. symmetry. apply Z.bits_inj'. intros n Hn.
    rewrite Z.land_spec, Z.bits_0. destruct (Z.eq_dec n k) as [->|]; [by rewrite E, andb_false_r|].
    by rewrite Z.pow2_bits_false.
Qed.

(** The bits above the low byte, above the low word. *)
Lemma nz_high8 x : 0 <= x < 65536 -> nz (Z.land x 0xFF00) = (255 <? x).
Proof.
  intros Hx. assert (Z.land x 0xFF00 = Z.shiftl (Z.land (Z.shiftr x 8) (Z.ones 8)) 8) as ->.
  { change 0xFF00 with (Z.shiftl (Z.ones 8) 8). Z.bitblast. }
  rewrite Z.land_ones, Z.shiftl_mul_pow2, Z.shiftr_div_pow2 by lia. change (2 ^ 8) with 256. unfold nz.
  destruct (Z.eqb_spec (x / 256 mod 256 * 256) 0), (Z.ltb_spec 255 x); try done; zmod.
Qed.

Lemma nz_high16 x : 0 <= x < 4294967296 -> nz (Z.land x 0xFFFF0000) = (65535 <? x).
Proof.
  intros Hx. assert (Z.land x 0xFFFF0000 = Z.shiftl (Z.land (Z.shiftr x 16) (Z.ones 16)) 16) as ->.
  { change 0xFFFF0000 with (Z.shiftl (Z.ones 16) 16). Z.bitblast. }
  rewrite Z.land_ones, Z.shiftl_mul_pow2, Z.shiftr_div_pow2 by lia. change (2 ^ 16) with 65536. unfold nz.
  destruct (Z.eqb_spec (x / 65536 mod 65536 * 65536) 0), (Z.ltb_spec 65535 x); try done; zmod.
Qed.

(** ** Carries *)

Lemma div_carry P a b c : 0 < P -> 0 <= c <= 1 -> (a + b + c) / P = a / P + b / P + Z.b2z (P <=? a mod P + b mod P + c).
Proof.
  intros HP Hc. pose proof (Z.mod_pos_bound a P HP). pose proof (Z.mod_pos_bound b P HP).
  pose proof (Z.div_mod a P ltac:(lia)). pose proof (Z.div_mod b P ltac:(lia)).
  symmetry. destruct (Z.leb_spec P (a mod P + b mod P + c)); cbn [Z.b2z];
    [apply Z.div_unique with (a mod P + b mod P + c - P)|apply Z.div_unique with (a mod P + b mod P + c)]; lia.
Qed.

Lemma div_borrow P a b c : 0 < P -> 0 <= c <= 1 -> (a - b - c) / P = a / P - b / P - Z.b2z (a mod P <? b mod P + c).
Proof.
  intros HP Hc. pose proof (Z.mod_pos_bound a P HP). pose proof (Z.mod_pos_bound b P HP).
  pose proof (Z.div_mod a P ltac:(lia)). pose proof (Z.div_mod b P ltac:(lia)).
  symmetry. destruct (Z.ltb_spec (a mod P) (b mod P + c)); cbn [Z.b2z];
    [apply Z.div_unique with (a mod P - b mod P - c + P)|apply Z.div_unique with (a mod P - b mod P - c)]; lia.
Qed.

Lemma odd_b2z b : Z.odd (Z.b2z b) = b.
Proof. by destruct b. Qed.

Lemma testbit_div x k : 0 <= k -> Z.testbit x k = Z.odd (x / 2 ^ k).
Proof. intros. rewrite <- Z.shiftr_div_pow2 by done. by rewrite Z.testbit_odd. Qed.

(** A bit of a sum (a difference) is the bits of its operands and the carry (the
    borrow) that arrives. *)
Lemma testbit_add k a b c :
  0 <= k -> 0 <= c <= 1 ->
  Z.testbit (a + b + c) k = xorb (xorb (Z.testbit a k) (Z.testbit b k)) (2 ^ k <=? a mod 2 ^ k + b mod 2 ^ k + c).
Proof.
  intros Hk Hc. rewrite !testbit_div, div_carry, !Z.odd_add, odd_b2z by (try apply Z.pow_pos_nonneg; lia). done.
Qed.

Lemma testbit_sub k a b c :
  0 <= k -> 0 <= c <= 1 ->
  Z.testbit (a - b - c) k = xorb (xorb (Z.testbit a k) (Z.testbit b k)) (a mod 2 ^ k <? b mod 2 ^ k + c).
Proof.
  intros Hk Hc. rewrite !testbit_div, div_borrow, !Z.odd_sub, odd_b2z by (try apply Z.pow_pos_nonneg; lia). done.
Qed.

Lemma ltb_leb_pred a b : (a <? b) = (a + 1 <=? b).
Proof. destruct (Z.ltb_spec a b), (Z.leb_spec (a + 1) b); lia || done. Qed.

Lemma half_add a b c :
  0 <= c <= 1 -> nz (Z.land (Z.lxor (Z.lxor a b) (u16 (a + b + c))) 16) = (15 <? a mod 16 + b mod 16 + c).
Proof.
  intros Hc. change 16 with (2 ^ 4). rewrite nz_bit, !Z.lxor_spec by lia. unfold u16. change 65536 with (2 ^ 16).
  rewrite Z.mod_pow2_bits_low, testbit_add, ltb_leb_pred by lia. change (15 + 1) with (2 ^ 4).
  by destruct (Z.testbit a 4), (Z.testbit b 4), (Z.leb _ _).
Qed.

Lemma half_sub a b c :
  0 <= c <= 1 -> nz (Z.land (Z.lxor (Z.lxor a b) (u16 (a - b - c))) 16) = (a mod 16 <? b mod 16 + c).
Proof.
  intros Hc. change 16 with (2 ^ 4). rewrite nz_bit, !Z.lxor_spec by lia. unfold u16. change 65536 with (2 ^ 16).
  rewrite Z.mod_pow2_bits_low, testbit_sub by lia. by destruct (Z.testbit a 4), (Z.testbit b 4), (Z.ltb _ _).
Qed.

Lemma half_add0 a b : nz (Z.land (Z.lxor (Z.lxor a b) (u16 (a + b))) 16) = (15 <? a mod 16 + b mod 16 + 0).
Proof. rewrite <- (Z.add_0_r (a + b)). by apply half_add. Qed.

Lemma half_sub0 a b : nz (Z.land (Z.lxor (Z.lxor a b) (u16 (a - b))) 16) = (a mod 16 <? b mod 16 + 0).
Proof. rewrite <- (Z.sub_0_r (a - b)). by apply half_sub. Qed.

(** The half carry of a byte added to itself, without the byte. *)
Lemma half_double a c :
  0 <= c <= 1 -> nz (Z.land (u16 (a + a + c)) 16) = (15 <? a mod 16 + a mod 16 + c).
Proof. intros Hc. rewrite <- half_add by done. by rewrite Z.lxor_nilpotent, Z.lxor_0_l. Qed.

Lemma half_double0 a : nz (Z.land (u16 (a + a)) 16) = (15 <? a mod 16 + a mod 16 + 0).
Proof. rewrite <- (Z.add_0_r (a + a)). by apply half_double. Qed.

Lemma half_add16 a b :
  nz (Z.land (Z.lxor (Z.lxor (u32 (a + b)) a) b) 0x1000) = (4095 <? a mod 4096 + b mod 4096).
Proof.
  change 0x1000 with (2 ^ 12). rewrite nz_bit, !Z.lxor_spec by lia. unfold u32. change 4294967296 with (2 ^ 32).
  rewrite Z.mod_pow2_bits_low, <- (Z.add_0_r (a + b)), testbit_add by lia.
  rewrite ltb_leb_pred, Z.add_0_r. change (4095 + 1) with (2 ^ 12). change 4096 with (2 ^ 12).
  by destruct (Z.testbit a 12), (Z.testbit b 12), (Z.leb _ _).
Qed.

Lemma half_double16 a : nz (Z.land (u32 (a + a)) 0x1000) = (4095 <? a mod 4096 + a mod 4096).
Proof. rewrite <- half_add16. f_equal. f_equal. by rewrite Z.lxor_assoc, Z.lxor_nilpotent, Z.lxor_0_r. Qed.

(** ** Equality of states *)

Lemma gb_ext (s t : gb_s) :
  (forall r, set_cpu_reg r s = set_cpu_reg r t) ->
  fZ s = fZ t -> fN s = fN t -> fH s = fH t -> fC s = fC t -> rA s = rA t -> rB s = rB t -> rC s = rC t -> rD s = rD t ->
  rE s = rE t -> rH s = rH t -> rL s = rL t -> SP s = SP t -> PC s = PC t -> s = t.
Proof.
  intros Hr HZ HN HH HC HA HB HC' HD HE HH' HL HS HP.
  transitivity (set_cpu_reg (CpuRegisters (fZ t) (fN t) (fH t) (fC t) (rA t) (rB t) (rC t) (rD t) (rE t) (rH t) (rL t)
    (SP t) (PC t)) s).
  - rewrite <- HZ, <- HN, <- HH, <- HC, <- HA, <- HB, <- HC', <- HD, <- HE, <- HH', <- HL, <- HS, <- HP. reflexivity.
  - rewrite Hr. reflexivity.
Qed.

Lemma b2z_if (b : bool) : (if b then 1 else 0) = Z.b2z b.
Proof. by destruct b. Qed.

Lemma nz_b2z b : nz (Z.b2z b) = b.
Proof. by destruct b. Qed.

(** ** Memory and registers *)

Lemma read_regs gb gb' a : (forall r, set_cpu_reg r gb = set_cpu_reg r gb') -> __gb_read gb a = __gb_read gb' a.
Proof.
  intros H. change (__gb_read gb a) with (__gb_read (set_cpu_reg (cpu_reg gb') gb) a). rewrite H. reflexivity.
Qed.

Lemma read_Some_byte gb a v : wf gb -> __gb_read gb a = Some v -> is_byte v.
Proof.
  intros Hwf. pose proof Hwf as [_ _ _ [Hr Hs _ _ _ _ _ _ _ _ _ _] _ _ [_ Hc] [_ Hw] [_ Hv] [_ Hh] [_ Ho]].
  assert (forall l i, Forall is_byte l -> rd l i = Some v -> is_byte v) as Hrd.
  { intros l i Hl Hi%rd_lookup. by eapply Forall_lookup_1 in Hi. }
  unfold __gb_read, read_cart, gb_rom_read, gb_cart_ram_read. intros Ha.
  pose proof (read_io_byte gb a Hwf). generalize dependent (Z.shiftr a 12). intros k Hk.
  repeat match type of Hk with
  | context [match ?x with _ => _ end] => destruct x; try (by eapply Hrd in Hk; [..|eassumption]); try (simplify_eq; by auto with gb)
  end.
Qed.

Lemma dma_loop_regs n : forall i gb gb', dma_loop n i gb = Some gb' -> cpu_reg gb' = cpu_reg gb.
Proof.
  induction n as [|n IH]; intros i gb gb'; cbn [dma_loop]; [by intros [= ->]|]. intros H.
  destruct (__gb_read gb _) as [v|]; [|done]. cbn [mbind option_bind] in H. destruct (wr (oam gb) i v) as [m|]; [|done].
  by apply IH in H.
Qed.

(** The branches of a [match] in hypothesis [H], closed as they appear. *)
Ltac branches H :=
  repeat match type of H with context [match ?x with _ => _ end] => destruct x; try done; try (by simplify_eq) end.

Lemma write_regs gb a v gb' : __gb_write gb a v = Some gb' -> cpu_reg gb' = cpu_reg gb.
Proof.
  assert (forall l i (put : list Z -> gb_s), (forall m, cpu_reg (put m) = cpu_reg gb) ->
    (m ← wr l i v; Some (put m)) = Some gb' -> cpu_reg gb' = cpu_reg gb) as Harr.
  { intros l i put Hp H. destruct (wr l i v); [|done]. cbn in H. by simplify_eq. }
  assert (forall l k w (put : list Z -> gb_s), (forall m, cpu_reg (put m) = cpu_reg gb) ->
    (p ← set_shades l k w; Some (put p)) = Some gb' -> cpu_reg gb' = cpu_reg gb) as Hsh.
  { intros l k w put Hp H. destruct (set_shades l k w); [|done]. cbn in H. by simplify_eq. }
  assert (forall b g, cpu_reg g = cpu_reg gb -> select_rom_bank b g = Some gb' -> cpu_reg gb' = cpu_reg gb) as Hsel.
  { intros b g Hg H. unfold select_rom_bank in H. case_match; [done|]. by simplify_eq. }
  unfold __gb_write, write_rom, write_bank, write_upper_bank, write_cart, gb_cart_ram_write, write_io. cbn zeta.
  generalize (Z.shiftr a 12), (Z.land a 0xFF). intros k k' H.
  branches H; try (by eapply Harr in H); try (by eapply Hsel in H); try (by eapply Hsh in H).
  all: try by apply dma_loop_regs in H.
  all: simplify_eq; unfold write_lcdc, write_p1; cbn zeta; repeat case_match; done.
Qed.

Lemma push_regs v gb gb' : push v gb = Some gb' -> cpu_reg gb' = cpu_reg (set_SP (u16 (SP gb - 1)) gb).
Proof. unfold push. cbn zeta. apply write_regs. Qed.

(** ** One opcode *)

Lemma word_lo hi lo : is_byte lo -> u8 (pair hi lo) = lo.
Proof. unfold is_byte, pair. zwrap. Qed.
Lemma word_hi hi lo : is_byte hi -> is_byte lo -> u8 (pair hi lo / 256) = hi.
Proof. unfold is_byte, pair. zwrap. Qed.
Lemma word_or hi lo : is_byte hi -> is_byte lo -> u16 (Z.lor lo (Z.shiftl hi 8)) = pair hi lo.
Proof.
  unfold is_byte, pair. intros. rewrite Z.lor_comm, lor_shift by lia. change (2 ^ 8) with 256. zwrap.
Qed.
Lemma word_u16 hi lo : is_byte hi -> is_byte lo -> u16 (pair hi lo) = pair hi lo.
Proof. unfold is_byte, pair. zwrap. Qed.
Lemma io_page v : is_byte v -> Z.lor 0xFF00 v = 0xFF00 + v.
Proof. intros Hv. exact (lor_shift 0xFF v 8 ltac:(lia) Hv). Qed.
Lemma hi_byte x : 0 <= x < 65536 -> u8 (Z.shiftr x 8) = x / 256.
Proof. intros. rewrite Z.shiftr_div_pow2 by lia. change (2 ^ 8) with 256. zwrap. Qed.
Lemma lo_byte x : u8 (Z.land x 255) = x mod 256.
Proof. rewrite land_255. zwrap. Qed.

Lemma pair_mod hi lo : is_byte lo -> pair hi lo mod 256 = lo.
Proof. unfold is_byte, pair. zmod. Qed.
Lemma pair_div hi lo : is_byte lo -> pair hi lo / 256 = hi.
Proof. unfold is_byte, pair. zmod. Qed.
Lemma pair_range hi lo : is_byte hi -> is_byte lo -> 0 <= pair hi lo < 65536.
Proof. unfold is_byte, pair. lia. Qed.
Lemma u8_byte z : is_byte z -> u8 z = z.
Proof. apply u8_small. Qed.

(** A sum kept in a word of 32 bits. *)
Lemma sum_lo x : u8 (u32 x mod 65536) = u8 x.
Proof. zwrap. Qed.
Lemma sum_hi x : u8 (u32 x mod 65536 / 256) = u8 (x / 256).
Proof. zwrap. Qed.

Lemma nz_bit12 x : 0 <= x < 8192 -> nz (Z.land x 4096) = (4095 <? x).
Proof.
  intros. change 4096 with (2 ^ 12) at 1. rewrite nz_bit, testbit_div by lia. change (2 ^ 12) with 4096. destruct (Z.ltb_spec 4095 x).
  - by replace (x / 4096) with 1 by zmod.
  - by replace (x / 4096) with 0 by zmod.
Qed.
Lemma nz_bit16 x : 0 <= x < 131072 -> nz (Z.land x 65536) = (65535 <? x).
Proof.
  intros. change 65536 with (2 ^ 16) at 1. rewrite nz_bit, testbit_div by lia. change (2 ^ 16) with 65536. destruct (Z.ltb_spec 65535 x).
  - by replace (x / 65536) with 1 by zmod.
  - by replace (x / 65536) with 0 by zmod.
Qed.

Lemma bind_cong {A B} (o1 o2 : option A) (k1 k2 : A -> option B) :
  o1 = o2 -> (forall x, o2 = Some x -> k1 x = k2 x) -> (o1 ≫= k1) = (o2 ≫= k2).
Proof. intros -> H. destruct o2 as [x|]; [by apply H|done]. Qed.

(** Two bytes on the stack. *)
Lemma push_word {A} v hi (lo : gb_s -> Z) gb (K : gb_s -> option A) :
  hi = v / 256 -> (forall gb1, cpu_reg gb1 = cpu_reg (set_SP (u16 (SP gb - 1)) gb) -> lo gb1 = v mod 256) ->
  (gb1 ← push hi gb; gb2 ← push (lo gb1) gb1; K gb2) = (gb2 ← push16 v gb; K gb2).
Proof.
  intros -> Hlo. unfold push16. destruct (push (v / 256) gb) as [gb1|] eqn:E; [|done]. cbn [mbind option_bind].
  rewrite Hlo; [done|]. by eapply push_regs.
Qed.

(** The state below a chain of assignments. *)
Ltac base s := lazymatch s with ?f ?x => base x | _ => s end.

(** Projections of assignments. *)
Ltac regs :=
  cbn -[u8 u16 u32 s8 u1 Z.modulo Z.div Z.add Z.sub Z.mul Z.opp Z.land Z.lor Z.lxor Z.shiftl Z.shiftr Z.lnot Z.ltb Z.eqb Z.odd
    Z.pow nz Z.b2z pair __gb_read __gb_write push Z.testbit Z.clearbit Z.setbit].

(** Reads do not depend on registers. *)
Ltac reads :=
  repeat match goal with
  | |- context [__gb_read ?s ?a] =>
      let b := base s in tryif constr_eq b s then fail else rewrite (read_regs s b a (fun r => eq_refl))
  end;
  regs.

Ltac ranges Hwf :=
  let H := fresh in pose proof (wf_cpu_reg _ Hwf) as H; destruct H;
  match type of Hwf with wf ?gb =>
    pose proof (pair_range (rB gb) (rC gb)); pose proof (pair_range (rD gb) (rE gb)); pose proof (pair_range (rH gb) (rL gb))
  end; repeat match goal with H1 : ?P -> _, H2 : ?P |- _ => specialize (H1 H2) end.

Ltac words :=
  rewrite ?io_page, ?word_or, ?word_u16, ?hi_byte, ?lo_byte by (assumption || apply u16_range || (unfold is_byte in *; lia)).

(** A read on both sides. *)
Ltac one_read Hwf :=
  match goal with
  | |- context [__gb_read ?b ?a] =>
      is_var b; let v := fresh "v" in let E := fresh "E" in
      destruct (__gb_read b a) as [v|] eqn:E; [pose proof (read_Some_byte b a v Hwf E)|reflexivity];
      cbn [mbind option_bind]
  end.

Ltac op_start :=
  match goal with |- context [decode ?k] => let i := eval vm_compute in (decode k) in change (decode k) with i end;
  cbv iota beta zeta; unfold exec, taken, holds, load, store, fetch16, pull16, fetch, pull;
  cbn [mbind option_bind rotate get16 put16].

Ltac bools :=
  unfold u1, nz, is_byte in *; zunfold;
  repeat match goal with
  | |- context [Z.eqb ?a ?b] => destruct (Z.eqb_spec a b)
  | |- context [Z.ltb ?a ?b] => destruct (Z.ltb_spec a b)
  end; cbn [Z.b2z orb andb negb]; zmod.

(** Equality of one register. *)
Ltac leaf :=
  regs; try reflexivity; words; rewrite ?word_lo, ?word_hi, ?pair_mod, ?pair_div by assumption; rewrite ?b2z_if;
  rewrite ?half_add0, ?half_add, ?half_sub0, ?half_sub, ?half_add16, ?half_double0, ?half_double, ?half_double16 by lia;
  rewrite ?nz_high8 by apply u16_range; rewrite ?nz_high16 by apply u32_range;
  rewrite ?land_255, ?land_15, ?land_1, ?land_4095, ?land_65535, ?sum_lo, ?sum_hi;
  rewrite ?Z.land_diag, ?Z.lor_diag, ?Z.lxor_nilpotent, ?Z.lxor_0_l, ?half_double by lia; try reflexivity;
  rewrite ?u8_byte by auto with gb; try reflexivity; try (by bools).

Ltac equal := lazymatch goal with |- @eq gb_s _ _ => apply gb_ext; [reflexivity|..]; leaf | _ => leaf end.
Ltac states := f_equal; f_equal; try reflexivity; equal.

(** The two outcomes of a conditional jump. *)
Ltac condition := try match goal with |- (if ?c then _ else _) = _ => destruct c end.

Ltac op_isa Hwf :=
  op_start; condition; try reflexivity; reads; words; repeat (one_read Hwf; reads; words);
  try reflexivity;
  lazymatch goal with
  | |- push _ _ ≫= _ = _ => apply push_word; [|intros ? ->]; leaf
  | |- __gb_write _ _ _ ≫= _ = _ => apply bind_cong; [f_equal; equal|intros; try reflexivity]
  | |- Some _ = Some _ => try states
  | _ => idtac
  end.

(** [opcodes k]: the eight opcodes of a piece of the switch. *)
Ltac opcodes H :=
  match type of H with
  | ?lo <= ?k < _ =>
      let Hk := fresh in
      let c1 := eval vm_compute in (lo + 1) in let c2 := eval vm_compute in (lo + 2) in
      let c3 := eval vm_compute in (lo + 3) in let c4 := eval vm_compute in (lo + 4) in
      let c5 := eval vm_compute in (lo + 5) in let c6 := eval vm_compute in (lo + 6) in
      let c7 := eval vm_compute in (lo + 7) in
      assert (k = lo \/ k = c1 \/ k = c2 \/ k = c3 \/ k = c4 \/ k = c5 \/ k = c6 \/ k = c7) as Hk by lia;
      clear H; repeat (destruct Hk as [Hk|Hk]); subst k
  end.

Ltac cycles :=
  match goal with H : rd op_cycles ?k = Some ?n |- _ =>
    let x := eval vm_compute in (rd op_cycles k) in change (rd op_cycles k) with x in H; injection H as <- end.

Ltac piece op := intros Hwf H Hc; ranges Hwf; opcodes H; cycles; unfold op; op_isa Hwf.

(** ** Rotations and single bits *)

(** An equation between functions of a byte, decided on all the bytes. *)
Ltac all_bytes a :=
  match goal with |- ?l = ?r =>
    let f := eval pattern a in (l =? r) in
    lazymatch f with ?g _ =>
      let H := fresh in
      pose proof (byte_range_ind g 0 256%nat ltac:(vm_compute; reflexivity) a ltac:(assumption)) as H; by apply Z.eqb_eq in H
    end
  end.

Lemma bit_cases c : 0 <= c < 2 -> c = 0 \/ c = 1.
Proof. lia. Qed.
Lemma rlc_byte a : is_byte a -> u8 (Z.lor (Z.shiftl a 1) (Z.shiftr a 7)) = (2 * a) mod 256 + a / 128.
Proof. intros Ha. all_bytes a. Qed.
Lemma rrc_byte a : is_byte a -> u8 (Z.lor (Z.shiftr a 1) (Z.shiftl a 7)) = a / 2 + 128 * (a mod 2).
Proof. intros Ha. all_bytes a. Qed.
Lemma rl_byte a c : is_byte a -> 0 <= c < 2 -> u8 (Z.lor (Z.shiftl a 1) c) = (2 * a) mod 256 + c.
Proof. intros Ha Hc. destruct (bit_cases c Hc); subst c; all_bytes a. Qed.
Lemma rr_byte a c : is_byte a -> 0 <= c < 2 -> u8 (Z.lor (Z.shiftr a 1) (Z.shiftl c 7)) = a / 2 + 128 * c.
Proof. intros Ha Hc. destruct (bit_cases c Hc); subst c; all_bytes a. Qed.
Lemma lnot_byte a : is_byte a -> u8 (Z.lnot a) = 255 - a.
Proof. unfold is_byte, Z.lnot. zwrap. Qed.
Lemma lnot_flag c : 0 <= c < 2 -> u1 (Z.lnot c) = 1 - c.
Proof. unfold u1, Z.lnot. zmod. Qed.

(** ** Decimal adjustment *)

Lemma if_set_fC (b : bool) v gb : (if b then set_fC v gb else gb) = set_fC (if b then v else fC gb) gb.
Proof. by destruct b. Qed.

Lemma daa_isa gb : wf gb -> op_20_27 0x27 4 gb = exec DAA gb.
Proof.
  intros Hwf. ranges Hwf. unfold op_20_27, exec. cbv iota beta zeta. rewrite if_set_fC. f_equal. f_equal.
  destruct (bit_cases _ wf_fN) as [EN|EN], (bit_cases _ wf_fH) as [EH|EH], (bit_cases _ wf_fC) as [EC|EC];
    apply gb_ext; try reflexivity; regs; rewrite ?EN, ?EH, ?EC; try reflexivity; all_bytes (rA gb).
Qed.

(** ** The second page *)

Lemma cb_load_isa r gb : 0 <= r < 8 -> cb_load r gb = fst <$> load (operand_of r) gb.
Proof.
  intros Hr. assert (r = 0 \/ r = 1 \/ r = 2 \/ r = 3 \/ r = 4 \/ r = 5 \/ r = 6 \/ r = 7) as Hc by lia.
  repeat destruct Hc as [Hc|Hc]; subst r; try reflexivity. unfold cb_load, load, operand_of. by destruct (__gb_read gb (HL gb)).
Qed.

Lemma cb_store_isa r v gb : 0 <= r < 8 -> cb_store r v gb = store (operand_of r) v gb.
Proof.
  intros Hr. assert (r = 0 \/ r = 1 \/ r = 2 \/ r = 3 \/ r = 4 \/ r = 5 \/ r = 6 \/ r = 7) as Hc by lia.
  by repeat destruct Hc as [Hc|Hc]; subst r.
Qed.

Lemma cb_shift_isa y v gb :
  0 <= y < 8 -> is_byte v -> 0 <= fC gb < 2 ->
  cb_shift (y / 2) (y mod 2) v gb =
  let '(r, c) := rotate (rot_of y) v (fC gb) in (r, flags (r =? 0) false false (nz c) gb).
Proof.
  intros Hy Hv Hc. assert (y = 0 \/ y = 1 \/ y = 2 \/ y = 3 \/ y = 4 \/ y = 5 \/ y = 6 \/ y = 7) as Hcs by lia.
  destruct (bit_cases _ Hc) as [EC|EC];
    repeat destruct Hcs as [Hcs|Hcs]; subst y; unfold cb_shift; cbn [rotate rot_of Z.div Z.modulo Z.div_eucl Z.pos_div_eucl];
    cbv zeta; apply injective_projections; cbn [fst snd]; rewrite ?EC; try (apply gb_ext; try reflexivity; regs; rewrite ?EC);
    try all_bytes v.
Qed.

(** The fields of an opcode of the second page. *)
Lemma cb_fields op :
  is_byte op ->
  Z.land op 7 = op mod 8 /\ Z.land (Z.shiftr op 3) 7 = op / 8 mod 8 /\ Z.land (Z.shiftr op 3) 1 = (op / 8 mod 8) mod 2 /\
  Z.land (Z.shiftr op 4) 3 = (op / 8 mod 8) / 2 /\ Z.shiftr op 6 = op / 64.
Proof. intros Ha. split_and!; all_bytes op. Qed.

Lemma cb_clock_isa op gb :
  is_byte op ->
  match Z.land op 0x0F with 0x06 | 0x0E => set_div_count (u32 (div_count gb + 8)) gb | _ => gb end = cb_clock (decode_cb op) gb.
Proof.
  intros Ha.
  assert (cb_clock (decode_cb op) gb = if op mod 8 =? 6 then set_div_count (u32 (div_count gb + 8)) gb else gb) as ->.
  { unfold cb_clock, decode_cb. pose proof (Z.mod_pos_bound op 8 ltac:(lia)) as Hr. generalize dependent (op mod 8). intros r Hr.
    assert (r = 0 \/ r = 1 \/ r = 2 \/ r = 3 \/ r = 4 \/ r = 5 \/ r = 6 \/ r = 7) as Hc by lia.
    repeat destruct Hc as [Hc|Hc]; subst r; destruct (op / 64) as [|[p|[p|p|]|]|p]; done. }
  assert (match Z.land op 0x0F with 0x06 | 0x0E => 1 | _ => 0 end = Z.b2z (op mod 8 =? 6)) as E by all_bytes op.
  destruct (op mod 8 =? 6), (Z.land op 15) as [|[[[[]|[]|]|[[]|[]|]|]|[[[]|[]|]|[[]|[]|]|]|]|]; done.
Qed.

Lemma cb_bits b v :
  0 <= b < 8 -> is_byte v ->
  Z.b2z (Z.land (Z.shiftr v b) 1 =? 0) = Z.b2z (negb (Z.testbit v b)) /\
  u8 (Z.land v (Z.lor (Z.shiftl 0xFE b) (Z.shiftr 0xFF (8 - b)))) = Z.clearbit v b /\
  u8 (Z.lor v (Z.shiftl 1 b)) = Z.setbit v b.
Proof.
  intros Hb Hv. assert (b = 0 \/ b = 1 \/ b = 2 \/ b = 3 \/ b = 4 \/ b = 5 \/ b = 6 \/ b = 7) as Hc by lia.
  repeat destruct Hc as [Hc|Hc]; subst b; split_and!; all_bytes v.
Qed.

Lemma load_state r gb v gb' : load (operand_of r) gb = Some (v, gb') -> gb' = gb /\ (wf gb -> is_byte v).
Proof.
  assert (forall r8, load (Reg r8) gb = Some (v, gb') -> gb' = gb /\ (wf gb -> is_byte v)) as Hreg.
  { intros r8 [= <- <-]. split; [done|]. intros [[] _ _ _ _ _ _ _ _ _ _]. by destruct r8. }
  destruct r as [|[[[]|[]|]|[[]|[]|]|]|]; try apply Hreg; cbn [load operand_of]; intros H;
    destruct (__gb_read gb (HL gb)) eqn:E; try done; cbn in H; simplify_eq; split; try done; intros Hwf;
    by eapply read_Some_byte.
Qed.

Lemma cb_isa op gb :
  wf gb -> is_byte op ->
  (v ← cb_load (Z.land op 7) gb;
   match Z.shiftr op 6 with
   | 0 => let '(v, gb) := cb_shift (Z.land (Z.shiftr op 4) 3) (Z.land (Z.shiftr op 3) 1) v gb in cb_store (Z.land op 7) v gb
   | 1 => Some (set_fH 1 (set_fN 0 (set_fZ (Z.b2z (Z.land (Z.shiftr v (Z.land (Z.shiftr op 3) 7)) 1 =? 0)) gb)))
   | 2 => cb_store (Z.land op 7) (u8 (Z.land v (Z.lor (Z.shiftl 0xFE (Z.land (Z.shiftr op 3) 7))
                                                     (Z.shiftr 0xFF (8 - Z.land (Z.shiftr op 3) 7))))) gb
   | 3 => cb_store (Z.land op 7) (u8 (Z.lor v (Z.shiftl 1 (Z.land (Z.shiftr op 3) 7)))) gb
   | _ => cb_store (Z.land op 7) v gb
   end) = exec_cb (decode_cb op) gb.
Proof.
  intros Hwf Hop. destruct (cb_fields op Hop) as (-> & -> & -> & -> & ->). unfold is_byte in Hop.
  assert (0 <= op mod 8 < 8) as Hr by zmod. assert (0 <= op / 8 mod 8 < 8) as Hy by zmod. assert (0 <= op / 64 < 4) as Hx by zmod.
  unfold decode_cb. generalize dependent (op mod 8). generalize dependent (op / 8 mod 8). generalize dependent (op / 64).
  intros x Hx y Hy r Hr. rewrite cb_load_isa by done.
  assert (x = 0 \/ x = 1 \/ x = 2 \/ x = 3) as Hc by lia.
  repeat destruct Hc as [Hc|Hc]; subst x; cbn [exec_cb]; destruct (load (operand_of r) gb) as [[v gb']|] eqn:E; try reflexivity;
    apply load_state in E as [-> Hv]; specialize (Hv Hwf); cbn [mbind option_bind fst fmap option_fmap option_map];
    destruct (cb_bits y v Hy Hv) as (Hb1 & Hb2 & Hb3).
  - rewrite cb_shift_isa by (done || by destruct Hwf as [[]]). destruct (rotate _ _ _). by rewrite cb_store_isa.
  - by rewrite Hb1.
  - by rewrite Hb2, cb_store_isa.
  - by rewrite Hb3, cb_store_isa.
Qed.

Lemma execute_cb_isa gb :
  wf gb ->
  __gb_execute_cb gb = ('(op, gb) ← fetch gb; exec_cb (decode_cb op) (cb_clock (decode_cb op) gb)).
Proof.
  intros Hwf. unfold __gb_execute_cb, fetch. destruct (__gb_read gb (PC gb)) as [op|] eqn:E; [|done]. cbn [mbind option_bind].
  pose proof (read_Some_byte _ _ _ Hwf E) as Hop. rewrite cb_clock_isa by done. rewrite <- cb_isa; [done| |done].
  assert (0 <= u16 (PC gb + 1) < 65536) by apply u16_range. unfold cb_clock. case_match; wf_field.
Qed.

(** ** The flag register on the stack *)

Lemma pop_flag k lo hi :
  is_byte lo -> 4 <= k <= 7 -> u1 (Z.shiftr lo k mod 2) = Z.b2z (Z.odd (pair hi lo / 2 ^ k)).
Proof.
  intros Hlo Hk. rewrite Z.shiftr_div_pow2 by lia. assert (forall z, Z.b2z (Z.odd z) = z mod 2) as ->.
  { intros z. rewrite Zmod_odd. by destruct (Z.odd z). }
  assert (k = 4 \/ k = 5 \/ k = 6 \/ k = 7) as Hc by lia. unfold u1, pair, is_byte in *.
  repeat destruct Hc as [Hc|Hc]; subst k; zmod.
Qed.

Lemma flag_byte_range gb : wf gb -> is_byte (flag_byte gb).
Proof. intros Hwf. ranges Hwf. unfold flag_byte, is_byte. lia. Qed.

Lemma flag_byte_or gb :
  wf gb ->
  u8 (Z.lor (Z.lor (Z.lor (Z.shiftl (fZ gb) 7) (Z.shiftl (fN gb) 6)) (Z.shiftl (fH gb) 5)) (Z.shiftl (fC gb) 4)) = flag_byte gb.
Proof.
  intros Hwf. ranges Hwf. unfold flag_byte.
  destruct (bit_cases _ wf_fZ) as [->| ->], (bit_cases _ wf_fN) as [->| ->], (bit_cases _ wf_fH) as [->| ->],
    (bit_cases _ wf_fC) as [->| ->]; reflexivity.
Qed.

(** ** The pieces of the switch *)

Section Pieces.
Context (k n : Z) (gb : gb_s).

Lemma op_00_07_isa : wf gb -> 0x00 <= k < 0x08 -> rd op_cycles k = Some n -> op_00_07 k n gb = exec (decode k) gb.
Proof.
  piece op_00_07.
  all: all_bytes (rA gb).
Qed.

Lemma op_08_0F_isa : wf gb -> 0x08 <= k < 0x10 -> rd op_cycles k = Some n -> op_08_0F k n gb = exec (decode k) gb.
Proof.
  piece op_08_0F.
  - apply bind_cong; [|done]. f_equal. rewrite (write_regs _ _ _ _ H4). regs. apply hi_byte. lia.
  - by apply rrc_byte.
Qed.

Lemma op_10_17_isa : wf gb -> 0x10 <= k < 0x18 -> rd op_cycles k = Some n -> op_10_17 k n gb = exec (decode k) gb.
Proof.
  piece op_10_17.
  - all_bytes (rA gb).
  - by apply rl_byte.
Qed.

Lemma op_18_1F_isa : wf gb -> 0x18 <= k < 0x20 -> rd op_cycles k = Some n -> op_18_1F k n gb = exec (decode k) gb.
Proof.
  piece op_18_1F.
  by apply rr_byte.
Qed.

Lemma op_20_27_isa : wf gb -> 0x20 <= k < 0x28 -> rd op_cycles k = Some n -> op_20_27 k n gb = exec (decode k) gb.
Proof.
  piece op_20_27.
  exact (daa_isa gb Hwf).
Qed.

Lemma op_28_2F_isa : wf gb -> 0x28 <= k < 0x30 -> rd op_cycles k = Some n -> op_28_2F k n gb = exec (decode k) gb.
Proof.
  piece op_28_2F.
  by apply lnot_byte.
Qed.

Lemma op_30_37_isa : wf gb -> 0x30 <= k < 0x38 -> rd op_cycles k = Some n -> op_30_37 k n gb = exec (decode k) gb.
Proof. piece op_30_37. Qed.

Lemma op_38_3F_isa : wf gb -> 0x38 <= k < 0x40 -> rd op_cycles k = Some n -> op_38_3F k n gb = exec (decode k) gb.
Proof.
  piece op_38_3F.
  - rewrite nz_bit12; [done|zmod].
  - rewrite u32_small, nz_bit16 by lia. done.
  - by apply lnot_flag.
Qed.

Lemma op_40_47_isa : wf gb -> 0x40 <= k < 0x48 -> rd op_cycles k = Some n -> op_40_47 k n gb = exec (decode k) gb.
Proof. piece op_40_47. Qed.

Lemma op_48_4F_isa : wf gb -> 0x48 <= k < 0x50 -> rd op_cycles k = Some n -> op_48_4F k n gb = exec (decode k) gb.
Proof. piece op_48_4F. Qed.

Lemma op_50_57_isa : wf gb -> 0x50 <= k < 0x58 -> rd op_cycles k = Some n -> op_50_57 k n gb = exec (decode k) gb.
Proof. piece op_50_57. Qed.

Lemma op_58_5F_isa : wf gb -> 0x58 <= k < 0x60 -> rd op_cycles k = Some n -> op_58_5F k n gb = exec (decode k) gb.
Proof. piece op_58_5F. Qed.

Lemma op_60_67_isa : wf gb -> 0x60 <= k < 0x68 -> rd op_cycles k = Some n -> op_60_67 k n gb = exec (decode k) gb.
Proof. piece op_60_67. Qed.

Lemma op_68_6F_isa : wf gb -> 0x68 <= k < 0x70 -> rd op_cycles k = Some n -> op_68_6F k n gb = exec (decode k) gb.
Proof. piece op_68_6F. Qed.

Lemma op_70_77_isa : wf gb -> 0x70 <= k < 0x78 -> rd op_cycles k = Some n -> op_70_77 k n gb = exec (decode k) gb.
Proof. piece op_70_77. Qed.

Lemma op_78_7F_isa : wf gb -> 0x78 <= k < 0x80 -> rd op_cycles k = Some n -> op_78_7F k n gb = exec (decode k) gb.
Proof. piece op_78_7F. Qed.

Lemma op_80_87_isa : wf gb -> 0x80 <= k < 0x88 -> rd op_cycles k = Some n -> op_80_87 k n gb = exec (decode k) gb.
Proof. piece op_80_87. Qed.

Lemma op_88_8F_isa : wf gb -> 0x88 <= k < 0x90 -> rd op_cycles k = Some n -> op_88_8F k n gb = exec (decode k) gb.
Proof. piece op_88_8F. Qed.

Lemma op_90_97_isa : wf gb -> 0x90 <= k < 0x98 -> rd op_cycles k = Some n -> op_90_97 k n gb = exec (decode k) gb.
Proof. piece op_90_97. Qed.

Lemma op_98_9F_isa : wf gb -> 0x98 <= k < 0xA0 -> rd op_cycles k = Some n -> op_98_9F k n gb = exec (decode k) gb.
Proof. piece op_98_9F. Qed.

Lemma op_A0_A7_isa : wf gb -> 0xA0 <= k < 0xA8 -> rd op_cycles k = Some n -> op_A0_A7 k n gb = exec (decode k) gb.
Proof. piece op_A0_A7. Qed.

Lemma op_A8_AF_isa : wf gb -> 0xA8 <= k < 0xB0 -> rd op_cycles k = Some n -> op_A8_AF k n gb = exec (decode k) gb.
Proof. piece op_A8_AF. Qed.

Lemma op_B0_B7_isa : wf gb -> 0xB0 <= k < 0xB8 -> rd op_cycles k = Some n -> op_B0_B7 k n gb = exec (decode k) gb.
Proof. piece op_B0_B7. Qed.

Lemma op_B8_BF_isa : wf gb -> 0xB8 <= k < 0xC0 -> rd op_cycles k = Some n -> op_B8_BF k n gb = exec (decode k) gb.
Proof. piece op_B8_BF. Qed.

Lemma op_C0_C7_isa : wf gb -> 0xC0 <= k < 0xC8 -> rd op_cycles k = Some n -> op_C0_C7 k n gb = exec (decode k) gb.
Proof. piece op_C0_C7. Qed.

Lemma op_C8_CF_isa : wf gb -> 0xC8 <= k < 0xD0 -> rd op_cycles k = Some n -> op_C8_CF k n gb = exec (decode k) gb.
Proof.
  piece op_C8_CF.
  rewrite execute_cb_isa by done. unfold fetch. destruct (__gb_read gb (PC gb)); [|done]. cbn [mbind option_bind]. reflexivity.
Qed.

Lemma op_D0_D7_isa : wf gb -> 0xD0 <= k < 0xD8 -> rd op_cycles k = Some n -> op_D0_D7 k n gb = exec (decode k) gb.
Proof. piece op_D0_D7. Qed.

Lemma op_D8_DF_isa : wf gb -> 0xD8 <= k < 0xE0 -> rd op_cycles k = Some n -> op_D8_DF k n gb = exec (decode k) gb.
Proof. piece op_D8_DF. Qed.

Lemma op_E0_E7_isa : wf gb -> 0xE0 <= k < 0xE8 -> rd op_cycles k = Some n -> op_E0_E7 k n gb = exec (decode k) gb.
Proof. piece op_E0_E7. Qed.

Lemma op_E8_EF_isa : wf gb -> 0xE8 <= k < 0xF0 -> rd op_cycles k = Some n -> op_E8_EF k n gb = exec (decode k) gb.
Proof. piece op_E8_EF. Qed.

Lemma op_F0_F7_isa : wf gb -> 0xF0 <= k < 0xF8 -> rd op_cycles k = Some n -> op_F0_F7 k n gb = exec (decode k) gb.
Proof.
  piece op_F0_F7.
  - exact (pop_flag 7 v v0 H ltac:(lia)).
  - exact (pop_flag 6 v v0 H ltac:(lia)).
  - exact (pop_flag 5 v v0 H ltac:(lia)).
  - exact (pop_flag 4 v v0 H ltac:(lia)).
  - rewrite pair_div; [done|]. by apply flag_byte_range.
  - rewrite pair_mod by (by apply flag_byte_range). by apply flag_byte_or.
Qed.

Lemma op_F8_FF_isa : wf gb -> 0xF8 <= k < 0x100 -> rd op_cycles k = Some n -> op_F8_FF k n gb = exec (decode k) gb.
Proof. piece op_F8_FF. Qed.

End Pieces.

(** ** The switch *)

Lemma execute_piece k n gb :
  wf gb -> is_byte k -> rd op_cycles k = Some n -> execute k n gb = exec (decode k) gb.
Proof.
  intros Hwf Hk Hn. unfold is_byte in Hk. unfold execute. rewrite Z.shiftr_div_pow2 by lia. change (2 ^ 3) with 8.
  assert (0 <= k / 8 < 32 /\ 8 * (k / 8) <= k < 8 * (k / 8) + 8) as [Hq Hkq] by zmod.
  generalize dependent (k / 8). intros q Hq Hkq.
  assert (q < 8 \/ 8 <= q < 16 \/ 16 <= q < 24 \/ 24 <= q) as Hc by lia.
  destruct Hc as [Hc|Hc].
  { assert (q = 0 \/ q = 1 \/ q = 2 \/ q = 3 \/ q = 4 \/ q = 5 \/ q = 6 \/ q = 7) as Hd by lia.
    destruct Hd as [->|[->|[->|[->|[->|[->|[->| ->]]]]]]];
      [apply op_00_07_isa|apply op_08_0F_isa|apply op_10_17_isa|apply op_18_1F_isa|apply op_20_27_isa|apply op_28_2F_isa|apply op_30_37_isa|apply op_38_3F_isa];
      (done || lia). }
  destruct Hc as [Hc|Hc].
  { assert (q = 8 \/ q = 9 \/ q = 10 \/ q = 11 \/ q = 12 \/ q = 13 \/ q = 14 \/ q = 15) as Hd by lia.
    destruct Hd as [->|[->|[->|[->|[->|[->|[->| ->]]]]]]];
      [apply op_40_47_isa|apply op_48_4F_isa|apply op_50_57_isa|apply op_58_5F_isa|apply op_60_67_isa|apply op_68_6F_isa|apply op_70_77_isa|apply op_78_7F_isa];
      (done || lia). }
  destruct Hc as [Hc|Hc].
  { assert (q = 16 \/ q = 17 \/ q = 18 \/ q = 19 \/ q = 20 \/ q = 21 \/ q = 22 \/ q = 23) as Hd by lia.
    destruct Hd as [->|[->|[->|[->|[->|[->|[->| ->]]]]]]];
      [apply op_80_87_isa|apply op_88_8F_isa|apply op_90_97_isa|apply op_98_9F_isa|apply op_A0_A7_isa|apply op_A8_AF_isa|apply op_B0_B7_isa|apply op_B8_BF_isa];
      (done || lia). }
    assert (q = 24 \/ q = 25 \/ q = 26 \/ q = 27 \/ q = 28 \/ q = 29 \/ q = 30 \/ q = 31) as Hd by lia.
    destruct Hd as [->|[->|[->|[->|[->|[->|[->| ->]]]]]]];
      [apply op_C0_C7_isa|apply op_C8_CF_isa|apply op_D0_D7_isa|apply op_D8_DF_isa|apply op_E0_E7_isa|apply op_E8_EF_isa|apply op_F0_F7_isa|apply op_F8_FF_isa];
      (done || lia).
Qed.

(** C6. The interpreter implements the instruction set.  For every one of the 256
    opcodes, on every well-formed state, the arm of the switch of [__gb_step_cpu]
    (and [__gb_execute_cb] for the second page) gives the state, the flags and the
    number of cycles that the decoding of the opcode by its fields and the
    arithmetic meaning of the instruction give. *)
Theorem execute_isa k gb :
  wf gb -> is_byte k -> exists n, rd op_cycles k = Some n /\ execute k n gb = exec (decode k) gb.
Proof.
  intros Hwf Hk. destruct (rd_Some op_cycles k Hk) as [n Hn]. exists n. split; [done|]. by apply execute_piece.
Qed.

Lemma execute_isa_witness :
  wf demo /\ is_byte 0xCE /\ exists n, rd op_cycles 0xCE = Some n /\ execute 0xCE n demo = exec (decode 0xCE) demo.
Proof. split; [exact demo_wf|]. split; [by apply byte_const|]. apply (execute_isa 0xCE demo); [exact demo_wf|by apply byte_const]. Defined.

(** ** Decimal arithmetic *)

(** A number of two digits as a byte, a digit in each half. *)
Definition bcd (n : Z) : Z := 16 * (n / 10) + n mod 10.

(** What the adjustment makes of the sum (the difference) of two bytes. *)
Definition adjusted (r : Z) (h : bool) : Z * bool :=
  let hi := (255 <? r) || (0x99 <? r mod 256) in
  ((r mod 256 + (if h || (9 <? r mod 256 mod 16) then 6 else 0) + (if hi then 0x60 else 0)) mod 256, hi).

Definition digits_ok (p q : Z) : bool :=
  let '(r, c) := adjusted (16 * p + q) (15 <? q) in
  (r =? bcd ((10 * p + q) mod 100)) && Bool.eqb c (100 <=? 10 * p + q).

Lemma adjusted_digits p q :
  0 <= p < 19 -> 0 <= q < 19 ->
  adjusted (16 * p + q) (15 <? q) = (bcd ((10 * p + q) mod 100), 100 <=? 10 * p + q).
Proof.
  intros Hp Hq. assert (digits_ok p q = true) as H.
  { in_range H (fun p => forallb (digits_ok p) ((fun i => 0 + Z.of_nat i) <$> seq 0 19)) 0 19%nat p.
    by apply (byte_range_ind (digits_ok p) 0 19 H). }
  unfold digits_ok in H. destruct (adjusted _ _) as [r c]. apply andb_true_iff in H as [->%Z.eqb_eq ->%eqb_prop]. done.
Qed.

Lemma daa_after_add x y gb :
  0 <= x < 100 -> 0 <= y < 100 -> rA gb = bcd x ->
  let gb' := exec_daa (add8 (bcd y) 0 gb) in
  rA gb' = bcd ((x + y) mod 100) /\ fC gb' = Z.b2z (100 <=? x + y).
Proof.
  intros Hx Hy Ha gb'.
  set (p := x / 10 + y / 10). set (q := x mod 10 + y mod 10).
  assert (0 <= p < 19 /\ 0 <= q < 19 /\ x + y = 10 * p + q) as (Hp & Hq & ->) by (unfold p, q; zmod).
  assert (bcd x + bcd y + 0 = 16 * p + q) as Hs by (unfold bcd, p, q; lia).
  assert ((15 <? bcd x mod 16 + bcd y mod 16 + 0) = (15 <? q)) as Hh by (f_equal; unfold bcd, q; zmod).
  pose proof (adjusted_digits p q Hp Hq) as Hd. unfold adjusted in Hd. injection Hd as H1 H2.
  subst gb'. unfold exec_daa, add8. regs. rewrite Ha, Hs, Hh, !nz_b2z. change (nz 0) with false. cbn [negb andb].
  rewrite <- H1, <- H2. split; [|done]. f_equal. lia.
Qed.

(** Decimal addition.  With the digits of [x] and [y] in the registers A and
    B, the instructions ADD A, B and DAA leave the two digits of the sum in A and
    the hundred in the carry. *)
Theorem decimal_addition x y gb :
  wf gb -> 0 <= x < 100 -> 0 <= y < 100 -> rA gb = bcd x -> rB gb = bcd y ->
  exists gb1 gb2, execute 0x80 4 gb = Some (gb1, 4) /\ execute 0x27 4 gb1 = Some (gb2, 4) /\
    rA gb2 = bcd ((x + y) mod 100) /\ fC gb2 = Z.b2z (100 <=? x + y).
Proof.
  intros Hwf Hx Hy Ha Hb. rewrite execute_piece by (done || auto with gb). change (decode 0x80) with (ALU ADD (Reg RB)).
  eexists _, _. split; [reflexivity|]. cbn [get8 exec_alu]. rewrite Hb.
  assert (wf (add8 (bcd y) 0 gb)) as Hwf'.
  { assert (forall b, 0 <= Z.b2z b < 2) by (intros []; cbn; lia). unfold add8, flags. wf_field; apply byte_u8 || lia. }
  split; [rewrite execute_piece by (done || auto with gb); reflexivity|]. by apply daa_after_add.
Qed.

Lemma decimal_addition_witness :
  let gb := set_rA (bcd 45) (set_rB (bcd 68) demo) in
  wf gb /\ rA gb = bcd 45 /\ rB gb = bcd 68 /\
  exists gb1 gb2, execute 0x80 4 gb = Some (gb1, 4) /\ execute 0x27 4 gb1 = Some (gb2, 4) /\
    rA gb2 = bcd ((45 + 68) mod 100) /\ fC gb2 = Z.b2z (100 <=? 45 + 68).
Proof.
  intros gb. assert (forall g, wf g -> wf (set_rA (bcd 45) (set_rB (bcd 68) g))) as Hset by (intros g Hg; wf_field).
  pose proof (Hset demo demo_wf) as Hwf. fold gb in Hwf. split; [exact Hwf|]. split; [reflexivity|]. split; [reflexivity|].
  refine (decimal_addition 45 68 gb Hwf _ _ eq_refl eq_refl); clear; lia.
Defined.
