(* ===== verification/GbRun.v ===== *)
(** * Game Boy: instructions keep the console well-formed

    An instruction of the reference set, run on a well-formed state, reaches a
    well-formed state: no access of the emulator leaves its arrays.  What an
    instruction may do to the clocks and to the screen is recorded as well, for
    [GbSystem]. *)
From S2P Require Import Prelude GbState GbMemory GbOps GbIsa GbCpu.

Local Open Scope Z_scope.

(** The computation succeeds with a result in [P]. *)
Definition yields {A} (r : option A) (P : A -> Prop) : Prop := exists x, r = Some x /\ P x.

Lemma yields_ret {A} (x : A) (P : A -> Prop) : P x -> yields (Some x) P.
Proof. by exists x. Qed.

Lemma yields_bind {A B} (r : option A) (k : A -> option B) P Q :
  yields r P -> (forall x, P x -> yields (k x) Q) -> yields (r ≫= k) Q.
Proof. intros (x & -> & Hx) Hk. by apply Hk. Qed.

Lemma yields_mono {A} (r : option A) (P Q : A -> Prop) : yields r P -> (forall x, P x -> Q x) -> yields r Q.
Proof. intros (x & -> & Hx) H. exists x. auto. Qed.

(** ** The screen registers *)

Definition lcd_on (gb : gb_s) : bool := nz (Z.land (LCDC gb) LCDC_ENABLE).

(** The position of the beam. *)
Definition beam (gb : gb_s) : Z * Z := (LY gb, lcd_count gb).

Lemma dma_loop_lcd n : forall i gb gb',
  dma_loop n i gb = Some gb' -> LCDC gb' = LCDC gb /\ beam gb' = beam gb /\ lcd_mode gb' = lcd_mode gb.
Proof.
  induction n as [|n IH]; intros i gb gb'; cbn [dma_loop]; [by intros [= ->]|]. intros H.
  destruct (__gb_read gb _) as [v|]; [|done]. cbn [mbind option_bind] in H. destruct (wr (oam gb) i v) as [m|]; [|done].
  by apply IH in H.
Qed.

(** Only a write to the control register at 0xFF40 touches the screen, and only
    to turn it off. *)
Definition lcd_kept (a : Z) (gb gb' : gb_s) : Prop :=
  (a <> 0xFF40 -> LCDC gb' = LCDC gb /\ beam gb' = beam gb) /\ (lcd_on gb' = true -> beam gb' = beam gb) /\
  lcd_mode gb' = lcd_mode gb.

Lemma lcd_kept_same a gb gb' : LCDC gb' = LCDC gb -> beam gb' = beam gb -> lcd_mode gb' = lcd_mode gb -> lcd_kept a gb gb'.
Proof. intros. split_and!; auto. Qed.

Lemma write_lcdc_kept gb v : lcd_kept 0xFF40 gb (write_lcdc gb v).
Proof.
  unfold write_lcdc. cbn zeta. destruct (Z.eqb_spec (Z.land (LCDC (set_LCDC v gb)) LCDC_ENABLE) 0) as [E|E].
  - case_match; split_and!; try done. intros Hon.
    change (Z.land v LCDC_ENABLE = 0) in E. change (nz (Z.land v LCDC_ENABLE) = true) in Hon. rewrite E in Hon. discriminate.
  - by split_and!.
Qed.

Lemma write_lcd gb a v gb' : 0 <= a < 65536 -> __gb_write gb a v = Some gb' -> lcd_kept a gb gb'.
Proof.
  assert (forall l i (put : list Z -> gb_s), (forall m, LCDC (put m) = LCDC gb /\ beam (put m) = beam gb /\ lcd_mode (put m) = lcd_mode gb) ->
    (m ← wr l i v; Some (put m)) = Some gb' -> lcd_kept a gb gb') as Harr.
  { intros l i put Hp H. destruct (wr l i v) as [m|]; [|done]. cbn in H. simplify_eq. destruct (Hp m) as (? & ? & ?). by apply lcd_kept_same. }
  assert (forall l k w (put : list Z -> gb_s), (forall m, LCDC (put m) = LCDC gb /\ beam (put m) = beam gb /\ lcd_mode (put m) = lcd_mode gb) ->
    (p ← set_shades l k w; Some (put p)) = Some gb' -> lcd_kept a gb gb') as Hsh.
  { intros l k w put Hp H. destruct (set_shades l k w) as [m|]; [|done]. cbn in H. simplify_eq. destruct (Hp m) as (? & ? & ?). by apply lcd_kept_same. }
  assert (forall b g, LCDC g = LCDC gb -> beam g = beam gb -> lcd_mode g = lcd_mode gb -> select_rom_bank b g = Some gb' -> lcd_kept a gb gb') as Hsel.
  { intros b g ? ? ? H. unfold select_rom_bank in H. case_match; [done|]. injection H as <-. by apply lcd_kept_same. }
  intros Ha H. unfold __gb_write, write_rom, write_bank, write_upper_bank, write_cart, gb_cart_ram_write in H. consts.
  cbn zeta in H. destruct (addr_block a Ha) as (k & Ek & Hk & Hak). rewrite Ek in H.
  destruct (Z.eq_dec k 15) as [->|Hne].
  - cbv iota in H. repeat case_match; try (by eapply Harr in H); try (simplify_eq; by apply lcd_kept_same).
    apply Z.ltb_ge in H2. unfold write_io in H.
    assert (Z.land a 255 = 0x40 -> a = 0xFF40) as H40 by (rewrite land_255; zmod).
    generalize dependent (Z.land a 0xFF). intros k' H H40. cbn zeta in H.
    repeat match type of H with
    | context [match ?x with _ => _ end] =>
        is_var x; destruct x; try (simplify_eq; by apply lcd_kept_same); try (by eapply Hsh in H)
    end; simplify_eq.
    all: first
      [ apply dma_loop_lcd in H as (? & ? & ?); by apply lcd_kept_same
      | rewrite H40 by done; apply write_lcdc_kept
      | unfold write_p1; cbn zeta; case_match; by apply lcd_kept_same ].
  - clear Ek Hak. branches H; try (by eapply Harr in H); try (by eapply Hsel in H); simplify_eq; by apply lcd_kept_same.
Qed.

(** ** What an instruction does *)

(** What the screen shows: the end of a frame, and the picture. *)
Definition shown (gb : gb_s) : Z * list (list Z) := (gb_frame gb, fb gb).

Record ran (gb gb' : gb_s) : Prop := {
  ran_wf : wf gb';
  ran_shown : shown gb' = shown gb; ran_mode : lcd_mode gb' = lcd_mode gb;
  ran_tima : tima_count gb' = tima_count gb; ran_serial : serial_count gb' = serial_count gb;
  ran_div : div_count gb' = div_count gb;
  ran_home : beam gb' = beam gb \/ beam gb' = (0, 0);
  ran_beam : lcd_on gb' = true -> beam gb' = beam gb }.

Lemma ran_refl gb : wf gb -> ran gb gb.
Proof. intros. split; auto. Qed.

(** A write, at an address of the console. *)
Record wrote (a : Z) (gb gb' : gb_s) : Prop := {
  wrote_wf : wf gb'; wrote_shown : shown gb' = shown gb;
  wrote_counter : counter gb' = counter gb \/ counter gb' = counter (set_lcd_count 0 gb);
  wrote_home : beam gb' = beam gb \/ beam gb' = (0, 0);
  wrote_lcd : lcd_kept a gb gb' }.

Lemma write_yields gb a v :
  wf gb -> 0 <= a < 65536 -> is_byte v ->
  yields (__gb_write gb a v) (fun gb' => wrote a gb gb' /\ cpu_reg gb' = cpu_reg gb).
Proof.
  intros Hwf Ha Hv. destruct (__gb_write_wf gb a v Hwf Ha Hv) as (gb' & E & Hwf' & []). exists gb'. split; [done|].
  split; [|done]. pose proof (write_lcd gb a v gb' Ha E) as Hk. split; try done; [unfold shown; congruence|].
  destruct (Z.eq_dec a 0xFF40) as [->|Hne]; [|left; destruct Hk as [Hk _]; by destruct (Hk Hne)].
  change (Some (write_lcdc gb v) = Some gb') in E. injection E as <-. unfold write_lcdc. cbn zeta. repeat case_match; auto.
Qed.

Lemma wrote_counts a gb gb' :
  wrote a gb gb' ->
  tima_count gb' = tima_count gb /\ serial_count gb' = serial_count gb /\ div_count gb' = div_count gb /\
  (lcd_count gb' = lcd_count gb \/ lcd_count gb' = 0).
Proof. intros []. destruct wrote_counter0 as [->| ->]; auto. Qed.

Lemma wrote_ran a gb gb' : wrote a gb gb' -> ran gb gb'.
Proof.
  intros H. destruct (wrote_counts _ _ _ H) as (? & ? & ? & ?). destruct H as [? ? ? ? (? & Hb & ?)]. split; auto.
Qed.

(** Two writes at different addresses: the second cannot turn on the screen that
    the first turned off. *)
Lemma wrote_wrote a b gb gb1 gb2 : a <> b -> wrote a gb gb1 -> wrote b gb1 gb2 -> ran gb gb2.
Proof.
  intros Hab H1 H2. destruct (wrote_counts _ _ _ H1) as (? & ? & ? & ?). destruct (wrote_counts _ _ _ H2) as (? & ? & ? & ?).
  destruct H1 as [? ? ? Hh1 (Hk1 & Hb1 & Hm1)], H2 as [? ? ? Hh2 (Hk2 & Hb2 & Hm2)]. split; try congruence.
  { destruct Hh2 as [-> | ->]; auto. }
  intros Hon. destruct (Z.eq_dec b 0xFF40) as [->|Hne].
  - destruct (Hk1 Hab) as [_ <-]. auto.
  - destruct (Hk2 Hne) as [HL HB]. rewrite HB. apply Hb1. unfold lcd_on in *. by rewrite <- HL.
Qed.

Lemma wrote_upd a gb gb1 gb2 :
  wrote a gb gb1 -> wf gb2 ->
  shown gb2 = shown gb1 -> lcd_mode gb2 = lcd_mode gb1 -> counter gb2 = counter gb1 -> gb_reg gb2 = gb_reg gb1 ->
  wrote a gb gb2.
Proof.
  intros [? ? ? ? (Hk & Hb & Hm)] Hwf Hf Hmo Hc Hr. split; [done|congruence|by rewrite Hc|unfold beam in *; by rewrite Hc, Hr|].
  split; [|split]; [..|congruence]; unfold lcd_on, beam in *; rewrite Hc, Hr; auto.
Qed.

(** Registers of the processor do not matter. *)
Lemma ran_upd gb gb1 gb2 :
  ran gb gb1 -> wf gb2 ->
  shown gb2 = shown gb1 -> lcd_mode gb2 = lcd_mode gb1 -> counter gb2 = counter gb1 -> gb_reg gb2 = gb_reg gb1 ->
  ran gb gb2.
Proof.
  intros [] Hwf Hf Hm Hc Hr. split; try congruence; unfold lcd_on, beam in *; rewrite ?Hc, ?Hr; auto; congruence.
Qed.

Lemma ran_from gb gb1 gb2 :
  ran gb1 gb2 -> shown gb1 = shown gb -> lcd_mode gb1 = lcd_mode gb -> counter gb1 = counter gb -> gb_reg gb1 = gb_reg gb ->
  ran gb gb2.
Proof. intros [] Hf Hm Hc Hr. split; unfold beam in *; rewrite <- ?Hc, <- ?Hr, <- ?Hf, <- ?Hm; auto. Qed.

Lemma b2z_range b : 0 <= Z.b2z b < 2.
Proof. destruct b; cbn; lia. Qed.

#[export] Hint Resolve b2z_range u16_range : gb.
#[export] Hint Extern 1 (0 <= ?a < ?b) => lia : gb.

(** [wf] after assignments to registers. *)
Ltac wf_regs := unfold put8, put16, set_BC, set_DE, set_HL, flags, logic; wf_field.

(** [ran] after assignments to registers. *)
Ltac after H := eapply ran_upd; [exact H| |reflexivity|reflexivity|reflexivity|reflexivity].

Lemma fetch_yields gb :
  wf gb -> yields (fetch gb) (fun '(v, gb') => is_byte v /\ gb' = set_PC (u16 (PC gb + 1)) gb /\ wf gb').
Proof.
  intros Hwf. pose proof (wf_PC _ (wf_cpu_reg _ Hwf)). unfold fetch.
  destruct (__gb_read_byte gb (PC gb)) as (v & -> & Hv); [done|lia|]. exists (v, set_PC (u16 (PC gb + 1)) gb).
  split_and!; try done. wf_field.
Qed.

Lemma pull_yields gb :
  wf gb -> yields (pull gb) (fun '(v, gb') => is_byte v /\ gb' = set_SP (u16 (SP gb + 1)) gb /\ wf gb').
Proof.
  intros Hwf. pose proof (wf_SP _ (wf_cpu_reg _ Hwf)). unfold pull.
  destruct (__gb_read_byte gb (SP gb)) as (v & -> & Hv); [done|lia|]. exists (v, set_SP (u16 (SP gb + 1)) gb).
  split_and!; try done. wf_field.
Qed.

(** A word read from memory moves a register only. *)
Definition moved (gb gb' : gb_s) : Prop :=
  wf gb' /\ shown gb' = shown gb /\ lcd_mode gb' = lcd_mode gb /\ counter gb' = counter gb /\ gb_reg gb' = gb_reg gb.

Lemma moved_ran gb gb' : moved gb gb' -> ran gb gb'.
Proof. intros (Hwf & ? & ? & Hc & Hr). split; unfold beam; rewrite ?Hc, ?Hr; auto. Qed.

Lemma fetch16_yields gb : wf gb -> yields (fetch16 gb) (fun '(v, gb') => 0 <= v < 65536 /\ moved gb gb').
Proof.
  intros Hwf. unfold fetch16. eapply yields_bind; [by apply fetch_yields|]. intros [lo g1] (Hlo & -> & H1).
  eapply yields_bind; [by apply fetch_yields|]. intros [hi g2] (Hhi & -> & H2). apply yields_ret.
  split; [by apply pair_range|]. by split_and!.
Qed.

Lemma pull16_yields gb : wf gb -> yields (pull16 gb) (fun '(v, gb') => 0 <= v < 65536 /\ moved gb gb').
Proof.
  intros Hwf. unfold pull16. eapply yields_bind; [by apply pull_yields|]. intros [lo g1] (Hlo & -> & H1).
  eapply yields_bind; [by apply pull_yields|]. intros [hi g2] (Hhi & -> & H2). apply yields_ret.
  split; [by apply pair_range|]. by split_and!.
Qed.

Lemma push16_yields v gb : wf gb -> 0 <= v < 65536 -> yields (push16 v gb) (ran gb).
Proof.
  intros Hwf Hv. unfold push16, push. cbv zeta.
  pose proof (u16_range (SP gb - 1)) as Hr. assert (wf (set_SP (u16 (SP gb - 1)) gb)) by wf_field.
  eapply yields_bind; [apply write_yields; [done|done|unfold is_byte; zmod]|]. intros g1 [H1 Er]. cbn in Er.
  pose proof (u16_range (SP g1 - 1)). pose proof (wrote_wf _ _ _ H1). assert (wf (set_SP (u16 (SP g1 - 1)) g1)) by wf_field.
  eapply yields_mono; [apply write_yields; [done|done|unfold is_byte; zmod]|]. intros g2 [Hw2 _].
  apply (ran_from gb (set_SP (u16 (SP gb - 1)) gb)); [|done..].
  eapply wrote_wrote; [|eapply wrote_upd; [exact H1|done..]|exact Hw2]. cbn. rewrite Er. cbn. zwrap.
Qed.

Lemma load_yields o gb : wf gb -> yields (load o gb) (fun '(v, gb') => is_byte v /\ moved gb gb').
Proof.
  intros Hwf. destruct o as [r| |]; cbn [load].
  - apply yields_ret. split; [destruct Hwf as [[]]; by destruct r|]. by split_and!.
  - ranges Hwf. destruct (__gb_read_byte gb (HL gb)) as (v & -> & Hv); [done|lia|]. apply yields_ret. split; [done|]. by split_and!.
  - eapply yields_mono; [by apply fetch_yields|]. intros [v g] (? & -> & ?). split; [done|]. by split_and!.
Qed.

Lemma store_yields o v gb : wf gb -> is_byte v -> yields (store o v gb) (ran gb).
Proof.
  intros Hwf Hv. destruct o as [r| |]; cbn [store].
  - apply yields_ret. destruct r; after (ran_refl gb Hwf); wf_regs.
  - ranges Hwf. eapply yields_mono; [by apply write_yields|]. intros g [H3 _]. by eapply wrote_ran.
  - apply yields_ret. by apply ran_refl.
Qed.

Lemma moved_ran_trans gb gb1 gb2 : moved gb gb1 -> ran gb1 gb2 -> ran gb gb2.
Proof. intros (? & ? & ? & ? & ?) Hran. by eapply ran_from. Qed.

Lemma put16_wf r v gb : wf gb -> 0 <= v < 65536 -> wf (put16 r v gb).
Proof. intros Hwf Hv. destruct r; wf_regs. Qed.

Lemma get16_range r gb : wf gb -> 0 <= get16 r gb < 65536.
Proof.
  intros Hwf. ranges Hwf. destruct r; cbn [get16]; try done. apply pair_range; [done|]. by apply flag_byte_range.
Qed.

Lemma exec_alu_wf op v gb : wf gb -> is_byte v -> wf (exec_alu op v gb).
Proof.
  intros Hwf Hv. pose proof Hwf as [[] _ _ _ _ _ _ _ _ _ _].
  assert (forall z, is_byte (z mod 256)) by (intros z; apply (byte_u8 z)).
  destruct op; unfold exec_alu, add8, cp8; wf_regs.
Qed.

Lemma exec_daa_wf gb : wf gb -> wf (exec_daa gb).
Proof.
  intros Hwf. assert (forall z, is_byte (z mod 256)) by (intros z; apply (byte_u8 z)). unfold exec_daa. wf_regs.
Qed.

Lemma rotate_byte op v c : is_byte v -> 0 <= c < 2 -> is_byte (fst (rotate op v c)).
Proof. unfold is_byte. intros Hv Hc. destruct op; cbn [rotate fst]; zmod. Qed.

Lemma exec_cb_yields i gb : wf gb -> (exists op, i = decode_cb op /\ is_byte op) -> yields (exec_cb i gb) (ran gb).
Proof.
  intros Hwf (op & -> & Hop). assert (0 <= op / 8 mod 8 < 8) as Hy by zmod. unfold decode_cb.
  generalize dependent (op / 8 mod 8). intros y Hy. generalize (operand_of (op mod 8)). intros o.
  destruct (op / 64) as [|[p|[p|p|]|]|p]; cbn [exec_cb];
    (eapply yields_bind; [by apply load_yields|]; intros [v g] [Hv Hm]; pose proof Hm as [Hg _]).
  all: pose proof (wf_fC _ (wf_cpu_reg _ Hg)); pose proof (rotate_byte (rot_of y) v (fC g) Hv ltac:(lia)).
  all: try (destruct (cb_bits y v Hy Hv) as (_ & Hb2 & Hb3);
    eapply yields_mono; [apply store_yields; [done|rewrite <- ?Hb2, <- ?Hb3; apply byte_u8]|intros; by eapply moved_ran_trans]).
  - destruct (rotate _ _ _) as [r c]. eapply yields_mono; [apply store_yields; [wf_regs|done]|].
    intros g' H1. eapply moved_ran_trans; [exact Hm|]. by eapply ran_from; [exact H1|..].
  - apply yields_ret. after (moved_ran _ _ Hm). wf_regs.
Qed.

(** The target of a restart is an address. *)
Definition valid (i : instr) : Prop := match i with RST t => 0 <= t < 65536 | _ => True end.

Lemma decode_valid k : is_byte k -> valid (decode k).
Proof.
  unfold is_byte, decode. intros Hk. cbv zeta. assert (0 <= k / 8 mod 8 < 8) as Hy by zmod.
  generalize dependent (k / 8 mod 8). generalize (k mod 8). intros z y Hy.
  destruct (k / 64) as [|[p|[p|p|]|]|p]; unfold decode0, decode3; repeat case_match; cbn [valid]; auto with lia.
Qed.

(** An instruction takes from 4 to 24 cycles, an undefined opcode none.  The
    divider may be told of eight more. *)
Definition done_in (i : instr) (gb : gb_s) (r : gb_s * Z) : Prop :=
  (exists d, div_count gb <= d <= div_count gb + 8 /\ ran (set_div_count d gb) r.1) /\
  (r.2 = 0 /\ i = UNDEF \/ 4 <= r.2 <= 24).

Lemma done_ran i gb gb' c : ran gb gb' -> 4 <= c <= 24 -> done_in i gb (gb', c).
Proof. intros Hr Hc. split; [|by right]. exists (div_count gb). split; [lia|exact Hr]. Qed.

Ltac simple_instr := apply yields_ret, done_ran; [|lia].

Lemma access_range o : 0 <= access o <= 4.
Proof. destruct o; cbn; lia. Qed.

Lemma incdec_yields o gb (r h n : Z -> Z) :
  wf gb -> (forall v, is_byte (r v)) -> (forall v, 0 <= h v < 2 /\ 0 <= n v < 2) ->
  yields ('(v, gb) ← load o gb; store o (r v) (set_fH (h v) (set_fN (n v) (set_fZ (Z.b2z (r v =? 0)) gb)))) (ran gb).
Proof.
  intros Hwf Hr Hh. eapply yields_bind; [by apply load_yields|]. intros [v g] [Hv Hm]. pose proof Hm as [Hg _].
  destruct (Hh v). eapply yields_mono; [apply store_yields; [wf_regs|done]|]. intros g' H1. eapply moved_ran_trans; [exact Hm|].
  by eapply ran_from; [exact H1|..].
Qed.

Lemma bind_assoc {A B C} (r : option A) (f : A -> option B) (g : B -> option C) :
  ((r ≫= f) ≫= g) = (r ≫= fun x => f x ≫= g).
Proof. by destruct r. Qed.

Lemma write_then gb a v c :
  wf gb -> 0 <= a < 65536 -> is_byte v -> 4 <= c <= 24 ->
  forall i gb0 upd, (forall g, wf g -> moved g (upd g)) -> moved gb0 gb ->
  yields (g ← __gb_write gb a v; Some (upd g, c)) (done_in i gb0).
Proof.
  intros Hwf Ha Hv Hc i gb0 upd Hu Hm. eapply yields_bind; [by apply write_yields|]. intros g [Hw _]. simple_instr.
  eapply moved_ran_trans; [exact Hm|]. pose proof (Hu g (wrote_wf _ _ _ Hw)) as (? & ? & ? & ? & ?).
  eapply ran_upd; [by eapply wrote_ran|done..].
Qed.

Lemma moved_refl gb : wf gb -> moved gb gb.
Proof. intros. by split_and!. Qed.

Lemma jump_yields gb (r : option (Z * gb_s)) c (upd : gb_s -> gb_s) i :
  wf gb -> yields r (fun '(v, gb') => 0 <= v < 65536 /\ moved gb gb') -> 4 <= c <= 24 ->
  (forall g, wf g -> moved g (upd g)) ->
  yields ('(m, gb) ← r; Some (upd (set_PC m gb), c)) (done_in i gb).
Proof.
  intros Hwf Hr Hc Hu. eapply yields_bind; [exact Hr|]. intros [m g] [Hm Hmv]. simple_instr.
  pose proof Hmv as [Hg _]. assert (wf (set_PC m g)) as Hw by wf_field. destruct (Hu _ Hw) as (? & ? & ? & ? & ?).
  eapply ran_upd; [apply moved_ran; exact Hmv|done..].
Qed.

Lemma call_yields gb v m c i :
  wf gb -> 0 <= v < 65536 -> 0 <= m < 65536 -> 4 <= c <= 24 ->
  yields (gb ← push16 v gb; Some (set_PC m gb, c)) (done_in i gb).
Proof.
  intros Hwf Hv Hm Hc. eapply yields_bind; [by apply push16_yields|]. intros g Hr. simple_instr.
  pose proof (ran_wf _ _ Hr). after Hr. wf_field.
Qed.

Lemma done_from i gb gb1 r : moved gb gb1 -> done_in i gb1 r -> done_in i gb r.
Proof.
  intros (? & ? & ? & Hc & ?) [(d & Hd & Hran) Hcyc]. split; [|done]. exists d. rewrite Hc in Hd. split; [done|].
  eapply ran_from; [exact Hran|done|done| |done]. cbn. by rewrite Hc.
Qed.

(** The instructions that touch neither memory nor the stack. *)
Lemma set_yields gb gb' c i :
  wf gb -> wf gb' -> shown gb' = shown gb -> lcd_mode gb' = lcd_mode gb -> counter gb' = counter gb ->
  gb_reg gb' = gb_reg gb -> 4 <= c <= 24 -> yields (Some (gb', c)) (done_in i gb).
Proof. intros. simple_instr. by eapply ran_upd; [by apply ran_refl|..]. Qed.

Ltac set_instr := apply set_yields; [done| |done|done|done|done|lia].

Lemma fetch_moved gb : wf gb -> yields (fetch gb) (fun '(v, gb') => is_byte v /\ moved gb gb').
Proof. apply (load_yields Imm). Qed.

Lemma read_yields gb a : wf gb -> 0 <= a < 65536 -> yields (__gb_read gb a) is_byte.
Proof. apply __gb_read_byte. Qed.

(** A value is read, then registers are set. *)
Ltac operand_step L :=
  eapply yields_bind; [by apply L|];
  let v := fresh "v" in let g := fresh "g" in let Hv := fresh "Hv" in let Hm := fresh "Hm" in
  intros [v g] [Hv Hm]; pose proof Hm as [?Hg _].
Ltac finish :=
  match goal with Hm : moved _ _ |- _ => simple_instr; [after (moved_ran _ _ Hm)] end.

Section Instructions.
Context (gb : gb_s) (Hwf : wf gb).
Notation runs i := (yields (exec i gb) (done_in i gb)).

Lemma run_ld8 d s : runs (LD8 d s).
Proof.
  cbn [exec]. operand_step load_yields. eapply yields_bind; [by apply store_yields|]. intros g' Hr.
  pose proof (access_range d). pose proof (access_range s). simple_instr. by eapply moved_ran_trans.
Qed.

Lemma run_ld16 r : runs (LD16 r).
Proof. cbn [exec]. operand_step fetch16_yields. destruct r; finish; by apply put16_wf. Qed.

Lemma run_ld_abs_sp : runs LD_abs_SP.
Proof.
  cbn [exec]. operand_step fetch16_yields. pose proof (wf_SP _ (wf_cpu_reg _ Hg)).
  eapply yields_bind; [apply write_yields; [done|done|unfold is_byte; zmod]|]. intros g1 [H1 Er]. rewrite Er.
  eapply yields_bind; [apply write_yields; [by destruct H1|zmod|unfold is_byte; zmod]|]. intros g2 [H2 _].
  simple_instr. eapply moved_ran_trans; [exact Hm|]. eapply wrote_wrote; [|exact H1|exact H2]. zmod.
Qed.

Lemma indirect_range m g : wf g -> 0 <= indirect_addr m g < 65536.
Proof. intros H. ranges H. by destruct m. Qed.

Lemma indirect_moved m g : wf g -> moved g (indirect_step m g).
Proof. intros H. destruct m; cbn [indirect_step]; try by apply moved_refl. all: split_and!; try done; wf_regs. Qed.

Lemma run_ld_ind m : runs (LD_ind_A m) /\ runs (LD_A_ind m).
Proof.
  pose proof (indirect_range m gb Hwf). cbn [exec]. split.
  - apply (write_then gb); [done|done|by destruct Hwf as [[]]|lia| |by apply moved_refl]. intros. by apply indirect_moved.
  - eapply yields_bind; [by apply read_yields|]. intros v Hv. destruct (indirect_moved m gb Hwf) as (? & ? & ? & ? & ?).
    apply set_yields; [done| |done|done|done|done|lia]. wf_field.
Qed.

Lemma run_io : runs LDH_imm_A /\ runs LDH_A_imm /\ runs LDH_C_A /\ runs LDH_A_C.
Proof.
  pose proof (wf_rC _ (wf_cpu_reg _ Hwf)) as Hc. pose proof (wf_rA _ (wf_cpu_reg _ Hwf)). unfold is_byte in Hc. cbn [exec]. split_and!.
  - operand_step fetch_moved. unfold is_byte in Hv.
    apply (write_then g _ _ 12); [done|lia|by destruct Hg as [[]]|lia| |done]. intros. by apply moved_refl.
  - operand_step fetch_moved. eapply yields_bind; [apply read_yields; [done|unfold is_byte in Hv; lia]|]. intros w Hw. finish. wf_field.
  - apply (write_then gb _ _ 8); [done|lia|done|lia| |by apply moved_refl]. intros. by apply moved_refl.
  - eapply yields_bind; [apply read_yields; [done|lia]|]. intros v Hv. set_instr. wf_field.
Qed.

Lemma run_abs : runs LD_abs_A /\ runs LD_A_abs.
Proof.
  cbn [exec]. split; operand_step fetch16_yields.
  - apply (write_then g _ _ 16); [done|lia|by destruct Hg as [[]]|lia| |done]. intros. by apply moved_refl.
  - eapply yields_bind; [by apply read_yields|]. intros w Hw. finish. wf_field.
Qed.

Lemma run_offset : runs LD_HL_SP /\ runs ADD_SP.
Proof. cbn [exec]. unfold offset_flags. split; operand_step fetch_moved; finish; wf_regs. Qed.

Lemma run_incdec o : runs (INC8 o) /\ runs (DEC8 o).
Proof.
  pose proof (access_range o). assert (forall z, is_byte (z mod 256)) by (intros z; apply (byte_u8 z)).
  cbn [exec]. split; operand_step load_yields.
  all: eapply yields_bind; [apply store_yields; [wf_regs|done]|]; intros g' Hr; simple_instr.
  all: eapply moved_ran_trans; [exact Hm|]; by eapply ran_from; [exact Hr|..].
Qed.

Lemma run_alu op o : runs (ALU op o).
Proof.
  cbn [exec]. pose proof (access_range o). operand_step load_yields. pose proof (exec_alu_wf op v g Hg Hv). destruct op; finish; done.
Qed.

Lemma run_rot op : runs (ROT_A op).
Proof.
  cbn [exec]. pose proof Hwf as [[] _ _ _ _ _ _ _ _ _ _]. pose proof (rotate_byte op (rA gb) (fC gb) ltac:(done) ltac:(lia)).
  destruct (rotate _ _ _). set_instr. wf_regs.
Qed.

Lemma run_jump c : runs (JR c) /\ runs (JP c) /\ runs (RET c) /\ runs RETI.
Proof.
  pose proof (u16_range (PC gb + 1)). pose proof (u16_range (PC gb + 2)). cbn [exec]. split_and!.
  - case_match; [|set_instr; wf_field]. operand_step fetch_moved. finish. wf_field.
  - case_match; [|set_instr; wf_field]. operand_step fetch16_yields. finish. wf_field.
  - destruct c; [case_match; [|set_instr; done]|]; operand_step pull16_yields; finish; wf_field.
  - operand_step pull16_yields. finish. wf_field.
Qed.

Lemma run_stack c r t : 0 <= t < 65536 -> runs (CALL c) /\ runs (RST t) /\ runs (PUSH r) /\ runs (POP r).
Proof.
  intros Ht. pose proof (u16_range (PC gb + 2)). pose proof (wf_PC _ (wf_cpu_reg _ Hwf)). cbn [exec]. split_and!.
  - case_match; [|set_instr; wf_field]. operand_step fetch16_yields. pose proof (wf_PC _ (wf_cpu_reg _ Hg)).
    eapply yields_mono; [by apply call_yields|]. intros x Hx. by eapply done_from.
  - by apply call_yields.
  - eapply yields_bind; [apply push16_yields; [done|by apply get16_range]|]. intros g Hr. by simple_instr.
  - operand_step pull16_yields. destruct r; finish; by apply put16_wf.
Qed.

Lemma run_prefix : 0 <= div_count gb < 4294967288 -> runs PREFIX.
Proof.
  intros Hd. cbn [exec]. operand_step fetch_moved.
  assert (wf (cb_clock (decode_cb v) g)) by (unfold cb_clock; case_match; [done|wf_field|done]).
  eapply yields_bind; [apply exec_cb_yields; [done|by exists v]|]. intros g' Hr. apply yields_ret.
  destruct Hm as (_ & Hf & Hmo & Hc & Hreg). split; [|by right].
  exists (div_count (cb_clock (decode_cb v) g)). split.
  - unfold cb_clock. case_match; cbn; rewrite ?Hc, ?u32_small; lia.
  - unfold cb_clock in *. case_match; eapply ran_from; try exact Hr; cbn; rewrite ?Hc; done.
Qed.

Lemma run_undef : runs UNDEF.
Proof. cbn [exec]. apply yields_ret. split; [|by left]. exists (div_count gb). split; [lia|by apply ran_refl]. Qed.

Lemma run_set16 r : runs (INC16 r) /\ runs (DEC16 r).
Proof. cbn [exec]. split; destruct r; set_instr; wf_regs. Qed.

End Instructions.

(** Every instruction succeeds, and takes at most 24 cycles. *)
Lemma exec_yields i gb :
  wf gb -> valid i -> 0 <= div_count gb < 4294967288 -> yields (exec i gb) (done_in i gb).
Proof.
  intros Hwf Hv Hd. pose proof Hwf as [[] _ _ _ _ _ _ _ _ _ _]. pose proof (pair_range (rH gb) (rL gb) ltac:(done) ltac:(done)).
  assert (is_byte (255 - rA gb)) by (unfold is_byte in *; lia).
  destruct i; lazymatch goal with
  | |- yields (exec (LD8 _ _) _) _ => by apply run_ld8
  | |- yields (exec (LD16 _) _) _ => by apply run_ld16
  | |- yields (exec LD_abs_SP _) _ => by apply run_ld_abs_sp
  | |- yields (exec (LD_ind_A ?m) _) _ => exact (proj1 (run_ld_ind gb Hwf m))
  | |- yields (exec (LD_A_ind ?m) _) _ => exact (proj2 (run_ld_ind gb Hwf m))
  | |- yields (exec LDH_imm_A _) _ => apply (run_io gb Hwf)
  | |- yields (exec LDH_A_imm _) _ => apply (run_io gb Hwf)
  | |- yields (exec LDH_C_A _) _ => apply (run_io gb Hwf)
  | |- yields (exec LDH_A_C _) _ => apply (run_io gb Hwf)
  | |- yields (exec LD_abs_A _) _ => exact (proj1 (run_abs gb Hwf))
  | |- yields (exec LD_A_abs _) _ => exact (proj2 (run_abs gb Hwf))
  | |- yields (exec LD_HL_SP _) _ => exact (proj1 (run_offset gb Hwf))
  | |- yields (exec ADD_SP _) _ => exact (proj2 (run_offset gb Hwf))
  | |- yields (exec (INC8 ?o) _) _ => exact (proj1 (run_incdec gb Hwf o))
  | |- yields (exec (DEC8 ?o) _) _ => exact (proj2 (run_incdec gb Hwf o))
  | |- yields (exec (ALU _ _) _) _ => by apply run_alu
  | |- yields (exec (ROT_A _) _) _ => by apply run_rot
  | |- yields (exec (JR ?c) _) _ => apply (run_jump gb Hwf c)
  | |- yields (exec (JP ?c) _) _ => apply (run_jump gb Hwf c)
  | |- yields (exec (RET ?c) _) _ => apply (run_jump gb Hwf c)
  | |- yields (exec RETI _) _ => apply (run_jump gb Hwf None)
  | |- yields (exec (CALL ?c) _) _ => by apply (run_stack gb Hwf c RBC 0)
  | |- yields (exec (RST ?t) _) _ => by apply (run_stack gb Hwf None RBC t)
  | |- yields (exec (PUSH ?r) _) _ => by apply (run_stack gb Hwf None r 0)
  | |- yields (exec (POP ?r) _) _ => by apply (run_stack gb Hwf None r 0)
  | |- yields (exec PREFIX _) _ => by apply run_prefix
  | |- yields (exec UNDEF _) _ => by apply run_undef
  | |- yields (exec (INC16 ?r) _) _ => apply (run_set16 gb Hwf r)
  | |- yields (exec (DEC16 ?r) _) _ => apply (run_set16 gb Hwf r)
  | |- _ => cbn [exec]; set_instr; first [done | by apply exec_daa_wf | by wf_regs]
  end.
Qed.
