(* ===== verification/GbVideo.v ===== *)
(** * Game Boy: the picture (src/src/gameboy/cpu.c, video.c)

    [__gb_draw_line] builds one line of 160 pixels from the tiles and sprites in
    video memory, from right to left, a tile row kept in two bytes that are shifted
    along; [video_drawline] stores it, [video_render] scales the 144 lines to the
    screen.  The theorems compare the loops with the pixel that the maps and tables
    define at each position.  [None] is an access outside an array. *)
From S2P Require Import Prelude GbState GbMemory GbCpu GbRun.

Local Open Scope Z_scope.

Definition LCD_WIDTH : Z := 160.
Definition LCD_HEIGHT : Z := 144.
Definition LCD_PALETTE_BG : Z := 0x20.
Definition LCD_PALETTE_ALL : Z := 0x30.
Definition LCDC_WINDOW_MAP : Z := 0x40.
Definition LCDC_WINDOW_ENABLE : Z := 0x20.
Definition LCDC_TILE_SELECT : Z := 0x10.
Definition LCDC_BG_MAP : Z := 0x08.
Definition LCDC_OBJ_SIZE : Z := 0x04.
Definition LCDC_OBJ_ENABLE : Z := 0x02.
Definition LCDC_BG_ENABLE : Z := 0x01.
Definition VRAM_TILES_1 : Z := 0x0000.
Definition VRAM_TILES_2 : Z := 0x0800.
Definition VRAM_BMAP_1 : Z := 0x1800.
Definition VRAM_BMAP_2 : Z := 0x1C00.
Definition NUM_SPRITES : Z := 0x28.
Definition OBJ_PRIORITY : Z := 0x80.
Definition OBJ_FLIP_Y : Z := 0x40.
Definition OBJ_FLIP_X : Z := 0x20.
Definition OBJ_PALETTE : Z := 0x10.

(** ** Background and window *)

(** The address of row [py] of tile [idx]. *)
Definition tile_row (gb : gb_s) (idx py : Z) : Z :=
  let tile :=
    if nz (Z.land (LCDC gb) LCDC_TILE_SELECT) then u16 (VRAM_TILES_1 + idx * 0x10)
    else u16 (VRAM_TILES_2 + (idx + 0x80) mod 0x100 * 0x10) in
  u16 (tile + 2 * py).

(** The two bytes of the row of the tile that the map at [map] has for column [x]. *)
Definition tile_bytes (gb : gb_s) (map py x : Z) : option (Z * Z) :=
  idx ← rd (vram gb) (map + Z.shiftr x 3);
  let tile := tile_row gb idx py in
  t1 ← rd (vram gb) tile;
  t2 ← rd (vram gb) (tile + 1);
  Some (t1, t2).

(** The loop over [disp_x], from [disp_x] down to after [last]; [off] is what the
    code adds to [disp_x] for the column in the map. *)
Fixpoint tile_loop (fuel : nat) (gb : gb_s) (map off py last disp_x px t1 t2 : Z) (pixels : list Z) : option (list Z) :=
  match fuel with
  | O => None
  | S fuel =>
      if disp_x =? last then Some pixels
      else
        '(px, t1, t2) ←
          (if px =? 8 then
             '(t1, t2) ← tile_bytes gb map py (u8 (disp_x + off)); Some (0, t1, t2)
           else Some (px, t1, t2));
        let c := Z.lor (Z.land t1 0x1) (Z.shiftl (Z.land t2 0x1) 1) in
        shade ← rd (bg_palette gb) c;
        pixels ← wr pixels disp_x shade;
        pixels ← wr pixels disp_x (Z.lor shade LCD_PALETTE_BG);
        tile_loop fuel gb map off py last (u8 (disp_x - 1)) (u8 (px + 1)) (Z.shiftr t1 1) (Z.shiftr t2 1) pixels
  end.

Definition draw_background (gb : gb_s) (pixels : list Z) : option (list Z) :=
  if nz (Z.land (LCDC gb) LCDC_BG_ENABLE) then
    let bg_y := u8 (LY gb + SCY gb) in
    let bg_map := u16 ((if nz (Z.land (LCDC gb) LCDC_BG_MAP) then VRAM_BMAP_2 else VRAM_BMAP_1) + Z.shiftr bg_y 3 * 0x20) in
    let disp_x := LCD_WIDTH - 1 in
    let bg_x := u8 (disp_x + SCX gb) in
    let py := Z.land bg_y 0x07 in
    let px := 7 - Z.land bg_x 0x07 in
    '(t1, t2) ← tile_bytes gb bg_map py bg_x;
    tile_loop 256 gb bg_map (SCX gb) py 0xFF disp_x px (Z.shiftr t1 px) (Z.shiftr t2 px) pixels
  else Some pixels.

Definition window_visible (gb : gb_s) : bool :=
  nz (Z.land (LCDC gb) LCDC_WINDOW_ENABLE) && (dWY gb <=? LY gb) && (WX gb <=? 166).

(** The tile index of the rightmost column is read before [win_line] moves to the
    row of the line. *)
Definition draw_window (gb : gb_s) (pixels : list Z) : option (gb_s * list Z) :=
  if window_visible gb then
    let win_line := if nz (Z.land (LCDC gb) LCDC_WINDOW_MAP) then VRAM_BMAP_2 else VRAM_BMAP_1 in
    let disp_x := LCD_WIDTH - 1 in
    let win_x := u8 (disp_x - WX gb + 7) in
    let py := Z.land (window_clear gb) 0x07 in
    let px := 7 - Z.land win_x 0x07 in
    '(t1, t2) ← tile_bytes gb win_line py win_x;
    let win_line := u16 (win_line + Z.shiftr (window_clear gb) 3 * 0x20) in
    let last := u8 ((if WX gb <? 7 then 0 else WX gb - 7) - 1) in
    pixels ← tile_loop 256 gb win_line (7 - WX gb) py last disp_x px (Z.shiftr t1 px) (Z.shiftr t2 px) pixels;
    Some (set_window_clear (u8 (window_clear gb + 1)) gb, pixels)
  else Some (gb, pixels).

(** ** Sprites *)

(** The columns of one sprite, from [disp_x] in steps of [dir] up to [last]. *)
Fixpoint obj_loop (fuel : nat) (gb : gb_s) (OF dir last disp_x t1 t2 : Z) (pixels : list Z) : option (list Z) :=
  match fuel with
  | O => None
  | S fuel =>
      if disp_x =? last then Some pixels
      else
        let c := Z.lor (Z.land t1 0x1) (Z.shiftl (Z.land t2 0x1) 1) in
        p ← rd pixels disp_x;
        pixels ←
          (if nz c && negb (nz (Z.land OF OBJ_PRIORITY) && nz (Z.land p 0x3)) then
             v ← rd (sp_palette gb) (if nz (Z.land OF OBJ_PALETTE) then c + 4 else c);
             wr pixels disp_x (Z.land (Z.lor v (Z.land OF OBJ_PALETTE)) (u8 (Z.lnot LCD_PALETTE_BG)))
           else Some pixels);
        obj_loop fuel gb OF dir last (u8 (disp_x + dir)) (Z.shiftr t1 1) (Z.shiftr t2 1) pixels
  end.

Definition tall (gb : gb_s) : bool := nz (Z.land (LCDC gb) LCDC_OBJ_SIZE).

Definition draw_sprite (gb : gb_s) (s : Z) (pixels : list Z) : option (list Z) :=
  OY ← rd (oam gb) (4 * s + 0);
  OX ← rd (oam gb) (4 * s + 1);
  OT ← rd (oam gb) (4 * s + 2);
  let OT := Z.land OT (if tall gb then 0xFE else 0xFF) in
  OF ← rd (oam gb) (4 * s + 3);
  if (OY <=? LY gb + (if tall gb then 0 else 8)) || (LY gb + 16 <? OY) then Some pixels
  else if (OX =? 0) || (168 <=? OX) then Some pixels
  else
    let py := u8 (LY gb - OY + 16) in
    let py := if nz (Z.land OF OBJ_FLIP_Y) then u8 ((if tall gb then 15 else 7) - py) else py in
    t1 ← rd (vram gb) (VRAM_TILES_1 + OT * 0x10 + 2 * py);
    t2 ← rd (vram gb) (VRAM_TILES_1 + OT * 0x10 + 2 * py + 1);
    let '(dir, start, last, shift) :=
      if nz (Z.land OF OBJ_FLIP_X) then
        let start := if OX <? 8 then 0 else OX - 8 in
        (1, start, Z.min OX LCD_WIDTH, u8 (8 - OX + start))
      else
        let start := u8 (Z.min OX LCD_WIDTH - 1) in
        (u8 (-1), start, u8 ((if OX <? 8 then 0 else OX - 8) - 1), u8 (OX - (start + 1))) in
    obj_loop 256 gb OF dir last start (Z.shiftr t1 shift) (Z.shiftr t2 shift) pixels.

(** Sprites [n - 1] down to 0. *)
Fixpoint sprite_loop (n : nat) (gb : gb_s) (pixels : list Z) : option (list Z) :=
  match n with
  | O => Some pixels
  | S n => pixels ← draw_sprite gb (Z.of_nat n) pixels; sprite_loop n gb pixels
  end.

Definition draw_sprites (gb : gb_s) (pixels : list Z) : option (list Z) :=
  if nz (Z.land (LCDC gb) LCDC_OBJ_ENABLE) then sprite_loop (Z.to_nat NUM_SPRITES) gb pixels else Some pixels.

(** ** A line *)

(** [video.c]: the picture is an array of lines. *)
Definition video_drawline (pixels : list Z) (line : Z) (gb : gb_s) : option gb_s :=
  if decide (0 <= line < Z.of_nat (length (fb gb)) /\ length pixels = Z.to_nat LCD_WIDTH) then
    Some (set_fb (<[Z.to_nat line := pixels]> (fb gb)) gb)
  else None.

(** With [frame_skip] and [interlace] some lines are left out. *)
Definition interlaced (gb : gb_s) : bool :=
  nz (interlace gb) &&
  (((interlace_count gb =? 0) && (Z.land (LY gb) 1 =? 0)) || ((interlace_count gb =? 1) && (Z.land (LY gb) 1 =? 1))).

Definition __gb_draw_line (gb : gb_s) : option gb_s :=
  let pixels := replicate (Z.to_nat LCD_WIDTH) 0 in
  if nz (frame_skip gb) && (frame_skip_count gb =? 0) then Some gb
  else if interlaced gb then
    Some (if window_visible gb then set_window_clear (u8 (window_clear gb + 1)) gb else gb)
  else
    pixels ← draw_background gb pixels;
    '(gb, pixels) ← draw_window gb pixels;
    pixels ← draw_sprites gb pixels;
    video_drawline pixels (LY gb) gb.

(** ** The pixel that a map defines *)

Definition colour (t1 t2 bit : Z) : Z := Z.b2z (Z.testbit t1 bit) + 2 * Z.b2z (Z.testbit t2 bit).

Definition map_pixel (gb : gb_s) (map py x : Z) : option Z :=
  '(t1, t2) ← tile_bytes gb map py x;
  shade ← rd (bg_palette gb) (colour t1 t2 (7 - x mod 8));
  Some (shade + LCD_PALETTE_BG).

Lemma rd_wr l i v l' j : wr l i v = Some l' -> rd l' j = if decide (j = i) then Some v else rd l j.
Proof.
  unfold wr. case_decide as Hi; [|done]. intros [= <-]. case_decide as Hj.
  - subst j. unfold rd. rewrite decide_True by lia. apply list_lookup_insert_eq. lia.
  - unfold rd. case_decide; [|done]. apply list_lookup_insert_ne. lia.
Qed.

Lemma low_bit t k : 0 <= k -> Z.land (Z.shiftr t k) 1 = Z.b2z (Z.testbit t k).
Proof.
  intros Hk. change 1 with (Z.ones 1). rewrite Z.land_ones by lia. rewrite <- (Z.add_0_l k) at 2. rewrite <- Z.shiftr_spec by lia.
  rewrite Z.bit0_odd. change (2 ^ 1) with 2. rewrite Zmod_odd. by destruct (Z.odd _).
Qed.

Lemma colour_bits t1 t2 k :
  0 <= k -> Z.lor (Z.land (Z.shiftr t1 k) 1) (Z.shiftl (Z.land (Z.shiftr t2 k) 1) 1) = colour t1 t2 k.
Proof. intros Hk. rewrite !low_bit by done. unfold colour. by destruct (Z.testbit t1 k), (Z.testbit t2 k). Qed.

Lemma colour_range t1 t2 k : 0 <= colour t1 t2 k < 4.
Proof. unfold colour. destruct (Z.testbit t1 k), (Z.testbit t2 k); cbn; lia. Qed.

Lemma shade_bg s : 0 <= s < 4 -> Z.lor s LCD_PALETTE_BG = s + LCD_PALETTE_BG.
Proof. intros Hs. assert (s = 0 \/ s = 1 \/ s = 2 \/ s = 3) as Hc by lia. by repeat destruct Hc as [Hc|Hc]; subst s. Qed.

Section Tiles.
Context (gb : gb_s) (Hwf : wf gb) (py : Z) (Hpy : 0 <= py < 8).

(** The rows of a map start between 0x1800 and 0x1FE0. *)
Definition map_row (map : Z) : Prop := 0x1800 <= map <= 0x1FE0.

Lemma tile_row_range idx : is_byte idx -> 0 <= tile_row gb idx py < 8191.
Proof.
  unfold is_byte, tile_row, VRAM_TILES_1, VRAM_TILES_2. intros Hi. case_match; zwrap.
Qed.

Lemma tile_bytes_yields map x :
  map_row map -> 0 <= x < 256 -> exists t1 t2, tile_bytes gb map py x = Some (t1, t2) /\ is_byte t1 /\ is_byte t2.
Proof.
  intros Hm Hx. unfold map_row in Hm. unfold tile_bytes. rewrite Z.shiftr_div_pow2 by lia. change (2 ^ 3) with 8.
  destruct (bytes_rd _ _ (map + x / 8) (wf_vram _ Hwf)) as (idx & -> & Hi); [zmod|]. cbn [mbind option_bind].
  pose proof (tile_row_range idx Hi).
  destruct (bytes_rd _ _ (tile_row gb idx py) (wf_vram _ Hwf)) as (t1 & -> & H1); [lia|]. cbn [mbind option_bind].
  destruct (bytes_rd _ _ (tile_row gb idx py + 1) (wf_vram _ Hwf)) as (t2 & -> & H2); [lia|]. by exists t1, t2.
Qed.

Lemma tile_bytes_block map x x' : x / 8 = x' / 8 -> tile_bytes gb map py x = tile_bytes gb map py x'.
Proof. intros H. unfold tile_bytes. rewrite !Z.shiftr_div_pow2 by lia. change (2 ^ 3) with 8. by rewrite H. Qed.

Lemma palette_shade c : 0 <= c < 4 -> exists s, rd (bg_palette gb) c = Some s /\ 0 <= s < 4.
Proof. intros Hc. destruct (wf_displ _ Hwf) as [[Hl Hs] _ _ _]. apply Forall_rd; [done|lia]. Qed.

Context (map off : Z) (Hmap : map_row map).
Notation X d := (u8 (d + off)).

(** Where the loop stands before column [d]: the two bytes are those of the tile
    that the map at [r0] has there, shifted to the column, or used up. *)
Definition at_column (r0 d px t1 t2 : Z) : Prop :=
  px = 8 /\ X d mod 8 = 7 \/
  px = 7 - X d mod 8 /\ exists T1 T2, tile_bytes gb r0 py (X d) = Some (T1, T2) /\ t1 = Z.shiftr T1 px /\ t2 = Z.shiftr T2 px.

(** The map that [row] assigns to the columns up to [d]: [r0] for those of the
    tile in use, [map] for the others. *)
Definition rows (row : Z -> Z) (r0 d px : Z) : Prop :=
  forall j, j <= d -> row j = if (px <? 8) && (d - X d mod 8 <=? j) then r0 else map.

Lemma column_step r0 d px t1 t2 :
  at_column r0 d px t1 t2 -> px <> 8 -> at_column r0 (d - 1) (u8 (px + 1)) (Z.shiftr t1 1) (Z.shiftr t2 1).
Proof.
  intros [[-> _]|(-> & T1 & T2 & HT & -> & ->)] Hp; [done|]. pose proof (u8_range (d + off)) as Hx.
  assert (X (d - 1) = X d - 1 \/ X d = 0 /\ X (d - 1) = 255) as Hd by zwrap.
  assert (0 <= X d mod 8 < 8) as Hm by zmod. rewrite u8_small by lia.
  destruct (Z.eq_dec (X d mod 8) 0) as [E|E].
  - left. rewrite E. split; [done|]. destruct Hd as [->|[E0 ->]]; [|done]. zmod.
  - right. destruct Hd as [Hd|[E0 _]]; [|by rewrite E0 in E]. rewrite Hd. split; [zmod|]. exists T1, T2.
    rewrite <- HT, !Z.shiftr_shiftr by lia. split_and!; [apply tile_bytes_block; zmod| |]; f_equal; zmod.
Qed.

Lemma rows_step row r0 d px :
  rows row r0 d px -> px = 7 - X d mod 8 -> rows row r0 (d - 1) (u8 (px + 1)).
Proof.
  intros Hr -> j Hj. rewrite Hr by lia. pose proof (u8_range (d + off)) as Hx.
  assert (X (d - 1) = X d - 1 \/ X d = 0 /\ X (d - 1) = 255) as Hd by zwrap.
  assert (0 <= X d mod 8 < 8) as Hm by zmod. rewrite (u8_small (_ + 1)) by lia.
  destruct (Z.ltb_spec (7 - X d mod 8) 8); [|lia]. cbn [andb].
  destruct (Z.ltb_spec (7 - X d mod 8 + 1) 8); cbn [andb].
  - replace (d - 1 - X (d - 1) mod 8) with (d - X d mod 8); [done|]. destruct Hd as [->|[E0 _]]; [zmod|rewrite E0 in *; zmod].
  - destruct (Z.leb_spec (d - X d mod 8) j); [lia|done].
Qed.
(** The reload of a tile that is used up. *)
Lemma reload row r0 d px t1 t2 :
  at_column r0 d px t1 t2 -> rows row r0 d px -> map_row r0 ->
  exists r1 px' u1 u2 T1 T2,
    (if px =? 8 then '(t1, t2) ← tile_bytes gb map py (X d); Some (0, t1, t2) else Some (px, t1, t2)) = Some (px', u1, u2) /\
    map_row r1 /\ row d = r1 /\ px' = 7 - X d mod 8 /\ rows row r1 d px' /\
    tile_bytes gb r1 py (X d) = Some (T1, T2) /\ u1 = Z.shiftr T1 px' /\ u2 = Z.shiftr T2 px'.
Proof.
  intros Hat Hr Hr0. pose proof (u8_range (d + off)) as Hx. assert (0 <= X d mod 8 < 8) as Hm by zmod.
  destruct Hat as [[-> E7]|(-> & T1 & T2 & HT & -> & ->)].
  - destruct (tile_bytes_yields map (X d) Hmap Hx) as (T1 & T2 & HT & _). exists map, 0, T1, T2, T1, T2. rewrite HT, E7.
    split_and!; try done; [by rewrite Hr by lia|]. intros j Hj. rewrite Hr by done. change (8 <? 8) with false. cbn [andb]. by destruct (_ && _).
  - exists r0, (7 - X d mod 8), (Z.shiftr T1 (7 - X d mod 8)), (Z.shiftr T2 (7 - X d mod 8)), T1, T2.
    destruct (Z.eqb_spec (7 - X d mod 8) 8); [lia|]. split_and!; try done. rewrite Hr by lia.
    destruct (Z.ltb_spec (7 - X d mod 8) 8), (Z.leb_spec (d - X d mod 8) d); try lia. done.
Qed.

Lemma tile_loop_spec row : forall n fuel r0 d px t1 t2 ps,
  (n < fuel)%nat -> Z.of_nat n <= d + 1 -> d < 160 -> length ps = 160%nat ->
  map_row r0 -> at_column r0 d px t1 t2 -> rows row r0 d px ->
  exists ps', tile_loop fuel gb map off py (u8 (d - Z.of_nat n)) (u8 d) px t1 t2 ps = Some ps' /\ length ps' = 160%nat /\
    forall j, rd ps' j = if decide (d - Z.of_nat n < j <= d) then map_pixel gb (row j) py (X j) else rd ps j.
Proof.
  induction n as [|n IH]; intros fuel r0 d px t1 t2 ps Hf Hn Hd Hl Hr0 Hat Hr; (destruct fuel as [|fuel]; [lia|]); cbn [tile_loop].
  { rewrite Z.sub_0_r, Z.eqb_refl. exists ps. split_and!; [done|done|]. intros j. by rewrite decide_False by lia. }
  rewrite (u8_small d) by lia. destruct (Z.eqb_spec d (u8 (d - Z.of_nat (S n)))) as [E|_]; [exfalso; revert E; zwrap|].
  destruct (reload row r0 d px t1 t2 Hat Hr Hr0) as (r1 & px' & u1 & u2 & T1 & T2 & -> & Hr1 & Er & Ep & Hr' & HT & -> & ->).
  pose proof (u8_range (d + off)). assert (0 <= X d mod 8 < 8) by zmod. cbn [mbind option_bind].
  rewrite colour_bits by lia. destruct (palette_shade (colour T1 T2 px') (colour_range _ _ _)) as (s & Es & Hs). rewrite Es.
  cbn [mbind option_bind]. destruct (wr ps d s) as [ps1|] eqn:E1; [|rewrite wr_Some in E1; [done|lia]].
  cbn [mbind option_bind]. pose proof (wr_length _ _ _ _ E1) as Hl1.
  destruct (wr ps1 d (Z.lor s LCD_PALETTE_BG)) as [ps2|] eqn:E2; [|rewrite wr_Some in E2; [done|lia]].
  cbn [mbind option_bind]. pose proof (wr_length _ _ _ _ E2) as Hl2.
  destruct (IH fuel r1 (d - 1) (u8 (px' + 1)) (Z.shiftr (Z.shiftr T1 px') 1) (Z.shiftr (Z.shiftr T2 px') 1) ps2)
    as (ps' & E' & Hl' & Hps'); try lia; [done| |by apply rows_step|].
  { apply column_step; [|lia]. right. split; [done|]. by exists T1, T2. }
  replace (d - 1 - Z.of_nat n) with (d - Z.of_nat (S n)) in * by lia. exists ps'. split_and!; [done|done|].
  intros j. rewrite Hps', (rd_wr _ _ _ _ j E2), (rd_wr _ _ _ _ j E1). destruct (decide (j = d)) as [->|Hj].
  - rewrite decide_False, decide_True by lia. unfold map_pixel. rewrite Er, HT. cbn [mbind option_bind]. rewrite <- Ep, Es.
    cbn [mbind option_bind]. by rewrite shade_bg.
  - destruct (decide (d - Z.of_nat (S n) < j <= d - 1)); [by rewrite decide_True by lia|by rewrite decide_False by lia].
Qed.

End Tiles.

(** ** The background of a line *)

(** The row of the background map that line [LY] shows. *)
Definition bg_row (gb : gb_s) : Z :=
  (if nz (Z.land (LCDC gb) LCDC_BG_MAP) then VRAM_BMAP_2 else VRAM_BMAP_1) + (LY gb + SCY gb) mod 256 / 8 * 32.

Lemma bg_row_range gb : map_row (bg_row gb).
Proof. unfold map_row, bg_row, VRAM_BMAP_1, VRAM_BMAP_2. case_match; zmod. Qed.

Lemma land_7_mod x : Z.land x 0x07 = x mod 8.
Proof. exact (land_7 x). Qed.

Lemma draw_background_spec gb ps :
  wf gb -> length ps = 160%nat -> nz (Z.land (LCDC gb) LCDC_BG_ENABLE) = true ->
  exists ps', draw_background gb ps = Some ps' /\ length ps' = 160%nat /\
    forall x, 0 <= x < 160 -> rd ps' x = map_pixel gb (bg_row gb) ((LY gb + SCY gb) mod 8) ((x + SCX gb) mod 256).
Proof.
  intros Hwf Hl Hon. unfold draw_background. rewrite Hon. cbv zeta. pose proof (bg_row_range gb) as Hrow.
  assert (Z.land (u8 (LY gb + SCY gb)) 0x07 = (LY gb + SCY gb) mod 8) as -> by (rewrite land_7_mod; zwrap).
  replace (u16 ((if nz (Z.land (LCDC gb) LCDC_BG_MAP) then VRAM_BMAP_2 else VRAM_BMAP_1) + Z.shiftr (u8 (LY gb + SCY gb)) 3 * 0x20))
    with (bg_row gb).
  2:{ unfold map_row, bg_row in *. rewrite Z.shiftr_div_pow2 by lia. change (2 ^ 3) with 8. unfold u8. rewrite u16_small; [done|lia]. }
  assert (0 <= (LY gb + SCY gb) mod 8 < 8) as Hpy by zmod. pose proof (u8_range (159 + SCX gb)) as Hx. unfold LCD_WIDTH.
  change (160 - 1) with 159. rewrite land_7_mod.
  destruct (tile_bytes_yields gb Hwf _ Hpy (bg_row gb) _ Hrow Hx) as (T1 & T2 & HT & _). rewrite HT. cbn [mbind option_bind].
  destruct (tile_loop_spec gb Hwf _ Hpy (bg_row gb) (SCX gb) Hrow (fun _ => bg_row gb) 160 256 (bg_row gb) 159
    (7 - u8 (159 + SCX gb) mod 8) (Z.shiftr T1 (7 - u8 (159 + SCX gb) mod 8)) (Z.shiftr T2 (7 - u8 (159 + SCX gb) mod 8)) ps)
    as (ps' & E & Hl' & Hps); try done; try lia.
  { right. split; [done|]. by exists T1, T2. }
  { intros j _. by destruct (_ && _). }
  exists ps'. split_and!; [exact E|done|]. intros x Hx'. rewrite Hps, decide_True by lia. done.
Qed.

(** ** The window *)


(** The row that the code reads for column [x]: its index for the rightmost tile is
    read before the row is added, from the first row of the map. *)
Definition drawn_row (gb : gb_s) (x : Z) : Z :=
  (if nz (Z.land (LCDC gb) LCDC_WINDOW_MAP) then VRAM_BMAP_2 else VRAM_BMAP_1) +
  (if 159 - (166 - WX gb) mod 8 <=? x then 0 else window_clear gb / 8 * 32).

Lemma draw_window_spec gb ps :
  wf gb -> length ps = 160%nat -> window_visible gb = true ->
  exists ps', draw_window gb ps = Some (set_window_clear (u8 (window_clear gb + 1)) gb, ps') /\ length ps' = 160%nat /\
    forall x, 0 <= x < 160 -> rd ps' x =
      if WX gb - 7 <=? x then map_pixel gb (drawn_row gb x) (window_clear gb mod 8) (x - (WX gb - 7)) else rd ps x.
Proof.
  intros Hwf Hl Hv. unfold draw_window. rewrite Hv. cbv zeta.
  apply andb_true_iff in Hv as [_ Hwx%Z.leb_le]. pose proof (wf_WX _ (wf_gb_reg _ Hwf)) as Hwx0.
  pose proof (wf_window_clear _ (wf_displ _ Hwf)) as Hwc. unfold is_byte in Hwx0, Hwc.
  rewrite !land_7_mod, Z.shiftr_div_pow2 by lia. change (2 ^ 3) with 8. unfold LCD_WIDTH.
  change (160 - 1) with 159. change 0x20 with 32. pose proof (u8_range (159 + (7 - WX gb))) as Hx.
  replace (159 - WX gb + 7) with (159 + (7 - WX gb)) by lia.
  set (base := if nz (Z.land (LCDC gb) LCDC_WINDOW_MAP) then VRAM_BMAP_2 else VRAM_BMAP_1).
  set (row := base + window_clear gb / 8 * 32).
  assert (map_row base /\ map_row row) as [Hb Hr].
  { unfold row, base, map_row, VRAM_BMAP_1, VRAM_BMAP_2. split; case_match; zmod. }
  assert (0 <= window_clear gb mod 8 < 8) as Hpy by zmod.
  replace (u16 row) with row by (unfold map_row in Hr; rewrite u16_small; [done|lia]).
  destruct (tile_bytes_yields gb Hwf _ Hpy base _ Hb Hx) as (T1 & T2 & HT & _). rewrite HT. cbn [mbind option_bind].
  set (x0 := if WX gb <? 7 then 0 else WX gb - 7). assert (0 <= x0 <= 159 /\ (x0 = 0 /\ WX gb < 7 \/ x0 = WX gb - 7)) as Hx0.
  { unfold x0. destruct (Z.ltb_spec (WX gb) 7); lia. }
  destruct (tile_loop_spec gb Hwf _ Hpy row (7 - WX gb) Hr (drawn_row gb) (Z.to_nat (160 - x0)) 256 base 159
    (7 - u8 (159 + (7 - WX gb)) mod 8) (Z.shiftr T1 (7 - u8 (159 + (7 - WX gb)) mod 8)) (Z.shiftr T2 (7 - u8 (159 + (7 - WX gb)) mod 8)) ps)
    as (ps' & E & Hl' & Hps); try done; try lia.
  { right. split; [done|]. by exists T1, T2. }
  { intros j _. unfold drawn_row. fold base. rewrite (u8_small (159 + _)) by lia. replace (159 + (7 - WX gb)) with (166 - WX gb) by lia.
    destruct (Z.ltb_spec (7 - (166 - WX gb) mod 8) 8); [|zmod]. cbn [andb]. case_match; unfold row; lia. }
  replace (159 - Z.of_nat (Z.to_nat (160 - x0))) with (x0 - 1) in * by lia. change (u8 159) with 159 in E. rewrite E.
  cbn [mbind option_bind]. exists ps'. split_and!; [done|done|]. intros x Hx'. rewrite Hps.
  destruct (Z.leb_spec (WX gb - 7) x).
  - rewrite decide_True, u8_small by lia. f_equal. lia.
  - by rewrite decide_False by lia.
Qed.

(** From the ninth line of the window on, its last tile is not that of its row. *)
Lemma window_right_tile gb :
  8 <= window_clear gb -> drawn_row gb 159 < drawn_row gb 151.
Proof.
  intros Hw. unfold drawn_row. assert (0 <= (166 - WX gb) mod 8 < 8) by zmod.
  destruct (Z.leb_spec (159 - (166 - WX gb) mod 8) 159), (Z.leb_spec (159 - (166 - WX gb) mod 8) 151); try lia. zmod.
Qed.

(** ** Sprites *)

(** The pixel of a sprite with flags [OF] and colour [c] over the pixel [p]:
    colour 0 is transparent, and a sprite behind the background shows only where
    that has shade 0. *)
Definition overlay (gb : gb_s) (OF c p : Z) : option Z :=
  if (c =? 0) || nz (Z.land OF OBJ_PRIORITY) && negb (p mod 4 =? 0) then Some p
  else
    v ← rd (sp_palette gb) (if nz (Z.land OF OBJ_PALETTE) then c + 4 else c);
    Some (v + Z.land OF OBJ_PALETTE).

(** Sprite [s] over the pixel [p] in column [x] of line [LY]: it covers 8 columns
    from [OX - 8] and 8 or 16 lines from [OY - 16]. *)
Definition sprite_over (gb : gb_s) (s x p : Z) : option Z :=
  OY ← rd (oam gb) (4 * s);
  OX ← rd (oam gb) (4 * s + 1);
  OT ← rd (oam gb) (4 * s + 2);
  OF ← rd (oam gb) (4 * s + 3);
  let height := if tall gb then 16 else 8 in
  let y := LY gb - (OY - 16) in
  if (0 <=? y) && (y <? height) && (OX - 8 <=? x) && (x <? OX) then
    let row := if nz (Z.land OF OBJ_FLIP_Y) then height - 1 - y else y in
    let tile := if tall gb then OT - OT mod 2 else OT in
    t1 ← rd (vram gb) (16 * tile + 2 * row);
    t2 ← rd (vram gb) (16 * tile + 2 * row + 1);
    overlay gb OF (colour t1 t2 (if nz (Z.land OF OBJ_FLIP_X) then x - (OX - 8) else 7 - (x - (OX - 8)))) p
  else Some p.

(** Two bits of shade, and the number of the palette above. *)
Definition pixel_ok (p : Z) : Prop := 0 <= p mod 16 < 4 /\ 0 <= p / 16 <= 2.

Lemma land_palette OF : Z.land OF OBJ_PALETTE = 0 \/ Z.land OF OBJ_PALETTE = 16.
Proof.
  unfold OBJ_PALETTE. change 0x10 with (2 ^ 4).
  destruct (Z.testbit OF 4) eqn:E; [right|left]; apply Z.bits_inj'; intros n Hn;
    rewrite Z.land_spec, ?Z.bits_0, Z.pow2_bits_eqb by lia; destruct (Z.eqb_spec 4 n) as [<-|]; by rewrite ?E, ?andb_false_r.
Qed.

Lemma sprite_shade v k : 0 <= v < 4 -> k = 0 \/ k = 16 -> Z.land (Z.lor v k) (u8 (Z.lnot LCD_PALETTE_BG)) = v + k.
Proof.
  intros Hv Hk. assert (v = 0 \/ v = 1 \/ v = 2 \/ v = 3) as Hc by lia.
  by destruct Hk as [-> | ->]; repeat destruct Hc as [Hc|Hc]; subst v.
Qed.

Section Sprites.
Context (gb : gb_s) (Hwf : wf gb).

Lemma sprite_colour i : 0 <= i < 8 -> exists v, rd (sp_palette gb) i = Some v /\ 0 <= v < 4.
Proof. intros Hi. destruct (wf_displ _ Hwf) as [_ [Hl Hs] _ _]. apply Forall_rd; [done|lia]. Qed.

Lemma overlay_ok OF c p : 0 <= c < 4 -> pixel_ok p -> exists q, overlay gb OF c p = Some q /\ pixel_ok q.
Proof.
  intros Hc Hp. unfold overlay. case_match; [by exists p|].
  destruct (sprite_colour (if nz (Z.land OF OBJ_PALETTE) then c + 4 else c)) as (v & -> & Hv); [case_match; lia|].
  cbn [mbind option_bind]. eexists. split; [done|]. unfold pixel_ok. destruct (land_palette OF) as [-> | ->]; zmod.
Qed.

(** One column: the assignment of the loop is [overlay]. *)
Lemma overlay_step OF c d p ps :
  0 <= c < 4 -> rd ps d = Some p ->
  (if nz c && negb (nz (Z.land OF OBJ_PRIORITY) && nz (Z.land p 0x3)) then
     v ← rd (sp_palette gb) (if nz (Z.land OF OBJ_PALETTE) then c + 4 else c);
     wr ps d (Z.land (Z.lor v (Z.land OF OBJ_PALETTE)) (u8 (Z.lnot LCD_PALETTE_BG)))
   else Some ps) = (q ← overlay gb OF c p; wr ps d q).
Proof.
  intros Hc Hp. unfold overlay. change (Z.land p 0x3) with (Z.land p (2 ^ 2 - 1)). rewrite land_pow2_pred by lia. change (2 ^ 2) with 4.
  replace ((c =? 0) || nz (Z.land OF OBJ_PRIORITY) && negb (p mod 4 =? 0))
    with (negb (nz c && negb (nz (Z.land OF OBJ_PRIORITY) && nz (p mod 4)))).
  2:{ unfold nz at 1 3. by destruct (c =? 0), (nz (Z.land OF OBJ_PRIORITY) && negb (p mod 4 =? 0)). }
  destruct (nz c && _) eqn:E; cbn [negb].
  - destruct (sprite_colour (if nz (Z.land OF OBJ_PALETTE) then c + 4 else c)) as (v & -> & Hv); [case_match; lia|].
    cbn [mbind option_bind]. by rewrite sprite_shade by (done || apply land_palette).
  - cbn [mbind option_bind]. unfold wr. pose proof (rd_lt _ _ _ Hp). rewrite decide_True by lia.
    rewrite list_insert_id; [done|]. by apply rd_lookup.
Qed.

(** The columns [d], [d + e], ... of a sprite: bits [k], [k + 1], ... of its row. *)
Lemma obj_loop_spec OF T1 T2 e : (e = 1 \/ e = -1) -> forall n fuel d k ps,
  (n < fuel)%nat -> 0 <= k -> Z.of_nat n < 256 -> length ps = 160%nat -> (forall j, 0 <= j < 160 -> exists p, rd ps j = Some p /\ pixel_ok p) ->
  (n = 0%nat \/ 0 <= d < 160 /\ 0 <= d + (Z.of_nat n - 1) * e < 160) ->
  exists ps', obj_loop fuel gb OF (u8 e) (u8 (d + Z.of_nat n * e)) (u8 d) (Z.shiftr T1 k) (Z.shiftr T2 k) ps = Some ps' /\
    length ps' = 160%nat /\ forall j, 0 <= j < 160 -> exists p q, rd ps j = Some p /\ rd ps' j = Some q /\ pixel_ok q /\
      (if (0 <=? (j - d) * e) && ((j - d) * e <? Z.of_nat n) then overlay gb OF (colour T1 T2 (k + (j - d) * e)) p else Some p) = Some q.
Proof.
  intros He. induction n as [|n IH]; intros fuel d k ps Hf Hk Hn Hl Hok Hd; (destruct fuel as [|fuel]; [lia|]); cbn [obj_loop].
  { rewrite Z.mul_0_l, Z.add_0_r, Z.eqb_refl. exists ps. split_and!; [done|done|]. intros j Hj. destruct (Hok j Hj) as (p & Ep & Hp).
    exists p, p. split; [done|]. split; [done|]. split; [done|]. by destruct (Z.leb_spec 0 ((j - d) * e)), (Z.ltb_spec ((j - d) * e) (Z.of_nat 0)); try lia. }
  destruct Hd as [?|[Hd Hd']]; [done|]. rewrite (u8_small d) by lia.
  destruct (Z.eqb_spec d (u8 (d + Z.of_nat (S n) * e))) as [E|_]; [exfalso; revert E; destruct He as [-> | ->]; zwrap|].
  rewrite colour_bits by lia. destruct (Hok d Hd) as (p & Ep & Hp). rewrite Ep. cbn [mbind option_bind].
  rewrite (overlay_step OF _ d p ps (colour_range _ _ _) Ep).
  destruct (overlay_ok OF (colour T1 T2 k) p (colour_range _ _ _) Hp) as (q & Eq & Hq). rewrite Eq. cbn [mbind option_bind].
  destruct (wr ps d q) as [ps1|] eqn:E1; [|rewrite wr_Some in E1; [done|lia]]. cbn [mbind option_bind].
  pose proof (wr_length _ _ _ _ E1) as Hl1. rewrite !Z.shiftr_shiftr by lia.
  destruct (IH fuel (d + e) (k + 1) ps1) as (ps' & E' & Hl' & Hps); try lia.
  { intros j Hj. rewrite (rd_wr _ _ _ _ j E1). case_decide; [by exists q|auto]. }
  assert (u8 (d + u8 e) = u8 (d + e)) as -> by (destruct He as [-> | ->]; zwrap).
  replace (d + e + Z.of_nat n * e) with (d + Z.of_nat (S n) * e) in E' by lia. exists ps'. split_and!; [done|done|].
  intros j Hj. destruct (Hps j Hj) as (p1 & q1 & Hp1 & Hq1 & Hok1 & Hov). rewrite (rd_wr _ _ _ _ j E1) in Hp1.
  destruct (decide (j = d)) as [->|Hne].
  - injection Hp1 as <-. exists p, q1. split; [done|]. split; [done|]. split; [done|].
    replace ((d - d) * e) with 0 by lia. rewrite Z.add_0_r. destruct (Z.leb_spec 0 0), (Z.ltb_spec 0 (Z.of_nat (S n))); try lia. cbn [andb]. rewrite Eq.
    rewrite <- Hov. destruct (Z.leb_spec 0 ((d - (d + e)) * e)) as [Hle|]; [|done]. exfalso. revert Hle. destruct He as [-> | ->]; lia.
  - exists p1, q1. split; [done|]. split; [done|]. split; [done|]. rewrite <- Hov.
    replace (k + 1 + (j - (d + e)) * e) with (k + (j - d) * e) by (destruct He as [-> | ->]; lia).
    replace ((0 <=? (j - (d + e)) * e) && ((j - (d + e)) * e <? Z.of_nat n)) with ((0 <=? (j - d) * e) && ((j - d) * e <? Z.of_nat (S n))); [done|].
    apply eq_bool_prop_intro. rewrite !andb_True, !Is_true_true, !Z.leb_le, !Z.ltb_lt. destruct He as [-> | ->]; lia.
Qed.

(** A line of pixels, each of them valid. *)
Definition line_ok (ps : list Z) : Prop :=
  length ps = 160%nat /\ forall x, 0 <= x < 160 -> exists p, rd ps x = Some p /\ pixel_ok p.

(** [ps'] is [ps] with [f] applied to each column. *)
Definition line_map (f : Z -> Z -> option Z) (ps ps' : list Z) : Prop :=
  forall x, 0 <= x < 160 -> exists p q, rd ps x = Some p /\ rd ps' x = Some q /\ f x p = Some q.

Lemma line_map_id f ps : line_ok ps -> (forall x p, 0 <= x < 160 -> f x p = Some p) -> line_map f ps ps.
Proof. intros [_ Hok] Hf x Hx. destruct (Hok x Hx) as (p & Ep & _). exists p, p. auto. Qed.

(** The end points of the loop over the columns: 8 from [OX - 8] on, less those
    outside the screen. *)
Lemma columns OX :
  0 < OX < 168 ->
  let x0 := if OX <? 8 then 0 else OX - 8 in
  0 <= x0 < Z.min OX 160 /\ Z.min OX 160 <= x0 + 8 /\ OX - 8 <= x0 /\ (x0 = 0 \/ x0 = OX - 8).
Proof. intros H. cbv zeta. destruct (Z.ltb_spec OX 8); lia. Qed.

Lemma columns_drawn OF T1 T2 OX x0 x1 e d k bit ps ps' :
  (forall x, 0 <= x < 160 -> x0 <= x < x1 <-> OX - 8 <= x < OX) ->
  (forall x, 0 <= (x - d) * e < x1 - x0 <-> x0 <= x < x1) -> (forall x, k + (x - d) * e = bit x) ->
  length ps' = 160%nat ->
  (forall j, 0 <= j < 160 -> exists p q, rd ps j = Some p /\ rd ps' j = Some q /\ pixel_ok q /\
    (if (0 <=? (j - d) * e) && ((j - d) * e <? x1 - x0) then overlay gb OF (colour T1 T2 (k + (j - d) * e)) p else Some p) = Some q) ->
  line_ok ps' /\ line_map (fun x p => if (OX - 8 <=? x) && (x <? OX) then overlay gb OF (colour T1 T2 (bit x)) p else Some p) ps ps'.
Proof.
  intros HX Hcol Hbit Hl' Hj. split.
  - split; [done|]. intros x Hx. destruct (Hj x Hx) as (p & q & _ & ? & ? & _). by exists q.
  - intros x Hx. destruct (Hj x Hx) as (p & q & ? & ? & _ & Ho). exists p, q. split_and!; try done. rewrite <- Ho, Hbit.
    replace ((0 <=? (x - d) * e) && ((x - d) * e <? x1 - x0)) with ((OX - 8 <=? x) && (x <? OX)); [done|].
    apply eq_bool_prop_intro. rewrite !andb_True, !Is_true_true, !Z.leb_le, !Z.ltb_lt. specialize (Hcol x). specialize (HX x Hx). lia.
Qed.

Lemma land_fe v : is_byte v -> Z.land v 0xFE = v - v mod 2.
Proof. intros Hv. all_bytes v. Qed.

Lemma draw_sprite_spec s ps :
  0 <= s < 40 -> line_ok ps ->
  exists ps', draw_sprite gb s ps = Some ps' /\ line_ok ps' /\ line_map (sprite_over gb s) ps ps'.
Proof.
  intros Hs [Hl Hok]. unfold draw_sprite, sprite_over. rewrite Z.add_0_r.
  destruct (bytes_rd _ _ (4 * s) (wf_oam _ Hwf)) as (OY & EY & HY); [lia|].
  destruct (bytes_rd _ _ (4 * s + 1) (wf_oam _ Hwf)) as (OX & EX & HX); [lia|].
  destruct (bytes_rd _ _ (4 * s + 2) (wf_oam _ Hwf)) as (OT & ET & HT); [lia|].
  destruct (bytes_rd _ _ (4 * s + 3) (wf_oam _ Hwf)) as (OF & EF & _); [lia|].
  rewrite EY, EX, ET, EF. cbn [mbind option_bind]. clear EY EX ET EF. unfold is_byte in HX, HY.
  pose proof (wf_LY _ (wf_gb_reg _ Hwf)) as HLY. set (H := if tall gb then 16 else 8).
  assert (line_ok ps) as Hps by done.
  destruct ((OY <=? LY gb + (if tall gb then 0 else 8)) || (LY gb + 16 <? OY)) eqn:Ey.
  { exists ps. split_and!; [done|by apply Hps..|]. apply line_map_id; [done|]. intros x p Hx.
    destruct (Z.leb_spec 0 (LY gb - (OY - 16))), (Z.ltb_spec (LY gb - (OY - 16)) H); cbn [andb]; try done.
    exfalso. revert Ey. rewrite orb_true_iff, Z.leb_le, Z.ltb_lt. subst H. case_match; lia. }
  assert (0 <= LY gb - (OY - 16) < H) as Hy.
  { apply orb_false_iff in Ey as [Ey1%Z.leb_gt Ey2%Z.ltb_ge]. subst H. revert Ey1. case_match; lia. }
  destruct ((OX =? 0) || (168 <=? OX)) eqn:Ex.
  { exists ps. split_and!; [done|by apply Hps..|]. apply line_map_id; [done|]. intros x p Hx.
    destruct (Z.leb_spec (OX - 8) x), (Z.ltb_spec x OX); rewrite ?andb_true_r, ?andb_false_r; try done.
    exfalso. revert Ex. rewrite orb_true_iff, Z.eqb_eq, Z.leb_le. lia. }
  apply orb_false_iff in Ex as [Ex1%Z.eqb_neq Ex2%Z.leb_gt]. destruct (columns OX) as (C1 & C2 & C3 & C4); [lia|].
  set (row := if nz (Z.land OF OBJ_FLIP_Y) then H - 1 - (LY gb - (OY - 16)) else LY gb - (OY - 16)).
  set (tile := if tall gb then OT - OT mod 2 else OT).
  assert ((if nz (Z.land OF OBJ_FLIP_Y) then u8 ((if tall gb then 15 else 7) - u8 (LY gb - OY + 16)) else u8 (LY gb - OY + 16)) = row /\
    0 <= row < H) as [-> Hrow].
  { subst row H. destruct (tall gb), (nz _); (split; [|lia]); rewrite !u8_small; rewrite ?u8_small; lia. }
  assert (Z.land OT (if tall gb then 0xFE else 0xFF) = tile /\ 0 <= tile /\ 16 * tile + 2 * H <= 4096) as (-> & Ht).
  { subst tile H. unfold is_byte in HT. destruct (tall gb); [rewrite land_fe by done|rewrite land_255]; zmod. }
  unfold VRAM_TILES_1. replace (0 + tile * 0x10 + 2 * row) with (16 * tile + 2 * row) by lia.
  destruct (bytes_rd _ _ (16 * tile + 2 * row) (wf_vram _ Hwf)) as (T1 & -> & _); [lia|].
  destruct (bytes_rd _ _ (16 * tile + 2 * row + 1) (wf_vram _ Hwf)) as (T2 & -> & _); [lia|]. cbn [mbind option_bind].
  set (x0 := if OX <? 8 then 0 else OX - 8) in *. change LCD_WIDTH with 160. cbv zeta. set (x1 := Z.min OX 160) in *.
  assert ((0 <=? LY gb - (OY - 16)) && (LY gb - (OY - 16) <? H) = true) as -> by (apply andb_true_iff; rewrite Z.leb_le, Z.ltb_lt; lia).
  cbn [andb].
  destruct (nz (Z.land OF OBJ_FLIP_X)).
  - destruct (obj_loop_spec OF T1 T2 1 ltac:(lia) (Z.to_nat (x1 - x0)) 256 x0 (8 - OX + x0) ps) as (ps' & E & Hl' & Hj); try done; try lia.
    rewrite Z2Nat.id in E, Hj by lia. replace (x0 + (x1 - x0) * 1) with x1 in E by lia.
    rewrite (u8_small x0), (u8_small x1) in E by lia. change (u8 1) with 1 in E. rewrite (u8_small (8 - OX + x0)) by lia.
    exists ps'. split; [exact E|]. apply (columns_drawn OF T1 T2 OX x0 x1 1 x0 (8 - OX + x0)); [lia|intros; lia|intros; lia|done..].
  - destruct (obj_loop_spec OF T1 T2 (-1) ltac:(lia) (Z.to_nat (x1 - x0)) 256 (x1 - 1) (OX - x1) ps) as (ps' & E & Hl' & Hj); try done; try lia.
    rewrite Z2Nat.id in E, Hj by lia. replace (x1 - 1 + (x1 - x0) * -1) with (x0 - 1) in E by lia.
    rewrite (u8_small (x1 - 1)) in E |- * by lia. replace (x1 - 1 + 1) with x1 by lia. rewrite (u8_small (OX - x1)) by lia.
    exists ps'. split; [exact E|]. apply (columns_drawn OF T1 T2 OX x0 x1 (-1) (x1 - 1) (OX - x1)); [lia|intros; lia|intros; lia|done..].
Qed.

End Sprites.

Fixpoint sprites_over (n : nat) (gb : gb_s) (x p : Z) : option Z :=
  match n with
  | O => Some p
  | S n => p ← sprite_over gb (Z.of_nat n) x p; sprites_over n gb x p
  end.

Lemma sprite_loop_spec gb : wf gb -> forall n ps, (n <= 40)%nat -> line_ok ps ->
  exists ps', sprite_loop n gb ps = Some ps' /\ line_ok ps' /\ line_map (sprites_over n gb) ps ps'.
Proof.
  intros Hwf. induction n as [|n IH]; intros ps Hn Hok; cbn [sprite_loop sprites_over].
  { exists ps. split_and!; [done|by apply Hok..|]. by apply line_map_id. }
  destruct (draw_sprite_spec gb Hwf (Z.of_nat n) ps ltac:(lia) Hok) as (ps1 & -> & Hok1 & Hm1). cbn [mbind option_bind].
  destruct (IH ps1 ltac:(lia) Hok1) as (ps2 & -> & Hok2 & Hm2). exists ps2. split_and!; [done|by apply Hok2..|].
  intros x Hx. destruct (Hm1 x Hx) as (p & q & Hp & Hq & E1). destruct (Hm2 x Hx) as (q' & r & Hq' & Hr & E2).
  exists p, r. rewrite Hq in Hq'. injection Hq' as <-. by rewrite E1.
Qed.

Lemma sprites_over_window n v gb x : forall p, sprites_over n (set_window_clear v gb) x p = sprites_over n gb x p.
Proof.
  induction n as [|n IH]; intros p; cbn [sprites_over]; [done|].
  change (sprite_over (set_window_clear v gb) (Z.of_nat n) x p) with (sprite_over gb (Z.of_nat n) x p).
  destruct (sprite_over _ _ _ _); [apply IH|done].
Qed.

(** ** A line *)





(** The same pixel with the row that the code reads and with all 40 sprites. *)
Definition drawn_pixel (gb : gb_s) (x : Z) : option Z :=
  p ← (if nz (Z.land (LCDC gb) LCDC_BG_ENABLE) then
         map_pixel gb (bg_row gb) ((LY gb + SCY gb) mod 8) ((x + SCX gb) mod 256)
       else Some 0);
  p ← (if window_visible gb && (WX gb - 7 <=? x) then
         map_pixel gb (drawn_row gb x) (window_clear gb mod 8) (x - (WX gb - 7))
       else Some p);
  if nz (Z.land (LCDC gb) LCDC_OBJ_ENABLE) then sprites_over 40 gb x p else Some p.






Lemma map_pixel_ok gb map py x :
  wf gb -> map_row map -> 0 <= py < 8 -> 0 <= x < 256 -> exists p, map_pixel gb map py x = Some p /\ pixel_ok p.
Proof.
  intros Hwf Hm Hpy Hx. unfold map_pixel. destruct (tile_bytes_yields gb Hwf py Hpy map x Hm Hx) as (t1 & t2 & -> & _).
  cbn [mbind option_bind]. destruct (palette_shade gb Hwf (colour t1 t2 (7 - x mod 8)) (colour_range _ _ _)) as (s & -> & Hs).
  eexists. split; [done|]. unfold pixel_ok, LCD_PALETTE_BG. zmod.
Qed.

Lemma drawn_row_range gb x : is_byte (window_clear gb) -> map_row (drawn_row gb x).
Proof. unfold is_byte, drawn_row, map_row, VRAM_BMAP_1, VRAM_BMAP_2. intros H. repeat case_match; zmod. Qed.

Lemma blank_line : line_ok (replicate 160 0).
Proof.
  split; [done|]. intros x Hx. exists 0. split; [|by unfold pixel_ok]. unfold rd. rewrite decide_True by lia.
  apply lookup_replicate_2. lia.
Qed.

Lemma background_line gb ps :
  wf gb -> line_ok ps -> (forall x, 0 <= x < 160 -> rd ps x = Some 0) ->
  exists ps', draw_background gb ps = Some ps' /\ line_ok ps' /\ forall x, 0 <= x < 160 -> rd ps' x =
    if nz (Z.land (LCDC gb) LCDC_BG_ENABLE) then map_pixel gb (bg_row gb) ((LY gb + SCY gb) mod 8) ((x + SCX gb) mod 256) else Some 0.
Proof.
  intros Hwf Hok H0. destruct (nz (Z.land (LCDC gb) LCDC_BG_ENABLE)) eqn:E.
  - destruct (draw_background_spec gb ps Hwf (proj1 Hok) E) as (ps' & -> & Hl & Hx). exists ps'. split; [done|]. split; [|done].
    split; [done|]. intros x Hx'. rewrite Hx by done. apply map_pixel_ok; [done|apply bg_row_range|zmod..].
  - unfold draw_background. rewrite E. by exists ps.
Qed.

Lemma window_line gb ps :
  wf gb -> line_ok ps ->
  exists gb' ps', draw_window gb ps = Some (gb', ps') /\ line_ok ps' /\
    gb' = (if window_visible gb then set_window_clear (u8 (window_clear gb + 1)) gb else gb) /\
    forall x, 0 <= x < 160 -> rd ps' x =
      if window_visible gb && (WX gb - 7 <=? x) then map_pixel gb (drawn_row gb x) (window_clear gb mod 8) (x - (WX gb - 7)) else rd ps x.
Proof.
  intros Hwf Hok. destruct (window_visible gb) eqn:E.
  - destruct (draw_window_spec gb ps Hwf (proj1 Hok) E) as (ps' & -> & Hl & Hx). do 2 eexists. split; [done|].
    split; [|done]. split; [done|]. intros x Hx'. rewrite Hx by done. destruct (Z.leb_spec (WX gb - 7) x); [|by apply Hok].
    pose proof (wf_WX _ (wf_gb_reg _ Hwf)) as Hw. unfold is_byte in Hw.
    apply map_pixel_ok; [done|apply drawn_row_range, Hwf|zmod|lia].
  - unfold draw_window. rewrite E. by exists gb, ps.
Qed.

Lemma window_clear_wf gb : wf gb -> wf (if window_visible gb then set_window_clear (u8 (window_clear gb + 1)) gb else gb).
Proof. intros Hwf. case_match; [|done]. wf_field. Qed.

(** The line is drawn, not left out. *)
Definition line_shown (gb : gb_s) : bool := negb (nz (frame_skip gb) && (frame_skip_count gb =? 0)) && negb (interlaced gb).

Lemma draw_line_spec gb :
  wf gb -> length (fb gb) = 144%nat -> LY gb < 144 -> line_shown gb = true ->
  exists ps, line_ok ps /\ (forall x, 0 <= x < 160 -> rd ps x = drawn_pixel gb x) /\
    __gb_draw_line gb = Some (set_fb (<[Z.to_nat (LY gb) := ps]> (fb gb))
      (if window_visible gb then set_window_clear (u8 (window_clear gb + 1)) gb else gb)).
Proof.
  intros Hwf Hfb Hly Hs. unfold __gb_draw_line. apply andb_true_iff in Hs as [->%negb_true_iff ->%negb_true_iff]. cbv zeta.
  destruct (background_line gb (replicate (Z.to_nat LCD_WIDTH) 0) Hwf blank_line) as (p1 & -> & Hok1 & Hp1).
  { intros x Hx. unfold rd. rewrite decide_True by lia. apply lookup_replicate_2. unfold LCD_WIDTH. lia. }
  cbn [mbind option_bind]. destruct (window_line gb p1 Hwf Hok1) as (gb' & p2 & -> & Hok2 & -> & Hp2). cbn [mbind option_bind].
  set (gb' := if window_visible gb then _ else gb).
  assert (wf gb' /\ (exists ps, draw_sprites gb' p2 = Some ps /\ line_ok ps /\
    line_map (fun x p => if nz (Z.land (LCDC gb) LCDC_OBJ_ENABLE) then sprites_over 40 gb x p else Some p) p2 ps))
    as (Hwf' & ps & -> & Hok & Hps).
  { split; [by apply window_clear_wf|]. unfold draw_sprites. replace (LCDC gb') with (LCDC gb) by (unfold gb'; by destruct (window_visible gb)).
    destruct (nz (Z.land (LCDC gb) LCDC_OBJ_ENABLE)); [|exists p2; split; [done|]; split; [done|]; by apply line_map_id].
    destruct (sprite_loop_spec gb' (window_clear_wf gb Hwf) 40 p2 ltac:(lia) Hok2) as (ps & E & Hok & Hm).
    exists ps. split; [exact E|]. split; [done|]. intros x Hx.
    destruct (Hm x Hx) as (p & q & ? & ? & Hq). exists p, q. split_and!; try done. rewrite <- Hq. unfold gb'. destruct (window_visible gb); [|done].
    by rewrite sprites_over_window. }
  cbn [mbind option_bind]. exists ps. split; [done|]. split.
  - intros x Hx. destruct (Hps x Hx) as (p & q & Hp & -> & Hq). rewrite Hp2, Hp1 in Hp by done. unfold drawn_pixel.
    destruct (map_pixel_ok gb (bg_row gb) ((LY gb + SCY gb) mod 8) ((x + SCX gb) mod 256)) as (b & Eb & _);
      [done|apply bg_row_range|zmod..|]. rewrite Eb in *.
    destruct (nz (Z.land (LCDC gb) LCDC_BG_ENABLE)); cbn [mbind option_bind] in *; by rewrite Hp.
  - pose proof (wf_LY _ (wf_gb_reg _ Hwf)). unfold video_drawline. replace (LY gb') with (LY gb) by (unfold gb'; by destruct (window_visible gb)).
    replace (fb gb') with (fb gb) by (unfold gb'; by destruct (window_visible gb)). rewrite decide_True; [done|]. split; [lia|]. apply Hok.
Qed.



(** ** The picture *)

(** The picture has 144 lines of valid pixels. *)
Definition screen_ok (gb : gb_s) : Prop := length (fb gb) = 144%nat /\ Forall line_ok (fb gb).

(** Only the picture and the line of the window change. *)
Definition drew (gb gb' : gb_s) : Prop :=
  wf gb' /\ screen_ok gb' /\ gb' = set_fb (fb gb') (set_window_clear (window_clear gb') gb).

Lemma draw_line_yields gb : wf gb -> screen_ok gb -> LY gb < 144 -> yields (__gb_draw_line gb) (drew gb).
Proof.
  intros Hwf [Hl Hok] Hly. destruct (line_shown gb) eqn:E.
  - destruct (draw_line_spec gb Hwf Hl Hly E) as (ps & Hps & _ & ->). apply yields_ret. pose proof (window_clear_wf gb Hwf) as Hwf'.
    split; [by destruct Hwf'; split|]. split; [|by destruct (window_visible gb)].
    split; cbn; [by rewrite length_insert|]. apply Forall_insert; [|done]. by destruct (window_visible gb).
  - unfold __gb_draw_line. apply andb_false_iff in E as [->%negb_false_iff|E%negb_false_iff].
    { by apply yields_ret. }
    case_match; [by apply yields_ret|]. rewrite E. apply yields_ret. split; [by apply window_clear_wf|].
    split; [by destruct (window_visible gb)|]. by destruct (window_visible gb).
Qed.
