(* ===== verification/GbSystem.v ===== *)
(** * Game Boy: the console (src/src/gameboy/cpu.c)

    One step of [__gb_step_cpu] is: take an interrupt, execute an instruction, let
    the divider, the serial line, the timer and the screen have the cycles it took.
    [gb_run_frame] repeats it until the screen has shown its last line.  [gb_init]
    reads the header of the cartridge.  The theorems: no access of a step leaves
    the arrays of the emulator, what an interrupt does, how long a frame takes and
    when it never ends. *)
From S2P Require Import Prelude GbState GbMemory GbOps GbIsa GbCpu GbRun GbVideo.

Local Open Scope Z_scope.

Definition VBLANK_INTR : Z := 0x01.
Definition LCDC_INTR : Z := 0x02.
Definition TIMER_INTR : Z := 0x04.
Definition SERIAL_INTR : Z := 0x08.
Definition CONTROL_INTR : Z := 0x10.
Definition ANY_INTR : Z := 0x1F.
Definition VBLANK_INTR_ADDR : Z := 0x0040.
Definition LCDC_INTR_ADDR : Z := 0x0048.
Definition TIMER_INTR_ADDR : Z := 0x0050.
Definition SERIAL_INTR_ADDR : Z := 0x0058.
Definition CONTROL_INTR_ADDR : Z := 0x0060.
Definition DIV_CYCLES : Z := 256.
Definition SERIAL_CYCLES : Z := 4096.
Definition STAT_LYC_INTR : Z := 0x40.
Definition STAT_MODE_2_INTR : Z := 0x20.
Definition STAT_MODE_1_INTR : Z := 0x10.
Definition STAT_MODE_0_INTR : Z := 0x08.
Definition STAT_LYC_COINC : Z := 0x04.
Definition LCD_LINE_CYCLES : Z := 456.
Definition LCD_MODE_2_CYCLES : Z := 204.
Definition LCD_MODE_3_CYCLES : Z := 284.
Definition LCD_VERT_LINES : Z := 154.

(** [gb->gb_reg.IF |= intr] *)
Definition raise (intr : Z) (gb : gb_s) : gb_s := set_IF' (Z.lor (IF' gb) intr) gb.

(** ** Interrupts *)

(** The jump to the handler of the first request, from the lowest bit up. *)
Definition dispatch (gb : gb_s) : gb_s :=
  let requested intr := nz (Z.land (Z.land (IF' gb) (IE gb)) intr) in
  let enter addr intr := let gb := set_PC addr gb in set_IF' (Z.lxor (IF' gb) intr) gb in
  if requested VBLANK_INTR then enter VBLANK_INTR_ADDR VBLANK_INTR
  else if requested LCDC_INTR then enter LCDC_INTR_ADDR LCDC_INTR
  else if requested TIMER_INTR then enter TIMER_INTR_ADDR TIMER_INTR
  else if requested SERIAL_INTR then enter SERIAL_INTR_ADDR SERIAL_INTR
  else if requested CONTROL_INTR then enter CONTROL_INTR_ADDR CONTROL_INTR
  else gb.

Definition interrupts (gb : gb_s) : option gb_s :=
  if (nz (gb_ime gb) || nz (gb_halt gb)) && nz (Z.land (Z.land (IF' gb) (IE gb)) ANY_INTR) then
    let gb := set_gb_halt 0 gb in
    if nz (gb_ime gb) then
      let gb := set_gb_ime 0 gb in
      gb ← push (Z.shiftr (PC gb) 8) gb;
      gb ← push (Z.land (PC gb) 0xFF) gb;
      Some (dispatch gb)
    else Some gb
  else Some gb.

(** ** Clocks *)

Definition div_step (inst_cycles : Z) (gb : gb_s) : gb_s :=
  let gb := set_div_count (u32 (div_count gb + inst_cycles)) gb in
  if DIV_CYCLES <=? div_count gb then
    let gb := set_DIV (u8 (DIV gb + 1)) gb in
    set_div_count (u32 (div_count gb - DIV_CYCLES)) gb
  else gb.

Definition serial_step (inst_cycles : Z) (gb : gb_s) : gb_s :=
  if Z.land (SC gb) 0x81 =? 0x81 then
    let gb := set_serial_count (u32 (serial_count gb + inst_cycles)) gb in
    if SERIAL_CYCLES <=? serial_count gb then
      let gb := set_SB (match gb_serial_transfer gb with None => 0xFF | Some f => u8 (f (SB gb)) end) gb in
      let gb := set_SC (Z.land (SC gb) 0x01) gb in
      let gb := raise SERIAL_INTR gb in
      set_serial_count (u32 (serial_count gb - SERIAL_CYCLES)) gb
    else gb
  else gb.

(** The fields of TAC: two bits of rate, a bit that enables the timer. *)
Definition tac_rate (gb : gb_s) : Z := Z.land (TAC gb) 3.
Definition tac_enable (gb : gb_s) : Z := Z.land (Z.shiftr (TAC gb) 2) 1.
Definition TAC_CYCLES (rate : Z) : Z :=
  match rate with 0 => 1024 | 1 => 16 | 2 => 64 | _ => 256 end.

Definition timer_step (inst_cycles : Z) (gb : gb_s) : gb_s :=
  if nz (tac_enable gb) then
    let gb := set_tima_count (u32 (tima_count gb + inst_cycles)) gb in
    if TAC_CYCLES (tac_rate gb) <=? tima_count gb then
      let gb := set_tima_count (u32 (tima_count gb - TAC_CYCLES (tac_rate gb))) gb in
      let gb := set_TIMA (u8 (TIMA gb + 1)) gb in
      if TIMA gb =? 0 then
        let gb := raise TIMER_INTR gb in
        set_TIMA (TMA gb) gb
      else gb
    else gb
  else gb.

(** ** The screen *)

(** The comparison of the line with LYC, at its end. *)
Definition lyc_step (gb : gb_s) : gb_s :=
  if LY gb =? LYC gb then
    let gb := set_STAT (Z.lor (STAT gb) STAT_LYC_COINC) gb in
    if nz (Z.land (STAT gb) STAT_LYC_INTR) then raise LCDC_INTR gb else gb
  else set_STAT (Z.land (STAT gb) 0xFB) gb.

Definition vblank_start (gb : gb_s) : gb_s :=
  let gb := set_lcd_mode LCD_VBLANK gb in
  let gb := set_gb_frame 1 gb in
  let gb := raise VBLANK_INTR gb in
  let gb := if nz (Z.land (STAT gb) STAT_MODE_1_INTR) then raise LCDC_INTR gb else gb in
  let gb := if nz (frame_skip gb) then set_frame_skip_count (Z.b2z (frame_skip_count gb =? 0)) gb else gb in
  if nz (interlace gb) && (negb (nz (frame_skip gb)) || nz (frame_skip_count gb)) then
    set_interlace_count (Z.b2z (interlace_count gb =? 0)) gb
  else gb.

Definition hblank_start (gb : gb_s) : gb_s :=
  let gb :=
    if LY gb =? 0 then
      let gb := set_display_WY (WY gb) gb in
      set_window_clear 0 gb
    else gb in
  let gb := set_lcd_mode LCD_HBLANK gb in
  if nz (Z.land (STAT gb) STAT_MODE_0_INTR) then raise LCDC_INTR gb else gb.

Definition line_end (gb : gb_s) : gb_s :=
  let gb := set_lcd_count (u32 (lcd_count gb - LCD_LINE_CYCLES)) gb in
  let gb := lyc_step gb in
  let gb := set_LY ((LY gb + 1) mod LCD_VERT_LINES) gb in
  if LY gb =? LCD_HEIGHT then vblank_start gb
  else if LY gb <? LCD_HEIGHT then hblank_start gb
  else gb.

Definition lcd_step (inst_cycles : Z) (gb : gb_s) : option gb_s :=
  if Z.land (LCDC gb) LCDC_ENABLE =? 0 then Some gb
  else
    let gb := set_lcd_count (u32 (lcd_count gb + inst_cycles)) gb in
    if LCD_LINE_CYCLES <? lcd_count gb then Some (line_end gb)
    else if (lcd_mode gb =? LCD_HBLANK) && (LCD_MODE_2_CYCLES <=? lcd_count gb) then
      let gb := set_lcd_mode LCD_SEARCH_OAM gb in
      Some (if nz (Z.land (STAT gb) STAT_MODE_2_INTR) then raise LCDC_INTR gb else gb)
    else if (lcd_mode gb =? LCD_SEARCH_OAM) && (LCD_MODE_3_CYCLES <=? lcd_count gb) then
      let gb := set_lcd_mode LCD_TRANSFER gb in
      __gb_draw_line gb
    else Some gb.

(** ** A step and a frame *)

Definition next_opcode (gb : gb_s) : option (Z * gb_s) := if nz (gb_halt gb) then Some (0x00, gb) else fetch gb.

Definition __gb_step_cpu (gb : gb_s) : option gb_s :=
  gb ← interrupts gb;
  '(opcode, gb) ← next_opcode gb;
  inst_cycles ← rd op_cycles opcode;
  '(gb, inst_cycles) ← execute opcode inst_cycles gb;
  let gb := div_step inst_cycles gb in
  let gb := serial_step inst_cycles gb in
  let gb := timer_step inst_cycles gb in
  lcd_step inst_cycles gb.

(** The loop of [gb_run_frame] for [fuel] steps at most; [inr] is a loop that goes
    on. *)
Fixpoint frame_loop (fuel : nat) (gb : gb_s) : option (gb_s + gb_s) :=
  if nz (gb_frame gb) then Some (inl gb)
  else match fuel with
       | O => Some (inr gb)
       | S fuel => gb ← __gb_step_cpu gb; frame_loop fuel gb
       end.

Definition gb_run_frame (fuel : nat) (gb : gb_s) : option (gb_s + gb_s) :=
  let gb := set_gb_frame 0 gb in frame_loop fuel gb.

Fixpoint steps (n : nat) (gb : gb_s) : option gb_s :=
  match n with O => Some gb | S n => gb ← __gb_step_cpu gb; steps n gb end.

(** ** A step stays within the arrays *)

(** What holds between steps: the state is well-formed, the clocks are within
    their periods, the picture is complete, and outside the vertical blank the
    line is one of the picture. *)
Record sound (gb : gb_s) : Prop := {
  sound_wf : wf gb; sound_count : wf_count (counter gb); sound_screen : screen_ok gb;
  sound_line : lcd_mode gb = LCD_VBLANK \/ LY gb < 144 }.

Lemma raise_wf intr gb : wf gb -> is_byte intr -> wf (raise intr gb).
Proof. intros Hwf Hi. pose proof (wf_IF _ (wf_gb_reg _ Hwf)). unfold raise. wf_field. Qed.

#[export] Hint Resolve raise_wf : gb.

Lemma dispatch_ran gb gb' : ran gb gb' -> ran gb (dispatch gb').
Proof.
  intros H. pose proof (ran_wf _ _ H) as Hwf. pose proof (wf_IF _ (wf_gb_reg _ Hwf)).
  assert (forall a i, 0 <= a < 65536 -> is_byte i -> ran gb (let gb := set_PC a gb' in set_IF' (Z.lxor (IF' gb) i) gb)) as Henter.
  { intros a i Ha Hi. destruct H. split; try done. cbn zeta. wf_field. }
  unfold dispatch. cbn zeta in *. repeat case_match; try done; apply Henter; first [unfold is_byte|idtac]; by vm_compute.
Qed.

Lemma push_PC v gb gb' : wf gb -> is_byte v -> push v gb = Some gb' -> PC gb' = PC gb.
Proof.
  intros Hwf Hv. unfold push. cbn zeta. pose proof (u16_range (SP gb - 1)) as Hr.
  assert (wf (set_SP (u16 (SP gb - 1)) gb)) as Hwf' by wf_field. intros H.
  destruct (__gb_write_wf _ (SP (set_SP (u16 (SP gb - 1)) gb)) v Hwf' Hr Hv) as (g & E & _ & Hs).
  rewrite E in H. injection H as <-. by rewrite (same_regs _ _ Hs).
Qed.

Lemma push_pc gb : wf gb -> (gb ← push (Z.shiftr (PC gb) 8) gb; push (Z.land (PC gb) 0xFF) gb) = push16 (PC gb) gb.
Proof.
  intros Hwf. pose proof (wf_PC _ (wf_cpu_reg _ Hwf)). unfold push16. rewrite Z.shiftr_div_pow2 by lia. change (2 ^ 8) with 256.
  destruct (push (PC gb / 256) gb) as [g|] eqn:E; [|done]. cbn [mbind option_bind].
  apply push_PC in E; [|done|unfold is_byte; zmod]. by rewrite E, land_255.
Qed.

Lemma interrupts_yields gb : wf gb -> yields (interrupts gb) (ran gb).
Proof.
  intros Hwf. unfold interrupts. case_match; [|apply yields_ret; by apply ran_refl]. cbn zeta.
  assert (forall i h, let g := set_gb_ime i (set_gb_halt h gb) in wf g) as Hg by (intros; cbn zeta; wf_field).
  case_match; [|apply yields_ret; by eapply ran_upd; [by apply ran_refl|apply (Hg (gb_ime gb) 0)|..]].
  set (g := set_gb_ime 0 (set_gb_halt 0 gb)). assert (wf g) as Hwg by apply (Hg 0 0).
  rewrite <- bind_assoc, push_pc by done.
  eapply yields_bind; [apply push16_yields; [done|apply wf_PC, Hwg]|]. intros g' Hr. apply yields_ret, dispatch_ran.
  by eapply ran_from.
Qed.

(** Between the instruction and the clocks: as [ran], but for eight cycles that
    the divider may have been told of. *)
Record executed (gb gb' : gb_s) : Prop := {
  ex_wf : wf gb'; ex_shown : shown gb' = shown gb; ex_mode : lcd_mode gb' = lcd_mode gb;
  ex_tima : tima_count gb' = tima_count gb; ex_serial : serial_count gb' = serial_count gb;
  ex_div : div_count gb <= div_count gb' <= div_count gb + 8;
  ex_home : beam gb' = beam gb \/ beam gb' = (0, 0) }.

Lemma next_opcode_yields gb : wf gb -> yields (next_opcode gb) (fun '(v, gb') => is_byte v /\ moved gb gb').
Proof.
  intros Hwf. unfold next_opcode. case_match; [|by apply fetch_moved].
  apply yields_ret. split; [auto with gb|by apply moved_refl].
Qed.

Lemma execute_yields k gb :
  wf gb -> is_byte k -> 0 <= div_count gb < 4294967288 ->
  yields (c ← rd op_cycles k; execute k c gb) (done_in (decode k) gb).
Proof.
  intros Hwf Hk Hd. destruct (rd_Some op_cycles k Hk) as [n Hn]. rewrite Hn. cbn [mbind option_bind].
  rewrite (execute_piece k n gb) by done. apply exec_yields; [done|by apply decode_valid|done].
Qed.

(** The processor's part of a step. *)
Definition cpu_step (gb : gb_s) : option (gb_s * Z) :=
  gb ← interrupts gb;
  '(opcode, gb) ← next_opcode gb;
  inst_cycles ← rd op_cycles opcode;
  execute opcode inst_cycles gb.

(** ... and the other devices'. *)
Definition devices (inst_cycles : Z) (gb : gb_s) : option gb_s :=
  lcd_step inst_cycles (timer_step inst_cycles (serial_step inst_cycles (div_step inst_cycles gb))).

Lemma step_parts gb : __gb_step_cpu gb = ('(gb, c) ← cpu_step gb; devices c gb).
Proof.
  unfold __gb_step_cpu, cpu_step. destruct (interrupts gb) as [g|]; [|done]. cbn [mbind option_bind].
  destruct (next_opcode g) as [[k g1]|]; [|done]. cbn [mbind option_bind]. by destruct (rd op_cycles k).
Qed.

Lemma cpu_step_yields gb :
  wf gb -> 0 <= div_count gb < 4294967288 -> yields (cpu_step gb) (fun '(gb', c) => executed gb gb' /\ (c = 0 \/ 4 <= c <= 24)).
Proof.
  intros Hwf Hd. unfold cpu_step. eapply yields_bind; [by apply interrupts_yields|]. intros g Hr.
  eapply yields_bind; [apply next_opcode_yields, Hr|]. intros [k g1] [Hk Hm]. pose proof Hm as (Hg1 & ? & ? & Hc & Hreg).
  eapply yields_mono; [apply execute_yields; [done|done|rewrite Hc, (ran_div _ _ Hr); done]|].
  intros [g2 c] [(d & Hdd & Hr2) Hcyc]. cbn in Hcyc. split; [|destruct Hcyc as [[-> _]|]; lia].
  destruct Hr as [? Hs1 Hm1 Ht1 Hse1 Hd1 Hh1 _], Hr2 as [? Hs2 Hm2 Ht2 Hse2 Hd2 Hh2 _]. cbn in *. rewrite Hc in *.
  change (shown (set_div_count d g1)) with (shown g1) in Hs2. split; try congruence; try lia. unfold beam in *. cbn in *. rewrite Hreg, Hc in Hh2.
  destruct Hh2 as [-> | ->]; auto.
Qed.

(** A device that does not touch the screen. *)
Definition aside (gb gb' : gb_s) : Prop :=
  wf gb' /\ shown gb' = shown gb /\ lcd_mode gb' = lcd_mode gb /\ beam gb' = beam gb /\ LCDC gb' = LCDC gb.

Lemma aside_refl gb : wf gb -> aside gb gb.
Proof. by intros; split_and!. Qed.

Lemma aside_trans a b c : aside a b -> aside b c -> aside a c.
Proof. intros (? & ? & ? & ? & ?) (? & ? & ? & ? & ?). split_and!; congruence. Qed.

Lemma div_step_ok n gb :
  wf gb -> 0 <= n <= 24 -> 0 <= div_count gb < 264 ->
  aside gb (div_step n gb) /\ 0 <= div_count (div_step n gb) < 256 /\
  tima_count (div_step n gb) = tima_count gb /\ serial_count (div_step n gb) = serial_count gb.
Proof.
  intros Hwf Hn Hd. unfold div_step, DIV_CYCLES. cbn. rewrite (u32_small (div_count gb + n)) by lia.
  destruct (Z.leb_spec 256 (div_count gb + n)).
  - split; [split_and!; try done; wf_field|]. cbn. by rewrite u32_small; lia.
  - split; [split_and!; try done; wf_field|]. cbn. lia.
Qed.

Lemma serial_step_ok n gb :
  wf gb -> 0 <= n <= 24 -> 0 <= serial_count gb < 4096 ->
  aside gb (serial_step n gb) /\ 0 <= serial_count (serial_step n gb) < 4096 /\
  tima_count (serial_step n gb) = tima_count gb /\ div_count (serial_step n gb) = div_count gb.
Proof.
  intros Hwf Hn Hd. unfold serial_step, SERIAL_CYCLES. case_match; [|by split; [apply aside_refl|]].
  cbn. rewrite (u32_small (serial_count gb + n)) by lia.
  destruct (Z.leb_spec 4096 (serial_count gb + n)).
  - assert (is_byte (match gb_serial_transfer gb with None => 0xFF | Some f => u8 (f (SB gb)) end))
      by (case_match; auto with gb). unfold raise. cbn.
    split; [split_and!; try done; wf_field|]. cbn. by rewrite u32_small; lia.
  - split; [split_and!; try done; wf_field|]. cbn. lia.
Qed.

Lemma timer_step_ok n gb :
  wf gb -> 0 <= tima_count gb < 4294967296 ->
  aside gb (timer_step n gb) /\ 0 <= tima_count (timer_step n gb) < 4294967296 /\
  div_count (timer_step n gb) = div_count gb /\ serial_count (timer_step n gb) = serial_count gb.
Proof.
  intros Hwf Hd. pose proof (u32_range (tima_count gb + n)).
  unfold timer_step. case_match; [|by split; [apply aside_refl|]]. cbn.
  case_match; [|by split; [split_and!; try done; wf_field|]].
  pose proof (u32_range (u32 (tima_count gb + n) - TAC_CYCLES (tac_rate (set_tima_count (u32 (tima_count gb + n)) gb)))).
  case_match; (split; [split_and!; try done; unfold raise; wf_field|done]).
Qed.

(** The picture: the raising of an interrupt and the change of STAT are aside. *)
Lemma raise_if_ok (b : bool) intr gb :
  wf gb -> is_byte intr -> let g := if b then raise intr gb else gb in
  wf g /\ shown g = shown gb /\ counter g = counter gb /\ lcd_mode g = lcd_mode gb /\ LY g = LY gb.
Proof. intros Hwf Hi. destruct b; cbn zeta; [|done]. split; [by apply raise_wf|done]. Qed.

Lemma lyc_step_ok gb :
  wf gb -> let g := lyc_step gb in
  wf g /\ shown g = shown gb /\ counter g = counter gb /\ lcd_mode g = lcd_mode gb /\ LY g = LY gb.
Proof.
  intros Hwf. pose proof (wf_STAT _ (wf_gb_reg _ Hwf)). unfold lyc_step, STAT_LYC_COINC. cbn zeta. case_match.
  - refine (raise_if_ok _ LCDC_INTR (set_STAT (Z.lor (STAT gb) 0x04) gb) _ _); [wf_field|by apply byte_const].
  - split; [wf_field|done].
Qed.

(** The start of the vertical blank and of a line. *)
Definition at_vblank (gb g : gb_s) : Prop :=
  wf g /\ fb g = fb gb /\ counter g = counter gb /\ lcd_mode g = LCD_VBLANK /\ LY g = LY gb /\ gb_frame g = 1 /\ LCDC g = LCDC gb.

Lemma at_vblank_if (b : bool) gb g g' :
  at_vblank gb g -> (at_vblank gb g -> at_vblank gb g') -> at_vblank gb (if b then g' else g).
Proof. intros Hg Hi. destruct b; auto. Qed.

Lemma vblank_start_ok gb : wf gb -> at_vblank gb (vblank_start gb).
Proof.
  intros Hwf. unfold vblank_start. cbn zeta. set (g1 := raise VBLANK_INTR _).
  assert (at_vblank gb g1) as H1 by (split; [apply raise_wf; [wf_field; vm_compute; done|by apply byte_const]|done]).
  clearbody g1. set (g2 := if nz (Z.land (STAT g1) STAT_MODE_1_INTR) then raise LCDC_INTR g1 else g1). assert (at_vblank gb g2) as H2.
  { apply at_vblank_if; [done|]. intros [? ?]. split; [apply raise_wf; [done|by apply byte_const]|done]. }
  clearbody g2. set (g3 := if nz (frame_skip g2) then set_frame_skip_count _ g2 else g2). assert (at_vblank gb g3) as H3.
  { apply at_vblank_if; [done|]. intros [? ?]. split; [wf_field|done]. }
  clearbody g3. apply at_vblank_if; [done|]. intros [? ?]. split; [wf_field|done].
Qed.

Lemma hblank_start_ok gb :
  wf gb -> let g := hblank_start gb in
  wf g /\ shown g = shown gb /\ counter g = counter gb /\ lcd_mode g = LCD_HBLANK /\ LY g = LY gb /\ LCDC g = LCDC gb.
Proof.
  intros Hwf. unfold hblank_start. cbn zeta. set (g1 := if LY gb =? 0 then _ else gb).
  assert (wf g1 /\ shown g1 = shown gb /\ counter g1 = counter gb /\ LY g1 = LY gb /\ LCDC g1 = LCDC gb) as H1.
  { unfold g1. case_match; [|by split_and!]. split; [|by split_and!]. pose proof (wf_WY _ (wf_gb_reg _ Hwf)). wf_field. }
  clearbody g1. destruct H1 as (? & ? & ? & ? & ?).
  assert (wf (set_lcd_mode LCD_HBLANK g1)) by (wf_field; vm_compute; done).
  case_match; [|by split_and!]. split; [apply raise_wf; [done|by apply byte_const]|by split_and!].
Qed.

(** The end of a line: the beam goes to the next one, after line 143 the frame is
    complete. *)
Lemma line_end_ok gb :
  wf gb -> 456 < lcd_count gb <= 480 -> lcd_mode gb = LCD_VBLANK \/ LY gb < 144 ->
  let g := line_end gb in
  wf g /\ fb g = fb gb /\ counter g = counter (set_lcd_count (lcd_count gb - 456) gb) /\ (lcd_mode g = LCD_VBLANK \/ LY g < 144) /\
  LY g = (LY gb + 1) mod 154 /\ LCDC g = LCDC gb /\ gb_frame g = if LY gb =? 143 then 1 else gb_frame gb.
Proof.
  intros Hwf Hc Hl. unfold line_end. cbn zeta. change (lcd_count gb - LCD_LINE_CYCLES) with (lcd_count gb - 456).
  rewrite u32_small by lia. set (g0 := set_lcd_count _ gb). assert (wf g0) as H0 by wf_field.
  destruct (lyc_step_ok g0 H0) as (H1 & Hs1 & Hc1 & Hm1 & Hly1).
  assert (LCDC (lyc_step g0) = LCDC gb) as HL1 by (unfold lyc_step; repeat case_match; done).
  revert H1 Hs1 Hc1 Hm1 Hly1 HL1. generalize (lyc_step g0). intros g1 H1 Hs1 Hc1 Hm1 Hly1 HL1.
  pose proof (wf_LY _ (wf_gb_reg _ Hwf)) as Hly. change (LY g0) with (LY gb) in Hly1. change (lcd_mode g0) with (lcd_mode gb) in Hm1.
  unfold LCD_VERT_LINES, LCD_HEIGHT. set (g2 := set_LY ((LY g1 + 1) mod 154) g1). assert (wf g2) as H2 by (wf_field; zmod).
  change (LY g2) with ((LY g1 + 1) mod 154). rewrite Hly1. injection Hs1 as Hf1 Hfb1. change (gb_frame g0) with (gb_frame gb) in Hf1.
  destruct (Z.eqb_spec ((LY gb + 1) mod 154) 144) as [E|E].
  - destruct (vblank_start_ok g2 H2) as (? & ? & Hc2 & Hm2 & Hly2 & -> & HL2). rewrite Hc2, Hly2, HL2.
    destruct (Z.eqb_spec (LY gb) 143); [|zmod]. split_and!; try done; auto; cbn in *; rewrite ?Hly1; congruence.
  - destruct (Z.eqb_spec (LY gb) 143); [exfalso; zmod|]. destruct (Z.ltb_spec ((LY gb + 1) mod 154) 144) as [Hlt|Hge].
    + destruct (hblank_start_ok g2 H2) as (? & Hs2 & Hc2 & Hm2 & Hly2 & HL2). injection Hs2 as Hf2 Hfb2. rewrite Hc2, Hly2, HL2.
      split_and!; try done; cbn in *; rewrite ?Hly1; auto; congruence.
    + split_and!; try done; cbn; rewrite ?Hly1; auto. left. rewrite Hm1. destruct Hl as [|]; [done|zmod].
Qed.

(** Where the beam is after [n] more cycles. *)
Definition beam_after (n : Z) (gb g : gb_s) : Prop :=
  lcd_count gb + n <= 456 /\ beam g = (LY gb, lcd_count gb + n) /\ gb_frame g = gb_frame gb \/
  456 < lcd_count gb + n /\ beam g = ((LY gb + 1) mod 154, lcd_count gb + n - 456) /\ gb_frame g = if LY gb =? 143 then 1 else gb_frame gb.

Lemma lcd_step_ok n gb :
  sound gb -> 0 <= n <= 24 ->
  yields (lcd_step n gb) (fun g => sound g /\ LCDC g = LCDC gb /\ (lcd_on gb = true -> beam_after n gb g)).
Proof.
  intros [Hwf Hc Hs Hl] Hn. unfold lcd_step. destruct (Z.eqb_spec (Z.land (LCDC gb) LCDC_ENABLE) 0) as [E|E].
  { apply yields_ret. split; [done|]. split; [done|]. unfold lcd_on. by rewrite E. }
  cbn zeta. pose proof (wf_lcd_count _ Hc). rewrite u32_small by lia. set (g0 := set_lcd_count (lcd_count gb + n) gb).
  assert (wf g0) as H0 by wf_field. change (lcd_count g0) with (lcd_count gb + n). change (lcd_mode g0) with (lcd_mode gb).
  unfold LCD_LINE_CYCLES. destruct (Z.ltb_spec 456 (lcd_count gb + n)) as [Hlt|Hle].
  { destruct (line_end_ok g0 H0) as (? & Hfb & Hc1 & ? & Hly & ? & Hfr); [cbn; lia|done|]. apply yields_ret.
    change (lcd_count g0) with (lcd_count gb + n) in Hc1. split; [|split; [done|]].
    - split; [done| | |done]; [|by unfold screen_ok; rewrite Hfb]. rewrite Hc1. destruct Hc. split; cbn; lia.
    - intros _. right. split; [done|]. split; [|done]. unfold beam. by rewrite Hly, Hc1. }
  assert (wf_count (counter g0)) as Hc0 by (destruct Hc; split; cbn; lia).
  assert (forall g, wf g -> screen_ok g -> counter g = counter g0 -> (lcd_mode g = LCD_VBLANK \/ LY g < 144) -> LY g = LY gb -> LCDC g = LCDC gb ->
    gb_frame g = gb_frame gb -> sound g /\ LCDC g = LCDC gb /\ (lcd_on gb = true -> beam_after n gb g)) as Hfin.
  { intros g ? ? Hcg ? Hlg ? ?. split; [split; try done; by rewrite Hcg|]. split; [done|]. intros _. left. split; [done|]. split; [|done].
    unfold beam. by rewrite Hlg, Hcg. }
  case_match eqn:E1.
  { apply andb_true_iff in E1 as [E1%Z.eqb_eq _]. apply yields_ret. destruct Hl as [Hl|Hl]; [rewrite E1 in Hl; discriminate|].
    case_match; (apply Hfin; try done; [|by right]); [apply raise_wf; [|by apply byte_const]|]; wf_field; vm_compute; done. }
  case_match eqn:E2; [|by apply yields_ret, Hfin].
  apply andb_true_iff in E2 as [E2%Z.eqb_eq _]. destruct Hl as [Hl|Hl]; [rewrite E2 in Hl; discriminate|].
  eapply yields_mono; [apply draw_line_yields; [wf_field; vm_compute; done|done|done]|].
  intros g (? & ? & Eg). apply Hfin; try done; rewrite Eg; try done. by right.
Qed.

(** The devices after an instruction of [n] cycles. *)
Lemma devices_ok n gb :
  wf gb -> 0 <= n <= 24 -> 0 <= div_count gb < 264 -> 0 <= serial_count gb < 4096 -> 0 <= tima_count gb < 4294967296 ->
  0 <= lcd_count gb <= 456 -> screen_ok gb -> lcd_mode gb = LCD_VBLANK \/ LY gb < 144 ->
  yields (devices n gb) (fun g => sound g /\ LCDC g = LCDC gb /\ (lcd_on gb = true -> beam_after n gb g)).
Proof.
  intros Hwf Hn Hd Hse Ht Hlc Hs Hl. unfold devices.
  destruct (div_step_ok n gb Hwf Hn Hd) as (A1 & D1 & T1 & S1). revert A1 D1 T1 S1. generalize (div_step n gb). intros g1 A1 D1 T1 S1.
  destruct (serial_step_ok n g1 (proj1 A1) Hn ltac:(lia)) as (A2 & S2 & T2 & D2). revert A2 S2 T2 D2.
  generalize (serial_step n g1). intros g2 A2 S2 T2 D2.
  destruct (timer_step_ok n g2 (proj1 A2) ltac:(lia)) as (A3 & T3 & D3 & S3). revert A3 T3 D3 S3.
  generalize (timer_step n g2). intros g3 A3 T3 D3 S3.
  destruct (aside_trans _ _ _ (aside_trans _ _ _ A1 A2) A3) as (Hwf3 & Hsh & Hmo & Hb & HL). unfold beam in Hb.
  injection Hb as Hly Hlcd. injection Hsh as Hfr Hfb. eapply yields_mono; [apply (lcd_step_ok n g3); [split|done]|].
  - done.
  - split; lia.
  - unfold screen_ok. by rewrite Hfb.
  - by rewrite Hmo, Hly.
  - unfold lcd_on, beam_after. rewrite HL, Hly, Hlcd, Hfr. done.
Qed.

(** A step from a sound state reaches a sound state. *)
Lemma step_yields gb : sound gb -> yields (__gb_step_cpu gb) sound.
Proof.
  intros [Hwf Hc Hs Hl]. destruct Hc. rewrite step_parts. eapply yields_bind; [apply cpu_step_yields; [done|lia]|].
  intros [g c] [Hex Hcyc]. destruct Hex as [? Hsh Hmo ? ? ? Hh]. injection Hsh as Hfr Hfb.
  assert (0 <= lcd_count g <= 456 /\ (LY g = LY gb \/ LY g = 0)) as [? Hly].
  { unfold beam in Hh. destruct Hh as [Hh|Hh]; injection Hh as -> ->; lia. }
  eapply yields_mono; [apply devices_ok; try done; try lia|by intros g' [? _]].
  unfold screen_ok. by rewrite Hfb.
Qed.

Lemma steps_yields n : forall gb, sound gb -> yields (steps n gb) sound.
Proof.
  induction n as [|n IH]; intros gb H; cbn [steps]; [by apply yields_ret|].
  eapply yields_bind; [by apply step_yields|]. intros. by apply IH.
Qed.

Lemma demo_sound : sound demo.
Proof.
  split; [exact demo_wf|split; cbn; lia| |right; cbn; lia]. split; [done|]. apply Forall_replicate. exact blank_line.
Qed.
