(* ===== verification/GbFrame.v ===== *)
(** * Game Boy: frames and interrupts (src/src/gameboy/cpu.c)

    How many steps [gb_run_frame] can take before the screen is complete, the
    states from which it never returns, and what taking an interrupt does to the
    program that is interrupted. *)
From S2P Require Import Prelude GbState GbMemory GbOps GbIsa GbCpu GbRun GbVideo GbSystem.

Local Open Scope Z_scope.

(** ** How long a frame takes *)

Definition undefined (k : Z) : bool := match decode k with UNDEF => true | _ => false end.

(** The next step brings the beam forward: the screen is on, before the
    instruction and after it, and the opcode is one of the processor. *)
Definition advances (gb : gb_s) : bool :=
  match interrupts gb with
  | Some g =>
      lcd_on g &&
      match next_opcode g with Some (k, _) => negb (undefined k) | None => false end &&
      match __gb_step_cpu gb with Some gb' => lcd_on gb' | None => false end
  | None => false
  end.

(** The cycles until line 143 ends. *)
Definition remaining (gb : gb_s) : Z := (143 - LY gb) mod 154 * 456 + 456 - lcd_count gb.

Lemma remaining_range gb : sound gb -> 0 <= remaining gb <= 70224.
Proof. intros [_ [] _ _]. unfold remaining. zmod. Qed.

(** Under [advances] the instruction leaves the beam where it was and takes four
    cycles at least. *)
Lemma cpu_step_beam gb g k g1 :
  sound gb -> interrupts gb = Some g -> lcd_on g = true -> next_opcode g = Some (k, g1) -> undefined k = false ->
  yields (cpu_step gb) (fun '(gb', c) => executed gb gb' /\ 4 <= c <= 24 /\ (lcd_on gb' = true -> beam gb' = beam gb)).
Proof.
  intros [Hwf [] _ _] Hi Hon Hop Hk. destruct (interrupts_yields gb Hwf) as (g' & E & Hr). rewrite Hi in E. injection E as <-.
  destruct (next_opcode_yields g (ran_wf _ _ Hr)) as ([k' g1'] & E & Hkb & Hm). rewrite Hop in E. injection E as <- <-.
  destruct (cpu_step_yields gb Hwf ltac:(lia)) as ([g2 c] & Ec & Hex & _). exists (g2, c). split; [done|]. split; [done|].
  unfold cpu_step in Ec. rewrite Hi in Ec. cbn [mbind option_bind] in Ec. rewrite Hop in Ec. cbn [mbind option_bind] in Ec.
  destruct Hm as (Hg1 & _ & _ & Hc & Hreg).
  destruct (execute_yields k g1 Hg1 Hkb) as ([g2' c'] & E & (d & _ & Hr2) & Hcyc).
  { rewrite Hc, (ran_div _ _ Hr). lia. }
  rewrite Ec in E. injection E as <- <-. cbn in Hcyc. cbn [fst] in Hr2. split.
  - destruct Hcyc as [[_ Hu]|]; [|done]. unfold undefined in Hk. by rewrite Hu in Hk.
  - intros Hon2. rewrite (ran_beam _ _ Hr2 Hon2). change (beam (set_div_count d g1)) with (beam g1).
    unfold beam at 1. rewrite Hreg, Hc. by apply (ran_beam _ _ Hr).
Qed.

Lemma advances_step gb :
  sound gb -> advances gb = true ->
  exists gb' n, __gb_step_cpu gb = Some gb' /\ sound gb' /\ 4 <= n <= 24 /\ beam_after n gb gb'.
Proof.
  intros Hs H. unfold advances in H. destruct (interrupts gb) as [g|] eqn:Hi; [|done].
  apply andb_true_iff in H as [H Hon']. apply andb_true_iff in H as [Hon Hk].
  destruct (next_opcode g) as [[k g1]|] eqn:Hop; [|done]. apply negb_true_iff in Hk.
  destruct (cpu_step_beam gb g k g1 Hs Hi Hon Hop Hk) as ([g2 c] & Ec & Hex & Hc & Hb). rewrite step_parts, Ec in Hon' |- *.
  cbn [mbind option_bind] in *. destruct Hs as [Hwf [] Hsc Hl]. destruct Hex as [? Hsh Hmo ? ? ? Hh]. injection Hsh as Hfr Hfb.
  assert (0 <= lcd_count g2 <= 456 /\ (LY g2 = LY gb \/ LY g2 = 0)) as [? Hly].
  { unfold beam in Hh. destruct Hh as [Hh|Hh]; injection Hh as -> ->; lia. }
  destruct (devices_ok c g2) as (gb' & Ed & Hs' & HL & Hba); try done; try lia; [unfold screen_ok; by rewrite Hfb|].
  rewrite Ed in Hon'. unfold lcd_on in *. rewrite HL in Hon'. exists gb', c. split_and!; try done; try lia; [apply Hs'..|].
  specialize (Hb Hon'). specialize (Hba Hon'). unfold beam in Hb. injection Hb as Hly' Hlc'. unfold beam_after in *.
  by rewrite Hly', Hlc', Hfr in Hba.
Qed.

Lemma remaining_step n gb gb' :
  sound gb -> 0 <= n <= 24 -> beam_after n gb gb' -> gb_frame gb' = 1 \/ remaining gb' = remaining gb - n.
Proof.
  intros [Hwf [] _ _] Hn Hb. pose proof (wf_LY _ (wf_gb_reg _ Hwf)). unfold remaining.
  destruct Hb as [(? & Hb & _)|(? & Hb & Hf)]; unfold beam in Hb; injection Hb as -> ->; [right; lia|].
  destruct (Z.eqb_spec (LY gb) 143); [by left|right]. zmod.
Qed.

Lemma frame_loop_progress fuel : forall gb,
  sound gb -> remaining gb < 4 * Z.of_nat fuel ->
  (exists gb', frame_loop fuel gb = Some (inl gb') /\ sound gb' /\ nz (gb_frame gb') = true) \/
  (exists n gb', (n < fuel)%nat /\ steps n gb = Some gb' /\ gb_frame gb' = 0 /\ advances gb' = false).
Proof.
  induction fuel as [|fuel IH]; intros gb Hs Hr; pose proof (remaining_range gb Hs); [lia|]. cbn [frame_loop].
  destruct (nz (gb_frame gb)) eqn:Ef; [left; by exists gb|]. apply negb_false_iff, Z.eqb_eq in Ef.
  destruct (advances gb) eqn:Ha; [|right; exists 0%nat, gb; split_and!; [lia|done..]].
  destruct (advances_step gb Hs Ha) as (gb' & n & E & Hs' & Hn & Hb). rewrite E. cbn [mbind option_bind].
  destruct (remaining_step n gb gb' Hs ltac:(lia) Hb) as [Hf|Hf].
  - left. exists gb'. destruct fuel; cbn [frame_loop]; by rewrite Hf.
  - destruct (IH gb' Hs' ltac:(lia)) as [?|(m & gb2 & Hm & Em & ?)]; [by left|]. right. exists (S m), gb2.
    split; [lia|]. cbn [steps]. by rewrite E.
Qed.

(** A frame has 154 lines of 456 cycles, an instruction at least 4 cycles. *)
Definition frame_steps : nat := Z.to_nat (154 * 456 / 4 + 1).

(** C8. A frame ends.  From a sound state [gb_run_frame] returns, with the picture
    complete, within 17557 steps, unless it comes to a state from which the beam
    does not go on: the program has turned the screen off, or runs into an opcode
    that the processor does not have. *)
Theorem frame_progress gb :
  sound gb ->
  (exists gb', gb_run_frame frame_steps gb = Some (inl gb') /\ sound gb' /\ nz (gb_frame gb') = true) \/
  (exists n gb', (n < frame_steps)%nat /\ steps n (set_gb_frame 0 gb) = Some gb' /\ gb_frame gb' = 0 /\ advances gb' = false).
Proof.
  intros Hs. assert (sound (set_gb_frame 0 gb)) as Hs' by (destruct Hs as [Hwf ? ? ?]; split; try done; wf_field).
  apply frame_loop_progress; [done|]. pose proof (remaining_range _ Hs'). unfold frame_steps. change (154 * 456 / 4 + 1) with 17557. rewrite Z2Nat.id; lia.
Qed.

Lemma frame_progress_witness :
  sound demo /\
  ((exists gb', gb_run_frame frame_steps demo = Some (inl gb') /\ sound gb' /\ nz (gb_frame gb') = true) \/
   (exists n gb', (n < frame_steps)%nat /\ steps n (set_gb_frame 0 demo) = Some gb' /\ gb_frame gb' = 0 /\ advances gb' = false)).
Proof. split; [exact demo_sound|]. apply (frame_progress demo). exact demo_sound. Defined.

(** ** A frame that never ends *)

Definition idle (gb : gb_s) : Prop := nz (gb_halt gb) = true /\ IE gb = 0 /\ Z.land (LCDC gb) LCDC_ENABLE = 0.

Lemma devices_idle n gb : idle gb -> yields (devices n gb) (fun gb' => idle gb' /\ gb_frame gb' = gb_frame gb).
Proof.
  intros Hid. unfold devices.
  assert (forall g, idle g -> idle (div_step n g) /\ gb_frame (div_step n g) = gb_frame g) as Hd
    by (intros g Hg; unfold div_step; cbn zeta; by case_match).
  assert (forall g, idle g -> idle (serial_step n g) /\ gb_frame (serial_step n g) = gb_frame g) as Hse
    by (intros g Hg; unfold serial_step; cbn zeta; by repeat case_match).
  assert (forall g, idle g -> idle (timer_step n g) /\ gb_frame (timer_step n g) = gb_frame g) as Ht
    by (intros g Hg; unfold timer_step; cbn zeta; by repeat case_match).
  destruct (Hd _ Hid) as [H1 E1]. destruct (Hse _ H1) as [H2 E2]. destruct (Ht _ H2) as [H3 E3].
  unfold lcd_step. rewrite (proj2 (proj2 H3)). cbn [Z.eqb]. apply yields_ret. split; [done|congruence].
Qed.

Lemma step_idle gb : idle gb -> yields (__gb_step_cpu gb) (fun gb' => idle gb' /\ gb_frame gb' = gb_frame gb).
Proof.
  intros (Hh & HIE & Hl). rewrite step_parts. unfold cpu_step, interrupts. rewrite HIE, Z.land_0_r, Z.land_0_l.
  change (nz 0) with false. rewrite andb_false_r. cbn [mbind option_bind]. unfold next_opcode. rewrite Hh. cbn [mbind option_bind].
  change (rd op_cycles 0) with (Some 4). cbn [mbind option_bind]. change (execute 0 4 gb) with (Some (gb, 4)). by apply devices_idle.
Qed.

Lemma frame_loop_idle fuel : forall gb, idle gb -> gb_frame gb = 0 -> exists gb', frame_loop fuel gb = Some (inr gb').
Proof.
  induction fuel as [|fuel IH]; intros gb Hid Hf; cbn [frame_loop]; rewrite Hf; change (nz 0) with false; [by exists gb|].
  destruct (step_idle gb Hid) as (gb' & -> & Hid' & Hf'). cbn [mbind option_bind]. apply IH; [done|congruence].
Qed.

(** C40. With the screen off and the processor halted with no interrupt enabled,
    the loop of [gb_run_frame] never ends, however many steps it is given. *)
Theorem frame_hangs fuel gb :
  nz (gb_halt gb) = true -> IE gb = 0 -> Z.land (LCDC gb) LCDC_ENABLE = 0 ->
  exists gb', gb_run_frame fuel gb = Some (inr gb').
Proof. intros Hh HIE Hl. by apply frame_loop_idle. Qed.

Lemma frame_hangs_witness :
  let gb := set_gb_halt 1 demo in
  nz (gb_halt gb) = true /\ IE gb = 0 /\ Z.land (LCDC gb) LCDC_ENABLE = 0 /\ exists gb', gb_run_frame 1000 gb = Some (inr gb').
Proof. intros gb. split; [done|]. split; [done|]. split; [done|]. apply (frame_hangs 1000 gb); done. Defined.

(** ** Interrupts *)

Lemma wram_write gb a v :
  0xC000 <= a < 0xE000 -> __gb_write gb a v = (m ← wr (wram gb) (a - 0xC000) v; Some (set_wram m gb)).
Proof.
  intros Ha. unfold __gb_write, WRAM_0_ADDR, WRAM_1_ADDR, WRAM_BANK_SIZE. destruct (addr_block a ltac:(lia)) as (k & -> & Hk & Hak).
  assert (k = 12 \/ k = 13) as [-> | ->] by lia; [done|]. by replace (a - 0xD000 + 0x1000) with (a - 0xC000) by lia.
Qed.

Lemma wram_read gb a : 0xC000 <= a < 0xE000 -> __gb_read gb a = rd (wram gb) (a - 0xC000).
Proof.
  intros Ha. unfold __gb_read, WRAM_0_ADDR, WRAM_1_ADDR, WRAM_BANK_SIZE. destruct (addr_block a ltac:(lia)) as (k & -> & Hk & Hak).
  assert (k = 12 \/ k = 13) as [-> | ->] by lia; [done|]. f_equal. lia.
Qed.

(** The bits of the requests that are enabled. *)
Definition requests (gb : gb_s) : Z := Z.land (IF' gb) (IE gb).

(** [i] is the lowest of the requests: the one of highest priority. *)
Definition first_request (gb : gb_s) (i : Z) : Prop :=
  0 <= i < 5 /\ Z.testbit (requests gb) i = true /\ forall j, 0 <= j < i -> Z.testbit (requests gb) j = false.

Lemma dispatch_first gb :
  nz (Z.land (requests gb) ANY_INTR) = true ->
  exists i, first_request gb i /\ dispatch gb = set_IF' (Z.clearbit (IF' gb) i) (set_PC (0x40 + 8 * i) gb).
Proof.
  intros Hp. assert (forall i, 0 <= i -> Z.testbit (requests gb) i = true -> Z.lxor (IF' gb) (2 ^ i) = Z.clearbit (IF' gb) i) as Hx.
  { intros i Hi Ht. unfold requests in Ht. rewrite Z.land_spec in Ht. apply andb_true_iff in Ht as [Ht _]. apply Z.bits_inj'.
    intros n Hn. rewrite Z.clearbit_eqb, Z.lxor_spec, Z.pow2_bits_eqb by done. destruct (Z.eqb_spec i n) as [<-|]; [by rewrite Ht|].
    by rewrite xorb_false_r, andb_true_r. }
  unfold dispatch. cbn zeta. fold (requests gb).
  change VBLANK_INTR with (2 ^ 0). change LCDC_INTR with (2 ^ 1). change TIMER_INTR with (2 ^ 2).
  change SERIAL_INTR with (2 ^ 3). change CONTROL_INTR with (2 ^ 4). rewrite !nz_bit by lia.
  assert (forall n, 0 <= n < 5 -> Z.testbit (requests gb) n = true -> (forall j, 0 <= j < n -> Z.testbit (requests gb) j = false) ->
    exists i, first_request gb i /\ set_IF' (Z.lxor (IF' gb) (2 ^ n)) (set_PC (0x40 + 8 * n) gb) =
      set_IF' (Z.clearbit (IF' gb) i) (set_PC (0x40 + 8 * i) gb)) as Hi.
  { intros n Hn Ht Hj. exists n. split; [done|]. by rewrite Hx by (done || lia). }
  destruct (Z.testbit (requests gb) 0) eqn:E0; [apply (Hi 0); [lia|done|lia]|].
  destruct (Z.testbit (requests gb) 1) eqn:E1.
  { apply (Hi 1); [lia|done|]. intros j Hj. by replace j with 0 by lia. }
  destruct (Z.testbit (requests gb) 2) eqn:E2.
  { apply (Hi 2); [lia|done|]. intros j Hj. by assert (j = 0 \/ j = 1) as [-> | ->] by lia. }
  destruct (Z.testbit (requests gb) 3) eqn:E3.
  { apply (Hi 3); [lia|done|]. intros j Hj. by assert (j = 0 \/ j = 1 \/ j = 2) as [->|[->| ->]] by lia. }
  destruct (Z.testbit (requests gb) 4) eqn:E4.
  { apply (Hi 4); [lia|done|]. intros j Hj. by assert (j = 0 \/ j = 1 \/ j = 2 \/ j = 3) as [->|[->|[->| ->]]] by lia. }
  exfalso. unfold nz, ANY_INTR in Hp. apply negb_true_iff, Z.eqb_neq in Hp. apply Hp. apply Z.bits_inj'. intros n Hn.
  rewrite Z.land_spec, Z.bits_0. change 0x1F with (Z.ones 5). rewrite Z.testbit_ones_nonneg by lia.
  destruct (Z.ltb_spec n 5); [|by rewrite andb_false_r].
  by assert (n = 0 \/ n = 1 \/ n = 2 \/ n = 3 \/ n = 4) as [->|[->|[->|[->| ->]]]] by lia; rewrite ?E0, ?E1, ?E2, ?E3, ?E4.
Qed.

(** A word pushed to the work memory. *)
Lemma push16_wram v gb :
  wf gb -> 0xC002 <= SP gb <= 0xE000 -> 0 <= v < 65536 ->
  exists m, push16 v gb = Some (set_wram m (set_SP (SP gb - 2) gb)) /\ bytes 8192 m /\
    rd m (SP gb - 2 - 0xC000) = Some (v mod 256) /\ rd m (SP gb - 1 - 0xC000) = Some (v / 256).
Proof.
  intros Hwf Hsp Hv. unfold push16, push. cbn zeta. rewrite (u16_small (SP gb - 1)) by lia.
  set (g1 := set_SP (SP gb - 1) gb). change (SP g1) with (SP gb - 1). rewrite wram_write by lia. change (wram g1) with (wram gb).
  assert (is_byte (v / 256) /\ is_byte (v mod 256)) as [Hh Hl] by (unfold is_byte; zmod).
  destruct (bytes_wr 8192 (wram gb) (SP gb - 1 - 0xC000) (v / 256) (wf_wram _ Hwf) ltac:(lia) Hh) as (m1 & E1 & Hm1). rewrite E1.
  cbn [mbind option_bind]. change (SP (set_wram m1 g1)) with (SP gb - 1). replace (SP gb - 1 - 1) with (SP gb - 2) by lia.
  rewrite (u16_small (SP gb - 2)) by lia. set (g2 := set_SP (SP gb - 2) (set_wram m1 g1)). change (SP g2) with (SP gb - 2).
  rewrite wram_write by lia. change (wram g2) with m1.
  destruct (bytes_wr 8192 m1 (SP gb - 2 - 0xC000) (v mod 256) Hm1 ltac:(lia) Hl) as (m2 & E2 & Hm2). rewrite E2.
  cbn [mbind option_bind]. exists m2. split; [done|]. split; [done|].
  rewrite !(rd_wr _ _ _ _ _ E2), !(rd_wr _ _ _ _ _ E1). split; [by rewrite decide_True|].
  rewrite decide_False by lia. by rewrite decide_True.
Qed.

Lemma interrupt_entry gb :
  wf gb -> nz (gb_ime gb) = true -> nz (Z.land (requests gb) ANY_INTR) = true -> 0xC002 <= SP gb <= 0xE000 ->
  exists i m, first_request gb i /\ bytes 8192 m /\
    rd m (SP gb - 2 - 0xC000) = Some (PC gb mod 256) /\ rd m (SP gb - 1 - 0xC000) = Some (PC gb / 256) /\
    interrupts gb = Some (set_IF' (Z.clearbit (IF' gb) i) (set_PC (0x40 + 8 * i)
      (set_wram m (set_SP (SP gb - 2) (set_gb_ime 0 (set_gb_halt 0 gb)))))).
Proof.
  intros Hwf Him Hp Hsp. unfold interrupts. fold (requests gb). rewrite Him, Hp. cbn [orb andb]. cbn zeta.
  change (gb_ime (set_gb_halt 0 gb)) with (gb_ime gb). rewrite Him. set (g := set_gb_ime 0 (set_gb_halt 0 gb)).
  assert (wf g) as Hwg by wf_field. rewrite <- bind_assoc, push_pc by done.
  destruct (push16_wram (PC g) g Hwg Hsp (wf_PC _ (wf_cpu_reg _ Hwg))) as (m & -> & Hm & H1 & H2). cbn [mbind option_bind].
  set (g' := set_wram m (set_SP (SP g - 2) g)). destruct (dispatch_first g' Hp) as (i & Hi & ->). by exists i, m.
Qed.

(** C9. An interrupt and the return from it.  With interrupts enabled, a request
    pending and the stack in work memory, the step enters the handler of the
    request of highest priority, which it acknowledges, with interrupts disabled
    and the processor awake; the instruction RETI there resumes the program with
    every register as it was and interrupts enabled. *)
Theorem interrupt_and_return gb :
  wf gb -> nz (gb_ime gb) = true -> nz (Z.land (requests gb) ANY_INTR) = true -> 0xC002 <= SP gb <= 0xE000 ->
  exists i g g', first_request gb i /\ interrupts gb = Some g /\
    PC g = 0x40 + 8 * i /\ SP g = SP gb - 2 /\ IF' g = Z.clearbit (IF' gb) i /\ gb_ime g = 0 /\ gb_halt g = 0 /\
    execute 0xD9 16 g = Some (g', 16) /\ cpu_reg g' = cpu_reg gb /\ gb_ime g' = 1 /\ IF' g' = Z.clearbit (IF' gb) i.
Proof.
  intros Hwf Him Hp Hsp. destruct (interrupt_entry gb Hwf Him Hp Hsp) as (i & m & Hi & Hm & Hlo & Hhi & E).
  eexists i, _, _. split; [done|]. split; [exact E|]. do 5 (split; [done|]).
  set (g := set_IF' _ _). destruct (interrupts_yields gb Hwf) as (g1 & E1 & Hr). rewrite E in E1. injection E1 as <-.
  rewrite execute_piece by first [exact (ran_wf _ _ Hr)|by apply byte_const|done]. change (decode 0xD9) with RETI. cbn [exec].
  unfold pull16, pull. change (SP g) with (SP gb - 2). rewrite wram_read by lia. change (wram g) with m. rewrite Hlo. cbn [mbind option_bind].
  replace (u16 (SP gb - 2 + 1)) with (SP gb - 1) by (rewrite u16_small; lia). set (g2 := set_SP (SP gb - 1) g).
  change (SP g2) with (SP gb - 1). rewrite wram_read by lia. change (wram g2) with m. rewrite Hhi. cbn [mbind option_bind].
  pose proof (wf_PC _ (wf_cpu_reg _ Hwf)). replace (pair (PC gb / 256) (PC gb mod 256)) with (PC gb) by (unfold pair; zmod).
  replace (u16 (SP gb - 1 + 1)) with (SP gb) by (rewrite u16_small; lia). by split_and!.
Qed.

Lemma interrupt_and_return_witness :
  let gb := set_gb_ime 1 (set_SP 0xD000 (set_IF' 0x06 (set_IE 0x1F demo))) in
  wf gb /\ first_request gb 1 /\
  exists i g g', first_request gb i /\ interrupts gb = Some g /\
    PC g = 0x40 + 8 * i /\ SP g = SP gb - 2 /\ IF' g = Z.clearbit (IF' gb) i /\ gb_ime g = 0 /\ gb_halt g = 0 /\
    execute 0xD9 16 g = Some (g', 16) /\ cpu_reg g' = cpu_reg gb /\ gb_ime g' = 1 /\ IF' g' = Z.clearbit (IF' gb) i.
Proof.
  intros gb. assert (forall g, wf g -> wf (set_gb_ime 1 (set_SP 0xD000 (set_IF' 0x06 (set_IE 0x1F g))))) as Hset by (intros g Hg; wf_field).
  pose proof (Hset demo demo_wf) as Hwf. fold gb in Hwf. split; [exact Hwf|]. split.
  { split; [lia|]. split; [done|]. intros j Hj. by replace j with 0 by lia. }
  apply (interrupt_and_return gb); [exact Hwf|done|done|cbn; lia].
Defined.
