(* ===== verification/GbBoot.v ===== *)
(** * Game Boy: the cartridge and its clock (src/src/gameboy/cpu.c)

    [gb_init] checks the header of the cartridge and reads from it how the memory
    behind the bank switch is laid out, [gb_reset] puts the console in the state in
    which the program starts, [gb_tick_rtc] and [gb_set_rtc] are the clock of the
    cartridges that have one. *)
From S2P Require Import Prelude GbState GbMemory GbOps GbIsa GbCpu GbRun GbVideo GbSystem.

Local Open Scope Z_scope.

(** ** Start *)

Inductive gb_init_error_e := GB_INIT_NO_ERROR | GB_INIT_CARTRIDGE_UNSUPPORTED | GB_INIT_INVALID_CHECKSUM.

Definition ROM_HEADER_CHECKSUM_LOC : Z := 0x014D.

Definition gb_init_serial (f : option (Z -> Z)) (gb : gb_s) : gb_s := set_gb_serial_transfer f gb.

(** [af = 0x01B0]: A is 1, and the flags Z, H and C are set. *)
Definition reset_cpu (gb : gb_s) : gb_s :=
  let gb := set_rA 0x01 gb in
  let gb := set_fZ 1 gb in
  let gb := set_fN 0 gb in
  let gb := set_fH 1 gb in
  let gb := set_fC 1 gb in
  let gb := set_BC 0x0013 gb in
  let gb := set_DE 0x00D8 gb in
  let gb := set_HL 0x014D gb in
  let gb := set_SP 0xFFFE gb in
  set_PC 0x0100 gb.

Definition reset_io (gb : gb_s) : gb_s :=
  let gb := set_lcd_count 0 gb in
  let gb := set_div_count 0 gb in
  let gb := set_tima_count 0 gb in
  let gb := set_serial_count 0 gb in
  let gb := set_TIMA 0x00 gb in
  let gb := set_TMA 0x00 gb in
  let gb := set_TAC 0xF8 gb in
  let gb := set_DIV 0xAC gb in
  let gb := set_IF' 0xE1 gb in
  let gb := set_LCDC 0x91 gb in
  let gb := set_SCY 0x00 gb in
  let gb := set_SCX 0x00 gb in
  let gb := set_LYC 0x00 gb in
  let gb := set_SC 0x7E gb in
  let gb := set_STAT 0 gb in
  set_LY 0 gb.

Definition gb_reset (gb : gb_s) : option gb_s :=
  let gb := set_gb_halt 0 gb in
  let gb := set_gb_ime 1 gb in
  let gb := set_gb_bios_enable 0 gb in
  let gb := set_lcd_mode LCD_HBLANK gb in
  let gb := set_selected_rom_bank 1 gb in
  let gb := set_cart_ram_bank 0 gb in
  let gb := set_enable_cart_ram 0 gb in
  let gb := set_cart_mode_select 0 gb in
  let gb := reset_io (reset_cpu gb) in
  gb ← __gb_write gb 0xFF47 0xFC;
  gb ← __gb_write gb 0xFF48 0xFF;
  gb ← __gb_write gb 0xFF49 0x0F;
  let gb := set_WY 0x00 gb in
  let gb := set_WX 0x00 gb in
  let gb := set_IE 0x00 gb in
  let gb := set_joypad 0xFF gb in
  Some (set_P1 0xCF gb).

(** The tables of [gb_init]; -1 in an [unsigned char] is 255. *)
Definition cart_mbc : list Z :=
  [0; 1; 1; 1; 255; 2; 2; 255; 0; 0; 255; 0; 0; 0; 255; 3;
   3; 3; 3; 3; 255; 255; 255; 255; 255; 5; 5; 5; 5; 5; 5; 255].
Definition cart_ram_table : list Z :=
  [0; 0; 1; 1; 0; 0; 0; 0; 1; 1; 0; 0; 0; 0; 0; 0;
   1; 0; 1; 1; 0; 0; 0; 0; 0; 0; 1; 1; 0; 0; 0; 0].
Definition rom_banks_table : list Z :=
  [2; 4; 8; 16; 32; 64; 128; 256; 512] ++ replicate 73 0 ++ [72; 80; 96] ++ replicate 11 0.
Definition ram_banks_table : list Z := [0; 1; 1; 4; 16; 8].

(** The sum over the header from [i] on. *)
Fixpoint header_sum (n : nat) (i x : Z) (gb : gb_s) : option Z :=
  match n with
  | O => Some x
  | S n => v ← gb_rom_read gb i; header_sum n (i + 1) (u8 (x - v - 1)) gb
  end.

(** The value of the call and the state it leaves.  The callbacks are the
    functions of [GbMemory]. *)
Definition gb_init (gb : gb_s) : option (gb_init_error_e * gb_s) :=
  let gb := set_gb_serial_transfer None gb in
  let gb := set_interlace 0 gb in
  let gb := set_interlace_count 0 gb in
  let gb := set_frame_skip 0 gb in
  let gb := set_frame_skip_count 0 gb in
  let gb := set_window_clear 0 gb in
  let gb := set_display_WY 0 gb in
  x ← header_sum 25 0x0134 0 gb;
  c ← gb_rom_read gb ROM_HEADER_CHECKSUM_LOC;
  if negb (x =? c) then Some (GB_INIT_INVALID_CHECKSUM, gb)
  else
    mbc_value ← gb_rom_read gb 0x0147;
    if 31 <? mbc_value then Some (GB_INIT_CARTRIDGE_UNSUPPORTED, gb)
    else
      m ← rd cart_mbc mbc_value;
      let gb := set_mbc m gb in
      if mbc gb =? 255 then Some (GB_INIT_CARTRIDGE_UNSUPPORTED, gb)
      else
        r ← rd cart_ram_table mbc_value;
        let gb := set_cart_ram r gb in
        n ← gb_rom_read gb 0x0148;
        b ← rd rom_banks_table n;
        let gb := set_num_rom_banks b gb in
        n ← gb_rom_read gb 0x0149;
        b ← rd ram_banks_table n;
        let gb := set_num_ram_banks b gb in
        gb ← gb_reset gb;
        Some (GB_INIT_NO_ERROR, gb).

(** ** The start of a supported cartridge *)

(** The memory of the emulator before [gb_init]: arrays of their sizes, whatever
    is in them, and the file in memory. *)
Record allocated (gb : gb_s) : Prop := {
  al_rom : bytes 0x80000 (rom gb); al_save : bytes 0x20000 (save_ram gb);
  al_rtc : bytes 5 (cart_rtc gb); al_wram : bytes 8192 (wram gb); al_vram : bytes 8192 (vram gb);
  al_hram : bytes 256 (hram gb); al_oam : bytes 160 (oam gb);
  al_bg : bytes 4 (bg_palette gb); al_sp : bytes 8 (sp_palette gb);
  al_DMA : is_byte (DMA gb); al_SB : is_byte (SB gb); al_fb : screen_ok gb }.

(** A header that the emulator supports: the checksum is right, the type is in
    the table and has no clock, the file holds all its banks. *)
Record supported (gb : gb_s) : Prop := {
  su_sum : header_sum 25 0x0134 0 gb = rd (rom gb) 0x014D;
  su_type : exists t m r, rd (rom gb) 0x0147 = Some t /\ t <= 31 /\ rd cart_mbc t = Some m /\ m <> 255 /\
              rd cart_ram_table t = Some r /\ (m = 3 -> r = 0);
  su_rom : exists n, rd (rom gb) 0x0148 = Some n /\ n <= 4;
  su_ram : exists n, rd (rom gb) 0x0149 = Some n /\ n <= 4 }.

Lemma list4 (l : list Z) : Z.of_nat (length l) = 4 -> exists a b c d, l = [a; b; c; d].
Proof.
  intros H. assert (length l = 4%nat) as H' by lia. clear H.
  destruct l as [|a [|b [|c [|d [|]]]]]; try discriminate. by exists a, b, c, d.
Qed.

Lemma list8 (l : list Z) : Z.of_nat (length l) = 8 -> exists a b c d e f g h, l = [a; b; c; d; e; f; g; h].
Proof.
  intros H. assert (length l = 8%nat) as H' by lia. clear H.
  destruct l as [|a [|b [|c [|d [|e [|f [|g [|h [|]]]]]]]]]; try discriminate. by exists a, b, c, d, e, f, g, h.
Qed.

(** The reset sets the palettes, the registers and the bank switch. *)
Lemma gb_reset_sound gb :
  allocated gb -> is_byte (window_clear gb) -> is_byte (dWY gb) ->
  2 <= num_rom_banks gb <= 32 -> 0 <= num_ram_banks gb <= 16 -> (mbc gb = 3 -> cart_ram gb = 0) ->
  exists gb', gb_reset gb = Some gb' /\ sound gb' /\ rom gb' = rom gb /\ save_ram gb' = save_ram gb /\
    PC gb' = 0x100 /\ SP gb' = 0xFFFE /\ selected_rom_bank gb' = 1 /\ gb_ime gb' = 1 /\ lcd_on gb' = true.
Proof.
  intros [[? ?] [? ?] ? ? ? ? ? [Hbg _] [Hsp _] ? ? ?] Hw Hy Hr Hm H3.
  destruct (list4 _ Hbg) as (b0 & b1 & b2 & b3 & Ebg). destruct (list8 _ Hsp) as (s0 & s1 & s2 & s3 & s4 & s5 & s6 & s7 & Esp).
  unfold gb_reset. cbn zeta. set (g := reset_io _).
  change (__gb_write g 0xFF47 0xFC) with (p ← set_shades (bg_palette gb) 0 0xFC; Some (set_bg_palette p (set_BGP 0xFC g))).
  rewrite Ebg. change (set_shades [b0; b1; b2; b3] 0 0xFC) with (Some [0; 3; 3; 3]). cbn [mbind option_bind].
  set (g1 := set_bg_palette [0; 3; 3; 3] (set_BGP 0xFC g)).
  change (__gb_write g1 0xFF48 0xFF) with (p ← set_shades (sp_palette gb) 0 0xFF; Some (set_sp_palette p (set_OBP0 0xFF g1))).
  rewrite Esp. change (set_shades [s0; s1; s2; s3; s4; s5; s6; s7] 0 0xFF) with (Some [3; 3; 3; 3; s4; s5; s6; s7]). cbn [mbind option_bind].
  set (g2 := set_sp_palette [3; 3; 3; 3; s4; s5; s6; s7] (set_OBP0 0xFF g1)).
  change (__gb_write g2 0xFF49 0x0F) with (Some (set_sp_palette [3; 3; 3; 3; 3; 3; 0; 0] (set_OBP1 0x0F g2))). cbn [mbind option_bind].
  eexists. split; [done|]. split; [|by split_and!]. split; [|split; cbn; lia|done|right; cbn; lia].
  split; try done.
  - split; cbn; try done; (split; [done|]); repeat constructor; lia.
  - split; cbn; try done; unfold is_byte; lia.
Qed.

Lemma header_sum_rom gb gb' n : rom gb' = rom gb -> forall i x, header_sum n i x gb' = header_sum n i x gb.
Proof.
  intros H. induction n as [|n IH]; intros i x; cbn [header_sum]; [done|]. unfold gb_rom_read at 1 2. rewrite H.
  destruct (rd (rom gb) i); cbn [mbind option_bind]; [apply IH|done].
Qed.

(** A supported cartridge starts.  From memory with anything in it [gb_init]
    succeeds and leaves a sound state: the program at 0x100, the stack at 0xFFFE,
    bank 1 selected, the screen on. *)
Lemma gb_init_sound gb :
  allocated gb -> supported gb ->
  exists gb', gb_init gb = Some (GB_INIT_NO_ERROR, gb') /\ sound gb' /\ rom gb' = rom gb /\ save_ram gb' = save_ram gb /\
    PC gb' = 0x100 /\ SP gb' = 0xFFFE /\ selected_rom_bank gb' = 1 /\ gb_ime gb' = 1 /\ lcd_on gb' = true.
Proof.
  intros Hal [Hsum (t & m & r & Et & Ht & Em & Hm & Er & H3) (n1 & En1 & Hn1) (n2 & En2 & Hn2)].
  destruct Hal as [Hrom ? ? ? ? ? ? ? ? ? ? ?].
  destruct (bytes_rd _ _ 0x14D Hrom) as (c & Ec & _); [lia|]. destruct (bytes_rd _ _ 0x148 Hrom) as (? & E1 & B1); [lia|].
  destruct (bytes_rd _ _ 0x149 Hrom) as (? & E2 & B2); [lia|]. rewrite E1 in En1. injection En1 as ->. rewrite E2 in En2. injection En2 as ->.
  unfold gb_init. cbn zeta. set (g := set_display_WY 0 _). rewrite (header_sum_rom gb g) by done. rewrite Hsum, Ec.
  change (gb_rom_read g ROM_HEADER_CHECKSUM_LOC) with (rd (rom gb) 0x14D). rewrite Ec. cbn [mbind option_bind].
  rewrite Z.eqb_refl. cbn [negb]. change (gb_rom_read g 0x0147) with (rd (rom gb) 0x147). rewrite Et. cbn [mbind option_bind].
  destruct (Z.ltb_spec 31 t); [lia|]. rewrite Em. cbn [mbind option_bind]. change (mbc (set_mbc m g)) with m.
  destruct (Z.eqb_spec m 255); [done|]. rewrite Er. cbn [mbind option_bind].
  change (gb_rom_read (set_cart_ram r (set_mbc m g)) 0x0148) with (rd (rom gb) 0x148). rewrite E1. cbn [mbind option_bind].
  unfold is_byte in B1, B2.
  assert (exists b, rd rom_banks_table n1 = Some b /\ 2 <= b <= 32) as (b1 & -> & Hb1).
  { assert (n1 = 0 \/ n1 = 1 \/ n1 = 2 \/ n1 = 3 \/ n1 = 4) as [->|[->|[->|[->| ->]]]] by lia; eexists; (split; [done|lia]). }
  cbn [mbind option_bind].
  change (gb_rom_read (set_num_rom_banks b1 (set_cart_ram r (set_mbc m g))) 0x0149) with (rd (rom gb) 0x149). rewrite E2. cbn [mbind option_bind].
  assert (exists b, rd ram_banks_table n2 = Some b /\ 0 <= b <= 16) as (b2 & -> & Hb2).
  { assert (n2 = 0 \/ n2 = 1 \/ n2 = 2 \/ n2 = 3 \/ n2 = 4 \/ n2 = 5) as [->|[->|[->|[->|[->| ->]]]]] by lia; eexists; (split; [done|lia]). }
  cbn [mbind option_bind]. set (g' := set_num_ram_banks b2 _).
  destruct (gb_reset_sound g') as (gb' & -> & Hs & Hrest); try done; [by apply byte_const..|]. by exists gb'.
Qed.

(** ** Errors of the header *)

(** The checksum is compared before anything else; a type outside the table is
    refused; a type in the table that is -1 is refused after it was stored. *)
Lemma gb_init_refuses gb x c t :
  header_sum 25 0x0134 0 gb = Some x -> rd (rom gb) 0x014D = Some c -> rd (rom gb) 0x0147 = Some t ->
  (x <> c -> exists gb', gb_init gb = Some (GB_INIT_INVALID_CHECKSUM, gb') /\ cart gb' = cart gb) /\
  (x = c -> 31 < t -> exists gb', gb_init gb = Some (GB_INIT_CARTRIDGE_UNSUPPORTED, gb') /\ cart gb' = cart gb) /\
  (x = c -> t <= 31 -> rd cart_mbc t = Some 255 ->
    exists gb', gb_init gb = Some (GB_INIT_CARTRIDGE_UNSUPPORTED, gb') /\ cart gb' = cart (set_mbc 255 gb)).
Proof.
  intros Hx Hc Ht. unfold gb_init. cbn zeta. set (g := set_display_WY 0 _). rewrite (header_sum_rom gb g) by done. rewrite Hx.
  change (gb_rom_read g ROM_HEADER_CHECKSUM_LOC) with (rd (rom gb) 0x14D). rewrite Hc. cbn [mbind option_bind].
  change (gb_rom_read g 0x0147) with (rd (rom gb) 0x147). rewrite Ht. cbn [mbind option_bind]. split_and!.
  - intros Hne. destruct (Z.eqb_spec x c); [done|]. by exists g.
  - intros -> Hlt. rewrite Z.eqb_refl. cbn [negb]. destruct (Z.ltb_spec 31 t); [|lia]. by exists g.
  - intros -> Hle Hm. rewrite Z.eqb_refl. cbn [negb]. destruct (Z.ltb_spec 31 t); [lia|]. rewrite Hm. by exists (set_mbc 255 g).
Qed.

(** The codes of the bank counts are not checked: the tables are read outside
    their bounds. *)
Lemma gb_init_outside gb t m r n :
  header_sum 25 0x0134 0 gb = rd (rom gb) 0x014D -> is_Some (rd (rom gb) 0x014D) ->
  rd (rom gb) 0x0147 = Some t -> t <= 31 -> rd cart_mbc t = Some m -> m <> 255 -> rd cart_ram_table t = Some r ->
  rd (rom gb) 0x0148 = Some n -> 96 <= n -> gb_init gb = None.
Proof.
  intros Hs [c Hc] Ht Hle Hm Hne Hr Hn H96. unfold gb_init. cbn zeta. set (g := set_display_WY 0 _).
  rewrite (header_sum_rom gb g) by done. rewrite Hs, Hc.
  change (gb_rom_read g ROM_HEADER_CHECKSUM_LOC) with (rd (rom gb) 0x14D). rewrite Hc. cbn [mbind option_bind].
  rewrite Z.eqb_refl. cbn [negb]. change (gb_rom_read g 0x0147) with (rd (rom gb) 0x147). rewrite Ht. cbn [mbind option_bind].
  destruct (Z.ltb_spec 31 t); [lia|]. rewrite Hm. cbn [mbind option_bind]. change (mbc (set_mbc m g)) with m.
  destruct (Z.eqb_spec m 255); [done|]. rewrite Hr. cbn [mbind option_bind].
  change (gb_rom_read (set_cart_ram r (set_mbc m g)) 0x0148) with (rd (rom gb) 0x148). rewrite Hn. cbn [mbind option_bind].
  by rewrite (rd_None rom_banks_table n) by (cbn; lia).
Qed.

(** ** The clock *)

Record tm := Tm { tm_sec : Z; tm_min : Z; tm_hour : Z; tm_yday : Z }.

(** [++] of a byte of the clock. *)
Definition rtc_inc (i : Z) (r : list Z) : option (Z * list Z) :=
  v ← rd r i; let v := u8 (v + 1) in r ← wr r i v; Some (v, r).

Definition tick_high (r : list Z) : option (list Z) :=
  high ← rd r 4;
  r ← (if nz (Z.land high 1) then wr r 4 (Z.lor high 0x80) else Some r);
  high ← rd r 4;
  wr r 4 (Z.lxor high 1).

Definition gb_tick_rtc (gb : gb_s) : option gb_s :=
  high ← rd (cart_rtc gb) 4;
  if Z.land high 0x40 =? 0 then
    '(sec, r) ← rtc_inc 0 (cart_rtc gb);
    r ← (if sec =? 60 then
           r ← wr r 0 0;
           '(min, r) ← rtc_inc 1 r;
           if min =? 60 then
             r ← wr r 1 0;
             '(hour, r) ← rtc_inc 2 r;
             if hour =? 24 then
               r ← wr r 2 0;
               '(yday, r) ← rtc_inc 3 r;
               if yday =? 0 then tick_high r else Some r
             else Some r
           else Some r
         else Some r);
    Some (set_cart_rtc r gb)
  else Some gb.

Definition gb_set_rtc (time : tm) (gb : gb_s) : option gb_s :=
  r ← wr (cart_rtc gb) 0 (u8 (tm_sec time));
  r ← wr r 1 (u8 (tm_min time));
  r ← wr r 2 (u8 (tm_hour time));
  r ← wr r 3 (Z.land (tm_yday time) 0xFF);
  r ← wr r 4 (u8 (Z.shiftr (tm_yday time) 8));
  Some (set_cart_rtc r gb).

(** A clock that shows [s] seconds, [m] minutes, [h] hours and day [d] of 512;
    [over] is the overflow of the day counter, and it does or does not run. *)
Definition clock (s m h d : Z) (over running : bool) : list Z :=
  [s; m; h; d mod 256; d / 256 + (if running then 0 else 64) + (if over then 128 else 0)].

(** Its time in seconds. *)
Definition seconds (s m h d : Z) : Z := ((d * 24 + h) * 60 + m) * 60 + s.

Definition clock_ok (s m h d : Z) : Prop := 0 <= s < 60 /\ 0 <= m < 60 /\ 0 <= h < 24 /\ 0 <= d < 512.

Lemma tick_high_clock (h : Z) (over : bool) a b c d :
  0 <= h < 2 ->
  tick_high [a; b; c; d; h + 0 + (if over then 128 else 0)] = Some [a; b; c; d; 1 - h + 0 + (if over || (h =? 1) then 128 else 0)].
Proof. intros Hh. assert (h = 0 \/ h = 1) as [-> | ->] by lia; by destruct over. Qed.

(** The bytes of the clock by their index. *)
Lemma rtc_bytes a b c d e :
  let r := [a; b; c; d; e] in
  rd r 4 = Some e /\ rtc_inc 0 r = Some (u8 (a + 1), [u8 (a + 1); b; c; d; e]) /\ rtc_inc 1 r = Some (u8 (b + 1), [a; u8 (b + 1); c; d; e]) /\
  rtc_inc 2 r = Some (u8 (c + 1), [a; b; u8 (c + 1); d; e]) /\ rtc_inc 3 r = Some (u8 (d + 1), [a; b; c; u8 (d + 1); e]) /\
  (forall v, wr r 0 v = Some [v; b; c; d; e]) /\ (forall v, wr r 1 v = Some [a; v; c; d; e]) /\ (forall v, wr r 2 v = Some [a; b; v; d; e]) /\
  (forall v, wr r 3 v = Some [a; b; c; v; e]) /\ (forall v, wr r 4 v = Some [a; b; c; d; v]).
Proof. by split_and!. Qed.

Ltac rtc_step :=
  match goal with
  | |- context [rtc_inc 0 [?a; ?b; ?c; ?d; ?e]] => rewrite (proj1 (proj2 (rtc_bytes a b c d e)))
  | |- context [rtc_inc 1 [?a; ?b; ?c; ?d; ?e]] => rewrite (proj1 (proj2 (proj2 (rtc_bytes a b c d e))))
  | |- context [rtc_inc 2 [?a; ?b; ?c; ?d; ?e]] => rewrite (proj1 (proj2 (proj2 (proj2 (rtc_bytes a b c d e)))))
  | |- context [rtc_inc 3 [?a; ?b; ?c; ?d; ?e]] => rewrite (proj1 (proj2 (proj2 (proj2 (proj2 (rtc_bytes a b c d e))))))
  | |- context [wr [?a; ?b; ?c; ?d; ?e] 0 ?v] => change (wr [a; b; c; d; e] 0 v) with (Some [v; b; c; d; e])
  | |- context [wr [?a; ?b; ?c; ?d; ?e] 1 ?v] => change (wr [a; b; c; d; e] 1 v) with (Some [a; v; c; d; e])
  | |- context [wr [?a; ?b; ?c; ?d; ?e] 2 ?v] => change (wr [a; b; c; d; e] 2 v) with (Some [a; b; v; d; e])
  | |- context [wr [?a; ?b; ?c; ?d; ?e] 3 ?v] => change (wr [a; b; c; d; e] 3 v) with (Some [a; b; c; v; e])
  | |- context [wr [?a; ?b; ?c; ?d; ?e] 4 ?v] => change (wr [a; b; c; d; e] 4 v) with (Some [a; b; c; d; v])
  end; cbn [mbind option_bind]; rewrite ?u8_small by lia.

(** The bit that stops the clock. *)
Lemma stop_bit (x : Z) (over running : bool) :
  0 <= x < 2 -> (Z.land (x + (if running then 0 else 64) + (if over then 128 else 0)) 0x40 =? 0) = running.
Proof. intros Hx. assert (x = 0 \/ x = 1) as [-> | ->] by lia; by destruct over, running. Qed.

(** The clock of the cartridge.  A tick is one second more, the day counter
    going from 511 to 0 with its overflow bit set; a clock that is stopped does
    not change. *)
Theorem tick_rtc_seconds gb s m h d over running :
  clock_ok s m h d -> cart_rtc gb = clock s m h d over running ->
  if running then
    exists s' m' h' d', clock_ok s' m' h' d' /\
      gb_tick_rtc gb = Some (set_cart_rtc (clock s' m' h' d' (over || (seconds s m h d + 1 =? 512 * 86400)) true) gb) /\
      seconds s' m' h' d' = (seconds s m h d + 1) mod (512 * 86400)
  else gb_tick_rtc gb = Some gb.
Proof.
  intros (Hs & Hm & Hh & Hd) E. unfold clock in E. unfold gb_tick_rtc. rewrite E. assert (0 <= d / 256 < 2) as Hd2 by zmod.
  rewrite (proj1 (rtc_bytes _ _ _ _ _)). cbn [mbind option_bind]. rewrite (stop_bit _ _ _ Hd2). destruct running; [|done].
  unfold seconds. rtc_step. destruct (Z.eqb_spec (s + 1) 60) as [E1|E1]; cycle 1.
  { exists (s + 1), m, h, d. split; [unfold clock_ok; lia|]. destruct (Z.eqb_spec (((d * 24 + h) * 60 + m) * 60 + s + 1) (512 * 86400)); [lia|].
    rewrite orb_false_r. split; [done|]. rewrite Z.mod_small by lia. lia. }
  rtc_step. rtc_step. destruct (Z.eqb_spec (m + 1) 60) as [E2|E2]; cycle 1.
  { exists 0, (m + 1), h, d. split; [unfold clock_ok; lia|]. destruct (Z.eqb_spec (((d * 24 + h) * 60 + m) * 60 + s + 1) (512 * 86400)); [lia|].
    rewrite orb_false_r. split; [done|]. rewrite Z.mod_small by lia. lia. }
  rtc_step. rtc_step. destruct (Z.eqb_spec (h + 1) 24) as [E3|E3]; cycle 1.
  { exists 0, 0, (h + 1), d. split; [unfold clock_ok; lia|]. destruct (Z.eqb_spec (((d * 24 + h) * 60 + m) * 60 + s + 1) (512 * 86400)); [lia|].
    rewrite orb_false_r. split; [done|]. rewrite Z.mod_small by lia. lia. }
  rtc_step. rtc_step. exists 0, 0, 0, ((d + 1) mod 512). split; [unfold clock_ok; zmod|].
  split; [|zmod]. destruct (Z.eqb_spec (u8 (d mod 256 + 1)) 0) as [E4|E4].
  - rewrite tick_high_clock by done. cbn [mbind option_bind]. unfold clock. do 3 f_equal. rewrite E4.
    replace s with 59 by lia. replace m with 59 by lia. replace h with 23 by lia.
    assert (d = 255 \/ d = 511) as [-> | ->] by (revert E4; zwrap); by destruct over.
  - cbn [mbind option_bind]. unfold clock. assert (d mod 256 <> 255) as Hn by (intros Hx; apply E4; by rewrite Hx).
    destruct (Z.eqb_spec (((d * 24 + h) * 60 + m) * 60 + s + 1) (512 * 86400)); [exfalso; apply Hn; replace d with 511 by lia; done|].
    rewrite orb_false_r. rewrite u8_small by zmod. do 3 f_equal. replace ((d + 1) mod 512) with (d + 1) by zmod.
    replace ((d + 1) mod 256) with (d mod 256 + 1) by zmod. by replace ((d + 1) / 256) with (d / 256) by zmod.
Qed.

Lemma tick_rtc_seconds_witness :
  let gb := set_cart_rtc (clock 59 59 23 511 false true) demo in
  clock_ok 59 59 23 511 /\
  exists s' m' h' d', clock_ok s' m' h' d' /\
    gb_tick_rtc gb = Some (set_cart_rtc (clock s' m' h' d' (false || (seconds 59 59 23 511 + 1 =? 512 * 86400)) true) gb) /\
    seconds s' m' h' d' = (seconds 59 59 23 511 + 1) mod (512 * 86400).
Proof.
  intros gb. assert (clock_ok 59 59 23 511) as Hok by (unfold clock_ok; lia). split; [exact Hok|].
  exact (tick_rtc_seconds gb 59 59 23 511 false true Hok eq_refl).
Defined.

(** Setting the clock. *)
Lemma set_rtc_clock time gb :
  bytes 5 (cart_rtc gb) -> clock_ok (tm_sec time) (tm_min time) (tm_hour time) (tm_yday time) ->
  gb_set_rtc time gb = Some (set_cart_rtc (clock (tm_sec time) (tm_min time) (tm_hour time) (tm_yday time) false true) gb).
Proof.
  intros [Hl _] (Hs & Hm & Hh & Hd). unfold gb_set_rtc. assert (length (cart_rtc gb) = 5%nat) as H5 by lia. clear Hl.
  destruct (cart_rtc gb) as [|a [|b [|c [|d [|e [|]]]]]]; try discriminate. do 5 rtc_step. unfold clock. rewrite land_255.
  rewrite Z.shiftr_div_pow2 by lia. change (2 ^ 8) with 256. rewrite u8_small by zmod. by rewrite !Z.add_0_r.
Qed.

(** The cleared console and its cartridge. *)
Lemma demo_allocated : allocated demo.
Proof.
  split; [exact demo_rom_bytes|exact (zeros_bytes 0x20000 ltac:(lia))|exact (zeros_bytes 5 ltac:(lia))|
    exact (zeros_bytes 8192 ltac:(lia))|exact (zeros_bytes 8192 ltac:(lia))|exact (zeros_bytes 256 ltac:(lia))|
    exact (zeros_bytes 160 ltac:(lia))|exact (zeros_bytes 4 ltac:(lia))|exact (zeros_bytes 8 ltac:(lia))|
    by apply byte_const|by apply byte_const|exact (sound_screen _ demo_sound)].
Qed.

Lemma demo_supported : supported demo.
Proof.
  split; [lazy; reflexivity|exists 0, 0, 0|exists 0|exists 0]; (split; [lazy; reflexivity|]); [|lia|lia].
  split; [lia|]. split; [done|]. split; [done|]. split; [done|]. done.
Qed.
