(* ===== verification/GbApp.v ===== *)
(** * Game Boy: the application (src/src/gameboy/gameboy.c, video.c)

    The program around the console: the title and the size of the memory that the
    cartridge keeps, the keys as buttons, the scaling of the picture to the mode of
    the screen, and the loop over events.  The theorems: whatever events come after
    the start of a supported cartridge, no access leaves an array; every point of
    the screen shows the pixel of the picture that lies under it. *)
From S2P Require Import Prelude Keys GbState GbMemory GbOps GbIsa GbCpu GbRun GbVideo GbSystem GbBoot.

Local Open Scope Z_scope.

(** ** The cartridge's file *)

Definition ram_sizes : list Z := [0x00; 0x800; 0x2000; 0x8000; 0x20000].

Definition getsavesize (gb : gb_s) : option Z := ram_size ← gb_rom_read gb 0x0149; rd ram_sizes ram_size.

(** The loop over the title from [title_loc] on; [pos] is [title_str]. *)
Fixpoint title_loop (n : nat) (title_loc pos : Z) (gb : gb_s) (buf : list Z) : option (list Z * Z) :=
  match n with
  | O => Some (buf, pos)
  | S n =>
      v ← gb_rom_read gb title_loc;
      let title_char := s8 v in
      if (32 <=? title_char) && (title_char <=? 95) then
        buf ← wr buf pos title_char; title_loop n (title_loc + 1) (pos + 1) gb buf
      else Some (buf, pos)
  end.

Definition getromname (gb : gb_s) (title_str : list Z) : option (list Z) :=
  '(buf, pos) ← title_loop 16 0x134 0 gb title_str; wr buf pos 0.

(** ** Keys *)

Definition KEYS_KEY_ESCAPE : Z := 0x1001.
Definition KEYS_KEY_BACKSPACE : Z := 0x100E.
Definition KEYS_KEY_ENTER : Z := 0x101C.
Definition KEYS_KEY_Z : Z := 0x102C.
Definition KEYS_KEY_X : Z := 0x102D.
Definition KEYS_KEY_CURSORUP : Z := 0x2048.
Definition KEYS_KEY_CURSORLEFT : Z := 0x204B.
Definition KEYS_KEY_CURSORRIGHT : Z := 0x204D.
Definition KEYS_KEY_CURSORDOWN : Z := 0x2050.

(** The bit of [joypad_bits] for a key. *)
Definition button (id : Z) : option Z :=
  if id =? KEYS_KEY_CURSORUP then Some 6
  else if id =? KEYS_KEY_CURSORLEFT then Some 5
  else if id =? KEYS_KEY_CURSORRIGHT then Some 4
  else if id =? KEYS_KEY_CURSORDOWN then Some 7
  else if id =? KEYS_KEY_ENTER then Some 3
  else if id =? KEYS_KEY_BACKSPACE then Some 2
  else if id =? KEYS_KEY_Z then Some 0
  else if id =? KEYS_KEY_X then Some 1
  else None.

(** A pressed button is a bit that is 0.  The flag: the escape key closes the
    program. *)
Definition keypress (k : keys) (scancode : Z) (gb : gb_s) : option (keys * gb_s * bool) :=
  k ← keys_getcode k scancode;
  Some (k, match button (id k) with Some b => set_joypad (Z.clearbit (joypad gb) b) gb | None => gb end,
        id k =? KEYS_KEY_ESCAPE).

Definition keyrelease (k : keys) (scancode : Z) (gb : gb_s) : option (keys * gb_s) :=
  k ← keys_getcode k scancode;
  Some (k, match button (id k) with Some b => set_joypad (Z.setbit (joypad gb) b) gb | None => gb end).

(** ** The screen *)

Definition palette : list (list Z) :=
  [[0x00FFFFFF; 0x00A0A0A0; 0x00606060; 0x00000000];
   [0x00FFFFFF; 0x00A0A0A0; 0x00606060; 0x00000000];
   [0x00FFFFFF; 0x00A0A0A0; 0x00606060; 0x00000000]].

Definition pixel_color (pixel : Z) : option Z :=
  row ← palette !! Z.to_nat (Z.shiftr (Z.land pixel LCD_PALETTE_ALL) 4); rd row (Z.land pixel 3).

Definition udiv (a b : Z) : option Z := if b =? 0 then None else Some (a / b).

(** The inner loop, from [x] on; [psource] is the picture as one array. *)
Fixpoint render_row (n : nat) (x scalew offx ytarget ysource : Z) (psource target : list Z) : option (list Z) :=
  match n with
  | O => Some target
  | S n =>
      let xtarget := u32 (x + offx) in
      xsource ← udiv x scalew;
      pixel ← rd psource (u32 (ysource + xsource));
      color ← pixel_color pixel;
      target ← wr target (u32 (ytarget + xtarget)) color;
      render_row n (x + 1) scalew offx ytarget ysource psource target
  end.

Fixpoint render_rows (n : nat) (y w scalew scaleh totw offx offy : Z) (psource target : list Z) : option (list Z) :=
  match n with
  | O => Some target
  | S n =>
      let ytarget := u32 (u32 (y + offy) * w) in
      q ← udiv y scaleh;
      let ysource := u32 (q * LCD_WIDTH) in
      target ← render_row (Z.to_nat totw) 0 scalew offx ytarget ysource psource target;
      render_rows n (y + 1) w scalew scaleh totw offx offy psource target
  end.

Definition video_render (gb : gb_s) (target : list Z) (w scalew scaleh totw toth offx offy : Z) : option (list Z) :=
  render_rows (Z.to_nat toth) 0 w scalew scaleh totw offx offy (concat (fb gb)) target.

(** The static variables that [onvideomode] sets. *)
Record videomode := VideoMode {
  vm_w : Z; vm_h : Z; vm_scalew : Z; vm_scaleh : Z; vm_totw : Z; vm_toth : Z; vm_offx : Z; vm_offy : Z }.

Definition onvideomode (w h : Z) : videomode :=
  let scalew := w / LCD_WIDTH in
  let scaleh := h / LCD_HEIGHT in
  let totw := u32 (LCD_WIDTH * scalew) in
  let toth := u32 (LCD_HEIGHT * scaleh) in
  VideoMode w h scalew scaleh totw toth (u32 (w - totw) / 2) (u32 (h - toth) / 2).

(** ** The loop *)

Inductive event :=
| EVENT_TIMERTICK (fuel : nat)
| EVENT_KEYPRESS (scancode : Z)
| EVENT_KEYRELEASE (scancode : Z)
| EVENT_VIDEOMODE (framebuffer : list Z) (w h : Z).

Record app := App { console : gb_s; keyboard : keys; framebuffer : option (list Z); mode : videomode; closed : bool }.

Definition render (a : app) (gb : gb_s) : option app :=
  match framebuffer a with
  | Some f =>
      let m := mode a in
      f ← video_render gb f (vm_w m) (vm_scalew m) (vm_scaleh m) (vm_totw m) (vm_toth m) (vm_offx m) (vm_offy m);
      Some (App gb (keyboard a) (Some f) m (closed a))
  | None => Some (App gb (keyboard a) None (mode a) (closed a))
  end.

(** The start of [run], with the file loaded into [rom]: the error of [gb_init] is
    not looked at, the memory of the cartridge is read from the file ([saved] are
    the bytes that the call stores), the title goes to an array of 16. *)
Definition run_start (saved romname : list Z) (gb : gb_s) : option app :=
  '(_, gb) ← gb_init gb;
  size ← getsavesize gb;
  let gb := if nz size then set_save_ram (saved ++ drop (length saved) (save_ram gb)) gb else gb in
  _ ← getromname gb romname;
  Some (App gb (keys_init [0; 0; 0; 0] KEYS_LAYOUT_QWERTY_US KEYS_MAP_US) None (VideoMode 0 0 0 0 0 0 0 0) false).

(** The [switch] of [run]; [inr] is a frame that has not ended within its fuel. *)
Definition handle (e : event) (a : app) : option (app + app) :=
  match e with
  | EVENT_TIMERTICK fuel =>
      r ← gb_run_frame fuel (console a);
      match r with
      | inl gb => a ← render a gb; Some (inl a)
      | inr gb => Some (inr (App gb (keyboard a) (framebuffer a) (mode a) (closed a)))
      end
  | EVENT_KEYPRESS scancode =>
      '(k, gb, c) ← keypress (keyboard a) scancode (console a);
      Some (inl (App gb k (framebuffer a) (mode a) (closed a || c)))
  | EVENT_KEYRELEASE scancode =>
      '(k, gb) ← keyrelease (keyboard a) scancode (console a);
      Some (inl (App gb k (framebuffer a) (mode a) (closed a)))
  | EVENT_VIDEOMODE f w h => Some (inl (App (console a) (keyboard a) (Some f) (onvideomode w h) (closed a)))
  end.

(** The events one after the other, until the program closes. *)
Fixpoint session (es : list event) (a : app) : option (app + app) :=
  match es with
  | [] => Some (inl a)
  | e :: es =>
      if closed a then Some (inl a)
      else r ← handle e a; match r with inl a => session es a | inr a => Some (inr a) end
  end.

(** ** Scaling *)

Lemma concat_rd (ls : list (list Z)) a b :
  Forall line_ok ls -> 0 <= b < 160 -> 0 <= a -> rd (concat ls) (160 * a + b) = (ls !! Z.to_nat a) ≫= fun l => rd l b.
Proof.
  intros Hls Hb Ha. rewrite <- (Z2Nat.id a) at 1 by done. generalize (Z.to_nat a). clear Ha a.
  induction Hls as [|l ls [Hl _] _ IH]; intros a; cbn [concat].
  { destruct a; cbn; by apply rd_None; cbn; lia. }
  unfold rd at 1. rewrite decide_True by lia. destruct a as [|a]; cbn [lookup list_lookup].
  - rewrite lookup_app_l by lia. cbn [mbind option_bind]. unfold rd. rewrite decide_True by lia. done.
  - rewrite lookup_app_r by lia. transitivity (rd (concat ls) (160 * Z.of_nat a + b)); [|exact (IH a)]. unfold rd. rewrite decide_True by lia. by replace (Z.to_nat (160 * Z.of_nat (S a) + b) - length l)%nat with (Z.to_nat (160 * Z.of_nat a + b)) by lia.
Qed.

(** The colour that the picture has at column [x] and line [y]. *)
Definition picture (gb : gb_s) (x y : Z) : option Z := l ← fb gb !! Z.to_nat y; p ← rd l x; pixel_color p.

Lemma land_30 p : 0 <= p < 64 -> Z.shiftr (Z.land p LCD_PALETTE_ALL) 4 = p / 16.
Proof.
  intros Hp. assert (is_byte p) as Hb by (unfold is_byte; lia). unfold LCD_PALETTE_ALL.
  change (Z.shiftr (Z.land p 0x30) 4 = p / 16). rewrite Z.shiftr_land. change (Z.shiftr 0x30 4) with (2 ^ 2 - 1).
  rewrite land_pow2_pred, Z.shiftr_div_pow2 by lia. change (2 ^ 4) with 16. change (2 ^ 2) with 4. zmod.
Qed.

Lemma pixel_color_ok p : pixel_ok p -> exists c, pixel_color p = Some c.
Proof.
  intros [Hs Hp]. unfold pixel_color. rewrite land_30 by zmod. change 3 with (2 ^ 2 - 1). rewrite land_pow2_pred by lia. change (2 ^ 2) with 4.
  assert (0 <= p mod 4 < 4) as Hm by zmod.
  assert (p / 16 = 0 \/ p / 16 = 1 \/ p / 16 = 2) as [->|[->| ->]] by lia; by apply rd_Some.
Qed.

Lemma picture_ok gb x y : screen_ok gb -> 0 <= x < 160 -> 0 <= y < 144 ->
  exists p c, rd (concat (fb gb)) (160 * y + x) = Some p /\ pixel_color p = Some c /\ picture gb x y = Some c.
Proof.
  intros [Hl Hok] Hx Hy. rewrite concat_rd by (done || lia). unfold picture.
  destruct (lookup_lt_is_Some_2 (fb gb) (Z.to_nat y)) as [l El]; [lia|]. rewrite El. cbn [mbind option_bind].
  destruct (Forall_lookup_1 _ _ _ _ Hok El) as [_ Hpx]. destruct (Hpx x Hx) as (p & Ep & Hp). rewrite Ep. cbn [mbind option_bind].
  destruct (pixel_color_ok p Hp) as [c Ec]. by exists p, c.
Qed.

Section Render.
Context (gb : gb_s) (Hscr : screen_ok gb).
Context (w h sw sh : Z) (Hsw : 0 < sw) (Hsh : 0 < sh).
Context (ox oy : Z) (Hox : 0 <= ox) (Hoy : 0 <= oy) (Hw : ox + 160 * sw <= w) (Hh : oy + 144 * sh <= h) (Hwh : w * h < 4294967296).

(** A row: the points from [base + x] on get the colours of the line above them. *)
Lemma render_row_spec y : 0 <= y < 144 * sh -> forall n x t,
  x + Z.of_nat n = 160 * sw -> 0 <= x -> Z.of_nat (length t) = w * h ->
  exists t', render_row n x sw ox ((y + oy) * w) (160 * (y / sh)) (concat (fb gb)) t = Some t' /\ length t' = length t /\
    forall i, rd t' i = let X := i - (y + oy) * w - ox in
      if decide (x <= X < 160 * sw) then picture gb (X / sw) (y / sh) else rd t i.
Proof.
  intros Hy. assert (0 <= y / sh < 144) as Hq.
  { split; [apply Z.div_pos; lia|]. apply Z.div_lt_upper_bound; lia. }
  induction n as [|n IH]; intros x t Hn Hx Ht; cbn [render_row].
  { exists t. split; [done|]. split; [done|]. intros i. cbn zeta. by rewrite decide_False by lia. }
  assert (0 <= x / sw < 160) as Hp. { split; [apply Z.div_pos; lia|]. apply Z.div_lt_upper_bound; lia. }
  unfold udiv. destruct (Z.eqb_spec sw 0); [lia|]. cbn [mbind option_bind].
  assert (0 <= (y + oy) * w + (x + ox) < w * h) as Hi by nia.
  rewrite (u32_small (160 * (y / sh) + x / sw)) by lia.
  destruct (picture_ok gb (x / sw) (y / sh) Hscr Hp Hq) as (p & c & -> & Ec & Epic). cbn [mbind option_bind]. rewrite Ec. cbn [mbind option_bind].
  rewrite (u32_small (x + ox)) by nia. rewrite (u32_small ((y + oy) * w + (x + ox))) by lia.
  destruct (wr t ((y + oy) * w + (x + ox)) c) as [t1|] eqn:E1; [|rewrite wr_Some in E1; [done|lia]]. cbn [mbind option_bind].
  pose proof (wr_length _ _ _ _ E1) as Hl1. destruct (IH (x + 1) t1) as (t' & -> & Hl' & Ht'); [lia|lia|by rewrite Hl1|].
  exists t'. split; [done|]. split; [congruence|]. intros i. rewrite Ht', (rd_wr _ _ _ _ i E1). cbn zeta.
  destruct (decide (i = (y + oy) * w + (x + ox))) as [->|Hne].
  - rewrite decide_False, decide_True by lia. replace ((y + oy) * w + (x + ox) - (y + oy) * w - ox) with x by lia. done.
  - destruct (decide (x <= i - (y + oy) * w - ox < 160 * sw)); [rewrite decide_True by lia|rewrite decide_False by lia]; done.
Qed.

(** The rows from [y] on. *)
Lemma render_rows_spec : forall n y t,
  y + Z.of_nat n = 144 * sh -> 0 <= y -> Z.of_nat (length t) = w * h ->
  exists t', render_rows n y w sw sh (160 * sw) ox oy (concat (fb gb)) t = Some t' /\ length t' = length t /\
    forall X Y, 0 <= X < w -> rd t' (Y * w + X) =
      if decide (ox <= X < ox + 160 * sw /\ oy + y <= Y < oy + 144 * sh) then picture gb ((X - ox) / sw) ((Y - oy) / sh)
      else rd t (Y * w + X).
Proof.
  induction n as [|n IH]; intros y t Hn Hy Ht; cbn [render_rows].
  { exists t. split; [done|]. split; [done|]. intros X Y _. by rewrite decide_False by lia. }
  assert (0 <= y / sh < 144) as Hq. { split; [apply Z.div_pos; lia|]. apply Z.div_lt_upper_bound; lia. }
  unfold udiv. destruct (Z.eqb_spec sh 0); [lia|]. cbn [mbind option_bind].
  rewrite (u32_small (y + oy)) by nia. rewrite (u32_small ((y + oy) * w)) by nia. unfold LCD_WIDTH.
  replace (y / sh * 160) with (160 * (y / sh)) by lia. rewrite (u32_small (160 * (y / sh))) by lia.
  destruct (render_row_spec y ltac:(lia) (Z.to_nat (160 * sw)) 0 t ltac:(lia) ltac:(lia) Ht) as (t1 & -> & Hl1 & Ht1). cbn [mbind option_bind].
  destruct (IH (y + 1) t1) as (t' & -> & Hl' & Ht'); [lia|lia|by rewrite Hl1|]. exists t'. split; [done|]. split; [congruence|].
  intros X Y HX. rewrite Ht', Ht1 by done. cbn zeta.
  destruct (decide (ox <= X < ox + 160 * sw /\ oy + y <= Y < oy + 144 * sh)) as [HXY|HXY].
  - destruct (decide (Y = oy + y)) as [->|HY]; [|by rewrite decide_True by lia].
    rewrite decide_False, decide_True by lia. f_equal; f_equal; lia.
  - rewrite decide_False by lia. apply decide_False. intros Hc. apply HXY. assert (Y = y + oy) as -> by nia. lia.
Qed.

End Render.

(** The mode that [onvideomode] computes. *)
Lemma render_spec gb w h t :
  screen_ok gb -> 0 <= w -> 0 <= h -> w * h < 4294967296 -> w < 4294967296 -> h < 4294967296 -> Z.of_nat (length t) = w * h ->
  let m := onvideomode w h in
  let ox := (w - 160 * (w / 160)) / 2 in let oy := (h - 144 * (h / 144)) / 2 in
  exists t', video_render gb t w (vm_scalew m) (vm_scaleh m) (vm_totw m) (vm_toth m) (vm_offx m) (vm_offy m) = Some t' /\
    length t' = length t /\
    forall X Y, 0 <= X < w -> rd t' (Y * w + X) =
      if decide (ox <= X < ox + 160 * (w / 160) /\ oy <= Y < oy + 144 * (h / 144)) then picture gb ((X - ox) / (w / 160)) ((Y - oy) / (h / 144))
      else rd t (Y * w + X).
Proof.
  intros Hscr Hw Hh Hwh Hw32 Hh32 Ht. unfold onvideomode. cbn zeta. cbn [vm_scalew vm_scaleh vm_totw vm_toth vm_offx vm_offy]. unfold LCD_WIDTH, LCD_HEIGHT.
  assert (0 <= 160 * (w / 160) <= w /\ 0 <= 144 * (h / 144) <= h) as [Hsw Hsh] by zmod. rewrite !(u32_small (_ * _)) by lia.
  rewrite !u32_small by lia. set (ox := (w - 160 * (w / 160)) / 2). set (oy := (h - 144 * (h / 144)) / 2).
  assert (0 <= ox /\ ox + 160 * (w / 160) <= w) as [Hox Hox'] by (unfold ox; zmod).
  assert (0 <= oy /\ oy + 144 * (h / 144) <= h) as [Hoy Hoy'] by (unfold oy; zmod). unfold video_render.
  destruct (Z.eq_dec (h / 144) 0) as [E0|E0].
  { rewrite E0. cbn [Z.mul]. change (Z.to_nat (144 * 0)) with 0%nat. exists t. split; [done|]. split; [done|]. intros. by rewrite decide_False by lia. }
  destruct (Z.eq_dec (w / 160) 0) as [E1|E1].
  { rewrite E1. enough (forall n y, 0 <= y -> render_rows n y w 0 (h / 144) (160 * 0) ox oy (concat (fb gb)) t = Some t) as ->.
    - exists t. split; [done|]. split; [done|]. intros. by rewrite decide_False by lia.
    - lia.
    - induction n as [|n IH]; intros y Hy; cbn [render_rows]; [done|]. unfold udiv. destruct (Z.eqb_spec (h / 144) 0); [done|].
      cbn [mbind option_bind]. change (Z.to_nat (160 * 0)) with 0%nat. cbn [render_row mbind option_bind]. apply IH. lia. }
  destruct (render_rows_spec gb Hscr w h (w / 160) (h / 144) ltac:(lia) ltac:(lia) ox oy Hox Hoy Hox' Hoy' Hwh (Z.to_nat (144 * (h / 144))) 0 t)
    as (t' & -> & Hl & Hp); [lia|lia|done|]. exists t'. split; [done|]. split; [done|]. intros X Y HX. rewrite Hp by done.
  by rewrite Z.add_0_r.
Qed.

(** C39. The picture on the screen.  After a change of the mode to any width and
    height (of a frame buffer of as many points) [video_render] stores within the
    buffer, and every point shows the pixel of the picture it belongs to, the
    picture scaled by the largest whole factors that fit and put in the middle;
    the points around it keep what they have. *)
Theorem screen_shows_picture gb w h t :
  screen_ok gb -> 0 <= w -> 0 <= h -> w * h < 4294967296 -> w < 4294967296 -> h < 4294967296 -> Z.of_nat (length t) = w * h ->
  let m := onvideomode w h in
  let ox := (w - 160 * (w / 160)) / 2 in let oy := (h - 144 * (h / 144)) / 2 in
  exists t', video_render gb t w (vm_scalew m) (vm_scaleh m) (vm_totw m) (vm_toth m) (vm_offx m) (vm_offy m) = Some t' /\
    length t' = length t /\
    forall X Y, 0 <= X < w -> rd t' (Y * w + X) =
      if decide (ox <= X < ox + 160 * (w / 160) /\ oy <= Y < oy + 144 * (h / 144)) then picture gb ((X - ox) / (w / 160)) ((Y - oy) / (h / 144))
      else rd t (Y * w + X).
Proof. apply render_spec. Qed.

Lemma screen_shows_picture_witness :
  let w := 320 in let h := 300 in let t := zeros (320 * 300) in
  screen_ok demo /\ Z.of_nat (length t) = w * h /\
  let m := onvideomode w h in
  let ox := (w - 160 * (w / 160)) / 2 in let oy := (h - 144 * (h / 144)) / 2 in
  exists t', video_render demo t w (vm_scalew m) (vm_scaleh m) (vm_totw m) (vm_toth m) (vm_offx m) (vm_offy m) = Some t' /\
    length t' = length t /\
    forall X Y, 0 <= X < w -> rd t' (Y * w + X) =
      if decide (ox <= X < ox + 160 * (w / 160) /\ oy <= Y < oy + 144 * (h / 144)) then picture demo ((X - ox) / (w / 160)) ((Y - oy) / (h / 144))
      else rd t (Y * w + X).
Proof.
  pose proof (zeros_bytes (320 * 300) ltac:(lia)) as [Hl _]. cbv zeta. split; [exact (sound_screen _ demo_sound)|]. split; [exact Hl|].
  refine (screen_shows_picture demo 320 300 (zeros (320 * 300)) (sound_screen _ demo_sound) _ _ _ _ _ Hl); clear; lia.
Defined.

(** ** Sessions *)

(** The mode belongs to the frame buffer. *)
Definition buffer_ok (f : list Z) (w h : Z) : Prop :=
  0 <= w < 4294967296 /\ 0 <= h < 4294967296 /\ w * h < 4294967296 /\ Z.of_nat (length f) = w * h.

Record app_ok (a : app) : Prop := {
  ok_console : sound (console a); ok_keyboard : kb_ok (keyboard a);
  ok_buffer : forall f, framebuffer a = Some f -> exists w h, buffer_ok f w h /\ mode a = onvideomode w h }.

Definition event_ok (e : event) : Prop :=
  match e with
  | EVENT_TIMERTICK _ => True
  | EVENT_KEYPRESS s | EVENT_KEYRELEASE s => 0 <= s < 256
  | EVENT_VIDEOMODE f w h => buffer_ok f w h
  end.

Lemma joypad_sound gb v : sound gb -> is_byte v -> sound (set_joypad v gb).
Proof. intros [Hwf ? ? ?] Hv. split; try done. wf_field. Qed.

Lemma button_range id b : button id = Some b -> 0 <= b < 8.
Proof. unfold button. intros H. repeat case_match; simplify_eq; lia. Qed.

Lemma clearbit_byte v b : is_byte v -> 0 <= b < 8 -> is_byte (Z.clearbit v b).
Proof.
  unfold is_byte. intros Hv Hb. rewrite Z.clearbit_spec', Z.ldiff_land. apply byte_land. done.
Qed.

Lemma setbit_byte v b : is_byte v -> 0 <= b < 8 -> is_byte (Z.setbit v b).
Proof.
  intros Hv Hb. unfold Z.setbit. apply byte_lor; [done|]. rewrite Z.shiftl_1_l. split; [apply Z.pow_nonneg; lia|].
  apply Z.le_lt_trans with (2 ^ 7); [apply Z.pow_le_mono_r; lia|lia].
Qed.

Lemma getcode_ok k s : kb_ok k -> 0 <= s < 256 -> yields (keys_getcode k s) kb_ok.
Proof.
  intros Hk Hs. destruct (Z.eq_dec s 0xE0) as [->|Hne].
  - destruct Hk as (? & ? & _). apply yields_ret. split_and!; try done; [cbn; lia..|by right].
  - destruct (keys_getcode_event k s Hk Hs Hne) as (k' & -> & Hk' & _). by apply yields_ret.
Qed.

Lemma frame_loop_sound fuel : forall gb, sound gb -> yields (frame_loop fuel gb) (fun r => match r with inl g | inr g => sound g end).
Proof.
  induction fuel as [|fuel IH]; intros gb Hs; cbn [frame_loop]; (case_match; [by apply yields_ret|]); [by apply yields_ret|].
  eapply yields_bind; [by apply step_yields|]. intros. by apply IH.
Qed.

Lemma handle_ok e a : app_ok a -> event_ok e -> yields (handle e a) (fun r => match r with inl a | inr a => app_ok a end).
Proof.
  intros [Hc Hk Hb] He. destruct e as [fuel|s|s|f w h]; cbn [handle event_ok] in *.
  - eapply yields_bind. { apply frame_loop_sound. destruct Hc as [Hwf ? ? ?]. split; try done. wf_field. }
    intros [gb|gb] Hs; [|apply yields_ret; by split]. unfold render. destruct (framebuffer a) as [f|] eqn:Ef; [|apply yields_ret; by split].
    destruct (Hb f eq_refl) as (w & h & (Hw & Hh & Hwh & Hl) & Em).
    destruct (render_spec gb w h f (sound_screen _ Hs)) as (f' & E & Hl' & _); try lia. cbn zeta. rewrite Em in *.
    change (vm_w (onvideomode w h)) with w. rewrite E. apply yields_ret. split; [done|done|]. cbn. intros ? [= <-]. exists w, h. split; [|done].
    split_and!; try lia.
  - unfold keypress. rewrite bind_assoc. eapply yields_bind; [by apply getcode_ok|]. intros k Hk'. apply yields_ret. split; [|done|done]. cbn.
    destruct (button (id k)) as [b|] eqn:Eb; [|done]. pose proof (wf_joypad _ (sound_wf _ Hc)).
    apply joypad_sound; [done|]. apply clearbit_byte; [done|]. by eapply button_range.
  - unfold keyrelease. rewrite bind_assoc. eapply yields_bind; [by apply getcode_ok|]. intros k Hk'. apply yields_ret. split; [|done|done]. cbn.
    destruct (button (id k)) as [b|] eqn:Eb; [|done]. pose proof (wf_joypad _ (sound_wf _ Hc)).
    apply joypad_sound; [done|]. apply setbit_byte; [done|]. by eapply button_range.
  - apply yields_ret. split; [done|done|]. cbn. intros ? [= <-]. by exists w, h.
Qed.

Lemma session_ok es : forall a, app_ok a -> Forall event_ok es -> yields (session es a) (fun r => match r with inl a | inr a => app_ok a end).
Proof.
  induction es as [|e es IH]; intros a Ha Hes; cbn [session]; [by apply yields_ret|]. inversion Hes as [|? ? He Hes']. subst.
  case_match; [by apply yields_ret|]. eapply yields_bind; [by apply handle_ok|]. intros [a'|a'] Ha'; [by apply IH|by apply yields_ret].
Qed.

(** ** The title *)

(** A title that ends within its sixteen characters fits, one of sixteen does not:
    the terminator is written past the array. *)
Lemma title_loop_ends gb : bytes 0x80000 (rom gb) -> forall n pos b i v,
  pos + Z.of_nat n = 16 -> pos <= i < 16 -> 0 <= pos -> length b = 16%nat -> rd (rom gb) (0x134 + i) = Some v -> is_byte v -> ~ (32 <= v <= 95) ->
  exists b' p, title_loop n (0x134 + pos) pos gb b = Some (b', p) /\ length b' = 16%nat /\ 0 <= p < 16.
Proof.
  intros Hrom. induction n as [|n IH]; intros pos b i v Hn Hi Hp Hb Ev Hv Hnp; cbn [title_loop]; [lia|]. unfold gb_rom_read.
  destruct (bytes_rd _ _ (0x134 + pos) Hrom) as (c & Ec & Hc); [lia|]. rewrite Ec. cbn [mbind option_bind]. unfold is_byte in *.
  destruct (decide (32 <= c <= 95)) as [Hok|Hno].
  - assert (s8 c = c) as -> by (zunfold; repeat case_match; zmod).
    destruct (Z.leb_spec 32 c), (Z.leb_spec c 95); try lia. cbn [andb]. rewrite wr_Some by lia. cbn [mbind option_bind].
    replace (0x134 + pos + 1) with (0x134 + (pos + 1)) by lia.
    apply (IH (pos + 1) _ i v); try done; try lia; [|by rewrite length_insert].
    destruct (Z.eq_dec i pos) as [->|]; [|lia]. rewrite Ec in Ev. injection Ev as ->. done.
  - assert ((32 <=? s8 c) && (s8 c <=? 95) = false) as ->.
    { apply andb_false_iff. rewrite !Z.leb_gt. zunfold. repeat case_match; zmod. }
    exists b, pos. split_and!; done || lia.
Qed.

Lemma getromname_fits gb buf i v :
  bytes 0x80000 (rom gb) -> length buf = 16%nat -> 0 <= i < 16 -> rd (rom gb) (0x134 + i) = Some v -> is_byte v -> ~ (32 <= v <= 95) ->
  is_Some (getromname gb buf).
Proof.
  intros Hrom Hb Hi Ev Hv Hnp. unfold getromname.
  destruct (title_loop_ends gb Hrom 16 0 buf i v) as (b & p & E & Hl & Hp); try done; try lia.
  change (0x134 + 0) with 0x134 in E. rewrite E. cbn [mbind option_bind]. rewrite wr_Some by lia. done.
Qed.

(** ** The whole program *)

Lemma saved_sound gb saved :
  sound gb -> Forall is_byte saved -> (length saved <= length (save_ram gb))%nat ->
  sound (set_save_ram (saved ++ drop (length saved) (save_ram gb)) gb).
Proof.
  intros [Hwf ? ? ?] Hs Hl. split; try done. assert (length (saved ++ drop (length saved) (save_ram gb)) = length (save_ram gb)) as El
    by (rewrite length_app, length_drop; lia).
  destruct Hwf as [? ? ? [] ? ? ? ? ? ? ?]. split; try done. split; cbn; rewrite ?El; try done.
  apply Forall_app. split; [done|]. by apply Forall_drop.
Qed.

(** C5. The emulator is safe.  From memory with anything in it, [run] starts a
    supported cartridge whose title is shorter than sixteen characters, and
    whatever the program in the cartridge does and whatever timer ticks, keys and
    changes of the screen mode follow, no access of the emulator leaves an array:
    every event is handled, and the state stays sound. *)
Theorem emulator_safe gb saved romname es i v :
  allocated gb -> supported gb -> Forall is_byte saved -> (length saved <= length (save_ram gb))%nat -> length romname = 16%nat ->
  0 <= i < 16 -> rd (rom gb) (0x134 + i) = Some v -> ~ (32 <= v <= 95) -> Forall event_ok es ->
  exists a r, run_start saved romname gb = Some a /\ session es a = Some r /\ match r with inl a | inr a => app_ok a end.
Proof.
  intros Hal Hsu Hsv Hln Hrn Hi Ev Hnp Hes. pose proof (al_rom _ Hal) as Hrom. unfold run_start.
  destruct (gb_init_sound gb Hal Hsu) as (gb' & -> & Hs & Hrm & Hsr & _). cbn [mbind option_bind].
  destruct (su_ram _ Hsu) as (n & En & Hn). unfold getsavesize, gb_rom_read. rewrite Hrm, En. cbn [mbind option_bind].
  destruct (bytes_rd _ _ 0x149 Hrom) as (n' & En' & Bn); [lia|]. rewrite En in En'. injection En' as <-. unfold is_byte in Bn.
  destruct (rd_Some ram_sizes n) as [size ->]; [cbn; lia|]. cbn [mbind option_bind].
  set (g := if nz size then _ else gb'). assert (sound g /\ rom g = rom gb) as [Hg Hrg].
  { unfold g. case_match; [|done]. split; [|done]. apply saved_sound; [done|done|]. by rewrite Hsr. }
  destruct (bytes_rd _ _ (0x134 + i) Hrom) as (v' & Ev' & Bv); [lia|]. rewrite Ev in Ev'. injection Ev' as <-.
  destruct (getromname_fits g romname i v) as [b ->]; try done; [by rewrite Hrg..|]. cbn [mbind option_bind].
  eexists _. destruct (session_ok es (App g (keys_init [0; 0; 0; 0] KEYS_LAYOUT_QWERTY_US KEYS_MAP_US) None (VideoMode 0 0 0 0 0 0 0 0) false))
    as (r & Er & Hr); [|done|]; [|by exists r].
  split; [done| |done]. split_and!; cbn; try done. by left.
Qed.

Lemma emulator_safe_witness :
  let es := [EVENT_VIDEOMODE (zeros (320 * 300)) 320 300; EVENT_TIMERTICK (Z.to_nat 20000); EVENT_KEYPRESS 0x1C; EVENT_KEYRELEASE 0x9C] in
  allocated demo /\ supported demo /\ Forall event_ok es /\
  exists a r, run_start [] (replicate 16 0) demo = Some a /\ session es a = Some r /\ match r with inl a | inr a => app_ok a end.
Proof.
  intros es. assert (Forall event_ok es) as Hes.
  { constructor; [|constructor; [exact I|constructor; [cbn; lia|constructor; [cbn; lia|constructor]]]].
    split; [lia|]. split; [lia|]. split; [lia|]. exact (proj1 (zeros_bytes (320 * 300) ltac:(lia))). }
  split; [exact demo_allocated|]. split; [exact demo_supported|]. split; [exact Hes|].
  refine (emulator_safe demo [] (replicate 16 0) es 0 0 demo_allocated demo_supported _ _ _ _ _ _ Hes);
    [constructor|apply Nat.le_0_l|reflexivity|clear; lia|reflexivity|clear; lia].
Defined.

(** ** Keys and the register of the buttons *)

(** The bit of P1 that a program reads for a button: directions when bit 4 of P1
    is written as 0, the others when it is 1. *)
Definition read_buttons (gb : gb_s) (directions : bool) : option Z :=
  gb ← __gb_write gb 0xFF00 (if directions then 0x20 else 0x10); v ← __gb_read gb 0xFF00; Some (Z.land v 0x0F).

Lemma read_buttons_joypad gb (directions : bool) :
  is_byte (joypad gb) -> read_buttons gb directions = Some (if directions then joypad gb / 16 else joypad gb mod 16).
Proof.
  intros Hj. unfold read_buttons. destruct directions.
  - change (__gb_write gb 0xFF00 0x20) with (Some (set_P1 (Z.lor 0x20 (Z.shiftr (joypad gb) 4)) gb)). cbn [mbind option_bind].
    change (__gb_read (set_P1 (Z.lor 0x20 (Z.shiftr (joypad gb) 4)) gb) 0xFF00) with (Some (Z.lor 0xC0 (Z.lor 0x20 (Z.shiftr (joypad gb) 4)))).
    cbn [mbind option_bind]. f_equal. generalize dependent (joypad gb). intros j Hj. all_bytes j.
  - change (__gb_write gb 0xFF00 0x10) with (Some (set_P1 (Z.lor 0x10 (Z.land (joypad gb) 0x0F)) gb)). cbn [mbind option_bind].
    change (__gb_read (set_P1 (Z.lor 0x10 (Z.land (joypad gb) 0x0F)) gb) 0xFF00) with (Some (Z.lor 0xC0 (Z.lor 0x10 (Z.land (joypad gb) 0x0F)))).
    cbn [mbind option_bind]. f_equal. generalize dependent (joypad gb). intros j Hj. all_bytes j.
Qed.

(** A title of sixteen characters is written past the end of the array of
    sixteen: the terminator has no room. *)
Lemma getromname_overflow gb buf :
  length buf = 16%nat -> (forall i, 0 <= i < 16 -> exists v, rd (rom gb) (0x134 + i) = Some v /\ 32 <= v <= 95) -> getromname gb buf = None.
Proof.
  intros Hl Ht. unfold getromname.
  enough (forall n pos b, pos + Z.of_nat n = 16 -> 0 <= pos -> length b = 16%nat ->
    exists b', title_loop n (0x134 + pos) pos gb b = Some (b', 16) /\ length b' = 16%nat) as H.
  { destruct (H 16%nat 0 buf) as (b & E & Hb); [lia|lia|done|]. change (0x134 + 0) with 0x134 in E. rewrite E. cbn [mbind option_bind].
    apply wr_None. lia. }
  induction n as [|n IH]; intros pos b Hn Hp Hb; cbn [title_loop].
  { exists b. split; [|done]. do 2 f_equal. lia. }
  destruct (Ht pos ltac:(lia)) as (v & Ev & Hv). unfold gb_rom_read. rewrite Ev. cbn [mbind option_bind].
  assert (s8 v = v) as -> by (zunfold; repeat case_match; zmod).
  destruct (Z.leb_spec 32 v), (Z.leb_spec v 95); try lia. cbn [andb]. rewrite wr_Some by lia. cbn [mbind option_bind].
  replace (0x134 + pos + 1) with (0x134 + (pos + 1)) by lia. apply IH; [lia|lia|by rewrite length_insert].
Qed.
