(* ===== verification/WmStrpool.v ===== *)
(** * Window manager: the string pool (src/src/wm/strpool.c)

    The strings of all widgets lie one behind the other in one array of 16 KiB;
    a widget has the number of an index entry with the offset and the length of
    its string.  Freeing a string moves the strings behind it down and corrects
    their entries.  The main theorem is a refinement: the pool is a finite map of
    numbers to strings, and an update changes one of them.  [None] is an access
    outside an array. *)
From S2P Require Import Prelude Buffer Cstring Option.

Local Open Scope Z_scope.

Definition MAX_STRINGS : Z := 512.
Definition STRINGDATA_SIZE : Z := 0x4000.

Record strindex := StrIndex { s_offset : Z; s_length : Z }.

(** The static objects of the file. *)
Record strpool := StrPool { strdata : list Z; strdataoffset : Z; index : list strindex }.

Definition no_index : strindex := StrIndex 0 0.

Definition getindex (p : strpool) (i : Z) : option strindex := index p !! Z.to_nat i.

(** The loop of [findslot], from [i] on. *)
Fixpoint findslot_loop (fuel : nat) (i : Z) (p : strpool) : option Z :=
  match fuel with
  | O => Some 0
  | S fuel =>
      s ← getindex p i;
      if (s_offset s =? 0) && (s_length s =? 0) then Some i else findslot_loop fuel (i + 1) p
  end.

Definition findslot (p : strpool) : option Z := findslot_loop (Z.to_nat (MAX_STRINGS - 1)) 1 p.

(** The pointer is the offset into [strdata]. *)
Definition strpool_getstring (p : strpool) (i : Z) : option Z := s ← getindex p i; Some (s_offset s).

(** The object behind that pointer. *)
Definition string_at (p : strpool) (i : Z) : option (list Z) :=
  o ← strpool_getstring p i; Some (drop (Z.to_nat o) (strdata p)).

Definition strpool_getcstringlength (p : strpool) (i : Z) : option Z :=
  s ← getindex p i; Some (if s_length s =? 0 then 0 else u32 (s_length s - 1)).

Definition savedata (count : Z) (data : list Z) (p : strpool) : option (Z * strpool) :=
  slot ← findslot p;
  if slot =? 0 then Some (slot, p)
  else
    let s := StrIndex (strdataoffset p) count in
    '(d, n) ← buffer_write (strdata p) STRINGDATA_SIZE data (s_length s) (s_offset s);
    Some (slot, StrPool d (u32 (strdataoffset p + n)) (<[Z.to_nat slot := s]> (index p))).

(** The copy of [buffer_write] within one object, byte by byte upwards. *)
Fixpoint shift_loop (n : nat) (to from : Z) (d : list Z) : option (list Z) :=
  match n with
  | O => Some d
  | S n => v ← rd d from; d ← wr d to v; shift_loop n (to + 1) (from + 1) d
  end.

Definition shift_data (d : list Z) (ocount from icount offset : Z) : option (list Z) :=
  if ocount <=? offset then Some d
  else
    let icount := if u32 (ocount - offset) <? icount then u32 (ocount - offset) else icount in
    shift_loop (Z.to_nat icount) offset from d.

Definition freedata (i : Z) (p : strpool) : option (Z * strpool) :=
  s ← getindex p i;
  let offset := s_offset s in
  let length := s_length s in
  let next := u32 (s_offset s + s_length s) in
  let count := u32 (strdataoffset p - next) in
  d ← shift_data (strdata p) STRINGDATA_SIZE next count offset;
  let ix := <[Z.to_nat i := no_index]> (index p) in
  let ix := (fun c => if offset <? s_offset c then StrIndex (u32 (s_offset c - length)) (s_length c) else c) <$> ix in
  Some (0, StrPool d (u32 (strdataoffset p - length)) ix).

(** [cstring] is the null pointer or an object. *)
Definition strpool_updatestring (i : Z) (cstring : option (list Z)) (p : strpool) : option (Z * strpool) :=
  '(i, p) ← (if i =? 0 then Some (i, p) else freedata i p);
  match cstring with
  | None => Some (i, p)
  | Some s => n ← cstring_length_zero s; savedata n s p
  end.

(** ** The strings in the pool *)

(** The strings in the order in which they lie in the array, each with the number
    of its entry. *)
Definition layout := list (nat * list Z).

Definition text (e : nat * list Z) : list Z := e.2 ++ [0].
Definition image (L : layout) : list Z := L ≫= text.

(** Entry [i] for a layout that starts at [o]. *)
Fixpoint entry (L : layout) (o : nat) (i : nat) : strindex :=
  match L with
  | [] => no_index
  | e :: L => if decide (e.1 = i) then StrIndex (Z.of_nat o) (Z.of_nat (length (text e))) else entry L (o + length (text e)) i
  end.

Record pool_ok (L : layout) (p : strpool) : Prop := {
  ok_size : length (strdata p) = Z.to_nat STRINGDATA_SIZE;
  ok_data : take (length (image L)) (strdata p) = image L;
  ok_room : (length (image L) <= Z.to_nat STRINGDATA_SIZE)%nat;
  ok_offset : strdataoffset p = Z.of_nat (length (image L));
  ok_index : index p = entry L 0 <$> seq 0 (Z.to_nat MAX_STRINGS);
  ok_slots : NoDup L.*1;
  ok_range : Forall (fun e => (0 < e.1 < Z.to_nat MAX_STRINGS)%nat /\ Forall (fun c => c <> 0) e.2) L }.

(** The pool as a map. *)
Definition contents (L : layout) : gmap nat (list Z) := list_to_map L.

Lemma image_app L M : image (L ++ M) = image L ++ image M.
Proof. apply bind_app. Qed.

Lemma image_cons e L : image (e :: L) = text e ++ image L.
Proof. done. Qed.

Lemma text_length e : length (text e) = S (length e.2).
Proof. unfold text. rewrite length_app. cbn. lia. Qed.

Lemma entry_app L M o i :
  entry (L ++ M) o i = if decide (i ∈ L.*1) then entry L o i else entry M (o + length (image L)) i.
Proof.
  revert o. induction L as [|e L IH]; intros o; cbn [app entry].
  { cbn [fmap list_fmap]. rewrite decide_False by apply not_elem_of_nil. by rewrite Nat.add_0_r. }
  cbn [fmap list_fmap]. destruct (decide (e.1 = i)) as [->|Hne].
  - rewrite decide_True; [done|]. left.
  - rewrite IH, image_cons, length_app. destruct (decide (i ∈ L.*1)) as [Hi|Hi].
    + rewrite decide_True by (by right). done.
    + rewrite decide_False by (by rewrite not_elem_of_cons). f_equal. lia.
Qed.

Lemma entry_notin L o i : i ∉ L.*1 -> entry L o i = no_index.
Proof.
  revert o. induction L as [|e L IH]; intros o; cbn [fmap list_fmap entry]; [done|]. rewrite not_elem_of_cons. intros [Hne Hi].
  rewrite decide_False by done. by apply IH.
Qed.

(** Moving the layout moves every entry. *)
Lemma entry_shift L o k i : i ∈ L.*1 -> entry L (o + k) i = StrIndex (s_offset (entry L o i) + Z.of_nat k) (s_length (entry L o i)).
Proof.
  revert o. induction L as [|e L IH]; intros o; cbn [fmap list_fmap entry]; [by intros ?%not_elem_of_nil|].
  rewrite elem_of_cons. destruct (decide (e.1 = i)) as [->|Hne]; cbn; [intros _; f_equal; lia|].
  intros [->|Hi]; [done|]. rewrite <- IH by done. f_equal. lia.
Qed.

Lemma entry_offset_ge L o i : i ∈ L.*1 -> Z.of_nat o <= s_offset (entry L o i).
Proof.
  revert o. induction L as [|e L IH]; intros o; cbn [fmap list_fmap entry]; [by intros ?%not_elem_of_nil|].
  rewrite elem_of_cons. destruct (decide (e.1 = i)) as [->|Hne]; cbn; [lia|]. intros [->|Hi]; [done|].
  specialize (IH (o + length (text e))%nat Hi). lia.
Qed.

Lemma entry_offset_lt L o i : i ∈ L.*1 -> s_offset (entry L o i) < Z.of_nat (o + length (image L)).
Proof.
  revert o. induction L as [|e L IH]; intros o; cbn [fmap list_fmap entry]; [by intros ?%not_elem_of_nil|].
  rewrite elem_of_cons, image_cons, length_app. pose proof (text_length e). destruct (decide (e.1 = i)) as [->|Hne]; cbn; [lia|].
  intros [->|Hi]; [done|]. specialize (IH (o + length (text e))%nat Hi). lia.
Qed.

Lemma getindex_ok L p i : pool_ok L p -> 0 <= i < MAX_STRINGS -> getindex p i = Some (entry L 0 (Z.to_nat i)).
Proof.
  intros H Hi. unfold getindex. rewrite (ok_index _ _ H), list_lookup_fmap, lookup_seq_lt by lia. done.
Qed.

(** ** Finding a slot *)

Lemma entry_free L i : (entry L 0 i = no_index /\ i ∉ L.*1) \/ (i ∈ L.*1 /\ 0 < s_length (entry L 0 i)).
Proof.
  destruct (decide (i ∈ L.*1)) as [Hi|Hi]; [right|left; split; [by apply entry_notin|done]]. split; [done|].
  generalize 0%nat. induction L as [|e L IH]; intros o; cbn [fmap list_fmap] in *; [by apply not_elem_of_nil in Hi|].
  cbn [entry]. pose proof (text_length e). destruct (decide (e.1 = i)) as [_|Hne]; [cbn; lia|].
  apply elem_of_cons in Hi as [->|Hi]; [done|]. by apply IH.
Qed.

Lemma findslot_loop_ok L p : pool_ok L p -> forall fuel i,
  0 < i -> i + Z.of_nat fuel = MAX_STRINGS ->
  exists slot, findslot_loop fuel i p = Some (Z.of_nat slot) /\
    (slot = 0%nat /\ (forall j, i <= Z.of_nat j < MAX_STRINGS -> j ∈ L.*1) \/ (0 < slot < Z.to_nat MAX_STRINGS)%nat /\ slot ∉ L.*1).
Proof.
  intros Hp. induction fuel as [|fuel IH]; intros i Hi Hf; cbn [findslot_loop].
  { exists 0%nat. split; [done|]. left. split; [done|]. lia. }
  rewrite (getindex_ok L p) by (done || lia). cbn [mbind option_bind].
  destruct (entry_free L (Z.to_nat i)) as [[-> Hn]|[Hin Hlen]].
  - exists (Z.to_nat i). cbn. split; [f_equal; lia|]. right. split; [unfold MAX_STRINGS in *; lia|done].
  - destruct (Z.eqb_spec (s_length (entry L 0 (Z.to_nat i))) 0); [lia|]. rewrite andb_false_r.
    destruct (IH (i + 1)) as (slot & -> & Hs); [lia|lia|]. exists slot. split; [done|].
    destruct Hs as [[-> Hall]|Hs]; [left|by right]. split; [done|]. intros j Hj.
    destruct (Z.eq_dec (Z.of_nat j) i) as [<-|]; [by rewrite Nat2Z.id in Hin|]. apply Hall. lia.
Qed.

Lemma findslot_ok L p : pool_ok L p ->
  exists slot, findslot p = Some (Z.of_nat slot) /\
    (slot = 0%nat /\ (forall j, 1 <= Z.of_nat j < MAX_STRINGS -> j ∈ L.*1) \/ (0 < slot < Z.to_nat MAX_STRINGS)%nat /\ slot ∉ L.*1).
Proof. intros Hp. apply (findslot_loop_ok L p Hp); unfold MAX_STRINGS; lia. Qed.

(** There is a free entry when fewer than 511 strings are in the pool. *)
Lemma slots_left L p : pool_ok L p -> (length L < 511)%nat -> exists j, 1 <= Z.of_nat j < MAX_STRINGS /\ j ∉ L.*1.
Proof.
  intros Hp Hl. destruct (decide (Forall (fun j => j ∈ L.*1) (seq 1 511))) as [Hall|Hno].
  - exfalso. assert (length (seq 1 511) <= length L.*1)%nat as Hle.
    { apply NoDup_incl_length; [apply NoDup_ListNoDup, NoDup_seq|]. intros j Hj%list_elem_of_In.
      apply list_elem_of_In. by eapply Forall_forall in Hall. }
    rewrite length_seq, length_fmap in Hle. lia.
  - apply not_Forall_Exists in Hno; [|solve_decision]. apply Exists_exists in Hno as (j & Hj%elem_of_seq & Hn).
    exists j. split; [unfold MAX_STRINGS; lia|done].
Qed.

(** ** Saving *)

Lemma contents_snoc L k s : k ∉ L.*1 -> contents (L ++ [(k, s)]) = <[k := s]> (contents L).
Proof. apply list_to_map_snoc. Qed.

Lemma pool_snoc L p slot s d :
  pool_ok L p -> (0 < slot < Z.to_nat MAX_STRINGS)%nat -> slot ∉ L.*1 -> Forall (fun c => c <> 0) s ->
  (length (image L) + S (length s) <= Z.to_nat STRINGDATA_SIZE)%nat ->
  d = splice (strdata p) (length (image L)) (s ++ [0]) ->
  pool_ok (L ++ [(slot, s)]) (StrPool d (Z.of_nat (length (image L) + S (length s)))
    (<[slot := StrIndex (Z.of_nat (length (image L))) (Z.of_nat (S (length s)))]> (index p))).
Proof.
  intros [Hsz Hd Hr Ho Hix Hnd Hrg] Hs Hn Hz Hroom ->. assert (image (L ++ [(slot, s)]) = image L ++ s ++ [0]) as Him.
  { rewrite image_app. unfold image at 2. cbn. unfold text. cbn. by rewrite app_nil_r. }
  assert (length (image (L ++ [(slot, s)])) = (length (image L) + S (length s))%nat) as Hlen by (rewrite Him, !length_app; cbn; lia).
  split; cbn [strdata strdataoffset index].
  - rewrite length_splice; [done|]. rewrite length_app. cbn. lia.
  - rewrite Hlen, Him. unfold splice. rewrite Hd, app_assoc. apply take_app_length'. rewrite !length_app. cbn. lia.
  - by rewrite Hlen.
  - by rewrite Hlen.
  - rewrite Hix. apply list_eq. intros i. rewrite list_lookup_fmap. destruct (decide (i = slot)) as [->|Hne].
    + rewrite list_lookup_insert_eq by (rewrite length_fmap, length_seq; lia). rewrite lookup_seq_lt by lia. cbn [fmap option_fmap option_map Nat.add].
      rewrite entry_app, decide_False by done. cbn [entry fst]. rewrite decide_True by done. unfold text. cbn [snd]. rewrite length_app. cbn. do 2 f_equal; lia.
    + rewrite list_lookup_insert_ne, list_lookup_fmap by done. destruct (seq 0 (Z.to_nat MAX_STRINGS) !! i) as [j|] eqn:E; [|done].
      apply lookup_seq in E as [-> Hi]. cbn [fmap option_fmap option_map Nat.add]. rewrite entry_app. cbn [entry fst].
      rewrite (decide_False (P := slot = i)) by done. case_decide; [done|]. by rewrite entry_notin.
  - rewrite fmap_app. apply NoDup_app. split; [done|]. split; [|apply NoDup_singleton]. intros x Hx. cbn. by intros ->%list_elem_of_singleton.
  - apply Forall_app. split; [done|]. by constructor.
Qed.

Lemma savedata_ok L p s obj :
  pool_ok L p -> is_string s obj -> (length L < 511)%nat -> (length (image L) + S (length s) <= Z.to_nat STRINGDATA_SIZE)%nat ->
  exists slot p', savedata (Z.of_nat (S (length s))) obj p = Some (Z.of_nat slot, p') /\ slot ∉ L.*1 /\ pool_ok (L ++ [(slot, s)]) p'.
Proof.
  intros Hp [[Hz [rest ->]] _] Hn Hroom. pose proof (ok_room _ _ Hp) as Hr. pose proof (ok_offset _ _ Hp) as Ho. pose proof (ok_size _ _ Hp) as Hsz.
  destruct (findslot_ok L p Hp) as (slot & Es & [[-> Hall]|[Hs Hno]]).
  { exfalso. destruct (slots_left L p Hp Hn) as (j & Hj & Hnj). by apply Hnj, Hall. }
  unfold savedata. rewrite Es. cbn [mbind option_bind]. destruct (Z.eqb_spec (Z.of_nat slot) 0); [lia|]. cbn [s_length s_offset].
  rewrite Ho. unfold STRINGDATA_SIZE, MAX_STRINGS in *.
  rewrite buffer_write_spec by (unfold max32; rewrite ?length_app; cbn [length]; lia). cbn [mbind option_bind].
  assert (room 0x4000 (Z.of_nat (S (length s))) (Z.of_nat (length (image L))) = Z.of_nat (S (length s))) as ->.
  { unfold room. case_match; lia. }
  exists slot. eexists. split; [done|]. split; [done|]. rewrite !Nat2Z.id, u32_small by lia. rewrite <- Nat2Z.inj_add.
  apply pool_snoc; try done. by rewrite take_zero_string.
Qed.

(** ** Freeing *)

Lemma shift_loop_spec n : forall to from d,
  0 <= to <= from -> from + Z.of_nat n <= Z.of_nat (length d) ->
  shift_loop n to from d = Some (splice d (Z.to_nat to) (slice d (Z.to_nat from) n)).
Proof.
  induction n as [|n IH]; intros to from d Ht Hf; cbn [shift_loop]; [by rewrite slice_0, splice_nil|].
  destruct (rd_Some d from) as [v Hv]; [lia|]. rewrite Hv. cbn [mbind option_bind]. apply rd_lookup in Hv.
  rewrite wr_Some by lia. cbn [mbind option_bind]. rewrite IH by (rewrite ?length_insert; lia). f_equal.
  replace (Z.to_nat (to + 1)) with (S (Z.to_nat to)) by lia. replace (Z.to_nat (from + 1)) with (S (Z.to_nat from)) by lia.
  rewrite (slice_S d _ _ v Hv). rewrite <- splice_cons.
  - f_equal. unfold slice. f_equal. apply drop_insert_lt. lia.
  - unfold slice. rewrite length_take, length_drop. lia.
Qed.

Lemma contents_delete A k s B : NoDup (A ++ (k, s) :: B).*1 -> contents (A ++ B) = delete k (contents (A ++ (k, s) :: B)).
Proof.
  intros Hnd. unfold contents. assert (A ++ (k, s) :: B ≡ₚ (k, s) :: A ++ B) as Hperm by (symmetry; apply Permutation_middle).
  rewrite (list_to_map_proper _ _ Hnd Hperm). rewrite list_to_map_cons. rewrite delete_insert_id; [done|].
  apply not_elem_of_list_to_map. intros Hin. rewrite Hperm in Hnd. cbn in Hnd. by inversion Hnd.
Qed.

(** The entries after string [k] was taken out. *)
Lemma entries_freed A k s B i :
  NoDup (A ++ (k, s) :: B).*1 ->
  let L := A ++ (k, s) :: B in let o := Z.of_nat (length (image A)) in let n := Z.of_nat (S (length s)) in
  Z.of_nat (length (image L)) < 4294967296 ->
  (let c := if decide (i = k) then no_index else entry L 0 i in
   if o <? s_offset c then StrIndex (u32 (s_offset c - n)) (s_length c) else c) = entry (A ++ B) 0 i.
Proof.
  intros Hnd L o n Hlen. subst L o n. rewrite fmap_app in Hnd. apply NoDup_app in Hnd as (_ & Hdis & HndB). cbn in Hdis, HndB.
  apply NoDup_cons in HndB as [HkB _].
  destruct (decide (i = k)) as [->|Hne].
  { assert (k ∉ A.*1) as HkA by (intros H; apply (Hdis k H); left). rewrite (entry_notin (A ++ B)).
    - cbn. by destruct (Z.ltb_spec (Z.of_nat (length (image A))) 0); [lia|].
    - rewrite fmap_app, elem_of_app. by intros [|]. }
  rewrite !entry_app. destruct (decide (i ∈ A.*1)) as [HA|HA].
  - cbn zeta. pose proof (entry_offset_lt A 0 i HA). destruct (Z.ltb_spec (Z.of_nat (length (image A))) (s_offset (entry A 0 i))); [lia|done].
  - cbn [entry fst]. rewrite decide_False by done. rewrite !Nat.add_0_l. destruct (decide (i ∈ B.*1)) as [HB|HB].
    + cbn zeta. assert (length (text (k, s)) = S (length s)) as Ht by apply text_length. rewrite Ht.
      rewrite (entry_shift B (length (image A)) (S (length s)) i HB). cbn [s_offset s_length].
      pose proof (entry_offset_ge B (length (image A)) i HB). pose proof (entry_offset_lt B (length (image A)) i HB) as Hlt.
      rewrite image_app, image_cons, !length_app, Ht in Hlen.
      destruct (Z.ltb_spec (Z.of_nat (length (image A))) (s_offset (entry B (length (image A)) i) + Z.of_nat (S (length s)))); [|lia].
      rewrite u32_small by lia. destruct (entry B (length (image A)) i). cbn. f_equal. lia.
    + cbn zeta. rewrite !entry_notin by done. cbn. destruct (Z.ltb_spec (Z.of_nat (length (image A))) 0); [lia|done].
Qed.

Lemma freedata_ok A k s B p :
  pool_ok (A ++ (k, s) :: B) p -> exists p', freedata (Z.of_nat k) p = Some (0, p') /\ pool_ok (A ++ B) p'.
Proof.
  intros Hp. pose proof Hp as [Hsz Hd Hr Ho Hix Hnd Hrg]. set (L := A ++ (k, s) :: B) in *.
  assert ((0 < k < Z.to_nat MAX_STRINGS)%nat /\ Forall (fun c => c <> 0) s) as [Hk Hz].
  { rewrite Forall_forall in Hrg. apply (Hrg (k, s)). subst L. rewrite elem_of_app, elem_of_cons. auto. }
  assert (image L = image A ++ (s ++ [0]) ++ image B) as Him by (subst L; by rewrite image_app, image_cons).
  assert (length (image L) = (length (image A) + S (length s) + length (image B))%nat) as Hlen by (rewrite Him, !length_app; cbn; lia).
  assert (k ∉ A.*1) as HkA. { intros HA. subst L. rewrite fmap_app in Hnd. apply NoDup_app in Hnd as (_ & Hdis & _). apply (Hdis k HA). left. }
  unfold freedata. unfold STRINGDATA_SIZE, MAX_STRINGS in *. rewrite (getindex_ok L p) by (unfold MAX_STRINGS; done || lia). cbn [mbind option_bind].
  rewrite Nat2Z.id.
  assert (entry L 0 k = StrIndex (Z.of_nat (length (image A))) (Z.of_nat (S (length s)))) as ->.
  { subst L. rewrite entry_app, decide_False by done. cbn [entry fst]. rewrite decide_True by done. by rewrite text_length. }
  cbn [s_offset s_length]. rewrite Ho. rewrite (u32_small (_ + _)) by lia.
  rewrite (u32_small (Z.of_nat (length (image L)) - (Z.of_nat (length (image A)) + Z.of_nat (S (length s))))) by lia.
  unfold shift_data. destruct (Z.leb_spec 0x4000 (Z.of_nat (length (image A)))); [lia|]. rewrite (u32_small (0x4000 - _)) by lia.
  destruct (Z.ltb_spec (0x4000 - Z.of_nat (length (image A))) (Z.of_nat (length (image L)) - (Z.of_nat (length (image A)) + Z.of_nat (S (length s))))); [lia|].
  rewrite shift_loop_spec by lia. cbn [mbind option_bind].
  replace (Z.to_nat (Z.of_nat (length (image L)) - (Z.of_nat (length (image A)) + Z.of_nat (S (length s))))) with (length (image B)) by lia.
  replace (Z.to_nat (Z.of_nat (length (image A)) + Z.of_nat (S (length s)))) with (length (image A) + S (length s))%nat by lia. rewrite Nat2Z.id.
  assert (slice (strdata p) (length (image A) + S (length s)) (length (image B)) = image B) as Hsl.
  { unfold slice. rewrite <- (take_drop (length (image L)) (strdata p)), Hd, Him, app_assoc, <- app_assoc, drop_app_length'
      by (rewrite !length_app; cbn; lia). apply take_app_length. }
  rewrite Hsl. eexists. split; [done|]. rewrite (u32_small (_ - _)) by lia.
  assert (take (length (image A)) (strdata p) = image A) as HdA.
  { transitivity (take (length (image A)) (image L)); [|rewrite Him; apply take_app_length].
    rewrite <- Hd, take_take. f_equal. lia. }
  split; cbn [strdata strdataoffset index].
  - rewrite length_splice; [done|lia].
  - rewrite image_app. unfold splice. rewrite HdA, app_assoc. apply take_app_length'. by rewrite length_app.
  - rewrite image_app, length_app. unfold STRINGDATA_SIZE. lia.
  - rewrite image_app, length_app. lia.
  - rewrite Hix. apply list_eq. intros i. rewrite !list_lookup_fmap. destruct (decide (i < 512)%nat) as [Hi|Hi].
    + rewrite (lookup_seq_lt 0 (Z.to_nat MAX_STRINGS) i) by (unfold MAX_STRINGS; lia). cbn [Nat.add fmap option_fmap option_map].
      rewrite <- (entries_freed A k s B i Hnd) by (fold L; lia). fold L. cbn zeta.
      destruct (decide (i = k)) as [->|Hne].
      * rewrite list_lookup_insert_eq by (rewrite length_fmap, length_seq; lia). done.
      * rewrite list_lookup_insert_ne, list_lookup_fmap by done. rewrite lookup_seq_lt by lia. done.
    + rewrite lookup_ge_None_2 by (rewrite length_insert, length_fmap, length_seq; lia).
      rewrite (lookup_ge_None_2 (seq _ _)) by (rewrite length_seq; unfold MAX_STRINGS; lia). done.
  - subst L. rewrite fmap_app in *. cbn in Hnd. apply NoDup_app in Hnd as (HA & Hdis & HB). apply NoDup_cons in HB as [_ HB].
    apply NoDup_app. split; [done|]. split; [|done]. intros x Hx Hx'. apply (Hdis x Hx). by right.
  - subst L. apply Forall_app in Hrg as [HA HB]. apply Forall_app. split; [done|]. by inversion HB.
Qed.

(** ** Reading *)

Lemma string_at_ok L p k s :
  pool_ok L p -> contents L !! k = Some s ->
  exists o, string_at p (Z.of_nat k) = Some o /\ is_string s o /\ strpool_getcstringlength p (Z.of_nat k) = Some (Z.of_nat (length s)).
Proof.
  intros Hp Hk. apply elem_of_list_to_map_2 in Hk. apply list_elem_of_split in Hk as (A & B & ->).
  pose proof Hp as [Hsz Hd Hr Ho Hix Hnd Hrg]. set (L := A ++ (k, s) :: B) in *.
  assert ((0 < k < Z.to_nat MAX_STRINGS)%nat /\ Forall (fun c => c <> 0) s) as [Hk Hz].
  { rewrite Forall_forall in Hrg. apply (Hrg (k, s)). subst L. rewrite elem_of_app, elem_of_cons. auto. }
  assert (k ∉ A.*1) as HkA. { intros HA. subst L. rewrite fmap_app in Hnd. apply NoDup_app in Hnd as (_ & Hdis & _). apply (Hdis k HA). left. }
  assert (entry L 0 k = StrIndex (Z.of_nat (length (image A))) (Z.of_nat (S (length s)))) as He.
  { subst L. rewrite entry_app, decide_False by done. cbn [entry fst]. rewrite decide_True by done. by rewrite text_length. }
  unfold string_at, strpool_getstring, strpool_getcstringlength. unfold MAX_STRINGS, STRINGDATA_SIZE in *.
  rewrite (getindex_ok L p) by (unfold MAX_STRINGS; done || lia). cbn [mbind option_bind]. rewrite Nat2Z.id, He. cbn [s_offset s_length].
  assert (length (image L) = (length (image A) + S (length s) + length (image B))%nat) as Hlen
    by (subst L; rewrite image_app, image_cons, !length_app, text_length; cbn; lia).
  eexists. split; [done|]. split.
  - split; [|unfold max32; lia]. split; [done|]. rewrite Nat2Z.id. rewrite <- (take_drop (length (image L)) (strdata p)), Hd.
    subst L. rewrite image_app, image_cons, <- app_assoc, drop_app_length. unfold text. cbn [snd]. rewrite <- !app_assoc. by eexists.
  - destruct (Z.eqb_spec (Z.of_nat (S (length s))) 0); [lia|]. rewrite u32_small by lia. f_equal. lia.
Qed.

(** ** Updating *)

(** Freeing string [i], or none for 0. *)
Lemma free_ok L p i :
  pool_ok L p -> i = 0%nat \/ is_Some (contents L !! i) ->
  exists M p', (if Z.of_nat i =? 0 then Some (Z.of_nat i, p) else freedata (Z.of_nat i) p) = Some (0, p') /\ pool_ok M p' /\
    contents M = delete i (contents L) /\ (length M <= length L)%nat /\ (length (image M) <= length (image L))%nat.
Proof.
  intros Hp [->|[s Hs]].
  - exists L, p. split_and!; try done. rewrite delete_id; [done|]. apply not_elem_of_list_to_map. intros Hin.
    pose proof (ok_range _ _ Hp) as Hr. apply list_elem_of_fmap in Hin as ([k s] & E & Hin). rewrite Forall_forall in Hr.
    destruct (Hr _ Hin) as [Hk _]. cbn in *. lia.
  - apply elem_of_list_to_map_2 in Hs. pose proof (ok_range _ _ Hp) as Hr. rewrite Forall_forall in Hr. destruct (Hr _ Hs) as [Hk _]. cbn in Hk.
    apply list_elem_of_split in Hs as (A & B & ->). destruct (Z.eqb_spec (Z.of_nat i) 0); [lia|].
    destruct (freedata_ok A i s B p Hp) as (p' & E & Hp'). exists (A ++ B), p'. split_and!; try done.
    + apply contents_delete, Hp.
    + rewrite !length_app. cbn. lia.
    + rewrite !image_app, image_cons, !length_app. lia.
Qed.

Lemma update_ok L p i s obj :
  pool_ok L p -> i = 0%nat \/ is_Some (contents L !! i) -> is_string s obj ->
  (length L < 511)%nat -> (length (image L) + S (length s) <= Z.to_nat STRINGDATA_SIZE)%nat ->
  exists slot M p', strpool_updatestring (Z.of_nat i) (Some obj) p = Some (Z.of_nat slot, p') /\ pool_ok M p' /\ slot <> 0%nat /\
    delete i (contents L) !! slot = None /\ contents M = <[slot := s]> (delete i (contents L)) /\
    (length M <= S (length L))%nat /\ (length (image M) <= length (image L) + S (length s))%nat.
Proof.
  intros Hp Hi Hs Hn Hroom. destruct (free_ok L p i Hp Hi) as (M & p1 & E & Hp1 & Hc & Hl & Him). unfold strpool_updatestring. rewrite E.
  cbn [mbind option_bind]. unfold cstring_length_zero. pose proof Hs as [[Hz [rest ->]] Hlen]. unfold max32 in Hlen.
  rewrite cstring_length_spec by (unfold max32; done || lia). cbn [mbind option_bind]. rewrite u32_small by lia.
  replace (Z.of_nat (length s) + 1) with (Z.of_nat (S (length s))) by lia.
  destruct (savedata_ok M p1 s (s ++ 0 :: rest) Hp1 Hs) as (slot & p' & -> & Hno & Hp'); [lia|lia|].
  exists slot, (M ++ [(slot, s)]), p'. split_and!; try done.
  - pose proof (ok_range _ _ Hp') as Hr. apply Forall_app in Hr as [_ Hr]. inversion Hr as [|? ? [Hk _] _]. cbn in Hk. lia.
  - rewrite <- Hc. by apply not_elem_of_list_to_map.
  - rewrite contents_snoc by done. by rewrite Hc.
  - rewrite length_app. cbn. lia.
  - rewrite image_app, length_app, image_cons, length_app, text_length. cbn. lia.
Qed.

(** C14. The string pool is a map of numbers to strings.  While there is room for
    it, [strpool_updatestring] frees the string of its number and stores the new
    one under a number that no other string has; every other number keeps its
    string, though the string moves in the array; and for every number
    [strpool_getstring] points at the terminated string and
    [strpool_getcstringlength] is its length. *)
Theorem strpool_refines_map L p i s obj :
  pool_ok L p -> i = 0%nat \/ is_Some (contents L !! i) -> is_string s obj ->
  (length L < 511)%nat -> (length (image L) + S (length s) <= Z.to_nat STRINGDATA_SIZE)%nat ->
  exists slot M p', strpool_updatestring (Z.of_nat i) (Some obj) p = Some (Z.of_nat slot, p') /\ pool_ok M p' /\
    delete i (contents L) !! slot = None /\ contents M = <[slot := s]> (delete i (contents L)) /\
    forall j t, contents M !! j = Some t ->
      exists o, string_at p' (Z.of_nat j) = Some o /\ cstr t o /\ strpool_getcstringlength p' (Z.of_nat j) = Some (Z.of_nat (length t)).
Proof.
  intros Hp Hi Hs Hn Hroom. destruct (update_ok L p i s obj Hp Hi Hs Hn Hroom) as (slot & M & p' & E & HM & _ & Hnew & Hc & _).
  exists slot, M, p'. split_and!; try done. intros j t Ht. destruct (string_at_ok M p' j t HM Ht) as (o & ? & [? _] & ?). by exists o.
Qed.

(** The pool at the start. *)
Definition empty_pool : strpool :=
  StrPool (replicate (Z.to_nat STRINGDATA_SIZE) 0) 0 (replicate (Z.to_nat MAX_STRINGS) no_index).

Lemma empty_pool_ok : pool_ok [] empty_pool.
Proof.
  split; cbn [strdata strdataoffset index empty_pool].
  - apply length_replicate.
  - done.
  - cbn. lia.
  - done.
  - apply list_eq. intros i. rewrite list_lookup_fmap. destruct (decide (i < Z.to_nat MAX_STRINGS)%nat) as [Hi|Hi].
    + by rewrite lookup_replicate_2, lookup_seq_lt by done.
    + rewrite !lookup_ge_None_2; [done|rewrite length_seq; lia|rewrite length_replicate; lia].
  - constructor.
  - constructor.
Qed.

Lemma strpool_refines_map_witness :
  exists slot M p', strpool_updatestring (Z.of_nat 0) (Some [114; 111; 111; 116; 0]) empty_pool = Some (Z.of_nat slot, p') /\ pool_ok M p' /\
    delete 0%nat (contents []) !! slot = None /\ contents M = <[slot := [114; 111; 111; 116]]> (delete 0%nat (contents [])) /\
    forall j t, contents M !! j = Some t ->
      exists o, string_at p' (Z.of_nat j) = Some o /\ cstr t o /\ strpool_getcstringlength p' (Z.of_nat j) = Some (Z.of_nat (length t)).
Proof.
  apply (strpool_refines_map [] empty_pool 0 [114; 111; 111; 116] [114; 111; 111; 116; 0]).
  - exact empty_pool_ok.
  - by left.
  - split; [split; [repeat constructor; lia|by exists []]|unfold max32; cbn; lia].
  - cbn. lia.
  - change (image []) with (@nil Z). unfold STRINGDATA_SIZE. cbn [length]. lia.
Defined.

(** ** Errors *)

(** Number 0 stands for no string, but its entry points at the start of the
    array: the string that lies there is read for it. *)
Lemma no_string_reads_first L p k s :
  pool_ok ((k, s) :: L) p -> exists o, string_at p 0 = Some o /\ cstr s o.
Proof.
  intros Hp. pose proof Hp as [Hsz Hd _ _ _ _ Hrg]. unfold string_at, strpool_getstring.
  rewrite (getindex_ok ((k, s) :: L) p) by (unfold MAX_STRINGS; done || lia). cbn [mbind option_bind]. inversion Hrg as [|? ? [Hk Hz] Hrest]; subst.
  rewrite entry_notin.
  - cbn. eexists. split; [done|]. split; [done|]. change (Z.to_nat 0) with 0%nat. rewrite drop_0.
    rewrite <- (take_drop (length (image ((k, s) :: L))) (strdata p)), Hd, image_cons. unfold text. cbn [snd]. rewrite <- !app_assoc. by eexists.
  - intros Hin. pose proof (ok_range _ _ Hp) as Hr. apply list_elem_of_fmap in Hin as ([k' s'] & E & Hin). rewrite Forall_forall in Hr.
    destruct (Hr _ Hin) as [Hk' _]. cbn in *. lia.
Qed.
