(* ===== verification/WmWidget.v ===== *)
(** * Window manager: widgets and attributes (src/src/wm/util.c, attr.c, widget.c)

    A widget has a type and a payload, the union of the structures of all types:
    here the eleven words of the largest of them, so that what a type leaves
    uninitialised is what the previous widget of the entry stored there.  Strings
    are numbers of the pool of [WmStrpool].  The main theorem is the ownership of
    strings: every string in the pool belongs to one field of one widget.  [None]
    is an access outside an object or through a null pointer. *)
From stdpp Require Import strings.
From S2P Require Import Prelude Buffer Cstring Option WmStrpool.

Local Open Scope Z_scope.

(** ** util.c *)

Definition util_intersects (v mn mx : Z) : Z := Z.b2z ((mn <=? v) && (v <? mx)).
Definition util_min (a b : Z) : Z := if a <? b then a else b.
Definition util_max (a b : Z) : Z := if b <? a then a else b.
Definition util_clamp (v mn mx : Z) : Z :=
  let v := if v <? mn then mn else v in
  if mx <? v then mx else v.

Record util_position := Position { p_x : Z; p_y : Z }.
Definition util_initposition (x y : Z) : util_position := Position x y.

Record util_size := Size { s_w : Z; s_h : Z }.
Definition util_initsize (w h : Z) : util_size := Size w h.

Record util_box := Box { b_x : Z; b_y : Z; b_w : Z; b_h : Z }.
Definition util_initbox (x y w h : Z) : util_box := Box x y w h.

(** A literal of the source, with its terminator. *)
Definition literal (s : String.string) : list Z :=
  ((fun c => Z.of_nat (Ascii.nat_of_ascii c)) <$> String.list_ascii_of_string s) ++ [0].

Record util_token := Token { t_key : Z; t_value : list Z }.

Fixpoint util_getkey (tokens : list util_token) (value : list Z) : option Z :=
  match tokens with
  | [] => Some 0
  | t :: tokens => m ← cstring_match (t_value t) value; if m =? 0 then util_getkey tokens value else Some (t_key t)
  end.

(** ** attr.c *)

Definition ATTR_COLOR : Z := 1.
Definition ATTR_COLUMNS : Z := 2.
Definition ATTR_CONTENT : Z := 3.
Definition ATTR_CURSOR : Z := 4.
Definition ATTR_FLOW : Z := 5.
Definition ATTR_HALIGN : Z := 6.
Definition ATTR_ID : Z := 7.
Definition ATTR_IN : Z := 8.
Definition ATTR_LABEL : Z := 9.
Definition ATTR_MIMETYPE : Z := 10.
Definition ATTR_MODE : Z := 11.
Definition ATTR_ONCLICK : Z := 12.
Definition ATTR_OVERFLOW : Z := 13.
Definition ATTR_PADDING : Z := 14.
Definition ATTR_SOURCE : Z := 15.
Definition ATTR_SPAN : Z := 16.
Definition ATTR_TITLE : Z := 17.
Definition ATTR_VALIGN : Z := 18.
Definition ATTR_WEIGHT : Z := 19.
Definition ATTR_WRAP : Z := 20.

Local Notation "'tok' k v" := (Token k (literal v%string)) (at level 10, k at level 9, v at level 9).

Definition flows : list util_token :=
  [tok 0 "default"; tok 1 "horizontal"; tok 2 "horizontal-stretch"; tok 3 "vertical"; tok 4 "vertical-stretch"].
Definition haligns : list util_token := [tok 0 "left"; tok 1 "center"; tok 2 "right"].
Definition mimetypes : list util_token := [tok 1 "image/fudge-icon-mouse"; tok 2 "image/pcx"].
Definition modes : list util_token := [tok 0 "normal"; tok 1 "readonly"].
Definition overflows : list util_token := [tok 0 "none"; tok 1 "scroll"; tok 2 "hscroll"; tok 3 "vscroll"].
Definition valigns : list util_token := [tok 0 "top"; tok 1 "middle"; tok 2 "bottom"].
Definition weights : list util_token := [tok 0 "normal"; tok 1 "bold"].
Definition wraps : list util_token := [tok 0 "none"; tok 1 "char"; tok 2 "word"].

Definition attr_isvalue (a : Z) : bool :=
  (a =? ATTR_COLOR) || (a =? ATTR_COLUMNS) || (a =? ATTR_CURSOR) || (a =? ATTR_PADDING) || (a =? ATTR_SPAN).
Definition attr_isstring (a : Z) : bool :=
  (a =? ATTR_CONTENT) || (a =? ATTR_ID) || (a =? ATTR_IN) || (a =? ATTR_LABEL) || (a =? ATTR_ONCLICK) ||
  (a =? ATTR_SOURCE) || (a =? ATTR_TITLE).
Definition attr_isenum (a : Z) : bool :=
  (a =? ATTR_FLOW) || (a =? ATTR_HALIGN) || (a =? ATTR_MIMETYPE) || (a =? ATTR_MODE) || (a =? ATTR_OVERFLOW) ||
  (a =? ATTR_VALIGN) || (a =? ATTR_WEIGHT) || (a =? ATTR_WRAP).

(** A number or a keyword, read from a pointer that must not be null. *)
Definition read_number (value : option (list Z)) (base : Z) (p : strpool) : option (Z * strpool) :=
  v ← value; n ← cstring_length v; x ← cstring_read_value v n base; Some (x, p).
Definition read_key (tokens : list util_token) (value : option (list Z)) (p : strpool) : option (Z * strpool) :=
  v ← value; k ← util_getkey tokens v; Some (k, p).

Definition attr_update (a : Z) (value : option (list Z)) (current : Z) (p : strpool) : option (Z * strpool) :=
  if a =? ATTR_COLOR then read_number value 16 p
  else if a =? ATTR_COLUMNS then read_number value 10 p
  else if a =? ATTR_CONTENT then strpool_updatestring current value p
  else if a =? ATTR_CURSOR then read_number value 10 p
  else if a =? ATTR_FLOW then read_key flows value p
  else if a =? ATTR_HALIGN then read_key haligns value p
  else if a =? ATTR_ID then strpool_updatestring current value p
  else if a =? ATTR_IN then strpool_updatestring current value p
  else if a =? ATTR_LABEL then strpool_updatestring current value p
  else if a =? ATTR_MIMETYPE then read_key mimetypes value p
  else if a =? ATTR_MODE then read_key modes value p
  else if a =? ATTR_ONCLICK then strpool_updatestring current value p
  else if a =? ATTR_OVERFLOW then read_key overflows value p
  else if a =? ATTR_PADDING then read_number value 10 p
  else if a =? ATTR_SOURCE then strpool_updatestring current value p
  else if a =? ATTR_SPAN then read_number value 10 p
  else if a =? ATTR_TITLE then strpool_updatestring current value p
  else if a =? ATTR_VALIGN then read_key valigns value p
  else if a =? ATTR_WEIGHT then read_key weights value p
  else if a =? ATTR_WRAP then read_key wraps value p
  else Some (0, p).

(** ** widget.c *)

Definition WIDGET_TYPE_BUTTON : Z := 1.
Definition WIDGET_TYPE_CHOICE : Z := 2.
Definition WIDGET_TYPE_FILL : Z := 3.
Definition WIDGET_TYPE_IMAGE : Z := 4.
Definition WIDGET_TYPE_LAYOUT : Z := 5.
Definition WIDGET_TYPE_LISTBOX : Z := 6.
Definition WIDGET_TYPE_SELECT : Z := 7.
Definition WIDGET_TYPE_TEXT : Z := 8.
Definition WIDGET_TYPE_TEXTBOX : Z := 9.
Definition WIDGET_TYPE_TEXTBUTTON : Z := 10.
Definition WIDGET_TYPE_WINDOW : Z := 11.
Definition WIDGET_STATE_NORMAL : Z := 0.
Definition WIDGET_STATE_HOVER : Z := 1.
Definition WIDGET_STATE_HOVEROFF : Z := 2.
Definition WIDGET_STATE_FOCUS : Z := 3.
Definition WIDGET_STATE_FOCUSOFF : Z := 4.
Definition WIDGET_STATE_DESTROYED : Z := 5.

(** [struct widget], with the payload that [data] points at. *)
Record widget := Widget {
  w_source : Z; w_type : Z; w_state : Z; w_id : Z; w_in : Z; w_span : Z; w_data : list Z; w_bb : util_box; w_clip : util_box }.

Definition set_id (v : Z) (w : widget) : widget :=
  Widget (w_source w) (w_type w) (w_state w) v (w_in w) (w_span w) (w_data w) (w_bb w) (w_clip w).
Definition set_in (v : Z) (w : widget) : widget :=
  Widget (w_source w) (w_type w) (w_state w) (w_id w) v (w_span w) (w_data w) (w_bb w) (w_clip w).
Definition set_span (v : Z) (w : widget) : widget :=
  Widget (w_source w) (w_type w) (w_state w) (w_id w) (w_in w) v (w_data w) (w_bb w) (w_clip w).
Definition set_state (v : Z) (w : widget) : widget :=
  Widget (w_source w) (w_type w) v (w_id w) (w_in w) (w_span w) (w_data w) (w_bb w) (w_clip w).
Definition set_data (v : list Z) (w : widget) : widget :=
  Widget (w_source w) (w_type w) (w_state w) (w_id w) (w_in w) (w_span w) v (w_bb w) (w_clip w).

(** Word [k] of the payload: [x->field = attr_update(a, value, x->field)]. *)
Definition update_word (k : Z) (a : Z) (value : option (list Z)) (w : widget) (p : strpool) : option (widget * strpool) :=
  current ← rd (w_data w) k;
  '(v, p) ← attr_update a value current p;
  d ← wr (w_data w) k v;
  Some (set_data d w, p).

(** [struct widget_button], [widget_choice], [widget_select], [widget_textbutton]:
    label, onclick. *)
Definition setattributebutton (w : widget) (a : Z) (value : option (list Z)) (p : strpool) : option (widget * strpool) :=
  if a =? ATTR_LABEL then update_word 0 ATTR_LABEL value w p
  else if a =? ATTR_ONCLICK then update_word 1 ATTR_ONCLICK value w p
  else Some (w, p).
Definition setattributechoice (w : widget) (a : Z) (value : option (list Z)) (p : strpool) : option (widget * strpool) :=
  if a =? ATTR_LABEL then update_word 0 ATTR_LABEL value w p
  else if a =? ATTR_ONCLICK then update_word 1 ATTR_ONCLICK value w p
  else Some (w, p).
Definition setattributefill (w : widget) (a : Z) (value : option (list Z)) (p : strpool) : option (widget * strpool) :=
  if a =? ATTR_COLOR then update_word 0 ATTR_COLOR value w p else Some (w, p).
(** mimetype, source, loaded, size *)
Definition setattributeimage (w : widget) (a : Z) (value : option (list Z)) (p : strpool) : option (widget * strpool) :=
  if a =? ATTR_SOURCE then update_word 1 ATTR_SOURCE value w p
  else if a =? ATTR_MIMETYPE then update_word 0 ATTR_MIMETYPE value w p
  else Some (w, p).
(** flow, padding *)
Definition setattributelayout (w : widget) (a : Z) (value : option (list Z)) (p : strpool) : option (widget * strpool) :=
  if a =? ATTR_FLOW then update_word 0 ATTR_FLOW value w p
  else if a =? ATTR_PADDING then update_word 1 ATTR_PADDING value w p
  else Some (w, p).
(** mode, overflow, hscroll, vscroll *)
Definition setattributelistbox (w : widget) (a : Z) (value : option (list Z)) (p : strpool) : option (widget * strpool) :=
  if a =? ATTR_MODE then update_word 0 ATTR_MODE value w p
  else if a =? ATTR_OVERFLOW then update_word 1 ATTR_OVERFLOW value w p
  else Some (w, p).
Definition setattributeselect (w : widget) (a : Z) (value : option (list Z)) (p : strpool) : option (widget * strpool) :=
  if a =? ATTR_LABEL then update_word 0 ATTR_LABEL value w p
  else if a =? ATTR_ONCLICK then update_word 1 ATTR_ONCLICK value w p
  else Some (w, p).
(** content, halign, valign, weight, wrap, offx, markstart, markend, rows,
    lastrowx, lastrowy *)
Definition setattributetext (w : widget) (a : Z) (value : option (list Z)) (p : strpool) : option (widget * strpool) :=
  if a =? ATTR_CONTENT then update_word 0 ATTR_CONTENT value w p
  else if a =? ATTR_HALIGN then update_word 1 ATTR_HALIGN value w p
  else if a =? ATTR_VALIGN then update_word 2 ATTR_VALIGN value w p
  else if a =? ATTR_WEIGHT then update_word 3 ATTR_WEIGHT value w p
  else if a =? ATTR_WRAP then update_word 4 ATTR_WRAP value w p
  else Some (w, p).
(** mode, overflow, hscroll, vscroll, enablecursor, cursor, cursorx, cursory,
    cursorheight, cursorwidth *)
Definition setattributetextbox (w : widget) (a : Z) (value : option (list Z)) (p : strpool) : option (widget * strpool) :=
  if a =? ATTR_CURSOR then
    '(w, p) ← update_word 5 ATTR_CURSOR value w p; d ← wr (w_data w) 4 1; Some (set_data d w, p)
  else if a =? ATTR_MODE then update_word 0 ATTR_MODE value w p
  else if a =? ATTR_OVERFLOW then update_word 1 ATTR_OVERFLOW value w p
  else Some (w, p).
Definition setattributetextbutton (w : widget) (a : Z) (value : option (list Z)) (p : strpool) : option (widget * strpool) :=
  if a =? ATTR_LABEL then update_word 0 ATTR_LABEL value w p
  else if a =? ATTR_ONCLICK then update_word 1 ATTR_ONCLICK value w p
  else Some (w, p).
(** title *)
Definition setattributewindow (w : widget) (a : Z) (value : option (list Z)) (p : strpool) : option (widget * strpool) :=
  if a =? ATTR_TITLE then update_word 0 ATTR_TITLE value w p else Some (w, p).

Definition setattributetype (w : widget) (a : Z) (value : option (list Z)) (p : strpool) : option (widget * strpool) :=
  let t := w_type w in
  if t =? WIDGET_TYPE_BUTTON then setattributebutton w a value p
  else if t =? WIDGET_TYPE_CHOICE then setattributechoice w a value p
  else if t =? WIDGET_TYPE_FILL then setattributefill w a value p
  else if t =? WIDGET_TYPE_IMAGE then setattributeimage w a value p
  else if t =? WIDGET_TYPE_LAYOUT then setattributelayout w a value p
  else if t =? WIDGET_TYPE_LISTBOX then setattributelistbox w a value p
  else if t =? WIDGET_TYPE_SELECT then setattributeselect w a value p
  else if t =? WIDGET_TYPE_TEXT then setattributetext w a value p
  else if t =? WIDGET_TYPE_TEXTBOX then setattributetextbox w a value p
  else if t =? WIDGET_TYPE_TEXTBUTTON then setattributetextbutton w a value p
  else if t =? WIDGET_TYPE_WINDOW then setattributewindow w a value p
  else Some (w, p).

Definition widget_setattribute (w : widget) (a : Z) (value : option (list Z)) (p : strpool) : option (widget * strpool) :=
  '(w, p) ←
    (if a =? ATTR_ID then '(v, p) ← attr_update ATTR_ID value (w_id w) p; Some (set_id v w, p)
     else if a =? ATTR_IN then '(v, p) ← attr_update ATTR_IN value (w_in w) p; Some (set_in v w, p)
     else if a =? ATTR_SPAN then '(v, p) ← attr_update ATTR_SPAN value (w_span w) p; Some (set_span v w, p)
     else Some (w, p));
  setattributetype w a value p.

Definition unset2 (f : widget -> Z -> option (list Z) -> strpool -> option (widget * strpool)) (a b : Z) (w : widget) (p : strpool)
    : option (widget * strpool) :=
  '(w, p) ← f w a None p; f w b None p.

Definition unsettype (w : widget) (p : strpool) : option (widget * strpool) :=
  let t := w_type w in
  if t =? WIDGET_TYPE_BUTTON then unset2 setattributebutton ATTR_LABEL ATTR_ONCLICK w p
  else if t =? WIDGET_TYPE_CHOICE then unset2 setattributechoice ATTR_LABEL ATTR_ONCLICK w p
  else if t =? WIDGET_TYPE_IMAGE then setattributeimage w ATTR_SOURCE None p
  else if t =? WIDGET_TYPE_SELECT then unset2 setattributeselect ATTR_LABEL ATTR_ONCLICK w p
  else if t =? WIDGET_TYPE_TEXT then setattributetext w ATTR_CONTENT None p
  else if t =? WIDGET_TYPE_TEXTBUTTON then unset2 setattributetextbutton ATTR_LABEL ATTR_ONCLICK w p
  else if t =? WIDGET_TYPE_WINDOW then setattributewindow w ATTR_TITLE None p
  else Some (w, p).

Definition widget_unsetattributes (w : widget) (p : strpool) : option (widget * strpool) :=
  '(v, p) ← attr_update ATTR_ID None (w_id w) p; let w := set_id v w in
  '(v, p) ← attr_update ATTR_IN None (w_in w) p; let w := set_in v w in
  unsettype w p.

Definition widget_setstate (w : widget) (state : Z) : Z * widget :=
  let oldstate := w_state w in
  let w' :=
    if state =? WIDGET_STATE_DESTROYED then set_state state w
    else if state =? WIDGET_STATE_FOCUS then set_state state w
    else if state =? WIDGET_STATE_FOCUSOFF then
      (if w_state w =? WIDGET_STATE_FOCUS then set_state state w else w)
    else if state =? WIDGET_STATE_HOVER then
      (if w_state w =? WIDGET_STATE_NORMAL then set_state state w else w)
    else if state =? WIDGET_STATE_HOVEROFF then
      (if w_state w =? WIDGET_STATE_HOVER then set_state state w else w)
    else if state =? WIDGET_STATE_NORMAL then
      (if (w_state w =? WIDGET_STATE_FOCUSOFF) || (w_state w =? WIDGET_STATE_HOVEROFF) then set_state state w else w)
    else set_state state w in
  (Z.b2z (negb (oldstate =? state)), w').

(** [x + w]: a signed and an unsigned integer, passed as a signed one. *)
Definition widget_intersectsx (w : widget) (x : Z) : Z :=
  Z.b2z (negb (util_intersects x (b_x (w_bb w)) (s32 (b_x (w_bb w) + b_w (w_bb w))) =? 0) &&
         negb (util_intersects x (b_x (w_clip w)) (s32 (b_x (w_clip w) + b_w (w_clip w))) =? 0)).
Definition widget_intersectsy (w : widget) (y : Z) : Z :=
  Z.b2z (negb (util_intersects y (b_y (w_bb w)) (s32 (b_y (w_bb w) + b_h (w_bb w))) =? 0) &&
         negb (util_intersects y (b_y (w_clip w)) (s32 (b_y (w_clip w) + b_h (w_clip w))) =? 0)).
Definition widget_intersects (w : widget) (x y : Z) : Z :=
  Z.b2z (negb (widget_intersectsx w x =? 0) && negb (widget_intersectsy w y =? 0)).

Definition widget_isdragable (w : widget) : Z := if w_type w =? WIDGET_TYPE_WINDOW then 1 else 0.
Definition widget_isresizable (w : widget) : Z := if w_type w =? WIDGET_TYPE_WINDOW then 1 else 0.
Definition widget_isinteractive (w : widget) : Z :=
  let t := w_type w in
  if (t =? WIDGET_TYPE_BUTTON) || (t =? WIDGET_TYPE_CHOICE) || (t =? WIDGET_TYPE_LISTBOX) || (t =? WIDGET_TYPE_SELECT) ||
     (t =? WIDGET_TYPE_TEXTBOX) || (t =? WIDGET_TYPE_TEXTBUTTON) || (t =? WIDGET_TYPE_WINDOW) then 1 else 0.
Definition widget_isscrollable (w : widget) : Z :=
  let t := w_type w in if (t =? WIDGET_TYPE_LISTBOX) || (t =? WIDGET_TYPE_TEXTBOX) then 1 else 0.

(** Storing constants in words of the payload. *)
Fixpoint put_words (l : list (Z * Z)) (w : widget) : option widget :=
  match l with
  | [] => Some w
  | (k, v) :: l => d ← wr (w_data w) k v; put_words l (set_data d w)
  end.

Definition initbutton (w : widget) : option widget := put_words [(0, 0); (1, 0)] w.
Definition initchoice (w : widget) : option widget := put_words [(0, 0); (1, 0)] w.
Definition initfill (w : widget) : option widget := put_words [(0, 0)] w.
Definition initimage (w : widget) : option widget :=
  let size := util_initsize 0 0 in put_words [(0, 0); (1, 0); (2, 0); (3, s_w size); (4, s_h size)] w.
Definition initlayout (w : widget) : option widget := put_words [(0, 0); (1, 0)] w.
Definition initlistbox (w : widget) : option widget := put_words [(0, 0); (1, 0); (2, 0); (3, 0)] w.
Definition initselect (w : widget) : option widget := put_words [(0, 0); (1, 0)] w.
Definition inittext (w : widget) : option widget :=
  put_words [(0, 0); (1, 0); (2, 0); (3, 0); (4, 0); (5, 0); (6, 0); (7, 0); (8, 0); (9, 0); (10, 0)] w.
Definition inittextbox (w : widget) : option widget :=
  put_words [(0, 0); (1, 0); (2, 0); (3, 0); (6, 0); (7, 0); (8, 0); (9, 0)] w.
Definition inittextbutton (w : widget) : option widget := put_words [(0, 0); (1, 0)] w.
Definition initwindow (w : widget) : option widget := put_words [(0, 0)] w.

Definition inittype (w : widget) : option widget :=
  let t := w_type w in
  if t =? WIDGET_TYPE_BUTTON then initbutton w
  else if t =? WIDGET_TYPE_CHOICE then initchoice w
  else if t =? WIDGET_TYPE_FILL then initfill w
  else if t =? WIDGET_TYPE_IMAGE then initimage w
  else if t =? WIDGET_TYPE_LAYOUT then initlayout w
  else if t =? WIDGET_TYPE_LISTBOX then initlistbox w
  else if t =? WIDGET_TYPE_SELECT then initselect w
  else if t =? WIDGET_TYPE_TEXT then inittext w
  else if t =? WIDGET_TYPE_TEXTBOX then inittextbox w
  else if t =? WIDGET_TYPE_TEXTBUTTON then inittextbutton w
  else if t =? WIDGET_TYPE_WINDOW then initwindow w
  else Some w.

(** [data] is the payload of the entry. *)
Definition widget_init (w : widget) (source type : Z) (id inn : option (list Z)) (data : list Z) (p : strpool)
    : option (widget * strpool) :=
  '(i, p) ← attr_update ATTR_ID id (w_id w) p;
  '(n, p) ← attr_update ATTR_IN inn (w_in w) p;
  w ← inittype (Widget source type WIDGET_STATE_NORMAL i n 0 data (util_initbox 0 0 0 0) (util_initbox 0 0 0 0));
  Some (w, p).

(** ** Strings of widgets *)

(** A field that holds the number of a string. *)
Inductive field := FId | FIn | FWord (k : nat).
#[global] Instance field_eq_dec : EqDecision field.
Proof. solve_decision. Defined.

Definition get (f : field) (w : widget) : Z :=
  match f with FId => w_id w | FIn => w_in w | FWord k => default 0 (w_data w !! k) end.
Definition put (f : field) (v : Z) (w : widget) : widget :=
  match f with FId => set_id v w | FIn => set_in v w | FWord k => set_data (<[k := v]> (w_data w)) w end.

(** The string words of a type, and the field of an attribute. *)
Definition string_words (t : Z) : list nat :=
  if (t =? WIDGET_TYPE_BUTTON) || (t =? WIDGET_TYPE_CHOICE) || (t =? WIDGET_TYPE_SELECT) || (t =? WIDGET_TYPE_TEXTBUTTON) then [0; 1]%nat
  else if t =? WIDGET_TYPE_IMAGE then [1]%nat
  else if (t =? WIDGET_TYPE_TEXT) || (t =? WIDGET_TYPE_WINDOW) then [0]%nat
  else [].
Definition fields (t : Z) : list field := FId :: FIn :: (FWord <$> string_words t).

Definition string_field (t a : Z) : option field :=
  if a =? ATTR_ID then Some FId
  else if a =? ATTR_IN then Some FIn
  else if (t =? WIDGET_TYPE_BUTTON) || (t =? WIDGET_TYPE_CHOICE) || (t =? WIDGET_TYPE_SELECT) || (t =? WIDGET_TYPE_TEXTBUTTON) then
    (if a =? ATTR_LABEL then Some (FWord 0) else if a =? ATTR_ONCLICK then Some (FWord 1) else None)
  else if t =? WIDGET_TYPE_IMAGE then (if a =? ATTR_SOURCE then Some (FWord 1) else None)
  else if t =? WIDGET_TYPE_TEXT then (if a =? ATTR_CONTENT then Some (FWord 0) else None)
  else if t =? WIDGET_TYPE_WINDOW then (if a =? ATTR_TITLE then Some (FWord 0) else None)
  else None.

Definition widget_ok (w : widget) : Prop := length (w_data w) = 11%nat /\ Forall (fun f => 0 <= get f w) (fields (w_type w)).

(** The numbers in the fields of a widget, 0 for none. *)
Definition cells (w : widget) : list nat := (fun f => Z.to_nat (get f w)) <$> fields (w_type w).

(** Every string of the map is the string of exactly one cell. *)
Definition owned (xs : list nat) (m : gmap nat (list Z)) : Prop :=
  NoDup (filter (fun k => k <> 0%nat) xs) /\ forall k, k <> 0%nat -> k ∈ xs <-> is_Some (m !! k).

Lemma owned_mid A i B m : owned (A ++ i :: B) m -> i <> 0%nat -> i ∉ A ++ B.
Proof.
  intros [Hnd _] Hi. rewrite filter_app, filter_cons_True in Hnd by done. rewrite elem_of_app.
  apply NoDup_app in Hnd as (_ & Hd & Hc). apply NoDup_cons in Hc as [HB _]. intros [HA|HB'].
  - apply (Hd i); [by apply list_elem_of_filter|left].
  - by apply HB, list_elem_of_filter.
Qed.

(** Clearing a cell and deleting its string. *)
Lemma owned_clear A i B m : m !! 0%nat = None -> owned (A ++ i :: B) m -> owned (A ++ 0%nat :: B) (delete i m).
Proof.
  intros H0 Ho. destruct (decide (i = 0%nat)) as [->|Hi]; [by rewrite delete_id|].
  pose proof (owned_mid _ _ _ _ Ho Hi) as Hn. destruct Ho as [Hnd Hm]. split.
  - rewrite filter_app, filter_cons_True in Hnd by done. rewrite filter_app, filter_cons_False by auto.
    apply NoDup_app in Hnd as (? & Hd & [? ?]%NoDup_cons). apply NoDup_app. split_and!; try done.
    intros x HA HB. apply (Hd x HA). by right.
  - intros k Hk. destruct (decide (k = i)) as [->|Hne].
    + rewrite lookup_delete_eq, is_Some_alt. split; [|done]. rewrite elem_of_app, elem_of_cons in *. naive_solver.
    + rewrite lookup_delete_ne by done. rewrite <- Hm by done. rewrite !elem_of_app, !elem_of_cons. naive_solver.
Qed.

(** Storing a new string in an empty cell. *)
Lemma owned_fill A B m slot s :
  owned (A ++ 0%nat :: B) m -> slot <> 0%nat -> m !! slot = None -> owned (A ++ slot :: B) (<[slot := s]> m).
Proof.
  intros [Hnd Hm] Hs Hno. assert (slot ∉ A ++ B) as Hn.
  { intros Hin. assert (is_Some (m !! slot)) as [? ?]; [|congruence]. apply Hm; [done|]. rewrite elem_of_app, elem_of_cons in *. naive_solver. }
  split.
  - rewrite filter_app, filter_cons_False in Hnd by auto. rewrite filter_app, filter_cons_True by done.
    apply NoDup_app in Hnd as (? & Hd & ?). apply NoDup_app. split_and!; [done| |].
    + intros x HA [->|HB]%elem_of_cons; [|by apply (Hd x HA)]. apply Hn, elem_of_app. left. by apply list_elem_of_filter in HA as [_ HA].
    + apply NoDup_cons. split; [|done]. intros [_ HB]%list_elem_of_filter. apply Hn, elem_of_app. by right.
  - intros k Hk. destruct (decide (k = slot)) as [->|Hne].
    + rewrite lookup_insert_eq. split; [by eexists|]. rewrite elem_of_app, elem_of_cons. auto.
    + rewrite lookup_insert_ne by done. rewrite <- Hm by done. rewrite !elem_of_app, !elem_of_cons. naive_solver.
Qed.

Lemma owned_same A i B m j : owned (A ++ i :: B) m -> j ∈ A ++ B -> m !! 0%nat = None -> delete i m !! j = m !! j.
Proof.
  intros Ho Hj H0. destruct (decide (j = i)) as [->|Hne]; [|by rewrite lookup_delete_ne].
  destruct (decide (i = 0%nat)) as [->|Hi]; [by rewrite lookup_delete_eq|]. by apply (owned_mid _ _ _ _ Ho) in Hi.
Qed.

Lemma owned_other A i B m slot s j :
  owned (A ++ i :: B) m -> slot <> 0%nat -> m !! 0%nat = None -> delete i m !! slot = None -> j ∈ A ++ B ->
  <[slot := s]> (delete i m) !! j = m !! j.
Proof.
  intros Ho Hs H0 Hno Hj. destruct (decide (j = slot)) as [->|Hne].
  - exfalso. rewrite (owned_same A i B m) in Hno by done. assert (is_Some (m !! slot)) as [? ?]; [|congruence].
    apply (proj2 Ho); [done|]. rewrite elem_of_app, elem_of_cons in *. naive_solver.
  - rewrite lookup_insert_ne by done. by apply (owned_same A i B).
Qed.

(** ** Fields *)

Lemma get_put_eq f v w : f ∈ fields (w_type w) -> length (w_data w) = 11%nat -> get f (put f v w) = v.
Proof.
  intros Hf Hl. destruct f as [| |k]; [done|done|]. cbn. rewrite list_lookup_insert_eq; [done|]. rewrite Hl.
  unfold fields, string_words in Hf. repeat case_match; set_solver by lia.
Qed.

Lemma get_put_ne f g v w : f <> g -> get g (put f v w) = get g w.
Proof. destruct f as [| |k], g as [| |j]; try done. intros Hne. cbn. rewrite list_lookup_insert_ne; [done|congruence]. Qed.

Lemma fields_NoDup t : NoDup (fields t).
Proof. unfold fields, string_words. repeat case_match; cbn; repeat (apply NoDup_cons; split; [set_solver|]); apply NoDup_nil_2. Qed.

Lemma put_type f v w : w_type (put f v w) = w_type w.
Proof. by destruct f. Qed.
Lemma put_length f v w : length (w_data (put f v w)) = length (w_data w).
Proof. destruct f; cbn; [done|done|apply length_insert]. Qed.

Lemma cells_split f w :
  f ∈ fields (w_type w) -> length (w_data w) = 11%nat ->
  exists A B, cells w = A ++ Z.to_nat (get f w) :: B /\ (forall v, cells (put f v w) = A ++ Z.to_nat v :: B) /\
    forall g, g ∈ fields (w_type w) -> g <> f -> Z.to_nat (get g w) ∈ A ++ B.
Proof.
  intros Hf Hl. pose proof (fields_NoDup (w_type w)) as Hnd. pose proof Hf as Hf'. apply list_elem_of_split in Hf' as (F & G & E).
  set (h w := fun f => Z.to_nat (get f w)). exists (h w <$> F), (h w <$> G). rewrite E in Hnd. apply NoDup_app in Hnd as (_ & Hd & [HG _]%NoDup_cons).
  split_and!.
  - unfold cells. rewrite E. by rewrite fmap_app.
  - intros v. unfold cells. rewrite put_type, E, fmap_app. cbn. rewrite get_put_eq by done. f_equal; [|f_equal].
    + apply list_fmap_ext. intros i g Hg. unfold h. rewrite get_put_ne; [done|]. intros <-. apply (Hd f); [by eapply list_elem_of_lookup_2|left].
    + apply list_fmap_ext. intros i g Hg. unfold h. rewrite get_put_ne; [done|]. intros <-. apply HG. by eapply list_elem_of_lookup_2.
  - intros g Hg Hne. rewrite E in Hg. rewrite <- fmap_app. apply (list_elem_of_fmap_2 (h w)). rewrite elem_of_app, elem_of_cons in *. naive_solver.
Qed.

(** ** Setting an attribute *)

Lemma string_field_in t a f : string_field t a = Some f -> f ∈ fields t.
Proof. unfold string_field, fields, string_words. repeat case_match; intros [=]; subst; set_solver. Qed.

Lemma update_word_put k a value w p :
  length (w_data w) = 11%nat -> (k < 11)%nat ->
  update_word (Z.of_nat k) a value w p =
    '(v, p) ← attr_update a value (get (FWord k) w) p; Some (put (FWord k) v w, p).
Proof.
  intros Hl Hk. unfold update_word. rewrite rd_nat. destruct (lookup_lt_is_Some_2 (w_data w) k) as [c Hc]; [lia|]. cbn [get].
  rewrite Hc. cbn [mbind option_bind from_option id]. destruct (attr_update a value c p) as [[v p']|]; [|done]. cbn [mbind option_bind].
  rewrite wr_Some, Nat2Z.id by lia. done.
Qed.

Ltac attr_case :=
  unfold ATTR_COLOR, ATTR_COLUMNS, ATTR_CONTENT, ATTR_CURSOR, ATTR_FLOW, ATTR_HALIGN, ATTR_ID, ATTR_IN, ATTR_LABEL, ATTR_MIMETYPE, ATTR_MODE,
    ATTR_ONCLICK, ATTR_OVERFLOW, ATTR_PADDING, ATTR_SOURCE, ATTR_SPAN, ATTR_TITLE, ATTR_VALIGN, ATTR_WEIGHT, ATTR_WRAP in *.
Ltac type_case :=
  unfold WIDGET_TYPE_BUTTON, WIDGET_TYPE_CHOICE, WIDGET_TYPE_FILL, WIDGET_TYPE_IMAGE, WIDGET_TYPE_LAYOUT, WIDGET_TYPE_LISTBOX,
    WIDGET_TYPE_SELECT, WIDGET_TYPE_TEXT, WIDGET_TYPE_TEXTBOX, WIDGET_TYPE_TEXTBUTTON, WIDGET_TYPE_WINDOW in *.

(** Every test of an equation of constants, and of a variable and a constant. *)
Ltac eqb_split :=
  repeat match goal with
  | |- context [?x =? ?y] => destruct (Z.eqb_spec x y); subst; try lia
  | H : context [?x =? ?y] |- _ => destruct (Z.eqb_spec x y); subst; try lia
  end.

(** The four types with a label and an action. *)
Lemma button_string w a f value p :
  length (w_data w) = 11%nat ->
  (if a =? ATTR_LABEL then Some (FWord 0) else if a =? ATTR_ONCLICK then Some (FWord 1) else None) = Some f ->
  setattributebutton w a value p = '(v, p) ← strpool_updatestring (get f w) value p; Some (put f v w, p).
Proof.
  intros Hl Hf. unfold setattributebutton. destruct (a =? ATTR_LABEL).
  { injection Hf as <-. by apply (update_word_put 0); [|lia]. }
  destruct (a =? ATTR_ONCLICK); [|done]. injection Hf as <-. by apply (update_word_put 1); [|lia].
Qed.

(** A string attribute of the type: the pool updates the string of its field. *)
Lemma setattribute_string w a f value p :
  length (w_data w) = 11%nat -> string_field (w_type w) a = Some f ->
  widget_setattribute w a value p = '(v, p) ← strpool_updatestring (get f w) value p; Some (put f v w, p).
Proof.
  intros Hl Hf. unfold widget_setattribute, string_field in *.
  destruct (Z.eqb_spec a ATTR_ID) as [->|Hid].
  { injection Hf as <-. change (attr_update ATTR_ID value (w_id w) p) with (strpool_updatestring (w_id w) value p). cbn [get].
    destruct (strpool_updatestring (w_id w) value p) as [[v p']|]; [|done]. cbn [mbind option_bind put]. unfold setattributetype.
    repeat case_match; reflexivity. }
  destruct (Z.eqb_spec a ATTR_IN) as [->|Hin].
  { injection Hf as <-. change (attr_update ATTR_IN value (w_in w) p) with (strpool_updatestring (w_in w) value p). cbn [get].
    destruct (strpool_updatestring (w_in w) value p) as [[v p']|]; [|done]. cbn [mbind option_bind put]. unfold setattributetype.
    repeat case_match; reflexivity. }
  destruct (Z.eqb_spec a ATTR_SPAN) as [->|Hsp]; [exfalso; revert Hf; repeat case_match; discriminate|].
  cbn [mbind option_bind]. unfold setattributetype. destruct (Z.eqb_spec (w_type w) WIDGET_TYPE_BUTTON) as [Et|?]; [rewrite Et in Hf; exact (button_string w a f value p Hl Hf)|].
  destruct (Z.eqb_spec (w_type w) WIDGET_TYPE_CHOICE) as [Et|?]; [rewrite Et in Hf; exact (button_string w a f value p Hl Hf)|].
  destruct (Z.eqb_spec (w_type w) WIDGET_TYPE_FILL) as [Et|?]; [by rewrite Et in Hf|].
  destruct (Z.eqb_spec (w_type w) WIDGET_TYPE_IMAGE) as [Et|?].
  { rewrite Et in Hf; cbn in Hf. unfold setattributeimage. destruct (a =? ATTR_SOURCE); [|done]. injection Hf as <-. by apply (update_word_put 1); [|lia]. }
  destruct (Z.eqb_spec (w_type w) WIDGET_TYPE_LAYOUT) as [Et|?]; [by rewrite Et in Hf|].
  destruct (Z.eqb_spec (w_type w) WIDGET_TYPE_LISTBOX) as [Et|?]; [by rewrite Et in Hf|].
  destruct (Z.eqb_spec (w_type w) WIDGET_TYPE_SELECT) as [Et|?]; [rewrite Et in Hf; exact (button_string w a f value p Hl Hf)|].
  destruct (Z.eqb_spec (w_type w) WIDGET_TYPE_TEXT) as [Et|?].
  { rewrite Et in Hf; cbn in Hf. unfold setattributetext. destruct (a =? ATTR_CONTENT); [|done]. injection Hf as <-. by apply (update_word_put 0); [|lia]. }
  destruct (Z.eqb_spec (w_type w) WIDGET_TYPE_TEXTBOX) as [Et|?]; [by rewrite Et in Hf|].
  destruct (Z.eqb_spec (w_type w) WIDGET_TYPE_TEXTBUTTON) as [Et|?]; [rewrite Et in Hf; exact (button_string w a f value p Hl Hf)|].
  destruct (Z.eqb_spec (w_type w) WIDGET_TYPE_WINDOW) as [Et|?]; [|done].
  rewrite ?Et in Hf; cbn in Hf. unfold setattributewindow. destruct (a =? ATTR_TITLE); [|done]. injection Hf as <-. by apply (update_word_put 0); [|lia].
Qed.

(** The other attributes touch no string. *)
Record same_strings (w w' : widget) : Prop := {
  ss_source : w_source w' = w_source w;
  ss_type : w_type w' = w_type w;
  ss_length : length (w_data w') = length (w_data w);
  ss_get : Forall (fun f => get f w' = get f w) (fields (w_type w)) }.

Lemma same_strings_refl w : same_strings w w.
Proof. split; [done|done|done|]. by apply Forall_true. Qed.

Lemma same_strings_cells w w' : same_strings w w' -> cells w' = cells w.
Proof.
  intros [_ Ht _ Hg]. unfold cells. rewrite Ht. apply list_fmap_ext. intros i f Hf. rewrite Forall_forall in Hg. rewrite Hg; [done|].
  by eapply list_elem_of_lookup_2.
Qed.

Lemma same_strings_ok w w' : same_strings w w' -> widget_ok w -> widget_ok w'.
Proof.
  intros [_ Ht Hl Hg] [H1 H2]. split; [congruence|]. rewrite Ht. rewrite Forall_forall in *. intros f Hf. rewrite Hg by done. by apply H2.
Qed.

Lemma literal_string s : Forall (fun c => c <> 0) ((fun c => Z.of_nat (Ascii.nat_of_ascii c)) <$> String.list_ascii_of_string s) ->
  Z.of_nat (length (String.list_ascii_of_string s)) < max32 ->
  is_string ((fun c => Z.of_nat (Ascii.nat_of_ascii c)) <$> String.list_ascii_of_string s) (literal s).
Proof. intros Hz Hl. split; [|by rewrite length_fmap]. split; [done|]. by exists []. Qed.

Definition tokens_ok (l : list util_token) : Prop := Forall (fun t => exists s, is_string s (t_value t)) l.

Ltac tokens_solve :=
  repeat (apply List.Forall_cons; [eexists; apply literal_string; [repeat constructor; vm_compute; congruence|vm_compute; reflexivity]|]);
  apply List.Forall_nil.

Lemma flows_ok : tokens_ok flows. Proof. tokens_solve. Qed.
Lemma haligns_ok : tokens_ok haligns. Proof. tokens_solve. Qed.
Lemma mimetypes_ok : tokens_ok mimetypes. Proof. tokens_solve. Qed.
Lemma modes_ok : tokens_ok modes. Proof. tokens_solve. Qed.
Lemma overflows_ok : tokens_ok overflows. Proof. tokens_solve. Qed.
Lemma valigns_ok : tokens_ok valigns. Proof. tokens_solve. Qed.
Lemma weights_ok : tokens_ok weights. Proof. tokens_solve. Qed.
Lemma wraps_ok : tokens_ok wraps. Proof. tokens_solve. Qed.

Lemma getkey_total l s obj : tokens_ok l -> is_string s obj -> exists k, util_getkey l obj = Some k.
Proof.
  intros Hl Hs. induction Hl as [|t l [u Hu] _ IH]; cbn [util_getkey]; [by eexists|].
  rewrite (match_string u s _ _ Hu Hs). cbn [mbind option_bind]. case_match; [exact IH|by eexists].
Qed.

Lemma read_value_total n : forall inp i v b,
  0 <= i -> i + Z.of_nat n <= Z.of_nat (length inp) -> exists x, cstring_read_value_loop n inp i v b = Some x.
Proof.
  induction n as [|n IH]; intros inp i v b Hi Hn; cbn [cstring_read_value_loop]; [by eexists|].
  destruct (rd_Some inp i) as [c ->]; [lia|]. cbn [mbind option_bind]. apply IH; lia.
Qed.

Lemma read_number_total s obj base p : is_string s obj -> exists x, read_number (Some obj) base p = Some (x, p).
Proof.
  intros [[Hz [r ->]] Hl]. unfold read_number. cbn [mbind option_bind]. rewrite cstring_length_spec by (done || lia). cbn [mbind option_bind].
  unfold cstring_read_value. rewrite Nat2Z.id. destruct (read_value_total (length s) (s ++ 0 :: r) 0 0 base) as [x ->]; [lia|rewrite length_app; cbn; lia|].
  by eexists.
Qed.

Lemma read_key_total l s obj p : tokens_ok l -> is_string s obj -> exists x, read_key l (Some obj) p = Some (x, p).
Proof. intros Hl Hs. destruct (getkey_total l s obj Hl Hs) as [k E]. unfold read_key. cbn. rewrite E. by eexists. Qed.

#[local] Hint Resolve flows_ok haligns_ok mimetypes_ok modes_ok overflows_ok valigns_ok weights_ok wraps_ok : core.

Lemma attr_plain_total a s obj c p : attr_isstring a = false -> is_string s obj -> exists v, attr_update a (Some obj) c p = Some (v, p).
Proof.
  intros Ha Hs. unfold attr_update.
  repeat (case_match; [first [by eapply read_number_total | by eapply read_key_total; eauto
    | match goal with H : (a =? _) = true |- _ => apply Z.eqb_eq in H; subst a; discriminate Ha end]|]).
  by eexists.
Qed.

Lemma update_word_plain k a s obj w p :
  length (w_data w) = 11%nat -> (k < 11)%nat -> FWord k ∉ fields (w_type w) -> attr_isstring a = false -> is_string s obj ->
  exists w', update_word (Z.of_nat k) a (Some obj) w p = Some (w', p) /\ same_strings w w'.
Proof.
  intros Hl Hk Hn Ha Hs. rewrite update_word_put by done. destruct (attr_plain_total a s obj (get (FWord k) w) p Ha Hs) as [v ->].
  cbn [mbind option_bind]. eexists. split; [done|]. split; [done|apply put_type|apply put_length|]. apply Forall_forall. intros f Hf.
  apply get_put_ne. by intros <-.
Qed.

Lemma same_strings_trans w1 w2 w3 : same_strings w1 w2 -> same_strings w2 w3 -> same_strings w1 w3.
Proof.
  intros [S1 T1 L1 G1] [S2 T2 L2 G2]. split; [congruence..|]. rewrite T1 in G2. rewrite Forall_forall in *. intros f Hf.
  rewrite G2 by done. by apply G1.
Qed.

(** One of the tests for the attribute. *)
Ltac plain_case Hw Hf :=
  match goal with
  | |- exists w', Some (?w, ?p) = Some (w', ?p) /\ _ => exists w; split; [done|apply same_strings_refl]
  | |- exists w', (if ?a =? ?b then _ else _) = _ /\ _ => destruct (Z.eqb_spec a b) as [->|_]; [try discriminate Hf|]
  | |- exists w', update_word ?k ?b _ _ _ = _ /\ _ =>
      apply (Hw (Z.to_nat k) b); [vm_compute; lia|unfold fields; cbn; set_solver|reflexivity]
  end.

Lemma settype_plain w a s obj p :
  length (w_data w) = 11%nat -> string_field (w_type w) a = None -> is_string s obj ->
  exists w', setattributetype w a (Some obj) p = Some (w', p) /\ same_strings w w'.
Proof.
  intros Hl Hf Hs.
  assert (forall k b, (k < 11)%nat -> FWord k ∉ fields (w_type w) -> attr_isstring b = false ->
    exists w', update_word (Z.of_nat k) b (Some obj) w p = Some (w', p) /\ same_strings w w') as Hw
    by (intros; by apply (update_word_plain k b s)).
  unfold setattributetype.
  repeat match goal with |- context [w_type w =? ?t] => destruct (Z.eqb_spec (w_type w) t) as [Et|_];
    [rewrite Et in Hw, Hf|] end.
  all: unfold setattributebutton, setattributechoice, setattributefill, setattributeimage, setattributelayout, setattributelistbox,
    setattributeselect, setattributetext, setattributetextbox, setattributetextbutton, setattributewindow.
  all: repeat plain_case Hw Hf.
  destruct (Hw 5%nat ATTR_CURSOR) as (w' & E & Hsame); [lia|unfold fields; cbn; set_solver|reflexivity|].
  change (Z.of_nat 5) with 5 in E. rewrite E. cbn [mbind option_bind]. rewrite wr_Some by (rewrite (ss_length _ _ Hsame); lia).
  eexists. split; [done|]. apply (same_strings_trans _ _ _ Hsame). split; [done|done|cbn [set_data w_data]; by rewrite length_insert|]. apply Forall_forall. intros f Hff.
  apply (get_put_ne (FWord 4)). rewrite (ss_type _ _ Hsame) in Hff. intros <-. revert Hff. rewrite Et. unfold fields. cbn. set_solver.
Qed.

Lemma setattribute_plain w a s obj p :
  length (w_data w) = 11%nat -> string_field (w_type w) a = None -> is_string s obj ->
  exists w', widget_setattribute w a (Some obj) p = Some (w', p) /\ same_strings w w'.
Proof.
  intros Hl Hf Hs. unfold widget_setattribute. destruct (Z.eqb_spec a ATTR_ID) as [->|_]; [discriminate Hf|].
  destruct (Z.eqb_spec a ATTR_IN) as [->|_]; [discriminate Hf|]. destruct (Z.eqb_spec a ATTR_SPAN) as [->|_].
  - destruct (attr_plain_total ATTR_SPAN s obj (w_span w) p) as [v ->]; [done|done|]. cbn [mbind option_bind].
    destruct (settype_plain (set_span v w) ATTR_SPAN s obj p) as (w' & -> & Hw); [done|done|done|]. eexists. split; [done|].
    apply (same_strings_trans _ (set_span v w)); [|done]. split; [done|done|done|]. apply Forall_forall. by intros [| |k] _.
  - cbn [mbind option_bind]. by apply (settype_plain w a s).
Qed.

(** ** Ownership *)

Lemma contents_zero L p : pool_ok L p -> contents L !! 0%nat = None.
Proof.
  intros Hp. apply not_elem_of_list_to_map. intros Hin. pose proof (ok_range _ _ Hp) as Hr.
  apply list_elem_of_fmap in Hin as ([k s] & E & Hin). rewrite Forall_forall in Hr. destruct (Hr _ Hin) as [Hk _]. cbn in *. lia.
Qed.

(** The other cells keep their strings. *)
Definition keeps (xs : list nat) (m m' : gmap nat (list Z)) : Prop := forall j, j ∈ xs -> m' !! j = m !! j.

(** A string is stored in a field of a widget among others. *)
Lemma store_string A w C L p f s obj :
  pool_ok L p -> owned (A ++ cells w ++ C) (contents L) -> widget_ok w -> f ∈ fields (w_type w) -> is_string s obj ->
  (length L < 511)%nat -> (length (image L) + S (length s) <= Z.to_nat STRINGDATA_SIZE)%nat ->
  exists v M p', strpool_updatestring (get f w) (Some obj) p = Some (v, p') /\ 0 <= v /\ pool_ok M p' /\
    owned (A ++ cells (put f v w) ++ C) (contents M) /\ contents M !! Z.to_nat v = Some s /\ keeps (A ++ C) (contents L) (contents M) /\
    (forall g, g ∈ fields (w_type w) -> g <> f -> contents M !! Z.to_nat (get g w) = contents L !! Z.to_nat (get g w)) /\
    (length M <= S (length L))%nat /\ (length (image M) <= length (image L) + S (length s))%nat.
Proof.
  intros Hp Ho [Hl Hge] Hf Hs Hn Hroom. rewrite Forall_forall in Hge. specialize (Hge f Hf). cbn in Hge.
  destruct (cells_split f w Hf Hl) as (X & Y & Ec & Ep & Hg). set (i := Z.to_nat (get f w)) in *.
  assert (A ++ cells w ++ C = (A ++ X) ++ i :: (Y ++ C)) as E by (rewrite Ec, <- !app_assoc; done). rewrite E in Ho.
  assert (i = 0%nat \/ is_Some (contents L !! i)) as Hi.
  { destruct (decide (i = 0%nat)); [by left|right]. apply (proj2 Ho); [done|]. rewrite elem_of_app, elem_of_cons. auto. }
  destruct (update_ok L p i s obj Hp Hi Hs Hn Hroom) as (slot & M & p' & Eu & HM & Hs0 & Hno & Hc & Hlen & Him).
  replace (get f w) with (Z.of_nat i) by lia. pose proof (contents_zero L p Hp) as H0.
  exists (Z.of_nat slot), M, p'. rewrite Nat2Z.id. split_and!; try done; try lia.
  - rewrite Ep, Nat2Z.id, Hc. replace (A ++ (X ++ slot :: Y) ++ C) with ((A ++ X) ++ slot :: (Y ++ C)) by (by rewrite <- !app_assoc).
    apply owned_fill; [by apply owned_clear|done|done].
  - rewrite Hc. apply lookup_insert_eq.
  - intros j Hj. rewrite Hc. apply (owned_other (A ++ X) i (Y ++ C)); try done. rewrite !elem_of_app in *. naive_solver.
  - intros g Hgf Hne. rewrite Hc. apply (owned_other (A ++ X) i (Y ++ C)); try done. specialize (Hg g Hgf Hne). rewrite !elem_of_app in *. naive_solver.
Qed.

Definition clear (f : field) (w : widget) (p : strpool) : option (widget * strpool) :=
  '(v, p) ← strpool_updatestring (get f w) None p; Some (put f v w, p).

Lemma clear_string A w C L p f :
  pool_ok L p -> owned (A ++ cells w ++ C) (contents L) -> widget_ok w -> f ∈ fields (w_type w) ->
  exists M p', clear f w p = Some (put f 0 w, p') /\ pool_ok M p' /\ owned (A ++ cells (put f 0 w) ++ C) (contents M) /\
    keeps (A ++ C) (contents L) (contents M) /\ (length M <= length L)%nat /\ (length (image M) <= length (image L))%nat.
Proof.
  intros Hp Ho [Hl Hge] Hf. rewrite Forall_forall in Hge. specialize (Hge f Hf). cbn in Hge.
  destruct (cells_split f w Hf Hl) as (X & Y & Ec & Ep & Hg). set (i := Z.to_nat (get f w)) in *.
  assert (A ++ cells w ++ C = (A ++ X) ++ i :: (Y ++ C)) as E by (rewrite Ec, <- !app_assoc; done). rewrite E in Ho.
  assert (i = 0%nat \/ is_Some (contents L !! i)) as Hi.
  { destruct (decide (i = 0%nat)); [by left|right]. apply (proj2 Ho); [done|]. rewrite elem_of_app, elem_of_cons. auto. }
  destruct (free_ok L p i Hp Hi) as (M & p' & Eu & HM & Hc & Hlen & Him). pose proof (contents_zero L p Hp) as H0.
  exists M, p'. unfold clear, strpool_updatestring. replace (get f w) with (Z.of_nat i) by lia. rewrite Eu. cbn [mbind option_bind].
  split_and!; try done.
  - rewrite Ep, Hc. replace (A ++ (X ++ Z.to_nat 0 :: Y) ++ C) with ((A ++ X) ++ 0%nat :: (Y ++ C)) by (by rewrite <- !app_assoc).
    by apply owned_clear.
  - intros j Hj. rewrite Hc. apply (owned_same (A ++ X) i (Y ++ C)); try done. rewrite !elem_of_app in *. naive_solver.
Qed.

Lemma put_ok f v w : f ∈ fields (w_type w) -> 0 <= v -> widget_ok w -> widget_ok (put f v w).
Proof.
  intros Hf Hv [Hl Hg]. split; [by rewrite put_length|]. rewrite put_type. rewrite Forall_forall in *. intros g Hgf.
  destruct (decide (f = g)) as [<-|Hne]; [by rewrite get_put_eq|]. rewrite get_put_ne by done. by apply Hg.
Qed.

(** ** Clearing all strings of a widget *)

Fixpoint clear_all (fs : list field) (w : widget) (p : strpool) : option (widget * strpool) :=
  match fs with
  | [] => Some (w, p)
  | f :: fs => '(w, p) ← clear f w p; clear_all fs w p
  end.

Lemma clear_all_ok A C fs : forall w L p,
  pool_ok L p -> owned (A ++ cells w ++ C) (contents L) -> widget_ok w -> Forall (fun f => f ∈ fields (w_type w)) fs ->
  exists w' M p', clear_all fs w p = Some (w', p') /\ pool_ok M p' /\ owned (A ++ cells w' ++ C) (contents M) /\ widget_ok w' /\
    w_type w' = w_type w /\ (forall f, get f w' = if decide (f ∈ fs) then 0 else get f w) /\
    keeps (A ++ C) (contents L) (contents M) /\ (length M <= length L)%nat /\ (length (image M) <= length (image L))%nat.
Proof.
  induction fs as [|f fs IH]; intros w L p Hp Ho Hw Hfs; cbn [clear_all].
  { exists w, L, p. by split_and!. }
  inversion Hfs as [|? ? Hf Hfs']; subst. destruct (clear_string A w C L p f Hp Ho Hw Hf) as (M & p1 & -> & HM & Ho1 & Hk1 & Hl1 & Hi1).
  cbn [mbind option_bind]. destruct (IH (put f 0 w) M p1) as (w' & N & p' & E & HN & Ho' & Hw' & Ht & Hget & Hk & Hl & Hi); try done.
  { by apply put_ok. } { by rewrite put_type. }
  exists w', N, p'. rewrite put_type in Ht. split_and!; try done; try lia.
  - intros g. rewrite Hget. destruct (decide (g ∈ fs)) as [Hin|Hni]; [by rewrite decide_True by (by right)|].
    destruct (decide (f = g)) as [<-|Hne]; [rewrite decide_True by left; apply get_put_eq; [done|apply Hw]|].
    rewrite get_put_ne, decide_False; [done|rewrite elem_of_cons; naive_solver|done].
  - intros j Hj. rewrite Hk by done. by apply Hk1.
Qed.

Lemma owned_zeros A B C m : Forall (fun k => k = 0%nat) B -> owned (A ++ B ++ C) m <-> owned (A ++ C) m.
Proof.
  intros HB. assert (filter (fun k => k <> 0%nat) B = []) as EB.
  { clear -HB. induction HB as [|k B -> _ IH]; [done|]. by rewrite filter_cons_False by auto. }
  unfold owned. rewrite !filter_app, EB. cbn [app]. apply and_iff_compat_l. apply forall_proper. intros k.
  rewrite !elem_of_app. rewrite Forall_forall in HB. naive_solver.
Qed.

(** The strings of a widget are cleared in the order of their fields. *)
Lemma unset_is_clear w p : length (w_data w) = 11%nat -> widget_unsetattributes w p = clear_all (fields (w_type w)) w p.
Proof.
  intros Hl. unfold widget_unsetattributes, fields. cbn [clear_all].
  assert (forall f w p, clear f w p = '(v, p) ← strpool_updatestring (get f w) None p; Some (put f v w, p)) as Hc by done.
  change (attr_update ATTR_ID None (w_id w) p) with (strpool_updatestring (get FId w) None p). rewrite (Hc FId w p).
  destruct (strpool_updatestring (get FId w) None p) as [[v1 p1]|]; [|done]. cbn [mbind option_bind put].
  set (w1 := set_id v1 w). change (attr_update ATTR_IN None (w_in w1) p1) with (strpool_updatestring (get FIn w1) None p1). rewrite (Hc FIn w1 p1).
  destruct (strpool_updatestring (get FIn w1) None p1) as [[v2 p2]|]; [|done]. cbn [mbind option_bind put].
  set (w2 := set_in v2 w1). assert (length (w_data w2) = 11%nat) as Hl2 by done. change (w_type w) with (w_type w2).
  clearbody w2. clear w1 v1 p1 v2 Hl p w. rename w2 into w, p2 into p. unfold unsettype, string_words.
  assert (forall w p, clear_all [] w p = Some (w, p)) as Hnil by done.
  assert (unset2 setattributebutton ATTR_LABEL ATTR_ONCLICK w p = clear_all [FWord 0; FWord 1] w p) as Hb.
  { unfold unset2. rewrite (button_string w ATTR_LABEL (FWord 0)) by done. cbn [clear_all]. rewrite (Hc (FWord 0) w p).
    destruct (strpool_updatestring (get (FWord 0) w) None p) as [[v1 p1]|]; [|done]. cbn [mbind option_bind].
    rewrite (button_string _ ATTR_ONCLICK (FWord 1)) by (done || by rewrite put_length). unfold clear.
    by destruct (strpool_updatestring (get (FWord 1) _) None p1) as [[v2 p2]|]. }
  assert (forall k a, (k < 11)%nat -> (forall v, attr_update a None v p = strpool_updatestring v None p) ->
    update_word (Z.of_nat k) a None w p = clear_all [FWord k] w p) as Hw.
  { intros k a Hk Ha. rewrite update_word_put, Ha by done. cbn [clear_all]. unfold clear.
    by destruct (strpool_updatestring (get (FWord k) w) None p) as [[v p']|]. }
  destruct (Z.eqb_spec (w_type w) WIDGET_TYPE_BUTTON) as [Et|_]; [exact Hb|].
  destruct (Z.eqb_spec (w_type w) WIDGET_TYPE_CHOICE) as [Et|_]; [exact Hb|].
  destruct (Z.eqb_spec (w_type w) WIDGET_TYPE_IMAGE) as [Et|_]; [rewrite Et; by apply (Hw 1%nat); [lia|]|].
  destruct (Z.eqb_spec (w_type w) WIDGET_TYPE_SELECT) as [Et|_]; [exact Hb|].
  destruct (Z.eqb_spec (w_type w) WIDGET_TYPE_TEXT) as [Et|_]; [rewrite Et; by apply (Hw 0%nat); [lia|]|].
  destruct (Z.eqb_spec (w_type w) WIDGET_TYPE_TEXTBUTTON) as [Et|_]; [exact Hb|].
  destruct (Z.eqb_spec (w_type w) WIDGET_TYPE_WINDOW) as [Et|_]; [by apply (Hw 0%nat); [lia|]|done].
Qed.

(** The initial payload: its string words are 0. *)
Lemma inittype_ok t data : length data = 11%nat -> exists data', length data' = 11%nat /\ Forall (fun k => data' !! k = Some 0) (string_words t) /\
  forall source state i n span bb clip, inittype (Widget source t state i n span data bb clip) = Some (Widget source t state i n span data' bb clip).
Proof.
  intros Hl. do 11 (destruct data as [|? data]; [discriminate Hl|]). destruct data; [|discriminate Hl]. unfold inittype, string_words.
  cbn [w_type]. repeat match goal with |- context [t =? ?c] => destruct (Z.eqb_spec t c) as [->|_] end; eexists; (split; [|split; [|intros; vm_compute; reflexivity]]); try reflexivity; repeat constructor.
Qed.

Lemma init_cells source t data' :
  length data' = 11%nat -> Forall (fun k => data' !! k = Some 0) (string_words t) ->
  Forall (fun k => k = 0%nat) (cells (Widget source t WIDGET_STATE_NORMAL 0 0 0 data' (util_initbox 0 0 0 0) (util_initbox 0 0 0 0))) /\
  widget_ok (Widget source t WIDGET_STATE_NORMAL 0 0 0 data' (util_initbox 0 0 0 0) (util_initbox 0 0 0 0)).
Proof.
  intros Hl Hz. set (w := Widget _ _ _ _ _ _ _ _ _). assert (Forall (fun f => get f w = 0) (fields t)) as Hg.
  { constructor; [done|]. constructor; [done|]. apply Forall_fmap. eapply Forall_impl; [exact Hz|]. intros k Hk. cbn. by rewrite Hk. }
  split; [|split; [done|]].
  - unfold cells. apply Forall_fmap. eapply Forall_impl; [exact Hg|]. intros f Hf. cbn in *. by rewrite Hf.
  - eapply Forall_impl; [exact Hg|]. intros f ->. lia.
Qed.

(** ** The operations on a widget among others *)

(** What an operation on one widget leaves: the pool is well-formed, every string
    is owned once, and the strings of the cells [xs] of the others are kept. *)
Record strings_kept (A : list nat) (w' : widget) (C : list nat) (L M : layout) (p' : strpool) : Prop := {
  sk_pool : pool_ok M p';
  sk_owned : owned (A ++ cells w' ++ C) (contents M);
  sk_widget : widget_ok w';
  sk_others : keeps (A ++ C) (contents L) (contents M) }.

Section Operations.
Context (A C : list nat) (w : widget) (L : layout) (p : strpool).
Context (Hp : pool_ok L p) (Hw : widget_ok w).

Lemma setattribute_ok a s obj :
  owned (A ++ cells w ++ C) (contents L) -> is_string s obj ->
  (length L < 511)%nat -> (length (image L) + S (length s) <= Z.to_nat STRINGDATA_SIZE)%nat ->
  exists w' M p', widget_setattribute w a (Some obj) p = Some (w', p') /\ strings_kept A w' C L M p' /\ w_source w' = w_source w /\ w_type w' = w_type w /\
    (forall g, g ∈ fields (w_type w) ->
      contents M !! Z.to_nat (get g w') = if decide (string_field (w_type w) a = Some g) then Some s else contents L !! Z.to_nat (get g w)) /\
    (length M <= S (length L))%nat /\ (length (image M) <= length (image L) + S (length s))%nat.
Proof.
  intros Ho Hs Hn Hroom. destruct (string_field (w_type w) a) as [f|] eqn:Ef.
  - pose proof (string_field_in _ _ _ Ef) as Hf.
    destruct (store_string A w C L p f s obj Hp Ho Hw Hf Hs Hn Hroom) as (v & M & p' & E & Hv & HM & Ho' & Hc & Hk & Hg & Hlen & Him).
    exists (put f v w), M, p'. rewrite (setattribute_string w a f), E by (apply Hw || done). split_and!; [done| |by destruct f|apply put_type| |done|done].
    { split; try done. by apply put_ok. }
    intros g Hgf. destruct (decide (Some f = Some g)) as [[= <-]|Hne]; [by rewrite get_put_eq by (done || apply Hw)|].
    rewrite get_put_ne by congruence. apply Hg; [done|congruence].
  - destruct (setattribute_plain w a s obj p) as (w' & E & Hsame); [apply Hw|done|done|]. exists w', L, p. split_and!; [done| |apply Hsame|apply Hsame| |lia|lia].
    { split; [done|by rewrite (same_strings_cells _ _ Hsame)|by eapply same_strings_ok|done]. }
    intros g Hg. rewrite decide_False by done. pose proof (ss_get _ _ Hsame) as H. rewrite Forall_forall in H. by rewrite H.
Qed.

(** Without a value: a string attribute is cleared. *)
Lemma setattribute_null_ok a f :
  owned (A ++ cells w ++ C) (contents L) -> string_field (w_type w) a = Some f ->
  exists M p', widget_setattribute w a None p = Some (put f 0 w, p') /\ strings_kept A (put f 0 w) C L M p'.
Proof.
  intros Ho Ef. pose proof (string_field_in _ _ _ Ef) as Hf.
  destruct (clear_string A w C L p f Hp Ho Hw Hf) as (M & p' & E & HM & Ho' & Hk & _). exists M, p'.
  rewrite (setattribute_string w a f) by (apply Hw || done). split; [exact E|]. split; try done. by apply put_ok.
Qed.

Lemma unset_ok :
  owned (A ++ cells w ++ C) (contents L) ->
  exists w' M p', widget_unsetattributes w p = Some (w', p') /\ strings_kept A w' C L M p' /\
    Forall (fun k => k = 0%nat) (cells w') /\ w_type w' = w_type w /\ w_id w' = 0 /\ w_in w' = 0 /\
    (length M <= length L)%nat /\ (length (image M) <= length (image L))%nat.
Proof.
  intros Ho. rewrite unset_is_clear by apply Hw.
  destruct (clear_all_ok A C (fields (w_type w)) w L p Hp Ho Hw) as (w' & M & p' & E & HM & Ho' & Hw' & Ht & Hg & Hk & Hl & Hi).
  { by apply Forall_forall. }
  exists w', M, p'. split_and!; try done.
  - unfold cells. apply Forall_fmap, Forall_forall. intros f Hf. cbn. rewrite Hg, Ht in *. by rewrite decide_True.
  - change (w_id w') with (get FId w'). rewrite Hg. by rewrite decide_True by (left).
  - change (w_in w') with (get FIn w'). rewrite Hg. by rewrite decide_True by (right; left).
Qed.

(** A free entry has no id and no container. *)
Lemma init_ok source t ids ido ins ino :
  owned (A ++ C) (contents L) -> w_id w = 0 -> w_in w = 0 -> is_string ids ido -> is_string ins ino ->
  (length L < 510)%nat -> (length (image L) + S (length ids) + S (length ins) <= Z.to_nat STRINGDATA_SIZE)%nat ->
  exists w' M p', widget_init w source t (Some ido) (Some ino) (w_data w) p = Some (w', p') /\ strings_kept A w' C L M p' /\
    w_type w' = t /\ w_source w' = source /\ w_state w' = WIDGET_STATE_NORMAL /\
    contents M !! Z.to_nat (w_id w') = Some ids /\ contents M !! Z.to_nat (w_in w') = Some ins /\
    Forall (fun k => get (FWord k) w' = 0) (string_words t) /\
    (length M <= S (S (length L)))%nat /\ (length (image M) <= length (image L) + S (length ids) + S (length ins))%nat.
Proof.
  intros Ho Hid Hin Hids Hins Hn Hroom. destruct (inittype_ok t (w_data w)) as (data' & Hl & Hz & Hinit); [apply Hw|].
  destruct (init_cells source t data' Hl Hz) as [Hc0 Hw0]. set (w0 := Widget _ _ _ _ _ _ _ _ _) in Hc0, Hw0.
  apply (owned_zeros A (cells w0) C) in Ho; [|done].
  destruct (store_string A w0 C L p FId ids ido Hp Ho Hw0) as (i & M & p1 & E1 & Hi & HM & Ho1 & Hci & Hk1 & Hg1 & Hl1 & Hi1);
    [left|done|lia|lia|].
  assert (widget_ok (put FId i w0)) as Hw1 by (apply put_ok; [left|done|done]).
  destruct (store_string A (put FId i w0) C M p1 FIn ins ino HM Ho1 Hw1) as (n & N & p2 & E2 & Hn' & HN & Ho2 & Hcn & Hk2 & Hg2 & Hl2 & Hi2);
    [right; left|done|lia|lia|].
  exists (put FIn n (put FId i w0)), N, p2. unfold widget_init. rewrite Hid, Hin.
  change (attr_update ATTR_ID (Some ido) 0 p) with (strpool_updatestring (get FId w0) (Some ido) p). rewrite E1. cbn [mbind option_bind].
  change (attr_update ATTR_IN (Some ino) 0 p1) with (strpool_updatestring (get FIn (put FId i w0)) (Some ino) p1). rewrite E2.
  cbn [mbind option_bind]. rewrite Hinit. cbn [mbind option_bind]. split_and!; try done; try lia.
  - split; try done; [apply put_ok; [right; left|done|done]|]. intros j Hj. rewrite Hk2 by done. by apply Hk1.
  - cbn. rewrite <- Hci. by apply (Hg2 FId); [left|].
  - eapply Forall_impl; [exact Hz|]. intros k Hk. cbn. by rewrite Hk.
Qed.
End Operations.

(** ** Hit test *)

Definition box_ok (b : util_box) : Prop :=
  -2147483648 <= b_x b <= 2147483647 /\ -2147483648 <= b_y b <= 2147483647 /\ 0 <= b_w b /\ 0 <= b_h b /\
  b_x b + b_w b <= 2147483647 /\ b_y b + b_h b <= 2147483647.
Definition inside (b : util_box) (x y : Z) : Prop := b_x b <= x < b_x b + b_w b /\ b_y b <= y < b_y b + b_h b.

Lemma b2z_test b : negb (Z.b2z b =? 0) = b.
Proof. by destruct b. Qed.

Lemma util_intersects_spec v mn mx : negb (util_intersects v mn mx =? 0) = true <-> mn <= v < mx.
Proof. unfold util_intersects. rewrite b2z_test, andb_true_iff. lia. Qed.

(** A point hits a widget when it is in its box and in its clip, for boxes within
    the range of the signed integers. *)
Lemma widget_intersects_spec w x y :
  box_ok (w_bb w) -> box_ok (w_clip w) -> widget_intersects w x y = 1 <-> inside (w_bb w) x y /\ inside (w_clip w) x y.
Proof.
  unfold box_ok, inside. intros (? & ? & ? & ? & ? & ?) (? & ? & ? & ? & ? & ?).
  assert (forall z, -2147483648 <= z <= 2147483647 -> s32 z = z) as Hs by (intros z Hz; unfold s32; rewrite Z.mod_small; lia).
  unfold widget_intersects, widget_intersectsx, widget_intersectsy. rewrite !b2z_test, !Hs by lia.
  transitivity (negb (util_intersects x (b_x (w_bb w)) (b_x (w_bb w) + b_w (w_bb w)) =? 0) &&
    negb (util_intersects x (b_x (w_clip w)) (b_x (w_clip w) + b_w (w_clip w)) =? 0) &&
    (negb (util_intersects y (b_y (w_bb w)) (b_y (w_bb w) + b_h (w_bb w)) =? 0) &&
    negb (util_intersects y (b_y (w_clip w)) (b_y (w_clip w) + b_h (w_clip w)) =? 0)) = true).
  { by destruct (_ && _). }
  rewrite !andb_true_iff, !util_intersects_spec. tauto.
Qed.

(** ** Errors *)

(** A number or a keyword without a value is read through the null pointer. *)
Lemma null_value_faults a c p : attr_isvalue a || attr_isenum a = true -> attr_update a None c p = None.
Proof.
  intros Ha. unfold attr_update.
  repeat (case_match; [first [match goal with H : (a =? _) = true |- _ => apply Z.eqb_eq in H; subst a; discriminate Ha end | reflexivity]|]).
  exfalso. revert Ha. unfold attr_isvalue, attr_isenum. repeat match goal with H : (a =? _) = false |- _ => rewrite H; clear H end. discriminate.
Qed.

Lemma put_words_other l : forall w w' k,
  put_words l w = Some w' -> Z.of_nat k ∉ l.*1 -> w_data w' !! k = w_data w !! k.
Proof.
  induction l as [|[i v] l IH]; intros w w' k; cbn [put_words fmap list_fmap]; [by intros [= <-]|].
  rewrite not_elem_of_cons. unfold wr. case_decide; [|done]. cbn [mbind option_bind fst]. intros E [Hne Hl].
  rewrite (IH _ _ _ E Hl). cbn [set_data w_data]. apply list_lookup_insert_ne. lia.
Qed.

(** A text box takes the cursor, and whether it has one, from the widget that had
    the entry before. *)
Lemma textbox_keeps_cursor source id inn data p w' p' w :
  widget_init w source WIDGET_TYPE_TEXTBOX id inn data p = Some (w', p') ->
  w_data w' !! 4%nat = data !! 4%nat /\ w_data w' !! 5%nat = data !! 5%nat.
Proof.
  unfold widget_init. destruct (attr_update ATTR_ID id (w_id w) p) as [[i p1]|]; [|done]. cbn [mbind option_bind].
  destruct (attr_update ATTR_IN inn (w_in w) p1) as [[n p2]|]; [|done]. cbn [mbind option_bind].
  set (v := Widget _ _ _ _ _ _ _ _ _). change (inittype v) with (inittextbox v). destruct (inittextbox v) as [v'|] eqn:E; [|done].
  cbn [mbind option_bind]. intros [= -> _]. unfold inittextbox in E. split; eapply put_words_other in E; try exact E; cbn; set_solver by lia.
Qed.
