(* ===== verification/WmPool.v ===== *)
(** * Window manager: the pool of widgets (src/src/wm/pool.c)

    1024 entries, each of them on the list of free entries or on the list of
    widgets, whose order is the order of drawing.  The lists are the sequences
    that [LinkedList] proves the operations of list.c to work on, and an item is
    the number of its entry.  [None] is an access outside an object or a loop that
    does not end.  The main theorems: the widgets with their strings are an
    abstract sequence that [pool_create] extends and [pool_destroy] shortens, and
    [pool_bump] puts a widget and all that is in it on top of the others. *)
From stdpp Require Import sorting relations.
From S2P Require Import Prelude Buffer Cstring Option LinkedList WmStrpool WmWidget.

Local Open Scope Z_scope.

Definition MAX_WIDGETS : nat := 1024.

Record pool := Pool {
  widgetlist : list nat; bumplist : list nat; freelist : list nat; entries : list widget; strings : strpool }.

Definition with_entries (e : list widget) (s : strpool) (p : pool) : pool :=
  Pool (widgetlist p) (bumplist p) (freelist p) e s.

(** ** Lists *)

(** The neighbours of an item in its list. *)
Fixpoint after (c : nat) (xs : list nat) : option nat :=
  match xs with [] => None | x :: xs => if decide (x = c) then head xs else after c xs end.
Fixpoint before_from (prev : option nat) (c : nat) (xs : list nat) : option nat :=
  match xs with [] => None | x :: xs => if decide (x = c) then prev else before_from (Some x) c xs end.
Definition before (c : nat) (xs : list nat) : option nat := before_from None c xs.

Definition home (p : pool) (c : nat) : list nat :=
  if decide (c ∈ widgetlist p) then widgetlist p else if decide (c ∈ bumplist p) then bumplist p else freelist p.

(** [list_remove] of an item that is on no list changes no link, see [pick_then_move]. *)
Definition removed (c : nat) (xs : list nat) : list nat := filter (fun x => x <> c) xs.

Definition move_to_bump (c : nat) (p : pool) : pool :=
  Pool (removed c (widgetlist p)) (bumplist p ++ [c]) (freelist p) (entries p) (strings p).
Definition move_from_bump (c : nat) (p : pool) : pool :=
  Pool (widgetlist p ++ [c]) (removed c (bumplist p)) (freelist p) (entries p) (strings p).
Definition move_to_widgets (c : nat) (p : pool) : pool :=
  Pool (widgetlist p ++ [c]) (bumplist p) (removed c (freelist p)) (entries p) (strings p).
Definition move_to_free (c : nat) (p : pool) : pool :=
  Pool (removed c (widgetlist p)) (bumplist p) (freelist p ++ [c]) (entries p) (strings p).

(** [list_pickhead(&freelist)] *)
Definition pick_free (p : pool) : option nat * pool :=
  match freelist p with
  | [] => (None, p)
  | c :: fs => (Some c, Pool (widgetlist p) (bumplist p) fs (entries p) (strings p))
  end.

(** ** Walking the widgets *)

Definition pool_prev (p : pool) (current : option nat) : option nat :=
  match current with Some c => before c (home p c) | None => last (widgetlist p) end.
Definition pool_next (p : pool) (current : option nat) : option nat :=
  match current with Some c => after c (home p c) | None => head (widgetlist p) end.

(** The test of [pool_nextin]. *)
Definition is_in (p : pool) (parent w : widget) : option bool :=
  if (w_source parent =? 0) || (w_source w =? w_source parent) then
    si ← string_at (strings p) (w_in w);
    sp ← string_at (strings p) (w_id parent);
    m ← cstring_match si sp;
    Some (negb (m =? 0))
  else Some false.

Fixpoint nextin_loop (fuel : nat) (p : pool) (current : option nat) (parent : widget) : option (option nat) :=
  match fuel with
  | O => None
  | S fuel =>
      match pool_next p current with
      | None => Some None
      | Some c =>
          w ← entries p !! c;
          b ← is_in p parent w;
          if (b : bool) then Some (Some c) else nextin_loop fuel p (Some c) parent
      end
  end.

(** A walk visits every item of the list at most once. *)
Definition walk_fuel (p : pool) : nat := S (length (widgetlist p)).

Definition pool_nextin (p : pool) (current : option nat) (parent : widget) : option (option nat) :=
  n ← strpool_getcstringlength (strings p) (w_id parent);
  if n =? 0 then Some None else nextin_loop (walk_fuel p) p current parent.

Fixpoint nextsource_loop (fuel : nat) (p : pool) (current : option nat) (source : Z) : option (option nat) :=
  match fuel with
  | O => None
  | S fuel =>
      match pool_next p current with
      | None => Some None
      | Some c => w ← entries p !! c; if w_source w =? source then Some (Some c) else nextsource_loop fuel p (Some c) source
      end
  end.
Definition pool_nextsource (p : pool) (current : option nat) (source : Z) : option (option nat) :=
  nextsource_loop (walk_fuel p) p current source.

Fixpoint getwidgetbyid_loop (fuel : nat) (p : pool) (current : option nat) (source : Z) (id : list Z) : option (option nat) :=
  match fuel with
  | O => None
  | S fuel =>
      match pool_next p current with
      | None => Some None
      | Some c =>
          w ← entries p !! c;
          if negb (w_source w =? source) then getwidgetbyid_loop fuel p (Some c) source id
          else
            s ← string_at (strings p) (w_id w);
            m ← cstring_match s id;
            if m =? 0 then getwidgetbyid_loop fuel p (Some c) source id else Some (Some c)
      end
  end.
Definition pool_getwidgetbyid (p : pool) (source : Z) (id : list Z) : option (option nat) :=
  getwidgetbyid_loop (walk_fuel p) p None source id.

(** [&entry->widget == widget] is the equality of the numbers. *)
Fixpoint finditem_loop (fuel : nat) (p : pool) (current : option nat) (widget : nat) : option (option nat) :=
  match fuel with
  | O => None
  | S fuel =>
      match pool_next p current with
      | None => Some None
      | Some c => if decide (c = widget) then Some (Some c) else finditem_loop fuel p (Some c) widget
      end
  end.
Definition finditem (p : pool) (widget : nat) : option (option nat) := finditem_loop (walk_fuel p) p None widget.

(** ** Raising *)

(** [bump] of an item, and its loop over the widgets in [parent]. *)
Fixpoint bump_loop (fuel : nat) (p : pool) (current : option nat) (parent : nat) : option pool :=
  match fuel with
  | O => None
  | S fuel =>
      w ← entries p !! parent;
      n ← pool_nextin p current w;
      match n with
      | None => Some p
      | Some c =>
          let prev := before c (home p c) in
          p ← bump_loop fuel (move_to_bump c p) prev c;
          bump_loop fuel p prev parent
      end
  end.
Definition bump (fuel : nat) (p : pool) (item : nat) : option pool :=
  let current := before item (home p item) in bump_loop fuel (move_to_bump item p) current item.

Fixpoint unbump_loop (fuel : nat) (p : pool) : option pool :=
  match bumplist p with
  | [] => Some p
  | c :: _ => match fuel with O => None | S fuel => unbump_loop fuel (move_from_bump c p) end
  end.

(** Every call of [bump] takes a widget off the list. *)
Definition pool_bump (p : pool) (widget : nat) : option pool :=
  item ← finditem p widget;
  p ← (match item with Some c => bump (walk_fuel p) p c | None => Some p end);
  unbump_loop (length (bumplist p)) p.

(** ** Creating and destroying *)

Definition pool_create (source type : Z) (id inn : option (list Z)) (p : pool) : option (option nat * pool) :=
  let '(item, p) := pick_free p in
  match item with
  | None => Some (None, p)
  | Some c =>
      w ← entries p !! c;
      '(w, s) ← widget_init w source type id inn (w_data w) (strings p);
      Some (Some c, move_to_widgets c (with_entries (<[c := w]> (entries p)) s p))
  end.

Definition pool_destroy (widget : nat) (p : pool) : option pool :=
  item ← finditem p widget;
  match item with
  | None => Some p
  | Some c =>
      w ← entries p !! widget;
      '(w, s) ← widget_unsetattributes w (strings p);
      Some (move_to_free c (with_entries (<[widget := w]> (entries p)) s p))
  end.

Definition empty_widget : widget := Widget 0 0 0 0 0 0 (replicate 11 0) (Box 0 0 0 0) (Box 0 0 0 0).

(** [list_inititem] and [list_add] for each of the entries from [i] on; the static
    objects are 0 before. *)
Fixpoint setup_loop (n i : nat) (p : pool) : pool :=
  match n with
  | O => p
  | S n => setup_loop n (S i) (Pool (widgetlist p) (bumplist p) (freelist p ++ [i]) (entries p) (strings p))
  end.
Definition pool_setup (entries : list widget) (s : strpool) : pool := setup_loop MAX_WIDGETS 0 (Pool [] [] [] entries s).
Definition pool_start : pool := pool_setup (replicate MAX_WIDGETS empty_widget) empty_pool.

(** ** Positions in a list *)

Lemma after_mid A c B : c ∉ A -> after c (A ++ c :: B) = head B.
Proof.
  induction A as [|x A IH]; cbn [app after]; intros Hn; [by rewrite decide_True|].
  rewrite not_elem_of_cons in Hn. rewrite decide_False by naive_solver. apply IH. naive_solver.
Qed.

Lemma before_from_mid A c B prev : c ∉ A -> before_from prev c (A ++ c :: B) = match last A with Some a => Some a | None => prev end.
Proof.
  revert prev. induction A as [|x A IH]; intros prev Hn; cbn [app before_from]; [by rewrite decide_True|].
  rewrite not_elem_of_cons in Hn. rewrite decide_False by naive_solver. rewrite IH by naive_solver. destruct A as [|y A]; [done|].
  rewrite last_cons_cons. destruct (last (y :: A)) eqn:E; [done|]. by apply last_None in E.
Qed.

Lemma before_mid A c B : c ∉ A -> before c (A ++ c :: B) = last A.
Proof. intros Hn. unfold before. rewrite before_from_mid by done. by destruct (last A). Qed.

Lemma removed_absent c xs : c ∉ xs -> removed c xs = xs.
Proof.
  unfold removed. induction xs as [|x xs IH]; [done|]. rewrite not_elem_of_cons. intros [Hne Hn].
  rewrite filter_cons_True by congruence. by rewrite IH.
Qed.

Lemma removed_mid A c B : NoDup (A ++ c :: B) -> removed c (A ++ c :: B) = A ++ B.
Proof.
  intros Hnd. apply NoDup_app in Hnd as (_ & Hd & [HB _]%NoDup_cons). unfold removed. rewrite filter_app, filter_cons_False by auto.
  f_equal; apply removed_absent; [intros Hc; apply (Hd c Hc); left|done].
Qed.

Lemma home_widget p c : c ∈ widgetlist p -> home p c = widgetlist p.
Proof. intros Hc. unfold home. by rewrite decide_True. Qed.

(** The walk that has passed [A] comes to the head of the rest. *)
Lemma next_split p A B : widgetlist p = A ++ B -> NoDup (widgetlist p) -> pool_next p (last A) = head B.
Proof.
  intros E Hnd. destruct A as [|a A _] using rev_ind; cbn [last pool_next]; [by rewrite E|].
  rewrite last_snoc. cbn [pool_next]. rewrite E in Hnd. rewrite home_widget.
  - rewrite E, <- app_assoc. cbn [app]. apply after_mid. apply NoDup_app in Hnd as (Hnd & _). apply NoDup_app in Hnd as (_ & Hd & _).
    intros Ha. apply (Hd a Ha). by left.
  - rewrite E, !elem_of_app. left. right. by left.
Qed.

Lemma prev_split p A c B : widgetlist p = A ++ c :: B -> NoDup (widgetlist p) -> before c (home p c) = last A.
Proof.
  intros E Hnd. rewrite home_widget by (rewrite E, elem_of_app; right; by left). rewrite E in *. apply before_mid.
  apply NoDup_app in Hnd as (_ & Hd & _). intros Hc. apply (Hd c Hc). by left.
Qed.

(** ** Looking for a widget *)

(** The widget of entry [c] passes the test of [pool_nextin] for entry [x]. *)
Definition in_test (p : pool) (x c : nat) : option bool :=
  wx ← entries p !! x;
  n ← strpool_getcstringlength (strings p) (w_id wx);
  if n =? 0 then Some false else w ← entries p !! c; is_in p wx w.

(** The relation, where the test is defined. *)
Definition child (p : pool) (x c : nat) : bool := default false (in_test p x c).

Lemma nextin_loop_spec p parent wp (T : nat -> bool) : entries p !! parent = Some wp -> NoDup (widgetlist p) ->
  forall fuel A B, widgetlist p = A ++ B -> (length B < fuel)%nat ->
  Forall (fun c => exists w, entries p !! c = Some w /\ is_in p wp w = Some (T c)) B ->
  nextin_loop fuel p (last A) wp = Some (head (filter (fun c => T c = true) B)).
Proof.
  intros Hp Hnd. induction fuel as [|fuel IH]; intros A B E Hf HB; [lia|]. cbn [nextin_loop].
  rewrite (next_split p A B E Hnd). destruct B as [|c B]; [done|]. cbn [head]. inversion HB as [|? ? (w & Hw & Hin) HB']; subst.
  rewrite Hw. cbn [mbind option_bind]. rewrite Hin. cbn [mbind option_bind]. destruct (T c) eqn:Ec.
  - by rewrite filter_cons_True.
  - rewrite filter_cons_False by congruence. rewrite <- (IH (A ++ [c]) B); [by rewrite last_snoc|by rewrite <- app_assoc|cbn in Hf; lia|done].
Qed.

Lemma nextin_spec p parent wp A B :
  entries p !! parent = Some wp -> NoDup (widgetlist p) -> widgetlist p = A ++ B ->
  Forall (fun c => is_Some (in_test p parent c)) B -> is_Some (strpool_getcstringlength (strings p) (w_id wp)) ->
  pool_nextin p (last A) wp = Some (head (filter (fun c => child p parent c = true) B)).
Proof.
  intros Hp Hnd E HB [n Hn]. unfold pool_nextin. rewrite Hn. cbn [mbind option_bind]. unfold child, in_test in *. rewrite Hp in *.
  cbn [mbind option_bind] in *. rewrite Hn in *. cbn [mbind option_bind] in *. destruct (n =? 0).
  { clear. induction B as [|c B IH]; [done|]. by rewrite filter_cons_False. }
  apply (nextin_loop_spec p parent); [done|done|done| |].
  - unfold walk_fuel. rewrite E, length_app. lia.
  - eapply Forall_impl; [exact HB|]. intros c [b Hb]. cbn in Hb. destruct (entries p !! c) as [w|]; [|done]. cbn [mbind option_bind] in *.
    exists w. split; [done|]. by rewrite Hb.
Qed.

(** ** Raising a widget *)

(** [gather D x B kept moved]: of the widgets [B] behind [x], those [moved] with it,
    in the order in which they come to lie, and those [kept]. *)
Inductive gather (D : nat -> nat -> bool) : nat -> list nat -> list nat -> list nat -> Prop :=
  | gather_nil x : gather D x [] [] []
  | gather_skip x c B k m : D x c = false -> gather D x B k m -> gather D x (c :: B) (c :: k) m
  | gather_take x c B B' m1 k m2 :
      D x c = true -> gather D c B B' m1 -> gather D x B' k m2 -> gather D x (c :: B) k (c :: m1 ++ m2).

Lemma sorted_sublist (R : nat -> nat -> Prop) xs ys : xs `sublist_of` ys -> StronglySorted R ys -> StronglySorted R xs.
Proof.
  induction 1 as [|x xs ys Hs IH|x xs ys Hs IH]; [done| |]; intros [H HF]%StronglySorted_inv; [|by apply IH].
  constructor; [by apply IH|]. rewrite Forall_forall in *. intros y Hy. apply HF. by eapply elem_of_sublist.
Qed.

Section Gather.
Context (D : nat -> nat -> bool).

Lemma gather_perm x B k m : gather D x B k m -> k ++ m ≡ₚ B /\ k `sublist_of` B.
Proof.
  induction 1 as [x|x c B k m _ _ [IHp IHs]|x c B B' m1 k m2 _ _ [IHp1 IHs1] _ [IHp2 IHs2]].
  - split; [done|constructor].
  - split; [cbn; by rewrite IHp|by constructor].
  - split; [|constructor; by transitivity B'].
    rewrite <- Permutation_middle. apply perm_skip. rewrite (Permutation_app_comm m1), (assoc_L (++)), IHp2. done.
Qed.

Lemma gather_exists n : forall x B, (length B <= n)%nat -> exists k m, gather D x B k m.
Proof.
  induction n as [|n IH]; intros x [|c B] Hl; cbn in Hl; try lia; [eexists _, _; constructor..|].
  destruct (D x c) eqn:E.
  - destruct (IH c B) as (B' & m1 & H1); [lia|]. pose proof (gather_perm _ _ _ _ H1) as [_ Hs%sublist_length].
    destruct (IH x B') as (k & m2 & H2); [lia|]. eexists _, _. by eapply gather_take.
  - destruct (IH x B) as (k & m & H); [lia|]. eexists _, _. by eapply gather_skip.
Qed.

(** The first widget that goes with [x]. *)
Lemma gather_split x B k m : gather D x B k m ->
  (filter (fun c => D x c = true) B = [] /\ k = B /\ m = []) \/
  exists B1 c B2 B' m1 k2 m2, B = B1 ++ c :: B2 /\ head (filter (fun c => D x c = true) B) = Some c /\ gather D c B2 B' m1 /\
    gather D x B' k2 m2 /\ k = B1 ++ k2 /\ m = c :: m1 ++ m2.
Proof.
  induction 1 as [x|x c B k m Hd _ IH|x c B B' m1 k m2 Hd H1 _ H2 _].
  - left. done.
  - rewrite filter_cons_False by congruence. destruct IH as [(E & -> & ->)|(B1 & d & B2 & B' & m1 & k2 & m2 & -> & E & H1 & H2 & -> & ->)].
    + left. done.
    + right. by exists (c :: B1), d, B2, B', m1, k2, m2.
  - right. exists [], c, B, B', m1, k, m2. by rewrite filter_cons_True.
Qed.

(** Only what is in [x], or in something in [x], moves. *)
Lemma gather_sound x B k m : gather D x B k m -> Forall (fun y => rtc (fun a b => b ∈ B /\ D a b = true) x y) m.
Proof.
  assert (forall (B B' : list nat), (forall y, y ∈ B' -> y ∈ B) -> forall a b,
    rtc (fun a b => b ∈ B' /\ D a b = true) a b -> rtc (fun a b => b ∈ B /\ D a b = true) a b) as Hmono.
  { intros B0 B1 Hsub a b. apply rtc_subrel. naive_solver. }
  induction 1 as [x|x c B k m Hd _ IH|x c B B' m1 k m2 Hd H1 IH1 H2 IH2]; [done| |].
  - eapply Forall_impl; [exact IH|]. intros y. apply Hmono. intros z Hz. by right.
  - assert (rtc (fun a b => b ∈ c :: B /\ D a b = true) x c) as Hxc by (apply rtc_once; split; [left|done]).
    constructor; [done|]. apply Forall_app. split.
    + eapply Forall_impl; [exact IH1|]. intros y Hy. etransitivity; [exact Hxc|]. revert Hy. apply Hmono. intros z Hz. by right.
    + eapply Forall_impl; [exact IH2|]. intros y. apply Hmono. intros z Hz. right.
      apply gather_perm in H1 as [_ Hs]. by eapply elem_of_sublist.
Qed.

(** What is kept is in none of the widgets that lay before it and moved. *)
Lemma gather_kept (pos : nat -> nat) x B k m :
  gather D x B k m -> StronglySorted (fun a b => (pos a < pos b)%nat) B ->
  Forall (fun y => D x y = false /\ Forall (fun z => (pos z < pos y)%nat -> D z y = false) m) k.
Proof.
  induction 1 as [x|x c B k m Hd H IH|x c B B' m1 k m2 Hd H1 IH1 H2 IH2]; intros Hs; [done| |].
  - apply StronglySorted_inv in Hs as [Hs Hc]. constructor; [|by apply IH]. split; [done|].
    apply gather_perm in H as [Hp _]. rewrite <- Hp in Hc. apply Forall_app in Hc as [_ Hc]. eapply Forall_impl; [exact Hc|]. cbn. lia.
  - apply StronglySorted_inv in Hs as [Hs Hc]. specialize (IH1 Hs). pose proof (gather_perm _ _ _ _ H1) as [_ Hs1].
    specialize (IH2 (sorted_sublist _ _ _ Hs1 Hs)). pose proof (gather_perm _ _ _ _ H2) as [_ Hs2].
    rewrite Forall_forall in *. intros y Hy. destruct (IH2 y Hy) as [Hx Hm2].
    destruct (IH1 y) as [Hcy Hm1]; [by eapply elem_of_sublist|]. split; [done|]. constructor; [done|]. by apply Forall_app.
Qed.
End Gather.

(** What the list of widgets and the list of raised ones become. *)
Definition with_lists (ws bs : list nat) (p : pool) : pool := Pool ws bs (freelist p) (entries p) (strings p).

Lemma child_lists ws bs p x c : child (with_lists ws bs p) x c = child p x c.
Proof. done. Qed.

(** The entries [xs] can be tested for being in each other. *)
Definition testable (p : pool) (xs : list nat) : Prop := forall x c, x ∈ xs -> c ∈ xs -> is_Some (in_test p x c).

Lemma testable_parent p xs x c : testable p xs -> x ∈ xs -> c ∈ xs ->
  exists w, entries p !! x = Some w /\ is_Some (strpool_getcstringlength (strings p) (w_id w)).
Proof.
  intros Ht Hx Hc. destruct (Ht x c Hx Hc) as [b Hb]. unfold in_test in Hb. destruct (entries p !! x) as [w|]; [|done]. exists w. split; [done|].
  cbn [mbind option_bind] in Hb. by destruct (strpool_getcstringlength (strings p) (w_id w)).
Qed.

Lemma bump_loop_gather fuel : forall p xs x A B k m,
  gather (child p) x B k m -> (length B < fuel)%nat -> widgetlist p = A ++ B -> NoDup (A ++ B) ->
  testable p xs -> x ∈ xs -> (forall c, c ∈ B -> c ∈ xs) ->
  bump_loop fuel p (last A) x = Some (with_lists (A ++ k) (bumplist p ++ m) p).
Proof.
  induction fuel as [|fuel IH]; intros p xs x A B k m Hg Hf E Hnd Ht Hx HB; [lia|]. cbn [bump_loop].
  destruct (testable_parent p xs x x Ht Hx Hx) as (w & Hw & Hn). rewrite Hw. cbn [mbind option_bind].
  rewrite (nextin_spec p x w A B) by (first [done | by rewrite E | by apply Forall_forall; auto]). cbn [mbind option_bind].
  destruct (gather_split _ _ _ _ _ Hg) as [(E0 & -> & ->)|(B1 & c & B2 & B' & m1 & k2 & m2 & -> & E0 & H1 & H2 & -> & ->)]; rewrite E0; cbn [head].
  { rewrite app_nil_r, <- E. by destruct p. }
  rewrite (prev_split p (A ++ B1) c B2) by (rewrite E, <- ?app_assoc; done).
  assert (move_to_bump c p = with_lists ((A ++ B1) ++ B2) (bumplist p ++ [c]) p) as ->.
  { unfold move_to_bump, with_lists. rewrite E, (assoc_L (++)), removed_mid by (by rewrite <- (assoc_L (++))). done. }
  rewrite length_app in Hf. cbn in Hf. pose proof (gather_perm _ _ _ _ _ H1) as [Hp1 Hs1%sublist_length].
  rewrite (assoc_L (++)) in Hnd. pose proof Hnd as Hnd'. rewrite <- Permutation_middle in Hnd'. apply NoDup_cons in Hnd' as [_ Hnd'].
  assert (forall d, d ∈ B1 ++ B2 -> d ∈ xs) as HB12 by (intros d Hd; apply HB; rewrite elem_of_app, elem_of_cons in *; tauto).
  rewrite (IH _ xs c (A ++ B1) B2 B' m1); [|done|lia|done|done|done| |].
  2:{ apply HB. rewrite elem_of_app. right. left. }
  2:{ intros d Hd. apply HB12. rewrite elem_of_app. by right. }
  cbn [mbind option_bind]. unfold with_lists at 1. cbn [widgetlist bumplist with_lists freelist entries strings].
  rewrite (IH _ xs x (A ++ B1) B' k2 m2); [|done|lia|done| |done|done|].
  - unfold with_lists. cbn. by rewrite <- !(assoc_L (++)).
  - rewrite <- Hp1, (assoc_L (++)) in Hnd'. by apply NoDup_app in Hnd' as (? & _).
  - intros d Hd. apply HB12. rewrite <- Hp1. rewrite !elem_of_app. auto.
Qed.

Lemma finditem_loop_spec p x : NoDup (widgetlist p) -> forall fuel A B, widgetlist p = A ++ B -> (length B < fuel)%nat ->
  finditem_loop fuel p (last A) x = Some (if decide (x ∈ B) then Some x else None).
Proof.
  intros Hnd. induction fuel as [|fuel IH]; intros A B E Hf; [lia|]. cbn [finditem_loop]. rewrite (next_split p A B E Hnd).
  destruct B as [|c B]; [done|]. cbn [head]. case_decide as Hc; [subst; rewrite decide_True by left; done|].
  rewrite <- (last_snoc c A), (IH (A ++ [c]) B); [|by rewrite <- (assoc_L (++))|cbn in Hf; lia].
  f_equal. destruct (decide (x ∈ B)) as [Hin|Hni]; [by rewrite decide_True by (by right)|].
  rewrite decide_False; [done|]. rewrite elem_of_cons. naive_solver.
Qed.

Lemma finditem_spec p x : NoDup (widgetlist p) -> finditem p x = Some (if decide (x ∈ widgetlist p) then Some x else None).
Proof. intros Hnd. apply (finditem_loop_spec p x Hnd _ [] (widgetlist p)); [done|]. unfold walk_fuel. lia. Qed.

Lemma unbump_spec : forall bs p, NoDup bs -> bumplist p = bs -> unbump_loop (length bs) p = Some (with_lists (widgetlist p ++ bs) [] p).
Proof.
  induction bs as [|c bs IH]; intros p Hnd E; cbn [length unbump_loop]; rewrite E.
  { rewrite app_nil_r. destruct p. cbn in E. by subst. }
  pose proof (removed_mid [] c bs Hnd) as Hr. cbn [app] in Hr. apply NoDup_cons in Hnd as [Hc Hnd].
  rewrite IH; [|done|unfold move_from_bump; cbn [bumplist]; by rewrite E].
  unfold with_lists, move_from_bump. cbn [widgetlist freelist entries strings]. by rewrite <- (assoc_L (++)).
Qed.

(** The list after raising [x]. *)
Lemma pool_bump_gather p A x B k m :
  widgetlist p = A ++ x :: B -> NoDup (widgetlist p) -> bumplist p = [] -> testable p (x :: B) -> gather (child p) x B k m ->
  pool_bump p x = Some (with_lists (A ++ k ++ x :: m) [] p).
Proof.
  intros E Hnd Hb Ht Hg. unfold pool_bump. rewrite finditem_spec, decide_True by (done || (rewrite E, elem_of_app; right; left)).
  cbn [mbind option_bind]. unfold bump. rewrite (prev_split p A x B E Hnd). unfold walk_fuel. pose proof Hnd as Hnd'. rewrite E in Hnd'.
  assert (move_to_bump x p = with_lists (A ++ B) [x] p) as ->.
  { unfold move_to_bump, with_lists. by rewrite E, Hb, removed_mid. }
  pose proof (gather_perm _ _ _ _ _ Hg) as [Hp _]. rewrite <- Permutation_middle in Hnd'. apply NoDup_cons in Hnd' as [Hx Hnd'].
  rewrite (bump_loop_gather _ (with_lists (A ++ B) [x] p) (x :: B) x A B k m); [|done| |done|done|done|left|by right].
  2:{ rewrite E, length_app. cbn. lia. }
  cbn [mbind option_bind]. rewrite (unbump_spec ([x] ++ m)); [|apply NoDup_cons; split|done].
  - unfold with_lists. cbn. by rewrite <- !(assoc_L (++)).
  - intros Hm. apply Hx. rewrite <- Hp. rewrite !elem_of_app. auto.
  - rewrite <- Hp, (assoc_L (++)) in Hnd'. by apply NoDup_app in Hnd' as (_ & _ & ?).
Qed.

(** ** Positions *)

Fixpoint index_of (a : nat) (xs : list nat) : nat :=
  match xs with [] => 0 | x :: xs => if decide (x = a) then 0 else S (index_of a xs) end.

Lemma index_of_app xs a A B : xs = A ++ a :: B -> NoDup xs -> index_of a xs = length A.
Proof.
  revert xs. induction A as [|c A IH]; intros xs -> Hnd; cbn [app index_of length]; [by rewrite decide_True|].
  cbn in Hnd. apply NoDup_cons in Hnd as [Hc Hnd]. rewrite decide_False; [by rewrite (IH (A ++ a :: B))|].
  intros ->. apply Hc. rewrite elem_of_app. right. left.
Qed.

Lemma index_sorted xs : NoDup xs -> forall A B, xs = A ++ B -> StronglySorted (fun a b => (index_of a xs < index_of b xs)%nat) B.
Proof.
  intros Hnd A B. revert A. induction B as [|b B IH]; intros A E; [constructor|].
  constructor; [apply (IH (A ++ [b])); by rewrite <- (assoc_L (++))|]. apply Forall_forall. intros c Hc.
  apply list_elem_of_split in Hc as (B1 & B2 & ->). rewrite (index_of_app xs b A (B1 ++ c :: B2)) by done.
  rewrite (index_of_app xs c (A ++ b :: B1) B2), length_app; [cbn; lia| |done]. rewrite E. by rewrite <- (assoc_L (++)).
Qed.

(** Every widget comes after the widgets it is in. *)
Definition parents_first (p : pool) : Prop :=
  forall a c, a ∈ widgetlist p -> c ∈ widgetlist p -> child p a c = true -> (index_of a (widgetlist p) < index_of c (widgetlist p))%nat.

(** [b] is a widget in widget [a]. *)
Definition contains (p : pool) (a b : nat) : Prop := b ∈ widgetlist p /\ child p a b = true.

Lemma gather_complete p A x B k m :
  widgetlist p = A ++ x :: B -> NoDup (widgetlist p) -> parents_first p -> gather (child p) x B k m ->
  forall y, rtc (contains p) x y -> y ∈ x :: m.
Proof.
  intros E Hnd Hpf Hg. pose proof (gather_perm _ _ _ _ _ Hg) as [Hp _].
  assert (StronglySorted (fun a b => (index_of a (widgetlist p) < index_of b (widgetlist p))%nat) (x :: B)) as Hs by by eapply index_sorted.
  apply StronglySorted_inv in Hs as [Hs Hx]. pose proof (gather_kept _ (fun a => index_of a (widgetlist p)) _ _ _ _ Hg Hs) as Hk.
  assert (forall c, c ∈ x :: m -> c ∈ x :: B) as Hsub.
  { intros c. rewrite !elem_of_cons, <- Hp, elem_of_app. tauto. }
  apply rtc_ind_r; [left|]. intros a b _ [Hb Hab] Ha. pose proof (Hpf a b) as Hlt.
  rewrite E in Hlt at 1 2. rewrite E in Hb. specialize (Hlt ltac:(rewrite elem_of_app; right; by apply Hsub) Hb Hab).
  assert (index_of x (widgetlist p) <= index_of a (widgetlist p))%nat as Hxa.
  { apply Hsub, elem_of_cons in Ha as [->|Ha]; [done|]. rewrite Forall_forall in Hx. specialize (Hx a Ha). cbn in Hx. lia. }
  apply elem_of_app in Hb as [Hb|Hb].
  { exfalso. apply list_elem_of_split in Hb as (A1 & A2 & ->). rewrite (index_of_app _ x _ _ E Hnd), length_app in Hxa.
    rewrite <- (assoc_L (++)) in E. cbn in E, Hxa. rewrite (index_of_app _ b _ _ E Hnd) in Hlt. lia. }
  apply elem_of_cons in Hb as [->|Hb]; [lia|]. rewrite <- Hp in Hb. apply elem_of_app in Hb as [Hb|Hb]; [|by right]. exfalso.
  rewrite Forall_forall in Hk. destruct (Hk b Hb) as [Hxb Hm]. apply elem_of_cons in Ha as [->|Ha]; [congruence|].
  rewrite Forall_forall in Hm. by rewrite Hm in Hab.
Qed.

(** C12. [pool_bump] ends, and it puts a widget on top with everything that is in
    it: the new order is the widgets that are not in it, in their old order, then
    the widget, then exactly the widgets that are in it directly or within
    another; no widget is lost.  Every widget is assumed to come after the widgets
    it is in, as the parser creates them. *)
Theorem pool_bump_raises p x :
  NoDup (widgetlist p) -> bumplist p = [] -> testable p (widgetlist p) -> parents_first p -> x ∈ widgetlist p ->
  exists kept moved, pool_bump p x = Some (with_lists (kept ++ x :: moved) [] p) /\
    kept `sublist_of` widgetlist p /\ kept ++ x :: moved ≡ₚ widgetlist p /\
    forall y, y ∈ x :: moved <-> rtc (contains p) x y.
Proof.
  intros Hnd Hb Ht Hpf Hx. apply list_elem_of_split in Hx as (A & B & E).
  destruct (gather_exists (child p) (length B) x B) as (k & m & Hg); [lia|]. pose proof (gather_perm _ _ _ _ _ Hg) as [Hp Hs].
  exists (A ++ k), m. rewrite <- (assoc_L (++)). split_and!.
  - apply (pool_bump_gather p A x B k m); try done. intros a c Ha Hc. apply Ht; rewrite E, elem_of_app; by right.
  - rewrite E. apply sublist_app; [done|]. by constructor.
  - rewrite E, <- Permutation_middle, Hp. done.
  - intros y. split; [|by apply (gather_complete p A x B k m)]. rewrite elem_of_cons. intros [->|Hy]; [done|].
    pose proof (gather_sound _ _ _ _ _ Hg) as Hm. rewrite Forall_forall in Hm. specialize (Hm y Hy). revert Hm. apply rtc_subrel.
    intros a b [Hbb Hab]. split; [|done]. rewrite E, elem_of_app, elem_of_cons. auto.
Qed.

(** ** The scene *)

Record pool_inv (L : layout) (p : pool) : Prop := {
  pi_strings : pool_ok L (strings p);
  pi_entries : length (entries p) = MAX_WIDGETS;
  pi_widgets : Forall widget_ok (entries p);
  pi_owned : owned (entries p ≫= cells) (contents L);
  pi_lists : widgetlist p ++ freelist p ≡ₚ seq 0 MAX_WIDGETS;
  pi_bump : bumplist p = [];
  pi_free : Forall (fun i => forall w, entries p !! i = Some w -> Forall (fun k => k = 0%nat) (cells w)) (freelist p) }.

(** A widget as its client sees it: its owner, its type and its strings. *)
Definition picture : Type := Z * Z * list (field * option (list Z)).
Definition view (L : layout) (w : widget) : picture :=
  (w_source w, w_type w, (fun f => (f, contents L !! Z.to_nat (get f w))) <$> fields (w_type w)).
Definition scene (L : layout) (p : pool) : list (option picture) := (fun i => view L <$> entries p !! i) <$> widgetlist p.

Lemma view_kept xs L M w : keeps xs (contents L) (contents M) -> (forall k, k ∈ cells w -> k ∈ xs) -> view M w = view L w.
Proof.
  intros Hk Hc. unfold view. f_equal. apply list_fmap_ext. intros i f Hf. f_equal. apply Hk, Hc. unfold cells.
  apply list_elem_of_fmap. exists f. split; [done|]. by eapply list_elem_of_lookup_2.
Qed.

Lemma pool_nodup L p : pool_inv L p -> NoDup (widgetlist p ++ freelist p).
Proof. intros H. rewrite (pi_lists _ _ H). apply NoDup_seq. Qed.

Lemma pool_valid L p i : pool_inv L p -> i ∈ widgetlist p ++ freelist p -> exists w, entries p !! i = Some w /\ widget_ok w.
Proof.
  intros H Hi. rewrite (pi_lists _ _ H) in Hi. apply elem_of_seq in Hi. destruct (lookup_lt_is_Some_2 (entries p) i) as [w Hw].
  { rewrite (pi_entries _ _ H). lia. }
  exists w. split; [done|]. by eapply Forall_lookup_1; [apply H|].
Qed.

(** The cells of the entries before and behind entry [i]. *)
Lemma entries_split p i w : entries p !! i = Some w ->
  entries p ≫= cells = (take i (entries p) ≫= cells) ++ cells w ++ (drop (S i) (entries p) ≫= cells).
Proof. intros Hw. rewrite <- (take_drop_middle _ _ _ Hw) at 1. by rewrite bind_app, bind_cons. Qed.

(** An operation on one widget that keeps the strings of the others. *)
Lemma entry_update L M p i w w' s' :
  pool_inv L p -> entries p !! i = Some w ->
  strings_kept (take i (entries p) ≫= cells) w' (drop (S i) (entries p) ≫= cells) L M s' ->
  owned (<[i := w']> (entries p) ≫= cells) (contents M) /\ Forall widget_ok (<[i := w']> (entries p)) /\
  forall j, j <> i -> view M <$> <[i := w']> (entries p) !! j = view L <$> entries p !! j.
Proof.
  intros H Hw Hk. pose proof (lookup_lt_Some _ _ _ Hw) as Hi. split_and!.
  - rewrite insert_take_drop by done. rewrite bind_app, bind_cons. apply Hk.
  - apply Forall_insert; [apply H|apply Hk].
  - intros j Hj. rewrite list_lookup_insert_ne by done. destruct (entries p !! j) as [v|] eqn:Ev; [|done]. cbn. f_equal.
    apply (view_kept _ _ _ _ (sk_others _ _ _ _ _ _ Hk)). intros k Hc. rewrite elem_of_app.
    destruct (decide (j < i)%nat) as [Hlt|Hge]; [left|right]; apply list_elem_of_bind; exists v; (split; [done|]); apply list_elem_of_lookup.
    + exists j. by rewrite lookup_take_lt.
    + exists (j - S i)%nat. rewrite lookup_drop. by replace (S i + (j - S i))%nat with j by lia.
Qed.

(** ** Operations and their effect on the scene *)

Inductive op := Create (source type : Z) (id inn : list Z) | Assign (n : nat) (a : Z) (s : list Z) | Destroy (n : nat).

(** [widget_setattribute] on entry [x] of the pool. *)
Definition setattribute (x : nat) (a : Z) (value : option (list Z)) (p : pool) : option pool :=
  w ← entries p !! x;
  '(w, s) ← widget_setattribute w a value (strings p);
  Some (with_entries (<[x := w]> (entries p)) s p).

Definition cobject (s : list Z) : list Z := s ++ [0].

Definition exec (o : op) (p : pool) : option pool :=
  match o with
  | Create source type id inn => '(_, p) ← pool_create source type (Some (cobject id)) (Some (cobject inn)) p; Some p
  | Assign n a s =>
      i ← widgetlist p !! n; setattribute i a (Some (cobject s)) p
  | Destroy n => i ← widgetlist p !! n; pool_destroy i p
  end.

(** Attribute [a] of a widget gets the string [s], if the type has it. *)
Definition assign_picture (a : Z) (s : list Z) (v : picture) : picture :=
  let '(source, t, fs) := v in
  (source, t, (fun '(f, x) => (f, if decide (string_field t a = Some f) then Some s else x)) <$> fs).

Definition new_picture (source t : Z) (id inn : list Z) : picture :=
  (source, t, (FId, Some id) :: (FIn, Some inn) :: ((fun k => (FWord k, None)) <$> string_words t)).

Definition exec_scene (o : op) (sc : list (option picture)) : list (option picture) :=
  match o with
  | Create source type id inn => sc ++ [Some (new_picture source type id inn)]
  | Assign n a s => alter (fmap (assign_picture a s)) n sc
  | Destroy n => delete n sc
  end.

(** There is room for the strings, an entry for the widget, and it exists. *)
Definition is_text (s : list Z) : Prop := Forall (fun c => c <> 0) s /\ Z.of_nat (length s) < max32.
Definition fits (o : op) (L : layout) (p : pool) : Prop :=
  match o with
  | Create _ _ id inn => is_text id /\ is_text inn /\ freelist p <> [] /\ (length L < 510)%nat /\
      (length (image L) + S (length id) + S (length inn) <= Z.to_nat STRINGDATA_SIZE)%nat
  | Assign n _ s => is_text s /\ (n < length (widgetlist p))%nat /\ (length L < 511)%nat /\
      (length (image L) + S (length s) <= Z.to_nat STRINGDATA_SIZE)%nat
  | Destroy n => (n < length (widgetlist p))%nat
  end.

Lemma is_text_string s : is_text s -> is_string s (cobject s).
Proof. intros [Hz Hl]. split; [|done]. split; [done|]. by exists []. Qed.

Lemma scene_update L M p p' i w w' s' :
  pool_inv L p -> entries p !! i = Some w ->
  strings_kept (take i (entries p) ≫= cells) w' (drop (S i) (entries p) ≫= cells) L M s' ->
  entries p' = <[i := w']> (entries p) ->
  forall js : list nat, i ∉ js -> (fun j => view M <$> entries p' !! j) <$> js = (fun j => view L <$> entries p !! j) <$> js.
Proof.
  intros H Hw Hk -> js Hi. apply list_fmap_ext. intros n j Hj. destruct (entry_update L M p i w w' s' H Hw Hk) as (_ & _ & Hv).
  apply Hv. intros ->. apply Hi. by eapply list_elem_of_lookup_2.
Qed.

Lemma free_update L M p i w w' s' (js : list nat) :
  pool_inv L p -> entries p !! i = Some w -> i ∉ js ->
  Forall (fun j => forall v, entries p !! j = Some v -> Forall (fun k => k = 0%nat) (cells v)) js ->
  strings_kept (take i (entries p) ≫= cells) w' (drop (S i) (entries p) ≫= cells) L M s' ->
  Forall (fun j => forall v, <[i := w']> (entries p) !! j = Some v -> Forall (fun k => k = 0%nat) (cells v)) js.
Proof.
  intros H Hw Hi Hf Hk. rewrite Forall_forall in *. intros j Hj v Hv. rewrite list_lookup_insert_ne in Hv by (intros ->; done). by apply (Hf j Hj).
Qed.

(** How much an operation adds to the string pool. *)
Definition grows (n bytes : nat) (L M : layout) : Prop :=
  (length M <= n + length L)%nat /\ (length (image M) <= length (image L) + bytes)%nat.

(** A widget created with the strings in two objects. *)
Lemma create_sim L p source t id ido inn ino i fs :
  pool_inv L p -> is_string id ido -> is_string inn ino -> freelist p = i :: fs -> (length L < 510)%nat ->
  (length (image L) + S (length id) + S (length inn) <= Z.to_nat STRINGDATA_SIZE)%nat ->
  exists M p', pool_create source t (Some ido) (Some ino) p = Some (Some i, p') /\ pool_inv M p' /\
    scene M p' = exec_scene (Create source t id inn) (scene L p) /\ widgetlist p' = widgetlist p ++ [i] /\ freelist p' = fs /\
    grows 2 (S (length id) + S (length inn)) L M.
Proof.
  intros H Hid Hin Ef Hn Hroom.
  destruct (pool_valid L p i H) as (w & Hw & Hok); [rewrite Ef, elem_of_app; right; left|].
  pose proof (pi_free _ _ H) as Hz. rewrite Ef in Hz. apply Forall_cons in Hz as [Hzi Hzf]. specialize (Hzi w Hw).
  pose proof (pi_owned _ _ H) as Ho. rewrite (entries_split p i w Hw), (owned_zeros _ _ _ _ Hzi) in Ho.
  assert (w_id w = 0 /\ w_in w = 0) as [Hi0 Hn0].
  { destruct Hok as [_ Hge]. unfold cells, fields in *. cbn [fmap list_fmap] in Hzi. rewrite !Forall_cons in Hzi. rewrite !Forall_cons in Hge. cbn in *. lia. }
  destruct (init_ok _ _ w L (strings p) (pi_strings _ _ H) Hok source t id ido inn ino Ho Hi0 Hn0
    Hid Hin Hn Hroom) as (w' & M & s' & E & Hk & Ht & Hs & _ & Hcid & Hcin & Hwords & Hlen & Him).
  pose proof (pool_nodup L p H) as Hnd. rewrite Ef in Hnd. rewrite <- Permutation_middle in Hnd. apply NoDup_cons in Hnd as [Hni Hnd].
  rewrite elem_of_app in Hni.
  eexists M, _. unfold pool_create, pick_free. rewrite Ef. cbn [entries strings]. rewrite Hw. cbn [mbind option_bind]. rewrite E.
  cbn [mbind option_bind]. split; [done|]. destruct (entry_update L M p i w w' s' H Hw Hk) as (Ho' & Hf' & _).
  unfold move_to_widgets, with_entries. cbn [widgetlist bumplist freelist entries strings]. rewrite removed_absent by tauto. split_and!; [| |done|done|split; lia].
  - split; cbn [widgetlist bumplist freelist entries strings]; try done; [apply Hk|rewrite length_insert; apply H| |apply H|].
    + rewrite <- (pi_lists _ _ H), Ef, <- (assoc_L (++)). done.
    + eapply free_update; [done|done|tauto|done|done].
  - unfold scene. cbn [widgetlist entries exec_scene]. rewrite fmap_app. f_equal.
    + apply (scene_update L M p (Pool [] [] [] (<[i := w']> (entries p)) s') i w w' s' H Hw Hk); [done|tauto].
    + cbn. rewrite list_lookup_insert_eq by (by eapply lookup_lt_Some). cbn. do 2 f_equal. unfold view, new_picture. rewrite Hs, Ht. f_equal.
      unfold fields. cbn [fmap list_fmap get]. rewrite Hcid, Hcin. do 2 f_equal. rewrite <- list_fmap_compose. apply list_fmap_ext.
      intros n k Hk'. cbn [compose]. f_equal. rewrite Forall_forall in Hwords. rewrite (Hwords k) by (by eapply list_elem_of_lookup_2).
      apply (contents_zero M s'), Hk.
Qed.

Lemma view_assigned L M w w' a s :
  w_source w' = w_source w -> w_type w' = w_type w ->
  (forall g, g ∈ fields (w_type w) ->
    contents M !! Z.to_nat (get g w') = if decide (string_field (w_type w) a = Some g) then Some s else contents L !! Z.to_nat (get g w)) ->
  view M w' = assign_picture a s (view L w).
Proof.
  intros Hs Ht Hg. unfold view, assign_picture. rewrite Hs, Ht. f_equal. rewrite <- list_fmap_compose. apply list_fmap_ext.
  intros n f Hf. cbn. rewrite Hg by (by eapply list_elem_of_lookup_2). done.
Qed.

Lemma assign_sim L p n i a s obj :
  pool_inv L p -> is_string s obj -> widgetlist p !! n = Some i -> (length L < 511)%nat ->
  (length (image L) + S (length s) <= Z.to_nat STRINGDATA_SIZE)%nat ->
  exists M p', setattribute i a (Some obj) p = Some p' /\ pool_inv M p' /\
    scene M p' = exec_scene (Assign n a s) (scene L p) /\ widgetlist p' = widgetlist p /\ freelist p' = freelist p /\
    grows 1 (S (length s)) L M.
Proof.
  intros H Hs Hi Hn Hroom.
  assert (i ∈ widgetlist p) as Hiw by by eapply list_elem_of_lookup_2.
  destruct (pool_valid L p i H) as (w & Hw & Hok); [rewrite elem_of_app; by left|].
  pose proof (pi_owned _ _ H) as Ho. rewrite (entries_split p i w Hw) in Ho.
  destruct (setattribute_ok _ _ w L (strings p) (pi_strings _ _ H) Hok a s obj Ho Hs Hn Hroom)
    as (w' & M & s' & E & Hk & Hsrc & Ht & Hg & Hlen & Him).
  eexists M, _. unfold setattribute. rewrite Hw. cbn [mbind option_bind]. rewrite E. cbn [mbind option_bind].
  split; [done|]. destruct (entry_update L M p i w w' s' H Hw Hk) as (Ho' & Hf' & _).
  pose proof (pool_nodup L p H) as Hnd. apply NoDup_app in Hnd as (Hndw & Hd & _). split_and!; [| |done|done|split; lia].
  - split; cbn [with_entries widgetlist bumplist freelist entries strings]; try done; try apply H; [apply Hk|rewrite length_insert; apply H|].
    eapply free_update; [done|done|by apply Hd|apply H|done].
  - cbn [exec_scene]. apply list_eq. intros j. unfold scene. cbn [with_entries widgetlist entries]. destruct (decide (j = n)) as [->|Hne].
    + rewrite list_lookup_alter_eq, !list_lookup_fmap, Hi. cbn. rewrite list_lookup_insert_eq by (by eapply lookup_lt_Some). rewrite Hw. cbn.
      do 2 f_equal. by apply view_assigned.
    + rewrite list_lookup_alter_ne, !list_lookup_fmap by done. destruct (widgetlist p !! j) as [i'|] eqn:Ej; [|done]. cbn. f_equal.
      apply (entry_update L M p i w w' s' H Hw Hk). intros ->. apply Hne. by eapply (NoDup_lookup (widgetlist p)).
Qed.

Lemma create_simulates L p source t id inn :
  pool_inv L p -> fits (Create source t id inn) L p ->
  exists M p', exec (Create source t id inn) p = Some p' /\ pool_inv M p' /\ scene M p' = exec_scene (Create source t id inn) (scene L p).
Proof.
  intros H (Hid & Hin & Hfree & Hn & Hroom). destruct (freelist p) as [|i fs] eqn:Ef; [done|].
  destruct (create_sim L p source t id (cobject id) inn (cobject inn) i fs) as (M & p' & E & HM & Hs & _); try done; [by apply is_text_string..|].
  exists M, p'. cbn [exec]. by rewrite E.
Qed.

Lemma assign_simulates L p n a s :
  pool_inv L p -> fits (Assign n a s) L p ->
  exists M p', exec (Assign n a s) p = Some p' /\ pool_inv M p' /\ scene M p' = exec_scene (Assign n a s) (scene L p).
Proof.
  intros H (Hs & Hlt & Hn & Hroom). destruct (lookup_lt_is_Some_2 (widgetlist p) n Hlt) as [i Hi].
  destruct (assign_sim L p n i a s (cobject s)) as (M & p' & E & HM & Hsc & _); try done; [by apply is_text_string|].
  exists M, p'. cbn [exec]. by rewrite Hi.
Qed.

Lemma destroy_simulates L p n :
  pool_inv L p -> fits (Destroy n) L p ->
  exists M p', exec (Destroy n) p = Some p' /\ pool_inv M p' /\ scene M p' = exec_scene (Destroy n) (scene L p).
Proof.
  intros H Hlt. cbn in Hlt. destruct (lookup_lt_is_Some_2 (widgetlist p) n Hlt) as [i Hi].
  assert (i ∈ widgetlist p) as Hiw by by eapply list_elem_of_lookup_2.
  destruct (pool_valid L p i H) as (w & Hw & Hok); [rewrite elem_of_app; by left|].
  pose proof (pi_owned _ _ H) as Ho. rewrite (entries_split p i w Hw) in Ho.
  destruct (unset_ok _ _ w L (strings p) (pi_strings _ _ H) Hok Ho) as (w' & M & s' & E & Hk & Hz & Ht & _).
  pose proof (pool_nodup L p H) as Hnd. pose proof Hnd as Hnd'. apply NoDup_app in Hnd' as (Hndw & Hd & _).
  destruct (entry_update L M p i w w' s' H Hw Hk) as (Ho' & Hf' & _).
  eexists M, _. cbn [exec]. rewrite Hi. cbn [mbind option_bind]. unfold pool_destroy. rewrite finditem_spec, decide_True by done.
  cbn [mbind option_bind]. rewrite Hw. cbn [mbind option_bind]. rewrite E. cbn [mbind option_bind]. split; [done|].
  apply list_elem_of_split_length in Hi as (A & B & Ew & ->). rewrite Ew in Hndw. pose proof Hndw as Hn2.
  rewrite <- Permutation_middle in Hn2. apply NoDup_cons in Hn2 as [Hiab _].
  unfold move_to_free, with_entries. cbn [widgetlist bumplist freelist entries strings]. rewrite Ew, removed_mid by done. split.
  - split; cbn [widgetlist bumplist freelist entries strings]; try done; [apply Hk|rewrite length_insert; apply H| |apply H|].
    + rewrite <- (pi_lists _ _ H), Ew, (assoc_L (++)), <- (Permutation_cons_append (_ ++ _)), <- Permutation_middle. done.
    + apply Forall_app. split; [eapply free_update; [done|done|by apply Hd|apply H|done]|]. apply Forall_singleton. intros v Hv.
      rewrite list_lookup_insert_eq in Hv by (by eapply lookup_lt_Some). by injection Hv as <-.
  - unfold scene. cbn [widgetlist entries exec_scene]. rewrite Ew, (fmap_app _ A (i :: B)), fmap_cons.
    rewrite <- (length_fmap (fun j => view L <$> entries p !! j) A), delete_middle, <- fmap_app.
    by apply (scene_update L M p (Pool [] [] [] (<[i := w']> (entries p)) s') i w w' s' H Hw Hk).
Qed.

(** ** The start *)

Lemma setup_loop_spec n : forall i p, setup_loop n i p = Pool (widgetlist p) (bumplist p) (freelist p ++ seq i n) (entries p) (strings p).
Proof.
  induction n as [|n IH]; intros i p; cbn [setup_loop seq]; [rewrite app_nil_r; by destruct p|].
  rewrite IH. cbn [widgetlist bumplist freelist entries strings]. by rewrite <- (assoc_L (++)).
Qed.

Lemma pool_start_ok : pool_inv [] pool_start.
Proof.
  unfold pool_start, pool_setup. rewrite setup_loop_spec. cbn [widgetlist bumplist freelist entries strings app].
  assert (forall n, replicate n empty_widget ≫= cells = replicate (n + n) 0%nat) as Hz.
  { induction n as [|n IH]; [done|]. cbn [replicate]. rewrite bind_cons, IH. replace (S n + S n)%nat with (S (S (n + n))) by lia. done. }
  split; cbn [widgetlist bumplist freelist entries strings].
  - apply empty_pool_ok.
  - apply length_replicate.
  - apply Forall_replicate. split; [done|]. by repeat constructor.
  - rewrite Hz. split.
    + clear. induction (MAX_WIDGETS + MAX_WIDGETS)%nat as [|n IH]; [constructor|]. cbn [replicate]. by rewrite filter_cons_False by auto.
    + intros k Hk. split; [by intros [-> _]%elem_of_replicate|]. by intros [? ?].
  - done.
  - done.
  - apply Forall_forall. intros i _ w Hw. apply lookup_replicate in Hw as [-> _]. by repeat constructor.
Qed.

(** ** Widgets can be tested for being in each other *)

Section Tests.
Context (L : layout) (p : pool) (H : pool_inv L p).

Lemma field_number i w f : entries p !! i = Some w -> f ∈ fields (w_type w) ->
  exists k, get f w = Z.of_nat k /\ (k = 0%nat \/ is_Some (contents L !! k)) /\ 0 <= Z.of_nat k < MAX_STRINGS.
Proof.
  intros Hw Hf. destruct (Forall_lookup_1 _ _ _ _ (pi_widgets _ _ H) Hw) as [_ Hge]. rewrite Forall_forall in Hge. specialize (Hge f Hf). cbn in Hge.
  exists (Z.to_nat (get f w)). split; [lia|]. set (k := Z.to_nat (get f w)). destruct (decide (k = 0%nat)) as [->|Hk]; [split; [by left|done]|].
  assert (is_Some (contents L !! k)) as Hc.
  { apply (proj2 (pi_owned _ _ H)); [done|]. rewrite (entries_split p i w Hw). rewrite !elem_of_app. right. left. unfold cells.
    apply list_elem_of_fmap. by exists f. }
  split; [by right|]. destruct Hc as [s Hs]. apply elem_of_list_to_map_2 in Hs. pose proof (ok_range _ _ (pi_strings _ _ H)) as Hr.
  rewrite Forall_forall in Hr. destruct (Hr _ Hs) as [Hr' _]. cbn in Hr'. unfold MAX_STRINGS in *. lia.
Qed.

Lemma field_string i w f : L <> [] -> entries p !! i = Some w -> f ∈ fields (w_type w) ->
  exists s o, string_at (strings p) (get f w) = Some o /\ is_string s o.
Proof.
  intros HL Hw Hf. destruct (field_number i w f Hw Hf) as (k & -> & [->|[s Hs]] & _).
  - destruct L as [|[j s] L']; [done|]. destruct (no_string_reads_first L' (strings p) j s) as (o & E & Hc); [apply H|].
    exists s, o. split; [exact E|]. split; [done|]. pose proof (ok_room _ _ (pi_strings _ _ H)) as Hr. rewrite image_cons, length_app, text_length in Hr.
    unfold STRINGDATA_SIZE, max32 in *. cbn in Hr. lia.
  - destruct (string_at_ok L (strings p) k s) as (o & E & Hstr & _); [apply H|done|]. by exists s, o.
Qed.

Lemma widgets_testable : testable p (widgetlist p).
Proof.
  intros x c Hx Hc. destruct (pool_valid L p x H) as (wx & Hwx & _); [rewrite elem_of_app; by left|].
  destruct (pool_valid L p c H) as (wc & Hwc & _); [rewrite elem_of_app; by left|]. unfold in_test. rewrite Hwx. cbn [mbind option_bind].
  destruct (field_number x wx FId Hwx) as (k & Ek & Hk & Hr); [left|]. cbn [get] in Ek. unfold strpool_getcstringlength. rewrite Ek.
  rewrite (getindex_ok L) by (apply H || done). cbn [mbind option_bind]. case_match eqn:E0; [by eexists|]. rewrite Hwc. cbn [mbind option_bind].
  assert (L <> []) as HL. { intros ->. cbn in E0. discriminate. }
  unfold is_in. destruct (_ || _); [|by eexists]. destruct (field_string c wc FIn HL Hwc) as (s & o & E & Hs); [right; left|].
  destruct (field_string x wx FId HL Hwx) as (s' & o' & E' & Hs'); [left|]. cbn [get] in E, E'. rewrite E. cbn [mbind option_bind].
  rewrite E'. cbn [mbind option_bind]. rewrite (match_string s s' o o' Hs Hs'). by eexists.
Qed.
End Tests.

(** Raising a widget changes nothing but the order. *)
Lemma bump_keeps_inv L p ws : pool_inv L p -> ws ≡ₚ widgetlist p -> pool_inv L (with_lists ws [] p) /\ scene L (with_lists ws [] p) ≡ₚ scene L p.
Proof.
  intros [H1 H2 H3 H4 H5 H6 H7] Hp. split; [split; cbn; try done; by rewrite Hp|]. unfold scene. cbn. by rewrite Hp.
Qed.

(** C11. The pool of widgets implements a sequence of widgets with their strings.
    While there is room, [pool_create] appends a widget with its two strings,
    [widget_setattribute] changes the one string of the attribute, and
    [pool_destroy] takes one widget out; every other widget keeps its strings,
    though they move in the string pool, every string in the pool stays the
    string of exactly one field, and the entries stay divided between the two
    lists. *)
Theorem pool_refines_scene L p o :
  pool_inv L p -> fits o L p ->
  exists M p', exec o p = Some p' /\ pool_inv M p' /\ scene M p' = exec_scene o (scene L p).
Proof.
  intros H Ho. destruct o as [source t id inn|n a s|n]; [by apply create_simulates|by apply assign_simulates|by apply destroy_simulates].
Qed.

(** [+ window], with the id "a" in "root". *)
Lemma pool_refines_scene_witness :
  exists M p', exec (Create 7 WIDGET_TYPE_WINDOW [97] [114; 111; 111; 116]) pool_start = Some p' /\ pool_inv M p' /\
    scene M p' = [Some (7, 11, [(FId, Some [97]); (FIn, Some [114; 111; 111; 116]); (FWord 0, None)])].
Proof.
  apply (pool_refines_scene [] pool_start (Create 7 WIDGET_TYPE_WINDOW [97] [114; 111; 111; 116])).
  - exact pool_start_ok.
  - cbn [fits]. unfold is_text, pool_start, pool_setup. rewrite setup_loop_spec. change (image []) with (@nil Z). cbn [length freelist app].
    unfold STRINGDATA_SIZE, max32. split_and!; try lia; [repeat constructor; lia|repeat constructor; lia|discriminate].
Defined.

(** ** Examples *)

Fixpoint exec_all (os : list op) (p : pool) : option pool :=
  match os with [] => Some p | o :: os => p ← exec o p; exec_all os p end.

(** Two windows "a" and "b", a text in each, "a" first. *)
Definition sample_ops : list op :=
  [Create 7 WIDGET_TYPE_WINDOW [97] []; Create 7 WIDGET_TYPE_TEXT [] [97];
   Create 7 WIDGET_TYPE_WINDOW [98] []; Create 7 WIDGET_TYPE_TEXT [] [98]].
Definition sample_pool : pool := default pool_start (exec_all sample_ops pool_start).

Lemma sample_widgets : widgetlist sample_pool = [0; 1; 2; 3]%nat.
Proof. vm_compute. reflexivity. Qed.
Lemma sample_none_raised : bumplist sample_pool = [].
Proof. vm_compute. reflexivity. Qed.

Lemma testable_check p xs : forallb (fun x => forallb (fun c => match in_test p x c with Some _ => true | None => false end) xs) xs = true -> testable p xs.
Proof.
  intros H x c Hx Hc. rewrite forallb_forall in H. specialize (H x ltac:(by apply list_elem_of_In)). rewrite forallb_forall in H.
  specialize (H c ltac:(by apply list_elem_of_In)). cbn in H. by destruct (in_test p x c).
Qed.

Lemma parents_check p :
  forallb (fun a => forallb (fun c => negb (child p a c) || (index_of a (widgetlist p) <? index_of c (widgetlist p))%nat) (widgetlist p)) (widgetlist p) = true ->
  parents_first p.
Proof.
  intros H a c Ha Hc Hch. rewrite forallb_forall in H. specialize (H a ltac:(by apply list_elem_of_In)). rewrite forallb_forall in H.
  specialize (H c ltac:(by apply list_elem_of_In)). cbn in H. rewrite Hch in H. cbn in H. by apply Nat.ltb_lt in H.
Qed.

Lemma pool_bump_raises_witness :
  exists kept moved, pool_bump sample_pool 0%nat = Some (with_lists (kept ++ 0%nat :: moved) [] sample_pool) /\
    kept `sublist_of` widgetlist sample_pool /\ kept ++ 0%nat :: moved ≡ₚ widgetlist sample_pool /\
    forall y, y ∈ 0%nat :: moved <-> rtc (contains sample_pool) 0%nat y.
Proof.
  apply (pool_bump_raises sample_pool 0%nat).
  - rewrite sample_widgets. apply (NoDup_seq 0 4).
  - exact sample_none_raised.
  - apply testable_check. vm_compute. reflexivity.
  - apply parents_check. vm_compute. reflexivity.
  - rewrite sample_widgets. left.
Defined.

(** The order after raising "a": its text comes with it. *)
Example sample_bumped : widgetlist <$> pool_bump sample_pool 0%nat = Some [2; 3; 0; 1]%nat.
Proof. vm_compute. reflexivity. Qed.

(** ** Taking an item twice *)

(** [pool_create] takes the item off the free list with [list_pickhead] and again
    with [list_move]: the second removal changes no link, so that the sequence
    stays, but the count is one too small for every widget created. *)
Lemma pick_then_move s l xs item i :
  list_repr s l xs -> items s !! item = Some i -> it_next i = 0 -> it_prev i = 0 -> item ∉ xs -> item <> 0 ->
  exists s' lk, list_remove_unsafe s l item = Some s' /\ seg (items s') 0 xs 0 /\
    lists s' !! l = Some (Hdr lk (first_of xs 0) (last_of 0 xs) (u32 (Z.of_nat (length xs) - 1))).
Proof.
  intros [[lk Hh] Hseg Hnd Hnn] Hi Hn Hp Hni Hne.
  assert (forall x, x = 0 \/ x ∈ xs -> item <> x) as Hoff by (intros x [->|Hx]; [done|by intros ->]).
  assert (items s !! item = Some (Item 0 0 (it_data i))) as Hi' by (rewrite Hi; destruct i; cbn in *; by subst).
  exists (with_hdr (with_items s (items s)) l (Hdr lk (first_of xs 0) (last_of 0 xs) (u32 (Z.of_nat (length xs) - 1)))), lk.
  split; [|split; [exact Hseg|cbn; by rewrite lookup_insert_eq]].
  unfold list_remove_unsafe. rewrite Hh. cbn [mbind option_bind l_head l_tail l_lock l_count]. rewrite Hi. cbn [mbind option_bind].
  assert (first_of xs 0 = 0 \/ first_of xs 0 ∈ xs) as H1 by (destruct (first_of_case xs) as [[_ ?]|?]; auto).
  assert (last_of 0 xs = 0 \/ last_of 0 xs ∈ xs) as H2 by (destruct (last_of_case xs) as [[_ ?]|?]; auto).
  destruct (Z.eqb_spec (first_of xs 0) item) as [E|_]; [by destruct (Hoff _ H1)|].
  destruct (Z.eqb_spec (last_of 0 xs) item) as [E|_]; [by destruct (Hoff _ H2)|].
  assert ((if negb (first_of xs 0 =? 0) then link_prev (items s) (first_of xs 0) 0 else Some (items s)) = Some (items s)) as ->.
  { destruct (Z.eqb_spec (first_of xs 0) 0) as [E|E]; [done|]. cbn [negb]. destruct H1 as [?|H1]; [done|].
    destruct (seg_lookup _ _ _ _ _ Hseg H1) as [j Hj]. rewrite <- (seg_first _ _ _ Hseg Hj) at 2 by (intros ->; by apply not_elem_of_nil in H1). by apply link_prev_same. }
  cbn [mbind option_bind].
  assert ((if negb (last_of 0 xs =? 0) then link_next (items s) (last_of 0 xs) 0 else Some (items s)) = Some (items s)) as ->.
  { destruct (Z.eqb_spec (last_of 0 xs) 0) as [E|E]; [done|]. cbn [negb]. destruct H2 as [?|H2]; [done|].
    destruct (seg_lookup _ _ _ _ _ Hseg H2) as [j Hj]. rewrite <- (seg_last _ _ _ _ Hseg Hj) at 2 by (intros ->; by apply not_elem_of_nil in H2). by apply link_next_same. }
  cbn [mbind option_bind]. rewrite !Hi'. cbn [mbind option_bind it_next it_prev negb Z.eqb]. rewrite !Hi'.
  cbn [mbind option_bind it_next it_prev negb Z.eqb].
  rewrite (link_next_same _ _ _ Hi' : link_next (items s) item 0 = _). cbn [mbind option_bind].
  rewrite (link_prev_same _ _ _ Hi' : link_prev (items s) item 0 = _). cbn [mbind option_bind]. rewrite u32_sub_l. done.
Qed.
