(* ===== verification/WmParser.v ===== *)
(** * Window manager: the command language (src/src/wm/parser.c)

    A client draws by sending lines of text: [+] inserts a widget, [=] changes its
    attributes, [-] deletes it with all that is in it, [#] starts a comment.  The
    state of the parser is threaded with the static buffer of the current word.
    [None] is an access outside an object or a loop that does not end.  The main
    theorems: printed commands are executed as the operations they were printed
    from, deleting marks exactly the widgets in the widget, and a comment at the
    end of the text is never left. *)
From stdpp Require Import strings relations.
From S2P Require Import Prelude Buffer Cstring Option WmStrpool WmWidget WmPool.

Local Open Scope Z_scope.

Definition NONE : Z := 1.
Definition COMMENT : Z := 2.
Definition DELETE : Z := 3.
Definition INSERT : Z := 4.
Definition UPDATE : Z := 5.

Local Notation "'tok' k v" := (Token k (literal v%string)) (at level 10, k at level 9, v at level 9).

Definition commands : list util_token := [tok NONE ""; tok COMMENT "#"; tok DELETE "-"; tok INSERT "+"; tok UPDATE "="].
Definition widgets : list util_token :=
  [tok WIDGET_TYPE_BUTTON "button"; tok WIDGET_TYPE_CHOICE "choice"; tok WIDGET_TYPE_FILL "fill"; tok WIDGET_TYPE_IMAGE "image";
   tok WIDGET_TYPE_LAYOUT "layout"; tok WIDGET_TYPE_LISTBOX "listbox"; tok WIDGET_TYPE_SELECT "select"; tok WIDGET_TYPE_TEXT "text";
   tok WIDGET_TYPE_TEXTBOX "textbox"; tok WIDGET_TYPE_TEXTBUTTON "textbutton"; tok WIDGET_TYPE_WINDOW "window"].
Definition attributes : list util_token :=
  [tok ATTR_COLOR "color"; tok ATTR_COLUMNS "columns"; tok ATTR_CONTENT "content"; tok ATTR_CURSOR "cursor"; tok ATTR_FLOW "flow";
   tok ATTR_HALIGN "halign"; tok ATTR_ID "id"; tok ATTR_IN "in"; tok ATTR_LABEL "label"; tok ATTR_MIMETYPE "mimetype";
   tok ATTR_MODE "mode"; tok ATTR_ONCLICK "onclick"; tok ATTR_OVERFLOW "overflow"; tok ATTR_PADDING "padding"; tok ATTR_SPAN "span";
   tok ATTR_SOURCE "source"; tok ATTR_TITLE "title"; tok ATTR_VALIGN "valign"; tok ATTR_WEIGHT "weight"; tok ATTR_WRAP "wrap"].

(** [struct state] without the text, and [strbuffer]. *)
Record state := State {
  offset : Z; line : Z; linebreak : Z; quoted : Z; escaped : Z; errors : Z; strbuffer : list Z }.

Definition set_offset (v : Z) (st : state) : state := State v (line st) (linebreak st) (quoted st) (escaped st) (errors st) (strbuffer st).
Definition set_quoted (v : Z) (st : state) : state := State (offset st) (line st) (linebreak st) v (escaped st) (errors st) (strbuffer st).
Definition set_escaped (v : Z) (st : state) : state := State (offset st) (line st) (linebreak st) (quoted st) v (errors st) (strbuffer st).
Definition set_linebreak (v : Z) (st : state) : state := State (offset st) (line st) v (quoted st) (escaped st) (errors st) (strbuffer st).
Definition set_buffer (v : list Z) (st : state) : state := State (offset st) (line st) (linebreak st) (quoted st) (escaped st) (errors st) v.
(** [state->line++; state->linebreak = 1] *)
Definition break_line (st : state) : state := State (offset st) (u32 (line st + 1)) 1 (quoted st) (escaped st) (errors st) (strbuffer st).
Definition next_char (st : state) : state := set_offset (offset st + 1) st.

Definition fail (st : state) : state :=
  State (offset st) (line st) (linebreak st) (quoted st) (escaped st) (u32 (errors st + 1)) (strbuffer st).

Definition BUFFER : Z := 4096.

(** [addchar(state, strbuffer, 4096, i, c)] *)
Definition addchar (i c : Z) (st : state) : option state :=
  if i <? BUFFER then b ← wr (strbuffer st) i c; Some (set_buffer b st) else Some (fail st).

Section Parser.
Context (data : list Z) (count : Z).

(** One turn of the loop of [readword]: the word ends with the result, or the loop
    goes on with the next character and [i]. *)
Definition readchar (i : Z) (st : state) : option (state * (Z + Z)) :=
  c ← rd data (offset st);
  if negb (escaped st =? 0) then
    let st := set_escaped 0 st in
    st ← addchar i (if c =? 110 then 10 else c) st; Some (next_char st, inr (i + 1))
  else if negb (quoted st =? 0) then
    if c =? 34 then Some (next_char (set_quoted 0 st), inr i)
    else st ← addchar i c st; Some (next_char st, inr (i + 1))
  else if c =? 92 then Some (next_char (set_escaped 1 st), inr i)
  else if c =? 34 then Some (next_char (set_quoted 1 st), inr i)
  else if (c =? 0) || (c =? 10) then
    let st := next_char (break_line st) in
    st ← addchar i 0 st; Some (st, inl i)
  else if c =? 32 then
    st ← addchar i 0 st;
    if i =? 0 then Some (next_char st, inr i) else Some (next_char st, inl i)
  else st ← addchar i c st; Some (next_char st, inr (i + 1)).

(** One turn for each character that is left. *)
Fixpoint readword_loop (n : nat) (i : Z) (st : state) : option (Z * state) :=
  match n with
  | O => Some (0, st)
  | S n =>
      '(st, r) ← readchar i st;
      match r with inl i => Some (i, st) | inr i => readword_loop n (u32 i) st end
  end.

Definition readword (st : state) : option (Z * state) :=
  readword_loop (Z.to_nat (count - offset st)) 0 (set_escaped 0 (set_linebreak 0 st)).

Definition getkey (tokens : list util_token) (st : state) : option (Z * state) :=
  '(n, st) ← readword st;
  if n =? 0 then Some (0, st) else k ← util_getkey tokens (strbuffer st); Some (k, st).
Definition getcommand (st : state) : option (Z * state) := getkey commands st.
Definition getattribute (st : state) : option (Z * state) := getkey attributes st.
Definition getwidget (st : state) : option (Z * state) := getkey widgets st.

Fixpoint parseattributes (fuel : nat) (x : nat) (st : state) (p : pool) : option (state * pool) :=
  if (errors st =? 0) && (linebreak st =? 0) then
    match fuel with
    | O => None
    | S fuel =>
        '(a, st) ← getattribute st;
        if negb (a =? 0) then
          '(n, st) ← readword st;
          p ← setattribute x a (if negb (n =? 0) then Some (strbuffer st) else None) p;
          parseattributes fuel x st p
        else parseattributes fuel x (fail st) p
    end
  else Some (st, p).

Fixpoint parsecomment (fuel : nat) (st : state) : option state :=
  if (errors st =? 0) && (linebreak st =? 0) then
    match fuel with O => None | S fuel => '(_, st) ← readword st; parsecomment fuel st end
  else Some st.

Definition setstate (x : nat) (s : Z) (p : pool) : option pool :=
  w ← entries p !! x; Some (with_entries (<[x := (widget_setstate w s).2]> (entries p)) (strings p) p).

(** The loop of [deletechildren] from [current] on. *)
Fixpoint deletechildren (fuel : nat) (current : option nat) (widget : nat) (p : pool) : option pool :=
  match fuel with
  | O => None
  | S fuel =>
      w ← entries p !! widget;
      n ← pool_nextin p current w;
      match n with
      | None => Some p
      | Some c =>
          p ← setstate c WIDGET_STATE_DESTROYED p;
          p ← deletechildren fuel None c p;
          deletechildren fuel (Some c) widget p
      end
  end.

(** A widget is reached at most once for each place in the list and in the depth. *)
Definition delete_fuel (p : pool) : nat := walk_fuel p * walk_fuel p.

Definition parsedelete (st : state) (source : Z) (p : pool) : option (state * pool) :=
  '(n, st) ← readword st;
  if negb (n =? 0) then
    x ← pool_getwidgetbyid p source (strbuffer st);
    match x with
    | Some x =>
        p ← setstate x WIDGET_STATE_DESTROYED p;
        p ← deletechildren (delete_fuel p) None x p;
        Some (st, p)
    | None => Some (fail st, p)
    end
  else Some (fail st, p).

(** Every turn of a loop reads a character or is the last one. *)
Definition text_fuel : nat := S (S (Z.to_nat count)).

Definition parseinsert (st : state) (source : Z) (inn : list Z) (p : pool) : option (state * pool) :=
  '(t, st) ← getwidget st;
  if negb (t =? 0) then
    '(x, p) ← pool_create source t (Some (literal "")) (Some inn) p;
    match x with Some x => parseattributes text_fuel x st p | None => Some (fail st, p) end
  else Some (fail st, p).

Definition parseupdate (st : state) (source : Z) (p : pool) : option (state * pool) :=
  '(n, st) ← readword st;
  if negb (n =? 0) then
    x ← pool_getwidgetbyid p source (strbuffer st);
    match x with Some x => parseattributes text_fuel x st p | None => Some (fail st, p) end
  else Some (fail st, p).

Fixpoint parse (fuel : nat) (source : Z) (inn : list Z) (st : state) (p : pool) : option (state * pool) :=
  if (errors st =? 0) && (offset st <? count) then
    match fuel with
    | O => None
    | S fuel =>
        '(c, st) ← getcommand st;
        '(st, p) ←
          (if c =? NONE then Some (st, p)
           else if c =? COMMENT then st ← parsecomment text_fuel st; Some (st, p)
           else if c =? DELETE then parsedelete st source p
           else if c =? INSERT then parseinsert st source inn p
           else if c =? UPDATE then parseupdate st source p
           else Some (fail st, p));
        parse fuel source inn st p
    end
  else Some (st, p).

(** With the buffer as it was left. *)
Definition parser_parse (source : Z) (inn : list Z) (buffer : list Z) (p : pool) : option (state * pool) :=
  parse text_fuel source inn (State 0 0 0 0 0 0 buffer) p.
End Parser.

(** ** Reading a word *)

Section Words.
Context (data : list Z) (count : Z).

(** The text from offset [o] on. *)
Definition text_at (o : nat) (t : list Z) : Prop := exists rest, drop o data = t ++ rest.

Lemma text_at_cons o c t : text_at o (c :: t) -> rd data (Z.of_nat o) = Some c /\ text_at (S o) t.
Proof.
  intros [rest E]. split; [rewrite rd_nat, <- (Nat.add_0_r o), <- lookup_drop, E; done|]. exists rest.
  replace (S o) with (o + 1)%nat by lia. by rewrite <- drop_drop, E.
Qed.

Lemma text_at_app o t u : text_at o (t ++ u) -> text_at o t /\ text_at (o + length t) u.
Proof.
  intros [rest E]. split; [exists (u ++ rest); by rewrite (assoc_L (++))|]. exists rest. rewrite <- drop_drop, E, <- (assoc_L (++)). apply drop_app_length.
Qed.

(** A character that is stored as it is, outside and inside quotes. *)
Definition plain (c : Z) : Prop := c <> 0 /\ c <> 10 /\ c <> 32 /\ c <> 34 /\ c <> 92.
Definition stored (q c : Z) : Prop := (q = 0 /\ plain c) \/ (q = 1 /\ c <> 34).

Lemma readchar_stored o l lb q e buf i c :
  rd data (Z.of_nat o) = Some c -> stored q c -> (i < length buf)%nat -> length buf = Z.to_nat BUFFER ->
  readchar data (Z.of_nat i) (State (Z.of_nat o) l lb q 0 e buf) = Some (State (Z.of_nat (S o)) l lb q 0 e (<[i := c]> buf), inr (Z.of_nat i + 1)).
Proof.
  intros Hc Hs Hi Hl. unfold readchar. cbn [offset escaped quoted]. rewrite Hc. cbn [mbind option_bind Z.eqb negb].
  assert (addchar (Z.of_nat i) c (State (Z.of_nat o) l lb q 0 e buf) = Some (State (Z.of_nat o) l lb q 0 e (<[i := c]> buf))) as Ha.
  { unfold addchar. destruct (Z.ltb_spec (Z.of_nat i) BUFFER); [|lia]. cbn [strbuffer]. rewrite wr_Some by lia. by rewrite Nat2Z.id. }
  assert (next_char (State (Z.of_nat o) l lb q 0 e (<[i := c]> buf)) = State (Z.of_nat (S o)) l lb q 0 e (<[i := c]> buf)) as Hn.
  { unfold next_char, set_offset. cbn. f_equal. lia. }
  unfold stored, plain in Hs. destruct (Z.eqb_spec q 0) as [->|Hq]; cbn [negb].
  - repeat match goal with |- context [c =? ?d] => destruct (Z.eqb_spec c d); [lia|] end. cbn [orb]. rewrite Ha. cbn [mbind option_bind]. by rewrite Hn.
  - destruct (Z.eqb_spec c 34); [lia|]. rewrite Ha. cbn [mbind option_bind]. by rewrite Hn.
Qed.

Lemma loop_stored w : forall o l lb q e buf i n,
  Forall (stored q) w -> text_at o w -> length buf = Z.to_nat BUFFER -> (i + length w < Z.to_nat BUFFER)%nat ->
  readword_loop data (length w + n) (Z.of_nat i) (State (Z.of_nat o) l lb q 0 e buf) =
  readword_loop data n (Z.of_nat (i + length w)) (State (Z.of_nat (o + length w)) l lb q 0 e (splice buf i w)).
Proof.
  induction w as [|c w IH]; intros o l lb q e buf i n Hw Ht Hl Hi; cbn [length] in *.
  { rewrite splice_nil, !Nat.add_0_r. done. }
  apply text_at_cons in Ht as [Hc Ht]. inversion Hw as [|? ? Hs Hw']; subst. cbn [Nat.add readword_loop].
  rewrite (readchar_stored o l lb q e buf i c) by (done || lia). cbn [mbind option_bind]. rewrite u32_small by (unfold BUFFER in *; lia).
  replace (Z.of_nat i + 1) with (Z.of_nat (S i)) by lia. rewrite IH by (done || (rewrite length_insert; done) || lia).
  rewrite splice_cons by (rewrite Hl; lia). f_equal; [lia|f_equal; lia].
Qed.

(** ** Words as a client writes them *)

Inductive lexeme := Bare (w : list Z) | Quoted (w : list Z).
Definition value (x : lexeme) : list Z := match x with Bare w | Quoted w => w end.
Definition spelling (x : lexeme) : list Z := match x with Bare w => w | Quoted w => 34 :: w ++ [34] end.
Definition lexeme_ok (x : lexeme) : Prop :=
  (0 < length (value x) < Z.to_nat BUFFER)%nat /\
  match x with Bare w => Forall plain w | Quoted w => Forall (fun c => c <> 34 /\ c <> 0) w end.

Lemma lexeme_nonzero x : lexeme_ok x -> Forall (fun c => c <> 0) (value x).
Proof. intros [_ H]. destruct x; (eapply Forall_impl; [exact H|]); unfold plain; cbn; tauto. Qed.

(** The word up to its separator. *)
Lemma loop_lexeme x o l lb e buf n :
  lexeme_ok x -> text_at o (spelling x) -> length buf = Z.to_nat BUFFER ->
  readword_loop data (length (spelling x) + n) 0 (State (Z.of_nat o) l lb 0 0 e buf) =
  readword_loop data n (Z.of_nat (length (value x)))
    (State (Z.of_nat (o + length (spelling x))) l lb 0 0 e (splice buf 0 (value x))).
Proof.
  intros [Hlen Hok] Ht Hl. destruct x as [w|w]; cbn [spelling value] in *.
  - apply (loop_stored w o l lb 0 e buf 0 n); [|done|done|lia]. eapply Forall_impl; [exact Hok|]. intros c Hc. by left.
  - apply text_at_cons in Ht as [Hq Ht]. apply text_at_app in Ht as [Ht Hend]. apply text_at_cons in Hend as [Hend _].
    cbn [length]. rewrite length_app. cbn [length]. replace (S (length w + 1) + n)%nat with (S (length w + S n)) by lia. cbn [readword_loop].
    unfold readchar at 1. cbn [offset]. rewrite Hq. cbn [mbind option_bind escaped quoted Z.eqb negb Pos.eqb]. change (u32 0) with (Z.of_nat 0).
    assert (next_char (set_quoted 1 (State (Z.of_nat o) l lb 0 0 e buf)) = State (Z.of_nat (S o)) l lb 1 0 e buf) as ->.
    { unfold next_char, set_offset, set_quoted. cbn. f_equal. lia. }
    rewrite (loop_stored w (S o) l lb 1 e buf 0); [|eapply Forall_impl; [exact Hok|]; intros c [Hc _]; by right|done|done|lia].
    cbn [readword_loop]. unfold readchar at 1. cbn [offset]. rewrite Hend. cbn [mbind option_bind escaped quoted Z.eqb negb Pos.eqb].
    rewrite u32_small by (unfold BUFFER in *; lia). f_equal. unfold next_char, set_offset, set_quoted. cbn. f_equal. lia.
Qed.

(** Spaces before a word. *)
Lemma loop_spaces k : forall o l lb e buf n,
  text_at o (replicate k 32) -> length buf = Z.to_nat BUFFER ->
  exists buf', length buf' = Z.to_nat BUFFER /\
    readword_loop data (k + n) 0 (State (Z.of_nat o) l lb 0 0 e buf) = readword_loop data n 0 (State (Z.of_nat (o + k)) l lb 0 0 e buf').
Proof.
  induction k as [|k IH]; intros o l lb e buf n Ht Hl; cbn [replicate] in Ht.
  { exists buf. by rewrite Nat.add_0_r. }
  apply text_at_cons in Ht as [Hc Ht]. destruct (IH (S o) l lb e (<[0%nat := 0]> buf) n Ht) as (buf' & Hb & E); [by rewrite length_insert|].
  exists buf'. split; [done|]. replace (o + S k)%nat with (S o + k)%nat by lia. rewrite <- E. cbn [Nat.add readword_loop].
  unfold readchar. cbn [offset]. rewrite Hc. cbn [mbind option_bind escaped quoted Z.eqb negb Pos.eqb orb]. unfold addchar. cbn [strbuffer Z.ltb Z.compare BUFFER].
  rewrite wr_Some by (rewrite Hl; unfold BUFFER; lia). cbn [mbind option_bind]. change (u32 0) with 0. f_equal.
  unfold next_char, set_offset, set_buffer. cbn. f_equal. lia.
Qed.

Definition separator (nl : bool) : Z := if nl then 10 else 32.

Lemma loop_separator o l e buf v n nl :
  rd data (Z.of_nat o) = Some (separator nl) -> length buf = Z.to_nat BUFFER -> (0 < length v < Z.to_nat BUFFER)%nat ->
  readword_loop data (S n) (Z.of_nat (length v)) (State (Z.of_nat o) l 0 0 0 e (splice buf 0 v)) =
    Some (Z.of_nat (length v), State (Z.of_nat (S o)) (if nl then u32 (l + 1) else l) (Z.b2z nl) 0 0 e (splice buf 0 (v ++ [0]))).
Proof.
  intros Hc Hl Hv. cbn [readword_loop]. unfold readchar. cbn [offset]. rewrite Hc. cbn [mbind option_bind escaped quoted Z.eqb negb].
  assert (forall o' l' lb', addchar (Z.of_nat (length v)) 0 (State o' l' lb' 0 0 e (splice buf 0 v)) = Some (State o' l' lb' 0 0 e (splice buf 0 (v ++ [0])))) as Ha.
  { intros o' l' lb'. unfold addchar. destruct (Z.ltb_spec (Z.of_nat (length v)) BUFFER); [|lia]. cbn [strbuffer].
    rewrite wr_one by (rewrite length_splice; lia). cbn [mbind option_bind]. unfold set_buffer. cbn.
    rewrite <- (splice_app buf 0 v [0]) by (cbn; lia). done. }
  destruct nl; cbn [separator Z.eqb Pos.eqb orb].
  - unfold break_line, next_char, set_offset. cbn [offset line quoted escaped errors strbuffer linebreak]. rewrite Ha. cbn [mbind option_bind].
    do 3 f_equal. lia.
  - rewrite Ha. cbn [mbind option_bind]. destruct (Z.eqb_spec (Z.of_nat (length v)) 0); [lia|]. unfold next_char, set_offset. cbn. do 3 f_equal. lia.
Qed.

(** A word with its separator is read as its value. *)
Lemma readword_lexeme x k nl o l lb esc e buf :
  lexeme_ok x -> text_at o (replicate k 32 ++ spelling x ++ [separator nl]) -> length buf = Z.to_nat BUFFER ->
  Z.of_nat (o + k + length (spelling x) + 1) <= count ->
  exists buf', readword data count (State (Z.of_nat o) l lb 0 esc e buf) =
      Some (Z.of_nat (length (value x)), State (Z.of_nat (o + k + length (spelling x) + 1)) (if nl then u32 (l + 1) else l) (Z.b2z nl) 0 0 e buf') /\
    is_string (value x) buf' /\ length buf' = Z.to_nat BUFFER.
Proof.
  intros Hx Ht Hl Hc. apply text_at_app in Ht as [Hsp Ht]. rewrite length_replicate in Ht. apply text_at_app in Ht as [Hw Ht].
  apply text_at_cons in Ht as [Hsep _]. unfold readword. cbn [offset].
  replace (Z.to_nat (count - Z.of_nat o)) with (k + (length (spelling x) + S (Z.to_nat (count - Z.of_nat (o + k + length (spelling x) + 1)))))%nat by lia.
  change (set_escaped 0 (set_linebreak 0 (State (Z.of_nat o) l lb 0 esc e buf))) with (State (Z.of_nat o) l 0 0 0 e buf).
  destruct (loop_spaces k o l 0 e buf (length (spelling x) + S (Z.to_nat (count - Z.of_nat (o + k + length (spelling x) + 1)))) Hsp Hl) as (b & Hb & ->).
  rewrite loop_lexeme by done. rewrite (loop_separator _ _ _ _ _ _ nl) by (done || apply Hx).
  exists (splice b 0 (value x ++ [0])). replace (S (o + k + length (spelling x))) with (o + k + length (spelling x) + 1)%nat by lia.
  split; [done|]. destruct Hx as [Hv Hx]. split; [|rewrite length_splice; [done|rewrite length_app; cbn; lia]]. split.
  - split; [by apply lexeme_nonzero|]. rewrite splice_0, <- (assoc_L (++)). by eexists.
  - unfold BUFFER, max32 in *. lia.
Qed.
End Words.

(** ** Keywords *)

Definition tname (t : util_token) : list Z := removelast (t_value t).
Definition named (l : list util_token) : Prop := Forall (fun t => is_string (tname t) (t_value t)) l.

Fixpoint key_of (l : list util_token) (s : list Z) : Z :=
  match l with [] => 0 | t :: l => if decide (tname t = s) then t_key t else key_of l s end.

Lemma getkey_spec l s obj : named l -> is_string s obj -> util_getkey l obj = Some (key_of l s).
Proof.
  intros Hl Hs. induction Hl as [|t l Ht _ IH]; cbn [util_getkey key_of]; [done|].
  rewrite (match_string _ s _ _ Ht Hs). cbn [mbind option_bind]. by case_decide.
Qed.

Lemma literal_named k s :
  Forall (fun c => c <> 0) (removelast (literal s)) -> Z.of_nat (length (removelast (literal s))) < max32 ->
  is_string (tname (Token k (literal s))) (t_value (Token k (literal s))).
Proof.
  intros Hz Hl. unfold tname. cbn [t_value]. split; [|done]. split; [done|]. exists []. unfold literal. by rewrite removelast_last.
Qed.

Ltac named_solve :=
  repeat (apply List.Forall_cons; [apply literal_named; [repeat constructor; vm_compute; congruence|vm_compute; reflexivity]|]); apply List.Forall_nil.
Lemma commands_named : named commands. Proof. named_solve. Qed.
Lemma widgets_named : named widgets. Proof. named_solve. Qed.
Lemma attributes_named : named attributes. Proof. named_solve. Qed.

(** A keyword can be written bare, and it is found. *)
Definition found (l : list util_token) (t : util_token) : Prop :=
  lexeme_ok (Bare (tname t)) /\ key_of l (tname t) = t_key t /\ t_key t <> 0.

Ltac found_solve :=
  apply Forall_forall; repeat (apply List.Forall_cons;
    [split_and!; [split; [split; apply Nat.ltb_lt; vm_compute; reflexivity|repeat constructor; vm_compute; congruence]
                 |vm_compute; reflexivity|vm_compute; congruence]|]); apply List.Forall_nil.
Lemma widgets_found t : t ∈ widgets -> found widgets t.
Proof. revert t. found_solve. Qed.
Lemma attributes_found t : t ∈ attributes -> found attributes t.
Proof. revert t. found_solve. Qed.

(** ** Printing commands *)

Record command := Command { indent : nat; c_widget : util_token; settings : list (util_token * list Z) }.

(** The attributes, from the separator after the word before. *)
Fixpoint settings_text (l : list (util_token * list Z)) : list Z :=
  match l with [] => [10] | (a, v) :: l => 32 :: tname a ++ 32 :: spelling (Quoted v) ++ settings_text l end.
Definition command_text (c : command) : list Z :=
  replicate (indent c) 32 ++ [43; 32] ++ tname (c_widget c) ++ settings_text (settings c).

Definition setting_ok (x : util_token * list Z) : Prop := x.1 ∈ attributes /\ lexeme_ok (Quoted x.2).
Definition command_ok (c : command) : Prop := c_widget c ∈ widgets /\ Forall setting_ok (settings c).

(** What the commands do to the scene. *)
Definition apply_settings (n : nat) (l : list (util_token * list Z)) (sc : list (option picture)) : list (option picture) :=
  foldl (fun sc x => exec_scene (Assign n (t_key x.1) x.2) sc) sc l.
Definition apply_command (source : Z) (inn : list Z) (sc : list (option picture)) (c : command) : list (option picture) :=
  apply_settings (length sc) (settings c) (exec_scene (Create source (t_key (c_widget c)) [] inn) sc).

(** The strings they store, with their terminators. *)
Definition settings_bytes (l : list (util_token * list Z)) : nat := sum_list ((fun x => S (length x.2)) <$> l).
Definition command_bytes (inn : list Z) (c : command) : nat := S (S (length inn) + settings_bytes (settings c)).

Lemma settings_head l : exists t, settings_text l = separator (bool_decide (l = [])) :: t.
Proof. destruct l as [|[a v] l]; by eexists. Qed.

Section Commands.
Context (data : list Z) (count : Z).

Lemma getkey_lexeme tokens x k nl o l lb esc e buf :
  named tokens -> lexeme_ok x -> text_at data o (replicate k 32 ++ spelling x ++ [separator nl]) -> length buf = Z.to_nat BUFFER ->
  Z.of_nat (o + k + length (spelling x) + 1) <= count ->
  exists buf', getkey data count tokens (State (Z.of_nat o) l lb 0 esc e buf) =
      Some (key_of tokens (value x), State (Z.of_nat (o + k + length (spelling x) + 1)) (if nl then u32 (l + 1) else l) (Z.b2z nl) 0 0 e buf') /\
    length buf' = Z.to_nat BUFFER.
Proof.
  intros Hn Hx Ht Hl Hc. destruct (readword_lexeme data count x k nl o l lb esc e buf Hx Ht Hl Hc) as (buf' & E & Hs & Hb).
  exists buf'. split; [|done]. unfold getkey. rewrite E. cbn [mbind option_bind]. destruct (Z.eqb_spec (Z.of_nat (length (value x))) 0).
  { destruct Hx as [Hx _]. lia. }
  cbn [strbuffer]. rewrite (getkey_spec tokens (value x)) by done. done.
Qed.

Lemma settings_tail l : settings_text l = separator (bool_decide (l = [])) :: tail (settings_text l).
Proof. by destruct l as [|[a v] l]. Qed.

Lemma settings_bytes_cons a v l : settings_bytes ((a, v) :: l) = (S (length v) + settings_bytes l)%nat.
Proof. done. Qed.

Lemma settings_length l : (length l <= length (settings_text l))%nat.
Proof. induction l as [|[a v] l IH]; cbn; [lia|]. rewrite !length_app. cbn. rewrite !length_app. cbn. lia. Qed.

(** The attributes of a widget, after the separator of the word before. *)
Lemma parseattributes_text l : forall fuel o ln buf p L n x,
  Forall setting_ok l -> text_at data o (tail (settings_text l)) -> length buf = Z.to_nat BUFFER ->
  Z.of_nat (o + length (tail (settings_text l))) <= count -> (length l <= fuel)%nat ->
  pool_inv L p -> widgetlist p !! n = Some x -> (length L + length l <= 511)%nat ->
  (length (image L) + settings_bytes l <= Z.to_nat STRINGDATA_SIZE)%nat ->
  exists ln' buf' M p', parseattributes data count fuel x (State (Z.of_nat o) ln (Z.b2z (bool_decide (l = []))) 0 0 0 buf) p =
      Some (State (Z.of_nat (o + length (tail (settings_text l)))) ln' 1 0 0 0 buf', p') /\ length buf' = Z.to_nat BUFFER /\
    pool_inv M p' /\ scene M p' = apply_settings n l (scene L p) /\ widgetlist p' = widgetlist p /\ freelist p' = freelist p /\
    grows (length l) (settings_bytes l) L M.
Proof.
  induction l as [|[a v] l IH]; intros fuel o ln buf p L n x Hok Ht Hb Hc Hf Hp Hx HL Him.
  { exists ln, buf, L, p. rewrite bool_decide_true by done. cbn [settings_text tail length]. rewrite Nat.add_0_r. split; [by destruct fuel|].
    split_and!; try done. split; cbn; lia. }
  inversion Hok as [|? ? [Ha Hv] Hok']; subst. cbn [fst snd] in Ha, Hv. rewrite bool_decide_false by done. destruct fuel as [|fuel]; [cbn in Hf; lia|].
  cbn [settings_text tail] in Ht, Hc |- *. rewrite settings_tail in Ht, Hc |- *. set (rest := tail (settings_text l)) in *.
  destruct (attributes_found a Ha) as (Hna & Hka & Hnz).
  change (tname a ++ 32 :: spelling (Quoted v) ++ separator (bool_decide (l = [])) :: rest)
    with (tname a ++ [32] ++ spelling (Quoted v) ++ [separator (bool_decide (l = []))] ++ rest) in Ht, Hc |- *.
  pose proof Ht as Ht1. rewrite (assoc_L (++)) in Ht1. apply text_at_app in Ht1 as [Hname Ht1]. rewrite length_app in Ht1. cbn [length] in Ht1.
  rewrite (assoc_L (++)) in Ht1. apply text_at_app in Ht1 as [Hval Ht1]. rewrite length_app in Ht1. rewrite !length_app in Hc.
  cbn [length] in Hc, Ht1.
  cbn [parseattributes errors linebreak Z.b2z Z.eqb andb]. unfold getattribute.
  destruct (getkey_lexeme attributes (Bare (tname a)) 0 false o ln 0 0 0 buf attributes_named Hna Hname Hb) as (b1 & -> & Hb1); [cbn [spelling]; lia|].
  cbn [mbind option_bind value spelling]. rewrite Hka. destruct (Z.eqb_spec (t_key a) 0) as [|_]; [done|]. cbn [negb Z.b2z]. rewrite Nat.add_0_r.
  destruct (readword_lexeme data count (Quoted v) 0 (bool_decide (l = [])) (o + length (tname a) + 1) ln 0 0 0 b1 Hv) as (b2 & -> & Hs & Hb2);
    [by rewrite <- Nat.add_assoc|done|lia|].
  cbn [mbind option_bind]. destruct (Z.eqb_spec (Z.of_nat (length (value (Quoted v)))) 0) as [H0|_]; [destruct Hv as [Hv _]; lia|]. cbn [negb strbuffer].
  rewrite settings_bytes_cons in Him |- *. cbn [length] in HL, Hf |- *. cbn [value] in *.
  destruct (assign_sim L p n x (t_key a) v b2 Hp Hs Hx) as (M & p1 & -> & HM & Hsc & Hw & Hfr & Hg1 & Hg2); [lia|lia|].
  cbn [mbind option_bind]. set (o2 := (o + length (tname a) + 1 + 0 + length (spelling (Quoted v)) + 1)%nat).
  destruct (IH fuel o2 (if bool_decide (l = []) then u32 (ln + 1) else ln) b2 p1 M n x Hok') as (ln' & b3 & N & p2 & -> & Hb3 & HN & Hsc2 & Hw2 & Hfr2 & Hg3 & Hg4).
  - replace o2 with (o + (length (tname a) + 1) + (length (spelling (Quoted v)) + 1))%nat by (unfold o2; lia). exact Ht1.
  - done.
  - unfold o2. lia.
  - lia.
  - done.
  - by rewrite Hw.
  - lia.
  - lia.
  - exists ln', b3, N, p2. split_and!; try done; try congruence.
    + rewrite !length_app. cbn [length]. unfold o2. cbn [spelling length]. do 3 f_equal. lia.
    + by rewrite Hsc2, Hsc.
    + split; lia.
Qed.

(** One command at the start of a turn of [parse]. *)
Lemma parse_command c fuel source inn ino o ln lb esc buf p L i fs :
  command_ok c -> text_at data o (command_text c) -> length buf = Z.to_nat BUFFER -> Z.of_nat (o + length (command_text c)) <= count ->
  pool_inv L p -> is_string inn ino -> freelist p = i :: fs -> (length L + (2 + length (settings c)) <= 511)%nat ->
  (length (image L) + command_bytes inn c <= Z.to_nat STRINGDATA_SIZE)%nat ->
  exists ln' buf' M p', parse data count (S fuel) source ino (State (Z.of_nat o) ln lb 0 esc 0 buf) p =
      parse data count fuel source ino (State (Z.of_nat (o + length (command_text c))) ln' 1 0 0 0 buf') p' /\ length buf' = Z.to_nat BUFFER /\
    pool_inv M p' /\ scene M p' = apply_command source inn (scene L p) c /\ freelist p' = fs /\
    grows (2 + length (settings c)) (command_bytes inn c) L M.
Proof.
  intros [Hw Hset] Ht Hb Hc Hp Hin Hfs HL Him. destruct c as [k w l]. unfold command_text, command_bytes in *. cbn [indent c_widget settings] in *.
  rewrite settings_tail in Ht, Hc |- *. set (rest := tail (settings_text l)) in *. destruct (widgets_found w Hw) as (Hnw & Hkw & Hnz).
  change (replicate k 32 ++ [43; 32] ++ tname w ++ separator (bool_decide (l = [])) :: rest)
    with (replicate k 32 ++ [43] ++ [32] ++ tname w ++ [separator (bool_decide (l = []))] ++ rest) in Ht, Hc |- *.
  pose proof Ht as Ht1. rewrite (assoc_L (++) [43]), (assoc_L (++) (replicate _ _)) in Ht1. apply text_at_app in Ht1 as [Hcmd Ht1].
  rewrite (assoc_L (++) (tname w)) in Ht1. apply text_at_app in Ht1 as [Hname Ht1]. rewrite !length_app, length_replicate in Hname. rewrite !length_app, length_replicate in Ht1.
  rewrite !length_app, length_replicate in Hc |- *. cbn [length] in *. cbn [parse errors Z.eqb offset andb].
  destruct (Z.ltb_spec (Z.of_nat o) count) as [_|]; [|lia]. unfold getcommand.
  destruct (getkey_lexeme commands (Bare [43]) k false o ln lb esc 0 buf commands_named) as (b1 & -> & Hb1); [|done|done|cbn [spelling length]; lia|].
  { split; [split; cbn; unfold BUFFER; lia|]. by repeat constructor. }
  cbn [mbind option_bind]. change (key_of commands (value (Bare [43]))) with INSERT. cbn [INSERT NONE COMMENT DELETE Z.eqb Pos.eqb].
  unfold parseinsert, getwidget. set (o1 := (o + k + length (spelling (Bare [43%Z])) + 1)%nat).
  destruct (getkey_lexeme widgets (Bare (tname w)) 0 (bool_decide (l = [])) o1 ln 0 0 0 b1 widgets_named Hnw) as (b2 & E2 & Hb2).
  { replace o1 with (o + (k + (1 + 1)))%nat by (unfold o1; cbn; lia). exact Hname. } { done. } { unfold o1. cbn [spelling length]. lia. }
  cbn [Z.b2z]. rewrite E2. cbn [mbind option_bind value]. rewrite Hkw. destruct (Z.eqb_spec (t_key w) 0) as [|_]; [done|]. cbn [negb].
  destruct (create_sim L p source (t_key w) [] (literal "") inn ino i fs Hp) as (M & p1 & -> & HM & Hsc & Hwl & Hfr & Hg1 & Hg2);
    [split; [split; [constructor|by exists []]|done]|done|done|lia|cbn [length]; lia|].
  cbn [mbind option_bind]. set (o2 := (o1 + 0 + length (spelling (Bare (tname w))) + 1)%nat).
  assert (widgetlist p1 !! length (widgetlist p) = Some i) as Hwi by (rewrite Hwl; by apply list_lookup_middle).
  destruct (parseattributes_text l (text_fuel count) o2 (if bool_decide (l = []) then u32 (ln + 1) else ln) b2 p1 M (length (widgetlist p)) i)
    as (ln' & b3 & N & p2 & -> & Hb3 & HN & Hsc2 & Hw2 & Hfr2 & Hg3 & Hg4); try done; try lia.
  - replace o2 with (o + (k + (1 + 1)) + (length (tname w) + 1))%nat by (unfold o2, o1; cbn; lia). exact Ht1.
  - fold rest. unfold o2, o1. cbn [spelling length]. lia.
  - unfold text_fuel. pose proof (settings_length l) as Hsl. rewrite settings_tail in Hsl. cbn [length] in Hsl. fold rest in Hsl. lia.
  - cbn [length] in *. lia.
  - cbn [mbind option_bind]. exists ln', b3, N, p2. split_and!; try done.
    + fold rest. do 2 f_equal. unfold o2, o1. cbn [spelling length]. lia.
    + rewrite Hsc2, Hsc. unfold apply_command. cbn [settings c_widget]. by rewrite (length_fmap _ _ : length (scene L p) = length (widgetlist p)).
    + congruence.
    + split; cbn [length] in *; lia.
Qed.

Definition program_text (cs : list command) : list Z := cs ≫= command_text.
Definition program_strings (cs : list command) : nat := sum_list ((fun c => 2 + length (settings c))%nat <$> cs).
Definition program_bytes (inn : list Z) (cs : list command) : nat := sum_list (command_bytes inn <$> cs).

Lemma program_strings_cons c cs : program_strings (c :: cs) = (2 + length (settings c) + program_strings cs)%nat.
Proof. done. Qed.
Lemma program_bytes_cons inn c cs : program_bytes inn (c :: cs) = (command_bytes inn c + program_bytes inn cs)%nat.
Proof. done. Qed.

Lemma parse_program cs : forall fuel source inn ino o ln lb esc buf p L,
  Forall command_ok cs -> text_at data o (program_text cs) -> length buf = Z.to_nat BUFFER -> Z.of_nat (o + length (program_text cs)) = count ->
  (length cs <= fuel)%nat -> pool_inv L p -> is_string inn ino -> (length cs <= length (freelist p))%nat ->
  (length L + program_strings cs <= 511)%nat -> (length (image L) + program_bytes inn cs <= Z.to_nat STRINGDATA_SIZE)%nat ->
  exists st M p', parse data count fuel source ino (State (Z.of_nat o) ln lb 0 esc 0 buf) p = Some (st, p') /\ errors st = 0 /\
    pool_inv M p' /\ scene M p' = foldl (apply_command source inn) (scene L p) cs.
Proof.
  induction cs as [|c cs IH]; intros fuel source inn ino o ln lb esc buf p L Hok Ht Hb Hc Hf Hp Hin Hfr HL Him.
  { exists (State (Z.of_nat o) ln lb 0 esc 0 buf), L, p. split_and!; try done. cbn in Hc. rewrite Nat.add_0_r in Hc.
    assert ((Z.of_nat o <? count) = false) as E by (apply Z.ltb_ge; lia). destruct fuel; cbn; by rewrite E. }
  apply Forall_cons in Hok as [Hc0 Hok']. unfold program_text in Ht, Hc. rewrite bind_cons in Ht. rewrite bind_cons in Hc. fold (program_text cs) in Ht, Hc.
  apply text_at_app in Ht as [Ht Hrest]. rewrite length_app in Hc. destruct fuel as [|fuel]; [cbn in Hf; lia|].
  destruct (freelist p) as [|i fs] eqn:Ef; [cbn in Hfr; lia|]. rewrite program_strings_cons in HL. rewrite program_bytes_cons in Him.
  destruct (parse_command c fuel source inn ino o ln lb esc buf p L i fs Hc0 Ht Hb) as (ln' & b' & M & p1 & -> & Hb' & HM & Hsc & Hfs & Hg1 & Hg2);
    try done; try lia.
  destruct (IH fuel source inn ino (o + length (command_text c))%nat ln' 1 0 b' p1 M) as (st & N & p2 & E & He & HN & Hs2); try done.
  - lia.
  - cbn in Hf. lia.
  - rewrite Hfs. cbn in Hfr. lia.
  - lia.
  - lia.
  - exists st, N, p2. split_and!; try done. cbn [foldl]. by rewrite <- Hsc.
Qed.
End Commands.

Lemma program_length cs : (length cs <= length (program_text cs))%nat.
Proof.
  induction cs as [|c cs IH]; [done|]. unfold program_text in *. rewrite bind_cons, length_app. unfold command_text at 1. rewrite !length_app. cbn. lia.
Qed.

(** C10. The parser executes the commands a client prints.  For every list of
    insertions, indented or not, with the attributes of each, [parser_parse] of
    their text ends without an error, and the scene is what the insertions and
    attributes make of it, one after the other: the names of types and
    attributes are found, quoted values are taken with their spaces and line
    breaks, and every string lands in its field of its widget.  There must be
    room in the pools, and a value is not empty and has no quote. *)
Theorem parser_executes cs source inn ino buf p L :
  Forall command_ok cs -> length buf = Z.to_nat BUFFER -> pool_inv L p -> is_string inn ino ->
  (length cs <= length (freelist p))%nat -> (length L + program_strings cs <= 511)%nat ->
  (length (image L) + program_bytes inn cs <= Z.to_nat STRINGDATA_SIZE)%nat ->
  exists st M p', parser_parse (program_text cs) (Z.of_nat (length (program_text cs))) source ino buf p = Some (st, p') /\ errors st = 0 /\
    pool_inv M p' /\ scene M p' = foldl (apply_command source inn) (scene L p) cs.
Proof.
  intros Hok Hb Hp Hin Hfr HL Him. apply (parse_program _ _ cs _ source inn ino 0 0 0 0 buf p L); try done.
  - exists []. by rewrite app_nil_r.
  - unfold text_fuel. pose proof (program_length cs). lia.
Qed.

Definition tok_window : util_token := Token WIDGET_TYPE_WINDOW (literal "window").
Definition tok_title : util_token := Token ATTR_TITLE (literal "title").
Definition sample_program : list command := [Command 2 tok_window [(tok_title, [104; 32; 105])]].

(** [  + window title "h i"] *)
Lemma parser_executes_witness :
  exists st M p', parser_parse (program_text sample_program) (Z.of_nat (length (program_text sample_program))) 7 (literal "root") (replicate (Z.to_nat BUFFER) 0)
      pool_start = Some (st, p') /\ errors st = 0 /\ pool_inv M p' /\
    scene M p' = [Some (7, 11, [(FId, Some []); (FIn, Some [114; 111; 111; 116]); (FWord 0, Some [104; 32; 105])])].
Proof.
  apply (parser_executes sample_program 7 [114; 111; 111; 116] (literal "root") (replicate (Z.to_nat BUFFER) 0) pool_start []).
  - constructor; [|constructor]. split; [unfold widgets, tok_window; do 10 right; left|]. constructor; [|constructor]. split.
    + unfold attributes, tok_title. do 16 right. left.
    + split; [split; cbn; unfold BUFFER; lia|]. repeat constructor; lia.
  - apply length_replicate.
  - exact pool_start_ok.
  - split; [split; [repeat constructor; lia|by exists []]|done].
  - unfold pool_start, pool_setup. rewrite setup_loop_spec. cbn [freelist app]. rewrite length_seq. unfold MAX_WIDGETS. cbn [length sample_program]. lia.
  - cbn. lia.
  - change (image []) with (@nil Z). unfold STRINGDATA_SIZE. cbn. lia.
Defined.

(** ** Deleting *)

(** The entries in [S] are marked as destroyed. *)
Definition mark (S : list nat) (p : pool) : pool :=
  with_entries (foldl (fun es c => alter (set_state WIDGET_STATE_DESTROYED) c es) (entries p) S) (strings p) p.

Lemma mark_app S T p : mark T (mark S p) = mark (S ++ T) p.
Proof. unfold mark, with_entries. cbn. by rewrite foldl_app. Qed.

Lemma setstate_mark c p w : entries p !! c = Some w -> setstate c WIDGET_STATE_DESTROYED p = Some (mark [c] p).
Proof.
  intros Hw. unfold setstate. rewrite Hw. cbn [mbind option_bind]. unfold mark. cbn [foldl]. do 2 f_equal. symmetry.
  apply list_eq. intros i. destruct (decide (i = c)) as [->|Hne].
  - rewrite list_lookup_alter_eq, Hw, list_lookup_insert_eq by (by eapply lookup_lt_Some). done.
  - by rewrite list_lookup_alter_ne, list_lookup_insert_ne.
Qed.

Lemma mark_lookup (S : list nat) : forall (es : list widget) (i : nat),
  foldl (fun es c => alter (set_state WIDGET_STATE_DESTROYED) c es) es S !! i =
    (if decide (i ∈ S) then set_state WIDGET_STATE_DESTROYED else id) <$> es !! i.
Proof.
  induction S as [|c S IH]; intros es i; cbn [foldl]; [rewrite decide_False by apply not_elem_of_nil; by destruct (es !! i)|].
  rewrite IH. destruct (decide (i = c)) as [->|Hne].
  - rewrite list_lookup_alter_eq. rewrite (decide_True (P := c ∈ c :: S)) by left. destruct (es !! c); [|done]. cbn. by case_decide.
  - rewrite list_lookup_alter_ne by done. f_equal. destruct (decide (i ∈ S)) as [Hi|Hi]; [by rewrite decide_True by (by right)|].
    rewrite decide_False; [done|]. rewrite elem_of_cons. tauto.
Qed.

(** A mark changes neither what is in a widget nor the order. *)
Lemma mark_test S p x c : in_test (mark S p) x c = in_test p x c.
Proof.
  unfold in_test, mark. cbn [with_entries entries strings]. rewrite !mark_lookup. destruct (entries p !! x) as [wx|]; [|done]. cbn.
  destruct (entries p !! c) as [wc|]; [|by repeat case_decide]. cbn. by repeat case_decide.
Qed.

Section Deletion.
Context (p : pool) (Hnd : NoDup (widgetlist p)) (Ht : testable p (widgetlist p)) (Hpf : parents_first p).
Local Notation len := (length (widgetlist p)).

(** What is below [x] and in [B], or below something of it. *)
Definition below (x : nat) (B : list nat) (y : nat) : Prop := exists c, c ∈ B /\ child p x c = true /\ rtc (contains p) c y.

Lemma below_skip x B1 c B2 y : filter (fun c => child p x c = true) B1 = [] -> child p x c = true ->
  below x (B1 ++ c :: B2) y <-> rtc (contains p) c y \/ below x B2 y.
Proof.
  intros Hn Hc. assert (forall d, d ∈ B1 -> child p x d = false) as H1.
  { intros d Hd. destruct (child p x d) eqn:E; [|done]. exfalso. apply (not_elem_of_nil d). rewrite <- Hn. by apply list_elem_of_filter. }
  unfold below. split.
  - intros (d & Hd & Hcd & Hy). rewrite elem_of_app, elem_of_cons in Hd. destruct Hd as [Hd|[->|Hd]]; [|by left|right; eauto].
    rewrite H1 in Hcd by done. discriminate.
  - intros [Hy|(d & Hd & Hcd & Hy)]; [exists c|exists d]; (split; [rewrite elem_of_app, elem_of_cons; auto|done]).
Qed.

Lemma below_all x y : tc (contains p) x y <-> below x (widgetlist p) y.
Proof.
  split.
  - intros [x' y' [Hy Hxy]|x' c y' [Hc Hxc] Hy]; [by exists y'|exists c]. split_and!; [done|done|by apply tc_rtc].
  - intros (c & Hc & Hxc & Hy). eapply tc_rtc_r; [apply tc_once; split; done|done].
Qed.

(** The first widget of [B] in [x], whatever is marked. *)
Lemma nextin_marked S A B x : widgetlist p = A ++ B -> x ∈ widgetlist p ->
  exists w, entries (mark S p) !! x = Some w /\ pool_nextin (mark S p) (last A) w = Some (head (filter (fun c => child p x c = true) B)).
Proof.
  intros E Hx. destruct (testable_parent p (widgetlist p) x x Ht Hx Hx) as (w & Hw & Hn).
  assert (exists w', entries (mark S p) !! x = Some w' /\ w_id w' = w_id w) as (w' & Hw' & Hid).
  { unfold mark. cbn [with_entries entries]. rewrite mark_lookup, Hw. cbn. case_decide; by eexists. }
  exists w'. split; [done|]. rewrite (nextin_spec (mark S p) x w' A B); [|done|done|done| |by rewrite Hid].
  - by rewrite (list_filter_iff (fun c => child (mark S p) x c = true) (fun c => child p x c = true)) by (intros c; unfold child; by rewrite mark_test).
  - apply Forall_forall. intros c Hc. rewrite mark_test. apply Ht; [done|]. rewrite E, elem_of_app. by right.
Qed.

Lemma deletechildren_spec fuel : forall S A B x,
  widgetlist p = A ++ B -> x ∈ widgetlist p -> ((len - index_of x (widgetlist p)) * (len + 1) + length B < fuel)%nat ->
  exists T, deletechildren fuel (last A) x (mark S p) = Some (mark (S ++ T) p) /\ forall y, y ∈ T <-> below x B y.
Proof.
  induction fuel as [|fuel IH]; intros S A B x E Hx Hf; [by apply Nat.nlt_0_r in Hf|]. cbn [deletechildren].
  destruct (nextin_marked S A B x E Hx) as (w & -> & En). cbn [mbind option_bind]. rewrite En. cbn [mbind option_bind].
  destruct (filter (fun c => child p x c = true) B) as [|c F] eqn:EF; cbn [head].
  { exists []. rewrite app_nil_r. split; [done|]. intros y. split; [by intros ?%not_elem_of_nil|]. intros (c & Hc & Hxc & _).
    exfalso. apply (not_elem_of_nil c). rewrite <- EF. by apply list_elem_of_filter. }
  assert (exists B1 B2, B = B1 ++ c :: B2 /\ filter (fun c => child p x c = true) B1 = []) as (B1 & B2 & -> & HB1).
  { clear -EF. revert F EF. induction B as [|b B IHB]; intros F EF; [done|]. destruct (child p x b) eqn:Eb.
    - rewrite filter_cons_True in EF by done. injection EF as -> _. by exists [], B.
    - rewrite filter_cons_False in EF by congruence. destruct (IHB F EF) as (B1 & B2 & -> & H1). exists (b :: B1), B2. split; [done|].
      by rewrite filter_cons_False by congruence. }
  assert (child p x c = true) as Hxc.
  { apply (proj1 (proj1 (list_elem_of_filter (fun c => child p x c = true) (B1 ++ c :: B2) c) ltac:(rewrite EF; left))). }
  assert (c ∈ widgetlist p) as Hc by (rewrite E, !elem_of_app; right; right; left).
  pose proof (Hpf x c Hx Hc Hxc) as Hlt. pose proof Hc as Hc2. apply list_elem_of_split in Hc2 as (C1 & C2 & EC).
  pose proof (index_of_app _ c C1 C2 EC Hnd) as Hic. assert (index_of c (widgetlist p) < len)%nat as Hil by (rewrite Hic, EC, length_app; cbn; lia).
  destruct (testable_parent p (widgetlist p) c c Ht Hc Hc) as (wc & Hwc & _).
  assert (exists v, entries (mark S p) !! c = Some v) as [v Hv].
  { unfold mark. cbn [with_entries entries]. rewrite mark_lookup, Hwc. by eexists. }
  rewrite (setstate_mark c _ v Hv), mark_app. cbn [mbind option_bind]. rewrite length_app in Hf. cbn [length] in Hf.
  destruct (IH (S ++ [c]) [] (widgetlist p) c) as (T1 & E1 & H1); [done|done|nia|]. cbn [last] in E1. rewrite E1. cbn [mbind option_bind].
  destruct (IH ((S ++ [c]) ++ T1) (A ++ B1 ++ [c]) B2 x) as (T2 & E2 & H2); [by rewrite E, <- !(assoc_L (++))|done|lia|].
  rewrite (assoc_L (++)), last_snoc in E2. rewrite E2. exists (c :: T1 ++ T2). split; [by rewrite <- !(assoc_L (++))|].
  intros y. rewrite below_skip by done. rewrite elem_of_cons, elem_of_app, H1, H2, <- below_all, rtc_tc. naive_solver.
Qed.
End Deletion.

(** C13. Deleting a widget deletes what is in it: [deletechildren] ends, and it marks
    as destroyed exactly the widgets that are in the widget directly or within
    another, and changes nothing else.  Every widget is assumed to come after
    the widgets it is in; a widget that is in itself is never left. *)
Theorem deletechildren_marks p x :
  NoDup (widgetlist p) -> testable p (widgetlist p) -> parents_first p -> x ∈ widgetlist p ->
  exists S, deletechildren (delete_fuel p) None x p = Some (mark S p) /\ forall y, y ∈ S <-> tc (contains p) x y.
Proof.
  intros Hnd Ht Hpf Hx. destruct (deletechildren_spec p Hnd Ht Hpf (delete_fuel p) [] [] (widgetlist p) x) as (S & E & HS); [done|done| |].
  - unfold delete_fuel, walk_fuel. nia.
  - exists S. split; [by destruct p|]. intros y. rewrite HS. symmetry. apply below_all.
Qed.

Lemma deletechildren_marks_witness :
  exists S, deletechildren (delete_fuel sample_pool) None 0%nat sample_pool = Some (mark S sample_pool) /\
    forall y, y ∈ S <-> tc (contains sample_pool) 0%nat y.
Proof.
  apply (deletechildren_marks sample_pool 0%nat).
  - rewrite sample_widgets. apply (NoDup_seq 0 4).
  - apply testable_check. vm_compute. reflexivity.
  - apply parents_check. vm_compute. reflexivity.
  - rewrite sample_widgets. left.
Defined.

(** ** Errors *)

(** Behind the last character [readword] reads nothing and breaks no line. *)
Lemma readword_end data count st : count <= offset st -> readword data count st = Some (0, set_escaped 0 (set_linebreak 0 st)).
Proof. intros H. unfold readword. by replace (Z.to_nat (count - offset st)) with 0%nat by lia. Qed.

(** A comment that the text ends in is never left. *)
Theorem comment_never_ends data count fuel : forall st,
  count <= offset st -> errors st = 0 -> linebreak st = 0 -> parsecomment data count fuel st = None.
Proof.
  induction fuel as [|fuel IH]; intros st Ho He Hl; cbn [parsecomment]; rewrite He, Hl; [done|]. cbn [Z.eqb andb].
  rewrite readword_end by done. cbn [mbind option_bind]. by apply IH.
Qed.

(** A widget that is in itself, before anything else that is in it, is never left. *)
Theorem self_in_self_never_ends p x B fuel :
  NoDup (widgetlist p) -> testable p (widgetlist p) -> x ∈ widgetlist p -> filter (fun c => child p x c = true) (widgetlist p) = x :: B ->
  forall S, deletechildren fuel None x (mark S p) = None.
Proof.
  intros Hnd Ht Hx HB. induction fuel as [|fuel IH]; intros S; [done|]. cbn [deletechildren].
  destruct (nextin_marked p Hnd Ht S [] (widgetlist p) x) as (w & Hw & En); [done|done|]. rewrite Hw. cbn [mbind option_bind].
  cbn [last] in En. rewrite En. cbn [mbind option_bind].
  rewrite HB. cbn [head]. rewrite (setstate_mark x _ w Hw), mark_app. cbn [mbind option_bind]. by rewrite IH.
Qed.

(** The texts of the examples; 34 is the quote. *)
Definition chars (s : String.string) : list Z := removelast (literal s).
Definition run (t : list Z) : option (state * pool) :=
  parser_parse t (Z.of_nat (length t)) 7 (literal "root") (replicate (Z.to_nat BUFFER) 0) pool_start.
Definition errors_of (t : list Z) : option Z := errors ∘ fst <$> run t.

(** [# x] without a line break; [+ fill color] without a value. *)
Example comment_at_end_hangs : errors_of (chars "# x") = None.
Proof. vm_compute. reflexivity. Qed.
Example missing_number_faults : errors_of (chars "+ fill color" ++ [10]) = None.
Proof. vm_compute. reflexivity. Qed.

(** An empty line is an error, though the table has a command for it. *)
Example empty_line_fails : errors_of [10] = Some 1 /\ key_of commands [] = NONE.
Proof. split; vm_compute; reflexivity. Qed.

(** An empty value is skipped: the next word is taken for it. *)
Definition empty_value : list Z := chars "+ text id " ++ [34; 34] ++ chars " content " ++ [34; 120; 34; 10].
Example empty_value_takes_next : errors_of empty_value = Some 1 /\
  ('(_, p) ← run empty_value; w ← entries p !! 0%nat; o ← string_at (strings p) (w_id w); Some (take 8 o)) = Some (literal "content").
Proof. split; vm_compute; reflexivity. Qed.

(** The last word of a text without a separator is lost. *)
Example last_word_lost : errors_of (chars "+ layout") = Some 1.
Proof. vm_compute. reflexivity. Qed.

(** A backslash in quotes escapes nothing: the quote after it ends the value. *)
Definition escaped_quote : list Z := chars "+ layout id " ++ [34; 97; 92; 34] ++ [10].
Example backslash_in_quotes :
  ('(_, p) ← run escaped_quote; w ← entries p !! 0%nat; o ← string_at (strings p) (w_id w); Some (take 3 o)) = Some [97; 92; 0].
Proof. vm_compute. reflexivity. Qed.
